(* ===== verification/_CoqProject ===== *)
-Q . S2P
Prelude.v
Codec.v
Layout.v
Block.v
Format.v
Samples.v
DepthTransaction.v
SourceState.v
Disk.v
Metadata.v
BlockCodec.v
Cut.v
Segment.v
Writer.v
WriterShape.v
WriterInv.v
WriterSteps.v
WriterCalls.v
WriterCuts.v
WriterRun.v
Storage.v
StorageCalls.v
Least.v
Reader.v
ReaderLoops.v
ReaderMerge.v
ReaderSelect.v
ReaderRun.v
StorageRun.v
BufferedWriter.v
BufferedRun.v
CaptureRun.v
Reference.v
ReferenceRun.v
ActiveCursor.v
CutBlocks.v
ServiceProtocol.v
ActiveRun.v
ActiveSamples.v
ServiceRun.v
Archive.v
SpscRing.v
Json.v
JsonObject.v
Integrity.v
SessionManifest.v
Instrument.v
Rows.v
RowText.v
Loader.v
LoaderRun.v
Book.v
Replay.v
ReplayTimeline.v
ReplayDepth.v
ReplayIntegrity.v
Sinks.v
SessionFiles.v
SinkRun.v
StoreReads.v
Vision.v
ServiceConfig.v
Calendar.v
VisionDates.v
