(* ===== verification/Prelude.v ===== *)
(** * hft-recorder: a verification development

    hft-recorder captures market data into a binary corpus or a text session and reads it
    back.  This library models the recording paths, the readers, the replay and the
    structures around them, and proves what their clients rely on.

    ** The program and its parts

    A capture thread converts market events to fixed-size records and offers them to
    [BufferedCorpusWriter], a bounded queue whose worker hands them to
    [BinaryMarketCorpusWriter].  The writer validates each record (format contract, source
    lifecycle, depth-transaction grammar), buffers it in the open segment of its shard,
    compresses full blocks, and keeps every byte it may still have to write reserved
    against the quota.  At intervals it publishes a cut, a durable description of the
    committed blocks, in a file and in memory.  [finalize] seals the segments, the index,
    gap and source tables and the manifest.  A finished recording is read by
    [BinaryMarketCorpusCursor], a k-way merge of the shards; a running one by
    [CorpusActiveCursor], which follows the cuts.

    A text session is a directory of line files with a manifest.  A live session gives its
    rows to event sinks: a store in memory and [JsonSessionSink], which renders each row to a
    line.  [CorpusLoader] reads a session back, checks it against its manifest and reports
    every issue; [SessionReplay] parses the rows, merges them into a timeline, judges their
    integrity and plays them through an order book.  Streams cross threads in a ring.
    A service answers other processes from the latest cut over a local socket.  Reference data
    of the exchanges travels with the cuts as a payload of snapshots.
    Sessions are also imported from daily archives of the exchange, chosen by date from the
    listings of a bucket.

    ** Files and sources

    Paths are below src/src; Contract is Contracts/include/hftrec/CorpusContract, Corpus is
    Runtime/src/Corpus.
    - Prelude: record update, machine integers, list and option lemmas, tactics.
    - Codec: Corpus/Codec (zig-zag, varint, CRC32C) and Contracts/include/hftrec/Status.hpp.
    - Layout: object representations of structs; Block: Corpus/Block headers.
    - Format: Contract/BinaryMarketCorpusFormat.hpp, every struct with its byte layout and
      every validity predicate.
    - DepthTransaction: Contract/BinaryMarketDepthTransaction.hpp, the per-shard grammar;
      SourceState: Corpus/BinaryMarketSourceState.hpp, membership and health of a source.
    - Disk: the files below a corpus root and the faults of the platform.
    - Metadata: Corpus/BinaryMarketMetadataValidation.hpp and the tables and manifest of
      BinaryMarketCorpusWriter.cpp and BinaryMarketCorpusReader.cpp.
    - BlockCodec: Corpus/BinaryMarketBlockCodec.hpp; Segment: segment images and
      [SegmentDecoder].
    - Cut: Corpus/CorpusCut.cpp (writing, validating, decoding) and CorpusCutStorage.hpp.
    - Writer: Corpus/BinaryMarketCorpusWriter.cpp, every operation; WriterShape,
      WriterInv, WriterSteps, WriterCalls and WriterCuts prove its invariant step by step;
      WriterRun states what recordings guarantee.
    - Storage: the relation between the accepted records and the bytes of the segment
      files, kept by every operation (StorageCalls); StorageRun composes it with the reader,
      CutBlocks reads the blocks a published cut refers to.
    - BufferedWriter: Runtime/src/Capture/Parser/BufferedCorpusWriter.cpp, the capture queue;
      BufferedRun: what it hands over; CaptureRun: queue, writer and reader composed.
    - Reference: Contract/RecorderReference.hpp, the payload of reference snapshots and the
      binder of their visibility; ReferenceRun: the binder composed with the writer, and how
      a publication fails.
    - ServiceProtocol: Service/src/RecorderServiceProtocol.hpp, the data of RecorderService.hpp
      and the replies of RecorderServiceServer.cpp with their decoding in
      RecorderServiceClient.cpp; ServiceRun: client and server composed; ServiceConfig:
      Service/src/RecorderServiceConfig.cpp, the profile of the service.
    - Least: the scan for the least head that both cursors use.
    - Reader: Corpus/BinaryMarketCorpusReader.cpp, cursor and selection; ReaderLoops
      (termination), ReaderMerge and ReaderSelect (what is returned), ReaderRun (instances).
    - ActiveCursor: the rest of Corpus/CorpusCut.cpp; ActiveRun, ActiveSamples.
    - Archive: recording metadata, and the writer composed with all metadata readers.
    - SpscRing: Runtime/src/Capture/Session/Stream/SpscRing.hpp.
    - Json: Runtime/src/Common/MiniJsonParser.hpp and JsonString.hpp; JsonObject: the loops
      that read and write objects, as tables of members, with their round trip.
    - Integrity: Contract/Integrity.hpp; SessionManifest: Contract/SessionManifest.hpp and
      Runtime/src/Capture/Session/SessionManifest.cpp; Instrument:
      Corpus/InstrumentMetadata.cpp.
    - Rows: Contract/EventRows.hpp, Runtime/src/Capture/Serialization/JsonSerializers.cpp and
      Runtime/src/Replay/JsonLineParser.cpp; RowText: round trips and typing of rows.
    - Loader: Corpus/CorpusLoader.cpp, LoadReport.hpp and SessionCorpus.hpp, step by step;
      LoaderRun: a load fails closed.
    - Book: Runtime/src/Replay/BookState.cpp.
    - Replay: Runtime/src/Replay/SessionReplay.cpp and SessionReplayTimeline.cpp;
      ReplayTimeline (order and seeks), ReplayDepth (normalization of whole-book rows),
      ReplayIntegrity (incidents and exact replay).
    - Sinks: Corpus/Storage/EventStorage.cpp and JsonSessionStorage.cpp and
      Runtime/src/Capture/Serialization/ChannelJsonWriter.cpp; SessionFiles: the loader on
      stored lines; SinkRun: captures composed with loader and replay; StoreReads: reads of
      the store and the composite sink.
    - Vision: Runtime/src/History/BinanceVisionFormat.cpp, decimals and rows of archives;
      Calendar: its dates; VisionDates: names of archives, listings, dates offered for import.
    - Samples: concrete records for the witnesses.

    ** How the code is modelled

    Integers are [Z] with the wrap-around of their width written out; structs are records
    with byte layouts; files are byte lists; fallible code returns the [Status] of the
    source.  The state of an object is a record and an operation a function on it.  The
    writer's state holds the disk with a list of faults still to come; theorems quantify
    over all fault lists.  Text streams are buffers over a disk that may stop any write after
    any number of bytes; the loader sees an arbitrary function from paths to files.  The event
    sinks are instances of the class [IEventSink], over which the composite sink is generic.
    Capture threads are step functions interleaved arbitrarily, split at their shared accesses;
    the capture queue is generic in the writer through the class [CorpusTarget].  Text is a list of bytes, and
    the scanner is a function of the text still unread.

    Code outside the repository is a parameter: the block compressor is the class
    [ByteBlockCodec] with its documented laws [ByteBlockLaws]; the market library is
    [CxetMarket]; the types and checks of the reference protocol are [ReferenceProtocol]; the
    feed callbacks and the iteration order of hash maps are arguments.  The writer takes its
    reference binder as an argument, as in the source; ReferenceRun installs the real one.

    Bounds and fuel: loops over files that are not structurally recursive carry fuel
    computed from the file lengths ([decoderFuel], [segmentFuel], [shardFuel],
    [cursorFuel]): each iteration consumes bytes or records, so it is never exhausted,
    which ReaderLoops proves.  The text loops carry the length of the text ([skipFuel], the
    object, array, level and run loops): every turn reads a character, and the parsers are
    shown to answer on every text.  All other recursion is structural.

    ** What the theorems show

    - Encodings: varint, zig-zag, file, block and table headers, cuts and segments are read
      back as written; CRC32C equals polynomial division and detects any changed byte, so
      no single-byte corruption of a header or cut is accepted.
    - Grammars: accepted streams are complete depth transactions whose chunks tile the
      levels; source states stay valid, ordered and unhealthy until recovered.
    - Writer: the quota is never exceeded, in a ledger of everything the state says was or
      may have to be written; the cut reservation always suffices, with the recorder's
      reference callback too; the blocks a published cut refers to decode to exactly the
      accepted records, finalized corpora are read back and count them, metadata replacement
      is atomic under every fault; the cache of compressed blocks is the longest run of recent
      blocks that fits and serves exactly these.
    - Readers: [select] terminates and returns the requested part of the strictly ordered
      merge of what the segments hold; once [open] accepts, [next] never fails; a live
      cursor releases each committed record exactly once, in order, never beyond its cut.
    - Recordings: the sealed segments of a finished recording decode to exactly the accepted
      records of each shard, and a selection is made of exactly the accepted records.
    - Capture: under every interleaving of its threads the queue gives the writer exactly the
      accepted offers in order, ends when told to, and a drained and finalized capture is
      read back as the records the queue accepted.
    - References and service: the snapshots of published cuts are only added to, and a payload
      that is accepted is exactly what would be written; a client of the service gets exactly
      the sources and block bytes it asks for; an accepted profile is complete and bounded.
    - Ring and book: FIFO under every interleaving; the lazily sorted book equals its
      per-price reference.
    - Text: rows, manifests and instrument metadata are read back as rendered, and every line
      the parsers accept is a well-formed row.
    - Loading: a load succeeds exactly when no fatal issue is reported.
    - Replay: the timeline is the only ordered arrangement of the rows; after any seeks the
      book is the snapshot with the rows up to the target; whole-book rows are normalized to
      changes with the same books; the integrity counters are those of the incidents, and a
      session declared exact has none on an enabled channel.
    - Text captures: calls that report success lose nothing on any disk, and a session with
      its manifest, metadata and reports is replayed with exactly the rows stored (whole-book
      rows normalized) and accepted when they are numbered in order; store reads answer the rows asked for; the
      composite sink gives each sink every call.
    - History import: decimals are read exactly or refused, imported rows say what the columns
      of their lines say and are stored and loaded unchanged, ranges of dates follow the calendar, names of archives are read back,
      and the dates offered are the latest ones for which everything is listed.
    - Departures of the code from its comments are theorems too: [burnt_segment_number],
      [mixed_numbering_cycle], [refresh_keeps_later_levels],
      [shared_sequence_degrades_trades_only], [snapshot_row_refused],
      [unordered_depth_range], [reference_payload_lost], [bookTicker_zero_refused] and
      [disabled_channel_shares_sequence].

    ** Not modelled

    Allocation failures, the error texts of the binary corpus and file ownership checks; the
    coordinator, parser client, command line and graphical programs, and the sockets and
    process control of the service, which are threads, sockets and presentation around the
    modelled core; the conversions to and from
    the types of the exchange and replay libraries, which are not part of the repository. *)
From stdpp Require Import base list numbers strings sorting.
From Stdlib Require Export ZArith Lia.

#[global] Set Default Goal Selector "!".
Local Open Scope Z_scope.

(** ** Record update

    [r <| f := v |>] is the record [r] with field [f] replaced by [v] and
    [r <| f ::= g |>] applies [g] to that field.  A record declares its
    eta-expansion once (an instance of [Eta]); the setter of a field is the
    abstraction of the eta-expansion over that field's projection. *)
Class Eta (R : Type) := eta : R -> R.
Class Setter {R E : Type} (p : R -> E) := upd : (E -> E) -> R -> R.
Arguments upd {R E} p {Setter} f r /.

Ltac build_setter :=
  lazymatch goal with
  | |- @Setter ?R ?E ?p =>
      let e := constr:(_ : Eta R) in
      let e := eval hnf in e in
      lazymatch eval pattern p in e with
      | ?s _ => exact (fun f : E -> E => s (fun r => f (p r)))
      end
  end.
#[global] Hint Extern 0 (Setter _) => build_setter : typeclass_instances.

Declare Scope record_scope.
Delimit Scope record_scope with record.
Notation "r <| p ::= f |>" := (upd p f r)
  (at level 12, left associativity, p at level 9) : record_scope.
Notation "r <| p := v |>" := (upd p (fun _ => v) r)
  (at level 12, left associativity, p at level 9) : record_scope.
Global Open Scope record_scope.

(** ** Machine integers

    An unsigned w-bit integer is a [Z] in [0, 2^w); the wrap-around of C++
    unsigned arithmetic is written out with [u8] .. [u64], the two's complement
    reinterpretation of a 64-bit word with [i64]. *)
Definition u8 (x : Z) : Z := x mod 2 ^ 8.
Definition u16 (x : Z) : Z := x mod 2 ^ 16.
Definition u32 (x : Z) : Z := x mod 2 ^ 32.
Definition u64 (x : Z) : Z := x mod 2 ^ 64.
Definition i64 (x : Z) : Z := (x + 2 ^ 63) mod 2 ^ 64 - 2 ^ 63.
Definition u32_max : Z := 2 ^ 32 - 1.
Definition u64_max : Z := 2 ^ 64 - 1.
Definition i64_max : Z := 2 ^ 63 - 1.
Definition i64_min : Z := - 2 ^ 63.

Definition in_u8 (x : Z) : Prop := 0 <= x < 2 ^ 8.
Definition in_u16 (x : Z) : Prop := 0 <= x < 2 ^ 16.
Definition in_u32 (x : Z) : Prop := 0 <= x < 2 ^ 32.
Definition in_u64 (x : Z) : Prop := 0 <= x < 2 ^ 64.
Definition in_i64 (x : Z) : Prop := - 2 ^ 63 <= x < 2 ^ 63.

#[export] Instance in_u8_dec x : Decision (in_u8 x).
Proof. unfold in_u8. apply _. Defined.
#[export] Instance in_u64_dec x : Decision (in_u64 x).
Proof. unfold in_u64. apply _. Defined.
#[export] Instance in_i64_dec x : Decision (in_i64 x).
Proof. unfold in_i64. apply _. Defined.

(** [mlia] is [lia] with the width predicates and the limits unfolded. *)
Ltac munfold :=
  unfold in_u8, in_u16, in_u32, in_u64, in_i64,
    u32_max, u64_max, i64_max, i64_min in *;
  change (2 ^ 8) with 256 in *; change (2 ^ 16) with 65536 in *;
  change (2 ^ 32) with 4294967296 in *;
  change (2 ^ 63) with 9223372036854775808 in *;
  change (2 ^ 64) with 18446744073709551616 in *.
Ltac mlia := munfold; lia.

Lemma u64_id x : in_u64 x -> u64 x = x.
Proof. intros ?. apply Z.mod_small. done. Qed.
Lemma u32_id x : in_u32 x -> u32 x = x.
Proof. intros ?. apply Z.mod_small. done. Qed.
Lemma u16_id x : in_u16 x -> u16 x = x.
Proof. intros ?. apply Z.mod_small. done. Qed.
Lemma u8_id x : in_u8 x -> u8 x = x.
Proof. intros ?. apply Z.mod_small. done. Qed.
Lemma i64_id x : in_i64 x -> i64 x = x.
Proof. intros ?. unfold i64. rewrite Z.mod_small; mlia. Qed.
Lemma u64_range x : in_u64 (u64 x).
Proof. apply Z.mod_pos_bound. lia. Qed.
Lemma u32_range x : in_u32 (u32 x).
Proof. apply Z.mod_pos_bound. lia. Qed.
Lemma u16_range x : in_u16 (u16 x).
Proof. apply Z.mod_pos_bound. lia. Qed.
Lemma u8_range x : in_u8 (u8 x).
Proof. apply Z.mod_pos_bound. lia. Qed.
Lemma i64_range x : in_i64 (i64 x).
Proof. unfold i64. pose proof (Z.mod_pos_bound (x + 2 ^ 63) (2 ^ 64)). mlia. Qed.
Lemma i64_u64 x : in_i64 x -> i64 (u64 x) = x.
Proof.
  intros Hx. unfold i64, u64.
  rewrite Zplus_mod_idemp_l. apply (i64_id x Hx).
Qed.
Lemma u64_i64 x : in_u64 x -> u64 (i64 x) = x.
Proof.
  intros Hx. unfold i64, u64.
  rewrite Zminus_mod_idemp_l, Z.add_simpl_r. by apply Z.mod_small.
Qed.

Lemma i64_congr x : exists k, i64 x = x + k * 2 ^ 64.
Proof.
  exists (- ((x + 2 ^ 63) / 2 ^ 64)). unfold i64.
  pose proof (Z.div_mod (x + 2 ^ 63) (2 ^ 64) ltac:(lia)). lia.
Qed.

Create HintDb machine.
Create Rewrite HintDb machine.
#[export] Hint Resolve u64_range u32_range u16_range u8_range i64_range : machine.
#[export] Hint Rewrite u64_id u32_id u16_id u8_id i64_id using (mlia) : machine.

(** ** Bit masks *)

(** [(flags & bit) != 0u] *)
Definition has (flags bit : Z) : bool := negb (Z.land flags bit =? 0).
(** [(flags & ~known) != 0u] *)
Definition outside (flags known : Z) : bool := negb (Z.ldiff flags known =? 0).
(** [flags &= ~bits] on a 16-bit mask *)
Definition clear (flags bits : Z) : Z := Z.ldiff flags bits.

Lemma has_bit m i : 0 <= i -> has m (2 ^ i) = Z.testbit m i.
Proof.
  intros Hi. unfold has. destruct (Z.testbit m i) eqn:E.
  - apply negb_true_iff, Z.eqb_neq. intros H0.
    assert (Z.testbit (Z.land m (2 ^ i)) i = true) as T.
    { by rewrite Z.land_spec, E, Z.pow2_bits_true. }
    rewrite H0, Z.bits_0 in T. done.
  - apply negb_false_iff, Z.eqb_eq, Z.bits_inj'. intros n Hn.
    rewrite Z.land_spec, Z.bits_0, Z.pow2_bits_eqb by done.
    destruct (Z.eqb_spec i n); subst; rewrite ?E; auto using andb_false_r.
Qed.

Lemma outside_testbit m k i :
  outside m k = false -> Z.testbit m i = true -> Z.testbit k i = true.
Proof.
  unfold outside. intros H%negb_false_iff%Z.eqb_eq T.
  destruct (Z.testbit k i) eqn:E; [done|].
  assert (Z.testbit (Z.ldiff m k) i = true) as C
    by (by rewrite Z.ldiff_spec, T, E).
  by rewrite H, Z.bits_0 in C.
Qed.

Lemma lor_bound n a b :
  0 <= n -> 0 <= a < 2 ^ n -> 0 <= b < 2 ^ n -> 0 <= Z.lor a b < 2 ^ n.
Proof.
  intros Hn Ha Hb. assert (a = a mod 2 ^ n) as -> by (symmetry; apply Z.mod_small; done).
  assert (b = b mod 2 ^ n) as -> by (symmetry; apply Z.mod_small; done).
  rewrite <- !Z.land_ones, <- Z.land_lor_distr_l, Z.land_ones by lia. apply Z.mod_pos_bound. lia.
Qed.
Lemma lxor_bound n a b :
  0 <= n -> 0 <= a < 2 ^ n -> 0 <= b < 2 ^ n -> 0 <= Z.lxor a b < 2 ^ n.
Proof.
  intros Hn Ha Hb. assert (Z.lxor a b = Z.lxor a b mod 2 ^ n) as ->.
  2: { apply Z.mod_pos_bound. lia. }
  rewrite <- Z.land_ones by done. apply Z.bits_inj'. intros i Hi.
  rewrite Z.land_spec, Z.testbit_ones, Z.lxor_spec by done.
  destruct (Z.leb_spec 0 i); [|lia].
  destruct (Z.ltb_spec i n); [by rewrite andb_true_r|].
  rewrite <- (Z.mod_small a (2 ^ n)), <- (Z.mod_small b (2 ^ n)) by done.
  by rewrite !Z.mod_pow2_bits_high by lia.
Qed.

Lemma lxor_ones n x : 0 <= x < 2 ^ n -> Z.lxor x (Z.ones n) = Z.ones n - x.
Proof.
  intros Hx. assert (0 <= n) as Hn.
  { destruct (Z.le_gt_cases 0 n); [done|]. rewrite Z.pow_neg_r in Hx; lia. }
  assert (forall i, n <= i -> Z.testbit x i = false) as Hhigh.
  { intros i Hi.
    rewrite <- (Z.mod_small x (2 ^ n)) by done. apply Z.mod_pow2_bits_high. lia. }
  rewrite Z.sub_nocarry_ldiff.
  - apply Z.bits_inj'. intros i Hi.
    rewrite Z.lxor_spec, Z.ldiff_spec, Z.testbit_ones by done.
    destruct (Z.leb_spec 0 i), (Z.ltb_spec i n); try lia; simpl.
    + by rewrite xorb_true_r.
    + by rewrite Hhigh by lia.
  - apply Z.bits_inj'. intros i Hi.
    rewrite Z.ldiff_spec, Z.testbit_ones, Z.bits_0 by done.
    destruct (Z.leb_spec 0 i), (Z.ltb_spec i n); try lia.
    by rewrite Hhigh by lia.
Qed.

(** ** Booleans

    [bsplit] turns boolean hypotheses built from [&&], [||], [negb] and the
    comparisons of [Z] into propositions, so that [lia] sees them. *)
Ltac bsplit :=
  repeat match goal with
  | H : _ && _ = true |- _ => apply andb_true_iff in H as [? ?]
  | H : _ || _ = false |- _ => apply orb_false_iff in H as [? ?]
  | H : Bool.eqb _ _ = true |- _ => apply eqb_prop in H
  | H : Bool.eqb _ _ = false |- _ => apply eqb_false_iff in H
  | H : negb _ = true |- _ => apply negb_true_iff in H
  | H : negb _ = false |- _ => apply negb_false_iff in H
  | H : (_ =? _) = true |- _ => apply Z.eqb_eq in H
  | H : (_ =? _) = false |- _ => apply Z.eqb_neq in H
  | H : (_ <? _) = true |- _ => apply Z.ltb_lt in H
  | H : (_ <? _) = false |- _ => apply Z.ltb_ge in H
  | H : (_ <=? _) = true |- _ => apply Z.leb_le in H
  | H : (_ <=? _) = false |- _ => apply Z.leb_gt in H
  end.

(** [on_if E]: case analysis on the outermost condition of the code being run,
    in the goal or in a hypothesis. *)
Tactic Notation "on_if" ident(E) :=
  lazymatch goal with
  | |- (if ?c then _ else _) = _ -> _ => destruct c eqn:E
  | |- (if ?c then _ else _) = _ => destruct c eqn:E
  end.
Tactic Notation "on_if" ident(E) "in" hyp(H) :=
  lazymatch type of H with (if ?c then _ else _) = _ => destruct c eqn:E end.

(** A boolean property of bytes is checked by evaluating it on all of them. *)
Lemma byte_cases (P : Z -> bool) :
  forallb P (map Z.of_nat (seq 0 256)) = true -> forall b, in_u8 b -> P b = true.
Proof.
  rewrite forallb_forall. intros H b Hb. apply H. apply in_map_iff.
  exists (Z.to_nat b). split; [mlia|]. apply in_seq. mlia.
Qed.

(** ** Sums over lists *)

Definition sumZ {A} (f : A -> Z) (xs : list A) : Z := foldr (fun x total => f x + total) 0 xs.

Section sums.
Context {A : Type} (f : A -> Z).

Lemma sumZ_app xs ys : sumZ f (xs ++ ys) = sumZ f xs + sumZ f ys.
Proof. induction xs as [|x xs IH]; cbn; [done|]. fold (sumZ f (xs ++ ys)). rewrite IH. cbn.
  fold (sumZ f xs). lia. Qed.

Lemma sumZ_insert xs i x y : xs !! i = Some x ->
  sumZ f (<[i := y]> xs) = sumZ f xs - f x + f y.
Proof.
  revert i. induction xs as [|z xs IH]; intros [|i]; try done.
  - intros [= ->]. cbn. lia.
  - intros Hi. specialize (IH i Hi). change (<[S i := y]> (z :: xs)) with (z :: <[i := y]> xs).
    unfold sumZ in *. cbn [foldr]. lia.
Qed.

Lemma sumZ_nonneg xs : Forall (fun x => 0 <= f x) xs -> 0 <= sumZ f xs.
Proof. induction 1; cbn; [lia|]. fold (sumZ f l). lia. Qed.

Lemma sumZ_member xs x : Forall (fun x => 0 <= f x) xs -> x ∈ xs -> f x <= sumZ f xs.
Proof.
  induction 1 as [|z xs Hz Hxs IH]; [by intros ?%elem_of_nil|].
  pose proof (sumZ_nonneg _ Hxs). cbn. fold (sumZ f xs).
  intros [->|Hin]%elem_of_cons; [lia|]. specialize (IH Hin). lia.
Qed.

Lemma sumZ_replicate n x : sumZ f (replicate n x) = Z.of_nat n * f x.
Proof. induction n; cbn -[Z.of_nat]; [done|]. fold (sumZ f (replicate n x)). lia. Qed.
End sums.

(** The characters of a string literal as bytes. *)
Definition bytes_of_string (s : string) : list Z :=
  map (fun c => Z.of_N (Ascii.N_of_ascii c)) (String.list_ascii_of_string s).

Definition nonEmpty {A} (xs : list A) : bool := negb (bool_decide (length xs = 0%nat)).

Lemma bytes_of_string_bytes s : Forall in_u8 (bytes_of_string s).
Proof.
  unfold bytes_of_string. apply Forall_map, Forall_true. intros c. unfold in_u8.
  pose proof (Ascii.N_ascii_bounded c). change (2 ^ 8) with 256. lia.
Qed.

Lemma bytes_checked s : forallb (fun b => (0 <=? b) && (b <? 256)) s = true -> Forall in_u8 s.
Proof.
  intros Hs. apply List.Forall_forall. intros b Hin. rewrite forallb_forall in Hs. specialize (Hs b Hin).
  apply andb_true_iff in Hs as [H1%Z.leb_le H2%Z.ltb_lt]. by split.
Qed.

(** ** Selections, permutations and sorted lists *)

Lemma filter_permutation {A} (f : A -> bool) (xs ys : list A) :
  xs ≡ₚ ys -> List.filter f xs ≡ₚ List.filter f ys.
Proof.
  induction 1 as [|x xs ys _ IH|x y xs|xs ys zs _ IH1 _ IH2]; cbn; [done| | |by etrans].
  - by destruct (f x); rewrite ?IH.
  - destruct (f x), (f y); try done. apply Permutation_swap.
Qed.

Lemma filter_and {A} (f g : A -> bool) xs :
  List.filter f (List.filter g xs) = List.filter (fun x => g x && f x) xs.
Proof.
  induction xs as [|x xs IH]; [done|]. cbn. destruct (g x); cbn; [|done].
  destruct (f x); by rewrite IH.
Qed.

Lemma filter_split {A} (f : A -> bool) xs :
  List.filter f xs ++ List.filter (fun x => negb (f x)) xs ≡ₚ xs.
Proof.
  induction xs as [|x xs IH]; [done|]. cbn. destruct (f x); cbn; [by rewrite IH|].
  by rewrite <- Permutation_middle, IH.
Qed.

(** Two lists with the same parts are permutations of each other. *)
Lemma parts_permutation {A} (key : A -> Z) n : forall xs ys,
  Forall (fun x => 0 <= key x < Z.of_nat n) xs -> Forall (fun y => 0 <= key y < Z.of_nat n) ys ->
  (forall i, 0 <= i < Z.of_nat n ->
     List.filter (fun x => key x =? i) xs = List.filter (fun x => key x =? i) ys) ->
  xs ≡ₚ ys.
Proof.
  induction n as [|n IH]; intros xs ys Hx Hy Heq.
  { destruct xs as [|x xs]; [|apply Forall_cons in Hx as [? _]; lia].
    destruct ys as [|y ys]; [done|apply Forall_cons in Hy as [? _]; lia]. }
  rewrite <- (filter_split (fun x => key x =? Z.of_nat n) xs),
    <- (filter_split (fun x => key x =? Z.of_nat n) ys), Heq by lia.
  assert (forall zs, Forall (fun z => 0 <= key z < Z.of_nat (S n)) zs ->
    Forall (fun z => 0 <= key z < Z.of_nat n)
      (List.filter (fun z => negb (key z =? Z.of_nat n)) zs)) as Hbound.
  { intros zs Hz. apply List.Forall_forall. intros z [Hin Hk]%filter_In.
    eapply List.Forall_forall in Hz; [|exact Hin]. bsplit. lia. }
  f_equiv. apply IH; [by apply Hbound..|]. intros i Hi. rewrite !filter_and.
  assert (forall zs, List.filter (fun z => negb (key z =? Z.of_nat n) && (key z =? i)) zs =
    List.filter (fun z => key z =? i) zs) as Hsame.
  { intros zs. apply List.filter_ext. intros z.
    destruct (Z.eqb_spec (key z) (Z.of_nat n)), (Z.eqb_spec (key z) i); cbn; try done. lia. }
  rewrite !Hsame. apply Heq. lia.
Qed.

Lemma seq_sorted n : forall start, StronglySorted Nat.lt (seq start n).
Proof.
  induction n as [|n IH]; intros start; cbn; [constructor|]. constructor; [apply IH|].
  apply List.Forall_forall. intros x Hx%in_seq. lia.
Qed.

Lemma StronglySorted_snoc {A} (R : A -> A -> Prop) xs x :
  StronglySorted R (xs ++ [x]) <-> StronglySorted R xs /\ Forall (fun y => R y x) xs.
Proof.
  induction xs as [|y xs IH]; cbn.
  - split; [by intros _; split; constructor|]. intros _. by repeat constructor.
  - split.
    + intros [Hs Hall]%StronglySorted_inv. apply IH in Hs as [Hs Hx]. apply Forall_app in Hall as [Hall Hy].
      apply Forall_cons in Hy as [Hy _]. split; by constructor.
    + intros [[Hs Hall]%StronglySorted_inv [Hy Hx]%Forall_cons]. constructor; [by apply IH|].
      apply Forall_app. split; [done|]. by repeat constructor.
Qed.
Lemma StronglySorted_map {A B} (f : A -> B) (R : A -> A -> Prop) (S : B -> B -> Prop) xs :
  (forall a b, R a b -> S (f a) (f b)) -> StronglySorted R xs -> StronglySorted S (map f xs).
Proof.
  intros Hf. induction 1 as [|x xs _ IH Hx]; cbn; constructor; [done|].
  apply Forall_map. eapply Forall_impl; [exact Hx|]. intros y. apply Hf.
Qed.

Lemma StronglySorted_filter {A} (f : A -> bool) (R : A -> A -> Prop) xs :
  StronglySorted R xs -> StronglySorted R (List.filter f xs).
Proof.
  induction 1 as [|x xs _ IH Hx]; cbn; [constructor|]. destruct (f x); [|done]. constructor; [done|].
  apply List.Forall_forall. intros y [Hin _]%filter_In. by eapply List.Forall_forall in Hin.
Qed.

(** ** Little-endian words *)

(** The object representation of an unsigned integer of [n] bytes. *)
Fixpoint le_enc (n : nat) (z : Z) : list Z :=
  match n with
  | O => []
  | S n => z mod 256 :: le_enc n (z / 256)
  end.

Fixpoint le_dec (bs : list Z) : Z :=
  match bs with
  | [] => 0
  | b :: bs => b + 256 * le_dec bs
  end.

Lemma length_le_enc n z : length (le_enc n z) = n.
Proof. revert z. induction n; intros; simpl; f_equal; auto. Qed.

Lemma le_enc_bytes n z : Forall in_u8 (le_enc n z).
Proof.
  revert z. induction n; intros z; simpl; constructor; auto.
  apply (Z.mod_pos_bound z 256). lia.
Qed.

Lemma le_dec_bound bs :
  Forall in_u8 bs -> 0 <= le_dec bs < 2 ^ (8 * Z.of_nat (length bs)).
Proof.
  induction 1 as [|b bs Hb _ IH]; simpl; [lia|].
  rewrite Nat2Z.inj_succ, Z.mul_succ_r, Z.add_comm, Z.pow_add_r by lia.
  change (2 ^ 8) with 256. mlia.
Qed.

Lemma le_dec_enc n z :
  0 <= z < 2 ^ (8 * Z.of_nat n) -> le_dec (le_enc n z) = z.
Proof.
  revert z. induction n as [|n IH]; intros z Hz; simpl.
  - simpl in Hz. lia.
  - rewrite IH; [pose proof (Z.div_mod z 256); lia|].
    rewrite Nat2Z.inj_succ, Z.mul_succ_r, Z.add_comm, Z.pow_add_r in Hz by lia.
    change (2 ^ 8) with 256 in Hz.
    split; [apply Z.div_pos; lia | apply Z.div_lt_upper_bound; lia].
Qed.

Lemma le_enc_dec bs : Forall in_u8 bs -> le_enc (length bs) (le_dec bs) = bs.
Proof.
  induction 1 as [|b bs Hb _ IH]; simpl; [done|].
  rewrite Z.mul_comm, Z.mod_add, Z.div_add by lia.
  rewrite Z.mod_small, Z.div_small by mlia. by rewrite Z.add_0_l, IH.
Qed.
