(* ===== verification/Codec.v ===== *)
(** * Codec: status codes, zig-zag, LEB128 varints and CRC32C

    Models src/src/Contracts/include/hftrec/Status.hpp and the files of
    src/src/Runtime/src/Corpus/Codec.  Theorems: the zig-zag map is a bijection
    between [int64_t] and [uint64_t]; a varint written into a sufficient buffer
    is read back exactly, whatever follows it, and a truncated varint is never
    accepted; the table-driven CRC equals the bitwise polynomial division,
    can be fed in pieces, and detects every single-byte corruption. *)
From stdpp Require Import base list numbers.
From S2P Require Import Prelude.
Local Open Scope Z_scope.

(** ** Status.hpp *)
Inductive Status :=
| Ok | InvalidArgument | IoError | OutOfRange | CorruptData | Unimplemented
| Cancelled | Unknown.

#[export] Instance Status_eq_dec : EqDecision Status.
Proof. solve_decision. Defined.

Definition isOk (status : Status) : bool := bool_decide (status = Ok).

(** ** ZigZag.hpp *)
Module ZigZag.

Definition zigzagEncode (v : Z) : Z :=
  u64 (Z.lxor (i64 (Z.shiftl v 1)) (Z.shiftr v 63)).

Definition zigzagDecode (u : Z) : Z :=
  i64 (Z.lxor (Z.shiftr u 1) (u64 (- Z.land u 1))).

(** The arithmetic reading of the two bit tricks. *)
Lemma zigzagEncode_spec v :
  in_i64 v -> zigzagEncode v = if 0 <=? v then 2 * v else - 2 * v - 1.
Proof.
  intros Hv. unfold zigzagEncode.
  rewrite Z.shiftl_mul_pow2, Z.shiftr_div_pow2 by lia. change (2 ^ 1) with 2.
  destruct (i64_congr (v * 2)) as [k ->]. unfold u64.
  destruct (Z.leb_spec 0 v).
  - rewrite (Z.div_small v) by mlia. rewrite Z.lxor_0_r, Z.mod_add by lia.
    rewrite Z.mod_small; mlia.
  - replace (v / 2 ^ 63) with (-1)
      by (apply (Z.div_unique_pos _ _ _ (v + 2 ^ 63)); mlia).
    rewrite Z.lxor_m1_r. unfold Z.lnot.
    replace (Z.pred (- (v * 2 + k * 2 ^ 64)))
      with (- 2 * v - 1 + - k * 2 ^ 64) by lia.
    rewrite Z.mod_add by lia. rewrite Z.mod_small; mlia.
Qed.

Lemma zigzagDecode_spec u :
  in_u64 u ->
  zigzagDecode u = if Z.even u then u / 2 else - (u / 2) - 1.
Proof.
  intros Hu. unfold zigzagDecode.
  rewrite Z.shiftr_div_pow2 by lia. change (2 ^ 1) with 2.
  replace (Z.land u 1) with (u mod 2) by (symmetry; by apply (Z.land_ones u 1)).
  pose proof (Z.div_mod u 2 ltac:(lia)) as Hd.
  rewrite Zmod_even in *. destruct (Z.even u).
  - change (u64 (- 0)) with 0. rewrite Z.lxor_0_r. apply i64_id. mlia.
  - change (u64 (- (1))) with (Z.ones 64).
    rewrite lxor_ones by mlia. unfold i64.
    replace (Z.ones 64 - u / 2 + 2 ^ 63) with (2 ^ 63 - 1 - u / 2 + 1 * 2 ^ 64)
      by (change (Z.ones 64) with (2 ^ 64 - 1); lia).
    rewrite Z.mod_add by lia. rewrite Z.mod_small; mlia.
Qed.

(** The zig-zag map is a bijection between [int64_t] and [uint64_t]:
    encoding and decoding are total on their machine ranges and invert each other. *)
Theorem zigzag_bijection (v u : Z) (Hv : in_i64 v) (Hu : in_u64 u) :
  in_u64 (zigzagEncode v) /\ zigzagDecode (zigzagEncode v) = v /\
  in_i64 (zigzagDecode u) /\ zigzagEncode (zigzagDecode u) = u.
Proof.
  assert (in_u64 (zigzagEncode v)) as He
    by (rewrite zigzagEncode_spec by done; destruct (Z.leb_spec 0 v); mlia).
  assert (in_i64 (zigzagDecode u)) as Hd by apply i64_range.
  split_and!; [done| |done|].
  - rewrite zigzagDecode_spec, !zigzagEncode_spec by done.
    destruct (Z.leb_spec 0 v).
    + rewrite Z.even_mul. simpl. rewrite (Z.mul_comm 2), Z.div_mul; lia.
    + replace (- 2 * v - 1) with (1 + 2 * (- v - 1)) by lia.
      rewrite Z.even_add_mul_2. simpl.
      rewrite (Z.mul_comm 2), Z.div_add by lia.
      change (1 / 2) with 0. lia.
  - rewrite zigzagEncode_spec, zigzagDecode_spec by done.
    pose proof (Z.div_mod u 2 ltac:(lia)) as Hm. rewrite Zmod_even in Hm.
    destruct (Z.even u), (Z.leb_spec 0 (u / 2)), (Z.leb_spec 0 (- (u / 2) - 1));
      mlia.
Qed.

Lemma zigzag_bijection_witness :
  in_u64 (zigzagEncode i64_min) /\ zigzagDecode (zigzagEncode i64_min) = i64_min /\
  in_i64 (zigzagDecode u64_max) /\ zigzagEncode (zigzagDecode u64_max) = u64_max.
Proof. apply (zigzag_bijection i64_min u64_max); mlia. Defined.

End ZigZag.

(** ** VarInt.cpp

    The output buffer is the list of the bytes written (its length is the
    [written] out-parameter); [out] is [false] for a null pointer.  The input
    is [None] for a null pointer, else the [len] readable bytes. *)
Module VarInt.

(** The [while (true)] loop of [varintEncode]; every turn either stops or
    shifts seven bits out of [value], so ten turns exhaust 64 bits. *)
Fixpoint encode_loop (fuel : nat) (value cap : Z) (written : list Z)
  : Status * list Z :=
  match fuel with
  | O => (Unknown, written)
  | S fuel =>
      if cap <=? Z.of_nat (length written) then (OutOfRange, written)
      else
        let byte := u8 (Z.land value 0x7F) in
        let value := Z.shiftr value 7 in
        let byte := if negb (value =? 0) then Z.lor byte 0x80 else byte in
        let written := written ++ [byte] in
        if value =? 0 then (Ok, written)
        else encode_loop fuel value cap written
  end.

Definition varintEncode (value : Z) (out : bool) (cap : Z) : Status * list Z :=
  if negb out then (InvalidArgument, [])
  else encode_loop 10 value cap [].

Fixpoint decode_loop (input : list Z) (consumed acc shift : Z)
  : Status * Z * Z :=
  match input with
  | [] => (OutOfRange, consumed, 0)
  | byte :: input =>
      let consumed := consumed + 1 in
      let acc := Z.lor acc (u64 (Z.shiftl (Z.land byte 0x7F) shift)) in
      if Z.land byte 0x80 =? 0 then (Ok, consumed, acc)
      else
        let shift := shift + 7 in
        if 70 <=? shift then (InvalidArgument, consumed, 0)
        else decode_loop input consumed acc shift
  end.

(** The result is the status with the [consumed] and [out] parameters. *)
Definition varintDecode (input : option (list Z)) : Status * Z * Z :=
  match input with
  | None => (InvalidArgument, 0, 0)
  | Some input => decode_loop input 0 0 0
  end.

(** The LEB128 byte string of a value: the specification of the encoder. *)
Fixpoint leb128 (fuel : nat) (value : Z) : list Z :=
  match fuel with
  | O => []
  | S fuel =>
      if value / 128 =? 0 then [value mod 128]
      else value mod 128 + 128 :: leb128 fuel (value / 128)
  end.

Lemma low7 value : u8 (Z.land value 0x7F) = value mod 128.
Proof.
  change 0x7F with (Z.ones 7). rewrite Z.land_ones by lia. change (2 ^ 7) with 128.
  apply u8_id. pose proof (Z.mod_pos_bound value 128). mlia.
Qed.

Lemma lor_128 b : 0 <= b < 128 -> Z.lor b 0x80 = b + 128.
Proof.
  intros Hb. rewrite <- Z.lxor_lor, <- Z.add_nocarry_lxor; try done.
  all: change 0x80 with (2 ^ 7); apply Z.bits_inj'; intros i Hi;
    rewrite Z.land_spec, Z.bits_0, Z.pow2_bits_eqb by lia;
    destruct (Z.eqb_spec 7 i); subst; rewrite ?andb_false_r; auto;
    rewrite andb_true_r, <- (Z.mod_small b (2 ^ 7)) by (simpl; lia);
    apply Z.mod_pow2_bits_high; lia.
Qed.

Lemma high_bit b : in_u8 b -> (Z.land b 0x80 =? 0) = (b <? 128).
Proof.
  intros Hb. apply eqb_true_iff. revert b Hb. by apply byte_cases; vm_compute.
Qed.

Lemma encode_loop_leb128 fuel value cap written :
  0 <= value < 2 ^ (7 * Z.of_nat fuel) -> (0 < fuel)%nat ->
  Z.of_nat (length written + length (leb128 fuel value)) <= cap ->
  encode_loop fuel value cap written = (Ok, written ++ leb128 fuel value).
Proof.
  revert value written. induction fuel as [|fuel IH]; intros value written Hv Hf Hcap;
    [lia|]. simpl in *.
  rewrite low7, Z.shiftr_div_pow2 by lia. change (2 ^ 7) with 128 in *.
  pose proof (Z.mod_pos_bound value 128 ltac:(lia)) as Hm.
  destruct (Z.eqb_spec (value / 128) 0) as [E|E]; simpl in *.
  - destruct (Z.leb_spec cap (Z.of_nat (length written))); [lia|done].
  - destruct (Z.leb_spec cap (Z.of_nat (length written))); [lia|].
    rewrite lor_128 by done.
    replace (7 * Z.of_nat (S fuel)) with (7 + 7 * Z.of_nat fuel) in Hv by lia.
    rewrite Z.pow_add_r in Hv by lia. change (2 ^ 7) with 128 in Hv.
    assert (0 <= value / 128 < 2 ^ (7 * Z.of_nat fuel)).
    { split; [apply Z.div_pos; lia|apply Z.div_lt_upper_bound; lia]. }
    rewrite IH; [by rewrite <- app_assoc|done| |].
    + destruct fuel; [simpl in *; lia|lia].
    + rewrite length_app. simpl. lia.
Qed.

Lemma length_leb128 fuel value :
  (0 < fuel)%nat -> (1 <= length (leb128 fuel value) <= fuel)%nat.
Proof.
  revert value. induction fuel as [|fuel IH]; intros value Hf; [lia|]. simpl.
  destruct (Z.eqb_spec (value / 128) 0); simpl; [lia|].
  destruct fuel; [simpl; lia|]. specialize (IH (value / 128)). lia.
Qed.

Lemma lor_shift acc v s :
  0 <= s -> 0 <= acc < 2 ^ s -> 0 <= v -> Z.lor acc (v * 2 ^ s) = acc + v * 2 ^ s.
Proof.
  intros Hs Ha Hv. rewrite <- Z.lxor_lor, <- Z.add_nocarry_lxor; try done.
  all: apply Z.bits_inj'; intros i Hi; rewrite Z.land_spec, Z.bits_0;
    destruct (Z.lt_ge_cases i s);
    [rewrite Z.mul_pow2_bits_low by done; apply andb_false_r|
     rewrite <- (Z.mod_small acc (2 ^ s)), Z.mod_pow2_bits_high by lia; done].
Qed.

(** Reading back [leb128 fuel value] from bit position [7 k] on. *)
Lemma decode_loop_leb128 fuel k value acc rest consumed :
  (0 < fuel)%nat -> Z.of_nat (fuel + k) = 10 ->
  0 <= value < 2 ^ (64 - 7 * Z.of_nat k) -> 0 <= acc < 2 ^ (7 * Z.of_nat k) ->
  decode_loop (leb128 fuel value ++ rest) consumed acc (7 * Z.of_nat k) =
    (Ok, consumed + Z.of_nat (length (leb128 fuel value)),
     acc + value * 2 ^ (7 * Z.of_nat k)).
Proof.
  revert k value acc consumed.
  induction fuel as [|fuel IH]; intros k value acc consumed Hf Hk Hv Ha; [lia|].
  simpl leb128.
  pose proof (Z.mod_pos_bound value 128 ltac:(lia)) as Hm.
  pose proof (Z.div_mod value 128 ltac:(lia)) as Hd.
  assert (0 < 2 ^ (7 * Z.of_nat k)) as Hp by (apply Z.pow_pos_nonneg; lia).
  assert (2 ^ (64 - 7 * Z.of_nat k) * 2 ^ (7 * Z.of_nat k) = 2 ^ 64) as H64
    by (rewrite <- Z.pow_add_r by lia; f_equal; lia).
  assert (forall b, b = value mod 128 \/ b = value mod 128 + 128 ->
    Z.lor acc (u64 (Z.shiftl (Z.land b 0x7F) (7 * Z.of_nat k))) =
    acc + value mod 128 * 2 ^ (7 * Z.of_nat k)) as Hacc.
  { intros b Hb. change 0x7F with (Z.ones 7).
    rewrite Z.land_ones, Z.shiftl_mul_pow2 by lia. change (2 ^ 7) with 128.
    replace (b mod 128) with (value mod 128).
    2: { destruct Hb as [->| ->]; [by rewrite Z.mod_mod|].
         rewrite <- Zplus_mod_idemp_r. change (128 mod 128) with 0.
         by rewrite Z.add_0_r, Z.mod_mod. }
    rewrite u64_id; [apply lor_shift; lia|].
    split; [nia|]. rewrite <- H64. apply Z.mul_lt_mono_pos_r; lia. }
  destruct (Z.eqb_spec (value / 128) 0) as [E|E]; simpl app; cbn [decode_loop];
    rewrite Hacc, high_bit by (mlia || auto).
  - destruct (Z.ltb_spec (value mod 128) 128); [|lia]. simpl.
    repeat f_equal; nia.
  - destruct (Z.ltb_spec (value mod 128 + 128) 128); [lia|].
    assert (0 <= value / 128 < 2 ^ (64 - 7 * Z.of_nat (S k))) as Hv'.
    { split; [apply Z.div_pos; lia|]. apply Z.div_lt_upper_bound; [lia|].
      assert (7 * Z.of_nat (S k) <= 64) by (destruct fuel; [exfalso|lia];
        assert (k = 9%nat) as -> by lia; change (2 ^ (64 - 7 * Z.of_nat 9)) with 2 in Hv;
        rewrite Z.div_small in E; lia).
      change 128 with (2 ^ 7). rewrite <- Z.pow_add_r by lia.
      replace (7 + (64 - 7 * Z.of_nat (S k))) with (64 - 7 * Z.of_nat k) by lia. lia. }
    destruct fuel as [|fuel].
    { assert (k = 9%nat) as -> by lia. change (2 ^ (64 - 7 * Z.of_nat 9)) with 2 in Hv.
      rewrite Z.div_small in E; lia. }
    destruct (Z.leb_spec 70 (7 * Z.of_nat k + 7)); [lia|].
    replace (7 * Z.of_nat k + 7) with (7 * Z.of_nat (S k)) by lia.
    assert (2 ^ (7 * Z.of_nat (S k)) = 128 * 2 ^ (7 * Z.of_nat k)) as Hs.
    { change 128 with (2 ^ 7). rewrite <- Z.pow_add_r by lia. f_equal. lia. }
    rewrite IH; [|lia|lia|done|rewrite Hs; nia].
    rewrite Hs. simpl length. f_equal; [f_equal; lia|nia].
Qed.

(** Every 64-bit value is written as one to ten bytes into a buffer with room
    for ten, and decoding returns it with the number of bytes used, whatever
    bytes follow. *)
Theorem varint_roundtrip (v cap : Z) (rest : list Z)
  (Hv : in_u64 v) (Hcap : 10 <= cap) :
  exists bs, varintEncode v true cap = (Ok, bs) /\ (1 <= length bs <= 10)%nat /\
    varintDecode (Some (bs ++ rest)) = (Ok, Z.of_nat (length bs), v).
Proof.
  pose proof (length_leb128 10 v ltac:(lia)) as Hlen.
  exists (leb128 10 v). split_and!; [| lia | lia |].
  - unfold varintEncode. simpl negb. cbv iota.
    rewrite encode_loop_leb128; [done| |lia|].
    2: { change (length (@nil Z)) with 0%nat. lia. }
    change (2 ^ (7 * Z.of_nat 10)) with 1180591620717411303424. mlia.
  - unfold varintDecode.
    pose proof (decode_loop_leb128 10 0 v 0 rest 0 ltac:(lia) eq_refl Hv
                  ltac:(lia)) as E.
    change (7 * Z.of_nat 0) with 0 in E. rewrite E. repeat f_equal. lia.
Qed.

Lemma decode_loop_truncated fuel k value acc n consumed :
  Z.of_nat (fuel + k) = 10 -> (n < length (leb128 fuel value))%nat ->
  decode_loop (take n (leb128 fuel value)) consumed acc (7 * Z.of_nat k) =
    (OutOfRange, consumed + Z.of_nat n, 0).
Proof.
  revert k value acc n consumed.
  induction fuel as [|fuel IH]; intros k value acc n consumed Hk Hn; [simpl in *; lia|].
  simpl leb128 in *. pose proof (Z.mod_pos_bound value 128 ltac:(lia)) as Hm.
  destruct n as [|n]; [simpl; by rewrite Z.add_0_r|].
  destruct (Z.eqb_spec (value / 128) 0); [simpl in Hn; lia|].
  simpl take. cbn [decode_loop]. rewrite high_bit by mlia.
  destruct (Z.ltb_spec (value mod 128 + 128) 128); [lia|].
  simpl in Hn. destruct fuel as [|fuel]; [simpl in Hn; lia|].
  destruct (Z.leb_spec 70 (7 * Z.of_nat k + 7)); [lia|].
  replace (7 * Z.of_nat k + 7) with (7 * Z.of_nat (S k)) by lia.
  rewrite IH by lia. f_equal. f_equal. lia.
Qed.

(** A varint cut short at any byte is never accepted: decoding a strict
    prefix of an encoding reports [OutOfRange] after consuming the prefix. *)
Theorem varint_truncated (v cap : Z) (n : nat) (bs : list Z)
  (Hv : in_u64 v) (Hcap : 10 <= cap) (He : varintEncode v true cap = (Ok, bs))
  (Hn : (n < length bs)%nat) :
  varintDecode (Some (take n bs)) = (OutOfRange, Z.of_nat n, 0).
Proof.
  pose proof (length_leb128 10 v ltac:(lia)) as Hlen.
  unfold varintEncode in He. simpl negb in He. cbv iota in He.
  rewrite encode_loop_leb128 in He; [| |lia|].
  - simplify_eq. by apply (decode_loop_truncated 10 0).
  - change (2 ^ (7 * Z.of_nat 10)) with 1180591620717411303424. mlia.
  - change (length (@nil Z)) with 0%nat. lia.
Qed.

Lemma varint_roundtrip_witness :
  exists bs, varintEncode u64_max true 10 = (Ok, bs) /\ (1 <= length bs <= 10)%nat /\
    varintDecode (Some (bs ++ [7])) = (Ok, Z.of_nat (length bs), u64_max).
Proof. apply (varint_roundtrip u64_max 10 [7]); mlia. Defined.

Lemma varint_truncated_witness : varintDecode (Some (take 1 [172; 2])) = (OutOfRange, 1, 0).
Proof. apply (varint_truncated 300 10 1 [172; 2]); [mlia|lia|reflexivity|cbn; lia]. Defined.

End VarInt.

(** ** Crc32c.cpp *)
Module Crc32c.

Definition kPoly : Z := 0x82F63B78.

(** One turn of the inner loop of [makeTable]: one bit of the division. *)
Definition bit_step (c : Z) : Z :=
  if negb (Z.land c 1 =? 0) then Z.lxor (Z.shiftr c 1) kPoly else Z.shiftr c 1.

Definition makeTable : list Z :=
  map (fun i => Nat.iter 8 bit_step (Z.of_nat i)) (seq 0 256).

Definition kTable : list Z := Eval vm_compute in makeTable.

Definition byte_step (c b : Z) : Z :=
  Z.lxor (nth (Z.to_nat (Z.land (Z.lxor c b) 0xFF)) kTable 0) (Z.shiftr c 8).

Definition crc32cUpdate (seed : Z) (data : list Z) : Z :=
  let c := Z.lxor seed 0xFFFFFFFF in
  let c := fold_left byte_step data c in
  Z.lxor c 0xFFFFFFFF.

Definition crc32c (data : list Z) : Z := crc32cUpdate 0 data.

(** The reference: reflected polynomial division one bit at a time. *)
Definition ref_byte (c b : Z) : Z := Nat.iter 8 bit_step (Z.lxor c b).
Definition ref_crc (data : list Z) : Z :=
  Z.lxor (fold_left ref_byte data 0xFFFFFFFF) 0xFFFFFFFF.

(** Reference vector of Crc32c.hpp. *)
Example crc32c_vector :
  crc32c [49; 50; 51; 52; 53; 54; 55; 56; 57] = 0xE3069283.
Proof. by vm_compute. Qed.

(** [bit_step] is linear over GF(2). *)
Lemma bit_step_alt c :
  bit_step c = Z.lxor (Z.shiftr c 1) (if Z.odd c then kPoly else 0).
Proof.
  unfold bit_step. change 1 with (Z.ones 1) at 1.
  rewrite Z.land_ones by lia. change (2 ^ 1) with 2.
  rewrite Zmod_odd. destruct (Z.odd c); simpl; by rewrite ?Z.lxor_0_r.
Qed.

Lemma bit_step_lxor a b : bit_step (Z.lxor a b) = Z.lxor (bit_step a) (bit_step b).
Proof.
  rewrite !bit_step_alt, Z.shiftr_lxor.
  rewrite <- !Z.bit0_odd, Z.lxor_spec, !Z.bit0_odd.
  rewrite !Z.lxor_assoc. f_equal.
  rewrite (Z.lxor_comm (if Z.odd a then kPoly else 0)), !Z.lxor_assoc. f_equal.
  by destruct (Z.odd a), (Z.odd b).
Qed.

Lemma bit_steps_lxor n a b :
  Nat.iter n bit_step (Z.lxor a b) =
    Z.lxor (Nat.iter n bit_step a) (Nat.iter n bit_step b).
Proof. induction n; simpl; [done|]. by rewrite IHn, bit_step_lxor. Qed.

Lemma bit_step_double c : bit_step (2 * c) = c.
Proof.
  rewrite bit_step_alt, Z.odd_mul, Z.lxor_0_r, Z.shiftr_div_pow2 by lia.
  rewrite Z.mul_comm. by apply Z.div_mul.
Qed.

Lemma bit_steps_shifted c : Nat.iter 8 bit_step (c * 256) = c.
Proof.
  replace (c * 256) with (2 * (2 * (2 * (2 * (2 * (2 * (2 * (2 * c)))))))) by lia.
  simpl Nat.iter. by rewrite !bit_step_double.
Qed.

Lemma kTable_nth b : in_u8 b -> nth (Z.to_nat b) kTable 0 = Nat.iter 8 bit_step b.
Proof.
  intros Hb. apply Z.eqb_eq. revert b Hb. by apply byte_cases; vm_compute.
Qed.

(** The table lookup performs the eight bit steps at once. *)
Lemma byte_step_ref c b : 0 <= c -> in_u8 b -> byte_step c b = ref_byte c b.
Proof.
  intros Hc Hb. unfold byte_step, ref_byte.
  change 0xFF with (Z.ones 8). rewrite Z.land_ones by lia.
  set (x := Z.lxor c b). assert (Z.shiftr c 8 = x / 256) as ->.
  { unfold x. change 256 with (2 ^ 8).
    rewrite <- Z.shiftr_div_pow2, Z.shiftr_lxor by lia.
    rewrite (Z.shiftr_div_pow2 b), (Z.div_small b), Z.lxor_0_r by (mlia || lia). done. }
  rewrite kTable_nth by (apply Z.mod_pos_bound; lia). change (2 ^ 8) with 256.
  rewrite <- (bit_steps_shifted (x / 256)), <- bit_steps_lxor. f_equal.
  change 256 with (2 ^ 8). rewrite <- (Z.land_ones x 8), <- Z.shiftr_div_pow2 by lia.
  rewrite <- Z.shiftl_mul_pow2 by lia.
  apply Z.bits_inj'. intros i Hi.
  rewrite Z.lxor_spec, Z.land_spec, Z.testbit_ones, Z.shiftl_spec by lia.
  destruct (Z.ltb_spec i 8).
  - rewrite (Z.testbit_neg_r _ (i - 8)) by lia.
    destruct (Z.leb_spec 0 i); [|lia]. by rewrite andb_true_r, xorb_false_r.
  - rewrite Z.shiftr_spec by lia. rewrite andb_false_r, andb_false_r, xorb_false_l.
    f_equal. lia.
Qed.

Lemma bit_step_range c : in_u32 c -> in_u32 (bit_step c).
Proof.
  intros Hc. rewrite bit_step_alt. apply lxor_bound; [lia| |].
  - rewrite Z.shiftr_div_pow2 by lia. change (2 ^ 1) with 2.
    split; [apply Z.div_pos; mlia|apply Z.div_lt_upper_bound; mlia].
  - by destruct (Z.odd c).
Qed.

Lemma bit_steps_range n c : in_u32 c -> in_u32 (Nat.iter n bit_step c).
Proof. intros. induction n; simpl; auto using bit_step_range. Qed.

Lemma ref_byte_range c b : in_u32 c -> in_u8 b -> in_u32 (ref_byte c b).
Proof. intros. apply bit_steps_range, lxor_bound; mlia. Qed.

Lemma fold_ref data c :
  in_u32 c -> Forall in_u8 data ->
  fold_left byte_step data c = fold_left ref_byte data c /\
  in_u32 (fold_left ref_byte data c).
Proof.
  intros Hc Hd. revert c Hc. induction Hd as [|b data Hb _ IH]; intros c Hc; simpl.
  - done.
  - rewrite byte_step_ref by (mlia || done). apply IH. by apply ref_byte_range.
Qed.

Lemma crc32c_ref data :
  Forall in_u8 data -> crc32c data = ref_crc data /\ in_u32 (crc32c data).
Proof.
  intros Hd. unfold crc32c, crc32cUpdate, ref_crc. change (Z.lxor 0 0xFFFFFFFF) with 0xFFFFFFFF.
  destruct (fold_ref data 0xFFFFFFFF) as [-> ?]; [done|done|].
  split; [done|]. by apply lxor_bound.
Qed.

Lemma crc32c_range data : Forall in_u8 data -> in_u32 (crc32c data).
Proof. apply crc32c_ref. Qed.

(** C36: The table-driven checksum equals the bit-serial division by the
    Castagnoli polynomial on every byte string, and is a 32-bit value. *)
Theorem crc32c_table_refines_division (data : list Z) (Hd : Forall in_u8 data) :
  crc32c data = ref_crc data /\ in_u32 (crc32c data).
Proof. by apply crc32c_ref. Qed.

Lemma crc32cUpdate_app seed a b :
  crc32cUpdate (crc32cUpdate seed a) b = crc32cUpdate seed (a ++ b).
Proof.
  unfold crc32cUpdate.
  by rewrite fold_left_app, Z.lxor_assoc, Z.lxor_nilpotent, Z.lxor_0_r.
Qed.

Lemma bit_step_inj a b : in_u32 a -> in_u32 b -> bit_step a = bit_step b -> a = b.
Proof.
  intros Ha Hb E. apply Z.lxor_eq.
  assert (bit_step (Z.lxor a b) = 0) as E0
    by (by rewrite bit_step_lxor, E, Z.lxor_nilpotent).
  assert (in_u32 (Z.lxor a b)) as Hx by (by apply lxor_bound).
  revert E0 Hx. generalize (Z.lxor a b) as x. clear. intros x E0 Hx.
  rewrite bit_step_alt in E0. apply Z.lxor_eq in E0.
  rewrite Z.shiftr_div_pow2 in E0 by lia. change (2 ^ 1) with 2 in E0.
  pose proof (Z.div_mod x 2 ltac:(lia)) as Hm. rewrite Zmod_odd in Hm.
  destruct (Z.odd x); [unfold kPoly in E0; mlia|lia].
Qed.

Lemma bit_steps_inj n a b :
  in_u32 a -> in_u32 b -> Nat.iter n bit_step a = Nat.iter n bit_step b -> a = b.
Proof.
  intros Ha Hb. induction n as [|n IH]; simpl; [done|].
  intros E%bit_step_inj; auto using bit_steps_range.
Qed.

Lemma lxor_cancel_r a b k : Z.lxor a k = Z.lxor b k -> a = b.
Proof.
  intros E. by rewrite <- (Z.lxor_0_r a), <- (Z.lxor_0_r b), <- (Z.lxor_nilpotent k),
    <- !Z.lxor_assoc, E.
Qed.

Lemma fold_ref_inj data a b :
  in_u32 a -> in_u32 b -> Forall in_u8 data ->
  fold_left ref_byte data a = fold_left ref_byte data b -> a = b.
Proof.
  intros Ha Hb Hd. revert a b Ha Hb.
  induction Hd as [|x data Hx _ IH]; intros a b Ha Hb; simpl; [done|].
  intros E%IH; [|by apply ref_byte_range..].
  apply bit_steps_inj in E; [|apply lxor_bound; mlia..].
  by apply lxor_cancel_r in E.
Qed.

(** A change of one byte changes the checksum. *)
Lemma crc32c_byte_change pre post x y :
  Forall in_u8 pre -> Forall in_u8 post -> in_u8 x -> in_u8 y ->
  crc32c (pre ++ x :: post) = crc32c (pre ++ y :: post) -> x = y.
Proof.
  intros Hpre Hpost Hx Hy.
  assert (forall z, in_u8 z -> Forall in_u8 (pre ++ z :: post)) as Hall
    by (intros; apply Forall_app; auto).
  destruct (crc32c_ref _ (Hall x Hx)) as [-> _].
  destruct (crc32c_ref _ (Hall y Hy)) as [-> _].
  unfold ref_crc. rewrite !fold_left_app. simpl.
  destruct (fold_ref pre 0xFFFFFFFF) as [_ Hc]; [done|done|].
  intros E%lxor_cancel_r%fold_ref_inj; auto using ref_byte_range.
  apply bit_steps_inj in E; [|apply lxor_bound; mlia..].
  rewrite !(Z.lxor_comm (fold_left _ _ _)) in E. by apply lxor_cancel_r in E.
Qed.

(** The checksum detects every change of a single byte, wherever it is
    in the data. *)
Theorem crc32c_detects_byte_change (pre post : list Z) (x y : Z)
  (Hpre : Forall in_u8 pre) (Hpost : Forall in_u8 post)
  (Hx : in_u8 x) (Hy : in_u8 y) (Hne : x <> y) :
  crc32c (pre ++ x :: post) <> crc32c (pre ++ y :: post).
Proof. intros E. by apply crc32c_byte_change in E. Qed.

Lemma crc32c_table_refines_division_witness :
  crc32c [49; 50; 51] = ref_crc [49; 50; 51] /\ in_u32 (crc32c [49; 50; 51]).
Proof.
  apply (crc32c_table_refines_division [49; 50; 51]). repeat (apply Forall_cons_2; [mlia|]).
  apply Forall_nil_2.
Defined.

Lemma crc32c_detects_byte_change_witness : crc32c ([1] ++ 2 :: [3]) <> crc32c ([1] ++ 4 :: [3]).
Proof.
  apply (crc32c_detects_byte_change [1] [3] 2 4);
    [apply Forall_cons_2; [mlia|apply Forall_nil_2]|apply Forall_cons_2; [mlia|apply Forall_nil_2]|
     mlia|mlia|lia].
Defined.

End Crc32c.
