(* ===== verification/Layout.v ===== *)
(** * Layout: object representations of trivially copyable structs

    The corpus writes and reads C++ structs by copying their bytes ([memcpy],
    [ofstream::write] and [reinterpret_cast] of a byte array).  A [layout A]
    says how a value of [A] lies in memory: its size, the bytes of a value, the
    value seen through a pointer to given bytes, and the laws that relate the
    two.  Layouts of structs are built field by field, with padding bytes as
    explicit fields (they are copied and check-summed like every other byte).
    The integers are little-endian, as on the targets of the recorder. *)
From stdpp Require Import base list numbers.
From S2P Require Import Prelude.
Local Open Scope Z_scope.

Definition bytes_ok (bs : list Z) : Prop := Forall in_u8 bs.

Lemma bytes_ok_app a b : bytes_ok (a ++ b) <-> bytes_ok a /\ bytes_ok b.
Proof. apply Forall_app. Qed.
Lemma bytes_ok_take n a : bytes_ok a -> bytes_ok (take n a).
Proof. apply Forall_take. Qed.
Lemma bytes_ok_drop n a : bytes_ok a -> bytes_ok (drop n a).
Proof. apply Forall_drop. Qed.
#[export] Hint Resolve bytes_ok_take bytes_ok_drop : machine.

Record layout (A : Type) := Layout {
  sizeof : nat;
  (** the value fits its C++ type: the width of each integer, the length of
      each array *)
  fits : A -> Prop;
  obj : A -> list Z;
  view : list Z -> A;
  obj_length : forall a, fits a -> length (obj a) = sizeof;
  obj_bytes : forall a, fits a -> bytes_ok (obj a);
  view_obj : forall a rest, fits a -> view (obj a ++ rest) = a;
  view_fits : forall bs, bytes_ok bs -> (sizeof <= length bs)%nat -> fits (view bs);
  obj_view : forall bs, bytes_ok bs -> (sizeof <= length bs)%nat ->
    obj (view bs) = take sizeof bs;
}.
Arguments Layout {A}.
Arguments sizeof {A}.
Arguments fits {A}.
Arguments obj {A}.
Arguments view {A}.
Arguments obj_length {A}.
Arguments obj_bytes {A}.
Arguments view_obj {A}.
Arguments view_fits {A}.
Arguments obj_view {A}.

Section layouts.
Context {A B : Type}.

(** An unsigned integer of [n] bytes. *)
Definition fits_unsigned (n : nat) (z : Z) : Prop := 0 <= z < 2 ^ (8 * Z.of_nat n).

Lemma unsigned_obj_view n bs :
  bytes_ok bs -> (n <= length bs)%nat -> le_enc n (le_dec (take n bs)) = take n bs.
Proof.
  intros Hb Hl. rewrite <- (length_take_le bs n Hl) at 1.
  apply le_enc_dec. by apply bytes_ok_take.
Qed.

Lemma unsigned_view_fits n bs :
  bytes_ok bs -> (n <= length bs)%nat -> fits_unsigned n (le_dec (take n bs)).
Proof.
  intros Hb Hl. pose proof (le_dec_bound (take n bs)) as H.
  rewrite length_take_le in H by done. apply H. by apply bytes_ok_take.
Qed.

Lemma take_obj_app n (a rest : list Z) : length a = n -> take n (a ++ rest) = a.
Proof. intros <-. apply take_app_length. Qed.

Program Definition l_unsigned (n : nat) : layout Z := {|
  sizeof := n; fits := fits_unsigned n; obj := le_enc n;
  view bs := le_dec (take n bs) |}.
Next Obligation. intros. apply length_le_enc. Qed.
Next Obligation. intros. apply le_enc_bytes. Qed.
Next Obligation.
  intros n a rest Ha. cbn beta. rewrite take_obj_app by apply length_le_enc.
  by apply le_dec_enc.
Qed.
Next Obligation. intros. by apply unsigned_view_fits. Qed.
Next Obligation. intros. by apply unsigned_obj_view. Qed.

(** A two's complement 64-bit integer. *)
Program Definition l_i64 : layout Z := {|
  sizeof := 8; fits := in_i64; obj z := le_enc 8 (u64 z);
  view bs := i64 (le_dec (take 8 bs)) |}.
Next Obligation. intros. apply length_le_enc. Qed.
Next Obligation. intros. apply le_enc_bytes. Qed.
Next Obligation.
  intros a rest Ha. cbn beta. rewrite take_obj_app by apply length_le_enc.
  rewrite le_dec_enc by apply u64_range. by apply i64_u64.
Qed.
Next Obligation. intros. apply i64_range. Qed.
Next Obligation.
  intros bs Hb Hl. cbn beta. rewrite u64_i64 by (by apply (unsigned_view_fits 8)).
  by apply unsigned_obj_view.
Qed.

(** [n] raw bytes: [char] and [std::byte] arrays, padding, opaque members. *)
Program Definition l_raw (n : nat) : layout (list Z) := {|
  sizeof := n; fits bs := length bs = n /\ bytes_ok bs; obj bs := bs; view bs := take n bs |}.
Next Obligation. by intros n a [? ?]. Qed.
Next Obligation. by intros n a [? ?]. Qed.
Next Obligation. intros n a rest [? ?]. by apply take_obj_app. Qed.
Next Obligation. intros n bs Hb Hl. split; [by apply length_take_le|by apply bytes_ok_take]. Qed.
Next Obligation. done. Qed.

(** Consecutive members. *)
Program Definition l_pair (la : layout A) (lb : layout B) : layout (A * B) := {|
  sizeof := sizeof la + sizeof lb;
  fits p := fits la p.1 /\ fits lb p.2;
  obj p := obj la p.1 ++ obj lb p.2;
  view bs := (view la bs, view lb (drop (sizeof la) bs)) |}.
Next Obligation. intros la lb p [? ?]. by rewrite length_app, !obj_length. Qed.
Next Obligation. intros la lb p [? ?]. apply bytes_ok_app; auto using obj_bytes. Qed.
Next Obligation.
  intros la lb [a b] rest [? ?]; simpl in *. rewrite <- app_assoc, view_obj by done.
  f_equal. rewrite drop_app_length' by (by rewrite obj_length). by apply view_obj.
Qed.
Next Obligation.
  intros la lb bs Hb Hl. split; apply view_fits; auto with machine; [lia|].
  rewrite length_drop. lia.
Qed.
Next Obligation.
  intros la lb bs Hb Hl. simpl. rewrite !obj_view; auto with machine.
  - by rewrite take_take_drop.
  - rewrite length_drop. lia.
  - lia.
Qed.

(** A struct that is isomorphic to the tuple of its members. *)
Program Definition l_iso (to : A -> B) (from : B -> A)
  (from_to : forall a, from (to a) = a) (to_from : forall b, to (from b) = b)
  (l : layout B) : layout A := {|
  sizeof := sizeof l; fits a := fits l (to a); obj a := obj l (to a);
  view bs := from (view l bs) |}.
Next Obligation. intros. by apply obj_length. Qed.
Next Obligation. intros. by apply obj_bytes. Qed.
Next Obligation. intros to from Hft Htf l a rest Ha. cbn beta. by rewrite view_obj. Qed.
Next Obligation. intros to from Hft Htf l bs Hb Hl. cbn beta. rewrite Htf. by apply view_fits. Qed.
Next Obligation. intros to from Hft Htf l bs Hb Hl. cbn beta. rewrite Htf. by apply obj_view. Qed.

End layouts.

(** A [std::array<A, n>]. *)
Fixpoint view_array {A} (l : layout A) (n : nat) (bs : list Z) : list A :=
  match n with
  | O => []
  | S n => view l bs :: view_array l n (drop (sizeof l) bs)
  end.

Section array.
Context {A : Type} (l : layout A).

Lemma obj_array_length (xs : list A) :
  Forall (fits l) xs -> length (concat (map (obj l) xs)) = (length xs * sizeof l)%nat.
Proof.
  induction 1; simpl; [done|]. rewrite length_app, obj_length by done.
  lia.
Qed.

Lemma obj_array_bytes (xs : list A) :
  Forall (fits l) xs -> bytes_ok (concat (map (obj l) xs)).
Proof. induction 1; simpl; [constructor|]. apply bytes_ok_app. auto using obj_bytes. Qed.

Lemma view_obj_array (xs : list A) rest :
  Forall (fits l) xs ->
  view_array l (length xs) (concat (map (obj l) xs) ++ rest) = xs.
Proof.
  induction 1 as [|x xs Hx _ IH]; simpl; [done|].
  rewrite <- app_assoc, view_obj by done. f_equal.
  rewrite drop_app_length' by (by rewrite obj_length). apply IH.
Qed.

Lemma view_array_length n bs : length (view_array l n bs) = n.
Proof. revert bs. induction n; intros; simpl; auto. Qed.

Lemma view_array_fits n bs :
  bytes_ok bs -> (n * sizeof l <= length bs)%nat -> Forall (fits l) (view_array l n bs).
Proof.
  revert bs. induction n as [|n IH]; intros bs Hb Hl; simpl; constructor.
  - apply view_fits; [done|lia].
  - apply IH; auto with machine. rewrite length_drop. lia.
Qed.

Lemma obj_view_array n bs :
  bytes_ok bs -> (n * sizeof l <= length bs)%nat ->
  concat (map (obj l) (view_array l n bs)) = take (n * sizeof l) bs.
Proof.
  revert bs. induction n as [|n IH]; intros bs Hb Hl; simpl; [done|].
  rewrite obj_view by (done || lia).
  rewrite IH; [by rewrite take_take_drop|auto with machine|].
  rewrite length_drop. lia.
Qed.
End array.

Program Definition l_array {A} (n : nat) (l : layout A) : layout (list A) := {|
  sizeof := (n * sizeof l)%nat;
  fits xs := length xs = n /\ Forall (fits l) xs;
  obj xs := concat (map (obj l) xs);
  view bs := view_array l n bs |}.
Next Obligation. intros A n l xs [<- ?]. by apply obj_array_length. Qed.
Next Obligation. intros A n l xs [<- ?]. by apply obj_array_bytes. Qed.
Next Obligation. intros A n l xs rest [<- ?]. by apply view_obj_array. Qed.
Next Obligation.
  intros A n l bs ? ?. split; [apply view_array_length|by apply view_array_fits].
Qed.
Next Obligation. intros. by apply obj_view_array. Qed.

Abbreviation l_u8 := (l_unsigned 1).
Abbreviation l_u16 := (l_unsigned 2).
Abbreviation l_u32 := (l_unsigned 4).
Abbreviation l_u64 := (l_unsigned 8).

Declare Scope layout_scope.
Delimit Scope layout_scope with layout.
Notation "a ** b" := (l_pair a b) (at level 58, left associativity) : layout_scope.

(** Objects are opened by the laws or by evaluation, not by [simpl]. *)
#[global] Arguments obj : simpl never.
#[global] Arguments view : simpl never.
#[global] Arguments sizeof : simpl never.
#[global] Arguments le_enc : simpl never.
#[global] Arguments le_dec : simpl never.

(** The two inverse laws between a record and the tuple of its members. *)
Ltac struct_iso :=
  let r := fresh "r" in intros r;
  lazymatch type of r with
  | (_ * _)%type => repeat match goal with p : (_ * _)%type |- _ => destruct p end
  | _ => destruct r
  end; reflexivity.

(** [fits] of a concrete value, by evaluation. *)
Definition byteb (b : Z) : bool := (0 <=? b) && (b <? 256).

Lemma bytes_okb bs : forallb byteb bs = true -> bytes_ok bs.
Proof.
  intros Hb. apply List.Forall_forall. intros b Hin.
  rewrite forallb_forall in Hb. specialize (Hb b Hin). unfold byteb in Hb. mlia.
Qed.

Lemma fits_checked {A} (l : layout A) (a : A) :
  forallb byteb (obj l a) && (sizeof l <=? length (obj l a))%nat = true ->
  view l (obj l a) = a -> fits l a.
Proof.
  intros [Hb%bytes_okb Hl%Nat.leb_le]%andb_true_iff <-. by apply view_fits.
Qed.

Lemma view_obj_self {A} (l : layout A) (a : A) : fits l a -> view l (obj l a) = a.
Proof. intros Ha. rewrite <- (app_nil_r (obj l a)). by apply view_obj. Qed.
