(* ===== verification/Block.v ===== *)
(** * Block: the headers of the block container

    Models src/src/Runtime/src/Corpus/Block/FileHeader.{hpp,cpp} and
    BlockHeader.{hpp,cpp} with the constants they use from Common/Constants.hpp.
    (BlockWriter and BlockReader of the same directory are stubs that return
    [Unimplemented].)  An output buffer is a list of bytes whose length is
    [cap]; [None] is a null pointer.  Theorems: a serialized header parses back
    to itself, and no single-byte corruption of a file header is accepted. *)
From stdpp Require Import base list numbers.
From S2P Require Import Prelude Codec Layout.
Import Crc32c.
Local Open Scope Z_scope.

Definition kFileMagic : Z := 0x43585243.
Definition kBlockMagic : Z := 0x004B4C42.

(** BlockHeader.hpp: 32 packed bytes. *)
Record BlockHeader := MkBlockHeader {
  bk_magic : Z;
  bk_stream : Z;
  bk_codec : Z;
  bk_flags : Z;
  bk_reserved0 : Z;
  bk_event_count : Z;
  bk_payload_size : Z;
  bk_first_ts_ns : Z;
  bk_reserved1 : Z;
  bk_crc32c : Z;
}.
#[export] Instance BlockHeader_eta : Eta BlockHeader := fun r =>
  MkBlockHeader
    (bk_magic r) (bk_stream r) (bk_codec r) (bk_flags r) (bk_reserved0 r)
    (bk_event_count r) (bk_payload_size r) (bk_first_ts_ns r)
    (bk_reserved1 r) (bk_crc32c r).
Definition l_BlockHeader : layout BlockHeader := l_iso
  (fun r => (
    bk_magic r, bk_stream r, bk_codec r, bk_flags r, bk_reserved0 r,
    bk_event_count r, bk_payload_size r, bk_first_ts_ns r, bk_reserved1 r,
    bk_crc32c r))
  (fun '(
    x0, x1, x2, x3, x4, x5, x6, x7, x8, x9) =>
    MkBlockHeader x0 x1 x2 x3 x4 x5 x6 x7 x8 x9)
  ltac:(struct_iso) ltac:(struct_iso)
  (l_u32 ** l_u8 ** l_u8 ** l_u8 ** l_u8 ** l_u32 ** l_u32 ** l_u64 **
   l_u32 ** l_u32)%layout.

(** FileHeader.hpp: 62 packed bytes. *)
Record FileHeader := MkFileHeader {
  fh_magic : Z;
  fh_flags : Z;
  fh_stream : Z;
  fh_codec : Z;
  fh_reserved0 : list Z;
  fh_created_ns : Z;
  fh_symbol : list Z;
  fh_exchange : list Z;
  fh_reserved1 : Z;
  fh_crc32c : Z;
}.
#[export] Instance FileHeader_eta : Eta FileHeader := fun r =>
  MkFileHeader
    (fh_magic r) (fh_flags r) (fh_stream r) (fh_codec r) (fh_reserved0 r)
    (fh_created_ns r) (fh_symbol r) (fh_exchange r) (fh_reserved1 r)
    (fh_crc32c r).
Definition l_FileHeader : layout FileHeader := l_iso
  (fun r => (
    fh_magic r, fh_flags r, fh_stream r, fh_codec r, fh_reserved0 r,
    fh_created_ns r, fh_symbol r, fh_exchange r, fh_reserved1 r,
    fh_crc32c r))
  (fun '(
    x0, x1, x2, x3, x4, x5, x6, x7, x8, x9) =>
    MkFileHeader x0 x1 x2 x3 x4 x5 x6 x7 x8 x9)
  ltac:(struct_iso) ltac:(struct_iso)
  (l_u32 ** l_u16 ** l_u8 ** l_u8 ** l_raw 6 ** l_u64 ** l_raw 16 **
   l_raw 16 ** l_u32 ** l_u32)%layout.

(** [std::memcpy(out, bs, length bs)] into a buffer that is large enough *)
Definition memcpy (out bs : list Z) : list Z := bs ++ drop (length bs) out.

Definition blockHeaderSerialize (h : BlockHeader) (out : option (list Z))
  : Status * option (list Z) :=
  match out with
  | None => (InvalidArgument, None)
  | Some buf =>
      if (length buf <? sizeof l_BlockHeader)%nat then (InvalidArgument, Some buf)
      else (Ok, Some (memcpy buf (obj l_BlockHeader h)))
  end.

(** The out-parameter is [Some] when it was overwritten. *)
Definition blockHeaderParse (input : option (list Z)) : Status * option BlockHeader :=
  match input with
  | None => (InvalidArgument, None)
  | Some bs =>
      if (length bs <? sizeof l_BlockHeader)%nat then (InvalidArgument, None)
      else
        let out := view l_BlockHeader bs in
        if negb (bk_magic out =? kBlockMagic) then (CorruptData, Some out)
        else (Ok, Some out)
  end.

(** [offsetof(FileHeader, crc32c)] *)
Definition fh_crc_offset : nat := 58.

Definition fileHeaderSerialize (h : FileHeader) (out : option (list Z))
  : Status * option (list Z) :=
  match out with
  | None => (InvalidArgument, None)
  | Some buf =>
      if (length buf <? sizeof l_FileHeader)%nat then (InvalidArgument, Some buf)
      else
        let header := h <| fh_crc32c :=
          crc32c (take fh_crc_offset (obj l_FileHeader h)) |> in
        (Ok, Some (memcpy buf (obj l_FileHeader header)))
  end.

Definition fileHeaderParse (input : option (list Z)) : Status * option FileHeader :=
  match input with
  | None => (InvalidArgument, None)
  | Some bs =>
      if (length bs <? sizeof l_FileHeader)%nat then (InvalidArgument, None)
      else
        let out := view l_FileHeader bs in
        if negb (fh_magic out =? kFileMagic) || negb (fh_flags out =? 0) ||
           (fh_stream out <? 1) || (3 <? fh_stream out) ||
           negb (fh_reserved1 out =? 0) ||
           negb (fh_crc32c out =? crc32c (take fh_crc_offset bs))
        then (CorruptData, Some out)
        else if existsb (fun byte => negb (byte =? 0)) (fh_reserved0 out)
        then (CorruptData, Some out)
        else (Ok, Some out)
  end.

(** ** Round trips *)

(** A block header serialized into a buffer of at least 32 bytes is
    parsed back unchanged; the buffer keeps its length and every byte behind the
    header. *)
Theorem blockHeader_roundtrip (h : BlockHeader) (buf : list Z)
  (Hfits : fits l_BlockHeader h) (Hmagic : bk_magic h = kBlockMagic)
  (Hl : (32 <= length buf)%nat) :
  exists buf', blockHeaderSerialize h (Some buf) = (Ok, Some buf') /\
    length buf' = length buf /\ drop 32 buf' = drop 32 buf /\
    blockHeaderParse (Some buf') = (Ok, Some h).
Proof.
  exists (memcpy buf (obj l_BlockHeader h)). split.
  { unfold blockHeaderSerialize. change (sizeof l_BlockHeader) with 32%nat.
    by destruct (Nat.ltb_spec (length buf) 32); [lia|]. }
  unfold memcpy.
  pose proof (obj_length l_BlockHeader h Hfits) as Hs.
  change (sizeof l_BlockHeader) with 32%nat in *.
  assert (length (obj l_BlockHeader h ++ drop (length (obj l_BlockHeader h)) buf)
    = length buf) as HL by (rewrite length_app, length_drop; lia).
  split_and!; [done| |].
  - rewrite drop_app_length' by done. by rewrite Hs.
  - unfold blockHeaderParse. rewrite HL, view_obj by done.
    change (sizeof l_BlockHeader) with 32%nat.
    destruct (Nat.ltb_spec (length buf) 32); [lia|]. by rewrite Hmagic.
Qed.


(** The checksum is the last member: the bytes before it do not depend on it. *)
Lemma fileHeader_body h :
  fits l_FileHeader h ->
  exists body, length body = fh_crc_offset /\ bytes_ok body /\
    forall c, obj l_FileHeader (h <| fh_crc32c := c |>) = body ++ le_enc 4 c.
Proof.
  intros Hfits.
  pose proof (obj_length _ _ Hfits) as Hl. pose proof (obj_bytes _ _ Hfits) as Hb.
  assert (exists body, forall c,
    obj l_FileHeader (h <| fh_crc32c := c |>) = body ++ le_enc 4 c) as [body Hbody]
    by (exists (obj (l_u32 ** l_u16 ** l_u8 ** l_u8 ** l_raw 6 ** l_u64 **
                     l_raw 16 ** l_raw 16 ** l_u32)%layout
                    (fh_magic h, fh_flags h, fh_stream h, fh_codec h, fh_reserved0 h,
                     fh_created_ns h, fh_symbol h, fh_exchange h, fh_reserved1 h));
        reflexivity).
  exists body. specialize (Hbody (fh_crc32c h)) as Hh.
  replace (h <| fh_crc32c := fh_crc32c h |>) with h in Hh by (by destruct h).
  rewrite Hh in Hl, Hb. rewrite length_app, length_le_enc in Hl.
  change (sizeof l_FileHeader) with 62%nat in Hl.
  apply bytes_ok_app in Hb as [? ?]. split_and!; [|done|done].
  unfold fh_crc_offset. lia.
Qed.

(** The conditions [fileHeaderParse] puts on a header, the checksum aside. *)
Definition fileHeader_valid (h : FileHeader) : Prop :=
  fh_magic h = kFileMagic /\ fh_flags h = 0 /\ 1 <= fh_stream h <= 3 /\
  fh_reserved1 h = 0 /\ fh_reserved0 h = replicate 6 0.

(** A serialized header parses to the same header, its checksum aside. *)
Lemma fileHeader_parsed (h : FileHeader) (buf buf' : list Z)
  (Hfits : fits l_FileHeader h) (Hvalid : fileHeader_valid h)
  (Hser : fileHeaderSerialize h (Some buf) = (Ok, Some buf')) :
  exists h', fileHeaderParse (Some buf') = (Ok, Some h') /\
    h' <| fh_crc32c := fh_crc32c h |> = h.
Proof.
  destruct (fileHeader_body h Hfits) as (body & Hlen & Hbytes & Hobj).
  assert (obj l_FileHeader h = body ++ le_enc 4 (fh_crc32c h)) as Hh
    by (rewrite <- Hobj; by destruct h).
  unfold fileHeaderSerialize in Hser.
  destruct (Nat.ltb_spec (length buf) (sizeof l_FileHeader)) as [|Hl]; [done|].
  rewrite Hh, (take_obj_app fh_crc_offset) in Hser by done.
  set (h' := h <| fh_crc32c := crc32c body |>) in *.
  assert (in_u32 (crc32c body)) as Hcrc by (by apply crc32c_range).
  assert (fits l_FileHeader h') as Hfits' by (destruct h; simpl in *; destruct_and?; split_and?; done).
  exists h'. split; [|by destruct h].
  assert (memcpy buf (obj l_FileHeader h') = buf') as <-
    by (apply Some_inj; exact (f_equal snd Hser)).
  unfold memcpy. pose proof (obj_length _ _ Hfits') as Hs. rewrite Hs.
  change (sizeof l_FileHeader) with 62%nat in *.
  unfold fileHeaderParse. rewrite length_app, Hs, view_obj by done.
  change (sizeof l_FileHeader) with 62%nat.
  destruct (Nat.ltb_spec (62 + length (drop 62 buf)) 62); [lia|].
  assert (take fh_crc_offset (obj l_FileHeader h' ++ drop 62 buf) = body) as ->.
  { unfold h'. rewrite Hobj, <- app_assoc. by apply take_obj_app. }
  destruct Hvalid as (Hm & Hf & Hst & Hr1 & Hr0), h; simpl in *; subst.
  rewrite !Z.eqb_refl. destruct (Z.ltb_spec fh_stream0 1); [lia|].
  destruct (Z.ltb_spec 3 fh_stream0); [lia|]. done.
Qed.

Lemma le_dec_inj a b :
  bytes_ok a -> bytes_ok b -> length a = length b -> le_dec a = le_dec b -> a = b.
Proof. intros Ha Hb Hl E. by rewrite <- (le_enc_dec a), <- (le_enc_dec b), Hl, E. Qed.

(** The checksum comparison of an accepted header. *)
Lemma fileHeaderParse_crc bs h :
  fileHeaderParse (Some bs) = (Ok, Some h) ->
  (62 <= length bs)%nat /\
  le_dec (take 4 (drop fh_crc_offset bs)) = crc32c (take fh_crc_offset bs).
Proof.
  unfold fileHeaderParse. change (sizeof l_FileHeader) with 62%nat.
  destruct (Nat.ltb_spec (length bs) 62); [done|]. intros Hp. split; [done|].
  destruct (_ || _) eqn:E in Hp; [done|]. by bsplit.
Qed.

(** A file header that meets the format is serialized into any buffer of
    at least 62 bytes and parsed back unchanged, except for the checksum member,
    which the serializer fills in. *)
Theorem fileHeader_roundtrip (h : FileHeader) (buf : list Z)
  (Hfits : fits l_FileHeader h) (Hvalid : fileHeader_valid h)
  (Hl : (62 <= length buf)%nat) :
  exists buf' h', fileHeaderSerialize h (Some buf) = (Ok, Some buf') /\
    fileHeaderParse (Some buf') = (Ok, Some h') /\
    h' <| fh_crc32c := fh_crc32c h |> = h.
Proof.
  assert (exists buf', fileHeaderSerialize h (Some buf) = (Ok, Some buf')) as [buf' E].
  { unfold fileHeaderSerialize. change (sizeof l_FileHeader) with 62%nat.
    destruct (Nat.ltb_spec (length buf) 62); [lia|]. eauto. }
  destruct (fileHeader_parsed h buf buf' Hfits Hvalid E) as (h' & Hp & Hh). eauto.
Qed.

(** Changing any single one of the 62 bytes of an accepted file
    header makes [fileHeaderParse] report corrupt data. *)
Theorem fileHeader_corruption_rejected (pre post : list Z) (x y : Z) (h : FileHeader)
  (Hpre : bytes_ok pre) (Hpost : bytes_ok post) (Hx : in_u8 x) (Hy : in_u8 y)
  (Hne : x <> y) (Hin : (length pre < 62)%nat)
  (Hok : fileHeaderParse (Some (pre ++ x :: post)) = (Ok, Some h)) :
  exists h', fileHeaderParse (Some (pre ++ y :: post)) = (CorruptData, Some h').
Proof.
  destruct (fileHeaderParse (Some (pre ++ y :: post))) as [st [h'|]] eqn:Hp.
  2: { apply fileHeaderParse_crc in Hok as [Hl _]. unfold fileHeaderParse in Hp.
       rewrite length_app in Hl, Hp. simpl length in Hl, Hp.
       change (sizeof l_FileHeader) with 62%nat in Hp.
       destruct (Nat.ltb_spec (length pre + S (length post)) 62); [lia|].
       repeat case_match; done. }
  exists h'. f_equal.
  assert (st <> Ok) as Hst.
  { intros ->. apply fileHeaderParse_crc in Hok as [Hl Ex], Hp as [_ Ey].
    unfold fh_crc_offset in *. destruct (Nat.lt_ge_cases (length pre) 58).
    - rewrite !drop_app_ge in Ex, Ey by lia. rewrite !take_app_ge in Ex, Ey by lia.
      destruct (58 - length pre)%nat as [|k] eqn:Ek; [lia|]. simpl in Ex, Ey.
      rewrite Ex in Ey. apply Hne. by apply (crc32c_byte_change pre (take k post)); [|apply bytes_ok_take|..].
    - rewrite !take_app_le, !drop_app_le in Ex, Ey by lia.
      rewrite <- Ex in Ey. apply le_dec_inj in Ey.
      + rewrite !take_app_ge in Ey by (rewrite length_drop; lia).
        rewrite length_drop in Ey.
        destruct (4 - (length pre - 58))%nat eqn:Ek; [lia|]. simpl in Ey.
        by simplify_eq.
      + apply bytes_ok_take, bytes_ok_app. split; [by apply bytes_ok_drop|by constructor].
      + apply bytes_ok_take, bytes_ok_app. split; [by apply bytes_ok_drop|by constructor].
      + by rewrite !length_take, !length_app. }
  unfold fileHeaderParse in Hp. repeat case_match; congruence.
Qed.

(** ** Witnesses *)

Definition sampleBlockHeader : BlockHeader := MkBlockHeader kBlockMagic 1 2 0 0 7 100 1700 0 99.
Definition sampleFileHeader : FileHeader :=
  MkFileHeader kFileMagic 0 1 2 (replicate 6 0) 1700 (replicate 16 65) (replicate 16 66) 0 0.
Definition sampleFileBytes : list Z :=
  default [] (fileHeaderSerialize sampleFileHeader (Some (replicate 62 0))).2.

Lemma blockHeader_roundtrip_witness :
  exists buf', blockHeaderSerialize sampleBlockHeader (Some (replicate 40 255)) = (Ok, Some buf') /\
    length buf' = 40%nat /\ drop 32 buf' = replicate 8 255 /\
    blockHeaderParse (Some buf') = (Ok, Some sampleBlockHeader).
Proof.
  apply (blockHeader_roundtrip sampleBlockHeader (replicate 40 255));
    [apply fits_checked; reflexivity|reflexivity|cbn; lia].
Defined.

Lemma fileHeader_roundtrip_witness :
  exists buf' h', fileHeaderSerialize sampleFileHeader (Some (replicate 62 0)) = (Ok, Some buf') /\
    fileHeaderParse (Some buf') = (Ok, Some h') /\ h' <| fh_crc32c := 0 |> = sampleFileHeader.
Proof.
  apply (fileHeader_roundtrip sampleFileHeader (replicate 62 0));
    [apply fits_checked; reflexivity|repeat split; cbn; lia|cbn; lia].
Defined.

Lemma fileHeader_corruption_rejected_witness :
  exists h', fileHeaderParse (Some (take 24 sampleFileBytes ++ 64 :: drop 25 sampleFileBytes)) =
    (CorruptData, Some h').
Proof.
  apply (fileHeader_corruption_rejected (take 24 sampleFileBytes) (drop 25 sampleFileBytes)
    65 64 (view l_FileHeader sampleFileBytes));
    [apply bytes_okb; vm_compute; reflexivity|apply bytes_okb; vm_compute; reflexivity|
     mlia|mlia|lia|vm_compute; lia|vm_compute; reflexivity].
Defined.
