(* ===== verification/Format.v ===== *)
(** * Format: the binary market corpus contract

    Models src/src/Contracts/include/hftrec/CorpusContract/BinaryMarketCorpusFormat.hpp:
    the on-disk structs with their layouts, the flag sets, and the predicates
    that decide which sources and records are admitted.

    An [enum class] of the source has an unsigned underlying type and is read
    back from files by copying bytes, so a value outside the enumerators can
    occur and the code tests for it; the model keeps the raw value and names the
    enumerators.  [cxet] is a family library outside this repository: its native
    evidence type is kept as the 56 bytes of its object representation and what
    the format asks of the library is the interface [CxetMarket]. *)
From stdpp Require Import base list numbers strings.
From S2P Require Import Prelude Codec Layout.
Import Crc32c.
Local Open Scope Z_scope.

Class CxetMarket := {
  validMarketNativeEvidence : list Z -> bool;
  marketNativeEvidence_eqb : list Z -> list Z -> bool;
  marketNativeEvidence_default : list Z;
  DepthFailure_ConsumerBookRejected : Z;
  validDepthSnapshotSequence : Z -> Z -> Z -> bool;
  kMaximumDepthSourceCapacity : Z;
  kMaximumDepthLevelsPerSide : Z;
  kMaximumDepthTransactionParts : Z;
  DepthEventSourcePosition : Z;
}.

Definition kBinaryMarketChannelCount : nat := 8.
Definition kBinaryMarketStoredChannelCount : Z := 9.
Definition kBinaryMarketPayloadBytes : Z := 888.
Definition kBinaryMarketDepthLevelsPerRecord : Z := 32.
Definition kBinaryMarketBlockRecords : Z := 256.
Definition kBinaryMarketMaximumShards : Z := 64.
Definition kBinaryMarketMaximumSources : Z := 65536.

Definition kBinaryMarketManifestMagic : Z := 0x4d435248.
Definition kBinaryMarketSourcesMagic : Z := 0x53435248.
Definition kBinaryMarketIndexMagic : Z := 0x49435248.
Definition kBinaryMarketGapsMagic : Z := 0x47435248.
Definition kBinaryMarketSegmentMagic : Z := 0x53475248.
Definition kBinaryMarketSegmentFooterMagic : Z := 0x46475248.
Definition kBinaryMarketBlockMagic : Z := 0x42435248.

(** ** Channels *)
Module BinaryMarketChannel.
Definition BookTicker : Z := 1.
Definition Trade : Z := 2.
Definition Depth : Z := 3.
Definition Liquidation : Z := 4.
Definition MarkPrice : Z := 5.
Definition IndexPrice : Z := 6.
Definition Funding : Z := 7.
Definition PriceLimit : Z := 8.
Definition SourceLifecycle : Z := 9.
End BinaryMarketChannel.
Module Channel := BinaryMarketChannel.

Definition validBinaryMarketChannel (channel : Z) : bool :=
  (Channel.BookTicker <=? channel) && (channel <=? Channel.PriceLimit).

Definition validBinaryMarketRecordChannel (channel : Z) : bool :=
  validBinaryMarketChannel channel || (channel =? Channel.SourceLifecycle).

(** [static_cast<std::size_t>(channel) - 1u] *)
Definition binaryMarketChannelIndex (channel : Z) : Z := u64 (channel - 1).

Definition binaryMarketChannelBit (channel : Z) : Z :=
  if validBinaryMarketChannel channel
  then u16 (Z.shiftl 1 (binaryMarketChannelIndex channel)) else 0.

Module Compatibility.
Definition Unavailable : Z := 0.
Definition ExactTraderReplay : Z := 1.
Definition RecordedOnly : Z := 2.
End Compatibility.

(** ** Flag sets *)
Module InstrumentMetadata.
Definition StepSize : Z := 2 ^ 0.
Definition ContractBaseQty : Z := 2 ^ 1.
Definition CanonicalStepSize : Z := 2 ^ 2.
Definition ExecutionQuantityStep : Z := 2 ^ 3.
Definition known : Z := 0xF.
End InstrumentMetadata.

Module Directory.
Definition BookTicker : Z := 2 ^ 0.
Definition Trade : Z := 2 ^ 1.
Definition TickSize : Z := 2 ^ 2.
Definition Depth : Z := 2 ^ 3.
Definition BboSpread : Z := 2 ^ 4.
Definition Ranking : Z := 2 ^ 5.
Definition FundingEligible : Z := 2 ^ 6.
Definition Delivery : Z := 2 ^ 7.
Definition MarginEligibilityKnown : Z := 2 ^ 8.
Definition MarginEligible : Z := 2 ^ 9.
Definition SpotPostOnly : Z := 2 ^ 10.
Definition known : Z := 0x7FF.
End Directory.

Module RecordFlag.
Definition TraderReplayCompatible : Z := 2 ^ 0.
Definition BboFreshnessOnly : Z := 2 ^ 1.
Definition DepthSnapshot : Z := 2 ^ 2.
Definition DepthDelta : Z := 2 ^ 3.
Definition DepthPartial : Z := 2 ^ 4.
Definition DepthRebase : Z := 2 ^ 5.
Definition ExchangeTimestampMissing : Z := 2 ^ 6.
Definition GapBoundary : Z := 2 ^ 7.
Definition RealtimeRegression : Z := 2 ^ 8.
Definition MonotonicNonIncreasing : Z := 2 ^ 9.
Definition ExchangeAheadOfReceive : Z := 2 ^ 10.
Definition DepthState : Z := 2 ^ 11.
Definition SourceLifecycle : Z := 2 ^ 12.
Definition DepthCoverage : Z := 2 ^ 13.
Definition DepthHasCoverage : Z := 2 ^ 14.
Definition DepthTransactionEnd : Z := 2 ^ 15.
Definition DepthSourcePosition : Z := 2 ^ 16.
Definition known : Z := 0x1FFFF.
End RecordFlag.

Module SourceFlag.
Definition Healthy : Z := 0.
Definition Stale : Z := 2 ^ 0.
Definition Degraded : Z := 2 ^ 1.
Definition SequenceGap : Z := 2 ^ 2.
Definition ExchangeTimestampMissing : Z := 2 ^ 3.
Definition BookTickerBidPresent : Z := 2 ^ 4.
Definition BookTickerAskPresent : Z := 2 ^ 5.
Definition known : Z := 0x3F.
End SourceFlag.

Module DepthFrameKind.
Definition UnknownKind : Z := 0.
Definition Snapshot : Z := 1.
Definition Delta : Z := 2.
Definition State : Z := 3.
End DepthFrameKind.

Module DepthState.
Definition Empty : Z := 0.
Definition Partial : Z := 1.
Definition RebaseInFlight : Z := 2.
Definition Healthy : Z := 3.
Definition Gap : Z := 4.
End DepthState.

Module LifecycleKind.
Definition Added : Z := 1.
Definition Removed : Z := 2.
Definition Readded : Z := 3.
Definition DirectoryChanged : Z := 4.
End LifecycleKind.

Module TransitionCause.
Definition Subscription : Z := 0.
Definition NativeStale : Z := 1.
Definition NativeDegraded : Z := 2.
Definition NativeSequenceGap : Z := 3.
Definition NativeRecovered : Z := 4.
Definition NativeClosed : Z := 5.
End TransitionCause.

Module QuantityKind.
Definition Unknown : Z := 0.
Definition CanonicalBase : Z := 1.
Definition NativeBase : Z := 2.
Definition NativeContract : Z := 3.
Definition NativeLot : Z := 4.
End QuantityKind.

Module StopReason.
Definition Requested : Z := 1.
Definition Duration : Z := 2.
Definition Quota : Z := 3.
Definition ParserDisconnected : Z := 4.
Definition Error : Z := 5.
End StopReason.

(** ** Sources *)
Record BinaryMarketQuantityConversion := MkBinaryMarketQuantityConversion {
  qc_kinds : list Z;
  qc_reserved : list Z;
  qc_canonicalBaseMultiplier : Z;
  qc_nativeBaseMultiplier : Z;
  qc_nativeContractBaseQtyRaw : Z;
  qc_nativeLotBaseQtyRaw : Z;
}.
#[export] Instance BinaryMarketQuantityConversion_eta : Eta BinaryMarketQuantityConversion := fun r =>
  MkBinaryMarketQuantityConversion
    (qc_kinds r) (qc_reserved r) (qc_canonicalBaseMultiplier r)
    (qc_nativeBaseMultiplier r) (qc_nativeContractBaseQtyRaw r)
    (qc_nativeLotBaseQtyRaw r).
Definition l_BinaryMarketQuantityConversion : layout BinaryMarketQuantityConversion := l_iso
  (fun r => (
    qc_kinds r, qc_reserved r, qc_canonicalBaseMultiplier r,
    qc_nativeBaseMultiplier r, qc_nativeContractBaseQtyRaw r,
    qc_nativeLotBaseQtyRaw r))
  (fun '(
    x0, x1, x2, x3, x4, x5) =>
    MkBinaryMarketQuantityConversion x0 x1 x2 x3 x4 x5)
  ltac:(struct_iso) ltac:(struct_iso)
  (l_array 3 l_u8 ** l_raw 5 ** l_u32 ** l_u32 ** l_i64 ** l_i64)%layout.
#[export] Instance BinaryMarketQuantityConversion_eq_dec :
  EqDecision BinaryMarketQuantityConversion.
Proof. solve_decision. Defined.

Definition zero_bytes (bs : list Z) : bool := forallb (fun b => b =? 0) bs.

Definition validBinaryMarketQuantityConversion
  (conversion : BinaryMarketQuantityConversion) : bool :=
  if negb (zero_bytes (qc_reserved conversion)) ||
     (qc_nativeContractBaseQtyRaw conversion <? 0) ||
     (qc_nativeLotBaseQtyRaw conversion <? 0) then false
  else
    let kinds := qc_kinds conversion in
    let known := existsb (fun kind => negb (kind =? QuantityKind.Unknown)) kinds in
    let contract := existsb (fun kind => kind =? QuantityKind.NativeContract) kinds in
    let lot := existsb (fun kind => kind =? QuantityKind.NativeLot) kinds in
    if existsb (fun kind => 4 <? kind) kinds then false
    else if negb known then
      (qc_canonicalBaseMultiplier conversion =? 0) &&
      (qc_nativeBaseMultiplier conversion =? 0) &&
      (qc_nativeContractBaseQtyRaw conversion =? 0) &&
      (qc_nativeLotBaseQtyRaw conversion =? 0)
    else
      negb (qc_canonicalBaseMultiplier conversion =? 0) &&
      negb (qc_nativeBaseMultiplier conversion =? 0) &&
      (if contract then 0 <? qc_nativeContractBaseQtyRaw conversion
       else qc_nativeContractBaseQtyRaw conversion =? 0) &&
      (if lot then 0 <? qc_nativeLotBaseQtyRaw conversion
       else qc_nativeLotBaseQtyRaw conversion =? 0).

Record BinaryMarketSource := MkBinaryMarketSource {
  src_sourceId : Z;
  src_canonicalSymbolId : Z;
  src_initialSourceGeneration : Z;
  src_tickSizeRaw : Z;
  src_stepSizeRaw : Z;
  src_contractBaseQtyRaw : Z;
  src_canonicalStepSizeRaw : Z;
  src_executionQuantityStepRaw : Z;
  src_quantityConversion : BinaryMarketQuantityConversion;
  src_priceBasisQtyRaw : Z;
  src_economicBaseAssetId : Z;
  src_quoteAssetId : Z;
  src_venueId : Z;
  src_directoryFlags : Z;
  src_configuredChannelMask : Z;
  src_availableChannelMask : Z;
  src_traderReplayChannelMask : Z;
  src_pad114 : list Z;
  src_instrumentMetadataFlags : Z;
  src_marketRaw : Z;
  src_marketKindRaw : Z;
  src_assetDomainRaw : Z;
  src_priceScale : Z;
  src_quantityScale : Z;
  src_venueBytes : Z;
  src_marketBytes : Z;
  src_canonicalSymbolBytes : Z;
  src_nativeSymbolBytes : Z;
  src_compatibility : list Z;
  src_initiallyPresent : Z;
  src_reserved : list Z;
  src_venue : list Z;
  src_market : list Z;
  src_canonicalSymbol : list Z;
  src_nativeSymbol : list Z;
  src_pad271 : list Z;
}.
#[export] Instance BinaryMarketSource_eta : Eta BinaryMarketSource := fun r =>
  MkBinaryMarketSource
    (src_sourceId r) (src_canonicalSymbolId r)
    (src_initialSourceGeneration r) (src_tickSizeRaw r) (src_stepSizeRaw r)
    (src_contractBaseQtyRaw r) (src_canonicalStepSizeRaw r)
    (src_executionQuantityStepRaw r) (src_quantityConversion r)
    (src_priceBasisQtyRaw r) (src_economicBaseAssetId r) (src_quoteAssetId r)
    (src_venueId r) (src_directoryFlags r) (src_configuredChannelMask r)
    (src_availableChannelMask r) (src_traderReplayChannelMask r)
    (src_pad114 r) (src_instrumentMetadataFlags r) (src_marketRaw r)
    (src_marketKindRaw r) (src_assetDomainRaw r) (src_priceScale r)
    (src_quantityScale r) (src_venueBytes r) (src_marketBytes r)
    (src_canonicalSymbolBytes r) (src_nativeSymbolBytes r)
    (src_compatibility r) (src_initiallyPresent r) (src_reserved r)
    (src_venue r) (src_market r) (src_canonicalSymbol r) (src_nativeSymbol r)
    (src_pad271 r).
Definition l_BinaryMarketSource : layout BinaryMarketSource := l_iso
  (fun r => (
    src_sourceId r, src_canonicalSymbolId r, src_initialSourceGeneration r,
    src_tickSizeRaw r, src_stepSizeRaw r, src_contractBaseQtyRaw r,
    src_canonicalStepSizeRaw r, src_executionQuantityStepRaw r,
    src_quantityConversion r, src_priceBasisQtyRaw r,
    src_economicBaseAssetId r, src_quoteAssetId r, src_venueId r,
    src_directoryFlags r, src_configuredChannelMask r,
    src_availableChannelMask r, src_traderReplayChannelMask r, src_pad114 r,
    src_instrumentMetadataFlags r, src_marketRaw r, src_marketKindRaw r,
    src_assetDomainRaw r, src_priceScale r, src_quantityScale r,
    src_venueBytes r, src_marketBytes r, src_canonicalSymbolBytes r,
    src_nativeSymbolBytes r, src_compatibility r, src_initiallyPresent r,
    src_reserved r, src_venue r, src_market r, src_canonicalSymbol r,
    src_nativeSymbol r, src_pad271 r))
  (fun '(
    x0, x1, x2, x3, x4, x5, x6, x7, x8, x9, x10, x11, x12, x13, x14, x15,
    x16, x17, x18, x19, x20, x21, x22, x23, x24, x25, x26, x27, x28, x29,
    x30, x31, x32, x33, x34, x35) =>
    MkBinaryMarketSource x0 x1 x2 x3 x4 x5 x6 x7 x8 x9 x10 x11 x12 x13 x14
    x15 x16 x17 x18 x19 x20 x21 x22 x23 x24 x25 x26 x27 x28 x29 x30 x31 x32
    x33 x34 x35)
  ltac:(struct_iso) ltac:(struct_iso)
  (l_u32 ** l_u32 ** l_u64 ** l_i64 ** l_i64 ** l_i64 ** l_i64 ** l_i64 **
   l_BinaryMarketQuantityConversion ** l_i64 ** l_u32 ** l_u32 ** l_u16 **
   l_u16 ** l_u16 ** l_u16 ** l_u16 ** l_raw 2 ** l_u32 ** l_u8 ** l_u8 **
   l_u8 ** l_u8 ** l_u8 ** l_u8 ** l_u8 ** l_u8 ** l_u8 ** l_array 8 l_u8 **
   l_u8 ** l_raw 5 ** l_raw 16 ** l_raw 16 ** l_raw 48 ** l_raw 48 **
   l_raw 1)%layout.
Definition validBinaryMarketCompatibility (value : Z) : bool :=
  (value =? Compatibility.Unavailable) || (value =? Compatibility.ExactTraderReplay) ||
  (value =? Compatibility.RecordedOnly).

Definition validBinaryMarketText (value : list Z) (bytes : Z) : bool :=
  if (bytes =? 0) || (Z.of_nat (length value) <? bytes) then false
  else zero_bytes (drop (Z.to_nat bytes) value).

Definition validBinaryMarketCode (marketRaw : Z) (market : list Z) (bytes : Z) : bool :=
  if negb (validBinaryMarketText market bytes) then false
  else
    let value := take (Z.to_nat bytes) market in
    let named (text : string) := bool_decide (value = bytes_of_string text) in
    if marketRaw =? 1 then named "futures"
    else if marketRaw =? 2 then named "spot"
    else if marketRaw =? 3 then named "margin"
    else if marketRaw =? 4 then named "option"
    else if marketRaw =? 5 then named "inverse"
    else if marketRaw =? 6 then named "swap"
    else false.

(** The early-return chain of [validBinaryMarketSource]. *)
Definition sourceFieldsInvalid (source : BinaryMarketSource) (index : Z) : bool :=
  let dir := src_directoryFlags source in
  let meta := src_instrumentMetadataFlags source in
  negb (src_sourceId source =? index + 1) ||
  (src_canonicalSymbolId source =? 0) ||
  ((src_initialSourceGeneration source =? 0) && negb (src_initiallyPresent source =? 0)) ||
  (src_venueId source =? 0) ||
  (negb (src_marketKindRaw source =? 1) && negb (src_marketKindRaw source =? 2)) ||
  (2 <? src_assetDomainRaw source) ||
  (18 <? src_priceScale source) || (18 <? src_quantityScale source) ||
  negb (validBinaryMarketText (src_venue source) (src_venueBytes source)) ||
  negb (validBinaryMarketCode (src_marketRaw source) (src_market source)
          (src_marketBytes source)) ||
  negb (validBinaryMarketText (src_canonicalSymbol source)
          (src_canonicalSymbolBytes source)) ||
  negb (validBinaryMarketText (src_nativeSymbol source) (src_nativeSymbolBytes source)) ||
  (src_tickSizeRaw source <? 0) || (src_stepSizeRaw source <? 0) ||
  (src_contractBaseQtyRaw source <? 0) || (src_priceBasisQtyRaw source <? 0) ||
  (src_canonicalStepSizeRaw source <? 0) || (src_executionQuantityStepRaw source <? 0) ||
  negb (validBinaryMarketQuantityConversion (src_quantityConversion source)) ||
  (src_economicBaseAssetId source =? 0) || (src_quoteAssetId source =? 0) ||
  outside dir Directory.known ||
  negb (Bool.eqb (has dir Directory.TickSize) (0 <? src_tickSizeRaw source)) ||
  (has dir Directory.MarginEligible && negb (has dir Directory.MarginEligibilityKnown)) ||
  outside meta InstrumentMetadata.known ||
  negb (Bool.eqb (has meta InstrumentMetadata.CanonicalStepSize)
            (0 <? src_canonicalStepSizeRaw source)) ||
  negb (Bool.eqb (has meta InstrumentMetadata.ExecutionQuantityStep)
            (0 <? src_executionQuantityStepRaw source)) ||
  negb (Bool.eqb (has meta InstrumentMetadata.StepSize) (0 <? src_stepSizeRaw source)) ||
  negb (Bool.eqb (has meta InstrumentMetadata.ContractBaseQty)
            (0 <? src_contractBaseQtyRaw source)) ||
  outside (src_configuredChannelMask source) 0x00ff ||
  outside (src_availableChannelMask source) (src_configuredChannelMask source) ||
  outside (src_traderReplayChannelMask source) (src_availableChannelMask source) ||
  (1 <? src_initiallyPresent source) || negb (zero_bytes (src_reserved source)).

(** [directoryChannels]: the channels the directory flags announce. *)
Definition directoryChannels (source : BinaryMarketSource) : Z :=
  let dir := src_directoryFlags source in
  Z.lor (Z.lor
    (if has dir Directory.BookTicker then binaryMarketChannelBit Channel.BookTicker else 0)
    (if has dir Directory.Trade then binaryMarketChannelBit Channel.Trade else 0))
    (if has dir Directory.Depth then binaryMarketChannelBit Channel.Depth else 0).

Definition directoryOwnedChannelMask : Z :=
  Z.lor (Z.lor (binaryMarketChannelBit Channel.BookTicker)
               (binaryMarketChannelBit Channel.Trade))
        (binaryMarketChannelBit Channel.Depth).

(** The compatibility a channel must declare, given the masks. *)
Definition compatibilityMatches (source : BinaryMarketSource) (channel : nat) : bool :=
  let bit := u16 (Z.shiftl 1 (Z.of_nat channel)) in
  let compatibility := nth channel (src_compatibility source) 0 in
  if negb (validBinaryMarketCompatibility compatibility) then false
  else if negb (has (src_availableChannelMask source) bit) then
    compatibility =? Compatibility.Unavailable
  else if has (src_traderReplayChannelMask source) bit then
    compatibility =? Compatibility.ExactTraderReplay
  else compatibility =? Compatibility.RecordedOnly.

Definition validBinaryMarketSource (source : BinaryMarketSource) (index : Z) : bool :=
  if sourceFieldsInvalid source index then false
  else if negb (Z.land (src_configuredChannelMask source) directoryOwnedChannelMask =?
                directoryChannels source) then false
  else if negb (forallb (fun channel =>
      (nth channel (qc_kinds (src_quantityConversion source)) 0 =? QuantityKind.Unknown) ||
      has (src_configuredChannelMask source) (u16 (Z.shiftl 1 (Z.of_nat channel))))
      (seq 0 3)) then false
  else forallb (compatibilityMatches source) (seq 0 kBinaryMarketChannelCount).

Definition binaryMarketTransitionIsUnhealthy (cause : Z) : bool :=
  (cause =? TransitionCause.NativeStale) || (cause =? TransitionCause.NativeDegraded) ||
  (cause =? TransitionCause.NativeSequenceGap) || (cause =? TransitionCause.NativeClosed).

(** ** Records and their payloads *)
Record BinaryMarketSourceLifecyclePayload := MkBinaryMarketSourceLifecyclePayload {
  lc_directoryRevision : Z;
  lc_previousSourceGeneration : Z;
  lc_requestSequence : Z;
  lc_channelMaskBefore : Z;
  lc_channelMaskAfter : Z;
  lc_kind : Z;
  lc_affectedChannel : Z;
  lc_reason : Z;
  lc_cause : Z;
  lc_source : BinaryMarketSource;
}.
#[export] Instance BinaryMarketSourceLifecyclePayload_eta : Eta BinaryMarketSourceLifecyclePayload := fun r =>
  MkBinaryMarketSourceLifecyclePayload
    (lc_directoryRevision r) (lc_previousSourceGeneration r)
    (lc_requestSequence r) (lc_channelMaskBefore r) (lc_channelMaskAfter r)
    (lc_kind r) (lc_affectedChannel r) (lc_reason r) (lc_cause r)
    (lc_source r).
Definition l_BinaryMarketSourceLifecyclePayload : layout BinaryMarketSourceLifecyclePayload := l_iso
  (fun r => (
    lc_directoryRevision r, lc_previousSourceGeneration r,
    lc_requestSequence r, lc_channelMaskBefore r, lc_channelMaskAfter r,
    lc_kind r, lc_affectedChannel r, lc_reason r, lc_cause r, lc_source r))
  (fun '(
    x0, x1, x2, x3, x4, x5, x6, x7, x8, x9) =>
    MkBinaryMarketSourceLifecyclePayload x0 x1 x2 x3 x4 x5 x6 x7 x8 x9)
  ltac:(struct_iso) ltac:(struct_iso)
  (l_u64 ** l_u64 ** l_u64 ** l_u16 ** l_u16 ** l_u8 ** l_u8 ** l_u8 **
   l_u8 ** l_BinaryMarketSource)%layout.
Record BinaryMarketRecordHeader := MkBinaryMarketRecordHeader {
  h_sourceId : Z;
  h_flags : Z;
  h_sourceGeneration : Z;
  h_sessionEpoch : Z;
  h_eventSequence : Z;
  h_frameSequence : Z;
  h_nativeIdentityFirst : Z;
  h_nativeIdentitySecond : Z;
  h_exchangeTimestampNs : Z;
  h_receiveRealtimeNs : Z;
  h_receiveMonotonicNs : Z;
  h_shardSequence : Z;
  h_payloadBytes : Z;
  h_shardIndex : Z;
  h_sourceFlags : Z;
  h_channel : Z;
  h_nativeIdentityShape : Z;
  h_eventOrdinal : Z;
  h_pad98 : list Z;
  h_reserved : Z;
}.
#[export] Instance BinaryMarketRecordHeader_eta : Eta BinaryMarketRecordHeader := fun r =>
  MkBinaryMarketRecordHeader
    (h_sourceId r) (h_flags r) (h_sourceGeneration r) (h_sessionEpoch r)
    (h_eventSequence r) (h_frameSequence r) (h_nativeIdentityFirst r)
    (h_nativeIdentitySecond r) (h_exchangeTimestampNs r)
    (h_receiveRealtimeNs r) (h_receiveMonotonicNs r) (h_shardSequence r)
    (h_payloadBytes r) (h_shardIndex r) (h_sourceFlags r) (h_channel r)
    (h_nativeIdentityShape r) (h_eventOrdinal r) (h_pad98 r) (h_reserved r).
Definition l_BinaryMarketRecordHeader : layout BinaryMarketRecordHeader := l_iso
  (fun r => (
    h_sourceId r, h_flags r, h_sourceGeneration r, h_sessionEpoch r,
    h_eventSequence r, h_frameSequence r, h_nativeIdentityFirst r,
    h_nativeIdentitySecond r, h_exchangeTimestampNs r, h_receiveRealtimeNs r,
    h_receiveMonotonicNs r, h_shardSequence r, h_payloadBytes r,
    h_shardIndex r, h_sourceFlags r, h_channel r, h_nativeIdentityShape r,
    h_eventOrdinal r, h_pad98 r, h_reserved r))
  (fun '(
    x0, x1, x2, x3, x4, x5, x6, x7, x8, x9, x10, x11, x12, x13, x14, x15,
    x16, x17, x18, x19) =>
    MkBinaryMarketRecordHeader x0 x1 x2 x3 x4 x5 x6 x7 x8 x9 x10 x11 x12 x13
    x14 x15 x16 x17 x18 x19)
  ltac:(struct_iso) ltac:(struct_iso)
  (l_u32 ** l_u32 ** l_u64 ** l_u64 ** l_u64 ** l_u64 ** l_u64 ** l_u64 **
   l_i64 ** l_i64 ** l_u64 ** l_u64 ** l_u16 ** l_u16 ** l_u16 ** l_u8 **
   l_u8 ** l_u16 ** l_raw 2 ** l_u32)%layout.
Record BinaryMarketRecord := MkBinaryMarketRecord {
  rec_header : BinaryMarketRecordHeader;
  rec_payload : list Z;
  rec_pad992 : list Z;
}.
#[export] Instance BinaryMarketRecord_eta : Eta BinaryMarketRecord := fun r =>
  MkBinaryMarketRecord
    (rec_header r) (rec_payload r) (rec_pad992 r).
Definition l_BinaryMarketRecord : layout BinaryMarketRecord := l_iso
  (fun r => (
    rec_header r, rec_payload r, rec_pad992 r))
  (fun '(
    x0, x1, x2) =>
    MkBinaryMarketRecord x0 x1 x2)
  ltac:(struct_iso) ltac:(struct_iso)
  (l_BinaryMarketRecordHeader ** l_raw 888 ** l_raw 32)%layout.
Record BinaryMarketBookTickerPayload := MkBinaryMarketBookTickerPayload {
  bt_bidPriceRaw : Z;
  bt_bidQtyRaw : Z;
  bt_askPriceRaw : Z;
  bt_askQtyRaw : Z;
  bt_nativeEvidence : list Z;
}.
#[export] Instance BinaryMarketBookTickerPayload_eta : Eta BinaryMarketBookTickerPayload := fun r =>
  MkBinaryMarketBookTickerPayload
    (bt_bidPriceRaw r) (bt_bidQtyRaw r) (bt_askPriceRaw r) (bt_askQtyRaw r)
    (bt_nativeEvidence r).
Definition l_BinaryMarketBookTickerPayload : layout BinaryMarketBookTickerPayload := l_iso
  (fun r => (
    bt_bidPriceRaw r, bt_bidQtyRaw r, bt_askPriceRaw r, bt_askQtyRaw r,
    bt_nativeEvidence r))
  (fun '(
    x0, x1, x2, x3, x4) =>
    MkBinaryMarketBookTickerPayload x0 x1 x2 x3 x4)
  ltac:(struct_iso) ltac:(struct_iso)
  (l_i64 ** l_i64 ** l_i64 ** l_i64 ** l_raw 56)%layout.
Record BinaryMarketTradePayload := MkBinaryMarketTradePayload {
  tr_priceRaw : Z;
  tr_qtyRaw : Z;
  tr_side : Z;
  tr_reserved : list Z;
  tr_nativeEvidence : list Z;
}.
#[export] Instance BinaryMarketTradePayload_eta : Eta BinaryMarketTradePayload := fun r =>
  MkBinaryMarketTradePayload
    (tr_priceRaw r) (tr_qtyRaw r) (tr_side r) (tr_reserved r)
    (tr_nativeEvidence r).
Definition l_BinaryMarketTradePayload : layout BinaryMarketTradePayload := l_iso
  (fun r => (
    tr_priceRaw r, tr_qtyRaw r, tr_side r, tr_reserved r,
    tr_nativeEvidence r))
  (fun '(
    x0, x1, x2, x3, x4) =>
    MkBinaryMarketTradePayload x0 x1 x2 x3 x4)
  ltac:(struct_iso) ltac:(struct_iso)
  (l_i64 ** l_i64 ** l_u8 ** l_raw 7 ** l_raw 56)%layout.
Record BinaryMarketDepthSequence := MkBinaryMarketDepthSequence {
  ds_firstUpdateId : Z;
  ds_lastUpdateId : Z;
  ds_previousUpdateId : Z;
}.
#[export] Instance BinaryMarketDepthSequence_eta : Eta BinaryMarketDepthSequence := fun r =>
  MkBinaryMarketDepthSequence
    (ds_firstUpdateId r) (ds_lastUpdateId r) (ds_previousUpdateId r).
Definition l_BinaryMarketDepthSequence : layout BinaryMarketDepthSequence := l_iso
  (fun r => (
    ds_firstUpdateId r, ds_lastUpdateId r, ds_previousUpdateId r))
  (fun '(
    x0, x1, x2) =>
    MkBinaryMarketDepthSequence x0 x1 x2)
  ltac:(struct_iso) ltac:(struct_iso)
  (l_u64 ** l_u64 ** l_u64)%layout.
Record BinaryMarketDepthLevel := MkBinaryMarketDepthLevel {
  dl_priceRaw : Z;
  dl_quantityRaw : Z;
  dl_side : Z;
  dl_action : Z;
  dl_reserved16 : Z;
  dl_reserved32 : Z;
}.
#[export] Instance BinaryMarketDepthLevel_eta : Eta BinaryMarketDepthLevel := fun r =>
  MkBinaryMarketDepthLevel
    (dl_priceRaw r) (dl_quantityRaw r) (dl_side r) (dl_action r)
    (dl_reserved16 r) (dl_reserved32 r).
Definition l_BinaryMarketDepthLevel : layout BinaryMarketDepthLevel := l_iso
  (fun r => (
    dl_priceRaw r, dl_quantityRaw r, dl_side r, dl_action r, dl_reserved16 r,
    dl_reserved32 r))
  (fun '(
    x0, x1, x2, x3, x4, x5) =>
    MkBinaryMarketDepthLevel x0 x1 x2 x3 x4 x5)
  ltac:(struct_iso) ltac:(struct_iso)
  (l_u64 ** l_u64 ** l_u8 ** l_u8 ** l_u16 ** l_u32)%layout.
Record BinaryMarketDepthChunkPayload := MkBinaryMarketDepthChunkPayload {
  dc_sequence : BinaryMarketDepthSequence;
  dc_totalLevelCount : Z;
  dc_levelOffset : Z;
  dc_partIndex : Z;
  dc_partCount : Z;
  dc_levelCount : Z;
  dc_frameKind : Z;
  dc_state : Z;
  dc_failure : Z;
  dc_reserved8 : Z;
  dc_transactionPartIndex : Z;
  dc_transactionPartCount : Z;
  dc_reserved16 : Z;
  dc_sourceReceiveRealtimeNs : Z;
  dc_sourceFreshnessMonotonicNs : Z;
  dc_nativeEvidence : list Z;
  dc_levels : list BinaryMarketDepthLevel;
}.
#[export] Instance BinaryMarketDepthChunkPayload_eta : Eta BinaryMarketDepthChunkPayload := fun r =>
  MkBinaryMarketDepthChunkPayload
    (dc_sequence r) (dc_totalLevelCount r) (dc_levelOffset r)
    (dc_partIndex r) (dc_partCount r) (dc_levelCount r) (dc_frameKind r)
    (dc_state r) (dc_failure r) (dc_reserved8 r) (dc_transactionPartIndex r)
    (dc_transactionPartCount r) (dc_reserved16 r)
    (dc_sourceReceiveRealtimeNs r) (dc_sourceFreshnessMonotonicNs r)
    (dc_nativeEvidence r) (dc_levels r).
Definition l_BinaryMarketDepthChunkPayload : layout BinaryMarketDepthChunkPayload := l_iso
  (fun r => (
    dc_sequence r, dc_totalLevelCount r, dc_levelOffset r, dc_partIndex r,
    dc_partCount r, dc_levelCount r, dc_frameKind r, dc_state r,
    dc_failure r, dc_reserved8 r, dc_transactionPartIndex r,
    dc_transactionPartCount r, dc_reserved16 r, dc_sourceReceiveRealtimeNs r,
    dc_sourceFreshnessMonotonicNs r, dc_nativeEvidence r, dc_levels r))
  (fun '(
    x0, x1, x2, x3, x4, x5, x6, x7, x8, x9, x10, x11, x12, x13, x14, x15,
    x16) =>
    MkBinaryMarketDepthChunkPayload x0 x1 x2 x3 x4 x5 x6 x7 x8 x9 x10 x11 x12
    x13 x14 x15 x16)
  ltac:(struct_iso) ltac:(struct_iso)
  (l_BinaryMarketDepthSequence ** l_u32 ** l_u32 ** l_u16 ** l_u16 **
   l_u16 ** l_u8 ** l_u8 ** l_u8 ** l_u8 ** l_u16 ** l_u16 ** l_u16 **
   l_u64 ** l_u64 ** l_raw 56 ** l_array 32 l_BinaryMarketDepthLevel)%layout.
Record BinaryMarketDepthCoverage := MkBinaryMarketDepthCoverage {
  cv_sourceId : Z;
  cv_sequenceDomain : Z;
  cv_maximumLevelsPerSide : Z;
  cv_sequenceFlags : Z;
  cv_sourceGeneration : Z;
  cv_sessionEpoch : Z;
  cv_lastUpdateId : Z;
  cv_freshnessMonotonicNs : Z;
  cv_lowestBidPriceRaw : Z;
  cv_highestAskPriceRaw : Z;
  cv_lowestProtectedBidPriceRaw : Z;
  cv_highestProtectedAskPriceRaw : Z;
  cv_state : Z;
  cv_failure : Z;
  cv_snapshotAligned : Z;
  cv_liquidityPopulation : Z;
  cv_reserved32 : Z;
  cv_nativeEvidence : list Z;
}.
#[export] Instance BinaryMarketDepthCoverage_eta : Eta BinaryMarketDepthCoverage := fun r =>
  MkBinaryMarketDepthCoverage
    (cv_sourceId r) (cv_sequenceDomain r) (cv_maximumLevelsPerSide r)
    (cv_sequenceFlags r) (cv_sourceGeneration r) (cv_sessionEpoch r)
    (cv_lastUpdateId r) (cv_freshnessMonotonicNs r) (cv_lowestBidPriceRaw r)
    (cv_highestAskPriceRaw r) (cv_lowestProtectedBidPriceRaw r)
    (cv_highestProtectedAskPriceRaw r) (cv_state r) (cv_failure r)
    (cv_snapshotAligned r) (cv_liquidityPopulation r) (cv_reserved32 r)
    (cv_nativeEvidence r).
Definition l_BinaryMarketDepthCoverage : layout BinaryMarketDepthCoverage := l_iso
  (fun r => (
    cv_sourceId r, cv_sequenceDomain r, cv_maximumLevelsPerSide r,
    cv_sequenceFlags r, cv_sourceGeneration r, cv_sessionEpoch r,
    cv_lastUpdateId r, cv_freshnessMonotonicNs r, cv_lowestBidPriceRaw r,
    cv_highestAskPriceRaw r, cv_lowestProtectedBidPriceRaw r,
    cv_highestProtectedAskPriceRaw r, cv_state r, cv_failure r,
    cv_snapshotAligned r, cv_liquidityPopulation r, cv_reserved32 r,
    cv_nativeEvidence r))
  (fun '(
    x0, x1, x2, x3, x4, x5, x6, x7, x8, x9, x10, x11, x12, x13, x14, x15,
    x16, x17) =>
    MkBinaryMarketDepthCoverage x0 x1 x2 x3 x4 x5 x6 x7 x8 x9 x10 x11 x12 x13
    x14 x15 x16 x17)
  ltac:(struct_iso) ltac:(struct_iso)
  (l_u32 ** l_u32 ** l_u32 ** l_u32 ** l_u64 ** l_u64 ** l_u64 ** l_u64 **
   l_i64 ** l_i64 ** l_i64 ** l_i64 ** l_u8 ** l_u8 ** l_u8 ** l_u8 **
   l_u32 ** l_raw 56)%layout.
Record BinaryMarketDepthCoveragePayload := MkBinaryMarketDepthCoveragePayload {
  cp_totalCoverageCount : Z;
  cp_coverageOffset : Z;
  cp_coverageCount : Z;
  cp_partIndex : Z;
  cp_partCount : Z;
  cp_transactionPartCount : Z;
  cp_coverage : list BinaryMarketDepthCoverage;
}.
#[export] Instance BinaryMarketDepthCoveragePayload_eta : Eta BinaryMarketDepthCoveragePayload := fun r =>
  MkBinaryMarketDepthCoveragePayload
    (cp_totalCoverageCount r) (cp_coverageOffset r) (cp_coverageCount r)
    (cp_partIndex r) (cp_partCount r) (cp_transactionPartCount r)
    (cp_coverage r).
Definition l_BinaryMarketDepthCoveragePayload : layout BinaryMarketDepthCoveragePayload := l_iso
  (fun r => (
    cp_totalCoverageCount r, cp_coverageOffset r, cp_coverageCount r,
    cp_partIndex r, cp_partCount r, cp_transactionPartCount r,
    cp_coverage r))
  (fun '(
    x0, x1, x2, x3, x4, x5, x6) =>
    MkBinaryMarketDepthCoveragePayload x0 x1 x2 x3 x4 x5 x6)
  ltac:(struct_iso) ltac:(struct_iso)
  (l_u32 ** l_u32 ** l_u16 ** l_u16 ** l_u16 ** l_u16 **
   l_array 5 l_BinaryMarketDepthCoverage)%layout.
(** [binaryMarketPayload<Payload>(&record)]: the payload bytes seen as a
    struct of type [Payload]. *)
Definition binaryMarketPayload {P} (l : layout P) (record : BinaryMarketRecord) : P :=
  view l (rec_payload record).

Abbreviation lifecyclePayload := (binaryMarketPayload l_BinaryMarketSourceLifecyclePayload).
Abbreviation depthChunk := (binaryMarketPayload l_BinaryMarketDepthChunkPayload).
Abbreviation depthCoveragePayload := (binaryMarketPayload l_BinaryMarketDepthCoveragePayload).

Definition sizeofz {A} (l : layout A) : Z := Z.of_nat (sizeof l).

(** The static assertions of the header. *)
Example layout_sizes :
  (sizeof l_BinaryMarketQuantityConversion, sizeof l_BinaryMarketRecordHeader,
   sizeof l_BinaryMarketDepthLevel, sizeof l_BinaryMarketDepthChunkPayload,
   sizeof l_BinaryMarketTradePayload, sizeof l_BinaryMarketBookTickerPayload,
   sizeof l_BinaryMarketDepthCoverage, sizeof l_BinaryMarketDepthCoveragePayload,
   sizeof l_BinaryMarketRecord)%nat
  = (32, 104, 24, 888, 80, 88, 144, 736, 1024)%nat.
Proof. reflexivity. Qed.

Section validity.
Context `{CxetMarket}.

Definition binaryMarketDepthRecordIsComposedCut (record : BinaryMarketRecord) : bool :=
  let flags := h_flags (rec_header record) in
  let required := Z.lor (Z.lor RecordFlag.DepthSnapshot RecordFlag.DepthSourcePosition)
                    RecordFlag.DepthHasCoverage in
  let forbidden := Z.lor (Z.lor (Z.lor RecordFlag.DepthDelta RecordFlag.DepthState)
                     RecordFlag.DepthRebase) RecordFlag.DepthCoverage in
  if negb (h_channel (rec_header record) =? Channel.Depth) ||
     negb (h_payloadBytes (rec_header record) =? sizeofz l_BinaryMarketDepthChunkPayload) ||
     negb (Z.land flags required =? required) || has flags forbidden then false
  else
    let p := depthChunk record in
    (dc_frameKind p =? DepthFrameKind.Snapshot) &&
    (dc_transactionPartIndex p =? 0) && (dc_transactionPartCount p =? 1) &&
    ((dc_state p =? DepthState.Healthy) || (dc_state p =? DepthState.Partial) ||
     (dc_state p =? DepthState.Gap) ||
     ((dc_state p =? DepthState.Empty) && (dc_totalLevelCount p =? 0) &&
      (dc_levelCount p =? 0))).

Definition validBinaryMarketDepthNativeState (record : BinaryMarketRecord) : bool :=
  let p := depthChunk record in
  let flags := h_flags (rec_header record) in
  let composed := binaryMarketDepthRecordIsComposedCut record in
  let partial := dc_state p =? DepthState.Partial in
  let healthy := dc_state p =? DepthState.Healthy in
  let rebase := dc_state p =? DepthState.RebaseInFlight in
  let gap := dc_state p =? DepthState.Gap in
  let snapshot := dc_frameKind p =? DepthFrameKind.Snapshot in
  let delta := dc_frameKind p =? DepthFrameKind.Delta in
  let state := dc_frameKind p =? DepthFrameKind.State in
  let compatible := has flags RecordFlag.TraderReplayCompatible in
  let noLevels := dc_totalLevelCount p =? 0 in
  if (negb partial && negb healthy && negb rebase && negb gap && negb composed) ||
     (negb snapshot && negb delta && negb state) ||
     (DepthFailure_ConsumerBookRejected <? dc_failure p) ||
     negb (Bool.eqb (has flags RecordFlag.DepthSnapshot) snapshot) ||
     negb (Bool.eqb (has flags RecordFlag.DepthDelta) delta) ||
     negb (Bool.eqb (has flags RecordFlag.DepthState) state) ||
     negb (Bool.eqb (has flags RecordFlag.DepthPartial) partial) ||
     negb (Bool.eqb (has flags RecordFlag.DepthRebase) rebase) ||
     negb (Bool.eqb compatible (partial || healthy || rebase || composed)) ||
     (noLevels && negb state && negb snapshot) || (state && negb noLevels) ||
     ((partial || healthy || rebase) && negb (dc_failure p =? 0)) ||
     (gap && (dc_failure p =? 0) && negb composed) ||
     ((dc_state p =? DepthState.Empty) && negb (dc_failure p =? 0)) ||
     ((partial || healthy) && negb delta && negb snapshot) ||
     (rebase && negb (Bool.eqb snapshot (dc_transactionPartIndex p =? 0))) ||
     (negb rebase && negb (dc_transactionPartCount p =? 1)) ||
     (state && (negb gap || compatible || partial || rebase ||
                negb (dc_sourceReceiveRealtimeNs p =? 0))) ||
     (negb state &&
      ((negb composed && ((dc_sourceReceiveRealtimeNs p =? 0) ||
                          (dc_sourceFreshnessMonotonicNs p =? 0))) ||
       (0x7fffffffffffffff <? dc_sourceReceiveRealtimeNs p)))
  then false else true.

Definition binaryMarketDepthRecordIsNativeRebaseSnapshot
  (record : BinaryMarketRecord) : bool :=
  let flags := h_flags (rec_header record) in
  let required := Z.lor (Z.lor RecordFlag.TraderReplayCompatible RecordFlag.DepthSnapshot)
                    RecordFlag.DepthRebase in
  let forbidden := Z.lor (Z.lor (Z.lor (Z.lor RecordFlag.DepthDelta RecordFlag.DepthState)
      RecordFlag.DepthCoverage) RecordFlag.DepthHasCoverage)
      RecordFlag.DepthSourcePosition in
  if negb (h_channel (rec_header record) =? Channel.Depth) ||
     negb (h_payloadBytes (rec_header record) =? sizeofz l_BinaryMarketDepthChunkPayload) ||
     negb (Z.land flags required =? required) || has flags forbidden then false
  else
    let p := depthChunk record in
    (dc_frameKind p =? DepthFrameKind.Snapshot) &&
    (dc_state p =? DepthState.RebaseInFlight) &&
    (dc_transactionPartIndex p =? 0) && (dc_partIndex p =? 0) && (dc_failure p =? 0) &&
    validDepthSnapshotSequence (ds_firstUpdateId (dc_sequence p))
      (ds_lastUpdateId (dc_sequence p)) (ds_previousUpdateId (dc_sequence p)).

Definition validBinaryMarketDepthCoverage (value : BinaryMarketDepthCoverage) : bool :=
  negb (cv_sourceId value =? 0) && (cv_sourceId value <=? kMaximumDepthSourceCapacity) &&
  (cv_maximumLevelsPerSide value <=? kMaximumDepthLevelsPerSide) &&
  negb (outside (cv_sequenceFlags value) DepthEventSourcePosition) &&
  (0 <=? cv_lowestBidPriceRaw value) && (0 <=? cv_highestAskPriceRaw value) &&
  (0 <=? cv_lowestProtectedBidPriceRaw value) &&
  (0 <=? cv_highestProtectedAskPriceRaw value) &&
  (cv_state value <=? DepthState.Gap) && (cv_failure value <=? 8) &&
  (cv_snapshotAligned value <=? 1) && (cv_liquidityPopulation value <=? 3) &&
  (cv_reserved32 value =? 0) && validMarketNativeEvidence (cv_nativeEvidence value).

(** [operator==] of [BinaryMarketDepthCoverage], member by member, at the
    value-initialized object [BinaryMarketDepthCoverage{}]. *)
Definition coverageIsDefault (value : BinaryMarketDepthCoverage) : bool :=
  forallb (fun member => member =? 0)
    [cv_sourceId value; cv_sequenceDomain value; cv_maximumLevelsPerSide value;
     cv_sequenceFlags value; cv_sourceGeneration value; cv_sessionEpoch value;
     cv_lastUpdateId value; cv_freshnessMonotonicNs value; cv_lowestBidPriceRaw value;
     cv_highestAskPriceRaw value; cv_lowestProtectedBidPriceRaw value;
     cv_highestProtectedAskPriceRaw value; cv_state value; cv_failure value;
     cv_snapshotAligned value; cv_liquidityPopulation value; cv_reserved32 value] &&
  marketNativeEvidence_eqb (cv_nativeEvidence value) marketNativeEvidence_default.

Definition validBinaryMarketDepthCoveragePayload
  (value : BinaryMarketDepthCoveragePayload) : bool :=
  let total := cp_totalCoverageCount value in
  let offset := cp_coverageOffset value in
  if (total =? 0) || (kMaximumDepthSourceCapacity <? total) ||
     negb (cp_partCount value =? u32 (total + 4) / 5) ||
     (cp_partCount value <=? cp_partIndex value) ||
     negb (offset =? u32 (cp_partIndex value * 5)) ||
     (total <=? offset) || (cp_coverageCount value =? 0) || (5 <? cp_coverageCount value) ||
     negb (cp_coverageCount value =? (if total - offset <? 5 then total - offset else 5)) ||
     (cp_transactionPartCount value =? 0) ||
     (kMaximumDepthTransactionParts <? cp_transactionPartCount value)
  then false
  else
    let used := Z.to_nat (cp_coverageCount value) in
    forallb validBinaryMarketDepthCoverage (take used (cp_coverage value)) &&
    forallb coverageIsDefault (drop used (cp_coverage value)).

Definition binaryMarketRecordIsSourceHealth (record : BinaryMarketRecord) : bool :=
  let h := rec_header record in
  if negb (validBinaryMarketChannel (h_channel h)) then false
  else if binaryMarketDepthRecordIsComposedCut record then
    let state := dc_state (depthChunk record) in
    (state =? DepthState.Gap) || (state =? DepthState.Empty)
  else if has (h_sourceFlags h)
      (Z.lor (Z.lor SourceFlag.Stale SourceFlag.Degraded) SourceFlag.SequenceGap) then true
  else if negb (h_channel h =? Channel.Depth) ||
      negb (has (h_flags h) RecordFlag.DepthState) ||
      negb (h_payloadBytes h =? sizeofz l_BinaryMarketDepthChunkPayload) then false
  else
    let p := depthChunk record in
    (dc_frameKind p =? DepthFrameKind.State) && (dc_state p =? DepthState.Gap).

(** The channel-specific part of [validBinaryMarketRecord]. *)
Definition validRecordPayload (record : BinaryMarketRecord) : bool :=
  let header := rec_header record in
  let flags := h_flags header in
  if h_channel header =? Channel.BookTicker then
    (h_payloadBytes header =? sizeofz l_BinaryMarketBookTickerPayload) &&
    validMarketNativeEvidence
      (bt_nativeEvidence (binaryMarketPayload l_BinaryMarketBookTickerPayload record))
  else if h_channel header =? Channel.Trade then
    (h_payloadBytes header =? sizeofz l_BinaryMarketTradePayload) &&
    validMarketNativeEvidence
      (tr_nativeEvidence (binaryMarketPayload l_BinaryMarketTradePayload record))
  else if (h_channel header =? Channel.Depth) && has flags RecordFlag.DepthCoverage then
    let payload := depthCoveragePayload record in
    let required := Z.lor (Z.lor RecordFlag.DepthHasCoverage RecordFlag.DepthSourcePosition)
                      RecordFlag.TraderReplayCompatible in
    negb (negb (h_payloadBytes header =? sizeofz l_BinaryMarketDepthCoveragePayload) ||
      negb (validBinaryMarketDepthCoveragePayload payload) ||
      negb (h_eventOrdinal header =? cp_partIndex payload) ||
      negb (h_sourceFlags header =?
        (if h_exchangeTimestampNs header =? 0 then SourceFlag.ExchangeTimestampMissing
         else SourceFlag.Healthy)) ||
      has flags (Z.lor (Z.lor RecordFlag.DepthSnapshot RecordFlag.DepthDelta)
                   RecordFlag.DepthState) ||
      negb (Z.land flags required =? required) ||
      negb (Bool.eqb (has flags RecordFlag.DepthTransactionEnd)
                (cp_partIndex payload + 1 =? cp_partCount payload)))
  else if h_channel header =? Channel.Depth then
    (h_payloadBytes header =? sizeofz l_BinaryMarketDepthChunkPayload) &&
    validBinaryMarketDepthNativeState record &&
    validMarketNativeEvidence (dc_nativeEvidence (depthChunk record))
  else true.

(** The lifecycle part: the negation of the early-return chain. *)
Definition validRecordLifecycle (record : BinaryMarketRecord) : bool :=
  let header := rec_header record in
  let p := lifecyclePayload record in
  let native := negb (lc_cause p =? TransitionCause.Subscription) in
  let source := lc_source p in
  negb (negb (h_payloadBytes header =? sizeofz l_BinaryMarketSourceLifecyclePayload) ||
    (lc_directoryRevision p =? 0) || (TransitionCause.NativeClosed <? lc_cause p) ||
    (native && (negb (lc_kind p =? LifecycleKind.DirectoryChanged) ||
                negb (lc_channelMaskBefore p =? lc_channelMaskAfter p) ||
                (lc_affectedChannel p =? 0) || (3 <? lc_affectedChannel p) ||
                negb (lc_requestSequence p =? 0))) ||
    (native && negb (has (src_configuredChannelMask source)
                         (binaryMarketChannelBit (lc_affectedChannel p)))) ||
    (lc_kind p <? LifecycleKind.Added) || (LifecycleKind.DirectoryChanged <? lc_kind p) ||
    negb (src_sourceId source =? h_sourceId header) ||
    negb (src_initialSourceGeneration source =? h_sourceGeneration header) ||
    (src_sourceId source =? 0) ||
    negb (validBinaryMarketSource source (src_sourceId source - 1)) ||
    outside (lc_channelMaskBefore p) 0xff ||
    negb (lc_channelMaskAfter p =? src_availableChannelMask source) ||
    (negb (lc_affectedChannel p =? 0) &&
     negb (validBinaryMarketChannel (lc_affectedChannel p))) ||
    ((lc_previousSourceGeneration p =? 0) && negb (lc_kind p =? LifecycleKind.Added)) ||
    negb (has (h_flags header) RecordFlag.TraderReplayCompatible) ||
    negb (h_sourceFlags header =? 0) || negb (h_nativeIdentityShape header =? 0)).

(** The closing conjunction of [validBinaryMarketRecord], on the header only. *)
Definition validRecordHeader (header : BinaryMarketRecordHeader) : bool :=
  let lifecycle := h_channel header =? Channel.SourceLifecycle in
  let flags := h_flags header in
  negb (h_sourceId header =? 0) && negb (h_sourceGeneration header =? 0) &&
  (lifecycle || negb (h_sessionEpoch header =? 0)) && negb (h_eventSequence header =? 0) &&
  (lifecycle || negb (h_frameSequence header =? 0)) &&
  Bool.eqb (has flags RecordFlag.SourceLifecycle) lifecycle &&
  (0 <=? h_exchangeTimestampNs header) &&
  Bool.eqb (has flags RecordFlag.ExchangeTimestampMissing) (h_exchangeTimestampNs header =? 0) &&
  (0 <? h_receiveRealtimeNs header) && negb (h_receiveMonotonicNs header =? 0) &&
  negb (h_shardSequence header =? 0) &&
  negb (h_payloadBytes header =? 0) &&
  (h_payloadBytes header <=? kBinaryMarketPayloadBytes) &&
  validBinaryMarketRecordChannel (h_channel header) &&
  (if h_nativeIdentityShape header =? 0 then
     (h_nativeIdentityFirst header =? 0) && (h_nativeIdentitySecond header =? 0)
   else if h_nativeIdentityShape header =? 1 then
     negb (h_nativeIdentityFirst header =? 0) && (h_nativeIdentitySecond header =? 0)
   else (h_nativeIdentityShape header =? 2) ||
     ((h_nativeIdentityShape header =? 4) && (h_channel header =? Channel.Trade) &&
      (h_nativeIdentitySecond header =? 0))) &&
  negb (outside flags RecordFlag.known) &&
  negb (outside (h_sourceFlags header) SourceFlag.known) &&
  (negb (has (h_sourceFlags header) SourceFlag.ExchangeTimestampMissing) ||
   has flags RecordFlag.ExchangeTimestampMissing) &&
  (h_reserved header =? 0).

Definition validBinaryMarketRecord (record : BinaryMarketRecord) : bool :=
  let header := rec_header record in
  let flags := h_flags header in
  if negb (validRecordPayload record) then false
  else if negb (h_channel header =? Channel.Depth) &&
     has flags (Z.lor (Z.lor (Z.lor RecordFlag.DepthCoverage RecordFlag.DepthHasCoverage)
                 RecordFlag.DepthTransactionEnd) RecordFlag.DepthSourcePosition) then false
  else if has flags RecordFlag.DepthSourcePosition &&
     (negb (h_nativeIdentityShape header =? 0) || negb (h_nativeIdentityFirst header =? 0) ||
      negb (h_nativeIdentitySecond header =? 0)) then false
  else if (h_channel header =? Channel.SourceLifecycle) &&
     negb (validRecordLifecycle record) then false
  else validRecordHeader header.

End validity.

(** ** Files of the corpus *)
Record BinaryMarketManifest := MkBinaryMarketManifest {
  mf_magic : Z;
  mf_headerBytes : Z;
  mf_pad6 : list Z;
  mf_producerEpoch : Z;
  mf_startedReceiveNs : Z;
  mf_replayAnchorReceiveNs : Z;
  mf_replayAnchorMonotonicNs : Z;
  mf_finalizedReceiveNs : Z;
  mf_firstReceiveNs : Z;
  mf_lastReceiveNs : Z;
  mf_maximumBytes : Z;
  mf_segmentTargetBytes : Z;
  mf_projectedBytes : Z;
  mf_recordCount : Z;
  mf_gapCount : Z;
  mf_sourceCount : Z;
  mf_segmentCount : Z;
  mf_indexCount : Z;
  mf_shardCount : Z;
  mf_stopReason : Z;
  mf_complete : Z;
  mf_sourcesCrc32c : Z;
  mf_indexCrc32c : Z;
  mf_gapsCrc32c : Z;
  mf_manifestCrc32c : Z;
  mf_reserved : list Z;
  mf_pad176 : list Z;
}.
#[export] Instance BinaryMarketManifest_eta : Eta BinaryMarketManifest := fun r =>
  MkBinaryMarketManifest
    (mf_magic r) (mf_headerBytes r) (mf_pad6 r) (mf_producerEpoch r)
    (mf_startedReceiveNs r) (mf_replayAnchorReceiveNs r)
    (mf_replayAnchorMonotonicNs r) (mf_finalizedReceiveNs r)
    (mf_firstReceiveNs r) (mf_lastReceiveNs r) (mf_maximumBytes r)
    (mf_segmentTargetBytes r) (mf_projectedBytes r) (mf_recordCount r)
    (mf_gapCount r) (mf_sourceCount r) (mf_segmentCount r) (mf_indexCount r)
    (mf_shardCount r) (mf_stopReason r) (mf_complete r) (mf_sourcesCrc32c r)
    (mf_indexCrc32c r) (mf_gapsCrc32c r) (mf_manifestCrc32c r)
    (mf_reserved r) (mf_pad176 r).
Definition l_BinaryMarketManifest : layout BinaryMarketManifest := l_iso
  (fun r => (
    mf_magic r, mf_headerBytes r, mf_pad6 r, mf_producerEpoch r,
    mf_startedReceiveNs r, mf_replayAnchorReceiveNs r,
    mf_replayAnchorMonotonicNs r, mf_finalizedReceiveNs r,
    mf_firstReceiveNs r, mf_lastReceiveNs r, mf_maximumBytes r,
    mf_segmentTargetBytes r, mf_projectedBytes r, mf_recordCount r,
    mf_gapCount r, mf_sourceCount r, mf_segmentCount r, mf_indexCount r,
    mf_shardCount r, mf_stopReason r, mf_complete r, mf_sourcesCrc32c r,
    mf_indexCrc32c r, mf_gapsCrc32c r, mf_manifestCrc32c r, mf_reserved r,
    mf_pad176 r))
  (fun '(
    x0, x1, x2, x3, x4, x5, x6, x7, x8, x9, x10, x11, x12, x13, x14, x15,
    x16, x17, x18, x19, x20, x21, x22, x23, x24, x25, x26) =>
    MkBinaryMarketManifest x0 x1 x2 x3 x4 x5 x6 x7 x8 x9 x10 x11 x12 x13 x14
    x15 x16 x17 x18 x19 x20 x21 x22 x23 x24 x25 x26)
  ltac:(struct_iso) ltac:(struct_iso)
  (l_u32 ** l_u16 ** l_raw 2 ** l_u64 ** l_i64 ** l_i64 ** l_u64 ** l_i64 **
   l_i64 ** l_i64 ** l_u64 ** l_u64 ** l_u64 ** l_u64 ** l_u64 ** l_u32 **
   l_u32 ** l_u32 ** l_u16 ** l_u8 ** l_u8 ** l_u32 ** l_u32 ** l_u32 **
   l_u32 ** l_raw 40 ** l_raw 16)%layout.
Record BinaryMarketTableHeader := MkBinaryMarketTableHeader {
  th_magic : Z;
  th_headerBytes : Z;
  th_pad6 : list Z;
  th_recordBytes : Z;
  th_recordCount : Z;
  th_recordsCrc32c : Z;
  th_headerCrc32c : Z;
  th_reserved : list Z;
}.
#[export] Instance BinaryMarketTableHeader_eta : Eta BinaryMarketTableHeader := fun r =>
  MkBinaryMarketTableHeader
    (th_magic r) (th_headerBytes r) (th_pad6 r) (th_recordBytes r)
    (th_recordCount r) (th_recordsCrc32c r) (th_headerCrc32c r)
    (th_reserved r).
Definition l_BinaryMarketTableHeader : layout BinaryMarketTableHeader := l_iso
  (fun r => (
    th_magic r, th_headerBytes r, th_pad6 r, th_recordBytes r,
    th_recordCount r, th_recordsCrc32c r, th_headerCrc32c r, th_reserved r))
  (fun '(
    x0, x1, x2, x3, x4, x5, x6, x7) =>
    MkBinaryMarketTableHeader x0 x1 x2 x3 x4 x5 x6 x7)
  ltac:(struct_iso) ltac:(struct_iso)
  (l_u32 ** l_u16 ** l_raw 2 ** l_u32 ** l_u32 ** l_u32 ** l_u32 **
   l_raw 40)%layout.
Record BinaryMarketSegmentHeader := MkBinaryMarketSegmentHeader {
  sh_magic : Z;
  sh_headerBytes : Z;
  sh_pad6 : list Z;
  sh_recordBytes : Z;
  sh_segmentNumber : Z;
  sh_producerEpoch : Z;
  sh_recordCount : Z;
  sh_firstReceiveNs : Z;
  sh_lastReceiveNs : Z;
  sh_shardIndex : Z;
  sh_reserved16 : Z;
  sh_recordsCrc32c : Z;
  sh_headerCrc32c : Z;
  sh_pad60 : list Z;
  sh_storedBlockBytes : Z;
  sh_blockCount : Z;
  sh_codecId : Z;
  sh_reserved : list Z;
}.
#[export] Instance BinaryMarketSegmentHeader_eta : Eta BinaryMarketSegmentHeader := fun r =>
  MkBinaryMarketSegmentHeader
    (sh_magic r) (sh_headerBytes r) (sh_pad6 r) (sh_recordBytes r)
    (sh_segmentNumber r) (sh_producerEpoch r) (sh_recordCount r)
    (sh_firstReceiveNs r) (sh_lastReceiveNs r) (sh_shardIndex r)
    (sh_reserved16 r) (sh_recordsCrc32c r) (sh_headerCrc32c r) (sh_pad60 r)
    (sh_storedBlockBytes r) (sh_blockCount r) (sh_codecId r) (sh_reserved r).
Definition l_BinaryMarketSegmentHeader : layout BinaryMarketSegmentHeader := l_iso
  (fun r => (
    sh_magic r, sh_headerBytes r, sh_pad6 r, sh_recordBytes r,
    sh_segmentNumber r, sh_producerEpoch r, sh_recordCount r,
    sh_firstReceiveNs r, sh_lastReceiveNs r, sh_shardIndex r,
    sh_reserved16 r, sh_recordsCrc32c r, sh_headerCrc32c r, sh_pad60 r,
    sh_storedBlockBytes r, sh_blockCount r, sh_codecId r, sh_reserved r))
  (fun '(
    x0, x1, x2, x3, x4, x5, x6, x7, x8, x9, x10, x11, x12, x13, x14, x15,
    x16, x17) =>
    MkBinaryMarketSegmentHeader x0 x1 x2 x3 x4 x5 x6 x7 x8 x9 x10 x11 x12 x13
    x14 x15 x16 x17)
  ltac:(struct_iso) ltac:(struct_iso)
  (l_u32 ** l_u16 ** l_raw 2 ** l_u32 ** l_u32 ** l_u64 ** l_u64 ** l_i64 **
   l_i64 ** l_u16 ** l_u16 ** l_u32 ** l_u32 ** l_raw 4 ** l_u64 ** l_u32 **
   l_u32 ** l_raw 48)%layout.
Record BinaryMarketBlockHeader := MkBinaryMarketBlockHeader {
  bh_magic : Z;
  bh_headerBytes : Z;
  bh_pad6 : list Z;
  bh_blockNumber : Z;
  bh_recordCount : Z;
  bh_rawBytes : Z;
  bh_encodedBytes : Z;
  bh_rawCrc32c : Z;
  bh_encodedCrc32c : Z;
  bh_firstShardSequence : Z;
  bh_lastShardSequence : Z;
  bh_headerCrc32c : Z;
  bh_channel : Z;
  bh_reserved : list Z;
}.
#[export] Instance BinaryMarketBlockHeader_eta : Eta BinaryMarketBlockHeader := fun r =>
  MkBinaryMarketBlockHeader
    (bh_magic r) (bh_headerBytes r) (bh_pad6 r) (bh_blockNumber r)
    (bh_recordCount r) (bh_rawBytes r) (bh_encodedBytes r) (bh_rawCrc32c r)
    (bh_encodedCrc32c r) (bh_firstShardSequence r) (bh_lastShardSequence r)
    (bh_headerCrc32c r) (bh_channel r) (bh_reserved r).
Definition l_BinaryMarketBlockHeader : layout BinaryMarketBlockHeader := l_iso
  (fun r => (
    bh_magic r, bh_headerBytes r, bh_pad6 r, bh_blockNumber r,
    bh_recordCount r, bh_rawBytes r, bh_encodedBytes r, bh_rawCrc32c r,
    bh_encodedCrc32c r, bh_firstShardSequence r, bh_lastShardSequence r,
    bh_headerCrc32c r, bh_channel r, bh_reserved r))
  (fun '(
    x0, x1, x2, x3, x4, x5, x6, x7, x8, x9, x10, x11, x12, x13) =>
    MkBinaryMarketBlockHeader x0 x1 x2 x3 x4 x5 x6 x7 x8 x9 x10 x11 x12 x13)
  ltac:(struct_iso) ltac:(struct_iso)
  (l_u32 ** l_u16 ** l_raw 2 ** l_u32 ** l_u32 ** l_u32 ** l_u32 ** l_u32 **
   l_u32 ** l_u64 ** l_u64 ** l_u32 ** l_u8 ** l_raw 11)%layout.
Record BinaryMarketSegmentFooter := MkBinaryMarketSegmentFooter {
  sf_magic : Z;
  sf_footerBytes : Z;
  sf_pad6 : list Z;
  sf_segmentNumber : Z;
  sf_recordsCrc32c : Z;
  sf_recordCount : Z;
  sf_firstReceiveNs : Z;
  sf_lastReceiveNs : Z;
  sf_footerCrc32c : Z;
  sf_reserved : list Z;
}.
#[export] Instance BinaryMarketSegmentFooter_eta : Eta BinaryMarketSegmentFooter := fun r =>
  MkBinaryMarketSegmentFooter
    (sf_magic r) (sf_footerBytes r) (sf_pad6 r) (sf_segmentNumber r)
    (sf_recordsCrc32c r) (sf_recordCount r) (sf_firstReceiveNs r)
    (sf_lastReceiveNs r) (sf_footerCrc32c r) (sf_reserved r).
Definition l_BinaryMarketSegmentFooter : layout BinaryMarketSegmentFooter := l_iso
  (fun r => (
    sf_magic r, sf_footerBytes r, sf_pad6 r, sf_segmentNumber r,
    sf_recordsCrc32c r, sf_recordCount r, sf_firstReceiveNs r,
    sf_lastReceiveNs r, sf_footerCrc32c r, sf_reserved r))
  (fun '(
    x0, x1, x2, x3, x4, x5, x6, x7, x8, x9) =>
    MkBinaryMarketSegmentFooter x0 x1 x2 x3 x4 x5 x6 x7 x8 x9)
  ltac:(struct_iso) ltac:(struct_iso)
  (l_u32 ** l_u16 ** l_raw 2 ** l_u32 ** l_u32 ** l_u64 ** l_i64 ** l_i64 **
   l_u32 ** l_raw 20)%layout.
Record BinaryMarketIndexEntry := MkBinaryMarketIndexEntry {
  ix_segmentNumber : Z;
  ix_sourceId : Z;
  ix_sourceGeneration : Z;
  ix_recordCount : Z;
  ix_gapCount : Z;
  ix_firstEventSequence : Z;
  ix_lastEventSequence : Z;
  ix_firstReceiveNs : Z;
  ix_lastReceiveNs : Z;
  ix_flags : Z;
  ix_shardIndex : Z;
  ix_channel : Z;
  ix_compatibility : Z;
}.
#[export] Instance BinaryMarketIndexEntry_eta : Eta BinaryMarketIndexEntry := fun r =>
  MkBinaryMarketIndexEntry
    (ix_segmentNumber r) (ix_sourceId r) (ix_sourceGeneration r)
    (ix_recordCount r) (ix_gapCount r) (ix_firstEventSequence r)
    (ix_lastEventSequence r) (ix_firstReceiveNs r) (ix_lastReceiveNs r)
    (ix_flags r) (ix_shardIndex r) (ix_channel r) (ix_compatibility r).
Definition l_BinaryMarketIndexEntry : layout BinaryMarketIndexEntry := l_iso
  (fun r => (
    ix_segmentNumber r, ix_sourceId r, ix_sourceGeneration r,
    ix_recordCount r, ix_gapCount r, ix_firstEventSequence r,
    ix_lastEventSequence r, ix_firstReceiveNs r, ix_lastReceiveNs r,
    ix_flags r, ix_shardIndex r, ix_channel r, ix_compatibility r))
  (fun '(
    x0, x1, x2, x3, x4, x5, x6, x7, x8, x9, x10, x11, x12) =>
    MkBinaryMarketIndexEntry x0 x1 x2 x3 x4 x5 x6 x7 x8 x9 x10 x11 x12)
  ltac:(struct_iso) ltac:(struct_iso)
  (l_u32 ** l_u32 ** l_u64 ** l_u64 ** l_u64 ** l_u64 ** l_u64 ** l_i64 **
   l_i64 ** l_u32 ** l_u16 ** l_u8 ** l_u8)%layout.
Record BinaryMarketGap := MkBinaryMarketGap {
  gp_sourceId : Z;
  gp_reserved32 : Z;
  gp_sourceGeneration : Z;
  gp_gapEpoch : Z;
  gp_droppedRecords : Z;
  gp_firstDroppedEventSequence : Z;
  gp_lastDroppedEventSequence : Z;
  gp_minimumDroppedReceiveNs : Z;
  gp_maximumDroppedReceiveNs : Z;
  gp_observedReceiveNs : Z;
  gp_shardIndex : Z;
  gp_channel : Z;
  gp_reserved8 : Z;
  gp_pad76 : list Z;
}.
#[export] Instance BinaryMarketGap_eta : Eta BinaryMarketGap := fun r =>
  MkBinaryMarketGap
    (gp_sourceId r) (gp_reserved32 r) (gp_sourceGeneration r) (gp_gapEpoch r)
    (gp_droppedRecords r) (gp_firstDroppedEventSequence r)
    (gp_lastDroppedEventSequence r) (gp_minimumDroppedReceiveNs r)
    (gp_maximumDroppedReceiveNs r) (gp_observedReceiveNs r) (gp_shardIndex r)
    (gp_channel r) (gp_reserved8 r) (gp_pad76 r).
Definition l_BinaryMarketGap : layout BinaryMarketGap := l_iso
  (fun r => (
    gp_sourceId r, gp_reserved32 r, gp_sourceGeneration r, gp_gapEpoch r,
    gp_droppedRecords r, gp_firstDroppedEventSequence r,
    gp_lastDroppedEventSequence r, gp_minimumDroppedReceiveNs r,
    gp_maximumDroppedReceiveNs r, gp_observedReceiveNs r, gp_shardIndex r,
    gp_channel r, gp_reserved8 r, gp_pad76 r))
  (fun '(
    x0, x1, x2, x3, x4, x5, x6, x7, x8, x9, x10, x11, x12, x13) =>
    MkBinaryMarketGap x0 x1 x2 x3 x4 x5 x6 x7 x8 x9 x10 x11 x12 x13)
  ltac:(struct_iso) ltac:(struct_iso)
  (l_u32 ** l_u32 ** l_u64 ** l_u64 ** l_u64 ** l_u64 ** l_u64 ** l_i64 **
   l_i64 ** l_i64 ** l_u16 ** l_u8 ** l_u8 ** l_raw 4)%layout.
Example file_layout_sizes :
  (sizeof l_BinaryMarketSource, sizeof l_BinaryMarketSourceLifecyclePayload,
   sizeof l_BinaryMarketManifest, sizeof l_BinaryMarketTableHeader,
   sizeof l_BinaryMarketSegmentHeader, sizeof l_BinaryMarketBlockHeader,
   sizeof l_BinaryMarketSegmentFooter, sizeof l_BinaryMarketIndexEntry,
   sizeof l_BinaryMarketGap)%nat
  = (272, 304, 192, 64, 128, 64, 64, 72, 80)%nat.
Proof. reflexivity. Qed.

Module IndexFlag.
Definition HasGap : Z := 2 ^ 0.
Definition HasRecordedOnly : Z := 2 ^ 1.
End IndexFlag.
