(* ===== verification/Samples.v ===== *)
(** * Samples: concrete records the witnesses evaluate

    One instance of the market-library interface and a few records of the
    corpus: a healthy depth snapshot of forty levels cut into two chunks, a
    trade, a source with its directory entry and its lifecycle records. *)
From stdpp Require Import base list numbers strings.
From S2P Require Import Prelude Layout Format.
Local Open Scope Z_scope.

#[export] Instance sampleMarket : CxetMarket := {|
  validMarketNativeEvidence bs := forallb (fun b => b =? 0) bs;
  marketNativeEvidence_eqb a b := bool_decide (a = b);
  marketNativeEvidence_default := replicate 56 0;
  DepthFailure_ConsumerBookRejected := 8;
  validDepthSnapshotSequence first last previous := (0 <? last) && (first <=? last);
  kMaximumDepthSourceCapacity := 64;
  kMaximumDepthLevelsPerSide := 5000;
  kMaximumDepthTransactionParts := 64;
  DepthEventSourcePosition := 1;
|}.

Definition zeros (n : nat) : list Z := replicate n 0.

(** A record whose payload starts with the object [p] and is zero beyond it. *)
Definition withPayload {P} (l : layout P) (p : P) (h : BinaryMarketRecordHeader)
  : BinaryMarketRecord :=
  MkBinaryMarketRecord (h <| h_payloadBytes := sizeofz l |>)
    (obj l p ++ zeros (888 - sizeof l)) (zeros 32).

Definition sampleHeader (channel flags sequence : Z) : BinaryMarketRecordHeader :=
  MkBinaryMarketRecordHeader 1 flags 1 1 sequence sequence 0 0 1000 (2000 + sequence)
    (3000 + sequence) sequence 0 0 0 channel 0 0 (zeros 2) 0.

(** Chunk [index] of a snapshot of forty levels. *)
Definition sampleChunkPayload (index : Z) : BinaryMarketDepthChunkPayload :=
  MkBinaryMarketDepthChunkPayload (MkBinaryMarketDepthSequence 0 10 0) 40 (32 * index)
    index 2 (Z.min 32 (40 - 32 * index)) DepthFrameKind.Snapshot DepthState.Healthy
    0 0 0 1 0 2000 2500 (zeros 56)
    (replicate 32 (MkBinaryMarketDepthLevel 100 5 1 0 0 0)).

Definition sampleChunk (index : Z) : BinaryMarketRecord :=
  withPayload l_BinaryMarketDepthChunkPayload (sampleChunkPayload index)
    (sampleHeader Channel.Depth
       (Z.lor (Z.lor RecordFlag.TraderReplayCompatible RecordFlag.DepthSnapshot)
          (if index =? 1 then RecordFlag.DepthTransactionEnd else 0)) 7
       <| h_shardSequence := 7 + index |>).

Definition sampleTrade : BinaryMarketRecord :=
  withPayload l_BinaryMarketTradePayload
    (view l_BinaryMarketTradePayload (zeros 888))
    (sampleHeader Channel.Trade RecordFlag.TraderReplayCompatible 9).

Lemma sampleChunk_fits : Forall (fits l_BinaryMarketRecord) [sampleChunk 0; sampleChunk 1].
Proof.
  do 2 (apply Forall_cons_2; [apply fits_checked; vm_compute; reflexivity|]).
  apply Forall_nil_2.
Qed.

Lemma sampleTrade_fits : fits l_BinaryMarketRecord sampleTrade.
Proof. apply fits_checked; vm_compute; reflexivity. Qed.

Example samples_valid :
  map validBinaryMarketRecord [sampleChunk 0; sampleChunk 1; sampleTrade] = [true; true; true].
Proof. vm_compute. reflexivity. Qed.

(** A source that is present with its depth and trade channels. *)
Definition padded (n : nat) (text : string) : list Z :=
  let bs := bytes_of_string text in bs ++ zeros (n - length bs).

Definition sampleSource : BinaryMarketSource :=
  view l_BinaryMarketSource (zeros 272)
    <| src_sourceId := 1 |> <| src_canonicalSymbolId := 5 |>
    <| src_initialSourceGeneration := 1 |> <| src_venueId := 3 |>
    <| src_marketKindRaw := 1 |> <| src_economicBaseAssetId := 11 |>
    <| src_quoteAssetId := 12 |> <| src_marketRaw := 2 |>
    <| src_directoryFlags := Z.lor Directory.Trade Directory.Depth |>
    <| src_configuredChannelMask := 6 |> <| src_availableChannelMask := 6 |>
    <| src_traderReplayChannelMask := 6 |> <| src_initiallyPresent := 1 |>
    <| src_compatibility := [0; 1; 1; 0; 0; 0; 0; 0] |>
    <| src_venue ::= fun v => padded (length v) "binance" |> <| src_venueBytes := 7 |>
    <| src_market ::= fun v => padded (length v) "spot" |> <| src_marketBytes := 4 |>
    <| src_canonicalSymbol ::= fun v => padded (length v) "btcusdt" |>
    <| src_canonicalSymbolBytes := 7 |>
    <| src_nativeSymbol ::= fun v => padded (length v) "BTCUSDT" |>
    <| src_nativeSymbolBytes := 7 |>.

Example sampleSource_valid : validBinaryMarketSource sampleSource 0 = true.
Proof. vm_compute. reflexivity. Qed.

Lemma sampleSource_fits : fits l_BinaryMarketSource sampleSource.
Proof. apply fits_checked; vm_compute; reflexivity. Qed.

(** A lifecycle record: a native health marker or a subscription change of [sampleSource]. *)
Definition sampleLifecycle (kind cause affected before after sequence : Z)
  : BinaryMarketRecord :=
  withPayload l_BinaryMarketSourceLifecyclePayload
    (MkBinaryMarketSourceLifecyclePayload sequence 1 0 before after kind affected 0 cause
       (sampleSource <| src_availableChannelMask := after |>
                     <| src_traderReplayChannelMask := after |>
                     <| src_compatibility := map (fun c : nat =>
                          if Z.testbit after (Z.of_nat c) then 1 else 0) (seq 0 8) |>))
    (sampleHeader Channel.SourceLifecycle
       (Z.lor RecordFlag.TraderReplayCompatible RecordFlag.SourceLifecycle) sequence).

(** The depth lane is closed natively; the trade channel is removed. *)
Definition sampleClosed : BinaryMarketRecord :=
  sampleLifecycle LifecycleKind.DirectoryChanged TransitionCause.NativeClosed Channel.Depth 6 6 4.
Definition sampleRemoved : BinaryMarketRecord :=
  sampleLifecycle LifecycleKind.Removed TransitionCause.Subscription Channel.Trade 6 4 5.

Example lifecycle_samples_valid :
  map validBinaryMarketRecord [sampleClosed; sampleRemoved] = [true; true].
Proof. vm_compute. reflexivity. Qed.

Lemma sampleClosed_fits : fits l_BinaryMarketRecord sampleClosed.
Proof. apply fits_checked; vm_compute; reflexivity. Qed.
Lemma sampleRemoved_fits : fits l_BinaryMarketRecord sampleRemoved.
Proof. apply fits_checked; vm_compute; reflexivity. Qed.
