(* ===== verification/DepthTransaction.v ===== *)
(** * DepthTransaction: the per-shard grammar of depth records

    Models src/src/Contracts/include/hftrec/CorpusContract/BinaryMarketDepthTransaction.hpp.
    One depth transaction is a run of native parts, each cut into chunks of at
    most 32 levels, followed by the coverage tail when the records announce one;
    the writer and the reader advance the same state machine over every record.

    Theorems: the machine keeps its counters within the announced totals; an
    accepted depth record closes the transaction exactly when it carries the
    transaction-end flag; while a transaction is open nothing else is accepted
    on the shard; the chunks of a native part tile its levels without loss or
    overlap; and an accepted stream that ends idle is a sequence of complete
    transactions, each closed by its only end-flagged record. *)
From stdpp Require Import base list numbers.
From S2P Require Import Prelude Layout Format Samples.
Local Open Scope Z_scope.

Record BinaryMarketDepthTransactionState := MkBinaryMarketDepthTransactionState {
  t_lastNative : BinaryMarketRecordHeader;
  t_frameSequence : Z;
  t_firstShardSequence : Z;
  t_receiveMonotonicNs : Z;
  t_receiveRealtimeNs : Z;
  t_totalLevelCount : Z;
  t_totalCoverageCount : Z;
  t_nativeSequence : BinaryMarketDepthSequence;
  t_nativeEvidence : list Z;
  t_sourceReceiveRealtimeNs : Z;
  t_sourceFreshnessMonotonicNs : Z;
  t_frameKind : Z;
  t_nativeState : Z;
  t_failure : Z;
  t_nativeParts : Z;
  t_nextNative : Z;
  t_chunkParts : Z;
  t_nextChunk : Z;
  t_coverageParts : Z;
  t_nextCoverage : Z;
  t_hasCoverage : bool;
  t_awaitingCoverage : bool;
}.
#[export] Instance BinaryMarketDepthTransactionState_eta : Eta BinaryMarketDepthTransactionState := fun r =>
  MkBinaryMarketDepthTransactionState
    (t_lastNative r) (t_frameSequence r) (t_firstShardSequence r)
    (t_receiveMonotonicNs r) (t_receiveRealtimeNs r) (t_totalLevelCount r)
    (t_totalCoverageCount r) (t_nativeSequence r) (t_nativeEvidence r)
    (t_sourceReceiveRealtimeNs r) (t_sourceFreshnessMonotonicNs r)
    (t_frameKind r) (t_nativeState r) (t_failure r) (t_nativeParts r)
    (t_nextNative r) (t_chunkParts r) (t_nextChunk r) (t_coverageParts r)
    (t_nextCoverage r) (t_hasCoverage r) (t_awaitingCoverage r).

Definition zeroHeader : BinaryMarketRecordHeader :=
  MkBinaryMarketRecordHeader 0 0 0 0 0 0 0 0 0 0 0 0 0 0 0 0 0 0 [0; 0] 0.
Definition zeroSequence : BinaryMarketDepthSequence := MkBinaryMarketDepthSequence 0 0 0.

Section transaction.
Context `{CxetMarket}.

(** [BinaryMarketDepthTransactionState{}] *)
Definition idle : BinaryMarketDepthTransactionState :=
  MkBinaryMarketDepthTransactionState zeroHeader 0 0 0 0 0 0 zeroSequence
    marketNativeEvidence_default 0 0 DepthFrameKind.UnknownKind DepthState.Empty
    0 0 0 0 0 0 0 false false.

Definition active (state : BinaryMarketDepthTransactionState) : bool :=
  negb (t_frameSequence state =? 0).

Definition semanticFlags : Z :=
  fold_right Z.lor 0 [RecordFlag.TraderReplayCompatible; RecordFlag.DepthSnapshot;
    RecordFlag.DepthDelta; RecordFlag.DepthPartial; RecordFlag.DepthRebase;
    RecordFlag.DepthState; RecordFlag.DepthHasCoverage; RecordFlag.DepthSourcePosition].

(** The header differs from the last native header in its source identity. *)
Definition identityDiffers (h : BinaryMarketRecordHeader)
  (state : BinaryMarketDepthTransactionState) : bool :=
  let last := t_lastNative state in
  negb (h_sourceId h =? h_sourceId last) ||
  negb (h_sourceGeneration h =? h_sourceGeneration last) ||
  negb (h_sessionEpoch h =? h_sessionEpoch last).

(** First record of a transaction: the root identity is taken over. *)
Definition openTransaction (h : BinaryMarketRecordHeader)
  (p : BinaryMarketDepthChunkPayload) (state : BinaryMarketDepthTransactionState) :=
  state <| t_frameSequence := h_frameSequence h |>
        <| t_firstShardSequence := h_shardSequence h |>
        <| t_receiveMonotonicNs := h_receiveMonotonicNs h |>
        <| t_receiveRealtimeNs := h_receiveRealtimeNs h |>
        <| t_nativeParts := dc_transactionPartCount p |>
        <| t_hasCoverage := has (h_flags h) RecordFlag.DepthHasCoverage |>.

(** The coverage branch. *)
Definition advanceCoverage (h : BinaryMarketRecordHeader)
  (p : BinaryMarketDepthCoveragePayload) (state : BinaryMarketDepthTransactionState)
  : bool * BinaryMarketDepthTransactionState :=
  let last := t_lastNative state in
  if negb (t_awaitingCoverage state) ||
     negb (cp_transactionPartCount p =? t_nativeParts state) ||
     negb (cp_partIndex p =? t_nextCoverage state) || identityDiffers h state ||
     negb (h_eventSequence h =? h_eventSequence last) ||
     negb (h_exchangeTimestampNs h =? h_exchangeTimestampNs last)
  then (false, state)
  else
    let state := if t_nextCoverage state =? 0
      then state <| t_totalCoverageCount := cp_totalCoverageCount p |>
                 <| t_coverageParts := cp_partCount p |>
      else state in
    if negb (cp_totalCoverageCount p =? t_totalCoverageCount state) ||
       negb (cp_partCount p =? t_coverageParts state) then (false, state)
    else
      let state := state <| t_nextCoverage ::= fun n => u16 (n + 1) |> in
      if t_nextCoverage state =? t_coverageParts state then
        if negb (has (h_flags h) RecordFlag.DepthTransactionEnd) then (false, state)
        else (true, idle)
      else (true, state).

(** The chunk arithmetic of one native record. *)
Definition chunkGeometryInvalid (p : BinaryMarketDepthChunkPayload)
  (state : BinaryMarketDepthTransactionState) : bool :=
  (dc_transactionPartCount p =? 0) ||
  (kMaximumDepthTransactionParts <? dc_transactionPartCount p) ||
  negb (dc_transactionPartCount p =? t_nativeParts state) ||
  negb (dc_transactionPartIndex p =? t_nextNative state) ||
  (dc_partCount p =? 0) || negb (dc_partIndex p =? t_nextChunk state) ||
  (dc_partCount p <=? dc_partIndex p) ||
  negb (dc_levelOffset p =? u32 (dc_partIndex p * kBinaryMarketDepthLevelsPerRecord)) ||
  (dc_totalLevelCount p <? dc_levelOffset p) ||
  (kBinaryMarketDepthLevelsPerRecord <? dc_levelCount p) ||
  negb (dc_levelCount p =? Z.min kBinaryMarketDepthLevelsPerRecord
                             (dc_totalLevelCount p - dc_levelOffset p)) ||
  negb (dc_partCount p =?
        u64 (dc_totalLevelCount p + kBinaryMarketDepthLevelsPerRecord - 1) /
          kBinaryMarketDepthLevelsPerRecord +
        (if dc_totalLevelCount p =? 0 then 1 else 0)).

(** Values of a native part captured from its first chunk. *)
Definition captureNative (p : BinaryMarketDepthChunkPayload)
  (state : BinaryMarketDepthTransactionState) :=
  state <| t_totalLevelCount := dc_totalLevelCount p |>
        <| t_chunkParts := dc_partCount p |>
        <| t_nativeSequence := dc_sequence p |>
        <| t_nativeEvidence := dc_nativeEvidence p |>
        <| t_sourceReceiveRealtimeNs := dc_sourceReceiveRealtimeNs p |>
        <| t_sourceFreshnessMonotonicNs := dc_sourceFreshnessMonotonicNs p |>
        <| t_frameKind := dc_frameKind p |>
        <| t_nativeState := dc_state p |>
        <| t_failure := dc_failure p |>.

(** A later chunk must repeat the semantics of the first one. *)
Definition chunkSemanticsDiffer (h : BinaryMarketRecordHeader)
  (p : BinaryMarketDepthChunkPayload) (state : BinaryMarketDepthTransactionState) : bool :=
  let last := t_lastNative state in
  identityDiffers h state ||
  negb (h_eventSequence h =? h_eventSequence last) ||
  negb (h_exchangeTimestampNs h =? h_exchangeTimestampNs last) ||
  negb (h_sourceFlags h =? h_sourceFlags last) ||
  negb (Z.land (h_flags h) semanticFlags =? Z.land (h_flags last) semanticFlags) ||
  negb (ds_firstUpdateId (dc_sequence p) =? ds_firstUpdateId (t_nativeSequence state)) ||
  negb (ds_lastUpdateId (dc_sequence p) =? ds_lastUpdateId (t_nativeSequence state)) ||
  negb (ds_previousUpdateId (dc_sequence p) =?
        ds_previousUpdateId (t_nativeSequence state)) ||
  negb (marketNativeEvidence_eqb (dc_nativeEvidence p) (t_nativeEvidence state)) ||
  negb (dc_sourceReceiveRealtimeNs p =? t_sourceReceiveRealtimeNs state) ||
  negb (dc_sourceFreshnessMonotonicNs p =? t_sourceFreshnessMonotonicNs state) ||
  negb (dc_frameKind p =? t_frameKind state) || negb (dc_state p =? t_nativeState state) ||
  negb (dc_failure p =? t_failure state).

(** The counters after an accepted chunk. *)
Definition stepNative (state : BinaryMarketDepthTransactionState)
  : BinaryMarketDepthTransactionState :=
  let state := state <| t_nextChunk ::= fun n => u16 (n + 1) |> in
  if t_nextChunk state =? t_chunkParts state then
    let state := state <| t_nextChunk := 0 |> <| t_nextNative ::= fun n => u16 (n + 1) |> in
    if t_nextNative state =? t_nativeParts state then
      if t_hasCoverage state then state <| t_awaitingCoverage := true |> else idle
    else state
  else state.

(** The native branch. *)
Definition advanceNative (h : BinaryMarketRecordHeader)
  (p : BinaryMarketDepthChunkPayload) (state : BinaryMarketDepthTransactionState)
  : bool * BinaryMarketDepthTransactionState :=
  if chunkGeometryInvalid p state then (false, state)
  else if negb (t_nextChunk state =? 0) && chunkSemanticsDiffer h p state
  then (false, state)
  else
    let state := if t_nextChunk state =? 0 then captureNative p state else state in
    if negb (dc_totalLevelCount p =? t_totalLevelCount state) ||
       negb (dc_partCount p =? t_chunkParts state) then (false, state)
    else
      let state := state <| t_lastNative := h |> in
      let finalChunk := dc_partIndex p + 1 =? dc_partCount p in
      let finalNative := dc_transactionPartIndex p + 1 =? dc_transactionPartCount p in
      if negb (Bool.eqb (has (h_flags h) RecordFlag.DepthTransactionEnd)
                (negb (has (h_flags h) RecordFlag.DepthHasCoverage) &&
                 finalChunk && finalNative)) then (false, state)
      else (true, stepNative state).

(** The boolean result with the state left in the reference parameter. *)
Definition advanceBinaryMarketDepthTransaction (record : BinaryMarketRecord)
  (state : BinaryMarketDepthTransactionState)
  : bool * BinaryMarketDepthTransactionState :=
  let h := rec_header record in
  if negb (h_channel h =? Channel.Depth) then (negb (active state), state)
  else
    let coverage := has (h_flags h) RecordFlag.DepthCoverage in
    let hasCoverage := has (h_flags h) RecordFlag.DepthHasCoverage in
    if negb (validBinaryMarketRecord record) then (false, state)
    else if negb (active state) &&
      (coverage || negb (dc_transactionPartIndex (depthChunk record) =? 0) ||
       negb (dc_partIndex (depthChunk record) =? 0)) then (false, state)
    else
      let state := if active state then state
                   else openTransaction h (depthChunk record) state in
      if negb (h_frameSequence h =? t_frameSequence state) ||
         negb (h_receiveMonotonicNs h =? t_receiveMonotonicNs state) ||
         negb (h_receiveRealtimeNs h =? t_receiveRealtimeNs state) ||
         negb (Bool.eqb hasCoverage (t_hasCoverage state)) then (false, state)
      else if negb (h_sourceId (t_lastNative state) =? 0) && identityDiffers h state
      then (false, state)
      else if coverage then advanceCoverage h (depthCoveragePayload record) state
      else if t_awaitingCoverage state then (false, state)
      else advanceNative h (depthChunk record) state.

(** A shard's stream of records, as the writer and the reader feed it. *)
Fixpoint runTransactions (state : BinaryMarketDepthTransactionState)
  (records : list BinaryMarketRecord) : option BinaryMarketDepthTransactionState :=
  match records with
  | [] => Some state
  | record :: records =>
      let '(ok, state') := advanceBinaryMarketDepthTransaction record state in
      if ok then runTransactions state' records else None
  end.

(** ** The inversion of an accepted step *)

Definition opened (record : BinaryMarketRecord) (state : BinaryMarketDepthTransactionState)
  : BinaryMarketDepthTransactionState :=
  if active state then state
  else openTransaction (rec_header record) (depthChunk record) state.

(** What every accepted depth record shares with the open transaction. *)
Definition joins (record : BinaryMarketRecord)
  (state : BinaryMarketDepthTransactionState) : Prop :=
  h_frameSequence (rec_header record) = t_frameSequence state /\
  h_receiveMonotonicNs (rec_header record) = t_receiveMonotonicNs state /\
  h_receiveRealtimeNs (rec_header record) = t_receiveRealtimeNs state /\
  has (h_flags (rec_header record)) RecordFlag.DepthHasCoverage = t_hasCoverage state /\
  (h_sourceId (t_lastNative state) <> 0 ->
   identityDiffers (rec_header record) state = false).

Inductive accepted (record : BinaryMarketRecord) (state state' : BinaryMarketDepthTransactionState)
  : Prop :=
| accepted_coverage :
    has (h_flags (rec_header record)) RecordFlag.DepthCoverage = true ->
    active state = true -> joins record state ->
    advanceCoverage (rec_header record) (depthCoveragePayload record) state = (true, state') ->
    accepted record state state'
| accepted_native :
    has (h_flags (rec_header record)) RecordFlag.DepthCoverage = false ->
    joins record (opened record state) ->
    t_awaitingCoverage (opened record state) = false ->
    (active state = false -> dc_transactionPartIndex (depthChunk record) = 0 /\
                             dc_partIndex (depthChunk record) = 0) ->
    advanceNative (rec_header record) (depthChunk record) (opened record state)
      = (true, state') ->
    accepted record state state'.

Lemma advance_accepted record state state' :
  h_channel (rec_header record) = Channel.Depth ->
  advanceBinaryMarketDepthTransaction record state = (true, state') ->
  validBinaryMarketRecord record = true /\ accepted record state state'.
Proof.
  intros Hch. unfold advanceBinaryMarketDepthTransaction. rewrite Hch. simpl negb at 1.
  cbv iota zeta.
  destruct (validBinaryMarketRecord record); [|done]. simpl negb at 1. cbv iota.
  on_if Ea; [done|]. fold (opened record state). on_if Ej; [done|]. on_if Ei; [done|].
  intros Hstep. split; [done|]. bsplit.
  assert (joins record (opened record state)) as Hj.
  { split_and!; try done. intros Hs. apply andb_false_iff in Ei as [Ei|Ei]; [|done].
    by bsplit. }
  destruct (has _ RecordFlag.DepthCoverage) eqn:Ec.
  - destruct (active state) eqn:Eact; [|done].
    apply accepted_coverage; unfold opened in *; rewrite Eact in *; done.
  - destruct (t_awaitingCoverage _) eqn:Ew; [done|].
    apply accepted_native; try assumption. intros Hact. rewrite Hact in Ea.
    cbn [negb andb] in Ea. bsplit. split; assumption.
Qed.

(** ** Invariant *)

(** Counters of an open transaction: native parts first, then the coverage tail. *)
Definition in_progress (s : BinaryMarketDepthTransactionState) : Prop :=
  active s = true /\ h_sourceId (t_lastNative s) <> 0 /\
  0 <= t_nativeParts s < 65536 /\ 0 <= t_chunkParts s < 65536 /\
  if t_awaitingCoverage s then
    t_hasCoverage s = true /\ t_nextChunk s = 0 /\ t_nextNative s = t_nativeParts s /\
    (t_nextCoverage s = 0 \/
     0 < t_nextCoverage s < t_coverageParts s /\ t_coverageParts s < 65536)
  else
    0 <= t_nextNative s < t_nativeParts s /\ t_nextCoverage s = 0 /\
    (t_nextChunk s = 0 \/ 0 < t_nextChunk s < t_chunkParts s).

Definition txn_inv (s : BinaryMarketDepthTransactionState) : Prop :=
  s = idle \/ in_progress s.

Lemma chunk_bounds p :
  fits l_BinaryMarketDepthChunkPayload p ->
  in_u16 (dc_partCount p) /\ in_u16 (dc_partIndex p) /\
  in_u16 (dc_transactionPartCount p) /\ in_u16 (dc_transactionPartIndex p) /\
  in_u32 (dc_totalLevelCount p) /\ in_u32 (dc_levelOffset p) /\ in_u16 (dc_levelCount p).
Proof. intros F. destruct p. cbn in F. unfold fits_unsigned in F. cbn in *. mlia. Qed.

Lemma coverage_bounds p :
  fits l_BinaryMarketDepthCoveragePayload p ->
  in_u16 (cp_partCount p) /\ in_u16 (cp_partIndex p).
Proof. intros F. destruct p. cbn in F. unfold fits_unsigned in F. cbn in *. mlia. Qed.

Lemma payload_fits {P} (l : layout P) record :
  (sizeof l <= 888)%nat -> fits l_BinaryMarketRecord record ->
  fits l (binaryMarketPayload l record).
Proof.
  intros Hl F. destruct record as [hd pl pd]. cbn in F.
  apply view_fits; cbn; [tauto|]. destruct F as [[_ [-> _]] _]. done.
Qed.

Lemma valid_record_header record :
  validBinaryMarketRecord record = true -> validRecordHeader (rec_header record) = true.
Proof. unfold validBinaryMarketRecord. by do 4 (let E := fresh in on_if E; [done|]). Qed.

Lemma valid_header_depth h :
  validRecordHeader h = true -> h_channel h = Channel.Depth ->
  h_sourceId h <> 0 /\ h_frameSequence h <> 0.
Proof. unfold validRecordHeader. intros Hv Hc. rewrite Hc in Hv. simpl in Hv. by bsplit. Qed.

Definition flag_end (record : BinaryMarketRecord) : bool :=
  has (h_flags (rec_header record)) RecordFlag.DepthTransactionEnd.

(** An accepted chunk moves the counters as [stepNative] says, with the totals
    of its native part in the state. *)
Lemma advanceNative_step h p s s' :
  advanceNative h p s = (true, s') ->
  chunkGeometryInvalid p s = false /\
  exists s1, s' = stepNative s1 /\
    has (h_flags h) RecordFlag.DepthTransactionEnd =
      negb (has (h_flags h) RecordFlag.DepthHasCoverage) &&
      (dc_partIndex p + 1 =? dc_partCount p) &&
      (dc_transactionPartIndex p + 1 =? dc_transactionPartCount p) /\
    t_lastNative s1 = h /\ active s1 = active s /\
    t_nextChunk s1 = t_nextChunk s /\ t_nextNative s1 = t_nextNative s /\
    t_nativeParts s1 = t_nativeParts s /\ t_hasCoverage s1 = t_hasCoverage s /\
    t_awaitingCoverage s1 = t_awaitingCoverage s /\
    t_nextCoverage s1 = t_nextCoverage s /\
    t_chunkParts s1 = dc_partCount p /\ t_totalLevelCount s1 = dc_totalLevelCount p.
Proof.
  unfold advanceNative. on_if Eg; [done|]. on_if Es; [done|]. on_if Et; [done|].
  on_if Ee; [done|]. intros E. apply (f_equal snd) in E. cbn [snd] in E.
  bsplit. split; [done|]. eexists. split; [by rewrite <- E|].
  split; [done|].
  destruct (t_nextChunk s =? 0); cbn in *; unfold active; cbn; split_and!; congruence.
Qed.

Lemma advanceNative_inv h p s s' :
  fits l_BinaryMarketDepthChunkPayload p -> h_sourceId h <> 0 ->
  active s = true -> t_awaitingCoverage s = false -> t_nextCoverage s = 0 ->
  has (h_flags h) RecordFlag.DepthHasCoverage = t_hasCoverage s ->
  (t_nextNative s = 0 \/ t_nextNative s < t_nativeParts s) ->
  advanceNative h p s = (true, s') ->
  txn_inv s' /\ has (h_flags h) RecordFlag.DepthTransactionEnd = negb (active s').
Proof.
  intros Hf%chunk_bounds Hid Hact Hw Hcov Hhas Hlt
    [Eg (s1 & -> & -> & Hl & Ha & Hc & Hn & Hp & Hh & Hw1 & Hcv & Hcp & Ht)]%advanceNative_step.
  rewrite Hhas, <- Hh. unfold chunkGeometryInvalid in Eg. bsplit.
  unfold stepNative. cbn.
  rewrite !u16_id by mlia.
  destruct (Z.eqb_spec (t_nextChunk s1 + 1) (t_chunkParts s1)) as [E1|E1].
  all: destruct (Z.eqb_spec (dc_partIndex p + 1) (dc_partCount p)); try (exfalso; lia).
  all: destruct (Z.eqb_spec (t_nextNative s1 + 1) (t_nativeParts s1)) as [E2|E2].
  all: destruct (Z.eqb_spec (dc_transactionPartIndex p + 1) (dc_transactionPartCount p));
    try (exfalso; lia).
  all: destruct (t_hasCoverage s1) eqn:Hhc; cbn.
  all: unfold active in *; cbn.
  all: try (split; [right|rewrite Ha, Hact; done]; unfold in_progress, active; cbn;
    rewrite ?Hw1, ?Hw; split_and!; first [done | congruence | mlia]).
  by split; [left|].
Qed.

Lemma valid_coverage record :
  validBinaryMarketRecord record = true -> h_channel (rec_header record) = Channel.Depth ->
  has (h_flags (rec_header record)) RecordFlag.DepthCoverage = true ->
  flag_end record = (cp_partIndex (depthCoveragePayload record) + 1 =?
                     cp_partCount (depthCoveragePayload record)) /\
  cp_partIndex (depthCoveragePayload record) < cp_partCount (depthCoveragePayload record).
Proof.
  unfold validBinaryMarketRecord. intros Hv Hc Hcov.
  destruct (validRecordPayload record) eqn:Hp; [|done]. clear Hv. revert Hp.
  unfold validRecordPayload. rewrite Hc, Hcov. cbn [Z.eqb Pos.eqb andb].
  change (Channel.Depth =? Channel.BookTicker) with false.
  change (Channel.Depth =? Channel.Trade) with false.
  change (Channel.Depth =? Channel.Depth) with true. cbn [andb]. cbv zeta.
  generalize (depthCoveragePayload record) as p. intros p Hp.
  apply negb_true_iff in Hp. bsplit.
  split; [assumption|].
  unfold validBinaryMarketDepthCoveragePayload in *.
  match goal with Hcp : (if ?c then false else _) = true |- _ =>
    destruct c eqn:E; [done|] end. bsplit. lia.
Qed.

Lemma advanceCoverage_inv record s s' :
  fits l_BinaryMarketRecord record ->
  validBinaryMarketRecord record = true -> h_channel (rec_header record) = Channel.Depth ->
  has (h_flags (rec_header record)) RecordFlag.DepthCoverage = true ->
  in_progress s ->
  advanceCoverage (rec_header record) (depthCoveragePayload record) s = (true, s') ->
  txn_inv s' /\ flag_end record = negb (active s').
Proof.
  intros Hf Hv Hc Hcov Hin.
  pose proof (payload_fits l_BinaryMarketDepthCoveragePayload record ltac:(apply Nat.leb_le; reflexivity) Hf)
    as Hb%coverage_bounds.
  destruct (valid_coverage _ Hv Hc Hcov) as [-> Hlt]. revert Hb Hlt.
  unfold advanceCoverage. generalize (depthCoveragePayload record) as p. intros p Hb Hlt.
  on_if E1; [done|]. bsplit.
  destruct Hin as (Hact & Hid & Hnp & Hcp & Hin). unfold active in *.
  match goal with Hw : t_awaitingCoverage s = true |- _ => rewrite Hw in Hin end.
  destruct Hin as (Hh & Hnc & Hnn & Hcv).
  set (s1 := if t_nextCoverage s =? 0 then _ else s).
  assert (t_frameSequence s1 = t_frameSequence s /\ t_lastNative s1 = t_lastNative s /\
    t_nativeParts s1 = t_nativeParts s /\ t_chunkParts s1 = t_chunkParts s /\
    t_awaitingCoverage s1 = true /\ t_hasCoverage s1 = true /\ t_nextChunk s1 = 0 /\
    t_nextNative s1 = t_nativeParts s /\ t_nextCoverage s1 = t_nextCoverage s) as Hs1
    by (unfold s1; destruct (t_nextCoverage s =? 0); cbn; tauto).
  clearbody s1. destruct Hs1 as (F1 & F2 & F3 & F4 & F5 & F6 & F7 & F8 & F9).
  on_if E2; [done|]. bsplit. cbn.
  rewrite u16_id by mlia.
  destruct (Z.eqb_spec (t_nextCoverage s1 + 1) (t_coverageParts s1)).
  all: destruct (Z.eqb_spec (cp_partIndex p + 1) (cp_partCount p)); try (exfalso; lia).
  - on_if E3; [done|]. intros [= <-]. by split; [left|].
  - intros [= <-]. cbn. apply Z.eqb_neq in Hact.
    split; [right|by rewrite F1, Hact].
    unfold in_progress, active. cbn. rewrite F1, F2, F5, Hact.
    split_and!; first [done | congruence | mlia].
Qed.

(** One accepted record: the invariant is kept and, for a depth record, the
    transaction is closed exactly by the end flag. *)
Lemma advance_inv record s s' :
  fits l_BinaryMarketRecord record -> txn_inv s ->
  advanceBinaryMarketDepthTransaction record s = (true, s') ->
  txn_inv s' /\
  (h_channel (rec_header record) = Channel.Depth -> flag_end record = negb (active s')).
Proof.
  intros Hf Hinv Hstep.
  destruct (Z.eqb_spec (h_channel (rec_header record)) Channel.Depth) as [Hc|Hc].
  2: { unfold advanceBinaryMarketDepthTransaction in Hstep.
       apply Z.eqb_neq in Hc as Hc'. rewrite Hc' in Hstep. simpl in Hstep.
       simplify_eq. done. }
  apply advance_accepted in Hstep as [Hv Hacc]; [|done].
  destruct (valid_header_depth _ (valid_record_header _ Hv) Hc) as [Hid Hfs].
  assert (txn_inv s' /\ flag_end record = negb (active s')); [|tauto].
  destruct Hacc as [Hcov Hact Hj Hadv|Hcov Hj Hw Hfirst Hadv].
  - destruct Hinv as [->|Hin]; [done|]. by eapply advanceCoverage_inv.
  - assert (active (opened record s) = true /\ t_nextCoverage (opened record s) = 0 /\
      (t_nextNative (opened record s) = 0 \/
       t_nextNative (opened record s) < t_nativeParts (opened record s))) as (Ha & Hn & Hl).
    { revert Hw. unfold opened. destruct Hinv as [->|(Ha & ? & ? & ? & Hrest)].
      - cbn. unfold active. cbn. intros _. split_and!; try done; [|by left].
        by apply negb_true_iff, Z.eqb_neq.
      - rewrite Ha. intros Hw. rewrite Hw in Hrest. tauto. }
    eapply advanceNative_inv in Hadv; try eassumption.
    + apply payload_fits; [apply Nat.leb_le; reflexivity|done].
    + apply Hj.
Qed.

(** ** Framing of a shard's stream *)

Definition is_depth (record : BinaryMarketRecord) : bool :=
  h_channel (rec_header record) =? Channel.Depth.

(** The stamp that every record of one transaction carries. *)
Definition stamp (record : BinaryMarketRecord) : Z * Z * Z :=
  (h_frameSequence (rec_header record), h_receiveMonotonicNs (rec_header record),
   h_receiveRealtimeNs (rec_header record)).

(** Records of one transaction that has not ended. *)
Definition unfinished (records : list BinaryMarketRecord) : Prop :=
  Forall (fun r => is_depth r = true /\ flag_end r = false /\
            exists first, head records = Some first /\ stamp r = stamp first) records.

(** A complete group of the stream: one record of another channel, or one
    transaction ended by its only end flag. *)
Inductive group : list BinaryMarketRecord -> Prop :=
| group_single record : is_depth record = false -> group [record]
| group_transaction records last :
    is_depth last = true -> flag_end last = true -> unfinished records ->
    (forall first, head records = Some first -> stamp last = stamp first) ->
    group (records ++ [last]).

(** What the state remembers of the open transaction. *)
Definition pending (s : BinaryMarketDepthTransactionState) (rest : list BinaryMarketRecord)
  : Prop :=
  unfinished rest /\
  match rest with
  | [] => s = idle
  | first :: _ => in_progress s /\
      stamp first = (t_frameSequence s, t_receiveMonotonicNs s, t_receiveRealtimeNs s)
  end.

Lemma advanceNative_stamp h p s s' :
  advanceNative h p s = (true, s') -> s' = idle \/
  (t_frameSequence s' = t_frameSequence s /\
   t_receiveMonotonicNs s' = t_receiveMonotonicNs s /\
   t_receiveRealtimeNs s' = t_receiveRealtimeNs s).
Proof.
  unfold advanceNative, stepNative, captureNative.
  on_if E1; [done|]. on_if E2; [done|]. on_if E3; [done|]. on_if E4; [done|].
  intros [= <-]. destruct (t_nextChunk s =? 0); cbn.
  all: destruct (u16 _ =? _); cbn; [|auto].
  all: destruct (u16 _ =? _); cbn; [|auto].
  all: destruct (t_hasCoverage s); auto.
Qed.

Lemma advanceCoverage_stamp h p s s' :
  advanceCoverage h p s = (true, s') -> s' = idle \/
  (t_frameSequence s' = t_frameSequence s /\
   t_receiveMonotonicNs s' = t_receiveMonotonicNs s /\
   t_receiveRealtimeNs s' = t_receiveRealtimeNs s).
Proof.
  unfold advanceCoverage. on_if E1; [done|]. on_if E2; [done|].
  destruct (t_nextCoverage s =? 0); cbn.
  all: on_if E3; [on_if E4; [done|]|]; intros [= <-]; auto.
Qed.

Lemma advance_stamp record s s' :
  is_depth record = true ->
  advanceBinaryMarketDepthTransaction record s = (true, s') ->
  (active s = true ->
   stamp record = (t_frameSequence s, t_receiveMonotonicNs s, t_receiveRealtimeNs s)) /\
  (s' = idle \/
   stamp record = (t_frameSequence s', t_receiveMonotonicNs s', t_receiveRealtimeNs s')).
Proof.
  intros Hd%Z.eqb_eq Hs. apply advance_accepted in Hs as [_ Hacc]; [|done].
  unfold stamp.
  destruct Hacc as [_ Hact (-> & -> & -> & _) Hadv|_ (-> & -> & -> & _) _ _ Hadv].
  - split; [done|]. apply advanceCoverage_stamp in Hadv as [->|(-> & -> & ->)]; auto.
  - split; [by unfold opened; intros ->|].
    apply advanceNative_stamp in Hadv as [->|(-> & -> & ->)]; auto.
Qed.

Lemma pending_inv s rest : pending s rest -> txn_inv s.
Proof. intros [_ Hs]. destruct rest; [by left|by right; apply Hs]. Qed.

Lemma in_progress_active s : in_progress s -> active s = true.
Proof. by intros (Ha & _). Qed.

Lemma advance_pending record s s' rest :
  fits l_BinaryMarketRecord record -> pending s rest ->
  advanceBinaryMarketDepthTransaction record s = (true, s') ->
  (group (rest ++ [record]) /\ s' = idle) \/ pending s' (rest ++ [record]).
Proof.
  intros Hf Hp Hs. destruct (advance_inv _ _ _ Hf (pending_inv _ _ Hp) Hs) as [Hi He].
  destruct (is_depth record) eqn:Hd.
  - destruct (advance_stamp _ _ _ Hd Hs) as [Ha Hst]. apply Z.eqb_eq in Hd as Hc.
    specialize (He Hc). destruct Hp as [Hu Hrest].
    assert (forall first, head rest = Some first -> stamp record = stamp first) as Hfirst.
    { intros first. destruct rest as [|f rest]; [done|]. intros [= <-].
      destruct Hrest as [Hin%in_progress_active ->]. auto. }
    destruct Hi as [->|Hin].
    + left. split; [|done]. by constructor.
    + right. apply in_progress_active in Hin as Hact. rewrite Hact in He.
      destruct Hst as [->|Hst]; [done|]. split.
      * apply Forall_app. split.
        -- eapply Forall_impl; [|exact Hu]. intros r (? & ? & f & Hh & ?).
           split_and!; try done. exists f. by destruct rest.
        -- constructor; [|done]. split_and!; try done.
           destruct rest as [|f rest]; [by exists record|]. exists f. auto.
      * destruct rest as [|f rest]; cbn; [done|]. split; [done|].
        by rewrite <- (Hfirst f).
  - left. unfold advanceBinaryMarketDepthTransaction in Hs.
    unfold is_depth in Hd. rewrite Hd in Hs. cbn [negb] in Hs. injection Hs as Hact <-.
    destruct Hp as [_ Hrest]. destruct rest as [|f rest]; [|].
    + subst s. split; [|done]. apply group_single. exact Hd.
    + destruct Hrest as [Hin%in_progress_active _]. by rewrite Hin in Hact.
Qed.

Lemma run_framing records : forall s s' rest,
  Forall (fits l_BinaryMarketRecord) records -> pending s rest ->
  runTransactions s records = Some s' ->
  exists groups rest', rest ++ records = concat groups ++ rest' /\
    Forall group groups /\ pending s' rest'.
Proof.
  induction records as [|r records IH]; intros s s' rest Hf Hp Hr.
  { injection Hr as <-. exists [], rest. rewrite app_nil_r. auto. }
  cbn in Hr. apply Forall_cons_1 in Hf as [Hr1 Hf].
  destruct (advanceBinaryMarketDepthTransaction r s) as [[] s1] eqn:E; [|done].
  destruct (advance_pending _ _ _ _ Hr1 Hp E) as [[Hg ->]|Hp'].
  - destruct (IH idle s' [] Hf (conj (Forall_nil_2 _) eq_refl) Hr)
      as (gs & rest' & Heq & Hgs & Hp').
    exists ((rest ++ [r]) :: gs), rest'. cbn in *. rewrite Heq, <- !app_assoc.
    split_and!; [|by constructor|done]. rewrite <- Heq. by cbn.
  - destruct (IH s1 s' _ Hf Hp' Hr) as (gs & rest' & Heq & ?).
    exists gs, rest'. by rewrite <- app_assoc in Heq.
Qed.

(** ** Levels of a native part *)

Definition is_native (record : BinaryMarketRecord) : Prop :=
  is_depth record = true /\
  has (h_flags (rec_header record)) RecordFlag.DepthCoverage = false.

Definition last_chunk (record : BinaryMarketRecord) : bool :=
  dc_partIndex (depthChunk record) + 1 =? dc_partCount (depthChunk record).

Definition levels (records : list BinaryMarketRecord) : Z :=
  foldr (fun r n => dc_levelCount (depthChunk r) + n) 0 records.

Lemma opened_nextChunk record s :
  t_nextChunk (opened record s) = t_nextChunk s.
Proof. unfold opened. by destruct (active s). Qed.

Lemma chunk_step record s s' :
  fits l_BinaryMarketRecord record -> txn_inv s -> is_native record ->
  advanceBinaryMarketDepthTransaction record s = (true, s') ->
  dc_partIndex (depthChunk record) = t_nextChunk s /\
  dc_levelOffset (depthChunk record) = 32 * t_nextChunk s /\
  (last_chunk record = true ->
   dc_levelCount (depthChunk record) =
     dc_totalLevelCount (depthChunk record) - 32 * t_nextChunk s) /\
  (last_chunk record = false ->
   dc_levelCount (depthChunk record) = 32 /\ t_nextChunk s' = t_nextChunk s + 1).
Proof.
  intros Hf Hi [Hd%Z.eqb_eq Hcov] Hs.
  apply advance_accepted in Hs as [Hv Hacc]; [|done].
  destruct Hacc as [Hcov'|_ _ _ _ Hadv]; [congruence|].
  rewrite <- (opened_nextChunk record s). unfold last_chunk.
  pose proof (payload_fits l_BinaryMarketDepthChunkPayload record
    ltac:(apply Nat.leb_le; reflexivity) Hf) as Hb%chunk_bounds.
  revert Hadv Hb. generalize (depthChunk record) (opened record s). intros p o.
  intros [Eg (s1 & -> & _ & Hl & _ & Hc & Hn & Hp & Hh & _ & _ & Hcp & _)]%advanceNative_step.
  intros Hb. unfold chunkGeometryInvalid in Eg.
  unfold kBinaryMarketDepthLevelsPerRecord in Eg. bsplit.
  rewrite u32_id in * by mlia. rewrite u64_id in * by mlia.
  assert (dc_partCount p = (dc_totalLevelCount p + 32 - 1) / 32 +
    (if dc_totalLevelCount p =? 0 then 1 else 0)) as Hpc by assumption.
  assert (32 * (dc_partCount p - 1) <= dc_totalLevelCount p <= 32 * dc_partCount p).
  { rewrite Hpc. destruct (Z.eqb_spec (dc_totalLevelCount p) 0);
      Z.to_euclidean_division_equations; lia. }
  assert (dc_levelCount p = dc_totalLevelCount p - 32 * t_nextChunk o \/
          dc_levelCount p = 32) as Hlc by lia.
  split_and!; [lia|lia| |].
  - intros E%Z.eqb_eq. lia.
  - intros E%Z.eqb_neq. split.
    + lia.
    + unfold stepNative. cbn. rewrite u16_id by mlia.
      destruct (Z.eqb_spec (t_nextChunk s1 + 1) (t_chunkParts s1)); [exfalso; lia|].
      cbn. lia.
Qed.

Lemma chunks_tile records last : forall s s',
  Forall (fun r => fits l_BinaryMarketRecord r /\ is_native r) (records ++ [last]) ->
  txn_inv s -> 0 <= t_nextChunk s -> runTransactions s (records ++ [last]) = Some s' ->
  Forall (fun r => last_chunk r = false) records -> last_chunk last = true ->
  map (fun r => dc_levelOffset (depthChunk r)) (records ++ [last]) =
    map (fun i => 32 * (t_nextChunk s + Z.of_nat i)) (seq 0 (length (records ++ [last]))) /\
  levels (records ++ [last]) =
    dc_totalLevelCount (depthChunk last) - 32 * t_nextChunk s.
Proof.
  induction records as [|r records IH]; intros s s' Hf Hi Hpos Hr Hnl Hl.
  - cbn in Hf, Hr. apply Forall_cons_1 in Hf as [[Hf Hn] _].
    destruct (advanceBinaryMarketDepthTransaction last s) as [[] s1] eqn:E; [|done].
    destruct (chunk_step _ _ _ Hf Hi Hn E) as (_ & Ho & Hlast & _).
    cbn [app map seq length levels foldr]. rewrite Ho, (Hlast Hl).
    split; [do 2 f_equal|]; lia.
  - cbn in Hf, Hr. apply Forall_cons_1 in Hf as [[Hf1 Hn] Hf].
    apply Forall_cons_1 in Hnl as [Hnl1 Hnl].
    destruct (advanceBinaryMarketDepthTransaction r s) as [[] s1] eqn:E; [|done].
    destruct (chunk_step _ _ _ Hf1 Hi Hn E) as (_ & Ho & _ & Hmid).
    destruct (Hmid Hnl1) as [Hc Hnext].
    destruct (advance_inv _ _ _ Hf1 Hi E) as [Hi1 _].
    destruct (IH s1 s' Hf Hi1 ltac:(lia) Hr Hnl Hl) as [Hoffs Hlv].
    change ((r :: records) ++ [last]) with (r :: (records ++ [last])).
    unfold levels in *. cbn [map foldr length]. rewrite Hc, Hlv, Hoffs, Hnext. split; [|lia].
    cbn [seq map]. f_equal; [lia|]. rewrite <- seq_shift, map_map.
    apply map_ext. intros i. lia.
Qed.

(** ** Claims *)

(** C27: Every stream of records that one shard accepts from the idle
    state is a sequence of complete groups followed by at most one unfinished
    transaction: a group is a single record of another channel, or depth records
    that share frame sequence and receive stamps, of which the last and only the
    last carries the transaction-end flag.  The machine is idle again exactly
    when nothing is left unfinished. *)
Theorem depth_stream_framing (records : list BinaryMarketRecord) s :
  Forall (fits l_BinaryMarketRecord) records ->
  runTransactions idle records = Some s ->
  exists groups rest, records = concat groups ++ rest /\ Forall group groups /\
    unfinished rest /\ (s = idle <-> rest = []).
Proof.
  intros Hf Hr.
  destruct (run_framing records idle s [] Hf (conj (Forall_nil_2 _) eq_refl) Hr)
    as (gs & rest & Heq & Hgs & Hu & Hrest).
  exists gs, rest. split_and!; try done. destruct rest; [done|].
  split; [|done]. intros ->. by destruct Hrest as [Hin%in_progress_active _].
Qed.

(** The chunks of one native depth part tile its levels: when a part
    starts at chunk zero and its records are accepted up to the first one whose
    [partIndex + 1] is [partCount], the level offsets are 0, 32, 64, ... and the
    level counts add up to the announced [totalLevelCount]; no level is lost and
    none is delivered twice. *)
Theorem native_part_levels_tile records last s s' :
  Forall (fun r => fits l_BinaryMarketRecord r /\ is_native r) (records ++ [last]) ->
  txn_inv s -> t_nextChunk s = 0 -> runTransactions s (records ++ [last]) = Some s' ->
  Forall (fun r => last_chunk r = false) records -> last_chunk last = true ->
  map (fun r => dc_levelOffset (depthChunk r)) (records ++ [last]) =
    map (fun i => 32 * Z.of_nat i) (seq 0 (length (records ++ [last]))) /\
  levels (records ++ [last]) = dc_totalLevelCount (depthChunk last).
Proof.
  intros Hf Hi H0 Hr Hn Hl.
  destruct (chunks_tile records last s s') as [Ho Hlv]; auto with lia.
  rewrite H0 in *. split; [by rewrite Ho|lia].
Qed.

(** While a transaction is open, a shard accepts nothing but its
    continuation: a record of another channel, of another frame, source,
    generation or session, or with other receive stamps is rejected. *)
Theorem open_transaction_excludes record s :
  in_progress s ->
  is_depth record = false \/
  stamp record <> (t_frameSequence s, t_receiveMonotonicNs s, t_receiveRealtimeNs s) \/
  identityDiffers (rec_header record) s = true ->
  (advanceBinaryMarketDepthTransaction record s).1 = false.
Proof.
  intros Hin Hwhy. apply in_progress_active in Hin as Hact.
  destruct (advanceBinaryMarketDepthTransaction record s) as [[] s'] eqn:E; [|done].
  destruct (is_depth record) eqn:Hd.
  - destruct (advance_stamp _ _ _ Hd E) as [Ha _]. apply Z.eqb_eq in Hd.
    apply advance_accepted in E as [_ Hacc]; [|done].
    destruct Hin as (_ & Hid & _).
    assert (identityDiffers (rec_header record) s = false).
    { destruct Hacc as [_ _ (_ & _ & _ & _ & Hj) _|_ (_ & _ & _ & _ & Hj) _ _ _]; [auto|].
      unfold opened in Hj. rewrite Hact in Hj. auto. }
    destruct Hwhy as [|[Hst|]]; [done| |congruence]. by specialize (Ha Hact).
  - unfold advanceBinaryMarketDepthTransaction in E. unfold is_depth in Hd.
    rewrite Hd, Hact in E. done.
Qed.

End transaction.

(** ** Witnesses *)

Lemma depth_stream_framing_witness :
  exists groups rest, [sampleChunk 0; sampleChunk 1] = concat groups ++ rest /\
    Forall group groups /\ unfinished rest /\ (idle = idle <-> rest = []).
Proof.
  apply (depth_stream_framing [sampleChunk 0; sampleChunk 1] idle).
  - apply sampleChunk_fits.
  - vm_compute. reflexivity.
Defined.

Lemma native_part_levels_tile_witness :
  map (fun r => dc_levelOffset (depthChunk r)) [sampleChunk 0; sampleChunk 1] = [0; 32] /\
  levels [sampleChunk 0; sampleChunk 1] = dc_totalLevelCount (depthChunk (sampleChunk 1)).
Proof.
  apply (native_part_levels_tile [sampleChunk 0] (sampleChunk 1) idle idle).
  - pose proof sampleChunk_fits as Hf.
    apply Forall_cons_1 in Hf as [? [? _]%Forall_cons_1].
    apply Forall_cons_2; [|apply Forall_cons_2; [|apply Forall_nil_2]].
    all: split; [assumption|split; vm_compute; reflexivity].
  - by left.
  - reflexivity.
  - vm_compute. reflexivity.
  - apply Forall_cons_2; [vm_compute; reflexivity|apply Forall_nil_2].
  - vm_compute. reflexivity.
Defined.

(** The state between the two chunks of the sample. *)
Definition sampleOpen : BinaryMarketDepthTransactionState :=
  (advanceBinaryMarketDepthTransaction (sampleChunk 0) idle).2.

Lemma open_transaction_excludes_witness :
  (advanceBinaryMarketDepthTransaction sampleTrade sampleOpen).1 = false.
Proof.
  apply open_transaction_excludes.
  - vm_compute. intuition (discriminate || eauto).
  - left. vm_compute. reflexivity.
Defined.
