(* ===== verification/SourceState.v ===== *)
(** * SourceState: membership and health of one market source

    Models src/src/Runtime/src/Corpus/BinaryMarketSourceState.hpp.  The writer
    advances one state per source in append order and the reader advances the
    same state after its merge, so what this machine admits is what a corpus may
    contain: lifecycle records move the generation, the available channels and
    the directory revision; market data is admitted only on an available channel
    of the current generation; native health markers touch health masks only.

    Theorems: every reachable state satisfies [src_inv], which makes the
    effective source again a valid directory row; identity is never replaced;
    generations never decrease and directory revisions strictly increase; and a
    depth book declared unhealthy stays so until it is natively recovered. *)
From stdpp Require Import base list numbers.
From S2P Require Import Prelude Layout Format Samples.
Local Open Scope Z_scope.

Record BinaryMarketSourceState := MkBinaryMarketSourceState {
  s_metadata : BinaryMarketSource;
  s_generation : Z;
  s_availableMask : Z;
  s_directoryRevision : Z;
  s_unhealthyMask : Z;
  s_administrativeUnhealthyMask : Z;
  s_recoveryPendingMask : Z;
}.
#[export] Instance BinaryMarketSourceState_eta : Eta BinaryMarketSourceState := fun r =>
  MkBinaryMarketSourceState (s_metadata r) (s_generation r) (s_availableMask r)
    (s_directoryRevision r) (s_unhealthyMask r) (s_administrativeUnhealthyMask r)
    (s_recoveryPendingMask r).

Definition initialBinaryMarketSourceState (source : BinaryMarketSource)
  : BinaryMarketSourceState :=
  let present := negb (src_initiallyPresent source =? 0) in
  MkBinaryMarketSourceState source
    (if present then src_initialSourceGeneration source else 0)
    (if present then src_availableChannelMask source else 0) 0 0 0 0.

Definition effectiveBinaryMarketSource (state : BinaryMarketSourceState)
  : BinaryMarketSource :=
  let source := s_metadata state in
  source <| src_initiallyPresent := if s_availableMask state =? 0 then 0 else 1 |>
         <| src_initialSourceGeneration := s_generation state |>
         <| src_availableChannelMask := s_availableMask state |>
         <| src_traderReplayChannelMask ::= fun m => Z.land m (s_availableMask state) |>
         <| src_compatibility ::= imap (fun c value =>
              if has (s_availableMask state) (u16 (Z.shiftl 1 (Z.of_nat c))) then value
              else Compatibility.Unavailable) |>.

Definition sameBinaryMarketSourceIdentity (left right : BinaryMarketSource) : bool :=
  (src_sourceId left =? src_sourceId right) &&
  (src_canonicalSymbolId left =? src_canonicalSymbolId right) &&
  (src_venueId left =? src_venueId right) && (src_marketRaw left =? src_marketRaw right) &&
  (src_venueBytes left =? src_venueBytes right) &&
  (src_marketBytes left =? src_marketBytes right) &&
  (src_canonicalSymbolBytes left =? src_canonicalSymbolBytes right) &&
  (src_nativeSymbolBytes left =? src_nativeSymbolBytes right) &&
  bool_decide (src_venue left = src_venue right) &&
  bool_decide (src_market left = src_market right) &&
  bool_decide (src_canonicalSymbol left = src_canonicalSymbol right) &&
  bool_decide (src_nativeSymbol left = src_nativeSymbol right).

Definition sameBinaryMarketSourceRules (left right : BinaryMarketSource) : bool :=
  (src_tickSizeRaw left =? src_tickSizeRaw right) &&
  (src_stepSizeRaw left =? src_stepSizeRaw right) &&
  (src_contractBaseQtyRaw left =? src_contractBaseQtyRaw right) &&
  (src_priceBasisQtyRaw left =? src_priceBasisQtyRaw right) &&
  (src_canonicalStepSizeRaw left =? src_canonicalStepSizeRaw right) &&
  (src_executionQuantityStepRaw left =? src_executionQuantityStepRaw right) &&
  bool_decide (src_quantityConversion left = src_quantityConversion right) &&
  (src_instrumentMetadataFlags left =? src_instrumentMetadataFlags right) &&
  (src_priceScale left =? src_priceScale right) &&
  (src_quantityScale left =? src_quantityScale right) &&
  (src_economicBaseAssetId left =? src_economicBaseAssetId right) &&
  (src_quoteAssetId left =? src_quoteAssetId right) &&
  (src_assetDomainRaw left =? src_assetDomainRaw right) &&
  (src_marketKindRaw left =? src_marketKindRaw right).

(** ** Bits of the masks *)

Lemma channelBit_spec c i :
  Z.testbit (binaryMarketChannelBit c) i = validBinaryMarketChannel c && (i =? c - 1).
Proof.
  unfold binaryMarketChannelBit, binaryMarketChannelIndex.
  destruct (validBinaryMarketChannel c) eqn:E; [|by rewrite Z.bits_0].
  assert (1 <= c <= 8) as Hc.
  { unfold validBinaryMarketChannel, Channel.BookTicker, Channel.PriceLimit in E. bsplit. lia. }
  rewrite u64_id by mlia. rewrite Z.shiftl_1_l, u16_id.
  - rewrite Z.pow2_bits_eqb by lia. cbn. by rewrite Z.eqb_sym.
  - split; [lia|]. apply (Z.pow_lt_mono_r 2 (c - 1) 16); lia.
Qed.

Lemma has_channelBit m c :
  has m (binaryMarketChannelBit c) = validBinaryMarketChannel c && Z.testbit m (c - 1).
Proof.
  destruct (validBinaryMarketChannel c) eqn:E.
  - assert (binaryMarketChannelBit c = 2 ^ (c - 1)) as ->.
    { unfold validBinaryMarketChannel, Channel.BookTicker, Channel.PriceLimit in E. bsplit.
      apply Z.bits_inj. intros i. rewrite channelBit_spec, Z.pow2_bits_eqb by lia.
      unfold validBinaryMarketChannel, Channel.BookTicker, Channel.PriceLimit.
      rewrite (Z.eqb_sym (c - 1)). by repeat (rewrite (proj2 (Z.leb_le _ _)) by lia). }
    cbn. apply has_bit.
    unfold validBinaryMarketChannel, Channel.BookTicker, Channel.PriceLimit in E. bsplit. lia.
  - unfold binaryMarketChannelBit. rewrite E. unfold has. by rewrite Z.land_0_r.
Qed.

Lemma depth_channelBit i :
  Z.testbit (binaryMarketChannelBit Channel.Depth) i = (i =? 2).
Proof. apply channelBit_spec. Qed.

(** Administrative and pending marks exist for the depth lane only, imply that
    the lane is unhealthy, and exclude each other. *)
Definition mask_inv (u a p : Z) : Prop := forall i,
  (Z.testbit a i = true -> i = 2 /\ Z.testbit u i = true /\ Z.testbit p i = false) /\
  (Z.testbit p i = true -> i = 2 /\ Z.testbit u i = true).

Ltac mask_cases u a p :=
  let Hm := fresh "Hm" in let i := fresh "i" in
  intros Hm i; specialize (Hm i); unfold clear;
  rewrite ?Z.lor_spec, ?Z.ldiff_spec, ?depth_channelBit, ?channelBit_spec;
  destruct (Z.testbit u i), (Z.testbit a i), (Z.testbit p i); cbn;
  try (destruct (Z.eqb_spec i 2)); subst; cbn; intuition (congruence || lia).

Lemma mask_inv_zero : mask_inv 0 0 0.
Proof. intros i. by rewrite Z.bits_0. Qed.

Lemma mask_inv_unhealthy u a p c :
  mask_inv u a p -> mask_inv (Z.lor u (binaryMarketChannelBit c)) a p.
Proof. mask_cases u a p. Qed.

Lemma mask_inv_recover u a p c :
  c <> Channel.Depth -> mask_inv u a p -> mask_inv (clear u (binaryMarketChannelBit c)) a p.
Proof.
  intros Hc Hm i. specialize (Hm i). unfold clear, Channel.Depth in *.
  rewrite Z.ldiff_spec, channelBit_spec. destruct (Z.eqb_spec i (c - 1)).
  - split; intros T; exfalso; apply Hc; intuition lia.
  - by rewrite andb_false_r, andb_true_r.
Qed.

Lemma mask_inv_admin u a p : mask_inv u a p ->
  let bit := binaryMarketChannelBit Channel.Depth in
  mask_inv (Z.lor u bit) (Z.lor a bit) (clear p bit).
Proof. cbv zeta. mask_cases u a p. Qed.

Lemma mask_inv_pending u a p : mask_inv u a p ->
  let bit := binaryMarketChannelBit Channel.Depth in
  mask_inv (Z.lor u bit) (clear a bit) (Z.lor p bit).
Proof. cbv zeta. mask_cases u a p. Qed.

Lemma mask_inv_native u a p :
  has a (binaryMarketChannelBit Channel.Depth) = false -> mask_inv u a p ->
  let bit := binaryMarketChannelBit Channel.Depth in
  mask_inv (clear u bit) a (clear p bit).
Proof.
  rewrite has_channelBit. intros Ha. change (Z.testbit a 2 = false) in Ha. cbv zeta.
  intros Hm i. specialize (Hm i). destruct (Z.eqb_spec i 2) as [->|Hi].
  all: unfold clear; rewrite !Z.ldiff_spec, !depth_channelBit.
  - rewrite Ha, !andb_false_r. done.
  - apply Z.eqb_neq in Hi. rewrite Hi, !andb_true_r. exact Hm.
Qed.

Lemma mask_inv_clear u a p m :
  mask_inv u a p -> mask_inv (clear u m) (clear a m) (clear p m).
Proof.
  intros Hm i. specialize (Hm i). unfold clear. rewrite !Z.ldiff_spec.
  destruct (Z.testbit m i); rewrite ?andb_false_r, ?andb_true_r; [done|exact Hm].
Qed.

Section sourceState.
Context `{CxetMarket}.

(** Lines 54-77: a record that is not a lifecycle record. *)
Definition advanceMarket (record : BinaryMarketRecord) (state : BinaryMarketSourceState)
  (nativeRebaseSnapshot : bool) : bool * BinaryMarketSourceState :=
  let h := rec_header record in
  let bit := binaryMarketChannelBit (h_channel h) in
  if negb (s_generation state =? h_sourceGeneration h) then (false, state)
  else if binaryMarketRecordIsSourceHealth record then
    (true, state <| s_unhealthyMask ::= fun m => Z.lor m bit |>)
  else
    let compatibility := nth (Z.to_nat (binaryMarketChannelIndex (h_channel h)))
                           (src_compatibility (s_metadata state)) 0 in
    let replay := has (h_flags h) RecordFlag.TraderReplayCompatible in
    let valid := has (s_availableMask state) bit &&
      negb (compatibility =? Compatibility.Unavailable) &&
      (negb replay || (compatibility =? Compatibility.ExactTraderReplay)) in
    if valid && replay then
      if negb (h_channel h =? Channel.Depth) then
        (valid, state <| s_unhealthyMask ::= fun m => clear m bit |>)
      else if negb (has (h_flags h) RecordFlag.DepthCoverage) &&
              negb (has (s_administrativeUnhealthyMask state) bit) then
        let nativeState := dc_state (depthChunk record) in
        if (nativeState =? DepthState.Healthy) || (nativeState =? DepthState.Partial) ||
           nativeRebaseSnapshot
        then (valid, state <| s_unhealthyMask ::= fun m => clear m bit |>
                           <| s_recoveryPendingMask ::= fun m => clear m bit |>)
        else (valid, state)
      else (valid, state)
    else (valid, state).

(** Lines 81-105: a native health marker. *)
Definition advanceHealth (h : BinaryMarketRecordHeader)
  (p : BinaryMarketSourceLifecyclePayload) (state : BinaryMarketSourceState)
  : bool * BinaryMarketSourceState :=
  if negb (lc_kind p =? LifecycleKind.DirectoryChanged) ||
     negb (sameBinaryMarketSourceRules (s_metadata state) (lc_source p)) ||
     (h_sourceGeneration h <? s_generation state) ||
     (negb (h_sourceGeneration h =? s_generation state) &&
      negb (lc_cause p =? TransitionCause.NativeRecovered)) ||
     negb (lc_channelMaskBefore p =? lc_channelMaskAfter p) then (false, state)
  else
    let bit := binaryMarketChannelBit (lc_affectedChannel p) in
    let depth := lc_affectedChannel p =? Channel.Depth in
    let state :=
      if binaryMarketTransitionIsUnhealthy (lc_cause p) then
        let state := state <| s_unhealthyMask ::= fun m => Z.lor m bit |> in
        if depth then
          state <| s_administrativeUnhealthyMask ::= fun m => Z.lor m bit |>
                <| s_recoveryPendingMask ::= fun m => clear m bit |>
        else state
      else if lc_cause p =? TransitionCause.NativeRecovered then
        if depth then
          state <| s_administrativeUnhealthyMask ::= fun m => clear m bit |>
                <| s_recoveryPendingMask ::= fun m => Z.lor m bit |>
                <| s_unhealthyMask ::= fun m => Z.lor m bit |>
        else state <| s_unhealthyMask ::= fun m => clear m bit |>
      else state in
    (true, state <| s_generation := h_sourceGeneration h |>).

(** The [switch] of lines 108-124: the masks do not fit the transition kind. *)
Definition kindRejects (h : BinaryMarketRecordHeader)
  (p : BinaryMarketSourceLifecyclePayload) (state : BinaryMarketSourceState) : bool :=
  let before := lc_channelMaskBefore p in
  let after := lc_channelMaskAfter p in
  if lc_kind p =? LifecycleKind.Added then
    (after =? 0) || negb (outside after before) || outside before after
  else if lc_kind p =? LifecycleKind.Removed then
    negb (h_sourceGeneration h =? s_generation state) || (before =? 0) ||
    negb (outside before after) || outside after before
  else if lc_kind p =? LifecycleKind.Readded then
    (after =? 0) || (s_generation state =? 0) || negb (outside after before) ||
    outside before after
  else if lc_kind p =? LifecycleKind.DirectoryChanged then
    negb (before =? after) || (s_generation state =? 0)
  else false.

(** Lines 106-134: a subscription transition. *)
Definition advanceSubscription (h : BinaryMarketRecordHeader)
  (p : BinaryMarketSourceLifecyclePayload) (state : BinaryMarketSourceState)
  : bool * BinaryMarketSourceState :=
  if negb (lc_previousSourceGeneration p =? s_generation state) ||
     negb (lc_channelMaskBefore p =? s_availableMask state) ||
     (h_sourceGeneration h <? s_generation state) ||
     (lc_directoryRevision p <=? s_directoryRevision state) then (false, state)
  else if kindRejects h p state then (false, state)
  else
    let changedMask := Z.lxor (lc_channelMaskBefore p) (lc_channelMaskAfter p) in
    let state :=
      if negb (h_sourceGeneration h =? s_generation state) then
        state <| s_unhealthyMask := 0 |> <| s_administrativeUnhealthyMask := 0 |>
              <| s_recoveryPendingMask := 0 |>
      else
        state <| s_unhealthyMask ::= fun m => clear m changedMask |>
              <| s_administrativeUnhealthyMask ::= fun m => clear m changedMask |>
              <| s_recoveryPendingMask ::= fun m => clear m changedMask |> in
    (true, state <| s_metadata := lc_source p |>
                 <| s_generation := h_sourceGeneration h |>
                 <| s_availableMask := lc_channelMaskAfter p |>
                 <| s_directoryRevision := lc_directoryRevision p |>).

Definition advanceBinaryMarketSourceState (record : BinaryMarketRecord)
  (state : BinaryMarketSourceState) (nativeRebaseSnapshot : bool)
  : bool * BinaryMarketSourceState :=
  let h := rec_header record in
  if negb (h_channel h =? Channel.SourceLifecycle) then
    advanceMarket record state nativeRebaseSnapshot
  else
    let p := lifecyclePayload record in
    let nativeHealth := negb (lc_cause p =? TransitionCause.Subscription) in
    if negb (sameBinaryMarketSourceIdentity (s_metadata state) (lc_source p))
    then (false, state)
    else if nativeHealth then advanceHealth h p state
    else advanceSubscription h p state.

(** One valid record the machine accepts, and states reachable through them. *)
Inductive step (state state' : BinaryMarketSourceState) (record : BinaryMarketRecord) : Prop :=
| step_intro rebase :
    fits l_BinaryMarketRecord record -> validBinaryMarketRecord record = true ->
    advanceBinaryMarketSourceState record state rebase = (true, state') ->
    step state state' record.

Inductive reachable (source : BinaryMarketSource) : BinaryMarketSourceState -> Prop :=
| reachable_initial : reachable source (initialBinaryMarketSourceState source)
| reachable_step state state' record :
    reachable source state -> step state state' record -> reachable source state'.

(** ** The invariant *)

Definition validRow (source : BinaryMarketSource) : bool :=
  validBinaryMarketSource source (src_sourceId source - 1).

Record src_inv (source : BinaryMarketSource) (s : BinaryMarketSourceState) : Prop := {
  inv_row : validRow (s_metadata s) = true;
  inv_identity : sameBinaryMarketSourceIdentity source (s_metadata s) = true;
  inv_available : s_availableMask s = 0 \/
                  s_availableMask s = src_availableChannelMask (s_metadata s);
  inv_generation : s_availableMask s <> 0 -> s_generation s <> 0;
  inv_masks : mask_inv (s_unhealthyMask s) (s_administrativeUnhealthyMask s)
                (s_recoveryPendingMask s);
}.

Lemma same_identity_refl source : sameBinaryMarketSourceIdentity source source = true.
Proof.
  unfold sameBinaryMarketSourceIdentity. rewrite !Z.eqb_refl.
  by repeat rewrite bool_decide_eq_true_2.
Qed.

Lemma same_identity_trans a b c :
  sameBinaryMarketSourceIdentity a b = true -> sameBinaryMarketSourceIdentity b c = true ->
  sameBinaryMarketSourceIdentity a c = true.
Proof.
  unfold sameBinaryMarketSourceIdentity. intros Hab Hbc. bsplit.
  repeat match goal with Hd : bool_decide _ = true |- _ => apply bool_decide_eq_true in Hd end.
  repeat match goal with |- _ && _ = true => apply andb_true_intro; split end;
    first [apply Z.eqb_eq | apply bool_decide_eq_true]; congruence.
Qed.

Lemma initial_inv source :
  validRow source = true -> src_inv source (initialBinaryMarketSourceState source).
Proof.
  intros Hv. split; cbn; [done|apply same_identity_refl| | |apply mask_inv_zero].
  - destruct (src_initiallyPresent source =? 0); auto.
  - unfold validRow, validBinaryMarketSource, sourceFieldsInvalid in Hv.
    on_if Ef in Hv; [done|]. bsplit.
    destruct (src_initiallyPresent source =? 0) eqn:Ep; cbn in *; [done|].
    intros _. by rewrite andb_true_r in *; bsplit.
Qed.

(** What a valid lifecycle record says of the source it carries. *)
Lemma valid_lifecycle record :
  validBinaryMarketRecord record = true ->
  h_channel (rec_header record) = Channel.SourceLifecycle ->
  validRow (lc_source (lifecyclePayload record)) = true /\
  lc_channelMaskAfter (lifecyclePayload record) =
    src_availableChannelMask (lc_source (lifecyclePayload record)) /\
  h_sourceGeneration (rec_header record) <> 0.
Proof.
  unfold validBinaryMarketRecord. intros Hv Hc. rewrite Hc in Hv.
  on_if E1 in Hv; [done|]. on_if E2 in Hv; [done|]. on_if E3 in Hv; [done|].
  on_if E4 in Hv; [done|]. change (negb (validRecordLifecycle record) = false) in E4.
  apply negb_false_iff in E4. unfold validRecordLifecycle in E4.
  unfold validRecordHeader in Hv. revert E4.
  generalize (lifecyclePayload record) as p. intros p E4.
  apply negb_true_iff in E4. bsplit. split_and!; assumption.
Qed.

Lemma advanceHealth_inv source h p s s' :
  h_sourceGeneration h <> 0 -> src_inv source s ->
  advanceHealth h p s = (true, s') -> src_inv source s'.
Proof.
  intros Hg [Hrow Hid Hav Hgen Hm]. unfold advanceHealth. on_if E; [done|].
  intros [= <-].
  destruct (binaryMarketTransitionIsUnhealthy _);
    [|destruct (lc_cause p =? TransitionCause.NativeRecovered)].
  all: destruct (lc_affectedChannel p =? Channel.Depth) eqn:Ed.
  all: split; cbn; auto; bsplit.
  all: rewrite ?Ed; auto using mask_inv_admin, mask_inv_pending, mask_inv_unhealthy,
    mask_inv_recover.
Qed.

Lemma advanceSubscription_inv source h p s s' :
  validRow (lc_source p) = true -> lc_channelMaskAfter p = src_availableChannelMask (lc_source p) ->
  sameBinaryMarketSourceIdentity (s_metadata s) (lc_source p) = true ->
  h_sourceGeneration h <> 0 -> src_inv source s ->
  advanceSubscription h p s = (true, s') -> src_inv source s'.
Proof.
  intros Hv Ha Hsame Hg [Hrow Hid Hav Hgen Hm]. unfold advanceSubscription.
  on_if E; [done|]. on_if Ek; [done|]. intros [= <-].
  destruct (negb (h_sourceGeneration h =? s_generation s)); split; cbn;
    eauto using same_identity_trans, mask_inv_zero, mask_inv_clear.
Qed.

Lemma advanceMarket_inv source record s s' rebase :
  src_inv source s -> advanceMarket record s rebase = (true, s') -> src_inv source s'.
Proof.
  intros [Hrow Hid Hav Hgen Hm]. unfold advanceMarket. on_if E1; [done|].
  on_if E2; [intros [= <-]; split; cbn; auto using mask_inv_unhealthy|].
  on_if E3; [|by intros [= _ <-]].
  on_if E4.
  - intros [= _ <-]. apply negb_true_iff, Z.eqb_neq in E4.
    split; cbn; auto using mask_inv_recover.
  - apply negb_false_iff, Z.eqb_eq in E4. rewrite E4 in *.
    on_if E5; [|by intros [= _ <-]]. on_if E6; [|by intros [= _ <-]].
    intros [= _ <-]. apply andb_true_iff in E5 as [_ E5%negb_true_iff].
    split; cbn; auto using mask_inv_native.
Qed.

Lemma step_inv source record s s' : src_inv source s -> step s s' record -> src_inv source s'.
Proof.
  intros Hi [rebase _ Hv Hstep]. revert Hstep. unfold advanceBinaryMarketSourceState.
  destruct (Z.eqb_spec (h_channel (rec_header record)) Channel.SourceLifecycle) as [Hc|Hc].
  - destruct (valid_lifecycle record Hv Hc) as (Hrow & Hm & Hg).
    cbn [negb]. cbv zeta. on_if Es; [done|]. apply negb_false_iff in Es.
    on_if En; intros Hstep.
    + by eapply advanceHealth_inv.
    + eapply advanceSubscription_inv; eassumption.
  - by apply advanceMarket_inv.
Qed.

Lemma reachable_inv source s : validRow source = true -> reachable source s -> src_inv source s.
Proof. intros Hv. induction 1; eauto using initial_inv, step_inv. Qed.

(** ** The effective source *)

Lemma channel_shift c : (c < 16)%nat -> u16 (Z.shiftl 1 (Z.of_nat c)) = 2 ^ Z.of_nat c.
Proof.
  intros Hc. rewrite Z.shiftl_1_l, u16_id; [done|].
  split; [lia|]. apply (Z.pow_lt_mono_r 2 (Z.of_nat c) 16); lia.
Qed.

Lemma outside_land_self m k : outside (Z.land m k) k = false.
Proof.
  unfold outside. apply negb_false_iff, Z.eqb_eq, Z.bits_inj'. intros i Hi.
  rewrite Z.ldiff_spec, Z.land_spec, Z.bits_0. by destruct (Z.testbit m i), (Z.testbit k i).
Qed.

Lemma outside_zero k : outside 0 k = false.
Proof. done. Qed.

Lemma effective_fields source s :
  src_inv source s -> 
  sourceFieldsInvalid (effectiveBinaryMarketSource s)
    (src_sourceId (effectiveBinaryMarketSource s) - 1) = false.
Proof.
  intros [Hrow _ Hav Hgen _]. unfold validRow, validBinaryMarketSource in Hrow.
  on_if Ef in Hrow; [done|]. clear Hrow. unfold sourceFieldsInvalid in *. cbn.
  rewrite !orb_false_iff in *. destruct_and! Ef. split_and!; try assumption.
  - destruct (Z.eqb_spec (s_availableMask s) 0); [apply andb_false_r|].
    cbn. rewrite andb_true_r. by apply Z.eqb_neq, Hgen.
  - by destruct Hav as [->| ->].
  - apply outside_land_self.
  - by destruct (s_availableMask s =? 0).
Qed.

Lemma nth_imap {A} (f : nat -> A -> A) (l : list A) i d :
  (i < length l)%nat -> nth i (imap f l) d = f i (nth i l d).
Proof.
  intros Hi. rewrite !nth_lookup, list_lookup_imap.
  by destruct (lookup_lt_is_Some_2 l i Hi) as [x ->].
Qed.

Lemma effective_compatibility source s channel :
  src_inv source s -> (channel < 8)%nat ->
  compatibilityMatches (s_metadata s) channel = true ->
  compatibilityMatches (effectiveBinaryMarketSource s) channel = true.
Proof.
  intros [_ _ Hav _ _] Hc. unfold compatibilityMatches. cbn.
  rewrite channel_shift, !has_bit, Z.land_spec by lia.
  destruct (decide (channel < length (src_compatibility (s_metadata s)))%nat) as [Hl|Hl].
  - rewrite nth_imap, channel_shift, has_bit by lia.
    destruct (Z.testbit (s_availableMask s) (Z.of_nat channel)) eqn:Eb; [|done].
    destruct Hav as [Hz|<-]; [by rewrite Hz, Z.bits_0 in Eb|].
    rewrite Eb. by rewrite andb_true_r.
  - rewrite !nth_overflow by (rewrite ?length_imap; lia). cbn.
    destruct Hav as [->| ->]; [by rewrite Z.bits_0|].
    destruct (Z.testbit _ _); [|done]. by rewrite andb_true_r.
Qed.

Lemma effective_valid source s : src_inv source s -> validRow (effectiveBinaryMarketSource s) = true.
Proof.
  intros Hi. unfold validRow, validBinaryMarketSource. rewrite (effective_fields _ _ Hi).
  pose proof (inv_row _ _ Hi) as Hrow. unfold validRow, validBinaryMarketSource in Hrow.
  on_if E1 in Hrow; [done|]. on_if E2 in Hrow; [done|]. on_if E3 in Hrow; [done|].
  change (directoryChannels (effectiveBinaryMarketSource s))
    with (directoryChannels (s_metadata s)).
  change (src_configuredChannelMask (effectiveBinaryMarketSource s))
    with (src_configuredChannelMask (s_metadata s)).
  change (src_quantityConversion (effectiveBinaryMarketSource s))
    with (src_quantityConversion (s_metadata s)).
  rewrite E2, E3.
  rewrite forallb_forall in *. intros c Hc. apply effective_compatibility with source; auto.
  apply in_seq in Hc. unfold kBinaryMarketChannelCount in Hc. lia.
Qed.

(** ** Order, admission and health of accepted records *)

Definition is_lifecycle (record : BinaryMarketRecord) : bool :=
  h_channel (rec_header record) =? Channel.SourceLifecycle.

Definition is_subscription (record : BinaryMarketRecord) : bool :=
  is_lifecycle record && (lc_cause (lifecyclePayload record) =? TransitionCause.Subscription).

(** A lifecycle record that may end an administrative mark of the depth lane. *)
Definition releases_depth (record : BinaryMarketRecord) : bool :=
  is_subscription record ||
  (is_lifecycle record &&
   (lc_cause (lifecyclePayload record) =? TransitionCause.NativeRecovered) &&
   (lc_affectedChannel (lifecyclePayload record) =? Channel.Depth)).

Lemma advanceMarket_frame record s s' rebase ok :
  advanceMarket record s rebase = (ok, s') ->
  (ok = false -> s' = s) /\ s_generation s' = s_generation s /\
  s_availableMask s' = s_availableMask s /\ s_directoryRevision s' = s_directoryRevision s /\
  s_metadata s' = s_metadata s /\
  s_administrativeUnhealthyMask s' = s_administrativeUnhealthyMask s.
Proof.
  unfold advanceMarket. on_if E1; [by intros [= <- <-]|]. on_if E2; [by intros [= <- <-]|].
  on_if E3; [|by intros [= <- <-]]. apply andb_true_iff in E3 as [-> _].
  do 3 (let E := fresh in try (on_if E)); intros [= <- <-]; cbn; done.
Qed.

Lemma advance_market record s rebase : is_lifecycle record = false ->
  advanceBinaryMarketSourceState record s rebase = advanceMarket record s rebase.
Proof. unfold is_lifecycle, advanceBinaryMarketSourceState. by intros ->. Qed.

Lemma advance_lifecycle record s s' rebase : is_lifecycle record = true ->
  advanceBinaryMarketSourceState record s rebase = (true, s') ->
  if is_subscription record
  then advanceSubscription (rec_header record) (lifecyclePayload record) s = (true, s')
  else advanceHealth (rec_header record) (lifecyclePayload record) s = (true, s').
Proof.
  unfold is_subscription. intros Hl. rewrite Hl. unfold is_lifecycle in Hl.
  unfold advanceBinaryMarketSourceState. rewrite Hl. cbn [negb andb]. cbv zeta.
  generalize (lifecyclePayload record) as p. intros p.
  on_if E; [done|]. by destruct (lc_cause p =? _).
Qed.

Lemma advanceHealth_frame h p s s' :
  advanceHealth h p s = (true, s') ->
  s_generation s <= s_generation s' /\ s_availableMask s' = s_availableMask s /\
  s_directoryRevision s' = s_directoryRevision s /\ s_metadata s' = s_metadata s /\
  (Z.testbit (s_administrativeUnhealthyMask s) 2 = true ->
   Z.testbit (s_administrativeUnhealthyMask s') 2 = true \/
   lc_cause p = TransitionCause.NativeRecovered /\ lc_affectedChannel p = Channel.Depth).
Proof.
  unfold advanceHealth. on_if E; [done|]. intros [= <-]. bsplit.
  destruct (binaryMarketTransitionIsUnhealthy _);
    [|destruct (Z.eqb_spec (lc_cause p) TransitionCause.NativeRecovered)].
  all: destruct (Z.eqb_spec (lc_affectedChannel p) Channel.Depth) as [Ed|]; cbn -[Z.testbit].
  all: split_and!; auto; try lia.
  intros Hb. left. rewrite Z.lor_spec, Hb. done.
Qed.

Lemma advanceSubscription_frame h p s s' :
  advanceSubscription h p s = (true, s') ->
  s_generation s <= s_generation s' /\ s_directoryRevision s < s_directoryRevision s' /\
  s_availableMask s = lc_channelMaskBefore p /\ s_availableMask s' = lc_channelMaskAfter p.
Proof.
  unfold advanceSubscription. on_if E; [done|]. on_if Ek; [done|]. intros [= <-]. bsplit.
  destruct (h_sourceGeneration h =? s_generation s); cbn; lia.
Qed.

Lemma step_order record s s' : step s s' record ->
  s_generation s <= s_generation s' /\
  (if is_subscription record then s_directoryRevision s < s_directoryRevision s'
   else s_directoryRevision s' = s_directoryRevision s /\
        s_availableMask s' = s_availableMask s).
Proof.
  intros [rebase _ _ Hs]. destruct (is_lifecycle record) eqn:El.
  - apply advance_lifecycle in Hs; [|done]. destruct (is_subscription record).
    + apply advanceSubscription_frame in Hs. tauto.
    + apply advanceHealth_frame in Hs. tauto.
  - rewrite advance_market in Hs by done. apply advanceMarket_frame in Hs.
    unfold is_subscription. rewrite El. cbn. intuition lia.
Qed.

Lemma step_admin record s s' : step s s' record -> releases_depth record = false ->
  Z.testbit (s_administrativeUnhealthyMask s) 2 = true ->
  Z.testbit (s_administrativeUnhealthyMask s') 2 = true.
Proof.
  intros [rebase _ _ Hs] Hr Hb. unfold releases_depth in Hr. bsplit.
  destruct (is_lifecycle record) eqn:El.
  - apply advance_lifecycle in Hs; [|done].
    match goal with Hsub : is_subscription record = false |- _ => rewrite Hsub in Hs end.
    apply advanceHealth_frame in Hs as (_ & _ & _ & _ & Hk).
    destruct (Hk Hb) as [Hb'|[Hc Ha]]; [exact Hb'|].
    rewrite Hc, Ha in *. discriminate.
  - rewrite advance_market in Hs by done. apply advanceMarket_frame in Hs.
    destruct Hs as (_ & _ & _ & _ & _ & ->). done.
Qed.

Inductive steps : BinaryMarketSourceState -> list BinaryMarketRecord ->
  BinaryMarketSourceState -> Prop :=
| steps_nil s : steps s [] s
| steps_cons s record s1 records s2 :
    step s s1 record -> steps s1 records s2 -> steps s (record :: records) s2.

Lemma steps_inv source s records s' : src_inv source s -> steps s records s' -> src_inv source s'.
Proof. intros Hi Hs. revert Hi. induction Hs; eauto using step_inv. Qed.

(** ** Claims *)

(** Whatever valid records a source accepts, its effective source (the row
    a corpus cut publishes) is again a valid directory row, and it still has the
    identity of the source the stream started from. *)
Theorem effective_source_valid source s :
  validRow source = true -> reachable source s ->
  validRow (effectiveBinaryMarketSource s) = true /\
  sameBinaryMarketSourceIdentity source (s_metadata s) = true.
Proof.
  intros Hv Hr. pose proof (reachable_inv _ _ Hv Hr) as Hi.
  split; [by eapply effective_valid|apply Hi].
Qed.

(** Accepted records never move a source back: its generation does not
    decrease, a subscription transition strictly increases the directory revision,
    and every other record leaves revision and available channels alone. *)
Theorem source_order s s' record :
  step s s' record ->
  s_generation s <= s_generation s' /\
  (if is_subscription record then s_directoryRevision s < s_directoryRevision s'
   else s_directoryRevision s' = s_directoryRevision s /\
        s_availableMask s' = s_availableMask s).
Proof. apply step_order. Qed.

(** C28: Market data is admitted exactly on the current generation and an
    available channel: an accepted record that is neither a lifecycle record nor a
    health notification carries the state's generation, its channel bit is set in
    the available mask, and if it claims trader replay its channel is declared
    exactly replayable. *)
Theorem market_data_admission record s s' rebase :
  is_lifecycle record = false -> binaryMarketRecordIsSourceHealth record = false ->
  advanceBinaryMarketSourceState record s rebase = (true, s') ->
  let h := rec_header record in
  h_sourceGeneration h = s_generation s /\
  Z.testbit (s_availableMask s) (h_channel h - 1) = true /\
  (has (h_flags h) RecordFlag.TraderReplayCompatible = true ->
   nth (Z.to_nat (h_channel h - 1)) (src_compatibility (s_metadata s)) 0 =
     Compatibility.ExactTraderReplay).
Proof.
  intros Hl Hh Hs. rewrite advance_market in Hs by done. revert Hs. unfold advanceMarket.
  on_if E1; [done|]. rewrite Hh. intros Hs. cbv zeta. apply negb_false_iff, Z.eqb_eq in E1.
  match type of Hs with (if ?v && _ then _ else _) = _ => set (valid := v) in * end.
  assert (valid = true) as Hv.
  { destruct valid; [done|]. by injection Hs. }
  unfold valid in Hv. rewrite has_channelBit in Hv. bsplit.
  assert (binaryMarketChannelIndex (h_channel (rec_header record)) =
          h_channel (rec_header record) - 1) as Hix.
  { unfold binaryMarketChannelIndex. apply u64_id.
    unfold validBinaryMarketChannel, Channel.BookTicker, Channel.PriceLimit in *. bsplit. mlia. }
  rewrite Hix in *. split_and!; [done|done|]. intros Hr. rewrite Hr in *.
  match goal with Hx : negb true || _ = true |- _ => exact (proj1 (Z.eqb_eq _ _) Hx) end.
Qed.

(** A record the source machine rejects leaves its state unchanged. *)
Theorem rejection_keeps_state record s rebase :
  (advanceBinaryMarketSourceState record s rebase).1 = false ->
  (advanceBinaryMarketSourceState record s rebase).2 = s.
Proof.
  destruct (advanceBinaryMarketSourceState record s rebase) as [ok s'] eqn:E. cbn. intros ->.
  revert E. unfold advanceBinaryMarketSourceState, advanceHealth, advanceSubscription.
  on_if El; [intros E; by apply advanceMarket_frame in E as [? _]; auto|].
  generalize (lifecyclePayload record) as p. intros p. cbv zeta.
  on_if E1; [by intros [= <-]|]. on_if E2.
  - on_if E3; by intros [= <-].
  - on_if E3; [by intros [= <-]|]. on_if E4; by intros [= <-].
Qed.

(** A depth lane that was administratively declared unhealthy stays
    unhealthy, whatever depth data arrives, until a native recovery of the depth
    lane or a subscription transition is recorded. *)
Theorem unhealthy_until_recovered source s records s' :
  src_inv source s -> Z.testbit (s_administrativeUnhealthyMask s) 2 = true ->
  steps s records s' -> Forall (fun r => releases_depth r = false) records ->
  Z.testbit (s_unhealthyMask s') 2 = true.
Proof.
  intros Hi Hb Hs Hf.
  assert (Z.testbit (s_administrativeUnhealthyMask s') 2 = true) as Hb'.
  { revert Hb Hf. clear Hi. induction Hs; [done|]. intros Hb Hf.
    apply Forall_cons_1 in Hf as [? ?]. eauto using step_admin. }
  pose proof (steps_inv _ _ _ _ Hi Hs) as Hi'. apply (inv_masks _ _ Hi' 2) in Hb'. tauto.
Qed.

End sourceState.

(** ** Witnesses *)

Definition sampleInitial : BinaryMarketSourceState :=
  initialBinaryMarketSourceState sampleSource.
Definition sampleAfterClosed : BinaryMarketSourceState :=
  (advanceBinaryMarketSourceState sampleClosed sampleInitial false).2.
Definition sampleAfterRemoved : BinaryMarketSourceState :=
  (advanceBinaryMarketSourceState sampleRemoved sampleAfterClosed false).2.

Lemma step_closed : step sampleInitial sampleAfterClosed sampleClosed.
Proof.
  apply step_intro with false; [apply sampleClosed_fits|vm_compute; reflexivity|].
  vm_compute. reflexivity.
Qed.
Lemma step_removed : step sampleAfterClosed sampleAfterRemoved sampleRemoved.
Proof.
  apply step_intro with false; [apply sampleRemoved_fits|vm_compute; reflexivity|].
  vm_compute. reflexivity.
Qed.

Lemma effective_source_valid_witness :
  validRow (effectiveBinaryMarketSource sampleAfterRemoved) = true /\
  sameBinaryMarketSourceIdentity sampleSource (s_metadata sampleAfterRemoved) = true.
Proof.
  apply effective_source_valid; [vm_compute; reflexivity|].
  eapply reachable_step; [eapply reachable_step; [apply reachable_initial|apply step_closed]|].
  apply step_removed.
Defined.

Lemma source_order_witness :
  s_generation sampleAfterClosed <= s_generation sampleAfterRemoved /\
  s_directoryRevision sampleAfterClosed < s_directoryRevision sampleAfterRemoved.
Proof. exact (source_order _ _ sampleRemoved step_removed). Defined.

Lemma market_data_admission_witness :
  h_sourceGeneration (rec_header sampleTrade) = s_generation sampleInitial.
Proof.
  refine (proj1 (market_data_admission sampleTrade sampleInitial sampleInitial false _ _ _));
    vm_compute; reflexivity.
Defined.

Lemma rejection_keeps_state_witness :
  (advanceBinaryMarketSourceState sampleTrade sampleAfterRemoved false).2 = sampleAfterRemoved.
Proof. apply rejection_keeps_state. vm_compute. reflexivity. Defined.

Lemma unhealthy_until_recovered_witness :
  Z.testbit (s_unhealthyMask sampleAfterClosed) 2 = true.
Proof.
  apply (unhealthy_until_recovered sampleSource sampleAfterClosed
           [sampleChunk 0] sampleAfterClosed).
  - apply reachable_inv; [vm_compute; reflexivity|].
    eapply reachable_step; [apply reachable_initial|apply step_closed].
  - vm_compute. reflexivity.
  - eapply steps_cons; [|apply steps_nil]. apply step_intro with false.
    + pose proof sampleChunk_fits as Hf. by apply Forall_cons_1 in Hf as [? _].
    + vm_compute. reflexivity.
    + vm_compute. reflexivity.
  - apply Forall_cons_2; [vm_compute; reflexivity|apply Forall_nil_2].
Defined.
