(* ===== verification/Disk.v ===== *)
(** * Disk: the files of one corpus root and the faults of the file system

    The corpus writer talks to [std::ofstream], [std::filesystem] and
    [syncCorpusFile]; the reader opens the files it left.  A [World] is the
    content of every file below the root together with the faults still to come:
    each operation that the platform may refuse takes the next fault, and a write
    that fails may have stored any prefix of its bytes.  Theorems quantify over
    all fault lists, so they hold whatever fails and whenever.

    A path is its structured name; [segmentPath] prints
    "shard-%04u-segment-%06u.<suffix>" from the same three components. *)
From stdpp Require Import base list numbers strings.
From S2P Require Import Prelude.
Local Open Scope Z_scope.

Inductive Suffix := Partial | Sealed.
#[export] Instance Suffix_eq_dec : EqDecision Suffix.
Proof. solve_decision. Defined.

Inductive Path :=
| RootFile (name : string)
| SegmentFile (shard segment : Z) (suffix : Suffix).
#[export] Instance Path_eq_dec : EqDecision Path.
Proof. solve_decision. Defined.

Definition segmentPath (shard segment : Z) (suffix : Suffix) : Path :=
  SegmentFile shard segment suffix.

Definition Files : Type := Path -> option (list Z).

(** [None]: the operation succeeds; [Some n]: it fails, after [n] bytes if it writes. *)
Definition Fault : Type := option nat.

Record World := MkWorld { w_files : Files; w_faults : list Fault }.
#[export] Instance World_eta : Eta World := fun r => MkWorld (w_files r) (w_faults r).

Definition nextFault (w : World) : Fault * World :=
  match w_faults w with
  | [] => (None, w)
  | fault :: rest => (fault, w <| w_faults := rest |>)
  end.

Definition set_file (p : Path) (content : option (list Z)) (w : World) : World :=
  w <| w_files ::= fun files q => if decide (q = p) then content else files q |>.

(** An operation that only succeeds or fails. *)
Definition attempt (w : World) : bool * World :=
  let '(fault, w) := nextFault w in (bool_decide (fault = None), w).

(** [std::ofstream stream(path, binary | trunc)] *)
Definition openTruncated (p : Path) (w : World) : bool * World :=
  let '(ok, w) := attempt w in
  if ok then (true, set_file p (Some []) w) else (false, w).

(** Overwrite at a position, extending the file. *)
Definition overwrite (position : nat) (bytes content : list Z) : list Z :=
  take position content ++ bytes ++ drop (position + length bytes) content.

(** [stream.write] at a stream position. *)
Definition writeAt (p : Path) (position : nat) (bytes : list Z) (w : World) : bool * World :=
  let '(fault, w) := nextFault w in
  let content := default [] (w_files w p) in
  match fault with
  | None => (true, set_file p (Some (overwrite position bytes content)) w)
  | Some n => (false, set_file p (Some (overwrite position (take n bytes) content)) w)
  end.

Definition writeEnd (p : Path) (bytes : list Z) (w : World) : bool * World :=
  writeAt p (length (default [] (w_files w p))) bytes w.

(** [syncCorpusFile(path)]: the file must exist. *)
Definition syncFile (p : Path) (w : World) : bool * World :=
  match w_files w p with None => (false, w) | Some _ => attempt w end.

(** [std::filesystem::rename] *)
Definition rename (from to : Path) (w : World) : bool * World :=
  match w_files w from with
  | None => (false, w)
  | Some content =>
      let '(ok, w) := attempt w in
      if ok then (true, set_file from None (set_file to (Some content) w)) else (false, w)
  end.

(** [std::filesystem::remove], result ignored by the caller. *)
Definition removeFile (p : Path) (w : World) : World :=
  let '(ok, w) := attempt w in if ok then set_file p None w else w.

(** Sequencing: the state flows on; a [false] returns [r] at once. *)
Notation "'run' s ':=' e 'orelse' r 'in' k" :=
  (let '(ok, s) := e in if ok : bool then k else (r, s))
  (at level 10, s pattern, e at level 99, r at level 99, k at level 200).

Fixpoint writePieces (p : Path) (pieces : list (list Z)) (w : World) : bool * World :=
  match pieces with
  | [] => (true, w)
  | piece :: pieces =>
      run w := writeEnd p piece w orelse false in writePieces p pieces w
  end.

(** Write a temporary file in one or two pieces, sync it, rename it over the
    target and sync the directory: the common body of [writeTableAtomic],
    [writeManifestAtomic] and [writeCorpusCut]. *)
Definition replaceFile (temporary target : Path) (pieces : list (list Z)) (w : World)
  : bool * World :=
  run w := openTruncated temporary w orelse false in
  run w := writePieces temporary pieces w orelse false in
  run w := attempt w orelse false in   (* flush *)
  run w := syncFile temporary w orelse false in
  run w := rename temporary target w orelse false in
  attempt w.                           (* directory sync *)

(** ** Laws *)

Lemma nextFault_files w fault w' : nextFault w = (fault, w') -> w_files w' = w_files w.
Proof. unfold nextFault. destruct (w_faults w); by intros [= <- <-]. Qed.

Lemma attempt_files w ok w' : attempt w = (ok, w') -> w_files w' = w_files w.
Proof.
  unfold attempt. destruct (nextFault w) as [f w1] eqn:E. intros [= _ <-].
  by eapply nextFault_files.
Qed.

Lemma set_file_same p c w : w_files (set_file p c w) p = c.
Proof. cbn. by rewrite decide_True. Qed.

Lemma set_file_other p q c w : q <> p -> w_files (set_file p c w) q = w_files w q.
Proof. intros. cbn. by rewrite decide_False. Qed.

Lemma overwrite_end bytes content :
  overwrite (length content) bytes content = content ++ bytes.
Proof.
  unfold overwrite. rewrite firstn_all, drop_ge by lia. by rewrite app_nil_r.
Qed.

Lemma openTruncated_spec p w ok w' :
  openTruncated p w = (ok, w') ->
  (forall q, q <> p -> w_files w' q = w_files w q) /\
  (ok = true -> w_files w' p = Some []).
Proof.
  unfold openTruncated. destruct (attempt w) as [[] w1] eqn:E; intros [= <- <-];
    apply attempt_files in E.
  - split; intros; [rewrite set_file_other by done; congruence|apply set_file_same].
  - by split; intros; [congruence|].
Qed.

Lemma writeAt_spec p position bytes w ok w' :
  writeAt p position bytes w = (ok, w') ->
  (forall q, q <> p -> w_files w' q = w_files w q) /\
  (ok = true ->
   w_files w' p = Some (overwrite position bytes (default [] (w_files w p)))).
Proof.
  unfold writeAt. destruct (nextFault w) as [[n|] w1] eqn:E; apply nextFault_files in E;
    intros [= <- <-]; rewrite ?E.
  - split; [|done]. intros. rewrite set_file_other by done. congruence.
  - split; [|by rewrite set_file_same]. intros. rewrite set_file_other by done. congruence.
Qed.

Lemma syncFile_files p w ok w' : syncFile p w = (ok, w') -> w_files w' = w_files w.
Proof.
  unfold syncFile. destruct (w_files w p); [|by intros [= _ <-]]. apply attempt_files.
Qed.

Lemma rename_spec from to w ok w' :
  from <> to -> rename from to w = (ok, w') ->
  (forall q, q <> from -> q <> to -> w_files w' q = w_files w q) /\
  (ok = true -> w_files w' to = w_files w from /\ w_files w' from = None /\
     is_Some (w_files w from)) /\
  (ok = false -> w_files w' = w_files w).
Proof.
  intros Hne. unfold rename. destruct (w_files w from) as [content|] eqn:Ec;
    [|intros [= <- <-]; done].
  destruct (attempt w) as [[] w1] eqn:E; apply attempt_files in E; intros [= <- <-].
  - split; [|split; [intros _; split_and!|done]].
    + intros. rewrite !set_file_other by done. congruence.
    + rewrite set_file_other by done. apply set_file_same.
    + apply set_file_same.
    + eauto.
  - split; [|split; [done|done]]. congruence.
Qed.

Lemma writeEnd_spec p bytes w ok w' content :
  w_files w p = Some content -> writeEnd p bytes w = (ok, w') ->
  (forall q, q <> p -> w_files w' q = w_files w q) /\
  (ok = true -> w_files w' p = Some (content ++ bytes)).
Proof.
  intros Hc E. apply writeAt_spec in E as [Ho Hs]. split; [done|]. intros Hok.
  rewrite (Hs Hok), Hc. cbn [default from_option id]. unfold id. by rewrite overwrite_end.
Qed.

Lemma writePieces_spec p pieces : forall w ok w' content,
  w_files w p = Some content -> writePieces p pieces w = (ok, w') ->
  (forall q, q <> p -> w_files w' q = w_files w q) /\
  (ok = true -> w_files w' p = Some (content ++ concat pieces)).
Proof.
  induction pieces as [|piece pieces IH]; intros w ok w' content Hc; cbn.
  { intros [= <- <-]. by rewrite app_nil_r. }
  destruct (writeEnd p piece w) as [ok1 w1] eqn:E. apply writeEnd_spec with (content := content)
    in E as [Ho Hs]; [|done].
  destruct ok1; [|intros [= <- <-]; done].
  intros Hr. destruct (IH _ _ _ _ (Hs eq_refl) Hr) as [Ho' Hs'].
  rewrite <- app_assoc in Hs'. split; [|done]. intros. rewrite Ho', Ho; done.
Qed.

(** [replaceFile] is atomic: whatever fails, the target holds its old content or
    exactly the new one, and on success the new one. *)
Lemma replaceFile_atomic temporary target pieces w ok w' :
  temporary <> target -> replaceFile temporary target pieces w = (ok, w') ->
  (forall q, q <> temporary -> q <> target -> w_files w' q = w_files w q) /\
  (w_files w' target = w_files w target \/ w_files w' target = Some (concat pieces)) /\
  (ok = true -> w_files w' target = Some (concat pieces)).
Proof.
  intros Hne. assert (target <> temporary) by auto. unfold replaceFile.
  destruct (openTruncated temporary w) as [ok1 w1] eqn:E1.
  apply openTruncated_spec in E1 as [Ho1 Hs1].
  destruct ok1; [|intros [= <- <-]; by split_and!; auto].
  destruct (writePieces temporary pieces w1) as [ok2 w2] eqn:E2.
  apply writePieces_spec with (content := []) in E2 as [Ho2 Hs2]; [|auto].
  assert (forall q, q <> temporary -> w_files w2 q = w_files w q) as Ho
    by (intros; rewrite Ho2, Ho1; done).
  destruct ok2; [|intros [= <- <-]; by split_and!; auto].
  destruct (attempt w2) as [ok3 w3] eqn:E3. apply attempt_files in E3.
  destruct ok3; [|intros [= <- <-]; rewrite E3; by split_and!; auto].
  destruct (syncFile temporary w3) as [ok4 w4] eqn:E4. apply syncFile_files in E4.
  destruct ok4; [|intros [= <- <-]; rewrite E4, E3; by split_and!; auto].
  destruct (rename temporary target w4) as [ok5 w5] eqn:E5.
  apply rename_spec in E5 as (Ho5 & Hs5 & Hf5); [|done].
  rewrite E4, E3 in *.
  destruct ok5.
  - intros E6. apply attempt_files in E6. rewrite E6.
    destruct (Hs5 eq_refl) as [-> _]. rewrite Hs2 by done.
    split_and!; auto. intros. rewrite Ho5, Ho; auto.
  - intros [= <- <-]. rewrite Hf5 by done. split_and!; [by auto|by left; apply Ho|done].
Qed.
