(* ===== verification/Metadata.v ===== *)
(** * Metadata: sealed manifest and tables of a corpus

    Models src/src/Runtime/src/Corpus/BinaryMarketMetadataValidation.hpp, the
    table and manifest writers of BinaryMarketCorpusWriter.cpp and the readers of
    BinaryMarketCorpusReader.cpp ([readTable], [readManifest], [catalog]).

    Theorems: a table written without error is read back record for record; a
    manifest that satisfies the contract is accepted after sealing; replacing a
    file never leaves a torn target behind, whatever operation fails. *)
From stdpp Require Import base list numbers strings.
From S2P Require Import Prelude Codec Layout Format Disk Samples.
Import Crc32c.
Local Open Scope Z_scope.

(** [headerCrc(value, &Header::field)]: the checksum of the object with its
    checksum member set to zero. *)
Definition headerCrc {A} (l : layout A) (zeroed : A) : Z := crc32c (obj l zeroed).

Definition manifestCrc (m : BinaryMarketManifest) : Z :=
  headerCrc l_BinaryMarketManifest (m <| mf_manifestCrc32c := 0 |>).
Definition tableHeaderCrc (h : BinaryMarketTableHeader) : Z :=
  headerCrc l_BinaryMarketTableHeader (h <| th_headerCrc32c := 0 |>).

(** The conditions of [validSealedManifest] other than the checksum. *)
Definition manifestContract (m : BinaryMarketManifest) : bool :=
  let hasRecords := negb (mf_recordCount m =? 0) in
  let maximumGapCount := u64 (mf_sourceCount m * kBinaryMarketStoredChannelCount) in
  negb (negb (mf_magic m =? kBinaryMarketManifestMagic) ||
    negb (mf_headerBytes m =? sizeofz l_BinaryMarketManifest) ||
    (mf_producerEpoch m =? 0) || (mf_startedReceiveNs m <=? 0) ||
    (mf_replayAnchorReceiveNs m <=? 0) || (mf_replayAnchorMonotonicNs m =? 0) ||
    (mf_finalizedReceiveNs m <? mf_startedReceiveNs m) ||
    (mf_replayAnchorReceiveNs m <? mf_startedReceiveNs m) ||
    (mf_finalizedReceiveNs m <? mf_replayAnchorReceiveNs m) ||
    (mf_maximumBytes m =? 0) ||
    (mf_segmentTargetBytes m <? sizeofz l_BinaryMarketSegmentHeader +
       sizeofz l_BinaryMarketRecord + sizeofz l_BinaryMarketSegmentFooter) ||
    (mf_projectedBytes m =? 0) || (mf_maximumBytes m <? mf_projectedBytes m) ||
    (mf_sourceCount m =? 0) || (kBinaryMarketMaximumSources <? mf_sourceCount m) ||
    (mf_shardCount m =? 0) || (kBinaryMarketMaximumShards <? mf_shardCount m) ||
    negb (mf_complete m =? 1) ||
    (mf_stopReason m <? StopReason.Requested) ||
    (StopReason.ParserDisconnected <? mf_stopReason m) ||
    (maximumGapCount <? mf_gapCount m) ||
    (mf_maximumBytes m / sizeofz l_BinaryMarketIndexEntry <? mf_indexCount m) ||
    (mf_indexCount m <? mf_segmentCount m) ||
    negb (Bool.eqb hasRecords (negb (mf_segmentCount m =? 0))) ||
    negb (Bool.eqb hasRecords (negb (mf_indexCount m =? 0))) ||
    (if hasRecords then mf_firstReceiveNs m <=? 0 else negb (mf_firstReceiveNs m =? 0)) ||
    (if hasRecords then mf_lastReceiveNs m <=? 0 else negb (mf_lastReceiveNs m =? 0)) ||
    (hasRecords && (mf_lastReceiveNs m <? mf_firstReceiveNs m)) ||
    negb (zero_bytes (mf_reserved m))).

Definition validSealedManifest (m : BinaryMarketManifest) : bool :=
  manifestContract m && (mf_manifestCrc32c m =? manifestCrc m).

Definition validTableHeader {A} (l : layout A) (h : BinaryMarketTableHeader)
  (magic expectedCrc maximumBytes expectedRecords : Z) : bool :=
  let recordsBytes := u64 (th_recordCount h * sizeofz l) in
  (th_magic h =? magic) && (th_headerBytes h =? sizeofz l_BinaryMarketTableHeader) &&
  (th_recordBytes h =? sizeofz l) && (th_recordCount h =? expectedRecords) &&
  zero_bytes (th_reserved h) && (th_headerCrc32c h =? tableHeaderCrc h) &&
  (th_recordsCrc32c h =? expectedCrc) &&
  (recordsBytes <=? u64_max) && (recordsBytes <=? maximumBytes).

(** ** Writing *)

(** The bytes of a contiguous vector of records. *)
Definition objects {A} (l : layout A) (records : list A) : list Z := concat (map (obj l) records).

Definition tableHeader {A} (l : layout A) (magic : Z) (records : list A)
  : BinaryMarketTableHeader :=
  let h := MkBinaryMarketTableHeader magic (sizeofz l_BinaryMarketTableHeader) [0; 0]
    (sizeofz l) (u32 (Z.of_nat (length records))) (crc32c (objects l records)) 0
    (replicate 40 0) in
  h <| th_headerCrc32c := tableHeaderCrc h |>.

Definition temporaryOf (target : string) : string := target +:+ ".tmp".

(** The records' checksum on success. *)
Definition writeTableAtomic {A} (l : layout A) (target : string) (magic : Z)
  (records : list A) (w : World) : option Z * World :=
  if u32_max <? Z.of_nat (length records) then (None, w)
  else
    let header := tableHeader l magic records in
    let bytes := objects l records in
    let '(ok, w) := replaceFile (RootFile (temporaryOf target)) (RootFile target)
      (obj l_BinaryMarketTableHeader header ::
       (if (length bytes =? 0)%nat then [] else [bytes])) w in
    (if ok then Some (th_recordsCrc32c header) else None, w).

(** The object that [writeManifestAtomic] stores. *)
Definition sealManifest (m : BinaryMarketManifest) : BinaryMarketManifest :=
  let m := m <| mf_headerBytes := sizeofz l_BinaryMarketManifest |>
             <| mf_manifestCrc32c := 0 |> in
  m <| mf_manifestCrc32c := headerCrc l_BinaryMarketManifest m |>.

Definition writeManifestAtomic (target : string) (m : BinaryMarketManifest) (w : World)
  : bool * World :=
  replaceFile (RootFile (temporaryOf target)) (RootFile target)
    [obj l_BinaryMarketManifest (sealManifest m)] w.

(** ** Reading *)

(** [readBytes(stream, data, n)] at a position of a file. *)
Definition readBytes (content : list Z) (position n : nat) : option (list Z) :=
  if (position + n <=? length content)%nat then Some (take n (drop position content)) else None.

Definition readTable {A} (l : layout A) (file : option (list Z)) (magic expectedCrc
  maximumBytes expectedRecords : Z) : option (list A) :=
  content ← file;
  header ← view l_BinaryMarketTableHeader <$>
             readBytes content 0 (sizeof l_BinaryMarketTableHeader);
  let recordsBytes := u64 (th_recordCount header * sizeofz l) in
  if negb (validTableHeader l header magic expectedCrc maximumBytes expectedRecords) ||
     negb (Z.of_nat (length content) =?
           sizeofz l_BinaryMarketTableHeader + recordsBytes) then None
  else
    bytes ← (if recordsBytes =? 0 then Some []
             else readBytes content (sizeof l_BinaryMarketTableHeader) (Z.to_nat recordsBytes));
    if negb (crc32c bytes =? th_recordsCrc32c header) then None
    else Some (view_array l (Z.to_nat (th_recordCount header)) bytes).

Definition readManifest (file : option (list Z)) : option BinaryMarketManifest :=
  content ← file;
  if negb (Z.of_nat (length content) =? sizeofz l_BinaryMarketManifest) then None
  else
    manifest ← view l_BinaryMarketManifest <$>
                 readBytes content 0 (sizeof l_BinaryMarketManifest);
    if negb (validSealedManifest manifest) then None else Some manifest.

Definition validSources (sources : list BinaryMarketSource) : bool :=
  forallb (fun '(index, source) => validBinaryMarketSource source (Z.of_nat index))
    (zip (seq 0 (length sources)) sources).

(** [BinaryMarketCorpusReader::catalog] of a non-empty root. *)
Definition catalog (files : Files) : Status * option (BinaryMarketManifest * list BinaryMarketSource) :=
  match readManifest (files (RootFile "manifest.bin")) with
  | None => (CorruptData, None)
  | Some m =>
      match readTable l_BinaryMarketSource (files (RootFile "sources.bin"))
              kBinaryMarketSourcesMagic (mf_sourcesCrc32c m) (mf_maximumBytes m)
              (mf_sourceCount m) with
      | None => (CorruptData, None)
      | Some sources =>
          if negb (Z.of_nat (length sources) =? mf_sourceCount m) ||
             negb (validSources sources) then (CorruptData, None)
          else (Ok, Some (m, sources))
      end
  end.

(** ** Tables round-trip *)

Lemma length_string_app a b : String.length (a +:+ b) = (String.length a + String.length b)%nat.
Proof. induction a as [|c a IH]; [done|]. exact (f_equal S IH). Qed.

Lemma temporary_differs target : RootFile (temporaryOf target) <> RootFile target.
Proof.
  intros [= E]. apply (f_equal String.length) in E. unfold temporaryOf in E.
  rewrite length_string_app in E. cbn in E. lia.
Qed.

Lemma readBytes_app a b rest :
  readBytes (a ++ b ++ rest) (length a) (length b) = Some b.
Proof.
  unfold readBytes. rewrite !length_app.
  replace (length a + length b <=? _)%nat with true by (symmetry; apply Nat.leb_le; lia).
  rewrite drop_app_length. by rewrite take_app_length.
Qed.

Lemma zero_bytes_replicate n : zero_bytes (replicate n 0) = true.
Proof. induction n; cbn; auto. Qed.

Lemma sealed_tableHeader h :
  th_headerCrc32c (h <| th_headerCrc32c := tableHeaderCrc h |>) =
  tableHeaderCrc (h <| th_headerCrc32c := tableHeaderCrc h |>).
Proof.
  change (tableHeaderCrc h = tableHeaderCrc (h <| th_headerCrc32c := tableHeaderCrc h |>)).
  generalize (tableHeaderCrc h) at 2. intros crc. unfold tableHeaderCrc. f_equal.
Qed.

(** A table that is read has a valid header. *)
Lemma readTable_valid {A} (l : layout A) h rest magic crc maximumBytes expected rows :
  fits l_BinaryMarketTableHeader h ->
  readTable l (Some (obj l_BinaryMarketTableHeader h ++ rest)) magic crc maximumBytes expected =
    Some rows ->
  validTableHeader l h magic crc maximumBytes expected = true.
Proof.
  intros Hf. unfold readTable. cbn [mbind option_bind].
  pose proof (readBytes_app [] (obj l_BinaryMarketTableHeader h) rest) as Hr.
  cbn [app length] in Hr. rewrite (obj_length _ _ Hf) in Hr. rewrite Hr.
  cbn [fmap option_fmap option_map option_bind mbind]. rewrite view_obj_self by done.
  destruct (validTableHeader _ _ _ _ _ _); [done|]. cbn [negb orb]. done.
Qed.

Section table.
Context {A : Type} (l : layout A) (magic : Z) (records : list A).
Context (Hfits : Forall (fits l) records) (Hmagic : in_u32 magic)
  (Hsize : in_u32 (sizeofz l)) (Hcount : in_u32 (Z.of_nat (length records))).

Lemma objects_length : length (objects l records) = (length records * sizeof l)%nat.
Proof. by apply obj_array_length. Qed.

Lemma view_objects : view_array l (length records) (objects l records) = records.
Proof. rewrite <- (app_nil_r (objects l records)). by apply view_obj_array. Qed.

Lemma tableHeader_fits crc : in_u32 crc ->
  fits l_BinaryMarketTableHeader ((tableHeader l magic records) <| th_headerCrc32c := crc |>).
Proof.
  intros Hcrc. pose proof (crc32c_range _ (obj_array_bytes l records Hfits)) as Hr.
  unfold tableHeader, objects. rewrite u32_id by done.
  cbn. unfold fits_unsigned. cbn -[length]. 
  split_and!; try mlia; try done.
  - repeat constructor; mlia.
  - apply (bytes_okb (replicate 40 0)). reflexivity.
Qed.

Lemma tableHeader_ok :
  fits l_BinaryMarketTableHeader (tableHeader l magic records) /\
  th_headerCrc32c (tableHeader l magic records) =
    tableHeaderCrc (tableHeader l magic records).
Proof.
  split; [|apply sealed_tableHeader].
  exact (tableHeader_fits _ (crc32c_range _ (obj_bytes _ _ (tableHeader_fits 0 ltac:(mlia))))).
Qed.

Lemma tableHeader_fields :
  let h := tableHeader l magic records in
  th_magic h = magic /\ th_headerBytes h = sizeofz l_BinaryMarketTableHeader /\
  th_recordBytes h = sizeofz l /\ th_recordCount h = Z.of_nat (length records) /\
  th_reserved h = replicate 40 0 /\ th_recordsCrc32c h = crc32c (objects l records).
Proof.
  cbv zeta. unfold tableHeader. rewrite u32_id by done.
  generalize (crc32c (objects l records)). intros crc.
  generalize (tableHeaderCrc (MkBinaryMarketTableHeader magic (sizeofz l_BinaryMarketTableHeader)
    [0; 0] (sizeofz l) (Z.of_nat (length records)) crc 0 (replicate 40 0))).
  intros hcrc. cbn -[replicate]. done.
Qed.

Lemma readTable_written maximumBytes :
  in_u64 maximumBytes -> Z.of_nat (length records) * sizeofz l <= maximumBytes ->
  readTable l (Some (obj l_BinaryMarketTableHeader (tableHeader l magic records) ++
                     objects l records)) magic (crc32c (objects l records))
    maximumBytes (Z.of_nat (length records)) = Some records.
Proof.
  intros Hmax Hle. destruct tableHeader_ok as [Hf Hcrc].
  destruct tableHeader_fields as (F1 & F2 & F3 & F4 & F5 & F6). revert Hf Hcrc F1 F2 F3 F4 F5 F6.
  generalize (tableHeader l magic records) as h. intros h Hf Hcrc F1 F2 F3 F4 F5 F6.
  pose proof (obj_length _ _ Hf) as Hlen.
  assert (u64 (th_recordCount h * sizeofz l) = Z.of_nat (length (objects l records))) as Hbytes.
  { rewrite F4, objects_length. unfold sizeofz in *. rewrite u64_id; mlia. }
  unfold readTable. cbn [mbind option_bind].
  pose proof (readBytes_app [] (obj l_BinaryMarketTableHeader h) (objects l records)) as Hr.
  cbn [app length] in Hr. rewrite Hlen in Hr. rewrite Hr.
  cbn [fmap option_fmap option_map option_bind mbind].
  rewrite <- (app_nil_r (obj l_BinaryMarketTableHeader h)), view_obj, app_nil_r by done.
  rewrite Hbytes.
  assert (validTableHeader l h magic (crc32c (objects l records))
    maximumBytes (Z.of_nat (length records)) = true) as ->.
  { unfold validTableHeader. rewrite Hbytes, F1, F2, F3, F4, F5, F6, <- Hcrc.
    rewrite !Z.eqb_refl, zero_bytes_replicate. cbn [andb].
    rewrite objects_length. unfold sizeofz in *.
    apply andb_true_intro; split; apply Z.leb_le; mlia. }
  rewrite length_app, Hlen, Nat2Z.inj_add. unfold sizeofz. rewrite Z.eqb_refl. cbn [negb orb].
  rewrite F4, Nat2Z.id, F6.
  destruct (Z.eqb_spec (Z.of_nat (length (objects l records))) 0) as [E|E].
  - assert (objects l records = []) as H0 by (apply nil_length_inv; lia).
    cbn [option_bind mbind]. rewrite H0, Z.eqb_refl. cbn [negb].
    f_equal. rewrite <- H0. apply view_objects.
  - rewrite Nat2Z.id, <- Hlen.
    rewrite <- (app_nil_r (objects l records)) at 1. rewrite readBytes_app.
    cbn [option_bind mbind]. rewrite Z.eqb_refl. cbn [negb]. by rewrite view_objects.
Qed.

(** A written table that reads back reads back as itself. *)
Lemma readTable_read crc maximumBytes expected rows :
  in_u64 maximumBytes ->
  readTable l (Some (obj l_BinaryMarketTableHeader (tableHeader l magic records) ++
                     objects l records)) magic crc maximumBytes expected = Some rows ->
  rows = records.
Proof.
  intros Hmax Hread. destruct tableHeader_ok as [Hf _].
  destruct tableHeader_fields as (_ & _ & _ & F4 & _ & F6).
  pose proof (readTable_valid l _ _ _ _ _ _ _ Hf Hread) as Hvalid.
  assert (crc = crc32c (objects l records) /\ expected = Z.of_nat (length records) /\
    Z.of_nat (length records) * sizeofz l <= maximumBytes) as (E1 & E2 & Hle).
  { clear Hread. revert Hvalid F4 F6. clear Hf.
    generalize (tableHeader l magic records) (crc32c (objects l records)). intros h c Hvalid F4 F6.
    unfold validTableHeader in Hvalid. rewrite u64_id in Hvalid
      by (unfold in_u32, in_u64, u32_max, u64_max in *; rewrite F4; nia).
    bsplit. rewrite F4, F6 in *. split_and!; congruence || lia. }
  rewrite E1, E2, readTable_written in Hread by done. congruence.
Qed.

Lemma writeTable_content target w crc w' :
  writeTableAtomic l target magic records w = (Some crc, w') ->
  crc = crc32c (objects l records) /\
  w_files w' (RootFile target) =
    Some (obj l_BinaryMarketTableHeader (tableHeader l magic records) ++ objects l records).
Proof.
  unfold writeTableAtomic. destruct (u32_max <? _); [done|].
  destruct (replaceFile _ _ _ w) as [ok w1] eqn:E. destruct ok; [|done].
  intros [= <- <-]. split; [done|].
  apply replaceFile_atomic in E as (_ & _ & Hs); [|apply temporary_differs].
  rewrite (Hs eq_refl). f_equal. cbn [concat]. f_equal.
  destruct (Nat.eqb_spec (length (objects l records)) 0) as [H0|H0]; cbn.
  - symmetry. by apply nil_length_inv.
  - by rewrite app_nil_r.
Qed.
End table.

(** ** Manifests *)

Lemma manifestCrc_set m crc : manifestCrc (m <| mf_manifestCrc32c := crc |>) = manifestCrc m.
Proof. unfold manifestCrc. f_equal. Qed.

Lemma sealed_manifest m :
  mf_manifestCrc32c (sealManifest m) = manifestCrc (sealManifest m).
Proof.
  unfold sealManifest. cbv zeta. rewrite manifestCrc_set. unfold manifestCrc.
  match goal with |- mf_manifestCrc32c (_ <| mf_manifestCrc32c := ?x |>) = _ =>
    change (x = headerCrc l_BinaryMarketManifest
      (m <| mf_headerBytes := sizeofz l_BinaryMarketManifest |> <| mf_manifestCrc32c := 0 |>
         <| mf_manifestCrc32c := 0 |>)) end. f_equal.
Qed.

Lemma manifest_fits_set m crc :
  fits l_BinaryMarketManifest m -> in_u32 crc ->
  fits l_BinaryMarketManifest (m <| mf_headerBytes := sizeofz l_BinaryMarketManifest |>
                                 <| mf_manifestCrc32c := crc |>).
Proof.
  intros Hf Hc. destruct m. cbn in *. unfold fits_unsigned in *. cbn -[length] in *.
  unfold sizeofz. change (Z.of_nat (sizeof l_BinaryMarketManifest)) with 192.
  intuition (done || mlia).
Qed.

Lemma sealManifest_fits m :
  fits l_BinaryMarketManifest m -> fits l_BinaryMarketManifest (sealManifest m).
Proof.
  intros Hf. pose proof (manifest_fits_set m 0 Hf ltac:(mlia)) as H0.
  exact (manifest_fits_set m _ Hf (crc32c_range _ (obj_bytes _ _ H0))).
Qed.

(** The contract does not look at the checksum. *)
Lemma contract_seal m :
  manifestContract (sealManifest m) =
  manifestContract (m <| mf_headerBytes := sizeofz l_BinaryMarketManifest |>).
Proof.
  unfold sealManifest. cbv zeta. generalize (headerCrc l_BinaryMarketManifest
    (m <| mf_headerBytes := sizeofz l_BinaryMarketManifest |> <| mf_manifestCrc32c := 0 |>)).
  intros crc. unfold manifestContract. cbn -[sizeofz]. reflexivity.
Qed.

Lemma readManifest_sealed m :
  fits l_BinaryMarketManifest m ->
  manifestContract (m <| mf_headerBytes := sizeofz l_BinaryMarketManifest |>) = true ->
  readManifest (Some (obj l_BinaryMarketManifest (sealManifest m))) = Some (sealManifest m).
Proof.
  intros Hf Hc. pose proof (sealManifest_fits m Hf) as Hfs.
  rewrite <- contract_seal in Hc. pose proof (sealed_manifest m) as Hcrc.
  revert Hfs Hc Hcrc. generalize (sealManifest m) as s. intros s Hfs Hc Hcrc.
  pose proof (obj_length _ _ Hfs) as Hlen. unfold readManifest. cbn [mbind option_bind].
  rewrite Hlen. unfold sizeofz. rewrite Z.eqb_refl. cbn [negb].
  pose proof (readBytes_app [] (obj l_BinaryMarketManifest s) []) as Hr.
  cbn [app length] in Hr. rewrite Hlen, app_nil_r in Hr. rewrite Hr.
  cbn [fmap option_fmap option_map option_bind mbind].
  rewrite <- (app_nil_r (obj l_BinaryMarketManifest s)), view_obj by done.
  unfold validSealedManifest. by rewrite Hc, Hcrc, Z.eqb_refl.
Qed.

(** ** Claims *)

(** A table written without a reported error is read back record for record:
    [readTable] accepts the file that [writeTableAtomic] left, with the checksum it
    returned, and yields exactly the records written. *)
Theorem table_roundtrip {A} (l : layout A) target magic records maximumBytes crc w w' :
  Forall (fits l) records -> in_u32 magic -> in_u32 (sizeofz l) ->
  in_u32 (Z.of_nat (length records)) -> in_u64 maximumBytes ->
  Z.of_nat (length records) * sizeofz l <= maximumBytes ->
  writeTableAtomic l target magic records w = (Some crc, w') ->
  readTable l (w_files w' (RootFile target)) magic crc maximumBytes
    (Z.of_nat (length records)) = Some records.
Proof.
  intros Hf Hm Hs Hn Hmax Hle Hw. apply writeTable_content in Hw as [-> ->].
  by apply readTable_written.
Qed.

(** A manifest that meets the sealed contract is accepted by the reader once
    [writeManifestAtomic] has stored it, with the header size and checksum filled in. *)
Theorem manifest_roundtrip m w w' :
  fits l_BinaryMarketManifest m ->
  manifestContract (m <| mf_headerBytes := sizeofz l_BinaryMarketManifest |>) = true ->
  writeManifestAtomic "manifest.bin" m w = (true, w') ->
  readManifest (w_files w' (RootFile "manifest.bin")) = Some (sealManifest m).
Proof.
  intros Hf Hc Hw. apply replaceFile_atomic in Hw as (_ & _ & Hs); [|apply temporary_differs].
  rewrite (Hs eq_refl). cbn [concat]. rewrite app_nil_r. by apply readManifest_sealed.
Qed.

(** Replacing a table or the manifest is atomic under every
    sequence of file-system faults: the target keeps its old content or holds
    exactly the complete new content, and no other file but the temporary changes. *)
Theorem metadata_replacement_atomic {A} (l : layout A) target magic records m w :
  let table := (writeTableAtomic l target magic records w).2 in
  let manifest := (writeManifestAtomic target m w).2 in
  (w_files table (RootFile target) = w_files w (RootFile target) \/
   w_files table (RootFile target) =
     Some (obj l_BinaryMarketTableHeader (tableHeader l magic records) ++ objects l records)) /\
  (w_files manifest (RootFile target) = w_files w (RootFile target) \/
   w_files manifest (RootFile target) = Some (obj l_BinaryMarketManifest (sealManifest m))) /\
  (forall p, p <> RootFile target -> p <> RootFile (temporaryOf target) ->
   w_files table p = w_files w p /\ w_files manifest p = w_files w p).
Proof.
  cbv zeta. unfold writeTableAtomic, writeManifestAtomic.
  destruct (replaceFile _ _ [obj l_BinaryMarketManifest _] w) as [ok2 w2] eqn:E2.
  apply replaceFile_atomic in E2 as (Ho2 & Hs2 & _); [|apply temporary_differs].
  cbn [concat] in Hs2. rewrite app_nil_r in Hs2.
  destruct (u32_max <? _); [cbn [snd]; split_and!; auto|].
  destruct (replaceFile _ _ (_ :: _) w) as [ok1 w1] eqn:E1.
  apply replaceFile_atomic in E1 as (Ho1 & Hs1 & _); [|apply temporary_differs].
  cbn [snd]. split_and!; [|done|auto].
  destruct Hs1 as [Hs1|Hs1]; [by left|right]. rewrite Hs1. cbn [concat]. do 2 f_equal.
  destruct (Nat.eqb_spec (length (objects l records)) 0) as [H0|H0]; cbn.
  - symmetry. by apply nil_length_inv.
  - by rewrite app_nil_r.
Qed.

(** ** Witnesses *)

Definition emptyWorld : World := MkWorld (fun _ => None) [].

Definition sampleManifest : BinaryMarketManifest :=
  view l_BinaryMarketManifest (zeros 192)
    <| mf_magic := kBinaryMarketManifestMagic |> <| mf_producerEpoch := 7 |>
    <| mf_startedReceiveNs := 1000 |> <| mf_replayAnchorReceiveNs := 1000 |>
    <| mf_replayAnchorMonotonicNs := 5 |> <| mf_finalizedReceiveNs := 2000 |>
    <| mf_maximumBytes := 1000000 |> <| mf_segmentTargetBytes := 100000 |>
    <| mf_projectedBytes := 20000 |> <| mf_sourceCount := 1 |> <| mf_shardCount := 1 |>
    <| mf_complete := 1 |> <| mf_stopReason := StopReason.Requested |>.

Lemma table_roundtrip_witness :
  readTable l_BinaryMarketSource
    (w_files (writeTableAtomic l_BinaryMarketSource "sources.bin" kBinaryMarketSourcesMagic
                [sampleSource] emptyWorld).2 (RootFile "sources.bin"))
    kBinaryMarketSourcesMagic (crc32c (objects l_BinaryMarketSource [sampleSource])) 100000 1 =
  Some [sampleSource].
Proof.
  apply (table_roundtrip l_BinaryMarketSource "sources.bin" kBinaryMarketSourcesMagic
    [sampleSource] 100000 _ emptyWorld).
  - apply Forall_cons_2; [apply sampleSource_fits|apply Forall_nil_2].
  - split; [done|reflexivity].
  - split; [done|reflexivity].
  - split; [done|reflexivity].
  - split; [done|reflexivity].
  - vm_compute. discriminate.
  - vm_compute. reflexivity.
Defined.

Lemma manifest_roundtrip_witness :
  readManifest (w_files (writeManifestAtomic "manifest.bin" sampleManifest emptyWorld).2
    (RootFile "manifest.bin")) = Some (sealManifest sampleManifest).
Proof.
  apply (manifest_roundtrip sampleManifest emptyWorld).
  - apply fits_checked; vm_compute; reflexivity.
  - vm_compute. reflexivity.
  - vm_compute. reflexivity.
Defined.
