(* ===== verification/BlockCodec.v ===== *)
(** * BlockCodec: the interface of the block compressor

    Models src/src/Runtime/src/Corpus/BinaryMarketBlockCodec.hpp.  The compressor
    itself, [hft_compressor], is a separate library: the class [ByteBlockCodec]
    holds the operations the corpus calls, and [ByteBlockLaws] the behaviour its
    interface documents (lossless coding within the announced bound). *)
From stdpp Require Import base list numbers.
From S2P Require Import Prelude Layout Format.
Local Open Scope Z_scope.

Inductive StreamType := StreamUnknown | StreamTrades | StreamBookTicker.
#[export] Instance StreamType_eq_dec : EqDecision StreamType.
Proof. solve_decision. Defined.

(** The members of [hft_compressor::ByteBlockLayout] the corpus fills in. *)
Record ByteBlockLayout := MkByteBlockLayout {
  bl_recordBytes : Z;
  bl_payloadOffset : Z;
  bl_timestampOffset : Z;
  bl_streamType : StreamType;
}.

Class ByteBlockCodec := {
  (** [prepare()] of a fresh workspace *)
  workspacePrepare : bool;
  byteBlockEncodeBound : ByteBlockLayout -> Z -> Z;
  (** [encodeByteBlock(workspace, layout, raw, output, bytes)]: the bytes on [Ok] *)
  encodeByteBlock : ByteBlockLayout -> list Z -> option (list Z);
  (** [decodeByteBlock(workspace, layout, encoded, output, bytes)] with room for
      [n] bytes *)
  decodeByteBlock : ByteBlockLayout -> list Z -> nat -> option (list Z);
}.

Class ByteBlockLaws (C : ByteBlockCodec) : Prop := {
  encode_bytes layout raw encoded :
    encodeByteBlock layout raw = Some encoded -> bytes_ok encoded;
  encode_bound layout raw encoded n :
    encodeByteBlock layout raw = Some encoded ->
    Z.of_nat (length raw) = n * bl_recordBytes layout ->
    Z.of_nat (length encoded) <= byteBlockEncodeBound layout n;
  encode_lossless layout raw encoded :
    bytes_ok raw -> encodeByteBlock layout raw = Some encoded ->
    decodeByteBlock layout encoded (length raw) = Some raw;
  decode_bytes layout encoded n raw :
    decodeByteBlock layout encoded n = Some raw -> bytes_ok raw;
  bound_u32 layout n : 0 <= n <= kBinaryMarketBlockRecords ->
    0 <= byteBlockEncodeBound layout n < u32_max;
}.

Definition binaryMarketBlockLayout (channel : Z) : ByteBlockLayout :=
  MkByteBlockLayout (sizeofz l_BinaryMarketRecord)
    104 (* offsetof(BinaryMarketRecord, payload) *)
    56  (* offsetof(BinaryMarketRecordHeader, exchangeTimestampNs) *)
    (if channel =? Channel.Trade then StreamTrades
     else if channel =? Channel.BookTicker then StreamBookTicker
     else StreamUnknown).

Definition binaryMarketPendingRecordBytes `{ByteBlockCodec} : Z :=
  u64 (sizeofz l_BinaryMarketBlockHeader +
       byteBlockEncodeBound (binaryMarketBlockLayout Channel.Depth) 1).

(** An instance for evaluation: the identity coding. *)
Module Stored.
#[export] Instance codec : ByteBlockCodec := {|
  workspacePrepare := true;
  byteBlockEncodeBound layout n := n * 1024;
  encodeByteBlock layout raw :=
    if bool_decide (bl_recordBytes layout = 1024) && forallb byteb raw then Some raw else None;
  decodeByteBlock layout encoded n :=
    if (length encoded =? n)%nat && forallb byteb encoded then Some encoded else None;
|}.

#[export] Instance laws : ByteBlockLaws codec.
Proof.
  split; cbn.
  - intros layout raw encoded. destruct (bool_decide _ && _) eqn:E; [|done]. intros [= <-].
    apply andb_true_iff in E as [_ E]. by apply bytes_okb.
  - intros layout raw encoded n. destruct (bool_decide _ && _) eqn:E; [|done]. intros [= <-] ->.
    apply andb_true_iff in E as [->%bool_decide_eq_true _]. done.
  - intros layout raw encoded _. destruct (bool_decide _ && _) eqn:E; [|done]. intros [= <-].
    apply andb_true_iff in E as [_ ->]. by rewrite Nat.eqb_refl.
  - intros layout encoded n raw. destruct (_ && _) eqn:E; [|done]. intros [= <-].
    apply andb_true_iff in E as [_ E]. by apply bytes_okb.
  - unfold kBinaryMarketBlockRecords. mlia.
Qed.
End Stored.
