(* ===== verification/Cut.v ===== *)
(** * Cut: durable commits of a running recording

    Models src/src/Runtime/src/Corpus/CorpusCut.cpp (header, [writeCorpusCut],
    [validCutHeader], [decodeCorpusCut], [readCorpusCut],
    [readCorpusCompressedBlock]) and CorpusCutStorage.hpp ([CorpusPublication],
    the bounded cache of compressed blocks).

    Theorems: a cut that meets the format contract decodes to itself; changing
    any single byte of a stored cut makes it unreadable; the retained cache
    respects its byte capacity and serves exactly the bytes that were retained. *)
From stdpp Require Import base list numbers strings.
From S2P Require Import Prelude Codec Layout Format Disk Metadata BlockCodec Samples.
Import Crc32c.
Local Open Scope Z_scope.

Definition kCorpusMaximumReferenceBytes : Z := 128 * 1024 * 1024.

Record CorpusProducerProgress := MkCorpusProducerProgress {
  pg_producerEpoch : Z;
  pg_safeMonotonicNs : Z;
  pg_lossEpoch : Z;
  pg_directoryRevision : Z;
  pg_shardSequences : list Z;
  pg_shardCount : Z;
  pg_pad546 : list Z;
}.
#[export] Instance CorpusProducerProgress_eta : Eta CorpusProducerProgress := fun r =>
  MkCorpusProducerProgress
    (pg_producerEpoch r) (pg_safeMonotonicNs r) (pg_lossEpoch r)
    (pg_directoryRevision r) (pg_shardSequences r) (pg_shardCount r)
    (pg_pad546 r).
Definition l_CorpusProducerProgress : layout CorpusProducerProgress := l_iso
  (fun r => (
    pg_producerEpoch r, pg_safeMonotonicNs r, pg_lossEpoch r,
    pg_directoryRevision r, pg_shardSequences r, pg_shardCount r,
    pg_pad546 r))
  (fun '(
    x0, x1, x2, x3, x4, x5, x6) =>
    MkCorpusProducerProgress x0 x1 x2 x3 x4 x5 x6)
  ltac:(struct_iso) ltac:(struct_iso)
  (l_u64 ** l_u64 ** l_u64 ** l_u64 ** l_array 64 l_u64 ** l_u16 **
   l_raw 6)%layout.

Record CorpusBlockRange := MkCorpusBlockRange {
  rg_offset : Z;
  rg_firstMonotonicNs : Z;
  rg_lastMonotonicNs : Z;
  rg_segmentNumber : Z;
  rg_shardIndex : Z;
  rg_reserved : Z;
  rg_header : BinaryMarketBlockHeader;
}.
#[export] Instance CorpusBlockRange_eta : Eta CorpusBlockRange := fun r =>
  MkCorpusBlockRange
    (rg_offset r) (rg_firstMonotonicNs r) (rg_lastMonotonicNs r)
    (rg_segmentNumber r) (rg_shardIndex r) (rg_reserved r) (rg_header r).
Definition l_CorpusBlockRange : layout CorpusBlockRange := l_iso
  (fun r => (
    rg_offset r, rg_firstMonotonicNs r, rg_lastMonotonicNs r,
    rg_segmentNumber r, rg_shardIndex r, rg_reserved r, rg_header r))
  (fun '(
    x0, x1, x2, x3, x4, x5, x6) =>
    MkCorpusBlockRange x0 x1 x2 x3 x4 x5 x6)
  ltac:(struct_iso) ltac:(struct_iso)
  (l_u64 ** l_u64 ** l_u64 ** l_u32 ** l_u16 ** l_u16 **
   l_BinaryMarketBlockHeader)%layout.

Record CutHeader := MkCutHeader {
  ch_magic : Z;
  ch_bytes : Z;
  ch_generation : Z;
  ch_committedMonotonicNs : Z;
  ch_progress : CorpusProducerProgress;
  ch_pad584 : list Z;
  ch_manifest : BinaryMarketManifest;
  ch_sources : Z;
  ch_gaps : Z;
  ch_blocks : Z;
  ch_referenceBytes : Z;
  ch_crc : Z;
  ch_headerCrc : Z;
  ch_sourcesCrc : Z;
  ch_finalized : Z;
  ch_reserved : Z;
  ch_pad878 : list Z;
}.
#[export] Instance CutHeader_eta : Eta CutHeader := fun r =>
  MkCutHeader
    (ch_magic r) (ch_bytes r) (ch_generation r) (ch_committedMonotonicNs r)
    (ch_progress r) (ch_pad584 r) (ch_manifest r) (ch_sources r) (ch_gaps r)
    (ch_blocks r) (ch_referenceBytes r) (ch_crc r) (ch_headerCrc r)
    (ch_sourcesCrc r) (ch_finalized r) (ch_reserved r) (ch_pad878 r).
Definition l_CutHeader : layout CutHeader := l_iso
  (fun r => (
    ch_magic r, ch_bytes r, ch_generation r, ch_committedMonotonicNs r,
    ch_progress r, ch_pad584 r, ch_manifest r, ch_sources r, ch_gaps r,
    ch_blocks r, ch_referenceBytes r, ch_crc r, ch_headerCrc r,
    ch_sourcesCrc r, ch_finalized r, ch_reserved r, ch_pad878 r))
  (fun '(
    x0, x1, x2, x3, x4, x5, x6, x7, x8, x9, x10, x11, x12, x13, x14, x15,
    x16) =>
    MkCutHeader x0 x1 x2 x3 x4 x5 x6 x7 x8 x9 x10 x11 x12 x13 x14 x15 x16)
  ltac:(struct_iso) ltac:(struct_iso)
  (l_u64 ** l_u64 ** l_u64 ** l_u64 ** l_CorpusProducerProgress **
   l_raw 56 ** l_BinaryMarketManifest ** l_u64 ** l_u64 ** l_u64 ** l_u64 **
   l_u32 ** l_u32 ** l_u32 ** l_u8 ** l_u8 ** l_raw 18)%layout.

Example cut_layout_sizes :
  (sizeof l_CorpusProducerProgress, sizeof l_CorpusBlockRange, sizeof l_CutHeader)%nat =
  (552, 96, 896)%nat.
Proof. reflexivity. Qed.

Record CorpusCut := MkCorpusCut {
  cut_generation : Z;
  cut_committedMonotonicNs : Z;
  cut_progress : CorpusProducerProgress;
  cut_manifest : BinaryMarketManifest;
  cut_sources : list BinaryMarketSource;
  cut_gaps : list BinaryMarketGap;
  cut_blocks : list CorpusBlockRange;
  cut_referencePayload : list Z;
  cut_finalized : bool;
}.

(** ** The header *)

Definition kCutMagic : Z := 0x4355544852434f52.

Definition cutHeaderCrc (h : CutHeader) : Z :=
  crc32c (obj l_CutHeader (h <| ch_crc := 0 |> <| ch_headerCrc := 0 |>)).

(** The section walk at the end of [validCutHeader]. *)
Fixpoint sectionsFit (remaining : Z) (sections : list (Z * Z)) : bool :=
  match sections with
  | [] => remaining =? 0
  | (count, size) :: sections =>
      if remaining / size <? count then false
      else sectionsFit (remaining - count * size) sections
  end.

(** The conditions of [validCutHeader] on the header fields. *)
Definition cutHeaderInvalid (h : CutHeader) (bytes : Z) : bool :=
  let m := ch_manifest h in
  let maximum := mf_maximumBytes m in
  negb (ch_bytes h =? bytes) || (bytes <? sizeofz l_CutHeader) || (maximum =? 0) ||
  (maximum <? bytes) || (ch_generation h =? 0) || (ch_committedMonotonicNs h =? 0) ||
  (ch_sources h =? 0) || (kBinaryMarketMaximumSources <? ch_sources h) ||
  negb (ch_sources h =? mf_sourceCount m) ||
  (u64 (ch_sources h * kBinaryMarketStoredChannelCount) <? ch_gaps h) ||
  (maximum / sizeofz l_CorpusBlockRange <? ch_blocks h) ||
  (kCorpusMaximumReferenceBytes <? ch_referenceBytes h) ||
  (1 <? ch_finalized h) ||
  negb (Bool.eqb (negb (ch_finalized h =? 0)) (0 <? mf_finalizedReceiveNs m)) ||
  negb (ch_reserved h =? 0) || negb (mf_magic m =? kBinaryMarketManifestMagic) ||
  negb (mf_headerBytes m =? sizeofz l_BinaryMarketManifest) || (mf_producerEpoch m =? 0) ||
  (mf_startedReceiveNs m <=? 0) || (mf_replayAnchorMonotonicNs m =? 0) ||
  negb (pg_producerEpoch (ch_progress h) =? mf_producerEpoch m) ||
  (pg_shardCount (ch_progress h) =? 0) ||
  negb (pg_shardCount (ch_progress h) =? mf_shardCount m) ||
  (kBinaryMarketMaximumShards <? pg_shardCount (ch_progress h)) ||
  negb (ch_gaps h =? mf_gapCount m).

Definition validCutHeader (h : CutHeader) (bytes : Z) : bool :=
  if negb (ch_magic h =? kCutMagic) || negb (ch_headerCrc h =? cutHeaderCrc h) ||
     cutHeaderInvalid h bytes then false
  else sectionsFit (bytes - sizeofz l_CutHeader)
    [(ch_sources h, sizeofz l_BinaryMarketSource); (ch_gaps h, sizeofz l_BinaryMarketGap);
     (ch_blocks h, sizeofz l_CorpusBlockRange); (ch_referenceBytes h, 1)].

(** ** Writing *)

Definition cutPayload (cut : CorpusCut) : list Z :=
  objects l_BinaryMarketSource (cut_sources cut) ++ objects l_BinaryMarketGap (cut_gaps cut) ++
  objects l_CorpusBlockRange (cut_blocks cut) ++ cut_referencePayload cut.

(** The header of [writeCorpusCut] before its two checksums. *)
Definition cutHeader (cut : CorpusCut) : CutHeader :=
  let size {A} (xs : list A) := Z.of_nat (length xs) in
  MkCutHeader kCutMagic (sizeofz l_CutHeader + size (cutPayload cut)) (cut_generation cut)
    (cut_committedMonotonicNs cut) (cut_progress cut) (replicate 56 0) (cut_manifest cut)
    (size (cut_sources cut)) (size (cut_gaps cut)) (size (cut_blocks cut))
    (size (cut_referencePayload cut)) 0 0
    (crc32c (objects l_BinaryMarketSource (cut_sources cut)))
    (if cut_finalized cut then 1 else 0) 0 (replicate 18 0).

Definition sealCutHeader (cut : CorpusCut) : CutHeader :=
  let h := cutHeader cut in
  let h := h <| ch_headerCrc := cutHeaderCrc h |> in
  h <| ch_crc := crc32c (obj l_CutHeader h ++ cutPayload cut) |>.

Definition cutBytes (cut : CorpusCut) : list Z :=
  obj l_CutHeader (sealCutHeader cut) ++ cutPayload cut.

Definition writeCorpusCut (cut : CorpusCut) (w : World) : Status * World :=
  let '(ok, w) := replaceFile (RootFile "cut.pending") (RootFile "cut.bin") [cutBytes cut] w in
  (if ok then Ok else IoError, w).

(** ** Reading *)

Definition unpack {A} (l : layout A) (count : Z) (bytes : list Z) : option (list A * list Z) :=
  if Z.of_nat (length bytes) / sizeofz l <? count then None
  else
    let n := Z.to_nat count in
    Some (view_array l n bytes, drop (n * sizeof l) bytes).

(** One gap row of a cut. *)
Definition cutGapInvalid (gap : BinaryMarketGap) (sources shardCount : Z) : bool :=
  (gp_sourceId gap =? 0) || (sources <? gp_sourceId gap) || (gp_sourceGeneration gap =? 0) ||
  (gp_gapEpoch gap =? 0) || negb (gp_gapEpoch gap =? gp_droppedRecords gap) ||
  (gp_firstDroppedEventSequence gap =? 0) || (gp_lastDroppedEventSequence gap =? 0) ||
  (gp_observedReceiveNs gap <=? 0) || (shardCount <=? gp_shardIndex gap) ||
  negb (validBinaryMarketRecordChannel (gp_channel gap)) ||
  negb (gp_reserved32 gap =? 0) || negb (gp_reserved8 gap =? 0) ||
  negb (((0 <? gp_minimumDroppedReceiveNs gap) &&
         (gp_minimumDroppedReceiveNs gap <=? gp_maximumDroppedReceiveNs gap)) ||
        ((gp_minimumDroppedReceiveNs gap =? 0) && (gp_maximumDroppedReceiveNs gap =? 0))).

(** The bit of [gapSeen] a gap row marks. *)
Definition gapCell (gap : BinaryMarketGap) : Z :=
  (gp_sourceId gap - 1) * kBinaryMarketStoredChannelCount +
  binaryMarketChannelIndex (gp_channel gap).

Fixpoint gapsValid (gaps : list BinaryMarketGap) (sources shardCount : Z) (seen : list Z)
  : bool :=
  match gaps with
  | [] => true
  | gap :: gaps =>
      if cutGapInvalid gap sources shardCount then false
      else if bool_decide (gapCell gap ∈ seen) then false
      else gapsValid gaps sources shardCount (gapCell gap :: seen)
  end.

Definition blockHeaderCrc (b : BinaryMarketBlockHeader) : Z :=
  headerCrc l_BinaryMarketBlockHeader (b <| bh_headerCrc32c := 0 |>).

Section cut.
Context `{ByteBlockCodec}.

(** One block reference of a cut. *)
Definition cutRangeInvalid (range : CorpusBlockRange) (shardCount maximum : Z) : bool :=
  let block := rg_header range in
  let layout := binaryMarketBlockLayout (bh_channel block) in
  (rg_segmentNumber range =? 0) || (shardCount <=? rg_shardIndex range) ||
  negb (rg_reserved range =? 0) ||
  (rg_offset range <? sizeofz l_BinaryMarketSegmentHeader) || (maximum <? rg_offset range) ||
  (rg_firstMonotonicNs range =? 0) ||
  (rg_lastMonotonicNs range <? rg_firstMonotonicNs range) ||
  negb (bh_magic block =? kBinaryMarketBlockMagic) ||
  negb (bh_headerBytes block =? sizeofz l_BinaryMarketBlockHeader) ||
  (bh_blockNumber block =? 0) || (bh_recordCount block =? 0) ||
  (kBinaryMarketBlockRecords <? bh_recordCount block) ||
  negb (validBinaryMarketRecordChannel (bh_channel block)) ||
  negb (bh_rawBytes block =? u64 (bh_recordCount block * bl_recordBytes layout)) ||
  (bh_encodedBytes block =? 0) ||
  (byteBlockEncodeBound layout (bh_recordCount block) <? bh_encodedBytes block) ||
  negb (zero_bytes (bh_reserved block)) || (bh_firstShardSequence block =? 0) ||
  (bh_lastShardSequence block <? bh_firstShardSequence block) ||
  negb (blockHeaderCrc block =? bh_headerCrc32c block).

(** The block walk: the records the references announce. *)
Fixpoint sumRanges (blocks : list CorpusBlockRange) (shardCount maximum records : Z)
  : option Z :=
  match blocks with
  | [] => Some records
  | range :: blocks =>
      if cutRangeInvalid range shardCount maximum ||
         (u64_max - bh_recordCount (rg_header range) <? records) then None
      else sumRanges blocks shardCount maximum (records + bh_recordCount (rg_header range))
  end.

(** The table checks of [decodeCorpusCut] after unpacking. *)
Definition cutTablesValid (cut : CorpusCut) (sourcesCrc : Z) : bool :=
  let m := cut_manifest cut in
  let shardCount := pg_shardCount (cut_progress cut) in
  (crc32c (objects l_BinaryMarketSource (cut_sources cut)) =? sourcesCrc) &&
  validSources (cut_sources cut) &&
  gapsValid (cut_gaps cut) (Z.of_nat (length (cut_sources cut))) shardCount [] &&
  match sumRanges (cut_blocks cut) shardCount (mf_maximumBytes m) 0 with
  | None => false
  | Some records =>
      (records =? mf_recordCount m) && (Z.of_nat (length (cut_gaps cut)) =? mf_gapCount m)
  end.

Definition decodeCorpusCut (bytes : list Z) : Status * option CorpusCut :=
  if (length bytes <? sizeof l_CutHeader)%nat then (CorruptData, None)
  else
    let h := view l_CutHeader bytes in
    if negb (validCutHeader h (Z.of_nat (length bytes))) then (CorruptData, None)
    else
      let payload := drop (sizeof l_CutHeader) bytes in
      if negb (crc32c (obj l_CutHeader (h <| ch_crc := 0 |>) ++ payload) =? ch_crc h)
      then (CorruptData, None)
      else
        match (
          '(sources, payload) ← unpack l_BinaryMarketSource (ch_sources h) payload;
          '(gaps, payload) ← unpack l_BinaryMarketGap (ch_gaps h) payload;
          '(blocks, payload) ← unpack l_CorpusBlockRange (ch_blocks h) payload;
          '(reference, payload) ← unpack l_u8 (ch_referenceBytes h) payload;
          if negb (length payload =? 0)%nat then None
          else Some (MkCorpusCut (ch_generation h) (ch_committedMonotonicNs h) (ch_progress h)
            (ch_manifest h) sources gaps blocks reference (negb (ch_finalized h =? 0))))
        with
        | None => (CorruptData, None)
        | Some cut =>
            if negb (cutTablesValid cut (ch_sourcesCrc h)) then (CorruptData, None)
            else (Ok, Some cut)
        end.

(** [readCorpusCut] of an owned regular file; the header conditions it lists once
    more after [validCutHeader] are conditions of [validCutHeader]. *)
Definition readCorpusCut (files : Files) (maximumMetadataBytes : Z) : Status * option CorpusCut :=
  match files (RootFile "cut.bin") with
  | None => (IoError, None)
  | Some content =>
      if (length content <? sizeof l_CutHeader)%nat then (CorruptData, None)
      else
        let h := view l_CutHeader content in
        if negb (validCutHeader h (Z.of_nat (length content))) then (CorruptData, None)
        else if maximumMetadataBytes <? ch_bytes h then (OutOfRange, None)
        else decodeCorpusCut content
  end.

(** ** Round trip *)

Record cut_ok (cut : CorpusCut) : Prop := {
  ok_generation : in_u64 (cut_generation cut);
  ok_committed : in_u64 (cut_committedMonotonicNs cut);
  ok_progress : fits l_CorpusProducerProgress (cut_progress cut);
  ok_manifest : fits l_BinaryMarketManifest (cut_manifest cut);
  ok_sources : Forall (fits l_BinaryMarketSource) (cut_sources cut);
  ok_gaps : Forall (fits l_BinaryMarketGap) (cut_gaps cut);
  ok_blocks : Forall (fits l_CorpusBlockRange) (cut_blocks cut);
  ok_reference : bytes_ok (cut_referencePayload cut);
  ok_header : cutHeaderInvalid (cutHeader cut) (ch_bytes (cutHeader cut)) = false;
  ok_tables : cutTablesValid cut
    (crc32c (objects l_BinaryMarketSource (cut_sources cut))) = true;
}.

(** Header conditions do not look at the checksums. *)
Lemma cutHeaderInvalid_set h x y bytes :
  cutHeaderInvalid (h <| ch_headerCrc := x |> <| ch_crc := y |>) bytes = cutHeaderInvalid h bytes.
Proof. reflexivity. Qed.

Lemma cutHeaderCrc_set h x y :
  cutHeaderCrc (h <| ch_headerCrc := x |> <| ch_crc := y |>) = cutHeaderCrc h.
Proof. unfold cutHeaderCrc. f_equal. Qed.

Lemma cutPayload_bytes cut : cut_ok cut -> bytes_ok (cutPayload cut).
Proof.
  intros Hok. unfold cutPayload, objects. rewrite !bytes_ok_app.
  split_and!; [by apply obj_array_bytes, Hok..|apply Hok].
Qed.

Lemma CutHeader_fits h :
  in_u64 (ch_magic h) /\ in_u64 (ch_bytes h) /\ in_u64 (ch_generation h) /\
  in_u64 (ch_committedMonotonicNs h) /\ fits l_CorpusProducerProgress (ch_progress h) /\
  fits (l_raw 56) (ch_pad584 h) /\ fits l_BinaryMarketManifest (ch_manifest h) /\
  in_u64 (ch_sources h) /\ in_u64 (ch_gaps h) /\ in_u64 (ch_blocks h) /\
  in_u64 (ch_referenceBytes h) /\ in_u32 (ch_crc h) /\ in_u32 (ch_headerCrc h) /\
  in_u32 (ch_sourcesCrc h) /\ in_u8 (ch_finalized h) /\ in_u8 (ch_reserved h) /\
  fits (l_raw 18) (ch_pad878 h) -> fits l_CutHeader h.
Proof. intros Hh. unfold in_u64, in_u32, in_u8 in Hh. repeat split; apply Hh. Qed.

Lemma cutHeader_fits cut x y :
  cut_ok cut -> in_u32 x -> in_u32 y ->
  fits l_CutHeader (cutHeader cut <| ch_headerCrc := x |> <| ch_crc := y |>).
Proof.
  intros Hok Hx Hy. pose proof (ok_header _ Hok) as Hh. unfold cutHeaderInvalid in Hh.
  pose proof (crc32c_range _ (obj_array_bytes _ _ (ok_sources _ Hok))) as Hcrc.
  fold (objects l_BinaryMarketSource (cut_sources cut)) in Hcrc.
  assert (in_u64 (mf_maximumBytes (cut_manifest cut))) as Hmax.
  { pose proof (ok_manifest _ Hok) as Hm. destruct (cut_manifest cut). cbn in Hm.
    unfold fits_unsigned in Hm. cbn in *. mlia. }
  destruct Hok as [Hg Hc Hp Hm Hs Hgp Hb Hr _ _].
  revert Hcrc Hh. unfold cutHeader. change (sizeofz l_CutHeader) with 896.
  change (sizeofz l_CorpusBlockRange) with 96.
  generalize (crc32c (objects l_BinaryMarketSource (cut_sources cut))).
  generalize (cutPayload cut). intros payload crc Hcrc Hh. cbn -[sizeofz replicate] in Hh.
  bsplit.
  assert (mf_maximumBytes (cut_manifest cut) / 96 <= mf_maximumBytes (cut_manifest cut))
    by (apply Z.div_le_upper_bound; mlia).
  unfold kCorpusMaximumReferenceBytes, kBinaryMarketMaximumSources,
    kBinaryMarketStoredChannelCount in *.
  rewrite u64_id in * by mlia.
  apply CutHeader_fits. cbn -[replicate fits]. unfold kCutMagic.
  split_and!; first [assumption | mlia | by apply fits_checked | idtac].
  destruct (cut_finalized cut); mlia.
Qed.

(** What the sealed header says, with its checksums abstracted. *)
Lemma sealCutHeader_ok cut : cut_ok cut ->
  let h := sealCutHeader cut in
  fits l_CutHeader h /\ ch_headerCrc h = cutHeaderCrc h /\
  ch_crc h = crc32c (obj l_CutHeader (h <| ch_crc := 0 |>) ++ cutPayload cut) /\
  cutHeaderInvalid h (ch_bytes h) = false /\ ch_magic h = kCutMagic /\
  ch_bytes h = sizeofz l_CutHeader + Z.of_nat (length (cutPayload cut)) /\
  ch_sources h = Z.of_nat (length (cut_sources cut)) /\
  ch_gaps h = Z.of_nat (length (cut_gaps cut)) /\
  ch_blocks h = Z.of_nat (length (cut_blocks cut)) /\
  ch_referenceBytes h = Z.of_nat (length (cut_referencePayload cut)) /\
  ch_sourcesCrc h = crc32c (objects l_BinaryMarketSource (cut_sources cut)) /\
  MkCorpusCut (ch_generation h) (ch_committedMonotonicNs h) (ch_progress h) (ch_manifest h)
    (cut_sources cut) (cut_gaps cut) (cut_blocks cut) (cut_referencePayload cut)
    (negb (ch_finalized h =? 0)) = cut.
Proof.
  intros Hok. cbv zeta. unfold sealCutHeader. cbv zeta.
  pose proof (cutHeader_fits cut) as Hfit. pose proof (ok_header _ Hok) as Hinv.
  assert (in_u32 (cutHeaderCrc (cutHeader cut))) as Hc1.
  { apply crc32c_range, obj_bytes. exact (cutHeader_fits cut 0 0 Hok ltac:(mlia) ltac:(mlia)). }
  set (x := cutHeaderCrc (cutHeader cut)) in *.
  assert (in_u32 (crc32c (obj l_CutHeader (cutHeader cut <| ch_headerCrc := x |>) ++
                          cutPayload cut))) as Hc2.
  { apply crc32c_range, bytes_ok_app. split; [|by apply cutPayload_bytes].
    apply obj_bytes. exact (cutHeader_fits cut x 0 Hok Hc1 ltac:(mlia)). }
  set (y := crc32c (_ ++ _)) in *.
  assert (x = cutHeaderCrc (cutHeader cut)) as Hx by done.
  assert (y = crc32c (obj l_CutHeader (cutHeader cut <| ch_headerCrc := x |>) ++
                      cutPayload cut)) as Hy by done. clearbody x y.
  split_and!.
  - by apply Hfit.
  - by rewrite cutHeaderCrc_set.
  - reflexivity.
  - exact Hinv.
  - reflexivity.
  - reflexivity.
  - reflexivity.
  - reflexivity.
  - reflexivity.
  - reflexivity.
  - reflexivity.
  - destruct cut as [? ? ? ? ? ? ? ? []]; reflexivity.
Qed.

Lemma unpack_objects {A} (l : layout A) xs rest :
  Forall (fits l) xs -> 0 < sizeofz l ->
  unpack l (Z.of_nat (length xs)) (objects l xs ++ rest) = Some (xs, rest).
Proof.
  intros Hf Hs. unfold unpack. unfold objects, sizeofz in *.
  rewrite length_app, obj_array_length by done.
  assert (Z.of_nat (length xs) <=
          Z.of_nat (length xs * sizeof l + length rest) / Z.of_nat (sizeof l)).
  { apply Z.div_le_lower_bound; [done|]. nia. }
  destruct (Z.ltb_spec (Z.of_nat (length xs * sizeof l + length rest) / Z.of_nat (sizeof l))
    (Z.of_nat (length xs))); [lia|].
  rewrite Nat2Z.id, view_obj_array by done.
  by rewrite <- (obj_array_length l xs), drop_app_length.
Qed.

Lemma objects_u8 bs : objects l_u8 bs = concat (map (le_enc 1) bs).
Proof. reflexivity. Qed.

Lemma u8_objects bs : bytes_ok bs -> objects l_u8 bs = bs /\ Forall (fits l_u8) bs.
Proof.
  induction 1 as [|b bs Hb _ [IH1 IH2]]; [by split; [|constructor]|]. split.
  - change (le_enc 1 b ++ objects l_u8 bs = b :: bs). rewrite IH1.
    unfold le_enc. cbn [app]. f_equal. unfold in_u8 in Hb. apply Z.mod_small. lia.
  - constructor; [|done]. cbn. unfold fits_unsigned, in_u8 in *. cbn. lia.
Qed.

Lemma sectionsFit_exact sections :
  Forall (fun '(count, size) => 0 <= count /\ 0 < size) sections ->
  sectionsFit (foldr (fun '(count, size) total => count * size + total) 0 sections) sections = true.
Proof.
  induction sections as [|[count size] sections IH]; intros Hf; [done|].
  apply Forall_cons_1 in Hf as [[Hc Hs] Hf]. cbn [foldr sectionsFit].
  set (total := foldr _ _ _) in *.
  assert (0 <= total).
  { unfold total. clear -Hf. induction Hf as [|[c z] ? [? ?]]; cbn; nia. }
  destruct (Z.ltb_spec ((count * size + total) / size) count) as [Hlt|_].
  - rewrite Z.div_add_l in Hlt by lia. pose proof (Z.div_pos total size). lia.
  - replace (count * size + total - count * size) with total by lia. auto.
Qed.

Lemma unpack_sections cut : cut_ok cut ->
  (('(sources, payload) ← unpack l_BinaryMarketSource (Z.of_nat (length (cut_sources cut)))
                           (cutPayload cut);
    '(gaps, payload) ← unpack l_BinaryMarketGap (Z.of_nat (length (cut_gaps cut))) payload;
    '(blocks, payload) ← unpack l_CorpusBlockRange (Z.of_nat (length (cut_blocks cut))) payload;
    '(reference, payload) ← unpack l_u8 (Z.of_nat (length (cut_referencePayload cut))) payload;
    Some (sources, gaps, blocks, reference, payload)) =
   Some (cut_sources cut, cut_gaps cut, cut_blocks cut, cut_referencePayload cut, [])) /\
  Z.of_nat (length (cutPayload cut)) =
    foldr (fun '(count, size) total => count * size + total) 0
      [(Z.of_nat (length (cut_sources cut)), sizeofz l_BinaryMarketSource);
       (Z.of_nat (length (cut_gaps cut)), sizeofz l_BinaryMarketGap);
       (Z.of_nat (length (cut_blocks cut)), sizeofz l_CorpusBlockRange);
       (Z.of_nat (length (cut_referencePayload cut)), 1)].
Proof.
  intros Hok. destruct (u8_objects _ (ok_reference _ Hok)) as [Hu Hf].
  unfold cutPayload. split.
  - rewrite unpack_objects by (done || apply Hok). cbn [mbind option_bind].
    rewrite unpack_objects by (done || apply Hok). cbn [mbind option_bind].
    rewrite unpack_objects by (done || apply Hok). cbn [mbind option_bind].
    rewrite <- Hu at 2. rewrite <- (app_nil_r (objects l_u8 _)).
    by rewrite unpack_objects.
  - unfold objects, sizeofz.
    rewrite !length_app, !obj_array_length by apply Hok. cbn [foldr]. lia.
Qed.

Lemma sealed_header_valid cut : cut_ok cut ->
  validCutHeader (sealCutHeader cut) (ch_bytes (sealCutHeader cut)) = true.
Proof.
  intros Hok. destruct (sealCutHeader_ok cut Hok)
    as (Hf & Hhc & Hcrc & Hinv & Hm & Hb & Hs & Hg & Hbl & Hr & Hsc & Heq).
  destruct (unpack_sections cut Hok) as [_ Hlenp]. revert Hhc Hinv Hm Hb Hs Hg Hbl Hr.
  generalize (sealCutHeader cut) as h. intros h Hhc Hinv Hm Hb Hs Hg Hbl Hr.
  unfold validCutHeader. rewrite Hm, <- Hhc, Hinv, !Z.eqb_refl. cbn [negb orb].
  rewrite Hb, Hs, Hg, Hbl, Hr.
  replace (sizeofz l_CutHeader + Z.of_nat (length (cutPayload cut)) - sizeofz l_CutHeader)
    with (Z.of_nat (length (cutPayload cut))) by lia.
  rewrite Hlenp. apply sectionsFit_exact. repeat constructor; lia.
Qed.

Lemma decode_written cut : cut_ok cut -> decodeCorpusCut (cutBytes cut) = (Ok, Some cut).
Proof.
  intros Hok. destruct (sealCutHeader_ok cut Hok)
    as (Hf & Hhc & Hcrc & Hinv & Hm & Hb & Hs & Hg & Hbl & Hr & Hsc & Heq).
  destruct (unpack_sections cut Hok) as [Hun Hlenp]. pose proof (ok_tables _ Hok) as Ht.
  pose proof (sealed_header_valid cut Hok) as Hvalid.
  unfold cutBytes. revert Hf Hcrc Hb Hs Hg Hbl Hr Hsc Heq Hvalid. clear Hhc Hinv Hm.
  generalize (sealCutHeader cut) as h. intros h Hf Hcrc Hb Hs Hg Hbl Hr Hsc Heq Hvalid.
  pose proof (obj_length _ _ Hf) as Hlen. unfold decodeCorpusCut.
  rewrite length_app, Hlen. destruct (Nat.ltb_spec
    (sizeof l_CutHeader + length (cutPayload cut)) (sizeof l_CutHeader)); [lia|].
  rewrite view_obj by done.
  replace (Z.of_nat (sizeof l_CutHeader + length (cutPayload cut))) with (ch_bytes h)
    by (rewrite Hb; unfold sizeofz; lia).
  rewrite Hvalid.
  cbn [negb]. rewrite <- Hlen, drop_app_length, <- Hcrc, Z.eqb_refl. cbn [negb].
  rewrite Hs, Hg, Hbl, Hr.
  destruct (unpack l_BinaryMarketSource _ _) as [[s0 p0]|]; [|done]. cbn [mbind option_bind] in *.
  destruct (unpack l_BinaryMarketGap _ _) as [[s1 p1]|]; [|done]. cbn [mbind option_bind] in *.
  destruct (unpack l_CorpusBlockRange _ _) as [[s2 p2]|]; [|done]. cbn [mbind option_bind] in *.
  destruct (unpack l_u8 _ _) as [[s3 p3]|]; [|done]. cbn [mbind option_bind] in *.
  injection Hun as -> -> -> -> ->. cbn [length Nat.eqb negb]. rewrite Heq, Hsc, Ht. done.
Qed.

(** ** Corruption *)

Lemma crc32c_insert bs i b :
  bytes_ok bs -> in_u8 b -> (i < length bs)%nat ->
  crc32c (<[i := b]> bs) = crc32c bs -> bs !! i = Some b.
Proof.
  intros Hb Hin Hi Heq. destruct (lookup_lt_is_Some_2 bs i Hi) as [x Hx].
  assert (in_u8 x) as Hxin by (by eapply (Forall_lookup_1 _ bs)).
  rewrite insert_take_drop in Heq by done.
  rewrite Hx. f_equal.
  symmetry. apply (crc32c_byte_change (take i bs) (drop (S i) bs)); try done.
  - by apply bytes_ok_take.
  - by apply bytes_ok_drop.
  - by rewrite (take_drop_middle bs i x Hx).
Qed.

(** The bytes that [decodeCorpusCut] checks: the file with its [crc] member zeroed. *)
Definition crcOffset : nat := 864.
Definition crcZeroed (bs : list Z) : list Z :=
  take crcOffset bs ++ [0; 0; 0; 0] ++ drop (crcOffset + 4) bs.

(** The members of [CutHeader] before [crc]. *)
Definition l_beforeCrc := (l_u64 ** l_u64 ** l_u64 ** l_u64 ** l_CorpusProducerProgress **
  l_raw 56 ** l_BinaryMarketManifest ** l_u64 ** l_u64 ** l_u64 ** l_u64)%layout.

Lemma crc_split h : fits l_CutHeader h ->
  exists pre post, length pre = crcOffset /\
    forall x, obj l_CutHeader (h <| ch_crc := x |>) = pre ++ le_enc 4 x ++ post.
Proof.
  intros Hf. exists (obj l_beforeCrc (ch_magic h, ch_bytes h, ch_generation h,
    ch_committedMonotonicNs h, ch_progress h, ch_pad584 h, ch_manifest h, ch_sources h,
    ch_gaps h, ch_blocks h, ch_referenceBytes h)).
  exists (le_enc 4 (ch_headerCrc h) ++ le_enc 4 (ch_sourcesCrc h) ++ le_enc 1 (ch_finalized h) ++
    le_enc 1 (ch_reserved h) ++ ch_pad878 h). split.
  - rewrite obj_length; [reflexivity|].
    destruct Hf as [[[[[[Hf _] _] _] _] _] _]. exact Hf.
  - intros x. rewrite !app_assoc. reflexivity.
Qed.

Lemma zeroed_header bs : bytes_ok bs -> (896 <= length bs)%nat ->
  obj l_CutHeader (view l_CutHeader bs <| ch_crc := 0 |>) ++ drop 896 bs = crcZeroed bs /\
  le_enc 4 (ch_crc (view l_CutHeader bs)) = take 4 (drop crcOffset bs).
Proof.
  intros Hb Hl. pose proof (view_fits l_CutHeader bs Hb Hl) as Hf.
  pose proof (obj_view l_CutHeader bs Hb Hl) as Ho.
  destruct (crc_split _ Hf) as (pre & post & Hpre & Hx). rewrite Hx.
  assert (obj l_CutHeader (view l_CutHeader bs) =
    obj l_CutHeader (view l_CutHeader bs <| ch_crc := ch_crc (view l_CutHeader bs) |>)) as He.
  { apply (f_equal (obj l_CutHeader)). generalize (view l_CutHeader bs) as h. by intros []. }
  rewrite He, Hx in Ho. clear He Hx Hf. generalize dependent (ch_crc (view l_CutHeader bs)).
  intros crc Ho. change (sizeof l_CutHeader) with 896%nat in Ho.
  assert (bs = pre ++ le_enc 4 crc ++ post ++ drop 896 bs) as Hbs.
  { rewrite <- (take_drop 896 bs) at 1. by rewrite <- Ho, <- !app_assoc. }
  unfold crcZeroed. rewrite <- Hpre.
  assert (length (le_enc 4 crc) = 4%nat) as H4 by apply length_le_enc.
  split.
  - rewrite Hbs at 2 3. rewrite take_app_length. rewrite <- !app_assoc. do 2 f_equal.
    rewrite <- drop_drop, drop_app_length, <- H4, drop_app_length. done.
  - rewrite Hbs at 1. by rewrite drop_app_length, <- H4, take_app_length.
Qed.

Lemma decode_crc bs cut :
  bytes_ok bs -> decodeCorpusCut bs = (Ok, Some cut) ->
  (896 <= length bs)%nat /\ le_enc 4 (crc32c (crcZeroed bs)) = take 4 (drop crcOffset bs).
Proof.
  intros Hb. unfold decodeCorpusCut. change (sizeof l_CutHeader) with 896%nat.
  destruct (Nat.ltb_spec (length bs) 896) as [|Hl]; [done|].
  destruct (zeroed_header bs Hb Hl) as [Hz <-]. rewrite <- Hz.
  destruct (negb (validCutHeader _ _)); [done|].
  destruct (Z.eqb_spec (crc32c (obj l_CutHeader (view l_CutHeader bs <| ch_crc := 0 |>) ++
    drop 896 bs)) (ch_crc (view l_CutHeader bs))) as [->|]; done.
Qed.

Lemma insert_zeroed bs i b : (896 <= length bs)%nat ->
  (crcOffset <= i < crcOffset + 4)%nat /\ crcZeroed (<[i := b]> bs) = crcZeroed bs \/
  take 4 (drop crcOffset (<[i := b]> bs)) = take 4 (drop crcOffset bs) /\
  crcZeroed (<[i := b]> bs) = <[i := b]> (crcZeroed bs) /\ crcZeroed bs !! i = bs !! i.
Proof.
  intros Hl. unfold crcZeroed.
  assert (length (take crcOffset bs) = crcOffset) as Ht
    by (rewrite length_take; unfold crcOffset; lia).
  destruct (decide (i < crcOffset)%nat); [|destruct (decide (i < crcOffset + 4)%nat)].
  - right. rewrite !drop_insert_lt, take_insert_lt by lia. split; [done|].
    rewrite insert_app_l, lookup_app_l by (rewrite Ht; lia).
    by rewrite lookup_take_lt.
  - left. split; [lia|]. by rewrite take_insert_ge, drop_insert_lt by lia.
  - right. rewrite !drop_insert_ge, !take_insert_ge by lia. split; [done|].
    assert (length [0; 0; 0; 0]%Z <= i - crcOffset)%nat
      by (change (length [0; 0; 0; 0]) with 4%nat; lia).
    rewrite insert_app_r_alt, Ht by (rewrite Ht; lia). rewrite insert_app_r_alt by done.
    rewrite lookup_app_r, Ht by (rewrite Ht; lia). rewrite lookup_app_r by done.
    replace (i - crcOffset - length [0; 0; 0; 0]%Z)%nat with (i - (crcOffset + 4))%nat
      by (change (length [0; 0; 0; 0]) with 4%nat; lia). split; [done|].
    rewrite lookup_drop. f_equal. lia.
Qed.

Lemma cutBytes_ok cut : cut_ok cut -> bytes_ok (cutBytes cut).
Proof.
  intros Hok. destruct (sealCutHeader_ok cut Hok) as [Hf _].
  apply bytes_ok_app. split; [exact (obj_bytes _ _ Hf)|by apply cutPayload_bytes].
Qed.

(** Any change of one byte of a stored cut is noticed. *)
Lemma cut_byte_change cut i b cut' :
  cut_ok cut -> in_u8 b -> cutBytes cut !! i <> Some b -> (i < length (cutBytes cut))%nat ->
  decodeCorpusCut (<[i := b]> (cutBytes cut)) = (Ok, Some cut') -> False.
Proof.
  intros Hok Hb Hne Hi Hdec. pose proof (cutBytes_ok cut Hok) as Hbs.
  pose proof (decode_written cut Hok) as Hdec0.
  revert Hne Hi Hdec Hbs Hdec0. generalize (cutBytes cut) as bs. intros bs Hne Hi Hdec Hbs Hdec0.
  destruct (decode_crc bs cut Hbs Hdec0) as [Hl Hc].
  assert (bytes_ok (<[i := b]> bs)) as Hbs' by (by apply Forall_insert).
  destruct (decode_crc _ _ Hbs' Hdec) as [_ Hc'].
  destruct (insert_zeroed bs i b Hl) as [[Hr Hz]|(Ht & Hz & Hlk)].
  - rewrite Hz, Hc in Hc'. apply Hne.
    assert (length (take crcOffset bs) = crcOffset) as Ht
      by (rewrite length_take; unfold crcOffset; lia).
    rewrite <- (take_drop crcOffset bs), lookup_app_r by (rewrite Ht; lia).
    rewrite Ht.
    rewrite <- (lookup_take_lt _ 4) by lia. rewrite Hc', lookup_take_lt, lookup_drop by lia.
    replace (crcOffset + (i - crcOffset))%nat with i by lia.
    by apply list_lookup_insert_eq.
  - assert (bytes_ok (crcZeroed bs)) as Hbz.
    { unfold crcZeroed. rewrite !bytes_ok_app. split_and!; auto with machine.
      by apply bytes_okb. }
    rewrite Ht, <- Hc, Hz in Hc'. apply Hne. rewrite <- Hlk. apply crc32c_insert; try done.
    + unfold crcZeroed. rewrite !length_app, length_take, length_drop. cbn [length]. lia.
    + apply (f_equal le_dec) in Hc'. rewrite !le_dec_enc in Hc'; [done|..];
        apply crc32c_range; [done|by apply Forall_insert].
Qed.

End cut.

(** ** The retained cache *)

Record RetainedBlock := MkRetainedBlock {
  rb_segment : Z;
  rb_offset : Z;
  rb_bytes : list Z;
}.

Record CorpusPublication := MkCorpusPublication {
  pub_latest : option CorpusCut;
  pub_blocks : list RetainedBlock;
  pub_capacity : Z;
  pub_retained : Z;
}.
#[export] Instance CorpusPublication_eta : Eta CorpusPublication := fun r =>
  MkCorpusPublication (pub_latest r) (pub_blocks r) (pub_capacity r) (pub_retained r).

Definition newPublication (capacity : Z) : CorpusPublication :=
  MkCorpusPublication None [] capacity 0.

(** The eviction loop of [retain]. *)
Fixpoint evict (blocks : list RetainedBlock) (retained limit : Z)
  : list RetainedBlock * Z :=
  match blocks with
  | [] => ([], retained)
  | block :: rest =>
      if limit <? retained
      then evict rest (retained - Z.of_nat (length (rb_bytes block))) limit
      else (blocks, retained)
  end.

Definition retain (range : CorpusBlockRange) (bytes : list Z) (pub : CorpusPublication)
  : CorpusPublication :=
  let size := Z.of_nat (length bytes) in
  if pub_capacity pub <? size then pub
  else
    let '(blocks, retained) :=
      evict (pub_blocks pub) (pub_retained pub) (pub_capacity pub - size) in
    pub <| pub_blocks := blocks ++ [MkRetainedBlock (rg_segmentNumber range) (rg_offset range) bytes] |>
        <| pub_retained := retained + size |>.

(** [load]: the first block of the range, if it has the size of the output. *)
Definition load (range : CorpusBlockRange) (size : nat) (pub : CorpusPublication)
  : option (list Z) :=
  match list_find (fun block => rb_segment block = rg_segmentNumber range /\
                                rb_offset block = rg_offset range) (pub_blocks pub) with
  | None => None
  | Some (_, block) =>
      if (length (rb_bytes block) =? size)%nat then Some (rb_bytes block) else None
  end.

Definition resident (blocks : list RetainedBlock) : Z :=
  foldr (fun block total => Z.of_nat (length (rb_bytes block)) + total) 0 blocks.

Definition entry (retention : CorpusBlockRange * list Z) : RetainedBlock :=
  MkRetainedBlock (rg_segmentNumber retention.1) (rg_offset retention.1) retention.2.

(** The retentions that fit the capacity at all, in order. *)
Definition retainable (capacity : Z) (history : list (CorpusBlockRange * list Z))
  : list RetainedBlock :=
  map entry (filter (fun r => Z.of_nat (length r.2) <= capacity) history).

Definition retainAll (history : list (CorpusBlockRange * list Z)) (pub : CorpusPublication)
  : CorpusPublication :=
  fold_left (fun pub r => retain r.1 r.2 pub) history pub.

Lemma resident_app a b : resident (a ++ b) = resident a + resident b.
Proof. induction a as [|x a IH]; cbn [app resident foldr]; [done|]. unfold resident in *. lia. Qed.

Lemma resident_nonneg a : 0 <= resident a.
Proof. induction a; cbn; unfold resident in *; lia. Qed.

Lemma evict_spec blocks limit : 0 <= limit ->
  let '(kept, retained) := evict blocks (resident blocks) limit in
  retained = resident kept /\ retained <= limit /\
  exists dropped, blocks = dropped ++ kept /\
    forall earlier block, dropped = earlier ++ [block] -> limit < resident (block :: kept).
Proof.
  intros Hl. induction blocks as [|block rest IH]; cbn [evict].
  - split_and!; [done|done|exists []; split; [done|intros [] ? [=]]].
  - destruct (Z.ltb_spec limit (resident (block :: rest))).
    + replace (resident (block :: rest) - Z.of_nat (length (rb_bytes block)))
        with (resident rest) by (unfold resident; cbn; lia).
      destruct (evict rest _ limit) as [kept retained].
      destruct IH as (? & ? & dropped & -> & Hmax). split_and!; try done. exists (block :: dropped).
      split; [done|]. intros [|first earlier] last [= <- Hlast]; [by subst dropped|by eapply Hmax].
    + split_and!; [done|done|exists []; split; [done|intros [] ? [=]]].
Qed.

(** The accounting of the cache: it holds the longest run of most recent blocks that fits. *)
Definition pub_inv (history : list (CorpusBlockRange * list Z)) (pub : CorpusPublication)
  : Prop :=
  0 <= pub_capacity pub /\ pub_retained pub = resident (pub_blocks pub) /\
  pub_retained pub <= pub_capacity pub /\
  exists dropped, retainable (pub_capacity pub) history = dropped ++ pub_blocks pub /\
    forall earlier block, dropped = earlier ++ [block] -> pub_capacity pub < resident (block :: pub_blocks pub).

Lemma retain_inv history range bytes pub :
  pub_inv history pub -> pub_inv (history ++ [(range, bytes)]) (retain range bytes pub).
Proof.
  intros (H0 & Hr & Hc & dropped & Hd & Hmax).
  assert (retainable (pub_capacity pub) (history ++ [(range, bytes)]) =
    dropped ++ pub_blocks pub ++ (if pub_capacity pub <? Z.of_nat (length bytes) then []
      else [entry (range, bytes)])) as Hnew.
  { unfold retainable in *. rewrite filter_app, map_app, Hd, <- app_assoc. do 2 f_equal.
    destruct (Z.ltb_spec (pub_capacity pub) (Z.of_nat (length bytes))).
    - by rewrite filter_cons_False, filter_nil by (cbn; lia).
    - by rewrite filter_cons_True, filter_nil by (cbn; lia). }
  unfold pub_inv, retain.
  destruct (Z.ltb_spec (pub_capacity pub) (Z.of_nat (length bytes))) as [Hlt|Hle].
  - rewrite app_nil_r in Hnew. rewrite Hnew. split_and!; [done..|]. by exists dropped.
  - rewrite Hr in *.
    pose proof (evict_spec (pub_blocks pub) (pub_capacity pub - Z.of_nat (length bytes))
      ltac:(lia)) as He.
    destruct (evict _ _ _) as [kept retained]. destruct He as (-> & ? & gone & He & Hgone).
    cbn -[retainable resident]. rewrite Hnew, resident_app. split_and!; [done|cbn; lia|cbn; lia|].
    exists (dropped ++ gone). rewrite He, <- !app_assoc. split; [done|].
    intros earlier block Hlast. rewrite app_comm_cons, resident_app. cbn [resident foldr rb_bytes].
    destruct gone as [|last gone _] using rev_ind.
    + rewrite app_nil_r in Hlast. specialize (Hmax _ _ Hlast). rewrite He in Hmax. cbn [app] in Hmax. unfold resident in *. cbn in *. lia.
    + rewrite app_assoc in Hlast. apply app_inj_tail in Hlast as [_ <-]. specialize (Hgone _ _ eq_refl). unfold resident in *. cbn in *. lia.
Qed.

Lemma retainAll_inv capacity history :
  0 <= capacity -> pub_inv history (retainAll history (newPublication capacity)).
Proof.
  intros Hc. induction history as [|r history IH] using rev_ind.
  - split_and!; [done|done|done|]. exists []. split; [done|]. intros [] ? [=].
  - unfold retainAll. rewrite fold_left_app. cbn [fold_left]. rewrite (surjective_pairing r) at 1.
    by apply retain_inv.
Qed.

Lemma retainAll_capacity history capacity :
  pub_capacity (retainAll history (newPublication capacity)) = capacity.
Proof.
  induction history as [|r history IH] using rev_ind; [done|].
  unfold retainAll in *. rewrite fold_left_app. cbn [fold_left]. unfold retain at 1.
  destruct (_ <? _); [done|]. by destruct (evict _ _ _).
Qed.

(** Where a retained block lies. *)
Definition keyOf (block : RetainedBlock) : Z * Z := (rb_segment block, rb_offset block).

(** [load] finds the first resident block of the range and serves it only at its own size. *)
Lemma load_first range n pub bytes :
  load range n pub = Some bytes <-> length bytes = n /\ exists before after,
    pub_blocks pub = before ++ MkRetainedBlock (rg_segmentNumber range) (rg_offset range) bytes :: after /\
    (rg_segmentNumber range, rg_offset range) ∉ map keyOf before.
Proof.
  unfold load. split.
  - destruct (list_find _ _) as [[i [segment offset held]]|] eqn:Ef; [|done]. cbn [rb_bytes].
    destruct (Nat.eqb_spec (length held) n) as [Hn|]; [|done]. intros [= ->]. split; [done|].
    apply list_find_Some in Ef as (Hi & [Hs Ho] & Hfirst). cbn in Hs, Ho. subst segment offset.
    exists (take i (pub_blocks pub)), (drop (S i) (pub_blocks pub)). split; [by rewrite take_drop_middle|].
    intros (block & Hk & Hin)%list_elem_of_fmap. apply list_elem_of_lookup in Hin as [j Hj].
    apply lookup_take_Some in Hj as [Hj Hlt]. apply (Hfirst j block Hj Hlt). unfold keyOf in Hk. by split; congruence.
  - intros (<- & before & after & -> & Hnot). rewrite list_find_app_r.
    + cbn. rewrite decide_True by done. cbn. by rewrite Nat.eqb_refl.
    + apply list_find_None, Forall_forall. intros block Hin [Hs Ho]. apply Hnot, list_elem_of_fmap.
      exists block. split; [unfold keyOf; congruence|done].
Qed.
(** Without two blocks at one place every resident block is served. *)
Lemma load_resident range n pub bytes : NoDup (map keyOf (pub_blocks pub)) ->
  load range n pub = Some bytes <-> length bytes = n /\
    MkRetainedBlock (rg_segmentNumber range) (rg_offset range) bytes ∈ pub_blocks pub.
Proof.
  intros Hnd. rewrite load_first. split; intros [Hn Hin]; (split; [done|]).
  - destruct Hin as (before & after & -> & _). apply elem_of_app. right. left.
  - apply list_elem_of_split in Hin as (before & after & E). exists before, after. split; [done|].
    rewrite E, map_app in Hnd. cbn [map] in Hnd. apply NoDup_app in Hnd as (_ & Hd & _).
    intros Hin. apply (Hd _ Hin). left.
Qed.

(** What is resident was retained, and no place twice unless it was retained twice. *)
Lemma retainable_retained capacity history before segment offset bytes after :
  retainable capacity history = before ++ MkRetainedBlock segment offset bytes :: after ->
  exists retained, (retained, bytes) ∈ history /\ rg_segmentNumber retained = segment /\ rg_offset retained = offset.
Proof.
  intros E. assert (MkRetainedBlock segment offset bytes ∈ retainable capacity history) as Hin
    by (rewrite E; apply elem_of_app; right; left).
  unfold retainable in Hin. apply list_elem_of_fmap in Hin as ([retained held] & Hb & Hin).
  apply list_elem_of_filter in Hin as [_ Hin]. unfold entry in Hb. cbn in Hb. injection Hb as Es Eo Eb. subst. by exists retained.
Qed.
Lemma retainable_places capacity history dropped blocks :
  retainable capacity history = dropped ++ blocks ->
  NoDup (map (fun retention => keyOf (entry retention)) history) -> NoDup (map keyOf blocks).
Proof.
  intros E Hnd. eapply sublist_NoDup; [exact Hnd|].
  transitivity (map keyOf (retainable capacity history)).
  - rewrite E, map_app. apply sublist_inserts_l. done.
  - unfold retainable. rewrite map_map. apply fmap_sublist, sublist_filter.
Qed.

(** ** Claims *)

(** A durable cut decodes to itself: for every cut that meets the format's own
    contract, decoding the bytes [writeCorpusCut] stores yields the same
    generation, progress, manifest, sources, gaps, block references, reference
    payload and finalized mark. *)
Theorem cut_roundtrip `{ByteBlockCodec} cut w w' :
  cut_ok cut -> writeCorpusCut cut w = (Ok, w') ->
  exists bytes, w_files w' (RootFile "cut.bin") = Some bytes /\
    decodeCorpusCut bytes = (Ok, Some cut).
Proof.
  intros Hok Hw. exists (cutBytes cut). split; [|by apply decode_written].
  unfold writeCorpusCut in Hw. destruct (replaceFile _ _ _ w) as [[] w1] eqn:E; [|done].
  injection Hw as <-. apply replaceFile_atomic in E as (_ & _ & Hs); [|done].
  rewrite (Hs eq_refl). cbn [concat]. by rewrite app_nil_r.
Qed.

(** No single-byte corruption of a stored cut is accepted: whichever byte
    of the file is replaced by a different value, header and checksum fields
    included, [decodeCorpusCut] does not return a cut. *)
Theorem cut_corruption_rejected `{ByteBlockCodec} cut (i : nat) (b : Z) :
  cut_ok cut -> in_u8 b -> (i < length (cutBytes cut))%nat -> cutBytes cut !! i <> Some b ->
  forall cut', decodeCorpusCut (<[i := b]> (cutBytes cut)) <> (Ok, Some cut').
Proof. intros Hok Hb Hi Hne cut' Hdec. by eapply cut_byte_change. Qed.

(** C29: The cache of compressed blocks is bounded, as full as its capacity allows and honest.
    After any sequence of retentions it accounts for exactly the bytes it holds, holds no more
    than its capacity, and consists of the longest run of the most recent blocks that fits:
    one block more would exceed the capacity. What [load] serves has the size asked for and is
    what was retained for that very segment and offset; when no place was retained twice,
    [load] serves exactly the resident blocks at their own size, each unchanged, and nothing
    else. A block that was just retained and is new is served. *)
Theorem retained_cache_bounded capacity history range bytes :
  0 <= capacity ->
  let pub := retainAll history (newPublication capacity) in
  pub_retained pub = resident (pub_blocks pub) /\ resident (pub_blocks pub) <= capacity /\
  (exists dropped, retainable capacity history = dropped ++ pub_blocks pub /\
     forall earlier block, dropped = earlier ++ [block] -> capacity < resident (block :: pub_blocks pub)) /\
  (forall asked n served, load asked n pub = Some served -> length served = n /\
     exists retained, (retained, served) ∈ history /\
       rg_segmentNumber retained = rg_segmentNumber asked /\ rg_offset retained = rg_offset asked) /\
  (NoDup (map (fun retention => keyOf (entry retention)) history) -> forall asked n served,
     load asked n pub = Some served <->
     length served = n /\
     MkRetainedBlock (rg_segmentNumber asked) (rg_offset asked) served ∈ pub_blocks pub) /\
  (Z.of_nat (length bytes) <= capacity ->
   Forall (fun block => ~ (rb_segment block = rg_segmentNumber range /\
                           rb_offset block = rg_offset range)) (pub_blocks pub) ->
   load range (length bytes) (retain range bytes pub) = Some bytes).
Proof.
  intros Hc pub. destruct (retainAll_inv capacity history Hc) as (_ & Hr & Hle & dropped & Hd & Hmax).
  pose proof (retainAll_capacity history capacity) as Hcap. fold pub in Hr, Hle, Hd, Hmax, Hcap.
  rewrite Hcap in *. split_and!; [done|lia|by exists dropped|..].
  - intros asked n served (Hn & before & after & E & _)%load_first. split; [done|].
    rewrite E, app_assoc in Hd. by apply (retainable_retained _ _ _ _ _ _ _ Hd).
  - intros Hnd asked n served. apply load_resident. by eapply retainable_places.
  - intros Hb Hnew. unfold retain. rewrite Hcap.
    destruct (Z.ltb_spec capacity (Z.of_nat (length bytes))); [lia|].
    pose proof (evict_spec (pub_blocks pub) (capacity - Z.of_nat (length bytes)) ltac:(lia)) as He.
    rewrite <- Hr in He. destruct (evict _ _ _) as [kept retained]. destruct He as (_ & _ & gone & He & _).
    apply load_first. split; [done|]. exists kept, []. split; [done|].
    intros (block & Hk & Hin)%list_elem_of_fmap. rewrite He in Hnew. apply Forall_app in Hnew as [_ Hnew].
    apply (proj1 (Forall_forall _ _) Hnew block Hin). unfold keyOf in Hk. by split; congruence.
Qed.

(** ** Witnesses *)

Import Stored.

Definition sampleProgress : CorpusProducerProgress :=
  MkCorpusProducerProgress 7 0 0 0 (replicate 64 0) 1 (zeros 6).

Definition sampleCut : CorpusCut :=
  MkCorpusCut 1 9 sampleProgress
    (sampleManifest <| mf_headerBytes := 192 |>) [sampleSource] [] [] [1; 2; 3] true.

Lemma sampleCut_ok : cut_ok sampleCut.
Proof.
  split.
  - split; [done|reflexivity].
  - split; [done|reflexivity].
  - apply fits_checked; vm_compute; reflexivity.
  - apply fits_checked; vm_compute; reflexivity.
  - apply Forall_cons_2; [apply sampleSource_fits|apply Forall_nil_2].
  - apply Forall_nil_2.
  - apply Forall_nil_2.
  - apply bytes_okb. reflexivity.
  - vm_compute. reflexivity.
  - vm_compute. reflexivity.
Qed.

Lemma cut_roundtrip_witness :
  exists bytes, w_files (writeCorpusCut sampleCut emptyWorld).2 (RootFile "cut.bin") = Some bytes /\
    decodeCorpusCut bytes = (Ok, Some sampleCut).
Proof.
  apply (cut_roundtrip sampleCut emptyWorld); [apply sampleCut_ok|].
  unfold writeCorpusCut. vm_compute. reflexivity.
Defined.

Lemma cut_corruption_rejected_witness :
  decodeCorpusCut (<[100%nat := 77]> (cutBytes sampleCut)) <> (Ok, Some sampleCut).
Proof.
  apply cut_corruption_rejected; [apply sampleCut_ok|by split|..].
  - apply Nat.ltb_lt. vm_compute. reflexivity.
  - vm_compute. discriminate.
Defined.

(** Three retentions of six, five and four bytes in a cache of ten bytes. *)
Definition sampleRange (offset : Z) : CorpusBlockRange :=
  view l_CorpusBlockRange (zeros 96) <| rg_segmentNumber := 1 |> <| rg_offset := offset |>.
Definition sampleHistory : list (CorpusBlockRange * list Z) :=
  [(sampleRange 128, zeros 6); (sampleRange 256, replicate 5 1); (sampleRange 384, replicate 4 2)].

Lemma retained_cache_bounded_witness :
  let pub := retainAll sampleHistory (newPublication 10) in
  (map rb_offset (pub_blocks pub) = [256; 384]) /\
  resident (pub_blocks pub) <= 10 /\
  (load (sampleRange 256) 5 pub = Some (replicate 5 1) /\ load (sampleRange 384) 4 pub = Some (replicate 4 2)) /\
  load (sampleRange 512) 3 (retain (sampleRange 512) [7; 8; 9] pub) = Some [7; 8; 9].
Proof.
  destruct (retained_cache_bounded 10 sampleHistory (sampleRange 512) [7; 8; 9] ltac:(lia))
    as (_ & Hle & _ & _ & Hserved & Hload).
  specialize (Hserved ltac:(apply (bool_decide_unpack _); vm_compute; exact I)).
  split; [vm_compute; reflexivity|]. split; [exact Hle|]. split; [|apply Hload; [cbn; lia|]].
  - split; apply Hserved; (split; [reflexivity|]); vm_compute; [left|right; left].
  - vm_compute. repeat (apply Forall_cons_2; [intros [_ E]; discriminate E|]). apply Forall_nil_2.
Defined.
