(* ===== verification/Segment.v ===== *)
(** * Segment: compressed segment files

    Models the block and segment images that [flushBlock] and [sealSegment] of
    src/src/Runtime/src/Corpus/BinaryMarketCorpusWriter.cpp write, and the
    [SegmentDecoder] of BinaryMarketCorpusReader.cpp that reads them back.

    Theorems: the decoder accepts every sealed image of a well-ordered list of
    blocks and returns exactly the records that were put into it, in order, and
    then reports the end; a record it returns has passed the row checks. *)
From stdpp Require Import base list numbers.
From S2P Require Import Prelude Codec Layout Format Metadata BlockCodec Cut Samples.
Import Crc32c.
Local Open Scope Z_scope.

(** [BinaryMarketSegmentHeader{}], [BinaryMarketBlockHeader{}] and
    [BinaryMarketSegmentFooter{}] with the members' default initializers. *)
Definition segmentHeader0 : BinaryMarketSegmentHeader :=
  MkBinaryMarketSegmentHeader kBinaryMarketSegmentMagic 0 [0; 0] 0 0 0 0 0 0 0 0 0 0
    (replicate 4 0) 0 0 1 (replicate 48 0).
Definition blockHeader0 : BinaryMarketBlockHeader :=
  MkBinaryMarketBlockHeader kBinaryMarketBlockMagic 64 [0; 0] 0 0 0 0 0 0 0 0 0
    Channel.BookTicker (replicate 11 0).
Definition segmentFooter0 : BinaryMarketSegmentFooter :=
  MkBinaryMarketSegmentFooter kBinaryMarketSegmentFooterMagic 0 [0; 0] 0 0 0 0 0 0
    (replicate 20 0).

Definition segmentHeaderCrc (h : BinaryMarketSegmentHeader) : Z :=
  headerCrc l_BinaryMarketSegmentHeader (h <| sh_headerCrc32c := 0 |>).
Definition segmentFooterCrc (f : BinaryMarketSegmentFooter) : Z :=
  headerCrc l_BinaryMarketSegmentFooter (f <| sf_footerCrc32c := 0 |>).

(** The footer of [sealSegment]. *)
Definition sealFooter (h : BinaryMarketSegmentHeader) : BinaryMarketSegmentFooter :=
  let f := segmentFooter0
    <| sf_footerBytes := sizeofz l_BinaryMarketSegmentFooter |>
    <| sf_segmentNumber := sh_segmentNumber h |>
    <| sf_recordsCrc32c := sh_recordsCrc32c h |> <| sf_recordCount := sh_recordCount h |>
    <| sf_firstReceiveNs := sh_firstReceiveNs h |> <| sf_lastReceiveNs := sh_lastReceiveNs h |> in
  f <| sf_footerCrc32c := segmentFooterCrc f |>.

Definition sealHeader (h : BinaryMarketSegmentHeader) : BinaryMarketSegmentHeader :=
  h <| sh_headerCrc32c := segmentHeaderCrc h |>.

(** The payload bytes beyond [payloadBytes] are zero. *)
Definition tailZero (record : BinaryMarketRecord) : bool :=
  zero_bytes (drop (Z.to_nat (h_payloadBytes (rec_header record))) (rec_payload record)).

Section segment.
Context `{CxetMarket} `{ByteBlockCodec}.

(** [segment.encoded.size()] *)
Definition encodedCapacity : Z :=
  byteBlockEncodeBound (binaryMarketBlockLayout Channel.Depth) kBinaryMarketBlockRecords.

(** The block [flushBlock] builds from the pending records of a segment whose
    header counts [blockCount] blocks. *)
Definition encodeBlock (blockCount : Z) (pending : list BinaryMarketRecord)
  : option (BinaryMarketBlockHeader * list Z) :=
  match list.head pending, list.last pending with
  | Some first, Some final =>
      let channel := h_channel (rec_header first) in
      let raw := objects l_BinaryMarketRecord pending in
      encoded ← encodeByteBlock (binaryMarketBlockLayout channel) raw;
      if (length encoded =? 0)%nat || (encodedCapacity <? Z.of_nat (length encoded)) ||
         (blockCount =? u32_max) then None
      else
        let block := blockHeader0
          <| bh_blockNumber := u32 (blockCount + 1) |>
          <| bh_recordCount := u32 (Z.of_nat (length pending)) |>
          <| bh_rawBytes := u32 (Z.of_nat (length raw)) |>
          <| bh_encodedBytes := u32 (Z.of_nat (length encoded)) |>
          <| bh_rawCrc32c := crc32c raw |> <| bh_encodedCrc32c := crc32c encoded |>
          <| bh_firstShardSequence := h_shardSequence (rec_header first) |>
          <| bh_lastShardSequence := h_shardSequence (rec_header final) |>
          <| bh_channel := channel |> in
        Some (block <| bh_headerCrc32c := blockHeaderCrc block |>, encoded)
  | _, _ => None
  end.

(** ** The decoder *)

Record SegmentDecoder := MkSegmentDecoder {
  sd_content : list Z;
  sd_stream : nat;
  sd_header : BinaryMarketSegmentHeader;
  sd_decoded : list BinaryMarketRecord;
  sd_position : nat;
  sd_count : nat;
  sd_recordsSeen : Z;
  sd_bodyBytes : Z;
  sd_previousSequence : Z;
  sd_previousMonotonic : Z;
  sd_blocksSeen : Z;
  sd_recordsCrc : Z;
  sd_firstReceive : Z;
  sd_lastReceive : Z;
  sd_finished : bool;
}.
#[export] Instance SegmentDecoder_eta : Eta SegmentDecoder := fun r =>
  MkSegmentDecoder (sd_content r) (sd_stream r) (sd_header r) (sd_decoded r) (sd_position r)
    (sd_count r) (sd_recordsSeen r) (sd_bodyBytes r) (sd_previousSequence r)
    (sd_previousMonotonic r) (sd_blocksSeen r) (sd_recordsCrc r) (sd_firstReceive r)
    (sd_lastReceive r) (sd_finished r).

(** The header conditions of [SegmentDecoder::open]. *)
Definition segmentHeaderInvalid (h : BinaryMarketSegmentHeader) (number shard epoch : Z)
  (fileBytes : Z) : bool :=
  negb (sh_magic h =? kBinaryMarketSegmentMagic) ||
  negb (sh_headerBytes h =? sizeofz l_BinaryMarketSegmentHeader) ||
  negb (sh_recordBytes h =? bl_recordBytes (binaryMarketBlockLayout Channel.Depth)) ||
  (sh_recordCount h =? 0) || (sh_blockCount h =? 0) ||
  (sh_recordCount h <? sh_blockCount h) || negb (sh_codecId h =? 1) ||
  (sh_firstReceiveNs h <=? 0) || (sh_lastReceiveNs h <? sh_firstReceiveNs h) ||
  negb (sh_segmentNumber h =? number) || negb (sh_shardIndex h =? shard) ||
  negb (sh_producerEpoch h =? epoch) || negb (sh_reserved16 h =? 0) ||
  negb (zero_bytes (sh_reserved h)) || negb (sh_headerCrc32c h =? segmentHeaderCrc h) ||
  (u64_max - sizeofz l_BinaryMarketSegmentHeader - sizeofz l_BinaryMarketSegmentFooter <?
     sh_storedBlockBytes h) ||
  negb (fileBytes =? sizeofz l_BinaryMarketSegmentHeader + sh_storedBlockBytes h +
          sizeofz l_BinaryMarketSegmentFooter).

(** [SegmentDecoder::open] on the content of the segment file. *)
Definition decoderOpen (file : option (list Z)) (number shard epoch : Z)
  : option SegmentDecoder :=
  content ← file;
  header ← view l_BinaryMarketSegmentHeader <$>
             readBytes content 0 (sizeof l_BinaryMarketSegmentHeader);
  if segmentHeaderInvalid header number shard epoch (Z.of_nat (length content)) then None
  else if negb workspacePrepare then None
  else Some (MkSegmentDecoder content (sizeof l_BinaryMarketSegmentHeader) header
    [] 0 0 0 0 0 0 0 0 0 0 false).

(** The footer conditions of [SegmentDecoder::next]. *)
Definition footerInvalid (d : SegmentDecoder) (f : BinaryMarketSegmentFooter) : bool :=
  let h := sd_header d in
  negb (sf_magic f =? kBinaryMarketSegmentFooterMagic) ||
  negb (sf_footerBytes f =? sizeofz l_BinaryMarketSegmentFooter) ||
  negb (sf_segmentNumber f =? sh_segmentNumber h) ||
  negb (sf_recordCount f =? sh_recordCount h) ||
  negb (sf_recordsCrc32c f =? sh_recordsCrc32c h) ||
  negb (sf_firstReceiveNs f =? sh_firstReceiveNs h) ||
  negb (sf_lastReceiveNs f =? sh_lastReceiveNs h) || negb (zero_bytes (sf_reserved f)) ||
  negb (sf_footerCrc32c f =? segmentFooterCrc f) ||
  negb (sd_recordsSeen d =? sh_recordCount h) ||
  negb (sd_bodyBytes d =? sh_storedBlockBytes h) ||
  negb (sd_recordsCrc d =? sh_recordsCrc32c h) ||
  negb (sd_firstReceive d =? sh_firstReceiveNs h) ||
  negb (sd_lastReceive d =? sh_lastReceiveNs h).

(** The block header conditions of [SegmentDecoder::next]. *)
Definition blockInvalid (d : SegmentDecoder) (b : BinaryMarketBlockHeader) : bool :=
  let h := sd_header d in
  negb (bh_magic b =? kBinaryMarketBlockMagic) ||
  negb (bh_headerBytes b =? sizeofz l_BinaryMarketBlockHeader) ||
  negb (bh_blockNumber b =? u32 (sd_blocksSeen d + 1)) || (bh_recordCount b =? 0) ||
  (kBinaryMarketBlockRecords <? bh_recordCount b) ||
  negb (bh_rawBytes b =? u32 (bh_recordCount b * sh_recordBytes h)) ||
  negb (validBinaryMarketRecordChannel (bh_channel b)) || (bh_encodedBytes b =? 0) ||
  (byteBlockEncodeBound (binaryMarketBlockLayout (bh_channel b)) (bh_recordCount b) <?
     bh_encodedBytes b) ||
  negb (zero_bytes (bh_reserved b)) || (bh_firstShardSequence b =? 0) ||
  (bh_lastShardSequence b <? bh_firstShardSequence b) ||
  negb (bh_headerCrc32c b =? blockHeaderCrc b) ||
  (sh_storedBlockBytes h <? sd_bodyBytes d) ||
  (sh_storedBlockBytes h - sd_bodyBytes d <?
     sizeofz l_BinaryMarketBlockHeader + bh_encodedBytes b) ||
  (sh_recordCount h <? sd_recordsSeen d) ||
  (sh_recordCount h - sd_recordsSeen d <? bh_recordCount b).

(** One row of a decoded block. *)
Definition rowInvalid (channel shardIndex sources previousSequence previousMonotonic : Z)
  (row : BinaryMarketRecord) : bool :=
  let h := rec_header row in
  negb (validBinaryMarketRecord row) || negb (h_channel h =? channel) ||
  negb (h_shardIndex h =? shardIndex) || (sources <? h_sourceId h) ||
  (negb (previousSequence =? 0) && (h_shardSequence h <=? previousSequence)) ||
  (negb (previousMonotonic =? 0) && (h_receiveMonotonicNs h <? previousMonotonic)) ||
  negb (tailZero row).

(** The row loop: it updates the order fences and the receive range. *)
Fixpoint checkRows (channel sources : Z) (rows : list BinaryMarketRecord) (d : SegmentDecoder)
  : option SegmentDecoder :=
  match rows with
  | [] => Some d
  | row :: rows =>
      let h := rec_header row in
      if rowInvalid channel (sh_shardIndex (sd_header d)) sources (sd_previousSequence d)
           (sd_previousMonotonic d) row then None
      else checkRows channel sources rows
        (d <| sd_previousSequence := h_shardSequence h |>
           <| sd_previousMonotonic := h_receiveMonotonicNs h |>
           <| sd_firstReceive ::= fun first =>
                if (first =? 0) || (h_receiveRealtimeNs h <? first)
                then h_receiveRealtimeNs h else first |>
           <| sd_lastReceive ::= fun last => Z.max last (h_receiveRealtimeNs h) |>)
  end.

(** Lines 226-271 of the reader: read, check and decode the next block. *)
Definition decodeBlock (d : SegmentDecoder) (sources : Z) : option SegmentDecoder :=
  b ← view l_BinaryMarketBlockHeader <$>
        readBytes (sd_content d) (sd_stream d) (sizeof l_BinaryMarketBlockHeader);
  if blockInvalid d b then None
  else
    let body := (sd_stream d + sizeof l_BinaryMarketBlockHeader)%nat in
    let n := Z.to_nat (bh_encodedBytes b) in
    encoded ← readBytes (sd_content d) body n;
    if negb (crc32c encoded =? bh_encodedCrc32c b) then None
    else
      raw ← decodeByteBlock (binaryMarketBlockLayout (bh_channel b)) encoded
              (Z.to_nat (bh_rawBytes b));
      if negb (Z.of_nat (length raw) =? bh_rawBytes b) ||
         negb (crc32c raw =? bh_rawCrc32c b) then None
      else
        let rows := view_array l_BinaryMarketRecord (Z.to_nat (bh_recordCount b)) raw in
        if negb (bool_decide (h_shardSequence ∘ rec_header <$> list.head rows =
                              Some (bh_firstShardSequence b))) ||
           negb (bool_decide (h_shardSequence ∘ rec_header <$> list.last rows =
                              Some (bh_lastShardSequence b))) then None
        else
          d ← checkRows (bh_channel b) sources rows d;
          Some (d <| sd_stream := (body + n)%nat |> <| sd_decoded := rows |>
                  <| sd_recordsCrc ::= fun crc => crc32cUpdate crc raw |>
                  <| sd_recordsSeen ::= fun seen => u64 (seen + bh_recordCount b) |>
                  <| sd_bodyBytes ::= fun bytes => u64 (bytes +
                       (sizeofz l_BinaryMarketBlockHeader + bh_encodedBytes b)) |>
                  <| sd_blocksSeen ::= fun seen => u32 (seen + 1) |>
                  <| sd_position := 0%nat |>
                  <| sd_count := Z.to_nat (bh_recordCount b) |>).

(** [copyBinaryMarketRecord(record, decoded[position++])] *)
Definition takeRow (d : SegmentDecoder) : option (option BinaryMarketRecord * SegmentDecoder) :=
  row ← sd_decoded d !! sd_position d;
  Some (Some row, d <| sd_position ::= S |>).

(** [SegmentDecoder::next]: [None] is [false]; the record is absent at the end. *)
Definition decoderNext (d : SegmentDecoder) (sources : Z)
  : option (option BinaryMarketRecord * SegmentDecoder) :=
  if sd_finished d then Some (None, d)
  else if (sd_position d =? sd_count d)%nat then
    if sd_blocksSeen d =? sh_blockCount (sd_header d) then
      f ← view l_BinaryMarketSegmentFooter <$>
            readBytes (sd_content d) (sd_stream d) (sizeof l_BinaryMarketSegmentFooter);
      if footerInvalid d f then None else Some (None, d <| sd_finished := true |>)
    else d ← decodeBlock d sources; takeRow d
  else takeRow d.

(** Every record of a segment, or [None] if the decoder rejects it; [fuel] bounds
    the number of [next] calls. *)
Fixpoint decodeAll (fuel : nat) (d : SegmentDecoder) (sources : Z)
  : option (list BinaryMarketRecord * SegmentDecoder) :=
  match fuel with
  | O => None
  | S fuel =>
      '(row, d) ← decoderNext d sources;
      match row with
      | None => Some ([], d)
      | Some row => '(rows, d) ← decodeAll fuel d sources; Some (row :: rows, d)
      end
  end.

(** ** Well-ordered rows *)

Definition rowOk (shard sources ps pm : Z) (row : BinaryMarketRecord) : Prop :=
  fits l_BinaryMarketRecord row /\ validBinaryMarketRecord row = true /\
  h_shardIndex (rec_header row) = shard /\ h_sourceId (rec_header row) <= sources /\
  tailZero row = true /\ (ps = 0 \/ ps < h_shardSequence (rec_header row)) /\
  (pm = 0 \/ pm <= h_receiveMonotonicNs (rec_header row)).

(** Rows of one shard in arrival order, after a row with fences [ps] and [pm]. *)
Fixpoint chain (shard sources ps pm : Z) (rows : list BinaryMarketRecord) : Prop :=
  match rows with
  | [] => True
  | row :: rows => rowOk shard sources ps pm row /\
      chain shard sources (h_shardSequence (rec_header row))
        (h_receiveMonotonicNs (rec_header row)) rows
  end.

Definition lastSequence (ps : Z) (rows : list BinaryMarketRecord) : Z :=
  default ps (h_shardSequence ∘ rec_header <$> list.last rows).
Definition lastMonotonic (pm : Z) (rows : list BinaryMarketRecord) : Z :=
  default pm (h_receiveMonotonicNs ∘ rec_header <$> list.last rows).

(** The receive range of a list of rows. *)
Definition earlier (first : Z) (row : BinaryMarketRecord) : Z :=
  let r := h_receiveRealtimeNs (rec_header row) in
  if (first =? 0) || (r <? first) then r else first.
Definition later (last : Z) (row : BinaryMarketRecord) : Z :=
  Z.max last (h_receiveRealtimeNs (rec_header row)).
Definition firstReceive (first : Z) (rows : list BinaryMarketRecord) : Z :=
  fold_left earlier rows first.
Definition lastReceive (last : Z) (rows : list BinaryMarketRecord) : Z :=
  fold_left later rows last.

Lemma last_cons_default {B} (f : BinaryMarketRecord -> B) d row rows :
  default d (f <$> list.last (row :: rows)) = default (f row) (f <$> list.last rows).
Proof.
  destruct rows as [|r rows]; [done|].
  change (list.last (row :: r :: rows)) with (list.last (r :: rows)).
  destruct (list.last (r :: rows)) eqn:E; [done|]. by apply last_None in E.
Qed.

Lemma lastSequence_cons ps row rows :
  lastSequence ps (row :: rows) = lastSequence (h_shardSequence (rec_header row)) rows.
Proof. apply (last_cons_default (h_shardSequence ∘ rec_header)). Qed.

Lemma lastMonotonic_cons pm row rows :
  lastMonotonic pm (row :: rows) = lastMonotonic (h_receiveMonotonicNs (rec_header row)) rows.
Proof. apply (last_cons_default (h_receiveMonotonicNs ∘ rec_header)). Qed.

Lemma chain_app shard sources a b : forall ps pm,
  chain shard sources ps pm (a ++ b) <->
  chain shard sources ps pm a /\ chain shard sources (lastSequence ps a) (lastMonotonic pm a) b.
Proof.
  induction a as [|row a IH]; intros ps pm; [cbn; tauto|].
  cbn [app chain]. rewrite IH, lastSequence_cons, lastMonotonic_cons. tauto.
Qed.

Lemma lastSequence_app ps a b : lastSequence ps (a ++ b) = lastSequence (lastSequence ps a) b.
Proof.
  revert ps. induction a as [|row a IH]; intros ps; [done|].
  cbn [app]. by rewrite !lastSequence_cons, IH.
Qed.

Lemma lastMonotonic_app pm a b : lastMonotonic pm (a ++ b) = lastMonotonic (lastMonotonic pm a) b.
Proof.
  revert pm. induction a as [|row a IH]; intros pm; [done|].
  cbn [app]. by rewrite !lastMonotonic_cons, IH.
Qed.

Lemma chain_fits shard sources rows : forall ps pm,
  chain shard sources ps pm rows -> Forall (fits l_BinaryMarketRecord) rows.
Proof.
  induction rows as [|row rows IH]; intros ps pm; [by constructor|].
  intros [[Hf _] Hc]. constructor; eauto.
Qed.

(** A valid header carries a shard sequence and a receive stamp. *)
Lemma valid_row_fences row : validBinaryMarketRecord row = true ->
  h_shardSequence (rec_header row) <> 0 /\ h_receiveMonotonicNs (rec_header row) <> 0 /\
  0 < h_receiveRealtimeNs (rec_header row) /\
  validBinaryMarketRecordChannel (h_channel (rec_header row)) = true.
Proof.
  unfold validBinaryMarketRecord. intros Hv.
  do 4 (let E := fresh in on_if E in Hv; [done|]). unfold validRecordHeader in Hv. by bsplit.
Qed.

(** The row loop accepts an ordered block and computes its fences. *)
Lemma checkRows_chain channel sources rows : forall d,
  chain (sh_shardIndex (sd_header d)) sources (sd_previousSequence d) (sd_previousMonotonic d) rows ->
  Forall (fun row => h_channel (rec_header row) = channel) rows ->
  checkRows channel sources rows d = Some
    (d <| sd_previousSequence := lastSequence (sd_previousSequence d) rows |>
       <| sd_previousMonotonic := lastMonotonic (sd_previousMonotonic d) rows |>
       <| sd_firstReceive := firstReceive (sd_firstReceive d) rows |>
       <| sd_lastReceive := lastReceive (sd_lastReceive d) rows |>).
Proof.
  induction rows as [|row rows IH]; intros d Hc Hch; [by destruct d|].
  cbn [checkRows chain] in *. destruct Hc as [(Hf & Hv & Hs & Hid & Ht & Hps & Hpm) Hc].
  apply Forall_cons_1 in Hch as [Hrc Hch].
  assert (rowInvalid channel (sh_shardIndex (sd_header d)) sources (sd_previousSequence d)
    (sd_previousMonotonic d) row = false) as ->.
  { unfold rowInvalid. rewrite Hv, Hrc, Hs, Ht, !Z.eqb_refl. cbn [negb orb].
    repeat (apply orb_false_intro); try done; [apply Z.ltb_ge; lia|..].
    - destruct Hps as [->|]; [done|]. apply andb_false_intro2, Z.leb_gt. lia.
    - destruct Hpm as [->|]; [done|]. apply andb_false_intro2, Z.ltb_ge. lia. }
  rewrite IH; [|done|done]. rewrite lastSequence_cons, lastMonotonic_cons. by destruct d.
Qed.

(** ** Block images *)

Lemma sealed_blockHeader b :
  blockHeaderCrc (b <| bh_headerCrc32c := blockHeaderCrc b |>) = blockHeaderCrc b.
Proof. generalize (blockHeaderCrc b) at 1. intros crc. unfold blockHeaderCrc. f_equal. Qed.

Lemma BlockHeader_fits b :
  in_u32 (bh_magic b) /\ in_u16 (bh_headerBytes b) /\ fits (l_raw 2) (bh_pad6 b) /\
  in_u32 (bh_blockNumber b) /\ in_u32 (bh_recordCount b) /\ in_u32 (bh_rawBytes b) /\
  in_u32 (bh_encodedBytes b) /\ in_u32 (bh_rawCrc32c b) /\ in_u32 (bh_encodedCrc32c b) /\
  in_u64 (bh_firstShardSequence b) /\ in_u64 (bh_lastShardSequence b) /\
  in_u32 (bh_headerCrc32c b) /\ in_u8 (bh_channel b) /\ fits (l_raw 11) (bh_reserved b) ->
  fits l_BinaryMarketBlockHeader b.
Proof.
  intros Hh. unfold in_u64, in_u32, in_u16, in_u8 in Hh. repeat split; apply Hh.
Qed.

Lemma record_bounds r : fits l_BinaryMarketRecord r ->
  in_u64 (h_shardSequence (rec_header r)) /\ in_u8 (h_channel (rec_header r)) /\
  in_u64 (h_receiveMonotonicNs (rec_header r)) /\ in_i64 (h_receiveRealtimeNs (rec_header r)) /\
  length (obj l_BinaryMarketRecord r) = 1024%nat.
Proof.
  intros Hf. rewrite obj_length by done. destruct r as [hd pl pd]. destruct Hf as [[Hf _] _].
  destruct hd. cbn in Hf. unfold fits_unsigned in Hf. cbn in *. intuition (done || mlia).
Qed.

Lemma records_length rows : Forall (fits l_BinaryMarketRecord) rows ->
  length (objects l_BinaryMarketRecord rows) = (length rows * 1024)%nat.
Proof. intros Hf. exact (obj_array_length _ _ Hf). Qed.

(** What [flushBlock] stores for [rows] as block number [n + 1]. *)
Record block_of (n : Z) (rows : list BinaryMarketRecord) (b : BinaryMarketBlockHeader)
  (encoded : list Z) : Prop := {
  bo_fits : fits l_BinaryMarketBlockHeader b;
  bo_encode : encodeByteBlock (binaryMarketBlockLayout (bh_channel b))
                (objects l_BinaryMarketRecord rows) = Some encoded;
  bo_nonempty : encoded <> [];
  bo_channel : h_channel ∘ rec_header <$> list.head rows = Some (bh_channel b);
  bo_first : h_shardSequence ∘ rec_header <$> list.head rows = Some (bh_firstShardSequence b);
  bo_last : h_shardSequence ∘ rec_header <$> list.last rows = Some (bh_lastShardSequence b);
  bo_fields : bh_magic b = kBinaryMarketBlockMagic /\ bh_headerBytes b = 64 /\
    bh_blockNumber b = n + 1 /\ bh_recordCount b = Z.of_nat (length rows) /\
    bh_rawBytes b = Z.of_nat (length rows) * 1024 /\
    bh_encodedBytes b = Z.of_nat (length encoded) /\
    bh_rawCrc32c b = crc32c (objects l_BinaryMarketRecord rows) /\
    bh_encodedCrc32c b = crc32c encoded /\ bh_reserved b = replicate 11 0 /\
    bh_headerCrc32c b = blockHeaderCrc b;
}.

Context `{!ByteBlockLaws H0}.

Lemma encodeBlock_block_of n rows b encoded :
  0 <= n -> in_u32 (n + 1) -> (length rows <= 256)%nat ->
  Forall (fits l_BinaryMarketRecord) rows ->
  encodeBlock n rows = Some (b, encoded) -> block_of n rows b encoded.
Proof.
  intros Hn Hn1 Hlen Hf. unfold encodeBlock.
  destruct (list.head rows) as [first|] eqn:Eh; [|done].
  destruct (list.last rows) as [final|] eqn:El; [|done].
  assert (fits l_BinaryMarketRecord first) as Hff
    by (destruct rows; [done|]; injection Eh as <-; by apply Forall_cons_1 in Hf as [? _]).
  assert (fits l_BinaryMarketRecord final) as Hfl.
  { apply last_Some in El as [pre ->]. apply Forall_app in Hf as [_ Hf].
    by apply Forall_cons_1 in Hf as [? _]. }
  destruct (record_bounds _ Hff) as (Hs1 & Hc1 & _).
  destruct (record_bounds _ Hfl) as (Hs2 & _ & _).
  pose proof (records_length _ Hf) as Hraw.
  pose proof (crc32c_range _ (obj_array_bytes _ _ Hf)) as Hcr.
  fold (objects l_BinaryMarketRecord rows) in Hcr.
  destruct (encodeByteBlock _ _) as [enc|] eqn:Ee; [|done]. cbn [mbind option_bind].
  on_if Eg; [done|]. bsplit.
  pose proof (encode_bytes _ _ _ Ee) as Hbe.
  pose proof (encode_bound _ _ _ (Z.of_nat (length rows)) Ee) as Hbound.
  pose proof (bound_u32 (binaryMarketBlockLayout (h_channel (rec_header first)))
    (Z.of_nat (length rows)) ltac:(unfold kBinaryMarketBlockRecords; lia)) as Hb32.
  assert (Z.of_nat (length enc) <= byteBlockEncodeBound
    (binaryMarketBlockLayout (h_channel (rec_header first))) (Z.of_nat (length rows))) as Hle.
  { apply Hbound. rewrite Hraw. cbn [bl_recordBytes binaryMarketBlockLayout].
    change (sizeofz l_BinaryMarketRecord) with 1024. lia. }
  intros Heq. injection Heq as Hb <-.
  pose proof (crc32c_range _ Hbe) as Hce.
  rewrite !u32_id in Hb by mlia.
  assert (0 < length enc)%nat as Hpos.
  { match goal with Hz : (length enc =? 0)%nat = false |- _ => apply Nat.eqb_neq in Hz end. lia. }
  remember (crc32c (objects l_BinaryMarketRecord rows)) as rawCrc eqn:Hrawc.
  remember (crc32c enc) as encCrc eqn:Hencc.
  match type of Hb with context [blockHeaderCrc ?x] => set (b0 := x) in Hb end.
  change (b0 <| bh_headerCrc32c := blockHeaderCrc b0 |> = b) in Hb.
  assert (forall crc, in_u32 crc ->
    fits l_BinaryMarketBlockHeader (b0 <| bh_headerCrc32c := crc |>)) as Hfit.
  { intros crc Hcrc. apply BlockHeader_fits. cbn -[replicate fits].
    unfold kBinaryMarketBlockMagic.
    split_and!; first [assumption | mlia | by apply fits_checked]. }
  assert (in_u32 (blockHeaderCrc b0)) as Hcb
    by (apply crc32c_range, obj_bytes, (Hfit 0); mlia).
  assert (blockHeaderCrc b = blockHeaderCrc b0) as Hseal
    by (rewrite <- Hb; apply sealed_blockHeader).
  assert (fits l_BinaryMarketBlockHeader b) as Hfb by (rewrite <- Hb; by apply Hfit).
  clear Hfit. generalize dependent (blockHeaderCrc b0). intros hcrc Hb _ Hseal.
  subst b0. unfold upd in Hb. cbn -[replicate] in Hb. 
  split; subst b; cbn -[replicate fits blockHeaderCrc].
  - exact Hfb.
  - exact Ee.
  - intros ->. cbn in Hpos. lia.
  - by rewrite Eh.
  - by rewrite Eh.
  - by rewrite El.
  - rewrite Hseal, Hraw, <- Hrawc, <- Hencc. split_and!; try reflexivity; lia.
Qed.

Lemma chain_span shard sources rows : forall ps pm first final,
  chain shard sources ps pm rows -> list.head rows = Some first -> list.last rows = Some final ->
  h_shardSequence (rec_header first) <= h_shardSequence (rec_header final).
Proof.
  induction rows as [|row rows IH]; intros ps pm first final; [done|].
  intros [(_ & Hv & _) Hc] [= <-] Hl. destruct rows as [|row' rows].
  - injection Hl as <-. lia.
  - pose proof (IH _ _ row' final Hc eq_refl Hl) as Hle.
    destruct Hc as [(_ & _ & _ & _ & _ & Hs & _) _].
    destruct (valid_row_fences _ Hv) as [Hne _]. lia.
Qed.

(** The decoder between two blocks: what it has read of a segment with header [h]. *)
Record at_block (d : SegmentDecoder) (h : BinaryMarketSegmentHeader) (content : list Z)
  (n : Z) (rows : list BinaryMarketRecord) (bytes : nat) : Prop := {
  ab_content : sd_content d = content;
  ab_stream : sd_stream d = (128 + bytes)%nat;
  ab_header : sd_header d = h;
  ab_position : sd_position d = sd_count d;
  ab_recordsSeen : sd_recordsSeen d = Z.of_nat (length rows);
  ab_bodyBytes : sd_bodyBytes d = Z.of_nat bytes;
  ab_sequence : sd_previousSequence d = lastSequence 0 rows;
  ab_monotonic : sd_previousMonotonic d = lastMonotonic 0 rows;
  ab_blocksSeen : sd_blocksSeen d = n;
  ab_crc : sd_recordsCrc d = crc32c (objects l_BinaryMarketRecord rows);
  ab_first : sd_firstReceive d = firstReceive 0 rows;
  ab_last : sd_lastReceive d = lastReceive 0 rows;
  ab_finished : sd_finished d = false;
}.

Lemma objects_app {A} (l : layout A) a b : objects l (a ++ b) = objects l a ++ objects l b.
Proof. unfold objects. by rewrite map_app, concat_app. Qed.

(** The block conditions hold for a block of ordered rows. *)
Lemma blockInvalid_written d h content n done bytes rows b encoded sources :
  at_block d h content n done bytes -> block_of n rows b encoded ->
  (length rows <= 256)%nat ->
  chain (sh_shardIndex h) sources (lastSequence 0 done) (lastMonotonic 0 done) rows ->
  sh_recordBytes h = 1024 -> 0 <= n -> in_u32 (n + 1) ->
  Z.of_nat bytes + 64 + Z.of_nat (length encoded) <= sh_storedBlockBytes h ->
  Z.of_nat (length done + length rows) <= sh_recordCount h ->
  blockInvalid d b = false.
Proof.
  intros Hd Hb Hlen Hc Hrb Hn Hn1 Hst Hrec.
  destruct (bo_fields _ _ _ _ Hb) as (F1 & F2 & F3 & F4 & F5 & F6 & F7 & F8 & F9 & F10).
  assert (exists first final, list.head rows = Some first /\ list.last rows = Some final)
    as (first & final & Eh & El).
  { destruct rows as [|r rows]; [by pose proof (bo_first _ _ _ _ Hb)|].
    destruct (list.last (r :: rows)) as [final|] eqn:E; [by eauto|].
    by apply last_None in E. }
  pose proof (bo_first _ _ _ _ Hb) as Hfs. pose proof (bo_last _ _ _ _ Hb) as Hls.
  pose proof (bo_channel _ _ _ _ Hb) as Hch.
  rewrite Eh in Hfs, Hch. rewrite El in Hls. injection Hfs as Hfs. injection Hls as Hls.
  injection Hch as Hch. pose proof (chain_span _ _ _ _ _ _ _ Hc Eh El) as Hspan.
  assert (validBinaryMarketRecord first = true) as Hv.
  { destruct rows; [done|]. injection Eh as <-. by destruct Hc as [(_ & ? & _) _]. }
  destruct (valid_row_fences _ Hv) as (Hne & _ & _ & Hvc).
  assert (0 < length rows)%nat by (destruct rows; [done|cbn; lia]).
  assert (0 < length encoded)%nat
    by (pose proof (bo_nonempty _ _ _ _ Hb); destruct encoded; [done|cbn; lia]).
  pose proof (encode_bound _ _ _ (Z.of_nat (length rows)) (bo_encode _ _ _ _ Hb)) as Hbound.
  rewrite records_length in Hbound by (by eapply chain_fits).
  change (bl_recordBytes _) with 1024 in Hbound.
  unfold blockInvalid. rewrite (ab_header _ _ _ _ _ _ Hd), (ab_blocksSeen _ _ _ _ _ _ Hd),
    (ab_bodyBytes _ _ _ _ _ _ Hd), (ab_recordsSeen _ _ _ _ _ _ Hd), Hrb.
  rewrite F1, F2, F3, F4, F5, F6, F9, <- F10, <- Hfs, <- Hls. cbn in Hch. rewrite <- Hch, Hvc.
  rewrite zero_bytes_replicate, Hch. change (sizeofz l_BinaryMarketBlockHeader) with 64.
  rewrite !u32_id by mlia. rewrite !Z.eqb_refl. cbn [negb orb].
  unfold kBinaryMarketBlockRecords, compose in *.
  repeat (apply orb_false_intro).
  all: first [reflexivity | apply Z.eqb_neq; lia | apply Z.ltb_ge; lia
             | apply Z.ltb_ge, Hbound; lia].
Qed.

Lemma read_at pre x rest n :
  length pre = n -> readBytes (pre ++ x ++ rest) n (length x) = Some x.
Proof. intros <-. apply readBytes_app. Qed.

Lemma decodeBlock_written d h content n before bytes rows b encoded sources pre rest :
  at_block d h content n before bytes -> block_of n rows b encoded ->
  (length rows <= 256)%nat ->
  Forall (fun row => h_channel (rec_header row) = bh_channel b) rows ->
  chain (sh_shardIndex h) sources (lastSequence 0 before) (lastMonotonic 0 before) rows ->
  sh_recordBytes h = 1024 -> 0 <= n -> in_u32 (n + 1) ->
  in_u64 (sh_storedBlockBytes h) -> in_u64 (sh_recordCount h) ->
  Z.of_nat bytes + 64 + Z.of_nat (length encoded) <= sh_storedBlockBytes h ->
  Z.of_nat (length before + length rows) <= sh_recordCount h ->
  content = pre ++ obj l_BinaryMarketBlockHeader b ++ encoded ++ rest ->
  length pre = (128 + bytes)%nat ->
  exists d', decodeBlock d sources = Some d' /\ sd_decoded d' = rows /\ sd_position d' = 0%nat /\
    sd_count d' = length rows /\
    at_block (d' <| sd_position := length rows |>) h content (n + 1) (before ++ rows)
      (bytes + (64 + length encoded))%nat.
Proof.
  intros Hd Hb Hlen Hch Hc Hrb Hn Hn1 Hus Hur Hst Hrec Hcont Hpre.
  pose proof (blockInvalid_written _ _ _ _ _ _ _ _ _ _ Hd Hb Hlen Hc Hrb Hn Hn1 Hst Hrec) as Hval.
  destruct (bo_fields _ _ _ _ Hb) as (_ & _ & _ & F4 & F5 & F6 & F7 & F8 & _ & _).
  pose proof (chain_fits _ _ _ _ _ Hc) as Hf. pose proof (records_length _ Hf) as Hraw.
  pose proof (obj_length _ _ (bo_fits _ _ _ _ Hb)) as Hbl.
  unfold decodeBlock. rewrite (ab_content _ _ _ _ _ _ Hd), (ab_stream _ _ _ _ _ _ Hd), <- Hbl.
  assert (readBytes content (128 + bytes) (length (obj l_BinaryMarketBlockHeader b)) =
    Some (obj l_BinaryMarketBlockHeader b)) as -> by (rewrite Hcont; by apply read_at).
  cbn [fmap option_fmap option_map mbind option_bind].
  rewrite view_obj_self by apply Hb. rewrite Hval, F6, Nat2Z.id, F5, F4.
  assert (readBytes content (128 + bytes + length (obj l_BinaryMarketBlockHeader b))
    (length encoded) = Some encoded) as ->.
  { rewrite Hcont, app_assoc. apply read_at. rewrite length_app. lia. }
  cbn [mbind option_bind]. rewrite F8, Z.eqb_refl. cbn [negb].
  replace (Z.to_nat (Z.of_nat (length rows) * 1024)) with
    (length (objects l_BinaryMarketRecord rows)) by lia.
  rewrite (encode_lossless _ (objects l_BinaryMarketRecord rows) encoded
    (obj_array_bytes _ _ Hf) (bo_encode _ _ _ _ Hb)).
  cbn [mbind option_bind].
  rewrite F7, Z.eqb_refl, Hraw.
  destruct (Z.eqb_spec (Z.of_nat (length rows * 1024)) (Z.of_nat (length rows) * 1024)); [|lia].
  cbn [negb orb]. rewrite Nat2Z.id, view_objects by done.
  rewrite (bo_first _ _ _ _ Hb), (bo_last _ _ _ _ Hb). rewrite !bool_decide_true by done.
  cbn [negb orb].
  rewrite checkRows_chain; [|by rewrite (ab_header _ _ _ _ _ _ Hd),
    (ab_sequence _ _ _ _ _ _ Hd), (ab_monotonic _ _ _ _ _ _ Hd)|done].
  cbn [mbind option_bind]. eexists. split; [reflexivity|].
  destruct Hd as [D1 D2 D3 D4 D5 D6 D7 D8 D9 D10 D11 D12 D13].
  change (sizeof l_BinaryMarketBlockHeader) with 64%nat in Hbl.
  split; [reflexivity|]. split; [reflexivity|]. split; [reflexivity|].
  split; cbn -[crc32c crc32cUpdate objects sizeofz].
  - exact D1.
  - lia.
  - exact D3.
  - reflexivity.
  - rewrite D5, length_app, u64_id by mlia. lia.
  - rewrite D6. change (sizeofz l_BinaryMarketBlockHeader) with 64.
    rewrite u64_id by mlia. lia.
  - by rewrite D7, lastSequence_app.
  - by rewrite D8, lastMonotonic_app.
  - rewrite D9. apply u32_id. mlia.
  - rewrite D10, objects_app. unfold crc32c. apply crc32cUpdate_app.
  - rewrite D11. unfold firstReceive. by rewrite fold_left_app.
  - rewrite D12. unfold lastReceive. by rewrite fold_left_app.
  - exact D13.
Qed.

(** ** Segment images *)

(** The consecutive blocks of [batches], the first with number [n + 1]. *)
Inductive body_of : Z -> list (list BinaryMarketRecord) -> list Z -> Prop :=
| body_nil n : body_of n [] []
| body_cons n rows batches b encoded body :
    block_of n rows b encoded -> (length rows <= 256)%nat ->
    Forall (fun row => h_channel (rec_header row) = bh_channel b) rows ->
    body_of (n + 1) batches body ->
    body_of n (rows :: batches) (obj l_BinaryMarketBlockHeader b ++ encoded ++ body).

(** A header that describes these rows and this body. *)
Record header_of (h : BinaryMarketSegmentHeader) (batches : list (list BinaryMarketRecord))
  (body : list Z) : Prop := {
  ho_fits : fits l_BinaryMarketSegmentHeader h;
  ho_fixed : sh_magic h = kBinaryMarketSegmentMagic /\ sh_headerBytes h = 128 /\
    sh_recordBytes h = 1024 /\ sh_codecId h = 1 /\ sh_reserved16 h = 0 /\
    sh_reserved h = replicate 48 0;
  ho_records : sh_recordCount h = Z.of_nat (length (concat batches));
  ho_blocks : sh_blockCount h = Z.of_nat (length batches);
  ho_bytes : sh_storedBlockBytes h = Z.of_nat (length body);
  ho_room : sh_storedBlockBytes h <= u64_max - 128 - 64;
  ho_crc : sh_recordsCrc32c h = crc32c (objects l_BinaryMarketRecord (concat batches));
  ho_first : sh_firstReceiveNs h = firstReceive 0 (concat batches);
  ho_last : sh_lastReceiveNs h = lastReceive 0 (concat batches);
}.

Lemma header_bounds h : fits l_BinaryMarketSegmentHeader h ->
  in_u64 (sh_storedBlockBytes h) /\ in_u64 (sh_recordCount h) /\ in_u32 (sh_blockCount h) /\
  in_u32 (sh_segmentNumber h) /\ in_u32 (sh_recordsCrc32c h) /\
  in_i64 (sh_firstReceiveNs h) /\ in_i64 (sh_lastReceiveNs h).
Proof.
  intros Hf. destruct h. cbn in Hf. unfold fits_unsigned in Hf. cbn in *.
  intuition (done || mlia).
Qed.

Lemma block_of_rows n rows b encoded : block_of n rows b encoded -> rows <> [].
Proof. intros Hb ->. by pose proof (bo_first _ _ _ _ Hb). Qed.

Lemma body_of_counts n batches body : body_of n batches body ->
  (length batches <= length (concat batches))%nat.
Proof.
  induction 1 as [|n rows batches b encoded body Hb Hl Hc _ IH]; [done|].
  apply block_of_rows in Hb. cbn [concat]. rewrite length_app. destruct rows; [done|].
  cbn [length] in *. lia.
Qed.

Lemma receive_range shard sources rows : forall ps pm first last,
  chain shard sources ps pm rows -> 0 < first <= last ->
  0 < firstReceive first rows <= lastReceive last rows.
Proof.
  induction rows as [|row rows IH]; intros ps pm first last; [cbn; lia|].
  intros [(_ & Hv & _) Hc] Hfl. destruct (valid_row_fences _ Hv) as (_ & _ & Hr & _).
  eapply IH; [done|]. unfold earlier, later.
  destruct (Z.eqb_spec first 0); [lia|]. cbn [orb].
  destruct (Z.ltb_spec (h_receiveRealtimeNs (rec_header row)) first); lia.
Qed.

Lemma receive_range_start shard sources rows : rows <> [] -> chain shard sources 0 0 rows ->
  0 < firstReceive 0 rows <= lastReceive 0 rows.
Proof.
  destruct rows as [|row rows]; [done|]. intros _ [(_ & Hv & _) Hc].
  destruct (valid_row_fences _ Hv) as (_ & _ & Hr & _).
  eapply (receive_range _ _ _ _ _ (earlier 0 row) (later 0 row)); [done|].
  unfold earlier, later. cbn. lia.
Qed.

(** A footer that repeats the header's totals. *)
Definition footer_of (h : BinaryMarketSegmentHeader) (f : BinaryMarketSegmentFooter) : Prop :=
  fits l_BinaryMarketSegmentFooter f /\ sf_footerCrc32c f = segmentFooterCrc f /\
  sf_magic f = kBinaryMarketSegmentFooterMagic /\ sf_footerBytes f = 64 /\
  sf_segmentNumber f = sh_segmentNumber h /\ sf_recordCount f = sh_recordCount h /\
  sf_recordsCrc32c f = sh_recordsCrc32c h /\ sf_firstReceiveNs f = sh_firstReceiveNs h /\
  sf_lastReceiveNs f = sh_lastReceiveNs h /\ sf_reserved f = replicate 20 0.

Lemma sealed_footer h : fits l_BinaryMarketSegmentHeader h -> footer_of h (sealFooter h).
Proof.
  intros (_ & Hr & _ & Hn & Hc & Hf & Hl)%header_bounds. unfold footer_of, sealFooter. cbv zeta.
  set (f := segmentFooter0 <| sf_footerBytes := _ |> <| sf_segmentNumber := _ |>
    <| sf_recordsCrc32c := _ |> <| sf_recordCount := _ |> <| sf_firstReceiveNs := _ |>
    <| sf_lastReceiveNs := _ |>).
  assert (forall crc, in_u32 crc ->
    fits l_BinaryMarketSegmentFooter (f <| sf_footerCrc32c := crc |>)) as Hfit.
  { intros crc Hcrc. unfold f. cbn -[sizeofz]. unfold fits_unsigned.
    change (sizeofz l_BinaryMarketSegmentFooter) with 64. cbn.
    split_and!; first [mlia | done | apply bytes_okb; reflexivity]. }
  assert (in_u32 (segmentFooterCrc f)) as Hcf
    by (apply crc32c_range, obj_bytes, (Hfit 0); mlia).
  split; [by apply Hfit|]. split.
  - assert (forall crc, segmentFooterCrc (f <| sf_footerCrc32c := crc |>) = segmentFooterCrc f)
      as Hset by (intros crc; unfold segmentFooterCrc; f_equal).
    by rewrite Hset.
  - generalize (segmentFooterCrc f). intros crc. split_and!; reflexivity.
Qed.

(** Rows already decoded are handed out one by one. *)
Lemma decodeAll_rows rest : forall d sources fuel,
  sd_finished d = false -> sd_count d = length (sd_decoded d) ->
  drop (sd_position d) (sd_decoded d) = rest ->
  decodeAll (length rest + fuel) d sources =
  match decodeAll fuel (d <| sd_position := (sd_position d + length rest)%nat |>) sources with
  | Some (rows, d') => Some (rest ++ rows, d')
  | None => None
  end.
Proof.
  induction rest as [|row rest IH]; intros d sources fuel Hfin Hcount Hdrop.
  - cbn [length plus app]. rewrite Nat.add_0_r. destruct d. cbn.
    by destruct (decodeAll fuel _ sources) as [[rows d']|].
  - assert (sd_decoded d !! sd_position d = Some row) as Hrow.
    { replace (sd_position d) with (sd_position d + 0)%nat by lia.
      rewrite <- lookup_drop, Hdrop. done. }
    assert (sd_position d < sd_count d)%nat
      by (rewrite Hcount; apply lookup_lt_is_Some; eauto).
    cbn [length plus decodeAll]. unfold decoderNext at 1. rewrite Hfin.
    destruct (Nat.eqb_spec (sd_position d) (sd_count d)); [lia|].
    unfold takeRow. rewrite Hrow. cbn [mbind option_bind].
    rewrite (IH (d <| sd_position ::= S |>)); [|done|done|].
    + cbn. replace (S (sd_position d + length rest))%nat with
        (sd_position d + S (length rest))%nat by lia.
      by destruct (decodeAll fuel _ sources) as [[rows d']|].
    + cbn. rewrite <- Nat.add_1_r, <- drop_drop, Hdrop. done.
Qed.

(** At a block boundary, [next] behaves as on the freshly decoded block. *)
Lemma decodeAll_block d d' sources fuel :
  sd_finished d = false -> sd_position d = sd_count d ->
  sd_blocksSeen d <> sh_blockCount (sd_header d) ->
  decodeBlock d sources = Some d' -> sd_finished d' = false ->
  sd_position d' <> sd_count d' ->
  decodeAll (S fuel) d sources = decodeAll (S fuel) d' sources.
Proof.
  intros Hf Hp Hb Hd Hf' Hp'. cbn [decodeAll]. unfold decoderNext.
  rewrite Hf, Hp, Nat.eqb_refl, Hf'.
  destruct (Z.eqb_spec (sd_blocksSeen d) (sh_blockCount (sd_header d))); [done|].
  rewrite Hd. cbn [mbind option_bind]. by apply Nat.eqb_neq in Hp' as ->.
Qed.

Lemma decode_body h f content n batches body : footer_of h f -> body_of n batches body ->
  forall d before bytes sources pre,
  at_block d h content n before bytes -> 0 <= n ->
  chain (sh_shardIndex h) sources (lastSequence 0 before) (lastMonotonic 0 before)
    (concat batches) ->
  sh_recordBytes h = 1024 -> in_u64 (sh_storedBlockBytes h) -> in_u64 (sh_recordCount h) ->
  in_u32 (sh_blockCount h) -> sh_blockCount h = n + Z.of_nat (length batches) ->
  sh_storedBlockBytes h = Z.of_nat (bytes + length body) ->
  sh_recordCount h = Z.of_nat (length before + length (concat batches)) ->
  content = pre ++ body ++ obj l_BinaryMarketSegmentFooter f ->
  length pre = (128 + bytes)%nat ->
  sh_recordsCrc32c h = crc32c (objects l_BinaryMarketRecord (before ++ concat batches)) ->
  sh_firstReceiveNs h = firstReceive 0 (before ++ concat batches) ->
  sh_lastReceiveNs h = lastReceive 0 (before ++ concat batches) ->
  exists d', decodeAll (S (length (concat batches))) d sources = Some (concat batches, d') /\
    sd_finished d' = true.
Proof.
  intros Hft. induction 1 as [n|n rows batches b encoded body Hb Hl Hch Hbody IH];
    intros d before bytes sources pre Hd Hn Hc Hrb Hus Hur Hub Hbc Hbytes Hrecs Hcont Hpre
      Hcrc Hfirst Hlast.
  - destruct Hft as (Ff & Fc & F1 & F2 & F3 & F4 & F5 & F6 & F7 & F8).
    pose proof (obj_length _ _ Ff) as Hfl.
    cbn [concat length app] in *. rewrite app_nil_r in *.
    destruct Hd as [D1 D2 D3 D4 D5 D6 D7 D8 D9 D10 D11 D12 D13].
    cbn [decodeAll]. unfold decoderNext. rewrite D13, D4, Nat.eqb_refl, D9, D3.
    replace (sh_blockCount h) with n by lia. rewrite Z.eqb_refl, D1, D2, <- Hfl.
    assert (readBytes content (128 + bytes)
      (length (obj l_BinaryMarketSegmentFooter f)) =
      Some (obj l_BinaryMarketSegmentFooter f)) as ->.
    { pose proof (read_at pre (obj l_BinaryMarketSegmentFooter f) [] _ Hpre) as Hr.
      rewrite app_nil_r in Hr. rewrite Hcont. exact Hr. }
    cbn [fmap option_fmap option_map mbind option_bind]. rewrite view_obj_self by done.
    assert (footerInvalid d f = false) as ->.
    { unfold footerInvalid. rewrite D3, D5, D6, D10, D11, D12, F1, F2, F3, F4, F5, F6, F7, F8, <- Fc.
      rewrite zero_bytes_replicate, <- Hcrc, <- Hfirst, <- Hlast.
      replace (Z.of_nat (length before)) with (sh_recordCount h) by lia.
      replace (Z.of_nat bytes) with (sh_storedBlockBytes h) by lia.
      by rewrite !Z.eqb_refl. }
    cbn [mbind option_bind]. eauto.
  - cbn [concat length] in *. rewrite length_app in *.
    apply chain_app in Hc as [Hc1 Hc2]. rewrite !length_app in Hbytes.
    pose proof (obj_length _ _ (bo_fits _ _ _ _ Hb)) as Hbl.
    change (sizeof l_BinaryMarketBlockHeader) with 64%nat in Hbl.
    destruct (decodeBlock_written d h content n before bytes rows b encoded sources pre
      (body ++ obj l_BinaryMarketSegmentFooter f))
      as (d1 & Hdec & Hrows & Hp0 & Hcnt & Hd1); try done; try (unfold in_u32 in *; lia).
    { rewrite Hcont, <- !app_assoc. done. }
    assert (0 < length rows)%nat
      by (pose proof (block_of_rows _ _ _ _ Hb); destruct rows; [done|cbn; lia]).
    rewrite (decodeAll_block d d1); [|apply Hd|apply Hd| |done|apply Hd1|rewrite Hp0, Hcnt; lia].
    2: { rewrite (ab_blocksSeen _ _ _ _ _ _ Hd), (ab_header _ _ _ _ _ _ Hd). lia. }
    replace (S (length rows + length (concat batches)))%nat with
      (length rows + S (length (concat batches)))%nat by lia.
    rewrite (decodeAll_rows rows d1); [|apply Hd1|by rewrite Hcnt, Hrows|by rewrite Hp0, Hrows].
    rewrite Hp0. cbn [plus].
    destruct (IH (d1 <| sd_position := length rows |>) (before ++ rows)
      (bytes + (64 + length encoded))%nat sources
      (pre ++ obj l_BinaryMarketBlockHeader b ++ encoded)) as (d' & -> & Hfin); try done.
    + lia.
    + by rewrite lastSequence_app, lastMonotonic_app.
    + lia.
    + lia.
    + rewrite length_app. lia.
    + rewrite Hcont, <- !app_assoc. done.
    + rewrite !length_app. lia.
    + by rewrite <- app_assoc.
    + by rewrite <- app_assoc.
    + by rewrite <- app_assoc.
    + eauto.
Qed.

Lemma sealHeader_of h batches body : header_of h batches body ->
  header_of (sealHeader h) batches body /\
  sh_headerCrc32c (sealHeader h) = segmentHeaderCrc (sealHeader h).
Proof.
  intros Hh. pose proof (ho_fits _ _ _ Hh) as Hf. unfold sealHeader.
  assert (forall crc, in_u32 crc ->
    fits l_BinaryMarketSegmentHeader (h <| sh_headerCrc32c := crc |>)) as Hfit.
  { intros crc Hcrc. destruct h. cbn in *. unfold fits_unsigned in *. cbn in *.
    intuition (done || mlia). }
  assert (in_u32 (segmentHeaderCrc h)) as Hc by (apply crc32c_range, obj_bytes, (Hfit 0); mlia).
  assert (forall crc, segmentHeaderCrc (h <| sh_headerCrc32c := crc |>) = segmentHeaderCrc h)
    as Hset by (intros crc; unfold segmentHeaderCrc; f_equal).
  rewrite Hset. revert Hc. generalize (segmentHeaderCrc h) as crc. intros crc Hc.
  split; [|reflexivity].
  destruct Hh as [_ H2 H3 H4 H5 H6 H7 H8 H9]. split; try assumption. by apply Hfit.
Qed.

Lemma decoderOpen_image h batches body footer sources :
  header_of h batches body -> sh_headerCrc32c h = segmentHeaderCrc h ->
  body_of 0 batches body -> batches <> [] ->
  chain (sh_shardIndex h) sources 0 0 (concat batches) -> workspacePrepare = true ->
  length footer = 64%nat ->
  exists d, decoderOpen (Some (obj l_BinaryMarketSegmentHeader h ++ body ++ footer))
      (sh_segmentNumber h) (sh_shardIndex h) (sh_producerEpoch h) = Some d /\
    at_block d h (obj l_BinaryMarketSegmentHeader h ++ body ++ footer) 0 [] 0.
Proof.
  intros Hh Hcrc Hb Hne Hc Hw Hft. destruct Hh as [Hf Hfix Hr Hbl Hby Hroom Hrc Hfi Hla].
  pose proof (obj_length _ _ Hf) as Hlen.
  pose proof (body_of_counts _ _ _ Hb) as Hcounts.
  assert (concat batches <> []) as Hrows by (intros E; rewrite E in Hcounts; destruct batches; [done|cbn in Hcounts; lia]).
  pose proof (receive_range_start _ _ _ Hrows Hc) as Hrange.
  unfold decoderOpen. cbn [mbind option_bind].
  pose proof (readBytes_app [] (obj l_BinaryMarketSegmentHeader h) (body ++ footer)) as Hread.
  cbn [app length] in Hread. rewrite Hlen in Hread. rewrite Hread.
  change (sizeof l_BinaryMarketSegmentHeader) with 128%nat in Hlen. cbn [fmap option_fmap option_map mbind option_bind].
  rewrite view_obj_self by done. rewrite !length_app, Hlen, Hft.
  assert (segmentHeaderInvalid h (sh_segmentNumber h) (sh_shardIndex h) (sh_producerEpoch h)
    (Z.of_nat (128 + (length body + 64))) = false) as ->.
  { destruct Hfix as (G1 & G2 & G3 & G4 & G5 & G6). unfold segmentHeaderInvalid.
    change (sizeofz l_BinaryMarketSegmentHeader) with 128.
    change (sizeofz l_BinaryMarketSegmentFooter) with 64.
    change (bl_recordBytes _) with 1024. rewrite <- Hcrc, G1, G2, G3, G4, G5, G6.
    rewrite zero_bytes_replicate, !Z.eqb_refl. cbn [negb orb].
    assert (length batches <> 0)%nat by (by destruct batches).
    repeat (apply orb_false_intro); first [reflexivity | apply Z.eqb_neq; lia
      | apply Z.ltb_ge; lia | apply Z.leb_gt; lia | idtac].
    apply negb_false_iff, Z.eqb_eq. lia. }
  rewrite Hw. eexists. split; [reflexivity|]. split; try reflexivity.
Qed.

(** ** Soundness on arbitrary bytes *)

Lemma checkRows_sound channel sources rows : forall d d',
  Forall (fits l_BinaryMarketRecord) rows ->
  checkRows channel sources rows d = Some d' ->
  chain (sh_shardIndex (sd_header d)) sources (sd_previousSequence d) (sd_previousMonotonic d) rows /\
  Forall (fun row => h_channel (rec_header row) = channel) rows.
Proof.
  induction rows as [|row rows IH]; intros d d' Hf; cbn [checkRows chain]; [done|].
  apply Forall_cons_1 in Hf as [Hfr Hf]. destruct (rowInvalid _ _ _ _ _ row) eqn:E; [done|].
  intros [Hc Hch]%IH; [|done]. cbn in Hc.
  unfold rowInvalid in E. rewrite !orb_false_iff, !negb_false_iff, !andb_false_iff in E.
  rewrite !negb_false_iff, !Z.eqb_eq, !Z.ltb_ge, Z.leb_gt in E.
  split; [|constructor; tauto]. split; [|done]. unfold rowOk. intuition.
Qed.

(** What the decoder has consumed: [seen] are the rows of the blocks read so far. *)
Record sound (d : SegmentDecoder) (sources : Z) (seen : list BinaryMarketRecord) : Prop := {
  so_chain : chain (sh_shardIndex (sd_header d)) sources 0 0 seen;
  so_sequence : sd_previousSequence d = lastSequence 0 seen;
  so_monotonic : sd_previousMonotonic d = lastMonotonic 0 seen;
  so_records : sd_recordsSeen d = Z.of_nat (length seen);
  so_crc : sd_recordsCrc d = crc32c (objects l_BinaryMarketRecord seen);
  so_count : sd_count d = length (sd_decoded d);
  so_content : bytes_ok (sd_content d);
  so_header : fits l_BinaryMarketSegmentHeader (sd_header d) /\
              sh_recordBytes (sd_header d) = 1024;
}.

Lemma readBytes_ok content position n bs : bytes_ok content ->
  readBytes content position n = Some bs -> bytes_ok bs /\ length bs = n.
Proof.
  unfold readBytes. intros Hb. destruct (Nat.leb_spec (position + n) (length content)); [|done].
  intros [= <-]. split; [by apply bytes_ok_take, bytes_ok_drop|].
  rewrite length_take, length_drop. lia.
Qed.

Lemma decodeBlock_sound d d' sources seen :
  sound d sources seen -> decodeBlock d sources = Some d' ->
  sound d' sources (seen ++ sd_decoded d') /\ sd_header d' = sd_header d /\
  sd_position d' = 0%nat /\ sd_finished d' = sd_finished d.
Proof.
  intros [S1 S2 S3 S4 S5 S6 S7 [S8 S9]]. unfold decodeBlock.
  destruct (readBytes (sd_content d) (sd_stream d) _) as [hb|] eqn:Eh; [|done].
  cbn [fmap option_fmap option_map mbind option_bind].
  destruct (readBytes_ok _ _ _ _ S7 Eh) as [Hbh Hlh].
  pose proof (view_fits l_BinaryMarketBlockHeader hb Hbh ltac:(lia)) as Hfb.
  generalize dependent (view l_BinaryMarketBlockHeader hb). intros b Hfb. clear Eh Hbh Hlh hb.
  destruct (blockInvalid d b) eqn:Eb; [done|].
  destruct (readBytes _ _ (Z.to_nat (bh_encodedBytes b))) as [encoded|]; [|done].
  cbn [mbind option_bind]. destruct (negb (_ =? bh_encodedCrc32c b)); [done|].
  destruct (decodeByteBlock _ encoded _) as [raw|] eqn:Ed; [|done]. cbn [mbind option_bind].
  destruct (_ || _) eqn:Er; [done|]. apply orb_false_iff in Er as [Er%negb_false_iff%Z.eqb_eq _].
  destruct (_ || _); [done|].
  unfold blockInvalid in Eb. rewrite !orb_false_iff, !negb_false_iff in Eb.
  destruct_and! Eb. rewrite Z.eqb_eq, ?Z.ltb_ge in *.
  assert (0 <= bh_recordCount b <= 256) as Hcount.
  { destruct b. cbn in Hfb. unfold fits_unsigned in Hfb. cbn in *.
    unfold kBinaryMarketBlockRecords in *. lia. }
  set (rows := view_array l_BinaryMarketRecord (Z.to_nat (bh_recordCount b)) raw).
  assert (Z.of_nat (length raw) = bh_recordCount b * 1024) as Hraw.
  { rewrite Er. match goal with Hx : bh_rawBytes b = _ |- _ => rewrite Hx, S9 end.
    apply u32_id. mlia. }
  pose proof (decode_bytes _ _ _ _ Ed) as Hbr.
  assert (Z.to_nat (bh_recordCount b) * sizeof l_BinaryMarketRecord <= length raw)%nat as Hle.
  { change (sizeof l_BinaryMarketRecord) with 1024%nat. lia. }
  pose proof (view_array_fits l_BinaryMarketRecord _ raw Hbr Hle) as Hfr. fold rows in Hfr.
  assert (objects l_BinaryMarketRecord rows = raw) as Hobj.
  { unfold objects, rows. rewrite obj_view_array by done. apply firstn_all2.
    change (sizeof l_BinaryMarketRecord) with 1024%nat. lia. }
  assert (length rows = Z.to_nat (bh_recordCount b)) as Hlr by apply view_array_length.
  destruct (checkRows _ _ rows d) as [d1|] eqn:Ec; [|done].
  destruct (checkRows_sound _ _ _ _ _ Hfr Ec) as [Hc Hch].
  rewrite checkRows_chain in Ec by done. injection Ec as <-. cbn [mbind option_bind].
  intros [= <-]. clearbody rows.
  assert (in_u64 (sh_recordCount (sd_header d))) as Hu by (by apply header_bounds).
  split; [|done]. split; cbn -[crc32c crc32cUpdate objects chain].
  - apply chain_app. split; [done|]. by rewrite <- S2, <- S3.
  - by rewrite S2, lastSequence_app.
  - by rewrite S3, lastMonotonic_app.
  - rewrite S4, length_app in *. rewrite u64_id by mlia. lia.
  - rewrite S5, objects_app, Hobj. unfold crc32c. apply crc32cUpdate_app.
  - by rewrite Hlr.
  - done.
  - done.
Qed.

(** The totals the footer of a finished decoder vouches for. *)
Definition totals (d : SegmentDecoder) (rows : list BinaryMarketRecord) : Prop :=
  sh_recordCount (sd_header d) = Z.of_nat (length rows) /\
  sh_recordsCrc32c (sd_header d) = crc32c (objects l_BinaryMarketRecord rows).

Lemma takeRow_sound d sources seen row d' :
  sound d sources seen -> takeRow d = Some (row, d') ->
  sound d' sources seen /\ sd_finished d' = sd_finished d /\ sd_header d' = sd_header d /\
  exists r, row = Some r /\
    drop (sd_position d) (sd_decoded d) = r :: drop (sd_position d') (sd_decoded d').
Proof.
  unfold takeRow. intros [? ? ? ? ? ? ? ?].
  destruct (sd_decoded d !! sd_position d) as [r|] eqn:E; [|done]. cbn [mbind option_bind].
  intros [= <- <-]. split; [by split|]. split_and!; [done|done|].
  exists r. split; [done|]. cbn. by apply drop_S.
Qed.

Lemma footer_sound d sources seen f :
  sound d sources seen -> footerInvalid d f = false -> totals d seen.
Proof.
  intros Hs Ef. unfold footerInvalid in Ef. bsplit.
  split; [rewrite <- (so_records _ _ _ Hs)|rewrite <- (so_crc _ _ _ Hs)]; symmetry; assumption.
Qed.

(** One call of [next]: the end with its totals, or the next row. *)
Lemma decoderNext_sound d sources seen row d1 :
  sound d sources seen -> sd_finished d = false -> decoderNext d sources = Some (row, d1) ->
  (row = None /\ drop (sd_position d) (sd_decoded d) = [] /\ totals d seen) \/
  (exists r block, row = Some r /\ sound d1 sources (seen ++ block) /\
    sd_finished d1 = false /\ sd_header d1 = sd_header d /\
    drop (sd_position d) (sd_decoded d) ++ block = r :: drop (sd_position d1) (sd_decoded d1)).
Proof.
  intros Hs Hfin. unfold decoderNext. rewrite Hfin.
  destruct (Nat.eqb_spec (sd_position d) (sd_count d)) as [Hp|Hp].
  - assert (drop (sd_position d) (sd_decoded d) = []) as Hnil
      by (rewrite Hp, (so_count _ _ _ Hs); apply drop_all).
    destruct (sd_blocksSeen d =? sh_blockCount (sd_header d)).
    + destruct (view l_BinaryMarketSegmentFooter <$> _) as [f|]; [|done].
      cbn [mbind option_bind]. destruct (footerInvalid d f) eqn:Ef; [done|].
      intros Heq. injection Heq as <- <-. left. eauto using footer_sound.
    + destruct (decodeBlock d sources) as [d2|] eqn:Eb; [|done]. cbn [mbind option_bind].
      destruct (decodeBlock_sound _ _ _ _ Hs Eb) as (Hs2 & Hh2 & Hp2 & Hf2). intros Ht.
      destruct (takeRow_sound _ _ _ _ _ Hs2 Ht) as (Hs1 & Hf1 & Hh1 & r & -> & Hd).
      right. exists r, (sd_decoded d2). rewrite Hp2, drop_0 in Hd. rewrite Hnil, Hf1, Hf2, Hh1.
      split_and!; auto.
  - intros Ht. destruct (takeRow_sound _ _ _ _ _ Hs Ht) as (Hs1 & Hf1 & Hh1 & r & -> & Hd).
    right. exists r, []. rewrite !app_nil_r, Hf1. split_and!; auto.
Qed.

Lemma decodeAll_sound fuel : forall d sources seen rows d',
  sound d sources seen -> sd_finished d = false ->
  decodeAll fuel d sources = Some (rows, d') ->
  exists later, rows = drop (sd_position d) (sd_decoded d) ++ later /\
    chain (sh_shardIndex (sd_header d)) sources 0 0 (seen ++ later) /\ totals d (seen ++ later).
Proof.
  induction fuel as [|fuel IH]; intros d sources seen rows d' Hs Hfin; [discriminate|].
  cbn [decodeAll]. destruct (decoderNext d sources) as [[row d1]|] eqn:En; [|discriminate].
  cbn [mbind option_bind].
  destruct (decoderNext_sound _ _ _ _ _ Hs Hfin En)
    as [(-> & Hnil & Ht)|(r & block & -> & Hs1 & Hf1 & Hh1 & Hd)].
  - intros Heq. injection Heq as <- <-. exists []. rewrite Hnil, (app_nil_r seen).
    split; [reflexivity|]. split; [exact (so_chain _ _ _ Hs)|exact Ht].
  - destruct (decodeAll fuel d1 sources) as [[rs d2]|] eqn:Er; [|discriminate].
    cbn [mbind option_bind]. intros Heq. injection Heq as <- _.
    destruct (IH _ _ _ _ _ Hs1 Hf1 Er) as (later & -> & Hc & Ht).
    exists (block ++ later). rewrite app_assoc, Hd.
    unfold totals in *. rewrite Hh1, <- app_assoc in Hc. rewrite Hh1, <- !app_assoc in Ht.
    split; [reflexivity|]. split; assumption.
Qed.

(** The image of a sealed segment decodes to its rows. *)
Lemma sealed_decodes h batches body sources :
  header_of h batches body -> body_of 0 batches body -> batches <> [] ->
  chain (sh_shardIndex h) sources 0 0 (concat batches) -> workspacePrepare = true ->
  let file := obj l_BinaryMarketSegmentHeader (sealHeader h) ++ body ++
              obj l_BinaryMarketSegmentFooter (sealFooter (sealHeader h)) in
  exists d d', decoderOpen (Some file) (sh_segmentNumber h) (sh_shardIndex h)
      (sh_producerEpoch h) = Some d /\
    decodeAll (S (length (concat batches))) d sources = Some (concat batches, d') /\
    sd_finished d' = true.
Proof.
  intros Hh Hb Hne Hc Hw. destruct (sealHeader_of _ _ _ Hh) as [Hs Hcrc].
  pose proof (sealed_footer _ (ho_fits _ _ _ Hs)) as Hft.
  change (chain (sh_shardIndex (sealHeader h)) sources 0 0 (concat batches)) in Hc.
  change (sh_segmentNumber h) with (sh_segmentNumber (sealHeader h)).
  change (sh_shardIndex h) with (sh_shardIndex (sealHeader h)).
  change (sh_producerEpoch h) with (sh_producerEpoch (sealHeader h)).
  clear Hh. generalize dependent (sealFooter (sealHeader h)).
  generalize dependent (sealHeader h). clear h. intros h Hc Hs Hcrc f Hft. cbv zeta.
  pose proof Hft as [Hff _]. pose proof (obj_length _ _ Hff) as Hfl.
  destruct (decoderOpen_image h batches body (obj l_BinaryMarketSegmentFooter f) sources)
    as (d & Ho & Hd); try assumption.
  pose proof (obj_length _ _ (ho_fits _ _ _ Hs)) as Hhl.
  destruct (header_bounds _ (ho_fits _ _ _ Hs)) as (? & ? & ? & _).
  destruct (decode_body h f _ 0 batches body Hft Hb d [] 0 sources
    (obj l_BinaryMarketSegmentHeader h) Hd) as (d' & Hr & Hfin); try assumption; try apply Hs.
  - lia.
  - reflexivity.
  - exists d, d'. split_and!; assumption.
Qed.

(** ** Claims *)

(** C8: A sealed segment decodes to exactly the records that were written:
    for every list of blocks of well-ordered rows, with a header that counts them,
    the decoder opens the image header, blocks, footer that sealing produces and
    returns all rows in their order, and then finishes. *)
Theorem segment_roundtrip h batches body sources :
  header_of h batches body -> body_of 0 batches body -> batches <> [] ->
  chain (sh_shardIndex h) sources 0 0 (concat batches) -> workspacePrepare = true ->
  let file := obj l_BinaryMarketSegmentHeader (sealHeader h) ++ body ++
              obj l_BinaryMarketSegmentFooter (sealFooter (sealHeader h)) in
  exists d d', decoderOpen (Some file) (sh_segmentNumber h) (sh_shardIndex h)
      (sh_producerEpoch h) = Some d /\
    decodeAll (S (length (concat batches))) d sources = Some (concat batches, d') /\
    sd_finished d' = true.
Proof. intros. by apply sealed_decodes. Qed.

(** C9: Whatever bytes a segment file holds, the rows the decoder releases are
    sound: they are valid records of the segment's shard with strictly increasing
    shard sequences, non-decreasing monotonic stamps and zero payload tails, and
    when the decoder finishes their number and checksum are those of the header. *)
Theorem decoder_sound content number shard epoch sources fuel d rows d' :
  bytes_ok content -> decoderOpen (Some content) number shard epoch = Some d ->
  decodeAll fuel d sources = Some (rows, d') ->
  chain shard sources 0 0 rows /\ totals d rows.
Proof.
  intros Hb Ho Hr. revert Ho. unfold decoderOpen. cbn [mbind option_bind].
  destruct (readBytes content 0 _) as [hb|] eqn:Eh; [|done].
  destruct (readBytes_ok _ _ _ _ Hb Eh) as [Hbh Hlh].
  pose proof (view_fits l_BinaryMarketSegmentHeader hb Hbh ltac:(lia)) as Hfh.
  cbn [fmap option_fmap option_map mbind option_bind].
  generalize dependent (view l_BinaryMarketSegmentHeader hb). intros h Hfh.
  destruct (segmentHeaderInvalid _ _ _ _ _) eqn:Ei; [done|].
  destruct (negb workspacePrepare); [done|]. intros [= <-].
  unfold segmentHeaderInvalid in Ei. bsplit.
  change (bl_recordBytes _) with 1024 in *.
  match goal with Hx : sh_shardIndex h = shard |- _ => subst shard end.
  eapply (decodeAll_sound _ _ _ []) in Hr as (later & -> & Hc & Ht); [|split; try done|done].
  done.
Qed.

End segment.

(** ** Witnesses *)

Section samples.
Import Stored.

Definition sampleBlock : BinaryMarketBlockHeader * list Z :=
  default (blockHeader0, []) (encodeBlock 0 [sampleTrade]).
Definition sampleBody : list Z :=
  obj l_BinaryMarketBlockHeader sampleBlock.1 ++ sampleBlock.2.
Definition sampleSegmentHeader : BinaryMarketSegmentHeader :=
  segmentHeader0 <| sh_headerBytes := 128 |> <| sh_recordBytes := 1024 |>
    <| sh_segmentNumber := 1 |> <| sh_producerEpoch := 4 |> <| sh_recordCount := 1 |>
    <| sh_blockCount := 1 |> <| sh_storedBlockBytes := Z.of_nat (length sampleBody) |>
    <| sh_recordsCrc32c := crc32c (objects l_BinaryMarketRecord [sampleTrade]) |>
    <| sh_firstReceiveNs := firstReceive 0 [sampleTrade] |>
    <| sh_lastReceiveNs := lastReceive 0 [sampleTrade] |>.
Definition sampleSegment : list Z :=
  obj l_BinaryMarketSegmentHeader (sealHeader sampleSegmentHeader) ++ sampleBody ++
  obj l_BinaryMarketSegmentFooter (sealFooter (sealHeader sampleSegmentHeader)).

Lemma sampleHeader_of : header_of sampleSegmentHeader [[sampleTrade]] sampleBody.
Proof.
  split; try (vm_compute; reflexivity).
  - apply fits_checked; vm_compute; reflexivity.
  - repeat split.
  - vm_compute. discriminate.
Qed.

Lemma sampleBlock_of : block_of 0 [sampleTrade] sampleBlock.1 sampleBlock.2.
Proof.
  apply encodeBlock_block_of; [done|mlia|cbn; lia| |vm_compute; reflexivity].
  exact (Forall_cons_2 _ _ _ sampleTrade_fits (Forall_nil_2 _)).
Qed.

Lemma sampleBody_of : body_of 0 [[sampleTrade]] sampleBody.
Proof.
  unfold sampleBody. rewrite <- (app_nil_r sampleBlock.2).
  apply body_cons; [apply sampleBlock_of|cbn; lia| |constructor].
  apply Forall_cons_2; [reflexivity|apply Forall_nil_2].
Qed.

Lemma sampleTrade_chain : chain 0 1 0 0 [sampleTrade].
Proof.
  split; [|done]. split; [apply sampleTrade_fits|]. split_and!; try (left; reflexivity).
  all: vm_compute; first [reflexivity|discriminate].
Qed.

Lemma segment_roundtrip_witness : exists d d',
  decoderOpen (Some sampleSegment) 1 0 4 = Some d /\
  decodeAll 2 d 1 = Some ([sampleTrade], d') /\ sd_finished d' = true.
Proof.
  exact (segment_roundtrip sampleSegmentHeader [[sampleTrade]] sampleBody 1
    sampleHeader_of sampleBody_of ltac:(discriminate) sampleTrade_chain eq_refl).
Defined.

Lemma decoder_sound_witness : exists d,
  decoderOpen (Some sampleSegment) 1 0 4 = Some d /\
  chain 0 1 0 0 [sampleTrade] /\ totals d [sampleTrade].
Proof.
  assert (bytes_ok sampleSegment) as Hb by (apply bytes_okb; vm_compute; reflexivity).
  destruct (decoderOpen (Some sampleSegment) 1 0 4) as [d|] eqn:E; [|vm_compute in E; discriminate].
  exists d. split; [reflexivity|].
  assert (exists d', decodeAll 2 d 1 = Some ([sampleTrade], d')) as [d' Hd'].
  { vm_compute in E. injection E as <-. eexists. vm_compute. reflexivity. }
  exact (decoder_sound _ _ _ _ _ _ _ _ _ Hb E Hd').
Defined.
End samples.
