(* ===== verification/Writer.v ===== *)
(** * Writer: the corpus writer

    Models src/src/Runtime/src/Corpus/BinaryMarketCorpusWriter.cpp: byte
    reservations, segments, the index, the admission of records and gaps, cuts
    and finalization.  The writer's state holds the file system it writes to
    ([wr_disk], see Disk), so that every operation may fail where the platform
    may; allocation failures ([catch (...)]) are not modelled, and the clock of
    [publishCut] is an argument. *)
From stdpp Require Import base list numbers strings gmap.
From S2P Require Import Prelude Codec Layout Format DepthTransaction SourceState Disk Metadata.
From S2P Require Import BlockCodec Cut Segment.
Import Crc32c.
Local Open Scope Z_scope.

(** [struct IndexKey]: source, generation, channel. *)
Definition IndexKey : Type := Z * Z * Z.

(** An output stream: open at a position, failed, or not open. *)
Inductive Stream := Streaming (position : nat) | Broken | Closed.

Record SegmentState := MkSegmentState {
  sg_stream : Stream;
  sg_partialPath : Path;
  sg_finalPath : Path;
  sg_header : BinaryMarketSegmentHeader;
  sg_indexPositions : gmap IndexKey nat;
  sg_projectedBytes : Z;
  sg_pending : list BinaryMarketRecord; (* the first [pendingCount] elements *)
  sg_previousShardSequence : Z;
  sg_previousMonotonicNs : Z;
  sg_open : bool;
}.
#[export] Instance SegmentState_eta : Eta SegmentState := fun r =>
  MkSegmentState (sg_stream r) (sg_partialPath r) (sg_finalPath r) (sg_header r)
    (sg_indexPositions r) (sg_projectedBytes r) (sg_pending r) (sg_previousShardSequence r)
    (sg_previousMonotonicNs r) (sg_open r).

Definition segmentState0 : SegmentState :=
  MkSegmentState Closed (RootFile "") (RootFile "") segmentHeader0 ∅ 0 [] 0 0 false.

Record BinaryMarketWriterConfig := MkBinaryMarketWriterConfig {
  cf_root : string;
  cf_sources : list BinaryMarketSource;
  cf_producerEpoch : Z;
  cf_maximumBytes : Z;
  cf_segmentTargetBytes : Z;
  cf_targetDurationNs : Z;
  cf_startedReceiveNs : Z;
  cf_startedMonotonicNs : Z;
  cf_ringCapacity : Z;
  cf_shardCount : Z;
  cf_referenceVisibilityBinder : option (list Z -> list Z -> Z -> Z -> Status * list Z);
  cf_maximumReferenceBytes : Z;
  cf_retainedCompressedBytes : Z;
  cf_pendingRecordCapacity : Z;
}.
#[export] Instance BinaryMarketWriterConfig_eta : Eta BinaryMarketWriterConfig := fun r =>
  MkBinaryMarketWriterConfig (cf_root r) (cf_sources r) (cf_producerEpoch r) (cf_maximumBytes r)
    (cf_segmentTargetBytes r) (cf_targetDurationNs r) (cf_startedReceiveNs r)
    (cf_startedMonotonicNs r) (cf_ringCapacity r) (cf_shardCount r)
    (cf_referenceVisibilityBinder r) (cf_maximumReferenceBytes r) (cf_retainedCompressedBytes r)
    (cf_pendingRecordCapacity r).

Record BinaryMarketCorpusWriterState := MkWriterState {
  wr_config : BinaryMarketWriterConfig;
  wr_manifest : BinaryMarketManifest;
  wr_sources : list BinaryMarketSource;
  wr_sourceStates : list BinaryMarketSourceState;
  wr_index : list BinaryMarketIndexEntry;
  wr_gaps : list BinaryMarketGap;
  wr_segments : list SegmentState;
  wr_depthTransactions : list BinaryMarketDepthTransactionState;
  wr_projectedBytes : Z;
  wr_writeLimitBytes : Z;
  wr_maximumGapRecords : Z;
  wr_nextSegmentNumber : Z;
  wr_active : bool;
  wr_quotaReached : bool;
  wr_progress : CorpusProducerProgress;
  wr_blocks : list CorpusBlockRange;
  wr_referencePayload : list Z;
  wr_publication : CorpusPublication;
  wr_cutGeneration : Z;
  wr_cutReservedBytes : Z;
  wr_referenceReservedBytes : Z;
  wr_replayAnchorFrozen : bool;
  wr_disk : World;
}.
#[export] Instance BinaryMarketCorpusWriterState_eta : Eta BinaryMarketCorpusWriterState :=
  fun r => MkWriterState (wr_config r) (wr_manifest r) (wr_sources r) (wr_sourceStates r)
    (wr_index r) (wr_gaps r) (wr_segments r) (wr_depthTransactions r) (wr_projectedBytes r)
    (wr_writeLimitBytes r) (wr_maximumGapRecords r) (wr_nextSegmentNumber r) (wr_active r)
    (wr_quotaReached r) (wr_progress r) (wr_blocks r) (wr_referencePayload r)
    (wr_publication r) (wr_cutGeneration r) (wr_cutReservedBytes r)
    (wr_referenceReservedBytes r) (wr_replayAnchorFrozen r) (wr_disk r).
Abbreviation WriterState := BinaryMarketCorpusWriterState.

(** ** Byte arithmetic *)

Definition addWithin (current amount limit : Z) : bool :=
  (amount <=? u64_max - current) && (u64 (current + amount) <=? limit).

Definition kCutHeaderReserveBytes : Z := 4096.
Definition kSourceStorageBytes : Z :=
  sizeofz l_BinaryMarketSource + kBinaryMarketStoredChannelCount * sizeofz l_BinaryMarketGap.
Definition kSourceReservationBytes : Z := 3 * kSourceStorageBytes.
Definition kRecordCutReservationBytes : Z := 2 * sizeofz l_CorpusBlockRange.

(** [None] is [false]: the product does not fit. *)
Definition addProduct (bytes count unitBytes : Z) : option Z :=
  if negb (unitBytes =? 0) && ((u64_max - bytes) / unitBytes <? count) then None
  else Some (u64 (bytes + count * unitBytes)).

Definition cutReservationBytes (sources gaps blocks referenceBytes : Z) : option Z :=
  bytes ← addProduct kCutHeaderReserveBytes sources (sizeofz l_BinaryMarketSource);
  bytes ← addProduct bytes gaps (sizeofz l_BinaryMarketGap);
  bytes ← addProduct bytes blocks (sizeofz l_CorpusBlockRange);
  bytes ← addProduct bytes referenceBytes 1;
  if u64_max / 2 <? bytes then None else Some (u64 (bytes * 2)).

Definition size {A} (xs : list A) : Z := Z.of_nat (length xs).

Section writer.
Context `{CxetMarket} `{ByteBlockCodec}.

Definition reserveBytes (bytes : Z) (s : WriterState) : bool * WriterState :=
  if negb (addWithin (wr_projectedBytes s) bytes (wr_writeLimitBytes s))
  then (false, s <| wr_quotaReached := true |>)
  else (true, s <| wr_projectedBytes ::= fun p => u64 (p + bytes) |>).

(** ** Segments *)

Definition putSegment (shard : nat) (segment : SegmentState) (s : WriterState) : WriterState :=
  s <| wr_segments ::= <[shard := segment]> |>.

(** An operation of the file system, run by the writer. *)
Definition onDisk (f : World -> bool * World) (s : WriterState) : bool * WriterState :=
  let '(ok, disk) := f (wr_disk s) in (ok, s <| wr_disk := disk |>).

(** [writeBytes(segment.stream, ...)] *)
Definition writeSegment (bytes : list Z) (s : WriterState) (segment : SegmentState)
  : bool * (WriterState * SegmentState) :=
  match sg_stream segment with
  | Streaming position =>
      let '(ok, s) := onDisk (writeAt (sg_partialPath segment) position bytes) s in
      (ok, (s, segment <| sg_stream := if ok then Streaming (position + length bytes)
                                       else Broken |>))
  | _ => (false, (s, segment <| sg_stream := Broken |>))
  end.

(** [seekp]: on a stream that is not open it sets the fail bit. *)
Definition seekSegment (position : nat) (segment : SegmentState) : SegmentState :=
  segment <| sg_stream ::= fun stream =>
    match stream with Streaming _ => Streaming position | _ => Broken end |>.

(** [stream.flush()] and [stream.good()]; flushing a closed stream does nothing. *)
Definition flushStream (s : WriterState) (segment : SegmentState)
  : bool * (WriterState * SegmentState) :=
  match sg_stream segment with
  | Streaming position =>
      let '(ok, s) := onDisk attempt s in
      (ok, (s, segment <| sg_stream := if ok then Streaming position else Broken |>))
  | Broken => (false, (s, segment))
  | Closed => (true, (s, segment))
  end.

Definition openSegment (shardIndex : Z) (s : WriterState) : bool * WriterState :=
  let shard := Z.to_nat shardIndex in
  match wr_segments s !! shard with
  | None => (false, s)
  | Some segment =>
      if sg_open segment then (true, s)
      else if wr_nextSegmentNumber s =? u32_max then (false, s)
      else
        let segment := segmentState0
          <| sg_previousShardSequence := sg_previousShardSequence segment |>
          <| sg_previousMonotonicNs := sg_previousMonotonicNs segment |> in
        if negb workspacePrepare then (false, putSegment shard segment s)
        else
          let number := wr_nextSegmentNumber s in
          let s := s <| wr_nextSegmentNumber := u32 (number + 1) |> in
          let segment := segment
            <| sg_header ::= fun h => h
                <| sh_headerBytes := sizeofz l_BinaryMarketSegmentHeader |>
                <| sh_recordBytes := sizeofz l_BinaryMarketRecord |>
                <| sh_segmentNumber := number |>
                <| sh_producerEpoch := cf_producerEpoch (wr_config s) |>
                <| sh_shardIndex := shardIndex |> |>
            <| sg_partialPath := segmentPath shardIndex number Partial |>
            <| sg_finalPath := segmentPath shardIndex number Sealed |> in
          let '(ok, s) := onDisk (openTruncated (sg_partialPath segment)) s in
          if negb ok then (false, putSegment shard (segment <| sg_stream := Broken |>) s)
          else
            let segment := segment <| sg_stream := Streaming 0 |> in
            let '(ok, (s, segment)) :=
              writeSegment (obj l_BinaryMarketSegmentHeader (sg_header segment)) s segment in
            if negb ok then (false, putSegment shard segment s)
            else (true, putSegment shard (segment
              <| sg_projectedBytes := sizeofz l_BinaryMarketSegmentHeader +
                                      sizeofz l_BinaryMarketSegmentFooter |>
              <| sg_open := true |>) s)
  end.

(** The cut's reference to a block that is about to be written. *)
Definition blockRange (segment : SegmentState) (first final : BinaryMarketRecord)
  (block : BinaryMarketBlockHeader) : CorpusBlockRange :=
  MkCorpusBlockRange
    (u64 (sizeofz l_BinaryMarketSegmentHeader + sh_storedBlockBytes (sg_header segment)))
    (h_receiveMonotonicNs (rec_header first)) (h_receiveMonotonicNs (rec_header final))
    (sh_segmentNumber (sg_header segment)) (sh_shardIndex (sg_header segment)) 0 block.

Definition flushBlock (s : WriterState) (segment : SegmentState)
  : bool * (WriterState * SegmentState) :=
  match list.head (sg_pending segment), list.last (sg_pending segment) with
  | Some first, Some final =>
      match encodeBlock (sh_blockCount (sg_header segment)) (sg_pending segment) with
      | None => (false, (s, segment))
      | Some (block, encoded) =>
          let physicalBytes := u64 (sizeofz l_BinaryMarketBlockHeader + size encoded) in
          let range := blockRange segment first final block in
          let reservedBytes := u64 (size (sg_pending segment) * binaryMarketPendingRecordBytes) in
          if reservedBytes <? physicalBytes then (false, (s, segment))
          else
            run (s, segment) := writeSegment (obj l_BinaryMarketBlockHeader block) s segment
              orelse false in
            run (s, segment) := writeSegment encoded s segment orelse false in
            let released := u64 (reservedBytes - physicalBytes) in
            (true,
             (s <| wr_blocks ::= fun blocks => blocks ++ [range] |>
                <| wr_publication ::= retain range encoded |>
                <| wr_projectedBytes ::= fun p => u64 (p - released) |>,
              segment <| sg_projectedBytes ::= fun p => u64 (p - released) |>
                <| sg_header ::= fun h => h
                     <| sh_storedBlockBytes ::= fun b => u64 (b + physicalBytes) |>
                     <| sh_blockCount ::= fun n => u32 (n + 1) |> |>
                <| sg_pending := [] |>))
      end
  | _, _ => (true, (s, segment))
  end.

(** [sealSegment] on an open segment. *)
Definition sealOpen (s : WriterState) (segment : SegmentState)
  : bool * (WriterState * SegmentState) :=
  run (s, segment) := flushBlock s segment orelse false in
  let segment := segment <| sg_header ::= sealHeader |> in
  run (s, segment) := writeSegment (obj l_BinaryMarketSegmentHeader (sg_header segment)) s
    (seekSegment 0 segment) orelse false in
  let fileEnd := length (default [] (w_files (wr_disk s) (sg_partialPath segment))) in
  run (s, segment) := writeSegment
    (obj l_BinaryMarketSegmentFooter (sealFooter (sg_header segment))) s
    (seekSegment fileEnd segment) orelse false in
  run (s, segment) := flushStream s segment orelse false in
  let segment := segment <| sg_stream := Closed |> in
  let '(ok, s) := onDisk (syncFile (sg_partialPath segment)) s in
  if negb ok then (false, (s, segment))
  else
    let '(ok, s) := onDisk (rename (sg_partialPath segment) (sg_finalPath segment)) s in
    if negb ok then (false, (s, segment))
    else
      (true, (s <| wr_manifest ::= fun m => m <| mf_segmentCount ::= fun n => u32 (n + 1) |> |>,
              segment <| sg_open := false |> <| sg_indexPositions := ∅ |>)).

Definition sealSegment (shard : nat) (s : WriterState) : bool * WriterState :=
  match wr_segments s !! shard with
  | None => (false, s)
  | Some segment =>
      if negb (sg_open segment) then (true, s)
      else let '(ok, (s, segment)) := sealOpen s segment in (ok, putSegment shard segment s)
  end.

(** [if (segment.open && !flushBlock(state, segment))] *)
Definition flushShard (shard : nat) (s : WriterState) : bool * WriterState :=
  match wr_segments s !! shard with
  | None => (true, s)
  | Some segment =>
      if negb (sg_open segment) then (true, s)
      else let '(ok, (s, segment)) := flushBlock s segment in (ok, putSegment shard segment s)
  end.

(** A loop over shards that stops at the first failure. *)
Fixpoint forShards (f : nat -> WriterState -> bool * WriterState) (shards : list nat)
  (s : WriterState) : bool * WriterState :=
  match shards with
  | [] => (true, s)
  | shard :: shards => run s := f shard s orelse false in forShards f shards s
  end.
Definition allShards (s : WriterState) : list nat := seq 0 (length (wr_segments s)).

(** The position of the entry, and the state with it. *)
Definition ensureIndex (key : IndexKey) (shardIndex : Z) (s : WriterState)
  (segment : SegmentState) : option (nat * (WriterState * SegmentState)) :=
  match sg_indexPositions segment !! key with
  | Some position => Some (position, (s, segment))
  | None =>
      let position := length (wr_index s) in
      if (cf_maximumBytes (wr_config s) / sizeofz l_BinaryMarketIndexEntry <=? Z.of_nat position) ||
         (u32_max <=? Z.of_nat position) then None
      else
        let '(sourceId, sourceGeneration, channel) := key in
        let entry := MkBinaryMarketIndexEntry (sh_segmentNumber (sg_header segment)) sourceId
          sourceGeneration 0 0 0 0 0 0 0 shardIndex channel Compatibility.ExactTraderReplay in
        Some (position, (s <| wr_index ::= fun index => index ++ [entry] |>,
                         segment <| sg_indexPositions ::= <[key := position]> |>))
  end.

(** ** start *)

(** What [std::filesystem] reports about the configured root. *)
Inductive RootStatus := RootMissing | RootNotDirectory | RootEmpty | RootOccupied.
#[export] Instance RootStatus_eq_dec : EqDecision RootStatus.
Proof. solve_decision. Defined.

(** [BinaryMarketManifest{}] *)
Definition manifest0 : BinaryMarketManifest :=
  MkBinaryMarketManifest kBinaryMarketManifestMagic 0 [0; 0] 0 0 0 0 0 0 0 0 0 0 0 0 0 0 0 0
    StopReason.Requested 0 0 0 0 0 (replicate 40 0) (replicate 16 0).

Definition configInvalid (config : BinaryMarketWriterConfig) : bool :=
  bool_decide (cf_root config = ""%string) || (length (cf_sources config) =? 0)%nat ||
  (cf_producerEpoch config =? 0) || (cf_maximumBytes config =? 0) ||
  (cf_shardCount config =? 0) || (kBinaryMarketMaximumShards <? cf_shardCount config) ||
  (cf_ringCapacity config =? 0) || (cf_startedReceiveNs config <=? 0) ||
  (cf_startedMonotonicNs config =? 0) || (cf_targetDurationNs config =? 0) ||
  (cf_segmentTargetBytes config <? sizeofz l_BinaryMarketSegmentHeader +
     sizeofz l_BinaryMarketRecord + sizeofz l_BinaryMarketSegmentFooter) ||
  (kBinaryMarketMaximumSources <? size (cf_sources config)).

Definition worstRecordBytes : Z :=
  u64 (binaryMarketPendingRecordBytes + kRecordCutReservationBytes +
       sizeofz l_BinaryMarketIndexEntry + sizeofz l_BinaryMarketSegmentHeader +
       sizeofz l_BinaryMarketSegmentFooter).

(** The budget of a recording: gap cells, fixed metadata, the first cut
    reservation and the reserve for the final drain; [None] is [OutOfRange]. *)
Record Budget := MkBudget {
  bg_maximumGapRecords : Z;
  bg_fixedMetadata : Z;
  bg_initialCutReserve : Z;
  bg_finalDrainReserve : Z;
}.
Definition budget (config : BinaryMarketWriterConfig) : option Budget :=
  let sources := size (cf_sources config) in
  maximumGapRecords ← addProduct 0 sources kBinaryMarketStoredChannelCount;
  fixedMetadata ← addProduct kCutHeaderReserveBytes 2 (sizeofz l_BinaryMarketManifest);
  fixedMetadata ← addProduct fixedMetadata 3 (sizeofz l_BinaryMarketTableHeader);
  fixedMetadata ← addProduct fixedMetadata sources kSourceStorageBytes;
  initialCutReserve ← cutReservationBytes sources maximumGapRecords 0 0;
  fixedMetadata ← addProduct fixedMetadata 1 initialCutReserve;
  let ringRecords := u64 (cf_shardCount config * cf_ringCapacity config) in
  if u64_max - ringRecords <? cf_pendingRecordCapacity config then None
  else
    let maximumPendingRecords := u64 (ringRecords + cf_pendingRecordCapacity config) in
    let pendingNewSources :=
      Z.min maximumPendingRecords (kBinaryMarketMaximumSources - sources) in
    finalDrainReserve ← addProduct 0 maximumPendingRecords worstRecordBytes;
    finalDrainReserve ← addProduct finalDrainReserve pendingNewSources kSourceReservationBytes;
    minimumBytes ← addProduct fixedMetadata 1 finalDrainReserve;
    minimumBytes ← addProduct minimumBytes 1 worstRecordBytes;
    if cf_maximumBytes config <? minimumBytes then None
    else Some (MkBudget maximumGapRecords fixedMetadata initialCutReserve finalDrainReserve).

(** The state [start] builds. *)
Definition initialState (config : BinaryMarketWriterConfig) (b : Budget) (disk : World)
  : WriterState := {|
  wr_config := config <| cf_sources := [] |>;
  wr_manifest := manifest0
    <| mf_headerBytes := sizeofz l_BinaryMarketManifest |>
    <| mf_producerEpoch := cf_producerEpoch config |>
    <| mf_startedReceiveNs := cf_startedReceiveNs config |>
    <| mf_replayAnchorReceiveNs := cf_startedReceiveNs config |>
    <| mf_replayAnchorMonotonicNs := cf_startedMonotonicNs config |>
    <| mf_maximumBytes := cf_maximumBytes config |>
    <| mf_segmentTargetBytes := cf_segmentTargetBytes config |>
    <| mf_sourceCount := u32 (size (cf_sources config)) |>
    <| mf_shardCount := cf_shardCount config |>;
  wr_sources := cf_sources config;
  wr_sourceStates := map initialBinaryMarketSourceState (cf_sources config);
  wr_index := []; wr_gaps := [];
  wr_segments := replicate (Z.to_nat (cf_shardCount config)) segmentState0;
  wr_depthTransactions := replicate (Z.to_nat kBinaryMarketMaximumShards) idle;
  wr_projectedBytes := bg_fixedMetadata b;
  wr_writeLimitBytes := cf_maximumBytes config - bg_finalDrainReserve b;
  wr_maximumGapRecords := bg_maximumGapRecords b;
  wr_nextSegmentNumber := 1; wr_active := false; wr_quotaReached := false;
  wr_progress := MkCorpusProducerProgress (cf_producerEpoch config) 0 0 0 (replicate 64 0)
    (cf_shardCount config) (replicate 6 0);
  wr_blocks := []; wr_referencePayload := [];
  wr_publication :=
    newPublication (Z.min (cf_retainedCompressedBytes config) (cf_maximumBytes config));
  wr_cutGeneration := 0; wr_cutReservedBytes := bg_initialCutReserve b;
  wr_referenceReservedBytes := 0; wr_replayAnchorFrozen := false; wr_disk := disk |}.

(** Lines 445-459: an empty root directory with its [segments] directory. *)
Definition createSegments (w : World) : Status * World :=
  run w := attempt w orelse IoError in  (* create_directories(root / "segments") *)
  run w := attempt w orelse IoError in  (* sync of the parent directory *)
  run w := attempt w orelse IoError in  (* sync of the root *)
  (Ok, w).
Definition prepareRoot (root : RootStatus) (w : World) : Status * World :=
  let '(known, w) := attempt w in       (* exists *)
  if known && bool_decide (root <> RootMissing) then
    run w := attempt w orelse InvalidArgument in  (* is_directory *)
    if bool_decide (root = RootNotDirectory) then (InvalidArgument, w)
    else
      run w := attempt w orelse InvalidArgument in  (* is_empty *)
      if bool_decide (root = RootOccupied) then (InvalidArgument, w) else createSegments w
  else if bool_decide (root = RootMissing) then
    run w := attempt w orelse IoError in  (* create_directories(root) *)
    createSegments w
  else (IoError, w).

(** [BinaryMarketCorpusWriter]: [state_] is empty before the first [start]. *)
Definition BinaryMarketCorpusWriter : Type := option WriterState.

Definition start (config : BinaryMarketWriterConfig) (root : RootStatus) (disk : World)
  (writer : BinaryMarketCorpusWriter) : Status * (BinaryMarketCorpusWriter * World) :=
  if default false (wr_active <$> writer) then (InvalidArgument, (writer, disk))
  else if configInvalid config then (InvalidArgument, (writer, disk))
  else if negb (validSources (cf_sources config)) then (InvalidArgument, (writer, disk))
  else
    match budget config with
    | None => (OutOfRange, (writer, disk))
    | Some b =>
        let '(status, disk) := prepareRoot root disk in
        if negb (isOk status) then (status, (writer, disk))
        else
          let s := initialState config b disk in
          let pending := wr_manifest s <| mf_stopReason := StopReason.Error |> in
          let '(ok, s) := onDisk (writeManifestAtomic "manifest.pending" pending) s in
          if negb ok then (IoError, (writer, wr_disk s))
          else (Ok, (Some (s <| wr_active := true |>), wr_disk s))
    end.

(** The guard [!state_ || !state_->active] of every other operation. *)
Definition whenActive (f : WriterState -> Status * WriterState)
  (writer : BinaryMarketCorpusWriter) : Status * BinaryMarketCorpusWriter :=
  match writer with
  | None => (InvalidArgument, None)
  | Some s =>
      if negb (wr_active s) then (InvalidArgument, Some s)
      else let '(status, s) := f s in (status, Some s)
  end.

(** ** registerSources *)

(** The validation loop: the number of sources afterwards. *)
Fixpoint projectSources (existing incoming : list BinaryMarketSource) (projectedCount : Z)
  : option Z :=
  match incoming with
  | [] => Some projectedCount
  | source :: incoming =>
      if (src_sourceId source =? 0) ||
         negb (validBinaryMarketSource source (src_sourceId source - 1)) then None
      else if src_sourceId source <=? size existing then
        match existing !! Z.to_nat (src_sourceId source - 1) with
        | Some known =>
            if negb (sameBinaryMarketSourceIdentity known source) then None
            else projectSources existing incoming projectedCount
        | None => None
        end
      else if (src_sourceId source =? projectedCount + 1) &&
              (projectedCount <? kBinaryMarketMaximumSources) then
        projectSources existing incoming (projectedCount + 1)
      else None
  end.

(** The registration loop. *)
Definition registerSource (s : WriterState) (incoming : BinaryMarketSource) : WriterState :=
  if src_sourceId incoming <=? size (wr_sources s) then s
  else
    let source := incoming <| src_initiallyPresent := 0 |>
                           <| src_initialSourceGeneration := 0 |> in
    s <| wr_sources ::= fun sources => sources ++ [source] |>
      <| wr_sourceStates ::= fun states => states ++ [initialBinaryMarketSourceState source] |>.

Definition registerSourcesActive (sources : list BinaryMarketSource) (s : WriterState)
  : Status * WriterState :=
  if kBinaryMarketMaximumSources <? size sources then (InvalidArgument, s)
  else
    match projectSources (wr_sources s) sources (size (wr_sources s)) with
    | None => (InvalidArgument, s)
    | Some projectedCount =>
        let addedCount := projectedCount - size (wr_sources s) in
        let outOfRange := (OutOfRange, s <| wr_quotaReached := true |>) in
        match addProduct 0 addedCount kSourceReservationBytes,
              addProduct 0 addedCount (2 * kSourceStorageBytes) with
        | Some requiredBytes, Some cutGrowth =>
            if negb (addWithin (wr_cutReservedBytes s) cutGrowth u64_max) ||
               negb (addWithin (wr_projectedBytes s) requiredBytes (wr_writeLimitBytes s))
            then outOfRange
            else
              run s := reserveBytes requiredBytes s orelse OutOfRange in
              let s := s <| wr_cutReservedBytes ::= fun c => u64 (c + cutGrowth) |> in
              let s := fold_left registerSource sources s in
              (Ok, s <| wr_manifest ::= fun m => m
                          <| mf_sourceCount := u32 (size (wr_sources s)) |> |>
                     <| wr_maximumGapRecords :=
                          u64 (size (wr_sources s) * kBinaryMarketStoredChannelCount) |>)
        | _, _ => outOfRange
        end
    end.
Definition registerSources (sources : list BinaryMarketSource) :=
  whenActive (registerSourcesActive sources).

(** ** append *)

(** What the checks of lines 508-527 establish. *)
Record Admission := MkAdmission {
  ad_depthTransaction : BinaryMarketDepthTransactionState;
  ad_addedSource : option BinaryMarketSource;  (* [newSource] with [addedSource] *)
  ad_prospective : BinaryMarketSourceState;
}.

(** [newSource]: the added source of an [Added] lifecycle record. *)
Definition addedSourceOf (record : BinaryMarketRecord) : option BinaryMarketSource :=
  let p := lifecyclePayload record in
  if negb (lc_kind p =? LifecycleKind.Added) || negb (lc_previousSourceGeneration p =? 0)
  then None
  else Some (lc_source p <| src_initiallyPresent := 0 |>).

Definition admission (record : BinaryMarketRecord) (s : WriterState) : Status + Admission :=
  let h := rec_header record in
  let sources := size (wr_sources s) in
  if wr_replayAnchorFrozen s &&
     (h_receiveMonotonicNs h <? mf_replayAnchorMonotonicNs (wr_manifest s))
  then inl CorruptData
  else
    let lifecycle := h_channel h =? Channel.SourceLifecycle in
    if negb (validBinaryMarketRecord record) ||
       (size (wr_segments s) <=? h_shardIndex h) ||
       (sources + (if lifecycle then 1 else 0) <? h_sourceId h) || negb (tailZero record)
    then inl InvalidArgument
    else
      let '(ok, depthTransaction) := advanceBinaryMarketDepthTransaction record
        (nth (Z.to_nat (h_shardIndex h)) (wr_depthTransactions s) idle) in
      if negb ok then inl InvalidArgument
      else
        let newSource := h_sourceId h =? sources + 1 in
        if newSource && (negb lifecycle || (kBinaryMarketMaximumSources <=? sources))
        then inl OutOfRange
        else
          let start :=
            if newSource then
              source ← addedSourceOf record;
              Some (Some source, initialBinaryMarketSourceState source)
            else
              state ← wr_sourceStates s !! Z.to_nat (h_sourceId h - 1);
              Some (None, state) in
          match start with
          | None => inl InvalidArgument
          | Some (added, state) =>
              let '(ok, prospective) := advanceBinaryMarketSourceState record state false in
              if negb ok then inl InvalidArgument
              else inr (MkAdmission depthTransaction added prospective)
          end.

Definition orderRejects (h : BinaryMarketRecordHeader) (segment : SegmentState) : bool :=
  (negb (sg_previousShardSequence segment =? 0) &&
   (h_shardSequence h <=? sg_previousShardSequence segment)) ||
  (negb (sg_previousMonotonicNs segment =? 0) &&
   (h_receiveMonotonicNs h <? sg_previousMonotonicNs segment)).

(** Lines 536-540: a full block or another channel flushes the pending block. *)
Definition mustFlush (h : BinaryMarketRecordHeader) (segment : SegmentState) : bool :=
  sg_open segment && negb (length (sg_pending segment) =? 0)%nat &&
  ((size (sg_pending segment) =? kBinaryMarketBlockRecords) ||
   negb (bool_decide (h_channel ∘ rec_header <$> list.head (sg_pending segment) =
                      Some (h_channel h)))).

Definition mustRotate (segmentTargetBytes : Z) (segment : SegmentState) : bool :=
  sg_open segment && (length (sg_pending segment) =? 0)%nat &&
  negb (sh_recordCount (sg_header segment) =? 0) &&
  ((segmentTargetBytes <? sg_projectedBytes segment) ||
   (u64 (segmentTargetBytes - sg_projectedBytes segment) <? binaryMarketPendingRecordBytes)).

(** Lines 556-582: the bytes a record must pay, and its share for cuts. *)
Definition requiredBytes (newSource openNeeded indexNeeded : bool) (s : WriterState)
  : option (Z * Z) :=
  let cutGrowth := kRecordCutReservationBytes in
  required ← addProduct binaryMarketPendingRecordBytes 1 kRecordCutReservationBytes;
  '(required, cutGrowth) ←
    (if newSource then
       required ← addProduct required 1 kSourceReservationBytes;
       cutGrowth ← addProduct cutGrowth 2 kSourceStorageBytes;
       Some (required, cutGrowth)
     else Some (required, cutGrowth));
  if negb (addWithin (wr_cutReservedBytes s) cutGrowth u64_max) then None
  else
    let fixedSegmentBytes :=
      sizeofz l_BinaryMarketSegmentHeader + sizeofz l_BinaryMarketSegmentFooter in
    required ←
      (if openNeeded then
         if u64_max - fixedSegmentBytes <? required then None
         else if wr_nextSegmentNumber s =? u32_max then None
         else Some (u64 (required + fixedSegmentBytes))
       else Some required);
    if indexNeeded then
      if u64_max - sizeofz l_BinaryMarketIndexEntry <? required then None
      else Some (u64 (required + sizeofz l_BinaryMarketIndexEntry), cutGrowth)
    else Some (required, cutGrowth).

(** Lines 583-586: without room, pending blocks are written to release slack. *)
Definition makeRoom (required : Z) (s : WriterState) : bool * WriterState :=
  if negb (addWithin (wr_projectedBytes s) required (wr_writeLimitBytes s))
  then forShards flushShard (allShards s) s
  else (true, s).

Definition earliest (first value : Z) : Z :=
  if (first =? 0) || (value <? first) then value else first.
Definition latest (last value : Z) : Z := if last <? value then value else last.

(** The record's share in its segment. *)
Definition storeInSegment (record : BinaryMarketRecord) (segment : SegmentState) : SegmentState :=
  let h := rec_header record in
  segment <| sg_pending ::= fun pending => pending ++ [record] |>
    <| sg_previousShardSequence := h_shardSequence h |>
    <| sg_previousMonotonicNs := h_receiveMonotonicNs h |>
    <| sg_header ::= fun header => header
         <| sh_recordsCrc32c ::= fun crc => crc32cUpdate crc (obj l_BinaryMarketRecord record) |>
         <| sh_recordCount ::= fun n => u64 (n + 1) |>
         <| sh_firstReceiveNs ::= fun first => earliest first (h_receiveRealtimeNs h) |>
         <| sh_lastReceiveNs ::= fun last => latest last (h_receiveRealtimeNs h) |> |>
    <| sg_projectedBytes ::= fun p => u64 (p + binaryMarketPendingRecordBytes) |>.

Definition storeInIndex (h : BinaryMarketRecordHeader) (entry : BinaryMarketIndexEntry)
  : BinaryMarketIndexEntry :=
  let entry := entry
    <| ix_recordCount ::= fun n => u64 (n + 1) |>
    <| ix_firstEventSequence ::= fun first => if first =? 0 then h_eventSequence h else first |>
    <| ix_lastEventSequence := h_eventSequence h |>
    <| ix_firstReceiveNs ::= fun first => earliest first (h_receiveRealtimeNs h) |>
    <| ix_lastReceiveNs ::= fun last => latest last (h_receiveRealtimeNs h) |> in
  let entry :=
    if negb (has (h_flags h) RecordFlag.TraderReplayCompatible)
    then entry <| ix_flags ::= fun flags => Z.lor flags IndexFlag.HasRecordedOnly |>
               <| ix_compatibility := Compatibility.RecordedOnly |>
    else entry in
  if has (h_flags h) RecordFlag.GapBoundary
  then entry <| ix_flags ::= fun flags => Z.lor flags IndexFlag.HasGap |>
             <| ix_gapCount ::= fun n => u64 (n + 1) |>
  else entry.

Definition storeInManifest (h : BinaryMarketRecordHeader) (m : BinaryMarketManifest)
  : BinaryMarketManifest :=
  let m := m <| mf_recordCount ::= fun n => u64 (n + 1) |> in
  let m := if h_receiveMonotonicNs h <? mf_replayAnchorMonotonicNs m
    then m <| mf_replayAnchorMonotonicNs := h_receiveMonotonicNs h |>
           <| mf_replayAnchorReceiveNs := h_receiveRealtimeNs h |>
    else m in
  m <| mf_firstReceiveNs ::= fun first => earliest first (h_receiveRealtimeNs h) |>
    <| mf_lastReceiveNs ::= fun last => latest last (h_receiveRealtimeNs h) |>.

(** Lines 595-598. *)
Definition addSource (ad : Admission) (s : WriterState) : WriterState :=
  match ad_addedSource ad with
  | None => s
  | Some source =>
      s <| wr_sources ::= fun sources => sources ++ [source] |>
        <| wr_sourceStates ::= fun states => states ++ [ad_prospective ad] |>
        <| wr_manifest ::= fun m => m <| mf_sourceCount ::= fun n => u32 (n + 1) |> |>
        <| wr_maximumGapRecords ::= fun n => u64 (n + kBinaryMarketStoredChannelCount) |>
  end.

(** Lines 604-655. *)
Definition storeRecord (record : BinaryMarketRecord) (ad : Admission) (position : nat)
  (segment : SegmentState) (s : WriterState) : WriterState :=
  let h := rec_header record in
  let shard := Z.to_nat (h_shardIndex h) in
  putSegment shard (storeInSegment record segment)
    (s <| wr_sourceStates ::= <[Z.to_nat (h_sourceId h - 1) := ad_prospective ad]> |>
       <| wr_depthTransactions ::= <[shard := ad_depthTransaction ad]> |>
       <| wr_index ::= alter (storeInIndex h) position |>
       <| wr_manifest ::= storeInManifest h |>).

(** Lines 599-655: the index entry and the record itself, in an open segment. *)
Definition commitRecord (record : BinaryMarketRecord) (ad : Admission) (s : WriterState)
  : Status * WriterState :=
  let h := rec_header record in
  let key := (h_sourceId h, h_sourceGeneration h, h_channel h) in
  match wr_segments s !! Z.to_nat (h_shardIndex h) with
  | None => (IoError, s)
  | Some segment =>
      match ensureIndex key (h_shardIndex h) s segment with
      | None => (if wr_quotaReached s then OutOfRange else IoError, s)
      | Some (position, (s, segment)) => (Ok, storeRecord record ad position segment s)
      end
  end.

(** Lines 541-659: pay for an admitted record whose shard is up to date, rotate
    and open its segment, and commit it. *)
Definition placeRecord (record : BinaryMarketRecord) (ad : Admission) (segment : SegmentState)
  (s : WriterState) : Status * WriterState :=
  let h := rec_header record in
  let shard := Z.to_nat (h_shardIndex h) in
  let key := (h_sourceId h, h_sourceGeneration h, h_channel h) in
  let rotate := mustRotate (cf_segmentTargetBytes (wr_config s)) segment in
  let openNeeded := negb (sg_open segment) || rotate in
  let indexNeeded := openNeeded || bool_decide (sg_indexPositions segment !! key = None) in
  match requiredBytes (bool_decide (ad_addedSource ad <> None)) openNeeded indexNeeded s with
  | None => (OutOfRange, s)
  | Some (required, cutGrowth) =>
      run s := makeRoom required s orelse IoError in
      run s := reserveBytes required s orelse OutOfRange in
      let s := s <| wr_cutReservedBytes ::= fun c => u64 (c + cutGrowth) |> in
      run s := (if rotate then sealSegment shard s else (true, s)) orelse IoError in
      run s := (if openNeeded then openSegment (h_shardIndex h) s else (true, s))
        orelse IoError in
      commitRecord record ad (addSource ad s)
  end.

Definition appendActive (record : BinaryMarketRecord) (s : WriterState) : Status * WriterState :=
  match admission record s with
  | inl status => (status, s)
  | inr ad =>
      let h := rec_header record in
      let shard := Z.to_nat (h_shardIndex h) in
      match wr_segments s !! shard with
      | None => (InvalidArgument, s)
      | Some segment =>
          if orderRejects h segment then (InvalidArgument, s)
          else
            let '(ok, (s, segment)) :=
              if mustFlush h segment then flushBlock s segment else (true, (s, segment)) in
            let s := putSegment shard segment s in
            if negb ok then (IoError, s) else placeRecord record ad segment s
      end
  end.
Definition append (record : BinaryMarketRecord) := whenActive (appendActive record).

(** ** The other operations *)

Definition beginFinalDrain : BinaryMarketCorpusWriter -> Status * BinaryMarketCorpusWriter :=
  whenActive (fun s => (Ok, s <| wr_writeLimitBytes := cf_maximumBytes (wr_config s) |>)).

Definition gapInvalid (gap : BinaryMarketGap) (s : WriterState) : bool :=
  (gp_sourceId gap =? 0) || (size (wr_sources s) <? gp_sourceId gap) ||
  (gp_sourceGeneration gap =? 0) || (gp_gapEpoch gap =? 0) || (gp_droppedRecords gap =? 0) ||
  negb (gp_gapEpoch gap =? gp_droppedRecords gap) ||
  (gp_firstDroppedEventSequence gap =? 0) || (gp_lastDroppedEventSequence gap =? 0) ||
  (gp_observedReceiveNs gap <=? 0) ||
  negb (((0 <? gp_minimumDroppedReceiveNs gap) &&
         (gp_minimumDroppedReceiveNs gap <=? gp_maximumDroppedReceiveNs gap)) ||
        ((gp_minimumDroppedReceiveNs gap =? 0) && (gp_maximumDroppedReceiveNs gap =? 0))) ||
  (size (wr_segments s) <=? gp_shardIndex gap) ||
  negb (validBinaryMarketRecordChannel (gp_channel gap)) ||
  negb (gp_reserved32 gap =? 0) || negb (gp_reserved8 gap =? 0).

(** The gap cell of the same source and channel. *)
Definition sameCell (gap existing : BinaryMarketGap) : Prop :=
  gp_sourceId existing = gp_sourceId gap /\ gp_channel existing = gp_channel gap.
#[export] Instance sameCell_dec gap existing : Decision (sameCell gap existing).
Proof. unfold sameCell. apply _. Defined.

Definition appendGapActive (gap : BinaryMarketGap) (s : WriterState) : Status * WriterState :=
  if gapInvalid gap s then (InvalidArgument, s)
  else
    match wr_sources s !! Z.to_nat (gp_sourceId gap - 1) with
    | None => (InvalidArgument, s)
    | Some source =>
        if gp_sourceGeneration gap <? src_initialSourceGeneration source
        then (InvalidArgument, s)
        else
          match list_find (sameCell gap) (wr_gaps s) with
          | Some (position, existing) =>
              if gp_gapEpoch gap <? gp_gapEpoch existing then (CorruptData, s)
              else (Ok, s <| wr_gaps ::= <[position := gap]> |>)
          | None =>
              if wr_maximumGapRecords s <=? size (wr_gaps s) then (OutOfRange, s)
              else (Ok, s <| wr_gaps ::= fun gaps => gaps ++ [gap] |>
                          <| wr_manifest ::= fun m => m
                               <| mf_gapCount ::= fun n => u64 (n + 1) |> |>)
          end
    end.
Definition appendGap (gap : BinaryMarketGap) := whenActive (appendGapActive gap).

(** One shard of [updateProgress]. *)
Definition progressRejects (progress : CorpusProducerProgress) (s : WriterState) (n : nat) : bool :=
  let sequence := nth n (pg_shardSequences progress) 0 in
  let transaction := nth n (wr_depthTransactions s) idle in
  (sequence <? nth n (pg_shardSequences (wr_progress s)) 0) ||
  (sg_previousShardSequence (nth n (wr_segments s) segmentState0) <? sequence) ||
  (active transaction &&
   ((t_firstShardSequence transaction <=? sequence) ||
    (t_receiveMonotonicNs transaction <? pg_safeMonotonicNs progress))).

Definition updateProgressActive (progress : CorpusProducerProgress) (s : WriterState)
  : Status * WriterState :=
  if negb (pg_producerEpoch progress =? cf_producerEpoch (wr_config s)) ||
     negb (pg_shardCount progress =? cf_shardCount (wr_config s)) ||
     (pg_safeMonotonicNs progress <? pg_safeMonotonicNs (wr_progress s)) ||
     (pg_lossEpoch progress <? pg_lossEpoch (wr_progress s)) ||
     (pg_directoryRevision progress <? pg_directoryRevision (wr_progress s)) ||
     existsb (progressRejects progress s) (seq 0 (Z.to_nat (pg_shardCount progress)))
  then (InvalidArgument, s)
  else (Ok, s <| wr_progress := progress |>).
Definition updateProgress (progress : CorpusProducerProgress) :=
  whenActive (updateProgressActive progress).

Definition setReferencePayloadActive (payload : list Z) (s : WriterState)
  : Status * WriterState :=
  if (cf_maximumReferenceBytes (wr_config s) <? size payload) ||
     (kCorpusMaximumReferenceBytes <? size payload) then (InvalidArgument, s)
  else
    let growth := if wr_referenceReservedBytes s <? size payload
                  then size payload - wr_referenceReservedBytes s else 0 in
    match addProduct 0 growth 2 with
    | Some requiredBytes =>
        if negb (addWithin (wr_cutReservedBytes s) requiredBytes u64_max) ||
           negb (addWithin (wr_projectedBytes s) requiredBytes (wr_writeLimitBytes s))
        then (OutOfRange, s <| wr_quotaReached := true |>)
        else
          run s := reserveBytes requiredBytes s orelse OutOfRange in
          (Ok, s <| wr_cutReservedBytes ::= fun c => u64 (c + requiredBytes) |>
                 <| wr_referenceReservedBytes ::= fun r => Z.max r (size payload) |>
                 <| wr_referencePayload := payload |>)
    | None => (OutOfRange, s <| wr_quotaReached := true |>)
    end.
Definition setReferencePayload (payload : list Z) :=
  whenActive (setReferencePayloadActive payload).

(** ** Cuts and finalization *)

(** Lines 793-797 for one shard. *)
Definition commitShard (shard : nat) (s : WriterState) : bool * WriterState :=
  match wr_segments s !! shard with
  | None => (true, s)
  | Some segment =>
      if negb (sg_open segment) then (true, s)
      else
        let '(ok, (s, segment)) :=
          (run (s, segment) := flushBlock s segment orelse false in flushStream s segment) in
        let s := putSegment shard segment s in
        if negb ok then (false, s) else onDisk (syncFile (sg_partialPath segment)) s
  end.

(** The cut of the current state, before the reference binder. *)
Definition cutOf (now : Z) (s : WriterState) : CorpusCut :=
  MkCorpusCut (u64 (wr_cutGeneration s + 1)) now (wr_progress s)
    (wr_manifest s <| mf_projectedBytes := wr_projectedBytes s |>) (wr_sources s) (wr_gaps s)
    (wr_blocks s) (wr_referencePayload s) (0 <? mf_finalizedReceiveNs (wr_manifest s)).

(** Lines 812-823: the binder may rewrite the payload in place. *)
Definition bindReference (cut : CorpusCut) (s : WriterState) : Status * CorpusCut :=
  match cf_referenceVisibilityBinder (wr_config s) with
  | None => (Ok, cut)
  | Some binder =>
      let previous := default [] (cut_referencePayload <$> pub_latest (wr_publication s)) in
      let '(result, payload) := binder (cut_referencePayload cut) previous (cut_generation cut)
        (cut_committedMonotonicNs cut) in
      let cut := MkCorpusCut (cut_generation cut) (cut_committedMonotonicNs cut)
        (cut_progress cut) (cut_manifest cut) (cut_sources cut) (cut_gaps cut) (cut_blocks cut)
        payload (cut_finalized cut) in
      if negb (isOk result) then (result, cut)
      else if (cf_maximumReferenceBytes (wr_config s) <? size payload) ||
              (kCorpusMaximumReferenceBytes <? size payload) then (OutOfRange, cut)
      else if negb (size payload =? size (wr_referencePayload s)) then (InvalidArgument, cut)
      else (Ok, cut)
  end.

Definition publishCutActive (now : Z) (s : WriterState) : Status * WriterState :=
  if wr_cutGeneration s =? u64_max then (InvalidArgument, s)
  else
    run s := forShards commitShard (allShards s) s orelse IoError in
    let required := cutReservationBytes (size (wr_sources s)) (size (wr_gaps s))
      (size (wr_blocks s)) (size (wr_referencePayload s)) in
    if match required with
       | None => true
       | Some required => wr_cutReservedBytes s <? required
       end then (CorruptData, s)
    else
      let '(result, cut) := bindReference (cutOf now s) s in
      if negb (isOk result) then (result, s)
      else
        run s := onDisk attempt s orelse IoError in  (* sync of the segments directory *)
        let '(result, disk) := writeCorpusCut cut (wr_disk s) in
        let s := s <| wr_disk := disk |> in
        if negb (isOk result) then (result, s)
        else
          let freeze := negb (mf_recordCount (cut_manifest cut) =? 0) &&
            (mf_replayAnchorMonotonicNs (cut_manifest cut) <?
               pg_safeMonotonicNs (cut_progress cut)) in
          (Ok, s <| wr_replayAnchorFrozen ::= fun frozen => frozen || freeze |>
                 <| wr_cutGeneration ::= fun g => u64 (g + 1) |>
                 <| wr_publication ::= fun p => p <| pub_latest := Some cut |> |>).
Definition publishCut (now : Z) := whenActive (publishCutActive now).

(** Lines 725-741: the fields [finalize] fills in. *)
Definition finalManifest (reason finalizedReceiveNs sourcesCrc indexCrc gapsCrc : Z)
  (s : WriterState) : BinaryMarketManifest :=
  let m := wr_manifest s in
  let started := cf_startedReceiveNs (wr_config s) in
  m <| mf_startedReceiveNs :=
         if 0 <? mf_firstReceiveNs m then Z.min started (mf_firstReceiveNs m) else started |>
    <| mf_finalizedReceiveNs := Z.max (Z.max finalizedReceiveNs started) (mf_lastReceiveNs m) |>
    <| mf_stopReason := reason |>
    <| mf_complete := if reason =? StopReason.Error then 0 else 1 |>
    <| mf_indexCount := u32 (size (wr_index s)) |>
    <| mf_sourcesCrc32c := sourcesCrc |> <| mf_indexCrc32c := indexCrc |>
    <| mf_gapsCrc32c := gapsCrc |> <| mf_projectedBytes := wr_projectedBytes s |>.

(** The three tables: their checksums. *)
Definition writeTables (s : WriterState) : option (Z * Z * Z) * WriterState :=
  let '(sources, disk) := writeTableAtomic l_BinaryMarketSource "sources.bin"
    kBinaryMarketSourcesMagic (wr_sources s) (wr_disk s) in
  match sources with
  | None => (None, s <| wr_disk := disk |>)
  | Some sourcesCrc =>
      let '(index, disk) := writeTableAtomic l_BinaryMarketIndexEntry "index.bin"
        kBinaryMarketIndexMagic (wr_index s) disk in
      match index with
      | None => (None, s <| wr_disk := disk |>)
      | Some indexCrc =>
          let '(gaps, disk) := writeTableAtomic l_BinaryMarketGap "gaps.bin"
            kBinaryMarketGapsMagic (wr_gaps s) disk in
          ((fun gapsCrc => (sourcesCrc, indexCrc, gapsCrc)) <$> gaps, s <| wr_disk := disk |>)
      end
  end.

Definition finalizeActive (reason finalizedReceiveNs now : Z) (s : WriterState)
  : Status * WriterState :=
  if (finalizedReceiveNs <=? 0) || (reason <? StopReason.Requested) ||
     (StopReason.Error <? reason) then (InvalidArgument, s)
  else if existsb active (wr_depthTransactions s) then (CorruptData, s)
  else
    run s := forShards sealSegment (allShards s) s orelse IoError in
    let '(crcs, s) := writeTables s in
    match crcs with
    | None => (IoError, s)
    | Some (sourcesCrc, indexCrc, gapsCrc) =>
        let s := s <| wr_manifest :=
          finalManifest reason finalizedReceiveNs sourcesCrc indexCrc gapsCrc s |> in
        let '(commit, s) := publishCutActive now s in
        if negb (isOk commit) then (commit, s)
        else
          let s := s <| wr_manifest ::= fun m => m
            <| mf_projectedBytes := wr_projectedBytes s |> |> in
          run s := onDisk (writeManifestAtomic "manifest.bin" (wr_manifest s)) s
            orelse IoError in
          (Ok, s <| wr_disk ::= removeFile (RootFile "manifest.pending") |>
                 <| wr_active := false |>)
    end.
Definition finalize (reason finalizedReceiveNs now : Z) :=
  whenActive (finalizeActive reason finalizedReceiveNs now).

Record BinaryMarketWriterSnapshot := MkBinaryMarketWriterSnapshot {
  sn_active : bool;
  sn_quotaReached : bool;
  sn_recordCount : Z;
  sn_gapCount : Z;
  sn_projectedBytes : Z;
  sn_segmentCount : Z;
  sn_firstReceiveNs : Z;
  sn_lastReceiveNs : Z;
}.
Definition snapshot (writer : BinaryMarketCorpusWriter) : BinaryMarketWriterSnapshot :=
  match writer with
  | None => MkBinaryMarketWriterSnapshot false false 0 0 0 0 0 0
  | Some s =>
      let m := wr_manifest s in
      MkBinaryMarketWriterSnapshot (wr_active s) (wr_quotaReached s) (mf_recordCount m)
        (mf_gapCount m) (wr_projectedBytes s) (mf_segmentCount m) (mf_firstReceiveNs m)
        (mf_lastReceiveNs m)
  end.

(** ** Runs *)

(** The calls a client makes after [start]. *)
Inductive Call :=
| RegisterSources (sources : list BinaryMarketSource)
| Append (record : BinaryMarketRecord)
| AppendGap (gap : BinaryMarketGap)
| UpdateProgress (progress : CorpusProducerProgress)
| SetReferencePayload (payload : list Z)
| PublishCut (now : Z)
| BeginFinalDrain
| Finalize (reason finalizedReceiveNs now : Z).

Definition perform (call : Call) : BinaryMarketCorpusWriter -> Status * BinaryMarketCorpusWriter :=
  match call with
  | RegisterSources sources => registerSources sources
  | Append record => append record
  | AppendGap gap => appendGap gap
  | UpdateProgress progress => updateProgress progress
  | SetReferencePayload payload => setReferencePayload payload
  | PublishCut now => publishCut now
  | BeginFinalDrain => beginFinalDrain
  | Finalize reason finalizedReceiveNs now => finalize reason finalizedReceiveNs now
  end.

(** A call receives machine values: its integers have the width of their C++ types. *)
Definition call_ok (call : Call) : Prop :=
  match call with
  | RegisterSources sources => Forall (fits l_BinaryMarketSource) sources
  | Append record => fits l_BinaryMarketRecord record
  | AppendGap gap => fits l_BinaryMarketGap gap
  | UpdateProgress progress => fits l_CorpusProducerProgress progress
  | SetReferencePayload payload => bytes_ok payload
  | PublishCut now => in_u64 now
  | BeginFinalDrain => True
  | Finalize reason finalizedReceiveNs now =>
      in_u8 reason /\ in_i64 finalizedReceiveNs /\ in_u64 now
  end.

Record config_ok (config : BinaryMarketWriterConfig) : Prop := {
  co_sources : Forall (fits l_BinaryMarketSource) (cf_sources config);
  co_epoch : in_u64 (cf_producerEpoch config);
  co_maximum : in_u64 (cf_maximumBytes config);
  co_target : in_u64 (cf_segmentTargetBytes config);
  co_started : in_i64 (cf_startedReceiveNs config);
  co_startedMonotonic : in_u64 (cf_startedMonotonicNs config);
  co_ring : in_u32 (cf_ringCapacity config);
  co_shards : in_u16 (cf_shardCount config);
  co_pending : in_u64 (cf_pendingRecordCapacity config);
  co_binder : forall binder payload previous generation now,
    cf_referenceVisibilityBinder config = Some binder -> bytes_ok payload ->
    bytes_ok (snd (binder payload previous generation now));
}.

(** Runs from a successful [start] with the records they accepted, whatever the
    calls return and whatever fails on the disk. *)
Inductive writer_run (config : BinaryMarketWriterConfig)
  : WriterState -> list BinaryMarketRecord -> Prop :=
| run_started root disk disk' writer s :
    config_ok config -> start config root disk writer = (Ok, (Some s, disk')) ->
    writer_run config s []
| run_called s log call status s' :
    writer_run config s log -> call_ok call ->
    perform call (Some s) = (status, Some s') ->
    writer_run config s' (match call, status with
                          | Append record, Ok => log ++ [record]
                          | _, _ => log
                          end).

End writer.
