(* ===== verification/WriterShape.v ===== *)
(** * WriterShape: what the writer's steps change

    For each step of Writer that touches files, the exact fields it changes: the
    disk is abstracted to "some disk", everything else is an equation.  The
    invariants of WriterInv are preserved by rewriting with these shapes. *)
From stdpp Require Import base list numbers strings gmap.
From S2P Require Import Prelude Codec Layout Format DepthTransaction SourceState Disk Metadata.
From S2P Require Import BlockCodec Cut Segment Writer.
Import Crc32c.
Local Open Scope Z_scope.

Section shape.
Context `{CxetMarket} `{ByteBlockCodec}.

Lemma onDisk_shape f s ok s' :
  onDisk f s = (ok, s') -> exists disk, f (wr_disk s) = (ok, disk) /\ s' = s <| wr_disk := disk |>.
Proof. unfold onDisk. destruct (f (wr_disk s)) as [ok' disk]. intros [= <- <-]. eauto. Qed.

Lemma writeSegment_shape bytes s segment ok s' segment' :
  writeSegment bytes s segment = (ok, (s', segment')) -> exists disk stream,
    s' = s <| wr_disk := disk |> /\ segment' = segment <| sg_stream := stream |>.
Proof.
  unfold writeSegment. destruct (sg_stream segment) as [position| |].
  - destruct (onDisk _ s) as [ok1 s1] eqn:E. apply onDisk_shape in E as (disk & _ & ->).
    intros [= <- <- <-]. eauto.
  - intros [= <- <- <-]. exists (wr_disk s), Broken. by destruct s.
  - intros [= <- <- <-]. exists (wr_disk s), Broken. by destruct s.
Qed.

Lemma flushStream_shape s segment ok s' segment' :
  flushStream s segment = (ok, (s', segment')) -> exists disk stream,
    s' = s <| wr_disk := disk |> /\ segment' = segment <| sg_stream := stream |>.
Proof.
  unfold flushStream. destruct (sg_stream segment) as [position| |] eqn:Es.
  - destruct (onDisk _ s) as [ok1 s1] eqn:E. apply onDisk_shape in E as (disk & _ & ->).
    intros [= <- <- <-]. eauto.
  - intros [= <- <- <-]. exists (wr_disk s), (sg_stream segment). by destruct s, segment.
  - intros [= <- <- <-]. exists (wr_disk s), (sg_stream segment). by destruct s, segment.
Qed.

(** The state after [block] was written for the pending records of [segment]. *)
Definition afterFlush (range : CorpusBlockRange) (encoded : list Z) (released : Z) (disk : World)
  (s : WriterState) : WriterState :=
  s <| wr_disk := disk |>
    <| wr_blocks ::= fun blocks => blocks ++ [range] |>
    <| wr_publication ::= retain range encoded |>
    <| wr_projectedBytes ::= fun p => u64 (p - released) |>.
Definition segmentAfterFlush (physical released : Z) (stream : Stream) (segment : SegmentState)
  : SegmentState :=
  segment <| sg_stream := stream |>
    <| sg_projectedBytes ::= fun p => u64 (p - released) |>
    <| sg_header ::= fun h => h <| sh_storedBlockBytes ::= fun b => u64 (b + physical) |>
                                <| sh_blockCount ::= fun n => u32 (n + 1) |> |>
    <| sg_pending := [] |>.

Definition reserved (segment : SegmentState) : Z :=
  u64 (size (sg_pending segment) * binaryMarketPendingRecordBytes).
Definition physical (encoded : list Z) : Z := u64 (sizeofz l_BinaryMarketBlockHeader + size encoded).

Inductive flush_result (s : WriterState) (segment : SegmentState)
  : bool -> WriterState -> SegmentState -> Prop :=
| flush_idle : sg_pending segment = [] -> flush_result s segment true s segment
| flush_failed disk stream :
    flush_result s segment false (s <| wr_disk := disk |>) (segment <| sg_stream := stream |>)
| flush_written first final block encoded disk stream :
    list.head (sg_pending segment) = Some first -> list.last (sg_pending segment) = Some final ->
    encodeBlock (sh_blockCount (sg_header segment)) (sg_pending segment) = Some (block, encoded) ->
    physical encoded <= reserved segment ->
    (exists s1 segment1 s2 segment2,
      writeSegment (obj l_BinaryMarketBlockHeader block) s segment = (true, (s1, segment1)) /\
      writeSegment encoded s1 segment1 = (true, (s2, segment2)) /\
      wr_disk s2 = disk /\ sg_stream segment2 = stream) ->
    flush_result s segment true
      (afterFlush (blockRange segment first final block) encoded
         (u64 (reserved segment - physical encoded)) disk s)
      (segmentAfterFlush (physical encoded) (u64 (reserved segment - physical encoded)) stream
         segment).

Lemma same_disk (s : WriterState) : s = s <| wr_disk := wr_disk s |>.
Proof. by destruct s. Qed.
Lemma same_stream (segment : SegmentState) : segment = segment <| sg_stream := sg_stream segment |>.
Proof. by destruct segment. Qed.

Lemma flushBlock_shape s segment ok s' segment' :
  flushBlock s segment = (ok, (s', segment')) -> flush_result s segment ok s' segment'.
Proof.
  unfold flushBlock. destruct (list.head (sg_pending segment)) as [first|] eqn:Eh.
  2: { destruct (sg_pending segment) eqn:Ep; [|done]. intros [= <- <- <-]. by constructor. }
  destruct (list.last (sg_pending segment)) as [final|] eqn:El.
  2: { apply last_None in El. rewrite El in Eh. done. }
  assert (flush_result s segment false s segment) as Hfail.
  { pose proof (flush_failed s segment (wr_disk s) (sg_stream segment)) as Hf.
    by rewrite <- same_disk, <- same_stream in Hf. }
  destruct (encodeBlock _ _) as [[block encoded]|] eqn:Eb; [|by intros [= <- <- <-]].
  fold (physical encoded) (reserved segment).
  destruct (Z.ltb_spec (reserved segment) (physical encoded)); [by intros [= <- <- <-]|].
  destruct (writeSegment (obj _ block) s segment) as [ok1 [s1 segment1]] eqn:E1.
  pose proof (writeSegment_shape _ _ _ _ _ _ E1) as (disk1 & stream1 & Hs1 & Hg1).
  destruct ok1; [|intros [= <- <- <-]; subst; exact (flush_failed s segment disk1 stream1)].
  destruct (writeSegment encoded s1 segment1) as [ok2 [s2 segment2]] eqn:E2.
  pose proof (writeSegment_shape _ _ _ _ _ _ E2) as (disk2 & stream2 & Hs2 & Hg2).
  destruct ok2; [|intros [= <- <- <-]; subst; exact (flush_failed s segment disk2 stream2)].
  intros [= <- <- <-].
  assert (wr_disk s2 = disk2 /\ sg_stream segment2 = stream2) as [Hd2 Ht2] by (by subst).
  assert (exists s1 segment1 s2 segment2,
      writeSegment (obj l_BinaryMarketBlockHeader block) s segment = (true, (s1, segment1)) /\
      writeSegment encoded s1 segment1 = (true, (s2, segment2)) /\
      wr_disk s2 = disk2 /\ sg_stream segment2 = stream2) as Hw by eauto 10.
  pose proof (flush_written s segment first final block encoded disk2 stream2 Eh El Eb
    ltac:(lia) Hw) as Hr.
  subst. exact Hr.
Qed.

(** ** Sealing *)

(** Sealing changes a segment's checksum and stream, and on success closes it. *)
Inductive seal_result (s : WriterState) (segment : SegmentState)
  : bool -> WriterState -> SegmentState -> Prop :=
| seal_failed ok s1 segment1 disk header stream :
    flushBlock s segment = (ok, (s1, segment1)) ->
    header = sg_header segment1 \/ header = sealHeader (sg_header segment1) ->
    seal_result s segment false (s1 <| wr_disk := disk |>)
      (segment1 <| sg_header := header |> <| sg_stream := stream |>)
| seal_done s1 segment1 disk :
    flushBlock s segment = (true, (s1, segment1)) ->
    seal_result s segment true
      (s1 <| wr_disk := disk |>
          <| wr_manifest ::= fun m => m <| mf_segmentCount ::= fun n => u32 (n + 1) |> |>)
      (segment1 <| sg_header ::= sealHeader |> <| sg_stream := Closed |>
                <| sg_open := false |> <| sg_indexPositions := ∅ |>).

Lemma sealOpen_shape s segment ok s' segment' :
  sealOpen s segment = (ok, (s', segment')) -> seal_result s segment ok s' segment'.
Proof.
  unfold sealOpen. destruct (flushBlock s segment) as [ok1 [s1 g1]] eqn:E1.
  destruct ok1.
  2: { intros [= <- <- <-]. pose proof (seal_failed s segment _ _ _ (wr_disk s1) (sg_header g1)
         (sg_stream g1) E1 ltac:(by left)) as Hr. destruct s1, g1. exact Hr. }
  pose proof (fun disk stream => seal_failed s segment _ _ _ disk _ stream E1
    (or_intror eq_refl)) as Hfail.
  pose proof (seal_done s segment s1 g1) as Hdone. specialize (fun disk => Hdone disk E1).
  clear E1. intros Hrun.
  destruct (writeSegment _ s1 _) as [ok2 [s2 g2]] eqn:E2 in Hrun.
  apply writeSegment_shape in E2 as (disk2 & stream2 & -> & ->).
  destruct ok2; [|injection Hrun as <- <- <-; exact (Hfail disk2 stream2)].
  destruct (writeSegment _ _ _) as [ok3 [s3 g3]] eqn:E3 in Hrun.
  apply writeSegment_shape in E3 as (disk3 & stream3 & -> & ->).
  destruct ok3; [|injection Hrun as <- <- <-; exact (Hfail disk3 stream3)].
  destruct (flushStream _ _) as [ok4 [s4 g4]] eqn:E4 in Hrun.
  apply flushStream_shape in E4 as (disk4 & stream4 & -> & ->).
  destruct ok4; [|injection Hrun as <- <- <-; exact (Hfail disk4 stream4)].
  destruct (onDisk _ _) as [ok5 s5] eqn:E5 in Hrun.
  apply onDisk_shape in E5 as (disk5 & _ & ->).
  destruct ok5; [|injection Hrun as <- <- <-; exact (Hfail disk5 Closed)]. cbn [negb] in Hrun.
  destruct (onDisk _ _) as [ok6 s6] eqn:E6 in Hrun.
  apply onDisk_shape in E6 as (disk6 & _ & ->).
  destruct ok6; [|injection Hrun as <- <- <-; exact (Hfail disk6 Closed)].
  injection Hrun as <- <- <-. exact (Hdone disk6).
Qed.

(** ** Opening *)

(** The segment [openSegment] puts in place once its file is open. *)
Definition openedSegment (shardIndex : Z) (stream : Stream) (s : WriterState)
  (segment : SegmentState) : SegmentState :=
  segmentState0
    <| sg_previousShardSequence := sg_previousShardSequence segment |>
    <| sg_previousMonotonicNs := sg_previousMonotonicNs segment |>
    <| sg_header := segmentHeader0
        <| sh_headerBytes := 128 |> <| sh_recordBytes := 1024 |>
        <| sh_segmentNumber := wr_nextSegmentNumber s |>
        <| sh_producerEpoch := cf_producerEpoch (wr_config s) |>
        <| sh_shardIndex := shardIndex |> |>
    <| sg_partialPath := segmentPath shardIndex (wr_nextSegmentNumber s) Partial |>
    <| sg_finalPath := segmentPath shardIndex (wr_nextSegmentNumber s) Sealed |>
    <| sg_stream := stream |> <| sg_projectedBytes := 192 |> <| sg_open := true |>.

(** A segment that is not open and keeps the order fences of [segment]. *)
Definition closedSegment (segment fresh : SegmentState) : Prop :=
  sg_open fresh = false /\ sg_pending fresh = [] /\
  sg_previousShardSequence fresh = sg_previousShardSequence segment /\
  sg_previousMonotonicNs fresh = sg_previousMonotonicNs segment /\
  sg_indexPositions fresh = ∅.

Inductive open_result (shardIndex : Z) (s : WriterState) (segment : SegmentState)
  : bool -> WriterState -> Prop :=
| open_already : sg_open segment = true -> open_result shardIndex s segment true s
| open_exhausted : open_result shardIndex s segment false s
| open_failed fresh number disk :
    sg_open segment = false -> wr_nextSegmentNumber s <> u32_max ->
    closedSegment segment fresh ->
    number = wr_nextSegmentNumber s \/ number = u32 (wr_nextSegmentNumber s + 1) ->
    open_result shardIndex s segment false
      (putSegment (Z.to_nat shardIndex) fresh
         (s <| wr_nextSegmentNumber := number |> <| wr_disk := disk |>))
| open_done disk stream :
    sg_open segment = false -> wr_nextSegmentNumber s <> u32_max ->
    open_result shardIndex s segment true
      (putSegment (Z.to_nat shardIndex) (openedSegment shardIndex stream s segment)
         (s <| wr_nextSegmentNumber := u32 (wr_nextSegmentNumber s + 1) |>
            <| wr_disk := disk |>)).

Lemma openSegment_shape shardIndex s segment ok s' :
  wr_segments s !! Z.to_nat shardIndex = Some segment ->
  openSegment shardIndex s = (ok, s') -> open_result shardIndex s segment ok s'.
Proof.
  intros Hg. unfold openSegment. rewrite Hg.
  destruct (sg_open segment) eqn:Eo; [intros [= <- <-]; by constructor|].
  destruct (Z.eqb_spec (wr_nextSegmentNumber s) u32_max) as [|Hn];
    [intros [= <- <-]; by constructor|].
  destruct workspacePrepare; cbn [negb].
  2: { intros [= <- <-]. pose proof (open_failed shardIndex s segment (segmentState0
         <| sg_previousShardSequence := sg_previousShardSequence segment |>
         <| sg_previousMonotonicNs := sg_previousMonotonicNs segment |>)
         (wr_nextSegmentNumber s) (wr_disk s) Eo Hn ltac:(repeat split) ltac:(by left)) as Hr.
       destruct s. exact Hr. }
  intros Hrun.
  destruct (onDisk _ _) as [ok1 s1] eqn:E1 in Hrun. apply onDisk_shape in E1 as (disk1 & _ & ->).
  destruct ok1; cbn [negb] in Hrun.
  2: { injection Hrun as <- <-. apply (open_failed shardIndex s segment); try done.
       right. reflexivity. }
  destruct (writeSegment _ _ _) as [ok2 [s2 g2]] eqn:E2 in Hrun.
  apply writeSegment_shape in E2 as (disk2 & stream2 & -> & ->).
  destruct ok2; cbn [negb] in Hrun; injection Hrun as <- <-.
  - exact (open_done shardIndex s segment disk2 stream2 Eo Hn).
  - apply (open_failed shardIndex s segment _ _ disk2); try done.
    right. reflexivity.
Qed.

End shape.
