(* ===== verification/WriterInv.v ===== *)
(** * WriterInv: the invariant of the corpus writer

    The invariant relates the writer's counters to what it has accepted and
    stored: every byte that is or may still be written is paid for
    ([budget_ok]), the manifest counts the records, segments, gaps and sources
    of the state ([counts_ok]), its fields meet the sealed contract
    ([meta_ok]), the pending rows of a shard are ordered ([seg_ok]) and every
    published block reference is valid ([range_ok]).

    While a record is being placed, some bytes are reserved but not yet used;
    the credits [a] (bytes), [c] (cut bytes) and [o] (an open segment without an
    index entry) account for them.  Between calls all credits are zero. *)
From stdpp Require Import base list numbers strings gmap.
From S2P Require Import Prelude Codec Layout Format DepthTransaction SourceState Disk Metadata.
From S2P Require Import BlockCodec Cut Segment Writer WriterShape.
Import Crc32c.
Local Open Scope Z_scope.

(** Sizes of the stored objects as numbers. *)
Ltac sizes :=
  unfold kSourceReservationBytes, kRecordCutReservationBytes, kSourceStorageBytes,
    kCutHeaderReserveBytes, kBinaryMarketMaximumSources in *;
  change (sizeofz l_BinaryMarketSource) with 272 in *;
  change (sizeofz l_BinaryMarketGap) with 80 in *;
  change kBinaryMarketStoredChannelCount with 9 in *;
  change (sizeofz l_BinaryMarketManifest) with 192 in *;
  change (sizeofz l_BinaryMarketTableHeader) with 64 in *;
  change (sizeofz l_BinaryMarketSegmentHeader) with 128 in *;
  change (sizeofz l_BinaryMarketSegmentFooter) with 64 in *;
  change (sizeofz l_BinaryMarketBlockHeader) with 64 in *;
  change (sizeofz l_BinaryMarketIndexEntry) with 72 in *;
  change (sizeofz l_BinaryMarketRecord) with 1024 in *;
  change (sizeofz l_CorpusBlockRange) with 96 in *.

(** The fields of an updated state. *)
Ltac wfields :=
  cbn [upd putSegment afterFlush segmentAfterFlush wr_config wr_manifest wr_sources
    wr_sourceStates wr_index wr_gaps wr_segments wr_depthTransactions wr_projectedBytes
    wr_writeLimitBytes wr_maximumGapRecords wr_nextSegmentNumber wr_active wr_quotaReached
    wr_progress wr_blocks wr_referencePayload wr_publication wr_cutGeneration
    wr_cutReservedBytes wr_referenceReservedBytes wr_replayAnchorFrozen wr_disk
    sg_stream sg_partialPath sg_finalPath sg_header sg_indexPositions sg_projectedBytes
    sg_pending sg_previousShardSequence sg_previousMonotonicNs sg_open
    sh_magic sh_headerBytes sh_recordBytes sh_segmentNumber sh_producerEpoch sh_recordCount
    sh_firstReceiveNs sh_lastReceiveNs sh_shardIndex sh_recordsCrc32c sh_headerCrc32c
    sh_storedBlockBytes sh_blockCount sh_codecId
    mf_recordCount mf_gapCount mf_sourceCount mf_segmentCount rg_header blockRange] in *.

Section invariant.
Context `{CxetMarket} `{Codec : ByteBlockCodec} `{!ByteBlockLaws Codec}.

Abbreviation PR := binaryMarketPendingRecordBytes.

Lemma PR_bounds : 64 <= PR < 2 ^ 33.
Proof.
  unfold binaryMarketPendingRecordBytes.
  pose proof (bound_u32 (binaryMarketBlockLayout Channel.Depth) 1
    ltac:(unfold kBinaryMarketBlockRecords; lia)).
  change (sizeofz l_BinaryMarketBlockHeader) with 64. change (2 ^ 33) with 8589934592.
  rewrite u64_id; mlia.
Qed.

(** ** Totals *)

Definition pendingOf (segments : list SegmentState) : Z :=
  sumZ (fun g => size (sg_pending g)) segments.
Definition opensOf (segments : list SegmentState) : Z :=
  sumZ (fun g => if sg_open g then 1 else 0) segments.
Definition storedOf (segments : list SegmentState) : Z :=
  sumZ (fun g => if sg_open g then sh_storedBlockBytes (sg_header g) else 0) segments.
Definition blockBytes (blocks : list CorpusBlockRange) : Z :=
  sumZ (fun r => 64 + bh_encodedBytes (rg_header r)) blocks.
Definition blockRecords (blocks : list CorpusBlockRange) : Z :=
  sumZ (fun r => bh_recordCount (rg_header r)) blocks.

(** Everything the recording stores or may have to store: fixed metadata, the
    rows of the source, gap and index tables, both cut files, the blocks written,
    the pending rows at their worst size, and the frame of each segment. *)
Definition footprint (s : WriterState) : Z :=
  kCutHeaderReserveBytes + 2 * sizeofz l_BinaryMarketManifest +
  3 * sizeofz l_BinaryMarketTableHeader + kSourceStorageBytes * size (wr_sources s) +
  wr_cutReservedBytes s + PR * pendingOf (wr_segments s) + blockBytes (wr_blocks s) +
  (sizeofz l_BinaryMarketSegmentHeader + sizeofz l_BinaryMarketSegmentFooter) *
    (wr_nextSegmentNumber s - 1) +
  sizeofz l_BinaryMarketIndexEntry * size (wr_index s).

(** What two cut files need once every pending row has its own block. *)
Definition cutNeeded (s : WriterState) : Z :=
  2 * (kCutHeaderReserveBytes + kSourceStorageBytes * size (wr_sources s) +
       sizeofz l_CorpusBlockRange * (size (wr_blocks s) + pendingOf (wr_segments s)) +
       wr_referenceReservedBytes s).

(** ** The parts of the invariant *)

Record budget_ok (a c : Z) (s : WriterState) : Prop := {
  bd_paid : footprint s + a <= wr_projectedBytes s;
  bd_limit : wr_projectedBytes s <= wr_writeLimitBytes s;
  bd_maximum : wr_writeLimitBytes s <= cf_maximumBytes (wr_config s);
  bd_u64 : cf_maximumBytes (wr_config s) <= u64_max;
  bd_cut : cutNeeded s + c <= wr_cutReservedBytes s;
  bd_records : 2 * kCutHeaderReserveBytes + 192 * mf_recordCount (wr_manifest s) + c <=
    wr_cutReservedBytes s;
  bd_reference : size (wr_referencePayload s) <= wr_referenceReservedBytes s <=
    kCorpusMaximumReferenceBytes;
  bd_gaps : size (wr_gaps s) <= wr_maximumGapRecords s;
  bd_cells : wr_maximumGapRecords s = 9 * size (wr_sources s);
  bd_sources : 1 <= size (wr_sources s) <= kBinaryMarketMaximumSources;
  bd_next : 1 <= wr_nextSegmentNumber s <= u32_max;
  bd_stored : storedOf (wr_segments s) <= blockBytes (wr_blocks s);
}.

Record counts_ok (o : Z) (s : WriterState) : Prop := {
  ct_sources : mf_sourceCount (wr_manifest s) = size (wr_sources s);
  ct_gaps : mf_gapCount (wr_manifest s) = size (wr_gaps s);
  ct_shards : size (wr_segments s) = cf_shardCount (wr_config s);
  ct_segments : 0 <= mf_segmentCount (wr_manifest s) /\
    mf_segmentCount (wr_manifest s) + opensOf (wr_segments s) <= wr_nextSegmentNumber s - 1;
  ct_index :
    mf_segmentCount (wr_manifest s) + opensOf (wr_segments s) <= size (wr_index s) + o \/
    u32_max <= size (wr_index s);
  ct_some : mf_recordCount (wr_manifest s) = 0 <-> wr_index s = [];
  ct_open : mf_recordCount (wr_manifest s) <> 0 ->
    1 <= mf_segmentCount (wr_manifest s) + opensOf (wr_segments s);
  ct_records : blockRecords (wr_blocks s) + pendingOf (wr_segments s) =
    mf_recordCount (wr_manifest s);
}.

(** The receive stamps of the manifest. *)
Record times_ok (started : Z) (m : BinaryMarketManifest) : Prop := {
  tm_none : mf_recordCount m = 0 -> mf_firstReceiveNs m = 0 /\ mf_lastReceiveNs m = 0;
  tm_some : mf_recordCount m <> 0 -> 0 < mf_firstReceiveNs m <= mf_lastReceiveNs m;
  tm_anchorMonotonic : mf_replayAnchorMonotonicNs m <> 0;
  tm_anchor : mf_replayAnchorReceiveNs m = started \/
    mf_recordCount m <> 0 /\
    mf_firstReceiveNs m <= mf_replayAnchorReceiveNs m <= mf_lastReceiveNs m;
}.

(** The manifest fields that never change. *)
Record static_ok (config : BinaryMarketWriterConfig) (m : BinaryMarketManifest) : Prop := {
  st_magic : mf_magic m = kBinaryMarketManifestMagic;
  st_headerBytes : mf_headerBytes m = 192;
  st_epoch : mf_producerEpoch m = cf_producerEpoch config;
  st_maximum : mf_maximumBytes m = cf_maximumBytes config;
  st_target : mf_segmentTargetBytes m = cf_segmentTargetBytes config;
  st_shards : mf_shardCount m = cf_shardCount config;
  st_reserved : mf_reserved m = replicate 40 0;
}.

Record meta_ok (s : WriterState) : Prop := {
  me_static : static_ok (wr_config s) (wr_manifest s);
  me_times : times_ok (cf_startedReceiveNs (wr_config s)) (wr_manifest s);
  me_started : 0 < mf_startedReceiveNs (wr_manifest s);
  me_fits : fits l_BinaryMarketManifest (wr_manifest s);
  me_sources : Forall (fits l_BinaryMarketSource) (wr_sources s) /\
    validSources (wr_sources s) = true;
  me_gaps : Forall (fits l_BinaryMarketGap) (wr_gaps s);
  me_progress : fits l_CorpusProducerProgress (wr_progress s) /\
    pg_producerEpoch (wr_progress s) = cf_producerEpoch (wr_config s) /\
    pg_shardCount (wr_progress s) = cf_shardCount (wr_config s);
  me_payload : bytes_ok (wr_referencePayload s);
  me_generation : in_u64 (wr_cutGeneration s);
}.

(** A shard's segment: [sources] registered sources, segment numbers below [next]. *)
Record seg_ok (shard sources next : Z) (g : SegmentState) : Prop := {
  sg_room : (length (sg_pending g) <= 256)%nat;
  sg_closed : sg_open g = false -> sg_pending g = [];
  sg_counters : sg_open g = true ->
    sh_shardIndex (sg_header g) = shard /\ 1 <= sh_segmentNumber (sg_header g) < next /\
    0 <= sh_storedBlockBytes (sg_header g) /\ in_u32 (sh_blockCount (sg_header g));
  sg_channel : forall first row, list.head (sg_pending g) = Some first ->
    row ∈ sg_pending g -> h_channel (rec_header row) = h_channel (rec_header first);
  sg_chain : exists ps pm, chain shard sources ps pm (sg_pending g) /\
    lastSequence ps (sg_pending g) = sg_previousShardSequence g /\
    lastMonotonic pm (sg_pending g) = sg_previousMonotonicNs g;
}.

Definition range_ok (config : BinaryMarketWriterConfig) (range : CorpusBlockRange) : Prop :=
  fits l_CorpusBlockRange range /\
  cutRangeInvalid range (cf_shardCount config) (cf_maximumBytes config) = false.

(** What [start] checked of the configuration. *)
Record cfg_ok (config : BinaryMarketWriterConfig) : Prop := {
  cf_epoch : in_u64 (cf_producerEpoch config) /\ cf_producerEpoch config <> 0;
  cf_max : in_u64 (cf_maximumBytes config);
  cf_target : in_u64 (cf_segmentTargetBytes config) /\ 1216 <= cf_segmentTargetBytes config;
  cf_started : in_i64 (cf_startedReceiveNs config) /\ 0 < cf_startedReceiveNs config;
  cf_shards : 1 <= cf_shardCount config <= kBinaryMarketMaximumShards;
  cf_bytes : forall binder payload previous generation now,
    cf_referenceVisibilityBinder config = Some binder -> bytes_ok payload ->
    bytes_ok (snd (binder payload previous generation now));
}.

(** The gap table: valid rows, one cell for each source and channel. *)
Definition gaps_ok (s : WriterState) : Prop :=
  Forall (fun gap => cutGapInvalid gap (size (wr_sources s)) (cf_shardCount (wr_config s)) = false)
    (wr_gaps s) /\ NoDup (gapCell <$> wr_gaps s).

(** Index positions are positions of the index. *)
Definition positions_ok (s : WriterState) : Prop :=
  forall shard g key position, wr_segments s !! shard = Some g ->
    sg_indexPositions g !! key = Some position -> (position < length (wr_index s))%nat.

Record winv (a c o : Z) (s : WriterState) : Prop := {
  wi_config : cfg_ok (wr_config s);
  wi_gaps : gaps_ok s;
  wi_budget : budget_ok a c s;
  wi_counts : counts_ok o s;
  wi_meta : meta_ok s;
  wi_segments : forall shard g, wr_segments s !! shard = Some g ->
    seg_ok (Z.of_nat shard) (size (wr_sources s)) (wr_nextSegmentNumber s) g;
  wi_blocks : Forall (range_ok (wr_config s)) (wr_blocks s);
  wi_positions : positions_ok s;
  wi_index : size (wr_index s) <= u32_max;
}.

(** ** Blocks *)

Lemma chain_sources shard sources sources' rows : forall ps pm,
  sources <= sources' -> chain shard sources ps pm rows -> chain shard sources' ps pm rows.
Proof.
  induction rows as [|row rows IH]; intros ps pm Hle; [done|].
  intros [(H1 & H2 & H3 & H4 & H5) Hc]. split; [|by apply IH].
  exact (conj H1 (conj H2 (conj H3 (conj (Z.le_trans _ _ _ H4 Hle) H5)))).
Qed.

Lemma chain_span_monotonic shard sources rows : forall ps pm first final,
  chain shard sources ps pm rows -> list.head rows = Some first -> list.last rows = Some final ->
  h_receiveMonotonicNs (rec_header first) <= h_receiveMonotonicNs (rec_header final).
Proof.
  induction rows as [|row rows IH]; intros ps pm first final; [done|].
  intros [(_ & Hv & _) Hc] [= <-] Hl. destruct rows as [|row' rows].
  - injection Hl as <-. lia.
  - pose proof (IH _ _ row' final Hc eq_refl Hl) as Hle.
    destruct Hc as [(_ & _ & _ & _ & _ & _ & Hm) _].
    destruct (valid_row_fences _ Hv) as (_ & Hne & _). lia.
Qed.

Lemma chain_row shard sources rows : forall ps pm row,
  chain shard sources ps pm rows -> row ∈ rows ->
  fits l_BinaryMarketRecord row /\ validBinaryMarketRecord row = true /\
  h_shardIndex (rec_header row) = shard /\ h_sourceId (rec_header row) <= sources /\
  tailZero row = true.
Proof.
  induction rows as [|r rows IH]; intros ps pm row; [by intros _ ?%elem_of_nil|].
  intros [(? & ? & ? & ? & ? & _) Hc] [->|Hin]%elem_of_cons; [done|eauto].
Qed.

Lemma head_elem {A} (xs : list A) x : list.head xs = Some x -> x ∈ xs.
Proof. destruct xs; [done|]. intros [= <-]. apply elem_of_cons. by left. Qed.
Lemma last_elem {A} (xs : list A) x : list.last xs = Some x -> x ∈ xs.
Proof. intros [ys ->]%last_Some. apply elem_of_app. right. by apply list_elem_of_singleton. Qed.

Lemma encodeBlock_room n rows b encoded :
  encodeBlock n rows = Some (b, encoded) -> n <> u32_max.
Proof.
  unfold encodeBlock. destruct (list.head rows), (list.last rows); try done.
  destruct (encodeByteBlock _ _); [|done]. cbn [mbind option_bind]. on_if E; [done|]. by bsplit.
Qed.

(** The block [flushBlock] builds, and what the compressor's bound says of it. *)
Lemma flushed_block shard sources next g b encoded :
  seg_ok shard sources next g -> sg_pending g <> [] ->
  encodeBlock (sh_blockCount (sg_header g)) (sg_pending g) = Some (b, encoded) ->
  block_of (sh_blockCount (sg_header g)) (sg_pending g) b encoded /\
  bh_encodedBytes b <= byteBlockEncodeBound (binaryMarketBlockLayout (bh_channel b))
    (bh_recordCount b).
Proof.
  intros Hg Hne He. destruct (sg_chain _ _ _ _ Hg) as (ps & pm & Hc & _).
  pose proof (chain_fits _ _ _ _ _ Hc) as Hf. pose proof (sg_room _ _ _ _ Hg) as Hroom.
  assert (sg_open g = true) as Ho
    by (destruct (sg_open g) eqn:E; [done|]; by apply (sg_closed _ _ _ _ Hg) in E).
  destruct (sg_counters _ _ _ _ Hg Ho) as (_ & _ & _ & Hn).
  apply encodeBlock_room in He as Hmax.
  assert (block_of (sh_blockCount (sg_header g)) (sg_pending g) b encoded) as Hb
    by (apply encodeBlock_block_of; try done; mlia).
  split; [done|]. destruct Hb as [_ Henc _ _ _ _ (_ & _ & _ & -> & _ & -> & _)].
  eapply encode_bound; [done|]. rewrite records_length by done.
  change (bl_recordBytes _) with 1024. lia.
Qed.

Lemma CorpusBlockRange_fits r :
  in_u64 (rg_offset r) -> in_u64 (rg_firstMonotonicNs r) -> in_u64 (rg_lastMonotonicNs r) ->
  in_u32 (rg_segmentNumber r) -> in_u16 (rg_shardIndex r) -> in_u16 (rg_reserved r) ->
  fits l_BinaryMarketBlockHeader (rg_header r) -> fits l_CorpusBlockRange r.
Proof.
  intros H1 H2 H3 H4 H5 H6 Hb. unfold in_u64, in_u32, in_u16 in *.
  repeat split; first [apply H1|apply H2|apply H3|apply H4|apply H5|apply H6|apply Hb].
Qed.

Lemma blockRange_ok config shard sources next g first final b encoded :
  cfg_ok config -> seg_ok shard sources next g -> 0 <= shard < cf_shardCount config ->
  next <= u32_max -> 128 + sh_storedBlockBytes (sg_header g) <= cf_maximumBytes config ->
  list.head (sg_pending g) = Some first -> list.last (sg_pending g) = Some final ->
  encodeBlock (sh_blockCount (sg_header g)) (sg_pending g) = Some (b, encoded) ->
  range_ok config (blockRange g first final b).
Proof.
  intros Hcfg Hg Hshard Hnext Hoff Hh Hl He.
  assert (sg_pending g <> []) as Hne by (intros E; by rewrite E in Hh).
  destruct (flushed_block _ _ _ _ _ _ Hg Hne He) as [Hb Hbound].
  assert (sg_open g = true) as Ho
    by (destruct (sg_open g) eqn:E; [done|]; by apply (sg_closed _ _ _ _ Hg) in E).
  destruct (sg_counters _ _ _ _ Hg Ho) as (Hi & Hnum & Hst & Hn).
  destruct (sg_chain _ _ _ _ Hg) as (ps & pm & Hc & _).
  destruct (chain_row _ _ _ _ _ _ Hc (head_elem _ _ Hh)) as (Hff & Hfv & _).
  destruct (chain_row _ _ _ _ _ _ Hc (last_elem _ _ Hl)) as (Hlf & Hlv & _).
  destruct (record_bounds _ Hff) as (_ & _ & Hfm & _).
  destruct (record_bounds _ Hlf) as (_ & _ & Hlm & _).
  destruct (valid_row_fences _ Hfv) as (Hfs & Hfz & _ & Hch).
  pose proof (chain_span _ _ _ _ _ _ _ Hc Hh Hl) as Hss.
  pose proof (chain_span_monotonic _ _ _ _ _ _ _ Hc Hh Hl) as Hsm.
  pose proof (cf_max _ Hcfg) as Hmax. pose proof (cf_shards _ Hcfg) as Hsh.
  unfold kBinaryMarketMaximumShards in Hsh.
  pose proof (sg_room _ _ _ _ Hg) as Hroom.
  destruct Hb as [Hbf _ Hbn Hbc Hb1 Hb2 (Hm & Hhb & Hbnum & Hcnt & Hraw & Henc & _ & _ & Hres & Hcrc)].
  rewrite Hh in Hbc, Hb1. rewrite Hl in Hb2. cbn in Hbc, Hb1, Hb2.
  injection Hbc as Hbc. injection Hb1 as Hb1. injection Hb2 as Hb2.
  assert (0 < Z.of_nat (length encoded)) as Hpos by (destruct encoded; [done|]; cbn; lia).
  assert (0 < Z.of_nat (length (sg_pending g))) as Hpp
    by (destruct (sg_pending g); [done|]; cbn; lia).
  rewrite Hbc in Hch. rewrite Hcnt in Hbound.
  unfold blockRange. change (sizeofz l_BinaryMarketSegmentHeader) with 128.
  rewrite u64_id by mlia.
  split; [apply CorpusBlockRange_fits; cbn [rg_offset rg_firstMonotonicNs rg_lastMonotonicNs
    rg_segmentNumber rg_shardIndex rg_reserved rg_header]; first [assumption|mlia]|].
  unfold cutRangeInvalid. cbn [rg_offset rg_firstMonotonicNs rg_lastMonotonicNs
    rg_segmentNumber rg_shardIndex rg_reserved rg_header].
  rewrite Hi, Hm, Hhb, Hbnum, Hcnt, Hraw, Hres, Hch, <- Hcrc, Henc, <- Hb1, <- Hb2.
  change (bl_recordBytes _) with 1024. rewrite u64_id by mlia.
  change (sizeofz l_BinaryMarketSegmentHeader) with 128.
  change (sizeofz l_BinaryMarketBlockHeader) with 64.
  change (zero_bytes (replicate 11 0)) with true. rewrite !Z.eqb_refl.
  unfold kBinaryMarketBlockRecords.
  repeat (apply orb_false_intro); try reflexivity;
    first [apply Z.eqb_neq | apply Z.ltb_ge | apply Z.leb_gt]; mlia.
Qed.

(** ** Replacing one segment *)

Lemma put_sums (f : SegmentState -> Z) shard s :
  (shard < length (wr_segments s))%nat -> exists rest,
    forall g', sumZ f (wr_segments (putSegment shard g' s)) = rest + f g'.
Proof.
  intros [old Hold]%lookup_lt_is_Some_2. exists (sumZ f (wr_segments s) - f old).
  intros g'. exact (sumZ_insert f _ _ _ g' Hold).
Qed.

Lemma put_lookup shard g s : (shard < length (wr_segments s))%nat ->
  wr_segments (putSegment shard g s) !! shard = Some g.
Proof. intros Hl. by apply list_lookup_insert_eq. Qed.

Lemma put_other shard i g s : i <> shard ->
  wr_segments (putSegment shard g s) !! i = wr_segments s !! i.
Proof. intros Hne. by apply list_lookup_insert_ne. Qed.

Lemma put_same shard g s : wr_segments s !! shard = Some g -> putSegment shard g s = s.
Proof.
  destruct s. intros Hg. cbn in Hg. unfold putSegment. cbn. f_equal. by apply list_insert_id.
Qed.

Lemma put_positions shard g g' s s' :
  (shard < length (wr_segments s))%nat -> wr_segments s' = wr_segments s ->
  wr_index s' = wr_index s ->
  sg_indexPositions g' = sg_indexPositions g \/ sg_indexPositions g' = ∅ ->
  positions_ok (putSegment shard g s) -> positions_ok (putSegment shard g' s').
Proof.
  intros Hl Hs Hx Hg Hok i h key position. destruct (decide (i = shard)) as [->|Hi].
  - rewrite put_lookup by (by rewrite Hs). intros [= <-].
    change (wr_index (putSegment shard g' s')) with (wr_index s'). rewrite Hx.
    destruct Hg as [-> | ->]; [|by rewrite lookup_empty].
    intros Hp. by apply (Hok shard g key); [apply put_lookup|].
  - rewrite put_other, Hs by done. rewrite <- (put_other shard _ g) by done.
    change (wr_index (putSegment shard g' s')) with (wr_index s'). rewrite Hx. apply Hok.
Qed.

(** The invariant reads a segment's header counters, pending rows, fences and open
    mark, not its stream, paths, checksum or index positions. *)
Record seg_agree (g g' : SegmentState) : Prop := {
  ag_pending : sg_pending g' = sg_pending g;
  ag_open : sg_open g' = sg_open g;
  ag_sequence : sg_previousShardSequence g' = sg_previousShardSequence g;
  ag_monotonic : sg_previousMonotonicNs g' = sg_previousMonotonicNs g;
  ag_shard : sh_shardIndex (sg_header g') = sh_shardIndex (sg_header g);
  ag_number : sh_segmentNumber (sg_header g') = sh_segmentNumber (sg_header g);
  ag_stored : sh_storedBlockBytes (sg_header g') = sh_storedBlockBytes (sg_header g);
  ag_blocks : sh_blockCount (sg_header g') = sh_blockCount (sg_header g);
  ag_positions : sg_indexPositions g' = sg_indexPositions g \/ sg_indexPositions g' = ∅;
}.

Lemma seg_ok_agree shard sources next g g' :
  seg_agree g g' -> seg_ok shard sources next g -> seg_ok shard sources next g'.
Proof.
  intros [Hp Ho Hs Hm Hi Hn Hst Hb _] [H1 H2 H3 H4 H5].
  split; rewrite ?Hp, ?Ho, ?Hs, ?Hm, ?Hi, ?Hn, ?Hst, ?Hb; assumption.
Qed.

(** The segments after a replacement, given those before. *)
Lemma put_segments shard g g' s s' sources sources' next next' :
  (shard < length (wr_segments s))%nat -> wr_segments s' = wr_segments s ->
  sources <= sources' -> next <= next' ->
  (forall i h, wr_segments (putSegment shard g s) !! i = Some h ->
     seg_ok (Z.of_nat i) sources next h) ->
  seg_ok (Z.of_nat shard) sources' next' g' ->
  forall i h, wr_segments (putSegment shard g' s') !! i = Some h ->
    seg_ok (Z.of_nat i) sources' next' h.
Proof.
  intros Hl Hs Hle Hn Hall Hg' i h. destruct (decide (i = shard)) as [->|Hi].
  - rewrite put_lookup by (by rewrite Hs). by intros [= <-].
  - rewrite put_other, Hs by done. rewrite <- (put_other shard _ g) by done. intros Hh.
    destruct (Hall _ _ Hh) as [H1 H2 H3 H4 (ps & pm & Hc & H5)]. split; try done.
    + intros Ho. destruct (H3 Ho) as (? & ? & ?). split; [done|]. split; [lia|done].
    + exists ps, pm. split; [by eapply chain_sources|done].
Qed.

(** Replacing a segment by one that agrees with it, on any disk. *)
Lemma winv_agree a c o shard s g g' disk :
  (shard < length (wr_segments s))%nat -> seg_agree g g' ->
  winv a c o (putSegment shard g s) ->
  winv a c o (putSegment shard g' (s <| wr_disk := disk |>)).
Proof.
  intros Hl Hag Hinv.
  destruct (put_sums (fun g => size (sg_pending g)) shard s Hl) as [rp Hp].
  destruct (put_sums (fun g => if sg_open g then 1 else 0) shard s Hl) as [ro Ho].
  destruct (put_sums (fun g => if sg_open g then sh_storedBlockBytes (sg_header g) else 0)
    shard s Hl) as [rs Hs].
  assert (pendingOf (wr_segments (putSegment shard g' s)) =
          pendingOf (wr_segments (putSegment shard g s))) as Ep.
  { unfold pendingOf. rewrite !Hp. by rewrite (ag_pending _ _ Hag). }
  assert (opensOf (wr_segments (putSegment shard g' s)) =
          opensOf (wr_segments (putSegment shard g s))) as Eo.
  { unfold opensOf. rewrite !Ho. by rewrite (ag_open _ _ Hag). }
  assert (storedOf (wr_segments (putSegment shard g' s)) =
          storedOf (wr_segments (putSegment shard g s))) as Es.
  { unfold storedOf. rewrite !Hs. by rewrite (ag_open _ _ Hag), (ag_stored _ _ Hag). }
  assert (size (wr_segments (putSegment shard g' s)) =
          size (wr_segments (putSegment shard g s))) as El.
  { unfold size. cbn. by rewrite !length_insert. }
  destruct Hinv as [Hcfg Hgaps Hbud Hcnt Hmeta Hsegs Hblocks Hpos].
  split; try assumption.
  - destruct Hbud as [B1 B2 B3 B4 B5 B6 B7 B8 B9 B10 B11 B12].
    unfold footprint, cutNeeded in B1, B5. rewrite <- Ep in B1, B5. rewrite <- Es in B12.
    split; assumption.
  - destruct Hcnt as [C1 C2 C3 C4 C5 C6 C7 C8]. rewrite <- Eo in C4, C5, C7.
    rewrite <- El in C3. rewrite <- Ep in C8. split; assumption.
  - destruct Hmeta as [M1 M2 M3 M4 M5 M6 M7 M8 M9]. split; assumption.
  - apply (put_segments shard g g' s (s <| wr_disk := disk |>)
      (size (wr_sources s)) (size (wr_sources s)) (wr_nextSegmentNumber s)
      (wr_nextSegmentNumber s) Hl eq_refl); try lia; [exact Hsegs|].
    apply (seg_ok_agree _ _ _ g g' Hag). apply Hsegs. by apply put_lookup.
  - by apply (put_positions shard g g' s); [..|apply Hag|].
Qed.

(** ** Flushing a block *)

Lemma range_bounds config r : range_ok config r ->
  in_u32 (bh_encodedBytes (rg_header r)) /\ in_u32 (bh_recordCount (rg_header r)).
Proof.
  intros [Hf _]. destruct r as [? ? ? ? ? ? b]. destruct Hf as [_ Hf]. destruct b. cbn in *.
  unfold fits_unsigned in Hf. split; mlia.
Qed.

Lemma blockBytes_nonneg config blocks :
  Forall (range_ok config) blocks -> 0 <= blockBytes blocks.
Proof.
  intros Hb. apply sumZ_nonneg. eapply Forall_impl; [exact Hb|]. cbn. intros r Hr.
  destruct (range_bounds _ _ Hr). mlia.
Qed.

Lemma pendingOf_nonneg segments : 0 <= pendingOf segments.
Proof. apply sumZ_nonneg, Forall_true. unfold size. lia. Qed.

Lemma opens_nonneg segments :
  Forall (fun g => 0 <= (if sg_open g then 1 else 0)) segments.
Proof. apply Forall_true. intros g. destruct (sg_open g); lia. Qed.

(** Signs of the totals, and the share of one segment in them. *)
Lemma winv_totals a c o s : winv a c o s -> 0 <= a -> 0 <= c ->
  0 <= pendingOf (wr_segments s) /\ 0 <= blockBytes (wr_blocks s) /\
  0 <= wr_cutReservedBytes s <= wr_projectedBytes s /\ 0 <= wr_projectedBytes s <= u64_max /\
  (forall shard g, wr_segments s !! shard = Some g ->
     size (sg_pending g) <= pendingOf (wr_segments s) /\
     (sg_open g = true -> sh_storedBlockBytes (sg_header g) <= blockBytes (wr_blocks s))).
Proof.
  intros Hinv Ha Hc. pose proof (pendingOf_nonneg (wr_segments s)).
  pose proof (blockBytes_nonneg _ _ (wi_blocks _ _ _ _ Hinv)).
  destruct (wi_budget _ _ _ _ Hinv) as [B1 B2 B3 B4 B5 B6 B7 B8 B9 B10 B11 B12].
  pose proof PR_bounds.
  unfold footprint, cutNeeded in *. sizes.
  assert (0 <= size (wr_index s)) by (unfold size; lia).
  assert (0 <= size (wr_blocks s)) by (unfold size; lia).
  assert (0 <= size (wr_referencePayload s)) by (unfold size; lia).
  assert (0 <= PR * pendingOf (wr_segments s)) by nia.
  assert (0 <= wr_cutReservedBytes s) by lia.
  split_and!; try lia. intros shard g Hg. split.
  - apply (sumZ_member (fun g => size (sg_pending g)));
      [apply Forall_true; unfold size; lia|by eapply list_elem_of_lookup_2].
  - intros Ho. etransitivity; [|exact B12].
    pose proof (sumZ_member (fun g => if sg_open g then sh_storedBlockBytes (sg_header g) else 0)
      (wr_segments s) g) as Hm. cbn beta in Hm. rewrite Ho in Hm. apply Hm;
      [|by eapply list_elem_of_lookup_2].
    apply Forall_lookup. intros i x Hx. destruct (sg_open x) eqn:Eo; [|lia].
    destruct (wi_segments _ _ _ _ Hinv _ _ Hx) as [_ _ Hcn _ _]. by destruct (Hcn Eo) as (_ & _ & ? & _).
Qed.

Lemma size_app {A} (xs ys : list A) : size (xs ++ ys) = size xs + size ys.
Proof. unfold size. rewrite length_app. lia. Qed.
Lemma size_nil {A} : size (@nil A) = 0.
Proof. done. Qed.
Lemma size_one {A} (x : A) : size [x] = 1.
Proof. done. Qed.
Lemma size_nonneg {A} (xs : list A) : 0 <= size xs.
Proof. unfold size. lia. Qed.

Lemma flush_inv a c o shard s g ok s' g' :
  (shard < length (wr_segments s))%nat -> 0 <= a -> 0 <= c ->
  winv a c o (putSegment shard g s) -> flush_result s g ok s' g' ->
  winv a c o (putSegment shard g' s').
Proof.
  intros Hl Ha Hc Hinv Hr. destruct Hr as [_|disk stream|first final b enc disk stream Hh Hla He Hphys _].
  { exact Hinv. }
  { apply (winv_agree a c o shard s g); [done| |done]. split; auto. }
  assert (wr_segments (putSegment shard g s) !! shard = Some g) as Hg by (by apply put_lookup).
  assert (sg_pending g <> []) as Hne by (intros E; by rewrite E in Hh).
  destruct (winv_totals _ _ _ _ Hinv Ha Hc) as (Tp & Tb & Tc & Tproj & Tseg).
  destruct (Tseg _ _ Hg) as [Tg Tst]. clear Tseg.
  destruct Hinv as [Hcfg Hgaps Hbud Hcnt Hmeta Hsegs Hblocks Hpos].
  pose proof (Hsegs _ _ Hg) as Hsg.
  destruct (flushed_block _ _ _ _ _ _ Hsg Hne He) as [Hb _].
  assert (sg_open g = true) as Ho
    by (destruct (sg_open g) eqn:E; [done|]; by apply (sg_closed _ _ _ _ Hsg) in E).
  destruct (sg_counters _ _ _ _ Hsg Ho) as (Hi & Hnum & Hst & Hn). specialize (Tst Ho).
  pose proof (encodeBlock_room _ _ _ _ He) as Hmax.
  pose proof (sg_room _ _ _ _ Hsg) as Hroom. pose proof PR_bounds as HPR.
  change (2 ^ 33) with 8589934592 in HPR.
  destruct (put_sums (fun g => size (sg_pending g)) shard s Hl) as [rp Hp].
  destruct (put_sums (fun g => if sg_open g then 1 else 0) shard s Hl) as [ro Hop].
  destruct (put_sums (fun g => if sg_open g then sh_storedBlockBytes (sg_header g) else 0)
    shard s Hl) as [rs Hs].
  destruct Hb as [Hbf _ _ _ _ _ (_ & _ & _ & Hrec & _ & Henc & _)].
  destruct Hbud as [B1 B2 B3 B4 B5 B6 B7 B8 B9 B10 B11 B12].
  destruct Hcnt as [C1 C2 C3 C4 C5 C6 C7 C8].
  assert (size enc <= u32_max) as Hencmax.
  { unfold size. rewrite <- Henc. destruct b. cbn in Hbf. unfold fits_unsigned in Hbf. cbn. mlia. }
  pose proof (size_nonneg enc). pose proof (size_nonneg (wr_index s)).
  pose proof (size_nonneg (wr_blocks s)). pose proof (size_nonneg (sg_pending g)).
  assert (1 <= size (sg_pending g) <= 256) as Hroom'
    by (unfold size; destruct (sg_pending g); [done|]; cbn [length] in *; lia).
  unfold physical, reserved in *. sizes.
  assert (0 <= size (sg_pending g) * PR <= 256 * 8589934592) as Hmul by nia.
  rewrite (u64_id (64 + size enc)) in * by mlia.
  rewrite (u64_id (size (sg_pending g) * PR)) in * by mlia.
  rewrite (u64_id (_ - _)) in * by mlia.
  unfold footprint, cutNeeded, pendingOf, opensOf, storedOf in *. rewrite Hp, ?Hop, ?Hs in *.
  rewrite Ho in *. sizes.
  wfields. set (g' := segmentAfterFlush _ _ _ g).
  assert (sg_pending g' = [] /\ sg_open g' = true /\
    sh_storedBlockBytes (sg_header g') = sh_storedBlockBytes (sg_header g) + (64 + size enc) /\
    sh_blockCount (sg_header g') = sh_blockCount (sg_header g) + 1)
    as (G1 & G2 & G3 & G4).
  { assert (blockBytes (wr_blocks s) <= wr_projectedBytes s) by nia.
    subst g'. wfields. rewrite u64_id, u32_id by mlia. done. }
  assert (blockBytes (wr_blocks s ++ [blockRange g first final b]) =
    blockBytes (wr_blocks s) + (64 + size enc)) as Eb.
  { unfold blockBytes. rewrite sumZ_app. cbn [sumZ foldr]. wfields. unfold size. rewrite Henc. lia. }
  assert (blockRecords (wr_blocks s ++ [blockRange g first final b]) =
    blockRecords (wr_blocks s) + size (sg_pending g)) as Er.
  { unfold blockRecords. rewrite sumZ_app. cbn [sumZ foldr]. wfields. unfold size. rewrite Hrec. lia. }
  assert (0 <= PR * rp) as Hrp by nia.
  assert (PR * (rp + size (sg_pending g)) = PR * rp + size (sg_pending g) * PR) as Hpm by ring.
  rewrite Hpm in B1.
  assert (u64 (wr_projectedBytes s - (size (sg_pending g) * PR - (64 + size enc))) =
    wr_projectedBytes s - (size (sg_pending g) * PR - (64 + size enc))) as Eu
    by (apply u64_id; mlia).
  split; wfields; try assumption.
  - split; unfold footprint, cutNeeded, pendingOf, storedOf; sizes; wfields;
      rewrite ?Hp, ?Hs, ?G1, ?G2, ?G3, ?Eb, ?Eu, ?size_app, ?size_nil, ?size_one;
      try assumption; try lia.
  - split; unfold pendingOf, opensOf; wfields; rewrite ?Hp, ?Hop, ?G1, ?G2, ?Er; try assumption.
    + unfold size in *. rewrite length_insert in *. done.
    + rewrite size_nil. lia.
  - destruct Hmeta. split; assumption.
  - apply (put_segments shard g g' s s (size (wr_sources s)) (size (wr_sources s))
      (wr_nextSegmentNumber s) (wr_nextSegmentNumber s) Hl eq_refl); try lia; [exact Hsegs|].
    destruct (sg_chain _ _ _ _ Hsg) as (ps & pm & _ & Hls & Hlm).
    split; rewrite ?G1.
    + cbn. lia.
    + done.
    + intros _. rewrite G3, G4. split; [exact Hi|]. split; [exact Hnum|]. split; [lia|mlia].
    + done.
    + exists (sg_previousShardSequence g), (sg_previousMonotonicNs g). done.
  - apply Forall_app. split; [done|]. apply Forall_cons_2; [|by apply Forall_nil_2].
    eapply blockRange_ok; try done; [|lia|nia].
    unfold size in C3. rewrite length_insert in C3. lia.
  - by apply (put_positions shard g g' s); [..|left|].
Qed.

(** ** Sealing and opening segments *)

Lemma flush_ok_empty s g s' g' : flush_result s g true s' g' -> sg_pending g' = [].
Proof. intros Hr. inversion Hr; subst; done. Qed.

Lemma flush_open s g ok s' g' : flush_result s g ok s' g' ->
  sg_open g' = sg_open g /\ wr_segments s' = wr_segments s.
Proof. intros Hr. inversion Hr; subst; done. Qed.

Lemma winv_weaken a c o a' c' o' s :
  a' <= a -> c' <= c -> o <= o' -> winv a c o s -> winv a' c' o' s.
Proof.
  intros Ha Hc Ho [? ? [] [] ? ? ?]. split; try assumption; split; try assumption; try lia.
Qed.

Lemma seal_inv a c o shard s g ok s' g' :
  (shard < length (wr_segments s))%nat -> 0 <= a -> 0 <= c -> sg_open g = true ->
  winv a c o (putSegment shard g s) -> seal_result s g ok s' g' ->
  winv a c o (putSegment shard g' s').
Proof.
  intros Hl Ha Hc Hopen Hinv Hr.
  destruct Hr as [ok s1 g1 disk header stream Hf Hh|s1 g1 disk Hf].
  - pose proof (flushBlock_shape _ _ _ _ _ Hf) as Hf'. destruct (flush_open _ _ _ _ _ Hf') as [_ Hlen].
    pose proof (flush_inv _ _ _ _ _ _ _ _ _ Hl Ha Hc Hinv Hf') as Hinv1.
    apply (winv_agree a c o shard s1 g1); [by rewrite Hlen| |done].
    destruct Hh as [->| ->]; split; auto.
  - pose proof (flushBlock_shape _ _ _ _ _ Hf) as Hf'. destruct (flush_open _ _ _ _ _ Hf') as [Ho1 Hlen].
    pose proof (flush_inv _ _ _ _ _ _ _ _ _ Hl Ha Hc Hinv Hf') as Hinv1.
    pose proof (flush_ok_empty _ _ _ _ Hf') as Hempty. rewrite Hopen in Ho1.
    assert (shard < length (wr_segments s1))%nat as Hl1 by (by rewrite Hlen).
    destruct (put_sums (fun g => size (sg_pending g)) shard s1 Hl1) as [rp Hp].
    destruct (put_sums (fun g => if sg_open g then 1 else 0) shard s1 Hl1) as [ro Hop].
    destruct (put_sums (fun g => if sg_open g then sh_storedBlockBytes (sg_header g) else 0)
      shard s1 Hl1) as [rs Hs].
    clear Hf Hf' Hinv.
    destruct (wi_segments _ _ _ _ Hinv1 _ _ (put_lookup shard g1 s1 Hl1)) as [_ _ Hcn _ Hch].
    destruct (Hcn Ho1) as (_ & _ & Hst & _).
    assert (0 <= ro) as Hro.
    { pose proof (sumZ_nonneg (fun g => if sg_open g then 1 else 0)
        (wr_segments (putSegment shard (g1 <| sg_open := false |>) s1))) as Hnn.
      rewrite Hop in Hnn. wfields. rewrite Z.add_0_r in Hnn. apply Hnn, opens_nonneg. }
    destruct Hinv1 as [Hcfg Hgaps Hbud Hcnt Hmeta Hsegs Hblocks Hpos].
    destruct Hbud as [B1 B2 B3 B4 B5 B6 B7 B8 B9 B10 B11 B12].
    destruct Hcnt as [C1 C2 C3 C4 C5 C6 C7 C8].
    unfold footprint, cutNeeded, pendingOf, opensOf, storedOf in *.
    rewrite Hp, ?Hop, ?Hs in *. rewrite Ho1, Hempty, size_nil in *. wfields.
    assert (u32 (mf_segmentCount (wr_manifest s1) + 1) = mf_segmentCount (wr_manifest s1) + 1) as Eu
      by (apply u32_id; mlia).
    split; wfields; try assumption.
    + split; unfold footprint, cutNeeded, pendingOf, storedOf; wfields; rewrite ?Hp, ?Hs; wfields;
        rewrite ?Hempty, ?size_nil; try assumption; lia.
    + split; unfold pendingOf, opensOf; wfields; rewrite ?Hp, ?Hop, ?Eu; wfields;
        rewrite ?Hempty, ?size_nil; try assumption; try lia.
      unfold size in *. rewrite length_insert in *. done.
    + destruct Hmeta as [M1 M2 M3 M4 M5 M6 M7 M8 M9]. split; wfields; try assumption.
      * destruct M1; by split.
      * destruct M2; by split.
      * destruct (wr_manifest s1); cbn in M4 |- *; unfold fits_unsigned in *. cbn in Eu, C4. rewrite Eu.
        intuition (try done; try mlia).
    + apply (put_segments shard g1 _ s1 s1 (size (wr_sources s1)) (size (wr_sources s1))
        (wr_nextSegmentNumber s1) (wr_nextSegmentNumber s1) Hl1 eq_refl); try lia; [exact Hsegs|].
      split; wfields; rewrite ?Hempty; try done.
      cbn. lia.
    + by apply (put_positions shard g1 _ s1); [..|right|].
Qed.

Lemma open_inv a c o shardIndex s g ok s' :
  0 <= shardIndex -> wr_segments s !! Z.to_nat shardIndex = Some g ->
  192 <= a -> 0 <= c -> winv a c o s -> open_result shardIndex s g ok s' ->
  winv (a - 192) c (if ok then o + 1 else o) s'.
Proof.
  intros Hsi Hg Ha Hc Hinv Hr.
  assert (Z.to_nat shardIndex < length (wr_segments s))%nat as Hl by (by eapply lookup_lt_Some).
  destruct Hr as [Ho| |fresh number disk Ho Hne Hfresh Hnum|disk stream Ho Hne];
    [apply (winv_weaken a c o); (lia || done) .. | |].
  - destruct Hfresh as (F1 & F2 & F3 & F4 & F7).
    destruct (wi_segments _ _ _ _ Hinv _ _ Hg) as [_ G2 _ _ _]. specialize (G2 Ho).
    pose proof (sumZ_insert (fun g => size (sg_pending g)) _ _ _ fresh Hg) as Hp.
    pose proof (sumZ_insert (fun g => if sg_open g then 1 else 0) _ _ _ fresh Hg) as Hop.
    pose proof (sumZ_insert (fun g => if sg_open g then sh_storedBlockBytes (sg_header g) else 0)
      _ _ _ fresh Hg) as Hs.
    cbn beta in Hp, Hop, Hs. rewrite F1, Ho in Hop, Hs. rewrite F2, G2 in Hp.
    destruct Hinv as [Hcfg Hgaps Hbud Hcnt Hmeta Hsegs Hblocks Hpos].
    destruct Hbud as [B1 B2 B3 B4 B5 B6 B7 B8 B9 B10 B11 B12].
    assert (wr_nextSegmentNumber s <= number <= u32_max /\
      number <= wr_nextSegmentNumber s + 1) as Hnb
      by (destruct Hnum as [->| ->]; [lia|]; rewrite u32_id; mlia).
    assert (sg_previousShardSequence fresh = sg_previousShardSequence g /\
      sg_previousMonotonicNs fresh = sg_previousMonotonicNs g) as [F5 F6] by done.
    split; wfields; try assumption.
    + split; unfold footprint, cutNeeded, pendingOf, storedOf in *; sizes; wfields;
        rewrite ?Hp, ?Hs; try assumption; lia.
    + destruct Hcnt as [C1 C2 C3 C4 C5 C6 C7 C8].
      split; unfold pendingOf, opensOf in *; wfields; rewrite ?Hp, ?Hop; try assumption; try lia.
      unfold size. by rewrite length_insert.
    + destruct Hmeta; split; assumption.
    + apply (put_segments (Z.to_nat shardIndex) g fresh s s (size (wr_sources s))
        (size (wr_sources s)) (wr_nextSegmentNumber s) number Hl eq_refl); try lia.
      * intros i h. wfields. rewrite list_insert_id by done. apply Hsegs.
      * destruct (Hsegs _ _ Hg) as [_ _ _ _ Hch]. rewrite G2 in Hch.
        split; rewrite ?F1, ?F2, ?F5, ?F6; try done. cbn. lia.
    + apply (put_positions _ g fresh s); try done; [by right|].
      by rewrite put_same.
  - set (g' := openedSegment shardIndex stream s g).
    destruct (wi_segments _ _ _ _ Hinv _ _ Hg) as [_ G2 _ _ Hch]. specialize (G2 Ho).
    rewrite G2 in Hch.
    pose proof (sumZ_insert (fun g => size (sg_pending g)) _ _ _ g' Hg) as Hp.
    pose proof (sumZ_insert (fun g => if sg_open g then 1 else 0) _ _ _ g' Hg) as Hop.
    pose proof (sumZ_insert (fun g => if sg_open g then sh_storedBlockBytes (sg_header g) else 0)
      _ _ _ g' Hg) as Hs.
    cbn beta in Hp, Hop, Hs. rewrite Ho in Hop, Hs. rewrite G2 in Hp.
    change (sg_pending g') with (@nil BinaryMarketRecord) in Hp.
    change (sg_open g') with true in Hop, Hs.
    change (sh_storedBlockBytes (sg_header g')) with 0 in Hs.
    destruct Hinv as [Hcfg Hgaps Hbud Hcnt Hmeta Hsegs Hblocks Hpos].
    destruct Hbud as [B1 B2 B3 B4 B5 B6 B7 B8 B9 B10 B11 B12].
    assert (u32 (wr_nextSegmentNumber s + 1) = wr_nextSegmentNumber s + 1) as Eu
      by (apply u32_id; mlia).
    split; wfields; try assumption.
    + split; unfold footprint, cutNeeded, pendingOf, storedOf in *; sizes; wfields;
        rewrite ?Hp, ?Hs, ?Eu; try assumption; mlia.
    + destruct Hcnt as [C1 C2 C3 C4 C5 C6 C7 C8].
      split; unfold pendingOf, opensOf in *; wfields; rewrite ?Hp, ?Hop, ?Eu; try assumption;
        try lia.
      unfold size. by rewrite length_insert.
    + destruct Hmeta; split; assumption.
    + rewrite Eu. apply (put_segments (Z.to_nat shardIndex) g g' s s (size (wr_sources s))
        (size (wr_sources s)) (wr_nextSegmentNumber s) (wr_nextSegmentNumber s + 1) Hl eq_refl);
        try lia.
      * intros i h. wfields. rewrite list_insert_id by done. apply Hsegs.
      * split; try done.
        -- change (sg_pending g') with (@nil BinaryMarketRecord). cbn. lia.
        -- intros _. change (sh_shardIndex (sg_header g')) with shardIndex.
           change (sh_segmentNumber (sg_header g')) with (wr_nextSegmentNumber s).
           change (sh_storedBlockBytes (sg_header g')) with 0.
           change (sh_blockCount (sg_header g')) with 0. split_and!; mlia.
    + apply (put_positions _ g g' s); try done; [by right|].
      by rewrite put_same.
Qed.

(** ** Reservations and sources *)

Lemma addWithin_spec current amount limit :
  0 <= current <= u64_max -> 0 <= amount -> addWithin current amount limit = true ->
  u64 (current + amount) = current + amount /\ current + amount <= limit.
Proof.
  intros Hc Ha. unfold addWithin. intros [H1 H2]%andb_true_iff.
  apply Z.leb_le in H1, H2. rewrite u64_id in * by mlia. done.
Qed.

(** A state that differs only in fields the invariant does not read. *)
Lemma winv_quota a c o s q : winv a c o s -> winv a c o (s <| wr_quotaReached := q |>).
Proof.
  intros [? ? [] [] [] ? ? ?]. split; try assumption; split; assumption.
Qed.

Lemma reserve_inv a c o bytes s ok s' :
  0 <= a -> 0 <= c -> 0 <= bytes -> winv a c o s -> reserveBytes bytes s = (ok, s') ->
  (ok = true -> winv (a + bytes) c o s') /\ winv a c o s' /\
  wr_segments s' = wr_segments s /\ wr_sources s' = wr_sources s.
Proof.
  intros Ha Hc Hb Hinv. unfold reserveBytes.
  destruct (winv_totals _ _ _ _ Hinv Ha Hc) as (_ & _ & _ & Tp & _).
  destruct (addWithin _ _ _) eqn:Ew; cbn [negb]; intros [= <- <-].
  - apply addWithin_spec in Ew as [Eu Hle]; [|lia|lia].
    assert (winv (a + bytes) c o
      (s <| wr_projectedBytes := wr_projectedBytes s + bytes |>)) as Hbig.
    { destruct Hinv as [Hcfg Hgaps [] [] [] Hsegs Hblocks Hpos].
      split; try assumption; split; unfold footprint, cutNeeded in *; wfields; try assumption; lia. }
    wfields. rewrite Eu. split_and!; try done. apply (winv_weaken (a + bytes) c o); (lia || done).
  - split_and!; try done. by apply winv_quota.
Qed.

(** Bytes paid are moved to the cut reservation. *)
Lemma cut_growth_inv a c o growth s :
  0 <= a -> 0 <= c -> 0 <= growth -> winv (a + growth) c o s ->
  wr_cutReservedBytes s + growth <= u64_max ->
  winv a (c + growth) o (s <| wr_cutReservedBytes ::= fun r => u64 (r + growth) |>).
Proof.
  intros Ha Hc Hg Hinv Hle.
  destruct (winv_totals _ _ _ _ Hinv ltac:(lia) Hc) as (_ & _ & Tc & _ & _).
  destruct Hinv as [Hcfg Hgaps [] [] [] Hsegs Hblocks Hpos].
  split; try assumption; split; unfold footprint, cutNeeded in *; wfields;
    rewrite ?(u64_id (wr_cutReservedBytes s + growth)) by mlia; try assumption; lia.
Qed.

Lemma validSources_app sources source :
  validSources sources = true -> validBinaryMarketSource source (size sources) = true ->
  validSources (sources ++ [source]) = true.
Proof.
  unfold validSources, size. rewrite length_app, seq_app, zip_with_app by (by rewrite length_seq).
  rewrite forallb_app. intros -> Hv. cbn. by rewrite Hv.
Qed.

Lemma gaps_more_sources gap sources sources' shards : sources <= sources' ->
  cutGapInvalid gap sources shards = false -> cutGapInvalid gap sources' shards = false.
Proof.
  unfold cutGapInvalid. intros Hle Hgap. bsplit.
  repeat (apply orb_false_intro); try done;
    first [by apply Z.eqb_neq | apply Z.ltb_ge; lia | apply Z.leb_gt; lia | by apply negb_false_iff, Z.eqb_eq | by apply negb_false_iff].
Qed.

Definition withSources (added : list BinaryMarketSource)
  (states : list BinaryMarketSourceState) (s : WriterState) : WriterState :=
  s <| wr_sources ::= fun sources => sources ++ added |>
    <| wr_sourceStates := states |>
    <| wr_manifest ::= fun m => m <| mf_sourceCount := size (wr_sources s) + size added |> |>
    <| wr_maximumGapRecords := 9 * (size (wr_sources s) + size added) |>.

Lemma sources_inv a c o added states s :
  0 <= a -> 0 <= c -> winv (a + 992 * size added) (c + 1984 * size added) o s ->
  size (wr_sources s) + size added <= kBinaryMarketMaximumSources ->
  Forall (fits l_BinaryMarketSource) added -> validSources (wr_sources s ++ added) = true ->
  winv a c o (withSources added states s).
Proof.
  intros Ha Hc Hinv Hmax Hfit Hvalid. pose proof (size_nonneg added) as Hn.
  destruct Hinv as [Hcfg Hgaps Hbud Hcnt Hmeta Hsegs Hblocks Hpos].
  unfold withSources. split; wfields; try assumption.
  - destruct Hgaps as [G1 G2]. split; wfields; [|done]. rewrite size_app.
    eapply Forall_impl; [exact G1|]. intros gap. apply gaps_more_sources. lia.
  - destruct Hbud as [B1 B2 B3 B4 B5 B6 B7 B8 B9 B10 B11 B12].
    split; unfold footprint, cutNeeded in *; sizes; wfields; rewrite ?size_app; try assumption;
      try lia.
  - destruct Hcnt as [C1 C2 C3 C4 C5 C6 C7 C8].
    split; wfields; rewrite ?size_app; try assumption. done.
  - destruct Hmeta as [M1 M2 M3 M4 [M5 _] M6 M7 M8 M9]. split; wfields; try assumption.
    + destruct M1; by split.
    + destruct M2; by split.
    + pose proof (bd_sources _ _ _ Hbud). sizes. destruct (wr_manifest s).
      cbn in M4 |- *; unfold fits_unsigned in *. intuition (try done; try mlia).
    + split; [|done]. by apply Forall_app.
  - rewrite size_app. intros i h Hh. destruct (Hsegs _ _ Hh) as [H1 H2 H3 H4 (ps & pm & Hch & H5)].
    split; try done. exists ps, pm. split; [eapply chain_sources; [|done]; lia|done].
Qed.

(** ** Committing a record *)

Lemma store_fields h m :
  let m' := storeInManifest h m in
  let earlier := h_receiveMonotonicNs h <? mf_replayAnchorMonotonicNs m in
  mf_recordCount m' = u64 (mf_recordCount m + 1) /\
  mf_firstReceiveNs m' = earliest (mf_firstReceiveNs m) (h_receiveRealtimeNs h) /\
  mf_lastReceiveNs m' = latest (mf_lastReceiveNs m) (h_receiveRealtimeNs h) /\
  mf_replayAnchorMonotonicNs m' =
    (if earlier then h_receiveMonotonicNs h else mf_replayAnchorMonotonicNs m) /\
  mf_replayAnchorReceiveNs m' =
    (if earlier then h_receiveRealtimeNs h else mf_replayAnchorReceiveNs m) /\
  m' = m <| mf_recordCount := mf_recordCount m' |>
         <| mf_firstReceiveNs := mf_firstReceiveNs m' |> <| mf_lastReceiveNs := mf_lastReceiveNs m' |>
         <| mf_replayAnchorMonotonicNs := mf_replayAnchorMonotonicNs m' |>
         <| mf_replayAnchorReceiveNs := mf_replayAnchorReceiveNs m' |>.
Proof.
  unfold storeInManifest. destruct m. cbv -[u64 earliest latest Z.ltb Z.add].
  destruct (_ <? _); repeat split.
Qed.

Lemma store_static config h m : static_ok config m -> static_ok config (storeInManifest h m).
Proof.
  destruct (store_fields h m) as (_ & _ & _ & _ & _ & ->). intros []. split; assumption.
Qed.

Lemma store_counts h m :
  let m' := storeInManifest h m in
  mf_sourceCount m' = mf_sourceCount m /\ mf_gapCount m' = mf_gapCount m /\
  mf_segmentCount m' = mf_segmentCount m /\ mf_startedReceiveNs m' = mf_startedReceiveNs m.
Proof. destruct (store_fields h m) as (_ & _ & _ & _ & _ & ->). done. Qed.

Lemma store_times started h m :
  0 < h_receiveRealtimeNs h -> h_receiveMonotonicNs h <> 0 -> 0 <= mf_recordCount m < u64_max ->
  times_ok started m -> times_ok started (storeInManifest h m).
Proof.
  intros Hr Hm Hc [T1 T2 T3 T4].
  assert (u64 (mf_recordCount m + 1) = mf_recordCount m + 1) as Eu by (apply u64_id; mlia).
  assert (0 < earliest (mf_firstReceiveNs m) (h_receiveRealtimeNs h) <=
          h_receiveRealtimeNs h /\
          h_receiveRealtimeNs h <= latest (mf_lastReceiveNs m) (h_receiveRealtimeNs h) /\
          (mf_recordCount m <> 0 ->
           earliest (mf_firstReceiveNs m) (h_receiveRealtimeNs h) <= mf_firstReceiveNs m /\
           mf_lastReceiveNs m <= latest (mf_lastReceiveNs m) (h_receiveRealtimeNs h)))
    as (E1 & E2 & E3).
  { unfold earliest, latest.
    destruct (Z.eqb_spec (mf_firstReceiveNs m) 0), (Z.ltb_spec (h_receiveRealtimeNs h) (mf_firstReceiveNs m)),
      (Z.ltb_spec (mf_lastReceiveNs m) (h_receiveRealtimeNs h)); cbn [orb];
      destruct (Z.eq_dec (mf_recordCount m) 0) as [Ez|Ez];
      try (specialize (T1 Ez)); try (specialize (T2 Ez)); lia. }
  destruct (store_fields h m) as (F1 & F2 & F3 & F4 & F5 & _).
  split; rewrite ?F1, ?F2, ?F3, ?F4, ?F5, ?Eu.
  - lia.
  - lia.
  - destruct (_ <? _); assumption.
  - destruct (_ <? _); [right; lia|].
    destruct T4 as [T4|[Hne T4]]; [left; assumption|right]. specialize (E3 Hne). lia.
Qed.

(** The widths of the manifest's members. *)
Record manifest_widths (m : BinaryMarketManifest) : Prop := {
  mw_magic : in_u32 (mf_magic m); mw_headerBytes : in_u16 (mf_headerBytes m);
  mw_pad6 : fits (l_raw 2) (mf_pad6 m); mw_epoch : in_u64 (mf_producerEpoch m);
  mw_started : in_i64 (mf_startedReceiveNs m); mw_anchor : in_i64 (mf_replayAnchorReceiveNs m);
  mw_anchorMonotonic : in_u64 (mf_replayAnchorMonotonicNs m);
  mw_finalized : in_i64 (mf_finalizedReceiveNs m); mw_first : in_i64 (mf_firstReceiveNs m);
  mw_last : in_i64 (mf_lastReceiveNs m); mw_maximum : in_u64 (mf_maximumBytes m);
  mw_target : in_u64 (mf_segmentTargetBytes m); mw_projected : in_u64 (mf_projectedBytes m);
  mw_records : in_u64 (mf_recordCount m); mw_gaps : in_u64 (mf_gapCount m);
  mw_sources : in_u32 (mf_sourceCount m); mw_segments : in_u32 (mf_segmentCount m);
  mw_index : in_u32 (mf_indexCount m); mw_shards : in_u16 (mf_shardCount m);
  mw_reason : in_u8 (mf_stopReason m); mw_complete : in_u8 (mf_complete m);
  mw_sourcesCrc : in_u32 (mf_sourcesCrc32c m); mw_indexCrc : in_u32 (mf_indexCrc32c m);
  mw_gapsCrc : in_u32 (mf_gapsCrc32c m); mw_crc : in_u32 (mf_manifestCrc32c m);
  mw_reserved : fits (l_raw 40) (mf_reserved m); mw_pad176 : fits (l_raw 16) (mf_pad176 m);
}.

Lemma manifest_fits m : fits l_BinaryMarketManifest m <-> manifest_widths m.
Proof.
  split.
  - destruct m. intros Hf. cbn -[replicate] in Hf. unfold fits_unsigned in Hf.
    destruct Hf as ((((((((((((((((((((((((((H1 & H2) & H3) & H4) & H5) & H6) & H7) & H8) & H9)
      & H10) & H11) & H12) & H13) & H14) & H15) & H16) & H17) & H18) & H19) & H20) & H21) & H22)
      & H23) & H24) & H25) & H26) & H27).
    split; assumption.
  - intros [H1 H2 H3 H4 H5 H6 H7 H8 H9 H10 H11 H12 H13 H14 H15 H16 H17 H18 H19 H20 H21 H22 H23
      H24 H25 H26 H27].
    unfold in_u64, in_u32, in_u16, in_u8 in *. destruct m. cbn -[replicate].
    exact (conj (conj (conj (conj (conj (conj (conj (conj (conj (conj (conj (conj (conj
      (conj (conj (conj (conj (conj (conj (conj (conj (conj (conj (conj (conj (conj H1 H2)
      H3) H4) H5) H6) H7) H8) H9) H10) H11) H12) H13) H14) H15) H16) H17) H18) H19) H20) H21)
      H22) H23) H24) H25) H26) H27).
Qed.

Lemma store_manifest_fits h m :
  in_u64 (h_receiveMonotonicNs h) -> in_i64 (h_receiveRealtimeNs h) ->
  fits l_BinaryMarketManifest m -> fits l_BinaryMarketManifest (storeInManifest h m).
Proof.
  intros Hm Hr Hf%manifest_fits. apply manifest_fits.
  assert (forall x, in_i64 x -> in_i64 (earliest x (h_receiveRealtimeNs h)) /\
    in_i64 (latest x (h_receiveRealtimeNs h))) as Ht
    by (intros x Hx; unfold earliest, latest; destruct (_ || _), (_ <? _); done).
  destruct (Ht _ (mw_first _ Hf)) as [Hfirst _]. destruct (Ht _ (mw_last _ Hf)) as [_ Hlast].
  pose proof (u64_range (mf_recordCount m + 1)) as Hu. clear Ht.
  destruct (store_fields h m) as (F1 & F2 & F3 & F4 & F5 & ->).
  rewrite F1, F2, F3, F4, F5. destruct (_ <? _); destruct Hf; split; assumption.
Qed.

(** What [admission] and the order checks establish of a record for its segment. *)
Record fits_segment (shard sources : Z) (g : SegmentState) (record : BinaryMarketRecord) : Prop := {
  fs_fits : fits l_BinaryMarketRecord record;
  fs_valid : validBinaryMarketRecord record = true;
  fs_shard : h_shardIndex (rec_header record) = shard;
  fs_source : h_sourceId (rec_header record) <= sources;
  fs_tail : tailZero record = true;
  fs_order : orderRejects (rec_header record) g = false;
  fs_open : sg_open g = true;
  fs_room : (length (sg_pending g) < 256)%nat;
  fs_channel : forall first, list.head (sg_pending g) = Some first ->
    h_channel (rec_header first) = h_channel (rec_header record);
}.

Lemma store_seg_ok shard sources next g record :
  fits_segment shard sources g record -> seg_ok shard sources next g ->
  seg_ok shard sources next (storeInSegment record g).
Proof.
  intros [F1 F2 F3 F4 F5 F6 F7 F8 F9] [G1 G2 G3 G4 (ps & pm & Hc & Hs & Hm)].
  unfold storeInSegment. split; wfields.
  - rewrite length_app. cbn. lia.
  - by rewrite F7.
  - exact G3.
  - intros first row Hh. destruct (sg_pending g) as [|r0 rows] eqn:Ep.
    + injection Hh as <-. by intros ->%list_elem_of_singleton.
    + injection Hh as <-. specialize (F9 r0 eq_refl).
      intros [Hin| ->%list_elem_of_singleton]%elem_of_app; [by apply (G4 r0)|done].
  - unfold orderRejects in F6. bsplit. exists ps, pm.
    rewrite lastSequence_app, lastMonotonic_app. split_and!; try done.
    apply chain_app. split; [done|]. rewrite Hs, Hm. split; [|done].
    assert (sg_previousShardSequence g = 0 \/
      sg_previousShardSequence g < h_shardSequence (rec_header record)) as Ho1.
    { match goal with Hx : negb (sg_previousShardSequence g =? 0) && _ = false |- _ =>
        apply andb_false_iff in Hx as [Hx|Hx] end; bsplit; auto. }
    assert (sg_previousMonotonicNs g = 0 \/
      sg_previousMonotonicNs g <= h_receiveMonotonicNs (rec_header record)) as Ho2.
    { match goal with Hx : negb (sg_previousMonotonicNs g =? 0) && _ = false |- _ =>
        apply andb_false_iff in Hx as [Hx|Hx] end; bsplit; auto. }
    exact (conj F1 (conj F2 (conj F3 (conj F4 (conj F5 (conj Ho1 Ho2)))))).
Qed.

(** The index entry of a record exists or is paid for. *)
Lemma ensureIndex_shape key shardIndex s g :
  match ensureIndex key shardIndex s g with
  | None => sg_indexPositions g !! key = None /\
      (cf_maximumBytes (wr_config s) / 72 <= size (wr_index s) \/ u32_max <= size (wr_index s))
  | Some (position, (s', g')) => exists entries positions,
      s' = s <| wr_index ::= fun index => index ++ entries |> /\
      g' = g <| sg_indexPositions := positions |> /\
      (sg_indexPositions g !! key <> None -> entries = []) /\
      (sg_indexPositions g !! key = None ->
         size entries = 1 /\ size (wr_index s) + size entries <= u32_max) /\
      (forall k p, positions !! k = Some p ->
         sg_indexPositions g !! k = Some p \/ (p < length (wr_index s ++ entries))%nat)
  end.
Proof.
  unfold ensureIndex. destruct (sg_indexPositions g !! key) as [position|] eqn:E.
  - exists [], (sg_indexPositions g). split_and!; try done; [|by destruct g|by left].
    destruct s. cbn. by rewrite app_nil_r.
  - sizes. destruct (_ || _) eqn:Eb.
    + split; [done|]. apply orb_true_iff in Eb as [Eb|Eb]; bsplit; auto.
    + destruct key as [[source generation] channel]. bsplit. eexists [_], _. split_and!; try done.
      { intros _. unfold size in *. cbn. split; [done|lia]. }
      intros k p. destruct (decide (k = (source, generation, channel))) as [->|Hk].
      * rewrite lookup_insert_eq. intros [= <-]. right. rewrite length_app. cbn. lia.
      * rewrite lookup_insert_ne by done. by left.
Qed.

Lemma commit_inv a c o record ad s g status s' :
  winv a c o s -> 0 <= o <= 1 -> 192 <= c -> PR <= a ->
  wr_segments s !! Z.to_nat (h_shardIndex (rec_header record)) = Some g ->
  0 <= h_shardIndex (rec_header record) ->
  fits_segment (h_shardIndex (rec_header record)) (size (wr_sources s)) g record ->
  let key := (h_sourceId (rec_header record), h_sourceGeneration (rec_header record),
              h_channel (rec_header record)) in
  (sg_indexPositions g !! key = None -> PR + 72 <= a) ->
  (o <> 0 -> sg_indexPositions g !! key = None) ->
  commitRecord record ad s = (status, s') -> winv 0 0 0 s'.
Proof.
  intros Hinv Ho Hc Ha Hg Hsi Hfs key Hpay Hnew. unfold commitRecord. fold key. rewrite Hg.
  pose proof PR_bounds as HPR.
  pose proof (ensureIndex_shape key (h_shardIndex (rec_header record)) s g) as Hix.
  destruct (winv_totals _ _ _ _ Hinv ltac:(lia) ltac:(lia)) as (Tp & Tb & Tc & Tproj & _).
  assert (Z.to_nat (h_shardIndex (rec_header record)) < length (wr_segments s))%nat as Hl
    by (by eapply lookup_lt_Some).
  destruct (ensureIndex _ _ s g) as [[position [s1 g1]]|].
  2: { destruct Hix as [Hnone Hfull]. specialize (Hpay Hnone). intros [= _ <-].
       destruct Hinv as [Hcfg Hgaps Hbud Hcnt Hmeta Hsegs Hblocks Hpos]. split; try assumption.
       - destruct Hbud. split; try assumption; lia.
       - destruct Hbud as [B1 B2 B3 B4 B5 B6 B7 B8 B9 B10 B11 B12].
         destruct Hcnt as [C1 C2 C3 C4 C5 C6 C7 C8]. split; try assumption. right.
         destruct Hfull as [Hfull|]; [|lia]. exfalso.
         unfold footprint in B1. sizes.
         assert (0 <= PR * pendingOf (wr_segments s)) by nia.
         assert (size (wr_index s) + 1 <= cf_maximumBytes (wr_config s) / 72); [|lia].
         apply Z.div_le_lower_bound; lia. }
  destruct Hix as (entries & positions & -> & -> & He1 & He2 & He3).
  intros [= <- <-]. unfold storeRecord. wfields.
  set (g' := storeInSegment record (g <| sg_indexPositions := positions |>)).
  assert (sg_pending g' = sg_pending g ++ [record] /\ sg_open g' = sg_open g /\
    sh_storedBlockBytes (sg_header g') = sh_storedBlockBytes (sg_header g)) as (G1 & G2 & G3)
    by (by split_and!).
  pose proof (sumZ_insert (fun g => size (sg_pending g)) _ _ _ g' Hg) as Hp.
  pose proof (sumZ_insert (fun g => if sg_open g then 1 else 0) _ _ _ g' Hg) as Hop.
  pose proof (sumZ_insert (fun g => if sg_open g then sh_storedBlockBytes (sg_header g) else 0)
    _ _ _ g' Hg) as Hs.
  cbn beta in Hp, Hop, Hs. rewrite G1, size_app, size_one in Hp. rewrite G2 in Hop.
  rewrite G2, G3 in Hs. replace (_ - _ + _) with (sumZ (fun g => if sg_open g then 1 else 0)
    (wr_segments s)) in Hop by lia.
  replace (_ - _ + _) with (sumZ (fun g => if sg_open g then sh_storedBlockBytes (sg_header g)
    else 0) (wr_segments s)) in Hs by lia.
  replace (_ - _ + _) with (pendingOf (wr_segments s) + 1) in Hp by (unfold pendingOf; lia).
  assert (seg_ok (h_shardIndex (rec_header record)) (size (wr_sources s))
    (wr_nextSegmentNumber s) g') as Hg'.
  { apply store_seg_ok; [destruct Hfs; split; assumption|].
    pose proof (wi_segments _ _ _ _ Hinv _ _ Hg) as Hsg. rewrite Z2Nat.id in Hsg by done.
    destruct Hsg; split; assumption. }
  destruct (record_bounds _ (fs_fits _ _ _ _ Hfs)) as (_ & _ & Hbm & Hbr & _).
  destruct (valid_row_fences _ (fs_valid _ _ _ _ Hfs)) as (_ & Hvm & Hvr & _).
  destruct Hinv as [Hcfg Hgaps Hbud Hcnt Hmeta Hsegs Hblocks Hpos Hixs].
  destruct Hbud as [B1 B2 B3 B4 B5 B6 B7 B8 B9 B10 B11 B12].
  destruct Hcnt as [C1 C2 C3 C4 C5 C6 C7 C8].
  destruct (store_fields (rec_header record) (wr_manifest s)) as (F1 & _ & _ & _ & _ & F6).
  pose proof (mw_records _ (proj1 (manifest_fits _) (me_fits _ Hmeta))) as Hrc.
  sizes. rewrite (u64_id (mf_recordCount (wr_manifest s) + 1)) in F1 by mlia.
  assert (wr_index s ++ entries <> []) as Hnonempty.
  { destruct (decide (sg_indexPositions g !! key = None)) as [Ek|Ek].
    - destruct (He2 Ek) as [He2' _]. destruct entries; [done|]. by destruct (wr_index s).
    - apply not_eq_None_Some in Ek as [p Ek]. specialize (Hpos _ _ _ _ Hg Ek).
      destruct (wr_index s); [cbn in Hpos; lia|done]. }
  assert (length (alter (storeInIndex (rec_header record)) position (wr_index s ++ entries)) =
    length (wr_index s ++ entries)) as Hal by apply length_alter.
  assert (0 <= size entries <= 1 /\ (o <> 0 -> size entries = 1) /\
    (size entries = 1 -> PR + 72 <= a) /\ size (wr_index s) + size entries <= u32_max)
    as (Hs1 & Hs2 & Hs3 & Hs4).
  { destruct (decide (sg_indexPositions g !! key = None)) as [Ek|Ek].
    - destruct (He2 Ek) as [-> ?]. split_and!; try lia. auto.
    - rewrite (He1 Ek). change (size []) with 0.
      split_and!; [lia|lia|intros Hne; by specialize (Hnew Hne)|lia|lia]. }
  assert (size (alter (storeInIndex (rec_header record)) position (wr_index s ++ entries)) =
    size (wr_index s) + size entries) as Hsz by (unfold size at 1; rewrite Hal; apply size_app).
  change (storeInSegment record _) with g'.
  destruct (store_counts (rec_header record) (wr_manifest s)) as (S1 & S2 & S3 & S4).
  pose proof (store_static _ (rec_header record) _ (me_static _ Hmeta)) as Hst'.
  assert (0 <= mf_recordCount (wr_manifest s) < u64_max) as Hrc1 by mlia.
  pose proof (store_times _ (rec_header record) _ Hvr Hvm Hrc1 (me_times _ Hmeta)) as Hti'.
  pose proof (store_manifest_fits (rec_header record) _ Hbm Hbr (me_fits _ Hmeta)) as Hfi'.
  clear F6. generalize dependent (storeInManifest (rec_header record) (wr_manifest s)).
  intros m' F1 S1 S2 S3 S4 Hst' Hti' Hfi'.
  split; wfields; try assumption.
  - split; unfold footprint, cutNeeded, pendingOf, storedOf in *; sizes; wfields;
      rewrite ?Hp, ?Hs, ?Hsz, ?F1; try assumption; try lia.
  - split; unfold pendingOf, opensOf in *; wfields;
      rewrite ?Hp, ?Hop, ?Hsz, ?F1, ?S1, ?S2, ?S3; try assumption; try lia.
    + unfold size in *. rewrite length_insert. done.
    + split; [lia|]. intros Hnil. apply (f_equal length) in Hnil. rewrite Hal in Hnil.
      by destruct (wr_index s ++ entries).
    + intros _. pose proof (sumZ_member (fun g => if sg_open g then 1 else 0) (wr_segments s) g
        (opens_nonneg _) (list_elem_of_lookup_2 _ _ _ Hg)) as Hm1.
      cbn beta in Hm1. rewrite (fs_open _ _ _ _ Hfs) in Hm1. lia.
  - destruct Hmeta. split; wfields; rewrite ?S4; assumption.
  - apply (put_segments (Z.to_nat (h_shardIndex (rec_header record))) g g' s s
      (size (wr_sources s)) (size (wr_sources s)) (wr_nextSegmentNumber s)
      (wr_nextSegmentNumber s) Hl eq_refl); try lia.
    + intros i h. rewrite put_same by done. apply Hsegs.
    + by rewrite Z2Nat.id.
  - intros i h k p. wfields. rewrite Hal.
    destruct (decide (i = Z.to_nat (h_shardIndex (rec_header record)))) as [->|Hi].
    + rewrite list_lookup_insert_eq by done. intros [= <-].
      change (sg_indexPositions g') with positions. intros Hk.
      destruct (He3 _ _ Hk) as [Hold|]; [|done]. specialize (Hpos _ _ _ _ Hg Hold).
      rewrite length_app. lia.
    + rewrite list_lookup_insert_ne by done. intros Hh Hk. specialize (Hpos _ _ _ _ Hh Hk).
      rewrite length_app. lia.
  - by rewrite Hsz.
Qed.

End invariant.
