(* ===== verification/WriterSteps.v ===== *)
(** * WriterSteps: every call preserves the writer's invariant

    The loops over shards, the placement of a record and the other operations of
    Writer, composed from the single steps of WriterInv. *)
From stdpp Require Import base list numbers strings gmap.
From S2P Require Import Prelude Codec Layout Format DepthTransaction SourceState Disk Metadata.
From S2P Require Import BlockCodec Cut Segment Writer WriterShape WriterInv.
Import Crc32c.
Local Open Scope Z_scope.

Section steps.
Context `{CxetMarket} `{Codec : ByteBlockCodec} `{!ByteBlockLaws Codec}.

Abbreviation PR := binaryMarketPendingRecordBytes.

(** ** Frames *)

(** Flushing keeps a segment's fences, index and open mark; its pending rows stay
    or are gone. *)
Record kept (g g' : SegmentState) : Prop := {
  kp_sequence : sg_previousShardSequence g' = sg_previousShardSequence g;
  kp_monotonic : sg_previousMonotonicNs g' = sg_previousMonotonicNs g;
  kp_open : sg_open g' = sg_open g;
  kp_positions : sg_indexPositions g' = sg_indexPositions g;
  kp_pending : sg_pending g' = sg_pending g \/ sg_pending g' = [];
}.

Lemma kept_refl g : kept g g.
Proof. split; auto. Qed.
Lemma kept_trans g1 g2 g3 : kept g1 g2 -> kept g2 g3 -> kept g1 g3.
Proof.
  intros [A1 A2 A3 A4 A5] [B1 B2 B3 B4 B5]. split; try congruence.
  destruct B5 as [-> | ->]; auto.
Qed.

Record framed (s s' : WriterState) : Prop := {
  fr_config : wr_config s' = wr_config s;
  fr_sources : wr_sources s' = wr_sources s;
  fr_cut : wr_cutReservedBytes s' = wr_cutReservedBytes s;
  fr_next : wr_nextSegmentNumber s' = wr_nextSegmentNumber s;
  fr_gaps : wr_gaps s' = wr_gaps s;
  fr_manifest : wr_manifest s' = wr_manifest s;
  fr_index : wr_index s' = wr_index s;
  fr_payload : wr_referencePayload s' = wr_referencePayload s;
  fr_progress : wr_progress s' = wr_progress s;
  fr_generation : wr_cutGeneration s' = wr_cutGeneration s;
  fr_length : length (wr_segments s') = length (wr_segments s);
  fr_segments : forall i g, wr_segments s !! i = Some g ->
    exists g', wr_segments s' !! i = Some g' /\ kept g g';
}.

Lemma framed_refl s : framed s s.
Proof. split; try done. intros i g Hg. exists g. split; [done|apply kept_refl]. Qed.
Lemma framed_trans s1 s2 s3 : framed s1 s2 -> framed s2 s3 -> framed s1 s3.
Proof.
  intros [] []. split; try congruence. intros i g Hg.
  destruct (fr_segments0 _ _ Hg) as (g' & Hg' & K). destruct (fr_segments1 _ _ Hg') as (g'' & Hg'' & K').
  exists g''. split; [done|by eapply kept_trans].
Qed.

Lemma flush_kept s g ok s' g' : flush_result s g ok s' g' -> kept g g'.
Proof. intros Hr. inversion Hr; subst; split; wfields; auto. Qed.

(** Putting back a segment after steps that left the other segments alone. *)
Lemma framed_put shard s g s' g' :
  wr_segments s !! shard = Some g -> kept g g' -> wr_segments s' = wr_segments s ->
  wr_config s' = wr_config s -> wr_sources s' = wr_sources s ->
  wr_cutReservedBytes s' = wr_cutReservedBytes s ->
  wr_nextSegmentNumber s' = wr_nextSegmentNumber s -> wr_gaps s' = wr_gaps s ->
  wr_manifest s' = wr_manifest s -> wr_index s' = wr_index s ->
  wr_referencePayload s' = wr_referencePayload s -> wr_progress s' = wr_progress s ->
  wr_cutGeneration s' = wr_cutGeneration s ->
  framed s (putSegment shard g' s').
Proof.
  intros Hg Hk Hseg. intros. assert (shard < length (wr_segments s'))%nat as Hl
    by (rewrite Hseg; by eapply lookup_lt_Some).
  split; try assumption.
  - wfields. by rewrite length_insert, Hseg.
  - intros i h Hh. destruct (decide (i = shard)) as [->|Hi].
    + rewrite put_lookup by done. rewrite Hg in Hh. injection Hh as <-. eauto.
    + rewrite put_other, Hseg by done. exists h. split; [done|apply kept_refl].
Qed.

Lemma flush_framed shard s g ok s' g' :
  wr_segments s !! shard = Some g -> flush_result s g ok s' g' ->
  framed s (putSegment shard g' s').
Proof.
  intros Hg Hr. pose proof (flush_kept _ _ _ _ _ Hr) as Hk.
  apply (framed_put shard s g); try done; inversion Hr; subst; done.
Qed.

(** ** Loops over shards *)

Lemma flushShard_inv a c o shard s ok s' :
  0 <= a -> 0 <= c -> winv a c o s -> flushShard shard s = (ok, s') ->
  winv a c o s' /\ framed s s'.
Proof.
  intros Ha Hc Hinv. unfold flushShard.
  destruct (wr_segments s !! shard) as [g|] eqn:Hg;
    [|intros [= <- <-]; split; [done|apply framed_refl]].
  destruct (sg_open g); cbn [negb]; [|intros [= <- <-]; split; [done|apply framed_refl]].
  destruct (flushBlock s g) as [ok1 [s1 g1]] eqn:E. apply flushBlock_shape in E as Hr.
  intros [= <- <-]. split; [|by eapply flush_framed].
  eapply flush_inv; try done; [by eapply lookup_lt_Some|]. by rewrite put_same.
Qed.

Lemma forShards_inv (f : nat -> WriterState -> bool * WriterState) a c o :
  (forall shard s ok s', winv a c o s -> f shard s = (ok, s') -> winv a c o s' /\ framed s s') ->
  forall shards s ok s', winv a c o s -> forShards f shards s = (ok, s') ->
  winv a c o s' /\ framed s s'.
Proof.
  intros Hf. induction shards as [|shard shards IH]; intros s ok s' Hinv; cbn.
  { intros [= <- <-]. split; [done|apply framed_refl]. }
  destruct (f shard s) as [ok1 s1] eqn:E. destruct (Hf _ _ _ _ Hinv E) as [Hinv1 Hfr].
  destruct ok1; [|intros [= <- <-]; done]. intros Hrun.
  destruct (IH _ _ _ Hinv1 Hrun) as [Hinv2 Hfr2]. split; [done|by eapply framed_trans].
Qed.

Lemma makeRoom_inv a c o required s ok s' :
  0 <= a -> 0 <= c -> winv a c o s -> makeRoom required s = (ok, s') ->
  winv a c o s' /\ framed s s'.
Proof.
  intros Ha Hc Hinv. unfold makeRoom. destruct (negb _).
  - apply (forShards_inv flushShard a c o); [|done]. intros shard t ok1 t'. by apply flushShard_inv.
  - intros [= <- <-]. split; [done|apply framed_refl].
Qed.

Lemma commitShard_inv a c o shard s ok s' :
  0 <= a -> 0 <= c -> winv a c o s -> commitShard shard s = (ok, s') ->
  winv a c o s' /\ framed s s'.
Proof.
  intros Ha Hc Hinv. unfold commitShard.
  destruct (wr_segments s !! shard) as [g|] eqn:Hg;
    [|intros [= <- <-]; split; [done|apply framed_refl]].
  destruct (sg_open g) eqn:Eo; cbn [negb]; [|intros [= <- <-]; split; [done|apply framed_refl]].
  assert (shard < length (wr_segments s))%nat as Hl by (by eapply lookup_lt_Some).
  destruct (flushBlock s g) as [ok1 [s1 g1]] eqn:E. apply flushBlock_shape in E as Hr.
  assert (winv a c o (putSegment shard g1 s1)) as Hinv1
    by (eapply flush_inv; try done; by rewrite put_same).
  pose proof (flush_framed _ _ _ _ _ _ Hg Hr) as Hfr1.
  destruct (flush_open _ _ _ _ _ Hr) as [_ Hseg1].
  destruct ok1; [|intros [= <- <-]; done].
  destruct (flushStream s1 g1) as [ok2 [s2 g2]] eqn:E2.
  apply flushStream_shape in E2 as (disk & stream & -> & ->).
  assert (winv a c o (putSegment shard (g1 <| sg_stream := stream |>)
    (s1 <| wr_disk := disk |>))) as Hinv2.
  { apply (winv_agree a c o shard s1 g1); [by rewrite Hseg1|split; auto|done]. }
  assert (framed s (putSegment shard (g1 <| sg_stream := stream |>)
    (s1 <| wr_disk := disk |>))) as Hfr2.
  { pose proof (flush_kept _ _ _ _ _ Hr) as Hk.
    apply (framed_put shard s g); try done; try (inversion Hr; subst; done).
    destruct Hk; split; assumption. }
  destruct ok2; cbn [negb]; [|intros [= <- <-]; done].
  intros E3. apply onDisk_shape in E3 as (disk3 & _ & ->). split.
  - pose proof (winv_agree a c o shard (s1 <| wr_disk := disk |>) (g1 <| sg_stream := stream |>)
      (g1 <| sg_stream := stream |>) disk3) as Ha'.
    apply Ha'; [cbn; by rewrite Hseg1|split; auto|done].
  - destruct Hfr2. split; assumption.
Qed.

Lemma commitShards_config shards : forall s ok s',
  forShards commitShard shards s = (ok, s') -> wr_config s' = wr_config s.
Proof.
  induction shards as [|shard shards IH]; intros s ok s'; cbn; [by intros [= _ <-]|].
  destruct (commitShard shard s) as [ok1 s1] eqn:E.
  assert (wr_config s1 = wr_config s) as Hc.
  { unfold commitShard in E. destruct (_ !! _) as [g|]; [|by injection E as _ <-].
    on_if E1 in E; [by injection E as _ <-|].
    destruct (flushBlock s g) as [ok2 [s2 g2]] eqn:E2. apply flushBlock_shape in E2 as Hr.
    assert (wr_config s2 = wr_config s) as H2 by (inversion Hr; subst; done).
    destruct ok2; [|injection E as _ <-; exact H2].
    destruct (flushStream s2 g2) as [ok3 [s3 g3]] eqn:E3.
    apply flushStream_shape in E3 as (d & st & -> & ->).
    on_if E4 in E; [injection E as _ <-; exact H2|].
    apply onDisk_shape in E as (d' & _ & ->). exact H2. }
  destruct ok1; [|intros [= _ <-]; exact Hc]. intros Hrun. by rewrite (IH _ _ _ Hrun).
Qed.

(** ** Placing a record *)

Lemma b2z_bounds b : 0 <= Z.b2z b <= 1.
Proof. destruct b; cbn; lia. Qed.

Lemma addProduct_spec bytes count unitBytes total :
  0 <= bytes <= u64_max -> 0 <= count -> 0 <= unitBytes ->
  addProduct bytes count unitBytes = Some total ->
  total = bytes + count * unitBytes /\ total <= u64_max.
Proof.
  intros Hb Hc Hu. unfold addProduct. on_if E; [done|]. intros [= <-].
  assert (count * unitBytes <= u64_max - bytes) as Hle.
  { apply andb_false_iff in E as [E|E]; bsplit; [subst; lia|].
    destruct (Z.eq_dec unitBytes 0) as [->|Hne]; [lia|].
    transitivity (unitBytes * ((u64_max - bytes) / unitBytes)); [nia|].
    apply Z.mul_div_le. lia. }
  rewrite u64_id; [mlia|]. split; [|mlia]. nia.
Qed.

Lemma requiredBytes_spec newSource openNeeded indexNeeded s required cutGrowth :
  0 <= wr_cutReservedBytes s <= u64_max ->
  requiredBytes newSource openNeeded indexNeeded s = Some (required, cutGrowth) ->
  cutGrowth = 192 + 1984 * Z.b2z newSource /\
  required = PR + 192 + 2976 * Z.b2z newSource + 192 * Z.b2z openNeeded +
             72 * Z.b2z indexNeeded /\
  wr_cutReservedBytes s + cutGrowth <= u64_max.
Proof.
  intros Hcut. pose proof PR_bounds as HPR. change (2 ^ 33) with 8589934592 in HPR.
  assert (PR + 192 + 2976 + 192 + 72 <= u64_max) as Hsmall by mlia.
  unfold requiredBytes. sizes.
  destruct (addProduct PR 1 (2 * 96)) as [r1|] eqn:E1; [|done]. cbn [mbind option_bind].
  apply addProduct_spec in E1 as [-> _]; [|mlia|lia|lia].
  destruct newSource; cbn [Z.b2z mbind option_bind].
  - destruct (addProduct (PR + 1 * (2 * 96)) 1 _) as [r2|] eqn:E2; [|done]. cbn [mbind option_bind].
    apply addProduct_spec in E2 as [-> _]; [|mlia|lia|lia].
    destruct (addProduct (2 * 96) 2 _) as [c2|] eqn:E3; [|done]. cbn [mbind option_bind].
    apply addProduct_spec in E3 as [-> _]; [|mlia|lia|lia].
    destruct (addWithin _ _ _) eqn:Ew; cbn [negb]; [|done].
    apply addWithin_spec in Ew as [_ Hle]; [|mlia|lia].
    destruct openNeeded, indexNeeded; cbn [Z.b2z mbind option_bind];
      repeat match goal with |- context [if ?b then None else _] =>
        destruct b; cbn [mbind option_bind]; [done|] end; intros [= <- <-];
      rewrite ?(u64_id (_ + (128 + 64))) by mlia; rewrite ?(u64_id (_ + 72)) by mlia;
      repeat split; mlia.
  - destruct (addWithin _ _ _) eqn:Ew; cbn [negb]; [|done].
    apply addWithin_spec in Ew as [_ Hle]; [|mlia|lia].
    destruct openNeeded, indexNeeded; cbn [Z.b2z mbind option_bind];
      repeat match goal with |- context [if ?b then None else _] =>
        destruct b; cbn [mbind option_bind]; [done|] end; intros [= <- <-];
      rewrite ?(u64_id (_ + (128 + 64))) by mlia; rewrite ?(u64_id (_ + 72)) by mlia;
      repeat split; mlia.
Qed.

(** A segment that takes [record] as its next row, once it is open. *)
Definition takes (record : BinaryMarketRecord) (g : SegmentState) : Prop :=
  orderRejects (rec_header record) g = false /\
  (sg_pending g = [] \/ (length (sg_pending g) < 256)%nat /\
   forall first, list.head (sg_pending g) = Some first ->
     h_channel (rec_header first) = h_channel (rec_header record)).

Lemma takes_kept record g g' : kept g g' -> takes record g -> takes record g'.
Proof.
  intros [Hs Hm _ _ Hp] [Ho Hr]. split; [unfold orderRejects in *; by rewrite Hs, Hm|].
  destruct Hp as [-> | ->]; [done|by left].
Qed.

Lemma takes_closed record g g' : closedSegment g g' -> takes record g -> takes record g'.
Proof.
  intros (_ & Hp & Hs & Hm & _) [Ho _]. split; [unfold orderRejects in *; by rewrite Hs, Hm|].
  by left.
Qed.

(** The parts of the state a record's placement leaves alone until it commits. *)
Record keeps (s s' : WriterState) : Prop := {
  kc_config : wr_config s' = wr_config s;
  kc_sources : wr_sources s' = wr_sources s;
  kc_records : mf_recordCount (wr_manifest s') = mf_recordCount (wr_manifest s);
}.

Lemma keeps_refl s : keeps s s.
Proof. done. Qed.
Lemma keeps_trans s1 s2 s3 : keeps s1 s2 -> keeps s2 s3 -> keeps s1 s3.
Proof. intros [] []. split; congruence. Qed.
Lemma framed_keeps s s' : framed s s' -> keeps s s'.
Proof. intros []. split; congruence. Qed.

Lemma sealSegment_inv a c o shard s g ok s' :
  0 <= a -> 0 <= c -> winv a c o s -> wr_segments s !! shard = Some g -> sg_open g = true ->
  sealSegment shard s = (ok, s') ->
  winv a c o s' /\ keeps s s' /\
  (ok = true -> exists g', wr_segments s' !! shard = Some g' /\ closedSegment g g').
Proof.
  intros Ha Hc Hinv Hg Ho. unfold sealSegment. rewrite Hg, Ho. cbn [negb].
  destruct (sealOpen s g) as [ok1 [s1 g1]] eqn:E. apply sealOpen_shape in E as Hr.
  intros [= <- <-]. assert (shard < length (wr_segments s))%nat as Hl by (by eapply lookup_lt_Some).
  split; [eapply seal_inv; try done; by rewrite put_same|].
  inversion Hr as [ok' s2 g2 disk header stream Hf _ | s2 g2 disk Hf]; subst;
    apply flushBlock_shape in Hf as Hf'; pose proof (flush_kept _ _ _ _ _ Hf') as Hk;
    destruct (flush_open _ _ _ _ _ Hf') as [_ Hseg].
  - split; [|done]. split; inversion Hf'; subst; done.
  - split; [split; inversion Hf'; subst; done|]. intros _. eexists. split.
    + apply put_lookup. wfields. by rewrite Hseg.
    + pose proof (flush_ok_empty _ _ _ _ Hf') as He. destruct Hk. by split_and!.
Qed.

Lemma openSegment_inv a c o shardIndex s g ok s' :
  0 <= shardIndex -> 192 <= a -> 0 <= c -> winv a c o s ->
  wr_segments s !! Z.to_nat shardIndex = Some g -> sg_open g = false ->
  openSegment shardIndex s = (ok, s') ->
  winv (a - 192) c (if ok then o + 1 else o) s' /\ keeps s s' /\
  (ok = true -> exists g', wr_segments s' !! Z.to_nat shardIndex = Some g' /\ sg_open g' = true /\
     sg_indexPositions g' = ∅ /\ forall record, takes record g -> takes record g').
Proof.
  intros Hsh Ha Hc Hinv Hg Ho E. apply (openSegment_shape _ _ g) in E as Hr; [|done].
  split; [exact (open_inv _ _ _ _ _ _ _ _ Hsh Hg Ha Hc Hinv Hr)|].
  assert (Z.to_nat shardIndex < length (wr_segments s))%nat as Hl by (by eapply lookup_lt_Some).
  inversion Hr; subst; try done; try congruence.
  split; [done|]. intros _. eexists. split; [by apply put_lookup|].
  split; [done|]. split; [done|]. intros record [Hor _]. split; [exact Hor|by left].
Qed.

(** An admitted record of a shard whose segment takes it. *)
Record placeable (record : BinaryMarketRecord) (ad : Admission) (s : WriterState) : Prop := {
  pl_fits : fits l_BinaryMarketRecord record;
  pl_valid : validBinaryMarketRecord record = true;
  pl_shard : 0 <= h_shardIndex (rec_header record);
  pl_tail : tailZero record = true;
  pl_source : h_sourceId (rec_header record) <=
    size (wr_sources s) + Z.b2z (bool_decide (ad_addedSource ad <> None));
  pl_added : forall source, ad_addedSource ad = Some source ->
    fits l_BinaryMarketSource source /\
    validBinaryMarketSource source (size (wr_sources s)) = true /\
    size (wr_sources s) < kBinaryMarketMaximumSources;
}.

Lemma placeable_keeps record ad s s' :
  keeps s s' -> placeable record ad s -> placeable record ad s'.
Proof. intros [_ Hs] []. split; rewrite ?Hs; assumption. Qed.

(** Adding the source of an admission spends its share of the payment. *)
Lemma addSource_inv a c o record ad s :
  placeable record ad s -> 0 <= a -> 0 <= c ->
  let n := Z.b2z (bool_decide (ad_addedSource ad <> None)) in
  winv (a + 992 * n) (c + 1984 * n) o s ->
  winv a c o (addSource ad s) /\ wr_segments (addSource ad s) = wr_segments s /\
  wr_config (addSource ad s) = wr_config s /\
  mf_recordCount (wr_manifest (addSource ad s)) = mf_recordCount (wr_manifest s) /\
  h_sourceId (rec_header record) <= size (wr_sources (addSource ad s)).
Proof.
  intros Hpl Ha Hc n Hinv. pose proof (pl_source _ _ _ Hpl) as Hsrc. unfold addSource.
  destruct (ad_addedSource ad) as [source|] eqn:Ead.
  2: { subst n. rewrite bool_decide_eq_false_2 in * by tauto. cbn [Z.b2z] in *.
       split; [eapply winv_weaken; [| | |exact Hinv]; lia|].
       split_and!; [done|done|done|lia]. }
  destruct (pl_added _ _ _ Hpl source Ead) as (Hfit & Hvalid & Hmax).
  subst n. rewrite bool_decide_eq_true_2 in * by done. cbn [Z.b2z] in *.
  pose proof (ct_sources _ _ (wi_counts _ _ _ _ Hinv)) as Hcount.
  pose proof (bd_sources _ _ _ (wi_budget _ _ _ _ Hinv)) as Hbs.
  pose proof (bd_cells _ _ _ (wi_budget _ _ _ _ Hinv)) as Hcells.
  assert (winv a c o (withSources [source] (wr_sourceStates s ++ [ad_prospective ad]) s)) as Hw.
  { apply sources_inv; rewrite ?size_one; try done; try lia.
    - by apply Forall_singleton.
    - apply validSources_app; [|done]. apply (me_sources _ (wi_meta _ _ _ _ Hinv)). }
  unfold kBinaryMarketMaximumSources in *.
  enough (s <| wr_sources ::= fun sources => sources ++ [source] |>
        <| wr_sourceStates ::= fun states => states ++ [ad_prospective ad] |>
        <| wr_manifest ::= fun m => m <| mf_sourceCount ::= fun n => u32 (n + 1) |> |>
        <| wr_maximumGapRecords ::= fun n => u64 (n + kBinaryMarketStoredChannelCount) |>
      = withSources [source] (wr_sourceStates s ++ [ad_prospective ad]) s) as ->.
  { split; [done|]. split_and!; [done|done|done|]. unfold withSources. wfields.
    rewrite size_app, size_one. lia. }
  unfold withSources. rewrite size_one. destruct s. cbn in *. rewrite Hcount, Hcells.
  change kBinaryMarketStoredChannelCount with 9.
  rewrite u32_id, u64_id by mlia. f_equal. lia.
Qed.

Lemma reserve_keeps bytes s ok s' : reserveBytes bytes s = (ok, s') ->
  keeps s s' /\ wr_cutReservedBytes s' = wr_cutReservedBytes s /\ wr_segments s' = wr_segments s.
Proof. unfold reserveBytes. destruct (negb _); intros [= <- <-]; done. Qed.

(** Sealing the old segment and opening the next, where the placement asks for it. *)
Lemma rotate_inv a c record s g rotate ok1 s1 :
  let shardIndex := h_shardIndex (rec_header record) in
  let openNeeded := negb (sg_open g) || rotate in
  0 <= shardIndex -> 192 * Z.b2z openNeeded <= a -> 0 <= c -> winv a c 0 s ->
  wr_segments s !! Z.to_nat shardIndex = Some g -> (rotate = true -> sg_open g = true) ->
  takes record g ->
  (if rotate then sealSegment (Z.to_nat shardIndex) s else (true, s)) = (ok1, s1) ->
  winv a c 0 s1 /\ keeps s s1 /\
  (ok1 = true -> forall ok2 s2,
     (if openNeeded then openSegment shardIndex s1 else (true, s1)) = (ok2, s2) ->
     keeps s s2 /\ winv (a - 192 * Z.b2z openNeeded) c (Z.b2z (ok2 && openNeeded)) s2 /\
     (ok2 = true -> exists g', wr_segments s2 !! Z.to_nat shardIndex = Some g' /\
        sg_open g' = true /\ takes record g' /\
        sg_indexPositions g' = if openNeeded then ∅ else sg_indexPositions g)).
Proof.
  intros shardIndex openNeeded Hsh Ha Hc Hinv Hg Hro Htk E1.
  assert (0 <= a) as Ha0 by (destruct openNeeded; cbn [Z.b2z] in Ha; lia).
  assert (winv a c 0 s1 /\ keeps s s1 /\ (ok1 = true -> exists g1,
    wr_segments s1 !! Z.to_nat shardIndex = Some g1 /\ takes record g1 /\
    (openNeeded = true -> sg_open g1 = false) /\ (openNeeded = false -> g1 = g))) as (I1 & K1 & G1).
  { destruct rotate.
    - destruct (sealSegment_inv _ _ _ _ _ _ _ _ Ha0 Hc Hinv Hg (Hro eq_refl) E1) as (I1 & K1 & G1).
      split; [done|]. split; [done|]. intros Hok. destruct (G1 Hok) as (g1 & Hg1 & Hcl).
      exists g1. split; [done|]. split; [by eapply takes_closed|]. split; [by destruct Hcl|].
      subst openNeeded. by rewrite orb_true_r.
    - injection E1 as <- <-. split; [done|]. split; [done|]. intros _. exists g.
      subst openNeeded. rewrite orb_false_r. split_and!; try done. by destruct (sg_open g). }
  split; [done|]. split; [done|]. intros Hok ok2 s2 E2. destruct (G1 Hok) as (g1 & Hg1 & Ht1 & Ho1 & He1).
  destruct openNeeded eqn:En; cbn [Z.b2z] in *.
  - destruct (openSegment_inv a c 0 _ _ _ _ _ Hsh ltac:(lia) Hc I1 Hg1 (Ho1 eq_refl) E2)
      as (I2 & K2 & G2).
    split; [by eapply keeps_trans|]. rewrite andb_true_r.
    split; [destruct ok2; cbn [Z.b2z]; by rewrite Z.mul_1_r|]. intros Hok2.
    destruct (G2 Hok2) as (g2 & Hg2 & Ho2 & Hp2 & Ht2). exists g2. auto.
  - injection E2 as <- <-. split; [done|]. cbn [andb Z.b2z]. rewrite Z.mul_0_r, Z.sub_0_r.
    split; [done|]. intros _. exists g1. split_and!; try done; rewrite He1 by done; [|done].
    subst openNeeded. apply orb_false_iff in En as [En _]. by apply negb_false_iff in En.
Qed.

(** Only a committed record counts. *)
Definition counted (status : Status) (s s' : WriterState) : Prop :=
  wr_config s' = wr_config s /\
  mf_recordCount (wr_manifest s') =
    mf_recordCount (wr_manifest s) + Z.b2z (isOk status).

Lemma keeps_counted status s s' : keeps s s' -> status <> Ok -> counted status s s'.
Proof.
  intros [Hc _ Hr] Hs. split; [done|]. rewrite Hr. replace (isOk status) with false by (by destruct status).
  cbn [Z.b2z]. lia.
Qed.

Lemma counted_after status s1 s2 s3 : keeps s1 s2 -> counted status s2 s3 -> counted status s1 s3.
Proof. intros [? _ ?] [? ?]. split; congruence. Qed.

Lemma winv_records a c o s : winv a c o s -> 0 <= a -> 0 <= c ->
  0 <= mf_recordCount (wr_manifest s) < u64_max.
Proof.
  intros Hinv Ha Hc. destruct (winv_totals _ _ _ _ Hinv Ha Hc) as (_ & _ & Tc & Tp & _).
  pose proof (bd_records _ _ _ (wi_budget _ _ _ _ Hinv)) as Hr. sizes.
  pose proof (me_fits _ (wi_meta _ _ _ _ Hinv)) as [_ _ _ _ _ _ _ _ _ _ _ _ _ Hn]%manifest_fits.
  mlia.
Qed.

Lemma commit_counted record ad s status s' :
  0 <= mf_recordCount (wr_manifest s) < u64_max ->
  commitRecord record ad s = (status, s') -> counted status s s'.
Proof.
  intros Hn. unfold commitRecord. destruct (_ !! _) as [g|]; [|intros [= <- <-]; by apply keeps_counted].
  pose proof (ensureIndex_shape (h_sourceId (rec_header record),
    h_sourceGeneration (rec_header record), h_channel (rec_header record))
    (h_shardIndex (rec_header record)) s g) as Hsh.
  destruct (ensureIndex _ _ _ _) as [[position [s1 g1]]|];
    [|intros [= <- <-]; apply keeps_counted; [done|by destruct (wr_quotaReached s)]].
  destruct Hsh as (entries & positions & -> & _). intros [= <- <-]. split; [done|].
  unfold storeRecord. wfields. destruct (store_fields (rec_header record) (wr_manifest s)) as [-> _].
  rewrite u64_id by mlia. done.
Qed.

Lemma placeRecord_inv record ad g s status s' :
  winv 0 0 0 s -> wr_segments s !! Z.to_nat (h_shardIndex (rec_header record)) = Some g ->
  placeable record ad s -> takes record g -> placeRecord record ad g s = (status, s') ->
  winv 0 0 0 s' /\ counted status s s'.
Proof.
  intros Hinv Hg Hpl Htk. unfold placeRecord.
  set (rotate := mustRotate _ g). set (openNeeded := negb (sg_open g) || rotate).
  set (key := (_, _, _)). set (indexNeeded := openNeeded || _).
  destruct (requiredBytes _ _ _ _) as [[required cutGrowth]|] eqn:Er;
    [|intros [= <- <-]; split; [done|by apply keeps_counted]].
  destruct (winv_totals _ _ _ _ Hinv ltac:(lia) ltac:(lia)) as (_ & _ & Tc & Tp & _).
  pose proof PR_bounds as HPR.
  apply requiredBytes_spec in Er as (Ec & Er & Hcut); [|mlia].
  set (n := Z.b2z (bool_decide (ad_addedSource ad <> None))) in *.
  pose proof (b2z_bounds (bool_decide (ad_addedSource ad <> None))) as Hn. fold n in Hn.
  pose proof (b2z_bounds openNeeded) as Ho. pose proof (b2z_bounds indexNeeded) as Hx.
  (* room *)
  destruct (makeRoom required s) as [ok s1] eqn:E1. cbn iota beta.
  destruct (makeRoom_inv 0 0 0 _ _ _ _ ltac:(lia) ltac:(lia) Hinv E1) as [I1 F1].
  pose proof (framed_keeps _ _ F1) as K1.
  destruct ok; cbn [negb]; [|intros [= <- <-]; split; [done|by apply keeps_counted]].
  destruct (fr_segments _ _ F1 _ _ Hg) as (g1 & Hg1 & Kg).
  (* payment *)
  destruct (reserveBytes required s1) as [ok s2] eqn:E2. cbn iota beta.
  destruct (reserve_inv 0 0 0 required s1 ok s2 ltac:(lia) ltac:(lia) ltac:(lia) I1 E2) as (I2 & I2' & _).
  destruct (reserve_keeps _ _ _ _ E2) as (K2 & Hc2 & Hs2).
  destruct ok; cbn [negb]; [specialize (I2 eq_refl)|intros [= <- <-]; split; [done|]].
  2: { apply keeps_counted; [by eapply keeps_trans|done]. }
  set (s3 := s2 <| wr_cutReservedBytes ::= _ |>).
  assert (winv (required - cutGrowth) (0 + cutGrowth) 0 s3) as I3.
  { apply cut_growth_inv; try lia; [|rewrite Hc2, (fr_cut _ _ F1); lia].
    eapply winv_weaken; [| | |exact I2]; lia. }
  assert (keeps s s3) as K3 by (apply (keeps_trans _ s2); [by eapply keeps_trans|done]).
  assert (wr_segments s3 !! Z.to_nat (h_shardIndex (rec_header record)) = Some g1) as Hg3
    by (subst s3; wfields; by rewrite Hs2).
  (* segment *)
  assert (openNeeded = negb (sg_open g1) || rotate) as Eo
    by (subst openNeeded; by rewrite (kp_open _ _ Kg)).
  destruct (if rotate then _ else _) as [ok s4] eqn:E4. cbn iota beta.
  destruct (rotate_inv (required - cutGrowth) (0 + cutGrowth) record s3 g1 rotate ok s4)
    as (I4 & K4 & R4); try done.
  { apply Hpl. } { rewrite <- Eo. lia. } { lia. }
  { intros Hro. rewrite (kp_open _ _ Kg). subst rotate. unfold mustRotate in Hro. by bsplit. }
  { by eapply takes_kept. }
  destruct ok; cbn [negb]; [specialize (R4 eq_refl)|intros [= <- <-]].
  2: { split; [eapply winv_weaken; [| | |exact I4]; lia|].
       apply keeps_counted; [by eapply keeps_trans|done]. }
  rewrite <- Eo in R4. destruct (if openNeeded then _ else _) as [ok s5] eqn:E5. cbn iota beta.
  destruct (R4 _ _ eq_refl) as (K5 & I5 & G5).
  destruct ok; cbn [negb]; [specialize (G5 eq_refl)|intros [= <- <-]].
  2: { split; [eapply winv_weaken; [| | |exact I5]; cbn; lia|].
       apply keeps_counted; [by eapply keeps_trans|done]. }
  destruct G5 as (g5 & Hg5 & Ho5 & Ht5 & Hx5). cbn [andb] in I5.
  pose proof (keeps_trans _ _ _ K3 K5) as K.
  (* source and record *)
  destruct (addSource_inv (PR + 72 * Z.b2z indexNeeded) 192 (Z.b2z openNeeded) record ad s5)
    as (I6 & S6 & C6 & R6 & N6).
  { by eapply placeable_keeps. } { lia. } { lia. }
  { eapply winv_weaken; [| | |exact I5]; fold n; lia. }
  intros Ecm. split.
  2: { assert (counted status s5 s') as [Hcc Hcr].
       { destruct (commit_counted record ad (addSource ad s5) status s') as [Hcc Hcr]; [|done|].
         - rewrite R6, (kc_records _ _ K). by eapply winv_records.
         - split; congruence. }
       by eapply counted_after. }
  destruct Ht5 as [Hor Hroom]. destruct Hpl.
  eapply (commit_inv _ _ _ record ad _ g5); [exact I6|..|exact Ecm]; try lia.
  - by rewrite S6.
  - split; try done; destruct Hroom as [->|[? ?]]; cbn; try done. lia.
  - intros Hnone. enough (indexNeeded = true) as -> by (cbn; lia). subst indexNeeded.
    rewrite Hx5 in Hnone. destruct openNeeded; [done|]. cbn [orb]. apply bool_decide_eq_true_2.
    by rewrite <- (kp_positions _ _ Kg).
  - intros Hne. destruct openNeeded; [by rewrite Hx5|done].
Qed.

End steps.
