(* ===== verification/WriterCalls.v ===== *)
(** * WriterCalls: the writer's public operations preserve its invariant

    [append], [registerSources], [appendGap], [updateProgress],
    [setReferencePayload], [publishCut], [finalize], [beginFinalDrain] and
    [start] of Writer, whatever they return. *)
From stdpp Require Import base list numbers strings gmap.
From S2P Require Import Prelude Codec Layout Format DepthTransaction SourceState Disk Metadata.
From S2P Require Import BlockCodec Cut Segment Writer WriterShape WriterInv WriterSteps.
Import Crc32c.
Local Open Scope Z_scope.

(** A source registered as not present yet is valid where the announced one is. *)
Lemma absent_source source index generation :
  validBinaryMarketSource source index = true ->
  validBinaryMarketSource (source <| src_initiallyPresent := 0 |>
    <| src_initialSourceGeneration := generation |>) index = true.
Proof.
  unfold validBinaryMarketSource. on_if E; [done|]. intros Hrest.
  destruct source. cbn in *. unfold compatibilityMatches in *. cbn in *.
  match goal with |- (if ?b then _ else _) = _ => enough (b = false) as ->; [done|] end.
  unfold sourceFieldsInvalid in *. cbn in *.
  repeat match goal with E : _ || _ = false |- _ => apply orb_false_iff in E as [? ?] end.
  repeat apply orb_false_intro; rewrite ?andb_false_r; first [assumption|reflexivity].
Qed.

Lemma absent_source_fits source generation :
  in_u64 generation -> fits l_BinaryMarketSource source ->
  fits l_BinaryMarketSource (source <| src_initiallyPresent := 0 |>
    <| src_initialSourceGeneration := generation |>).
Proof.
  intros Hg. destruct source. cbn. unfold fits_unsigned. intuition (try done; try mlia).
Qed.

Section calls.
Context `{CxetMarket} `{Codec : ByteBlockCodec} `{!ByteBlockLaws Codec}.

Lemma valid_lifecycle_source record :
  validBinaryMarketRecord record = true ->
  h_channel (rec_header record) = Channel.SourceLifecycle ->
  src_sourceId (lc_source (lifecyclePayload record)) = h_sourceId (rec_header record).
Proof.
  unfold validBinaryMarketRecord. intros Hv Hc. rewrite Hc in Hv.
  on_if E1 in Hv; [done|]. on_if E2 in Hv; [done|]. on_if E3 in Hv; [done|].
  on_if E4 in Hv; [done|]. change (negb (validRecordLifecycle record) = false) in E4.
  apply negb_false_iff in E4. unfold validRecordLifecycle in E4. revert E4.
  generalize (lifecyclePayload record) as p. intros p E4.
  apply negb_true_iff in E4. bsplit. assumption.
Qed.

Lemma lifecycle_source_fits record :
  fits l_BinaryMarketRecord record ->
  fits l_BinaryMarketSource (lc_source (lifecyclePayload record)).
Proof.
  intros Hf. assert (fits l_BinaryMarketSourceLifecyclePayload (lifecyclePayload record)) as Hp.
  { unfold binaryMarketPayload. destruct record as [hd pl pd]. destruct Hf as [[_ [Hl Hb]] _].
    cbn in Hb, Hl. cbn [rec_payload]. apply view_fits; [done|].
    change (sizeof l_BinaryMarketSourceLifecyclePayload) with 304%nat. lia. }
  revert Hp. generalize (lifecyclePayload record). intros p Hp. destruct p. apply Hp.
Qed.

(** ** append *)

Lemma admit_placeable record s ad :
  fits l_BinaryMarketRecord record -> admission record s = inr ad -> placeable record ad s.
Proof.
  intros Hf. unfold admission. on_if E1; [done|]. on_if E2; [done|]. bsplit.
  destruct (advanceBinaryMarketDepthTransaction _ _) as [[] transaction]; cbn [negb]; [|done].
  on_if E3; [done|].
  set (added := if _ =? _ then _ else _).
  assert (forall source state, added = Some (Some source, state) ->
    h_channel (rec_header record) = Channel.SourceLifecycle /\
    h_sourceId (rec_header record) = size (wr_sources s) + 1 /\
    size (wr_sources s) < kBinaryMarketMaximumSources /\
    source = lc_source (lifecyclePayload record) <| src_initiallyPresent := 0 |>) as Hnew.
  { intros source state. subst added. destruct (_ =? size _ + 1) eqn:En.
    - apply andb_false_iff in E3 as [?|E3]; [done|]. bsplit. unfold addedSourceOf.
      generalize (lifecyclePayload record) as p. intros p.
      destruct (negb _ || _); cbn; [done|]. intros [= <- _]. done.
    - by destruct (_ !! _). }
  assert (forall state, added = Some (None, state) ->
    h_sourceId (rec_header record) <= size (wr_sources s)) as Hold.
  { intros state. subst added. destruct (_ =? size _ + 1) eqn:En.
    - destruct (addedSourceOf record); done.
    - intros _. apply Z.eqb_neq in En. destruct (_ =? Channel.SourceLifecycle); lia. }
  clearbody added. destruct added as [[added state]|]; [|done].
  destruct (advanceBinaryMarketSourceState _ _ _) as [[] prospective]; cbn [negb]; [|done].
  intros [= <-].
  assert (0 <= h_shardIndex (rec_header record)) as Hsh.
  { destruct record as [hd pl pd]. destruct Hf as [[Hf _] _]. destruct hd. cbn in Hf.
    unfold fits_unsigned in Hf. cbn. intuition lia. }
  split; try done; cbn [ad_addedSource].
  - destruct added as [source|]; [destruct (Hnew _ _ eq_refl) as (_ & -> & _)|];
      [rewrite bool_decide_eq_true_2 by done; cbn; lia|].
    rewrite bool_decide_eq_false_2 by tauto. specialize (Hold _ eq_refl). cbn. lia.
  - intros source ->. destruct (Hnew _ _ eq_refl) as (Hch & Hid & Hmax & ->).
    pose proof (valid_lifecycle_source record ltac:(done) Hch) as Hsrc.
    destruct (valid_lifecycle record ltac:(done) Hch) as (Hvalid & _ & _).
    pose proof (lifecycle_source_fits record Hf) as Hfit.
    revert Hsrc Hvalid Hfit. generalize (lc_source (lifecyclePayload record)) as source.
    intros source Hsrc Hvalid Hfit. unfold validRow in Hvalid.
    apply (absent_source _ _ (src_initialSourceGeneration source)) in Hvalid.
    apply (absent_source_fits _ (src_initialSourceGeneration source)) in Hfit as Hfit'.
    2: { destruct source. cbn in Hfit. unfold fits_unsigned in Hfit. cbn. intuition mlia. }
    rewrite Hsrc, Hid, Z.add_simpl_r in Hvalid. destruct source. split_and!; assumption.
Qed.

Lemma unflushed_takes record shard sources next g :
  seg_ok shard sources next g -> orderRejects (rec_header record) g = false ->
  mustFlush (rec_header record) g = false -> takes record g.
Proof.
  intros Hg Hor Hf. split; [done|]. unfold mustFlush in Hf.
  destruct (sg_open g) eqn:Eo; [|left; by apply (sg_closed _ _ _ _ Hg)].
  destruct (sg_pending g) as [|first rest] eqn:Ep; [by left|]. right.
  cbn [andb length negb Nat.eqb] in Hf. bsplit. apply bool_decide_eq_true_1 in H1.
  pose proof (sg_room _ _ _ _ Hg) as Hroom. rewrite Ep in Hroom.
  unfold size, kBinaryMarketBlockRecords in *. cbn in Hroom, H0, H1 |- *. split; [lia|].
  intros ? [= <-]. congruence.
Qed.

Lemma flush_keeps s g ok s' g' : flush_result s g ok s' g' -> keeps s s'.
Proof. intros Hr. inversion Hr; subst; done. Qed.

Lemma admit_rejects record s status : admission record s = inl status -> status <> Ok.
Proof.
  unfold admission. on_if E1; [by intros [= <-]|]. on_if E2; [by intros [= <-]|].
  destruct (advanceBinaryMarketDepthTransaction _ _) as [[] ?]; cbn [negb]; [|by intros [= <-]].
  on_if E3; [by intros [= <-]|].
  match goal with |- context [if ?b then (addedSourceOf _ ≫= ?f) else ?e] =>
    destruct (if b then (addedSourceOf record ≫= f) else e) as [[? ?]|] end; [|by intros [= <-]].
  destruct (advanceBinaryMarketSourceState _ _ _) as [[] ?]; cbn [negb]; [done|by intros [= <-]].
Qed.

Lemma appendActive_inv record s status s' :
  fits l_BinaryMarketRecord record -> winv 0 0 0 s -> appendActive record s = (status, s') ->
  winv 0 0 0 s' /\ counted status s s'.
Proof.
  intros Hf Hinv. unfold appendActive. destruct (admission record s) as [|ad] eqn:Ea;
    [intros [= <- <-]; split; [done|]; apply keeps_counted; [done|by eapply admit_rejects]|].
  apply admit_placeable in Ea as Hpl; [|done].
  destruct (wr_segments s !! _) as [g|] eqn:Hg;
    [|intros [= <- <-]; split; [done|by apply keeps_counted]].
  on_if Eor; [intros [= <- <-]; split; [done|by apply keeps_counted]|].
  destruct (mustFlush (rec_header record) g) eqn:Em.
  - destruct (flushBlock s g) as [ok [s1 g1]] eqn:E1. apply flushBlock_shape in E1 as Hr.
    assert (Z.to_nat (h_shardIndex (rec_header record)) < length (wr_segments s))%nat as Hl
      by (by eapply lookup_lt_Some).
    assert (winv 0 0 0 (putSegment (Z.to_nat (h_shardIndex (rec_header record))) g1 s1)) as I1
      by (eapply flush_inv; try done; by rewrite put_same).
    assert (keeps s (putSegment (Z.to_nat (h_shardIndex (rec_header record))) g1 s1)) as K1
      by (destruct (flush_keeps _ _ _ _ _ Hr); by split).
    destruct ok; cbn [negb]; [|intros [= <- <-]; split; [done|by apply keeps_counted]].
    intros Hp. apply placeRecord_inv in Hp as [I2 C2]; [|done|..].
    + split; [done|]. by eapply counted_after.
    + apply put_lookup. by rewrite (proj2 (flush_open _ _ _ _ _ Hr)).
    + by eapply placeable_keeps.
    + split; [|left; by apply flush_ok_empty in Hr].
      destruct (flush_kept _ _ _ _ _ Hr) as [Hs Hm _ _ _]. unfold orderRejects in *.
      by rewrite Hs, Hm.
  - cbn [negb]. rewrite put_same by done. intros Hp. apply placeRecord_inv in Hp; try done.
    eapply unflushed_takes; try done. eapply (wi_segments _ _ _ _ Hinv). exact Hg.
Qed.

(** ** registerSources *)

(** Every other call leaves the configuration and the record count alone. *)
Definition unchanged (s s' : WriterState) : Prop :=
  wr_config s' = wr_config s /\
  mf_recordCount (wr_manifest s') = mf_recordCount (wr_manifest s).

Lemma registered_sources existing incoming : forall count final s,
  Forall (fits l_BinaryMarketSource) incoming ->
  projectSources existing incoming count = Some final ->
  size existing <= count -> size (wr_sources s) = count ->
  count <= kBinaryMarketMaximumSources -> validSources (wr_sources s) = true ->
  exists added states,
    fold_left registerSource incoming s =
      s <| wr_sources ::= fun sources => sources ++ added |> <| wr_sourceStates := states |> /\
    size added = final - count /\ final <= kBinaryMarketMaximumSources /\
    Forall (fits l_BinaryMarketSource) added /\ validSources (wr_sources s ++ added) = true.
Proof.
  induction incoming as [|source incoming IH]; intros count final s Hfit; cbn [projectSources].
  { intros [= <-] _ _ Hmax Hv. exists [], (wr_sourceStates s). rewrite app_nil_r. split_and!; try done.
    - destruct s. cbn. by rewrite app_nil_r.
    - rewrite size_nil. lia. }
  inversion Hfit as [|? ? Hsf Hrest]; subst. on_if E1; [done|]. bsplit.
  cbn [fold_left]. unfold registerSource at 2. on_if E2.
  - destruct (existing !! _); [|done]. on_if E3; [done|]. intros Hp Hle Hs Hmax Hv. bsplit.
    replace (src_sourceId source <=? size (wr_sources s)) with true by (symmetry; apply Z.leb_le; lia).
    by apply (IH count).
  - on_if E3; [|done]. intros Hp Hle Hs Hmax Hv. bsplit.
    replace (src_sourceId source <=? size (wr_sources s)) with false by (symmetry; apply Z.leb_gt; lia).
    match goal with |- context [fold_left _ incoming ?t] => set (s1 := t) end.
    assert (validSources (wr_sources s1) = true) as Hv1.
    { subst s1. wfields. apply validSources_app; [done|].
      rewrite Hs. replace count with (src_sourceId source - 1) by lia. by apply absent_source. }
    destruct (IH (count + 1) final s1) as (added & states & Hfold & Hn & Hm & Hf & Hvalid); try done.
    + lia.
    + subst s1. wfields. rewrite size_app, size_one. lia.
    + lia.
    + exists ((source <| src_initiallyPresent := 0 |> <| src_initialSourceGeneration := 0 |>) :: added),
        states. split_and!; try done.
      * rewrite Hfold. subst s1. destruct s. cbn. by rewrite <- app_assoc.
      * change (?x :: added) with ([x] ++ added). rewrite size_app, size_one. lia.
      * constructor; [by apply absent_source_fits; [mlia|]|done].
      * subst s1. revert Hvalid. wfields. by rewrite <- app_assoc.
Qed.

Lemma projectSources_count existing incoming : forall count final,
  projectSources existing incoming count = Some final -> count <= final.
Proof.
  induction incoming as [|source incoming IH]; intros count final; cbn.
  { intros [= <-]. lia. }
  on_if E1; [done|]. on_if E2.
  - destruct (existing !! _); [|done]. on_if E3; [done|]. apply IH.
  - on_if E3; [|done]. intros Hp%IH. lia.
Qed.

Lemma registerSourcesActive_inv sources s status s' :
  Forall (fits l_BinaryMarketSource) sources -> winv 0 0 0 s ->
  registerSourcesActive sources s = (status, s') ->
  winv 0 0 0 s' /\ unchanged s s'.
Proof.
  intros Hfit Hinv. unfold registerSourcesActive. on_if E1; [by intros [= <- <-]|].
  destruct (projectSources _ _ _) as [final|] eqn:Ep; [|by intros [= <- <-]].
  destruct (winv_totals _ _ _ _ Hinv ltac:(lia) ltac:(lia)) as (_ & _ & Tc & Tp & _).
  pose proof (bd_sources _ _ _ (wi_budget _ _ _ _ Hinv)) as Hbs.
  pose proof (projectSources_count _ _ _ _ Ep) as Hge.
  assert (winv 0 0 0 (s <| wr_quotaReached := true |>)) as Hq by (by apply winv_quota).
  set (n := final - size (wr_sources s)).
  destruct (addProduct 0 n kSourceReservationBytes) as [required|] eqn:E2;
    [|intros [= <- <-]; split; [exact Hq|by split]].
  destruct (addProduct 0 n (2 * kSourceStorageBytes)) as [growth|] eqn:E3;
    [|intros [= <- <-]; split; [exact Hq|by split]].
  sizes. apply addProduct_spec in E2 as [E2 _]; [|mlia|lia|lia].
  apply addProduct_spec in E3 as [E3 _]; [|mlia|lia|lia].
  destruct (addWithin (wr_cutReservedBytes s) growth u64_max) eqn:E4;
    cbn [negb orb]; [|by intros [= <- <-]].
  on_if E5; [by intros [= <- <-]|].
  apply addWithin_spec in E4 as [_ Hle]; [|mlia|lia].
  destruct (reserveBytes required s) as [ok s1] eqn:E6. cbn iota beta.
  destruct (reserve_inv 0 0 0 required s ok s1 ltac:(lia) ltac:(lia) ltac:(lia) Hinv E6)
    as (I1 & I1' & _ & S1).
  destruct (reserve_keeps _ _ _ _ E6) as ([C1 _ N1] & R1 & _).
  destruct ok; cbn [negb]; [specialize (I1 eq_refl)|by intros [= <- <-]].
  set (s2 := s1 <| wr_cutReservedBytes ::= _ |>).
  assert (winv (0 + 992 * n) (0 + 1984 * n) 0 s2) as I2.
  { assert (winv (992 * n) (0 + growth) 0 s2) as I2.
    { apply cut_growth_inv; try lia. eapply winv_weaken; [| | |exact I1]; lia. }
    eapply winv_weaken; [| | |exact I2]; lia. }
  assert (wr_sources s2 = wr_sources s) as S2 by (subst s2; wfields; done).
  destruct (registered_sources (wr_sources s) sources (size (wr_sources s)) final s2)
    as (added & states & Hfold & Hn & Hm & Hf & Hv); try done; try lia.
  { by rewrite S2. } { sizes. lia. } { rewrite S2. apply (me_sources _ (wi_meta _ _ _ _ Hinv)). }
  intros [= <- <-]. rewrite Hfold. sizes.
  enough (forall t, t = withSources added states s2 -> winv 0 0 0 t /\ unchanged s t) as Hw.
  { apply Hw. unfold withSources. wfields. change kBinaryMarketStoredChannelCount with 9.
    rewrite size_app, S2. rewrite u32_id, u64_id by mlia. clear -s2. subst s2. destruct s1. cbn.
    f_equal. lia. }
  intros t ->. split; [|subst s2; unfold withSources; wfields; done].
  apply sources_inv; try done; try lia; [|sizes; rewrite S2; lia].
  by replace (size added) with n.
Qed.

(** ** appendGap *)

Lemma gap_admitted gap s shards :
  gapInvalid gap s = false -> size (wr_segments s) = shards ->
  cutGapInvalid gap (size (wr_sources s)) shards = false.
Proof.
  unfold gapInvalid, cutGapInvalid. intros Hg <-.
  repeat match goal with E : _ || _ = false |- _ => apply orb_false_iff in E as [? ?] end.
  repeat apply orb_false_intro; assumption.
Qed.

Lemma recordChannel_index channel : validBinaryMarketRecordChannel channel = true ->
  binaryMarketChannelIndex channel = channel - 1 /\ 1 <= channel <= 9.
Proof.
  unfold validBinaryMarketRecordChannel, validBinaryMarketChannel, binaryMarketChannelIndex,
    Channel.BookTicker, Channel.PriceLimit, Channel.SourceLifecycle.
  intros Hc. assert (1 <= channel <= 9) as Hr
    by (apply orb_true_iff in Hc as [Hc|Hc]; bsplit; lia).
  rewrite u64_id; [done|mlia].
Qed.

Lemma gapCell_inj gap gap' sources shards :
  cutGapInvalid gap sources shards = false -> cutGapInvalid gap' sources shards = false ->
  gapCell gap = gapCell gap' -> sameCell gap gap'.
Proof.
  unfold gapCell, sameCell, cutGapInvalid.
  change kBinaryMarketStoredChannelCount with 9. intros Hg Hg'. bsplit.
  destruct (recordChannel_index (gp_channel gap)) as [-> ?]; [done|].
  destruct (recordChannel_index (gp_channel gap')) as [-> ?]; [done|]. lia.
Qed.

Lemma winv_gaps gaps count s :
  winv 0 0 0 s -> size gaps = count -> count <= wr_maximumGapRecords s ->
  Forall (fits l_BinaryMarketGap) gaps ->
  gaps_ok (s <| wr_gaps := gaps |>) ->
  winv 0 0 0 (s <| wr_gaps := gaps |> <| wr_manifest ::= fun m => m <| mf_gapCount := count |> |>).
Proof.
  intros [Hcfg _ Hbud Hcnt Hmeta Hsegs Hblocks Hpos] Hn Hmax Hf Hok.
  pose proof (size_nonneg gaps). pose proof (bd_cells _ _ _ Hbud) as Hcells.
  pose proof (bd_sources _ _ _ Hbud) as Hsrc. unfold kBinaryMarketMaximumSources in Hsrc.
  split; wfields; try assumption.
  - destruct Hbud. split; unfold footprint, cutNeeded in *; wfields; try assumption. lia.
  - destruct Hcnt. split; wfields; try assumption. done.
  - destruct Hmeta as [[] [] M3 M4 M5 M6 M7 M8 M9].
    split; wfields; try assumption; try (split; assumption).
    apply manifest_fits in M4 as []. apply manifest_fits. split; try assumption.
    cbn [mf_gapCount upd]. mlia.
Qed.

Lemma same_gapCount (s : WriterState) gaps :
  s <| wr_gaps := gaps |> =
  s <| wr_gaps := gaps |> <| wr_manifest ::= fun m => m <| mf_gapCount := mf_gapCount (wr_manifest s) |> |>.
Proof. destruct s as [? [] ?]. reflexivity. Qed.

Lemma appendGapActive_inv gap s status s' :
  fits l_BinaryMarketGap gap -> winv 0 0 0 s -> appendGapActive gap s = (status, s') ->
  winv 0 0 0 s' /\ unchanged s s'.
Proof.
  intros Hfit Hinv. unfold appendGapActive. on_if E1; [by intros [= <- <-]|].
  destruct (wr_sources s !! _); [|by intros [= <- <-]]. on_if E2; [by intros [= <- <-]|].
  pose proof (ct_shards _ _ (wi_counts _ _ _ _ Hinv)) as Hshards.
  pose proof (ct_gaps _ _ (wi_counts _ _ _ _ Hinv)) as Hcount.
  pose proof (bd_gaps _ _ _ (wi_budget _ _ _ _ Hinv)) as Hbg.
  pose proof (gap_admitted _ _ _ E1 Hshards) as Hgap.
  destruct (wi_gaps _ _ _ _ Hinv) as [G1 G2]. pose proof (me_gaps _ (wi_meta _ _ _ _ Hinv)) as Hgf.
  destruct (list_find _ _) as [[position existing]|] eqn:Ef.
  - apply list_find_Some in Ef as (Hp & [Hc1 Hc2] & _).
    on_if E3; intros [= <- <-]; [done|]. split; [|done].
    change (winv 0 0 0 (s <| wr_gaps := <[position := gap]> (wr_gaps s) |>)).
    rewrite same_gapCount. apply winv_gaps; try done.
    + unfold size. rewrite length_insert. by rewrite Hcount.
    + lia.
    + by apply Forall_insert.
    + split; wfields; [by apply Forall_insert|]. rewrite list_fmap_insert.
      rewrite list_insert_id; [done|]. rewrite list_lookup_fmap, Hp. cbn. f_equal.
      unfold gapCell. by rewrite Hc1, Hc2.
  - apply list_find_None in Ef. on_if E3; intros [= <- <-]; [done|]. bsplit. split; [|done].
    pose proof (bd_cells _ _ _ (wi_budget _ _ _ _ Hinv)) as Hcells.
    pose proof (bd_sources _ _ _ (wi_budget _ _ _ _ Hinv)) as Hsrc.
    unfold kBinaryMarketMaximumSources in Hsrc.
    enough (winv 0 0 0 (s <| wr_gaps := wr_gaps s ++ [gap] |>
      <| wr_manifest ::= fun m => m <| mf_gapCount := size (wr_gaps s) + 1 |> |>)) as Hw.
    { revert Hw. destruct s as [? m ?]. cbn in *. rewrite Hcount. rewrite u64_id; [done|].
      unfold size in *. mlia. }
    apply winv_gaps; try done.
    + by rewrite size_app, size_one.
    + lia.
    + apply Forall_app. split; [done|by apply Forall_singleton].
    + split; wfields.
      * apply Forall_app. split; [done|by apply Forall_singleton].
      * rewrite fmap_app. apply NoDup_app. split; [done|]. split; [|apply NoDup_singleton].
        intros cell (old & -> & Hold)%list_elem_of_fmap Hin%list_elem_of_singleton.
        rewrite Forall_forall in Ef, G1. apply (Ef old Hold).
        eapply gapCell_inj; [done|by apply G1|done].
Qed.

(** ** Progress and reference payload *)

Lemma updateProgressActive_inv progress s status s' :
  fits l_CorpusProducerProgress progress -> winv 0 0 0 s ->
  updateProgressActive progress s = (status, s') ->
  winv 0 0 0 s' /\ unchanged s s'.
Proof.
  intros Hfit Hinv. unfold updateProgressActive. on_if E; intros [= <- <-]; [done|].
  split; [|done]. apply orb_false_iff in E as [E _]. bsplit.
  destruct Hinv as [Hcfg Hgaps [] [] [] Hsegs Hblocks Hpos].
  split; wfields; try assumption; split; wfields; try assumption. done.
Qed.

Lemma setReferencePayloadActive_inv payload s status s' :
  bytes_ok payload -> winv 0 0 0 s -> setReferencePayloadActive payload s = (status, s') ->
  winv 0 0 0 s' /\ unchanged s s'.
Proof.
  intros Hb Hinv. unfold setReferencePayloadActive. on_if E1; [by intros [= <- <-]|]. bsplit.
  set (growth := if _ <? _ then _ else _).
  pose proof (bd_reference _ _ _ (wi_budget _ _ _ _ Hinv)) as Hr.
  pose proof (size_nonneg payload) as Hn.
  assert (0 <= growth /\ growth = Z.max (wr_referenceReservedBytes s) (size payload) -
    wr_referenceReservedBytes s) as [Hg0 Hg].
  { subst growth. destruct (_ <? _) eqn:E; bsplit; lia. }
  clearbody growth.
  assert (winv 0 0 0 (s <| wr_quotaReached := true |>)) as Hq by (by apply winv_quota).
  destruct (winv_totals _ _ _ _ Hinv ltac:(lia) ltac:(lia)) as (_ & _ & Tc & Tp & _).
  destruct (addProduct 0 growth 2) as [required|] eqn:E2;
    [|intros [= <- <-]; split; [exact Hq|by split]].
  apply addProduct_spec in E2 as [E2 _]; [|mlia|lia|lia].
  destruct (addWithin (wr_cutReservedBytes s) required u64_max) eqn:E3; cbn [negb orb];
    [|intros [= <- <-]; split; [exact Hq|by split]].
  on_if E4; [intros [= <- <-]; split; [exact Hq|by split]|].
  apply addWithin_spec in E3 as [_ Hle]; [|mlia|lia].
  destruct (reserveBytes required s) as [ok s1] eqn:E5. cbn iota beta.
  destruct (reserve_inv 0 0 0 required s ok s1 ltac:(lia) ltac:(lia) ltac:(lia) Hinv E5)
    as (I1 & I1' & _).
  destruct (reserve_keeps _ _ _ _ E5) as ([C1 _ N1] & R1 & _).
  assert (wr_referenceReservedBytes s1 = wr_referenceReservedBytes s) as R2.
  { unfold reserveBytes in E5. destruct (negb _); injection E5 as <- <-; done. }
  destruct ok; cbn [negb]; [specialize (I1 eq_refl)|by intros [= <- <-]].
  assert (winv 0 (0 + required) 0 (s1 <| wr_cutReservedBytes ::= fun c => u64 (c + required) |>)) as I2.
  { apply cut_growth_inv; try lia. exact I1. }
  intros [= <- <-]. split; [|done].
  assert (u64 (wr_cutReservedBytes s1 + required) = wr_cutReservedBytes s1 + required) as Hu
    by (apply u64_id; rewrite R1; mlia).
  destruct I2 as [Hcfg Hgaps [] [] [] Hsegs Hblocks Hpos].
  split; wfields; try assumption; split; unfold footprint, cutNeeded in *; sizes; wfields; try assumption;
    rewrite ?R2, ?Hu in *; lia.
Qed.

Lemma beginFinalDrain_inv s :
  winv 0 0 0 s -> winv 0 0 0 (s <| wr_writeLimitBytes := cf_maximumBytes (wr_config s) |>).
Proof.
  intros [Hcfg Hgaps [] [] [] Hsegs Hblocks Hpos].
  split; wfields; try assumption; split; unfold footprint, cutNeeded in *; wfields;
    try assumption; lia.
Qed.

End calls.
