(* ===== verification/WriterCuts.v ===== *)
(** * WriterCuts: published cuts and the finalized corpus

    A cut the writer publishes meets the format contract of Cut, and a corpus
    it finalizes meets the sealed-manifest contract of Metadata; both follow from
    the invariant of WriterInv. *)
From stdpp Require Import base list numbers strings gmap.
From S2P Require Import Prelude Codec Layout Format DepthTransaction SourceState Disk Metadata.
From S2P Require Import BlockCodec Cut Segment Writer WriterShape WriterInv WriterSteps.
From S2P Require Import WriterCalls.
Import Crc32c.
Local Open Scope Z_scope.

Section cuts.
Context `{CxetMarket} `{Codec : ByteBlockCodec} `{!ByteBlockLaws Codec}.

Abbreviation PR := binaryMarketPendingRecordBytes.

(** ** Committing every shard *)

(** The invariant does not look at the disk, the cache or the replay freeze. *)
Lemma winv_published a c o s disk publication frozen generation :
  in_u64 generation -> winv a c o s ->
  winv a c o (s <| wr_disk := disk |> <| wr_replayAnchorFrozen := frozen |>
                <| wr_cutGeneration := generation |> <| wr_publication := publication |>).
Proof.
  intros Hg [Hcfg Hgaps [] [] [] Hsegs Hblocks Hpos Hix].
  split; wfields; try assumption; split; unfold footprint, cutNeeded in *; wfields; assumption.
Qed.

Lemma winv_disk a c o s disk : winv a c o s -> winv a c o (s <| wr_disk := disk |>).
Proof.
  intros Hinv. pose proof (me_generation _ (wi_meta _ _ _ _ Hinv)) as Hg.
  apply (winv_published _ _ _ _ disk (wr_publication s) (wr_replayAnchorFrozen s) _ Hg) in Hinv.
  by destruct s.
Qed.

(** A committed shard has no pending rows. *)
Definition clean (shard : nat) (s : WriterState) : Prop :=
  forall g, wr_segments s !! shard = Some g -> sg_pending g = [].

Lemma clean_framed shard s s' : framed s s' -> clean shard s -> clean shard s'.
Proof.
  intros Hf Hc g' Hg'.
  assert (shard < length (wr_segments s))%nat as [g Hg]%lookup_lt_is_Some_2
    by (rewrite <- (fr_length _ _ Hf); by eapply lookup_lt_Some).
  destruct (fr_segments _ _ Hf _ _ Hg) as (g1 & Hg1 & Hk). rewrite Hg' in Hg1. injection Hg1 as <-.
  destruct (kp_pending _ _ Hk) as [->|]; [by apply Hc|done].
Qed.

Lemma commitShard_clean shard s s' :
  winv 0 0 0 s -> commitShard shard s = (true, s') -> clean shard s'.
Proof.
  intros Hinv. unfold commitShard.
  destruct (wr_segments s !! shard) as [g|] eqn:Hg; [|intros [= <-] g; by rewrite Hg].
  assert (shard < length (wr_segments s))%nat as Hl by (by eapply lookup_lt_Some).
  destruct (sg_open g) eqn:Ho; cbn [negb].
  - destruct (flushBlock s g) as [ok [s1 g1]] eqn:E. apply flushBlock_shape in E as Hr.
    destruct ok; [|done]. destruct (flushStream s1 g1) as [ok2 [s2 g2]] eqn:E2.
    apply flushStream_shape in E2 as (disk & stream & -> & ->). destruct ok2; cbn [negb]; [|done].
    intros (disk3 & _ & ->)%onDisk_shape g'. wfields.
    rewrite (proj2 (flush_open _ _ _ _ _ Hr)), list_lookup_insert_eq by done.
    intros [= <-]. by apply flush_ok_empty in Hr.
  - intros [= <-] g' Hg'. rewrite Hg in Hg'. injection Hg' as <-.
    eapply sg_closed; [|done]. by apply (wi_segments _ _ _ _ Hinv).
Qed.

Lemma commitShards_clean shards : forall s s',
  winv 0 0 0 s -> forShards commitShard shards s = (true, s') ->
  forall shard, shard ∈ shards -> clean shard s'.
Proof.
  induction shards as [|first shards IH]; intros s s' Hinv; [by intros _ ? ?%elem_of_nil|].
  cbn [forShards]. destruct (commitShard first s) as [[] s1] eqn:E1; [|done].
  destruct (commitShard_inv 0 0 0 _ _ _ _ ltac:(lia) ltac:(lia) Hinv E1) as [I1 _].
  pose proof (commitShard_clean _ _ _ Hinv E1) as C1. intros Hrun shard [->|Hin]%elem_of_cons; [|eauto].
  eapply clean_framed; [|exact C1].
  refine (proj2 (forShards_inv commitShard 0 0 0 _ _ _ _ _ I1 Hrun)).
  intros i t ok t'. by apply commitShard_inv.
Qed.

Lemma clean_pending s :
  (forall shard, shard ∈ allShards s -> clean shard s) -> pendingOf (wr_segments s) = 0.
Proof.
  intros Hc. unfold pendingOf. enough (forall g, g ∈ wr_segments s -> sg_pending g = []) as Hnil.
  { induction (wr_segments s) as [|g gs IH]; [done|]. cbn. fold (sumZ (fun g => size (sg_pending g)) gs).
    rewrite (Hnil g), IH; [done| |by apply elem_of_cons; left].
    intros h Hh. apply Hnil. apply elem_of_cons. by right. }
  intros g [i Hi]%list_elem_of_lookup_1. apply (Hc i); [|done]. unfold allShards.
  apply elem_of_seq. apply lookup_lt_Some in Hi. lia.
Qed.

(** All pending rows of all shards are in blocks. *)
Lemma commitShards_inv s ok s' :
  winv 0 0 0 s -> forShards commitShard (allShards s) s = (ok, s') ->
  winv 0 0 0 s' /\ framed s s' /\ (ok = true -> pendingOf (wr_segments s') = 0).
Proof.
  intros Hinv E.
  assert (winv 0 0 0 s' /\ framed s s') as [I1 F1].
  { eapply (forShards_inv commitShard 0 0 0); try done. intros i t ok1 t'. by apply commitShard_inv. }
  split; [done|]. split; [done|]. intros ->. apply clean_pending. intros shard.
  unfold allShards. rewrite (fr_length _ _ F1). exact (commitShards_clean _ _ _ Hinv E shard).
Qed.

(** ** The cut's reservation *)

Lemma addProduct_fits bytes count unitBytes :
  0 <= bytes -> 0 <= count -> 0 < unitBytes -> bytes + count * unitBytes <= u64_max ->
  addProduct bytes count unitBytes = Some (bytes + count * unitBytes).
Proof.
  intros Hb Hc Hu Hle. unfold addProduct.
  assert (count <= (u64_max - bytes) / unitBytes) as Hq by (apply Z.div_le_lower_bound; lia).
  destruct (_ <? count) eqn:E; bsplit; [lia|]. rewrite andb_false_r, u64_id; [done|]. mlia.
Qed.

(** The bytes of one cut file, up to the size of its header. *)
Definition cutFileBytes (s : WriterState) : Z :=
  4096 + 272 * size (wr_sources s) + 80 * size (wr_gaps s) + 96 * size (wr_blocks s) +
  size (wr_referencePayload s).

Lemma cutFile_paid s : winv 0 0 0 s ->
  4096 <= cutFileBytes s /\ 2 * cutFileBytes s <= wr_cutReservedBytes s /\
  wr_cutReservedBytes s + 4096 <= cf_maximumBytes (wr_config s) <= u64_max.
Proof.
  intros Hinv. destruct (winv_totals _ _ _ _ Hinv ltac:(lia) ltac:(lia)) as (Tp & Tb & _ & _ & _).
  pose proof PR_bounds as HPR. destruct (wi_budget _ _ _ _ Hinv) as [B1 B2 B3 B4 B5 _ B7 B8 B9 B10 B11 _].
  pose proof (size_nonneg (wr_gaps s)). pose proof (size_nonneg (wr_blocks s)).
  pose proof (size_nonneg (wr_index s)). pose proof (size_nonneg (wr_referencePayload s)).
  assert (0 <= PR * pendingOf (wr_segments s)) by nia.
  unfold cutFileBytes, footprint, cutNeeded in *. sizes. lia.
Qed.

Lemma cutReservation_met s : winv 0 0 0 s ->
  cutReservationBytes (size (wr_sources s)) (size (wr_gaps s)) (size (wr_blocks s))
    (size (wr_referencePayload s)) = Some (2 * cutFileBytes s).
Proof.
  intros Hinv. destruct (cutFile_paid s Hinv) as (H1 & H2 & H3).
  pose proof (size_nonneg (wr_sources s)). pose proof (size_nonneg (wr_gaps s)).
  pose proof (size_nonneg (wr_blocks s)). pose proof (size_nonneg (wr_referencePayload s)).
  unfold cutReservationBytes, cutFileBytes in *. sizes.
  rewrite addProduct_fits by lia. cbn [mbind option_bind]. rewrite addProduct_fits by lia.
  cbn [mbind option_bind]. rewrite addProduct_fits by lia. cbn [mbind option_bind].
  rewrite addProduct_fits by lia. cbn [mbind option_bind].
  change (u64_max / 2) with 9223372036854775807. destruct (_ <? _) eqn:E; bsplit; [mlia|].
  rewrite u64_id by mlia. f_equal. lia.
Qed.

(** ** The cut meets the format contract *)

Lemma gapsValid_spec sources shards gaps : forall seen,
  Forall (fun gap => cutGapInvalid gap sources shards = false) gaps ->
  NoDup (gapCell <$> gaps) -> (forall gap, gap ∈ gaps -> gapCell gap ∉ seen) ->
  gapsValid gaps sources shards seen = true.
Proof.
  induction gaps as [|gap gaps IH]; intros seen; [done|].
  rewrite fmap_cons. intros [Hg Hgs]%Forall_cons_1 [Hn Hnd]%NoDup_cons Hseen. cbn [gapsValid].
  rewrite Hg. rewrite bool_decide_eq_false_2 by (apply Hseen, elem_of_cons; by left).
  apply IH; try done. intros other Ho [He|Hs]%elem_of_cons.
  - apply Hn. rewrite <- He. by apply list_elem_of_fmap_2.
  - revert Hs. apply Hseen, elem_of_cons. by right.
Qed.

Lemma sumRanges_spec config blocks : forall records,
  Forall (range_ok config) blocks -> 0 <= records ->
  records + blockRecords blocks <= u64_max ->
  sumRanges blocks (cf_shardCount config) (cf_maximumBytes config) records =
    Some (records + blockRecords blocks).
Proof.
  induction blocks as [|range blocks IH]; intros records.
  { intros _ _ _. cbn. f_equal. lia. }
  intros [Hr Hrs]%Forall_cons_1 H0 Hmax. cbn [sumRanges].
  change (blockRecords (range :: blocks)) with
    (bh_recordCount (rg_header range) + blockRecords blocks) in *.
  assert (0 <= blockRecords blocks) as Hb.
  { apply sumZ_nonneg. eapply Forall_impl; [exact Hrs|]. intros r Hrok.
    pose proof (range_bounds _ _ Hrok). mlia. }
  pose proof (range_bounds _ _ Hr) as [_ Hn]. destruct Hr as [_ ->]. cbn [orb].
  destruct (_ <? records) eqn:E; bsplit; [mlia|]. rewrite IH; try done; [f_equal; lia|mlia|lia].
Qed.

Lemma manifest_projected m projected :
  in_u64 projected -> fits l_BinaryMarketManifest m ->
  fits l_BinaryMarketManifest (m <| mf_projectedBytes := projected |>).
Proof. intros Hp []%manifest_fits. apply manifest_fits. split; assumption. Qed.

(** The cut [publishCut] writes after the reference binder supplied [payload]. *)
Definition publishedCut (now : Z) (payload : list Z) (s : WriterState) : CorpusCut :=
  MkCorpusCut (u64 (wr_cutGeneration s + 1)) now (wr_progress s)
    (wr_manifest s <| mf_projectedBytes := wr_projectedBytes s |>) (wr_sources s) (wr_gaps s)
    (wr_blocks s) payload (0 <? mf_finalizedReceiveNs (wr_manifest s)).

Lemma cutPayload_length now payload s :
  winv 0 0 0 s -> size payload = size (wr_referencePayload s) ->
  4096 + size (cutPayload (publishedCut now payload s)) = cutFileBytes s.
Proof.
  intros Hinv Hp. destruct (wi_meta _ _ _ _ Hinv) as [_ _ _ _ [Hs _] Hg _ _ _].
  assert (Forall (fits l_CorpusBlockRange) (wr_blocks s)) as Hb
    by (eapply Forall_impl; [exact (wi_blocks _ _ _ _ Hinv)|]; by intros r [? _]).
  unfold cutPayload, publishedCut, cutFileBytes, size in *.
  cbn [cut_sources cut_gaps cut_blocks cut_referencePayload].
  rewrite !length_app, !objects_length by done.
  change (sizeof l_BinaryMarketSource) with 272%nat. change (sizeof l_BinaryMarketGap) with 80%nat.
  change (sizeof l_CorpusBlockRange) with 96%nat. lia.
Qed.

Lemma published_tables now payload s :
  winv 0 0 0 s -> pendingOf (wr_segments s) = 0 ->
  cutTablesValid (publishedCut now payload s)
    (crc32c (objects l_BinaryMarketSource (wr_sources s))) = true.
Proof.
  intros Hinv Hpend. destruct (wi_meta _ _ _ _ Hinv) as [Hst _ _ Hfit [_ Hv] _ (_ & _ & Hps) _ _].
  destruct (wi_gaps _ _ _ _ Hinv) as [G1 G2]. destruct (winv_records _ _ _ _ Hinv) as [R1 R2]; try done.
  pose proof (ct_records _ _ (wi_counts _ _ _ _ Hinv)) as Hrec.
  pose proof (ct_gaps _ _ (wi_counts _ _ _ _ Hinv)) as Hgap.
  unfold cutTablesValid, publishedCut.
  cbn [cut_manifest cut_progress cut_sources cut_gaps cut_blocks upd mf_maximumBytes mf_recordCount
    mf_gapCount].
  rewrite Z.eqb_refl, Hv, Hps, (st_maximum _ _ Hst). fold (size (wr_sources s)).
  rewrite gapsValid_spec; [|done|done|by intros gap _ ?%elem_of_nil]. cbn [andb].
  rewrite sumRanges_spec; [|exact (wi_blocks _ _ _ _ Hinv)|lia|lia].
  fold (size (wr_gaps s)). rewrite Hgap. apply andb_true_intro. rewrite !Z.eqb_eq. lia.
Qed.

Lemma published_header now payload s :
  winv 0 0 0 s -> wr_cutGeneration s <> u64_max -> in_u64 now -> now <> 0 ->
  size payload = size (wr_referencePayload s) ->
  let h := cutHeader (publishedCut now payload s) in cutHeaderInvalid h (ch_bytes h) = false.
Proof.
  intros Hinv Hgen Hnow Hnz Hp. pose proof (cutPayload_length now payload s Hinv Hp) as Hlen.
  destruct (cutFile_paid s Hinv) as (P1 & P2 & P3).
  destruct (wi_meta _ _ _ _ Hinv) as [[] [] Hsta Hfit _ _ (_ & He & Hps) _ Hg].
  destruct (wi_config _ _ _ _ Hinv) as [[Ce1 Ce2] _ _ _ Cs _].
  destruct (wi_budget _ _ _ _ Hinv) as [_ _ _ _ _ _ B7 B8 B9 B10 _ _].
  pose proof (ct_gaps _ _ (wi_counts _ _ _ _ Hinv)) as Hgap.
  pose proof (ct_sources _ _ (wi_counts _ _ _ _ Hinv)) as Hsrc.
  pose proof (size_nonneg (wr_gaps s)). pose proof (size_nonneg (wr_blocks s)).
  pose proof (size_nonneg payload).
  assert (size (wr_blocks s) <= cf_maximumBytes (wr_config s) / 96) as Hblk.
  { apply Z.div_le_lower_bound; [lia|]. unfold cutFileBytes in *. lia. }
  unfold cutHeaderInvalid, cutHeader. cbn [ch_bytes ch_generation ch_committedMonotonicNs ch_sources
    ch_manifest ch_gaps ch_blocks ch_referenceBytes ch_finalized ch_reserved ch_progress
    cut_generation cut_committedMonotonicNs cut_progress cut_manifest cut_sources cut_gaps cut_blocks
    cut_referencePayload cut_finalized publishedCut upd mf_maximumBytes mf_sourceCount
    mf_finalizedReceiveNs mf_magic mf_headerBytes mf_producerEpoch mf_startedReceiveNs
    mf_replayAnchorMonotonicNs mf_shardCount mf_gapCount].
  fold (size (cutPayload (publishedCut now payload s))) (size (wr_sources s)) (size (wr_gaps s))
    (size (wr_blocks s)) (size payload).
  clear Hfit. generalize dependent (size (cutPayload (publishedCut now payload s))). intros body Hlen.
  change (sizeofz l_CutHeader) with 896. sizes. unfold kBinaryMarketMaximumShards in *.
  rewrite !u64_id by mlia. rewrite Hgap, Hsrc, He, Hps, st_maximum, st_magic, st_headerBytes, st_epoch,
    st_shards, !Z.eqb_refl.
  repeat apply orb_false_intro; try reflexivity; try (destruct (0 <? _); reflexivity);
    first [apply Z.eqb_neq | apply Z.ltb_ge | apply Z.leb_gt]; mlia.
Qed.

Lemma published_cut_ok now payload s :
  winv 0 0 0 s -> pendingOf (wr_segments s) = 0 -> wr_cutGeneration s <> u64_max ->
  in_u64 now -> now <> 0 -> bytes_ok payload -> size payload = size (wr_referencePayload s) ->
  cut_ok (publishedCut now payload s).
Proof.
  intros Hinv Hpend Hgen Hnow Hnz Hb Hp.
  destruct (winv_totals _ _ _ _ Hinv ltac:(lia) ltac:(lia)) as (_ & _ & _ & Tp & _).
  destruct (wi_meta _ _ _ _ Hinv) as [_ _ _ Hfit [Hs _] Hg (Hpg & _) _ _].
  split; cbn [publishedCut cut_generation cut_committedMonotonicNs cut_progress cut_manifest
    cut_sources cut_gaps cut_blocks cut_referencePayload]; try assumption.
  - apply u64_range.
  - apply manifest_projected; [mlia|done].
  - eapply Forall_impl; [exact (wi_blocks _ _ _ _ Hinv)|]. by intros r [? _].
  - by apply published_header.
  - by apply published_tables.
Qed.

(** ** publishCut *)

Lemma bindReference_spec now s cut :
  winv 0 0 0 s -> bindReference (cutOf now s) s = (Ok, cut) ->
  exists payload, cut = publishedCut now payload s /\ bytes_ok payload /\
    size payload = size (wr_referencePayload s).
Proof.
  intros Hinv. pose proof (me_payload _ (wi_meta _ _ _ _ Hinv)) as Hb. unfold bindReference.
  destruct (cf_referenceVisibilityBinder (wr_config s)) as [binder|] eqn:Eb.
  2: { intros [= <-]. exists (wr_referencePayload s). by split_and!. }
  match goal with |- context [binder ?a ?b ?c ?d] =>
    pose proof (cf_bytes _ (wi_config _ _ _ _ Hinv) binder a b c d Eb Hb) as Hbytes;
    destruct (binder a b c d) as [result payload] end.
  destruct (negb (isOk result)) eqn:Er; [intros [= -> _]; done|].
  on_if E1; [done|]. on_if E2; [done|]. bsplit. intros [= <-]. exists payload. by split_and!.
Qed.

Lemma publishCutActive_inv now s status s' :
  winv 0 0 0 s -> publishCutActive now s = (status, s') ->
  winv 0 0 0 s' /\ keeps s s' /\
  (status = CorruptData -> cf_referenceVisibilityBinder (wr_config s) <> None) /\
  (status = Ok -> exists s1 payload,
     forShards commitShard (allShards s) s = (true, s1) /\ winv 0 0 0 s1 /\ framed s s1 /\
     pendingOf (wr_segments s1) = 0 /\ wr_cutGeneration s1 <> u64_max /\
     bytes_ok payload /\ size payload = size (wr_referencePayload s1) /\
     let cut := publishedCut now payload s1 in
     pub_latest (wr_publication s') = Some cut /\
     w_files (wr_disk s') (RootFile "cut.bin") = Some (cutBytes cut) /\
     (forall path, path <> RootFile "cut.pending" -> path <> RootFile "cut.bin" ->
        w_files (wr_disk s') path = w_files (wr_disk s1) path) /\
     wr_manifest s' = wr_manifest s /\ wr_index s' = wr_index s /\
     wr_projectedBytes s' = wr_projectedBytes s1 /\ wr_segments s' = wr_segments s1 /\
     wr_gaps s' = wr_gaps s).
Proof.
  intros Hinv. unfold publishCutActive. on_if Eg; [intros [= <- <-]; by split_and!|]. bsplit.
  destruct (forShards commitShard (allShards s) s) as [ok s1] eqn:E1. cbn iota beta.
  destruct (commitShards_inv _ _ _ Hinv E1) as (I1 & F1 & P1).
  pose proof (framed_keeps _ _ F1) as K1.
  destruct ok; [specialize (P1 eq_refl)|intros [= <- <-]; by split_and!].
  rewrite (cutReservation_met s1 I1). destruct (cutFile_paid s1 I1) as (_ & Hpaid & _).
  destruct (wr_cutReservedBytes s1 <? _) eqn:El; [bsplit; lia|].
  destruct (bindReference (cutOf now s1) s1) as [result cut] eqn:Eb.
  destruct (negb (isOk result)) eqn:Er.
  { intros [= <- <-]. split; [done|]. split; [done|]. split; [|intros ->; done].
    intros ->. rewrite <- (kc_config _ _ K1). intros Hnone. unfold bindReference in Eb.
    by rewrite Hnone in Eb. }
  assert (result = Ok) as -> by (by destruct result).
  destruct (bindReference_spec _ _ _ I1 Eb) as (payload & -> & Hb & Hp).
  destruct (onDisk attempt s1) as [ok s2] eqn:E2. apply onDisk_shape in E2 as (disk & Ea & ->).
  apply attempt_files in Ea.
  assert (forall d, keeps s (s1 <| wr_disk := d |>)) as Kd by (intros d; destruct K1; by split).
  destruct ok; [|intros [= <- <-]; split; [by apply winv_disk|split; [apply Kd|done]]].
  unfold writeCorpusCut. wfields.
  destruct (replaceFile _ _ _ disk) as [ok disk'] eqn:E3.
  apply replaceFile_atomic in E3 as (Hother & _ & Hcut); [|done].
  destruct ok; cbn [isOk negb bool_decide]; intros [= <- <-].
  2: { split; [exact (winv_disk _ _ _ _ disk' I1)|]. split; [exact (Kd disk')|by split]. }
  split; [|split; [destruct K1; by split|split; [done|]]].
  - wfields. exact (winv_published 0 0 0 s1 disk' _ _ _ (u64_range _) I1).
  - intros _. exists s1, payload. wfields. split_and!; try done.
    + by rewrite (fr_generation _ _ F1).
    + rewrite (Hcut eq_refl). cbn [concat]. by rewrite app_nil_r.
    + intros path Hn1 Hn2. by rewrite Hother, Ea.
    + apply (fr_manifest _ _ F1).
    + apply (fr_index _ _ F1).
    + apply (fr_gaps _ _ F1).
Qed.

(** ** Sealing every shard *)

Definition shut (shard : nat) (s : WriterState) : Prop :=
  forall g, wr_segments s !! shard = Some g -> sg_open g = false.

Lemma sealShard_inv shard s ok s' :
  winv 0 0 0 s -> (shard < length (wr_segments s))%nat -> sealSegment shard s = (ok, s') ->
  winv 0 0 0 s' /\ keeps s s' /\ (ok = true -> shut shard s') /\
  length (wr_segments s') = length (wr_segments s) /\
  (forall i, i <> shard -> wr_segments s' !! i = wr_segments s !! i).
Proof.
  intros Hinv [g Hg]%lookup_lt_is_Some_2 E.
  destruct (sg_open g) eqn:Ho.
  - destruct (sealSegment_inv 0 0 0 _ _ _ _ _ ltac:(lia) ltac:(lia) Hinv Hg Ho E) as (I1 & K1 & C1).
    split; [done|]. split; [done|]. split.
    { intros Hok h Hh. destruct (C1 Hok) as (g' & Hg' & Hcl). rewrite Hh in Hg'. injection Hg' as ->.
      apply Hcl. }
    unfold sealSegment in E. rewrite Hg, Ho in E. cbn [negb] in E.
    destruct (sealOpen s g) as [ok1 [s1 g1]] eqn:Es. injection E as <- <-.
    assert (wr_segments s1 = wr_segments s) as Hseg.
    { apply sealOpen_shape in Es as Hr. inversion Hr as [? s2 g2 ? ? ? Hf|s2 g2 ? Hf]; subst;
        apply flushBlock_shape, flush_open in Hf as [_ Hs]; exact Hs. }
    wfields. rewrite Hseg. split; [apply length_insert|]. intros i Hi.
    by apply list_lookup_insert_ne.
  - unfold sealSegment in E. rewrite Hg, Ho in E. cbn [negb] in E. injection E as <- <-.
    split_and!; try done. intros _ h Hh. rewrite Hg in Hh. by injection Hh as <-.
Qed.

Lemma sealShards_inv shards : forall s ok s',
  winv 0 0 0 s -> Forall (fun shard => shard < length (wr_segments s))%nat shards ->
  forShards sealSegment shards s = (ok, s') ->
  winv 0 0 0 s' /\ keeps s s' /\ length (wr_segments s') = length (wr_segments s) /\
  (forall i, shut i s -> ok = true -> shut i s') /\
  (ok = true -> forall i, i ∈ shards -> shut i s').
Proof.
  induction shards as [|shard shards IH]; intros s ok s' Hinv Hb; cbn [forShards].
  { intros [= <- <-]. split_and!; try done. by intros _ i ?%elem_of_nil. }
  apply Forall_cons in Hb as [Hl Hb].
  destruct (sealSegment shard s) as [ok1 s1] eqn:E1.
  destruct (sealShard_inv _ _ _ _ Hinv Hl E1) as (I1 & K1 & C1 & L1 & O1).
  destruct ok1; [|intros [= <- <-]; by split_and!]. intros E.
  destruct (IH s1 ok s') as (I2 & K2 & L2 & C2 & D2); try done; [by rewrite L1|].
  split; [done|]. split; [by eapply keeps_trans|]. split; [congruence|].
  specialize (C1 eq_refl).
  assert (forall i, shut i s -> shut i s1) as Hmono.
  { intros i Hi. destruct (decide (i = shard)) as [->|Hne]; [done|].
    intros g. rewrite O1 by done. apply Hi. }
  split; [auto|]. intros Hok i [->|Hin]%elem_of_cons; auto.
Qed.

Lemma shut_opens s :
  (forall shard, shard ∈ allShards s -> shut shard s) ->
  opensOf (wr_segments s) = 0 /\ forShards commitShard (allShards s) s = (true, s).
Proof.
  intros Hs. split.
  - enough (forall g, g ∈ wr_segments s -> sg_open g = false) as Hall.
    { unfold opensOf. induction (wr_segments s) as [|g gs IH]; [done|].
      cbn. fold (sumZ (fun g => if sg_open g then 1 else 0) gs).
      rewrite (Hall g), IH; [done| |by apply elem_of_cons; left].
      intros h Hh. apply Hall. apply elem_of_cons. by right. }
    intros g [i Hi]%list_elem_of_lookup_1. apply (Hs i); [|done].
    apply elem_of_seq. apply lookup_lt_Some in Hi. lia.
  - induction (allShards s) as [|shard shards IH]; [done|]. cbn [forShards].
    assert (commitShard shard s = (true, s)) as ->.
    { unfold commitShard. destruct (_ !! _) as [g|] eqn:Hg; [|done].
      rewrite (Hs shard (proj2 (elem_of_cons _ _ _) (or_introl eq_refl)) g Hg). done. }
    apply IH. intros i Hi. apply Hs. apply elem_of_cons. by right.
Qed.

(** ** finalize *)

(** The manifest may change where the invariant does not look. *)
Lemma winv_manifest s m :
  winv 0 0 0 s -> static_ok (wr_config s) m -> times_ok (cf_startedReceiveNs (wr_config s)) m ->
  0 < mf_startedReceiveNs m -> fits l_BinaryMarketManifest m ->
  mf_recordCount m = mf_recordCount (wr_manifest s) ->
  mf_gapCount m = mf_gapCount (wr_manifest s) ->
  mf_sourceCount m = mf_sourceCount (wr_manifest s) ->
  mf_segmentCount m = mf_segmentCount (wr_manifest s) ->
  winv 0 0 0 (s <| wr_manifest := m |>).
Proof.
  intros [Hcfg Hgaps [] [] [] Hsegs Hblocks Hpos Hix] ? ? ? ? N1 N2 N3 N4.
  split; wfields; try assumption; split; unfold footprint, cutNeeded in *; wfields;
    rewrite ?N1, ?N2, ?N3, ?N4; assumption.
Qed.

(** The recording's time span after [finalize]. *)
Lemma final_times reason finalized c1 c2 c3 s :
  winv 0 0 0 s -> 0 < finalized ->
  let m := finalManifest reason finalized c1 c2 c3 s in
  0 < mf_startedReceiveNs m <= mf_replayAnchorReceiveNs m /\
  mf_replayAnchorReceiveNs m <= mf_finalizedReceiveNs m.
Proof.
  intros Hinv Hfin. cbv zeta. destruct (cf_started _ (wi_config _ _ _ _ Hinv)) as [_ Hstart].
  destruct (me_times _ (wi_meta _ _ _ _ Hinv)) as [T1 T2 T3 T4].
  change (mf_replayAnchorReceiveNs (finalManifest reason finalized c1 c2 c3 s))
    with (mf_replayAnchorReceiveNs (wr_manifest s)).
  change (mf_startedReceiveNs (finalManifest reason finalized c1 c2 c3 s)) with
    (if 0 <? mf_firstReceiveNs (wr_manifest s)
     then Z.min (cf_startedReceiveNs (wr_config s)) (mf_firstReceiveNs (wr_manifest s))
     else cf_startedReceiveNs (wr_config s)).
  change (mf_finalizedReceiveNs (finalManifest reason finalized c1 c2 c3 s)) with
    (Z.max (Z.max finalized (cf_startedReceiveNs (wr_config s))) (mf_lastReceiveNs (wr_manifest s))).
  destruct (Z.ltb_spec 0 (mf_firstReceiveNs (wr_manifest s))); destruct T4 as [->|[Hne ?]];
    try (specialize (T2 Hne)); lia.
Qed.

Lemma final_inv reason finalized c1 c2 c3 s :
  winv 0 0 0 s -> in_u8 reason -> in_i64 finalized -> 0 < finalized ->
  in_u32 c1 -> in_u32 c2 -> in_u32 c3 ->
  winv 0 0 0 (s <| wr_manifest := finalManifest reason finalized c1 c2 c3 s |>).
Proof.
  intros Hinv Hr Hfi Hfin H1 H2 H3.
  destruct (final_times reason finalized c1 c2 c3 s Hinv Hfin) as [Ht _].
  destruct (winv_totals _ _ _ _ Hinv ltac:(lia) ltac:(lia)) as (_ & _ & _ & Tp & _).
  destruct (cf_started _ (wi_config _ _ _ _ Hinv)) as [Hsi _].
  destruct (wi_meta _ _ _ _ Hinv) as [[] [] _ Hfit _ _ _ _ _]. apply manifest_fits in Hfit as [].
  apply winv_manifest; try done; [apply Ht|].
  apply manifest_fits. split; try assumption; unfold finalManifest.
  - change (in_i64 (if 0 <? mf_firstReceiveNs (wr_manifest s)
     then Z.min (cf_startedReceiveNs (wr_config s)) (mf_firstReceiveNs (wr_manifest s))
     else cf_startedReceiveNs (wr_config s))). destruct (_ <? _); mlia.
  - change (in_i64 (Z.max (Z.max finalized (cf_startedReceiveNs (wr_config s)))
      (mf_lastReceiveNs (wr_manifest s)))). mlia.
  - change (in_u64 (wr_projectedBytes s)). mlia.
  - apply u32_range.
  - change (in_u8 (if reason =? StopReason.Error then 0 else 1)). destruct (_ =? _); mlia.
Qed.

Lemma final_contract reason finalized c1 c2 c3 s :
  winv 0 0 0 s -> opensOf (wr_segments s) = 0 -> 0 < finalized ->
  StopReason.Requested <= reason < StopReason.Error ->
  manifestContract (finalManifest reason finalized c1 c2 c3 s
    <| mf_projectedBytes := wr_projectedBytes s |>
    <| mf_headerBytes := sizeofz l_BinaryMarketManifest |>) = true.
Proof.
  intros Hinv Hopen Hfin Hreason.
  destruct (final_times reason finalized c1 c2 c3 s Hinv Hfin) as [Ht1 Ht2].
  destruct (winv_totals _ _ _ _ Hinv ltac:(lia) ltac:(lia)) as (Tpend & Tb & Tc & Tp & _).
  destruct (wi_meta _ _ _ _ Hinv) as [[] [T1 T2 T3 _] _ Hfit _ _ _ _ _].
  destruct (wi_budget _ _ _ _ Hinv) as [B1 B2 B3 B4 B5 _ B7 B8 B9 B10 B11 _].
  destruct (wi_counts _ _ _ _ Hinv) as [C1 C2 _ [C4 C4'] C5 C6 C7 _].
  destruct (wi_config _ _ _ _ Hinv) as [[Ce1 Ce2] Cm [Ct1 Ct2] _ Cs _].
  pose proof (wi_index _ _ _ _ Hinv) as Hix. pose proof (size_nonneg (wr_index s)) as Hix0.
  pose proof (mw_segments _ (proj1 (manifest_fits _) Hfit)) as Hsegc.
  pose proof (size_nonneg (wr_gaps s)) as Hg0. pose proof (size_nonneg (wr_referencePayload s)) as Hr0.
  pose proof (size_nonneg (wr_blocks s)) as Hb0. pose proof PR_bounds as HPR.
  assert (0 <= PR * pendingOf (wr_segments s)) by nia.
  rewrite Hopen in *. unfold footprint, cutNeeded in *. sizes.
  assert (size (wr_index s) <= cf_maximumBytes (wr_config s) / 72) as Hdiv
    by (apply Z.div_le_lower_bound; lia).
  assert (u32 (size (wr_index s)) = size (wr_index s)) as Hui by (apply u32_id; mlia).
  assert (mf_recordCount (wr_manifest s) = 0 <-> size (wr_index s) = 0) as Hnone.
  { rewrite C6. destruct (wr_index s); unfold size; cbn; [tauto|]. split; [done|lia]. }
  unfold manifestContract. unfold finalManifest in *.
  cbn [upd mf_recordCount mf_sourceCount mf_magic mf_headerBytes mf_producerEpoch mf_startedReceiveNs
    mf_replayAnchorReceiveNs mf_replayAnchorMonotonicNs mf_finalizedReceiveNs mf_maximumBytes
    mf_segmentTargetBytes mf_projectedBytes mf_shardCount mf_complete mf_stopReason mf_gapCount
    mf_indexCount mf_segmentCount mf_firstReceiveNs mf_lastReceiveNs mf_reserved] in *.
  rewrite Hui, C1, C2, st_magic, st_epoch, st_maximum, st_target, st_shards, st_reserved.
  sizes. unfold kBinaryMarketMaximumShards, StopReason.Requested, StopReason.Error,
    StopReason.ParserDisconnected in *. rewrite u64_id by mlia.
  destruct (reason =? 5) eqn:Er; [bsplit; lia|]. rewrite !Z.eqb_refl.
  change (zero_bytes (replicate 40 0)) with true.
  apply negb_true_iff. repeat apply orb_false_intro; try reflexivity;
    try (first [apply Z.eqb_neq | apply Z.ltb_ge | apply Z.leb_gt]; mlia);
    destruct (Z.eqb_spec (mf_recordCount (wr_manifest s)) 0) as [E0|E0]; cbn [negb andb].
  all: try (destruct (T1 E0) as [F L]; rewrite ?F, ?L; reflexivity); try reflexivity;
    try (first [apply Z.ltb_ge | apply Z.leb_gt]; specialize (T2 E0); lia).
  - replace (mf_segmentCount (wr_manifest s)) with 0 by mlia. reflexivity.
  - destruct (Z.eqb_spec (mf_segmentCount (wr_manifest s)) 0); [|done]. specialize (C7 E0). lia.
  - replace (size (wr_index s)) with 0 by lia. reflexivity.
  - destruct (Z.eqb_spec (size (wr_index s)) 0); [lia|done].
Qed.

(** Writing a table touches only its own files. *)
Lemma writeTable_other {A} (l : layout A) target magic records w crc w' path :
  writeTableAtomic l target magic records w = (crc, w') ->
  path <> RootFile (temporaryOf target) -> path <> RootFile target ->
  w_files w' path = w_files w path.
Proof.
  unfold writeTableAtomic. destruct (u32_max <? _); [by intros [= <- <-]|].
  destruct (replaceFile _ _ _ w) as [ok w1] eqn:E. intros [= _ <-] Ht Hn.
  apply replaceFile_atomic in E as (Ho & _ & _); [|apply temporary_differs]. by apply Ho.
Qed.

Lemma objects_crc {A} (l : layout A) records :
  Forall (fun r => Forall in_u8 (obj l r)) records -> in_u32 (crc32c (objects l records)).
Proof.
  intros Hf. apply crc32c_range. unfold objects. induction Hf; cbn; [constructor|].
  by apply Forall_app.
Qed.

Lemma fits_crc {A} (l : layout A) records :
  Forall (fits l) records -> in_u32 (crc32c (objects l records)).
Proof. intros Hf. apply objects_crc. eapply Forall_impl; [exact Hf|]. intros r. apply obj_bytes. Qed.

(** An index entry has only integer fields: any of its images is made of bytes. *)
Lemma index_crc index : in_u32 (crc32c (objects l_BinaryMarketIndexEntry index)).
Proof.
  apply objects_crc, Forall_forall. intros e _. destruct e. cbn -[le_enc].
  repeat (apply Forall_app; split); apply le_enc_bytes.
Qed.

(** The tables [finalize] writes. *)
Lemma writeTables_spec s crcs s' :
  winv 0 0 0 s -> writeTables s = (crcs, s') ->
  (exists disk, s' = s <| wr_disk := disk |>) /\
  forall c1 c2 c3, crcs = Some (c1, c2, c3) ->
    in_u32 c1 /\ in_u32 c2 /\ in_u32 c3 /\
    c1 = crc32c (objects l_BinaryMarketSource (wr_sources s)) /\
    w_files (wr_disk s') (RootFile "sources.bin") =
      Some (obj l_BinaryMarketTableHeader
              (tableHeader l_BinaryMarketSource kBinaryMarketSourcesMagic (wr_sources s)) ++
            objects l_BinaryMarketSource (wr_sources s)) /\
    c2 = crc32c (objects l_BinaryMarketIndexEntry (wr_index s)) /\
    w_files (wr_disk s') (RootFile "index.bin") =
      Some (obj l_BinaryMarketTableHeader
              (tableHeader l_BinaryMarketIndexEntry kBinaryMarketIndexMagic (wr_index s)) ++
            objects l_BinaryMarketIndexEntry (wr_index s)).
Proof.
  intros Hinv. destruct (wi_meta _ _ _ _ Hinv) as [_ _ _ _ [Hs _] Hg _ _ _]. unfold writeTables.
  destruct (writeTableAtomic l_BinaryMarketSource _ _ _ _) as [[c1|] d1] eqn:E1;
    [|intros [= <- <-]; split; [by exists d1|done]].
  destruct (writeTableAtomic l_BinaryMarketIndexEntry _ _ _ _) as [[c2|] d2] eqn:E2;
    [|intros [= <- <-]; split; [by exists d2|done]].
  destruct (writeTableAtomic l_BinaryMarketGap _ _ _ _) as [[c3|] d3] eqn:E3; intros [= <- <-];
    (split; [by exists d3|]); [|done].
  intros ? ? ? [= <- <- <-].
  apply writeTable_content in E1 as [-> H1]. pose proof E2 as E2'. apply writeTable_content in E2' as [-> H2].
  pose proof E3 as E3'. apply writeTable_content in E3' as [-> _].
  refine (conj (fits_crc _ _ Hs) (conj (index_crc _) (conj (fits_crc _ _ Hg) (conj eq_refl _)))).
  wfields. rewrite !(writeTable_other _ _ _ _ _ _ _ _ E3), (writeTable_other _ _ _ _ _ _ _ _ E2) by done.
  exact (conj H1 (conj eq_refl H2)).
Qed.

Lemma removeFile_other p w path : path <> p -> w_files (removeFile p w) path = w_files w path.
Proof.
  unfold removeFile. destruct (attempt w) as [[] w1] eqn:E; apply attempt_files in E; intros Hp.
  - by rewrite set_file_other, E.
  - by rewrite E.
Qed.

(** The corpus [catalog] opens when manifest and sources are on disk. *)
Lemma catalog_ok files m sources :
  fits l_BinaryMarketManifest m -> Forall (fits l_BinaryMarketSource) sources ->
  manifestContract (m <| mf_headerBytes := sizeofz l_BinaryMarketManifest |>) = true ->
  validSources sources = true -> mf_sourceCount m = size sources ->
  size sources * 272 <= mf_maximumBytes m -> size sources <= kBinaryMarketMaximumSources ->
  mf_sourcesCrc32c m = crc32c (objects l_BinaryMarketSource sources) ->
  files (RootFile "manifest.bin") = Some (obj l_BinaryMarketManifest (sealManifest m)) ->
  files (RootFile "sources.bin") = Some (obj l_BinaryMarketTableHeader
    (tableHeader l_BinaryMarketSource kBinaryMarketSourcesMagic sources) ++
    objects l_BinaryMarketSource sources) ->
  catalog files = (Ok, Some (sealManifest m, sources)).
Proof.
  intros Hm Hs Hc Hv Hn Hmax Hcap Hcrc Fm Fs. unfold catalog. rewrite Fm, Fs.
  rewrite readManifest_sealed by done.
  change (mf_sourcesCrc32c (sealManifest m)) with (mf_sourcesCrc32c m).
  change (mf_maximumBytes (sealManifest m)) with (mf_maximumBytes m).
  change (mf_sourceCount (sealManifest m)) with (mf_sourceCount m).
  rewrite Hcrc, Hn. unfold size, kBinaryMarketMaximumSources in *.
  rewrite readTable_written; try done.
  - by rewrite Z.eqb_refl, Hv.
  - mlia.
  - apply manifest_fits in Hm. apply (mw_maximum _ Hm).
Qed.

(** The last step of [finalize]: the manifest of a state whose tables are on disk. *)
Lemma writeFinal_inv s status s' :
  winv 0 0 0 s ->
  (run s := onDisk (writeManifestAtomic "manifest.bin" (wr_manifest s)) s orelse IoError in
   (Ok, s <| wr_disk ::= removeFile (RootFile "manifest.pending") |> <| wr_active := false |>)) =
    (status, s') ->
  winv 0 0 0 s' /\ keeps s s' /\
  (status = Ok -> wr_active s' = false /\ wr_segments s' = wr_segments s /\
     wr_manifest s' = wr_manifest s /\ wr_index s' = wr_index s /\
     w_files (wr_disk s') (RootFile "manifest.bin") =
       Some (obj l_BinaryMarketManifest (sealManifest (wr_manifest s))) /\
     (forall name, name <> "manifest.bin.tmp"%string -> name <> "manifest.bin"%string ->
        name <> "manifest.pending"%string ->
        w_files (wr_disk s') (RootFile name) = w_files (wr_disk s) (RootFile name)) /\
     (manifestContract (wr_manifest s <| mf_headerBytes := sizeofz l_BinaryMarketManifest |>) = true ->
      mf_sourcesCrc32c (wr_manifest s) = crc32c (objects l_BinaryMarketSource (wr_sources s)) ->
      w_files (wr_disk s) (RootFile "sources.bin") = Some (obj l_BinaryMarketTableHeader
        (tableHeader l_BinaryMarketSource kBinaryMarketSourcesMagic (wr_sources s)) ++
        objects l_BinaryMarketSource (wr_sources s)) ->
      catalog (w_files (wr_disk s')) = (Ok, Some (sealManifest (wr_manifest s'), wr_sources s')))).
Proof.
  intros Hinv. destruct (onDisk _ s) as [ok s1] eqn:E. apply onDisk_shape in E as (disk & E & ->).
  unfold writeManifestAtomic in E. apply replaceFile_atomic in E as (Ho & _ & Hm); [|done].
  destruct ok; intros [= <- <-].
  2: { split; [exact (winv_disk _ _ _ _ disk Hinv)|]. split; [by split|done]. }
  split; [|split; [by split|]].
  { apply (winv_disk _ _ _ _ (removeFile (RootFile "manifest.pending") disk)) in Hinv.
    destruct Hinv as [Hcfg Hgaps [] [] [] Hsegs Hblocks Hpos Hix].
    split; wfields; try assumption; split; unfold footprint, cutNeeded in *; wfields; assumption. }
  assert (w_files (removeFile (RootFile "manifest.pending") disk) (RootFile "manifest.bin") =
    Some (obj l_BinaryMarketManifest (sealManifest (wr_manifest s)))) as Hman
    by (rewrite removeFile_other, (Hm eq_refl) by done; cbn [concat]; by rewrite app_nil_r).
  intros _. split; [done|]. split; [done|]. split; [done|]. split; [done|]. split; [exact Hman|].
  split; [intros name N1 N2 N3; wfields; rewrite removeFile_other by congruence;
    apply Ho; intros [= ->]; [by apply N1|by apply N2]|].
  intros Hc Hcrc Hsrc. wfields.
  destruct (wi_meta _ _ _ _ Hinv) as [[] _ _ Hfit [Hsf Hsv] _ _ _ _].
  destruct (wi_budget _ _ _ _ Hinv) as [B1 B2 B3 _ B5 _ B7 B8 B9 B10 B11 _].
  destruct (winv_totals _ _ _ _ Hinv ltac:(lia) ltac:(lia)) as (Tp & Tb & Tc & _ & _).
  pose proof PR_bounds as HPR. pose proof (size_nonneg (wr_index s)).
  assert (0 <= PR * pendingOf (wr_segments s)) by nia.
  apply catalog_ok; try assumption.
  - apply (ct_sources _ _ (wi_counts _ _ _ _ Hinv)).
  - rewrite st_maximum. unfold footprint, cutNeeded in *. sizes. lia.
  - apply B10.
  - by rewrite removeFile_other, Ho.
Qed.

(** The files of a finished recording: its final cut, its sealed manifest, its sources and
    its index. *)
Record archived (s : WriterState) (cut : CorpusCut) : Prop := {
  ar_cut : w_files (wr_disk s) (RootFile "cut.bin") = Some (cutBytes cut);
  ar_manifest : w_files (wr_disk s) (RootFile "manifest.bin") =
    Some (obj l_BinaryMarketManifest (sealManifest (wr_manifest s)));
  ar_sources : w_files (wr_disk s) (RootFile "sources.bin") =
    Some (obj l_BinaryMarketTableHeader
            (tableHeader l_BinaryMarketSource kBinaryMarketSourcesMagic (wr_sources s)) ++
          objects l_BinaryMarketSource (wr_sources s));
  ar_index : w_files (wr_disk s) (RootFile "index.bin") =
    Some (obj l_BinaryMarketTableHeader
            (tableHeader l_BinaryMarketIndexEntry kBinaryMarketIndexMagic (wr_index s)) ++
          objects l_BinaryMarketIndexEntry (wr_index s)) /\
    mf_indexCrc32c (wr_manifest s) = crc32c (objects l_BinaryMarketIndexEntry (wr_index s));
  ar_same : cut_manifest cut = wr_manifest s /\ cut_sources cut = wr_sources s;
  ar_finalized : cut_finalized cut = true;
}.

Lemma finalizeActive_inv reason finalized now s status s' :
  winv 0 0 0 s -> in_u8 reason -> in_i64 finalized ->
  finalizeActive reason finalized now s = (status, s') ->
  winv 0 0 0 s' /\ keeps s s' /\
  (status = Ok -> wr_active s' = false /\ pendingOf (wr_segments s') = 0 /\
     (exists cut, archived s' cut /\ (in_u64 now -> now <> 0 -> cut_ok cut)) /\
     (reason <> StopReason.Error ->
      catalog (w_files (wr_disk s')) = (Ok, Some (sealManifest (wr_manifest s'), wr_sources s')) /\
      mf_complete (wr_manifest s') = 1 /\ mf_stopReason (wr_manifest s') = reason)).
Proof.
  intros Hinv Hr Hf. unfold finalizeActive. on_if E1; [by intros [= <- <-]|]. bsplit.
  on_if E2; [by intros [= <- <-]|].
  destruct (forShards sealSegment (allShards s) s) as [ok s1] eqn:E3. cbn iota beta.
  destruct (sealShards_inv (allShards s) s ok s1 Hinv) as (I1 & K1 & L1 & _ & S1); [|done|].
  { apply Forall_forall. intros i Hi. apply elem_of_seq in Hi. lia. }
  destruct ok; [specialize (S1 eq_refl)|by intros [= <- <-]].
  assert (allShards s1 = allShards s) as Ea by (unfold allShards; by rewrite L1).
  rewrite <- Ea in S1. destruct (shut_opens _ S1) as [Hopen Hidle].
  destruct (writeTables s1) as [crcs s2] eqn:E4.
  destruct (writeTables_spec _ _ _ I1 E4) as ((disk & ->) & Hcrcs).
  destruct crcs as [[[c1 c2] c3]|].
  2: { intros [= <- <-]. split; [by apply winv_disk|]. split; [destruct K1; by split|done]. }
  destruct (Hcrcs _ _ _ eq_refl) as (W1 & W2 & W3 & Hc1 & Hsrc & Hc2 & Hidx).
  set (m := finalManifest reason finalized c1 c2 c3 _).
  set (s3 := s1 <| wr_disk := disk |> <| wr_manifest := m |>).
  assert (winv 0 0 0 s3) as I3 by (apply final_inv; try done; by apply winv_disk).
  assert (keeps s s3) as K3 by (destruct K1; by split).
  destruct (publishCutActive now s3) as [commit s4] eqn:E5.
  destruct (publishCutActive_inv _ _ _ _ I3 E5) as (I4 & K4 & _ & D4).
  on_if Eok.
  { intros [= <- <-]. split; [done|]. split; [by eapply keeps_trans|]. by intros ->. }
  assert (commit = Ok) as -> by (by destruct commit).
  destruct (D4 eq_refl) as (s3' & payload & Hc & _ & _ & Hp & G3 & B3 & L3 & _ & Hcut & Hfiles & Hm & Hx & Hproj & Hseg & _).
  assert (s3' = s3) as ->.
  { assert (forShards commitShard (allShards s3) s3 = (true, s3)) as Hi3 by (apply shut_opens; exact S1).
    congruence. }
  set (m5 := wr_manifest s4 <| mf_projectedBytes := wr_projectedBytes s4 |>).
  assert (m5 = m <| mf_projectedBytes := wr_projectedBytes (s1 <| wr_disk := disk |>) |>) as Em
    by (subst m5; rewrite Hm, Hproj; reflexivity).
  change (s4 <| wr_manifest ::= _ |>) with (s4 <| wr_manifest := m5 |>).
  assert (winv 0 0 0 (s4 <| wr_manifest := m5 |>)) as I5.
  { destruct (wi_meta _ _ _ _ I4) as [[] [] ? Hfit _ _ _ _ _]. apply winv_manifest; try done.
    apply manifest_projected; [|done].
    destruct (winv_totals _ _ _ _ I4 ltac:(lia) ltac:(lia)) as (_ & _ & _ & Tp & _). mlia. }
  assert (keeps s4 (s4 <| wr_manifest := m5 |>)) as K5 by (by split).
  assert (wr_sources s4 = wr_sources s1) as Es by (rewrite (kc_sources _ _ K4); done).
  clearbody m5. intros E6. destruct (writeFinal_inv _ _ _ I5 E6) as (I6 & K6 & D6).
  split; [done|]. split; [eauto using keeps_trans|]. intros Hok.
  destruct (D6 Hok) as (Hact & Hseg6 & Hm6 & Hx6 & Hman & Hrest & Hcat). split; [done|].
  split; [rewrite Hseg6; etransitivity; [|exact Hp]; by f_equal|].
  assert (wr_sources s' = wr_sources s1) as Es6 by (rewrite (kc_sources _ _ K6); exact Es).
  split.
  { exists (publishedCut now payload s3). split; [|intros Hn1 Hn2; by apply published_cut_ok].
    split.
    - rewrite Hrest by done. exact Hcut.
    - rewrite Hm6. exact Hman.
    - rewrite Hrest by done. change (wr_disk (s4 <| wr_manifest := m5 |>)) with (wr_disk s4).
      rewrite Es6, Hfiles by done. exact Hsrc.
    - assert (wr_index s' = wr_index s1) as Ex6 by (rewrite Hx6; exact Hx). rewrite Ex6, Hm6. split.
      + rewrite Hrest by done. change (wr_disk (s4 <| wr_manifest := m5 |>)) with (wr_disk s4).
        rewrite Hfiles by done. exact Hidx.
      + change (wr_manifest (s4 <| wr_manifest := m5 |>)) with m5. rewrite Em. exact Hc2.
    - rewrite Hm6, Es6. split; [|reflexivity]. change (wr_manifest (s4 <| wr_manifest := m5 |>)) with m5.
      rewrite Em. reflexivity.
    - change ((0 <? Z.max (Z.max finalized (cf_startedReceiveNs (wr_config s1)))
        (mf_lastReceiveNs (wr_manifest s1))) = true). apply Z.ltb_lt. lia. }
  intros Hne. split; [apply Hcat|].
  - change (wr_manifest (s4 <| wr_manifest := m5 |>)) with m5. rewrite Em.
    apply final_contract; try done; [by apply winv_disk|lia].
  - change (mf_sourcesCrc32c m5 = crc32c (objects l_BinaryMarketSource (wr_sources s4))).
    rewrite Em, Es. exact Hc1.
  - change (wr_disk (s4 <| wr_manifest := m5 |>)) with (wr_disk s4).
    change (wr_sources (s4 <| wr_manifest := m5 |>)) with (wr_sources s4).
    rewrite Es, Hfiles by done. exact Hsrc.
  - rewrite Hm6. change (mf_complete m5 = 1 /\ mf_stopReason m5 = reason). rewrite Em.
    change ((if reason =? StopReason.Error then 0 else 1) = 1 /\ reason = reason).
    destruct (Z.eqb_spec reason StopReason.Error); done.
Qed.

End cuts.
