(* ===== verification/WriterRun.v ===== *)
(** * WriterRun: what a recording guarantees

    Every state the corpus writer reaches from a successful [start], by any
    calls and under any faults of the file system, satisfies the invariant of
    WriterInv; the theorems below are what its clients rely on. *)
From stdpp Require Import base list numbers strings gmap.
From S2P Require Import Prelude Codec Layout Format Samples DepthTransaction SourceState Disk.
From S2P Require Import Metadata BlockCodec Cut Segment Writer WriterShape WriterInv WriterSteps.
From S2P Require Import WriterCalls WriterCuts.
Import Crc32c.
Local Open Scope Z_scope.

Section runs.
Context `{CxetMarket} `{Codec : ByteBlockCodec} `{!ByteBlockLaws Codec}.

(** ** start *)

Lemma cutReservation_spec sources gaps blocks reference total :
  0 <= sources -> 0 <= gaps -> 0 <= blocks -> 0 <= reference ->
  cutReservationBytes sources gaps blocks reference = Some total ->
  total = 2 * (4096 + 272 * sources + 80 * gaps + 96 * blocks + reference).
Proof.
  intros H1 H2 H3 H4. unfold cutReservationBytes. sizes.
  destruct (addProduct 4096 sources 272) as [a|] eqn:E1; [|done]. cbn [mbind option_bind].
  apply addProduct_spec in E1 as [? ?]; [|mlia|lia|lia].
  destruct (addProduct a gaps 80) as [b|] eqn:E2; [|done]. cbn [mbind option_bind].
  apply addProduct_spec in E2 as [? ?]; [|mlia|lia|lia].
  destruct (addProduct b blocks 96) as [c|] eqn:E3; [|done]. cbn [mbind option_bind].
  apply addProduct_spec in E3 as [? ?]; [|mlia|lia|lia].
  destruct (addProduct c reference 1) as [d|] eqn:E4; [|done]. cbn [mbind option_bind].
  apply addProduct_spec in E4 as [? ?]; [|mlia|lia|lia].
  change (u64_max / 2) with 9223372036854775807. on_if E5; [done|]. bsplit.
  intros [= <-]. rewrite u64_id by mlia. lia.
Qed.

Lemma worst_nonneg : 0 <= worstRecordBytes <= u64_max.
Proof. unfold worstRecordBytes. pose proof (u64_range (binaryMarketPendingRecordBytes +
  kRecordCutReservationBytes + sizeofz l_BinaryMarketIndexEntry + sizeofz l_BinaryMarketSegmentHeader +
  sizeofz l_BinaryMarketSegmentFooter)). mlia. Qed.

(** The budget [start] computes. *)
Lemma budget_spec config b :
  size (cf_sources config) <= kBinaryMarketMaximumSources -> in_u64 (cf_pendingRecordCapacity config) ->
  budget config = Some b ->
  let n := size (cf_sources config) in
  bg_maximumGapRecords b = 9 * n /\ bg_initialCutReserve b = 2 * (4096 + 992 * n) /\
  bg_fixedMetadata b = 4672 + 992 * n + bg_initialCutReserve b /\ 0 <= bg_finalDrainReserve b /\
  bg_fixedMetadata b + bg_finalDrainReserve b <= cf_maximumBytes config.
Proof.
  intros Hn Hcap. pose proof (size_nonneg (cf_sources config)) as Hn0.
  pose proof worst_nonneg as Hw. unfold budget. set (n := size (cf_sources config)) in *.
  change kBinaryMarketStoredChannelCount with 9. sizes.
  destruct (addProduct 0 n 9) as [g|] eqn:E1; [|done]. cbn [mbind option_bind].
  apply addProduct_spec in E1 as [-> ?]; [|mlia|lia|lia].
  destruct (addProduct 4096 2 192) as [f1|] eqn:E2; [|done]. cbn [mbind option_bind].
  apply addProduct_spec in E2 as [-> ?]; [|mlia|lia|lia].
  destruct (addProduct (4096 + 2 * 192) 3 64) as [f2|] eqn:E3; [|done]. cbn [mbind option_bind].
  apply addProduct_spec in E3 as [-> ?]; [|mlia|lia|lia].
  destruct (addProduct (4096 + 2 * 192 + 3 * 64) n _) as [f3|] eqn:E4; [|done]. cbn [mbind option_bind].
  apply addProduct_spec in E4 as [-> ?]; [|mlia|lia|lia].
  destruct (cutReservationBytes n _ 0 0) as [c|] eqn:E5; [|done]. cbn [mbind option_bind].
  apply cutReservation_spec in E5 as ->; try lia.
  destruct (addProduct _ 1 (2 * _)) as [f4|] eqn:E6; [|done]. cbn [mbind option_bind].
  apply addProduct_spec in E6 as [-> ?]; [|mlia|lia|lia].
  on_if E7; [done|]. bsplit.
  set (ring := u64 (cf_shardCount config * cf_ringCapacity config)) in *.
  assert (in_u64 ring) as Hr by apply u64_range.
  set (pend := u64 (ring + cf_pendingRecordCapacity config)) in *.
  assert (in_u64 pend) as Hpn by apply u64_range.
  destruct (addProduct 0 pend worstRecordBytes) as [d1|] eqn:E8; [|done]. cbn [mbind option_bind].
  apply addProduct_spec in E8 as [-> ?]; [|mlia|mlia|lia].
  assert (0 <= pend * worstRecordBytes) as Hpw by (apply Z.mul_nonneg_nonneg; mlia).
  assert (0 <= pend `min` (65536 - n)) as Hmin by mlia.
  destruct (addProduct _ (_ `min` _) _) as [d2|] eqn:E9; [|done]. cbn [mbind option_bind].
  apply addProduct_spec in E9 as [-> ?]; [|mlia|mlia|lia].
  destruct (addProduct _ 1 _) as [m1|] eqn:E10; [|done]. cbn [mbind option_bind].
  apply addProduct_spec in E10 as [-> ?]; [|mlia|lia|lia].
  destruct (addProduct _ 1 worstRecordBytes) as [m2|] eqn:E11; [|done]. cbn [mbind option_bind].
  apply addProduct_spec in E11 as [-> ?]; [|mlia|lia|lia].
  on_if E12; [done|]. bsplit. intros [= <-]. cbn. cbv zeta. repeat split; lia.
Qed.

Lemma zeros_ok n : bytes_ok (replicate n 0).
Proof. apply Forall_replicate. mlia. Qed.

Lemma initial_manifest_fits config b disk :
  config_ok config -> size (cf_sources config) <= kBinaryMarketMaximumSources ->
  fits l_BinaryMarketManifest (wr_manifest (initialState config b disk)).
Proof.
  intros [] Hn. pose proof (size_nonneg (cf_sources config)). unfold kBinaryMarketMaximumSources in Hn.
  apply manifest_fits. split; cbn -[replicate u32]; try (by apply fits_checked);
    first [assumption | apply u32_range | mlia | idtac].
  - vm_compute. split; [discriminate|reflexivity].
  - vm_compute. split; [discriminate|reflexivity].
  - split; [done|]. by apply (zeros_ok 2).
  - unfold StopReason.Requested. mlia.
  - split; [done|]. apply zeros_ok.
  - split; [done|]. apply zeros_ok.
Qed.

Lemma initial_progress_fits config : config_ok config ->
  fits l_CorpusProducerProgress
    (MkCorpusProducerProgress (cf_producerEpoch config) 0 0 0 (replicate 64 0)
       (cf_shardCount config) (replicate 6 0)).
Proof.
  intros []. cbn. unfold fits_unsigned. cbn. intuition (try done; try mlia).
  - apply (Forall_replicate _ 64). lia.
  - apply (zeros_ok 6).
Qed.

Lemma initial_static config b disk :
  let m := wr_manifest (initialState config b disk) in
  static_ok (config <| cf_sources := [] |>) m /\ mf_recordCount m = 0 /\ mf_gapCount m = 0 /\
  mf_sourceCount m = u32 (size (cf_sources config)) /\ mf_segmentCount m = 0 /\
  mf_firstReceiveNs m = 0 /\ mf_lastReceiveNs m = 0 /\
  mf_startedReceiveNs m = cf_startedReceiveNs config /\
  mf_replayAnchorReceiveNs m = cf_startedReceiveNs config /\
  mf_replayAnchorMonotonicNs m = cf_startedMonotonicNs config.
Proof. by repeat split. Qed.

Lemma initialState_inv config b disk :
  config_ok config -> configInvalid config = false -> validSources (cf_sources config) = true ->
  budget config = Some b -> winv 0 0 0 (initialState config b disk).
Proof.
  intros Hok Hinvalid Hvalid Hb. unfold configInvalid in Hinvalid. bsplit.
  assert (size (cf_sources config) <= kBinaryMarketMaximumSources) as Hmax by done.
  destruct (budget_spec _ _ Hmax (co_pending _ Hok) Hb) as (G1 & G2 & G3 & G4 & G5).
  pose proof (initial_manifest_fits config b disk Hok Hmax) as Hfit.
  pose proof (initial_progress_fits config Hok) as Hpg.
  destruct (initial_static config b disk) as (M1 & M2 & M3 & M4 & M5 & M6 & M7 & M8 & M9 & M10).
  change (initialState config b disk) with
    (initialState config b disk <| wr_manifest := wr_manifest (initialState config b disk) |>).
  revert Hfit M1 M2 M3 M4 M5 M6 M7 M8 M9 M10. generalize (wr_manifest (initialState config b disk)).
  intros m Hfit M1 M2 M3 M4 M5 M6 M7 M8 M9 M10.
  pose proof (co_shards _ Hok) as Hsh. pose proof (co_maximum _ Hok) as Hcm. unfold kBinaryMarketMaximumShards in *.
  unfold kBinaryMarketMaximumSources in Hmax.
  assert (size (replicate (Z.to_nat (cf_shardCount config)) segmentState0) = cf_shardCount config)
    as Hsize by (unfold size; rewrite length_replicate; mlia).
  assert (forall f, f segmentState0 = 0 ->
    sumZ f (replicate (Z.to_nat (cf_shardCount config)) segmentState0) = 0) as Hsum
    by (intros f Hf; rewrite sumZ_replicate, Hf; lia).
  assert (1 <= size (cf_sources config)) as Hone
    by (unfold size; destruct (cf_sources config); [done|cbn; lia]).
  unfold initialState. split; wfields; repeat rewrite size_nil;
    cbn [cf_maximumBytes cf_shardCount cf_startedReceiveNs cf_producerEpoch].
  - destruct Hok. split; cbn; try done; unfold kBinaryMarketMaximumShards; sizes; try mlia.
  - split; wfields; [constructor|apply NoDup_nil_2].
  - split; unfold footprint, cutNeeded, pendingOf, storedOf, blockBytes; wfields; rewrite ?Hsum by done;
      rewrite ?M2; sizes; change (sumZ _ []) with 0; unfold size in *;
      cbn [cf_maximumBytes length Z.of_nat]; unfold kCorpusMaximumReferenceBytes; try mlia.
  - split; unfold opensOf, pendingOf, blockRecords; wfields; rewrite ?Hsum by done; repeat rewrite size_nil;
      try done; try lia.
    + by rewrite M4, u32_id by mlia.
    + left. rewrite M5. unfold size. cbn [length]. lia.
  - split; wfields; try done; try lia.
    + split; cbn [cf_startedReceiveNs]; lia || by left.
    + split; [apply Hok|done].
    + constructor.
  - intros shard g [-> _]%lookup_replicate. split; try done; try (cbn; lia).
    by exists 0, 0.
  - constructor.
  - intros shard g key position [-> _]%lookup_replicate. cbn. by rewrite lookup_empty.
  - unfold size. cbn [length]. mlia.
Qed.

Lemma start_inv config root disk writer s disk' :
  config_ok config -> start config root disk writer = (Ok, (Some s, disk')) ->
  winv 0 0 0 s /\ wr_config s = config <| cf_sources := [] |> /\
  mf_recordCount (wr_manifest s) = 0 /\ wr_active s = true.
Proof.
  intros Hok. unfold start. on_if E1; [done|]. on_if E2; [done|]. on_if E3; [done|].
  apply negb_false_iff in E3. destruct (budget config) as [b|] eqn:Eb; [|done].
  destruct (prepareRoot root disk) as [status disk1]. on_if E4; [intros [= ->]; done|].
  pose proof (initialState_inv config b disk1 Hok E2 E3 Eb) as I0.
  destruct (initial_static config b disk1) as (_ & M2 & _).
  assert (wr_config (initialState config b disk1) = config <| cf_sources := [] |>) as C0 by done.
  revert I0 M2 C0. generalize (initialState config b disk1). intros s0 I0 M2 C0.
  destruct (onDisk _ s0) as [ok s1] eqn:Ed. apply onDisk_shape in Ed as (d & _ & ->).
  on_if E5; [done|]. intros [= <- _]. split; [|done].
  apply (winv_disk _ _ _ _ d) in I0. destruct I0 as [Hcfg Hgaps [] [] [] Hsegs Hblocks Hpos Hix].
  split; wfields; try assumption; split; unfold footprint, cutNeeded in *; wfields; assumption.
Qed.

(** ** Every call *)

Lemma keeps_unchanged s s' : keeps s s' -> unchanged s s'.
Proof. intros []. by split. Qed.

Lemma perform_inv call s status s' :
  call_ok call -> winv 0 0 0 s -> perform call (Some s) = (status, Some s') ->
  winv 0 0 0 s' /\
  match call with Append _ => counted status s s' | _ => unchanged s s' end.
Proof.
  intros Hc Hinv.
  assert (forall f, whenActive f (Some s) = (status, Some s') ->
    (f s = (status, s') \/ (status = InvalidArgument /\ s' = s))) as Hw.
  { intros f. unfold whenActive. destruct (negb _); [intros [= <- <-]; auto|].
    destruct (f s). intros [= <- <-]. auto. }
  assert (winv 0 0 0 s /\ match call with Append _ => counted InvalidArgument s s | _ => unchanged s s end)
    as Hid by (split; [done|]; destruct call; first [by apply keeps_unchanged|by apply keeps_counted]).
  destruct call; cbn [perform call_ok] in *; intros [E|[-> ->]]%Hw; try exact Hid.
  - by eapply registerSourcesActive_inv.
  - by eapply appendActive_inv.
  - by eapply appendGapActive_inv.
  - by eapply updateProgressActive_inv.
  - by eapply setReferencePayloadActive_inv.
  - destruct (publishCutActive_inv _ _ _ _ Hinv E) as (? & ? & _). split; [done|by apply keeps_unchanged].
  - injection E as <- <-. split; [by apply beginFinalDrain_inv|done].
  - destruct Hc as (? & ? & _).
    destruct (finalizeActive_inv _ _ _ _ _ _ Hinv ltac:(done) ltac:(done) E) as (? & ? & _).
    split; [done|by apply keeps_unchanged].
Qed.

(** Runs keep the invariant, the configuration, and count what they accept. *)
Lemma run_inv config s log :
  writer_run config s log ->
  winv 0 0 0 s /\ wr_config s = config <| cf_sources := [] |> /\
  mf_recordCount (wr_manifest s) = size log.
Proof.
  induction 1 as [root disk disk' writer s Hok Hs | s log call status s' Hr IH Hc Hp].
  - destruct (start_inv _ _ _ _ _ _ Hok Hs) as (? & ? & ? & _). by split_and!.
  - destruct IH as (I & C & N). destruct (perform_inv _ _ _ _ Hc I Hp) as [I' K]. split; [done|].
    destruct call; destruct K as [-> ->]; (split; [done|]); rewrite N; try done.
    destruct status; rewrite ?size_app, ?size_one;
      match goal with |- context [Z.b2z ?b] => first [change (Z.b2z b) with 1 | change (Z.b2z b) with 0] end;
      lia.
Qed.

(** ** Reading what was published *)

Lemma read_decoded files content maximum cut :
  files (RootFile "cut.bin") = Some content -> decodeCorpusCut content = (Ok, Some cut) ->
  Z.of_nat (length content) <= maximum -> readCorpusCut files maximum = (Ok, Some cut).
Proof.
  intros Hf Hd Hmax. unfold readCorpusCut. rewrite Hf. unfold decodeCorpusCut in Hd |- *.
  on_if E1 in Hd; [done|]. cbv zeta in *. revert Hd.
  generalize (view l_CutHeader content). intros h Hd. on_if E2 in Hd; [done|].
  apply negb_false_iff in E2. unfold validCutHeader in E2. on_if E3 in E2; [done|].
  unfold cutHeaderInvalid in E3. bsplit.
  destruct (maximum <? ch_bytes h) eqn:E4; bsplit; [lia|exact Hd].
Qed.

Lemma cutBytes_length now payload s :
  cut_ok (publishedCut now payload s) -> winv 0 0 0 s ->
  size payload = size (wr_referencePayload s) ->
  Z.of_nat (length (cutBytes (publishedCut now payload s))) <= cf_maximumBytes (wr_config s).
Proof.
  intros Hok Hinv Hp. pose proof (cutPayload_length now payload s Hinv Hp) as Hlen.
  destruct (cutFile_paid s Hinv) as (H1 & H2 & H3). destruct (sealCutHeader_ok _ Hok) as [Hf _].
  apply obj_length in Hf. unfold cutBytes. rewrite length_app, Hf. unfold size in *.
  change (sizeof l_CutHeader) with 896%nat. lia.
Qed.

(** ** Claims *)

(** C10: Whatever calls a client makes and whatever the file system
    refuses, a recording never exceeds its configured quota: everything it has
    written or may still have to write for the records it accepted (tables, both cut
    files, blocks, pending rows at their worst size, segment frames, index), computed
    from the state of the writer as the ledger [footprint], is within
    [projectedBytes], which is within the write limit and the quota; and the manifest
    counts exactly the records that [append] accepted. *)
Theorem writer_quota config s log :
  writer_run config s log ->
  footprint s <= wr_projectedBytes s <= wr_writeLimitBytes s /\
  wr_writeLimitBytes s <= cf_maximumBytes config /\
  cutNeeded s <= wr_cutReservedBytes s /\
  mf_recordCount (wr_manifest s) = size log.
Proof.
  intros (Hinv & Hc & Hn)%run_inv. destruct (wi_budget _ _ _ _ Hinv). rewrite Hc in *.
  split_and!; try done; lia.
Qed.

(** C11: A recording that [finalize] reports as finished
    (for any reason but an error) is a corpus the reader opens: [catalog] accepts
    the manifest and the source table it left, they are the writer's own, the
    manifest counts exactly the accepted records, no row is pending and the writer
    is inactive. *)
Theorem finalized_corpus_opens config s log reason finalized now s' :
  writer_run config s log -> StopReason.Requested <= reason <= StopReason.ParserDisconnected ->
  in_i64 finalized -> finalize reason finalized now (Some s) = (Ok, Some s') ->
  exists m, catalog (w_files (wr_disk s')) = (Ok, Some (m, wr_sources s')) /\
    mf_recordCount m = size log /\ mf_complete m = 1 /\ mf_stopReason m = reason /\
    pendingOf (wr_segments s') = 0 /\ wr_active s' = false.
Proof.
  intros (Hinv & Hcfg & Hn)%run_inv Hr Hf. unfold finalize, whenActive. on_if Ea; [done|].
  destruct (finalizeActive _ _ _ s) as [status s1] eqn:E. intros [= -> ->].
  unfold StopReason.Requested, StopReason.ParserDisconnected in Hr.
  assert (in_u8 reason) as Hr8 by mlia.
  destruct (finalizeActive_inv _ _ _ _ _ _ Hinv Hr8 Hf E) as (I' & K' & D).
  destruct (D eq_refl) as (Hact & Hp & _ & Hcat). specialize (Hcat ltac:(unfold StopReason.Error; lia)).
  destruct Hcat as (Hcat & Hc & Hs).
  exists (sealManifest (wr_manifest s')). split_and!; try done.
  change (mf_recordCount (wr_manifest s') = size log). by rewrite (kc_records _ _ K').
Qed.

End runs.

(** ** Witnesses *)

Section samples.
Import Stored.

Definition sampleConfig : BinaryMarketWriterConfig :=
  MkBinaryMarketWriterConfig "recording" [sampleSource] 4 1000000 100000 60000000000 1000 900
    16 2 None 0 4096 0.
Definition emptyWorld : World := MkWorld (fun _ => None) [].

Definition stateOf (result : Status * BinaryMarketCorpusWriter) : WriterState :=
  default (initialState sampleConfig (MkBudget 0 0 0 0) emptyWorld) (snd result).

Definition startedState : WriterState :=
  stateOf (let '(status, (writer, _)) := start sampleConfig RootMissing emptyWorld None in
           (status, writer)).
Definition appendedState : WriterState := stateOf (append sampleTrade (Some startedState)).

Example sample_run_statuses :
  (fst (start sampleConfig RootMissing emptyWorld None),
   fst (append sampleTrade (Some startedState)),
   fst (publishCut 77 (Some appendedState)),
   fst (finalize StopReason.Requested 9000 78 (Some appendedState))) = (Ok, Ok, Ok, Ok).
Proof. vm_compute. reflexivity. Qed.

Lemma sampleConfig_ok : config_ok sampleConfig.
Proof.
  split; cbn; try mlia; try done. exact (Forall_cons_2 _ _ _ sampleSource_fits (Forall_nil_2 _)).
Qed.

Lemma sampleRun : writer_run sampleConfig appendedState [sampleTrade].
Proof.
  assert (exists disk, start sampleConfig RootMissing emptyWorld None =
    (Ok, (Some startedState, disk))) as [disk Hs] by (eexists; vm_compute; reflexivity).
  assert (perform (Append sampleTrade) (Some startedState) = (Ok, Some appendedState)) as Ha
    by (vm_compute; reflexivity).
  exact (run_called sampleConfig startedState [] (Append sampleTrade) Ok appendedState
    (run_started sampleConfig RootMissing emptyWorld disk None startedState sampleConfig_ok Hs)
    sampleTrade_fits Ha).
Qed.

Lemma writer_quota_witness :
  footprint appendedState <= wr_projectedBytes appendedState <= wr_writeLimitBytes appendedState /\
  wr_writeLimitBytes appendedState <= cf_maximumBytes sampleConfig /\
  cutNeeded appendedState <= wr_cutReservedBytes appendedState /\
  mf_recordCount (wr_manifest appendedState) = size [sampleTrade].
Proof. exact (writer_quota sampleConfig appendedState [sampleTrade] sampleRun). Defined.

Definition publishedState : WriterState := stateOf (publishCut 77 (Some appendedState)).
Definition finalizedState : WriterState :=
  stateOf (finalize StopReason.Requested 9000 78 (Some appendedState)).

Lemma sample_published : publishCut 77 (Some appendedState) = (Ok, Some publishedState).
Proof. vm_compute. reflexivity. Qed.
Lemma sample_finalized :
  finalize StopReason.Requested 9000 78 (Some appendedState) = (Ok, Some finalizedState).
Proof. vm_compute. reflexivity. Qed.

Lemma finalized_corpus_opens_witness : exists m,
  catalog (w_files (wr_disk finalizedState)) = (Ok, Some (m, wr_sources finalizedState)) /\
  mf_recordCount m = size [sampleTrade] /\ mf_complete m = 1 /\
  mf_stopReason m = StopReason.Requested /\
  pendingOf (wr_segments finalizedState) = 0 /\ wr_active finalizedState = false.
Proof.
  exact (finalized_corpus_opens sampleConfig appendedState [sampleTrade] StopReason.Requested 9000 78
    finalizedState sampleRun ltac:(vm_compute; split; discriminate) ltac:(mlia) sample_finalized).
Defined.
End samples.
