(* ===== verification/Storage.v ===== *)
(** * Storage: the accepted records are the stored records

    The files of the corpus writer against the records it accepted: for every shard,
    the accepted records are the rows of its sealed segments, then the rows of the
    blocks written to its open segment, then the pending rows.  A segment whose stream
    failed can never be sealed, so nothing is claimed of its file.

    [stored] is that relation; this file proves that flushing, sealing, opening and
    storing a record preserve it, whatever fails on the disk. *)
From stdpp Require Import base list numbers strings gmap sorting.
From S2P Require Import Prelude Codec Layout Format DepthTransaction SourceState Disk Metadata.
From S2P Require Import BlockCodec Cut Segment Writer WriterShape WriterInv WriterSteps.
Import Crc32c.
Local Open Scope Z_scope.

(** A sealed segment: its shard, its number, the rows it holds and the blocks that cuts
    name in it. *)
Record SealedSegment := MkSealedSegment {
  sl_shard : Z;
  sl_number : Z;
  sl_rows : list BinaryMarketRecord;
  sl_blocks : list CorpusBlockRange;
}.

Definition ofShard (i : Z) (log : list BinaryMarketRecord) : list BinaryMarketRecord :=
  List.filter (fun row => h_shardIndex (rec_header row) =? i) log.
Definition sealedOf (i : Z) (sealed : list SealedSegment) : list SealedSegment :=
  List.filter (fun x => sl_shard x =? i) sealed.

Definition blocksOf (i : Z) (blocks : list CorpusBlockRange) : list CorpusBlockRange :=
  List.filter (fun range => rg_shardIndex range =? i) blocks.

Section storage.
Context `{CxetMarket} `{Codec : ByteBlockCodec} `{!ByteBlockLaws Codec}.

(** ** The relation *)

(** A header that counts [rows] and describes the blocks [batches] stored as [body]. *)
Record describes (h : BinaryMarketSegmentHeader) (rows : list BinaryMarketRecord)
  (batches : list (list BinaryMarketRecord)) (body : list Z) : Prop := {
  ds_fits : fits l_BinaryMarketSegmentHeader h;
  ds_fixed : sh_magic h = kBinaryMarketSegmentMagic /\ sh_headerBytes h = 128 /\
    sh_recordBytes h = 1024 /\ sh_codecId h = 1 /\ sh_reserved16 h = 0 /\
    sh_reserved h = replicate 48 0;
  ds_records : sh_recordCount h = size rows;
  ds_blocks : sh_blockCount h = size batches;
  ds_bytes : sh_storedBlockBytes h = size body;
  ds_room : sh_storedBlockBytes h <= u64_max - 128 - 64;
  ds_crc : sh_recordsCrc32c h = crc32c (objects l_BinaryMarketRecord rows);
  ds_first : sh_firstReceiveNs h = firstReceive 0 rows;
  ds_last : sh_lastReceiveNs h = lastReceive 0 rows;
}.

Lemma describes_header h batches body :
  describes h (concat batches) batches body -> header_of h batches body.
Proof. intros []. by split. Qed.

(** The block references [ranges] name the blocks of [batches] in a segment whose bytes
    from [offset] on are [body]. *)
Inductive placed (number shard : Z)
  : Z -> list (list BinaryMarketRecord) -> list Z -> list CorpusBlockRange -> Prop :=
| placed_nil offset : placed number shard offset [] [] []
| placed_cons offset n rows batches encoded body range ranges :
    block_of n rows (rg_header range) encoded ->
    rg_offset range = offset -> rg_segmentNumber range = number -> rg_shardIndex range = shard ->
    h_receiveMonotonicNs ∘ rec_header <$> list.head rows = Some (rg_firstMonotonicNs range) ->
    h_receiveMonotonicNs ∘ rec_header <$> list.last rows = Some (rg_lastMonotonicNs range) ->
    placed number shard (offset + 64 + size encoded) batches body ranges ->
    placed number shard offset (rows :: batches)
      (obj l_BinaryMarketBlockHeader (rg_header range) ++ encoded ++ body) (range :: ranges).

Lemma placed_snoc number shard n rows encoded range : forall offset batches body ranges,
  placed number shard offset batches body ranges ->
  block_of n rows (rg_header range) encoded ->
  rg_offset range = offset + size body -> rg_segmentNumber range = number -> rg_shardIndex range = shard ->
  h_receiveMonotonicNs ∘ rec_header <$> list.head rows = Some (rg_firstMonotonicNs range) ->
  h_receiveMonotonicNs ∘ rec_header <$> list.last rows = Some (rg_lastMonotonicNs range) ->
  placed number shard offset (batches ++ [rows])
    (body ++ obj l_BinaryMarketBlockHeader (rg_header range) ++ encoded) (ranges ++ [range]).
Proof.
  intros offset batches body ranges Hp. induction Hp as [offset|offset n' rows' batches encoded' body range' ranges B Ho Hn Hs Hf Hl _ IH];
    intros Hb Hoff Hnum Hsh Hfirst Hlast; cbn [app].
  - rewrite <- (app_nil_r (_ ++ encoded)), <- app_assoc. rewrite size_nil, Z.add_0_r in Hoff.
    by eapply placed_cons; [..|constructor].
  - rewrite <- !app_assoc. eapply placed_cons; try done. apply IH; try done. rewrite Hoff, !size_app.
    unfold size. rewrite (obj_length _ _ (bo_fits _ _ _ _ B)).
    change (sizeof l_BinaryMarketBlockHeader) with 64%nat. lia.
Qed.

(** The file of an open segment: while its stream is good, and once it was closed to be
    sealed. *)
Definition openFile (files : Files) (g : SegmentState) (batches : list (list BinaryMarketRecord))
  (opened : list CorpusBlockRange) : Prop :=
  match sg_stream g with
  | Streaming position => exists header body,
      files (sg_partialPath g) = Some (header ++ body) /\ length header = 128%nat /\
      position = (128 + length body)%nat /\ body_of 0 batches body /\
      describes (sg_header g) (concat batches ++ sg_pending g) batches body /\
      placed (sh_segmentNumber (sg_header g)) (sh_shardIndex (sg_header g)) 128 batches body opened
  | Closed => exists header body footer,
      files (sg_partialPath g) = Some (header ++ body ++ footer) /\ length header = 128%nat /\
      placed (sh_segmentNumber (sg_header g)) (sh_shardIndex (sg_header g)) 128 batches body opened
  | Broken => True
  end.

(** The file of a sealed segment. *)
Definition sealedImage (h : BinaryMarketSegmentHeader) (body : list Z) : list Z :=
  obj l_BinaryMarketSegmentHeader (sealHeader h) ++ body ++
  obj l_BinaryMarketSegmentFooter (sealFooter (sealHeader h)).
Definition sealedFile (files : Files) (epoch : Z) (x : SealedSegment) : Prop :=
  exists h batches body,
    header_of h batches body /\ body_of 0 batches body /\ concat batches = sl_rows x /\
    sh_segmentNumber h = sl_number x /\ sh_shardIndex h = sl_shard x /\
    sh_producerEpoch h = epoch /\
    files (segmentPath (sl_shard x) (sl_number x) Sealed) = Some (sealedImage h body) /\
    placed (sl_number x) (sl_shard x) 128 batches body (sl_blocks x).

(** Shard [i] with segment [g] holds [rows]: its sealed segments, the blocks [batches] of
    its open segment and the pending rows; [blocks] are the references to all blocks, those
    of the open segment being [opened]. *)
Record shardHolds (files : Files) (epoch next i : Z) (g : SegmentState)
  (rows : list BinaryMarketRecord) (blocks : list CorpusBlockRange) (sealed : list SealedSegment)
  (batches : list (list BinaryMarketRecord)) (opened : list CorpusBlockRange) : Prop := {
  hs_rows : rows = concat (map sl_rows sealed) ++ concat batches ++ sg_pending g;
  hs_blocks : blocks = concat (map sl_blocks sealed) ++ opened;
  hs_sealed : Forall (sealedFile files epoch) sealed;
  hs_numbers : Forall (fun x => sl_number x < next) sealed;
  hs_order : StronglySorted (fun x y => sl_number x < sl_number y) sealed;
  hs_closed : sg_open g = false -> batches = [] /\ sg_pending g = [] /\ opened = [];
  hs_open : sg_open g = true ->
    let number := sh_segmentNumber (sg_header g) in
    sg_partialPath g = segmentPath i number Partial /\
    sg_finalPath g = segmentPath i number Sealed /\
    number < next /\ sh_shardIndex (sg_header g) = i /\
    sh_producerEpoch (sg_header g) = epoch /\ Forall (fun x => sl_number x < number) sealed /\
    openFile files g batches opened;
}.

(** The rows of a shard in arrival order, up to the fences of its segment. *)
Definition ordered (sources i : Z) (g : SegmentState) (rows : list BinaryMarketRecord) : Prop :=
  chain i sources 0 0 rows /\ lastSequence 0 rows = sg_previousShardSequence g /\
  lastMonotonic 0 rows = sg_previousMonotonicNs g.

(** The segment an index row names: sealed or open. *)
Definition indexed (sealed : list SealedSegment) (segments : list SegmentState)
  (e : BinaryMarketIndexEntry) : Prop :=
  fits l_BinaryMarketIndexEntry e /\
  ((exists x, x ∈ sealed /\ sl_shard x = ix_shardIndex e /\ sl_number x = ix_segmentNumber e) \/
   (exists g, segments !! Z.to_nat (ix_shardIndex e) = Some g /\ sg_open g = true /\
      sh_segmentNumber (sg_header g) = ix_segmentNumber e)).

Record stored (log : list BinaryMarketRecord) (sealed : list SealedSegment) (s : WriterState)
  : Prop := {
  st_holds : forall i g, wr_segments s !! i = Some g -> exists batches opened,
    shardHolds (w_files (wr_disk s)) (cf_producerEpoch (wr_config s)) (wr_nextSegmentNumber s)
      (Z.of_nat i) g (ofShard (Z.of_nat i) log) (blocksOf (Z.of_nat i) (wr_blocks s))
      (sealedOf (Z.of_nat i) sealed) batches opened;
  st_ordered : forall i g, wr_segments s !! i = Some g ->
    ordered (size (wr_sources s)) (Z.of_nat i) g (ofShard (Z.of_nat i) log);
  st_count : mf_segmentCount (wr_manifest s) = size sealed;
  st_sealed : Forall (fun x => 0 <= sl_shard x < size (wr_segments s)) sealed;
  st_log : Forall (fun row => 0 <= h_shardIndex (rec_header row) < size (wr_segments s)) log;
  st_index : Forall (indexed sealed (wr_segments s)) (wr_index s);
}.

(** ** Replacing one segment *)

(** Files of other shards are the same. *)
Definition sameOthers (i : Z) (files files' : Files) : Prop :=
  forall j number suffix, j <> i -> files' (SegmentFile j number suffix) = files (SegmentFile j number suffix).

Lemma sealedFile_same files files' epoch x :
  files' (segmentPath (sl_shard x) (sl_number x) Sealed) =
    files (segmentPath (sl_shard x) (sl_number x) Sealed) ->
  sealedFile files epoch x -> sealedFile files' epoch x.
Proof.
  intros Hf (h & batches & body & H1 & H2 & H3 & H4 & H5 & H6 & H7 & H8). exists h, batches, body. split_and!; try done. by rewrite Hf.
Qed.

(** A shard whose files did not change, among more segments. *)
Lemma shardHolds_same files files' epoch next next' i g rows blocks sealed batches opened :
  (forall number suffix, files' (SegmentFile i number suffix) = files (SegmentFile i number suffix)) ->
  next <= next' -> Forall (fun x => sl_shard x = i) sealed ->
  shardHolds files epoch next i g rows blocks sealed batches opened ->
  shardHolds files' epoch next' i g rows blocks sealed batches opened.
Proof.
  intros Hf Hn Hi [H1 HB H2 H3 H4 H5 H6]. split; try done.
  - apply Forall_forall. intros x Hx. rewrite Forall_forall in H2, Hi.
    apply (sealedFile_same files); [|by apply H2]. rewrite (Hi _ Hx). apply Hf.
  - eapply Forall_impl; [exact H3|]. cbn. lia.
  - intros Ho. destruct (H6 Ho) as (P1 & P2 & P3 & P4 & P5 & P6 & P7). cbv zeta.
    split_and!; try done; [lia|]. unfold openFile in *. rewrite P1 in P7 |- *. unfold segmentPath in *. by rewrite Hf.
Qed.

Lemma sealedOf_shard i sealed : Forall (fun x => sl_shard x = i) (sealedOf i sealed).
Proof. apply List.Forall_forall. intros x [_ Hx]%filter_In. by apply Z.eqb_eq. Qed.

Lemma sealedOf_app i a b : sealedOf i (a ++ b) = sealedOf i a ++ sealedOf i b.
Proof. apply List.filter_app. Qed.
Lemma ofShard_app i a b : ofShard i (a ++ b) = ofShard i a ++ ofShard i b.
Proof. apply List.filter_app. Qed.
Lemma ofShard_other i row : h_shardIndex (rec_header row) <> i -> ofShard i [row] = [].
Proof. intros Hi. unfold ofShard. cbn. by destruct (Z.eqb_spec (h_shardIndex (rec_header row)) i). Qed.
Lemma ofShard_one i row : h_shardIndex (rec_header row) = i -> ofShard i [row] = [row].
Proof. intros Hi. unfold ofShard. cbn. rewrite Hi. by rewrite Z.eqb_refl. Qed.

Lemma ordered_sources sources sources' i g rows :
  sources <= sources' -> ordered sources i g rows -> ordered sources' i g rows.
Proof. intros Hle (Hc & Hs & Hm). split; [by eapply chain_sources|done]. Qed.

(** Replacing the segment of one shard: the other shards keep their records. *)
Lemma stored_put log sealed new newSealed shard g g' s s' batches opened :
  (shard < length (wr_segments s))%nat -> stored log sealed (putSegment shard g s) ->
  wr_segments s' = wr_segments s -> wr_config s' = wr_config s ->
  size (wr_sources s) <= size (wr_sources s') ->
  wr_nextSegmentNumber s <= wr_nextSegmentNumber s' ->
  sameOthers (Z.of_nat shard) (w_files (wr_disk s)) (w_files (wr_disk s')) ->
  Forall (fun row => h_shardIndex (rec_header row) = Z.of_nat shard) new ->
  Forall (fun x => sl_shard x = Z.of_nat shard) newSealed ->
  (forall j, j <> Z.of_nat shard -> blocksOf j (wr_blocks s') = blocksOf j (wr_blocks s)) ->
  shardHolds (w_files (wr_disk s')) (cf_producerEpoch (wr_config s)) (wr_nextSegmentNumber s')
    (Z.of_nat shard) g' (ofShard (Z.of_nat shard) log ++ new) (blocksOf (Z.of_nat shard) (wr_blocks s'))
    (sealedOf (Z.of_nat shard) sealed ++ newSealed) batches opened ->
  ordered (size (wr_sources s')) (Z.of_nat shard) g' (ofShard (Z.of_nat shard) log ++ new) ->
  mf_segmentCount (wr_manifest s') = mf_segmentCount (wr_manifest s) + size newSealed ->
  Forall (indexed (sealed ++ newSealed) (<[shard := g']> (wr_segments s))) (wr_index s') ->
  stored (log ++ new) (sealed ++ newSealed) (putSegment shard g' s').
Proof.
  intros Hl [H1 H2 H3 H4 H5 H6] Hs Hc Hsrc Hn Hfiles Hnew Hsl Hblocks Hg' Ho' Hcount Hindex.
  assert (size (wr_segments (putSegment shard g' s')) = size (wr_segments (putSegment shard g s))) as Hsz
    by (unfold size; wfields; rewrite !length_insert, Hs; done).
  assert (size (wr_segments (putSegment shard g s)) = size (wr_segments s)) as Hsz'
    by (unfold size; wfields; by rewrite length_insert).
  assert (forall i, Z.of_nat i <> Z.of_nat shard -> ofShard (Z.of_nat i) (log ++ new) = ofShard (Z.of_nat i) log)
    as Hlog.
  { intros i Hi. rewrite ofShard_app. clear -Hnew Hi. induction Hnew as [|row new Hr _ IH]; [apply app_nil_r|].
    unfold ofShard in *. cbn. destruct (Z.eqb_spec (h_shardIndex (rec_header row)) (Z.of_nat i)); [lia|done]. }
  assert (forall i, Z.of_nat i <> Z.of_nat shard ->
    sealedOf (Z.of_nat i) (sealed ++ newSealed) = sealedOf (Z.of_nat i) sealed) as Hseal.
  { intros i Hi. rewrite sealedOf_app. clear -Hsl Hi. induction Hsl as [|x new Hr _ IH]; [apply app_nil_r|].
    unfold sealedOf in *. cbn. destruct (Z.eqb_spec (sl_shard x) (Z.of_nat i)); [lia|done]. }
  assert (ofShard (Z.of_nat shard) (log ++ new) = ofShard (Z.of_nat shard) log ++ new) as Hlog'.
  { rewrite ofShard_app. f_equal. clear -Hnew. induction Hnew as [|row new Hr _ IH]; [done|].
    unfold ofShard in *. cbn. rewrite Hr, Z.eqb_refl, IH. done. }
  assert (sealedOf (Z.of_nat shard) (sealed ++ newSealed) = sealedOf (Z.of_nat shard) sealed ++ newSealed) as Hseal'.
  { rewrite sealedOf_app. f_equal. clear -Hsl. induction Hsl as [|x new Hr _ IH]; [done|].
    unfold sealedOf in *. cbn. rewrite Hr, Z.eqb_refl, IH. done. }
  split.
  - intros i h. destruct (decide (i = shard)) as [->|Hi].
    + rewrite put_lookup by (by rewrite Hs). intros [= <-]. exists batches, opened. rewrite Hlog', Hseal'.
      wfields. by rewrite Hc.
    + rewrite put_other, Hs by done. rewrite <- (put_other shard _ g) by done. intros Hh.
      destruct (H1 _ _ Hh) as (batches' & opened' & Hb). exists batches', opened'. rewrite Hlog, Hseal by lia.
      wfields. rewrite Hc, Hblocks by lia.
      eapply shardHolds_same; [| |apply sealedOf_shard|exact Hb]; [|done].
      intros number suffix. apply Hfiles. lia.
  - intros i h. destruct (decide (i = shard)) as [->|Hi].
    + rewrite put_lookup by (by rewrite Hs). intros [= <-]. by rewrite Hlog'.
    + rewrite put_other, Hs by done. rewrite <- (put_other shard _ g) by done. intros Hh.
      rewrite Hlog by lia. eapply ordered_sources; [|by apply H2]. done.
  - wfields. rewrite Hcount, size_app. lia.
  - rewrite Hsz. apply Forall_app. split; [done|]. eapply Forall_impl; [exact Hsl|]. cbn. intros x ->.
    unfold size in *. wfields. rewrite length_insert. lia.
  - rewrite Hsz. apply Forall_app. split; [done|]. eapply Forall_impl; [exact Hnew|]. cbn. intros x ->.
    unfold size in *. wfields. rewrite length_insert. lia.
  - wfields. by rewrite Hs.
Qed.

(** Index rows after a replacement. *)
Lemma indexed_put sealed newSealed shard g g' (segments : list SegmentState) index :
  (shard < length segments)%nat ->
  (sg_open g = true ->
     (sg_open g' = true /\ sh_segmentNumber (sg_header g') = sh_segmentNumber (sg_header g)) \/
     (exists x, x ∈ newSealed /\ sl_shard x = Z.of_nat shard /\
        sl_number x = sh_segmentNumber (sg_header g))) ->
  Forall (indexed sealed (<[shard := g]> segments)) index ->
  Forall (indexed (sealed ++ newSealed) (<[shard := g']> segments)) index.
Proof.
  intros Hl Hg Hall. eapply Forall_impl; [exact Hall|]. intros e [Hf He]. split; [done|].
  destruct He as [(x & Hx & Hs & Hn)|(h & Hh & Ho & Hn)].
  { left. exists x. split; [|done]. apply elem_of_app. by left. }
  destruct (decide (Z.to_nat (ix_shardIndex e) = shard)) as [E|E].
  - rewrite E, list_lookup_insert_eq in Hh by done. injection Hh as <-.
    destruct (Hg Ho) as [[Ho' Hn']|(x & Hx & Hs & Hnx)].
    + right. exists g'. rewrite E, list_lookup_insert_eq by done. split_and!; [done..|congruence].
    + left. exists x. split; [apply elem_of_app; by right|]. split; [|congruence]. rewrite Hs, <- E.
      destruct e. cbn in *. unfold fits_unsigned in Hf. lia.
  - rewrite list_lookup_insert_ne in Hh by done. right. exists h. by rewrite list_lookup_insert_ne.
Qed.

(** ** Writing to a segment's file *)

Lemma writeSegment_files bytes s g ok s' g' :
  writeSegment bytes s g = (ok, (s', g')) ->
  (forall path, path <> sg_partialPath g -> w_files (wr_disk s') path = w_files (wr_disk s) path) /\
  (ok = true -> exists position, sg_stream g = Streaming position /\
     sg_stream g' = Streaming (position + length bytes) /\
     w_files (wr_disk s') (sg_partialPath g) =
       Some (overwrite position bytes (default [] (w_files (wr_disk s) (sg_partialPath g))))) /\
  (ok = false -> sg_stream g' = Broken).
Proof.
  unfold writeSegment. destruct (sg_stream g) as [position| |] eqn:Es;
    [|intros [= <- <- <-]; by split_and!..].
  destruct (onDisk _ s) as [ok1 s1] eqn:E. apply onDisk_shape in E as (disk & E & ->).
  apply writeAt_spec in E as [Ho Hw]. intros [= <- <- <-]. wfields. split_and!; [done|..].
  - intros ->. exists position. split_and!; [done..|]. by apply Hw.
  - by intros ->.
Qed.

Lemma body_of_snoc rows b encoded batches : forall n body,
  body_of n batches body -> block_of (n + size batches) rows b encoded -> (length rows <= 256)%nat ->
  Forall (fun row => h_channel (rec_header row) = bh_channel b) rows ->
  body_of n (batches ++ [rows]) (body ++ obj l_BinaryMarketBlockHeader b ++ encoded).
Proof.
  intros n body Hb. induction Hb as [n|n rows' batches b' encoded' body' Hb' Hl' Hc' _ IH]; intros Hr Hl Hc.
  - cbn [app]. rewrite <- (app_nil_r (_ ++ encoded)), <- app_assoc.
    apply body_cons; try done; [|constructor]. unfold size in Hr. cbn in Hr. by rewrite Z.add_0_r in Hr.
  - cbn [app]. rewrite <- !app_assoc. apply body_cons; try done. apply IH; try done.
    unfold size in *. cbn [length] in Hr. replace (n + 1 + _) with (n + Z.of_nat (S (length batches))) by lia.
    exact Hr.
Qed.

(** The counters of a segment have room for the block its pending rows make. *)
Lemma flush_room a c o shard s g b encoded :
  (shard < length (wr_segments s))%nat -> 0 <= a -> 0 <= c -> winv a c o (putSegment shard g s) ->
  sg_pending g <> [] ->
  encodeBlock (sh_blockCount (sg_header g)) (sg_pending g) = Some (b, encoded) ->
  physical encoded <= reserved g ->
  physical encoded = 64 + size encoded /\ 0 <= sh_storedBlockBytes (sg_header g) /\
  sh_storedBlockBytes (sg_header g) + (64 + size encoded) <= u64_max - 128 - 64 /\
  0 <= sh_blockCount (sg_header g) < u32_max.
Proof.
  intros Hl Ha Hc Hinv Hne He Hphys.
  assert (wr_segments (putSegment shard g s) !! shard = Some g) as Hg by (by apply put_lookup).
  destruct (winv_totals _ _ _ _ Hinv Ha Hc) as (Tp & Tb & Tc & Tproj & Tseg).
  destruct (Tseg _ _ Hg) as [Tg Tst]. clear Tseg.
  pose proof (wi_segments _ _ _ _ Hinv _ _ Hg) as Hsg.
  destruct (flushed_block _ _ _ _ _ _ Hsg Hne He) as [[Hbf _ _ _ _ _ (_ & _ & _ & _ & _ & Henc & _)] _].
  assert (sg_open g = true) as Ho
    by (destruct (sg_open g) eqn:E; [done|]; by apply (sg_closed _ _ _ _ Hsg) in E).
  destruct (sg_counters _ _ _ _ Hsg Ho) as (_ & Hnum & Hst & Hn). specialize (Tst Ho).
  pose proof (encodeBlock_room _ _ _ _ He). pose proof (sg_room _ _ _ _ Hsg) as Hroom.
  pose proof PR_bounds as HPR. change (2 ^ 33) with 8589934592 in HPR.
  assert (size encoded <= u32_max) as Hencmax.
  { unfold size. rewrite <- Henc. destruct b. cbn in Hbf. unfold fits_unsigned in Hbf. cbn. mlia. }
  pose proof (size_nonneg encoded). pose proof (size_nonneg (sg_pending g)) as Hp0.
  assert (size (sg_pending g) <= 256) by (unfold size; lia).
  destruct (wi_budget _ _ _ _ Hinv) as [B1 B2 B3 B4 B5 B6 B7 B8 B9 B10 B11 B12].
  unfold physical, reserved, footprint in *. sizes. wfields. unfold size in *.
  revert Hphys B1 Tg HPR Hp0 Tp. generalize binaryMarketPendingRecordBytes. intros PR Hphys B1 Tg HPR Hp0 Tp.
  assert (0 <= Z.of_nat (length (sg_pending g)) * PR <= 256 * 8589934592) as Hmul by nia.
  rewrite (u64_id (64 + _)) in * by mlia. rewrite (u64_id (_ * PR)) in Hphys by mlia.
  assert (PR * Z.of_nat (length (sg_pending g)) <= PR * pendingOf (<[shard:=g]> (wr_segments s))) by nia.
  split; [done|]. split; [done|]. split; [|mlia]. lia.
Qed.

Lemma header_flush_fits h bytes blocks :
  in_u64 bytes -> in_u32 blocks -> fits l_BinaryMarketSegmentHeader h ->
  fits l_BinaryMarketSegmentHeader (h <| sh_storedBlockBytes := bytes |> <| sh_blockCount := blocks |>).
Proof.
  intros H1 H2 Hf. destruct h. cbn in *. unfold fits_unsigned in *. cbn in *. intuition (done || mlia).
Qed.

(** ** Flushing a block *)

(** A segment whose stream broke. *)
Lemma shardHolds_broken files files' epoch next i g g' rows blocks sealed batches opened :
  (forall number, files' (SegmentFile i number Sealed) = files (SegmentFile i number Sealed)) ->
  Forall (fun x => sl_shard x = i) sealed ->
  seg_agree g g' -> sg_partialPath g' = sg_partialPath g -> sg_finalPath g' = sg_finalPath g ->
  sh_producerEpoch (sg_header g') = sh_producerEpoch (sg_header g) ->
  sg_stream g' = Broken ->
  shardHolds files epoch next i g rows blocks sealed batches opened ->
  shardHolds files' epoch next i g' rows blocks sealed batches opened.
Proof.
  intros Hf Hi [A1 A2 A3 A4 A5 A6 _ _ _] Hp1 Hp2 He Hst [H1 HB H2 H3 H4 H5 H6]. split; try done.
  - by rewrite A1.
  - apply Forall_forall. intros x Hx. rewrite Forall_forall in H2, Hi.
    apply (sealedFile_same files); [|by apply H2]. rewrite (Hi _ Hx). apply Hf.
  - by rewrite A1, A2.
  - rewrite A2. intros Ho. destruct (H6 Ho) as (P1 & P2 & P3 & P4 & P5 & P6 & _). cbv zeta.
    rewrite A5, A6, Hp1, Hp2, He. split_and!; try done. unfold openFile. by rewrite Hst.
Qed.

(** What a flush does to a shard: the records stay, the pending rows of a good stream
    become its last block. *)
Lemma flush_holds a c o shard s g ok s' g' rows sealed batches opened :
  (shard < length (wr_segments s))%nat -> 0 <= a -> 0 <= c -> winv a c o (putSegment shard g s) ->
  Forall (fun x => sl_shard x = Z.of_nat shard) sealed ->
  shardHolds (w_files (wr_disk s)) (cf_producerEpoch (wr_config s)) (wr_nextSegmentNumber s)
    (Z.of_nat shard) g rows (blocksOf (Z.of_nat shard) (wr_blocks s)) sealed batches opened ->
  flushBlock s g = (ok, (s', g')) ->
  (forall path, (sg_open g = true -> path <> sg_partialPath g) ->
     w_files (wr_disk s') path = w_files (wr_disk s) path) /\
  sg_partialPath g' = sg_partialPath g /\ sg_finalPath g' = sg_finalPath g /\
  (forall j, j <> Z.of_nat shard -> blocksOf j (wr_blocks s') = blocksOf j (wr_blocks s)) /\
  exists batches' opened', shardHolds (w_files (wr_disk s')) (cf_producerEpoch (wr_config s))
    (wr_nextSegmentNumber s) (Z.of_nat shard) g' rows (blocksOf (Z.of_nat shard) (wr_blocks s')) sealed
    batches' opened'.
Proof.
  intros Hl Ha Hc Hinv Hsl Hh. unfold flushBlock.
  destruct (list.head (sg_pending g)) as [first|] eqn:Eh; [|intros [= <- <- <-]; split_and!; [done..|by eexists _, _]].
  destruct (list.last (sg_pending g)) as [final|] eqn:El; [|intros [= <- <- <-]; split_and!; [done..|by eexists _, _]].
  destruct (encodeBlock _ _) as [[b encoded]|] eqn:Eb; [|intros [= <- <- <-]; split_and!; [done..|by eexists _, _]].
  fold (physical encoded) (reserved g).
  destruct (Z.ltb_spec (reserved g) (physical encoded)) as [|Hphys];
    [intros [= <- <- <-]; split_and!; [done..|by eexists _, _]|].
  assert (sg_pending g <> []) as Hne by (intros E; by rewrite E in Eh).
  assert (wr_segments (putSegment shard g s) !! shard = Some g) as Hg by (by apply put_lookup).
  pose proof (wi_segments _ _ _ _ Hinv _ _ Hg) as Hsg.
  assert (sg_open g = true) as Ho
    by (destruct (sg_open g) eqn:E; [done|]; by apply (sg_closed _ _ _ _ Hsg) in E).
  pose proof (hs_open _ _ _ _ _ _ _ _ _ _ Hh Ho) as (P1 & P2 & P3 & P4 & P5 & P6 & P7). cbv zeta in *.
  assert (forall t u, u = sg_partialPath g ->
    (forall path, path <> u -> w_files (wr_disk t) path = w_files (wr_disk s) path) ->
    forall number, w_files (wr_disk t) (SegmentFile (Z.of_nat shard) number Sealed) =
      w_files (wr_disk s) (SegmentFile (Z.of_nat shard) number Sealed)) as Hsealed.
  { intros t u -> Ht number. apply Ht. rewrite P1. done. }
  destruct (writeSegment (obj _ b) s g) as [ok1 [s1 g1]] eqn:E1.
  pose proof (writeSegment_shape _ _ _ _ _ _ E1) as (d1 & t1 & Hs1 & Hg1).
  apply writeSegment_files in E1 as (F1 & W1 & X1).
  destruct ok1.
  2: { intros [= <- <- <-]. specialize (X1 eq_refl). rewrite Hg1 in X1 |- *. cbn in X1. subst t1.
       assert (wr_blocks s1 = wr_blocks s) as HB1 by (by rewrite Hs1). rewrite HB1.
       split_and!; [auto|done|done|done|]. exists batches, opened. apply (shardHolds_broken (w_files (wr_disk s)) _ _ _ _ g); try done;
         [|by split; auto].
       by apply (Hsealed s1 _ eq_refl). }
  destruct (writeSegment encoded s1 g1) as [ok2 [s2 g2]] eqn:E2.
  pose proof (writeSegment_shape _ _ _ _ _ _ E2) as (d2 & t2 & Hs2 & Hg2).
  apply writeSegment_files in E2 as (F2 & W2 & X2).
  assert (sg_partialPath g1 = sg_partialPath g) as Hp1 by (by rewrite Hg1). rewrite Hp1 in *.
  assert (forall path, path <> sg_partialPath g -> w_files (wr_disk s2) path = w_files (wr_disk s) path) as F
    by (intros path Hp; by rewrite F2, F1).
  destruct ok2.
  2: { intros [= <- <- <-]. specialize (X2 eq_refl). rewrite Hg2, Hg1 in X2 |- *. cbn in X2. subst t2.
       assert (wr_blocks s2 = wr_blocks s) as HB2 by (by rewrite Hs2, Hs1). rewrite HB2.
       split_and!; [auto|done|done|done|]. exists batches, opened. apply (shardHolds_broken (w_files (wr_disk s)) _ _ _ _ g); try done;
         [|by split; auto].
       by apply (Hsealed s2 _ eq_refl). }
  intros [= <- <- <-]. wfields. assert (wr_blocks s2 = wr_blocks s) as HB2 by (by rewrite Hs2, Hs1). rewrite HB2.
  split_and!; [auto|by rewrite Hg2, Hg1|by rewrite Hg2, Hg1| |].
  { intros j Hj. unfold blocksOf. rewrite List.filter_app. cbn. rewrite P4.
    destruct (Z.eqb_spec (Z.of_nat shard) j); [lia|]. apply app_nil_r. }
  destruct (W1 eq_refl) as (p1 & S1 & T1 & C1). destruct (W2 eq_refl) as (p2 & S2 & T2 & C2).
  assert (p2 = (p1 + length (obj l_BinaryMarketBlockHeader b))%nat) as -> by congruence.
  unfold openFile in P7. rewrite S1 in P7. destruct P7 as (header & body & Hfile & Hhl & Hpos & Hbody & Hds & Hpl).
  destruct (flush_room _ _ _ _ _ _ _ _ Hl Ha Hc Hinv Hne Eb Hphys) as (Ep & Es0 & Es1 & Eb1).
  destruct (flushed_block _ _ _ _ _ _ Hsg Hne Eb) as [Hblock _].
  pose proof (obj_length _ _ (bo_fits _ _ _ _ Hblock)) as Hbl. change (sizeof l_BinaryMarketBlockHeader) with 64%nat in Hbl.
  set (body' := body ++ obj l_BinaryMarketBlockHeader b ++ encoded).
  assert (w_files (wr_disk s2) (sg_partialPath g) = Some (header ++ body')) as Hfile'.
  { rewrite C2, C1, Hfile. subst body' p1. generalize (obj l_BinaryMarketBlockHeader b) as bytes. intros bytes.
    cbn [default from_option id]. unfold id.
    replace (128 + length body)%nat with (length (header ++ body)) by (rewrite length_app; lia).
    rewrite overwrite_end, <- length_app, overwrite_end.
    by rewrite <- !app_assoc. }
  assert (size body' = size body + (64 + size encoded)) as Hsz
    by (subst body'; unfold size; rewrite !length_app; lia).
  assert (h_channel ∘ rec_header <$> Some first = Some (bh_channel b)) as Hch
    by (rewrite <- Eh; apply Hblock). injection Hch as Hch.
  exists (batches ++ [sg_pending g]), (opened ++ [blockRange g first final b]).
  destruct Hh as [H1 HB H2 H3 H4 H5 H6]. destruct Hds as [D1 D2 D3 D4 D5 D6 D7 D8 D9].
  pose proof (size_nonneg encoded). pose proof (size_nonneg body).
  split; rewrite ?Hg2, ?Hg1; wfields; try done.
  - rewrite concat_app, app_nil_r. cbn [concat]. by rewrite app_nil_r.
  - unfold blocksOf in *. rewrite List.filter_app, HB. cbn. rewrite P4, Z.eqb_refl. by rewrite <- app_assoc.
  - apply Forall_forall. intros x Hx. rewrite Forall_forall in H2, Hsl.
    apply (sealedFile_same (w_files (wr_disk s))); [|by apply H2]. rewrite (Hsl _ Hx). by apply (Hsealed s2 _ eq_refl).
  - by rewrite Ho.
  - intros _. cbv zeta. split_and!; try done. unfold openFile. cbn [sg_stream upd]. rewrite Hg2 in T2. cbn in T2. rewrite T2.
    exists header, body'. wfields. rewrite app_nil_r, concat_app. cbn [concat]. rewrite app_nil_r.
    split_and!; [exact Hfile'|done| | | |].
    + subst p1. subst body'. rewrite !length_app, Hbl. lia.
    + subst body'. apply body_of_snoc; try done.
      * rewrite <- D4. exact Hblock.
      * apply (sg_room _ _ _ _ Hsg).
      * apply Forall_forall. intros row Hrow. rewrite <- Hch. cbn.
        by apply (sg_channel _ _ _ _ Hsg first row).
    + rewrite Ep. split; wfields; try done.
      * exact (header_flush_fits _ _ _ (u64_range _) (u32_range _) D1).
      * rewrite u32_id by mlia. rewrite D4, size_app, size_one. done.
      * rewrite u64_id by mlia. rewrite Hsz, D5. done.
      * rewrite u64_id by mlia. lia.
    + assert (rg_offset (blockRange g first final b) = 128 + size body) as R2.
      { unfold blockRange. cbn [rg_offset]. change (sizeofz l_BinaryMarketSegmentHeader) with 128.
        rewrite u64_id by mlia. by rewrite D5. }
      assert (rg_header (blockRange g first final b) = b) as R1 by reflexivity.
      assert (rg_segmentNumber (blockRange g first final b) = sh_segmentNumber (sg_header g)) as R3 by reflexivity.
      assert (rg_shardIndex (blockRange g first final b) = sh_shardIndex (sg_header g)) as R4 by reflexivity.
      assert (rg_firstMonotonicNs (blockRange g first final b) = h_receiveMonotonicNs (rec_header first)) as R5 by reflexivity.
      assert (rg_lastMonotonicNs (blockRange g first final b) = h_receiveMonotonicNs (rec_header final)) as R6 by reflexivity.
      revert R1 R2 R3 R4 R5 R6. generalize (blockRange g first final b). intros range R1 R2 R3 R4 R5 R6.
      subst body'. rewrite <- R1 in Hblock |- *.
      eapply (placed_snoc _ _ _ _ _ _ _ _ _ _ Hpl Hblock); [exact R2|exact R3|exact R4|by rewrite Eh, R5|by rewrite El, R6].
Qed.

(** Replacing a segment without accepting or sealing anything. *)
Lemma stored_replace log sealed shard g g' s s' batches opened :
  (shard < length (wr_segments s))%nat -> stored log sealed (putSegment shard g s) ->
  wr_segments s' = wr_segments s -> wr_config s' = wr_config s -> wr_sources s' = wr_sources s ->
  wr_nextSegmentNumber s <= wr_nextSegmentNumber s' -> wr_index s' = wr_index s ->
  mf_segmentCount (wr_manifest s') = mf_segmentCount (wr_manifest s) ->
  sameOthers (Z.of_nat shard) (w_files (wr_disk s)) (w_files (wr_disk s')) ->
  (sg_open g = true -> sg_open g' = true /\
     sh_segmentNumber (sg_header g') = sh_segmentNumber (sg_header g)) ->
  sg_previousShardSequence g' = sg_previousShardSequence g ->
  sg_previousMonotonicNs g' = sg_previousMonotonicNs g ->
  (forall j, j <> Z.of_nat shard -> blocksOf j (wr_blocks s') = blocksOf j (wr_blocks s)) ->
  shardHolds (w_files (wr_disk s')) (cf_producerEpoch (wr_config s)) (wr_nextSegmentNumber s')
    (Z.of_nat shard) g' (ofShard (Z.of_nat shard) log) (blocksOf (Z.of_nat shard) (wr_blocks s'))
    (sealedOf (Z.of_nat shard) sealed) batches opened ->
  stored log sealed (putSegment shard g' s').
Proof.
  intros Hl Hst Hs Hc Hsrc Hn Hx Hcount Hfiles Hopen Hps Hpm Hblocks Hh.
  rewrite <- (app_nil_r log), <- (app_nil_r sealed).
  eapply stored_put; try done; rewrite ?app_nil_r; try done.
  - by rewrite Hsrc.
  - pose proof (st_ordered _ _ _ Hst shard g (put_lookup _ _ _ Hl)) as (Ho1 & Ho2 & Ho3).
    rewrite Hsrc. split; [done|]. by rewrite Hps, Hpm.
  - unfold size. cbn. lia.
  - rewrite Hx, <- (app_nil_r sealed). eapply indexed_put; [done| |apply (st_index _ _ _ Hst)].
    intros Ho. left. by apply Hopen.
Qed.

Lemma flush_stored a c o log sealed shard s g ok s' g' :
  (shard < length (wr_segments s))%nat -> 0 <= a -> 0 <= c -> winv a c o (putSegment shard g s) ->
  stored log sealed (putSegment shard g s) -> flushBlock s g = (ok, (s', g')) ->
  stored log sealed (putSegment shard g' s') /\ sg_partialPath g' = sg_partialPath g /\
  sg_finalPath g' = sg_finalPath g.
Proof.
  intros Hl Ha Hc Hinv Hst E. destruct (st_holds _ _ _ Hst shard g (put_lookup _ _ _ Hl)) as (batches & opened & Hh).
  destruct (flush_holds _ _ _ _ _ _ _ _ _ _ _ _ _ Hl Ha Hc Hinv (sealedOf_shard _ _) Hh E)
    as (Hf & Hp1 & Hp2 & Hb & batches' & opened' & Hh').
  split; [|done]. apply flushBlock_shape in E as Hr. pose proof (flush_kept _ _ _ _ _ Hr) as [K1 K2 K3 _ _].
  assert (wr_nextSegmentNumber s' = wr_nextSegmentNumber s) as Hnext by (by inversion Hr).
  eapply stored_replace; [done|exact Hst|..]; try (by inversion Hr).
  - intros j number suffix Hj. apply Hf. intros Ho.
    destruct (hs_open _ _ _ _ _ _ _ _ _ _ Hh Ho) as (-> & _). unfold segmentPath. congruence.
  - exact Hb.
  - rewrite Hnext. exact Hh'.
Qed.

(** ** Sealing *)

Lemma flushStream_files s g ok s' g' :
  flushStream s g = (ok, (s', g')) ->
  w_files (wr_disk s') = w_files (wr_disk s) /\
  (ok = false -> sg_stream g' = Broken) /\
  (ok = true -> sg_stream g' = sg_stream g).
Proof.
  unfold flushStream. destruct (sg_stream g) as [position| |] eqn:Es.
  - destruct (onDisk _ s) as [ok1 s1] eqn:E. apply onDisk_shape in E as (disk & E & ->).
    apply attempt_files in E. intros [= <- <- <-]. wfields. split_and!; [done|by intros ->|by intros ->].
  - intros [= <- <- <-]. by rewrite Es.
  - intros [= <- <- <-]. by rewrite Es.
Qed.

(** The files after sealing a segment whose pending rows are flushed. *)
Lemma sealOpen_files s g s1 g1 ok s' g' :
  flushBlock s g = (true, (s1, g1)) -> sg_partialPath g1 <> sg_finalPath g1 ->
  sealOpen s g = (ok, (s', g')) ->
  (forall path, path <> sg_partialPath g1 -> path <> sg_finalPath g1 ->
     w_files (wr_disk s') path = w_files (wr_disk s1) path) /\
  (ok = false -> w_files (wr_disk s') (sg_finalPath g1) = w_files (wr_disk s1) (sg_finalPath g1) /\
     (sg_stream g' = Broken \/ sg_stream g' = Closed /\ exists position, sg_stream g1 = Streaming position /\
        w_files (wr_disk s') (sg_partialPath g1) =
          Some (overwrite 0 (obj l_BinaryMarketSegmentHeader (sealHeader (sg_header g1)))
                  (default [] (w_files (wr_disk s1) (sg_partialPath g1))) ++
                obj l_BinaryMarketSegmentFooter (sealFooter (sealHeader (sg_header g1)))))) /\
  (ok = true -> exists position, sg_stream g1 = Streaming position /\
     w_files (wr_disk s') (sg_finalPath g1) =
       Some (overwrite 0 (obj l_BinaryMarketSegmentHeader (sealHeader (sg_header g1)))
               (default [] (w_files (wr_disk s1) (sg_partialPath g1))) ++
             obj l_BinaryMarketSegmentFooter (sealFooter (sealHeader (sg_header g1))))).
Proof.
  intros E1 Hne. unfold sealOpen. rewrite E1. cbn iota beta. clear E1.
  set (sealed := g1 <| sg_header ::= sealHeader |>).
  change (sealHeader (sg_header g1)) with (sg_header sealed).
  generalize (obj l_BinaryMarketSegmentHeader (sg_header sealed)) as header. intros header.
  destruct (writeSegment header s1 _) as [ok2 [s2 g2]] eqn:E2.
  pose proof (writeSegment_shape _ _ _ _ _ _ E2) as (d2 & t2 & Hs2 & Hg2).
  apply writeSegment_files in E2 as (F2 & W2 & X2).
  change (sg_partialPath (seekSegment 0 sealed)) with (sg_partialPath g1) in *.
  assert (sg_partialPath g2 = sg_partialPath g1 /\ sg_finalPath g2 = sg_finalPath g1 /\
    sg_header g2 = sg_header sealed) as (P2 & Q2 & R2) by (rewrite Hg2; done).
  rewrite P2, R2. generalize (obj l_BinaryMarketSegmentFooter (sealFooter (sg_header sealed))) as footer. intros footer.
  destruct ok2.
  2: { intros [= <- <- <-]. specialize (X2 eq_refl). split_and!; [auto| |done].
       intros _. split; [by apply F2|]. left. exact X2. }
  destruct (W2 eq_refl) as (p2 & S2 & T2 & C2). clear W2 X2.
  destruct (writeSegment footer s2 _) as [ok3 [s3 g3]] eqn:E3.
  pose proof (writeSegment_shape _ _ _ _ _ _ E3) as (d3 & t3 & Hs3 & Hg3).
  apply writeSegment_files in E3 as (F3 & W3 & X3).
  match type of F3 with context [seekSegment ?n g2] =>
    change (sg_partialPath (seekSegment n g2)) with (sg_partialPath g2) in F3, W3;
    assert (sg_partialPath g3 = sg_partialPath g2 /\ sg_finalPath g3 = sg_finalPath g2) as (P3 & Q3)
      by (rewrite Hg3; done)
  end.
  rewrite P2 in *.
  assert (forall path, path <> sg_partialPath g1 -> w_files (wr_disk s3) path = w_files (wr_disk s1) path) as F
    by (intros; by rewrite F3, F2).
  destruct ok3.
  2: { intros [= <- <- <-]. specialize (X3 eq_refl). split_and!; [auto| |done].
       intros _. split; [by apply F|]. left. exact X3. }
  destruct (W3 eq_refl) as (p3 & S3 & T3 & C3). clear W3 X3.
  destruct (flushStream s3 g3) as [ok4 [s4 g4]] eqn:E4.
  pose proof (flushStream_shape _ _ _ _ _ E4) as (d4 & t4 & Hs4 & Hg4).
  apply flushStream_files in E4 as (F4 & X4 & _).
  destruct ok4.
  2: { intros [= <- <- <-]. rewrite F4. split_and!; [auto| |done]. intros _. split; [by apply F|left; by apply X4]. }
  assert (exists position, sg_stream g1 = Streaming position /\ w_files (wr_disk s3) (sg_partialPath g1) =
    Some (overwrite 0 header (default [] (w_files (wr_disk s1) (sg_partialPath g1))) ++ footer)) as Hdone.
  { unfold seekSegment in S2. cbn in S2.
    destruct (sg_stream g1) as [position| |] eqn:Es1; try done. injection S2 as <-.
    exists position. split; [done|]. rewrite C3, C2. f_equal.
    unfold seekSegment in S3. cbn in S3. rewrite T2 in S3. injection S3 as <-.
    rewrite C2. cbn [default from_option]. unfold id. by rewrite overwrite_end. }
  assert (sg_partialPath g4 = sg_partialPath g1 /\ sg_finalPath g4 = sg_finalPath g1) as (P4 & Q4)
    by (rewrite Hg4; cbn; rewrite P3, Q3; done).
  change (sg_partialPath (g4 <| sg_stream := Closed |>)) with (sg_partialPath g4).
  change (sg_finalPath (g4 <| sg_stream := Closed |>)) with (sg_finalPath g4). rewrite P4, Q4.
  destruct (onDisk _ s4) as [ok5 s5] eqn:E5. apply onDisk_shape in E5 as (d5 & E5 & ->).
  apply syncFile_files in E5.
  destruct ok5; cbn [negb].
  2: { intros [= <- <- <-]. wfields. rewrite E5, F4. split_and!; [auto| |done]. intros _.
       split; [by apply F|]. right. split; [done|exact Hdone]. }
  destruct (onDisk _ _) as [ok6 s6] eqn:E6. apply onDisk_shape in E6 as (d6 & E6 & ->).
  wfields. apply rename_spec in E6 as (F6 & W6 & X6); [|done]. rewrite E5, F4 in *.
  destruct ok6; cbn [negb]; intros [= <- <- <-]; wfields.
  2: { rewrite (X6 eq_refl). split_and!; [auto| |done]. intros _. split; [by apply F|]. right. split; [done|exact Hdone]. }
  destruct (W6 eq_refl) as (W6a & _ & _). split_and!; [|done|].
  - intros path Hp1 Hp2. rewrite F6 by done. by apply F.
  - intros _. destruct Hdone as (position & Hs & Hc). exists position. split; [done|]. by rewrite W6a.
Qed.

(** The files of a shard once its segment is sealed. *)
Lemma seal_holds files files' epoch next i g rows blocks sealed batches opened position g' :
  shardHolds files epoch next i g rows blocks sealed batches opened -> Forall (fun x => sl_shard x = i) sealed ->
  sg_open g = true -> sg_pending g = [] -> sg_stream g = Streaming position ->
  sg_open g' = false -> sg_pending g' = [] ->
  (forall number, number <> sh_segmentNumber (sg_header g) ->
     files' (SegmentFile i number Sealed) = files (SegmentFile i number Sealed)) ->
  files' (sg_finalPath g) =
    Some (overwrite 0 (obj l_BinaryMarketSegmentHeader (sealHeader (sg_header g)))
            (default [] (files (sg_partialPath g))) ++
          obj l_BinaryMarketSegmentFooter (sealFooter (sealHeader (sg_header g)))) ->
  shardHolds files' epoch next i g' rows blocks
    (sealed ++ [MkSealedSegment i (sh_segmentNumber (sg_header g)) (concat batches) opened]) [] [].
Proof.
  intros [H1 HB H2 H3 H4 H5 H6] Hi Ho Hp Hst Ho' Hp' Hfiles Hfinal.
  destruct (H6 Ho) as (P1 & P2 & P3 & P4 & P5 & P6 & P7). cbv zeta in *.
  unfold openFile in P7. rewrite Hst, Hp, app_nil_r in P7.
  destruct P7 as (header & body & Hfile & Hhl & _ & Hbody & Hds & Hpl).
  split; try done.
  - rewrite H1, Hp, Hp', map_app, concat_app. cbn. by rewrite !app_nil_r.
  - rewrite HB, map_app, concat_app. cbn. by rewrite !app_nil_r.
  - apply Forall_app. split.
    + apply Forall_forall. intros x Hx. rewrite Forall_forall in H2, Hi, P6.
      apply (sealedFile_same files); [|by apply H2]. rewrite (Hi _ Hx). apply Hfiles.
      specialize (P6 _ Hx). lia.
    + apply Forall_singleton. exists (sg_header g), batches, body. cbn [sl_rows sl_shard sl_number].
      split_and!; try done; [by apply describes_header| |by rewrite <- P4]. rewrite <- P2, Hfinal, Hfile.
      destruct (sealHeader_of _ _ _ (describes_header _ _ _ Hds)) as [Hsh _].
      pose proof (obj_length _ _ (ho_fits _ _ _ Hsh)) as Hlen.
      change (sizeof l_BinaryMarketSegmentHeader) with 128%nat in Hlen.
      unfold sealedImage. cbn [default from_option]. unfold id, overwrite. rewrite take_0. cbn [app].
      rewrite Nat.add_0_l, Hlen, <- Hhl, drop_app_length, <- app_assoc. done.
  - apply Forall_app. split; [done|]. by apply Forall_singleton.
  - by apply StronglySorted_snoc.
  - by rewrite Ho'.
Qed.

(** The files of a shard whose segment was closed but could not be put in its place. *)
Lemma shardHolds_closed files files' epoch next i g rows blocks sealed batches opened position header :
  (forall number, files' (SegmentFile i number Sealed) = files (SegmentFile i number Sealed)) ->
  Forall (fun x => sl_shard x = i) sealed -> sg_open g = true -> sg_stream g = Streaming position ->
  header = sg_header g \/ header = sealHeader (sg_header g) ->
  files' (sg_partialPath g) =
    Some (overwrite 0 (obj l_BinaryMarketSegmentHeader (sealHeader (sg_header g)))
            (default [] (files (sg_partialPath g))) ++
          obj l_BinaryMarketSegmentFooter (sealFooter (sealHeader (sg_header g)))) ->
  sg_pending g = [] ->
  shardHolds files epoch next i g rows blocks sealed batches opened ->
  shardHolds files' epoch next i (g <| sg_header := header |> <| sg_stream := Closed |>) rows blocks sealed
    batches opened.
Proof.
  intros Hf Hi Ho Hst Hhd Hfile Hpe [H1 HB H2 H3 H4 H5 H6]. split; try done.
  - apply Forall_forall. intros x Hx. rewrite Forall_forall in H2, Hi.
    apply (sealedFile_same files); [|by apply H2]. rewrite (Hi _ Hx). apply Hf.
  - intros _. destruct (H6 Ho) as (P1 & P2 & P3 & P4 & P5 & P6 & P7). cbv zeta in *.
    assert (sh_segmentNumber header = sh_segmentNumber (sg_header g) /\ sh_shardIndex header = sh_shardIndex (sg_header g) /\
      sh_producerEpoch header = sh_producerEpoch (sg_header g)) as (N1 & N2 & N3)
      by (destruct Hhd as [-> | ->]; split_and!; reflexivity).
    wfields. rewrite N1, N2, N3. split_and!; try done. unfold openFile in P7. rewrite Hst, Hpe, app_nil_r in P7.
    destruct P7 as (first & body & Q1 & Q2 & _ & _ & Q5 & Q6). unfold openFile. wfields. rewrite N1, N2.
    destruct (sealHeader_of _ _ _ (describes_header _ _ _ Q5)) as [Hsh _].
    pose proof (obj_length _ _ (ho_fits _ _ _ Hsh)) as Hlen.
    change (sizeof l_BinaryMarketSegmentHeader) with 128%nat in Hlen.
    eexists _, body, _. split_and!; [|exact Hlen|exact Q6].
    rewrite Hfile, Q1. cbn [default from_option]. unfold id, overwrite. rewrite take_0. cbn [app].
    rewrite Nat.add_0_l, Hlen, <- Q2, drop_app_length, <- app_assoc. reflexivity.
Qed.

Lemma seal_stored a c o log sealed shard s g ok s' g' :
  (shard < length (wr_segments s))%nat -> 0 <= a -> 0 <= c -> sg_open g = true ->
  winv a c o (putSegment shard g s) -> stored log sealed (putSegment shard g s) ->
  sealOpen s g = (ok, (s', g')) -> exists sealed', stored log sealed' (putSegment shard g' s').
Proof.
  intros Hl Ha Hc Hopen Hinv Hst E. pose proof E as Hr%sealOpen_shape.
  assert (exists ok1 s1 g1, flushBlock s g = (ok1, (s1, g1))) as (ok1 & s1 & g1 & E1)
    by (destruct (flushBlock s g) as [? [? ?]]; eauto).
  destruct (flush_stored _ _ _ _ _ _ _ _ _ _ _ Hl Ha Hc Hinv Hst E1) as (Hst1 & _ & _).
  apply flushBlock_shape in E1 as Hf1. destruct (flush_open _ _ _ _ _ Hf1) as [Ho1 Hseg1].
  rewrite Hopen in Ho1.
  assert (shard < length (wr_segments s1))%nat as Hl1 by (by rewrite Hseg1).
  pose proof (flush_inv _ _ _ _ _ _ _ _ _ Hl Ha Hc Hinv Hf1) as Hinv1.
  destruct ok1.
  2: { unfold sealOpen in E. rewrite E1 in E. cbn in E. injection E as <- <- <-. by exists sealed. }
  destruct (st_holds _ _ _ Hst1 shard g1 (put_lookup _ _ _ Hl1)) as (batches & opened & Hh).
  destruct (hs_open _ _ _ _ _ _ _ _ _ _ Hh Ho1) as (P1 & P2 & P3 & P4 & P5 & P6 & P7). cbv zeta in *.
  assert (sg_partialPath g1 <> sg_finalPath g1) as Hne by (rewrite P1, P2; done).
  destruct (sealOpen_files _ _ _ _ _ _ _ E1 Hne E) as (F & X & W).
  assert (sameOthers (Z.of_nat shard) (w_files (wr_disk s1)) (w_files (wr_disk s'))) as Hothers.
  { intros j number suffix Hj. apply F; rewrite ?P1, ?P2; unfold segmentPath; congruence. }
  destruct ok.
  - destruct (W eq_refl) as (position & Hstream & Hfinal).
    assert (exists disk,
      s' = s1 <| wr_disk := disk |>
              <| wr_manifest ::= fun m => m <| mf_segmentCount ::= fun n => u32 (n + 1) |> |> /\
      g' = g1 <| sg_header ::= sealHeader |> <| sg_stream := Closed |>
              <| sg_open := false |> <| sg_indexPositions := ∅ |>) as (disk & Hs' & Hg').
    { inversion Hr as [|s2 g2 disk E1']; subst. rewrite E1 in E1'. injection E1' as -> ->. by exists disk. }
    set (x := MkSealedSegment (Z.of_nat shard) (sh_segmentNumber (sg_header g1)) (concat batches) opened).
    exists (sealed ++ [x]). rewrite <- (app_nil_r log).
    assert (sg_pending g1 = []) as Hp1 by (by eapply flush_ok_empty).
    apply (stored_put log sealed [] [x] shard g1 g' s1 s' [] []); try done.
    all: try (subst s'; done).
    + by apply Forall_singleton.
    + rewrite app_nil_r. subst x.
      replace (wr_nextSegmentNumber s') with (wr_nextSegmentNumber s1) by (by subst s').
      replace (wr_blocks s') with (wr_blocks s1) by (by subst s').
      apply (seal_holds (w_files (wr_disk s1)) _ _ _ _ g1 _ _ _ batches opened position); try done;
        [apply sealedOf_shard|by subst g'|by subst g'|].
      intros number Hnum. apply F; rewrite ?P1, ?P2; unfold segmentPath; congruence.
    + rewrite app_nil_r. replace (wr_sources s') with (wr_sources s1) by (by subst s').
      destruct (st_ordered _ _ _ Hst1 shard g1 (put_lookup _ _ _ Hl1)) as (O1 & O2 & O3).
      split; [done|]. by subst g'.
    + pose proof (ct_segments _ _ (wi_counts _ _ _ _ Hinv1)) as [C1 C2].
      pose proof (bd_next _ _ _ (wi_budget _ _ _ _ Hinv1)) as C3.
      pose proof (sumZ_nonneg _ _ (opens_nonneg (wr_segments (putSegment shard g1 s1)))) as C4.
      unfold opensOf in C2. wfields. subst s'. wfields. rewrite u32_id; [done|]. mlia.
    + replace (wr_index s') with (wr_index s1) by (by subst s').
      eapply indexed_put; [done| |apply (st_index _ _ _ Hst1)]. intros _. right. exists x.
      split_and!; try done. by apply list_elem_of_singleton.
  - exists sealed. destruct (X eq_refl) as (Xf & Xs).
    assert (exists disk header stream, s' = s1 <| wr_disk := disk |> /\
      g' = g1 <| sg_header := header |> <| sg_stream := stream |> /\
      (header = sg_header g1 \/ header = sealHeader (sg_header g1))) as (disk & header & stream & -> & -> & Hhd).
    { inversion Hr as [ok2 s2 g2 disk header stream E1' Hhd|]; subst. rewrite E1 in E1'.
      injection E1' as _ -> ->. eauto 10. }
    eapply (stored_replace log sealed shard g1 _ s1); try done; [by destruct Hhd as [-> | ->]|].
    assert (forall number, w_files (wr_disk (s1 <| wr_disk := disk |>)) (SegmentFile (Z.of_nat shard) number Sealed) =
      w_files (wr_disk s1) (SegmentFile (Z.of_nat shard) number Sealed)) as Hsealed.
    { intros number. destruct (decide (number = sh_segmentNumber (sg_header g1))) as [->|Hnum].
      - rewrite P2 in Xf. exact Xf.
      - apply F; rewrite ?P1, ?P2; unfold segmentPath; congruence. }
    destruct Xs as [Xs|(Xs & position & Hstream & Hfile)].
    + apply (shardHolds_broken (w_files (wr_disk s1)) _ _ _ _ g1); try done; [apply sealedOf_shard| |];
        destruct Hhd as [-> | ->]; split; auto.
    + cbn [sg_stream upd] in Xs. subst stream.
      eapply (shardHolds_closed (w_files (wr_disk s1)) _ _ _ _ g1); try done; [apply sealedOf_shard|by eapply flush_ok_empty].
Qed.

(** ** Frames *)

(** What [stored] reads of a state did not change, except that sources were added. *)
Lemma stored_frame log sealed s s' :
  stored log sealed s -> wr_segments s' = wr_segments s -> wr_config s' = wr_config s ->
  size (wr_sources s) <= size (wr_sources s') ->
  wr_nextSegmentNumber s' = wr_nextSegmentNumber s -> wr_index s' = wr_index s ->
  mf_segmentCount (wr_manifest s') = mf_segmentCount (wr_manifest s) -> wr_blocks s' = wr_blocks s ->
  (forall i number suffix, w_files (wr_disk s') (SegmentFile i number suffix) =
     w_files (wr_disk s) (SegmentFile i number suffix)) ->
  stored log sealed s'.
Proof.
  intros [H1 H2 H3 H4 H5 H6] Hs Hc Hsrc Hn Hx Hcount Hb Hf.
  split; rewrite ?Hs, ?Hc, ?Hn, ?Hx, ?Hcount, ?Hb; try done.
  - intros i g Hg. destruct (H1 _ _ Hg) as (batches & opened & Hh). exists batches, opened.
    eapply shardHolds_same; [|done|apply sealedOf_shard|exact Hh]. intros. apply Hf.
  - intros i g Hg. eapply ordered_sources; [exact Hsrc|by apply H2].
Qed.

(** ** Opening *)

Lemma opened_describes shardIndex stream s g :
  in_u64 (cf_producerEpoch (wr_config s)) -> in_u32 (wr_nextSegmentNumber s) -> in_u16 shardIndex ->
  describes (sg_header (openedSegment shardIndex stream s g)) [] [] [].
Proof.
  intros H1 H2 H3. unfold openedSegment. wfields. split; wfields;
    [|done|done|done|done|change (0 <= u64_max - 128 - 64); mlia|done|done|done].
  unfold segmentHeader0. cbn -[replicate]. unfold fits_unsigned. unfold kBinaryMarketSegmentMagic.
  split_and!; try done; try mlia; apply bytes_okb; reflexivity.
Qed.

Lemma open_stored a c o log sealed shardIndex s g ok s' :
  0 <= shardIndex -> wr_segments s !! Z.to_nat shardIndex = Some g -> sg_open g = false ->
  winv a c o s -> stored log sealed s -> openSegment shardIndex s = (ok, s') ->
  stored log sealed s'.
Proof.
  intros Hsh Hg Ho Hinv Hst.
  assert (Z.to_nat shardIndex < length (wr_segments s))%nat as Hl by (by eapply lookup_lt_Some).
  assert (stored log sealed (putSegment (Z.to_nat shardIndex) g s)) as Hst' by (by rewrite put_same).
  destruct (st_holds _ _ _ Hst _ _ Hg) as (batches & opened & [H1 HB H2 H3 H4 H5 H6]). rewrite Z2Nat.id in * by done.
  destruct (H5 Ho) as (-> & Hp & ->). rewrite Hp in H1.
  pose proof (bd_next _ _ _ (wi_budget _ _ _ _ Hinv)) as Hnext.
  unfold openSegment. rewrite Hg, Ho.
  destruct (Z.eqb_spec (wr_nextSegmentNumber s) u32_max) as [|Hn]; [by intros [= <- <-]|].
  (* a segment that stays closed *)
  assert (forall fresh t, sg_open fresh = false -> sg_pending fresh = [] ->
    sg_previousShardSequence fresh = sg_previousShardSequence g ->
    sg_previousMonotonicNs fresh = sg_previousMonotonicNs g ->
    wr_segments t = wr_segments s -> wr_config t = wr_config s -> wr_sources t = wr_sources s ->
    wr_nextSegmentNumber s <= wr_nextSegmentNumber t -> wr_index t = wr_index s ->
    wr_manifest t = wr_manifest s -> wr_blocks t = wr_blocks s ->
    (forall path, path <> segmentPath shardIndex (wr_nextSegmentNumber s) Partial ->
       w_files (wr_disk t) path = w_files (wr_disk s) path) ->
    stored log sealed (putSegment (Z.to_nat shardIndex) fresh t)) as Hclosed.
  { intros fresh t F1 F2 F3 F4 T1 T2 T3 T4 T5 T6 TB T7.
    apply (stored_replace log sealed (Z.to_nat shardIndex) g fresh s t [] []); try done; rewrite ?Z2Nat.id, ?TB by done; try done.
    - by rewrite T6.
    - intros j number suffix Hj. apply T7. unfold segmentPath. congruence.
    - by rewrite Ho.
    - split; try done.
      + by rewrite F2.
      + apply Forall_forall. intros x Hx. rewrite Forall_forall in H2.
        apply (sealedFile_same (w_files (wr_disk s))); [by apply T7|by apply H2].
      + eapply Forall_impl; [exact H3|]. cbn. lia.
      + by rewrite F1. }
  destruct workspacePrepare; cbn [negb].
  2: { intros [= <- <-]. by apply Hclosed. }
  assert (u32 (wr_nextSegmentNumber s + 1) = wr_nextSegmentNumber s + 1) as Eu by (apply u32_id; mlia).
  rewrite Eu. intros Hrun.
  destruct (onDisk _ _) as [ok1 s1] eqn:E1 in Hrun. apply onDisk_shape in E1 as (d1 & E1 & ->).
  apply openTruncated_spec in E1 as (F1 & W1). wfields.
  destruct ok1; cbn [negb] in Hrun.
  2: { injection Hrun as <- <-. apply Hclosed; wfields; try done. lia. }
  specialize (W1 eq_refl).
  match type of Hrun with context [obj l_BinaryMarketSegmentHeader ?h] =>
    change h with (sg_header (openedSegment shardIndex (Streaming 0) s g)) in Hrun end.
  pose proof (opened_describes shardIndex (Streaming 0) s g) as Hds.
  specialize (Hds (proj1 (cf_epoch _ (wi_config _ _ _ _ Hinv)))).
  specialize (Hds ltac:(mlia)).
  assert (in_u16 shardIndex) as Hsi.
  { pose proof (ct_shards _ _ (wi_counts _ _ _ _ Hinv)). pose proof (cf_shards _ (wi_config _ _ _ _ Hinv)).
    unfold size, kBinaryMarketMaximumShards in *. mlia. }
  specialize (Hds Hsi).
  pose proof (obj_length _ _ (ds_fits _ _ _ _ Hds)) as Hlen.
  change (sizeof l_BinaryMarketSegmentHeader) with 128%nat in Hlen.
  revert Hrun. generalize dependent (obj l_BinaryMarketSegmentHeader
    (sg_header (openedSegment shardIndex (Streaming 0) s g))). intros header Hlen.
  destruct (writeSegment _ _ _) as [ok2 [s2 g2]] eqn:E2.
  pose proof (writeSegment_shape _ _ _ _ _ _ E2) as (d2 & t2 & Hs2 & Hg2).
  apply writeSegment_files in E2 as (F2 & W2 & X2).
  match type of F2 with context [sg_partialPath ?x] =>
    change (sg_partialPath x) with (segmentPath shardIndex (wr_nextSegmentNumber s) Partial) in F2, W2 end.
  cbn [wr_disk upd] in F2, W2.
  assert (forall path, path <> segmentPath shardIndex (wr_nextSegmentNumber s) Partial ->
    w_files (wr_disk s2) path = w_files (wr_disk s) path) as F by (intros; by rewrite F2, F1).
  destruct ok2; cbn [negb]; intros [= <- <-].
  2: { rewrite Hg2, Hs2 in *. apply Hclosed; wfields; try done. lia. }
  destruct (W2 eq_refl) as (position & S2 & T2 & C2).
  match type of S2 with sg_stream ?x = _ => change (sg_stream x) with (Streaming 0) in S2 end.
  assert (position = 0%nat) as -> by congruence.
  assert (w_files (wr_disk s2) (segmentPath shardIndex (wr_nextSegmentNumber s) Partial) = Some header) as Hfile.
  { rewrite C2, W1. cbn [default from_option]. unfold id, overwrite. rewrite take_nil, drop_nil, app_nil_r. done. }
  rewrite Hg2 in T2. cbn in T2. rewrite Hg2, Hs2. subst t2.
  assert (w_files d2 = w_files (wr_disk s2)) as Hd2 by (by rewrite Hs2). rewrite <- Hd2 in *. clear Hs2 Hg2 Hd2.
  eapply (stored_replace log sealed (Z.to_nat shardIndex) g _ s _ [] []); wfields; try done; rewrite ?Z2Nat.id by done.
  - lia.
  - intros j number suffix Hj. apply F. unfold segmentPath. congruence.
  - by rewrite Ho.
  - split; wfields; try done.
    + apply Forall_forall. intros x Hx. rewrite Forall_forall in H2.
      apply (sealedFile_same (w_files (wr_disk s))); [by apply F|by apply H2].
    + eapply Forall_impl; [exact H3|]. cbn. lia.
    + intros _. cbv zeta. split_and!; try done.
      { change (wr_nextSegmentNumber s < wr_nextSegmentNumber s + 1). lia. }
      exists header, []. rewrite app_nil_r. wfields. split_and!; try done; constructor.
Qed.

(** ** Storing a record *)

Lemma header_store_fits record h :
  fits l_BinaryMarketRecord record -> fits l_BinaryMarketSegmentHeader h ->
  in_u32 (crc32cUpdate (sh_recordsCrc32c h) (obj l_BinaryMarketRecord record)) ->
  fits l_BinaryMarketSegmentHeader (h
    <| sh_recordsCrc32c ::= fun crc => crc32cUpdate crc (obj l_BinaryMarketRecord record) |>
    <| sh_recordCount ::= fun n => u64 (n + 1) |>
    <| sh_firstReceiveNs ::= fun first => earliest first (h_receiveRealtimeNs (rec_header record)) |>
    <| sh_lastReceiveNs ::= fun last => latest last (h_receiveRealtimeNs (rec_header record)) |>).
Proof.
  intros (_ & _ & _ & Hr & _)%record_bounds Hf Hcrc.
  destruct (header_bounds _ Hf) as (_ & _ & _ & _ & _ & Hfirst & Hlast).
  pose proof (u64_range (sh_recordCount h + 1)) as Hn.
  assert (in_i64 (earliest (sh_firstReceiveNs h) (h_receiveRealtimeNs (rec_header record))) /\
    in_i64 (latest (sh_lastReceiveNs h) (h_receiveRealtimeNs (rec_header record)))) as [H1 H2]
    by (unfold earliest, latest; destruct (_ || _), (_ <? _); done).
  revert Hcrc. cbn [upd]. generalize (crc32cUpdate (sh_recordsCrc32c h) (obj l_BinaryMarketRecord record)) as crc.
  intros crc Hcrc. destruct h. cbn in Hf, Hn, H1, H2 |- *. unfold fits_unsigned in *. cbn in Hf |- *.
  intuition (done || mlia).
Qed.

Lemma describes_store record h rows batches body :
  Forall (fits l_BinaryMarketRecord) rows -> fits l_BinaryMarketRecord record -> size rows < u64_max ->
  describes h rows batches body ->
  describes (h
    <| sh_recordsCrc32c ::= fun crc => crc32cUpdate crc (obj l_BinaryMarketRecord record) |>
    <| sh_recordCount ::= fun n => u64 (n + 1) |>
    <| sh_firstReceiveNs ::= fun first => earliest first (h_receiveRealtimeNs (rec_header record)) |>
    <| sh_lastReceiveNs ::= fun last => latest last (h_receiveRealtimeNs (rec_header record)) |>)
    (rows ++ [record]) batches body.
Proof.
  intros Hrows Hf Hn [D1 D2 D3 D4 D5 D6 D7 D8 D9].
  assert (crc32cUpdate (sh_recordsCrc32c h) (obj l_BinaryMarketRecord record) =
    crc32c (objects l_BinaryMarketRecord (rows ++ [record]))) as Hcrc.
  { rewrite D7, objects_app. unfold crc32c. rewrite crc32cUpdate_app. f_equal. f_equal.
    unfold objects. cbn [map concat]. by rewrite app_nil_r. }
  pose proof (header_store_fits record h Hf D1) as Hfit. rewrite Hcrc in Hfit.
  assert (in_u32 (crc32c (objects l_BinaryMarketRecord (rows ++ [record])))) as Hrange.
  { apply crc32c_range, (obj_array_bytes l_BinaryMarketRecord). apply Forall_app. split; [done|].
    by apply Forall_singleton. }
  pose proof (size_nonneg rows).
  split; cbn [upd sh_magic sh_headerBytes sh_pad6 sh_recordBytes sh_segmentNumber sh_producerEpoch
    sh_recordCount sh_firstReceiveNs sh_lastReceiveNs sh_shardIndex sh_reserved16 sh_recordsCrc32c
    sh_headerCrc32c sh_pad60 sh_storedBlockBytes sh_blockCount sh_codecId sh_reserved]; try assumption.
  - exact (Hfit Hrange).
  - rewrite D3, size_app, size_one. apply u64_id. mlia.
  - rewrite D8. unfold firstReceive. rewrite fold_left_app. reflexivity.
  - rewrite D9. unfold lastReceive. rewrite fold_left_app. cbn [fold_left]. unfold later, latest.
    destruct (Z.ltb_spec (fold_left (fun last row => Z.max last (h_receiveRealtimeNs (rec_header row))) rows 0)
      (h_receiveRealtimeNs (rec_header record))); unfold later in *; lia.
Qed.

(** A stored record follows the pending rows of its shard. *)
Lemma store_holds files epoch next i g rows blocks sealed batches opened record positions :
  shardHolds files epoch next i g rows blocks sealed batches opened -> sg_open g = true ->
  Forall (fits l_BinaryMarketRecord) rows -> fits l_BinaryMarketRecord record -> size rows < u64_max ->
  shardHolds files epoch next i (storeInSegment record (g <| sg_indexPositions := positions |>))
    (rows ++ [record]) blocks sealed batches opened.
Proof.
  intros [H1 HB H2 H3 H4 H5 H6] Ho Hrows Hf Hn. split; try done.
  - rewrite H1. unfold storeInSegment. wfields. by rewrite <- !app_assoc.
  - unfold storeInSegment. wfields. by rewrite Ho.
  - intros _. destruct (H6 Ho) as (P1 & P2 & P3 & P4 & P5 & P6 & P7). cbv zeta in *.
    split_and!; try done. unfold openFile in *.
    change (sg_stream (storeInSegment record (g <| sg_indexPositions := positions |>))) with (sg_stream g).
    destruct (sg_stream g); [|exact I|exact P7]. destruct P7 as (header & body & Q1 & Q2 & Q3 & Q4 & Q5 & Q6).
    exists header, body. split_and!; try done.
    unfold storeInSegment. cbn [sg_header sg_pending upd]. rewrite app_assoc. apply describes_store; try done.
    + rewrite H1 in Hrows. by apply Forall_app in Hrows as [_ ?].
    + rewrite H1, size_app in Hn. pose proof (size_nonneg (concat (map sl_rows sealed))). lia.
Qed.

Lemma storeInIndex_fits record e :
  fits l_BinaryMarketRecord record -> fits l_BinaryMarketIndexEntry e ->
  fits l_BinaryMarketIndexEntry (storeInIndex (rec_header record) e) /\
  ix_shardIndex (storeInIndex (rec_header record) e) = ix_shardIndex e /\
  ix_segmentNumber (storeInIndex (rec_header record) e) = ix_segmentNumber e.
Proof.
  intros Hf He. pose proof (record_bounds _ Hf) as (_ & _ & _ & Hr & _).
  assert (in_u64 (h_eventSequence (rec_header record))) as Hes.
  { destruct record as [hd pl pd]. destruct Hf as [[Hf _] _]. destruct hd. cbn in *.
    unfold fits_unsigned in Hf. cbn in *. intuition mlia. }
  generalize dependent (rec_header record). intros h Hr Hes.
  split; [|unfold storeInIndex; cbn; by destruct (negb _), (has _ RecordFlag.GapBoundary)].
  assert (forall x, in_i64 x -> in_i64 (earliest x (h_receiveRealtimeNs h)) /\
    in_i64 (latest x (h_receiveRealtimeNs h))) as Ht
    by (intros x Hx; unfold earliest, latest; destruct (_ || _), (_ <? _); done).
  assert (forall x y, in_u32 x -> in_u32 y -> in_u32 (Z.lor x y)) as Hlor.
  { intros x y Hx Hy. assert (0 <= Z.lor x y) by (apply Z.lor_nonneg; mlia).
    split; [done|]. assert (x = x mod 2 ^ 32) as -> by (symmetry; apply Z.mod_small; done).
    assert (y = y mod 2 ^ 32) as -> by (symmetry; apply Z.mod_small; done).
    rewrite <- !Z.land_ones, <- Z.land_lor_distr_l, Z.land_ones by lia. apply Z.mod_pos_bound. lia. }
  destruct e as [e1 e2 e3 e4 e5 e6 e7 e8 e9 e10 e11 e12 e13]. cbn in He. unfold fits_unsigned in He. cbn in He.
  destruct He as ((((((((((((B1 & B2) & B3) & B4) & B5) & B6) & B7) & B8) & B9) & B10) & B11) & B12) & B13).
  destruct (Ht e8 ltac:(mlia)) as [H1 _]. destruct (Ht e9 ltac:(mlia)) as [_ H2].
  pose proof (u64_range (e4 + 1)). pose proof (u64_range (e5 + 1)).
  pose proof (Hlor e10 IndexFlag.HasRecordedOnly ltac:(mlia) ltac:(unfold IndexFlag.HasRecordedOnly; mlia)) as Hl3.
  pose proof (Hlor (Z.lor e10 IndexFlag.HasRecordedOnly) IndexFlag.HasGap Hl3 ltac:(unfold IndexFlag.HasGap; mlia)).
  pose proof (Hlor e10 IndexFlag.HasGap ltac:(mlia) ltac:(unfold IndexFlag.HasGap; mlia)).
  unfold storeInIndex. cbn.
  destruct (negb (has (h_flags h) RecordFlag.TraderReplayCompatible)), (has (h_flags h) RecordFlag.GapBoundary),
    (e6 =? 0); cbn; unfold fits_unsigned; cbn; unfold Compatibility.RecordedOnly; split_and!;
    first [assumption|mlia].
Qed.

Lemma ofShard_size i log : size (ofShard i log) <= size log.
Proof. unfold size, ofShard. pose proof (List.filter_length_le (fun row => h_shardIndex (rec_header row) =? i) log). lia. Qed.

(** The key of a record names its widths. *)
Lemma record_key_bounds record : fits l_BinaryMarketRecord record ->
  in_u32 (h_sourceId (rec_header record)) /\ in_u64 (h_sourceGeneration (rec_header record)) /\
  in_u8 (h_channel (rec_header record)) /\ in_u16 (h_shardIndex (rec_header record)).
Proof.
  intros Hf. destruct record as [hd pl pd]. destruct Hf as [[Hf _] _]. destruct hd. cbn in *.
  unfold fits_unsigned in Hf. cbn in *. intuition mlia.
Qed.

(** The index after [ensureIndex]: rows of the open segment. *)
Lemma ensureIndex_indexed sealed record s g position s1 g1 :
  let h := rec_header record in
  fits l_BinaryMarketRecord record -> in_u32 (sh_segmentNumber (sg_header g)) -> sg_open g = true ->
  wr_segments s !! Z.to_nat (h_shardIndex h) = Some g ->
  Forall (indexed sealed (wr_segments s)) (wr_index s) ->
  ensureIndex (h_sourceId h, h_sourceGeneration h, h_channel h) (h_shardIndex h) s g =
    Some (position, (s1, g1)) ->
  exists entries positions, s1 = s <| wr_index ::= fun index => index ++ entries |> /\
    g1 = g <| sg_indexPositions := positions |> /\
    Forall (indexed sealed (wr_segments s)) (wr_index s ++ entries).
Proof.
  intros h Hf Hn Ho Hg Hall. destruct (record_key_bounds _ Hf) as (K1 & K2 & K3 & K4).
  unfold ensureIndex. destruct (sg_indexPositions g !! _) as [p|].
  - intros [= <- <- <-]. exists [], (sg_indexPositions g). rewrite app_nil_r. split_and!; try done.
    + destruct s. cbn. by rewrite app_nil_r.
    + by destruct g.
  - destruct (_ || _); [done|]. intros [= <- <- <-]. eexists [_], _. split_and!; try done.
    apply Forall_app. split; [done|]. apply Forall_singleton. split.
    + cbn. unfold fits_unsigned. cbn. unfold Compatibility.ExactTraderReplay.
      unfold in_u64, in_u32, in_u16, in_u8 in *. subst h. split_and!; first [assumption|mlia].
    + right. exists g. cbn. by split_and!.
Qed.

Lemma ordered_store sources i g rows record positions :
  fits_segment i sources g record -> ordered sources i g rows ->
  ordered sources i (storeInSegment record (g <| sg_indexPositions := positions |>)) (rows ++ [record]).
Proof.
  intros [F1 F2 F3 F4 F5 F6 _ _ _] (Hc & Hs & Hm). unfold orderRejects in F6. bsplit.
  split; [|by rewrite lastSequence_app, lastMonotonic_app].
  apply chain_app. split; [done|]. rewrite Hs, Hm. split; [|done].
  split_and!; try done.
  - match goal with Hx : negb (sg_previousShardSequence g =? 0) && _ = false |- _ =>
      apply andb_false_iff in Hx as [Hx|Hx] end; bsplit; auto.
  - match goal with Hx : negb (sg_previousMonotonicNs g =? 0) && _ = false |- _ =>
      apply andb_false_iff in Hx as [Hx|Hx] end; bsplit; auto.
Qed.

Lemma commit_stored log sealed record ad s g status s' :
  stored log sealed s -> size log < u64_max ->
  wr_segments s !! Z.to_nat (h_shardIndex (rec_header record)) = Some g ->
  fits_segment (h_shardIndex (rec_header record)) (size (wr_sources s)) g record ->
  in_u32 (sh_segmentNumber (sg_header g)) ->
  commitRecord record ad s = (status, s') ->
  stored (match status with Ok => log ++ [record] | _ => log end) sealed s'.
Proof.
  intros Hst Hn Hg Hfs Hnum. pose proof (fs_fits _ _ _ _ Hfs) as Hf. pose proof (fs_open _ _ _ _ Hfs) as Ho.
  destruct (record_key_bounds _ Hf) as (_ & _ & _ & Hsi).
  assert (Z.to_nat (h_shardIndex (rec_header record)) < length (wr_segments s))%nat as Hl
    by (by eapply lookup_lt_Some).
  assert (Z.of_nat (Z.to_nat (h_shardIndex (rec_header record))) = h_shardIndex (rec_header record)) as Hid
    by (apply Z2Nat.id; mlia).
  unfold commitRecord. rewrite Hg. destruct (ensureIndex _ _ s g) as [[position [s1 g1]]|] eqn:Ex.
  2: { intros [= <- <-]. by destruct (wr_quotaReached s). }
  destruct (ensureIndex_indexed sealed _ _ _ _ _ _ Hf Hnum Ho Hg (st_index _ _ _ Hst) Ex)
    as (entries & positions & -> & -> & Hix).
  intros [= <- <-]. unfold storeRecord. wfields. rewrite <- (app_nil_r sealed).
  destruct (st_holds _ _ _ Hst _ _ Hg) as (batches & opened & Hh). rewrite Hid in Hh.
  pose proof (st_ordered _ _ _ Hst _ _ Hg) as Hord. rewrite Hid in Hord.
  assert (stored log sealed (putSegment (Z.to_nat (h_shardIndex (rec_header record))) g s)) as Hst'
    by (by rewrite put_same).
  destruct (store_counts (rec_header record) (wr_manifest s)) as (S1 & S2 & S3 & S4).
  eapply (stored_put log sealed [record] [] _ g _ s _ batches opened Hl Hst'); wfields; rewrite ?Hid; try done.
  - by apply Forall_singleton.
  - rewrite app_nil_r. apply store_holds; try done.
    + destruct Hord as [Hc _]. by eapply chain_fits.
    + pose proof (ofShard_size (h_shardIndex (rec_header record)) log). lia.
  - by apply ordered_store.
  - rewrite size_nil. lia.
  - assert (Forall (indexed (sealed ++ []) (<[Z.to_nat (h_shardIndex (rec_header record)) :=
      storeInSegment record (g <| sg_indexPositions := positions |>)]> (wr_segments s))) (wr_index s ++ entries)) as Hall.
    { apply (indexed_put sealed [] _ g); [done|by left|]. by rewrite list_insert_id. }
    rewrite Forall_lookup in Hall |- *. intros k e. rewrite list_lookup_alter.
    case_decide as Hk; [subst k|by apply Hall].
    destruct ((wr_index s ++ entries) !! position) as [e0|] eqn:E0; [|done]. intros [= <-].
    destruct (Hall _ _ E0) as [Hf0 He0]. destruct (storeInIndex_fits record e0 Hf Hf0) as (T1 & T2 & T3).
    split; [done|]. by rewrite T2, T3.
Qed.

End storage.
