(* ===== verification/StorageCalls.v ===== *)
(** * StorageCalls: every call keeps the accepted records stored

    The relation [stored] of Storage through the loops over shards, the placement of a
    record, the other operations of Writer and whole runs. *)
From stdpp Require Import base list numbers strings gmap sorting.
From S2P Require Import Prelude Codec Layout Format DepthTransaction SourceState Disk Metadata.
From S2P Require Import BlockCodec Cut Segment Writer WriterShape WriterInv WriterSteps WriterCalls.
From S2P Require Import WriterCuts WriterRun Storage.
Import Crc32c.
Local Open Scope Z_scope.

Section calls.
Context `{CxetMarket} `{Codec : ByteBlockCodec} `{!ByteBlockLaws Codec}.

Definition held (log : list BinaryMarketRecord) (s : WriterState) : Prop :=
  exists sealed, stored log sealed s.

(** A state that differs in the files below the root directory and in fields the relation
    does not read. *)
Lemma held_frame log s s' :
  held log s -> wr_segments s' = wr_segments s -> wr_config s' = wr_config s ->
  size (wr_sources s) <= size (wr_sources s') ->
  wr_nextSegmentNumber s' = wr_nextSegmentNumber s -> wr_index s' = wr_index s ->
  mf_segmentCount (wr_manifest s') = mf_segmentCount (wr_manifest s) -> wr_blocks s' = wr_blocks s ->
  (forall i number suffix, w_files (wr_disk s') (SegmentFile i number suffix) =
     w_files (wr_disk s) (SegmentFile i number suffix)) ->
  held log s'.
Proof. intros [sealed Hst]. intros. exists sealed. by eapply stored_frame. Qed.

(** ** Loops over shards *)

Lemma flushShard_held a c o log shard s ok s' :
  0 <= a -> 0 <= c -> winv a c o s -> held log s -> flushShard shard s = (ok, s') -> held log s'.
Proof.
  intros Ha Hc Hinv [sealed Hst]. unfold flushShard.
  destruct (wr_segments s !! shard) as [g|] eqn:Hg; [|intros [= <- <-]; by exists sealed].
  destruct (sg_open g); cbn [negb]; [|intros [= <- <-]; by exists sealed].
  destruct (flushBlock s g) as [ok1 [s1 g1]] eqn:E. intros [= <- <-]. exists sealed.
  eapply (flush_stored a c o); try done; [by eapply lookup_lt_Some|by rewrite put_same..].
Qed.

Lemma commitShard_held a c o log shard s ok s' :
  0 <= a -> 0 <= c -> winv a c o s -> held log s -> commitShard shard s = (ok, s') -> held log s'.
Proof.
  intros Ha Hc Hinv [sealed Hst]. unfold commitShard.
  destruct (wr_segments s !! shard) as [g|] eqn:Hg; [|intros [= <- <-]; by exists sealed].
  destruct (sg_open g); cbn [negb]; [|intros [= <- <-]; by exists sealed].
  assert (shard < length (wr_segments s))%nat as Hl by (by eapply lookup_lt_Some).
  destruct (flushBlock s g) as [ok1 [s1 g1]] eqn:E.
  assert (stored log sealed (putSegment shard g1 s1)) as Hst1
    by (eapply (flush_stored a c o); try done; by rewrite put_same).
  apply flushBlock_shape in E as Hr. destruct (flush_open _ _ _ _ _ Hr) as [_ Hseg1].
  assert (shard < length (wr_segments s1))%nat as Hl1 by (by rewrite Hseg1).
  destruct ok1; [|intros [= <- <-]; by exists sealed].
  destruct (flushStream s1 g1) as [ok2 [s2 g2]] eqn:E2.
  pose proof (flushStream_shape _ _ _ _ _ E2) as (disk & stream & Hs2 & Hg2).
  apply flushStream_files in E2 as (F2 & X2 & Y2).
  assert (stored log sealed (putSegment shard g2 s2)) as Hst2.
  { destruct (st_holds _ _ _ Hst1 shard g1 (put_lookup _ _ _ Hl1)) as (batches & opened & Hh).
    assert (ok2 = true -> g2 = g1) as Hsame
      by (intros Hok; rewrite (same_stream g1), <- (Y2 Hok), Hg2; done).
    destruct (decide (ok2 = true)) as [Hok|Hok].
    { rewrite (Hsame Hok), Hs2 in *. eapply stored_frame; [exact Hst1|try done..]. cbn in *. by rewrite F2. }
    assert (ok2 = false) as -> by (by destruct ok2). clear Hok Hsame.
    rewrite Hg2 in *. rewrite Hs2 in *. cbn [wr_disk upd] in F2.
    apply (stored_replace log sealed shard g1 _ s1 _ batches opened); try done.
    - intros j number suffix _. cbn [wr_disk upd]. by rewrite F2.
    - cbn [wr_disk upd wr_nextSegmentNumber]. rewrite F2.
      apply (shardHolds_broken (w_files (wr_disk s1)) _ _ _ _ g1); try done.
      + apply sealedOf_shard.
      + split; auto.
      + by apply X2. }
  destruct ok2; cbn [negb]; [|intros [= <- <-]; by exists sealed].
  intros E3. apply onDisk_shape in E3 as (disk3 & E3 & ->). apply syncFile_files in E3.
  eapply held_frame; [by exists sealed|try done..]. cbn [wr_disk upd]. by rewrite E3.
Qed.

Lemma forShards_held (f : nat -> WriterState -> bool * WriterState) a c o log :
  (forall shard s ok s', winv a c o s -> held log s -> f shard s = (ok, s') ->
     winv a c o s' /\ held log s') ->
  forall shards s ok s', winv a c o s -> held log s -> forShards f shards s = (ok, s') -> held log s'.
Proof.
  intros Hf. induction shards as [|shard shards IH]; intros s ok s' Hinv Hh; cbn; [by intros [= <- <-]|].
  destruct (f shard s) as [ok1 s1] eqn:E. destruct (Hf _ _ _ _ Hinv Hh E) as [Hinv1 Hh1].
  destruct ok1; [|by intros [= <- <-]]. by apply IH.
Qed.

Lemma makeRoom_held a c o log required s ok s' :
  0 <= a -> 0 <= c -> winv a c o s -> held log s -> makeRoom required s = (ok, s') -> held log s'.
Proof.
  intros Ha Hc Hinv Hh. unfold makeRoom. destruct (negb _); [|by intros [= <- <-]].
  apply (forShards_held flushShard a c o log); [|done..]. intros shard t ok1 t' I1 H1 E. split.
  - by apply (flushShard_inv a c o) in E as [? _].
  - by eapply (flushShard_held a c o).
Qed.

Lemma sealSegment_held a c o log shard s ok s' :
  0 <= a -> 0 <= c -> winv a c o s -> held log s -> sealSegment shard s = (ok, s') -> held log s'.
Proof.
  intros Ha Hc Hinv [sealed Hst]. unfold sealSegment.
  destruct (wr_segments s !! shard) as [g|] eqn:Hg; [|intros [= <- <-]; by exists sealed].
  destruct (sg_open g) eqn:Ho; cbn [negb]; [|intros [= <- <-]; by exists sealed].
  destruct (sealOpen s g) as [ok1 [s1 g1]] eqn:E. intros [= <- <-].
  eapply (seal_stored a c o _ sealed); try done; [by eapply lookup_lt_Some|by rewrite put_same..].
Qed.

Lemma reserve_held log bytes s ok s' : held log s -> reserveBytes bytes s = (ok, s') -> held log s'.
Proof. intros Hh. unfold reserveBytes. on_if E; intros [= <- <-]; by eapply held_frame; [exact Hh|..]. Qed.

(** ** Placing a record *)

Lemma placeRecord_held log record ad g s status s' :
  winv 0 0 0 s -> held log s -> size log < u64_max ->
  wr_segments s !! Z.to_nat (h_shardIndex (rec_header record)) = Some g ->
  placeable record ad s -> takes record g -> placeRecord record ad g s = (status, s') ->
  held (match status with Ok => log ++ [record] | _ => log end) s'.
Proof.
  intros Hinv Hh Hlog Hg Hpl Htk. unfold placeRecord.
  set (rotate := mustRotate _ g). set (openNeeded := negb (sg_open g) || rotate).
  set (key := (_, _, _)). set (indexNeeded := openNeeded || _).
  destruct (requiredBytes _ _ _ _) as [[required cutGrowth]|] eqn:Er; [|by intros [= <- <-]].
  destruct (winv_totals _ _ _ _ Hinv ltac:(lia) ltac:(lia)) as (_ & _ & Tc & Tp & _).
  pose proof PR_bounds as HPR.
  apply requiredBytes_spec in Er as (Ec & Er & Hcut); [|mlia].
  set (n := Z.b2z (bool_decide (ad_addedSource ad <> None))) in *.
  pose proof (b2z_bounds (bool_decide (ad_addedSource ad <> None))) as Hn. fold n in Hn.
  pose proof (b2z_bounds openNeeded) as Ho. pose proof (b2z_bounds indexNeeded) as Hx.
  destruct (makeRoom required s) as [ok s1] eqn:E1. cbn iota beta.
  destruct (makeRoom_inv 0 0 0 _ _ _ _ ltac:(lia) ltac:(lia) Hinv E1) as [I1 F1].
  assert (held log s1) as H1 by (by apply (makeRoom_held 0 0 0 log required s ok)).
  destruct ok; cbn [negb]; [|by intros [= <- <-]].
  destruct (fr_segments _ _ F1 _ _ Hg) as (g1 & Hg1 & Kg).
  destruct (reserveBytes required s1) as [ok s2] eqn:E2. cbn iota beta.
  destruct (reserve_inv 0 0 0 required s1 ok s2 ltac:(lia) ltac:(lia) ltac:(lia) I1 E2) as (I2 & _ & _).
  destruct (reserve_keeps _ _ _ _ E2) as (K2 & Hc2 & Hs2).
  pose proof (reserve_held _ _ _ _ _ H1 E2) as H2.
  destruct ok; cbn [negb]; [specialize (I2 eq_refl)|by intros [= <- <-]].
  set (s3 := s2 <| wr_cutReservedBytes ::= _ |>).
  assert (winv (required - cutGrowth) (0 + cutGrowth) 0 s3) as I3.
  { apply cut_growth_inv; try lia; [|rewrite Hc2, (fr_cut _ _ F1); lia].
    eapply winv_weaken; [| | |exact I2]; lia. }
  assert (held log s3) as H3 by (eapply held_frame; by try exact H2).
  assert (keeps s s3) as K3
    by (apply (keeps_trans _ s2); [by eapply keeps_trans; [apply framed_keeps|]|done]).
  assert (wr_segments s3 !! Z.to_nat (h_shardIndex (rec_header record)) = Some g1) as Hg3
    by (subst s3; wfields; by rewrite Hs2).
  assert (openNeeded = negb (sg_open g1) || rotate) as Eo
    by (subst openNeeded; by rewrite (kp_open _ _ Kg)).
  assert (0 <= h_shardIndex (rec_header record)) as Hsi by apply Hpl.
  destruct (if rotate then _ else _) as [ok s4] eqn:E4. cbn iota beta.
  assert (held log s4) as H4.
  { destruct rotate; [|by injection E4 as <- <-].
    eapply (sealSegment_held (required - cutGrowth) (0 + cutGrowth) 0); try done; lia. }
  destruct (rotate_inv (required - cutGrowth) (0 + cutGrowth) record s3 g1 rotate ok s4)
    as (I4 & K4 & R4); try done.
  { rewrite <- Eo. lia. } { lia. }
  { intros Hro. rewrite (kp_open _ _ Kg). subst rotate. unfold mustRotate in Hro. by bsplit. }
  { by eapply takes_kept. }
  destruct ok; cbn [negb]; [specialize (R4 eq_refl)|by intros [= <- <-]].
  rewrite <- Eo in R4. destruct (if openNeeded then _ else _) as [ok s5] eqn:E5. cbn iota beta.
  destruct (R4 _ _ eq_refl) as (K5 & I5 & G5).
  assert (held log s5) as H5.
  { destruct openNeeded; [|by injection E5 as <- <-]. destruct H4 as [sealed H4]. exists sealed.
    assert (exists g4, wr_segments s4 !! Z.to_nat (h_shardIndex (rec_header record)) = Some g4) as [g4 Hg4].
    { apply lookup_lt_is_Some. apply lookup_lt_Some in Hg3.
      destruct (wi_counts _ _ _ _ I4), (wi_counts _ _ _ _ I3). unfold size in *.
      rewrite (kc_config _ _ K4) in *. lia. }
    destruct (sg_open g4) eqn:Eo4.
    - unfold openSegment in E5. rewrite Hg4, Eo4 in E5. by injection E5 as <- <-.
    - by eapply (open_stored (required - cutGrowth) (0 + cutGrowth) 0 log sealed (h_shardIndex (rec_header record)) s4 g4). }
  destruct ok; cbn [negb]; [specialize (G5 eq_refl)|by intros [= <- <-]].
  destruct G5 as (g5 & Hg5 & Ho5 & Ht5 & Hx5). cbn [andb] in I5.
  pose proof (keeps_trans _ _ _ K3 K5) as K.
  destruct (addSource_inv (binaryMarketPendingRecordBytes + 72 * Z.b2z indexNeeded) 192 (Z.b2z openNeeded) record ad s5)
    as (I6 & S6 & C6 & R6 & N6).
  { by eapply placeable_keeps. } { lia. } { lia. }
  { eapply winv_weaken; [| | |exact I5]; fold n; lia. }
  assert (held log (addSource ad s5)) as [sealed H6].
  { unfold addSource. destruct (ad_addedSource ad); [|done]. eapply held_frame; [exact H5|try done..].
    cbn [wr_sources upd]. rewrite size_app, size_one. lia. }
  intros Ecm. exists sealed. destruct Ht5 as [Hor Hroom]. destruct Hpl.
  eapply (commit_stored log sealed record ad (addSource ad s5) g5); try done.
  - by rewrite S6.
  - split; try done; destruct Hroom as [->|[? ?]]; cbn; try done. lia.
  - rewrite <- S6 in Hg5. pose proof (wi_segments _ _ _ _ I6 _ _ Hg5) as Hsg.
    destruct (sg_counters _ _ _ _ Hsg Ho5) as (_ & Hnum & _).
    pose proof (bd_next _ _ _ (wi_budget _ _ _ _ I6)). mlia.
Qed.

Lemma appendActive_held log record s status s' :
  fits l_BinaryMarketRecord record -> winv 0 0 0 s -> held log s -> size log < u64_max ->
  appendActive record s = (status, s') ->
  held (match status with Ok => log ++ [record] | _ => log end) s'.
Proof.
  intros Hf Hinv Hh Hlog. unfold appendActive. destruct (admission record s) as [|ad] eqn:Ea;
    [intros [= <- <-]; apply admit_rejects in Ea; by destruct s0|].
  apply admit_placeable in Ea as Hpl; [|done].
  destruct (wr_segments s !! _) as [g|] eqn:Hg; [|by intros [= <- <-]].
  on_if Eor; [by intros [= <- <-]|].
  destruct (mustFlush (rec_header record) g) eqn:Em.
  - destruct (flushBlock s g) as [ok [s1 g1]] eqn:E1. apply flushBlock_shape in E1 as Hr.
    assert (Z.to_nat (h_shardIndex (rec_header record)) < length (wr_segments s))%nat as Hl
      by (by eapply lookup_lt_Some).
    assert (winv 0 0 0 (putSegment (Z.to_nat (h_shardIndex (rec_header record))) g1 s1)) as I1
      by (eapply flush_inv; try done; by rewrite put_same).
    assert (keeps s (putSegment (Z.to_nat (h_shardIndex (rec_header record))) g1 s1)) as K1
      by (destruct (flush_keeps _ _ _ _ _ Hr); by split).
    assert (held log (putSegment (Z.to_nat (h_shardIndex (rec_header record))) g1 s1)) as H1.
    { destruct Hh as [sealed Hst]. exists sealed. eapply (flush_stored 0 0 0); try done; by rewrite put_same. }
    destruct ok; cbn [negb]; [|by intros [= <- <-]].
    intros Hp. eapply placeRecord_held; try done.
    + apply put_lookup. by rewrite (proj2 (flush_open _ _ _ _ _ Hr)).
    + by eapply placeable_keeps.
    + split; [|left; by apply flush_ok_empty in Hr].
      destruct (flush_kept _ _ _ _ _ Hr) as [Hs Hm _ _ _]. unfold orderRejects in *.
      by rewrite Hs, Hm.
  - cbn [negb]. rewrite put_same by done. intros Hp. eapply placeRecord_held; try done.
    eapply unflushed_takes; try done. eapply (wi_segments _ _ _ _ Hinv). exact Hg.
Qed.

(** ** The other calls *)

Lemma registered_frame sources : forall s,
  let s' := fold_left registerSource sources s in
  wr_segments s' = wr_segments s /\ wr_config s' = wr_config s /\
  size (wr_sources s) <= size (wr_sources s') /\
  wr_nextSegmentNumber s' = wr_nextSegmentNumber s /\ wr_index s' = wr_index s /\
  wr_manifest s' = wr_manifest s /\ wr_disk s' = wr_disk s /\ wr_blocks s' = wr_blocks s.
Proof.
  induction sources as [|source sources IH]; intros s; cbn [fold_left]; [by split_and!|].
  specialize (IH (registerSource s source)). cbv zeta in *.
  destruct IH as (I1 & I2 & I3 & I4 & I5 & I6 & I7 & I8).
  rewrite I1, I2, I4, I5, I6, I7, I8. unfold registerSource in *. destruct (_ <=? _); [by split_and!|].
  split_and!; try done. cbn [wr_sources upd] in I3. rewrite size_app in I3.
  etransitivity; [|exact I3]. rewrite size_one. lia.
Qed.

Lemma registerSourcesActive_held log sources s status s' :
  held log s -> registerSourcesActive sources s = (status, s') -> held log s'.
Proof.
  intros Hh. unfold registerSourcesActive. on_if E1; [by intros [= <- <-]|].
  assert (held log (s <| wr_quotaReached := true |>)) as Hq by (by eapply held_frame; [exact Hh|..]).
  destruct (projectSources _ _ _) as [final|]; [|by intros [= <- <-]].
  destruct (addProduct 0 _ kSourceReservationBytes) as [required|]; [|by intros [= <- <-]].
  destruct (addProduct 0 _ (2 * _)) as [growth|]; [|by intros [= <- <-]].
  on_if E2; [by intros [= <- <-]|].
  destruct (reserveBytes required s) as [ok s2] eqn:E3. pose proof (reserve_held _ _ _ _ _ Hh E3) as H2.
  destruct ok; cbn [negb]; [|by intros [= <- <-]]. intros [= <- <-].
  match goal with |- context [fold_left registerSource sources ?t] =>
    destruct (registered_frame sources t) as (I1 & I2 & I3 & I4 & I5 & I6 & I7 & I8) end.
  eapply held_frame; [exact H2|..]; wfields; try done.
  - by rewrite I6.
  - by rewrite I7.
Qed.

Lemma appendGapActive_held log gap s status s' :
  held log s -> appendGapActive gap s = (status, s') -> held log s'.
Proof.
  intros Hh. unfold appendGapActive. on_if E1; [by intros [= <- <-]|].
  destruct (_ !! _); [|by intros [= <- <-]]. on_if E2; [by intros [= <- <-]|].
  destruct (list_find _ _) as [[position existing]|].
  - on_if E3; [by intros [= <- <-]|]. intros [= <- <-]. by eapply held_frame; [exact Hh|..].
  - on_if E3; [by intros [= <- <-]|]. intros [= <- <-]. by eapply held_frame; [exact Hh|..].
Qed.

Lemma updateProgressActive_held log progress s status s' :
  held log s -> updateProgressActive progress s = (status, s') -> held log s'.
Proof.
  intros Hh. unfold updateProgressActive. on_if E1; [by intros [= <- <-]|].
  intros [= <- <-]. by eapply held_frame; [exact Hh|..].
Qed.

Lemma setReferencePayloadActive_held log payload s status s' :
  held log s -> setReferencePayloadActive payload s = (status, s') -> held log s'.
Proof.
  intros Hh. unfold setReferencePayloadActive. on_if E1; [by intros [= <- <-]|].
  assert (held log (s <| wr_quotaReached := true |>)) as Hq by (by eapply held_frame; [exact Hh|..]).
  destruct (addProduct _ _ _) as [required|]; [|by intros [= <- <-]]. on_if E2; [by intros [= <- <-]|].
  destruct (reserveBytes required s) as [ok s2] eqn:E3. pose proof (reserve_held _ _ _ _ _ Hh E3) as H2.
  destruct ok; cbn [negb]; [|by intros [= <- <-]].
  intros [= <- <-]. by eapply held_frame; [exact H2|..].
Qed.

Lemma commitShards_held log s ok s' :
  winv 0 0 0 s -> held log s -> forShards commitShard (allShards s) s = (ok, s') -> held log s'.
Proof.
  apply (forShards_held commitShard 0 0 0 log). intros shard t ok1 t' I1 H1 E. split.
  - by apply (commitShard_inv 0 0 0) in E as [? _].
  - by apply (commitShard_held 0 0 0 log) in E.
Qed.

Lemma publishCutActive_held log now s status s' :
  winv 0 0 0 s -> held log s -> publishCutActive now s = (status, s') -> held log s'.
Proof.
  intros Hinv Hh. unfold publishCutActive. on_if E1; [by intros [= <- <-]|].
  destruct (forShards commitShard (allShards s) s) as [ok s1] eqn:E2.
  pose proof (commitShards_held log _ _ _ Hinv Hh E2) as H1. destruct ok; [|by intros [= <- <-]].
  on_if E3; [by intros [= <- <-]|]. destruct (bindReference _ s1) as [result cut].
  on_if E4; [by intros [= <- <-]|]. destruct (onDisk attempt s1) as [ok s2] eqn:E5.
  apply onDisk_shape in E5 as (disk & E5 & ->). apply attempt_files in E5.
  assert (forall d, (forall i number suffix, w_files d (SegmentFile i number suffix) =
    w_files (wr_disk s1) (SegmentFile i number suffix)) -> held log (s1 <| wr_disk := d |>)) as Hd.
  { intros d Hd. by eapply held_frame; [exact H1|try done..]. }
  destruct ok; [|intros [= <- <-]; apply Hd; intros; by rewrite E5].
  unfold writeCorpusCut. wfields. destruct (replaceFile _ _ _ disk) as [ok disk'] eqn:E6.
  apply replaceFile_atomic in E6 as (Hother & _ & _); [|done].
  assert (held log (s1 <| wr_disk := disk' |>)) as H2 by (apply Hd; intros; by rewrite Hother, E5).
  destruct ok; cbn [isOk negb bool_decide]; intros [= <- <-]; [|exact H2].
  by eapply held_frame; [exact H2|try done..].
Qed.

Lemma writeTables_held log s crcs s' : held log s -> writeTables s = (crcs, s') -> held log s'.
Proof.
  intros Hh. unfold writeTables.
  assert (forall d, (forall i number suffix, w_files d (SegmentFile i number suffix) =
    w_files (wr_disk s) (SegmentFile i number suffix)) -> held log (s <| wr_disk := d |>)) as Hd.
  { intros d Hd. by eapply held_frame; [exact Hh|try done..]. }
  destruct (writeTableAtomic l_BinaryMarketSource _ _ _ _) as [c1 d1] eqn:E1.
  assert (forall i number suffix, w_files d1 (SegmentFile i number suffix) =
    w_files (wr_disk s) (SegmentFile i number suffix)) as F1
    by (intros; by eapply writeTable_other).
  destruct c1; [|intros [= <- <-]; by apply Hd].
  destruct (writeTableAtomic l_BinaryMarketIndexEntry _ _ _ _) as [c2 d2] eqn:E2.
  assert (forall i number suffix, w_files d2 (SegmentFile i number suffix) =
    w_files (wr_disk s) (SegmentFile i number suffix)) as F2
    by (intros; rewrite <- F1; by eapply writeTable_other).
  destruct c2; [|intros [= <- <-]; by apply Hd].
  destruct (writeTableAtomic l_BinaryMarketGap _ _ _ _) as [c3 d3] eqn:E3. intros [= _ <-].
  apply Hd. intros. rewrite <- F2. by eapply writeTable_other.
Qed.

Lemma sealShards_held log s ok s' :
  winv 0 0 0 s -> held log s -> forShards sealSegment (allShards s) s = (ok, s') -> held log s'.
Proof.
  assert (forall shards s ok s', Forall (fun shard => shard < length (wr_segments s))%nat shards ->
    winv 0 0 0 s -> held log s -> forShards sealSegment shards s = (ok, s') -> held log s') as Hall.
  { induction shards as [|shard shards IH]; intros t ok1 t' Hb Hinv Hh; cbn; [by intros [= <- <-]|].
    apply Forall_cons in Hb as [Hl Hb]. destruct (sealSegment shard t) as [ok2 t2] eqn:E.
    destruct (sealShard_inv _ _ _ _ Hinv Hl E) as (I2 & _ & _ & L2 & _).
    assert (held log t2) as H2 
      by exact (sealSegment_held 0 0 0 log shard t ok2 t2 ltac:(lia) ltac:(lia) Hinv Hh E).
    destruct ok2; [|by intros [= <- <-]]. apply IH; try done. by rewrite L2. }
  intros Hinv Hh. apply Hall; try done. apply Forall_forall. intros i Hi. apply elem_of_seq in Hi. lia.
Qed.

(** [finalize] keeps the records stored and, when it succeeds, leaves no segment open. *)
Lemma finalizeActive_held log reason finalized now s status s' :
  winv 0 0 0 s -> held log s -> in_u8 reason -> in_i64 finalized ->
  finalizeActive reason finalized now s = (status, s') ->
  held log s' /\ (status = Ok -> forall g, g ∈ wr_segments s' -> sg_open g = false).
Proof.
  intros Hinv Hh Hr Hf. unfold finalizeActive. on_if E1; [by intros [= <- <-]|].
  assert (0 < finalized) as Hpos by (bsplit; lia).
  on_if E2; [by intros [= <- <-]|].
  destruct (forShards sealSegment (allShards s) s) as [ok s1] eqn:E3. cbn iota beta.
  pose proof (sealShards_held _ _ _ _ Hinv Hh E3) as H1.
  destruct (sealShards_inv (allShards s) s ok s1 Hinv) as (I1 & K1 & L1 & _ & S1); [|done|].
  { apply Forall_forall. intros i Hi. apply elem_of_seq in Hi. lia. }
  destruct ok; [specialize (S1 eq_refl)|by intros [= <- <-]].
  assert (allShards s1 = allShards s) as Ea by (unfold allShards; by rewrite L1).
  rewrite <- Ea in S1. destruct (writeTables s1) as [crcs s2] eqn:E4.
  pose proof (writeTables_held _ _ _ _ H1 E4) as H2.
  destruct (writeTables_spec _ _ _ I1 E4) as ((disk & ->) & Hcrcs).
  destruct crcs as [[[c1 c2] c3]|]; [|by intros [= <- <-]].
  destruct (Hcrcs _ _ _ eq_refl) as (W1 & W2 & W3 & _).
  set (m := finalManifest reason finalized c1 c2 c3 _).
  set (s3 := s1 <| wr_disk := disk |> <| wr_manifest := m |>).
  assert (winv 0 0 0 s3) as I3 by (apply final_inv; try done; by apply winv_disk).
  assert (held log s3) as H3 by (by eapply held_frame; [exact H2|..]).
  destruct (publishCutActive now s3) as [commit s4] eqn:E5.
  pose proof (publishCutActive_held _ _ _ _ _ I3 H3 E5) as H4.
  destruct (publishCutActive_inv _ _ _ _ I3 E5) as (_ & _ & _ & D4).
  on_if Eok; [by intros [= <- <-]; split; [|intros ->]|].
  assert (commit = Ok) as -> by (by destruct commit).
  destruct (D4 eq_refl) as (s3' & payload & Hc & _ & _ & _ & _ & _ & _ & _ & _ & _ & _ & _ & _ & Hseg & _).
  assert (s3' = s3) as ->.
  { assert (forShards commitShard (allShards s3) s3 = (true, s3)) as Hi3 by (apply shut_opens; exact S1).
    congruence. }
  set (m5 := wr_manifest s4 <| mf_projectedBytes := wr_projectedBytes s4 |>).
  change (s4 <| wr_manifest ::= _ |>) with (s4 <| wr_manifest := m5 |>).
  destruct (onDisk _ _) as [ok s5] eqn:E6. apply onDisk_shape in E6 as (d5 & E6 & ->).
  unfold writeManifestAtomic in E6. apply replaceFile_atomic in E6 as (Ho & _ & _); [|done].
  assert (held log (s4 <| wr_manifest := m5 |> <| wr_disk := d5 |>)) as H5.
  { eapply held_frame; [exact H4|try done..]. intros. by apply Ho. }
  destruct ok; intros [= <- <-]; [|done]. split.
  - eapply held_frame; [exact H5|try done..]. intros. by apply removeFile_other.
  - intros _ g. change (g ∈ wr_segments s4 -> sg_open g = false). rewrite Hseg.
    intros [i Hi]%list_elem_of_lookup_1. apply (S1 i); [|exact Hi].
    apply elem_of_seq. apply lookup_lt_Some in Hi. change (wr_segments s3) with (wr_segments s1) in Hi. lia.
Qed.

(** ** Runs *)

Lemma initial_held config b disk :
  0 <= size (cf_sources config) -> held [] (initialState config b disk).
Proof.
  intros Hn. exists []. split; try (by constructor).
  - intros i g [-> _]%lookup_replicate. exists [], []. by split; try constructor.
  - intros i g [-> _]%lookup_replicate. by split_and!.
Qed.

Lemma start_held config root disk writer s disk' :
  start config root disk writer = (Ok, (Some s, disk')) -> held [] s.
Proof.
  unfold start. on_if E1; [done|]. on_if E2; [done|]. on_if E3; [done|].
  destruct (budget config) as [b|] eqn:Eb; [|done].
  destruct (prepareRoot root disk) as [status disk1]. on_if E4; [intros [= ->]; done|].
  pose proof (initial_held config b disk1 (size_nonneg _)) as H0. revert H0.
  generalize (initialState config b disk1). intros s0 H0.
  destruct (onDisk _ s0) as [ok s1] eqn:Ed. apply onDisk_shape in Ed as (d & Ed & ->).
  unfold writeManifestAtomic in Ed. apply replaceFile_atomic in Ed as (Ho & _ & _); [|done].
  on_if E5; [done|]. intros [= <- _]. eapply held_frame; [exact H0|try done..].
  intros. by apply Ho.
Qed.

Lemma perform_held log call s status s' :
  call_ok call -> winv 0 0 0 s -> held log s -> size log < u64_max ->
  perform call (Some s) = (status, Some s') ->
  held (match call, status with Append record, Ok => log ++ [record] | _, _ => log end) s'.
Proof.
  intros Hc Hinv Hh Hn.
  assert (forall f, whenActive f (Some s) = (status, Some s') ->
    (f s = (status, s') \/ (status = InvalidArgument /\ s' = s))) as Hw.
  { intros f. unfold whenActive. destruct (negb _); [intros [= <- <-]; auto|].
    destruct (f s). intros [= <- <-]. auto. }
  destruct call; cbn [perform call_ok] in *; intros [E|[-> ->]]%Hw; try exact Hh.
  - by eapply registerSourcesActive_held.
  - by eapply appendActive_held.
  - by eapply appendGapActive_held.
  - by eapply updateProgressActive_held.
  - by eapply setReferencePayloadActive_held.
  - by eapply publishCutActive_held.
  - injection E as <- <-. by eapply held_frame; [exact Hh|..].
  - destruct Hc as (? & ? & _). by eapply finalizeActive_held.
Qed.

Lemma run_held config s log : writer_run config s log -> held log s.
Proof.
  induction 1 as [root disk disk' writer s Hok Hs | s log call status s' Hr IH Hc Hp].
  - by eapply start_held.
  - destruct (run_inv _ _ _ Hr) as (I & _ & N). eapply perform_held; try done.
    rewrite <- N. pose proof (winv_records _ _ _ _ I). lia.
Qed.

End calls.
