(* ===== verification/Least.v ===== *)
(** * Least: the linear scan for the least head

    Both cursors choose the next record by the same scan over their shards, with
    different heads and orders; its lemmas are proved once here. *)
From stdpp Require Import base list numbers.
From S2P Require Import Prelude.

Section least.
Context {S R : Type} (headOf : S -> option R) (before : R -> R -> bool).

(** A candidate replaces the best one if its head comes strictly before it. *)
Definition pick (best : option (nat * R)) (candidate : nat * S) : option (nat * R) :=
  match headOf candidate.2 with
  | None => best
  | Some head =>
      match best with
      | None => Some (candidate.1, head)
      | Some (_, least) => if before head least then Some (candidate.1, head) else best
      end
  end.
Definition least (shards : list S) : option (nat * R) :=
  fold_left pick (zip (seq 0 (length shards)) shards) None.

Lemma pick_spec shards : forall offset best result,
  fold_left pick (zip (seq offset (length shards)) shards) best = Some result ->
  best = Some result \/
  exists i shard, shards !! i = Some shard /\ result.1 = (offset + i)%nat /\
    headOf shard = Some result.2.
Proof.
  induction shards as [|shard shards IH]; intros offset best result; [by left|].
  cbn [length seq zip zip_with fold_left]. intros [Hb|(i & s & Hs & Hi & Hh)]%IH.
  - unfold pick in Hb. cbn [fst snd] in Hb. destruct (headOf shard) as [head|] eqn:Eh; [|auto].
    assert (Some result = Some (offset, head) \/ best = Some result) as [[= ->]|]; [|right|by left].
    + destruct best as [[j least]|]; [destruct (before head least)|]; auto.
    + exists 0%nat, shard. split; [done|]. cbn. split; [lia|done].
  - right. exists (Datatypes.S i), s. split; [done|]. split; [lia|done].
Qed.

Lemma least_head shards i record :
  least shards = Some (i, record) ->
  exists shard, shards !! i = Some shard /\ headOf shard = Some record.
Proof.
  unfold least. intros [?|(j & shard & Hs & Hi & Hh)]%pick_spec; [done|].
  cbn in Hi. subst. eauto.
Qed.

Context (before_irrefl : forall r, before r r = false)
  (before_trans : forall a b c, before a b = true -> before b c = true -> before a c = true).

Definition notAfter (best : option (nat * R)) (shard : S) : Prop :=
  match headOf shard with
  | None => True
  | Some head => match best with None => False | Some (_, least) => before head least = false end
  end.

Lemma pick_notAfter best candidate shard :
  notAfter best shard -> notAfter (pick best candidate) shard.
Proof.
  unfold notAfter, pick. destruct (headOf shard) as [h|]; [|done].
  destruct best as [[i least]|]; [|done]. intros Hl.
  destruct (headOf candidate.2) as [head|]; [|done].
  destruct (before head least) eqn:E; [|done].
  destruct (before h head) eqn:E2; [|done].
  by rewrite (before_trans _ _ _ E2 E) in Hl.
Qed.

Lemma pick_self best i shard : notAfter (pick best (i, shard)) shard.
Proof.
  unfold notAfter, pick. cbn. destruct (headOf shard) as [h|]; [|done].
  destruct best as [[j least]|]; [|apply before_irrefl].
  destruct (before h least) eqn:E; [apply before_irrefl|done].
Qed.

Lemma fold_notAfter shards : forall offset best,
  (forall shard, notAfter best shard ->
     notAfter (fold_left pick (zip (seq offset (length shards)) shards) best) shard) /\
  Forall (notAfter (fold_left pick (zip (seq offset (length shards)) shards) best)) shards.
Proof.
  induction shards as [|shard shards IH]; intros offset best; [by split|].
  cbn [length seq zip zip_with fold_left].
  destruct (IH (Datatypes.S offset) (pick best (offset, shard))) as [H1 H2]. split.
  - intros s Hs. by apply H1, pick_notAfter.
  - constructor; [apply H1, pick_self|done].
Qed.

Lemma least_notAfter shards j shard :
  shards !! j = Some shard -> notAfter (least shards) shard.
Proof.
  intros Hj. destruct (fold_notAfter shards 0 None) as [_ Hall].
  rewrite Forall_lookup in Hall. by eapply Hall.
Qed.

Lemma least_least shards i record j shard head :
  least shards = Some (i, record) -> shards !! j = Some shard -> headOf shard = Some head ->
  before head record = false.
Proof.
  intros Hs Hj Hh. pose proof (least_notAfter _ _ _ Hj) as Hn. rewrite Hs in Hn.
  unfold notAfter in Hn. by rewrite Hh in Hn.
Qed.

Lemma least_none shards j shard :
  least shards = None -> shards !! j = Some shard -> headOf shard = None.
Proof.
  intros Hs Hj. pose proof (least_notAfter _ _ _ Hj) as Hn. rewrite Hs in Hn.
  unfold notAfter in Hn. by destruct (headOf shard).
Qed.
End least.
