(* ===== verification/Reader.v ===== *)
(** * Reader: the cursor over a sealed corpus

    Models [BinaryMarketCorpusCursor] and [BinaryMarketCorpusReader::select] of
    src/src/Runtime/src/Corpus/BinaryMarketCorpusReader.cpp: the checks of the
    index and gap tables, the physical preflight of every segment, the
    preflight in emission order, and the k-way merge of the shards.

    The files are an argument (the reader never writes).  A shard's [head] is
    meaningful only while [ready] holds; the model keeps both as an option.  The
    diagnostic texts and the output of a failed call are not modelled; of a cursor
    that has failed only [failed] matters. *)
From stdpp Require Import base list numbers strings.
From S2P Require Import Prelude Codec Layout Format DepthTransaction SourceState Disk Metadata.
From S2P Require Import BlockCodec Segment.
Import Crc32c.
Local Open Scope Z_scope.

Record SegmentKey := MkSegmentKey { key_number : Z; key_shard : Z }.
#[export] Instance SegmentKey_eq_dec : EqDecision SegmentKey.
Proof. solve_decision. Defined.

Record IndexIdentity := MkIndexIdentity {
  id_segment : SegmentKey;
  id_sourceId : Z;
  id_sourceGeneration : Z;
  id_channel : Z;
}.
#[export] Instance IndexIdentity_eq_dec : EqDecision IndexIdentity.
Proof. solve_decision. Defined.

Definition fixedText (data : list Z) (bytes : Z) : list Z :=
  if negb (bytes =? 0) && (bytes <=? Z.of_nat (length data))
  then take (Z.to_nat bytes) data else [].

Definition rangesOverlap (first last begin finish : Z) : bool :=
  negb (first =? 0) && (first <=? last) && (begin <=? last) && (first <? finish).

Definition recordBefore (left right : BinaryMarketRecord) : bool :=
  let l := rec_header left in
  let r := rec_header right in
  if negb (h_receiveMonotonicNs l =? h_receiveMonotonicNs r)
  then h_receiveMonotonicNs l <? h_receiveMonotonicNs r
  else if negb (h_shardIndex l =? h_shardIndex r) then h_shardIndex l <? h_shardIndex r
  else if negb (h_shardSequence l =? h_shardSequence r)
  then h_shardSequence l <? h_shardSequence r
  else if negb (h_receiveRealtimeNs l =? h_receiveRealtimeNs r)
  then h_receiveRealtimeNs l <? h_receiveRealtimeNs r
  else if negb (h_frameSequence l =? h_frameSequence r)
  then h_frameSequence l <? h_frameSequence r
  else if negb (h_eventOrdinal l =? h_eventOrdinal r) then h_eventOrdinal l <? h_eventOrdinal r
  else h_eventSequence l <? h_eventSequence r.

(** ** Requests, selections and the cursor's state *)

Record BinaryMarketSelectionRequest := MkRequest {
  rq_root : string;
  rq_exchange : list Z;
  rq_market : list Z;
  rq_canonicalSymbol : list Z;
  rq_beginReceiveNs : Z;
  rq_endReceiveNs : Z;
  rq_channelMask : Z;
  rq_requiredChannelMask : Z;
  rq_requireTraderReplayCompatibility : bool;
  rq_allSources : bool;
  rq_sourceIds : list Z;
}.

Record BinaryMarketSelection := MkSelection {
  se_manifest : BinaryMarketManifest;
  se_source : option BinaryMarketSource;
  se_records : list BinaryMarketRecord;
  se_presentChannelMask : Z;
  se_sourceGeneration : Z;
  se_sourcePresentChannelMasks : list Z;
  se_sourceObservedChannelMasks : list Z;
  se_sourcesAtBegin : list BinaryMarketSource;
  se_sourceLifecycleRevisionsAtBegin : list Z;
  se_sourceUnhealthyChannelMasksAtBegin : list Z;
  se_sourceAdministrativeUnhealthyChannelMasksAtBegin : list Z;
  se_sourceRecoveryPendingChannelMasksAtBegin : list Z;
}.
#[export] Instance BinaryMarketSelection_eta : Eta BinaryMarketSelection := fun r =>
  MkSelection (se_manifest r) (se_source r) (se_records r) (se_presentChannelMask r)
    (se_sourceGeneration r) (se_sourcePresentChannelMasks r) (se_sourceObservedChannelMasks r)
    (se_sourcesAtBegin r) (se_sourceLifecycleRevisionsAtBegin r)
    (se_sourceUnhealthyChannelMasksAtBegin r)
    (se_sourceAdministrativeUnhealthyChannelMasksAtBegin r)
    (se_sourceRecoveryPendingChannelMasksAtBegin r).

Record Shard := MkShard {
  ss_segments : list SegmentKey;
  ss_position : nat;
  ss_decoder : option SegmentDecoder;
  ss_head : option BinaryMarketRecord;
  ss_previousSequence : Z;
  ss_previousMonotonic : Z;
  ss_depthTransaction : BinaryMarketDepthTransactionState;
}.
#[export] Instance Shard_eta : Eta Shard := fun r =>
  MkShard (ss_segments r) (ss_position r) (ss_decoder r) (ss_head r) (ss_previousSequence r)
    (ss_previousMonotonic r) (ss_depthTransaction r).

Record BinaryMarketCorpusCursorState := MkCursorState {
  cs_request : BinaryMarketSelectionRequest;
  cs_manifest : BinaryMarketManifest;
  cs_sources : list BinaryMarketSource;
  cs_sourceStates : list BinaryMarketSourceState;
  cs_shards : list Shard;
  cs_sourceId : Z;
  cs_includedSources : list bool;
  cs_failed : bool;
}.
#[export] Instance BinaryMarketCorpusCursorState_eta : Eta BinaryMarketCorpusCursorState :=
  fun r => MkCursorState (cs_request r) (cs_manifest r) (cs_sources r) (cs_sourceStates r)
    (cs_shards r) (cs_sourceId r) (cs_includedSources r) (cs_failed r).
Abbreviation CursorState := BinaryMarketCorpusCursorState.

Section reader.
Context `{CxetMarket} `{ByteBlockCodec}.
Variable files : Files.

Definition shard0 : Shard := MkShard [] 0 None None 0 0 idle.

(** ** Physical decode of one shard *)

Definition openKey (epoch : Z) (key : SegmentKey) : option SegmentDecoder :=
  decoderOpen (files (segmentPath (key_shard key) (key_number key) Sealed)) (key_number key)
    (key_shard key) epoch.

(** The arrival order of a shard crosses its segments. *)
Definition crossesOrder (h : BinaryMarketRecordHeader) (shard : Shard) : bool :=
  (negb (ss_previousSequence shard =? 0) && (h_shardSequence h <=? ss_previousSequence shard)) ||
  (negb (ss_previousMonotonic shard =? 0) &&
   (h_receiveMonotonicNs h <? ss_previousMonotonic shard)).

(** The loop of [fillHead] with an open decoder; [remaining] are the segments from
    [position] on. *)
Fixpoint fillFrom (epoch sources : Z) (remaining : list SegmentKey) (shard : Shard)
  (decoder : SegmentDecoder) : option Shard :=
  '(row, decoder) ← decoderNext decoder sources;
  match row with
  | Some row =>
      let h := rec_header row in
      if crossesOrder h shard then None
      else Some (shard <| ss_decoder := Some decoder |>
                       <| ss_previousSequence := h_shardSequence h |>
                       <| ss_previousMonotonic := h_receiveMonotonicNs h |>
                       <| ss_head := Some row |>)
  | None =>
      match remaining with
      | [] => Some (shard <| ss_decoder := None |>)
      | key :: remaining =>
          decoder ← openKey epoch key;
          fillFrom epoch sources remaining (shard <| ss_position ::= S |>) decoder
      end
  end.

Definition fillHead (epoch sources : Z) (shard : Shard) : option Shard :=
  let shard := shard <| ss_head := None |> in
  let remaining := drop (ss_position shard) (ss_segments shard) in
  match ss_decoder shard with
  | Some decoder => fillFrom epoch sources remaining shard decoder
  | None =>
      match remaining with
      | [] => Some shard
      | key :: remaining =>
          decoder ← openKey epoch key;
          fillFrom epoch sources remaining (shard <| ss_position ::= S |>) decoder
      end
  end.

(** ** The merge *)

(** The first shard with the least head. *)
Definition better (best : option (nat * BinaryMarketRecord)) (candidate : nat * Shard)
  : option (nat * BinaryMarketRecord) :=
  match ss_head candidate.2 with
  | None => best
  | Some head =>
      match best with
      | None => Some (candidate.1, head)
      | Some (_, least) => if recordBefore head least then Some (candidate.1, head) else best
      end
  end.
Definition selectShard (shards : list Shard) : option (nat * BinaryMarketRecord) :=
  fold_left better (zip (seq 0 (length shards)) shards) None.

(** The record leaves the merge: its depth transaction, its source's state and the
    next head of its shard; [None] is an error of the corpus. *)
Definition mergeAdvance (record : BinaryMarketRecord) (shardIndex : nat) (state : CursorState)
  : option CursorState :=
  let sourceIndex := Z.to_nat (h_sourceId (rec_header record) - 1) in
  shard ← cs_shards state !! shardIndex;
  let '(ok, transaction) :=
    advanceBinaryMarketDepthTransaction record (ss_depthTransaction shard) in
  if negb ok then None
  else
    sourceState ← cs_sourceStates state !! sourceIndex;
    let '(ok, sourceState) := advanceBinaryMarketSourceState record sourceState
      (binaryMarketDepthRecordIsNativeRebaseSnapshot record) in
    if negb ok then None
    else
      shard ← fillHead (mf_producerEpoch (cs_manifest state))
        (Z.of_nat (length (cs_sources state))) (shard <| ss_depthTransaction := transaction |>);
      Some (state <| cs_sourceStates ::= <[sourceIndex := sourceState]> |>
                  <| cs_shards ::= <[shardIndex := shard]> |>).

(** The record is in the requested sources, channels and interval. *)
Definition inSelection (state : CursorState) (record : BinaryMarketRecord) : bool :=
  let h := rec_header record in
  let request := cs_request state in
  negb (negb (nth (Z.to_nat (h_sourceId h)) (cs_includedSources state) false) ||
    (negb (h_channel h =? Channel.SourceLifecycle) &&
     negb (has (rq_channelMask request) (binaryMarketChannelBit (h_channel h)))) ||
    (h_receiveRealtimeNs h <? rq_beginReceiveNs request) ||
    (rq_endReceiveNs request <=? h_receiveRealtimeNs h)).

Definition compatible (record : BinaryMarketRecord) : bool :=
  has (h_flags (rec_header record)) RecordFlag.TraderReplayCompatible.

(** [next] rejects a selected record: capture loss or incompatible data. *)
Definition unusable (state : CursorState) (record : BinaryMarketRecord) : bool :=
  has (h_flags (rec_header record)) RecordFlag.GapBoundary ||
  (rq_requireTraderReplayCompatibility (cs_request state) &&
   negb (binaryMarketRecordIsSourceHealth record) && negb (compatible record)).

(** [BinaryMarketCorpusCursor::next]; [fuel] bounds its skipped records, [None] is
    exhausted fuel. *)
Fixpoint nextLoop (fuel : nat) (state : CursorState)
  : option (Status * option BinaryMarketRecord * CursorState) :=
  match fuel with
  | O => None
  | S fuel =>
      match selectShard (cs_shards state) with
      | None => Some (Ok, None, state)
      | Some (shardIndex, record) =>
          match mergeAdvance record shardIndex state with
          | None => Some (CorruptData, None, state <| cs_failed := true |>)
          | Some state =>
              if negb (inSelection state record) then nextLoop fuel state
              else if unusable state record
              then Some (CorruptData, None, state <| cs_failed := true |>)
              else Some (Ok, Some record, state)
          end
      end
  end.
Definition next (fuel : nat) (cursor : option CursorState)
  : option (Status * option BinaryMarketRecord * option CursorState) :=
  match cursor with
  | None => Some (InvalidArgument, None, None)
  | Some state =>
      if cs_failed state then Some (InvalidArgument, None, Some state)
      else '(status, record, state) ← nextLoop fuel state; Some (status, record, Some state)
  end.

(** ** The checks of [open] on the request and the tables *)

Definition requestInvalid (request : BinaryMarketSelectionRequest) : bool :=
  let empty (text : list Z) := (length text =? 0)%nat in
  bool_decide (rq_root request = ""%string) ||
  (if rq_allSources request
   then negb (empty (rq_exchange request)) || negb (empty (rq_market request)) ||
        negb (empty (rq_canonicalSymbol request))
   else empty (rq_exchange request) || empty (rq_market request) ||
        empty (rq_canonicalSymbol request)) ||
  (negb (rq_allSources request) && negb (empty (rq_sourceIds request))) ||
  (rq_beginReceiveNs request <=? 0) ||
  (rq_endReceiveNs request <=? rq_beginReceiveNs request) ||
  (rq_channelMask request =? 0) || outside (rq_channelMask request) 0x00ff ||
  outside (rq_requiredChannelMask request) (rq_channelMask request).

(** The requested source identifiers, marked in [includedSources]. *)
Fixpoint includeIds (ids : list Z) (sources : Z) (included : list bool) : option (list bool) :=
  match ids with
  | [] => Some included
  | id :: ids =>
      if (id =? 0) || (sources <? id) || nth (Z.to_nat id) included false then None
      else includeIds ids sources (<[Z.to_nat id := true]> included)
  end.

Definition identityMatches (request : BinaryMarketSelectionRequest) (source : BinaryMarketSource)
  : bool :=
  bool_decide (fixedText (src_venue source) (src_venueBytes source) = rq_exchange request) &&
  bool_decide (fixedText (src_market source) (src_marketBytes source) = rq_market request) &&
  bool_decide (fixedText (src_canonicalSymbol source) (src_canonicalSymbolBytes source) =
               rq_canonicalSymbol request).

(** The selected source of a request by identity: unique, or an error. *)
Definition selectSource (request : BinaryMarketSelectionRequest)
  (sources : list BinaryMarketSource) : Status + option BinaryMarketSource :=
  if rq_allSources request then inr None
  else
    match List.filter (identityMatches request) sources with
    | [] => inl OutOfRange
    | [source] => inr (Some source)
    | _ => inl InvalidArgument
    end.

Definition indexEntryInvalid (entry : BinaryMarketIndexEntry) (m : BinaryMarketManifest)
  (sources : Z) : bool :=
  let hasRecordedOnly := has (ix_flags entry) IndexFlag.HasRecordedOnly in
  let hasGap := has (ix_flags entry) IndexFlag.HasGap in
  (ix_segmentNumber entry =? 0) || (mf_segmentCount m <? ix_segmentNumber entry) ||
  (ix_sourceId entry =? 0) || (sources <? ix_sourceId entry) ||
  (ix_sourceGeneration entry =? 0) || (ix_recordCount entry =? 0) ||
  (ix_firstEventSequence entry =? 0) || (ix_lastEventSequence entry =? 0) ||
  (ix_firstReceiveNs entry <=? 0) || (ix_lastReceiveNs entry <? ix_firstReceiveNs entry) ||
  (mf_shardCount m <=? ix_shardIndex entry) ||
  negb (validBinaryMarketRecordChannel (ix_channel entry)) ||
  outside (ix_flags entry) (Z.lor IndexFlag.HasGap IndexFlag.HasRecordedOnly) ||
  negb (Bool.eqb hasGap (negb (ix_gapCount entry =? 0))) ||
  negb (validBinaryMarketCompatibility (ix_compatibility entry)) ||
  (ix_compatibility entry =? Compatibility.Unavailable) ||
  negb (Bool.eqb hasRecordedOnly (ix_compatibility entry =? Compatibility.RecordedOnly)).

(** What the walk over the index collects; the shard of a segment number is
    unknown as [65535]. *)
Record IndexWalk := MkIndexWalk {
  iw_segmentShards : list Z;
  iw_identities : list IndexIdentity;
  iw_segments : list SegmentKey;
  iw_recordCount : Z;
}.
Definition unknownShard : Z := 65535.

Fixpoint walkIndex (index : list BinaryMarketIndexEntry) (m : BinaryMarketManifest)
  (sources : list BinaryMarketSource) (walk : IndexWalk) : option IndexWalk :=
  match index with
  | [] => Some walk
  | entry :: index =>
      if indexEntryInvalid entry m (Z.of_nat (length sources)) then None
      else
        source ← sources !! Z.to_nat (ix_sourceId entry - 1);
        if ix_sourceGeneration entry <? src_initialSourceGeneration source then None
        else
          let key := MkSegmentKey (ix_segmentNumber entry) (ix_shardIndex entry) in
          let number := Z.to_nat (ix_segmentNumber entry) in
          known ← iw_segmentShards walk !! number;
          if negb (known =? unknownShard) && negb (known =? ix_shardIndex entry) then None
          else
            let identity := MkIndexIdentity key (ix_sourceId entry) (ix_sourceGeneration entry)
              (ix_channel entry) in
            if bool_decide (identity ∈ iw_identities walk) ||
               (u64_max - ix_recordCount entry <? iw_recordCount walk) then None
            else walkIndex index m sources (MkIndexWalk
              (<[number := ix_shardIndex entry]> (iw_segmentShards walk))
              (identity :: iw_identities walk)
              (if bool_decide (key ∈ iw_segments walk) then iw_segments walk
               else key :: iw_segments walk)
              (iw_recordCount walk + ix_recordCount entry))
  end.

Definition checkIndex (index : list BinaryMarketIndexEntry) (m : BinaryMarketManifest)
  (sources : list BinaryMarketSource) : option (list Z) :=
  walk ← walkIndex index m sources
    (MkIndexWalk (replicate (Z.to_nat (mf_segmentCount m) + 1) unknownShard) [] [] 0);
  if negb (iw_recordCount walk =? mf_recordCount m) ||
     negb (Z.of_nat (length (iw_segments walk)) =? mf_segmentCount m) then None
  else Some (iw_segmentShards walk).

Definition gapEntryInvalid (gap : BinaryMarketGap) (m : BinaryMarketManifest) (sources : Z) : bool :=
  (gp_sourceId gap =? 0) || (sources <? gp_sourceId gap) || (gp_sourceGeneration gap =? 0) ||
  (gp_gapEpoch gap =? 0) || (gp_droppedRecords gap =? 0) || (gp_observedReceiveNs gap <=? 0) ||
  negb (((0 <? gp_minimumDroppedReceiveNs gap) &&
         (gp_minimumDroppedReceiveNs gap <=? gp_maximumDroppedReceiveNs gap)) ||
        ((gp_minimumDroppedReceiveNs gap =? 0) && (gp_maximumDroppedReceiveNs gap =? 0))) ||
  (gp_firstDroppedEventSequence gap =? 0) || (gp_lastDroppedEventSequence gap =? 0) ||
  negb (gp_gapEpoch gap =? gp_droppedRecords gap) || (mf_shardCount m <=? gp_shardIndex gap) ||
  negb (validBinaryMarketRecordChannel (gp_channel gap)) || negb (gp_reserved32 gap =? 0) ||
  negb (gp_reserved8 gap =? 0).

(** A gap that may have lost records of the selection. *)
Definition gapSelected (request : BinaryMarketSelectionRequest) (included : list bool)
  (gap : BinaryMarketGap) : bool :=
  let unavailable :=
    (gp_minimumDroppedReceiveNs gap =? 0) && (gp_maximumDroppedReceiveNs gap =? 0) in
  (gp_channel gap =? Channel.SourceLifecycle) ||
  (nth (Z.to_nat (gp_sourceId gap)) included false &&
   has (rq_channelMask request) (binaryMarketChannelBit (gp_channel gap)) &&
   (unavailable || rangesOverlap (gp_minimumDroppedReceiveNs gap)
      (gp_maximumDroppedReceiveNs gap) (rq_beginReceiveNs request) (rq_endReceiveNs request))).

(** The selected gaps, or an invalid table. *)
Fixpoint walkGaps (gaps : list BinaryMarketGap) (m : BinaryMarketManifest)
  (sources : list BinaryMarketSource) (request : BinaryMarketSelectionRequest)
  (included : list bool) : option (list BinaryMarketGap) :=
  match gaps with
  | [] => Some []
  | gap :: gaps =>
      if gapEntryInvalid gap m (Z.of_nat (length sources)) then None
      else
        source ← sources !! Z.to_nat (gp_sourceId gap - 1);
        if gp_sourceGeneration gap <? src_initialSourceGeneration source then None
        else
          rest ← walkGaps gaps m sources request included;
          Some (if gapSelected request included gap then gap :: rest else rest)
  end.

(** ** The physical preflight of a segment *)

(** The index entry of a record's source, generation and channel in [observed]. *)
Definition sameLane (h : BinaryMarketRecordHeader) (entry : BinaryMarketIndexEntry) : Prop :=
  ix_sourceId entry = h_sourceId h /\ ix_sourceGeneration entry = h_sourceGeneration h /\
  ix_channel entry = h_channel h.
#[export] Instance sameLane_dec h entry : Decision (sameLane h entry).
Proof. unfold sameLane. apply _. Defined.

(** What a record adds to its observed entry. *)
Definition observeEntry (h : BinaryMarketRecordHeader) (entry : BinaryMarketIndexEntry)
  : BinaryMarketIndexEntry :=
  let entry := entry
    <| ix_recordCount ::= fun n => u64 (n + 1) |>
    <| ix_firstEventSequence ::= fun first => if first =? 0 then h_eventSequence h else first |>
    <| ix_lastEventSequence := h_eventSequence h |>
    <| ix_firstReceiveNs ::= fun first =>
         if (first =? 0) || (h_receiveRealtimeNs h <? first) then h_receiveRealtimeNs h else first |>
    <| ix_lastReceiveNs ::= fun last => Z.max last (h_receiveRealtimeNs h) |> in
  let entry :=
    if negb (has (h_flags h) RecordFlag.TraderReplayCompatible)
    then entry <| ix_flags ::= fun flags => Z.lor flags IndexFlag.HasRecordedOnly |>
               <| ix_compatibility := Compatibility.RecordedOnly |>
    else entry in
  if has (h_flags h) RecordFlag.GapBoundary
  then entry <| ix_flags ::= fun flags => Z.lor flags IndexFlag.HasGap |>
             <| ix_gapCount ::= fun n => u64 (n + 1) |>
  else entry.

Definition observe (key : SegmentKey) (h : BinaryMarketRecordHeader)
  (observed : list BinaryMarketIndexEntry) : list BinaryMarketIndexEntry :=
  match list_find (sameLane h) observed with
  | Some (position, entry) => <[position := observeEntry h entry]> observed
  | None =>
      observed ++ [observeEntry h (MkBinaryMarketIndexEntry (key_number key) (h_sourceId h)
        (h_sourceGeneration h) 0 0 0 0 0 0 0 (key_shard key) (h_channel h)
        Compatibility.ExactTraderReplay)]
  end.

(** The record loop over one segment: the order fences of its shard and the index
    entries its records imply.  The outer [option] is fuel, the inner one an error. *)
Fixpoint observeRows (fuel : nat) (key : SegmentKey) (sources : Z) (decoder : SegmentDecoder)
  (shard : Shard) (observed : list BinaryMarketIndexEntry) (records : Z)
  : option (option (Shard * list BinaryMarketIndexEntry * Z)) :=
  match fuel with
  | O => None
  | S fuel =>
      match decoderNext decoder sources with
      | None => Some None
      | Some (None, _) => Some (Some (shard, observed, records))
      | Some (Some row, decoder) =>
          let h := rec_header row in
          if crossesOrder h shard then Some None
          else observeRows fuel key sources decoder
            (shard <| ss_previousSequence := h_shardSequence h |>
                   <| ss_previousMonotonic := h_receiveMonotonicNs h |>)
            (observe key h observed) (u64 (records + 1))
      end
  end.

(** Calls of [next] that may succeed on a decoder: rows left in the block, and at
    most one block of rows for every byte left in the file. *)
Definition decoderFuel (decoder : SegmentDecoder) : nat :=
  S (length (sd_decoded decoder) - sd_position decoder +
     256 * (length (sd_content decoder) - sd_stream decoder)).

Definition sameIdentity (number : Z) (actual entry : BinaryMarketIndexEntry) : Prop :=
  ix_segmentNumber entry = number /\ ix_sourceId entry = ix_sourceId actual /\
  ix_sourceGeneration entry = ix_sourceGeneration actual /\ ix_channel entry = ix_channel actual.
#[export] Instance sameIdentity_dec number actual entry :
  Decision (sameIdentity number actual entry).
Proof. unfold sameIdentity. apply _. Defined.

Definition entryDisagrees (expected actual : BinaryMarketIndexEntry) : bool :=
  negb (ix_sourceGeneration expected =? ix_sourceGeneration actual) ||
  negb (ix_recordCount expected =? ix_recordCount actual) ||
  negb (ix_gapCount expected =? ix_gapCount actual) ||
  negb (ix_firstEventSequence expected =? ix_firstEventSequence actual) ||
  negb (ix_lastEventSequence expected =? ix_lastEventSequence actual) ||
  negb (ix_firstReceiveNs expected =? ix_firstReceiveNs actual) ||
  negb (ix_lastReceiveNs expected =? ix_lastReceiveNs actual) ||
  negb (ix_flags expected =? ix_flags actual) ||
  negb (ix_compatibility expected =? ix_compatibility actual).

(** The index agrees with what was observed in segment [number]. *)
Definition indexAgrees (number : Z) (index observed : list BinaryMarketIndexEntry) : bool :=
  (length (List.filter (fun e => (ix_segmentNumber e =? number)%Z) index) =? length observed)%nat &&
  forallb (fun actual =>
    match list_find (sameIdentity number actual) index with
    | None => false
    | Some (_, expected) => negb (entryDisagrees expected actual)
    end) observed.

(** One segment: its file, its share of the quota, its records and its index rows. *)
Definition preflightSegment (m : BinaryMarketManifest) (sources : Z)
  (index : list BinaryMarketIndexEntry) (key : SegmentKey)
  (progress : list Shard * Z * Z) : option (option (list Shard * Z * Z)) :=
  let '(shards, physicalBytes, records) := progress in
  match openKey (mf_producerEpoch m) key, shards !! Z.to_nat (key_shard key) with
  | Some decoder, Some shard =>
      let segmentBytes := sizeofz l_BinaryMarketSegmentHeader +
        sh_storedBlockBytes (sd_header decoder) + sizeofz l_BinaryMarketSegmentFooter in
      if (mf_projectedBytes m <? physicalBytes) ||
         (mf_projectedBytes m - physicalBytes <? segmentBytes) then Some None
      else
        match observeRows (decoderFuel decoder) key sources decoder shard [] records with
        | None => None
        | Some None => Some None
        | Some (Some (shard, observed, records)) =>
            if negb (indexAgrees (key_number key) index observed) then Some None
            else Some (Some (<[Z.to_nat (key_shard key) :=
                shard <| ss_segments ::= fun segments => segments ++ [key] |>]> shards,
              physicalBytes + segmentBytes, records))
        end
  | _, _ => Some None
  end.

Fixpoint preflightSegments (m : BinaryMarketManifest) (sources : Z)
  (index : list BinaryMarketIndexEntry) (keys : list SegmentKey)
  (progress : list Shard * Z * Z) : option (option (list Shard * Z * Z)) :=
  match keys with
  | [] => Some (Some progress)
  | key :: keys =>
      match preflightSegment m sources index key progress with
      | Some (Some progress) => preflightSegments m sources index keys progress
      | result => result
      end
  end.

(** ** The preflight in emission order *)

(** Before the interval: the source's effective state is what the interval starts with. *)
Definition beforeBegin (index : nat) (sourceState : BinaryMarketSourceState)
  (output : BinaryMarketSelection) : BinaryMarketSelection :=
  output
    <| se_sourcesAtBegin ::= <[index := effectiveBinaryMarketSource sourceState]> |>
    <| se_sourceLifecycleRevisionsAtBegin ::= <[index := s_directoryRevision sourceState]> |>
    <| se_sourceUnhealthyChannelMasksAtBegin ::= <[index := s_unhealthyMask sourceState]> |>
    <| se_sourceAdministrativeUnhealthyChannelMasksAtBegin ::=
         <[index := s_administrativeUnhealthyMask sourceState]> |>
    <| se_sourceRecoveryPendingChannelMasksAtBegin ::=
         <[index := s_recoveryPendingMask sourceState]> |>.

Definition markChannel (index : nat) (bit : Z) (masks : list Z) : list Z :=
  alter (fun mask => Z.lor mask bit) index masks.

(** A depth record that shows a usable book. *)
Definition readyDepth (record : BinaryMarketRecord) (sourceState : BinaryMarketSourceState) : bool :=
  let h := rec_header record in
  if negb (h_channel h =? Channel.Depth) then true
  else if negb (has (h_flags h) RecordFlag.DepthCoverage) &&
          negb (has (s_unhealthyMask sourceState) (binaryMarketChannelBit (h_channel h)))
  then
    let native := dc_state (depthChunk record) in
    (native =? DepthState.Healthy) || (native =? DepthState.Partial) ||
    binaryMarketDepthRecordIsNativeRebaseSnapshot record
  else false.

(** A selected record: which channels were observed and are present. *)
Definition noteSelected (index : nat) (record : BinaryMarketRecord)
  (sourceState : BinaryMarketSourceState) (output : BinaryMarketSelection)
  : BinaryMarketSelection :=
  let h := rec_header record in
  let health := binaryMarketRecordIsSourceHealth record in
  let output :=
    if h_channel h =? Channel.SourceLifecycle then
      let lifecycle := lifecyclePayload record in
      if negb (lc_cause lifecycle =? TransitionCause.Subscription)
      then output <| se_sourceObservedChannelMasks ::=
             markChannel index (binaryMarketChannelBit (lc_affectedChannel lifecycle)) |>
      else output
    else output in
  let output :=
    if health || compatible record
    then output <| se_sourceObservedChannelMasks ::=
           markChannel index (binaryMarketChannelBit (h_channel h)) |>
    else output in
  if negb health && compatible record && readyDepth record sourceState
  then output <| se_presentChannelMask ::= fun mask =>
                   Z.lor mask (binaryMarketChannelBit (h_channel h)) |>
              <| se_sourcePresentChannelMasks ::=
                   markChannel index (binaryMarketChannelBit (h_channel h)) |>
  else output.

(** The merge loop of [open]: every record in emission order. *)
Fixpoint preflightMerge (fuel : nat) (state : CursorState) (output : BinaryMarketSelection)
  : option (Status + (CursorState * BinaryMarketSelection)) :=
  match fuel with
  | O => None
  | S fuel =>
      match selectShard (cs_shards state) with
      | None => Some (inr (state, output))
      | Some (shardIndex, record) =>
          match mergeAdvance record shardIndex state with
          | None => Some (inl CorruptData)
          | Some state =>
              let h := rec_header record in
              let index := Z.to_nat (h_sourceId h - 1) in
              let request := cs_request state in
              match cs_sourceStates state !! index with
              | None => Some (inl CorruptData)
              | Some sourceState =>
                  let output :=
                    if h_receiveRealtimeNs h <? rq_beginReceiveNs request
                    then beforeBegin index sourceState output else output in
                  if negb (inSelection state record) then preflightMerge fuel state output
                  else if has (h_flags h) RecordFlag.GapBoundary then Some (inl CorruptData)
                  else
                    let output := noteSelected index record sourceState output in
                    let output :=
                      if negb (cs_sourceId state =? 0) && (se_sourceGeneration output =? 0)
                      then output <| se_sourceGeneration := h_sourceGeneration h |> else output in
                    if rq_requireTraderReplayCompatibility request &&
                       negb (binaryMarketRecordIsSourceHealth record) && negb (compatible record)
                    then Some (inl Unimplemented)
                    else preflightMerge fuel state output
              end
          end
      end
  end.

(** [fillHead] for every shard. *)
Fixpoint fillHeads (epoch sources : Z) (shards : list Shard) : option (list Shard) :=
  match shards with
  | [] => Some []
  | shard :: shards =>
      shard ← fillHead epoch sources shard;
      shards ← fillHeads epoch sources shards;
      Some (shard :: shards)
  end.

(** The fences of the physical preflight are dropped before the merge. *)
Definition dropFences (shard : Shard) : Shard :=
  shard <| ss_previousSequence := 0 |> <| ss_previousMonotonic := 0 |>.

(** A shard at its first segment again. *)
Definition rewind (shard : Shard) : Shard :=
  dropFences (shard <| ss_decoder := None |> <| ss_position := 0%nat |> <| ss_head := None |>)
    <| ss_depthTransaction := idle |>.

(** Calls of [next] that may succeed on the remaining files of a shard. *)
Definition segmentFuel (key : SegmentKey) : nat :=
  S (S (256 * length (default [] (files (segmentPath (key_shard key) (key_number key) Sealed))))).
Definition shardFuel (shard : Shard) : nat :=
  (if ss_head shard is Some _ then 1 else 0) +
  (if ss_decoder shard is Some decoder then decoderFuel decoder else 0) +
  sum_list_with segmentFuel (drop (ss_position shard) (ss_segments shard)).
Definition cursorFuel (state : CursorState) : nat := S (sum_list_with shardFuel (cs_shards state)).

(** The first heads of all shards. *)
Definition startCursor (state : CursorState) : option CursorState :=
  shards ← fillHeads (mf_producerEpoch (cs_manifest state))
    (Z.of_nat (length (cs_sources state))) (cs_shards state);
  Some (state <| cs_shards := shards |>).

(** Lines 687-695: back to the first record. *)
Definition resetCursor (state : CursorState) : CursorState :=
  state <| cs_shards ::= map rewind |>
        <| cs_sourceStates := map initialBinaryMarketSourceState (cs_sources state) |>.

(** Lines 561-704: both preflights of [open] once the tables are accepted. *)
Definition preflight (state : CursorState) (output : BinaryMarketSelection)
  (index : list BinaryMarketIndexEntry) (gaps : list BinaryMarketGap) (segmentShards : list Z)
  : option (Status + (CursorState * BinaryMarketSelection)) :=
  let m := cs_manifest state in
  let sources := cs_sources state in
  let keys := map (fun number : nat => MkSegmentKey (Z.of_nat number)
    (nth number segmentShards unknownShard)) (seq 1 (Z.to_nat (mf_segmentCount m))) in
  let metadataBytes := sizeofz l_BinaryMarketManifest + 3 * sizeofz l_BinaryMarketTableHeader +
    Z.of_nat (length sources) * sizeofz l_BinaryMarketSource +
    Z.of_nat (length index) * sizeofz l_BinaryMarketIndexEntry +
    Z.of_nat (length gaps) * sizeofz l_BinaryMarketGap in
  match preflightSegments m (Z.of_nat (length sources)) index keys
          (cs_shards state, metadataBytes, 0) with
  | None => None
  | Some None => Some (inl CorruptData)
  | Some (Some (shards, physicalBytes, records)) =>
      if (mf_projectedBytes m <? physicalBytes) || negb (records =? mf_recordCount m)
      then Some (inl CorruptData)
      else
        match startCursor (state <| cs_shards := map dropFences shards |>) with
        | None => Some (inl CorruptData)
        | Some started =>
            match preflightMerge (cursorFuel started) started output with
            | None => None
            | Some (inl status) => Some (inl status)
            | Some (inr (finished, output)) =>
                if existsb (fun shard => active (ss_depthTransaction shard)) (cs_shards finished)
                then Some (inl CorruptData)
                else if outside (rq_requiredChannelMask (cs_request state))
                          (se_presentChannelMask output) then Some (inl OutOfRange)
                else
                  match startCursor (resetCursor finished) with
                  | None => Some (inl CorruptData)
                  | Some state => Some (inr (state, output))
                  end
            end
        end
  end.

(** [BinaryMarketCorpusCursor::open]: the result on success. *)
Definition open (request : BinaryMarketSelectionRequest)
  : option (Status + (CursorState * BinaryMarketSelection)) :=
  if requestInvalid request then Some (inl InvalidArgument)
  else
    match catalog files with
    | (Ok, Some (m, sources)) =>
        let count := Z.of_nat (length sources) in
        if (rq_beginReceiveNs request <? mf_startedReceiveNs m) ||
           (mf_finalizedReceiveNs m <? rq_endReceiveNs request) then Some (inl OutOfRange)
        else if count <? Z.of_nat (length (rq_sourceIds request)) then Some (inl InvalidArgument)
        else
          let all := rq_allSources request && (length (rq_sourceIds request) =? 0)%nat in
          match includeIds (rq_sourceIds request) count (false :: replicate (length sources) all) with
          | None => Some (inl InvalidArgument)
          | Some included =>
              match selectSource request sources with
              | inl status => Some (inl status)
              | inr selected =>
                  let included := match selected with
                    | Some source => <[Z.to_nat (src_sourceId source) := true]> included
                    | None => included
                    end in
                  match readTable l_BinaryMarketIndexEntry (files (RootFile "index.bin"))
                          kBinaryMarketIndexMagic (mf_indexCrc32c m) (mf_maximumBytes m)
                          (mf_indexCount m),
                        readTable l_BinaryMarketGap (files (RootFile "gaps.bin"))
                          kBinaryMarketGapsMagic (mf_gapsCrc32c m) (mf_maximumBytes m)
                          (mf_gapCount m) with
                  | Some index, Some gaps =>
                      if negb (Z.of_nat (length index) =? mf_indexCount m) ||
                         negb (Z.of_nat (length gaps) =? mf_gapCount m)
                      then Some (inl CorruptData)
                      else
                        match checkIndex index m sources, walkGaps gaps m sources request included with
                        | Some segmentShards, Some [] =>
                            let masks := replicate (length sources) 0 in
                            let state := MkCursorState request m sources
                              (map initialBinaryMarketSourceState sources)
                              (replicate (Z.to_nat (mf_shardCount m)) shard0)
                              (default 0 (src_sourceId <$> selected)) included false in
                            let output := MkSelection m selected [] 0 0 masks masks
                              (map (effectiveBinaryMarketSource ∘ initialBinaryMarketSourceState)
                                 sources) masks masks masks masks in
                            preflight state output index gaps segmentShards
                        | _, _ => Some (inl CorruptData)
                        end
                  | _, _ => Some (inl CorruptData)
                  end
              end
          end
    | (status, _) => Some (inl status)
    end.

(** [BinaryMarketCorpusReader::select]: the loop over [next]. *)
Fixpoint collect (fuel : nat) (state : CursorState)
  : option (Status * list BinaryMarketRecord) :=
  match fuel with
  | O => None
  | S fuel =>
      '(status, record, state) ← nextLoop (cursorFuel state) state;
      if negb (isOk status) then Some (status, [])
      else
        match record with
        | None => Some (Ok, [])
        | Some record =>
            '(status, records) ← collect fuel state;
            Some (status, if isOk status then record :: records else [])
        end
  end.

Definition select (request : BinaryMarketSelectionRequest)
  : option (Status + BinaryMarketSelection) :=
  result ← open request;
  match result with
  | inl status => Some (inl status)
  | inr (state, output) =>
      '(status, records) ← collect (cursorFuel state) state;
      Some (if isOk status then inr (output <| se_records := records |>) else inl status)
  end.

End reader.
