(* ===== verification/ReaderLoops.v ===== *)
(** * ReaderLoops: the loops of the corpus reader terminate

    Every call of [SegmentDecoder::next] that yields a record spends fuel of its
    decoder, every merged record spends fuel of its shard; so the fuel computed
    from the files is enough for the preflights, [next] and [select]. *)
From stdpp Require Import base list numbers strings.
From S2P Require Import Prelude Codec Layout Format DepthTransaction SourceState Disk Metadata.
From S2P Require Import BlockCodec Segment Least Reader.
Import Crc32c.
Local Open Scope Z_scope.

Lemma sum_insert {A} (f : A -> nat) (xs : list A) i x y :
  xs !! i = Some x ->
  (sum_list_with f (<[i := y]> xs) + f x = sum_list_with f xs + f y)%nat.
Proof.
  revert i. induction xs as [|z xs IH]; intros [|i]; try done.
  - intros [= ->]. cbn. lia.
  - intros Hi. specialize (IH i Hi). change (<[S i := y]> (z :: xs)) with (z :: <[i := y]> xs).
    cbn [sum_list_with foldr] in *. unfold sum_list_with in *. cbn [foldr] in *. lia.
Qed.

Lemma sum_cons {A} (f : A -> nat) x xs :
  sum_list_with f (x :: xs) = (f x + sum_list_with f xs)%nat.
Proof. done. Qed.

Section loops.
Context `{CxetMarket} `{ByteBlockCodec}.

(** ** One decoder *)

Lemma checkRows_frame channel sources rows : forall d d',
  checkRows channel sources rows d = Some d' ->
  sd_content d' = sd_content d /\ sd_header d' = sd_header d.
Proof.
  induction rows as [|row rows IH]; intros d d'; cbn [checkRows]; [by intros [= <-]|].
  on_if E; [done|]. intros [-> ->]%IH. done.
Qed.

Lemma decodeBlock_progress d sources d' :
  decodeBlock d sources = Some d' ->
  sd_content d' = sd_content d /\ sd_position d' = 0%nat /\
  (length (sd_decoded d') <= 256)%nat /\
  (sd_stream d + 64 <= length (sd_content d))%nat /\ (sd_stream d + 64 <= sd_stream d')%nat.
Proof.
  unfold decodeBlock.
  destruct (readBytes (sd_content d) (sd_stream d) _) as [hb|] eqn:Er; [|done].
  cbn [fmap option_fmap option_map mbind option_bind].
  generalize (view l_BinaryMarketBlockHeader hb) as b. intros b.
  destruct (blockInvalid d b) eqn:Eb; [done|].
  destruct (readBytes _ (sd_stream d + _) _) as [encoded|]; [|done]. cbn [mbind option_bind].
  on_if E1; [done|]. destruct (decodeByteBlock _ _ _) as [raw|]; [|done]. cbn [mbind option_bind].
  on_if E2; [done|].
  assert (length (view_array l_BinaryMarketRecord (Z.to_nat (bh_recordCount b)) raw) =
    Z.to_nat (bh_recordCount b)) as Hlen by apply view_array_length.
  revert Hlen. generalize (view_array l_BinaryMarketRecord (Z.to_nat (bh_recordCount b)) raw) as rows.
  intros rows Hlen. on_if E3; [done|].
  destruct (checkRows _ _ rows d) as [d1|] eqn:Ec; [|done]. cbn [mbind option_bind].
  apply checkRows_frame in Ec as [Hc _]. intros [= <-].
  unfold readBytes in Er. destruct (_ <=? _)%nat eqn:El in Er; [|done].
  apply Nat.leb_le in El. change (sizeof l_BinaryMarketBlockHeader) with 64%nat in *.
  unfold blockInvalid, kBinaryMarketBlockRecords in Eb. bsplit.
  cbn [sd_content sd_position sd_decoded sd_stream upd]. split_and!; try done; lia.
Qed.

Lemma takeRow_fuel d row d' :
  takeRow d = Some (Some row, d') -> (decoderFuel d' < decoderFuel d)%nat.
Proof.
  unfold takeRow. destruct (sd_decoded d !! sd_position d) as [r|] eqn:E; [|done].
  cbn [mbind option_bind]. intros [= <- <-]. apply lookup_lt_Some in E.
  unfold decoderFuel. cbn [sd_content sd_position sd_decoded sd_stream upd]. lia.
Qed.

Lemma decoderNext_fuel d sources row d' :
  decoderNext d sources = Some (Some row, d') -> (decoderFuel d' < decoderFuel d)%nat.
Proof.
  unfold decoderNext. on_if E1; [done|]. on_if E2; [|apply takeRow_fuel].
  on_if E3.
  - destruct (readBytes _ _ _); [|done]. cbn [fmap option_fmap option_map mbind option_bind].
    by destruct (footerInvalid _ _).
  - destruct (decodeBlock d sources) as [d1|] eqn:Ed; [|done]. cbn [mbind option_bind].
    intros Ht%takeRow_fuel. apply decodeBlock_progress in Ed as (Hc & Hp & Hl & Hs & Hs').
    unfold decoderFuel in *. rewrite Hc, Hp in Ht. lia.
Qed.

Lemma decoderOpen_fuel content number shard epoch d :
  decoderOpen (Some content) number shard epoch = Some d ->
  (decoderFuel d <= S (256 * length content))%nat.
Proof.
  unfold decoderOpen. cbn [mbind option_bind]. destruct (readBytes _ _ _); [|done].
  cbn [fmap option_fmap option_map mbind option_bind]. on_if E1; [done|]. on_if E2; [done|].
  intros [= <-]. unfold decoderFuel. cbn [sd_content sd_position sd_decoded sd_stream length]. lia.
Qed.

Lemma observeRows_fuel fuel key sources : forall d shard observed records,
  (decoderFuel d <= fuel)%nat ->
  observeRows fuel key sources d shard observed records <> None.
Proof.
  induction fuel as [|fuel IH]; intros d shard observed records Hf; [unfold decoderFuel in Hf; lia|].
  cbn [observeRows]. destruct (decoderNext d sources) as [[[row|] d']|] eqn:E; try done.
  destruct (crossesOrder _ _); [done|]. apply decoderNext_fuel in E. apply IH. lia.
Qed.

(** ** Shards and the merge *)

Context (files : Files).
Abbreviation shardFuel := (shardFuel files).
Abbreviation cursorFuel := (cursorFuel files).

Definition remaining (shard : Shard) : list SegmentKey :=
  drop (ss_position shard) (ss_segments shard).

Lemma drop_next {A} (xs : list A) n x rest : drop n xs = x :: rest -> drop (S n) xs = rest.
Proof.
  intros E. replace (S n) with (n + 1)%nat by lia. rewrite <- drop_drop, E. done.
Qed.

Lemma openKey_fuel epoch key d :
  openKey files epoch key = Some d -> (decoderFuel d < segmentFuel files key)%nat.
Proof.
  unfold openKey, segmentFuel. destruct (files _) as [content|]; [|done].
  intros Ho%decoderOpen_fuel. change (default [] (Some content)) with content. lia.
Qed.

Lemma fillFrom_fuel epoch sources keys : forall shard d shard',
  remaining shard = keys -> ss_head shard = None ->
  fillFrom files epoch sources keys shard d = Some shard' ->
  (shardFuel shard' <= decoderFuel d + sum_list_with (segmentFuel files) keys)%nat.
Proof.
  induction keys as [|key keys IH]; intros shard d shard' Hr Hh; cbn [fillFrom];
    destruct (decoderNext d sources) as [[[row|] d1]|] eqn:E; try done; cbn [mbind option_bind];
    try (apply decoderNext_fuel in E).
  - on_if Eo; [done|]. intros [= <-]. unfold Reader.shardFuel, remaining in *.
    cbn [ss_head ss_decoder ss_position ss_segments upd]. rewrite Hr. lia.
  - intros [= <-]. unfold Reader.shardFuel, remaining in *.
    cbn [ss_head ss_decoder ss_position ss_segments upd]. rewrite Hr, Hh. cbn. lia.
  - on_if Eo; [done|]. intros [= <-]. unfold Reader.shardFuel, remaining in *.
    cbn [ss_head ss_decoder ss_position ss_segments upd]. rewrite Hr. lia.
  - destruct (openKey files epoch key) as [d2|] eqn:Eo; [|done]. cbn [mbind option_bind].
    apply openKey_fuel in Eo. rewrite sum_cons. intros Hf%IH; [lia| |done]. unfold remaining in *.
    cbn [ss_position ss_segments upd]. by eapply drop_next.
Qed.

Lemma fillHead_fuel epoch sources shard shard' :
  fillHead files epoch sources shard = Some shard' ->
  (shardFuel shard' + (if ss_head shard is Some _ then 1 else 0) <= shardFuel shard)%nat.
Proof.
  unfold fillHead. cbn [ss_position ss_segments ss_decoder upd].
  destruct (ss_decoder shard) as [d|] eqn:Ed.
  - intros Hf. apply fillFrom_fuel in Hf; [|done|done]. unfold Reader.shardFuel at 2.
    rewrite Ed. destruct (ss_head shard); lia.
  - destruct (drop _ _) as [|key keys] eqn:Er.
    + intros [= <-]. unfold Reader.shardFuel. cbn [ss_position ss_segments ss_decoder ss_head upd].
      rewrite Er, Ed. destruct (ss_head shard); lia.
    + destruct (openKey files epoch key) as [d|] eqn:Eo; [|done]. cbn [mbind option_bind].
      intros Hf. apply fillFrom_fuel in Hf; [|unfold remaining; cbn; by eapply drop_next|done].
      apply openKey_fuel in Eo. unfold Reader.shardFuel at 2. rewrite Ed, Er, sum_cons.
      destruct (ss_head shard); lia.
Qed.

(** ** The shard that is merged next *)

Lemma selectShard_head shards i record :
  selectShard shards = Some (i, record) ->
  exists shard, shards !! i = Some shard /\ ss_head shard = Some record.
Proof. apply (least_head ss_head recordBefore). Qed.

Lemma mergeAdvance_fuel record i state state' :
  selectShard (cs_shards state) = Some (i, record) ->
  mergeAdvance files record i state = Some state' -> (cursorFuel state' < cursorFuel state)%nat.
Proof.
  intros (shard & Hs & Hh)%selectShard_head. unfold mergeAdvance. rewrite Hs. cbn [mbind option_bind].
  destruct (advanceBinaryMarketDepthTransaction _ _) as [ok tx]. on_if E1; [done|].
  destruct (cs_sourceStates state !! _); [|done]. cbn [mbind option_bind].
  destruct (advanceBinaryMarketSourceState _ _ _) as [ok2 ss]. on_if E2; [done|].
  destruct (fillHead _ _ _ _) as [shard'|] eqn:Ef; [|done]. cbn [mbind option_bind].
  intros [= <-]. apply fillHead_fuel in Ef.
  change (shardFuel (shard <| ss_depthTransaction := tx |>)) with (shardFuel shard) in Ef.
  change (ss_head (shard <| ss_depthTransaction := tx |>)) with (ss_head shard) in Ef.
  rewrite Hh in Ef.
  unfold Reader.cursorFuel. cbn [cs_shards upd].
  pose proof (sum_insert shardFuel (cs_shards state) i shard shard' Hs).
  lia.
Qed.

Lemma nextLoop_fuel fuel : forall state,
  (cursorFuel state <= fuel)%nat ->
  exists status record state', nextLoop files fuel state = Some (status, record, state') /\
    (record <> None -> (cursorFuel state' < cursorFuel state)%nat).
Proof.
  induction fuel as [|fuel IH]; intros state Hf; [unfold Reader.cursorFuel in Hf; lia|].
  cbn [nextLoop]. destruct (selectShard _) as [[i record]|] eqn:Es; [|eexists _, _, _; by split].
  destruct (mergeAdvance files record i state) as [state1|] eqn:Em; [|eexists _, _, _; by split].
  apply mergeAdvance_fuel in Em; [|done]. destruct (negb (inSelection state1 record)).
  - destruct (IH state1) as (status & r & state' & -> & Hlt); [lia|].
    exists status, r, state'. split; [done|]. intros Hr. specialize (Hlt Hr). lia.
  - destruct (unusable state1 record); eexists _, _, _; by split.
Qed.

Lemma collect_fuel fuel : forall state,
  (cursorFuel state <= fuel)%nat -> collect files fuel state <> None.
Proof.
  induction fuel as [|fuel IH]; intros state Hf; [unfold Reader.cursorFuel in Hf; lia|].
  cbn [collect]. destruct (nextLoop_fuel (cursorFuel state) state) as (status & r & state' & -> & Hlt);
    [lia|]. cbn [mbind option_bind]. destruct (negb (isOk status)); [done|].
  destruct r as [record|]; [|done]. specialize (Hlt ltac:(done)).
  specialize (IH state' ltac:(lia)). by destruct (collect files fuel state') as [[status' rows]|].
Qed.

Lemma preflightMerge_fuel fuel : forall state output,
  (cursorFuel state <= fuel)%nat -> preflightMerge files fuel state output <> None.
Proof.
  induction fuel as [|fuel IH]; intros state output Hf; [unfold Reader.cursorFuel in Hf; lia|].
  cbn [preflightMerge]. destruct (selectShard _) as [[i record]|] eqn:Es; [|done].
  destruct (mergeAdvance files record i state) as [state1|] eqn:Em; [|done].
  apply mergeAdvance_fuel in Em; [|done]. destruct (_ !! _) as [sourceState|]; [|done].
  repeat (match goal with |- (if ?b then _ else _) <> None => destruct b end; try done);
    apply IH; lia.
Qed.

Lemma preflightSegments_fuel m sources index keys : forall progress,
  preflightSegments files m sources index keys progress <> None.
Proof.
  induction keys as [|key keys IH]; intros progress; [done|]. cbn [preflightSegments].
  enough (preflightSegment files m sources index key progress <> None) as Hp.
  { destruct (preflightSegment _ _ _ _ _ _) as [[progress'|]|]; [apply IH|done|done]. }
  destruct progress as [[shards bytes] records]. unfold preflightSegment.
  destruct (openKey _ _ _) as [d|]; [|done]. destruct (shards !! _) as [shard|]; [|done].
  destruct (_ || _); [done|].
  pose proof (observeRows_fuel (decoderFuel d) key sources d shard [] records (le_n _)) as Ho.
  destruct (observeRows _ _ _ _ _ _ _) as [[[[? ?] ?]|]|]; [|done|done]. by destruct (negb _).
Qed.

Lemma preflight_fuel state output index gaps shards :
  preflight files state output index gaps shards <> None.
Proof.
  unfold preflight.
  match goal with |- context [preflightSegments ?f ?a ?b ?c ?d ?e] =>
    pose proof (preflightSegments_fuel a b c d e) as Hs;
    destruct (preflightSegments f a b c d e) as [[[[? ?] ?]|]|]; try done end.
  destruct (_ || _); [done|]. destruct (startCursor _ _) as [started|]; [|done].
  pose proof (preflightMerge_fuel (cursorFuel started) started output (le_n _)) as Hm.
  destruct (preflightMerge _ _ _ _) as [[|[finished output']]|]; try done.
  destruct (existsb _ _); [done|]. destruct (outside _ _); [done|]. by destruct (startCursor _ _).
Qed.

Lemma open_fuel request : open files request <> None.
Proof.
  unfold open. destruct (requestInvalid request); [done|].
  destruct (catalog files) as [[] [[m sources]|]]; try done.
  destruct (_ || _); [done|]. destruct (_ <? _); [done|].
  destruct (includeIds _ _ _) as [included|]; [|done].
  destruct (selectSource request sources) as [|selected]; [done|].
  destruct (readTable l_BinaryMarketIndexEntry _ _ _ _ _) as [index|]; [|done].
  destruct (readTable l_BinaryMarketGap _ _ _ _ _) as [gaps|]; [|done].
  destruct (_ || _); [done|]. destruct (checkIndex _ _ _); [|done].
  destruct (walkGaps _ _ _ _ _) as [[|]|]; [|done|done]. apply preflight_fuel.
Qed.

End loops.
