(* ===== verification/ReaderMerge.v ===== *)
(** * ReaderMerge: the merge of the corpus reader

    The cursor's sequence of records is the strictly ordered merge of what the
    segments of each shard decode to, and what [open] has checked [next] and
    [select] deliver. *)
From stdpp Require Import base list numbers strings sorting.
From S2P Require Import Prelude Codec Layout Format DepthTransaction SourceState Disk Metadata.
From S2P Require Import BlockCodec Segment Least Reader ReaderLoops.
Import Crc32c.
Local Open Scope Z_scope.

(** ** The order of records *)

Fixpoint lexlt (xs ys : list Z) : bool :=
  match xs, ys with
  | x :: xs, y :: ys => if negb (x =? y) then x <? y else lexlt xs ys
  | _, _ => false
  end.

Definition orderKey (record : BinaryMarketRecord) : list Z :=
  let h := rec_header record in
  [h_receiveMonotonicNs h; h_shardIndex h; h_shardSequence h; h_receiveRealtimeNs h;
   h_frameSequence h; h_eventOrdinal h; h_eventSequence h].

Lemma recordBefore_lex l r : recordBefore l r = lexlt (orderKey l) (orderKey r).
Proof.
  unfold recordBefore, orderKey. cbn [lexlt].
  repeat (match goal with |- (if ?b then _ else _) = _ => destruct b; [done|] end).
  destruct (Z.eqb_spec (h_eventSequence (rec_header l)) (h_eventSequence (rec_header r))) as [->|];
    cbn; [apply Z.ltb_irrefl|done].
Qed.

Lemma lexlt_irrefl xs : lexlt xs xs = false.
Proof. induction xs; cbn; [done|]. by rewrite Z.eqb_refl. Qed.

Lemma lexlt_trans xs : forall ys zs,
  lexlt xs ys = true -> lexlt ys zs = true -> lexlt xs zs = true.
Proof.
  induction xs as [|x xs IH]; intros [|y ys] [|z zs]; cbn; try done.
  destruct (Z.eqb_spec x y), (Z.eqb_spec y z), (Z.eqb_spec x z); cbn; subst; try done; try lia;
    rewrite ?Z.ltb_lt; try lia. apply IH.
Qed.

Lemma before_irrefl r : recordBefore r r = false.
Proof. rewrite recordBefore_lex. apply lexlt_irrefl. Qed.
Lemma before_trans a b c :
  recordBefore a b = true -> recordBefore b c = true -> recordBefore a c = true.
Proof. rewrite !recordBefore_lex. apply lexlt_trans. Qed.

(** Records of different shards, or of one shard with different sequences, are ordered. *)
Lemma before_total a b :
  h_shardIndex (rec_header a) <> h_shardIndex (rec_header b) ->
  recordBefore b a = false -> recordBefore a b = true.
Proof.
  unfold recordBefore. intros Hs.
  destruct (Z.eqb_spec (h_receiveMonotonicNs (rec_header a)) (h_receiveMonotonicNs (rec_header b))) as [->|];
    [rewrite Z.eqb_refl|]; cbn.
  - destruct (Z.eqb_spec (h_shardIndex (rec_header a)) (h_shardIndex (rec_header b))); [done|].
    destruct (Z.eqb_spec (h_shardIndex (rec_header b)) (h_shardIndex (rec_header a))); [lia|]. cbn.
    rewrite Z.ltb_lt, Z.ltb_ge. lia.
  - destruct (Z.eqb_spec (h_receiveMonotonicNs (rec_header b)) (h_receiveMonotonicNs (rec_header a)));
      [lia|]. cbn. rewrite Z.ltb_lt, Z.ltb_ge. lia.
Qed.

Lemma before_later a b :
  h_shardIndex (rec_header a) = h_shardIndex (rec_header b) ->
  h_shardSequence (rec_header a) < h_shardSequence (rec_header b) ->
  h_receiveMonotonicNs (rec_header a) <= h_receiveMonotonicNs (rec_header b) ->
  recordBefore a b = true.
Proof.
  intros Hi Hs Hm. unfold recordBefore.
  destruct (Z.eqb_spec (h_receiveMonotonicNs (rec_header a)) (h_receiveMonotonicNs (rec_header b)));
    cbn; [|apply Z.ltb_lt; lia].
  rewrite Hi, Z.eqb_refl. cbn.
  destruct (Z.eqb_spec (h_shardSequence (rec_header a)) (h_shardSequence (rec_header b))); [lia|].
  cbn. apply Z.ltb_lt. lia.
Qed.

(** ** The least head *)

Lemma selectShard_least shards i record j shard head :
  selectShard shards = Some (i, record) -> shards !! j = Some shard -> ss_head shard = Some head ->
  recordBefore head record = false.
Proof. apply (least_least ss_head recordBefore before_irrefl before_trans). Qed.

Lemma selectShard_none shards j shard :
  selectShard shards = None -> shards !! j = Some shard -> ss_head shard = None.
Proof. apply (least_none ss_head recordBefore before_irrefl before_trans). Qed.

Section merge.
Context `{CxetMarket} `{ByteBlockCodec}.
Context (files : Files).

(** ** What a shard decodes to *)

Section shard.
Context (epoch sources : Z).

(** The rows a decoder still yields, and those of a segment. *)
Definition decodes (d : SegmentDecoder) (rows : list BinaryMarketRecord) : Prop :=
  exists fuel d', decodeAll fuel d sources = Some (rows, d').
Definition segmentRows (key : SegmentKey) (rows : list BinaryMarketRecord) : Prop :=
  exists d, openKey files epoch key = Some d /\ decodes d rows.

(** The rows a shard still yields after its head. *)
Definition streams (shard : Shard) (rows : list BinaryMarketRecord) : Prop :=
  exists current segments,
    match ss_decoder shard with Some d => decodes d current | None => current = [] end /\
    Forall2 segmentRows (remaining shard) segments /\ rows = current ++ concat segments.

Lemma decodes_row d row d' rows :
  decoderNext d sources = Some (Some row, d') -> decodes d' rows -> decodes d (row :: rows).
Proof.
  intros En (fuel & d2 & Hd). exists (S fuel), d2. cbn [decodeAll]. rewrite En.
  cbn [mbind option_bind]. by rewrite Hd.
Qed.

Lemma decodes_end d d' : decoderNext d sources = Some (None, d') -> decodes d [].
Proof. intros En. exists 1%nat, d'. cbn [decodeAll]. by rewrite En. Qed.

(** [fillHead] takes one row off the stream. *)
Lemma fillFrom_streams keys : forall shard d shard' rows,
  remaining shard = keys -> ss_head shard = None ->
  fillFrom files epoch sources keys shard d = Some shard' -> streams shard' rows ->
  (ss_head shard' = None -> rows = []) ->
  exists current segments, decodes d current /\ Forall2 segmentRows keys segments /\
    option_list (ss_head shard') ++ rows = current ++ concat segments.
Proof.
  induction keys as [|key keys IH]; intros shard d shard' rows Hr Hh; cbn [fillFrom];
    destruct (decoderNext d sources) as [[[row|] d1]|] eqn:E; try done; cbn [mbind option_bind].
  - on_if Eo; [done|]. intros [= <-] (current & segments & Hd & Hs & ->) _.
    cbn [ss_head ss_decoder upd option_list] in *. unfold remaining in *. cbn in Hs. rewrite Hr in Hs.
    exists (row :: current), segments. split; [by eapply decodes_row|]. done.
  - intros [= <-] _ Hn. cbn [ss_head upd] in Hn. rewrite Hn by done.
    exists [], []. split; [by eapply decodes_end|]. split; [constructor|]. cbn. by rewrite Hh.
  - on_if Eo; [done|]. intros [= <-] (current & segments & Hd & Hs & ->) _.
    cbn [ss_head ss_decoder upd option_list] in *. unfold remaining in *. cbn in Hs. rewrite Hr in Hs.
    exists (row :: current), segments. split; [by eapply decodes_row|]. done.
  - destruct (openKey files epoch key) as [d2|] eqn:Eo; [|done]. cbn [mbind option_bind].
    intros Hf Hs Hn. destruct (IH (shard <| ss_position ::= S |>) d2 shard' rows)
      as (current & segments & Hd & Hall & Heq); try done.
    { unfold remaining in *. cbn [ss_position ss_segments upd]. by eapply drop_next. }
    exists [], (current :: segments). split; [by eapply decodes_end|]. split; [|done].
    constructor; [by exists d2|done].
Qed.

Lemma fillHead_streams shard shard' rows :
  fillHead files epoch sources shard = Some shard' -> streams shard' rows ->
  (ss_head shard' = None -> rows = []) ->
  streams shard (option_list (ss_head shard') ++ rows).
Proof.
  unfold fillHead. cbn [ss_position ss_segments ss_decoder upd].
  destruct (ss_decoder shard) as [d|] eqn:Ed.
  - intros Hf Hs Hn. eapply fillFrom_streams in Hf as (current & segments & Hd & Hall & ->); [|done..].
     exists current, segments. by rewrite Ed.
  - destruct (drop _ _) as [|key keys] eqn:Er.
    + intros [= <-] _ Hn. cbn [ss_head upd] in Hn. rewrite Hn by done. exists [], []. rewrite Ed.
      unfold remaining. rewrite Er. split_and!; [done|constructor|done].
    + destruct (openKey files epoch key) as [d|] eqn:Eo; [|done]. cbn [mbind option_bind].
      intros Hf Hs Hn.
      eapply fillFrom_streams in Hf as (current & segments & Hd & Hall & ->);
        [|unfold remaining; cbn; by eapply drop_next|done..].
      exists [], (current :: segments). rewrite Ed. unfold remaining. rewrite Er.
      split; [done|]. split; [|done]. constructor; [by exists d|done].
Qed.

(** A shard that is not ready has nothing left. *)
Lemma fillFrom_end keys : forall shard d shard',
  remaining shard = keys -> ss_head shard = None ->
  fillFrom files epoch sources keys shard d = Some shard' -> ss_head shard' = None ->
  ss_decoder shard' = None /\ remaining shard' = [].
Proof.
  induction keys as [|key keys IH]; intros shard d shard' Hr Hh; cbn [fillFrom];
    destruct (decoderNext d sources) as [[[row|] d1]|] eqn:E; try done; cbn [mbind option_bind].
  - on_if Eo; [done|]. by intros [= <-].
  - intros [= <-] _. done.
  - on_if Eo; [done|]. by intros [= <-].
  - destruct (openKey files epoch key) as [d2|] eqn:Eo; [|done]. cbn [mbind option_bind].
    apply IH; [|done]. unfold remaining in *. cbn [ss_position ss_segments upd]. by eapply drop_next.
Qed.

Lemma fillHead_end shard shard' :
  fillHead files epoch sources shard = Some shard' -> ss_head shard' = None ->
  ss_decoder shard' = None /\ remaining shard' = [].
Proof.
  unfold fillHead. cbn [ss_position ss_segments ss_decoder upd].
  destruct (ss_decoder shard) as [d|] eqn:Ed; [by apply fillFrom_end|].
  destruct (drop _ _) as [|key keys] eqn:Er.
  - intros [= <-] _. done.
  - destruct (openKey files epoch key) as [d|]; [|done]. cbn [mbind option_bind].
    apply fillFrom_end; [|done]. unfold remaining. cbn. by eapply drop_next.
Qed.

(** [fillHead] moves only the shard's reading position. *)
Lemma fillFrom_frame keys : forall shard d shard',
  fillFrom files epoch sources keys shard d = Some shard' ->
  ss_segments shard' = ss_segments shard /\ ss_depthTransaction shard' = ss_depthTransaction shard.
Proof.
  induction keys as [|key keys IH]; intros shard d shard'; cbn [fillFrom];
    destruct (decoderNext d sources) as [[[row|] d1]|] eqn:E; try done; cbn [mbind option_bind].
  - on_if Eo; [done|]. by intros [= <-].
  - by intros [= <-].
  - on_if Eo; [done|]. by intros [= <-].
  - destruct (openKey files epoch key) as [d2|]; [|done]. cbn [mbind option_bind]. by intros [-> ->]%IH.
Qed.

Lemma fillHead_frame shard shard' :
  fillHead files epoch sources shard = Some shard' ->
  ss_segments shard' = ss_segments shard /\ ss_depthTransaction shard' = ss_depthTransaction shard.
Proof.
  unfold fillHead. cbn [ss_position ss_segments ss_decoder upd].
  destruct (ss_decoder shard) as [d|]; [by intros [-> ->]%fillFrom_frame|].
  destruct (drop _ _) as [|key keys]; [by intros [= <-]|].
  destruct (openKey files epoch key) as [d|]; [|done]. cbn [mbind option_bind].
  by intros [-> ->]%fillFrom_frame.
Qed.

(** ** What a shard's head has passed *)

(** A row of shard [i] that passed the decoder's checks. *)
Definition goodRow (i : Z) (row : BinaryMarketRecord) : Prop :=
  validBinaryMarketRecord row = true /\ h_shardIndex (rec_header row) = i.
Definition goodDecoder (i : Z) (d : SegmentDecoder) : Prop :=
  sh_shardIndex (sd_header d) = i /\ Forall (goodRow i) (sd_decoded d).

Lemma checkRows_good channel rows : forall d d',
  checkRows channel sources rows d = Some d' ->
  Forall (goodRow (sh_shardIndex (sd_header d))) rows.
Proof.
  induction rows as [|row rows IH]; intros d d'; cbn [checkRows]; [done|].
  destruct (rowInvalid _ _ _ _ _ row) eqn:E; [done|]. intros Hr%IH.
  constructor; [|exact Hr]. unfold rowInvalid in E. bsplit. done.
Qed.

Lemma takeRow_good i d row d' :
  goodDecoder i d -> takeRow d = Some (Some row, d') -> goodRow i row /\ goodDecoder i d'.
Proof.
  unfold takeRow. intros [Hi Hd]. destruct (sd_decoded d !! sd_position d) as [r|] eqn:E; [|done].
  cbn [mbind option_bind]. intros [= <- <-].
  rewrite Forall_lookup in Hd. split; [by eapply Hd|]. split; [done|]. by rewrite Forall_lookup.
Qed.

Lemma decodeBlock_good i d d' :
  goodDecoder i d -> decodeBlock d sources = Some d' -> goodDecoder i d'.
Proof.
  intros [Hi _]. unfold decodeBlock. destruct (readBytes _ _ _) as [hb|]; [|done].
  cbn [fmap option_fmap option_map mbind option_bind].
  generalize (view l_BinaryMarketBlockHeader hb) as b. intros b.
  destruct (blockInvalid d b); [done|]. destruct (readBytes _ _ _) as [encoded|]; [|done].
  cbn [mbind option_bind]. on_if E1; [done|].
  destruct (decodeByteBlock _ _ _) as [raw|]; [|done]. cbn [mbind option_bind]. on_if E2; [done|].
  generalize (view_array l_BinaryMarketRecord (Z.to_nat (bh_recordCount b)) raw) as rows. intros rows.
  on_if E3; [done|]. destruct (checkRows _ _ rows d) as [d1|] eqn:Ec; [|done].
  cbn [mbind option_bind]. pose proof (checkRows_good _ _ _ _ Ec) as Hg.
  apply checkRows_frame in Ec as [_ Hh]. intros [= <-]. rewrite Hi in Hg.
  split; cbn [sd_header sd_decoded upd]; [by rewrite Hh|done].
Qed.

Lemma decoderNext_good i d row d' :
  goodDecoder i d -> decoderNext d sources = Some (Some row, d') ->
  goodRow i row /\ goodDecoder i d'.
Proof.
  intros Hd. unfold decoderNext. on_if E1; [done|]. on_if E2; [|by apply takeRow_good].
  on_if E3.
  - destruct (readBytes _ _ _); [|done]. cbn [fmap option_fmap option_map mbind option_bind].
    by destruct (footerInvalid _ _).
  - destruct (decodeBlock d sources) as [d1|] eqn:Ed; [|done]. cbn [mbind option_bind].
    apply takeRow_good. by eapply decodeBlock_good.
Qed.

Lemma openKey_good key d : openKey files epoch key = Some d -> goodDecoder (key_shard key) d.
Proof.
  unfold openKey, decoderOpen. destruct (files _) as [content|]; [|done]. cbn [mbind option_bind].
  destruct (readBytes _ _ _) as [hb|]; [|done].
  cbn [fmap option_fmap option_map mbind option_bind].
  generalize (view l_BinaryMarketSegmentHeader hb) as h. intros h.
  destruct (segmentHeaderInvalid _ _ _ _) eqn:Ei; [done|]. destruct (negb workspacePrepare); [done|].
  intros [= <-]. unfold segmentHeaderInvalid in Ei. bsplit. split; [done|constructor].
Qed.

(** A shard between two calls of [fillHead]. *)
Record goodShard (i : Z) (shard : Shard) : Prop := {
  gs_keys : Forall (fun key => key_shard key = i) (ss_segments shard);
  gs_decoder : if ss_decoder shard is Some d then goodDecoder i d else True;
  gs_head : if ss_head shard is Some head
    then goodRow i head /\ ss_previousSequence shard = h_shardSequence (rec_header head) /\
         ss_previousMonotonic shard = h_receiveMonotonicNs (rec_header head)
    else True;
}.

(** The new head follows the fences of the shard before it. *)
Definition follows (before after : Shard) : Prop :=
  if ss_head after is Some head then crossesOrder (rec_header head) before = false else True.

Lemma fillFrom_good i keys : forall shard d shard',
  Forall (fun key => key_shard key = i) keys ->
  Forall (fun key => key_shard key = i) (ss_segments shard) ->
  ss_head shard = None -> goodDecoder i d ->
  fillFrom files epoch sources keys shard d = Some shard' ->
  goodShard i shard' /\ follows shard shard'.
Proof.
  induction keys as [|key keys IH]; intros shard d shard' Hk Hg Hh Hd; cbn [fillFrom];
    destruct (decoderNext d sources) as [[[row|] d1]|] eqn:E; try done; cbn [mbind option_bind].
  1, 3: on_if Eo; [done|]; intros [= <-]; eapply decoderNext_good in E as [Hr Hd1]; [|exact Hd];
    split; [by split|exact Eo].
  - intros [= <-]. unfold follows. cbn [ss_head upd]. rewrite Hh. split; [|done]. split; try done.
  - destruct (openKey files epoch key) as [d2|] eqn:Eo; [|done]. cbn [mbind option_bind].
    apply Forall_cons in Hk as [Hki Hk]. apply openKey_good in Eo. rewrite Hki in Eo.
    intros Hf. by apply IH in Hf.
Qed.

Lemma fillHead_good i shard shard' :
  goodShard i shard -> fillHead files epoch sources shard = Some shard' ->
  goodShard i shard' /\ follows shard shard'.
Proof.
  intros [Hk Hd _]. unfold fillHead. cbn [ss_position ss_segments ss_decoder upd].
  pose proof (Forall_drop _ (ss_position shard) _ Hk) as Hdrop.
  destruct (ss_decoder shard) as [d|] eqn:Ed; [by intros Hf%(fillFrom_good i)|].
  destruct (drop _ _) as [|key keys] eqn:Er.
  - intros [= <-]. split; [|done]. split; cbn [ss_segments ss_decoder ss_head upd]; try done.
  - destruct (openKey files epoch key) as [d|] eqn:Eo; [|done]. cbn [mbind option_bind].
    apply Forall_cons in Hdrop as [Hki Hdrop]. apply openKey_good in Eo. rewrite Hki in Eo.
    by intros Hf%(fillFrom_good i).
Qed.
End shard.

End merge.
