(* ===== verification/ReaderSelect.v ===== *)
(** * ReaderSelect: what [open] accepts and [select] returns

    The record sequence of a cursor is the strictly ordered merge of what the
    segments of each shard decode to; what [open] has checked, [next] delivers. *)
From stdpp Require Import base list numbers strings sorting.
From S2P Require Import Prelude Codec Layout Format DepthTransaction SourceState Disk Metadata.
From S2P Require Import BlockCodec Segment Reader ReaderLoops ReaderMerge.
Import Crc32c.
Local Open Scope Z_scope.

Definition before (left right : BinaryMarketRecord) : Prop := recordBefore left right = true.
#[export] Instance before_transitive : Transitive before.
Proof. exact before_trans. Qed.

Section select.
Context `{CxetMarket} `{ByteBlockCodec}.
Context (files : Files).

(** ** Runs of the merge *)

(** The records a state still merges, with the shard of each, up to the end. *)
Inductive merges : CursorState -> list (nat * BinaryMarketRecord) -> CursorState -> Prop :=
| merges_end state : selectShard (cs_shards state) = None -> merges state [] state
| merges_step state i record state' rows final :
    selectShard (cs_shards state) = Some (i, record) ->
    mergeAdvance files record i state = Some state' -> merges state' rows final ->
    merges state ((i, record) :: rows) final.

(** What a merge step leaves alone. *)
Record sameCursor (s t : CursorState) : Prop := {
  sc_request : cs_request t = cs_request s;
  sc_manifest : cs_manifest t = cs_manifest s;
  sc_sources : cs_sources t = cs_sources s;
  sc_sourceId : cs_sourceId t = cs_sourceId s;
  sc_included : cs_includedSources t = cs_includedSources s;
  sc_failed : cs_failed t = cs_failed s;
  sc_segments : map ss_segments (cs_shards t) = map ss_segments (cs_shards s);
}.
#[export] Instance sameCursor_preorder : PreOrder sameCursor.
Proof.
  split; [by split|]. intros a b c [] []. split; by etrans.
Qed.

Lemma map_insert_same {A B} (f : A -> B) xs i x y :
  xs !! i = Some x -> f y = f x -> map f (<[i := y]> xs) = map f xs.
Proof.
  intros Hi Hf. change (map f) with (fmap (M := list) f). rewrite list_fmap_insert, Hf.
  apply list_insert_id. by rewrite list_lookup_fmap, Hi.
Qed.

(** The shard of a merged record advances, the others stay. *)
Lemma mergeAdvance_shard record i s s' :
  mergeAdvance files record i s = Some s' ->
  exists shard tx shard', cs_shards s !! i = Some shard /\
    fillHead files (mf_producerEpoch (cs_manifest s)) (Z.of_nat (length (cs_sources s)))
      (shard <| ss_depthTransaction := tx |>) = Some shard' /\
    cs_shards s' = <[i := shard']> (cs_shards s) /\ sameCursor s s'.
Proof.
  unfold mergeAdvance. destruct (cs_shards s !! i) as [shard|] eqn:Es; [|done].
  cbn [mbind option_bind].
  destruct (advanceBinaryMarketDepthTransaction _ _) as [ok tx]. on_if E1; [done|].
  destruct (cs_sourceStates s !! _); [|done]. cbn [mbind option_bind].
  destruct (advanceBinaryMarketSourceState _ _ _) as [ok2 ss]. on_if E2; [done|].
  destruct (fillHead _ _ _ _) as [shard'|] eqn:Ef; [|done]. cbn [mbind option_bind].
  intros [= <-]. exists shard, tx, shard'. split_and!; [done..|].
  apply fillHead_frame in Ef as [Hs _]. split; try done. cbn [cs_shards upd].
  by eapply map_insert_same.
Qed.

Lemma merges_same s rows t : merges s rows t -> sameCursor s t.
Proof.
  induction 1 as [|s i record s' rows t Hs Hm _ IH]; [done|].
  apply mergeAdvance_shard in Hm as (_ & _ & _ & _ & _ & _ & Hsame). by etrans.
Qed.

Lemma same_inSelection s t record : sameCursor s t -> inSelection t record = inSelection s record.
Proof. intros []. unfold inSelection. congruence. Qed.
Lemma same_unusable s t record : sameCursor s t -> unusable t record = unusable s record.
Proof. intros []. unfold unusable. congruence. Qed.

(** ** The preflight runs the merge to its end *)

Definition usable (state : CursorState) (record : BinaryMarketRecord) : Prop :=
  inSelection state record = true -> unusable state record = false.

Lemma same_usable s t record : sameCursor s t -> usable t record -> usable s record.
Proof.
  unfold usable. intros Hs. by rewrite (same_inSelection _ _ _ Hs), (same_unusable _ _ _ Hs).
Qed.

Lemma preflightMerge_merges fuel : forall s output t output',
  preflightMerge files fuel s output = Some (inr (t, output')) ->
  exists rows, merges s rows t /\ Forall (usable s) rows.*2.
Proof.
  induction fuel as [|fuel IH]; intros s output t output'; [done|]. cbn [preflightMerge].
  destruct (selectShard (cs_shards s)) as [[i record]|] eqn:Es;
    [|intros [= <- <-]; exists []; split; [by constructor|constructor]].
  destruct (mergeAdvance files record i s) as [s1|] eqn:Em; [|done].
  pose proof Em as (_ & _ & _ & _ & _ & _ & Hsame)%mergeAdvance_shard.
  destruct (cs_sourceStates s1 !! _) as [sourceState|]; [|done].
  assert (forall out, preflightMerge files fuel s1 out = Some (inr (t, output')) ->
    usable s1 record -> exists rows, merges s rows t /\ Forall (usable s) rows.*2) as Hgo.
  { intros out (rows & Hm & Hu)%IH Hr. exists ((i, record) :: rows). split; [by econstructor|].
    constructor; [by eapply same_usable|]. eapply Forall_impl; [exact Hu|].
    intros r. by apply same_usable. }
  destruct (inSelection s1 record) eqn:Ei; cbn [negb];
    [|intros Hp; eapply Hgo; [exact Hp|]; unfold usable; congruence].
  on_if Eg; [done|]. on_if Er; [done|]. intros Hp. eapply Hgo; [exact Hp|].
  intros _. unfold unusable. by rewrite Eg, Er.
Qed.

(** ** [next] and [select] run the same merge *)

Lemma nextLoop_merges fuel : forall s rows t,
  (cursorFuel files s <= fuel)%nat -> merges s rows t -> Forall (usable s) rows.*2 ->
  (List.filter (inSelection s) rows.*2 = [] /\
   exists s', nextLoop files fuel s = Some (Ok, None, s')) \/
  (exists record rest s', nextLoop files fuel s = Some (Ok, Some record, s') /\
     (cursorFuel files s' < cursorFuel files s)%nat /\ sameCursor s s' /\ merges s' rest t /\
     Forall (usable s') rest.*2 /\
     List.filter (inSelection s) rows.*2 = record :: List.filter (inSelection s') rest.*2).
Proof.
  induction fuel as [|fuel IH]; intros s rows t Hf Hm Hu; [unfold Reader.cursorFuel in Hf; lia|].
  cbn [nextLoop]. destruct Hm as [s Hs|s i record s1 rows t Hs Ha Hm].
  { rewrite Hs. left. eauto. }
  rewrite Hs, Ha. pose proof (mergeAdvance_fuel _ _ _ _ _ Hs Ha) as Hlt.
  pose proof Ha as (_ & _ & _ & _ & _ & _ & Hsame)%mergeAdvance_shard.
  cbn [fmap list_fmap snd] in Hu. apply Forall_cons in Hu as [Hr Hu].
  assert (Forall (usable s1) rows.*2) as Hu1.
  { eapply Forall_impl; [exact Hu|]. intros r. unfold usable.
    by rewrite (same_inSelection _ _ _ Hsame), (same_unusable _ _ _ Hsame). }
  assert (List.filter (inSelection s) rows.*2 = List.filter (inSelection s1) rows.*2) as Hfilter.
  { apply filter_ext. intros r. by rewrite (same_inSelection _ _ _ Hsame). }
  cbn [fmap list_fmap snd List.filter]. rewrite (same_inSelection _ _ _ Hsame).
  destruct (inSelection s record) eqn:Ei; cbn [negb].
  - right. rewrite (same_unusable _ _ _ Hsame), (Hr Ei). exists record, rows, s1.
    change (@fmap list list_fmap _ _ snd rows) with (rows.*2). rewrite <- Hfilter. by split_and!.
  - change (@fmap list list_fmap _ _ snd rows) with (rows.*2). rewrite Hfilter.
    destruct (IH s1 rows t) as [[Hn He]|(r & rest & s' & He & Hl & Hs' & Hm' & Hu' & Hn)];
      [lia|done..|by left|]. right. exists r, rest, s'. split_and!; try done; [lia|by etrans].
Qed.

Lemma collect_merges fuel : forall s rows t,
  (cursorFuel files s <= fuel)%nat -> merges s rows t -> Forall (usable s) rows.*2 ->
  collect files fuel s = Some (Ok, List.filter (inSelection s) rows.*2).
Proof.
  induction fuel as [|fuel IH]; intros s rows t Hf Hm Hu; [unfold Reader.cursorFuel in Hf; lia|].
  cbn [collect].
  destruct (nextLoop_merges (cursorFuel files s) s rows t)
    as [[-> (s' & ->)]|(r & rest & s' & -> & Hl & Hs' & Hm' & Hu' & ->)]; [lia|done..|].
  cbn [mbind option_bind]. change (negb (isOk Ok)) with false. cbv iota.
  rewrite (IH s' rest t) by (done || lia). done.
Qed.

(** ** Each shard's records, in order *)

Definition shardRows (i : nat) (rows : list (nat * BinaryMarketRecord)) : list BinaryMarketRecord :=
  (filter (fun row => row.1 = i) rows).*2.

(** A shard without a head has nothing left. *)
Definition settled (shard : Shard) : Prop :=
  ss_head shard = None -> ss_decoder shard = None /\ remaining shard = [].

Lemma merges_streams s rows t i shard :
  merges s rows t -> cs_shards s !! i = Some shard -> settled shard ->
  exists rest,
    streams files (mf_producerEpoch (cs_manifest s)) (Z.of_nat (length (cs_sources s))) shard rest /\
    shardRows i rows = option_list (ss_head shard) ++ rest /\ (ss_head shard = None -> rest = []).
Proof.
  intros Hm. revert shard. induction Hm as [s Hs|s j record s' rows t Hs Ha Hm IH]; intros shard Hi He.
  - pose proof (selectShard_none _ _ _ Hs Hi) as Hn. destruct (He Hn) as [Hd Hr].
    exists []. rewrite Hn. split_and!; [|done..]. exists [], []. rewrite Hd, Hr. split_and!; [done|constructor|done].
  - pose proof Ha as (shard1 & tx & shard' & Hj & Hf & Hshards & Hsame)%mergeAdvance_shard.
    destruct Hsame as [_ Hmf Hsrc _ _ _ _]. rewrite Hmf, Hsrc in IH.
    destruct (selectShard_head _ _ _ Hs) as (shard2 & Hj2 & Hh). simplify_eq.
    rewrite Hshards in IH. unfold shardRows. rewrite filter_cons. cbn [fst].
    destruct (decide (j = i)) as [->|Hne].
    + simplify_eq. destruct (IH shard') as (rest & Hst & Hr & Hn).
      { apply list_lookup_insert_eq. by eapply lookup_lt_Some. }
      { intros Hn. by eapply fillHead_end. }
      exists (option_list (ss_head shard') ++ rest). rewrite Hh. split_and!; [|by rewrite <- Hr|done].
      eapply (fillHead_streams files _ _ _ _ _ Hf) in Hst; [|done]. done.
    + apply IH; [|done]. by rewrite list_lookup_insert_ne.
Qed.

(** ** The merge is strictly ordered *)

Definition goodShards (shards : list Shard) : Prop :=
  forall i shard, shards !! i = Some shard -> goodShard (Z.of_nat i) shard.

Lemma mergeAdvance_good record i s s' :
  goodShards (cs_shards s) -> mergeAdvance files record i s = Some s' -> goodShards (cs_shards s').
Proof.
  intros Hg (shard & tx & shard' & Hj & Hf & -> & _)%mergeAdvance_shard j sh Hjs.
  destruct (decide (j = i)) as [->|Hne].
  - rewrite list_lookup_insert_eq in Hjs by (by eapply lookup_lt_Some). simplify_eq.
    eapply fillHead_good; [|exact Hf]. destruct (Hg _ _ Hj). by split.
  - rewrite list_lookup_insert_ne in Hjs by done. by apply Hg.
Qed.

(** The next record follows the one that left. *)
Lemma next_follows s i record s' j record' :
  goodShards (cs_shards s) -> selectShard (cs_shards s) = Some (i, record) ->
  mergeAdvance files record i s = Some s' -> selectShard (cs_shards s') = Some (j, record') ->
  before record record'.
Proof.
  intros Hg Hs Ha Hs'.
  pose proof (mergeAdvance_good _ _ _ _ Hg Ha) as Hg'.
  pose proof Ha as (shard & tx & shard' & Hi & Hf & Hshards & _)%mergeAdvance_shard.
  destruct (selectShard_head _ _ _ Hs) as (? & ? & Hh). simplify_eq.
  destruct (selectShard_head _ _ _ Hs') as (shardj & Hj & Hhj).
  pose proof (gs_head _ _ (Hg _ _ Hi)) as Hgi. rewrite Hh in Hgi. destruct Hgi as ([Hv Hx] & Hps & Hpm).
  pose proof (gs_head _ _ (Hg' _ _ Hj)) as Hgj. rewrite Hhj in Hgj. destruct Hgj as ([_ Hxj] & _).
  rewrite Hshards in Hj. destruct (decide (j = i)) as [->|Hne].
  - rewrite list_lookup_insert_eq in Hj by (by eapply lookup_lt_Some). simplify_eq.
    apply (fillHead_good files _ _ (Z.of_nat i)) in Hf as [_ Hfo]; [|destruct (Hg _ _ Hi); by split].
    unfold follows in Hfo. rewrite Hhj in Hfo. unfold crossesOrder in Hfo.
    cbn [ss_previousSequence ss_previousMonotonic upd] in Hfo. rewrite Hps, Hpm in Hfo.
    destruct (valid_row_fences _ Hv) as (Hs0 & Hm0 & _ & _).
    rewrite <- Z.eqb_neq in Hs0, Hm0. rewrite Hs0, Hm0 in Hfo. cbn [negb andb] in Hfo. bsplit.
    apply before_later; [congruence|lia..].
  - rewrite list_lookup_insert_ne in Hj by done.
    apply before_total; [rewrite Hx, Hxj; lia|]. by eapply selectShard_least.
Qed.

Lemma merges_sorted s rows t :
  goodShards (cs_shards s) -> merges s rows t -> StronglySorted before rows.*2.
Proof.
  intros Hg Hm. apply Sorted_StronglySorted; [apply _|]. revert Hg.
  induction Hm as [|s i record s' rows t Hs Ha Hm IH]; intros Hg; [constructor|].
  constructor; [by apply IH; eapply mergeAdvance_good|].
  destruct Hm as [|s' j record' s2 rows t Hs' Ha' Hm']; constructor. by eapply next_follows.
Qed.

(** The shard of a record is the one it was merged from. *)
Lemma merges_index s rows t :
  goodShards (cs_shards s) -> merges s rows t ->
  Forall (fun row => h_shardIndex (rec_header row.2) = Z.of_nat row.1 /\
                     (row.1 < length (cs_shards s))%nat) rows.
Proof.
  intros Hg Hm. induction Hm as [|s i record s' rows t Hs Ha Hm IH]; constructor.
  - destruct (selectShard_head _ _ _ Hs) as (shard & Hi & Hh).
    pose proof (gs_head _ _ (Hg _ _ Hi)) as Hgi. rewrite Hh in Hgi.
    split; [apply Hgi|]. cbn. by eapply lookup_lt_Some.
  - pose proof Ha as (? & ? & ? & _ & _ & Hsh & _)%mergeAdvance_shard.
    rewrite Hsh, length_insert in IH. apply IH. rewrite <- Hsh. by eapply mergeAdvance_good.
Qed.

(** ** The physical preflight *)

Definition fresh (segments : list SegmentKey) : Shard := MkShard segments 0 None None 0 0 idle.

(** A shard the physical preflight has only fenced and given segments. *)
Definition idleShard (shard : Shard) : Prop := dropFences shard = fresh (ss_segments shard).

Lemma rewind_fresh shard : rewind shard = fresh (ss_segments shard).
Proof. by destruct shard. Qed.

Lemma observeRows_idle fuel key sources : forall d shard observed records shard' observed' records',
  observeRows fuel key sources d shard observed records = Some (Some (shard', observed', records')) ->
  dropFences shard' = dropFences shard.
Proof.
  induction fuel as [|fuel IH]; intros d shard observed records shard' observed' records'; [done|].
  cbn [observeRows]. destruct (decoderNext d sources) as [[[row|] d1]|]; [|by intros [= <- _ _]|done].
  destruct (crossesOrder _ _); [done|]. intros ->%IH. done.
Qed.

(** Every shard gets the segments of its own number, in order. *)
Definition keysOf (i : nat) (keys : list SegmentKey) : list SegmentKey :=
  List.filter (fun key => key_shard key =? Z.of_nat i) keys.

Lemma preflightSegment_shards m sources index key shards bytes records shards' bytes' records' :
  preflightSegment files m sources index key (shards, bytes, records) =
    Some (Some (shards', bytes', records')) ->
  exists shard shard', shards !! Z.to_nat (key_shard key) = Some shard /\
    shards' = <[Z.to_nat (key_shard key) := shard']> shards /\
    ss_segments shard' = ss_segments shard ++ [key] /\ (idleShard shard -> idleShard shard').
Proof.
  unfold preflightSegment. destruct (openKey _ _ _) as [d|]; [|done].
  destruct (shards !! _) as [shard|] eqn:Es; [|done]. destruct (_ || _); [done|].
  destruct (observeRows _ _ _ _ _ _ _) as [[[[shard1 observed] records1]|]|] eqn:Eo; [|done..].
  destruct (negb _); [done|]. intros [= <- <- <-]. apply observeRows_idle in Eo.
  eexists shard, _. split; [done|]. split; [done|].
  destruct shard1, shard. unfold dropFences in Eo. cbn in Eo. injection Eo as -> -> -> -> ->.
  split; [done|]. unfold idleShard, dropFences, fresh. cbn. intros [= -> -> -> ->]. done.
Qed.

Lemma preflightSegments_shards m sources index keys : forall shards bytes records shards' bytes' records',
  Forall (fun key => 0 <= key_shard key) keys ->
  preflightSegments files m sources index keys (shards, bytes, records) =
    Some (Some (shards', bytes', records')) ->
  Forall idleShard shards ->
  Forall idleShard shards' /\ length shards' = length shards /\
  forall i shard, shards !! i = Some shard -> exists shard', shards' !! i = Some shard' /\
    ss_segments shard' = ss_segments shard ++ keysOf i keys.
Proof.
  induction keys as [|key keys IH]; intros shards bytes records shards' bytes' records' Hk.
  { cbn. intros [= -> -> ->] Hall. split_and!; [done..|]. intros i shard Hi. exists shard.
    by rewrite app_nil_r. }
  apply Forall_cons in Hk as [Hki Hk]. cbn [preflightSegments].
  destruct (preflightSegment _ _ _ _ _ _) as [[[[shards1 bytes1] records1]|]|] eqn:Ep; [|done..].
  apply preflightSegment_shards in Ep as (shard & shard1 & Hs & -> & Hseg & Hidle).
  intros Hp Hall. apply IH in Hp as (Hall' & Hlen & Hp); [|done|].
  2: { apply Forall_insert; [done|]. apply Hidle. by eapply Forall_lookup_1. }
  rewrite length_insert in Hlen. split_and!; [done..|]. intros i sh Hi.
  unfold keysOf. cbn [List.filter].
  destruct (decide (i = Z.to_nat (key_shard key))) as [->|Hne].
  - simplify_eq. rewrite Z2Nat.id, Z.eqb_refl by done.
    destruct (Hp (Z.to_nat (key_shard key)) shard1) as (sh' & Hi' & Hs');
      [apply list_lookup_insert_eq; by eapply lookup_lt_Some|].
    exists sh'. split; [done|]. rewrite Hs', Hseg, <- app_assoc. unfold keysOf. by rewrite Z2Nat.id.
  - destruct (Z.eqb_spec (key_shard key) (Z.of_nat i)); [lia|]. apply Hp. by rewrite list_lookup_insert_ne.
Qed.

Lemma fillHeads_lookup epoch sources shards : forall shards',
  fillHeads files epoch sources shards = Some shards' ->
  length shards' = length shards /\
  forall i shard, shards !! i = Some shard -> exists shard', shards' !! i = Some shard' /\
    fillHead files epoch sources shard = Some shard'.
Proof.
  induction shards as [|shard shards IH]; intros shards'; cbn [fillHeads]; [by intros [= <-]|].
  destruct (fillHead _ _ _ _) as [shard1|] eqn:Ef; [|done]. cbn [mbind option_bind].
  destruct (fillHeads _ _ _ _) as [rest|]; [|done]. cbn [mbind option_bind]. intros [= <-].
  destruct (IH rest eq_refl) as [Hl Hr]. split; [cbn; lia|].
  intros [|i] sh; [intros [= <-]; by exists shard1|]. apply Hr.
Qed.

(** ** The index gives every segment a shard *)

Lemma readTable_fits {A} (l : layout A) content magic crc maximum expected rows :
  bytes_ok content -> sizeofz l < 2 ^ 32 ->
  readTable l (Some content) magic crc maximum expected = Some rows -> Forall (fits l) rows.
Proof.
  intros Hb Hl. unfold readTable. cbn [mbind option_bind].
  destruct (readBytes content 0 _) as [hb|] eqn:Eh; [|done].
  destruct (readBytes_ok _ _ _ _ Hb Eh) as [Hbh Hlh].
  pose proof (view_fits l_BinaryMarketTableHeader hb Hbh ltac:(lia)) as Hfh.
  cbn [fmap option_fmap option_map mbind option_bind].
  generalize dependent (view l_BinaryMarketTableHeader hb). intros h Hfh.
  destruct (_ || _); [done|].
  assert (in_u32 (th_recordCount h)) as Hc by (destruct h; cbn in Hfh; tauto).
  assert (u64 (th_recordCount h * sizeofz l) = th_recordCount h * sizeofz l) as ->
    by (apply u64_id; unfold in_u32, in_u64, u32_max, u64_max in *; unfold sizeofz in *; nia).
  destruct (Z.eqb_spec (th_recordCount h * sizeofz l) 0) as [E|E].
  - cbn [mbind option_bind]. destruct (negb _); [done|]. intros [= <-].
    apply view_array_fits; [constructor|]. unfold sizeofz in E. cbn. lia.
  - destruct (readBytes content _ (Z.to_nat _)) as [bytes|] eqn:Er; [|done].
    cbn [mbind option_bind]. destruct (negb _); [done|]. intros [= <-].
    apply readBytes_ok in Er as [Hbr Hlr]; [|done]. apply view_array_fits; [done|].
    rewrite Hlr. unfold sizeofz. lia.
Qed.

Lemma walkIndex_shards index m sources : forall walk walk',
  Forall (fits l_BinaryMarketIndexEntry) index ->
  Forall (fun shard => 0 <= shard) (iw_segmentShards walk) ->
  walkIndex index m sources walk = Some walk' ->
  Forall (fun shard => 0 <= shard) (iw_segmentShards walk').
Proof.
  induction index as [|entry index IH]; intros walk walk' Hf Hw; cbn [walkIndex]; [by intros [= <-]|].
  apply Forall_cons in Hf as [He Hf]. destruct (indexEntryInvalid _ _ _); [done|].
  destruct (sources !! _) as [source|]; [|done]. cbn [mbind option_bind]. destruct (_ <? _); [done|].
  destruct (_ !! _) as [known|]; [|done]. cbn [mbind option_bind]. destruct (_ && _); [done|].
  destruct (_ || _); [done|]. apply IH; [done|]. cbn [iw_segmentShards].
  apply Forall_insert; [done|]. destruct entry. cbn in *. unfold fits_unsigned in He. lia.
Qed.

Lemma checkIndex_shards index m sources shards :
  Forall (fits l_BinaryMarketIndexEntry) index ->
  checkIndex index m sources = Some shards -> Forall (fun shard => 0 <= shard) shards.
Proof.
  intros Hf. unfold checkIndex. destruct (walkIndex _ _ _ _) as [walk|] eqn:E; [|done].
  cbn [mbind option_bind]. destruct (_ || _); [done|]. intros [= <-].
  eapply walkIndex_shards; [exact Hf| |exact E]. cbn. apply Forall_replicate. done.
Qed.

(** ** What a corpus holds *)

(** The records of the segments [keys] of a corpus in emission order: strictly
    ordered, and for each shard exactly what its segments decode to, in order. *)
Record holds (m : BinaryMarketManifest) (sources : list BinaryMarketSource)
  (keys : list SegmentKey) (rows : list BinaryMarketRecord) : Prop := {
  ho_order : StronglySorted before rows;
  ho_shards : Forall (fun row => 0 <= h_shardIndex (rec_header row) < mf_shardCount m) rows;
  ho_rows : forall i, 0 <= i < mf_shardCount m ->
    exists segments,
      Forall2 (segmentRows files (mf_producerEpoch m) (Z.of_nat (length sources)))
        (List.filter (fun key => key_shard key =? i) keys) segments /\
      List.filter (fun row => h_shardIndex (rec_header row) =? i) rows = concat segments;
}.

(** An open cursor: at the first record of the merge of [keys]. *)
Record opened (state : CursorState) (keys : list SegmentKey) : Prop := {
  op_failed : cs_failed state = false;
  op_count : length (cs_shards state) = Z.to_nat (mf_shardCount (cs_manifest state));
  op_shards : forall i shard, cs_shards state !! i = Some shard ->
    fillHead files (mf_producerEpoch (cs_manifest state)) (Z.of_nat (length (cs_sources state)))
      (fresh (keysOf i keys)) = Some shard;
}.

Lemma keysOf_shard i keys : Forall (fun key => key_shard key = Z.of_nat i) (keysOf i keys).
Proof.
  apply List.Forall_forall. intros key [_ Hk]%filter_In. by apply Z.eqb_eq.
Qed.

Lemma opened_good state keys : opened state keys -> goodShards (cs_shards state).
Proof.
  intros [_ _ Hs] i shard Hi. eapply fillHead_good; [|by apply Hs]. split; try done.
  apply keysOf_shard.
Qed.

Lemma shardRows_index i rows :
  Forall (fun row => h_shardIndex (rec_header row.2) = Z.of_nat row.1) rows ->
  shardRows i rows =
    List.filter (fun row => h_shardIndex (rec_header row) =? Z.of_nat i) rows.*2.
Proof.
  unfold shardRows. induction 1 as [|[j row] rows Hj _ IH]; [done|]. rewrite filter_cons. cbn in *.
  rewrite Hj. destruct (decide (j = i)) as [->|]; [rewrite Z.eqb_refl; cbn; by rewrite IH|].
  destruct (Z.eqb_spec (Z.of_nat j) (Z.of_nat i)); [lia|done].
Qed.

Lemma opened_holds state keys rows t :
  opened state keys -> merges state rows t ->
  holds (cs_manifest state) (cs_sources state) keys rows.*2.
Proof.
  intros Ho Hm. pose proof (opened_good _ _ Ho) as Hg. destruct Ho as [_ Hc Hs].
  pose proof (merges_index _ _ _ Hg Hm) as Hi.
  split; [by eapply merges_sorted|..].
  - rewrite Forall_fmap. eapply Forall_impl; [exact Hi|]. intros [j row]. cbn. lia.
  - intros i Hlt. destruct (cs_shards state !! Z.to_nat i) as [shard|] eqn:Ei;
      [|apply lookup_ge_None in Ei; lia].
    specialize (Hs _ _ Ei).
    destruct (merges_streams _ _ _ _ _ Hm Ei) as (rest & Hst & Hr & Hn);
      [intros Hn; by eapply fillHead_end|].
    eapply (fillHead_streams files _ _ _ _ _ Hs) in Hst; [|done].
    destruct Hst as (current & segments & Hcur & Hall & Heq). cbn in Hcur. subst current.
    exists segments. rewrite shardRows_index in Hr by (eapply Forall_impl; [exact Hi|]; tauto).
    rewrite Z2Nat.id in Hr by lia. rewrite Hr, Heq. split; [|done].
    unfold remaining, keysOf in Hall. cbn in Hall. by rewrite Z2Nat.id in Hall by lia.
Qed.

(** ** [open] *)

(** The keys of the segments [1 .. segmentCount]. *)
Definition segmentKeys (m : BinaryMarketManifest) (segmentShards : list Z) : list SegmentKey :=
  map (fun number : nat => MkSegmentKey (Z.of_nat number) (nth number segmentShards unknownShard))
    (seq 1 (Z.to_nat (mf_segmentCount m))).

Lemma segmentKeys_shards m shards : Forall (fun shard => 0 <= shard) shards ->
  Forall (fun key => 0 <= key_shard key) (segmentKeys m shards).
Proof.
  intros Hs. apply List.Forall_forall. intros key (n & <- & _)%in_map_iff. cbn.
  destruct (nth_in_or_default n shards unknownShard) as [Hin| ->]; [|done].
  by eapply List.Forall_forall in Hin.
Qed.

Lemma startCursor_shards s s' :
  startCursor files s = Some s' ->
  exists shards, fillHeads files (mf_producerEpoch (cs_manifest s))
    (Z.of_nat (length (cs_sources s))) (cs_shards s) = Some shards /\
    s' = s <| cs_shards := shards |>.
Proof.
  unfold startCursor. destruct (fillHeads _ _ _ _) as [shards|]; [|done].
  cbn [mbind option_bind]. intros [= <-]. eauto.
Qed.

Lemma startCursor_same s s' : startCursor files s = Some s' -> sameCursor s s'.
Proof.
  intros (shards & Hf & ->)%startCursor_shards. split; try done. cbn [cs_shards upd].
  apply fillHeads_lookup in Hf as [Hl Hf]. apply list_eq. intros i.
  change (map ss_segments) with (fmap (M := list) ss_segments). rewrite !list_lookup_fmap.
  destruct (cs_shards s !! i) as [shard|] eqn:Ei.
  - destruct (Hf _ _ Ei) as (shard' & -> & [Hs _]%fillHead_frame). cbn. by rewrite Hs.
  - apply lookup_ge_None in Ei. by rewrite lookup_ge_None_2 by lia.
Qed.

(** The cursor starts over exactly as it was before the preflight merge. *)
Lemma resetCursor_start s started rows finished :
  Forall idleShard (cs_shards s) ->
  cs_sourceStates s = map initialBinaryMarketSourceState (cs_sources s) ->
  startCursor files (s <| cs_shards ::= map dropFences |>) = Some started ->
  merges started rows finished ->
  resetCursor finished = s <| cs_shards ::= map dropFences |>.
Proof.
  intros Hidle Hst Hs Hm. apply startCursor_same in Hs. apply merges_same in Hm.
  destruct (transitivity Hs Hm) as [E1 E2 E3 E4 E5 E6 E7].
  cbn [cs_request cs_manifest cs_sources cs_sourceId cs_includedSources cs_failed cs_shards upd] in *.
  assert (map rewind (cs_shards finished) = map dropFences (cs_shards s)) as Hsh.
  { trans (map fresh (map ss_segments (cs_shards finished)));
      [rewrite map_map; apply map_ext, rewind_fresh|]. rewrite E7, !map_map.
    apply map_ext_Forall. eapply Forall_impl; [exact Hidle|]. intros shard Hi. cbn.
    unfold idleShard in Hi. by rewrite Hi. }
  destruct finished, s. unfold resetCursor. cbn in *. subst. by rewrite Hsh.
Qed.

(** What [preflight] accepts it returns at the first record, and the merge from there
    runs to its end over usable records. *)
Lemma preflight_opened s output index gaps segmentShards s' output' :
  cs_shards s = replicate (Z.to_nat (mf_shardCount (cs_manifest s))) shard0 ->
  cs_sourceStates s = map initialBinaryMarketSourceState (cs_sources s) ->
  cs_failed s = false -> Forall (fun shard => 0 <= shard) segmentShards ->
  preflight files s output index gaps segmentShards = Some (inr (s', output')) ->
  opened s' (segmentKeys (cs_manifest s) segmentShards) /\
  cs_request s' = cs_request s /\ cs_manifest s' = cs_manifest s /\ cs_sources s' = cs_sources s /\
  cs_includedSources s' = cs_includedSources s /\
  exists rows t, merges s' rows t /\ Forall (usable s') rows.*2.
Proof.
  intros Hsh Hst Hfail Hnn. unfold preflight. fold (segmentKeys (cs_manifest s) segmentShards).
  match goal with |- context [preflightSegments ?f ?a ?b ?c ?d ?e] =>
    destruct (preflightSegments f a b c d e) as [[[[shards bytes] records]|]|] eqn:Ep; try done end.
  destruct (_ || _); [done|].
  apply preflightSegments_shards in Ep as (Hidle & Hlen & Hseg);
    [|by apply segmentKeys_shards|rewrite Hsh; by apply Forall_replicate].
  destruct (startCursor files _) as [started|] eqn:Es; [|done].
  destruct (preflightMerge _ _ _ _) as [[|[finished output1]]|] eqn:Em; [done| |done].
  apply preflightMerge_merges in Em as (rows & Hm & Hu).
  destruct (existsb _ _); [done|]. destruct (outside _ _); [done|].
  assert (resetCursor finished = s <| cs_shards := map dropFences shards |>) as ->
    by exact (resetCursor_start (s <| cs_shards := shards |>) _ _ _ Hidle Hst Es Hm).
  rewrite Es. intros [= <- <-].
  pose proof (startCursor_same _ _ Es) as [E1 E2 E3 E4 E5 E6 _].
  apply startCursor_shards in Es as (shards' & [Hl Hf]%fillHeads_lookup & ->). cbn in *.
  split_and!; try done; [|by exists rows, finished].
  split; cbn; [done|..].
  - rewrite Hl, length_map, Hlen, Hsh, length_replicate. done.
  - intros i shard' Hi.
    assert (i < length (cs_shards s))%nat as Hlt
      by (rewrite <- Hlen; apply lookup_lt_Some in Hi; by rewrite Hl, length_map in Hi).
    destruct (Hseg i shard0) as (shard & His & Hsegs).
    { rewrite Hsh. apply lookup_replicate_2. by rewrite Hsh, length_replicate in Hlt. }
    destruct (Hf i (dropFences shard)) as (shard2 & Hi2 & Hf2).
    { change (map dropFences) with (fmap (M := list) dropFences). by rewrite list_lookup_fmap, His. }
    simplify_eq. rewrite Forall_lookup in Hidle. rewrite (Hidle _ _ His), Hsegs in Hf2. exact Hf2.
Qed.

Definition filesOk : Prop := forall path content, files path = Some content -> bytes_ok content.

(** What [open] accepts: the index of the corpus, the shard of every segment number and
    the merge from the first record. *)
Lemma open_opened request s output :
  (forall content, files (RootFile "index.bin") = Some content -> bytes_ok content) ->
  open files request = Some (inr (s, output)) ->
  cs_request s = request /\ catalog files = (Ok, Some (cs_manifest s, cs_sources s)) /\
  exists index segmentShards,
    readTable l_BinaryMarketIndexEntry (files (RootFile "index.bin")) kBinaryMarketIndexMagic
      (mf_indexCrc32c (cs_manifest s)) (mf_maximumBytes (cs_manifest s))
      (mf_indexCount (cs_manifest s)) = Some index /\
    checkIndex index (cs_manifest s) (cs_sources s) = Some segmentShards /\
    opened s (segmentKeys (cs_manifest s) segmentShards) /\
    exists rows t, merges s rows t /\ Forall (usable s) rows.*2.
Proof.
  intros Hok. unfold open. destruct (requestInvalid request); [done|].
  destruct (catalog files) as [[] [[m sources]|]]; try done.
  destruct (_ || _); [done|]. destruct (_ <? _); [done|].
  destruct (includeIds _ _ _) as [included|]; [|done].
  destruct (selectSource request sources) as [|selected]; [done|].
  destruct (readTable l_BinaryMarketIndexEntry _ _ _ _ _) as [index|] eqn:Ei; [|done].
  destruct (readTable l_BinaryMarketGap _ _ _ _ _) as [gaps|]; [|done].
  destruct (_ || _); [done|]. destruct (checkIndex _ _ _) as [shards|] eqn:Ec; [|done].
  destruct (walkGaps _ _ _ _ _) as [[|]|]; [|done..]. intros Hp.
  assert (Forall (fun shard => 0 <= shard) shards) as Hnn.
  { eapply checkIndex_shards; [|exact Ec]. destruct (files (RootFile "index.bin")) as [content|] eqn:Ef; [|done].
    eapply readTable_fits; [by eapply Hok| |exact Ei]. done. }
  apply preflight_opened in Hp as (Ho & E1 & E2 & E3 & _ & Hm); [|done..].
  cbn in *. rewrite E1, E2, E3. split_and!; [done..|]. exists index, shards. by split_and!.
Qed.

Lemma select_rows request s output rows t :
  open files request = Some (inr (s, output)) -> merges s rows t -> Forall (usable s) rows.*2 ->
  select files request =
    Some (inr (output <| se_records := List.filter (inSelection s) rows.*2 |>)).
Proof.
  intros Ho Hm Hu. unfold select. rewrite Ho. cbn [mbind option_bind].
  rewrite (collect_merges _ s rows t) by done. done.
Qed.

(** ** Claims *)

(** C15: What [select] returns refines the corpus: its records are those
    records of the requested interval, sources and channels, in order, of one strictly
    ordered sequence that contains, for every shard, exactly the records its segments
    among the segments [1 .. segmentCount] decode to, in the order of the segments. *)
Theorem select_refines_merge request selection :
  filesOk -> select files request = Some (inr selection) ->
  exists state output segmentShards rows,
    open files request = Some (inr (state, output)) /\
    holds (cs_manifest state) (cs_sources state) (segmentKeys (cs_manifest state) segmentShards) rows /\
    se_records selection = List.filter (inSelection state) rows.
Proof.
  intros Hok Hs. destruct (open files request) as [[status|[state output]]|] eqn:Eo;
    unfold select in Hs; rewrite Eo in Hs; try done.
  destruct (open_opened _ _ _ (Hok _) Eo) as (_ & _ & index & shards & _ & _ & Hop & rows & t & Hm & Hu).
  pose proof (select_rows _ _ _ _ _ Eo Hm Hu) as Hsel. unfold select in Hsel. rewrite Eo, Hs in Hsel.
  injection Hsel as ->. exists state, output, shards, rows.*2. split; [done|]. split; [|done].
  by eapply opened_holds.
Qed.

(** C16: What [open] has checked [next] delivers: if the cursor opens, [select]
    succeeds with the metadata of [open], and every record it returns lies in the
    requested interval, sources and channels, is no gap boundary and, where the
    request demands it, is compatible with trader replay or a health record. *)
Theorem open_then_select request state output :
  filesOk -> open files request = Some (inr (state, output)) ->
  exists selection, select files request = Some (inr selection) /\
    se_manifest selection = se_manifest output /\
    se_presentChannelMask selection = se_presentChannelMask output /\
    Forall (fun record =>
      let h := rec_header record in
      rq_beginReceiveNs request <= h_receiveRealtimeNs h < rq_endReceiveNs request /\
      nth (Z.to_nat (h_sourceId h)) (cs_includedSources state) false = true /\
      (h_channel h = Channel.SourceLifecycle \/
       has (rq_channelMask request) (binaryMarketChannelBit (h_channel h)) = true) /\
      has (h_flags h) RecordFlag.GapBoundary = false /\
      (rq_requireTraderReplayCompatibility request = true ->
       binaryMarketRecordIsSourceHealth record = true \/ compatible record = true))
      (se_records selection).
Proof.
  intros Hok Ho. destruct (open_opened _ _ _ (Hok _) Ho) as (Hrq & _ & index & shards & _ & _ & Hop & rows & t & Hm & Hu).
  eexists. split; [by eapply select_rows|]. split; [done|]. split; [done|]. cbn [se_records upd].
  apply List.Forall_forall. intros record [Hin Hsel]%filter_In.
  rewrite List.Forall_forall in Hu. specialize (Hu _ Hin Hsel).
  unfold inSelection, unusable in Hsel, Hu. rewrite Hrq in Hsel, Hu. cbv zeta.
  apply negb_true_iff in Hsel. bsplit. split; [lia|]. split; [done|].
  split; [|split; [done|]].
  - destruct (Z.eqb_spec (h_channel (rec_header record)) Channel.SourceLifecycle); [by left|].
    right. by destruct (has (rq_channelMask request) _).
  - intros Hr. rewrite Hr in *. destruct (binaryMarketRecordIsSourceHealth record); [by left|].
    right. by destruct (compatible record).
Qed.

(** C17: Reading a corpus terminates on every content of its files: with the
    fuel computed from the sizes of the files, neither the preflights of [open] nor the
    loops of [next] and [select] run out, so [select] has a result, an error status or
    a selection. *)
Theorem select_terminates request : exists result, select files request = Some result.
Proof.
  unfold select. pose proof (open_fuel files request) as Ho.
  destruct (open files request) as [[status|[state output]]|]; [by eexists| |done].
  cbn [mbind option_bind]. pose proof (collect_fuel files (cursorFuel files state) state (le_n _)) as Hc.
  destruct (collect _ _ _) as [[status records]|]; [|done]. by eexists.
Qed.

End select.
