(* ===== verification/ReaderRun.v ===== *)
(** * ReaderRun: recordings read back

    Instances of the reader's theorems on a corpus the writer produced, and a
    recording the writer finishes but the reader refuses. *)
From stdpp Require Import base list numbers strings.
From S2P Require Import Prelude Codec Layout Format Samples DepthTransaction SourceState Disk Metadata.
From S2P Require Import BlockCodec Cut Segment Writer WriterRun Reader ReaderMerge ReaderSelect.
Import Crc32c.
Local Open Scope Z_scope.

Section samples.
Import Stored.

(** The sealed files of the finished sample recording. *)
Definition sealedPaths : list Path :=
  [RootFile "manifest.bin"; RootFile "sources.bin"; RootFile "index.bin"; RootFile "gaps.bin";
   segmentPath 0 1 Sealed; segmentPath 1 1 Sealed].
Definition sealedFiles : Files := fun path =>
  if decide (path ∈ sealedPaths) then w_files (wr_disk finalizedState) path else None.

Definition sampleRequest : BinaryMarketSelectionRequest :=
  MkRequest "r" (bytes_of_string "binance") (bytes_of_string "spot") (bytes_of_string "btcusdt")
    1500 8000 6 2 true false [].

Lemma sealedFiles_ok : filesOk sealedFiles.
Proof.
  assert (forallb (fun path => forallb (fun b => (0 <=? b) && (b <? 256))
    (default [] (w_files (wr_disk finalizedState) path))) sealedPaths = true) as Hall
    by (vm_compute; reflexivity).
  intros path content. unfold sealedFiles. case_decide as Hin; [|discriminate]. intros Hc.
  rewrite forallb_forall in Hall. specialize (Hall path (proj1 (list_elem_of_In _ _) Hin)).
  rewrite Hc in Hall. by apply bytes_okb.
Qed.

Definition sampleSelection : BinaryMarketSelection :=
  match select sealedFiles sampleRequest with
  | Some (inr selection) => selection
  | _ => MkSelection (wr_manifest finalizedState) None [] 0 0 [] [] [] [] [] [] []
  end.
Lemma sample_selected : select sealedFiles sampleRequest = Some (inr sampleSelection).
Proof. vm_compute. reflexivity. Qed.
Example sample_records : se_records sampleSelection = [sampleTrade].
Proof. vm_compute. reflexivity. Qed.

Lemma select_refines_merge_witness : exists state output segmentShards rows,
  open sealedFiles sampleRequest = Some (inr (state, output)) /\
  holds sealedFiles (cs_manifest state) (cs_sources state)
    (segmentKeys (cs_manifest state) segmentShards) rows /\
  se_records sampleSelection = List.filter (inSelection state) rows.
Proof.
  exact (select_refines_merge sealedFiles sampleRequest sampleSelection sealedFiles_ok sample_selected).
Defined.

Definition sampleCursor : CursorState * BinaryMarketSelection :=
  match open sealedFiles sampleRequest with
  | Some (inr result) => result
  | _ => (MkCursorState sampleRequest (wr_manifest finalizedState) [] [] [] 0 [] false,
          sampleSelection)
  end.
Lemma sample_opened : open sealedFiles sampleRequest = Some (inr (sampleCursor.1, sampleCursor.2)).
Proof. vm_compute. reflexivity. Qed.

Lemma open_then_select_witness : exists selection,
  select sealedFiles sampleRequest = Some (inr selection) /\
  se_manifest selection = se_manifest sampleCursor.2.
Proof.
  destruct (open_then_select sealedFiles sampleRequest sampleCursor.1 sampleCursor.2
    sealedFiles_ok sample_opened) as (selection & Hs & Hm & _).
  exact (ex_intro _ selection (conj Hs Hm)).
Defined.

(** ** A segment number that is burnt *)

(** The file system refuses one call: the creation of the first segment file. *)
Definition refusingWorld : World := MkWorld (fun _ => None) (replicate 11 None ++ [Some 0%nat]).
Definition burnt0 : WriterState :=
  stateOf (let '(status, (writer, _)) := start sampleConfig RootMissing refusingWorld None in
           (status, writer)).
Definition burnt1 : WriterState := stateOf (append sampleTrade (Some burnt0)).
Definition burnt2 : WriterState := stateOf (append sampleTrade (Some burnt1)).
Definition burnt3 : WriterState := stateOf (finalize StopReason.Requested 9000 78 (Some burnt2)).

(** One transient refusal to create a segment file makes a finished
    recording unreadable: [openSegment] takes the segment number before it opens the
    file, so after the refused [append] the next one writes segment 2; [finalize]
    reports success with one segment, [catalog] accepts the corpus, and the reader,
    which expects the segments [1 .. segmentCount], rejects it as corrupt. *)
Theorem burnt_segment_number :
  fst (start sampleConfig RootMissing refusingWorld None) = Ok /\
  append sampleTrade (Some burnt0) = (IoError, Some burnt1) /\
  append sampleTrade (Some burnt1) = (Ok, Some burnt2) /\
  finalize StopReason.Requested 9000 78 (Some burnt2) = (Ok, Some burnt3) /\
  mf_segmentCount (wr_manifest burnt3) = 1 /\
  map ix_segmentNumber (wr_index burnt3) = [2] /\
  fst (catalog (w_files (wr_disk burnt3))) = Ok /\
  select (w_files (wr_disk burnt3)) sampleRequest = Some (inl CorruptData).
Proof. vm_compute. repeat split; reflexivity. Qed.
End samples.
