(* ===== verification/StorageRun.v ===== *)
(** * StorageRun: a finished recording holds what was accepted

    The relation of Storage at the end of a recording, and the reader on the files it
    left: every accepted record is in a sealed segment, and a selection is made of
    exactly the accepted records. *)
From stdpp Require Import base list numbers strings gmap sorting.
From S2P Require Import Prelude Codec Layout Format Samples DepthTransaction SourceState Disk.
From S2P Require Import Metadata BlockCodec Cut Segment Writer WriterShape WriterInv WriterSteps.
From S2P Require Import WriterCalls WriterCuts WriterRun Storage StorageCalls.
From S2P Require Import Reader ReaderLoops ReaderMerge ReaderSelect ReaderRun.
Import Crc32c.
Local Open Scope Z_scope.

Section runs.
Context `{CxetMarket} `{Codec : ByteBlockCodec} `{!ByteBlockLaws Codec}.

(** ** Reading a sealed segment *)

(** Dropping the rows before a row frees it of their fences. *)
Lemma chain_restart shard sources ps pm rows :
  chain shard sources ps pm rows -> chain shard sources 0 0 rows.
Proof.
  destruct rows as [|row rows]; [done|]. intros [(R1 & R2 & R3 & R4 & R5 & _ & _) Hc].
  split; [|done]. split_and!; auto.
Qed.

Lemma chain_part shard sources rows part rest :
  chain shard sources 0 0 (rows ++ part ++ rest) -> chain shard sources 0 0 part.
Proof.
  intros [_ Hc]%chain_app. apply chain_app in Hc as [Hc _]. by eapply chain_restart.
Qed.

Lemma decodeAll_agree sources fuel : forall fuel' d rows d1 rows' d2,
  decodeAll fuel d sources = Some (rows, d1) -> decodeAll fuel' d sources = Some (rows', d2) ->
  rows = rows' /\ d1 = d2.
Proof.
  induction fuel as [|fuel IH]; intros [|fuel'] d rows d1 rows' d2; [done..|]. cbn [decodeAll].
  destruct (decoderNext d sources) as [[[row|] d3]|]; cbn [mbind option_bind];
    [|by intros [= <- <-] [= <- <-]|done].
  destruct (decodeAll fuel d3 sources) as [[rows1 e1]|] eqn:E1; [|done].
  destruct (decodeAll fuel' d3 sources) as [[rows2 e2]|] eqn:E2; [|done]. cbn [mbind option_bind].
  destruct (IH _ _ _ _ _ _ E1 E2) as [-> ->]. by intros [= <- <-] [= <- <-].
Qed.

Lemma decodes_agree sources d rows rows' :
  decodes sources d rows -> decodes sources d rows' -> rows = rows'.
Proof. intros (f & d1 & H1) (f' & d2 & H2). by eapply decodeAll_agree. Qed.

(** A segment that opens counts records. *)
Lemma decoderOpen_counts h rest number shard epoch d :
  fits l_BinaryMarketSegmentHeader h ->
  decoderOpen (Some (obj l_BinaryMarketSegmentHeader h ++ rest)) number shard epoch = Some d ->
  sh_recordCount h <> 0 /\ workspacePrepare = true.
Proof.
  intros Hf. unfold decoderOpen. cbn [mbind option_bind].
  pose proof (readBytes_app [] (obj l_BinaryMarketSegmentHeader h) rest) as Hread.
  cbn [app length] in Hread. rewrite (obj_length _ _ Hf) in Hread. rewrite Hread.
  cbn [fmap option_fmap option_map mbind option_bind]. rewrite view_obj_self by done.
  on_if Ei; [done|]. on_if Ew; [done|]. intros _. split; [|by destruct workspacePrepare].
  unfold segmentHeaderInvalid in Ei. bsplit. done.
Qed.

(** The segment of a sealed file. *)
Definition keyOf (x : SealedSegment) : SegmentKey := MkSegmentKey (sl_number x) (sl_shard x).

(** What the reader decodes from a sealed segment, if it opens it, are its rows. *)
Lemma sealed_rows files epoch sources x rows :
  sealedFile files epoch x -> chain (sl_shard x) sources 0 0 (sl_rows x) ->
  segmentRows files epoch sources (keyOf x) rows -> rows = sl_rows x.
Proof.
  intros (h & batches & body & Hh & Hb & Hrows & Hn & Hs & He & Hf & _) Hc (d & Ho & Hd).
  unfold openKey in Ho. cbn [keyOf key_shard key_number] in Ho. rewrite Hf in Ho.
  rewrite <- Hn, <- Hs, <- He in Ho. rewrite <- Hs, <- Hrows in Hc.
  assert (batches <> [] /\ workspacePrepare = true) as [Hne Hw].
  { destruct (sealHeader_of _ _ _ Hh) as [Hsh _].
    destruct (decoderOpen_counts _ _ _ _ _ _ (ho_fits _ _ _ Hsh) Ho) as [Hcount Hw].
    split; [|done]. intros ->. rewrite (ho_records _ _ _ Hsh) in Hcount. done. }
  destruct (sealed_decodes _ _ _ _ Hh Hb Hne Hc Hw) as (d1 & d2 & Hopen & Hall & _).
  unfold sealedImage in Ho. rewrite Hopen in Ho. injection Ho as ->. rewrite <- Hrows.
  eapply decodes_agree; [exact Hd|]. by eexists _, _.
Qed.

(** A sealed segment with rows opens and decodes to them. *)
Lemma sealed_segmentRows files epoch sources x :
  sealedFile files epoch x -> chain (sl_shard x) sources 0 0 (sl_rows x) ->
  workspacePrepare = true ->
  sl_rows x = [] \/ segmentRows files epoch sources (keyOf x) (sl_rows x).
Proof.
  intros (h & batches & body & Hh & Hb & Hrows & Hn & Hs & He & Hf & _) Hc Hw.
  destruct (decide (batches = [])) as [->|Hne]; [by left|]. right.
  rewrite <- Hs, <- Hrows in Hc.
  destruct (sealed_decodes _ _ _ _ Hh Hb Hne Hc Hw) as (d1 & d2 & Hopen & Hall & _).
  exists d1. unfold openKey. cbn [keyOf key_shard key_number]. rewrite Hf, <- Hn, <- Hs, <- He.
  split; [exact Hopen|]. rewrite <- Hrows. by eexists _, _.
Qed.

(** ** The segments the index names *)

Definition entryKey (e : BinaryMarketIndexEntry) : SegmentKey :=
  MkSegmentKey (ix_segmentNumber e) (ix_shardIndex e).

(** The segment keys a walk has collected: each once, each with its shard on record. *)
Record walked (m : BinaryMarketManifest) (P : SegmentKey -> Prop) (shards : list Z)
  (keys : list SegmentKey) : Prop := {
  wk_once : NoDup keys;
  wk_keys : forall key, key ∈ keys -> P key /\ 1 <= key_number key <= mf_segmentCount m /\
    0 <= key_shard key < mf_shardCount m;
  wk_shards : forall key, key ∈ keys -> shards !! Z.to_nat (key_number key) = Some (key_shard key);
}.

Lemma walked_add m P shards keys key known :
  mf_shardCount m <= unknownShard -> walked m P shards keys ->
  P key -> 1 <= key_number key <= mf_segmentCount m -> 0 <= key_shard key < mf_shardCount m ->
  shards !! Z.to_nat (key_number key) = Some known ->
  known = unknownShard \/ known = key_shard key ->
  walked m P (<[Z.to_nat (key_number key) := key_shard key]> shards)
    (if bool_decide (key ∈ keys) then keys else key :: keys).
Proof.
  intros Hm [W1 W2 W3] HP Hn Hs Hk Hknown.
  assert (forall key', key' ∈ key :: keys ->
    <[Z.to_nat (key_number key) := key_shard key]> shards !! Z.to_nat (key_number key') =
      Some (key_shard key')) as Hl.
  { intros key' [->|Hin]%elem_of_cons.
    { apply list_lookup_insert_eq. by eapply lookup_lt_Some. }
    pose proof (W2 _ Hin) as (_ & Hn' & Hs'). pose proof (W3 _ Hin) as Hk'.
    destruct (decide (key_number key' = key_number key)) as [E|E].
    - rewrite E in Hk' |- *. rewrite Hk in Hk'. injection Hk' as ->.
      destruct Hknown as [Hu|Hu]; [lia|]. rewrite Hu. apply list_lookup_insert_eq. by eapply lookup_lt_Some.
    - rewrite list_lookup_insert_ne by lia. done. }
  case_bool_decide as Hin; split; try done.
  - intros key' Hin'. apply Hl. by apply elem_of_cons; right.
  - by apply NoDup_cons.
  - intros key' [->|Hin']%elem_of_cons; [exact (conj HP (conj Hn Hs))|by apply W2].
Qed.

Lemma walkIndex_walked m P sources index : forall walk walk',
  mf_shardCount m <= unknownShard -> Forall (fits l_BinaryMarketIndexEntry) index ->
  Forall (fun e => P (entryKey e)) index ->
  walked m P (iw_segmentShards walk) (iw_segments walk) ->
  walkIndex index m sources walk = Some walk' ->
  walked m P (iw_segmentShards walk') (iw_segments walk').
Proof.
  induction index as [|e index IH]; intros walk walk' Hm Hf HP Hw; cbn [walkIndex]; [by intros [= <-]|].
  apply Forall_cons in Hf as [He Hf]. apply Forall_cons in HP as [Hp HP].
  destruct (indexEntryInvalid e m _) eqn:Ei; [done|].
  destruct (sources !! _) as [source|]; [|done]. cbn [mbind option_bind]. on_if E1; [done|].
  destruct (iw_segmentShards walk !! _) as [known|] eqn:Ek; [|done]. cbn [mbind option_bind].
  on_if E2; [done|]. on_if E3; [done|]. apply IH; try done. cbn [iw_segmentShards iw_segments].
  assert (0 <= ix_segmentNumber e /\ 0 <= ix_shardIndex e) as [Hn0 Hs0].
  { clear -He. destruct e. cbn in He. unfold fits_unsigned in He. cbn. split; lia. }
  unfold indexEntryInvalid in Ei. bsplit.
  apply (walked_add m P _ _ (entryKey e) known); cbn; try done; [lia..|].
  apply andb_false_iff in E2 as [E2|E2]; bsplit; [by left|by right].
Qed.

(** The keys of an accepted index. *)
Lemma checkIndex_walked m P sources index shards :
  mf_shardCount m <= unknownShard -> Forall (fits l_BinaryMarketIndexEntry) index ->
  Forall (fun e => P (entryKey e)) index -> checkIndex index m sources = Some shards ->
  exists keys, walked m P shards keys /\ Z.of_nat (length keys) = mf_segmentCount m.
Proof.
  intros Hm Hf HP. unfold checkIndex. destruct (walkIndex _ _ _ _) as [walk|] eqn:E; [|done].
  cbn [mbind option_bind]. on_if E1; [done|]. intros [= <-]. bsplit. exists (iw_segments walk).
  split; [|done]. eapply walkIndex_walked; try done. split; cbn; [constructor|..]; by intros ? ?%elem_of_nil.
Qed.

Lemma segmentKeys_walked m P shards keys :
  walked m P shards keys -> Z.of_nat (length keys) = mf_segmentCount m ->
  segmentKeys m shards ≡ₚ keys.
Proof.
  intros [W1 W2 W3] Hl. symmetry. apply submseteq_length_Permutation.
  - apply NoDup_submseteq; [done|]. intros key Hk. destruct (W2 _ Hk) as (_ & Hn & _).
    pose proof (W3 _ Hk) as Hs. unfold segmentKeys. apply list_elem_of_In, in_map_iff.
    exists (Z.to_nat (key_number key)). split.
    + rewrite Z2Nat.id by lia. rewrite nth_lookup, Hs. cbn. by destruct key.
    + apply in_seq. lia.
  - unfold segmentKeys. rewrite length_map, length_seq. lia.
Qed.

(** ** The end of a recording *)

Lemma finalize_stored config s log reason finalized now s' :
  writer_run config s log -> in_u8 reason -> in_i64 finalized ->
  finalize reason finalized now (Some s) = (Ok, Some s') ->
  winv 0 0 0 s' /\ wr_config s' = config <| cf_sources := [] |> /\
  exists sealed, stored log sealed s' /\ (forall g, g ∈ wr_segments s' -> sg_open g = false) /\
    (exists cut, archived s' cut) /\
    (reason <> StopReason.Error ->
     catalog (w_files (wr_disk s')) = (Ok, Some (sealManifest (wr_manifest s'), wr_sources s'))).
Proof.
  intros Hrun Hr Hf. destruct (run_inv _ _ _ Hrun) as (Hinv & Hcfg & _).
  pose proof (run_held _ _ _ Hrun) as Hh. unfold finalize, whenActive. on_if Ea; [done|].
  destruct (finalizeActive _ _ _ s) as [status s1] eqn:E. intros [= -> ->].
  destruct (finalizeActive_held _ _ _ _ _ _ _ Hinv Hh Hr Hf E) as ((sealed & Hst) & Hclosed).
  destruct (finalizeActive_inv _ _ _ _ _ _ Hinv Hr Hf E) as (I' & K' & D).
  destruct (D eq_refl) as (_ & _ & (cut & Har & _) & Hcat).
  split; [done|]. split; [by rewrite (kc_config _ _ K')|].
  exists sealed. split_and!; [done|auto|by exists cut|]. intros Hne. by apply Hcat.
Qed.

Lemma chain_segments shard sources xs :
  chain shard sources 0 0 (concat (map sl_rows xs)) ->
  Forall (fun x => chain shard sources 0 0 (sl_rows x)) xs.
Proof.
  intros Hc. apply Forall_forall. intros x (l1 & l2 & ->)%list_elem_of_split.
  rewrite map_app, concat_app in Hc. cbn [map concat] in Hc. by eapply chain_part.
Qed.

(** A shard without an open segment: its records are the rows of its sealed segments. *)
Lemma closed_shard log sealed s i :
  stored log sealed s -> (forall g, g ∈ wr_segments s -> sg_open g = false) ->
  0 <= i < size (wr_segments s) ->
  ofShard i log = concat (map sl_rows (sealedOf i sealed)) /\
  StronglySorted (fun x y => sl_number x < sl_number y) (sealedOf i sealed) /\
  Forall (sealedFile (w_files (wr_disk s)) (cf_producerEpoch (wr_config s))) (sealedOf i sealed) /\
  Forall (fun x => chain (sl_shard x) (size (wr_sources s)) 0 0 (sl_rows x)) (sealedOf i sealed).
Proof.
  intros Hst Hclosed Hi.
  destruct (wr_segments s !! Z.to_nat i) as [g|] eqn:Hg;
    [|apply lookup_ge_None in Hg; unfold size in Hi; lia].
  destruct (st_holds _ _ _ Hst _ _ Hg) as (batches & opened & Hh).
  destruct (st_ordered _ _ _ Hst _ _ Hg) as (Hc & _). rewrite Z2Nat.id in Hh, Hc by lia.
  destruct Hh as [H1 _ H2 _ H4 H5 _].
  destruct (H5 (Hclosed _ (list_elem_of_lookup_2 _ _ _ Hg))) as (-> & Hp & _).
  rewrite Hp, !app_nil_r in H1. split_and!; try done. rewrite H1 in Hc. apply chain_segments in Hc.
  rewrite Forall_forall in Hc |- *. pose proof (sealedOf_shard i sealed) as Hs. rewrite Forall_forall in Hs.
  intros x Hx. rewrite (Hs _ Hx). by apply Hc.
Qed.

(** What the reader decodes from a shard's segments. *)
Lemma sealed_segments files epoch sources xs segments :
  Forall (sealedFile files epoch) xs -> Forall (fun x => chain (sl_shard x) sources 0 0 (sl_rows x)) xs ->
  Forall2 (segmentRows files epoch sources) (map keyOf xs) segments -> segments = map sl_rows xs.
Proof.
  intros Hf Hc. revert segments. induction xs as [|x xs IH]; intros segments Hall; cbn in *.
  { by inversion Hall. }
  apply Forall_cons in Hf as [Hf Hfs]. apply Forall_cons in Hc as [Hc Hcs].
  inversion Hall as [|? rows ? rest Hr Hrest]; subst. f_equal; [by eapply sealed_rows|by apply IH].
Qed.

(** ** The segments of a finished recording are the ones the reader walks *)

Definition keyBefore (a b : SegmentKey) : Prop := key_number a < key_number b.
#[local] Instance keyBefore_antisymm : AntiSymm (=) keyBefore.
Proof. intros a b. unfold keyBefore. lia. Qed.

Lemma segmentKeys_sorted m shards : StronglySorted keyBefore (segmentKeys m shards).
Proof. eapply StronglySorted_map; [|apply seq_sorted]. intros a b Hab. unfold keyBefore. cbn. lia. Qed.

(** An accepted index of a finished recording names exactly its sealed segments, so the
    reader walks the segments of each shard in the order they were sealed. *)
Lemma index_sealed log sealed s m sources shards i :
  stored log sealed s -> (forall g, g ∈ wr_segments s -> sg_open g = false) ->
  mf_shardCount m <= unknownShard -> mf_segmentCount m = size sealed ->
  checkIndex (wr_index s) m sources = Some shards ->
  StronglySorted (fun x y => sl_number x < sl_number y) (sealedOf i sealed) ->
  List.filter (fun key => key_shard key =? i) (segmentKeys m shards) = map keyOf (sealedOf i sealed).
Proof.
  intros Hst Hclosed Hm Hcount Hc Hsorted. pose proof (st_index _ _ _ Hst) as Hix.
  destruct (checkIndex_walked m (fun key => key ∈ map keyOf sealed) sources (wr_index s) shards)
    as (keys & Hw & Hl); try done.
  - eapply Forall_impl; [exact Hix|]. by intros e [? _].
  - eapply Forall_impl; [exact Hix|]. intros e [_ [(x & Hx & Hs & Hn)|(g & Hg & Ho & _)]].
    + apply list_elem_of_In, in_map_iff. exists x. split; [|by apply list_elem_of_In].
      unfold keyOf, entryKey. by rewrite Hs, Hn.
    + rewrite (Hclosed g) in Ho; [done|]. by eapply list_elem_of_lookup_2.
  - pose proof (segmentKeys_walked _ _ _ _ Hw Hl) as Hperm. destruct Hw as [W1 W2 _].
    assert (keys ≡ₚ map keyOf sealed) as Hsealed.
    { apply submseteq_length_Permutation; [apply NoDup_submseteq; [done|]; intros key Hk; apply (W2 _ Hk)|].
      rewrite length_map. unfold size in Hcount. lia. }
    apply (StronglySorted_unique keyBefore).
    + apply StronglySorted_filter, segmentKeys_sorted.
    + eapply StronglySorted_map; [|exact Hsorted]. done.
    + rewrite (filter_permutation _ _ _ Hperm), (filter_permutation _ _ _ Hsealed).
      unfold sealedOf. clear. induction sealed as [|x sealed IH]; [done|]. cbn.
      destruct (sl_shard x =? i); cbn; by rewrite IH.
Qed.

(** What the reader merges from a finished recording are the accepted records. *)
Lemma stored_permutation log sealed s rows shards :
  winv 0 0 0 s -> stored log sealed s -> (forall g, g ∈ wr_segments s -> sg_open g = false) ->
  let m := sealManifest (wr_manifest s) in
  checkIndex (wr_index s) m (wr_sources s) = Some shards ->
  holds (w_files (wr_disk s)) m (wr_sources s) (segmentKeys m shards) rows -> rows ≡ₚ log.
Proof.
  intros Hinv Hst Hclosed m Hcheck [_ Ho2 Ho3].
  pose proof (ct_shards _ _ (wi_counts _ _ _ _ Hinv)) as Hsh.
  destruct (me_static _ (wi_meta _ _ _ _ Hinv)) as [].
  pose proof (cf_shards _ (wi_config _ _ _ _ Hinv)) as Hmax. unfold kBinaryMarketMaximumShards in Hmax.
  change (mf_shardCount m) with (mf_shardCount (wr_manifest s)) in *.
  rewrite st_shards, <- Hsh in *. unfold size in Hsh, Hmax, Ho2, Ho3.
  apply (parts_permutation (fun row => h_shardIndex (rec_header row)) (length (wr_segments s)));
    [done|apply (st_log _ _ _ Hst)|].
  intros i Hi. destruct (closed_shard _ _ _ i Hst Hclosed Hi) as (C1 & C2 & C3 & C4).
  destruct (Ho3 i Hi) as (segments & Hall & ->).
  rewrite (index_sealed log sealed s m (wr_sources s) shards i) in Hall; try done.
  - apply sealed_segments in Hall as ->; [by rewrite <- C1| |done].
    change (mf_producerEpoch m) with (mf_producerEpoch (wr_manifest s)). by rewrite st_epoch.
  - change (mf_shardCount m) with (mf_shardCount (wr_manifest s)). rewrite st_shards. unfold unknownShard, size. lia.
  - apply (st_count _ _ _ Hst).
Qed.

(** The index of a finished recording is read back as the writer's. *)
Lemma archived_index s cut index :
  winv 0 0 0 s -> archived s cut -> Forall (fits l_BinaryMarketIndexEntry) (wr_index s) ->
  readTable l_BinaryMarketIndexEntry (w_files (wr_disk s) (RootFile "index.bin"))
    kBinaryMarketIndexMagic (mf_indexCrc32c (wr_manifest s)) (mf_maximumBytes (wr_manifest s))
    (mf_indexCount (wr_manifest s)) = Some index ->
  index = wr_index s.
Proof.
  intros Hinv Har Hf. destruct (ar_index _ _ Har) as [-> _].
  pose proof (me_fits _ (wi_meta _ _ _ _ Hinv)) as Hm%manifest_fits.
  pose proof (wi_index _ _ _ _ Hinv) as Hn. unfold size in Hn.
  apply readTable_read; try done; [split; [lia|mlia]|apply (mw_maximum _ Hm)].
Qed.

Lemma archived_index_bytes s cut content :
  winv 0 0 0 s -> archived s cut -> Forall (fits l_BinaryMarketIndexEntry) (wr_index s) ->
  w_files (wr_disk s) (RootFile "index.bin") = Some content -> bytes_ok content.
Proof.
  intros Hinv Har Hf. destruct (ar_index _ _ Har) as [-> _]. intros <-%(inj Some).
  pose proof (wi_index _ _ _ _ Hinv) as Hn. unfold size in Hn.
  apply Forall_app. split; [|by apply (obj_array_bytes l_BinaryMarketIndexEntry)].
  apply obj_bytes. apply tableHeader_ok; try done. split; [lia|mlia].
Qed.

(** ** Claims *)

(** C2: After [finalize] reports success, whatever calls and faults
    came before, every accepted record belongs to a shard of the recording and is in a sealed
    segment file: for every shard, the segments in the order of their numbers decode to
    exactly the records accepted for the shard, in the order of acceptance, and the
    manifest counts the sealed segments. *)
Theorem accepted_records_sealed config s log reason finalized now s' :
  writer_run config s log -> StopReason.Requested <= reason <= StopReason.Error ->
  in_i64 finalized -> finalize reason finalized now (Some s) = (Ok, Some s') ->
  workspacePrepare = true ->
  Forall (fun row => 0 <= h_shardIndex (rec_header row) < cf_shardCount config) log /\
  exists sealed, mf_segmentCount (wr_manifest s') = size sealed /\
    forall i, 0 <= i < cf_shardCount config ->
      ofShard i log = concat (map sl_rows (sealedOf i sealed)) /\
      StronglySorted (fun x y => sl_number x < sl_number y) (sealedOf i sealed) /\
      Forall (fun x => sl_rows x = [] \/
        segmentRows (w_files (wr_disk s')) (cf_producerEpoch config) (size (wr_sources s'))
          (keyOf x) (sl_rows x)) (sealedOf i sealed).
Proof.
  intros Hrun Hr Hf Hfin Hw. unfold StopReason.Requested, StopReason.Error in Hr.
  assert (in_u8 reason) as Hr8 by mlia.
  destruct (finalize_stored _ _ _ _ _ _ _ Hrun Hr8 Hf Hfin)
    as (Hinv & Hcfg & sealed & Hst & Hclosed & _ & _).
  pose proof (ct_shards _ _ (wi_counts _ _ _ _ Hinv)) as Hsh. rewrite Hcfg in Hsh.
  change (cf_shardCount (config <| cf_sources := [] |>)) with (cf_shardCount config) in Hsh.
  rewrite <- Hsh. split; [apply (st_log _ _ _ Hst)|].
  exists sealed. split; [apply (st_count _ _ _ Hst)|]. intros i Hi.
  destruct (closed_shard _ _ _ i Hst Hclosed Hi) as (C1 & C2 & C3 & C4). split_and!; try done.
  rewrite Hcfg in C3. rewrite Forall_forall in C3, C4 |- *. intros x Hx.
  by apply sealed_segmentRows; [apply C3|apply C4|].
Qed.

(** Writing and reading a recording is the identity on the accepted
    records: if [finalize] reports a recording as finished and the reader selects from the
    files it left, the reader's merge is a permutation of the accepted records in the strict
    emission order, and the selection is the part of it in the requested interval, sources
    and channels; no record is lost, repeated or invented. *)
Theorem recording_roundtrip config s log reason finalized now s' request selection :
  writer_run config s log -> StopReason.Requested <= reason <= StopReason.ParserDisconnected ->
  in_i64 finalized -> finalize reason finalized now (Some s) = (Ok, Some s') ->
  select (w_files (wr_disk s')) request = Some (inr selection) ->
  exists state output rows,
    open (w_files (wr_disk s')) request = Some (inr (state, output)) /\
    cs_request state = request /\ rows ≡ₚ log /\ StronglySorted before rows /\
    se_records selection = List.filter (inSelection state) rows.
Proof.
  intros Hrun Hr Hf Hfin Hsel. unfold StopReason.Requested, StopReason.ParserDisconnected in Hr.
  assert (in_u8 reason) as Hr8 by mlia.
  destruct (finalize_stored _ _ _ _ _ _ _ Hrun Hr8 Hf Hfin)
    as (Hinv & Hcfg & sealed & Hst & Hclosed & (cut & Har) & Hcat).
  specialize (Hcat ltac:(unfold StopReason.Error; lia)).
  assert (Forall (fits l_BinaryMarketIndexEntry) (wr_index s')) as Hix
    by (eapply Forall_impl; [apply (st_index _ _ _ Hst)|]; by intros e [? _]).
  destruct (open (w_files (wr_disk s')) request) as [[status|[state output]]|] eqn:Eo;
    unfold select in Hsel; rewrite Eo in Hsel; [done| |done].
  destruct (open_opened _ _ _ _ (fun content => archived_index_bytes s' cut content Hinv Har Hix) Eo)
    as (Hrq & Hcat' & index & shards & Hread & Hcheck & Hop & rows & t & Hm & Hu).
  pose proof (select_rows _ _ _ _ _ _ Eo Hm Hu) as Hs'. unfold select in Hs'. rewrite Eo, Hsel in Hs'.
  injection Hs' as ->. exists state, output, rows.*2. split; [done|]. split; [done|].
  pose proof (opened_holds _ _ _ _ _ Hop Hm) as [Ho1 Ho2 Ho3]. split; [|by split].
  assert (cs_manifest state = sealManifest (wr_manifest s') /\ cs_sources state = wr_sources s')
    as [Em Es] by (split; congruence).
  rewrite Em, Es in *. clear Em Es Hop Hm Hu.
  apply (archived_index s' cut) in Hread as ->; try done.
  by apply (stored_permutation log sealed s' _ shards).
Qed.

End runs.

(** ** Witnesses *)

Section samples.
Import Stored.

Lemma accepted_records_sealed_witness :
  Forall (fun row => 0 <= h_shardIndex (rec_header row) < cf_shardCount sampleConfig) [sampleTrade] /\
  exists sealed, mf_segmentCount (wr_manifest finalizedState) = size sealed /\
    forall i, 0 <= i < cf_shardCount sampleConfig ->
      ofShard i [sampleTrade] = concat (map sl_rows (sealedOf i sealed)) /\
      StronglySorted (fun x y => sl_number x < sl_number y) (sealedOf i sealed) /\
      Forall (fun x => sl_rows x = [] \/
        segmentRows (w_files (wr_disk finalizedState)) (cf_producerEpoch sampleConfig)
          (size (wr_sources finalizedState)) (keyOf x) (sl_rows x)) (sealedOf i sealed).
Proof.
  exact (accepted_records_sealed sampleConfig appendedState [sampleTrade] StopReason.Requested 9000 78
    finalizedState sampleRun ltac:(vm_compute; split; discriminate) ltac:(mlia) sample_finalized eq_refl).
Defined.

Definition finalSelection : BinaryMarketSelection :=
  match select (w_files (wr_disk finalizedState)) sampleRequest with
  | Some (inr selection) => selection
  | _ => sampleSelection
  end.

Lemma final_selected :
  select (w_files (wr_disk finalizedState)) sampleRequest = Some (inr finalSelection).
Proof. vm_compute. reflexivity. Qed.

Lemma recording_roundtrip_witness :
  se_records finalSelection = [sampleTrade] /\ exists state output rows,
  open (w_files (wr_disk finalizedState)) sampleRequest = Some (inr (state, output)) /\
  cs_request state = sampleRequest /\ rows ≡ₚ [sampleTrade] /\ StronglySorted before rows /\
  se_records finalSelection = List.filter (inSelection state) rows.
Proof.
  split; [vm_compute; reflexivity|].
  exact (recording_roundtrip sampleConfig appendedState [sampleTrade] StopReason.Requested 9000 78
    finalizedState sampleRequest finalSelection sampleRun ltac:(vm_compute; split; discriminate)
    ltac:(mlia) sample_finalized final_selected).
Defined.

End samples.
