(* ===== verification/BufferedWriter.v ===== *)
(** * BufferedWriter: the queue between capture and the corpus writer

    Models src/src/Runtime/src/Capture/Parser/BufferedCorpusWriter.cpp.  One thread offers
    records, sources, progress and gaps, another the reference payload; a worker thread takes
    the offers from a bounded ring and is the only one to call the writer until [finish] has
    joined it.  Every call is split at its shared accesses, and the threads interleave
    arbitrarily: the release stores of the counters and the acquire loads that read them order
    the slot accesses around them, and the mutexes make their sections atomic.  Waiting for
    the condition variable is a step that does nothing, since it may time out at once.

    The writer is any instance of [CorpusTarget]; the corpus writer is one.  Theorems: the
    writer gets exactly the accepted offers, once and in order, under every interleaving; a
    finished queue that reports success has handed over all of them and published a cut after
    the last; [finish] returns. *)
From stdpp Require Import base list numbers strings gmap.
From S2P Require Import Prelude Codec Layout Format DepthTransaction SourceState Disk Metadata.
From S2P Require Import BlockCodec Cut Segment Writer.
Local Open Scope Z_scope.

(** ** The interface of the writer *)

Class CorpusTarget (W : Type) := {
  targetCall : Call -> W -> Status * W;
  targetSnapshot : W -> BinaryMarketWriterSnapshot;
}.
#[export] Instance writer_target `{CxetMarket} `{ByteBlockCodec} : CorpusTarget BinaryMarketCorpusWriter :=
  {| targetCall := perform; targetSnapshot := snapshot |}.

(** ** Items *)

(** What the four calls of the producer offer. *)
Inductive Offer :=
| OfferRecord (record : BinaryMarketRecord)
| OfferSource (source : BinaryMarketSource)
| OfferProgress (progress : CorpusProducerProgress)
| OfferGap (gap : BinaryMarketGap).

Definition offerKind (offer : Offer) : Z :=
  match offer with OfferRecord _ => 0 | OfferSource _ => 1 | OfferProgress _ => 2 | OfferGap _ => 3 end.
Definition offerBytes (offer : Offer) : list Z :=
  match offer with
  | OfferRecord record => obj l_BinaryMarketRecord record
  | OfferSource source => obj l_BinaryMarketSource source
  | OfferProgress progress => obj l_CorpusProducerProgress progress
  | OfferGap gap => obj l_BinaryMarketGap gap
  end.

Record Item := MkItem { it_kind : Z; it_bytes : list Z }.
Definition newItem : Item := MkItem 0 (replicate (sizeof l_BinaryMarketRecord) 0).
(** The copy into a slot: bytes behind the object keep what they were. *)
Definition copyItem (offer : Offer) (item : Item) : Item :=
  MkItem (offerKind offer) (offerBytes offer ++ drop (length (offerBytes offer)) (it_bytes item)).

(** The copy out of a slot. *)
Definition fromItem {A} (l : layout A) (item : Item) : A := view l (take (sizeof l) (it_bytes item)).
(** The call [consume] makes for an item. *)
Definition itemCall (item : Item) : Call :=
  if it_kind item =? 1 then RegisterSources [fromItem l_BinaryMarketSource item]
  else if it_kind item =? 2 then UpdateProgress (fromItem l_CorpusProducerProgress item)
  else if it_kind item =? 3 then AppendGap (fromItem l_BinaryMarketGap item)
  else Append (fromItem l_BinaryMarketRecord item).

(** ** The state *)

(** Where the threads are; the arguments are their local variables. *)
Inductive QueueProducer :=
| OfferIdle
| OfferChecked (offer : Offer)             (* status_ was loaded: Ok *)
| OfferOpen (offer : Offer)                (* stop_ was loaded: false *)
| OfferLoaded (offer : Offer) (write : Z)  (* written_ was loaded *)
| OfferRoom (offer : Offer) (write : Z)    (* read_ was loaded: not full *)
| OfferCopied (offer : Offer) (write : Z). (* the slot was written *)
Inductive QueueReference :=
| ReferenceIdle
| ReferenceOpen (payload : list Z).        (* stop_ was loaded: false *)
Inductive QueueWorker :=
| AtTop
| AtConsume
| AtStoreRead
| AtReference
| AtStop
| AtCommit (stop : bool) (now : Z)
| AtEmpty (stop : bool)
| AtFailed (status : Status)
| AtExit
| AtEnd.
#[export] Instance QueueWorker_eq : EqDecision QueueWorker.
Proof. solve_decision. Defined.

Section queue.
Context {W : Type} `{CorpusTarget W}.

(** [bw_localRead], [bw_nextCommit] and [bw_dirty] are locals of [run].  [bw_accepted] records
    the offers answered with Ok, [bw_performed] the calls on the writer that succeeded,
    [bw_failed] the one that did not. *)
Record BufferedCorpusWriter := MkBufferedCorpusWriter {
  bw_writer : W;
  bw_records : list Item;
  bw_capacity : Z;
  bw_written : Z;
  bw_read : Z;
  bw_status : Status;
  bw_stop : bool;
  bw_joinable : bool;
  bw_referencePayload : list Z;
  bw_referencePending : bool;
  bw_snapshot : BinaryMarketWriterSnapshot;
  bw_localRead : Z;
  bw_nextCommit : Z;
  bw_dirty : bool;
  bw_producer : QueueProducer;
  bw_reference : QueueReference;
  bw_worker : QueueWorker;
  bw_accepted : list Offer;
  bw_performed : list Call;
  bw_failed : option Call;
}.
#[export] Instance BufferedCorpusWriter_eta : Eta BufferedCorpusWriter := fun r =>
  MkBufferedCorpusWriter (bw_writer r) (bw_records r) (bw_capacity r) (bw_written r) (bw_read r)
    (bw_status r) (bw_stop r) (bw_joinable r) (bw_referencePayload r) (bw_referencePending r)
    (bw_snapshot r) (bw_localRead r) (bw_nextCommit r) (bw_dirty r) (bw_producer r)
    (bw_reference r) (bw_worker r) (bw_accepted r) (bw_performed r) (bw_failed r).

Definition newQueue (writer : W) : BufferedCorpusWriter :=
  MkBufferedCorpusWriter writer [] 0 0 0 Ok false false [] false (targetSnapshot writer) 0 0 true
    OfferIdle ReferenceIdle AtEnd [] [] None.

Definition kMaximumQueueCapacity : Z := 65536.
Definition startQueue (capacity now : Z) (st : BufferedCorpusWriter) : Status * BufferedCorpusWriter :=
  if bw_joinable st || (capacity =? 0) || (kMaximumQueueCapacity <? capacity) ||
     negb (sn_active (targetSnapshot (bw_writer st)))
  then (InvalidArgument, st)
  else
    (Ok, st <| bw_records := replicate (Z.to_nat capacity) newItem |> <| bw_capacity := capacity |>
            <| bw_written := 0 |> <| bw_read := 0 |> <| bw_stop := false |> <| bw_status := Ok |>
            <| bw_snapshot := targetSnapshot (bw_writer st) |> <| bw_joinable := true |>
            <| bw_localRead := 0 |> <| bw_nextCommit := now |> <| bw_dirty := true |>
            <| bw_worker := AtTop |>).

(** ** The producer *)

Definition slotOf (index : Z) (st : BufferedCorpusWriter) : nat := Z.to_nat (index mod bw_capacity st).

(** One access of [enqueue]; an idle producer starts with [offer]. *)
Definition enqueueStep (offer : Offer) (st : BufferedCorpusWriter) : BufferedCorpusWriter :=
  match bw_producer st with
  | OfferIdle =>
      if negb (isOk (bw_status st)) then st  (* return status *)
      else st <| bw_producer := OfferChecked offer |>
  | OfferChecked offer =>
      if (bw_capacity st =? 0) || bw_stop st then st <| bw_producer := OfferIdle |>  (* InvalidArgument *)
      else st <| bw_producer := OfferOpen offer |>
  | OfferOpen offer => st <| bw_producer := OfferLoaded offer (bw_written st) |>
  | OfferLoaded offer write =>
      if (bw_capacity st <=? u64 (write - bw_read st)) || (write =? u64_max)
      then st <| bw_producer := OfferIdle |>  (* Unknown *)
      else st <| bw_producer := OfferRoom offer write |>
  | OfferRoom offer write =>
      st <| bw_records ::= alter (copyItem offer) (slotOf write st) |>
         <| bw_producer := OfferCopied offer write |>
  | OfferCopied offer write =>
      st <| bw_written := write + 1 |> <| bw_producer := OfferIdle |>
         <| bw_accepted ::= fun offers => offers ++ [offer] |>  (* Ok *)
  end.

Definition kMaximumReferencePayload : Z := 128 * 1024 * 1024.
(** One access of [appendReferencePayload]. *)
Definition referenceStep (payload : list Z) (st : BufferedCorpusWriter) : BufferedCorpusWriter :=
  match bw_reference st with
  | ReferenceIdle =>
      if (kMaximumReferencePayload <? Z.of_nat (length payload)) || (bw_capacity st =? 0) || bw_stop st
      then st  (* InvalidArgument *)
      else st <| bw_reference := ReferenceOpen payload |>
  | ReferenceOpen payload =>
      st <| bw_referencePayload := payload |> <| bw_referencePending := true |>
         <| bw_reference := ReferenceIdle |>  (* Ok *)
  end.

(** ** The worker *)

Definition workerCall (call : Call) (st : BufferedCorpusWriter) : Status * BufferedCorpusWriter :=
  let '(status, writer) := targetCall call (bw_writer st) in
  (status, if isOk status
           then st <| bw_writer := writer |> <| bw_performed ::= fun calls => calls ++ [call] |>
           else st <| bw_writer := writer |> <| bw_failed := Some call |>).

Definition kCommitIntervalNs : Z := 500000000.
(** One access of [run]; [steady] is what its clock answers, [clock] what the clock of the
    writer answers. *)
Definition workerStep (steady clock : Z) (st : BufferedCorpusWriter) : BufferedCorpusWriter :=
  match bw_worker st with
  | AtTop =>
      st <| bw_worker := if bw_localRead st <? bw_written st then AtConsume else AtReference |>
  | AtConsume =>
      match bw_records st !! slotOf (bw_localRead st) st with
      | Some item =>
          let '(status, st) := workerCall (itemCall item) st in
          st <| bw_worker := if isOk status then AtStoreRead else AtFailed status |>
      | None => st
      end
  | AtStoreRead =>
      st <| bw_read := bw_localRead st + 1 |> <| bw_localRead ::= fun read => read + 1 |>
         <| bw_dirty := true |> <| bw_worker := AtReference |>
  | AtReference =>
      if bw_referencePending st then
        let '(status, st) := workerCall (SetReferencePayload (bw_referencePayload st)) st in
        if isOk status
        then st <| bw_referencePending := false |> <| bw_dirty := true |> <| bw_worker := AtStop |>
        else st <| bw_worker := AtFailed status |>
      else st <| bw_worker := AtStop |>
  | AtStop => st <| bw_worker := AtCommit (bw_stop st) steady |>
  | AtCommit stop now =>
      if bw_dirty st && ((bw_nextCommit st <=? now) || (stop && (bw_localRead st =? bw_written st))) then
        let '(status, st) := workerCall (PublishCut clock) st in
        if isOk status
        then st <| bw_nextCommit := now + kCommitIntervalNs |> <| bw_dirty := false |>
                <| bw_snapshot := targetSnapshot (bw_writer st) |> <| bw_worker := AtEmpty stop |>
        else st <| bw_worker := AtFailed status |>
      else st <| bw_worker := AtEmpty stop |>
  | AtEmpty stop =>
      if bw_localRead st =? bw_written st
      then st <| bw_worker := if stop then AtExit else AtTop |>
      else st <| bw_worker := AtTop |>
  | AtFailed status => st <| bw_status := status |> <| bw_worker := AtExit |>
  | AtExit => st <| bw_snapshot := targetSnapshot (bw_writer st) |> <| bw_worker := AtEnd |>
  | AtEnd => st
  end.

(** ** The end *)

(** The first part of [finish], by the thread of the producer between its calls. *)
Definition stopStep (st : BufferedCorpusWriter) : BufferedCorpusWriter :=
  match bw_producer st with
  | OfferIdle => if bw_joinable st then st <| bw_stop := true |> else st
  | _ => st
  end.
(** [join] returns when the worker has; what [finish] answers then. *)
Definition joinQueue (st : BufferedCorpusWriter) : Status * BufferedCorpusWriter :=
  (bw_status st, st <| bw_joinable := false |>).

(** The loop of [drainFrozen]; [fuel] is the number of items left. *)
Fixpoint drainLoop (fuel : nat) (read : Z) (st : BufferedCorpusWriter) : Status * BufferedCorpusWriter :=
  match fuel with
  | O =>
      (Ok, st <| bw_status := Ok |> <| bw_snapshot := targetSnapshot (bw_writer st) |>)
  | S fuel =>
      match bw_records st !! slotOf read st with
      | Some item =>
          let '(status, st) := workerCall (itemCall item) st in
          if negb (isOk status) then (status, st)
          else drainLoop fuel (read + 1) (st <| bw_read := read + 1 |>)
      | None => (Unknown, st)
      end
  end.
Definition drainFrozen (st : BufferedCorpusWriter) : Status * BufferedCorpusWriter :=
  if bw_joinable st || negb (bw_stop st) then (InvalidArgument, st)
  else if negb (isOk (bw_status st)) && negb (bool_decide (bw_status st = OutOfRange))
  then (bw_status st, st)
  else drainLoop (Z.to_nat (bw_written st - bw_read st)) (bw_read st) st.

(** ** Schedules *)

Inductive QueueStep :=
| Enqueue (offer : Offer)
| Reference (payload : list Z)
| Work (steady clock : Z)
| Stop.

Definition queueStep (st : BufferedCorpusWriter) (step : QueueStep) : BufferedCorpusWriter :=
  match step with
  | Enqueue offer => enqueueStep offer st
  | Reference payload => referenceStep payload st
  | Work steady clock => workerStep steady clock st
  | Stop => stopStep st
  end.
Definition runQueue (schedule : list QueueStep) (st : BufferedCorpusWriter) : BufferedCorpusWriter :=
  fold_left queueStep schedule st.
End queue.
Arguments BufferedCorpusWriter : clear implicits.
