(* ===== verification/BufferedRun.v ===== *)
(** * BufferedRun: the queue hands over exactly what it accepted

    The invariant of BufferedWriter over every interleaving of its threads, and what follows:
    order and completeness of what the writer is given, the end of [finish], and the
    composition with the corpus writer and reader. *)
From stdpp Require Import base list numbers strings gmap.
From S2P Require Import Prelude Codec Layout Format Samples DepthTransaction SourceState Disk Metadata.
From S2P Require Import BlockCodec Cut Segment Writer BufferedWriter.
Local Open Scope Z_scope.

(** ** What the writer is given *)

Definition offerCall (offer : Offer) : Call :=
  match offer with
  | OfferRecord record => Append record
  | OfferSource source => RegisterSources [source]
  | OfferProgress progress => UpdateProgress progress
  | OfferGap gap => AppendGap gap
  end.
(** The integers of an offer have the width of their C++ types. *)
Definition offerOk (offer : Offer) : Prop :=
  match offer with
  | OfferRecord record => fits l_BinaryMarketRecord record
  | OfferSource source => fits l_BinaryMarketSource source
  | OfferProgress progress => fits l_CorpusProducerProgress progress
  | OfferGap gap => fits l_BinaryMarketGap gap
  end.
Definition isQueueCall (call : Call) : bool :=
  match call with Append _ | RegisterSources _ | UpdateProgress _ | AppendGap _ => true | _ => false end.
Definition stepOk (step : QueueStep) : Prop :=
  match step with
  | Enqueue offer => offerOk offer
  | Reference payload => bytes_ok payload
  | Work _ clock => in_u64 clock
  | Stop => True
  end.

(** Every object fits a slot and is copied out as it was copied in. *)
Lemma fromItem_obj {A} (l : layout A) (a : A) kind rest : fits l a ->
  fromItem l (MkItem kind (obj l a ++ rest)) = a.
Proof. intros Ha. unfold fromItem. cbn. rewrite take_obj_app by (by apply obj_length). by apply view_obj_self. Qed.

Lemma itemCall_copy offer item : offerOk offer -> itemCall (copyItem offer item) = offerCall offer.
Proof.
  destruct offer; intros Hok; unfold itemCall, copyItem; cbn [it_kind offerKind Z.eqb Pos.eqb offerBytes offerCall];
    by rewrite fromItem_obj.
Qed.
Lemma offerCall_ok offer : offerOk offer -> call_ok (offerCall offer).
Proof. destruct offer; cbn; [done| |done|done]. intros Hs. by constructor. Qed.
Lemma offer_slot offer : offerOk offer -> (length (offerBytes offer) <= length (it_bytes newItem))%nat.
Proof.
  intros Hok. cbn [newItem it_bytes]. rewrite length_replicate.
  destruct offer; cbn [offerBytes offerOk] in *; rewrite obj_length by done; apply Nat.leb_le; reflexivity.
Qed.

Section runs.
Context {W : Type} `{CorpusTarget W}.
Abbreviation count xs := (Z.of_nat (length xs)).

(** The calls made on the writer since it was [w0]: the log holds those that succeeded. *)
Inductive called (w0 : W) : W -> list Call -> Prop :=
| called_none : called w0 w0 []
| called_next w log call status w' :
    called w0 w log -> call_ok call -> targetCall call w = (status, w') ->
    called w0 w' (if isOk status then log ++ [call] else log).

(** Offers whose call on the writer has succeeded. *)
Definition handedOver (st : BufferedCorpusWriter W) : nat :=
  (Z.to_nat (bw_read st) + match bw_worker st with AtStoreRead => 1 | _ => 0 end)%nat.

Definition producerInv (st : BufferedCorpusWriter W) : Prop :=
  match bw_producer st with
  | OfferIdle => True
  | OfferChecked offer => offerOk offer
  | OfferOpen offer => offerOk offer /\ bw_stop st = false
  | OfferLoaded offer write => offerOk offer /\ bw_stop st = false /\ write = bw_written st
  | OfferRoom offer write => offerOk offer /\ bw_stop st = false /\ write = bw_written st /\
      bw_written st < bw_read st + bw_capacity st /\ write < u64_max
  | OfferCopied offer write => offerOk offer /\ bw_stop st = false /\ write = bw_written st /\
      bw_written st < bw_read st + bw_capacity st /\ write < u64_max /\
      exists item, bw_records st !! slotOf write st = Some item /\ itemCall item = offerCall offer
  end.

Definition running (st : BufferedCorpusWriter W) : Prop := bw_status st = Ok /\ bw_failed st = None.
Definition workerInv (st : BufferedCorpusWriter W) : Prop :=
  match bw_worker st with
  | AtConsume | AtStoreRead => running st /\ bw_read st < bw_written st
  | AtTop | AtReference | AtStop => running st
  | AtCommit stop _ => running st /\ (stop = true -> bw_stop st = true)
  | AtEmpty stop => running st /\ (stop = true -> bw_stop st = true /\
      (bw_dirty st = false \/ bw_read st < bw_written st))
  | AtFailed status => status <> Ok /\ bw_status st = Ok /\ is_Some (bw_failed st)
  | AtExit | AtEnd =>
      (bw_status st <> Ok /\ is_Some (bw_failed st)) \/
      (running st /\ bw_stop st = true /\ bw_dirty st = false /\ bw_read st = bw_written st)
  end.

Record queueInv (w0 : W) (st : BufferedCorpusWriter W) : Prop := {
  qi_capacity : 1 <= bw_capacity st <= kMaximumQueueCapacity;
  qi_slots : length (bw_records st) = Z.to_nat (bw_capacity st);
  qi_written : bw_written st = count (bw_accepted st);
  qi_room : 0 <= bw_read st <= bw_written st /\ bw_written st <= bw_read st + bw_capacity st;
  qi_width : bw_written st <= u64_max;
  qi_local : bw_localRead st = bw_read st;
  qi_values : forall n offer, bw_read st <= Z.of_nat n -> bw_accepted st !! n = Some offer ->
    exists item, bw_records st !! slotOf (Z.of_nat n) st = Some item /\ itemCall item = offerCall offer;
  qi_offers : Forall offerOk (bw_accepted st);
  qi_called : called w0 (bw_writer st) (bw_performed st);
  qi_handed : List.filter isQueueCall (bw_performed st) = map offerCall (take (handedOver st) (bw_accepted st));
  qi_producer : producerInv st;
  qi_payload : bytes_ok (bw_referencePayload st) /\
    match bw_reference st with ReferenceOpen payload => bytes_ok payload | ReferenceIdle => True end;
  qi_worker : workerInv st;
  qi_dirty : bw_dirty st = false -> bw_worker st <> AtStoreRead ->
    exists clock, last (bw_performed st) = Some (PublishCut clock);
}.

Lemma slots_apart (st : BufferedCorpusWriter W) m n : 1 <= bw_capacity st -> 0 <= m -> 0 < n - m < bw_capacity st ->
  slotOf m st <> slotOf n st.
Proof.
  intros Hc Hm Hmn E. unfold slotOf in E.
  pose proof (Z.mod_pos_bound m (bw_capacity st) ltac:(lia)).
  pose proof (Z.mod_pos_bound n (bw_capacity st) ltac:(lia)).
  apply Z2Nat.inj in E; [|lia..].
  pose proof (Z.div_mod m (bw_capacity st) ltac:(lia)). pose proof (Z.div_mod n (bw_capacity st) ltac:(lia)).
  assert (n - m = bw_capacity st * (n / bw_capacity st - m / bw_capacity st)) as Hd by lia.
  destruct (Z.le_gt_cases (n / bw_capacity st - m / bw_capacity st) 0); nia.
Qed.

Lemma handed_le w0 (st : BufferedCorpusWriter W) : queueInv w0 st -> (handedOver st <= length (bw_accepted st))%nat.
Proof.
  intros Hi. pose proof (qi_room _ _ Hi). pose proof (qi_written _ _ Hi). pose proof (qi_worker _ _ Hi) as Hw.
  unfold handedOver, workerInv in *. destruct (bw_worker st); try destruct Hw as [_ Hw]; lia.
Qed.

Lemma queue_start_inv capacity now writer (st : BufferedCorpusWriter W) : in_u32 capacity ->
  startQueue capacity now (newQueue writer) = (Ok, st) -> queueInv writer st.
Proof.
  intros Hc. unfold startQueue. cbn [bw_joinable newQueue orb bw_writer].
  destruct (Z.eqb_spec capacity 0); [done|]. destruct (Z.ltb_spec kMaximumQueueCapacity capacity); [done|].
  destruct (negb _); [done|]. intros [= <-].
  unfold in_u32 in Hc. split; cbn; try done; [lia|by rewrite length_replicate|lia|apply called_none|split; [constructor|done]].
Qed.

Lemma enqueue_inv w0 offer (st : BufferedCorpusWriter W) : offerOk offer -> queueInv w0 st -> queueInv w0 (enqueueStep offer st).
Proof.
  intros Hoffer Hi. pose proof Hi as [I1 I2 I3 I4 I5 I6 I7 I8 I9 I10 I11 I12 I13 I14].
  unfold enqueueStep. unfold producerInv in I11. destruct (bw_producer st) as [|o|o|o w|o w|o w] eqn:Ep.
  - destruct (negb _); [done|]. by split.
  - destruct ((bw_capacity st =? 0) || bw_stop st) eqn:E; [by split|]. split; try done. cbn.
    apply orb_false_iff in E as [_ E]. done.
  - destruct I11. by split.
  - destruct I11 as (Ho & Hs & ->). destruct (_ || _) eqn:E; [by split|]. split; try done. cbn.
    apply orb_false_iff in E as [E1 E2]. rewrite u64_id in E1 by mlia. unfold producerInv. cbn.
    split_and!; [done..|lia|lia].
  - destruct I11 as (Ho & Hs & -> & Hroom & Hmax).
    set (slot := slotOf (bw_written st) st).
    assert (slot < length (bw_records st))%nat as Hslot.
    { rewrite I2. unfold slot, slotOf. pose proof (Z.mod_pos_bound (bw_written st) (bw_capacity st) ltac:(lia)). lia. }
    destruct (lookup_lt_is_Some_2 _ _ Hslot) as [item Hitem].
    split; cbn; try done.
    + by rewrite length_alter.
    + intros n o' Hn Ha. pose proof (lookup_lt_Some _ _ _ Ha) as Hlt.
      change (slotOf (Z.of_nat n) _) with (slotOf (Z.of_nat n) st).
      rewrite list_lookup_alter_ne; [by apply I7|].
      pose proof (slots_apart st (Z.of_nat n) (bw_written st) ltac:(lia) ltac:(lia) ltac:(lia)) as Hne. subst slot. by apply not_eq_sym.
    + unfold producerInv. cbn. split_and!; try done. exists (copyItem o item). split; [|by apply itemCall_copy].
      change (slotOf _ _) with slot. by rewrite list_lookup_alter_eq, Hitem.
  - destruct I11 as (Ho & Hs & -> & Hroom & Hmax & item & Hitem & Hcall).
    split; cbn; try done.
    + rewrite length_app. cbn. lia.
    + lia.
    + lia.
    + intros n o' Hn Ha. destruct (decide (n < length (bw_accepted st))%nat) as [Hlt|Hge].
      * rewrite lookup_app_l in Ha by done. by apply I7.
      * rewrite lookup_app_r in Ha by lia. apply list_lookup_singleton_Some in Ha as [Hz <-].
        replace (Z.of_nat n) with (bw_written st) by lia. by exists item.
    + apply Forall_app. split; [done|]. by constructor.
    + rewrite I10. change (handedOver _) with (handedOver st) at 2. rewrite take_app_le; [done|].
      by apply (handed_le w0).
    + unfold workerInv in *. cbn. destruct (bw_worker st) as [| | | | |b n|b| | |]; try done.
      * destruct I13 as [? ?]. split; [done|lia].
      * destruct I13 as [? ?]. split; [done|lia].
      * destruct I13 as [? Hb]. split; [done|]. intros E. destruct (Hb E) as [? ?]. congruence.
      * destruct I13 as [?|(? & ? & ?)]; [by left|congruence].
      * destruct I13 as [?|(? & ? & ?)]; [by left|congruence].
Qed.

Lemma reference_inv w0 payload (st : BufferedCorpusWriter W) : bytes_ok payload -> queueInv w0 st -> queueInv w0 (referenceStep payload st).
Proof.
  intros Hp Hi. pose proof Hi as [I1 I2 I3 I4 I5 I6 I7 I8 I9 I10 I11 I12 I13 I14].
  unfold referenceStep. destruct (bw_reference st) as [|payload'] eqn:Er.
  - destruct (_ || _); [done|]. split; try done. cbn. by destruct I12.
  - destruct I12 as [_ Hp']. by split.
Qed.

Lemma stop_inv w0 (st : BufferedCorpusWriter W) : queueInv w0 st -> queueInv w0 (stopStep st).
Proof.
  intros Hi. pose proof Hi as [I1 I2 I3 I4 I5 I6 I7 I8 I9 I10 I11 I12 I13 I14].
  unfold stopStep. destruct (bw_producer st) eqn:Ep; try done. destruct (bw_joinable st); [|done].
  split; try done; cbn.
  - unfold producerInv. cbn. by rewrite Ep.
  - unfold workerInv in *. cbn. destruct (bw_worker st) as [| | | | |b n|b| | |]; try done.
    + by destruct I13.
    + destruct I13 as [? Hb]. split; [done|]. intros E. by destruct (Hb E).
    + destruct I13 as [?|(? & ? & ?)]; [by left|by right].
    + destruct I13 as [?|(? & ? & ?)]; [by left|by right].
Qed.

(** A call on the writer: what it changes. *)
Lemma workerCall_spec call (st : BufferedCorpusWriter W) status st' : workerCall call st = (status, st') ->
  exists writer, targetCall call (bw_writer st) = (status, writer) /\
    st' = if isOk status
          then st <| bw_writer := writer |> <| bw_performed ::= fun calls => calls ++ [call] |>
          else st <| bw_writer := writer |> <| bw_failed := Some call |>.
Proof. unfold workerCall. destruct (targetCall call (bw_writer st)) as [status' writer]. intros [= <- <-]. by exists writer. Qed.

Lemma isOk_true status : isOk status = true <-> status = Ok.
Proof. destruct status; done. Qed.

(** The call of a waiting offer is the one [consume] makes. *)
Lemma waiting_item w0 (st : BufferedCorpusWriter W) : queueInv w0 st -> bw_read st < bw_written st ->
  exists offer item, bw_accepted st !! Z.to_nat (bw_read st) = Some offer /\
    bw_records st !! slotOf (bw_read st) st = Some item /\ itemCall item = offerCall offer /\ offerOk offer.
Proof.
  intros Hi Hlt. pose proof (qi_room _ _ Hi). pose proof (qi_written _ _ Hi).
  destruct (lookup_lt_is_Some_2 (bw_accepted st) (Z.to_nat (bw_read st)) ltac:(lia)) as [offer Ho].
  destruct (qi_values _ _ Hi (Z.to_nat (bw_read st)) offer) as (item & Hs & Hc); [lia|done|].
  rewrite Z2Nat.id in Hs by lia. exists offer, item. split_and!; try done.
  by apply (Forall_lookup_1 _ _ _ _ (qi_offers _ _ Hi) Ho).
Qed.
Lemma offerCall_queue offer : isQueueCall (offerCall offer) = true.
Proof. by destruct offer. Qed.

Lemma consume_inv w0 (st : BufferedCorpusWriter W) steady clock : queueInv w0 st -> bw_worker st = AtConsume ->
  queueInv w0 (workerStep steady clock st).
Proof.
  intros Hi Ew. pose proof (qi_worker _ _ Hi) as Hw. unfold workerInv in Hw. rewrite Ew in Hw. destruct Hw as [Hrun Hlt].
  destruct (waiting_item w0 st Hi Hlt) as (offer & item & Ho & Hs & Hc & Hok).
  pose proof Hi as [I1 I2 I3 I4 I5 I6 I7 I8 I9 I10 I11 I12 I13 I14].
  unfold workerStep. rewrite Ew, I6, Hs, Hc.
  destruct (workerCall (offerCall offer) st) as [status st'] eqn:Ecall.
  apply workerCall_spec in Ecall as (writer & Et & ->).
  pose proof (called_next _ _ _ _ _ _ I9 (offerCall_ok _ Hok) Et) as Hcalled.
  unfold handedOver in I10. rewrite Ew, Nat.add_0_r in I10.
  destruct (isOk status) eqn:Eok; split; try done; cbn.
  - rewrite List.filter_app. cbn. rewrite offerCall_queue, I10. unfold handedOver. cbn.
    rewrite Nat.add_1_r, (take_S_r _ _ _ Ho), map_app. done.
  - unfold handedOver. cbn. by rewrite Nat.add_0_r.
  - unfold workerInv. cbn. split_and!; [by intros ->|apply Hrun|by eexists].
  - intros Hd _. apply I14; [done|by rewrite Ew].
Qed.

(** A step that moves the worker and touches nothing the other threads see. *)
Lemma moved_inv w0 (st : BufferedCorpusWriter W) status snapshot nextCommit dirty worker :
  queueInv w0 st -> bw_worker st <> AtStoreRead -> worker <> AtStoreRead ->
  let st' := st <| bw_status := status |> <| bw_snapshot := snapshot |> <| bw_nextCommit := nextCommit |>
                <| bw_dirty := dirty |> <| bw_worker := worker |> in
  workerInv st' -> (dirty = false -> bw_dirty st = false) -> queueInv w0 st'.
Proof.
  intros Hi Hw Hw' st' Hinv Hd. pose proof Hi as [I1 I2 I3 I4 I5 I6 I7 I8 I9 I10 I11 I12 I13 I14].
  split; try done; cbn.
  - rewrite I10. unfold handedOver. cbn. by destruct (bw_worker st), worker.
  - intros E _. apply I14; auto.
Qed.

(** A call of the worker that is not for an offer. *)
Lemma called_inv w0 (st : BufferedCorpusWriter W) call status st' : queueInv w0 st -> running st ->
  bw_worker st <> AtStoreRead -> call_ok call -> isQueueCall call = false -> workerCall call st = (status, st') ->
  (if isOk status
   then forall pending worker dirty snapshot next, worker <> AtStoreRead ->
     (dirty = false -> exists clock, call = PublishCut clock) ->
     let st' := st' <| bw_referencePending := pending |> <| bw_nextCommit := next |> <| bw_dirty := dirty |>
                  <| bw_snapshot := snapshot |> <| bw_worker := worker |> in
     workerInv st' -> queueInv w0 st'
   else queueInv w0 (st' <| bw_worker := AtFailed status |>)).
Proof.
  intros Hi Hrun Hw Hok Hq Ecall. apply workerCall_spec in Ecall as (writer & Et & ->).
  pose proof Hi as [I1 I2 I3 I4 I5 I6 I7 I8 I9 I10 I11 I12 I13 I14].
  pose proof (called_next _ _ _ _ _ _ I9 Hok Et) as Hcalled. destruct (isOk status) eqn:Eok.
  - intros pending worker dirty snapshot next Hw' Hd st' Hinv. split; try done; cbn.
    + rewrite List.filter_app. cbn. rewrite Hq, app_nil_r, I10. unfold handedOver. cbn. by destruct (bw_worker st), worker.
    + intros E _. destruct (Hd E) as [clock ->]. exists clock. apply last_snoc.
  - split; try done; cbn.
    + rewrite I10. unfold handedOver. cbn. by destruct (bw_worker st).
    + unfold workerInv. cbn. split_and!; [by intros ->|apply Hrun|by eexists].
    + intros E _. by apply I14.
Qed.

Lemma worker_inv w0 (st : BufferedCorpusWriter W) steady clock : in_u64 clock -> queueInv w0 st ->
  queueInv w0 (workerStep steady clock st).
Proof.
  intros Hclock Hi. destruct (bw_worker st) as [| | | | |stop now|stop|status| |] eqn:Ew;
    [|by apply consume_inv| | | | | | | |]; pose proof (qi_worker _ _ Hi) as Hw; pose proof (qi_local _ _ Hi) as Hl;
    assert (bw_worker st <> AtStoreRead \/ bw_worker st = AtStoreRead) as [Hne|Hsr] by (rewrite Ew; intuition done);
    try (exfalso; congruence); unfold workerInv in Hw; rewrite Ew in Hw; unfold workerStep; rewrite Ew.
  - rewrite Hl. destruct (Z.ltb_spec (bw_read st) (bw_written st));
      apply (moved_inv w0 st (bw_status st) (bw_snapshot st) (bw_nextCommit st) (bw_dirty st)); try done; by split.
  - pose proof Hi as [I1 I2 I3 I4 I5 I6 I7 I8 I9 I10 I11 I12 I13 I14]. destruct Hw as [Hrun Hlt].
    unfold handedOver in I10. rewrite Ew, Nat.add_1_r in I10.
    split; cbn; try done; try lia.
    + intros n offer Hn. apply I7. lia.
    + rewrite I10. unfold handedOver. cbn. rewrite Nat.add_0_r. f_equal. f_equal. lia.
    + unfold producerInv in *. cbn. destruct (bw_producer st); intuition lia.
  - destruct (bw_referencePending st) eqn:Ep.
    + destruct (workerCall _ st) as [status st'] eqn:Ecall.
      pose proof (called_inv w0 st (SetReferencePayload (bw_referencePayload st)) status st' Hi Hw Hne
        (proj1 (qi_payload _ _ Hi)) eq_refl Ecall) as Hc.
      apply workerCall_spec in Ecall as (writer & _ & ->). destruct (isOk status); [|done].
      by apply (Hc false AtStop true (bw_snapshot st) (bw_nextCommit st)).
    + by apply (moved_inv w0 st (bw_status st) (bw_snapshot st) (bw_nextCommit st) (bw_dirty st)).
  - by apply (moved_inv w0 st (bw_status st) (bw_snapshot st) (bw_nextCommit st) (bw_dirty st)).
  - destruct Hw as [Hrun Hstop]. destruct (bw_dirty st && _) eqn:Ed.
    + destruct (workerCall _ st) as [status st'] eqn:Ecall.
      pose proof (called_inv w0 st (PublishCut clock) status st' Hi Hrun Hne Hclock eq_refl Ecall) as Hc.
      apply workerCall_spec in Ecall as (writer & _ & ->). destruct (isOk status); [|done].
      apply (Hc (bw_referencePending st) (AtEmpty stop) false); [done|by exists clock|]. split; [done|].
      cbn. intros E. split; [by apply Hstop|by left].
    + apply (moved_inv w0 st (bw_status st) (bw_snapshot st) (bw_nextCommit st) (bw_dirty st)); try done.
      split; [done|]. cbn. intros ->. split; [by apply Hstop|]. rewrite Hl in Ed. pose proof (qi_room _ _ Hi).
      destruct (bw_dirty st); [right|by left]. cbn in Ed. apply orb_false_iff in Ed as [_ Ed]. lia.
  - destruct Hw as [Hrun Hstop]. rewrite Hl. destruct (Z.eqb_spec (bw_read st) (bw_written st)) as [E|E].
    + destruct stop; apply (moved_inv w0 st (bw_status st) (bw_snapshot st) (bw_nextCommit st) (bw_dirty st)); try done.
      destruct (Hstop eq_refl) as [Hs [Hd|Hd]]; [|lia]. right. by split_and!.
    + by apply (moved_inv w0 st (bw_status st) (bw_snapshot st) (bw_nextCommit st) (bw_dirty st)).
  - destruct Hw as (Hs & Hok & Hf).
    apply (moved_inv w0 st status (bw_snapshot st) (bw_nextCommit st) (bw_dirty st)); try done. by left.
  - by apply (moved_inv w0 st (bw_status st) (targetSnapshot (bw_writer st)) (bw_nextCommit st) (bw_dirty st)).
  - done.
Qed.

Lemma queueStep_inv w0 (st : BufferedCorpusWriter W) step : stepOk step -> queueInv w0 st ->
  queueInv w0 (queueStep st step).
Proof.
  destruct step as [offer|payload|steady clock|]; intros Hok Hi;
    [by apply enqueue_inv|by apply reference_inv|by apply worker_inv|by apply stop_inv].
Qed.
Lemma runQueue_inv w0 schedule : forall st : BufferedCorpusWriter W, Forall stepOk schedule -> queueInv w0 st ->
  queueInv w0 (runQueue schedule st).
Proof.
  induction schedule as [|step schedule IH]; intros st Hok Hi; [done|].
  apply Forall_cons in Hok as [Hs Hok]. apply IH; [done|]. by apply queueStep_inv.
Qed.

(** ** The worker ends *)

Definition workerSteps (schedule : list QueueStep) : nat :=
  length (List.filter (fun step => match step with Work _ _ => true | _ => false end) schedule).

(** Steps the worker still takes once [stop_] is set, by the number of items waiting. *)
Definition stepsLeft (st : BufferedCorpusWriter W) : Z :=
  let waiting := bw_written st - bw_read st in
  let empty := if waiting =? 0 then 2 else 7 * waiting + 7 in
  match bw_worker st with
  | AtTop => 7 * waiting + 6
  | AtConsume => 7 * waiting + 5
  | AtStoreRead => 7 * waiting + 4
  | AtReference => empty + 3
  | AtStop => empty + 2
  | AtCommit true _ => empty + 1
  | AtCommit false _ => 7 * waiting + 8
  | AtEmpty true => empty
  | AtEmpty false => 7 * waiting + 7
  | AtFailed _ => 2
  | AtExit => 1
  | AtEnd => 0
  end.

Lemma stepsLeft_bound w0 st : queueInv w0 st -> 0 <= stepsLeft st <= 7 * bw_capacity st + 10.
Proof.
  intros Hi. pose proof (qi_room _ _ Hi). pose proof (qi_capacity _ _ Hi). unfold stepsLeft.
  destruct (Z.eqb_spec (bw_written st - bw_read st) 0); destruct (bw_worker st) as [| | | | |[] ?|[]| | |]; lia.
Qed.

Lemma worker_steps w0 (st : BufferedCorpusWriter W) steady clock : queueInv w0 st -> bw_stop st = true ->
  bw_worker st <> AtEnd -> stepsLeft (workerStep steady clock st) < stepsLeft st.
Proof.
  intros Hi Hs Hend. pose proof (qi_room _ _ Hi) as Hr. pose proof (qi_local _ _ Hi) as Hl.
  pose proof (qi_worker _ _ Hi) as Hw. unfold workerInv in Hw. unfold workerStep.
  destruct (bw_worker st) as [| | | | |stop now|stop|status| |] eqn:Ew; [| | | | | | | | |done].
  - rewrite Hl. unfold stepsLeft. rewrite Ew.
    destruct (Z.ltb_spec (bw_read st) (bw_written st)); cbn; destruct (Z.eqb_spec (bw_written st - bw_read st) 0); lia.
  - destruct Hw as [_ Hlt]. destruct (waiting_item w0 st Hi Hlt) as (offer & item & _ & Hit & _ & _).
    rewrite Hl, Hit. destruct (workerCall _ st) as [status st'] eqn:Ecall.
    apply workerCall_spec in Ecall as (writer & _ & ->). unfold stepsLeft. rewrite Ew.
    destruct (isOk status); cbn; lia.
  - destruct Hw as [_ Hlt]. unfold stepsLeft. rewrite Ew. cbn.
    destruct (Z.eqb_spec (bw_written st - (bw_localRead st + 1)) 0); lia.
  - destruct (bw_referencePending st).
    + destruct (workerCall _ st) as [status st'] eqn:Ecall. apply workerCall_spec in Ecall as (writer & _ & ->).
      unfold stepsLeft. rewrite Ew.
      destruct (isOk status); cbn; destruct (Z.eqb_spec (bw_written st - bw_read st) 0); lia.
    + unfold stepsLeft. rewrite Ew. cbn. lia.
  - unfold stepsLeft. rewrite Ew, Hs. cbn. lia.
  - unfold stepsLeft at 2. rewrite Ew. destruct (bw_dirty st && _).
    + destruct (workerCall _ st) as [status st'] eqn:Ecall. apply workerCall_spec in Ecall as (writer & _ & ->).
      unfold stepsLeft. destruct (isOk status), stop; cbn; destruct (Z.eqb_spec (bw_written st - bw_read st) 0); lia.
    + unfold stepsLeft. destruct stop; cbn; lia.
  - rewrite Hl. unfold stepsLeft at 2. rewrite Ew.
    destruct (Z.eqb_spec (bw_read st) (bw_written st)), stop; unfold stepsLeft; cbn;
      destruct (Z.eqb_spec (bw_written st - bw_read st) 0); lia.
  - unfold stepsLeft. rewrite Ew. cbn. lia.
  - unfold stepsLeft. rewrite Ew. cbn. lia.
Qed.

(** The other threads no longer matter once [stop_] is set. *)
Lemma other_steps w0 (st : BufferedCorpusWriter W) step : queueInv w0 st -> bw_stop st = true ->
  (forall steady clock, step <> Work steady clock) ->
  stepsLeft (queueStep st step) = stepsLeft st /\ bw_stop (queueStep st step) = true /\
  bw_worker (queueStep st step) = bw_worker st.
Proof.
  intros Hi Hs Hne. pose proof (qi_producer _ _ Hi) as Hp. unfold producerInv in Hp.
  destruct step as [offer|payload|steady clock|]; cbn; [| |by destruct (Hne steady clock)|].
  - unfold enqueueStep. destruct (bw_producer st) as [|o|o|o w|o w|o w]; try (destruct_and! Hp; congruence).
    + by destruct (negb _).
    + by destruct (_ || _).
  - unfold referenceStep. destruct (bw_reference st); [|done]. by destruct (_ || _).
  - unfold stopStep. destruct (bw_producer st); try done. by destruct (bw_joinable st).
Qed.
Lemma worker_kept (st : BufferedCorpusWriter W) steady clock :
  bw_stop (workerStep steady clock st) = bw_stop st /\ bw_capacity (workerStep steady clock st) = bw_capacity st.
Proof.
  unfold workerStep, workerCall. destruct (bw_worker st); try done.
  - destruct (_ !! _) as [item|]; [|done]. destruct (targetCall _ _) as [status w]. by destruct (isOk status).
  - destruct (bw_referencePending st); [|done]. destruct (targetCall _ _) as [status w]. by destruct (isOk status).
  - destruct (_ && _); [|done]. destruct (targetCall _ _) as [status w]. by destruct (isOk status).
  - by destruct (_ =? _).
Qed.
Lemma step_capacity (st : BufferedCorpusWriter W) step : bw_capacity (queueStep st step) = bw_capacity st.
Proof.
  destruct step as [offer|payload|steady clock|]; cbn; [| |apply worker_kept|].
  - unfold enqueueStep. destruct (bw_producer st); try done; [by destruct (negb _)|by destruct (_ || _)..].
  - unfold referenceStep. destruct (bw_reference st); [|done]. by destruct (_ || _).
  - unfold stopStep. destruct (bw_producer st); try done. by destruct (bw_joinable st).
Qed.
Lemma run_capacity schedule : forall st : BufferedCorpusWriter W, bw_capacity (runQueue schedule st) = bw_capacity st.
Proof.
  induction schedule as [|step schedule IH]; intros st; [done|]. cbn [runQueue fold_left].
  etrans; [apply IH|apply step_capacity].
Qed.

Lemma stopped_ends w0 schedule : forall st : BufferedCorpusWriter W, Forall stepOk schedule -> queueInv w0 st ->
  bw_stop st = true -> stepsLeft st <= Z.of_nat (workerSteps schedule) -> bw_worker (runQueue schedule st) = AtEnd.
Proof.
  induction schedule as [|step schedule IH]; intros st Hok Hi Hs Hle.
  - unfold workerSteps in Hle. cbn in *. pose proof (qi_room _ _ Hi). unfold stepsLeft in Hle.
    destruct (Z.eqb_spec (bw_written st - bw_read st) 0); destruct (bw_worker st) as [| | | | |[] ?|[]| | |]; try done; lia.
  - apply Forall_cons in Hok as [Hstep Hok]. pose proof (queueStep_inv w0 st step Hstep Hi) as Hi'.
    cbn [runQueue fold_left]. apply IH; [done|done| |].
    + destruct step as [offer|payload|steady clock|];
        [| |cbn; by rewrite (proj1 (worker_kept st steady clock))|]; apply (other_steps w0); done.
    + destruct step as [offer|payload|steady clock|].
      * by rewrite (proj1 (other_steps w0 st (Enqueue offer) Hi Hs ltac:(done))).
      * by rewrite (proj1 (other_steps w0 st (Reference payload) Hi Hs ltac:(done))).
      * unfold workerSteps in Hle. cbn in Hle. fold (workerSteps schedule) in Hle. cbn [queueStep].
        destruct (decide (bw_worker st = AtEnd)) as [E|E].
        -- unfold workerStep, stepsLeft. rewrite E, E. lia.
        -- pose proof (worker_steps w0 st steady clock Hi Hs E). lia.
      * by rewrite (proj1 (other_steps w0 st Stop Hi Hs ltac:(done))).
Qed.

(** ** After the worker *)

Record frozen (w0 : W) (log : list Call) (read : Z) (st : BufferedCorpusWriter W) : Prop := {
  fr_read : 0 <= read;
  fr_values : forall n offer, read <= Z.of_nat n -> bw_accepted st !! n = Some offer ->
    exists item, bw_records st !! slotOf (Z.of_nat n) st = Some item /\ itemCall item = offerCall offer;
  fr_offers : Forall offerOk (bw_accepted st);
  fr_called : called w0 (bw_writer st) log;
  fr_handed : List.filter isQueueCall log = map offerCall (take (Z.to_nat read) (bw_accepted st));
}.

Lemma drainLoop_hands_over w0 fuel : forall log read st st', frozen w0 log read st ->
  Z.of_nat fuel = count (bw_accepted st) - read -> drainLoop fuel read st = (Ok, st') ->
  bw_accepted st' = bw_accepted st /\
  exists log', called w0 (bw_writer st') log' /\ List.filter isQueueCall log' = map offerCall (bw_accepted st).
Proof.
  induction fuel as [|fuel IH]; intros log read st st' Hf Hn; pose proof Hf as [F1 F2 F3 F4 F5]; cbn [drainLoop].
  - intros [= <-]. split; [done|]. exists log. split; [done|]. by rewrite F5, take_ge by lia.
  - destruct (lookup_lt_is_Some_2 (bw_accepted st) (Z.to_nat read) ltac:(lia)) as [offer Ho].
    destruct (F2 (Z.to_nat read) offer ltac:(lia) Ho) as (item & Hs & Hc). rewrite Z2Nat.id in Hs by lia.
    rewrite Hs, Hc. destruct (workerCall _ st) as [status st1] eqn:Ecall.
    apply workerCall_spec in Ecall as (writer & Et & ->).
    pose proof (Forall_lookup_1 _ _ _ _ F3 Ho) as Hok.
    pose proof (called_next _ _ _ _ _ _ F4 (offerCall_ok _ Hok) Et) as Hcalled.
    destruct (isOk status) eqn:Eok; cbn [negb]; [|intros [= -> _]; done]. intros Hd.
    apply (IH (log ++ [offerCall offer])) in Hd; [done| |cbn; lia].
    split; cbn; try done; [lia|intros n o Hr; apply F2; lia|].
    rewrite List.filter_app. cbn. rewrite offerCall_queue, F5, Z2Nat.inj_add, Nat.add_1_r, (take_S_r _ _ _ Ho), map_app by lia.
    done.
Qed.

(** Closing a capture: [finish], the writer's final drain, [drainFrozen]. *)
Lemma closed_hands_over w0 (st : BufferedCorpusWriter W) writer st' : queueInv w0 st -> bw_worker st = AtEnd ->
  targetCall BeginFinalDrain (bw_writer st) = (Ok, writer) ->
  drainFrozen ((joinQueue st).2 <| bw_writer := writer |>) = (Ok, st') ->
  bw_accepted st' = bw_accepted st /\
  exists log, called w0 (bw_writer st') log /\ List.filter isQueueCall log = map offerCall (bw_accepted st).
Proof.
  intros Hi Ew Hb. pose proof Hi as [I1 I2 I3 I4 I5 I6 I7 I8 I9 I10 I11 I12 I13 I14].
  unfold drainFrozen. cbn [joinQueue snd]. destruct (_ || _); [done|]. destruct (_ && _) eqn:Est.
  { intros [= E _]. cbn in *. rewrite E in Est. done. }
  unfold handedOver in I10. rewrite Ew, Nat.add_0_r in I10.
  pose proof (called_next w0 _ _ BeginFinalDrain _ _ I9 I Hb) as Hcalled. cbn [isOk] in Hcalled.
  intros Hd. eapply (drainLoop_hands_over w0) in Hd; [exact Hd| |].
  - split; [exact (proj1 (proj1 I4))|exact I7|exact I8|exact Hcalled|]. rewrite List.filter_app. cbn. by rewrite app_nil_r.
  - cbn. lia.
Qed.

(** ** Claims *)

Section claims.
Context (capacity now : Z) (writer : W) (start : BufferedCorpusWriter W) (schedule : list QueueStep).
Context (Hcapacity : in_u32 capacity) (Hstart : startQueue capacity now (newQueue writer) = (Ok, start)).
Context (Hsteps : Forall stepOk schedule).

Lemma started_inv : queueInv writer (runQueue schedule start) /\ bw_capacity (runQueue schedule start) = capacity.
Proof.
  pose proof (queue_start_inv capacity now writer start Hcapacity Hstart) as Hi. split; [by apply runQueue_inv|].
  rewrite run_capacity. revert Hstart. unfold startQueue. destruct (_ || _); [done|]. by intros [= <-].
Qed.

(** C3: Under every interleaving of the producer, the reference thread, the worker and
    [finish], the calls the writer was given for offers are those of the accepted offers in
    order, none twice and none skipped; at most a queue of offers waits, and the producer
    never writes the slot the worker reads. *)
Theorem buffered_fifo : let st := runQueue schedule start in
  (exists handed waiting, bw_accepted st = handed ++ waiting /\ count waiting <= capacity /\
     called writer (bw_writer st) (bw_performed st) /\
     List.filter isQueueCall (bw_performed st) = map offerCall handed) /\
  (forall offer write, bw_producer st = OfferRoom offer write -> bw_worker st = AtConsume ->
     slotOf write st <> slotOf (bw_localRead st) st).
Proof.
  destruct started_inv as [Hi Hc]. cbv zeta. set (st := runQueue schedule start) in *. clearbody st.
  pose proof Hi as [I1 I2 I3 I4 I5 I6 I7 I8 I9 I10 I11 I12 I13 I14]. split.
  - exists (take (handedOver st) (bw_accepted st)), (drop (handedOver st) (bw_accepted st)).
    split_and!; [by rewrite take_drop| |done|done]. rewrite length_drop. unfold handedOver. lia.
  - intros offer write Hp Hw. unfold producerInv in I11. rewrite Hp in I11.
    unfold workerInv in I13. rewrite Hw in I13. destruct I11 as (_ & _ & -> & Hroom & _), I13 as [_ Hlt].
    rewrite I6. apply not_eq_sym, slots_apart; lia.
Qed.

(** C4: A queue whose worker ended and whose status is Ok has handed over every
    accepted offer, and the writer published a cut after the last of them. *)
Theorem buffered_complete : let st := runQueue schedule start in
  bw_worker st = AtEnd -> bw_status st = Ok ->
  List.filter isQueueCall (bw_performed st) = map offerCall (bw_accepted st) /\
  exists clock, last (bw_performed st) = Some (PublishCut clock).
Proof.
  destruct started_inv as [Hi Hc]. cbv zeta. set (st := runQueue schedule start) in *. clearbody st.
  intros Hw Hs. pose proof Hi as [I1 I2 I3 I4 I5 I6 I7 I8 I9 I10 I11 I12 I13 I14].
  unfold workerInv in I13. rewrite Hw in I13. destruct I13 as [[? _]|(_ & _ & Hd & Hr)]; [done|].
  split; [|apply I14; [done|by rewrite Hw]].
  rewrite I10. unfold handedOver. rewrite Hw, take_ge by lia. done.
Qed.

(** C5: Once [finish] has set the stop flag, the worker ends after at most seven of
    its own steps for each waiting item and ten more, whatever the other threads and the
    writer do, so [finish] returns. *)
Theorem buffered_finishes rest : bw_stop (runQueue schedule start) = true -> Forall stepOk rest ->
  7 * capacity + 10 <= Z.of_nat (workerSteps rest) ->
  bw_worker (runQueue rest (runQueue schedule start)) = AtEnd.
Proof.
  intros Hs Hok Hle. destruct started_inv as [Hi Hc]. apply (stopped_ends writer); [done..|].
  pose proof (stepsLeft_bound _ _ Hi). lia.
Qed.
End claims.
End runs.

(** ** Samples *)

(** A writer that accepts every call but an append of a record with the sequence it refuses. *)
Module LogTarget.
Record t := MkLog { refused : Z; log : list Call }.
#[export] Instance target : CorpusTarget t := {|
  targetCall call w :=
    match call with
    | Append record =>
        if h_shardSequence (rec_header record) =? refused w then (OutOfRange, w)
        else (Ok, MkLog (refused w) (log w ++ [call]))
    | _ => (Ok, MkLog (refused w) (log w ++ [call]))
    end;
  targetSnapshot w := MkBinaryMarketWriterSnapshot true false 0 0 0 0 0 0;
|}.
End LogTarget.

Section samples.
Import LogTarget.

Definition sampleTarget : t := MkLog (-1) [].
Definition startedQueue : BufferedCorpusWriter t := (startQueue 2 0 (newQueue sampleTarget)).2.
Lemma queue_started : startQueue 2 0 (newQueue sampleTarget) = (Ok, startedQueue).
Proof. reflexivity. Qed.

(** Two offers with the worker in between, then [finish] and the rest of the worker. *)
Definition works (n : nat) : list QueueStep := replicate n (Work 1 7).
Definition sampleOffers : list QueueStep :=
  replicate 6 (Enqueue (OfferRecord sampleTrade)) ++ works 3 ++ replicate 6 (Enqueue (OfferSource sampleSource)).
Definition queueSchedule : list QueueStep := sampleOffers ++ [Stop] ++ works 24.
Abbreviation sampleQueue := (runQueue queueSchedule startedQueue).

Example sampleQueue_result :
  (bw_worker sampleQueue, bw_status sampleQueue, length (bw_accepted sampleQueue), length (log (bw_writer sampleQueue))) =
  (AtEnd, Ok, 2%nat, 4%nat).
Proof. vm_compute. reflexivity. Qed.

Lemma works_ok n : Forall stepOk (works n).
Proof. apply Forall_replicate. cbn. mlia. Qed.
Lemma sampleOffers_ok : Forall stepOk sampleOffers.
Proof.
  apply Forall_app. split; [apply Forall_replicate, sampleTrade_fits|]. apply Forall_app.
  split; [apply works_ok|apply Forall_replicate, sampleSource_fits].
Qed.
Lemma queueSchedule_ok : Forall stepOk queueSchedule.
Proof. apply Forall_app. split; [apply sampleOffers_ok|]. apply Forall_app. split; [by constructor|apply works_ok]. Qed.

Lemma buffered_fifo_witness : exists handed waiting, bw_accepted sampleQueue = handed ++ waiting /\
  Z.of_nat (length waiting) <= 2 /\ List.filter isQueueCall (bw_performed sampleQueue) = map offerCall handed.
Proof.
  destruct (buffered_fifo 2 0 sampleTarget startedQueue queueSchedule ltac:(mlia) queue_started queueSchedule_ok)
    as [(handed & waiting & H1 & H2 & _ & H3) _].
  exists handed, waiting. exact (conj H1 (conj H2 H3)).
Defined.

Lemma buffered_complete_witness :
  bw_status sampleQueue = Ok /\
  List.filter isQueueCall (bw_performed sampleQueue) = map offerCall (bw_accepted sampleQueue).
Proof.
  assert (bw_worker sampleQueue = AtEnd) as Hw by (vm_compute; reflexivity).
  assert (bw_status sampleQueue = Ok) as Hs by (vm_compute; reflexivity).
  split; [exact Hs|].
  exact (proj1 (buffered_complete 2 0 sampleTarget startedQueue queueSchedule ltac:(mlia) queue_started queueSchedule_ok Hw Hs)).
Defined.

Lemma buffered_finishes_witness :
  bw_worker (runQueue (works 24) (runQueue (sampleOffers ++ [Stop]) startedQueue)) = AtEnd.
Proof.
  assert (Forall stepOk (sampleOffers ++ [Stop])) as Hok
    by (apply Forall_app; split; [apply sampleOffers_ok|by constructor]).
  assert (bw_stop (runQueue (sampleOffers ++ [Stop]) startedQueue) = true) as Hs by (vm_compute; reflexivity).
  apply (buffered_finishes 2 0 sampleTarget startedQueue _ ltac:(mlia) queue_started Hok (works 24) Hs (works_ok 24)).
  vm_compute. discriminate.
Defined.

(** A reference payload that arrives after the worker looked for one and before it loads the
    stop flag is accepted and never given to the writer, and [finish] reports success. *)
Theorem reference_payload_lost :
  let st := runQueue (works 7 ++ [Reference [1]; Reference [1]; Stop] ++ works 9) startedQueue in
  bw_worker st = AtEnd /\ bw_status st = Ok /\ bw_referencePending st = true /\
  ~ In (SetReferencePayload [1]) (bw_performed st).
Proof. vm_compute. split_and!; [reflexivity..|]. intros [E|[]]. discriminate. Qed.
End samples.
