(* ===== verification/CaptureRun.v ===== *)
(** * CaptureRun: from the queue to the reader

    The queue of BufferedWriter in front of the corpus writer: a capture closed the way
    src/src/Runtime/src/Capture/Coordinator/RecorderCaptureSession.cpp closes it ([finish], the
    final drain, [drainFrozen], [finalize]) and read back; and a reference payload the queue
    can lose. *)
From stdpp Require Import base list numbers strings gmap sorting.
From S2P Require Import Prelude Codec Layout Format Samples DepthTransaction SourceState Disk.
From S2P Require Import Metadata BlockCodec Cut Segment Writer WriterShape WriterInv WriterSteps.
From S2P Require Import WriterCalls WriterCuts WriterRun Storage StorageCalls.
From S2P Require Import Reader ReaderLoops ReaderMerge ReaderSelect ReaderRun StorageRun.
From S2P Require Import BufferedWriter BufferedRun.
Local Open Scope Z_scope.

Definition callRecord (call : Call) : option BinaryMarketRecord :=
  match call with Append record => Some record | _ => None end.
Definition offerRecord (offer : Offer) : option BinaryMarketRecord :=
  match offer with OfferRecord record => Some record | _ => None end.

Lemma omap_queue_calls log : omap callRecord (List.filter isQueueCall log) = omap callRecord log.
Proof. induction log as [|call log IH]; [done|]. destruct call; cbn; by rewrite ?IH. Qed.
Lemma omap_offer_calls offers : omap callRecord (map offerCall offers) = omap offerRecord offers.
Proof. induction offers as [|offer offers IH]; [done|]. destruct offer; cbn; by rewrite IH. Qed.

Section capture.
Context `{CxetMarket} `{Codec : ByteBlockCodec} `{!ByteBlockLaws Codec}.

Lemma perform_some call s : exists status s', perform call (Some s) = (status, Some s').
Proof.
  destruct call; cbn; unfold registerSources, append, appendGap, updateProgress, setReferencePayload, publishCut,
    beginFinalDrain, finalize, whenActive; destruct (negb (wr_active s)); try (by eauto);
    match goal with |- context [let '(_, _) := ?f in _] => destruct f as [status s'] end; by eauto.
Qed.

(** The calls of the queue are a run of the writer. *)
Lemma called_run config s0 log0 writer log : called (W := BinaryMarketCorpusWriter) (Some s0) writer log -> writer_run config s0 log0 ->
  exists s, writer = Some s /\ writer_run config s (log0 ++ omap callRecord log).
Proof.
  intros Hc Hrun. induction Hc as [|writer log call status writer' Hc IH Hok Ht].
  - exists s0. split; [done|]. by rewrite app_nil_r.
  - destruct IH as (s & -> & IH). cbn in Ht. destruct (perform_some call s) as (status' & s' & E).
    rewrite E in Ht. injection Ht as <- <-. exists s'. split; [done|].
    pose proof (run_called config s _ call status' s' IH Hok E) as Hr.
    destruct (isOk status') eqn:Eok.
    + apply isOk_true in Eok as ->. rewrite omap_app. destruct call; cbn in *; by rewrite ?app_nil_r, ?app_assoc in *.
    + by destruct call, status'.
Qed.

(** C1: A capture through the queue is read back: whatever the interleaving of its
    threads and the faults of the disk, if the closing drain and [finalize] report success,
    the reader's merge is a permutation of the records whose [append] on the queue answered
    Ok (after those the writer already had), in the strict emission order, and a selection is
    the part of it in the requested interval, sources and channels. *)
Theorem capture_roundtrip config s0 log0 capacity now start schedule writer closed
    reason finalized clock s' request selection :
  writer_run config s0 log0 -> in_u32 capacity ->
  startQueue capacity now (newQueue (W := BinaryMarketCorpusWriter) (Some s0)) = (Ok, start) -> Forall stepOk schedule ->
  let st := runQueue schedule start in
  bw_worker st = AtEnd -> perform BeginFinalDrain (bw_writer st) = (Ok, writer) ->
  drainFrozen ((joinQueue st).2 <| bw_writer := writer |>) = (Ok, closed) ->
  StopReason.Requested <= reason <= StopReason.ParserDisconnected -> in_i64 finalized ->
  finalize reason finalized clock (bw_writer closed) = (Ok, Some s') ->
  select (w_files (wr_disk s')) request = Some (inr selection) ->
  exists state output rows,
    open (w_files (wr_disk s')) request = Some (inr (state, output)) /\ cs_request state = request /\
    rows ≡ₚ log0 ++ omap offerRecord (bw_accepted st) /\ StronglySorted before rows /\
    se_records selection = List.filter (inSelection state) rows.
Proof.
  intros Hrun Hcap Hstart Hsteps st Hend Hbegin Hdrain Hreason Hf Hfin Hsel.
  destruct (started_inv capacity now (Some s0) start schedule Hcap Hstart Hsteps) as [Hi _]. fold st in Hi.
  destruct (closed_hands_over (Some s0) st writer closed Hi Hend Hbegin Hdrain) as (_ & log & Hc & Hlog).
  destruct (called_run config s0 log0 _ _ Hc Hrun) as (s & Hs & Hr).
  unfold BinaryMarketCorpusWriter in *. rewrite Hs in Hfin.
  rewrite <- omap_queue_calls, Hlog, omap_offer_calls in Hr.
  exact (recording_roundtrip config s _ reason finalized clock s' request selection Hr Hreason Hf Hfin Hsel).
Qed.
End capture.

(** ** A sample capture *)

Section samples.
Import Stored.

Lemma startedRun : writer_run sampleConfig startedState [].
Proof.
  assert (exists disk, start sampleConfig RootMissing emptyWorld None =
    (Ok, (Some startedState, disk))) as [disk Hs] by (eexists; vm_compute; reflexivity).
  exact (run_started sampleConfig RootMissing emptyWorld disk None startedState sampleConfig_ok Hs).
Qed.

Definition captureStart : BufferedCorpusWriter BinaryMarketCorpusWriter :=
  (startQueue 2 0 (newQueue (W := BinaryMarketCorpusWriter) (Some startedState))).2.
Definition captureSchedule : list QueueStep :=
  replicate 6 (Enqueue (OfferRecord sampleTrade)) ++ [Stop] ++ works 12.
Abbreviation captureEnd := (runQueue captureSchedule captureStart).
Definition captureDrain : BufferedCorpusWriter BinaryMarketCorpusWriter :=
  (joinQueue captureEnd).2 <| bw_writer := (perform BeginFinalDrain (bw_writer captureEnd)).2 |>.
Definition captureClosed : BufferedCorpusWriter BinaryMarketCorpusWriter := (drainFrozen captureDrain).2.
Definition captureFinal : WriterState := stateOf (finalize StopReason.Requested 9000 78 (bw_writer captureClosed)).
Definition captureSelection : BinaryMarketSelection :=
  match select (w_files (wr_disk captureFinal)) sampleRequest with
  | Some (inr selection) => selection
  | _ => sampleSelection
  end.

Lemma capture_started : startQueue 2 0 (newQueue (W := BinaryMarketCorpusWriter) (Some startedState)) = (Ok, captureStart).
Proof. vm_compute. reflexivity. Qed.
Lemma captureSchedule_ok : Forall stepOk captureSchedule.
Proof.
  apply Forall_app. split; [apply Forall_replicate, sampleTrade_fits|]. apply Forall_app.
  split; [by constructor|apply works_ok].
Qed.
Lemma capture_ended : bw_worker captureEnd = AtEnd.
Proof. vm_compute. reflexivity. Qed.
Lemma capture_begun : (perform BeginFinalDrain (bw_writer captureEnd)).1 = Ok.
Proof. vm_compute. reflexivity. Qed.
Lemma capture_drained : (drainFrozen captureDrain).1 = Ok.
Proof. vm_compute. reflexivity. Qed.
Lemma capture_finalized :
  finalize StopReason.Requested 9000 78 (bw_writer captureClosed) = (Ok, Some captureFinal).
Proof. vm_compute. reflexivity. Qed.
Lemma capture_selected : select (w_files (wr_disk captureFinal)) sampleRequest = Some (inr captureSelection).
Proof. vm_compute. reflexivity. Qed.

Lemma pair_of_status {A} (result : Status * A) status : result.1 = status -> result = (status, result.2).
Proof. destruct result. by intros <-. Qed.

Lemma capture_roundtrip_witness :
  se_records captureSelection = [sampleTrade] /\
  exists rows, rows ≡ₚ omap offerRecord (bw_accepted captureEnd) /\ StronglySorted before rows.
Proof.
  split; [vm_compute; reflexivity|].
  destruct (capture_roundtrip sampleConfig startedState [] 2 0 captureStart captureSchedule
    (perform BeginFinalDrain (bw_writer captureEnd)).2 captureClosed StopReason.Requested 9000 78 captureFinal
    sampleRequest captureSelection startedRun ltac:(mlia) capture_started captureSchedule_ok capture_ended)
    as (state & output & rows & _ & _ & Hp & Hs & _).
  - exact (pair_of_status _ _ capture_begun).
  - exact (pair_of_status _ _ capture_drained).
  - vm_compute. split; discriminate.
  - mlia.
  - exact capture_finalized.
  - exact capture_selected.
  - rewrite app_nil_l in Hp. exists rows. split; [exact Hp|exact Hs].
Defined.
End samples.
