(* ===== verification/Reference.v ===== *)
(** * Reference: the reference payload of a recording

    Models src/src/Contracts/include/hftrec/CorpusContract/RecorderReference.hpp: snapshots of
    reference data in one byte string, and the callback by which the corpus writer fixes when
    they became visible.  The identities, headers and records of the parser are types of a
    library outside the repository: the class [ReferenceProtocol].

    Theorems: payloads are read back as written, and every payload that is read is the writing
    of what was read; binding keeps every earlier observation and dates the new ones. *)
From stdpp Require Import base list numbers.
From S2P Require Import Prelude Codec Layout Format Disk.
Local Open Scope Z_scope.

(** ** The parser library *)

Class ReferenceProtocol := {
  ReferenceProductIdentity : Type;
  l_ReferenceProductIdentity : layout ReferenceProductIdentity;
  exchangeRaw : ReferenceProductIdentity -> Z;
  marketRaw : ReferenceProductIdentity -> Z;
  validReferenceProductIdentity : ReferenceProductIdentity -> bool;
  (** The enumeration of datasets and the size of a record; 0 for no dataset. *)
  l_ReferenceDatasetKind : layout Z;
  referenceRecordBytes : Z -> Z;
  CurrentReferenceHeader : Type;
  l_CurrentReferenceHeader : layout CurrentReferenceHeader;
  rh_producerEpoch : CurrentReferenceHeader -> Z;
  rh_generation : CurrentReferenceHeader -> Z;
  rh_product : CurrentReferenceHeader -> ReferenceProductIdentity;
  rh_dataset : CurrentReferenceHeader -> Z;
  rh_totalRows : CurrentReferenceHeader -> Z;
  rh_rowBytes : CurrentReferenceHeader -> Z;
  validCurrentReferenceHeader : CurrentReferenceHeader -> bool;
}.

Module RecorderReferencePresence.
Definition Present : Z := 1.
Definition Missing : Z := 2.
Definition GenerationChanged : Z := 3.
Definition ProtocolRejected : Z := 4.
Definition IoFailure : Z := 5.
Definition CapacityExceeded : Z := 6.
End RecorderReferencePresence.

Definition kRecorderReferenceMagic : Z := 0x46524348.
Definition kRecorderReferenceMaximumBytes : Z := 128 * 1024 * 1024.
Definition kRecorderReferenceMaximumSnapshots : Z := 65536.
Abbreviation size xs := (Z.of_nat (length xs)).

Section reference.
Context `{ReferenceProtocol}.

Record RecorderReferenceSnapshot := MkRecorderReferenceSnapshot {
  rs_product : ReferenceProductIdentity;
  rs_dataset : Z;
  rs_presence : Z;
  rs_acquiredMonotonicNs : Z;
  rs_acquiredRealtimeNs : Z;
  rs_visibleFromCutGeneration : Z;
  rs_visibleFromMonotonicNs : Z;
  rs_producer : CurrentReferenceHeader;
  rs_rowBytes : list Z;
}.
#[export] Instance RecorderReferenceSnapshot_eta : Eta RecorderReferenceSnapshot := fun r =>
  MkRecorderReferenceSnapshot (rs_product r) (rs_dataset r) (rs_presence r) (rs_acquiredMonotonicNs r)
    (rs_acquiredRealtimeNs r) (rs_visibleFromCutGeneration r) (rs_visibleFromMonotonicNs r)
    (rs_producer r) (rs_rowBytes r).

(** [record]: the row at an index, of a record type with layout [l], dataset [dataset] and
    the checks of the parser library [validRecord] and [recordProduct]. *)
Definition snapshotRecord {Row} (l : layout Row) (dataset : Z) (validRecord : Row -> bool)
    (recordProduct : Row -> ReferenceProductIdentity) (index : Z) (value : RecorderReferenceSnapshot) : option Row :=
  if negb (rs_presence value =? RecorderReferencePresence.Present) || negb (rs_dataset value =? dataset) ||
     negb (rh_rowBytes (rs_producer value) =? sizeofz l) || (rh_totalRows (rs_producer value) <=? index) ||
     (size (rs_rowBytes value) / sizeofz l <=? index)
  then None
  else
    let row := view l (drop (Z.to_nat (index * sizeofz l)) (rs_rowBytes value)) in
    if validRecord row && (exchangeRaw (recordProduct row) =? exchangeRaw (rs_product value)) &&
       (marketRaw (recordProduct row) =? marketRaw (rs_product value))
    then Some row else None.

(** [reference_detail]: an object is appended when it fits, and read when it is there. *)
Definition appendObject {A} (l : layout A) (value : A) (maximum : Z) (bytes : list Z) : bool * list Z :=
  if (maximum <? size bytes) || (maximum - size bytes <? sizeofz l) then (false, bytes)
  else (true, bytes ++ obj l value).
Definition takeObject {A} (l : layout A) (bytes : list Z) : option (A * list Z) :=
  if size bytes <? sizeofz l then None else Some (view l bytes, drop (sizeof l) bytes).

Definition validSnapshot (value : RecorderReferenceSnapshot) : bool :=
  if negb (validReferenceProductIdentity (rs_product value)) || (referenceRecordBytes (rs_dataset value) =? 0) ||
     (rs_presence value <? RecorderReferencePresence.Present) ||
     (RecorderReferencePresence.CapacityExceeded <? rs_presence value) ||
     (rs_acquiredMonotonicNs value =? 0) || (rs_acquiredRealtimeNs value =? 0) ||
     negb (Bool.eqb (rs_visibleFromCutGeneration value =? 0) (rs_visibleFromMonotonicNs value =? 0)) ||
     (negb (rs_visibleFromMonotonicNs value =? 0) &&
        (rs_visibleFromMonotonicNs value <? rs_acquiredMonotonicNs value))
  then false
  else if negb (rs_presence value =? RecorderReferencePresence.Present) then bool_decide (rs_rowBytes value = [])
  else
    let producer := rs_producer value in
    validCurrentReferenceHeader producer &&
    (exchangeRaw (rh_product producer) =? exchangeRaw (rs_product value)) &&
    (marketRaw (rh_product producer) =? marketRaw (rs_product value)) &&
    (rh_dataset producer =? rs_dataset value) &&
    (size (rs_rowBytes value) =? u64 (rh_totalRows producer * rh_rowBytes producer)).

(** ** Writing *)

Definition writeSnapshot (maximum : Z) (snapshot : RecorderReferenceSnapshot) (output : list Z) : Status * list Z :=
  if negb (validSnapshot snapshot) then (CorruptData, output)
  else
    let bytes := u32 (size (rs_rowBytes snapshot)) in
    run output := appendObject l_ReferenceProductIdentity (rs_product snapshot) maximum output orelse OutOfRange in
    run output := appendObject l_ReferenceDatasetKind (rs_dataset snapshot) maximum output orelse OutOfRange in
    run output := appendObject l_u8 (rs_presence snapshot) maximum output orelse OutOfRange in
    run output := appendObject l_u16 0 maximum output orelse OutOfRange in
    run output := appendObject l_u64 (rs_acquiredMonotonicNs snapshot) maximum output orelse OutOfRange in
    run output := appendObject l_u64 (rs_acquiredRealtimeNs snapshot) maximum output orelse OutOfRange in
    run output := appendObject l_u64 (rs_visibleFromCutGeneration snapshot) maximum output orelse OutOfRange in
    run output := appendObject l_u64 (rs_visibleFromMonotonicNs snapshot) maximum output orelse OutOfRange in
    run output := appendObject l_CurrentReferenceHeader (rs_producer snapshot) maximum output orelse OutOfRange in
    run output := appendObject l_u32 bytes maximum output orelse OutOfRange in
    if maximum - size output <? bytes then (OutOfRange, output)
    else (Ok, output ++ rs_rowBytes snapshot).
Fixpoint writeSnapshots (maximum : Z) (snapshots : list RecorderReferenceSnapshot) (output : list Z)
  : Status * list Z :=
  match snapshots with
  | [] => (Ok, output)
  | snapshot :: snapshots =>
      let '(status, output) := writeSnapshot maximum snapshot output in
      if negb (isOk status) then (status, output) else writeSnapshots maximum snapshots output
  end.
Definition writeRecorderReferences (snapshots : list RecorderReferenceSnapshot) (maximum : Z) : Status * list Z :=
  if (kRecorderReferenceMaximumBytes <? maximum) || (kRecorderReferenceMaximumSnapshots <? size snapshots)
  then (OutOfRange, [])
  else
    run output := appendObject l_u32 kRecorderReferenceMagic maximum [] orelse OutOfRange in
    run output := appendObject l_u32 (size snapshots) maximum output orelse OutOfRange in
    writeSnapshots maximum snapshots output.

(** ** Reading *)

Definition readSnapshot (bytes : list Z) : option (RecorderReferenceSnapshot * list Z) :=
  '(product, bytes) ← takeObject l_ReferenceProductIdentity bytes;
  '(dataset, bytes) ← takeObject l_ReferenceDatasetKind bytes;
  '(presence, bytes) ← takeObject l_u8 bytes;
  '(reserved, bytes) ← takeObject l_u16 bytes;
  if negb (reserved =? 0) then None
  else
    '(acquiredMonotonicNs, bytes) ← takeObject l_u64 bytes;
    '(acquiredRealtimeNs, bytes) ← takeObject l_u64 bytes;
    '(visibleFromCutGeneration, bytes) ← takeObject l_u64 bytes;
    '(visibleFromMonotonicNs, bytes) ← takeObject l_u64 bytes;
    '(producer, bytes) ← takeObject l_CurrentReferenceHeader bytes;
    '(count, bytes) ← takeObject l_u32 bytes;
    if size bytes <? count then None
    else
      let count := Z.to_nat count in
      Some (MkRecorderReferenceSnapshot product dataset presence acquiredMonotonicNs acquiredRealtimeNs
              visibleFromCutGeneration visibleFromMonotonicNs producer (take count bytes), drop count bytes).
Fixpoint readSnapshots (count : nat) (bytes : list Z) : option (list RecorderReferenceSnapshot * list Z) :=
  match count with
  | O => Some ([], bytes)
  | S count =>
      '(snapshot, bytes) ← readSnapshot bytes;
      if negb (validSnapshot snapshot) then None
      else '(snapshots, bytes) ← readSnapshots count bytes; Some (snapshot :: snapshots, bytes)
  end.
(** The part behind the size checks; every failure is [CorruptData] and clears the output. *)
Definition readReferences (bytes : list Z) : option (list RecorderReferenceSnapshot) :=
  '(magic, bytes) ← takeObject l_u32 bytes;
  '(count, bytes) ← takeObject l_u32 bytes;
  if negb (magic =? kRecorderReferenceMagic) || (kRecorderReferenceMaximumSnapshots <? count) then None
  else
    '(snapshots, bytes) ← readSnapshots (Z.to_nat count) bytes;
    if bool_decide (bytes = []) then Some snapshots else None.
Definition readRecorderReferences (bytes : list Z) : Status * list RecorderReferenceSnapshot :=
  if bool_decide (bytes = []) then (Ok, [])
  else if kRecorderReferenceMaximumBytes <? size bytes then (OutOfRange, [])
  else
    match readReferences bytes with
    | Some snapshots => (Ok, snapshots)
    | None => (CorruptData, [])
    end.

(** ** Binding *)

(** An observation that was bound before: unchanged, and it keeps its visibility. *)
Definition bindPrior (value old : RecorderReferenceSnapshot) : option RecorderReferenceSnapshot :=
  if negb (exchangeRaw (rs_product value) =? exchangeRaw (rs_product old)) ||
     negb (marketRaw (rs_product value) =? marketRaw (rs_product old)) ||
     negb (rs_dataset value =? rs_dataset old) || negb (rs_presence value =? rs_presence old) ||
     negb (rs_acquiredMonotonicNs value =? rs_acquiredMonotonicNs old) ||
     negb (rs_acquiredRealtimeNs value =? rs_acquiredRealtimeNs old) ||
     negb (rh_producerEpoch (rs_producer value) =? rh_producerEpoch (rs_producer old)) ||
     negb (rh_generation (rs_producer value) =? rh_generation (rs_producer old)) ||
     negb (bool_decide (obj l_CurrentReferenceHeader (rs_producer value) =
                        obj l_CurrentReferenceHeader (rs_producer old))) ||
     negb (bool_decide (rs_rowBytes value = rs_rowBytes old)) ||
     (rs_visibleFromCutGeneration old =? 0) || (rs_visibleFromMonotonicNs old =? 0)
  then None
  else Some (value <| rs_visibleFromCutGeneration := rs_visibleFromCutGeneration old |>
                   <| rs_visibleFromMonotonicNs := rs_visibleFromMonotonicNs old |>).
(** A new one: it becomes visible with this commit. *)
Definition bindNew (generation committed : Z) (value : RecorderReferenceSnapshot) : option RecorderReferenceSnapshot :=
  if negb (rs_visibleFromCutGeneration value =? 0) || negb (rs_visibleFromMonotonicNs value =? 0) ||
     (committed <? rs_acquiredMonotonicNs value)
  then None
  else Some (value <| rs_visibleFromCutGeneration := generation |> <| rs_visibleFromMonotonicNs := committed |>).
Fixpoint bindSnapshots (generation committed : Z) (current prior : list RecorderReferenceSnapshot)
  : option (list RecorderReferenceSnapshot) :=
  match current with
  | [] => Some []
  | value :: current =>
      bound ← match prior with
              | old :: _ => bindPrior value old
              | [] => bindNew generation committed value
              end;
      rest ← bindSnapshots generation committed current (tail prior);
      Some (bound :: rest)
  end.
(** The payload is replaced only by the final write. *)
Definition bindRecorderReferenceVisibility (payload previous : list Z) (generation committedMonotonicNs : Z)
  : Status * list Z :=
  if bool_decide (payload = []) then (if bool_decide (previous = []) then Ok else CorruptData, payload)
  else if (generation =? 0) || (committedMonotonicNs =? 0) then (InvalidArgument, payload)
  else
    let '(status, current) := readRecorderReferences payload in
    if negb (isOk status) then (status, payload)
    else
      let '(status, prior) := readRecorderReferences previous in
      if negb (isOk status) then (status, payload)
      else if (length current <? length prior)%nat then (CorruptData, payload)
      else
        match bindSnapshots generation committedMonotonicNs current prior with
        | None => (CorruptData, payload)
        | Some bound => writeRecorderReferences bound kRecorderReferenceMaximumBytes
        end.

(** ** The bytes of a payload *)

(** A snapshot of machine values. *)
Record snapshotFits (snapshot : RecorderReferenceSnapshot) : Prop := {
  sf_product : fits l_ReferenceProductIdentity (rs_product snapshot);
  sf_dataset : fits l_ReferenceDatasetKind (rs_dataset snapshot);
  sf_presence : in_u8 (rs_presence snapshot);
  sf_acquiredMonotonic : in_u64 (rs_acquiredMonotonicNs snapshot);
  sf_acquiredRealtime : in_u64 (rs_acquiredRealtimeNs snapshot);
  sf_generation : in_u64 (rs_visibleFromCutGeneration snapshot);
  sf_visible : in_u64 (rs_visibleFromMonotonicNs snapshot);
  sf_producer : fits l_CurrentReferenceHeader (rs_producer snapshot);
  sf_rows : bytes_ok (rs_rowBytes snapshot);
  sf_count : size (rs_rowBytes snapshot) < 2 ^ 32;
}.

Definition snapshotHead (s : RecorderReferenceSnapshot) : list Z :=
  obj l_ReferenceProductIdentity (rs_product s) ++ obj l_ReferenceDatasetKind (rs_dataset s) ++
  obj l_u8 (rs_presence s) ++ obj l_u16 0 ++ obj l_u64 (rs_acquiredMonotonicNs s) ++
  obj l_u64 (rs_acquiredRealtimeNs s) ++ obj l_u64 (rs_visibleFromCutGeneration s) ++
  obj l_u64 (rs_visibleFromMonotonicNs s) ++ obj l_CurrentReferenceHeader (rs_producer s) ++
  obj l_u32 (size (rs_rowBytes s)).
Definition encodeSnapshot (s : RecorderReferenceSnapshot) : list Z := snapshotHead s ++ rs_rowBytes s.
Definition encodeSnapshots (snapshots : list RecorderReferenceSnapshot) : list Z := concat (map encodeSnapshot snapshots).
Definition encodeReferences (snapshots : list RecorderReferenceSnapshot) : list Z :=
  obj l_u32 kRecorderReferenceMagic ++ obj l_u32 (size snapshots) ++ encodeSnapshots snapshots.

Lemma unsigned_length n z : length (obj (l_unsigned n) z) = n.
Proof. apply length_le_enc. Qed.
Lemma fits_machine n z : 0 <= z < 2 ^ (8 * Z.of_nat n) -> fits (l_unsigned n) z.
Proof. done. Qed.
Ltac fits_solve := first [assumption | apply fits_machine; cbn; mlia].
Lemma takeObject_app {A} (l : layout A) value rest : fits l value ->
  takeObject l (obj l value ++ rest) = Some (value, rest).
Proof.
  intros Hf. unfold takeObject, sizeofz. rewrite length_app, obj_length, view_obj by done.
  rewrite (proj2 (Z.ltb_ge _ _)) by lia. by rewrite drop_app_length' by (by rewrite obj_length).
Qed.
Lemma takeObject_inv {A} (l : layout A) bytes value rest : bytes_ok bytes -> takeObject l bytes = Some (value, rest) ->
  bytes = obj l value ++ rest /\ fits l value /\ bytes_ok rest.
Proof.
  intros Hb. unfold takeObject, sizeofz. destruct (Z.ltb_spec (size bytes) (Z.of_nat (sizeof l))); [done|].
  intros [= <- <-]. split_and!.
  - rewrite obj_view by (done || lia). by rewrite take_drop.
  - apply view_fits; [done|lia].
  - by apply bytes_ok_drop.
Qed.

Lemma readSnapshot_encode s rest : snapshotFits s -> readSnapshot (encodeSnapshot s ++ rest) = Some (s, rest).
Proof.
  intros [S1 S2 S3 S4 S5 S6 S7 S8 S9 S10]. unfold readSnapshot, encodeSnapshot, snapshotHead.
  rewrite <- !app_assoc.
  do 4 (rewrite takeObject_app by fits_solve; cbn [mbind option_bind]).
  cbn [negb Z.eqb]. do 6 (rewrite takeObject_app by fits_solve; cbn [mbind option_bind]).
  rewrite length_app, (proj2 (Z.ltb_ge _ _)) by lia.
  rewrite Nat2Z.id, take_app_length, drop_app_length. by destruct s.
Qed.
(** The next object of a payload being read. *)
Ltac read_object x :=
  match goal with Hr : (_ ≫= _) = Some _, Hb : bytes_ok _ |- _ =>
    let E := fresh "E" in let b := fresh "bytes" in let F := fresh "F" in let Hb' := fresh "Hb" in
    apply bind_Some in Hr as ([x b] & E & Hr); apply takeObject_inv in E as (-> & F & Hb'); [|exact Hb]; clear Hb
  end.
Lemma readSnapshot_inv bytes s rest : bytes_ok bytes -> readSnapshot bytes = Some (s, rest) ->
  bytes = encodeSnapshot s ++ rest /\ snapshotFits s /\ bytes_ok rest.
Proof.
  intros Hb Hr. unfold readSnapshot in Hr. read_object product. read_object dataset. read_object presence.
  read_object reserved. destruct (Z.eqb_spec reserved 0) as [->|]; [|done]. cbn [negb] in Hr.
  read_object acquired. read_object realtime. read_object generation. read_object visible. read_object producer.
  read_object count. match goal with _ : bytes_ok ?b |- _ => rename b into tail end.
  destruct (Z.ltb_spec (size tail) count) as [|Hc]; [done|].
  injection Hr as <- <-.
  assert (0 <= count < 2 ^ 32) as Hcount by done.
  assert (size (take (Z.to_nat count) tail) = count) as Ht by (rewrite length_take; lia). split_and!.
  - unfold encodeSnapshot, snapshotHead. cbn [rs_product rs_dataset rs_presence rs_acquiredMonotonicNs
      rs_acquiredRealtimeNs rs_visibleFromCutGeneration rs_visibleFromMonotonicNs rs_producer rs_rowBytes].
    rewrite Ht, <- !app_assoc, take_drop. done.
  - split; cbn; [done..|by apply bytes_ok_take|lia].
  - by apply bytes_ok_drop.
Qed.

Lemma appendObject_spec {A} (l : layout A) value maximum output : fits l value ->
  appendObject l value maximum output =
  (bool_decide (size (output ++ obj l value) <= maximum),
   if bool_decide (size (output ++ obj l value) <= maximum) then output ++ obj l value else output).
Proof.
  intros Hf. unfold appendObject, sizeofz. rewrite length_app, obj_length by done.
  case_bool_decide.
  - rewrite !(proj2 (Z.ltb_ge _ _)) by lia. done.
  - destruct (Z.ltb_spec maximum (size output)); [done|]. by rewrite (proj2 (Z.ltb_lt _ _)) by lia.
Qed.
(** A writing step whose full output is [total] succeeds when that fits. *)
Definition writes (total : list Z) (maximum : Z) (result : Status * list Z) : Prop :=
  isOk result.1 = bool_decide (size total <= maximum) /\ (isOk result.1 = true -> result.2 = total).
Lemma writes_object {A} (l : layout A) value output rest maximum (next : list Z -> Status * list Z) :
  fits l value ->
  (size (output ++ obj l value) <= maximum ->
   writes ((output ++ obj l value) ++ rest) maximum (next (output ++ obj l value))) ->
  writes (output ++ obj l value ++ rest) maximum
    (run output := appendObject l value maximum output orelse OutOfRange in next output).
Proof.
  intros Hf Hn. rewrite app_assoc. rewrite appendObject_spec by done.
  destruct (bool_decide_reflect (size (output ++ obj l value) <= maximum)) as [|Hgt]; [by apply Hn|].
  split; [|done]. cbn. symmetry. apply bool_decide_eq_false_2. rewrite length_app. lia.
Qed.
Lemma writeSnapshot_writes maximum s output : snapshotFits s -> validSnapshot s = true ->
  writes (output ++ encodeSnapshot s) maximum (writeSnapshot maximum s output).
Proof.
  intros [S1 S2 S3 S4 S5 S6 S7 S8 S9 S10] Hv. unfold writeSnapshot. rewrite Hv. cbn [negb].
  unfold u32. rewrite Z.mod_small by lia. unfold encodeSnapshot, snapshotHead. rewrite <- !app_assoc.
  do 10 (apply writes_object; [fits_solve|intros _]; cbv beta).
  match goal with |- writes (?o ++ _) _ _ => set (head := o) end. unfold writes. rewrite length_app.
  destruct (Z.ltb_spec (maximum - size head) (size (rs_rowBytes s))).
  - split; [|done]. cbn. symmetry. apply bool_decide_eq_false_2. lia.
  - split; [|done]. cbn. symmetry. apply bool_decide_eq_true_2. lia.
Qed.
Lemma writeSnapshots_writes maximum snapshots : forall output, Forall snapshotFits snapshots ->
  Forall (fun s => validSnapshot s = true) snapshots ->
  size output <= maximum -> writes (output ++ encodeSnapshots snapshots) maximum (writeSnapshots maximum snapshots output).
Proof.
  induction snapshots as [|s snapshots IH]; intros output Hf Hv Hle; cbn [writeSnapshots encodeSnapshots map concat].
  - rewrite app_nil_r. split; [|done]. cbn. symmetry. by apply bool_decide_eq_true_2.
  - apply Forall_cons_1 in Hf as [Hs Hf]. apply Forall_cons_1 in Hv as [Vs Hv]. fold (encodeSnapshots snapshots).
    destruct (writeSnapshot_writes maximum s output Hs Vs) as [W1 W2].
    destruct (writeSnapshot maximum s output) as [status output']. cbn in W1, W2. rewrite app_assoc.
    destruct (isOk status) eqn:E; cbn [negb].
    + rewrite (W2 eq_refl). apply IH; [done..|]. symmetry in W1. by apply bool_decide_eq_true_1 in W1.
    + split; [|cbn; congruence]. cbn. rewrite E. symmetry in W1 |- *. apply bool_decide_eq_false_1 in W1.
      apply bool_decide_eq_false_2. rewrite length_app. lia.
Qed.
Lemma magic_fits : fits l_u32 kRecorderReferenceMagic.
Proof. apply fits_machine. split; [discriminate|reflexivity]. Qed.
(** The limits of a payload. *)
Lemma writeReferences_writes snapshots maximum : Forall snapshotFits snapshots ->
  Forall (fun s => validSnapshot s = true) snapshots ->
  maximum <= kRecorderReferenceMaximumBytes -> size snapshots <= kRecorderReferenceMaximumSnapshots ->
  writes (encodeReferences snapshots) maximum (writeRecorderReferences snapshots maximum).
Proof.
  intros Hf Hv Hm Hc. unfold writeRecorderReferences, encodeReferences. rewrite !(proj2 (Z.ltb_ge _ _)) by done. cbn [orb].
  unfold kRecorderReferenceMaximumSnapshots in Hc.
  apply (writes_object l_u32 _ []); [exact magic_fits|intros _]. cbn [app]. apply writes_object; [fits_solve|].
  intros Hle. by apply writeSnapshots_writes.
Qed.

(** ** Payloads are read back *)

Lemma readSnapshots_encode snapshots : forall rest, Forall snapshotFits snapshots ->
  Forall (fun s => validSnapshot s = true) snapshots ->
  readSnapshots (length snapshots) (encodeSnapshots snapshots ++ rest) = Some (snapshots, rest).
Proof.
  induction snapshots as [|s snapshots IH]; intros rest Hf Hv; [done|].
  apply Forall_cons_1 in Hf as [Hs Hf]. apply Forall_cons_1 in Hv as [Vs Hv].
  cbn [length readSnapshots encodeSnapshots map concat]. fold (encodeSnapshots snapshots).
  rewrite <- app_assoc, readSnapshot_encode by done. cbn [mbind option_bind]. rewrite Vs. cbn [negb].
  by rewrite IH.
Qed.
Lemma readSnapshots_inv count : forall bytes snapshots rest, bytes_ok bytes ->
  readSnapshots count bytes = Some (snapshots, rest) ->
  bytes = encodeSnapshots snapshots ++ rest /\ length snapshots = count /\ Forall snapshotFits snapshots /\
  Forall (fun s => validSnapshot s = true) snapshots.
Proof.
  induction count as [|count IH]; intros bytes snapshots rest Hb Hr; cbn [readSnapshots] in Hr.
  { injection Hr as <- <-. by split_and!; constructor. }
  apply bind_Some in Hr as ([s bytes'] & E & Hr). apply readSnapshot_inv in E as (-> & Hs & Hb'); [|done].
  destruct (validSnapshot s) eqn:Vs; [|done]. cbn [negb] in Hr. apply bind_Some in Hr as ([snapshots' bytes''] & E & Hr).
  injection Hr as <- <-. destruct (IH _ _ _ Hb' E) as (-> & <- & Hf & Hv).
  cbn [encodeSnapshots map concat]. fold (encodeSnapshots snapshots'). rewrite <- app_assoc. split_and!; auto.
Qed.
(** The payloads that are read are the encodings of valid snapshots within the limits. *)
Lemma readReferences_encode snapshots : Forall snapshotFits snapshots ->
  Forall (fun s => validSnapshot s = true) snapshots -> size snapshots <= kRecorderReferenceMaximumSnapshots ->
  readReferences (encodeReferences snapshots) = Some snapshots.
Proof.
  intros Hf Hv Hc. unfold readReferences, encodeReferences. unfold kRecorderReferenceMaximumSnapshots in *.
  rewrite takeObject_app by exact magic_fits. cbn [mbind option_bind]. rewrite takeObject_app by fits_solve.
  cbn [mbind option_bind]. rewrite Z.eqb_refl, (proj2 (Z.ltb_ge _ _)) by lia. cbn [negb orb].
  rewrite Nat2Z.id, <- (app_nil_r (encodeSnapshots snapshots)), readSnapshots_encode by done. done.
Qed.
Lemma readReferences_inv bytes snapshots : bytes_ok bytes -> readReferences bytes = Some snapshots ->
  bytes = encodeReferences snapshots /\ size snapshots <= kRecorderReferenceMaximumSnapshots /\
  Forall snapshotFits snapshots /\ Forall (fun s => validSnapshot s = true) snapshots.
Proof.
  intros Hb Hr. unfold readReferences in Hr. read_object magic. read_object count.
  destruct (Z.eqb_spec magic kRecorderReferenceMagic) as [->|]; [|done].
  destruct (Z.ltb_spec kRecorderReferenceMaximumSnapshots count); [done|]. cbn [negb orb] in Hr.
  apply bind_Some in Hr as ([snapshots' rest] & E & Hr). case_bool_decide; [|done]. subst rest. injection Hr as <-.
  apply readSnapshots_inv in E as (-> & Hl & Hf & Hv); [|done]. rewrite app_nil_r.
  assert (0 <= count) by apply F0. assert (size snapshots' = count) as Hc by lia.
  unfold encodeReferences. rewrite Hc. split_and!; done || lia.
Qed.

(** What was written is valid and within the limits. *)
Lemma writeSnapshots_valid maximum snapshots : forall output,
  isOk (writeSnapshots maximum snapshots output).1 = true -> Forall (fun s => validSnapshot s = true) snapshots.
Proof.
  induction snapshots as [|s snapshots IH]; intros output Hw; [constructor|]. cbn [writeSnapshots] in Hw.
  assert (validSnapshot s = false -> isOk (writeSnapshot maximum s output).1 = false) as Hs.
  { unfold writeSnapshot. by intros ->. }
  destruct (writeSnapshot maximum s output) as [status output']. cbn in Hs.
  destruct (isOk status) eqn:E; cbn [negb] in Hw; [|cbn in Hw; congruence].
  constructor; [|by eapply IH]. destruct (validSnapshot s); [done|]. by specialize (Hs eq_refl).
Qed.
Lemma writeReferences_inv snapshots maximum bytes : Forall snapshotFits snapshots ->
  writeRecorderReferences snapshots maximum = (Ok, bytes) ->
  bytes = encodeReferences snapshots /\ size bytes <= maximum /\ maximum <= kRecorderReferenceMaximumBytes /\
  size snapshots <= kRecorderReferenceMaximumSnapshots /\ Forall (fun s => validSnapshot s = true) snapshots.
Proof.
  intros Hf Hw. assert (maximum <= kRecorderReferenceMaximumBytes /\ size snapshots <= kRecorderReferenceMaximumSnapshots /\
    Forall (fun s => validSnapshot s = true) snapshots) as (Hm & Hc & Hv).
  { revert Hw. unfold writeRecorderReferences. destruct (Z.ltb_spec kRecorderReferenceMaximumBytes maximum); [done|].
    destruct (Z.ltb_spec kRecorderReferenceMaximumSnapshots (size snapshots)); [done|]. cbn [orb].
    do 2 (destruct (appendObject _ _ _ _) as [[] ?]; [|done]). intros Hw. split_and!; [lia..|].
    eapply writeSnapshots_valid. by rewrite Hw. }
  destruct (writeReferences_writes snapshots maximum Hf Hv Hm Hc) as [W1 W2]. rewrite Hw in W1, W2. cbn in W1, W2.
  specialize (W2 eq_refl). subst bytes. symmetry in W1. apply bool_decide_eq_true_1 in W1. by split_and!.
Qed.
Lemma encodeReferences_nonempty snapshots : encodeReferences snapshots <> [].
Proof. unfold encodeReferences. intros E. apply (f_equal length) in E. rewrite length_app, (obj_length _ _ magic_fits) in E. done. Qed.

Lemma encodeSnapshot_bytes s : snapshotFits s -> bytes_ok (encodeSnapshot s).
Proof.
  intros [S1 S2 S3 S4 S5 S6 S7 S8 S9 S10]. unfold encodeSnapshot, snapshotHead.
  rewrite !bytes_ok_app. split_and!; first [by apply obj_bytes|apply le_enc_bytes|done].
Qed.
Lemma encodeReferences_bytes snapshots : Forall snapshotFits snapshots -> bytes_ok (encodeReferences snapshots).
Proof.
  intros Hf. unfold encodeReferences. apply bytes_ok_app. split; [apply le_enc_bytes|].
  apply bytes_ok_app. split; [apply le_enc_bytes|]. unfold encodeSnapshots.
  induction Hf as [|s snapshots Hs _ IH]; cbn; [constructor|]. apply bytes_ok_app. split; [by apply encodeSnapshot_bytes|done].
Qed.

(** C30: A payload of reference snapshots is read back as the snapshots
    written; and every payload that is accepted is, byte for byte, what would be written for
    the snapshots read, so nothing in it is ignored. *)
Theorem reference_payload_exact :
  (forall snapshots maximum bytes, Forall snapshotFits snapshots ->
     writeRecorderReferences snapshots maximum = (Ok, bytes) ->
     readRecorderReferences bytes = (Ok, snapshots) /\ size bytes <= maximum) /\
  (forall bytes snapshots, bytes_ok bytes -> bytes <> [] -> readRecorderReferences bytes = (Ok, snapshots) ->
     writeRecorderReferences snapshots kRecorderReferenceMaximumBytes = (Ok, bytes)).
Proof.
  split.
  - intros snapshots maximum bytes Hf Hw. destruct (writeReferences_inv _ _ _ Hf Hw) as (-> & Hs & Hm & Hc & Hv).
    split; [|done]. unfold readRecorderReferences. rewrite bool_decide_eq_false_2 by apply encodeReferences_nonempty.
    rewrite (proj2 (Z.ltb_ge _ _)) by lia. by rewrite readReferences_encode.
  - intros bytes snapshots Hb Hn. unfold readRecorderReferences. rewrite bool_decide_eq_false_2 by done.
    destruct (Z.ltb_spec kRecorderReferenceMaximumBytes (size bytes)) as [|Hm]; [done|].
    destruct (readReferences bytes) as [snapshots'|] eqn:E; [|done]. intros [= ->].
    apply readReferences_inv in E as (-> & Hc & Hf & Hv); [|done].
    destruct (writeReferences_writes snapshots _ Hf Hv (Z.le_refl _) Hc) as [W1 W2].
    rewrite bool_decide_eq_true_2 in W1 by done. specialize (W2 W1). unfold isOk in W1. apply bool_decide_eq_true_1 in W1.
    by destruct (writeRecorderReferences _ _); cbn in *; subst.
Qed.

(** ** Binding *)

Lemma readRecorder_inv bytes snapshots : bytes_ok bytes -> readRecorderReferences bytes = (Ok, snapshots) ->
  Forall snapshotFits snapshots /\ (bytes = [] /\ snapshots = [] \/ bytes = encodeReferences snapshots).
Proof.
  intros Hb. unfold readRecorderReferences. case_bool_decide as He; [intros [= <-]; by split; [constructor|left]|].
  destruct (_ <? _); [done|]. destruct (readReferences bytes) as [snapshots'|] eqn:E; [|done]. intros [= ->].
  apply readReferences_inv in E as (-> & _ & Hf & _); [|done]. split; [done|by right].
Qed.

(** The same observation: only bytes of the product identity outside its two keys may differ. *)
Definition sameObservation (value old : RecorderReferenceSnapshot) : Prop :=
  value <| rs_product := rs_product old |> = old /\
  exchangeRaw (rs_product value) = exchangeRaw (rs_product old) /\
  marketRaw (rs_product value) = marketRaw (rs_product old).
Definition visible (value : RecorderReferenceSnapshot) : Prop :=
  rs_visibleFromCutGeneration value <> 0 /\ rs_visibleFromMonotonicNs value <> 0.

Lemma bindPrior_spec value old bound : snapshotFits value -> snapshotFits old -> bindPrior value old = Some bound ->
  snapshotFits bound /\ length (encodeSnapshot bound) = length (encodeSnapshot value) /\
  sameObservation bound old /\ visible bound.
Proof.
  intros [S1 S2 S3 S4 S5 S6 S7 S8 S9 S10] [T1 T2 T3 T4 T5 T6 T7 T8 T9 T10]. unfold bindPrior.
  match goal with |- context [if ?c then _ else _] => destruct c eqn:E; [done|] end. intros [= <-].
  repeat (apply orb_false_iff in E as [E ?]). rewrite !negb_false_iff in *. bsplit.
  repeat match goal with H : bool_decide _ = true |- _ => apply bool_decide_eq_true_1 in H end.
  assert (rs_producer value = rs_producer old) as Hp.
  { rewrite <- (view_obj_self l_CurrentReferenceHeader (rs_producer value)), <- (view_obj_self l_CurrentReferenceHeader (rs_producer old)) by done.
    by f_equal. }
  split_and!.
  - by split.
  - unfold encodeSnapshot, snapshotHead. by rewrite !length_app, !unsigned_length.
  - split; [|done]. destruct value, old. cbn in *. subst. done.
  - by split.
Qed.
Lemma bindNew_spec generation committed value bound : in_u64 generation -> in_u64 committed ->
  generation <> 0 -> committed <> 0 -> snapshotFits value -> bindNew generation committed value = Some bound ->
  snapshotFits bound /\ length (encodeSnapshot bound) = length (encodeSnapshot value) /\
  bound = value <| rs_visibleFromCutGeneration := generation |> <| rs_visibleFromMonotonicNs := committed |> /\
  visible bound /\ rs_acquiredMonotonicNs bound <= committed.
Proof.
  intros Hg Hc Hg0 Hc0 [S1 S2 S3 S4 S5 S6 S7 S8 S9 S10]. unfold bindNew.
  match goal with |- context [if ?c then _ else _] => destruct c eqn:E; [done|] end. intros [= <-].
  bsplit. split_and!; [by split| |done|done|cbn; lia].
  unfold encodeSnapshot, snapshotHead. by rewrite !length_app, !unsigned_length.
Qed.
(** The bound list: the earlier observations, then the new ones. *)
Lemma bindSnapshots_spec generation committed : in_u64 generation -> in_u64 committed ->
  generation <> 0 -> committed <> 0 -> forall current prior bound,
  Forall snapshotFits current -> Forall snapshotFits prior ->
  bindSnapshots generation committed current prior = Some bound -> (length prior <= length current)%nat ->
  Forall snapshotFits bound /\ length (encodeSnapshots bound) = length (encodeSnapshots current) /\
  length bound = length current /\ Forall visible bound /\
  Forall2 sameObservation (take (length prior) bound) prior /\
  drop (length prior) bound = map (fun value => value <| rs_visibleFromCutGeneration := generation |>
    <| rs_visibleFromMonotonicNs := committed |>) (drop (length prior) current) /\
  Forall (fun value => rs_acquiredMonotonicNs value <= committed) (drop (length prior) bound).
Proof.
  intros Hg Hc Hg0 Hc0. induction current as [|value current IH]; intros prior bound Hf Hp Hb Hl; cbn [bindSnapshots] in Hb.
  { injection Hb as <-. destruct prior; [|cbn in Hl; lia]. cbn. by split_and!; constructor. }
  apply bind_Some in Hb as (head & Eh & Hb). apply bind_Some in Hb as (rest & Er & Hb). injection Hb as <-.
  apply Forall_cons_1 in Hf as [Hv Hf]. unfold encodeSnapshots. cbn [map concat]. rewrite !length_app.
  destruct prior as [|old prior].
  - destruct (bindNew_spec _ _ _ _ Hg Hc Hg0 Hc0 Hv Eh) as (N1 & N2 & N3 & N4 & N5).
    destruct (IH [] rest Hf Hp Er ltac:(cbn; lia)) as (R1 & R2 & R3 & R4 & _ & R6 & R7). unfold encodeSnapshots in R2.
    cbn [length drop take map] in *. split_and!; [by constructor|lia|by f_equal|by constructor|constructor|by f_equal|by constructor].
  - apply Forall_cons_1 in Hp as [Ho Hp]. destruct (bindPrior_spec _ _ _ Hv Ho Eh) as (N1 & N2 & N3 & N4).
    destruct (IH prior rest Hf Hp Er ltac:(cbn in Hl; lia)) as (R1 & R2 & R3 & R4 & R5 & R6 & R7). unfold encodeSnapshots in R2.
    cbn [length drop take map] in *. split_and!; [by constructor|lia|by f_equal|by constructor|by constructor|done|done].
Qed.

(** Binding a payload at a commit keeps every observation the previous cut
    had, with the generation and time from which it was visible; dates every new observation
    to this commit, which is not before its acquisition; and does not change the size of the
    payload. *)
Lemma reference_visibility payload previous generation committed payload' :
  bytes_ok payload -> bytes_ok previous -> in_u64 generation -> in_u64 committed ->
  bindRecorderReferenceVisibility payload previous generation committed = (Ok, payload') ->
  bytes_ok payload' /\ exists current prior bound,
    readRecorderReferences payload = (Ok, current) /\ readRecorderReferences previous = (Ok, prior) /\
    readRecorderReferences payload' = (Ok, bound) /\ size payload' = size payload /\ Forall visible bound /\
    Forall2 sameObservation (take (length prior) bound) prior /\
    drop (length prior) bound = map (fun value => value <| rs_visibleFromCutGeneration := generation |>
      <| rs_visibleFromMonotonicNs := committed |>) (drop (length prior) current) /\
    Forall (fun value => rs_acquiredMonotonicNs value <= committed) (drop (length prior) bound).
Proof.
  intros Hb Hp Hg Hc. unfold bindRecorderReferenceVisibility. case_bool_decide as He.
  { subst payload. case_bool_decide as Hpe; [|done]. intros [= <-]. subst previous. split; [done|]. exists [], [], [].
    by split_and!; constructor. }
  destruct (Z.eqb_spec generation 0) as [|Hg0]; [done|]. destruct (Z.eqb_spec committed 0) as [|Hc0]; [done|]. cbn [orb].
  destruct (readRecorderReferences payload) as [status current] eqn:Ec. destruct (isOk status) eqn:Es; [|cbn; intros [= -> _]; done].
  apply bool_decide_eq_true_1 in Es as ->. cbn [negb].
  destruct (readRecorderReferences previous) as [status prior] eqn:Ep. destruct (isOk status) eqn:Es; [|cbn; intros [= -> _]; done].
  apply bool_decide_eq_true_1 in Es as ->. cbn [negb].
  destruct (Nat.ltb_spec (length current) (length prior)) as [|Hl]; [done|].
  destruct (bindSnapshots _ _ _ _) as [bound|] eqn:Eb; [|done]. intros Hw.
  destruct (readRecorder_inv _ _ Hb Ec) as [Hf Hcur]. destruct (readRecorder_inv _ _ Hp Ep) as [Hfp _].
  destruct (bindSnapshots_spec _ _ Hg Hc Hg0 Hc0 _ _ _ Hf Hfp Eb Hl) as (B1 & B2 & B3 & B4 & B5 & B6 & B7).
  destruct (writeReferences_inv _ _ _ B1 Hw) as (-> & Hs & _ & Hcount & Hv).
  split; [by apply encodeReferences_bytes|]. exists current, prior, bound. split_and!; try done.
  - unfold readRecorderReferences. rewrite bool_decide_eq_false_2 by apply encodeReferences_nonempty.
    rewrite (proj2 (Z.ltb_ge _ _)) by done. by rewrite readReferences_encode.
  - destruct Hcur as [[? _]|Hcur]; [done|]. rewrite Hcur. unfold encodeReferences.
    by rewrite !length_app, !unsigned_length, B2.
Qed.
End reference.
