(* ===== verification/ReferenceRun.v ===== *)
(** * ReferenceRun: references of a recording only grow

    The callback of Reference composed with the corpus writer, as
    src/src/Runtime/src/Capture/Coordinator/RecorderCaptureSession.cpp installs it: whatever
    calls a recording receives and whatever fails, the references of its published cuts are
    extended and never changed. *)
From stdpp Require Import base list numbers strings gmap.
From S2P Require Import Prelude Codec Layout Format DepthTransaction SourceState Disk Metadata.
From S2P Require Import BlockCodec Cut Segment Writer WriterShape WriterInv WriterSteps.
From S2P Require Import WriterCalls WriterCuts WriterRun Samples Reference.
Local Open Scope Z_scope.

Section quiet.
Context `{CxetMarket} `{Codec : ByteBlockCodec} `{!ByteBlockLaws Codec}.

(** ** What leaves the published cut alone *)

Record quiet (s s' : WriterState) : Prop := {
  qu_latest : pub_latest (wr_publication s') = pub_latest (wr_publication s);
  qu_generation : wr_cutGeneration s' = wr_cutGeneration s;
  qu_config : wr_config s' = wr_config s;
  qu_payload : wr_referencePayload s' = wr_referencePayload s;
}.

Lemma quiet_refl s : quiet s s.
Proof. done. Qed.
Lemma quiet_trans s1 s2 s3 : quiet s1 s2 -> quiet s2 s3 -> quiet s1 s3.
Proof. intros [] []. split; congruence. Qed.
#[local] Hint Resolve quiet_refl : core.

Lemma retain_latest range encoded p : pub_latest (retain range encoded p) = pub_latest p.
Proof. unfold retain. destruct (_ <? _); [done|]. by destruct (evict _ _ _). Qed.

Lemma flush_quiet s g ok s' g' : flushBlock s g = (ok, (s', g')) -> quiet s s'.
Proof. intros Hr%flushBlock_shape. inversion Hr; subst; split; try done. cbn. apply retain_latest. Qed.
Lemma seal_quiet s g ok s' g' : sealOpen s g = (ok, (s', g')) -> quiet s s'.
Proof.
  intros Hr%sealOpen_shape. inversion Hr as [ok1 s1 g1 disk header stream Hf _ | s1 g1 disk Hf]; subst;
    apply flush_quiet in Hf as []; by split.
Qed.
Lemma put_quiet shard g s s' : quiet s s' -> quiet s (putSegment shard g s').
Proof. intros []. by split. Qed.
#[local] Hint Resolve put_quiet : core.

Lemma sealSegment_quiet shard s ok s' : sealSegment shard s = (ok, s') -> quiet s s'.
Proof.
  unfold sealSegment. destruct (wr_segments s !! shard) as [g|]; [|by intros [= _ <-]].
  destruct (sg_open g); [|by intros [= _ <-]]. cbn [negb].
  destruct (sealOpen s g) as [ok1 [s1 g1]] eqn:E. intros [= _ <-]. by apply seal_quiet in E; auto.
Qed.
Lemma flushShard_quiet shard s ok s' : flushShard shard s = (ok, s') -> quiet s s'.
Proof.
  unfold flushShard. destruct (wr_segments s !! shard) as [g|]; [|by intros [= _ <-]].
  destruct (sg_open g); [|by intros [= _ <-]]. cbn [negb].
  destruct (flushBlock s g) as [ok1 [s1 g1]] eqn:E. intros [= _ <-]. by apply flush_quiet in E; auto.
Qed.
Lemma commitShard_quiet shard s ok s' : commitShard shard s = (ok, s') -> quiet s s'.
Proof.
  unfold commitShard. destruct (wr_segments s !! shard) as [g|]; [|by intros [= _ <-]].
  destruct (sg_open g); [|by intros [= _ <-]]. cbn [negb].
  destruct (flushBlock s g) as [ok1 [s1 g1]] eqn:E1. apply flush_quiet in E1. destruct ok1; cbn iota beta.
  - destruct (flushStream s1 g1) as [ok2 [s2 g2]] eqn:E2. apply flushStream_shape in E2 as (disk & stream & -> & ->).
    destruct ok2; cbn [negb].
    + intros (d & _ & ->)%onDisk_shape. by destruct E1.
    + intros [= _ <-]. by destruct E1.
  - intros [= _ <-]. auto.
Qed.
Lemma openSegment_quiet shardIndex s ok s' : openSegment shardIndex s = (ok, s') -> quiet s s'.
Proof.
  destruct (wr_segments s !! Z.to_nat shardIndex) as [g|] eqn:Eg.
  - intros Hr%(openSegment_shape _ _ _ _ _ Eg). by inversion Hr; subst.
  - unfold openSegment. rewrite Eg. by intros [= _ <-].
Qed.
Lemma forShards_quiet f shards : (forall shard s ok s', f shard s = (ok, s') -> quiet s s') ->
  forall s ok s', forShards f shards s = (ok, s') -> quiet s s'.
Proof.
  intros Hf. induction shards as [|shard shards IH]; intros s ok s'; cbn; [by intros [= _ <-]|].
  destruct (f shard s) as [ok1 s1] eqn:E. apply Hf in E. destruct ok1; [|by intros [= _ <-]].
  intros Hr%IH. by eapply quiet_trans.
Qed.
Lemma reserve_quiet bytes s ok s' : reserveBytes bytes s = (ok, s') -> quiet s s'.
Proof. unfold reserveBytes. by destruct (negb _); intros [= _ <-]. Qed.
Lemma makeRoom_quiet required s ok s' : makeRoom required s = (ok, s') -> quiet s s'.
Proof.
  unfold makeRoom. destruct (negb _); [|by intros [= _ <-]]. apply forShards_quiet, flushShard_quiet.
Qed.
Lemma commitRecord_quiet record ad s status s' : commitRecord record ad s = (status, s') -> quiet s s'.
Proof.
  unfold commitRecord. destruct (wr_segments s !! _) as [g|]; [|by intros [= _ <-]].
  destruct (ensureIndex _ _ s g) as [[position [s1 g1]]|] eqn:E; [|by intros [= _ <-]].
  intros [= _ <-]. revert E. unfold ensureIndex. destruct (sg_indexPositions g !! _); [by intros [= _ <- <-]|].
  destruct (_ || _); [done|]. by intros [= _ <- <-].
Qed.
Lemma addSource_quiet ad s : quiet s (addSource ad s).
Proof. unfold addSource. by destruct (ad_addedSource ad). Qed.

(** A step that may fail, then the rest. *)
Lemma quiet_then s1 (f : bool * WriterState) (failed : Status) (next : WriterState -> Status * WriterState) status s' :
  (forall ok s2, f = (ok, s2) -> quiet s1 s2) ->
  (forall s2, quiet s1 s2 -> next s2 = (status, s') -> quiet s1 s') ->
  (run s2 := f orelse failed in next s2) = (status, s') -> quiet s1 s'.
Proof. intros Hf Hn. destruct f as [ok s2]. specialize (Hf ok s2 eq_refl). destruct ok; [by apply Hn|]. by intros [= _ <-]. Qed.
Lemma placeRecord_quiet record ad g s status s' : placeRecord record ad g s = (status, s') -> quiet s s'.
Proof.
  unfold placeRecord. destruct (requiredBytes _ _ _ s) as [[required growth]|]; [|by intros [= _ <-]].
  apply quiet_then; [by apply makeRoom_quiet|]. intros s1 Q1.
  apply quiet_then; [intros ok s2 Hr; eapply quiet_trans; [exact Q1|by eapply reserve_quiet]|]. intros s2 Q2. cbv zeta.
  apply quiet_then.
  { intros ok s3. destruct (mustRotate _ _); [|intros [= _ <-]; by destruct Q2].
    intros Hs%sealSegment_quiet. eapply quiet_trans; [|exact Hs]. by destruct Q2. }
  intros s3 Q3. apply quiet_then.
  { intros ok s4. destruct (negb _ || _); [|by intros [= _ <-]].
    intros Hs%openSegment_quiet. by eapply quiet_trans. }
  intros s4 Q4 Hc%commitRecord_quiet. eapply quiet_trans; [exact Q4|]. eapply quiet_trans; [apply addSource_quiet|done].
Qed.
Lemma append_quiet record s status s' : appendActive record s = (status, s') -> quiet s s'.
Proof.
  unfold appendActive. destruct (admission record s) as [|ad]; [by intros [= _ <-]|].
  destruct (wr_segments s !! _) as [g|]; [|by intros [= _ <-]]. destruct (orderRejects _ g); [by intros [= _ <-]|].
  destruct (if mustFlush _ g then flushBlock s g else _) as [ok [s1 g1]] eqn:E.
  assert (quiet s s1) as Q.
  { destruct (mustFlush _ g); [by eapply flush_quiet|]. by injection E as _ <- _. }
  destruct ok; cbn [negb].
  - intros Hp%placeRecord_quiet. eapply quiet_trans; [|exact Hp]. auto.
  - intros [= _ <-]. auto.
Qed.
Lemma registerSource_quiet sources : forall s, quiet s (fold_left registerSource sources s).
Proof.
  induction sources as [|source sources IH]; intros s; cbn; [done|].
  eapply quiet_trans; [|apply IH]. unfold registerSource. by destruct (_ <=? _).
Qed.
Lemma register_quiet sources s status s' : registerSourcesActive sources s = (status, s') -> quiet s s'.
Proof.
  unfold registerSourcesActive. destruct (_ <? _); [by intros [= _ <-]|].
  destruct (projectSources _ _ _); [|by intros [= _ <-]].
  destruct (addProduct _ _ kSourceReservationBytes); [|by intros [= _ <-]].
  destruct (addProduct _ _ _); [|by intros [= _ <-]]. destruct (_ || _); [by intros [= _ <-]|].
  apply quiet_then; [intros ok s1; apply reserve_quiet|]. intros s1 Q1. cbv zeta. intros [= _ <-].
  match goal with |- context [fold_left registerSource sources ?s0] =>
    pose proof (registerSource_quiet sources s0) as [] end. destruct Q1. split; cbn in *; congruence.
Qed.
Lemma gap_quiet gap s status s' : appendGapActive gap s = (status, s') -> quiet s s'.
Proof.
  unfold appendGapActive. destruct (gapInvalid gap s); [by intros [= _ <-]|].
  destruct (wr_sources s !! _); [|by intros [= _ <-]]. destruct (_ <? _); [by intros [= _ <-]|].
  destruct (list_find _ _) as [[]|]; by destruct (_ <? _) || destruct (_ <=? _); intros [= _ <-].
Qed.
Lemma progress_quiet progress s status s' : updateProgressActive progress s = (status, s') -> quiet s s'.
Proof. unfold updateProgressActive. by destruct (_ || _); intros [= _ <-]. Qed.
Lemma tables_quiet s crcs s' : writeTables s = (crcs, s') -> quiet s s'.
Proof.
  unfold writeTables. destruct (writeTableAtomic l_BinaryMarketSource _ _ _ _) as [[] ?]; [|by intros [= _ <-]].
  destruct (writeTableAtomic l_BinaryMarketIndexEntry _ _ _ _) as [[] ?]; [|by intros [= _ <-]].
  destruct (writeTableAtomic l_BinaryMarketGap _ _ _ _). by intros [= _ <-].
Qed.

(** The state after a publication of [cut] from [s1]. *)
Record published (s1 : WriterState) (now : Z) (cut : CorpusCut) (s' : WriterState) : Prop := {
  pu_bound : bindReference (cutOf now s1) s1 = (Ok, cut);
  pu_latest : pub_latest (wr_publication s') = Some cut;
  pu_room : wr_cutGeneration s1 <> u64_max;
  pu_generation : wr_cutGeneration s' = u64 (wr_cutGeneration s1 + 1);
  pu_config : wr_config s' = wr_config s1;
  pu_payload : wr_referencePayload s' = wr_referencePayload s1;
}.
Definition publishes (s : WriterState) (now : Z) (s' : WriterState) : Prop :=
  quiet s s' \/ exists s1 cut, quiet s s1 /\ published s1 now cut s'.

Lemma publish_step now s status s' : publishCutActive now s = (status, s') -> publishes s now s'.
Proof.
  unfold publishCutActive. destruct (Z.eqb_spec (wr_cutGeneration s) u64_max) as [|Hg]; [intros [= _ <-]; by left|].
  destruct (forShards commitShard (allShards s) s) as [ok s1] eqn:E1.
  apply (forShards_quiet _ _ commitShard_quiet) in E1. destruct ok; [|intros [= _ <-]; by left].
  cbv zeta. match goal with |- context [if ?c then _ else _] => destruct c; [intros [= _ <-]; by left|] end.
  destruct (bindReference (cutOf now s1) s1) as [result cut] eqn:Eb.
  destruct (isOk result) eqn:Er; cbn [negb]; [|intros [= _ <-]; by left].
  apply bool_decide_eq_true_1 in Er as ->.
  destruct (onDisk attempt s1) as [ok s2] eqn:E2. apply onDisk_shape in E2 as (disk & _ & ->).
  assert (forall d, quiet s (s1 <| wr_disk := d |>)) as Hd by (intros d; destruct E1; by split).
  destruct ok; [|intros [= _ <-]; left; apply Hd].
  destruct (writeCorpusCut cut _) as [result disk']. destruct (negb (isOk result)); intros [= _ <-].
  - left. exact (Hd disk').
  - right. exists s1, cut. split; [done|]. split; try done. by rewrite (qu_generation _ _ E1).
Qed.
Lemma finalize_step reason finalized now s status s' : finalizeActive reason finalized now s = (status, s') -> publishes s now s'.
Proof.
  unfold finalizeActive. destruct (_ || _); [intros [= _ <-]; by left|]. destruct (existsb _ _); [intros [= _ <-]; by left|].
  destruct (forShards sealSegment (allShards s) s) as [ok s1] eqn:E1.
  apply (forShards_quiet _ _ sealSegment_quiet) in E1. destruct ok; [|intros [= _ <-]; by left].
  destruct (writeTables s1) as [crcs s2] eqn:E2. apply tables_quiet in E2.
  pose proof (quiet_trans _ _ _ E1 E2) as Q. destruct crcs as [[[a b] c]|]; [|intros [= _ <-]; by left]. cbv zeta.
  destruct (publishCutActive now _) as [commit s3] eqn:E3. apply publish_step in E3.
  assert (forall s4, quiet s3 s4 -> publishes s now s4) as Hend.
  { intros s4 Q4. destruct E3 as [Q3|(s0 & cut & Q0 & P)].
    - left. eapply quiet_trans; [|exact Q4]. destruct Q, Q3. split; cbn in *; congruence.
    - right. exists s0, cut. split; [destruct Q, Q0; split; cbn in *; congruence|].
      destruct P, Q4. split; congruence. }
  destruct (negb (isOk commit)); [intros [= _ <-]; by apply Hend|].
  destruct (onDisk _ _) as [ok s4] eqn:E4. apply onDisk_shape in E4 as (disk & _ & ->).
  destruct ok; intros [= _ <-]; apply Hend; by split.
Qed.
End quiet.

(** ** The callback meets the contract of the writer *)

Section binder.
Context `{ReferenceProtocol}.

(** What binding does not touch. *)
Record snapshotBytes (s : RecorderReferenceSnapshot) : Prop := {
  sb_product : fits l_ReferenceProductIdentity (rs_product s);
  sb_dataset : fits l_ReferenceDatasetKind (rs_dataset s);
  sb_producer : fits l_CurrentReferenceHeader (rs_producer s);
  sb_rows : bytes_ok (rs_rowBytes s);
}.
Definition bytesResult (result : Status * list Z) : Prop := bytes_ok result.2.
Lemma bytes_then {A} (l : layout A) value maximum output (next : list Z -> Status * list Z) :
  bytes_ok (obj l value) -> bytes_ok output -> (forall output, bytes_ok output -> bytesResult (next output)) ->
  bytesResult (run output := appendObject l value maximum output orelse OutOfRange in next output).
Proof.
  intros Hv Ho Hn. unfold appendObject. destruct (_ || _); [done|]. apply Hn, bytes_ok_app. done.
Qed.
Lemma writeSnapshot_bytes maximum s output : snapshotBytes s -> bytes_ok output -> bytesResult (writeSnapshot maximum s output).
Proof.
  intros [S1 S2 S3 S4] Ho. unfold writeSnapshot. destruct (negb _); [done|]. cbv zeta. revert output Ho.
  do 10 (intros ? ?; apply bytes_then; [first [by apply obj_bytes|apply le_enc_bytes]|done|]).
  intros written Hw. destruct (_ <? _); [done|]. by apply bytes_ok_app.
Qed.
Lemma writeSnapshots_bytes maximum snapshots : forall output, Forall snapshotBytes snapshots -> bytes_ok output ->
  bytesResult (writeSnapshots maximum snapshots output).
Proof.
  induction snapshots as [|s snapshots IH]; intros output Hf Ho; [done|]. apply Forall_cons_1 in Hf as [Hs Hf].
  cbn. pose proof (writeSnapshot_bytes maximum s output Hs Ho) as Hw. destruct (writeSnapshot _ _ _) as [status output'].
  destruct (negb _); [done|]. by apply IH.
Qed.
Lemma bindSnapshots_bytes generation committed : forall current prior bound, Forall snapshotBytes current ->
  bindSnapshots generation committed current prior = Some bound -> Forall snapshotBytes bound.
Proof.
  induction current as [|value current IH]; intros prior bound Hf Hb; cbn in Hb; [by injection Hb as <-|].
  apply Forall_cons_1 in Hf as [[S1 S2 S3 S4] Hf]. apply bind_Some in Hb as (head & Eh & Hb).
  apply bind_Some in Hb as (rest & Er & Hb). injection Hb as <-. constructor; [|by eapply IH].
  destruct prior as [|old prior]; [unfold bindNew in Eh|unfold bindPrior in Eh];
    match type of Eh with context [if ?c then _ else _] => destruct c; [done|] end; injection Eh as <-; by split.
Qed.
(** Whatever it is called with, the callback leaves bytes: what [config_ok] asks of it. *)
Lemma binder_bytes payload previous generation now : bytes_ok payload ->
  bytes_ok (bindRecorderReferenceVisibility payload previous generation now).2.
Proof.
  intros Hb. unfold bindRecorderReferenceVisibility. case_bool_decide; [done|]. destruct (_ || _); [done|].
  destruct (readRecorderReferences payload) as [status current] eqn:Ec. destruct (isOk status) eqn:Es; [|done]. cbn [negb].
  apply bool_decide_eq_true_1 in Es as ->. apply readRecorder_inv in Ec as [Hf _]; [|done].
  destruct (readRecorderReferences previous) as [status prior]. destruct (negb _); [done|]. destruct (_ <? _)%nat; [done|].
  destruct (bindSnapshots _ _ _ _) as [bound|] eqn:Eb; [|done].
  apply bindSnapshots_bytes in Eb; [|eapply Forall_impl; [exact Hf|]; by intros s []].
  unfold writeRecorderReferences. destruct (_ || _); [constructor|].
  apply (bytes_then l_u32); [apply le_enc_bytes|constructor|]. intros output Ho.
  apply (bytes_then l_u32); [apply le_enc_bytes|done|]. intros output' Ho'. by apply writeSnapshots_bytes.
Qed.
End binder.

Section references.
Context `{CxetMarket} `{Codec : ByteBlockCodec} `{!ByteBlockLaws Codec} `{ReferenceProtocol}.

(** ** References of the published cut *)

Definition publishedPayload (s : WriterState) : list Z :=
  default [] (cut_referencePayload <$> pub_latest (wr_publication s)).

Record referenceInv (s : WriterState) : Prop := {
  ri_binder : cf_referenceVisibilityBinder (wr_config s) = Some bindRecorderReferenceVisibility;
  ri_payload : bytes_ok (wr_referencePayload s);
  ri_published : bytes_ok (publishedPayload s);
  ri_generation : in_u64 (wr_cutGeneration s);
  ri_read : exists references, readRecorderReferences (publishedPayload s) = (Ok, references) /\ Forall visible references;
}.
(** Every reference stays what it was and visible since when it was; the others became
    visible with the cuts published in between. *)
Definition grows (s s' : WriterState) : Prop :=
  exists prior references, readRecorderReferences (publishedPayload s) = (Ok, prior) /\
    readRecorderReferences (publishedPayload s') = (Ok, references) /\ Forall visible references /\
    (forall i old, prior !! i = Some old -> exists value, references !! i = Some value /\ sameObservation value old) /\
    (forall i value, references !! i = Some value -> prior !! i = None ->
       wr_cutGeneration s < rs_visibleFromCutGeneration value <= wr_cutGeneration s') /\
    wr_cutGeneration s <= wr_cutGeneration s'.

Lemma sameObservation_refl value : sameObservation value value.
Proof. split; [by destruct value|done]. Qed.
Lemma sameObservation_trans a b c : sameObservation a b -> sameObservation b c -> sameObservation a c.
Proof.
  intros (A1 & A2 & A3) (B1 & B2 & B3). split; [|split; congruence]. rewrite <- B1, <- A1 at 1. by destruct a, b, c.
Qed.
Lemma sameObservation_generation a b : sameObservation a b ->
  rs_visibleFromCutGeneration a = rs_visibleFromCutGeneration b.
Proof. intros (<- & _). done. Qed.
Lemma grows_refl s : referenceInv s -> grows s s.
Proof.
  intros [_ _ _ _ (references & Hr & Hv)]. exists references, references. split_and!; try done; [|congruence].
  intros i old Hi. exists old. split; [done|apply sameObservation_refl].
Qed.
Lemma grows_trans s1 s2 s3 : grows s1 s2 -> grows s2 s3 -> grows s1 s3.
Proof.
  intros (p1 & r1 & A1 & A2 & A3 & A4 & A5 & A6) (p2 & r2 & B1 & B2 & B3 & B4 & B5 & B6).
  assert (p2 = r1) as -> by congruence. exists p1, r2. split_and!; try done; [| |lia].
  - intros i old Hi. destruct (A4 i old Hi) as (v & Hv & S). destruct (B4 i v Hv) as (w & Hw & S').
    exists w. split; [done|]. by eapply sameObservation_trans.
  - intros i value Hv Hn. destruct (r1 !! i) as [v|] eqn:E.
    + destruct (B4 i v E) as (w & Hw & S). assert (w = value) as -> by congruence.
      rewrite (sameObservation_generation _ _ S). pose proof (A5 i v E Hn). lia.
    + pose proof (B5 i value Hv E). lia.
Qed.
Lemma quiet_references s s' : quiet s s' -> referenceInv s -> referenceInv s' /\ grows s s'.
Proof.
  intros [Q1 Q2 Q3 Q4] I. pose proof (grows_refl s I) as G. destruct I as [I1 I2 I3 I4 I5].
  assert (publishedPayload s' = publishedPayload s) as E by (unfold publishedPayload; by rewrite Q1). split.
  - split; rewrite ?E, ?Q2, ?Q3, ?Q4; done.
  - unfold grows in *. by rewrite E, Q2.
Qed.

(** A publication extends the references. *)
Lemma published_references s1 now cut s' : in_u64 now -> referenceInv s1 -> published s1 now cut s' ->
  referenceInv s' /\ grows s1 s'.
Proof.
  intros Hnow [I1 I2 I3 I4 _] [P1 P2 P3 P4 P5 P6]. unfold bindReference in P1. rewrite I1 in P1.
  fold (publishedPayload s1) in P1. cbn [cut_referencePayload cutOf cut_generation cut_committedMonotonicNs] in P1.
  assert (u64 (wr_cutGeneration s1 + 1) = wr_cutGeneration s1 + 1) as Eg.
  { unfold u64. apply Z.mod_small. unfold u64_max in P3. mlia. }
  destruct (bindRecorderReferenceVisibility _ _ _ _) as [result payload] eqn:Eb in P1.
  destruct (isOk result) eqn:Er; cbn [negb] in P1; [|injection P1 as ->; done]. apply bool_decide_eq_true_1 in Er as ->.
  destruct (_ || _) in P1; [done|]. destruct (negb _) in P1; [done|]. injection P1 as <-.
  destruct (reference_visibility _ _ _ _ _ I2 I3 (u64_range _) Hnow Eb)
    as (Hb & current & prior & bound & R1 & R2 & R3 & _ & Hv & Hp & Hn & _).
  assert (publishedPayload s' = payload) as E by (unfold publishedPayload; by rewrite P2). split.
  - split; rewrite ?E, ?P4, ?P5, ?P6; try done; [apply u64_range|]. by exists bound.
  - exists prior, bound. rewrite E. split_and!; try done.
    + intros i old Hi. destruct (Forall2_lookup_r _ _ _ _ _ Hp Hi) as (v & Hl & S). exists v. split; [|done].
      apply lookup_take_Some in Hl as [? _]. done.
    + intros i value Hi Hnone. apply lookup_ge_None in Hnone.
      assert (drop (length prior) bound !! (i - length prior)%nat = Some value) as Hd.
      { rewrite lookup_drop. rewrite <- Hi. f_equal. lia. }
      rewrite Hn, list_lookup_fmap in Hd. apply fmap_Some in Hd as (v & _ & ->). cbn. rewrite P4. lia.
    + rewrite P4, Eg. lia.
Qed.

Lemma publishes_references s now s' : in_u64 now -> publishes s now s' -> referenceInv s -> referenceInv s' /\ grows s s'.
Proof.
  intros Hnow [Q|(s1 & cut & Q & P)] I; [by apply quiet_references|].
  destruct (quiet_references _ _ Q I) as [I1 G1]. destruct (published_references _ _ _ _ Hnow I1 P) as [I2 G2].
  split; [done|by eapply grows_trans].
Qed.
Lemma whenActive_some f s status s' : whenActive f (Some s) = (status, Some s') -> s' = s \/ f s = (status, s').
Proof.
  unfold whenActive. destruct (negb (wr_active s)); [intros [= _ <-]; by left|].
  destruct (f s) as [status1 s1] eqn:E. intros [= -> ->]. by right.
Qed.
Lemma payload_references payload s status s' : bytes_ok payload -> setReferencePayloadActive payload s = (status, s') ->
  referenceInv s -> referenceInv s' /\ grows s s'.
Proof.
  intros Hb Hs I. pose proof (grows_refl s I) as G. revert Hs. unfold setReferencePayloadActive. cbv zeta.
  destruct (_ || _); [by intros [= _ <-]|]. destruct (addProduct _ _ _); [|intros [= _ <-]; by apply quiet_references].
  destruct (_ || _); [intros [= _ <-]; by apply quiet_references|].
  destruct (reserveBytes _ s) as [ok s1] eqn:Er. apply reserve_quiet in Er. destruct (quiet_references _ _ Er I) as [[I1 I2 I3 I4 I5] G1].
  destruct ok; intros [= _ <-]; split; done.
Qed.
Lemma perform_references call s status s' : call_ok call -> referenceInv s -> perform call (Some s) = (status, Some s') ->
  referenceInv s' /\ grows s s'.
Proof.
  intros Hc I Hp. pose proof (quiet_references s s) as Hsame.
  destruct call; apply whenActive_some in Hp as [->|Hp]; try (apply Hsame; [apply quiet_refl|done]).
  - by eapply quiet_references; [eapply register_quiet|].
  - by eapply quiet_references; [eapply append_quiet|].
  - by eapply quiet_references; [eapply gap_quiet|].
  - by eapply quiet_references; [eapply progress_quiet|].
  - by eapply payload_references.
  - by eapply publishes_references; [|eapply publish_step|].
  - injection Hp as _ <-. by apply quiet_references.
  - destruct Hc as (_ & _ & Hnow). by eapply publishes_references; [|eapply finalize_step|].
Qed.
Lemma run_references config s log : writer_run config s log ->
  cf_referenceVisibilityBinder config = Some bindRecorderReferenceVisibility -> referenceInv s.
Proof.
  intros Hr Hb. induction Hr as [root disk disk' writer s Hok Hs | s log call status s' Hr IH Hc Hp].
  - revert Hs. unfold start. destruct (default _ _); [done|]. destruct (configInvalid _); [done|].
    destruct (negb _); [done|]. destruct (budget config) as [b|]; [|done]. destruct (prepareRoot _ _) as [st d].
    destruct (isOk st) eqn:Est; cbn [negb]; [|by intros [= -> _ _]].
    destruct (onDisk _ _) as [ok s1] eqn:E. apply onDisk_shape in E as (d' & _ & ->).
    destruct ok; [|done]. intros [= <- _]. split; [done|constructor..|cbn; mlia|]. exists []. by split; constructor.
  - by eapply perform_references.
Qed.

(** ** How a publication fails *)

(** What a publication asks of the callback depends on what quiet steps leave alone. *)
Lemma bind_quiet now s s1 : quiet s s1 ->
  (bindReference (cutOf now s1) s1).1 = (bindReference (cutOf now s) s).1.
Proof.
  intros [Q1 Q2 Q3 Q4]. unfold bindReference, cutOf. cbn [cut_referencePayload cut_generation cut_committedMonotonicNs].
  rewrite Q1, Q2, Q3, Q4. destruct (cf_referenceVisibilityBinder _) as [binder|]; [|done].
  destruct (binder _ _ _ _) as [result payload]. destruct (negb _); [done|]. destruct (_ || _); [done|]. by destruct (negb _).
Qed.
Lemma publish_outcome now s status s' : winv 0 0 0 s -> publishCutActive now s = (status, s') ->
  status = Ok \/ quiet s s' /\
    (status = IoError \/ status = InvalidArgument /\ wr_cutGeneration s = u64_max \/
     status <> Ok /\ wr_cutGeneration s <> u64_max /\ (bindReference (cutOf now s) s).1 = status).
Proof.
  intros Hinv. unfold publishCutActive. destruct (Z.eqb_spec (wr_cutGeneration s) u64_max) as [|Hg]; [intros [= <- <-]; right; split; [apply quiet_refl|right; by left]|].
  destruct (forShards commitShard (allShards s) s) as [ok s1] eqn:E1. destruct (commitShards_inv _ _ _ Hinv E1) as (I1 & _ & _).
  apply (forShards_quiet _ _ commitShard_quiet) in E1. destruct ok; [|intros [= <- <-]; right; split; [done|by left]].
  cbv zeta. rewrite (cutReservation_met s1 I1). destruct (cutFile_paid s1 I1) as (_ & Hpaid & _).
  rewrite (proj2 (Z.ltb_ge _ _)) by done. pose proof (bind_quiet now s s1 E1) as Hb.
  destruct (bindReference (cutOf now s1) s1) as [result cut]. cbn in Hb.
  destruct (isOk result) eqn:Er; cbn [negb].
  2: { intros [= <- <-]. right. split; [done|]. right. right. split; [by intros ->|done]. }
  destruct (onDisk attempt s1) as [ok s2] eqn:E2. apply onDisk_shape in E2 as (disk & _ & ->).
  assert (forall d, quiet s (s1 <| wr_disk := d |>)) as Hd by (intros d; destruct E1; by split).
  destruct ok; [|intros [= <- <-]; right; split; [apply Hd|by left]].
  destruct (writeCorpusCut cut _) as [written disk'] eqn:Ew. destruct (isOk written) eqn:Ewr; cbn [negb]; intros [= <- <-]; [by left|].
  right. split; [exact (Hd disk')|]. left. revert Ew. unfold writeCorpusCut.
  destruct (replaceFile _ _ _ _) as [[] ?]; intros [= <- _]; done.
Qed.

(** The pending payload is within the limit a recording configures. *)
Lemma run_limit config s log : writer_run config s log -> 0 <= cf_maximumReferenceBytes config ->
  Writer.size (wr_referencePayload s) <= cf_maximumReferenceBytes (wr_config s).
Proof.
  intros Hr Hlim. induction Hr as [root disk disk' writer s Hok Hs | s log call status s' Hr IH Hc Hp].
  { revert Hs. unfold start. destruct (default _ _); [done|]. destruct (configInvalid _); [done|].
    destruct (negb _); [done|]. destruct (budget config) as [b|]; [|done]. destruct (prepareRoot _ _) as [st d].
    destruct (isOk st) eqn:Est; cbn [negb]; [|by intros [= -> _ _]].
    destruct (onDisk _ _) as [ok s1] eqn:E. apply onDisk_shape in E as (d' & _ & ->). destruct ok; [|done]. by intros [= <- _]. }
  assert (forall s1, quiet s s1 -> Writer.size (wr_referencePayload s1) <= cf_maximumReferenceBytes (wr_config s1)) as Hq
    by (intros s1 [_ _ -> ->]; done).
  assert (forall now, publishes s now s' -> Writer.size (wr_referencePayload s') <= cf_maximumReferenceBytes (wr_config s')) as Hpub.
  { intros now [Q|(s1 & cut & Q & P)]; [by apply Hq|]. rewrite (pu_payload _ _ _ _ P), (pu_config _ _ _ _ P). by apply Hq. }
  destruct call; apply whenActive_some in Hp as [->|Hp]; try exact IH.
  - by eapply Hq, register_quiet.
  - by eapply Hq, append_quiet.
  - by eapply Hq, gap_quiet.
  - by eapply Hq, progress_quiet.
  - revert Hp. unfold setReferencePayloadActive. cbv zeta.
    destruct (Z.ltb_spec (cf_maximumReferenceBytes (wr_config s)) (Writer.size payload)) as [|Hle]; cbn [orb]; [by intros [= _ <-]|].
    destruct (_ <? _); [by intros [= _ <-]|]. destruct (addProduct _ _ _) as [required|]; [|by intros [= _ <-]].
    destruct (_ || _); [by intros [= _ <-]|]. destruct (reserveBytes required s) as [ok s1] eqn:Er.
    apply reserve_quiet in Er. destruct ok; intros [= _ <-]; [|by apply Hq]. cbn. by rewrite (qu_config _ _ Er).
  - by eapply Hpub, publish_step.
  - injection Hp as _ <-. exact IH.
  - by eapply Hpub, finalize_step.
Qed.
(** The recorder's callback keeps the size of what it binds, so nothing is refused after it. *)
Lemma bind_recorder config s log now : writer_run config s log -> in_u64 now ->
  0 <= cf_maximumReferenceBytes config -> wr_cutGeneration s <> u64_max ->
  cf_referenceVisibilityBinder config = Some bindRecorderReferenceVisibility ->
  (bindReference (cutOf now s) s).1 =
    (bindRecorderReferenceVisibility (wr_referencePayload s) (publishedPayload s) (wr_cutGeneration s + 1) now).1.
Proof.
  intros Hr Hnow Hlim Hg Hb. pose proof (run_limit _ _ _ Hr Hlim) as Hl. destruct (run_inv _ _ _ Hr) as (Hinv & _ & _).
  pose proof (bd_reference _ _ _ (wi_budget _ _ _ _ Hinv)) as Hmax. destruct (run_references _ _ _ Hr Hb) as [I1 I2 I3 I4 _].
  assert (u64 (wr_cutGeneration s + 1) = wr_cutGeneration s + 1) as Eg by (apply u64_id; unfold u64_max in Hg; mlia).
  unfold bindReference. rewrite I1. fold (publishedPayload s). cbn [cut_referencePayload cutOf cut_generation cut_committedMonotonicNs].
  rewrite Eg. destruct (bindRecorderReferenceVisibility _ _ _ _) as [result payload] eqn:E.
  destruct (isOk result) eqn:Er; cbn [negb]; [|done]. apply bool_decide_eq_true_1 in Er as ->.
  destruct (reference_visibility _ _ (wr_cutGeneration s + 1) _ _ I2 I3 ltac:(rewrite <- Eg; apply u64_range) Hnow E) as (_ & _ & _ & _ & _ & _ & _ & Hsz & _).
  unfold Writer.size in *. rewrite Hsz, (proj2 (Z.ltb_ge _ _)), (proj2 (Z.ltb_ge _ _)), Z.eqb_refl by lia. done.
Qed.

(** C13: The reservation a recording holds for its cuts always suffices, with any
    reference callback or none: [publishCut] of an active writer fails only when the file
    system refuses, when 2^64-1 cuts have been published, or when the configured callback
    does not bind the pending references. Where the callback is the recorder's, as in every
    recording, that is its own verdict on the pending and the published payload: what it
    binds is never refused afterwards for its size. A failed publication leaves the published
    cut, its generation, the configuration, the pending references, the sources and the
    accepted records as they were. *)
Theorem publish_failures config s log now status s' :
  writer_run config s log -> wr_active s = true -> in_u64 now -> 0 <= cf_maximumReferenceBytes config ->
  publishCut now (Some s) = (status, Some s') ->
  keeps s s' /\ (status <> Ok -> quiet s s') /\
  (status = Ok \/ status = IoError \/ status = InvalidArgument /\ wr_cutGeneration s = u64_max \/
   exists binder, cf_referenceVisibilityBinder config = Some binder /\ status <> Ok /\
     (bindReference (cutOf now s) s).1 = status /\
     (binder = bindRecorderReferenceVisibility ->
      (binder (wr_referencePayload s) (publishedPayload s) (wr_cutGeneration s + 1) now).1 = status)).
Proof.
  intros Hr Ha Hnow Hlim. destruct (run_inv _ _ _ Hr) as (Hinv & Hcfg & _).
  unfold publishCut, whenActive. rewrite Ha. cbn [negb].
  destruct (publishCutActive now s) as [status1 s1] eqn:E. intros [= <- <-].
  destruct (publishCutActive_inv _ _ _ _ Hinv E) as (_ & K & _). split; [exact K|].
  apply (publish_outcome _ _ _ _ Hinv) in E as [->|[Q E]]; [by split; [|left]|]. split; [done|].
  destruct E as [->|[[-> Hg]|(Hne & Hg & E)]]; [by auto..|]. right. right. right.
  destruct (cf_referenceVisibilityBinder config) as [binder|] eqn:Eb.
  - exists binder. split_and!; try done. intros ->. rewrite <- E. symmetry. by eapply bind_recorder.
  - unfold bindReference in E. rewrite Hcfg in E. cbn [cf_referenceVisibilityBinder] in E.
    change (cf_referenceVisibilityBinder (config <| cf_sources := [] |>)) with (cf_referenceVisibilityBinder config) in E.
    by rewrite Eb in E.
Qed.

(** The state after some more calls. *)
Definition callAll (calls : list Call) (writer : BinaryMarketCorpusWriter) : BinaryMarketCorpusWriter :=
  fold_left (fun writer call => snd (perform call writer)) calls writer.

(** C14: Whatever calls a recording receives and whatever fails, the reference
    snapshots of its published cuts are only added to: every snapshot of an earlier cut stays
    in its place with the same contents and the same visibility, and every later one is
    visible from a later cut. *)
Theorem references_only_grow config s log calls s' :
  writer_run config s log -> cf_referenceVisibilityBinder config = Some bindRecorderReferenceVisibility ->
  Forall call_ok calls -> callAll calls (Some s) = Some s' ->
  exists prior references, readRecorderReferences (publishedPayload s) = (Ok, prior) /\
    readRecorderReferences (publishedPayload s') = (Ok, references) /\ Forall visible references /\
    (forall i old, prior !! i = Some old -> exists value, references !! i = Some value /\ sameObservation value old) /\
    (forall i value, references !! i = Some value -> prior !! i = None ->
       wr_cutGeneration s < rs_visibleFromCutGeneration value <= wr_cutGeneration s').
Proof.
  intros Hr Hb Hc Hs. assert (grows s s') as (p & r & G1 & G2 & G3 & G4 & G5 & _).
  { apply run_references in Hr as I; [|done]. clear Hr. revert s I Hs. induction Hc as [|call calls Hcall _ IH]; intros s I Hs.
    - injection Hs as <-. by apply grows_refl.
    - cbn in Hs. destruct (perform call (Some s)) as [status [s1|]] eqn:E.
      + destruct (perform_references _ _ _ _ Hcall I E) as [I1 G1]. eapply grows_trans; [exact G1|]. by apply IH.
      + exfalso. assert (forall f, whenActive f (Some s) <> (status, None)) as Hw.
        { intros f. unfold whenActive. destruct (negb _); [done|]. by destruct (f s). }
        destruct call; exact (Hw _ E). }
  exists p, r. by split_and!.
Qed.
End references.

(** ** Witnesses *)

Section samples.
Import Stored.

#[local] Instance sampleProtocol : ReferenceProtocol := {|
  ReferenceProductIdentity := Z * Z;
  l_ReferenceProductIdentity := l_pair l_u16 l_u16;
  exchangeRaw := fst;
  marketRaw := snd;
  validReferenceProductIdentity product := 0 <? product.1;
  l_ReferenceDatasetKind := l_u8;
  referenceRecordBytes dataset := if dataset =? 1 then 4 else 0;
  CurrentReferenceHeader := (Z * Z) * Z * (Z * Z * (Z * Z));
  l_CurrentReferenceHeader :=
    l_pair (l_pair (l_pair l_u16 l_u16) l_u8) (l_pair (l_pair l_u64 l_u64) (l_pair l_u32 l_u32));
  rh_product header := header.1.1;
  rh_dataset header := header.1.2;
  rh_producerEpoch header := header.2.1.1;
  rh_generation header := header.2.1.2;
  rh_totalRows header := header.2.2.1;
  rh_rowBytes header := header.2.2.2;
  validCurrentReferenceHeader header := 0 <? header.2.1.1;
|}.

Definition sampleSnapshot (generation : Z) (rows : list Z) : RecorderReferenceSnapshot :=
  MkRecorderReferenceSnapshot (3, 1) 1 RecorderReferencePresence.Present 50 60 0 0
    ((3, 1), 1, ((9, generation), (Z.of_nat (length rows) / 4, 4))) rows.
Definition samplePayload (snapshots : list RecorderReferenceSnapshot) : list Z :=
  (writeRecorderReferences snapshots kRecorderReferenceMaximumBytes).2.

Lemma sampleSnapshot_fits : snapshotFits (sampleSnapshot 1 [1; 2; 3; 4]).
Proof.
  split; try (apply fits_checked; vm_compute; reflexivity); [vm_compute; split; done..| |cbn; lia].
  by apply bytes_okb.
Qed.
Lemma reference_payload_exact_witness :
  let snapshots := [sampleSnapshot 1 [1; 2; 3; 4]] in
  readRecorderReferences (samplePayload snapshots) = (Ok, snapshots).
Proof.
  refine (proj1 (proj1 reference_payload_exact [sampleSnapshot 1 [1; 2; 3; 4]] kRecorderReferenceMaximumBytes _ _ _)).
  - exact (Forall_cons_2 _ _ _ sampleSnapshot_fits (Forall_nil_2 _)).
  - vm_compute. reflexivity.
Defined.

Definition boundConfig : BinaryMarketWriterConfig :=
  sampleConfig <| cf_referenceVisibilityBinder := Some bindRecorderReferenceVisibility |>
               <| cf_maximumReferenceBytes := 4096 |>.
Lemma boundConfig_ok : config_ok boundConfig.
Proof.
  destruct sampleConfig_ok. split; try done. intros binder payload previous generation now [= <-]. apply binder_bytes.
Qed.
Definition boundState : WriterState :=
  stateOf (let '(status, (writer, _)) := start boundConfig RootMissing emptyWorld None in (status, writer)).
Definition referenceCalls : list Call :=
  [SetReferencePayload (samplePayload [sampleSnapshot 1 [1; 2; 3; 4]]); PublishCut 77;
   SetReferencePayload (samplePayload [sampleSnapshot 1 [1; 2; 3; 4]; sampleSnapshot 2 [5; 6; 7; 8]]); PublishCut 99].
Definition grownState : WriterState := stateOf (Ok, callAll referenceCalls (Some boundState)).

Example references_dated :
  (fun value => (rs_rowBytes value, rs_visibleFromCutGeneration value, rs_visibleFromMonotonicNs value)) <$>
    (readRecorderReferences (publishedPayload grownState)).2 = [([1; 2; 3; 4], 1, 77); ([5; 6; 7; 8], 2, 99)].
Proof. vm_compute. reflexivity. Qed.
(** States hold the callback, so they are compared without evaluating them. *)
Lemma start_some config root disk writer result : start config root disk writer = (Ok, result) ->
  exists s, result.1 = Some s.
Proof.
  unfold start. destruct (default _ _); [done|]. destruct (configInvalid _); [done|]. destruct (negb _); [done|].
  destruct (budget config) as [b|]; [|done]. destruct (prepareRoot _ _) as [st d].
  destruct (isOk st) eqn:Est; cbn [negb]; [|by intros [= -> _]]. destruct (onDisk _ _) as [ok s1].
  destruct ok; [|done]. intros [= <-]. by eexists.
Qed.
Lemma callAll_some calls : forall s, exists s', callAll calls (Some s) = Some s'.
Proof.
  induction calls as [|call calls IH]; intros s; [by exists s|]. cbn.
  assert (forall f, exists s', (whenActive f (Some s)).2 = Some s') as Hw.
  { intros f. unfold whenActive. destruct (negb _); [by exists s|]. destruct (f s). by eexists. }
  assert (exists s', (perform call (Some s)).2 = Some s') as [s' ->] by (destruct call; apply Hw). apply IH.
Qed.
Lemma boundRun : writer_run boundConfig boundState [].
Proof.
  assert ((start boundConfig RootMissing emptyWorld None).1 = Ok) as Hok by (vm_compute; reflexivity).
  destruct (start boundConfig RootMissing emptyWorld None) as [status [writer disk]] eqn:Hs. cbn in Hok. subst status.
  destruct (start_some _ _ _ _ _ Hs) as [s Es]. cbn in Es. subst writer.
  assert (boundState = s) as -> by (unfold boundState; by rewrite Hs).
  exact (run_started boundConfig RootMissing emptyWorld disk None s boundConfig_ok Hs).
Qed.
Lemma referenceCalls_ok : Forall call_ok referenceCalls.
Proof.
  do 2 (apply Forall_cons_2; [apply bytes_okb; vm_compute; reflexivity|]; apply Forall_cons_2; [cbn; mlia|]).
  apply Forall_nil_2.
Qed.
Lemma grown_called : callAll referenceCalls (Some boundState) = Some grownState.
Proof. destruct (callAll_some referenceCalls boundState) as [s E]. unfold grownState. by rewrite E. Qed.

Lemma references_only_grow_witness : exists references,
  readRecorderReferences (publishedPayload grownState) = (Ok, references) /\ length references = 2%nat /\
  Forall visible references.
Proof.
  destruct (references_only_grow boundConfig boundState [] referenceCalls grownState boundRun eq_refl
    referenceCalls_ok grown_called) as (prior & references & _ & Hr & Hv & _).
  exists references. split; [exact Hr|]. split; [|exact Hv].
  assert (length (readRecorderReferences (publishedPayload grownState)).2 = 2%nat) as Hl by (vm_compute; reflexivity).
  by rewrite Hr in Hl.
Defined.
(** A recording whose pending references no longer hold the published one. *)
Lemma run_callAll config calls : Forall call_ok calls -> forall s log s', writer_run config s log ->
  callAll calls (Some s) = Some s' -> exists log', writer_run config s' log'.
Proof.
  induction 1 as [|call calls Hc _ IH]; intros s log s' Hr Hs; [injection Hs as <-; by exists log|].
  cbn in Hs. destruct (callAll_some [call] s) as [s1 E]. cbn in E. rewrite E in Hs.
  destruct (perform call (Some s)) as [status writer] eqn:Ep. cbn in E. subst writer.
  eapply IH; [|exact Hs]. exact (run_called _ _ _ _ _ _ Hr Hc Ep).
Qed.
Definition droppingCalls : list Call :=
  [SetReferencePayload (samplePayload [sampleSnapshot 1 [1; 2; 3; 4]]); PublishCut 77; SetReferencePayload []].
Definition droppedState : WriterState := stateOf (Ok, callAll droppingCalls (Some boundState)).
Lemma droppedRun : exists log, writer_run boundConfig droppedState log.
Proof.
  eapply (run_callAll _ droppingCalls); [|exact boundRun|].
  - apply Forall_cons_2; [apply bytes_okb; vm_compute; reflexivity|]. apply Forall_cons_2; [cbn; mlia|].
    apply Forall_cons_2; [constructor|apply Forall_nil_2].
  - destruct (callAll_some droppingCalls boundState) as [s E]. unfold droppedState. by rewrite E.
Qed.
Lemma publish_failures_witness : exists s',
  publishCut 99 (Some droppedState) = (CorruptData, Some s') /\ keeps droppedState s' /\ quiet droppedState s' /\
  (bindRecorderReferenceVisibility (wr_referencePayload droppedState) (publishedPayload droppedState)
     (wr_cutGeneration droppedState + 1) 99).1 = CorruptData.
Proof.
  assert ((publishCut 99 (Some droppedState)).1 = CorruptData) as Hst by (vm_compute; reflexivity).
  destruct (callAll_some [PublishCut 99] droppedState) as [s' E].
  change (snd (publishCut 99 (Some droppedState)) = Some s') in E.
  destruct (publishCut 99 (Some droppedState)) as [status writer] eqn:Hp. cbn [fst snd] in E, Hst. subst status writer.
  destruct droppedRun as [log Hrun].
  destruct (publish_failures boundConfig droppedState log 99 CorruptData s' Hrun ltac:(vm_compute; reflexivity)
    ltac:(mlia) ltac:(vm_compute; discriminate) Hp) as (K & Q & [F|[F|[[F _]|(binder & B1 & _ & _ & B2)]]]); try discriminate F.
  exists s'. split; [reflexivity|]. split; [exact K|]. split; [apply Q; discriminate|].
  assert (binder = bindRecorderReferenceVisibility) as Eb by (cbn in B1; congruence). rewrite Eb in B2. exact (B2 eq_refl).
Defined.
End samples.
