(* ===== verification/ActiveCursor.v ===== *)
(** * ActiveCursor: readers of a running recording

    Models the rest of src/src/Runtime/src/Corpus/CorpusCut.cpp: the summaries
    ([readCorpusSummary], [readCorpusSourceCatalog]), the compressed-block reads
    ([readCorpusCompressedBlock], [readCorpusRetainedCompressedBlock]),
    [finalizedCutIsDurable], and [CorpusActiveCursor] with [open], [refresh] and
    [next].

    What surrounds a cursor changes between its calls: the files, the recorder's
    publication and the feed.  They are the argument [Env] of each call.  Every
    file is an owned regular file; error texts are not modelled, and of a failed
    cursor only [failed] matters. *)
From stdpp Require Import base list numbers strings.
From S2P Require Import Prelude Codec Layout Format DepthTransaction Disk Metadata BlockCodec Cut Segment.
Import Crc32c.
Local Open Scope Z_scope.

Record CorpusSummary := MkCorpusSummary {
  su_manifest : BinaryMarketManifest;
  su_cutGeneration : Z;
  su_cutBytes : Z;
  su_finalized : bool;
}.

Inductive CorpusCursorResult := CursorRecord | WouldBlock | CursorEnd.
#[export] Instance CorpusCursorResult_eq_dec : EqDecision CorpusCursorResult.
Proof. solve_decision. Defined.

(** The callbacks of a feed; [None] is a null pointer. *)
Record CorpusCompressedBlockSource := MkBlockSource {
  bs_approvedGeneration : option (Status * Z);
  bs_fetch : option (Z -> nat -> Status * (bool * list Z));
}.

Record Env := MkEnv {
  en_files : Files;
  en_publication : option CorpusPublication;
  en_source : CorpusCompressedBlockSource;
}.

Record ActiveShard := MkActiveShard {
  as_block : nat;
  as_position : nat;
  as_count : nat;
  as_decoded : list BinaryMarketRecord;
  as_previousSequence : Z;
  as_previousTime : Z;
  as_ready : bool;
  as_depthTransaction : BinaryMarketDepthTransactionState;
}.
#[export] Instance ActiveShard_eta : Eta ActiveShard := fun r =>
  MkActiveShard (as_block r) (as_position r) (as_count r) (as_decoded r) (as_previousSequence r)
    (as_previousTime r) (as_ready r) (as_depthTransaction r).

Record CorpusActiveCursorState := MkActiveCursor {
  ac_cut : option CorpusCut;
  ac_shards : list ActiveShard;
  ac_begin : Z;
  ac_archive : bool;
  ac_failed : bool;
  ac_feedDetached : bool;
  ac_caughtUp : bool;
  ac_maximumResidentBytes : Z;
}.
#[export] Instance CorpusActiveCursorState_eta : Eta CorpusActiveCursorState := fun r =>
  MkActiveCursor (ac_cut r) (ac_shards r) (ac_begin r) (ac_archive r) (ac_failed r)
    (ac_feedDetached r) (ac_caughtUp r) (ac_maximumResidentBytes r).
Abbreviation ActiveState := CorpusActiveCursorState.

(** The merge order of the active cursor. *)
Definition activeBefore (a b : BinaryMarketRecord) : bool :=
  let x := rec_header a in
  let y := rec_header b in
  if negb (h_receiveMonotonicNs x =? h_receiveMonotonicNs y)
  then h_receiveMonotonicNs x <? h_receiveMonotonicNs y
  else if negb (h_shardIndex x =? h_shardIndex y) then h_shardIndex x <? h_shardIndex y
  else h_shardSequence x <? h_shardSequence y.

(** ** Summaries *)

Definition readCutHeader (content : list Z) : option CutHeader :=
  header ← view l_CutHeader <$> readBytes content 0 (sizeof l_CutHeader);
  if validCutHeader header (Z.of_nat (length content)) then Some header else None.

Definition summaryManifestInvalid (m : BinaryMarketManifest) : bool :=
  negb (mf_manifestCrc32c m =? manifestCrc m) || negb (mf_magic m =? kBinaryMarketManifestMagic) ||
  negb (mf_headerBytes m =? sizeofz l_BinaryMarketManifest) || (mf_producerEpoch m =? 0) ||
  (mf_startedReceiveNs m <=? 0) || (mf_finalizedReceiveNs m <? mf_startedReceiveNs m) ||
  (mf_maximumBytes m =? 0) || (mf_maximumBytes m <? mf_projectedBytes m) ||
  (mf_sourceCount m =? 0) || (kBinaryMarketMaximumSources <? mf_sourceCount m) ||
  (mf_shardCount m =? 0) || (kBinaryMarketMaximumShards <? mf_shardCount m) ||
  negb (mf_complete m =? 1) || (mf_stopReason m <? StopReason.Requested) ||
  (StopReason.ParserDisconnected <? mf_stopReason m) || negb (zero_bytes (mf_reserved m)).

Definition readCorpusSummary (files : Files) : Status * option CorpusSummary :=
  match files (RootFile "cut.bin") with
  | Some content =>
      match readCutHeader content with
      | None => (CorruptData, None)
      | Some h => (Ok, Some (MkCorpusSummary (ch_manifest h) (ch_generation h) (ch_bytes h)
                               (negb (ch_finalized h =? 0))))
      end
  | None =>
      match files (RootFile "manifest.bin") with
      | None => (IoError, None)
      | Some content =>
          if negb (Z.of_nat (length content) =? sizeofz l_BinaryMarketManifest)
          then (CorruptData, None)
          else
            let m := view l_BinaryMarketManifest content in
            if summaryManifestInvalid m then (CorruptData, None)
            else (Ok, Some (MkCorpusSummary m 0 0 true))
      end
  end.

Definition readCorpusSourceCatalog (files : Files) : Status * list BinaryMarketSource :=
  match files (RootFile "cut.bin") with
  | None =>
      match catalog files with
      | (status, Some (_, sources)) => (status, sources)
      | (status, None) => (status, [])
      end
  | Some content =>
      match readCutHeader content with
      | None => (CorruptData, [])
      | Some h =>
          let count := Z.to_nat (ch_sources h) in
          match readBytes content (sizeof l_CutHeader) (count * sizeof l_BinaryMarketSource) with
          | None => (CorruptData, [])
          | Some bytes =>
              let sources := view_array l_BinaryMarketSource count bytes in
              if negb (crc32c bytes =? ch_sourcesCrc h) || negb (validSources sources)
              then (CorruptData, []) else (Ok, sources)
          end
      end
  end.

(** The sealed manifest is the one of the cut. *)
Definition finalizedCutIsDurable (files : Files) (cut : CorpusCut) : bool :=
  cut_finalized cut &&
  match files (RootFile "manifest.bin") with
  | None => false
  | Some content =>
      if negb (Z.of_nat (length content) =? sizeofz l_BinaryMarketManifest) then false
      else
        let m := view l_BinaryMarketManifest content in
        let cleared (m : BinaryMarketManifest) := m <| mf_manifestCrc32c := 0 |> in
        (manifestCrc m =? mf_manifestCrc32c m) &&
        bool_decide (obj l_BinaryMarketManifest (cleared m) =
                     obj l_BinaryMarketManifest (cleared (cut_manifest cut)))
  end.

Section active.
Context `{CxetMarket} `{ByteBlockCodec}.

Definition activeShard0 : ActiveShard := MkActiveShard 0 0 0 [] 0 0 false idle.

(** ** Compressed blocks *)

Definition encodedBound : Z :=
  byteBlockEncodeBound (binaryMarketBlockLayout Channel.Depth) kBinaryMarketBlockRecords.

(** The conditions on the geometry of a block that all three readers share. *)
Definition blockShapeInvalid (block : BinaryMarketBlockHeader) : bool :=
  let layout := binaryMarketBlockLayout (bh_channel block) in
  negb (validBinaryMarketRecordChannel (bh_channel block)) || (bh_recordCount block =? 0) ||
  (kBinaryMarketBlockRecords <? bh_recordCount block) ||
  negb (bh_rawBytes block =? u64 (bh_recordCount block * bl_recordBytes layout)) ||
  (bh_encodedBytes block =? 0) ||
  (byteBlockEncodeBound layout (bh_recordCount block) <? bh_encodedBytes block).

(** The segment file of a range: sealed, or else still partial. *)
Definition segmentFile (files : Files) (range : CorpusBlockRange) : option (list Z) :=
  let path := segmentPath (rg_shardIndex range) (rg_segmentNumber range) in
  match files (path Sealed) with
  | Some content => Some content
  | None => files (path Partial)
  end.

(** The encoded bytes of a range in its segment file, behind the header the cut names. *)
Definition archiveBlock (files : Files) (range : CorpusBlockRange) : option (list Z) :=
  let block := rg_header range in
  let offset := Z.to_nat (rg_offset range) in
  content ← segmentFile files range;
  header ← readBytes content offset (sizeof l_BinaryMarketBlockHeader);
  encoded ← readBytes content (offset + sizeof l_BinaryMarketBlockHeader)
              (Z.to_nat (bh_encodedBytes block));
  if bool_decide (header = obj l_BinaryMarketBlockHeader block) then Some encoded else None.

Definition retainedBlock (publication : option CorpusPublication) (range : CorpusBlockRange)
  : option (list Z) :=
  publication ← publication;
  load range (Z.to_nat (bh_encodedBytes (rg_header range))) publication.

Definition readCorpusCompressedBlock (files : Files) (publication : option CorpusPublication)
  (cut : CorpusCut) (index : nat) : Status * list Z :=
  match cut_blocks cut !! index with
  | None => (InvalidArgument, [])
  | Some range =>
      let block := rg_header range in
      if blockShapeInvalid block || negb (blockHeaderCrc block =? bh_headerCrc32c block)
      then (CorruptData, [])
      else
        match (match retainedBlock publication range with
               | Some payload => Some payload
               | None => archiveBlock files range
               end) with
        | None => (IoError, [])
        | Some payload =>
            if negb (crc32c payload =? bh_encodedCrc32c block) then (CorruptData, [])
            else (Ok, obj l_BinaryMarketBlockHeader block ++ payload)
        end
  end.

Definition readCorpusRetainedCompressedBlock (publication : option CorpusPublication)
  (cut : CorpusCut) (index : nat) : Status * (bool * list Z) :=
  match publication, cut_blocks cut !! index with
  | Some publication, Some range =>
      let block := rg_header range in
      if blockShapeInvalid block then (CorruptData, (false, []))
      else
        match retainedBlock (Some publication) range with
        | None => (Ok, (false, []))
        | Some payload =>
            if negb (crc32c payload =? bh_encodedCrc32c block) then (CorruptData, (false, []))
            else (Ok, (true, obj l_BinaryMarketBlockHeader block ++ payload))
        end
  | _, _ => (InvalidArgument, (false, []))
  end.

(** ** [refresh] *)

Definition cutMetadataBytes (cut : CorpusCut) : Z :=
  sizeofz l_CutHeader +
  Z.of_nat (length (cut_sources cut)) * sizeofz l_BinaryMarketSource +
  Z.of_nat (length (cut_gaps cut)) * sizeofz l_BinaryMarketGap +
  Z.of_nat (length (cut_blocks cut)) * sizeofz l_CorpusBlockRange +
  Z.of_nat (length (cut_referencePayload cut)).

Definition fixedBytes (shardCount : Z) : Z :=
  8 * 1024 * 1024 + shardCount * kBinaryMarketBlockRecords * sizeofz l_BinaryMarketRecord +
  2 * encodedBound.

Definition overBudget (shardCount metadataBytes maximum : Z) : bool :=
  let fixed := fixedBytes shardCount in
  (maximum <? fixed) || ((maximum - fixed) / 3 <? metadataBytes).

(** The candidate cut: the recorder's latest or the one on disk, within the budget;
    the flag says that the recorder itself acknowledged it. *)
Definition candidateCut (env : Env) (maximum : Z) : Status + (bool * CorpusCut) :=
  match (publication ← en_publication env; pub_latest publication) with
  | Some cut =>
      if overBudget (pg_shardCount (cut_progress cut)) (cutMetadataBytes cut) maximum
      then inl OutOfRange else inr (true, cut)
  | None =>
      match readCorpusSummary (en_files env) with
      | (Ok, Some summary) =>
          let shardCount := mf_shardCount (su_manifest summary) in
          if overBudget shardCount (su_cutBytes summary) maximum then inl OutOfRange
          else
            match readCorpusCut (en_files env) ((maximum - fixedBytes shardCount) / 3) with
            | (Ok, Some cut) =>
                if overBudget (pg_shardCount (cut_progress cut)) (cutMetadataBytes cut) maximum
                then inl OutOfRange else inr (false, cut)
            | (status, _) => inl status
            end
      | (status, _) => inl status
      end
  end.

(** The new cut does not continue the old one. *)
Definition cutRegresses (old next : CorpusCut) : bool :=
  (cut_generation next <? cut_generation old) ||
  negb (pg_producerEpoch (cut_progress next) =? pg_producerEpoch (cut_progress old)) ||
  (length (cut_blocks next) <? length (cut_blocks old))%nat ||
  (pg_safeMonotonicNs (cut_progress next) <? pg_safeMonotonicNs (cut_progress old)) ||
  negb (pg_shardCount (cut_progress next) =? pg_shardCount (cut_progress old)).

Definition anchorChanges (old next : CorpusCut) : bool :=
  negb (mf_recordCount (cut_manifest old) =? 0) &&
  (mf_replayAnchorMonotonicNs (cut_manifest old) <? pg_safeMonotonicNs (cut_progress old)) &&
  (negb (mf_replayAnchorMonotonicNs (cut_manifest next) =?
         mf_replayAnchorMonotonicNs (cut_manifest old)) ||
   negb (mf_replayAnchorReceiveNs (cut_manifest next) =?
         mf_replayAnchorReceiveNs (cut_manifest old))).

Definition blockMoved (old current : CorpusBlockRange) : bool :=
  negb (rg_offset old =? rg_offset current) ||
  negb (rg_segmentNumber old =? rg_segmentNumber current) ||
  negb (rg_shardIndex old =? rg_shardIndex current) ||
  negb (bool_decide (obj l_BinaryMarketBlockHeader (rg_header old) =
                     obj l_BinaryMarketBlockHeader (rg_header current))).

(** The blocks of the old cut are those of the new one, in place. *)
Definition prefixChanges (old next : CorpusCut) : bool :=
  existsb (fun '(old, current) => blockMoved old current)
    (zip (cut_blocks old) (cut_blocks next)).

Definition discontinuous (old next : CorpusCut) : bool :=
  cutRegresses old next || anchorChanges old next || prefixChanges old next.

(** The new cut is accepted. *)
Definition acceptCut (archived : bool) (next : CorpusCut) (state : ActiveState)
  : Status * ActiveState :=
  if (length (ac_shards state) =? 0)%nat && negb workspacePrepare then (IoError, state)
  else
    let state :=
      if (length (ac_shards state) =? 0)%nat
      then state <| ac_shards :=
             replicate (Z.to_nat (pg_shardCount (cut_progress next))) activeShard0 |>
      else state in
    let newer :=
      match ac_cut state with
      | Some old => cut_generation old <? cut_generation next
      | None => false
      end in
    let state :=
      if negb archived && ac_caughtUp state && newer
      then state <| ac_feedDetached := false |> <| ac_caughtUp := false |> else state in
    (Ok, state <| ac_cut := Some next |>).

(** The recorder's acknowledgement of a cut read from disk: [None] accepts it. *)
Definition withheld (env : Env) (state : ActiveState) (next : CorpusCut) : option Status :=
  match bs_approvedGeneration (en_source env) with
  | None => Some InvalidArgument
  | Some (status, approved) =>
      if negb (isOk status) then Some status
      else if approved <? cut_generation next
      then Some (if ac_cut state is Some _ then Ok else Unknown)
      else None
  end.

Definition refreshActive (env : Env) (state : ActiveState) : Status * ActiveState :=
  match candidateCut env (ac_maximumResidentBytes state) with
  | inl status => (status, state)
  | inr (acknowledged, next) =>
      let archived := finalizedCutIsDurable (en_files env) next in
      match (if acknowledged || archived then None else withheld env state next) with
      | Some status => (status, state)
      | None =>
          let state :=
            if archived then state <| ac_feedDetached := true |> <| ac_archive := true |>
            else state in
          match ac_cut state with
          | Some old =>
              if discontinuous old next then (CorruptData, state <| ac_failed := true |>)
              else acceptCut archived next state
          | None => acceptCut archived next state
          end
      end
  end.

Definition refresh (env : Env) (cursor : option ActiveState) : Status * option ActiveState :=
  match cursor with
  | None => (InvalidArgument, None)
  | Some state =>
      if ac_failed state then (InvalidArgument, Some state)
      else let '(status, state) := refreshActive env state in (status, Some state)
  end.

Definition openActive (env : Env) (begin maximumResidentBytes : Z) : Status * option ActiveState :=
  refresh env (Some (MkActiveCursor None [] begin false false false false maximumResidentBytes)).

(** ** [next] *)

Definition activeRangeInvalid (range : CorpusBlockRange) : bool :=
  let block := rg_header range in
  (rg_segmentNumber range =? 0) || (rg_offset range <? sizeofz l_BinaryMarketSegmentHeader) ||
  negb (bh_magic block =? kBinaryMarketBlockMagic) ||
  negb (bh_headerBytes block =? sizeofz l_BinaryMarketBlockHeader) ||
  negb (zero_bytes (bh_reserved block)) || blockShapeInvalid block ||
  (encodedBound <? bh_encodedBytes block) ||
  negb (blockHeaderCrc block =? bh_headerCrc32c block).

(** Lines 629-641: the block from its segment file. *)
Definition fromArchive (env : Env) (range : CorpusBlockRange) (state : ActiveState)
  : (Status + list Z) * ActiveState :=
  let state := state <| ac_archive := true |> in
  match archiveBlock (en_files env) range with
  | None => (inl IoError, state)
  | Some encoded => (inr encoded, state)
  end.

(** Lines 615-641: the encoded bytes from the recorder's cache, the feed or the file. *)
Definition obtainBlock (env : Env) (cut : CorpusCut) (index : nat) (range : CorpusBlockRange)
  (state : ActiveState) : (Status + list Z) * ActiveState :=
  let block := rg_header range in
  match retainedBlock (en_publication env) range with
  | Some encoded => (inr encoded, state)
  | None =>
      match bs_fetch (en_source env) with
      | Some fetch =>
          if ac_feedDetached state then fromArchive env range state
          else
            let '(status, (available, remote)) := fetch (cut_generation cut) index in
            if negb (isOk status) then (inl status, state)
            else if available then
              if negb (Z.of_nat (length remote) =?
                       sizeofz l_BinaryMarketBlockHeader + bh_encodedBytes block) ||
                 negb (bool_decide (take (sizeof l_BinaryMarketBlockHeader) remote =
                                    obj l_BinaryMarketBlockHeader block))
              then (inl CorruptData, state)
              else (inr (drop (sizeof l_BinaryMarketBlockHeader) remote), state)
            else fromArchive env range (state <| ac_feedDetached := true |>)
      | None => fromArchive env range state
      end
  end.

Definition activeRowInvalid (shard : nat) (sources channel previousSequence previousTime : Z)
  (row : BinaryMarketRecord) : bool :=
  let h := rec_header row in
  negb (validBinaryMarketRecord row) || negb (h_shardIndex h =? Z.of_nat shard) ||
  (sources <? h_sourceId h) || negb (h_channel h =? channel) ||
  (negb (previousSequence =? 0) && (h_shardSequence h <=? previousSequence)) ||
  (negb (previousTime =? 0) && (h_receiveMonotonicNs h <? previousTime)) || negb (tailZero row).

(** The row loop: the order fences after the block. *)
Fixpoint activeRows (shard : nat) (sources channel : Z) (rows : list BinaryMarketRecord)
  (previousSequence previousTime : Z) : option (Z * Z) :=
  match rows with
  | [] => Some (previousSequence, previousTime)
  | row :: rows =>
      if activeRowInvalid shard sources channel previousSequence previousTime row then None
      else activeRows shard sources channel rows (h_shardSequence (rec_header row))
             (h_receiveMonotonicNs (rec_header row))
  end.

(** The first and last rows are those the range announces. *)
Definition rowsMatchRange (range : CorpusBlockRange) (rows : list BinaryMarketRecord) : bool :=
  let block := rg_header range in
  bool_decide (h_shardSequence ∘ rec_header <$> list.head rows = Some (bh_firstShardSequence block)) &&
  bool_decide (h_shardSequence ∘ rec_header <$> list.last rows = Some (bh_lastShardSequence block)) &&
  bool_decide (h_receiveMonotonicNs ∘ rec_header <$> list.head rows =
               Some (rg_firstMonotonicNs range)) &&
  bool_decide (h_receiveMonotonicNs ∘ rec_header <$> list.last rows =
               Some (rg_lastMonotonicNs range)).

(** The rows of the encoded bytes of a range. *)
Definition decodeRange (range : CorpusBlockRange) (encoded : list Z)
  : option (list BinaryMarketRecord) :=
  let block := rg_header range in
  if negb (crc32c encoded =? bh_encodedCrc32c block) then None
  else
    raw ← decodeByteBlock (binaryMarketBlockLayout (bh_channel block)) encoded
            (Z.to_nat (bh_rawBytes block));
    if negb (Z.of_nat (length raw) =? bh_rawBytes block) || negb (crc32c raw =? bh_rawCrc32c block)
    then None
    else Some (view_array l_BinaryMarketRecord (Z.to_nat (bh_recordCount block)) raw).

(** Rows before the requested begin. *)
Fixpoint skipEarly (begin : Z) (rows : list BinaryMarketRecord) : nat :=
  match rows with
  | [] => 0
  | row :: rows =>
      if h_receiveMonotonicNs (rec_header row) <? begin then S (skipEarly begin rows) else 0
  end.

(** Lines 602-668: one block of a shard. *)
Definition nextBlock (env : Env) (cut : CorpusCut) (s : nat) (range : CorpusBlockRange)
  (shard : ActiveShard) (state : ActiveState) : (Status + ActiveShard) * ActiveState :=
  if activeRangeInvalid range then (inl CorruptData, state)
  else
    let '(encoded, state) := obtainBlock env cut (as_block shard) range state in
    match encoded with
    | inl status => (inl status, state)
    | inr encoded =>
        match decodeRange range encoded with
        | None => (inl CorruptData, state)
        | Some rows =>
            match activeRows s (Z.of_nat (length (cut_sources cut))) (bh_channel (rg_header range))
                    rows (as_previousSequence shard) (as_previousTime shard) with
            | None => (inl CorruptData, state)
            | Some (previousSequence, previousTime) =>
                if negb (rowsMatchRange range rows) then (inl CorruptData, state)
                else (inr (shard <| as_block ::= S |> <| as_decoded := rows |>
                             <| as_previousSequence := previousSequence |>
                             <| as_previousTime := previousTime |>
                             <| as_count := length rows |>
                             <| as_position := skipEarly (ac_begin state) rows |>), state)
            end
        end
    end.

(** Lines 598-669: a shard looks for its next record; [remaining] are the blocks of
    the cut from the shard's position on. *)
Fixpoint fillActive (env : Env) (cut : CorpusCut) (s : nat) (remaining : list CorpusBlockRange)
  (shard : ActiveShard) (state : ActiveState) : (Status + ActiveShard) * ActiveState :=
  if as_ready shard then (inr shard, state)
  else if (as_position shard <? as_count shard)%nat
  then (inr (shard <| as_ready := true |>), state)
  else
    match remaining with
    | [] => (inr shard, state)
    | range :: remaining =>
        if negb (rg_shardIndex range =? Z.of_nat s)
        then fillActive env cut s remaining (shard <| as_block ::= S |>) state
        else
          match nextBlock env cut s range shard state with
          | (inl status, state) => (inl status, state)
          | (inr shard, state) => fillActive env cut s remaining shard state
          end
    end.

Fixpoint fillShards (env : Env) (cut : CorpusCut) (s : nat) (shards : list ActiveShard)
  (state : ActiveState) : (Status + list ActiveShard) * ActiveState :=
  match shards with
  | [] => (inr [], state)
  | shard :: shards =>
      match fillActive env cut s (drop (as_block shard) (cut_blocks cut)) shard state with
      | (inl status, state) => (inl status, state)
      | (inr shard, state) =>
          match fillShards env cut (S s) shards state with
          | (inl status, state) => (inl status, state)
          | (inr shards, state) => (inr (shard :: shards), state)
          end
      end
  end.

(** The record a ready shard offers. *)
Definition offered (shard : ActiveShard) : option BinaryMarketRecord :=
  if as_ready shard then as_decoded shard !! as_position shard else None.

Definition activeBetter (best : option (nat * BinaryMarketRecord)) (candidate : nat * ActiveShard)
  : option (nat * BinaryMarketRecord) :=
  match offered candidate.2 with
  | None => best
  | Some row =>
      match best with
      | None => Some (candidate.1, row)
      | Some (_, least) => if activeBefore row least then Some (candidate.1, row) else best
      end
  end.
Definition activeBest (shards : list ActiveShard) : option (nat * BinaryMarketRecord) :=
  fold_left activeBetter (zip (seq 0 (length shards)) shards) None.

(** The record lies beyond the producer's committed prefix. *)
Definition beyondPrefix (cut : CorpusCut) (s : nat) (row : BinaryMarketRecord) : bool :=
  let progress := cut_progress cut in
  (pg_safeMonotonicNs progress =? 0) ||
  (pg_safeMonotonicNs progress <=? h_receiveMonotonicNs (rec_header row)) ||
  (nth s (pg_shardSequences progress) 0 <? h_shardSequence (rec_header row)).

(** The shard after its record was taken. *)
Definition advanceShard (transaction : BinaryMarketDepthTransactionState) (shard : ActiveShard)
  : ActiveShard :=
  let position := S (as_position shard) in
  shard <| as_depthTransaction := transaction |> <| as_position := position |>
        <| as_ready := (position <? as_count shard)%nat |>.

(** Lines 671-687: the merge over the filled shards. *)
Definition emitActive (cut : CorpusCut) (state : ActiveState)
  : Status * CorpusCursorResult * option BinaryMarketRecord * ActiveState :=
  match activeBest (ac_shards state) with
  | None =>
      if cut_finalized cut && existsb (fun shard => active (as_depthTransaction shard)) (ac_shards state)
      then (CorruptData, WouldBlock, None, state <| ac_failed := true |>)
      else (Ok, if cut_finalized cut then CursorEnd else WouldBlock, None,
            state <| ac_caughtUp := true |>)
  | Some (best, row) =>
      if beyondPrefix cut best row then (Ok, WouldBlock, None, state <| ac_caughtUp := true |>)
      else
        match ac_shards state !! best with
        | None => (CorruptData, WouldBlock, None, state <| ac_failed := true |>)
        | Some shard =>
            let '(ok, transaction) :=
              advanceBinaryMarketDepthTransaction row (as_depthTransaction shard) in
            if negb ok then (CorruptData, WouldBlock, None, state <| ac_failed := true |>)
            else (Ok, CursorRecord, Some row,
                  state <| ac_shards ::= <[best := advanceShard transaction shard]> |>)
        end
  end.

Definition nextActive (env : Env) (cursor : option ActiveState)
  : Status * CorpusCursorResult * option BinaryMarketRecord * option ActiveState :=
  match cursor with
  | None => (InvalidArgument, WouldBlock, None, None)
  | Some state =>
      match ac_failed state, ac_cut state with
      | false, Some cut =>
          match fillShards env cut 0 (ac_shards state) state with
          | (inl status, state) =>
              (status, WouldBlock, None, Some (state <| ac_failed := true |>))
          | (inr shards, state) =>
              let '(status, result, row, state) := emitActive cut (state <| ac_shards := shards |>) in
              (status, result, row, Some state)
          end
      | _, _ => (InvalidArgument, WouldBlock, None, Some state)
      end
  end.

End active.
