(* ===== verification/CutBlocks.v ===== *)
(** * CutBlocks: the blocks a published cut names

    The relation of Storage at the moment a cut is published: every block reference of the
    cut leads to bytes that decode to accepted records, and together the references of a
    shard lead to all of them, each once and in order.  The bytes are those of the segment
    file, sealed or still partial, and the decoding is the one of the live cursor. *)
From stdpp Require Import base list numbers strings gmap sorting.
From S2P Require Import Prelude Codec Layout Format Samples DepthTransaction SourceState Disk.
From S2P Require Import Metadata BlockCodec Cut Segment Writer WriterShape WriterInv WriterSteps.
From S2P Require Import WriterCalls WriterCuts WriterRun Storage StorageCalls ActiveCursor.
Import Crc32c.
Local Open Scope Z_scope.

Section blocks.
Context `{CxetMarket} `{Codec : ByteBlockCodec} `{!ByteBlockLaws Codec}.

(** The reference [range] leads to a block of [rows]. *)
Definition blockStored (files : Files) (range : CorpusBlockRange) (rows : list BinaryMarketRecord) : Prop :=
  exists suffix content encoded,
    files (segmentPath (rg_shardIndex range) (rg_segmentNumber range) suffix) = Some content /\
    readBytes content (Z.to_nat (rg_offset range)) (sizeof l_BinaryMarketBlockHeader) =
      Some (obj l_BinaryMarketBlockHeader (rg_header range)) /\
    readBytes content (Z.to_nat (rg_offset range) + sizeof l_BinaryMarketBlockHeader)
      (Z.to_nat (bh_encodedBytes (rg_header range))) = Some encoded /\
    decodeRange range encoded = Some rows /\ rowsMatchRange range rows = true.

(** A reader finds these bytes, unless it is misled by a second file of the segment. *)
Lemma blockStored_read files range rows : blockStored files range rows ->
  (files (segmentPath (rg_shardIndex range) (rg_segmentNumber range) Sealed) = None \/
   files (segmentPath (rg_shardIndex range) (rg_segmentNumber range) Partial) = None) ->
  exists encoded, archiveBlock files range = Some encoded /\ decodeRange range encoded = Some rows.
Proof.
  intros (suffix & content & encoded & Hf & Hh & He & Hd & _) Hone. exists encoded. split; [|done].
  unfold archiveBlock, segmentFile. assert ((match files (segmentPath (rg_shardIndex range) (rg_segmentNumber range) Sealed) with
    | Some content => Some content | None => files (segmentPath (rg_shardIndex range) (rg_segmentNumber range) Partial) end) =
    Some content) as ->.
  { destruct suffix; [|by rewrite Hf]. destruct Hone as [->|Hn]; [done|]. rewrite Hn in Hf. discriminate Hf. }
  cbn [mbind option_bind]. rewrite Hh. cbn [mbind option_bind]. rewrite He. cbn [mbind option_bind].
  by rewrite bool_decide_eq_true_2.
Qed.

Lemma decode_placed n rows range encoded : block_of n rows (rg_header range) encoded ->
  Forall (fits l_BinaryMarketRecord) rows -> decodeRange range encoded = Some rows.
Proof.
  intros [B1 B2 _ _ _ _ (_ & _ & _ & B6 & B7 & _ & B9 & B10 & _)] Hf. unfold decodeRange. cbv zeta.
  rewrite B10, Z.eqb_refl. cbn [negb]. pose proof (records_length _ Hf) as Hl.
  assert (Z.to_nat (bh_rawBytes (rg_header range)) = length (objects l_BinaryMarketRecord rows)) as -> by lia.
  assert (bytes_ok (objects l_BinaryMarketRecord rows)) as Hbytes by exact (obj_array_bytes _ _ Hf).
  rewrite (encode_lossless _ _ _ Hbytes B2). cbn [mbind option_bind].
  rewrite B9, Z.eqb_refl, B7, Hl, Nat2Z.inj_mul, Z.eqb_refl. cbn [negb orb].
  rewrite B6, Nat2Z.id, view_objects by done. done.
Qed.

Lemma placed_stored files number shard suffix content before after offset batches body ranges :
  files (segmentPath shard number suffix) = Some content ->
  placed number shard offset batches body ranges -> Forall (fits l_BinaryMarketRecord) (concat batches) ->
  content = before ++ body ++ after -> offset = size before ->
  Forall2 (blockStored files) ranges batches.
Proof.
  intros Hfile Hp. revert before. induction Hp as [offset|offset n rows batches encoded body range ranges B Ho Hn Hs H1 H2 _ IH];
    intros before Hf Hc Hoff; constructor.
  - cbn [concat] in Hf. apply Forall_app in Hf as [Hf _]. exists suffix, content, encoded.
    pose proof (obj_length _ _ (bo_fits _ _ _ _ B)) as Hl.
    assert (Z.to_nat (rg_offset range) = length before) as Eo by (rewrite Ho, Hoff; unfold size; lia).
    rewrite Hn, Hs, Eo. split_and!; [done|..].
    + rewrite Hc, <- Hl, <- !app_assoc. apply readBytes_app.
    + destruct B as [_ _ _ _ _ _ (_ & _ & _ & _ & _ & -> & _)]. rewrite Nat2Z.id.
      rewrite Hc, <- Hl, <- length_app, <- !app_assoc, (app_assoc before). apply readBytes_app.
    + by eapply decode_placed.
    + unfold rowsMatchRange. cbv zeta. rewrite (bo_first _ _ _ _ B), (bo_last _ _ _ _ B), H1, H2.
      by rewrite !bool_decide_eq_true_2.
  - cbn [concat] in Hf. apply Forall_app in Hf as [_ Hf].
    apply (IH (before ++ obj l_BinaryMarketBlockHeader (rg_header range) ++ encoded)); [done| |].
    + rewrite Hc, <- !app_assoc. done.
    + rewrite Hoff, !size_app. unfold size. rewrite (obj_length _ _ (bo_fits _ _ _ _ B)).
      change (sizeof l_BinaryMarketBlockHeader) with 64%nat. lia.
Qed.

(** ** The streams of a published cut *)

Lemma commitShard_stream shard s s' : commitShard shard s = (true, s') ->
  (forall g, wr_segments s' !! shard = Some g -> sg_open g = true -> sg_stream g <> Broken) /\
  (forall j, j <> shard -> wr_segments s' !! j = wr_segments s !! j).
Proof.
  unfold commitShard. destruct (wr_segments s !! shard) as [g|] eqn:Hg; [|intros [= <-]; split; congruence].
  destruct (sg_open g) eqn:Ho; cbn [negb]; [|intros [= <-]; split; congruence].
  destruct (flushBlock s g) as [ok1 [s1 g1]] eqn:E. apply flushBlock_shape in E as Hr.
  destruct (flush_open _ _ _ _ _ Hr) as [_ Hseg1]. destruct ok1; [|done].
  destruct (flushStream s1 g1) as [ok2 [s2 g2]] eqn:E2.
  pose proof (flushStream_shape _ _ _ _ _ E2) as (disk & stream & Hs2 & Hg2). destruct ok2; [|done]. cbn [negb].
  intros E3. apply onDisk_shape in E3 as (disk3 & _ & ->). subst s2. wfields. rewrite Hseg1. split.
  - intros h. rewrite list_lookup_insert_eq by (by eapply lookup_lt_Some). intros [= <-] _.
    unfold flushStream in E2. destruct (sg_stream g1) as [position| |] eqn:Es; [|done|].
    + destruct (onDisk attempt s1) as [ok s3]. injection E2 as -> _ <-. done.
    + injection E2 as _ <-. by rewrite Es.
  - intros j Hj. by rewrite list_lookup_insert_ne.
Qed.

Lemma commitShards_stream shards : forall s s' j g, forShards commitShard shards s = (true, s') ->
  wr_segments s' !! j = Some g -> sg_open g = true ->
  j ∈ shards \/ (forall g0, wr_segments s !! j = Some g0 -> sg_open g0 = true -> sg_stream g0 <> Broken) ->
  sg_stream g <> Broken.
Proof.
  induction shards as [|shard shards IH]; intros s s' j g; cbn [forShards].
  { intros [= <-] Hg Ho [[]%elem_of_nil|Hb]. by apply Hb. }
  destruct (commitShard shard s) as [ok s1] eqn:E. destruct ok; [|done]. apply commitShard_stream in E as [E1 E2].
  intros Hrun Hg Ho Hin. apply (IH _ _ _ _ Hrun Hg Ho).
  destruct (decide (j = shard)) as [->|Hj]; [by right|].
  destruct Hin as [[?|?]%elem_of_cons|Hb]; [done|by left|]. right. intros g0. rewrite E2 by done. apply Hb.
Qed.

(** ** The records of a shard *)

Lemma sealed_stored files epoch xs :
  Forall (sealedFile files epoch) xs -> Forall (fits l_BinaryMarketRecord) (concat (map sl_rows xs)) ->
  exists parts, Forall2 (blockStored files) (concat (map sl_blocks xs)) parts /\ concat parts = concat (map sl_rows xs).
Proof.
  induction 1 as [|x xs (h & batches & body & Hh & Hb & Hrows & _ & _ & _ & Hf & Hp) _ IH]; cbn [map concat]; intros Hfits.
  { exists []. by split. }
  apply Forall_app in Hfits as [F1 F2]. destruct (IH F2) as (parts & P1 & P2). exists (batches ++ parts). split.
  - apply Forall2_app; [|done]. rewrite <- Hrows in F1.
    eapply (placed_stored files _ _ Sealed); [exact Hf|exact Hp|exact F1|reflexivity|].
    destruct (sealHeader_of _ _ _ Hh) as [Hsh _]. unfold size. rewrite (obj_length _ _ (ho_fits _ _ _ Hsh)). reflexivity.
  - by rewrite concat_app, Hrows, P2.
Qed.

Lemma shard_stored files epoch next i g rows blocks sealed batches opened :
  shardHolds files epoch next i g rows blocks sealed batches opened -> Forall (fits l_BinaryMarketRecord) rows ->
  sg_pending g = [] -> (sg_open g = true -> sg_stream g <> Broken) ->
  exists parts, Forall2 (blockStored files) blocks parts /\ concat parts = rows.
Proof.
  intros [H1 HB H2 _ _ H5 H6] Hf Hp Hs. rewrite Hp, app_nil_r in H1. rewrite H1 in Hf |- *. rewrite HB.
  apply Forall_app in Hf as [F1 F2]. destruct (sealed_stored _ _ _ H2 F1) as (parts & P1 & P2).
  destruct (sg_open g) eqn:Ho.
  2: { destruct (H5 eq_refl) as (-> & _ & ->). exists parts. rewrite !app_nil_r. done. }
  exists (parts ++ batches). split; [|by rewrite concat_app, P2].
  apply Forall2_app; [done|]. destruct (H6 eq_refl) as (Q1 & _ & _ & Q4 & _ & _ & Q7). cbv zeta in *.
  unfold openFile in Q7. specialize (Hs eq_refl). rewrite Q1, Q4 in Q7.
  destruct (sg_stream g) as [position| |] eqn:Es; [|done|].
  - destruct Q7 as (header & body & Hfile & Hl & _ & _ & _ & Hpl).
    eapply (placed_stored files _ _ Partial); [exact Hfile|exact Hpl|exact F2| |].
    + by rewrite <- (app_nil_r body) at 1.
    + unfold size. by rewrite Hl.
  - destruct Q7 as (header & body & footer & Hfile & Hl & Hpl).
    eapply (placed_stored files _ _ Partial); [exact Hfile|exact Hpl|exact F2|reflexivity|]. unfold size. by rewrite Hl.
Qed.

(** C12: Every cut [publishCut] reports as published is the cut the writer keeps as
    its latest, and [readCorpusCut] accepts it from the file the writer left, which is within
    the quota, under every budget the file is within; and its block references lead to
    exactly the records accepted so far: the references of a shard lead, in order, to blocks
    of the segment files that decode to the accepted records of that shard, each once. *)
Theorem published_cut_readable config s log now s' :
  writer_run config s log -> in_u64 now -> now <> 0 ->
  publishCut now (Some s) = (Ok, Some s') ->
  exists cut content, pub_latest (wr_publication s') = Some cut /\
    w_files (wr_disk s') (RootFile "cut.bin") = Some content /\ size content <= cf_maximumBytes config /\
    (forall maximum, size content <= maximum ->
       readCorpusCut (w_files (wr_disk s')) maximum = (Ok, Some cut)) /\
    mf_recordCount (cut_manifest cut) = size log /\ blockRecords (cut_blocks cut) = size log /\
    cut_sources cut = wr_sources s' /\ cut_gaps cut = wr_gaps s' /\
    forall i, 0 <= i < cf_shardCount config -> exists parts,
      Forall2 (blockStored (w_files (wr_disk s'))) (blocksOf i (cut_blocks cut)) parts /\
      concat parts = ofShard i log.
Proof.
  intros Hrun Hnow Hnz. pose proof (run_held _ _ _ Hrun) as Hheld. destruct (run_inv _ _ _ Hrun) as (Hinv & Hcfg & Hn).
  unfold publishCut, whenActive. on_if Ea; [done|].
  destruct (publishCutActive now s) as [status s1] eqn:E. intros [= -> ->].
  destruct (publishCutActive_inv _ _ _ _ Hinv E) as (I' & K' & _ & D).
  destruct (D eq_refl) as (s1 & payload & Hcommit & I1 & F1 & P1 & G1 & B1 & L1 & Hpub & Hfile & Hother & _ & _ & _ & _ & Hg).
  pose proof (published_cut_ok now payload s1 I1 P1 G1 Hnow Hnz B1 L1) as Hok.
  pose proof (cutBytes_length now payload s1 Hok I1 L1) as Hlen.
  rewrite (fr_config _ _ F1), Hcfg in Hlen. exists (publishedCut now payload s1), (cutBytes (publishedCut now payload s1)).
  split; [exact Hpub|]. split; [exact Hfile|]. split; [exact Hlen|]. split; [|split; [|split; [|split; [|split]]]].
  - intros maximum Hmax. apply (read_decoded _ _ _ _ Hfile); [by apply decode_written|exact Hmax].
  - change (mf_recordCount (wr_manifest s1) = size log). by rewrite (fr_manifest _ _ F1).
  - change (blockRecords (wr_blocks s1) = size log).
    pose proof (ct_records _ _ (wi_counts _ _ _ _ I1)) as Hr.
    rewrite (fr_manifest _ _ F1) in Hr. lia.
  - change (wr_sources s1 = wr_sources s'). by rewrite (kc_sources _ _ K'), (fr_sources _ _ F1).
  - change (wr_gaps s1 = wr_gaps s'). rewrite (fr_gaps _ _ F1). symmetry. exact Hg.
  - intros i Hi. change (cut_blocks (publishedCut now payload s1)) with (wr_blocks s1).
    destruct (commitShards_held _ _ _ _ Hinv Hheld Hcommit) as [sealed Hst].
    assert (stored log sealed (s1 <| wr_disk := wr_disk s' |>)) as Hst'.
    { eapply stored_frame; [exact Hst|try done..]. intros. by apply Hother. }
    pose proof (ct_shards _ _ (wi_counts _ _ _ _ I1)) as Hsh. rewrite (fr_config _ _ F1), Hcfg in Hsh.
    change (cf_shardCount (config <| cf_sources := [] |>)) with (cf_shardCount config) in Hsh.
    destruct (wr_segments s1 !! Z.to_nat i) as [g|] eqn:Eg; [|apply lookup_ge_None in Eg; unfold size in Hsh; lia].
    destruct (st_holds _ _ _ Hst' _ _ Eg) as (batches & opened & Hh). rewrite Z2Nat.id in Hh by lia.
    destruct (st_ordered _ _ _ Hst' _ _ Eg) as (Hc & _). rewrite Z2Nat.id in Hc by lia.
    eapply shard_stored; [exact Hh|by eapply chain_fits| |].
    + destruct (winv_totals _ _ _ _ I1 ltac:(lia) ltac:(lia)) as (_ & _ & _ & _ & Ts).
      destruct (Ts _ _ Eg) as [Tp _]. rewrite P1 in Tp. unfold size in Tp. destruct (sg_pending g); [done|cbn in Tp; lia].
    + intros Ho. eapply (commitShards_stream _ _ _ _ _ Hcommit Eg Ho). left. apply elem_of_seq.
      apply lookup_lt_Some in Eg. assert (length (wr_segments s1) = length (wr_segments s)) as <-; [|lia].
      pose proof (ct_shards _ _ (wi_counts _ _ _ _ Hinv)) as Hsh0. rewrite Hcfg in Hsh0. unfold size in *.
      change (cf_shardCount (config <| cf_sources := [] |>)) with (cf_shardCount config) in Hsh0. lia.
Qed.

End blocks.

(** ** Witness *)

Section samples.
Import Stored.
Lemma published_cut_readable_witness : exists cut content,
  pub_latest (wr_publication publishedState) = Some cut /\
  w_files (wr_disk publishedState) (RootFile "cut.bin") = Some content /\ size content <= cf_maximumBytes sampleConfig /\
  (forall maximum, size content <= maximum ->
     readCorpusCut (w_files (wr_disk publishedState)) maximum = (Ok, Some cut)) /\
  mf_recordCount (cut_manifest cut) = size [sampleTrade] /\ blockRecords (cut_blocks cut) = size [sampleTrade] /\
  cut_sources cut = wr_sources publishedState /\ cut_gaps cut = wr_gaps publishedState /\
  forall i, 0 <= i < cf_shardCount sampleConfig -> exists parts,
    Forall2 (blockStored (w_files (wr_disk publishedState))) (blocksOf i (cut_blocks cut)) parts /\
    concat parts = ofShard i [sampleTrade].
Proof.
  exact (published_cut_readable sampleConfig appendedState [sampleTrade] 77 publishedState
    sampleRun ltac:(mlia) ltac:(lia) sample_published).
Defined.
End samples.
