(* ===== verification/ServiceProtocol.v ===== *)
(** * ServiceProtocol: the control protocol of the recorder service

    Models src/src/Service/src/RecorderServiceProtocol.hpp, the data of
    Service/include/hftrec/Service/RecorderService.hpp, the replies of [handle] and [poll] in
    RecorderServiceServer.cpp and their decoding in RecorderServiceClient.cpp.  A message is
    one packet of a local socket; strings and paths are lists of bytes.

    An encoder and a decoder carry a flag that turns false for good when something does not
    fit or is not there, as in the source. *)
From stdpp Require Import base list numbers strings.
From S2P Require Import Prelude Codec Layout Format DepthTransaction Disk Metadata BlockCodec Cut Segment ActiveCursor.
Local Open Scope Z_scope.
Abbreviation size xs := (Z.of_nat (length xs)).

Definition kRecorderServiceMaximumMessage : Z := 256 * 1024.
Definition kRecorderServiceMaximumBlockChunk : Z := 64 * 1024.
Definition kMagic : Z := 0x53524348.

Module Operation.
Definition Configure : Z := 1.
Definition Start : Z := 2.
Definition Stop : Z := 3.
Definition Status : Z := 4.
Definition Catalog : Z := 5.
Definition Block : Z := 6.
Definition Sessions : Z := 7.
Definition SessionSources : Z := 8.
End Operation.

(** ** Data *)

Record RecorderVenue := MkRecorderVenue {
  ve_exchange : list Z;
  ve_market : list Z;
  ve_instruments : list (list Z);
  ve_fullUniverse : bool;
}.
Record RecorderServiceConfig := MkRecorderServiceConfig {
  sc_workspaceRoot : list Z;
  sc_parserTemplate : list Z;
  sc_envPath : list Z;
  sc_outputRoot : list Z;
  sc_venues : list RecorderVenue;
  sc_channelMask : Z;
  sc_durationSec : Z;
  sc_maximumBytes : Z;
  sc_segmentBytes : Z;
  sc_retainedCompressedBytes : Z;
  sc_maximumReferenceBytes : Z;
  sc_writerQueueRecords : Z;
}.
Record RecorderServiceStatus := MkRecorderServiceStatus {
  ss_configured : bool;
  ss_active : bool;
  ss_connected : bool;
  ss_complete : bool;
  ss_stopping : bool;
  ss_selectionPending : bool;
  ss_captureStatus : Status;
  ss_producerEpoch : Z;
  ss_lossEpoch : Z;
  ss_cutGeneration : Z;
  ss_safeMonotonicNs : Z;
  ss_records : Z;
  ss_gaps : Z;
  ss_projectedBytes : Z;
  ss_sourceCount : Z;
  ss_startedReceiveNs : Z;
  ss_startedMonotonicNs : Z;
  ss_sessionPath : list Z;
  ss_sourceIdentity : list Z;
  ss_error : list Z;
}.
Record RecorderCatalog := MkRecorderCatalog {
  ca_cutGeneration : Z;
  ca_totalSources : Z;
  ca_nextOffset : Z;
  ca_sources : list BinaryMarketSource;
}.
Record RecorderSessionEntry := MkRecorderSessionEntry {
  en_sourcePath : list Z;
  en_sourceIdentity : list Z;
  en_producerEpoch : Z;
  en_cutGeneration : Z;
  en_startedReceiveNs : Z;
  en_endedReceiveNs : Z;
  en_sourceCount : Z;
  en_active : bool;
  en_complete : bool;
}.
Record RecorderSessionCatalog := MkRecorderSessionCatalog {
  sl_totalSessions : Z;
  sl_nextOffset : Z;
  sl_sessions : list RecorderSessionEntry;
}.
Record RecorderBlockChunk := MkRecorderBlockChunk {
  bc_cutGeneration : Z;
  bc_totalBytes : Z;
  bc_offset : Z;
  bc_archiveFallback : bool;
  bc_available : bool;
  bc_subscriberLag : bool;
  bc_range : CorpusBlockRange;
  bc_bytes : list Z;
}.

(** The enumeration [Status], an [int]. *)
Definition statusCode (status : Status) : Z :=
  match status with
  | Ok => 0 | InvalidArgument => 1 | IoError => 2 | OutOfRange => 3
  | CorruptData => 4 | Unimplemented => 5 | Cancelled => 6 | Unknown => 7
  end.
Definition statusOf (code : Z) : option Status :=
  match code with
  | 0 => Some Ok | 1 => Some InvalidArgument | 2 => Some IoError | 3 => Some OutOfRange
  | 4 => Some CorruptData | 5 => Some Unimplemented | 6 => Some Cancelled | 7 => Some Unknown
  | _ => None
  end.

(** ** Encoder *)

Record Encoder := MkEncoder { out_bytes : list Z; out_valid : bool }.
#[export] Instance Encoder_eta : Eta Encoder := fun r => MkEncoder (out_bytes r) (out_valid r).
Definition newEncoder : Encoder := MkEncoder [] true.

Definition putPod {A} (l : layout A) (value : A) (e : Encoder) : Encoder :=
  if u64 (kRecorderServiceMaximumMessage - size (out_bytes e)) <? sizeofz l then e <| out_valid := false |>
  else e <| out_bytes ::= fun bytes => bytes ++ obj l value |>.
Definition putString (value : list Z) (maximum : Z) (e : Encoder) : Encoder :=
  if (maximum <? size value) || bool_decide (0 ∈ value) ||
     (u64 (kRecorderServiceMaximumMessage - size (out_bytes e)) <? size value + 4)
  then e <| out_valid := false |>
  else putPod l_u32 (u32 (size value)) e <| out_bytes ::= fun bytes => bytes ++ value |>.
Definition putPath (value : list Z) (e : Encoder) : Encoder := putString value 4096 e.
Definition putBoolean (value : bool) (e : Encoder) : Encoder := putPod l_u8 (Z.b2z value) e.

(** ** Decoder *)

(** [in_rest] is what follows the position. *)
Record Decoder := MkDecoder { in_rest : list Z; in_valid : bool }.
#[export] Instance Decoder_eta : Eta Decoder := fun r => MkDecoder (in_rest r) (in_valid r).
Definition newDecoder (bytes : list Z) : Decoder := MkDecoder bytes true.

(** A value is left as it was, at its default, when it cannot be read. *)
Definition getPod {A} (l : layout A) (initial : A) (d : Decoder) : A * Decoder :=
  if negb (in_valid d) || (size (in_rest d) <? sizeofz l) then (initial, d <| in_valid := false |>)
  else (view l (in_rest d), d <| in_rest ::= drop (sizeof l) |>).
Definition getString (maximum : Z) (d : Decoder) : list Z * Decoder :=
  let '(count, d) := getPod l_u32 0 d in
  if negb (in_valid d) || (maximum <? count) || (size (in_rest d) <? count) then ([], d <| in_valid := false |>)
  else
    let value := take (Z.to_nat count) (in_rest d) in
    let d := d <| in_rest ::= drop (Z.to_nat count) |> in
    (value, if bool_decide (0 ∈ value) then d <| in_valid := false |> else d).
Definition getPath (d : Decoder) : list Z * Decoder :=
  let '(text, d) := getString 4096 d in (if in_valid d then text else [], d).
Definition getBoolean (d : Decoder) : bool * Decoder :=
  let '(flag, d) := getPod l_u8 0 d in
  (negb (flag =? 0), if 1 <? flag then d <| in_valid := false |> else d).
Definition done (d : Decoder) : bool := in_valid d && bool_decide (in_rest d = []).

Notation "'get' x ':=' g 'from' d 'in' k" := (let '(x, d) := g d in k)
  (at level 10, x name, d name, g at level 99, k at level 200).
(** A loop over a vector of the given length. *)
Fixpoint getList {A} (item : Decoder -> A * Decoder) (count : nat) (d : Decoder) : list A * Decoder :=
  match count with
  | O => ([], d)
  | S count => get x := item from d in get xs := (getList item count) from d in (x :: xs, d)
  end.

(** ** Configuration *)

Definition putVenue (venue : RecorderVenue) (e : Encoder) : bool * Encoder :=
  let e := putBoolean (ve_fullUniverse venue) (putString (ve_market venue) 48 (putString (ve_exchange venue) 48 e)) in
  if 4096 <? size (ve_instruments venue) then (false, e <| out_valid := false |>)
  else
    (true, fold_left (fun e symbol => putString symbol 128 e) (ve_instruments venue)
             (putPod l_u32 (u32 (size (ve_instruments venue))) e)).
Fixpoint putVenues (venues : list RecorderVenue) (e : Encoder) : Encoder :=
  match venues with
  | [] => e
  | venue :: venues => let '(more, e) := putVenue venue e in if more then putVenues venues e else e
  end.
Definition encodeConfig (config : RecorderServiceConfig) (e : Encoder) : Encoder :=
  let e := putPath (sc_workspaceRoot config) e in
  let e := putPath (sc_parserTemplate config) e in
  let e := putPath (sc_envPath config) e in
  let e := putPath (sc_outputRoot config) e in
  let e := putPod l_u16 (sc_channelMask config) e in
  let e := putPod l_u64 (sc_durationSec config) e in
  let e := putPod l_u64 (sc_maximumBytes config) e in
  let e := putPod l_u64 (sc_segmentBytes config) e in
  let e := putPod l_u64 (sc_retainedCompressedBytes config) e in
  let e := putPod l_u64 (sc_maximumReferenceBytes config) e in
  let e := putPod l_u32 (sc_writerQueueRecords config) e in
  if (length (sc_venues config) =? 0)%nat || (64 <? size (sc_venues config)) then e <| out_valid := false |>
  else putVenues (sc_venues config) (putPod l_u32 (u32 (size (sc_venues config))) e).

Definition emptyVenue : RecorderVenue := MkRecorderVenue [] [] [] false.
(** The loop over the venues; a bad count returns from [decodeConfig]. *)
Fixpoint getVenues (count : nat) (d : Decoder) : list RecorderVenue * Decoder :=
  match count with
  | O => ([], d)
  | S count =>
      get exchange := (getString 48) from d in
      get market := (getString 48) from d in
      get fullUniverse := getBoolean from d in
      get instruments := (getPod l_u32 0) from d in
      if negb (in_valid d) || (4096 <? instruments)
      then (MkRecorderVenue exchange market [] fullUniverse :: replicate count emptyVenue, d <| in_valid := false |>)
      else
        get symbols := (getList (getString 128) (Z.to_nat instruments)) from d in
        get venues := (getVenues count) from d in
        (MkRecorderVenue exchange market symbols fullUniverse :: venues, d)
  end.
Definition decodeConfig (d : Decoder) : RecorderServiceConfig * Decoder :=
  get workspaceRoot := getPath from d in
  get parserTemplate := getPath from d in
  get envPath := getPath from d in
  get outputRoot := getPath from d in
  get channelMask := (getPod l_u16 7) from d in
  get durationSec := (getPod l_u64 3600) from d in
  get maximumBytes := (getPod l_u64 (1024 * 1024 * 1024)) from d in
  get segmentBytes := (getPod l_u64 (64 * 1024 * 1024)) from d in
  get retainedCompressedBytes := (getPod l_u64 (16 * 1024 * 1024)) from d in
  get maximumReferenceBytes := (getPod l_u64 (64 * 1024 * 1024)) from d in
  get writerQueueRecords := (getPod l_u32 8192) from d in
  get count := (getPod l_u32 0) from d in
  let config venues := MkRecorderServiceConfig workspaceRoot parserTemplate envPath outputRoot venues channelMask
    durationSec maximumBytes segmentBytes retainedCompressedBytes maximumReferenceBytes writerQueueRecords in
  if negb (in_valid d) || (count =? 0) || (64 <? count) then (config [], d <| in_valid := false |>)
  else get venues := (getVenues (Z.to_nat count)) from d in (config venues, d).

(** ** Status *)

Definition encodeStatus (value : RecorderServiceStatus) (e : Encoder) : Encoder :=
  let e := fold_left (fun e flag => putBoolean flag e)
    [ss_configured value; ss_active value; ss_connected value; ss_complete value; ss_stopping value;
     ss_selectionPending value] e in
  let e := putPod l_u32 (statusCode (ss_captureStatus value)) e in
  let e := putPod l_u64 (ss_producerEpoch value) e in
  let e := putPod l_u64 (ss_lossEpoch value) e in
  let e := putPod l_u64 (ss_cutGeneration value) e in
  let e := putPod l_u64 (ss_safeMonotonicNs value) e in
  let e := putPod l_u64 (ss_records value) e in
  let e := putPod l_u64 (ss_gaps value) e in
  let e := putPod l_u64 (ss_projectedBytes value) e in
  let e := putPod l_u32 (ss_sourceCount value) e in
  let e := putPod l_i64 (ss_startedReceiveNs value) e in
  let e := putPod l_u64 (ss_startedMonotonicNs value) e in
  let e := putPath (ss_sessionPath value) e in
  let e := putString (ss_sourceIdentity value) 4096 e in
  putString (ss_error value) 4096 e.
(** The status is checked after everything was read. *)
Definition decodeStatus (d : Decoder) : RecorderServiceStatus * Decoder :=
  get configured := getBoolean from d in
  get active := getBoolean from d in
  get connected := getBoolean from d in
  get complete := getBoolean from d in
  get stopping := getBoolean from d in
  get selectionPending := getBoolean from d in
  get code := (getPod l_u32 0) from d in
  get producerEpoch := (getPod l_u64 0) from d in
  get lossEpoch := (getPod l_u64 0) from d in
  get cutGeneration := (getPod l_u64 0) from d in
  get safeMonotonicNs := (getPod l_u64 0) from d in
  get records := (getPod l_u64 0) from d in
  get gaps := (getPod l_u64 0) from d in
  get projectedBytes := (getPod l_u64 0) from d in
  get sourceCount := (getPod l_u32 0) from d in
  get startedReceiveNs := (getPod l_i64 0) from d in
  get startedMonotonicNs := (getPod l_u64 0) from d in
  get sessionPath := getPath from d in
  get sourceIdentity := (getString 4096) from d in
  get error := (getString 4096) from d in
  (MkRecorderServiceStatus configured active connected complete stopping selectionPending
     (default Unknown (statusOf code)) producerEpoch lossEpoch cutGeneration safeMonotonicNs records gaps
     projectedBytes sourceCount startedReceiveNs startedMonotonicNs sessionPath sourceIdentity error,
   if bool_decide (statusOf code = None) then d <| in_valid := false |> else d).

(** ** Packets *)

Record Header := MkHeader { hd_magic : Z; hd_size : Z; hd_operation : Z; hd_padding : list Z; hd_reserved : Z }.
Definition l_Header : layout Header :=
  l_iso (fun h => (hd_magic h, hd_size h, hd_operation h, hd_padding h, hd_reserved h))
    (fun '(magic, size, operation, padding, reserved) => MkHeader magic size operation padding reserved)
    ltac:(abstract struct_iso) ltac:(abstract struct_iso) (l_u32 ** l_u32 ** l_u16 ** l_raw 2 ** l_u32)%layout.

(** The empty packet stands for a message that cannot be sent. *)
Definition packet (operation : Z) (payload : Encoder) : list Z :=
  if negb (out_valid payload) || (kRecorderServiceMaximumMessage - sizeofz l_Header <? size (out_bytes payload)) then []
  else obj l_Header (MkHeader kMagic (u32 (size (out_bytes payload))) operation [0; 0] 0) ++ out_bytes payload.
Definition parsePacket (bytes : list Z) : option (Z * list Z) :=
  if size bytes <? sizeofz l_Header then None
  else
    let header := view l_Header bytes in
    if negb (hd_magic header =? kMagic) || negb (hd_reserved header =? 0) ||
       negb (hd_size header =? size bytes - sizeofz l_Header) || (hd_operation header <? Operation.Configure) ||
       (Operation.SessionSources <? hd_operation header)
    then None
    else Some (hd_operation header, drop (sizeof l_Header) bytes).

(** The status of a reply, its error text and its body. *)
Definition decodeReply (bytes : list Z) (expected : Z) : Status * list Z * list Z :=
  match parsePacket bytes with
  | Some (operation, payload) =>
      if negb (operation =? expected) then
        (CorruptData, bytes_of_string "Recorder reply framing or operation rejected", [])
      else
        let '(code, d) := getPod l_u32 0 (newDecoder payload) in
        get error := (getString 4096) from d in
        match statusOf code with
        | Some status =>
            if negb (in_valid d) || (negb (isOk status) && negb (done d)) then
              (CorruptData, bytes_of_string "Recorder reply status envelope rejected", [])
            else (status, error, if isOk status then in_rest d else [])
        | None => (CorruptData, bytes_of_string "Recorder reply status envelope rejected", [])
        end
  | None => (CorruptData, bytes_of_string "Recorder reply framing or operation rejected", [])
  end.

(** ** The server *)

(** What [handle] answers: a status, a refusal text and a body. *)
Definition Answer : Type := Status * list Z * Encoder.
Definition answer (status : Status) : Answer := (status, [], newEncoder).

(** A page of sources: [Catalog], and the end of [SessionSources]. *)
Definition sourcePage (generation : Z) (sources : list BinaryMarketSource) (offset limit : Z) : Answer :=
  let total := u32 (size sources) in
  if total <? offset then answer OutOfRange
  else
    let count := Z.min limit (total - offset) in
    let e := putPod l_u32 count (putPod l_u32 (u32 (offset + count)) (putPod l_u32 total (putPod l_u64 generation newEncoder))) in
    (Ok, [], fold_left (fun e source => putPod l_BinaryMarketSource source e)
               (take (Z.to_nat count) (drop (Z.to_nat offset) sources)) e).
Definition handleCatalog (cut : option CorpusCut) (payload : list Z) : Answer :=
  let '(offset, d) := getPod l_u32 0 (newDecoder payload) in
  get limit := (getPod l_u32 0) from d in
  if negb (done d) || (limit =? 0) || (256 <? limit) then answer InvalidArgument
  else sourcePage (default 0 (cut_generation <$> cut)) (default [] (cut_sources <$> cut)) offset limit.

Definition handleBlock `{CxetMarket} `{ByteBlockCodec} (publication : option CorpusPublication) (latest : option CorpusCut) (payload : list Z) : Answer :=
  let '(generation, d) := getPod l_u64 0 (newDecoder payload) in
  get index := (getPod l_u32 0) from d in
  get offset := (getPod l_u32 0) from d in
  get maximum := (getPod l_u32 0) from d in
  if negb (done d) || (maximum =? 0) || (kRecorderServiceMaximumBlockChunk <? maximum) then answer InvalidArgument
  else
    let unavailable : Answer :=
      (OutOfRange, bytes_of_string "Recorder cut generation or block is unavailable; refresh the durable cut", newEncoder) in
    match latest with
    | None => unavailable
    | Some cut =>
        match cut_blocks cut !! Z.to_nat index with
        | None => unavailable
        | Some range =>
            if negb (generation =? 0) && negb (generation =? cut_generation cut) then unavailable
            else
              let '(status, (available, bytes)) := readCorpusRetainedCompressedBlock publication cut (Z.to_nat index) in
              if negb (isOk status) then answer status
              else
                let total := sizeofz l_BinaryMarketBlockHeader + bh_encodedBytes (rg_header range) in
                if (total <? offset) || (available && negb (size bytes =? total)) then answer CorruptData
                else
                  let count := if available then Z.min maximum (total - offset) else 0 in
                  let e := putPod l_u32 offset (putPod l_u64 total (putPod l_u64 (cut_generation cut) newEncoder)) in
                  let e := putBoolean (negb available) (putBoolean available (putBoolean false e)) in
                  let e := putPod l_u32 count (putPod l_CorpusBlockRange range e) in
                  (Ok, [], e <| out_bytes ::= fun out => out ++ take (Z.to_nat count) (drop (Z.to_nat offset) bytes) |>)
        end
    end.
Definition putSession (e : Encoder) (value : RecorderSessionEntry) : Encoder :=
  let e := putString (en_sourceIdentity value) 4096 (putPath (en_sourcePath value) e) in
  let e := putPod l_u64 (en_cutGeneration value) (putPod l_u64 (en_producerEpoch value) e) in
  let e := putPod l_i64 (en_endedReceiveNs value) (putPod l_i64 (en_startedReceiveNs value) e) in
  putBoolean (en_complete value) (putBoolean (en_active value) (putPod l_u32 (en_sourceCount value) e)).
(** The entries are those [sessionEntries] found below the archive root. *)
Definition handleSessions (entries : list RecorderSessionEntry) (payload : list Z) : Answer :=
  let '(offset, d) := getPod l_u32 0 (newDecoder payload) in
  get limit := (getPod l_u32 0) from d in
  if negb (done d) || (limit =? 0) || (64 <? limit) then answer InvalidArgument
  else
    let total := u32 (size entries) in
    if total <? offset then answer OutOfRange
    else
      let count := Z.min limit (total - offset) in
      let e := putPod l_u32 count (putPod l_u32 (u32 (offset + count)) (putPod l_u32 total newEncoder)) in
      (Ok, [], fold_left putSession (take (Z.to_nat count) (drop (Z.to_nat offset) entries)) e).

(** The reply [poll] sends; the peer is dropped when it is empty. *)
Definition reply (operation : Z) (result : Answer) : list Z :=
  let '(status, refusal, body) := result in
  let e := putString refusal 4096 (putPod l_u32 (statusCode status) newEncoder) in
  let e := if isOk status then e <| out_bytes ::= fun bytes => bytes ++ out_bytes body |> else e in
  packet operation (e <| out_valid ::= fun valid => valid && out_valid body |>).

(** What the server answers from: its status, the latest cut with the retained blocks, and
    the sessions of the archive. *)
Record ServiceView := MkServiceView {
  sv_status : RecorderServiceStatus;
  sv_cut : option CorpusCut;
  sv_publication : option CorpusPublication;
  sv_entries : list RecorderSessionEntry;
}.
(** The dispatch of [handle]; [control] stands for the operations that change the capture
    (Configure, Start, Stop) or open an archive (SessionSources). *)
Definition handle `{CxetMarket} `{ByteBlockCodec} (control : Z -> list Z -> Answer) (view : ServiceView)
    (operation : Z) (payload : list Z) : Answer :=
  if operation =? Operation.Status then
    if negb (done (newDecoder payload)) then answer InvalidArgument
    else (Ok, [], encodeStatus (sv_status view) newEncoder)
  else if operation =? Operation.Catalog then handleCatalog (sv_cut view) payload
  else if operation =? Operation.Block then handleBlock (sv_publication view) (sv_cut view) payload
  else if operation =? Operation.Sessions then handleSessions (sv_entries view) payload
  else control operation payload.
(** One packet of [poll]; [None] drops the peer. *)
Definition serve `{CxetMarket} `{ByteBlockCodec} (control : Z -> list Z -> Answer) (view : ServiceView)
    (request : list Z) : option (list Z) :=
  '(operation, payload) ← parsePacket request;
  let response := reply operation (handle control view operation payload) in
  if bool_decide (response = []) then None else Some response.

(** ** The client *)

(** The common end: the answer of [exchange], or what the body decodes to. *)
Definition withBody {A} (empty : A) (operation : Z) (bytes : list Z) (decode : list Z -> Status * A) : Status * A :=
  let '(status, _, body) := decodeReply bytes operation in
  if negb (isOk status) then (status, empty) else decode body.
Definition emptyCatalog : RecorderCatalog := MkRecorderCatalog 0 0 0 [].
(** Sources must be valid at their position. *)
Fixpoint getSources (count : nat) (position : Z) (d : Decoder) : list BinaryMarketSource * Decoder :=
  match count with
  | O => ([], d)
  | S count =>
      get source := (getPod l_BinaryMarketSource (view l_BinaryMarketSource (replicate (sizeof l_BinaryMarketSource) 0))) from d in
      let d := if negb (validBinaryMarketSource source position) then d <| in_valid := false |> else d in
      get sources := (getSources count (position + 1)) from d in (source :: sources, d)
  end.
Definition decodeSources (offset limit : Z) (body : list Z) : Status * RecorderCatalog :=
  let '(cutGeneration, d) := getPod l_u64 0 (newDecoder body) in
  get totalSources := (getPod l_u32 0) from d in
  get nextOffset := (getPod l_u32 0) from d in
  get count := (getPod l_u32 0) from d in
  if negb (in_valid d) || (256 <? count) || (limit <? count)
  then (CorruptData, MkRecorderCatalog cutGeneration totalSources nextOffset [])
  else
    get sources := (getSources (Z.to_nat count) offset) from d in
    (if negb (done d) || (totalSources <? nextOffset) then CorruptData else Ok,
     MkRecorderCatalog cutGeneration totalSources nextOffset sources).
Definition clientCatalog (offset limit : Z) (bytes : list Z) : Status * RecorderCatalog :=
  withBody emptyCatalog Operation.Catalog bytes (decodeSources offset limit).

Definition emptyChunk : RecorderBlockChunk :=
  MkRecorderBlockChunk 0 0 0 false false false (view l_CorpusBlockRange (replicate (sizeof l_CorpusBlockRange) 0)) [].
Definition decodeChunk (offset maximum : Z) (body : list Z) : Status * RecorderBlockChunk :=
  let '(cutGeneration, d) := getPod l_u64 0 (newDecoder body) in
  get totalBytes := (getPod l_u64 0) from d in
  get offset' := (getPod l_u32 0) from d in
  get archiveFallback := getBoolean from d in
  get available := getBoolean from d in
  get subscriberLag := getBoolean from d in
  get range := (getPod l_CorpusBlockRange (bc_range emptyChunk)) from d in
  get count := (getPod l_u32 0) from d in
  let chunk bytes := MkRecorderBlockChunk cutGeneration totalBytes offset' archiveFallback available subscriberLag range bytes in
  if negb (in_valid d) || (kRecorderServiceMaximumBlockChunk <? count) || (maximum <? count) || (size (in_rest d) <? count) ||
     negb (offset' =? offset) || (totalBytes <? offset') || (totalBytes - offset' <? count) ||
     (negb available && negb (count =? 0)) || Bool.eqb subscriberLag available
  then (CorruptData, chunk [])
  else
    let bytes := take (Z.to_nat count) (in_rest d) in
    let d := d <| in_rest ::= drop (Z.to_nat count) |> in
    (if negb (done d) then CorruptData else Ok, chunk bytes).
Definition clientReadBlock (offset maximum : Z) (bytes : list Z) : Status * RecorderBlockChunk :=
  withBody emptyChunk Operation.Block bytes (decodeChunk offset maximum).

Definition getSession (d : Decoder) : RecorderSessionEntry * Decoder :=
  get sourcePath := getPath from d in
  get sourceIdentity := (getString 4096) from d in
  get producerEpoch := (getPod l_u64 0) from d in
  get cutGeneration := (getPod l_u64 0) from d in
  get startedReceiveNs := (getPod l_i64 0) from d in
  get endedReceiveNs := (getPod l_i64 0) from d in
  get sourceCount := (getPod l_u32 0) from d in
  get active := getBoolean from d in
  get complete := getBoolean from d in
  (MkRecorderSessionEntry sourcePath sourceIdentity producerEpoch cutGeneration startedReceiveNs endedReceiveNs
     sourceCount active complete, d).
Definition decodeSessions (limit : Z) (body : list Z) : Status * RecorderSessionCatalog :=
  let '(totalSessions, d) := getPod l_u32 0 (newDecoder body) in
  get nextOffset := (getPod l_u32 0) from d in
  get count := (getPod l_u32 0) from d in
  if negb (in_valid d) || (64 <? count) || (limit <? count) || (totalSessions <? nextOffset)
  then (CorruptData, MkRecorderSessionCatalog totalSessions nextOffset [])
  else
    get sessions := (getList getSession (Z.to_nat count)) from d in
    (if negb (done d) then CorruptData else Ok, MkRecorderSessionCatalog totalSessions nextOffset sessions).
Definition clientSessions (limit : Z) (bytes : list Z) : Status * RecorderSessionCatalog :=
  withBody (MkRecorderSessionCatalog 0 0 []) Operation.Sessions bytes (decodeSessions limit).
Definition clientStatus (bytes : list Z) : Status * option RecorderServiceStatus :=
  withBody None Operation.Status bytes (fun body =>
    let '(value, d) := decodeStatus (newDecoder body) in
    if negb (done d) then (CorruptData, Some value) else (Ok, Some value)).

(** ** Requests *)

Definition requestPage (offset limit : Z) : Encoder := putPod l_u32 limit (putPod l_u32 offset newEncoder).
Definition requestBlock (generation index offset maximum : Z) : Encoder :=
  putPod l_u32 maximum (putPod l_u32 offset (putPod l_u32 index (putPod l_u64 generation newEncoder))).
