(* ===== verification/ActiveRun.v ===== *)
(** * ActiveRun: what a live cursor releases

    Runs of [CorpusActiveCursor] under arbitrary environments: the files, the
    publication and the feed may hold anything at every call.  Each shard
    releases exactly the rows of its blocks from the requested begin on, once and
    in order, across refreshes; the end means that nothing is missing; and if the
    producer keeps its promise on committed prefixes, the records of all shards
    come in one strictly ordered sequence. *)
From stdpp Require Import base list numbers strings sorting.
From S2P Require Import Prelude Codec Layout Format DepthTransaction Disk Metadata BlockCodec Cut Segment.
From S2P Require Import Least ReaderLoops ReaderMerge ActiveCursor.
Import Crc32c.
Local Open Scope Z_scope.

Section runs.
Context `{CxetMarket} `{ByteBlockCodec}.

Abbreviation seqOf row := (h_shardSequence (rec_header row)).
Abbreviation timeOf row := (h_receiveMonotonicNs (rec_header row)).

(** ** Rows of one shard *)

(** Later in the same shard. *)
Definition laterInShard (a b : BinaryMarketRecord) : Prop := seqOf a < seqOf b /\ timeOf a <= timeOf b.
#[local] Instance later_trans : Transitive laterInShard.
Proof. intros a b c [] []. split; lia. Qed.

(** Rows of shard [i] in arrival order after the fences [ps] and [pt]. *)
Fixpoint arrives (i : nat) (ps pt : Z) (rows : list BinaryMarketRecord) : Prop :=
  match rows with
  | [] => True
  | row :: rows => goodRow (Z.of_nat i) row /\ (ps = 0 \/ ps < seqOf row) /\
      (pt = 0 \/ pt <= timeOf row) /\ arrives i (seqOf row) (timeOf row) rows
  end.

Lemma arrives_app i a b : forall ps pt,
  arrives i ps pt (a ++ b) <->
  arrives i ps pt a /\ arrives i (lastSequence ps a) (lastMonotonic pt a) b.
Proof.
  induction a as [|row a IH]; intros ps pt; cbn [app arrives]; [cbn; tauto|].
  rewrite IH, lastSequence_cons, lastMonotonic_cons. tauto.
Qed.

Lemma arrives_later i rows : forall ps pt, arrives i ps pt rows -> StronglySorted laterInShard rows.
Proof.
  intros ps pt Ha. apply Sorted_StronglySorted; [apply _|]. revert ps pt Ha.
  induction rows as [|row rows IH]; intros ps pt; cbn; [constructor|].
  intros ([Hv _] & _ & _ & Ha). constructor; [by eapply IH|].
  destruct rows as [|r rows]; constructor. cbn in Ha. destruct Ha as (_ & Hs & Ht & _).
  destruct (valid_row_fences _ Hv) as (Hs0 & Ht0 & _). split; lia.
Qed.

Lemma arrives_good i rows : forall ps pt, arrives i ps pt rows -> Forall (goodRow (Z.of_nat i)) rows.
Proof.
  induction rows as [|row rows IH]; intros ps pt; cbn; [done|].
  intros (Hg & _ & _ & Ha). constructor; [done|by eapply IH].
Qed.

Lemma activeRows_arrives i sources channel rows : forall ps pt ps' pt',
  activeRows i sources channel rows ps pt = Some (ps', pt') ->
  arrives i ps pt rows /\ ps' = lastSequence ps rows /\ pt' = lastMonotonic pt rows.
Proof.
  induction rows as [|row rows IH]; intros ps pt ps' pt'; cbn [activeRows arrives];
    [by intros [= <- <-]|].
  destruct (activeRowInvalid _ _ _ _ _ row) eqn:E; [done|].
  intros (Ha & -> & ->)%IH. rewrite lastSequence_cons, lastMonotonic_cons.
  split; [|done]. unfold activeRowInvalid in E. bsplit.
  repeat match goal with Hx : _ && _ = false |- _ => apply andb_false_iff in Hx end.
  split; [by split|]. split_and!; [| |done].
  all: match goal with Hx : _ \/ _ |- _ \/ _ < _ => destruct Hx | Hx : _ \/ _ |- _ \/ _ <= _ => destruct Hx end;
    bsplit; auto; lia.
Qed.

(** Skipping the rows before [begin] keeps those from it on. *)
Definition fromBegin (begin : Z) : list BinaryMarketRecord -> list BinaryMarketRecord :=
  List.filter (fun row => begin <=? timeOf row).

Lemma skipEarly_filter begin rows : StronglySorted laterInShard rows ->
  drop (skipEarly begin rows) rows = fromBegin begin rows.
Proof.
  unfold fromBegin. induction 1 as [|row rows Hs IH Hall]; [done|]. cbn [skipEarly List.filter].
  destruct (Z.ltb_spec (timeOf row) begin) as [Hlt|Hge].
  - destruct (Z.leb_spec begin (timeOf row)); [lia|]. exact IH.
  - destruct (Z.leb_spec begin (timeOf row)); [|lia]. cbn [drop]. f_equal.
    symmetry. apply forallb_filter_id, forallb_forall. intros r Hr.
    rewrite List.Forall_forall in Hall. destruct (Hall r Hr). apply Z.leb_le. lia.
Qed.

(** ** What a shard has consumed *)

(** [rows] were decoded from bytes that match the block the cut names; the name of a
    block is its place and its header. *)
Definition blockRows (range : CorpusBlockRange) (rows : list BinaryMarketRecord) : Prop :=
  exists origin encoded, blockMoved origin range = false /\
    activeRangeInvalid origin = false /\ decodeRange origin encoded = Some rows.

Definition blocksOf (i : nat) (blocks : list CorpusBlockRange) : list CorpusBlockRange :=
  List.filter (fun range => rg_shardIndex range =? Z.of_nat i) blocks.
Definition rowsOf (i : nat) (rows : list BinaryMarketRecord) : list BinaryMarketRecord :=
  List.filter (fun row => h_shardIndex (rec_header row) =? Z.of_nat i) rows.

Definition pendingRows (shard : ActiveShard) : list BinaryMarketRecord :=
  drop (as_position shard) (as_decoded shard).

Record consumed (begin : Z) (blocks : list CorpusBlockRange) (i : nat) (shard : ActiveShard)
  (released : list BinaryMarketRecord) (history : list (list BinaryMarketRecord)) : Prop := {
  cn_blocks : Forall2 blockRows (blocksOf i (take (as_block shard) blocks)) history;
  cn_rows : released ++ pendingRows shard = fromBegin begin (concat history);
  cn_order : arrives i 0 0 (concat history);
  cn_sequence : as_previousSequence shard = lastSequence 0 (concat history);
  cn_time : as_previousTime shard = lastMonotonic 0 (concat history);
  cn_count : as_count shard = length (as_decoded shard);
  cn_ready : as_ready shard = true -> (as_position shard < as_count shard)%nat;
  cn_bound : (as_block shard <= length blocks)%nat;
}.

Lemma consumed_empty begin blocks i : consumed begin blocks i activeShard0 [] [].
Proof. split; try done; cbn; lia. Qed.

Lemma blocksOf_snoc i blocks n range : blocks !! n = Some range ->
  blocksOf i (take (S n) blocks) =
  blocksOf i (take n blocks) ++ (if rg_shardIndex range =? Z.of_nat i then [range] else []).
Proof.
  intros Hn. rewrite (take_S_r _ _ _ Hn). unfold blocksOf. rewrite List.filter_app. cbn.
  by destruct (_ =? _).
Qed.

Lemma fromBegin_app begin a b : fromBegin begin (a ++ b) = fromBegin begin a ++ fromBegin begin b.
Proof. apply List.filter_app. Qed.

(** What fetching a block leaves alone. *)
Definition sameActive (s t : ActiveState) : Prop :=
  ac_cut t = ac_cut s /\ ac_shards t = ac_shards s /\ ac_begin t = ac_begin s.

Lemma fromArchive_same env range state encoded state' :
  fromArchive env range state = (encoded, state') -> sameActive state state'.
Proof. unfold fromArchive. by destruct (archiveBlock _ _); intros [= _ <-]. Qed.

Lemma obtainBlock_same env cut n range state encoded state' :
  obtainBlock env cut n range state = (encoded, state') -> sameActive state state'.
Proof.
  unfold obtainBlock. destruct (retainedBlock _ _); [by intros [= _ <-]|].
  destruct (bs_fetch _) as [fetch|]; [|apply fromArchive_same].
  destruct (ac_feedDetached state); [apply fromArchive_same|].
  destruct (fetch _ _) as [status [available remote]]. destruct (negb (isOk status)); [by intros [= _ <-]|].
  destruct available; [destruct (_ || _); by intros [= _ <-]|]. apply fromArchive_same.
Qed.

(** A row of a block of shard [i] from position [from] on. *)
Definition fromBlock (blocks : list CorpusBlockRange) (i from : nat) (row : BinaryMarketRecord) : Prop :=
  exists n range, (from <= n)%nat /\ blocks !! n = Some range /\
    rg_shardIndex range = Z.of_nat i /\ rg_firstMonotonicNs range <= timeOf row.

Lemma fromBlock_weaken blocks i from from' row :
  (from <= from')%nat -> fromBlock blocks i from' row -> fromBlock blocks i from row.
Proof. intros Hle (n & range & ? & ? & ? & ?). exists n, range. split_and!; [lia|done..]. Qed.

Lemma rowsMatch_first range rows : StronglySorted laterInShard rows -> rowsMatchRange range rows = true ->
  Forall (fun row => rg_firstMonotonicNs range <= timeOf row) rows.
Proof.
  intros Hs Hm. unfold rowsMatchRange in Hm. bsplit.
  destruct Hs as [|row rows Hs Hall]; [constructor|].
  match goal with Hx : bool_decide (_ ∘ rec_header <$> list.head _ = Some (rg_firstMonotonicNs _)) = true |- _ =>
    apply bool_decide_eq_true in Hx; cbn in Hx; injection Hx as <- end.
  constructor; [lia|]. eapply Forall_impl; [exact Hall|]. intros r [_ Ht]. exact Ht.
Qed.

Lemma nextBlock_consumed env cut i range shard state shard' state' released history :
  consumed (ac_begin state) (cut_blocks cut) i shard released history ->
  cut_blocks cut !! as_block shard = Some range -> rg_shardIndex range = Z.of_nat i ->
  pendingRows shard = [] -> as_ready shard = false ->
  nextBlock env cut i range shard state = (inr shard', state') ->
  exists rows, consumed (ac_begin state) (cut_blocks cut) i shard' released (history ++ [rows]) /\
    as_block shard' = S (as_block shard) /\ as_depthTransaction shard' = as_depthTransaction shard /\
    as_ready shard' = false /\ sameActive state state' /\
    Forall (fromBlock (cut_blocks cut) i (as_block shard)) rows.
Proof.
  intros [C1 C2 C3 C4 C5 C6 C7 C8] Hb Hi Hp Hr. unfold nextBlock.
  destruct (activeRangeInvalid range) eqn:Ei; [done|].
  destruct (obtainBlock env cut _ range state) as [[status|encoded] s1] eqn:Eo; [done|].
  destruct (decodeRange range encoded) as [rows|] eqn:Ed; [|done].
  destruct (activeRows i _ _ rows _ _) as [[ps pt]|] eqn:Ea; [|done].
  destruct (rowsMatchRange range rows) eqn:Em; [|done]. cbn [negb]. intros [= <- <-].
  apply activeRows_arrives in Ea as (Ha & -> & ->). rewrite C4, C5 in *.
  apply obtainBlock_same in Eo as Hsame. pose proof Hsame as (_ & _ & Hbeg).
  assert (Forall (fromBlock (cut_blocks cut) i (as_block shard)) rows) as Hfrom.
  { eapply Forall_impl; [eapply rowsMatch_first; [by eapply arrives_later|exact Em]|].
    intros row Hrow. by exists (as_block shard), range. }
  exists rows. split; [|done].
  assert (concat (history ++ [rows]) = concat history ++ rows) as Hc
    by (rewrite concat_app; cbn; by rewrite app_nil_r).
  assert (arrives i 0 0 (concat history ++ rows)) as Harr by (by apply arrives_app).
  split; cbn [as_block as_decoded as_position as_previousSequence as_previousTime as_count as_ready
              pendingRows upd]; rewrite ?Hc; try done.
  - rewrite (blocksOf_snoc _ _ _ _ Hb), Hi, Z.eqb_refl. apply Forall2_app; [done|].
    constructor; [|constructor]. exists range, encoded. split; [|done].
    unfold blockMoved. rewrite !Z.eqb_refl, bool_decide_true by done. done.
  - unfold pendingRows in *. cbn [as_decoded as_position upd]. rewrite Hp, app_nil_r in C2. rewrite Hbeg.
    rewrite (skipEarly_filter _ rows) by (by eapply arrives_later). by rewrite fromBegin_app, C2.
  - by rewrite lastSequence_app.
  - by rewrite lastMonotonic_app.
  - congruence.
  - apply lookup_lt_Some in Hb. lia.
Qed.

(** ** Filling the shards *)

Record filled (begin : Z) (blocks : list CorpusBlockRange) (i : nat)
  (shard shard' : ActiveShard) (released : list BinaryMarketRecord)
  (history : list (list BinaryMarketRecord)) : Prop := {
  fi_consumed : exists new, consumed begin blocks i shard' released (history ++ new) /\
    Forall (fromBlock blocks i (as_block shard)) (concat new);
  fi_pending : pendingRows shard <> [] -> pendingRows shard' = pendingRows shard;
  fi_transaction : as_depthTransaction shard' = as_depthTransaction shard;
  fi_end : as_ready shard' = false ->
    pendingRows shard' = [] /\ as_block shard' = length blocks;
  fi_block : (as_block shard <= as_block shard')%nat;
}.

Lemma consumed_pending begin blocks i shard released history :
  consumed begin blocks i shard released history ->
  pendingRows shard = [] <-> (as_count shard <= as_position shard)%nat.
Proof.
  intros Hc. rewrite (cn_count _ _ _ _ _ _ Hc). unfold pendingRows. split.
  - intros E. apply (f_equal length) in E. rewrite length_drop in E. cbn in E. lia.
  - apply drop_ge.
Qed.

Lemma fillActive_filled env cut i remaining : forall shard state shard' state' released history,
  consumed (ac_begin state) (cut_blocks cut) i shard released history ->
  drop (as_block shard) (cut_blocks cut) = remaining ->
  fillActive env cut i remaining shard state = (inr shard', state') ->
  filled (ac_begin state) (cut_blocks cut) i shard shard' released history /\ sameActive state state'.
Proof.
  induction remaining as [|range remaining IH]; intros shard state shard' state' released history Hc Hr.
  all: pose proof (consumed_pending _ _ _ _ _ _ Hc) as Hpend.
  all: assert (consumed (ac_begin state) (cut_blocks cut) i shard released (history ++ [])) as Hc0
         by (by rewrite app_nil_r).
  all: cbn [fillActive]; destruct (as_ready shard) eqn:Er;
    [intros [= <- <-]; split; [|done]; split; try done; [by exists []|congruence]|].
  all: destruct (Nat.ltb_spec (as_position shard) (as_count shard)) as [Hlt|Hge];
    [intros [= <- <-]; split; [|done]; split; try done;
     exists []; split; [|constructor]; destruct Hc0; by split|].
  all: assert (pendingRows shard = []) as Hnil by (by apply Hpend).
  - intros [= <- <-]. split; [|done]. split; try done; [by exists []|].
    intros _. split; [done|]. pose proof (cn_bound _ _ _ _ _ _ Hc).
    apply (f_equal length) in Hr. rewrite length_drop in Hr. cbn in Hr. lia.
  - assert (cut_blocks cut !! as_block shard = Some range) as Hb.
    { rewrite <- (Nat.add_0_r (as_block shard)), <- lookup_drop, Hr. done. }
    destruct (Z.eqb_spec (rg_shardIndex range) (Z.of_nat i)) as [Hi|Hi]; cbn [negb].
    + destruct (nextBlock env cut i range shard state) as [[status|shard1] s1] eqn:En; [done|].
      destruct (nextBlock_consumed _ _ _ _ _ _ _ _ _ _ Hc Hb Hi Hnil Er En)
        as (rows & Hc1 & Hb1 & Ht1 & Hr1 & Hs1 & Hf1).
      pose proof Hs1 as (E1 & E2 & E3). intros Hfill.
      apply (IH shard1 s1 shard' state' released (history ++ [rows])) in Hfill as [Hfi Hs'].
      2: { rewrite E3. exact Hc1. }
      2: { rewrite Hb1. by eapply drop_next. }
      rewrite E3 in Hfi. destruct Hfi as [F1 F2 F3 F4 F5].
      destruct F1 as (new & Hcn & Hfn). rewrite <- app_assoc in Hcn.
      split; [split|]; try done; [|congruence|lia|].
      * exists (rows :: new). split; [done|]. cbn. apply Forall_app. split; [done|].
        eapply Forall_impl; [exact Hfn|]. intros row. apply fromBlock_weaken. lia.
      * destruct Hs' as (? & ? & ?). unfold sameActive. split_and!; congruence.
    + intros Hfill. apply (IH (shard <| as_block ::= S |>) state shard' state' released history) in Hfill as [[F1 F2 F3 F4 F5] Hs'].
      3: { cbn [as_block upd]. by eapply drop_next. }
      2: { destruct Hc. split; try done; cbn [as_block upd].
           - rewrite (blocksOf_snoc _ _ _ _ Hb). destruct (Z.eqb_spec (rg_shardIndex range) (Z.of_nat i)); [done|].
             by rewrite app_nil_r.
           - apply lookup_lt_Some in Hb. lia. }
      split; [|done]. destruct F1 as (new & Hcn & Hfn). cbn [as_block upd] in *.
      split; try done; [|lia]. exists new. split; [done|].
      eapply Forall_impl; [exact Hfn|]. intros row. apply fromBlock_weaken. lia.
Qed.

(** ** The cursor *)

Definition shardsInv (begin : Z) (blocks : list CorpusBlockRange) (shards : list ActiveShard)
  (log : list BinaryMarketRecord) : Prop :=
  forall i shard, shards !! i = Some shard ->
    exists history, consumed begin blocks i shard (rowsOf i log) history.

Lemma sameActive_trans a b c : sameActive a b -> sameActive b c -> sameActive a c.
Proof. intros (? & ? & ?) (? & ? & ?). unfold sameActive. split_and!; congruence. Qed.

Lemma fillShards_filled env cut log shards : forall s state shards' state',
  (forall j shard, shards !! j = Some shard ->
     exists history, consumed (ac_begin state) (cut_blocks cut) (s + j) shard (rowsOf (s + j) log) history) ->
  fillShards env cut s shards state = (inr shards', state') ->
  length shards' = length shards /\ sameActive state state' /\
  forall j shard, shards !! j = Some shard -> exists shard' history, shards' !! j = Some shard' /\
    consumed (ac_begin state) (cut_blocks cut) (s + j) shard (rowsOf (s + j) log) history /\
    filled (ac_begin state) (cut_blocks cut) (s + j) shard shard' (rowsOf (s + j) log) history.
Proof.
  induction shards as [|shard shards IH]; intros s state shards' state' Hall; cbn [fillShards];
    [by intros [= <- <-]|].
  destruct (fillActive _ _ _ _ _ _) as [[status|shard1] s1] eqn:Ef; [done|].
  destruct (fillShards _ _ _ _ s1) as [[status|rest] s2] eqn:Er; [done|]. intros [= <- <-].
  destruct (Hall 0%nat shard eq_refl) as [history Hc]. rewrite Nat.add_0_r in Hc.
  eapply fillActive_filled in Ef as [Hf Hs1]; [|exact Hc|done]. pose proof Hs1 as (_ & _ & Hbeg).
  apply IH in Er as (Hl & Hs2 & Hrest).
  2: { intros j sh Hj. rewrite Hbeg. replace (S s + j)%nat with (s + S j)%nat by lia. by apply Hall. }
  rewrite Hbeg in Hrest. split; [cbn; lia|]. split; [by eapply sameActive_trans|].
  intros [|j] sh Hj.
  - injection Hj as <-. rewrite Nat.add_0_r. by exists shard1, history.
  - replace (s + S j)%nat with (S s + j)%nat by lia. by apply Hrest.
Qed.

(** Every shard has its next record, or no blocks are left for it. *)
Definition allFilled (blocks : list CorpusBlockRange) (shards : list ActiveShard) : Prop :=
  forall i shard, shards !! i = Some shard -> as_ready shard = false ->
    pendingRows shard = [] /\ as_block shard = length blocks.

Lemma activeBefore_irrefl r : activeBefore r r = false.
Proof. unfold activeBefore. rewrite !Z.eqb_refl. cbn. apply Z.ltb_irrefl. Qed.
Lemma activeBefore_trans a b c :
  activeBefore a b = true -> activeBefore b c = true -> activeBefore a c = true.
Proof.
  unfold activeBefore.
  destruct (Z.eqb_spec (timeOf a) (timeOf b)), (Z.eqb_spec (timeOf b) (timeOf c)),
    (Z.eqb_spec (timeOf a) (timeOf c)); cbn; rewrite ?Z.ltb_lt; try lia.
  destruct (Z.eqb_spec (h_shardIndex (rec_header a)) (h_shardIndex (rec_header b))),
    (Z.eqb_spec (h_shardIndex (rec_header b)) (h_shardIndex (rec_header c))),
    (Z.eqb_spec (h_shardIndex (rec_header a)) (h_shardIndex (rec_header c)));
    cbn; rewrite ?Z.ltb_lt; lia.
Qed.

Lemma activeBest_head shards i row : activeBest shards = Some (i, row) ->
  exists shard, shards !! i = Some shard /\ offered shard = Some row.
Proof. apply (least_head offered activeBefore). Qed.
Lemma activeBest_least shards i row j shard r :
  activeBest shards = Some (i, row) -> shards !! j = Some shard -> offered shard = Some r ->
  activeBefore r row = false.
Proof. apply (least_least offered activeBefore activeBefore_irrefl activeBefore_trans). Qed.
Lemma activeBest_none shards j shard :
  activeBest shards = None -> shards !! j = Some shard -> offered shard = None.
Proof. apply (least_none offered activeBefore activeBefore_irrefl activeBefore_trans). Qed.

Lemma offered_pending shard row : offered shard = Some row ->
  as_ready shard = true /\ pendingRows shard = row :: drop (S (as_position shard)) (as_decoded shard).
Proof.
  unfold offered, pendingRows. destruct (as_ready shard); [|done]. intros Hl. split; [done|].
  by apply drop_S.
Qed.

Lemma ready_offered begin blocks i shard released history :
  consumed begin blocks i shard released history -> as_ready shard = true ->
  exists row, offered shard = Some row.
Proof.
  intros Hc Hr. unfold offered. rewrite Hr. apply lookup_lt_is_Some.
  rewrite <- (cn_count _ _ _ _ _ _ Hc). by apply (cn_ready _ _ _ _ _ _ Hc).
Qed.

(** Pending rows belong to their shard and come from the requested begin on. *)
Lemma consumed_rows begin blocks i shard released history :
  consumed begin blocks i shard released history ->
  StronglySorted laterInShard (released ++ pendingRows shard) /\
  Forall (fun row => goodRow (Z.of_nat i) row /\ begin <= timeOf row) (released ++ pendingRows shard).
Proof.
  intros Hc. rewrite (cn_rows _ _ _ _ _ _ Hc). pose proof (cn_order _ _ _ _ _ _ Hc) as Ha.
  unfold fromBegin. split.
  - pose proof (arrives_later _ _ _ _ Ha) as Hs. revert Hs. generalize (concat history). intros rows.
    induction 1 as [|row rows Hs IH Hall]; [constructor|]. cbn [List.filter].
    destruct (begin <=? timeOf row); [|done]. constructor; [done|].
    apply List.Forall_forall. intros r [Hr _]%filter_In. by eapply List.Forall_forall in Hall.
  - apply arrives_good in Ha. apply List.Forall_forall. intros r [Hr Hb]%filter_In.
    rewrite List.Forall_forall in Ha. split; [by apply Ha|lia].
Qed.

Lemma rowsOf_snoc i log row :
  rowsOf i (log ++ [row]) =
  rowsOf i log ++ (if h_shardIndex (rec_header row) =? Z.of_nat i then [row] else []).
Proof. unfold rowsOf. rewrite List.filter_app. cbn. by destruct (_ =? _). Qed.

(** A released record moves from the pending rows of its shard to the log. *)
Lemma advanceShard_inv begin blocks shards log i shard row tx :
  shardsInv begin blocks shards log -> shards !! i = Some shard -> offered shard = Some row ->
  shardsInv begin blocks (<[i := advanceShard tx shard]> shards) (log ++ [row]).
Proof.
  intros Hinv Hi Ho j sh Hj. destruct (offered_pending _ _ Ho) as [Hr Hp].
  destruct (Hinv _ _ Hi) as [history Hc].
  destruct (consumed_rows _ _ _ _ _ _ Hc) as [_ Hall].
  rewrite Hp, Forall_app, Forall_cons in Hall. destruct Hall as (_ & [[_ Hrow] _] & _).
  rewrite rowsOf_snoc, Hrow. destruct (decide (j = i)) as [->|Hne].
  - rewrite list_lookup_insert_eq in Hj by (by eapply lookup_lt_Some). injection Hj as <-.
    rewrite Z.eqb_refl. exists history. destruct Hc as [C1 C2 C3 C4 C5 C6 C7 C8].
    split; cbn [advanceShard as_block as_decoded as_position as_previousSequence as_previousTime
                as_count as_ready upd]; try done.
    + rewrite <- C2, Hp, <- app_assoc. done.
    + intros Hlt. by apply Nat.ltb_lt in Hlt.
  - rewrite list_lookup_insert_ne in Hj by done.
    destruct (Z.eqb_spec (Z.of_nat i) (Z.of_nat j)); [lia|]. rewrite app_nil_r. by apply Hinv.
Qed.

(** ** Refreshing *)

Definition sameBlock (a b : CorpusBlockRange) : Prop :=
  rg_offset a = rg_offset b /\ rg_segmentNumber a = rg_segmentNumber b /\
  rg_shardIndex a = rg_shardIndex b /\
  obj l_BinaryMarketBlockHeader (rg_header a) = obj l_BinaryMarketBlockHeader (rg_header b).

Lemma blockMoved_same a b : blockMoved a b = false <-> sameBlock a b.
Proof.
  unfold blockMoved, sameBlock. rewrite !orb_false_iff, !negb_false_iff, !Z.eqb_eq, bool_decide_eq_true.
  tauto.
Qed.

Lemma blockRows_same a b rows : sameBlock a b -> blockRows a rows -> blockRows b rows.
Proof.
  intros (A1 & A2 & A3 & A4) (origin & encoded & (B1 & B2 & B3 & B4)%blockMoved_same & Hr).
  exists origin, encoded. split; [|done]. apply blockMoved_same. unfold sameBlock. split_and!; congruence.
Qed.

Lemma blocksOf_same i xs ys history : Forall2 sameBlock xs ys ->
  Forall2 blockRows (blocksOf i xs) history -> Forall2 blockRows (blocksOf i ys) history.
Proof.
  intros Hs. revert history. induction Hs as [|x y xs ys Hxy _ IH]; intros history; [done|].
  unfold blocksOf in *. cbn [List.filter]. pose proof Hxy as (_ & _ & <- & _).
  destruct (_ =? _); [|apply IH]. intros (rows & rest & Hr & Hrest & ->)%Forall2_cons_inv_l.
  constructor; [by eapply blockRows_same|by apply IH].
Qed.

(** The blocks of [old] are, in place, blocks of [next]. *)
Definition extends (old next : list CorpusBlockRange) : Prop :=
  exists kept new, next = kept ++ new /\ Forall2 sameBlock old kept.

Lemma continuous_extends old next : discontinuous old next = false ->
  extends (cut_blocks old) (cut_blocks next) /\
  pg_safeMonotonicNs (cut_progress old) <= pg_safeMonotonicNs (cut_progress next) /\
  cut_generation old <= cut_generation next /\
  pg_shardCount (cut_progress next) = pg_shardCount (cut_progress old).
Proof.
  unfold discontinuous, cutRegresses. intros Hd. bsplit. split; [|split_and!; lia].
  exists (take (length (cut_blocks old)) (cut_blocks next)), (drop (length (cut_blocks old)) (cut_blocks next)).
  split; [by rewrite take_drop|]. unfold prefixChanges in *.
  assert (length (cut_blocks old) <= length (cut_blocks next))%nat as Hl
    by (match goal with Hx : (_ <? _)%nat = false |- _ => by apply Nat.ltb_ge in Hx end).
  match goal with Hx : existsb _ _ = false |- _ => revert Hx end. revert Hl.
  generalize (cut_blocks old) (cut_blocks next). clear.
  induction l as [|a old IH]; intros [|b next]; cbn; try (done || lia).
  intros Hl [Hm He]%orb_false_iff. constructor; [by apply blockMoved_same|]. apply IH; [lia|done].
Qed.

Lemma consumed_extends begin old next i shard released history :
  extends old next -> consumed begin old i shard released history ->
  consumed begin next i shard released history.
Proof.
  intros (kept & new & -> & Hs) [C1 C2 C3 C4 C5 C6 C7 C8]. pose proof (Forall2_length _ _ _ Hs) as Hl.
  split; try done; [|rewrite length_app; lia].
  rewrite take_app_le by lia. eapply blocksOf_same; [|exact C1]. by apply Forall2_take.
Qed.

(** ** Runs *)

(** A cursor and the records [next] has released so far, where the cuts that [refresh]
    takes over are related by [promise]. *)
Inductive active_run (promise : CorpusCut -> CorpusCut -> Prop) (begin maximum : Z)
  : ActiveState -> list BinaryMarketRecord -> Prop :=
| run_opened env status state :
    openActive env begin maximum = (status, Some state) -> active_run promise begin maximum state []
| run_refreshed env state log status state' :
    active_run promise begin maximum state log ->
    refresh env (Some state) = (status, Some state') ->
    (forall old next, ac_cut state = Some old -> ac_cut state' = Some next -> promise old next) ->
    active_run promise begin maximum state' log
| run_next env state log status result row state' :
    active_run promise begin maximum state log ->
    nextActive env (Some state) = (status, result, row, Some state') ->
    active_run promise begin maximum state' (log ++ option_list row).

Definition activeInv (begin : Z) (state : ActiveState) (log : list BinaryMarketRecord) : Prop :=
  ac_begin state = begin /\
  Forall (fun row => exists i, (i < length (ac_shards state))%nat /\ goodRow (Z.of_nat i) row) log /\
  match ac_cut state with
  | None => ac_shards state = []
  | Some cut => shardsInv begin (cut_blocks cut) (ac_shards state) log
  end.

(** What [refresh] does to a cursor: nothing, a failure, or a continuing cut. *)
Definition refreshed (state state' : ActiveState) : Prop :=
  ac_begin state' = ac_begin state /\
  ((ac_cut state' = ac_cut state /\ ac_shards state' = ac_shards state) \/
   exists next, ac_cut state' = Some next /\
     ac_shards state' = (if (length (ac_shards state) =? 0)%nat
       then replicate (Z.to_nat (pg_shardCount (cut_progress next))) activeShard0
       else ac_shards state) /\
     forall old, ac_cut state = Some old -> discontinuous old next = false).

Lemma acceptCut_refreshed archived next state status state' :
  (forall old, ac_cut state = Some old -> discontinuous old next = false) ->
  acceptCut archived next state = (status, state') -> refreshed state state'.
Proof.
  intros Hd. unfold acceptCut. destruct (_ && negb workspacePrepare); [intros [= _ <-]; by repeat split; left|].
  set (s1 := if (length (ac_shards state) =? 0)%nat then _ else state).
  assert (ac_begin s1 = ac_begin state) as Hb by (subst s1; by destruct (_ =? _)%nat).
  assert (ac_shards s1 = (if (length (ac_shards state) =? 0)%nat
       then replicate (Z.to_nat (pg_shardCount (cut_progress next))) activeShard0
       else ac_shards state)) as Hs by (subst s1; by destruct (_ =? _)%nat).
  generalize dependent s1. intros s1 Hb Hs. cbv zeta. intros [= _ <-].
  destruct (_ && _ && _); (split; [exact Hb|right; exists next; split; [reflexivity|split; [exact Hs|exact Hd]]]).
Qed.

Lemma refresh_refreshed env state status state' :
  refresh env (Some state) = (status, Some state') -> refreshed state state'.
Proof.
  assert (refreshed state state) as Hsame by (split; [done|by left]).
  unfold refresh. destruct (ac_failed state); [by intros [= _ <-]|].
  destruct (refreshActive env state) as [st s1] eqn:E. intros [= _ <-]. revert E.
  unfold refreshActive. destruct (candidateCut _ _) as [?|[acknowledged next]]; [by intros [= _ <-]|].
  destruct (if acknowledged || _ then _ else _); [by intros [= _ <-]|].
  set (s2 := if finalizedCutIsDurable _ _ then _ else state).
  assert (ac_begin s2 = ac_begin state /\ ac_cut s2 = ac_cut state /\ ac_shards s2 = ac_shards state)
    as (Hb & Hc & Hs) by (subst s2; by destruct (finalizedCutIsDurable _ _)).
  assert (forall s3, refreshed s2 s3 -> refreshed state s3) as Hlift
    by (intros s3; unfold refreshed; by rewrite Hb, Hc, Hs).
  generalize dependent s2. intros s2 Hb Hc Hs Hlift.
  destruct (ac_cut s2) as [old|] eqn:Eold.
  - destruct (discontinuous old next) eqn:Ed.
    + intros [= _ <-]. apply Hlift. split; [done|by left].
    + intros Ha. apply Hlift. eapply acceptCut_refreshed; [|exact Ha]. congruence.
  - intros Ha. apply Hlift. eapply acceptCut_refreshed; [|exact Ha]. congruence.
Qed.

Lemma refreshed_inv begin state state' log :
  activeInv begin state log -> refreshed state state' -> activeInv begin state' log.
Proof.
  intros (Hb & Hlog & Hcut) [Hb' [[Hc Hs]|(next & Hc & Hs & Hd)]].
  { unfold activeInv. rewrite Hb', Hc, Hs. done. }
  unfold activeInv. rewrite Hb', Hc. destruct (ac_shards state) as [|shard0 shards] eqn:Es; cbn in Hs.
  - assert (log = []) as -> by (destruct Hlog as [|? ? (i & Hi & _)]; [done|cbn in Hi; lia]).
    split; [done|]. split; [constructor|]. intros i shard Hi. rewrite Hs in Hi.
    apply lookup_replicate in Hi as [-> _]. exists []. apply consumed_empty.
  - rewrite Hs. split; [done|]. split; [done|].
    destruct (ac_cut state) as [old|]; [|done]. destruct (continuous_extends _ _ (Hd _ eq_refl)) as [He _].
    intros i shard Hi. destruct (Hcut _ _ Hi) as [history Hh]. exists history. by eapply consumed_extends.
Qed.

(** The shards of a cursor filled from its cut. *)
Definition allFill (begin : Z) (blocks : list CorpusBlockRange) (log : list BinaryMarketRecord)
  (shards shards' : list ActiveShard) : Prop :=
  length shards' = length shards /\
  forall i shard, shards !! i = Some shard -> exists shard' history, shards' !! i = Some shard' /\
    consumed begin blocks i shard (rowsOf i log) history /\
    filled begin blocks i shard shard' (rowsOf i log) history.

Lemma allFill_lookup begin blocks log shards shards' i shard' :
  allFill begin blocks log shards shards' -> shards' !! i = Some shard' ->
  exists shard history, shards !! i = Some shard /\
    consumed begin blocks i shard (rowsOf i log) history /\
    filled begin blocks i shard shard' (rowsOf i log) history.
Proof.
  intros [Hl Hf] Hi. destruct (shards !! i) as [shard|] eqn:E.
  - destruct (Hf _ _ E) as (sh & history & Hi' & Hc & Hfi). simplify_eq. eauto.
  - apply lookup_ge_None in E. apply lookup_lt_Some in Hi. lia.
Qed.

Lemma allFill_inv begin blocks log shards shards' :
  allFill begin blocks log shards shards' ->
  shardsInv begin blocks shards' log /\ allFilled blocks shards'.
Proof.
  intros Hf. split; intros i shard' Hi;
    destruct (allFill_lookup _ _ _ _ _ _ _ Hf Hi) as (shard & history & Hs & Hc & [F1 F2 F3 F4 F5]).
  - destruct F1 as (new & Hn & _). eauto.
  - exact F4.
Qed.

(** Filling changes no cut and no shard of the state, whatever its result. *)
Lemma nextBlock_same env cut i range shard state result state' :
  nextBlock env cut i range shard state = (result, state') -> sameActive state state'.
Proof.
  unfold nextBlock. destruct (activeRangeInvalid range); [by intros [= _ <-]|].
  destruct (obtainBlock _ _ _ _ _) as [[status|encoded] s1] eqn:Eo; apply obtainBlock_same in Eo;
    [by intros [= _ <-]|].
  destruct (decodeRange _ _); [|by intros [= _ <-]].
  destruct (activeRows _ _ _ _ _ _) as [[ps pt]|]; [|by intros [= _ <-]].
  destruct (negb _); by intros [= _ <-].
Qed.

Lemma fillActive_same env cut i remaining : forall shard state result state',
  fillActive env cut i remaining shard state = (result, state') -> sameActive state state'.
Proof.
  induction remaining as [|range remaining IH]; intros shard state result state'; cbn [fillActive];
    (destruct (as_ready shard); [by intros [= _ <-]|]);
    (destruct (_ <? _)%nat; [by intros [= _ <-]|]); [by intros [= _ <-]|].
  destruct (negb _); [apply IH|].
  destruct (nextBlock env cut i range shard state) as [[status|shard1] s1] eqn:En;
    apply nextBlock_same in En; [by intros [= _ <-]|].
  intros Hf%IH. by eapply sameActive_trans.
Qed.

Lemma fillShards_same env cut shards : forall s state result state',
  fillShards env cut s shards state = (result, state') -> sameActive state state'.
Proof.
  induction shards as [|shard shards IH]; intros s state result state'; cbn [fillShards];
    [by intros [= _ <-]|].
  destruct (fillActive _ _ _ _ _ _) as [[status|shard1] s1] eqn:Ef; apply fillActive_same in Ef;
    [by intros [= _ <-]|].
  destruct (fillShards _ _ _ _ s1) as [[status|rest] s2] eqn:Er; apply IH in Er;
    intros [= _ <-]; by eapply sameActive_trans.
Qed.

Lemma emitActive_frame cut s status result row s' :
  emitActive cut s = (status, result, row, s') -> ac_cut s' = ac_cut s /\ ac_begin s' = ac_begin s.
Proof.
  unfold emitActive. destruct (activeBest _) as [[best r]|].
  - destruct (beyondPrefix _ _ _); [by intros [= _ _ _ <-]|].
    destruct (_ !! _) as [shard|]; [|by intros [= _ _ _ <-]].
    destruct (advanceBinaryMarketDepthTransaction _ _) as [ok tx].
    destruct (negb ok); by intros [= _ _ _ <-].
  - destruct (_ && _); by intros [= _ _ _ <-].
Qed.

(** [next] fills the shards and emits, or fails or blocks with the shards as they were. *)
Lemma nextActive_cases begin env state log status result row state' :
  activeInv begin state log -> nextActive env (Some state) = (status, result, row, Some state') ->
  ac_cut state' = ac_cut state /\ ac_begin state' = ac_begin state /\
  ((row = None /\ result = WouldBlock /\ ac_shards state' = ac_shards state) \/
   exists cut shards s1, ac_cut state = Some cut /\
     allFill begin (cut_blocks cut) log (ac_shards state) shards /\ ac_shards s1 = shards /\
     ac_cut s1 = ac_cut state /\ ac_begin s1 = ac_begin state /\
     emitActive cut s1 = (status, result, row, state')).
Proof.
  intros (Hb & _ & Hcut). unfold nextActive.
  destruct (ac_failed state); [intros [= _ <- <- <-]; split_and!; auto|].
  destruct (ac_cut state) as [cut|] eqn:Ec; [|intros [= _ <- <- <-]; split_and!; auto].
  destruct (fillShards env cut 0 (ac_shards state) state) as [[st|shards] s1] eqn:Ef.
  - intros [= _ <- <- <-].
    apply fillShards_same in Ef as (E1 & E2 & E3).
    cbn. rewrite E1. split_and!; auto.
  - destruct (emitActive cut (s1 <| ac_shards := shards |>)) as [[[st r] rw] s2] eqn:Ee.
    intros [= <- <- <- <-]. eapply (fillShards_filled env cut log) in Ef as (Hl & (E1 & E2 & E3) & Hf);
      [|rewrite Hb; exact Hcut]. rewrite Hb in Hf.
    assert (ac_cut s2 = ac_cut state /\ ac_begin s2 = ac_begin state) as [-> ->].
    { apply emitActive_frame in Ee as [-> ->]. by cbn; split; congruence. }
    split_and!; [done..|]. right. exists cut, shards, (s1 <| ac_shards := shards |>).
    split_and!; try done. cbn. congruence.
Qed.

(** What the merge emits from filled shards. *)
Inductive emits (cut : CorpusCut) (s : ActiveState) : CorpusCursorResult -> option BinaryMarketRecord -> ActiveState -> Prop :=
| emits_nothing result s' : ac_shards s' = ac_shards s -> result <> CursorRecord ->
    (result = CursorEnd -> cut_finalized cut = true /\ activeBest (ac_shards s) = None /\
       Forall (fun shard => active (as_depthTransaction shard) = false) (ac_shards s)) ->
    emits cut s result None s'
| emits_record i row shard tx s' : activeBest (ac_shards s) = Some (i, row) ->
    ac_shards s !! i = Some shard -> offered shard = Some row -> beyondPrefix cut i row = false ->
    advanceBinaryMarketDepthTransaction row (as_depthTransaction shard) = (true, tx) ->
    ac_shards s' = <[i := advanceShard tx shard]> (ac_shards s) ->
    emits cut s CursorRecord (Some row) s'.

Lemma emitActive_emits cut s status result row s' :
  emitActive cut s = (status, result, row, s') -> emits cut s result row s'.
Proof.
  unfold emitActive. destruct (activeBest (ac_shards s)) as [[i r]|] eqn:Eb.
  - destruct (beyondPrefix cut i r) eqn:Ep; [intros [= _ <- <- <-]; by constructor|].
    destruct (activeBest_head _ _ _ Eb) as (shard & Hi & Ho). rewrite Hi.
    destruct (advanceBinaryMarketDepthTransaction _ _) as [[] tx] eqn:Ea; cbn [negb].
    + intros [= _ <- <- <-]. by econstructor.
    + intros [= _ <- <- <-]. by constructor.
  - destruct (cut_finalized cut) eqn:Ef; cbn [andb]; [|intros [= _ <- <- <-]; by constructor].
    destruct (existsb _ _) eqn:Ee; intros [= _ <- <- <-]; [by constructor|]. constructor; try done.
    intros _. split_and!; try done. apply List.Forall_forall. intros shard Hs.
    destruct (active (as_depthTransaction shard)) eqn:E; [|done].
    assert (existsb (fun shard => active (as_depthTransaction shard)) (ac_shards s) = true); [|congruence].
    apply existsb_exists. eauto.
Qed.

Lemma emits_inv begin cut s result row s' log :
  shardsInv begin (cut_blocks cut) (ac_shards s) log ->
  Forall (fun row => exists i, (i < length (ac_shards s))%nat /\ goodRow (Z.of_nat i) row) log ->
  emits cut s result row s' ->
  shardsInv begin (cut_blocks cut) (ac_shards s') (log ++ option_list row) /\
  Forall (fun row => exists i, (i < length (ac_shards s'))%nat /\ goodRow (Z.of_nat i) row)
    (log ++ option_list row).
Proof.
  intros Hinv Hlog [result' s'' Hs _ _|i r shard tx s'' _ Hi Ho _ _ Hs]; rewrite Hs.
  - cbn. by rewrite app_nil_r.
  - split; [by apply advanceShard_inv|]. rewrite length_insert. apply Forall_app. split; [done|].
    constructor; [|constructor]. exists i. split; [by eapply lookup_lt_Some|].
    destruct (Hinv _ _ Hi) as [history Hc]. destruct (consumed_rows _ _ _ _ _ _ Hc) as [_ Hall].
    destruct (offered_pending _ _ Ho) as [_ Hp]. rewrite Hp, Forall_app, Forall_cons in Hall. tauto.
Qed.

Lemma next_inv begin env state log status result row state' :
  activeInv begin state log -> nextActive env (Some state) = (status, result, row, Some state') ->
  activeInv begin state' (log ++ option_list row).
Proof.
  intros Hinv Hn. pose proof Hinv as (Hb & Hlog & Hcut).
  destruct (nextActive_cases _ _ _ _ _ _ _ _ Hinv Hn)
    as (Hc & Hb' & [(-> & _ & Hs)|(cut & shards & s1 & Ec & Hf & Hs1 & Hc1 & Hb1 & He)]);
    unfold activeInv; rewrite Hb', Hc.
  - cbn. rewrite app_nil_r, Hs. done.
  - split; [done|]. destruct (allFill_inv _ _ _ _ _ Hf) as [Hi _]. rewrite <- Hs1 in Hi.
    destruct Hf as [Hl _]. rewrite <- Hs1 in Hl.
    apply emitActive_emits, (emits_inv begin _ _ _ _ _ log) in He as [Hsi Hll]; [|done|by rewrite Hl].
    rewrite Ec. split; done.
Qed.

Lemma active_run_inv promise begin maximum state log :
  active_run promise begin maximum state log -> activeInv begin state log.
Proof.
  induction 1 as [env status state Ho|env state log status state' Hr IH He _|
                  env state log status result row state' Hr IH Hn].
  - unfold openActive in Ho. apply refresh_refreshed in Ho. eapply refreshed_inv; [|exact Ho].
    split; [done|]. split; [constructor|done].
  - eapply refreshed_inv; [exact IH|]. by eapply refresh_refreshed.
  - by eapply next_inv.
Qed.

(** ** One order over all shards *)

(** The producer's promise: blocks are immutable, and a block that appears after a cut
    starts at or after the safe time of that cut. *)
Definition keepsPromise (old next : CorpusCut) : Prop :=
  exists new, cut_blocks next = cut_blocks old ++ new /\
    Forall (fun range => pg_safeMonotonicNs (cut_progress old) <= rg_firstMonotonicNs range) new.

(** Everything shard [i] can still release comes after [a]: [a] is of the same shard, or
    the next pending row comes after it, or every block left does. *)
Inductive ahead (blocks : list CorpusBlockRange) (a : BinaryMarketRecord) (i : nat) (shard : ActiveShard)
  : Prop :=
| ahead_same : h_shardIndex (rec_header a) = Z.of_nat i -> ahead blocks a i shard
| ahead_pending row rest : pendingRows shard = row :: rest -> activeBefore a row = true ->
    ahead blocks a i shard
| ahead_blocks : (forall n range, (as_block shard <= n)%nat -> blocks !! n = Some range ->
    rg_shardIndex range = Z.of_nat i -> timeOf a < rg_firstMonotonicNs range) ->
    pendingRows shard = [] -> ahead blocks a i shard.

Definition orderInv (state : ActiveState) (log : list BinaryMarketRecord) : Prop :=
  StronglySorted (fun a b => activeBefore a b = true) log /\
  forall a, list.last log = Some a -> exists cut, ac_cut state = Some cut /\
    timeOf a < pg_safeMonotonicNs (cut_progress cut) /\
    forall i shard, ac_shards state !! i = Some shard -> ahead (cut_blocks cut) a i shard.

Lemma before_time a b : timeOf a < timeOf b -> activeBefore a b = true.
Proof.
  intros Hlt. unfold activeBefore. destruct (Z.eqb_spec (timeOf a) (timeOf b)); [lia|]. cbn.
  by apply Z.ltb_lt.
Qed.

Lemma before_shard a b : h_shardIndex (rec_header a) = h_shardIndex (rec_header b) ->
  laterInShard a b -> activeBefore a b = true.
Proof.
  intros Hi [Hs Ht]. unfold activeBefore. destruct (Z.eqb_spec (timeOf a) (timeOf b)); cbn.
  - rewrite Hi, Z.eqb_refl. cbn. by apply Z.ltb_lt.
  - apply Z.ltb_lt. lia.
Qed.

Lemma before_other a b : h_shardIndex (rec_header a) <> h_shardIndex (rec_header b) ->
  activeBefore b a = false -> activeBefore a b = true.
Proof.
  intros Hi. unfold activeBefore.
  destruct (Z.eqb_spec (timeOf a) (timeOf b)), (Z.eqb_spec (timeOf b) (timeOf a)); try lia; cbn.
  - destruct (Z.eqb_spec (h_shardIndex (rec_header a)) (h_shardIndex (rec_header b))),
      (Z.eqb_spec (h_shardIndex (rec_header b)) (h_shardIndex (rec_header a))); try lia; cbn.
    rewrite Z.ltb_ge, Z.ltb_lt. lia.
  - rewrite Z.ltb_ge, Z.ltb_lt. lia.
Qed.

Lemma sorted_cross {A} (R : A -> A -> Prop) xs ys x y :
  StronglySorted R (xs ++ ys) -> x ∈ xs -> y ∈ ys -> R x y.
Proof.
  intros Hs Hx Hy. apply list_elem_of_split in Hx as (a & b & ->). rewrite <- app_assoc in Hs.
  apply StronglySorted_app in Hs as (_ & _ & Hs). cbn in Hs.
  apply StronglySorted_inv in Hs as [_ Hall]. rewrite Forall_forall in Hall. apply Hall.
  apply elem_of_app. by right.
Qed.

(** After filling, the row a shard offers comes after the last released one. *)
Lemma ahead_offered begin blocks i shard shard' log history a row :
  consumed begin blocks i shard (rowsOf i log) history ->
  filled begin blocks i shard shard' (rowsOf i log) history ->
  ahead blocks a i shard -> a ∈ log -> offered shard' = Some row -> activeBefore a row = true.
Proof.
  intros Hc [(new & Hcn & Hfrom) Hpend _ _ _] Ha Hin Ho.
  destruct (offered_pending _ _ Ho) as [_ Hp]. destruct (consumed_rows _ _ _ _ _ _ Hcn) as [Hsort Hgood].
  assert (goodRow (Z.of_nat i) row) as [_ Hrow]
    by (rewrite Hp, Forall_app, Forall_cons in Hgood; tauto).
  destruct Ha as [Hi|r rest Hr Hb|Hblocks Hnil].
  - apply before_shard; [congruence|]. eapply sorted_cross; [exact Hsort| |rewrite Hp; left].
    unfold rowsOf. apply list_elem_of_In, filter_In. split; [by apply list_elem_of_In|]. by apply Z.eqb_eq.
  - rewrite Hpend, Hr in Hp by (by rewrite Hr). by injection Hp as -> _.
  - apply before_time.
    assert (row ∈ concat new) as Hnew.
    { pose proof (cn_rows _ _ _ _ _ _ Hcn) as Hrows. pose proof (cn_rows _ _ _ _ _ _ Hc) as Hold.
      rewrite Hnil, app_nil_r in Hold. rewrite concat_app, fromBegin_app, <- Hold in Hrows.
      apply app_inv_head in Hrows. rewrite Hp in Hrows. apply list_elem_of_In.
      eapply (proj1 (filter_In _ _ _)). unfold fromBegin in Hrows. rewrite <- Hrows. by left. }
    rewrite Forall_forall in Hfrom. destruct (Hfrom _ Hnew) as (n & range & Hn & Hl & Hs & Hf).
    specialize (Hblocks _ _ Hn Hl Hs). lia.
Qed.

Lemma ahead_filled begin blocks i shard shard' log history a :
  consumed begin blocks i shard (rowsOf i log) history ->
  filled begin blocks i shard shard' (rowsOf i log) history ->
  ahead blocks a i shard -> a ∈ log -> ahead blocks a i shard'.
Proof.
  intros Hc Hf Ha Hin. pose proof Hf as [(new & Hcn & _) _ _ Hend Hblock].
  destruct (as_ready shard') eqn:Er.
  - destruct (ready_offered _ _ _ _ _ _ Hcn Er) as [row Ho].
    pose proof (ahead_offered _ _ _ _ _ _ _ _ _ Hc Hf Ha Hin Ho) as Hb.
    destruct (offered_pending _ _ Ho) as [_ Hp]. by eapply ahead_pending.
  - destruct (Hend eq_refl) as [Hp He]. apply ahead_blocks; [|done]. intros n range Hn Hl.
    apply lookup_lt_Some in Hl. lia.
Qed.

Lemma sorted_snoc {A} (R : A -> A -> Prop) `{!Transitive R} xs y :
  StronglySorted R xs -> (forall x, list.last xs = Some x -> R x y) -> StronglySorted R (xs ++ [y]).
Proof.
  intros Hs. induction Hs as [|x xs Hs IH Hall]; intros Hl; [repeat constructor|].
  cbn [app]. constructor.
  - apply IH. intros z Hz. apply Hl. rewrite last_cons, Hz. done.
  - apply Forall_app. split; [done|]. constructor; [|constructor].
    destruct xs as [|z xs]; [by apply Hl|].
    destruct (list.last (z :: xs)) as [w|] eqn:Ew; [|by apply last_None in Ew].
    trans w; [|apply Hl; by rewrite last_cons, Ew].
    rewrite Forall_forall in Hall. by apply Hall, last_Some_elem_of.
Qed.

#[local] Instance activeBefore_transitive : Transitive (fun a b => activeBefore a b = true).
Proof. exact activeBefore_trans. Qed.

Lemma next_order begin env state log status result row state' :
  activeInv begin state log -> orderInv state log ->
  nextActive env (Some state) = (status, result, row, Some state') ->
  orderInv state' (log ++ option_list row).
Proof.
  intros Hinv [Hsort Hlast] Hn.
  destruct (nextActive_cases _ _ _ _ _ _ _ _ Hinv Hn)
    as (Hc & _ & [(-> & _ & Hs)|(cut & shards & s1 & Ec & Hf & Hs1 & Hc1 & Hb1 & He)]).
  { unfold orderInv. cbn. rewrite app_nil_r, Hc, Hs. done. }
  apply emitActive_emits in He. rewrite Ec in *.
  destruct (allFill_inv _ _ _ _ _ Hf) as [Hi Hall].
  assert (forall a, list.last log = Some a -> timeOf a < pg_safeMonotonicNs (cut_progress cut) /\
    forall i shard, shards !! i = Some shard -> ahead (cut_blocks cut) a i shard /\
      (forall r, offered shard = Some r -> activeBefore a r = true)) as Hahead.
  { intros a Ha. destruct (Hlast a Ha) as (cut' & [= <-] & Hsafe & Hah). split; [done|].
    intros i shard' Hi'. destruct (allFill_lookup _ _ _ _ _ _ _ Hf Hi') as (shard & history & Hsh & Hco & Hfi).
    specialize (Hah _ _ Hsh). apply last_Some_elem_of in Ha.
    split; [by eapply ahead_filled|]. intros r Hr. by eapply ahead_offered. }
  destruct He as [res s' Hs' _ _|i r shard tx s' Hbest His Ho Hpre _ Hs'].
  - cbn. rewrite app_nil_r. split; [done|]. intros a Ha. exists cut. split; [done|].
    destruct (Hahead a Ha) as [Hsafe Hah]. split; [done|]. intros i shard Hsh.
    rewrite Hs', Hs1 in Hsh. by apply Hah.
  - change (option_list (Some r)) with [r]. split.
    + apply sorted_snoc; [apply _|done|]. intros a Ha. rewrite Hs1 in His. by apply (Hahead a Ha) in His as [_ ->].
    + intros a. rewrite last_snoc. intros [= <-]. exists cut. split; [done|].
      unfold beyondPrefix in Hpre. bsplit. split; [lia|]. rewrite Hs1 in *. intros j sh Hj. rewrite Hs' in Hj.
      assert (forall k shk rk, shards !! k = Some shk -> offered shk = Some rk ->
        h_shardIndex (rec_header rk) = Z.of_nat k) as Hindex.
      { intros k shk rk Hk Hok. destruct (Hi _ _ Hk) as [history Hco].
        destruct (consumed_rows _ _ _ _ _ _ Hco) as [_ Hg]. destruct (offered_pending _ _ Hok) as [_ Hp].
        rewrite Hp, Forall_app, Forall_cons in Hg. destruct Hg as (_ & [[_ ->] _] & _). done. }
      destruct (decide (j = i)) as [->|Hne]; [apply ahead_same; by eapply Hindex|].
      rewrite list_lookup_insert_ne in Hj by done. destruct (as_ready sh) eqn:Er.
      * destruct (Hi _ _ Hj) as [history Hco]. destruct (ready_offered _ _ _ _ _ _ Hco Er) as [rj Hoj].
        destruct (offered_pending _ _ Hoj) as [_ Hp]. eapply ahead_pending; [exact Hp|].
        apply before_other; [rewrite (Hindex _ _ _ His Ho), (Hindex _ _ _ Hj Hoj); lia|].
        by eapply activeBest_least.
      * destruct (Hall _ _ Hj Er) as [Hp He]. apply ahead_blocks; [|done]. intros n range Hn' Hl.
        apply lookup_lt_Some in Hl. lia.
Qed.

Lemma ahead_promise old next a i shard :
  keepsPromise old next -> timeOf a < pg_safeMonotonicNs (cut_progress old) ->
  ahead (cut_blocks old) a i shard -> ahead (cut_blocks next) a i shard.
Proof.
  intros (new & -> & Hnew) Hsafe [Hs|row rest Hp Hb|Hblocks Hp].
  - by apply ahead_same.
  - by eapply ahead_pending.
  - apply ahead_blocks; [|done]. intros n range Hn [Hl|[Hle Hl]]%lookup_app_Some Hi; [by eapply Hblocks|].
    eapply Forall_lookup_1 in Hnew; [|exact Hl]. cbn in Hnew. lia.
Qed.

Lemma refresh_order begin state state' log :
  activeInv begin state log -> orderInv state log -> refreshed state state' ->
  (forall old next, ac_cut state = Some old -> ac_cut state' = Some next -> keepsPromise old next) ->
  orderInv state' log.
Proof.
  intros (_ & Hlog & _) [Hsort Hlast] [_ [[Hc Hs]|(next & Hc & Hs & Hd)]] Hp;
    [unfold orderInv; by rewrite Hc, Hs|].
  split; [done|]. intros a Ha. destruct (Hlast a Ha) as (old & Hold & Hsafe & Hah).
  exists next. split; [done|]. destruct (continuous_extends _ _ (Hd _ Hold)) as (_ & Hmono & _).
  split; [lia|]. intros i shard Hi. specialize (Hp _ _ Hold Hc). eapply ahead_promise; [done..|].
  apply last_Some_elem_of in Ha. rewrite Forall_forall in Hlog. destruct (Hlog _ Ha) as (k & Hk & _).
  destruct (Nat.eqb_spec (length (ac_shards state)) 0); [lia|]. rewrite Hs in Hi. by apply Hah.
Qed.

Lemma active_run_order begin maximum state log :
  active_run keepsPromise begin maximum state log -> orderInv state log.
Proof.
  induction 1 as [env status state Ho|env state log status state' Hr IH He Hp|
                  env state log status result row state' Hr IH Hn].
  - split; [constructor|done].
  - eapply refresh_order; [by eapply active_run_inv|done|by eapply refresh_refreshed|done].
  - eapply next_order; [by eapply active_run_inv|done|exact Hn].
Qed.

(** ** Claims *)

(** C19: Whatever the files, the publication and the feed hold, each shard of a
    live cursor releases exactly the rows of its blocks from the requested begin on:
    what it has released so far, followed by the rows it has decoded but not released,
    are the rows from [begin] on of the blocks it has consumed, each block once and in
    the order of the cut, across all refreshes; shard sequences strictly increase and
    monotonic stamps never decrease. *)
Theorem active_exactly_once promise begin maximum state log cut i shard :
  active_run promise begin maximum state log -> ac_cut state = Some cut ->
  ac_shards state !! i = Some shard ->
  exists history,
    Forall2 blockRows (blocksOf i (take (as_block shard) (cut_blocks cut))) history /\
    rowsOf i log ++ pendingRows shard = fromBegin begin (concat history) /\
    StronglySorted laterInShard (rowsOf i log) /\ (as_block shard <= length (cut_blocks cut))%nat.
Proof.
  intros (_ & _ & Hinv)%active_run_inv Hc Hi. rewrite Hc in Hinv. destruct (Hinv _ _ Hi) as [history Hco].
  exists history. split; [apply Hco|]. split; [apply Hco|]. split; [|apply Hco].
  destruct (consumed_rows _ _ _ _ _ _ Hco) as [Hs _]. apply StronglySorted_app in Hs. tauto.
Qed.

(** The end of a live cursor is complete: [next] reports [End] only on a
    finalized cut, when every shard has released all rows from [begin] on of all its
    blocks of the cut, and no depth transaction is open. *)
Theorem active_end_complete promise begin maximum state log env status row state' :
  active_run promise begin maximum state log ->
  nextActive env (Some state) = (status, CursorEnd, row, Some state') ->
  row = None /\ exists cut, ac_cut state = Some cut /\ cut_finalized cut = true /\
  Forall (fun shard => active (as_depthTransaction shard) = false) (ac_shards state') /\
  forall i, (i < length (ac_shards state'))%nat -> exists history,
    Forall2 blockRows (blocksOf i (cut_blocks cut)) history /\
    rowsOf i log = fromBegin begin (concat history).
Proof.
  intros Hr%active_run_inv Hn.
  destruct (nextActive_cases _ _ _ _ _ _ _ _ Hr Hn)
    as (Hc & _ & [(_ & ? & _)|(cut & shards & s1 & Ec & Hf & Hs1 & Hc1 & Hb1 & He)]); [done|].
  apply emitActive_emits in He. inversion He as [res s' Hs' _ Hend Hres Hrow|]; subst.
  destruct (Hend eq_refl) as (Hfin & Hbest & Htx). split; [done|]. exists cut.
  rewrite Hs'. split_and!; [done..|]. intros i Hi.
  destruct (allFill_inv _ _ _ _ _ Hf) as [Hinv Hall].
  destruct (ac_shards s1 !! i) as [shard|] eqn:Ei; [|apply lookup_ge_None in Ei; lia].
  destruct (Hinv _ _ Ei) as [history Hco]. exists history.
  pose proof (activeBest_none _ _ _ Hbest Ei) as Ho. destruct (as_ready shard) eqn:Er.
  { destruct (ready_offered _ _ _ _ _ _ Hco Er). congruence. }
  destruct (Hall _ _ Ei Er) as [Hp Hb]. pose proof (cn_blocks _ _ _ _ _ _ Hco) as Hbl.
  rewrite Hb, firstn_all in Hbl. split; [done|].
  rewrite <- (cn_rows _ _ _ _ _ _ Hco), Hp. by rewrite app_nil_r.
Qed.

(** A live cursor never runs ahead of the producer: a record [next] releases
    is a valid record of its shard, lies at or after the requested begin, strictly
    before the safe time of the cut and within the committed sequences of its shard. *)
Theorem active_committed_prefix promise begin maximum state log env status result row state' :
  active_run promise begin maximum state log ->
  nextActive env (Some state) = (status, result, Some row, Some state') ->
  result = CursorRecord /\ exists cut i, ac_cut state = Some cut /\
    goodRow (Z.of_nat i) row /\ begin <= h_receiveMonotonicNs (rec_header row) /\
    h_receiveMonotonicNs (rec_header row) < pg_safeMonotonicNs (cut_progress cut) /\
    h_shardSequence (rec_header row) <= nth i (pg_shardSequences (cut_progress cut)) 0.
Proof.
  intros Hr%active_run_inv Hn.
  destruct (nextActive_cases _ _ _ _ _ _ _ _ Hr Hn)
    as (Hc & _ & [(? & _)|(cut & shards & s1 & Ec & Hf & Hs1 & Hc1 & Hb1 & He)]); [done|].
  apply emitActive_emits in He. inversion He as [|i r shard tx s' Hbest Hi Ho Hpre Htx Hs']; subst.
  split; [done|]. exists cut, i. split; [done|].
  destruct (allFill_inv _ _ _ _ _ Hf) as [Hinv _]. destruct (Hinv _ _ Hi) as [history Hco].
  destruct (consumed_rows _ _ _ _ _ _ Hco) as [_ Hg]. destruct (offered_pending _ _ Ho) as [_ Hp].
  rewrite Hp, Forall_app, Forall_cons in Hg. destruct Hg as (_ & [Hg Hbeg] & _).
  unfold beyondPrefix in Hpre. bsplit. split_and!; [apply Hg..|lia|lia|lia].
Qed.

(** C26: If the producer keeps its promise on committed prefixes (blocks are
    immutable, and a block that appears after a cut starts at or after its safe time),
    then everything a live cursor ever releases, across shards, feeds and refreshes, is
    one strictly ordered sequence. *)
Theorem active_total_order begin maximum state log :
  active_run keepsPromise begin maximum state log ->
  StronglySorted (fun a b => activeBefore a b = true) log.
Proof. intros Hr%active_run_order. apply Hr. Qed.

End runs.
