(* ===== verification/ActiveSamples.v ===== *)
(** * ActiveSamples: a live cursor behind a running writer

    A cursor opens on the publication of the sample recording, releases its record,
    follows it through finalization on disk and reaches the end: the instances of
    the theorems of ActiveRun. *)
From stdpp Require Import base list numbers strings sorting.
From S2P Require Import Prelude Codec Layout Format Samples DepthTransaction Disk Metadata BlockCodec.
From S2P Require Import Cut Segment Writer WriterRun ReaderMerge ActiveCursor ActiveRun.
Local Open Scope Z_scope.

Section samples.
Import Stored.

(** The producer commits the sample trade, the recorder publishes it. *)
Definition committedProgress : CorpusProducerProgress :=
  MkCorpusProducerProgress 4 9000 0 0 (9 :: replicate 63 0) 2 (replicate 6 0).
Definition committedState : WriterState :=
  stateOf (updateProgress committedProgress (Some appendedState)).
Definition liveState : WriterState := stateOf (publishCut 77 (Some committedState)).
Definition closedState : WriterState :=
  stateOf (finalize StopReason.Requested 9000 78 (Some liveState)).

Definition noFeed : CorpusCompressedBlockSource := MkBlockSource None None.
Definition liveEnv : Env :=
  MkEnv (w_files (wr_disk liveState)) (Some (wr_publication liveState)) noFeed.
Definition closedEnv : Env := MkEnv (w_files (wr_disk closedState)) None noFeed.

Definition cursorOf (cursor : option ActiveState) : ActiveState :=
  default (MkActiveCursor None [] 0 false false false false 0) cursor.
Definition cursor0 : ActiveState := cursorOf (snd (openActive liveEnv 1 268435456)).
Definition cursor1 : ActiveState := cursorOf (snd (nextActive liveEnv (Some cursor0))).
Definition cursor2 : ActiveState := cursorOf (snd (refresh closedEnv (Some cursor1))).
Definition cursor3 : ActiveState := cursorOf (snd (nextActive closedEnv (Some cursor2))).
Definition cursorCut (state : ActiveState) : CorpusCut := default sampleCut (ac_cut state).

Lemma cursor0_opened : openActive liveEnv 1 268435456 = (Ok, Some cursor0).
Proof. vm_compute. reflexivity. Qed.
Lemma cursor1_next :
  nextActive liveEnv (Some cursor0) = (Ok, CursorRecord, Some sampleTrade, Some cursor1).
Proof. vm_compute. reflexivity. Qed.
Lemma cursor2_refreshed : refresh closedEnv (Some cursor1) = (Ok, Some cursor2).
Proof. vm_compute. reflexivity. Qed.
Lemma cursor3_end : nextActive closedEnv (Some cursor2) = (Ok, CursorEnd, None, Some cursor3).
Proof. vm_compute. reflexivity. Qed.

Lemma same_blocks_promise state state' :
  cut_blocks (cursorCut state') = cut_blocks (cursorCut state) ->
  forall old next, ac_cut state = Some old -> ac_cut state' = Some next -> keepsPromise old next.
Proof.
  unfold cursorCut. intros Hb old next H1 H2. rewrite H1, H2 in Hb. exists []. rewrite app_nil_r.
  split; [exact Hb|constructor].
Qed.

Lemma cursor_blocks : cut_blocks (cursorCut cursor2) = cut_blocks (cursorCut cursor1).
Proof. vm_compute. reflexivity. Qed.

Lemma cursor0_run : active_run keepsPromise 1 268435456 cursor0 [].
Proof. exact (run_opened keepsPromise 1 268435456 liveEnv Ok cursor0 cursor0_opened). Qed.
Lemma cursor2_run : active_run keepsPromise 1 268435456 cursor2 [sampleTrade].
Proof.
  exact (run_refreshed keepsPromise 1 268435456 closedEnv cursor1 [sampleTrade] Ok cursor2
    (run_next keepsPromise 1 268435456 liveEnv cursor0 [] Ok CursorRecord (Some sampleTrade) cursor1
       cursor0_run cursor1_next) cursor2_refreshed (same_blocks_promise cursor1 cursor2 cursor_blocks)).
Qed.

Definition shard0Of (state : ActiveState) : ActiveShard := default activeShard0 (ac_shards state !! 0%nat).

Lemma active_exactly_once_witness : exists history,
  Forall2 blockRows (blocksOf 0 (take (as_block (shard0Of cursor2)) (cut_blocks (cursorCut cursor2)))) history /\
  rowsOf 0 [sampleTrade] ++ pendingRows (shard0Of cursor2) = fromBegin 1 (concat history) /\
  StronglySorted laterInShard (rowsOf 0 [sampleTrade]) /\
  (as_block (shard0Of cursor2) <= length (cut_blocks (cursorCut cursor2)))%nat.
Proof.
  exact (active_exactly_once keepsPromise 1 268435456 cursor2 [sampleTrade] (cursorCut cursor2) 0
    (shard0Of cursor2) cursor2_run ltac:(vm_compute; reflexivity) ltac:(vm_compute; reflexivity)).
Defined.

Lemma active_end_complete_witness :
  @None BinaryMarketRecord = None /\ exists cut, ac_cut cursor2 = Some cut /\ cut_finalized cut = true /\
  Forall (fun shard => active (as_depthTransaction shard) = false) (ac_shards cursor3) /\
  forall i, (i < length (ac_shards cursor3))%nat -> exists history,
    Forall2 blockRows (blocksOf i (cut_blocks cut)) history /\
    rowsOf i [sampleTrade] = fromBegin 1 (concat history).
Proof.
  exact (active_end_complete keepsPromise 1 268435456 cursor2 [sampleTrade] closedEnv Ok None cursor3
    cursor2_run cursor3_end).
Defined.

Lemma active_committed_prefix_witness :
  CursorRecord = CursorRecord /\ exists cut i, ac_cut cursor0 = Some cut /\
    goodRow (Z.of_nat i) sampleTrade /\ 1 <= h_receiveMonotonicNs (rec_header sampleTrade) /\
    h_receiveMonotonicNs (rec_header sampleTrade) < pg_safeMonotonicNs (cut_progress cut) /\
    h_shardSequence (rec_header sampleTrade) <= nth i (pg_shardSequences (cut_progress cut)) 0.
Proof.
  exact (active_committed_prefix keepsPromise 1 268435456 cursor0 [] liveEnv Ok CursorRecord sampleTrade
    cursor1 cursor0_run cursor1_next).
Defined.

Lemma active_total_order_witness :
  StronglySorted (fun a b => activeBefore a b = true) [sampleTrade].
Proof. exact (active_total_order 1 268435456 cursor2 [sampleTrade] cursor2_run). Defined.
End samples.
