(* ===== verification/ServiceRun.v ===== *)
(** * ServiceRun: client and server of the recorder service agree

    Whatever one side encodes is decoded by the other as it was meant, and a reply of the
    server to a request of the client is the data the request asked for. *)
From stdpp Require Import base list numbers strings.
From S2P Require Import Prelude Codec Layout Format DepthTransaction Disk Metadata BlockCodec Cut Segment ActiveCursor.
From S2P Require Import Samples SourceState Writer WriterRun ServiceProtocol.
Local Open Scope Z_scope.

(** ** One value *)

(** A valid encoder was valid before. *)
Lemma putPod_valid {A} (l : layout A) value e : out_valid (putPod l value e) = true ->
  out_valid e = true /\ out_bytes (putPod l value e) = out_bytes e ++ obj l value.
Proof. unfold putPod. by destruct (_ <? _). Qed.
Lemma putString_valid value maximum e : out_valid (putString value maximum e) = true -> maximum < 2 ^ 32 ->
  out_valid e = true /\ out_bytes (putString value maximum e) = out_bytes e ++ obj l_u32 (size value) ++ value /\
  size value <= maximum /\ (0 ∉ value).
Proof.
  unfold putString. intros Hv Hm. destruct (Z.ltb_spec maximum (size value)) as [|Hs]; [done|].
  case_bool_decide as Hz; [done|]. destruct (Z.ltb_spec (u64 (kRecorderServiceMaximumMessage - size (out_bytes e))) (size value + 4));
    [done|]. cbn [orb] in *. unfold u32 in *. rewrite Z.mod_small in * by lia.
  apply putPod_valid in Hv as [Hv E]. cbn. rewrite E, <- app_assoc. done.
Qed.
Lemma putBoolean_valid value e : out_valid (putBoolean value e) = true ->
  out_valid e = true /\ out_bytes (putBoolean value e) = out_bytes e ++ obj l_u8 (Z.b2z value).
Proof. apply putPod_valid. Qed.

Lemma getPod_app {A} (l : layout A) initial value rest : fits l value ->
  getPod l initial (MkDecoder (obj l value ++ rest) true) = (value, MkDecoder rest true).
Proof.
  intros Hf. unfold getPod. cbn. rewrite length_app, obj_length, view_obj by done.
  rewrite (proj2 (Z.ltb_ge _ _)) by (unfold sizeofz; lia). by rewrite drop_app_length' by (by rewrite obj_length).
Qed.
Lemma getString_app value maximum rest : size value <= maximum -> maximum < 2 ^ 32 -> 0 ∉ value ->
  getString maximum (MkDecoder (obj l_u32 (size value) ++ value ++ rest) true) = (value, MkDecoder rest true).
Proof.
  intros Hs Hm Hz. unfold getString. rewrite getPod_app by (split; cbn; lia). cbn. rewrite length_app.
  rewrite !(proj2 (Z.ltb_ge _ _)) by lia. cbn. rewrite Nat2Z.id, take_app_length, drop_app_length.
  by rewrite bool_decide_eq_false_2.
Qed.
Lemma getPath_app value rest : size value <= 4096 -> 0 ∉ value ->
  getPath (MkDecoder (obj l_u32 (size value) ++ value ++ rest) true) = (value, MkDecoder rest true).
Proof. intros Hs Hz. unfold getPath. by rewrite getString_app. Qed.
Lemma getBoolean_app value rest : getBoolean (MkDecoder (obj l_u8 (Z.b2z value) ++ rest) true) = (value, MkDecoder rest true).
Proof. unfold getBoolean. rewrite getPod_app by (destruct value; split; cbn; lia). by destruct value. Qed.

(** [puts e e' reads value]: from [e] to [e'] bytes were added that [reads] reads as [value]. *)
Definition puts {A} (e e' : Encoder) (reads : Decoder -> A * Decoder) (value : A) : Prop :=
  out_valid e = true /\ exists bytes, out_bytes e' = out_bytes e ++ bytes /\
  forall rest, reads (MkDecoder (bytes ++ rest) true) = (value, MkDecoder rest true).

(** Walk back through the calls of an encoder, and forward through those of a decoder. *)
Ltac put_back H :=
  repeat first
    [ apply putString_valid in H as (H & ?E & ?L & ?N); [|done]
    | apply putBoolean_valid in H as (H & ?E)
    | apply putPod_valid in H as (H & ?E) ].
Ltac put_bytes := repeat match goal with E : out_bytes ?x = _ |- context [out_bytes ?x] => rewrite E; clear E end.
Ltac get_on := repeat first
  [ rewrite getPath_app by done
  | rewrite getString_app by done
  | rewrite getBoolean_app
  | rewrite getPod_app by done ].

(** ** Sequences *)

Lemma puts_list {A} (put : Encoder -> A -> Encoder) (reads : Decoder -> A * Decoder) (ok : A -> Prop) :
  (forall e x, ok x -> out_valid (put e x) = true -> puts e (put e x) reads x) ->
  forall xs e, Forall ok xs -> out_valid (fold_left put xs e) = true ->
  puts e (fold_left put xs e) (getList reads (length xs)) xs.
Proof.
  intros Hput. induction xs as [|x xs IH]; intros e Hok Hv; cbn [fold_left length getList] in *.
  { split; [done|]. exists []. split; [by rewrite app_nil_r|done]. }
  apply Forall_cons in Hok as [Hx Hok]. destruct (IH _ Hok Hv) as (V1 & b1 & E1 & G1).
  destruct (Hput e x Hx V1) as (V2 & b2 & E2 & G2). split; [done|]. exists (b2 ++ b1).
  split; [by rewrite E1, E2, app_assoc|]. intros rest. rewrite <- app_assoc, G2. by rewrite G1.
Qed.
Lemma puts_strings maximum xs e : maximum < 2 ^ 32 -> out_valid (fold_left (fun e symbol => putString symbol maximum e) xs e) = true ->
  puts e (fold_left (fun e symbol => putString symbol maximum e) xs e) (getList (getString maximum) (length xs)) xs.
Proof.
  intros Hm. apply (puts_list (fun e symbol => putString symbol maximum e) _ (fun _ => True)); [|by apply Forall_true].
  intros e' x _ Hv. apply putString_valid in Hv as (Hv & E & L & N); [|done]. split; [done|].
  eexists. split; [exact E|]. intros rest. rewrite <- app_assoc. by apply getString_app.
Qed.

(** ** Configuration and status *)

Lemma puts_venues venues : forall e, size venues <= 64 -> out_valid (putVenues venues e) = true ->
  puts e (putVenues venues e) (getVenues (length venues)) venues.
Proof.
  induction venues as [|venue venues IH]; intros e Hn Hv; cbn [putVenues length getVenues] in *.
  { split; [done|]. exists []. split; [by rewrite app_nil_r|done]. }
  unfold putVenue in *.
  destruct (Z.ltb_spec 4096 (size (ve_instruments venue))) as [|Hi]; [done|].
  destruct (IH _ ltac:(lia) Hv) as (V1 & b1 & E1 & G1).
  destruct (puts_strings 128 (ve_instruments venue) _ ltac:(lia) V1) as (V2 & b2 & E2 & G2).
  unfold u32 in *. rewrite Z.mod_small in * by lia. put_back V2. split; [done|].
  eexists. split.
  - put_bytes. rewrite <- !app_assoc. reflexivity.
  - intros rest. rewrite <- !app_assoc. get_on. rewrite getPod_app by (split; cbn; lia). cbn [in_valid negb orb].
    rewrite (proj2 (Z.ltb_ge _ _)) by lia. rewrite Nat2Z.id, G2, G1. by destruct venue.
Qed.

(** The members of a configuration have the width of their types. *)
Record configFits (config : RecorderServiceConfig) : Prop := {
  cn_mask : in_u16 (sc_channelMask config);
  cn_duration : in_u64 (sc_durationSec config);
  cn_maximum : in_u64 (sc_maximumBytes config);
  cn_segment : in_u64 (sc_segmentBytes config);
  cn_retained : in_u64 (sc_retainedCompressedBytes config);
  cn_reference : in_u64 (sc_maximumReferenceBytes config);
  cn_queue : in_u32 (sc_writerQueueRecords config);
}.
Lemma puts_config config e : configFits config -> out_valid (encodeConfig config e) = true ->
  puts e (encodeConfig config e) decodeConfig config.
Proof.
  intros [C1 C2 C3 C4 C5 C6 C7]. unfold encodeConfig, putPath. cbv zeta. intros Hv.
  destruct (Nat.eqb_spec (length (sc_venues config)) 0) as [|H0]; [done|].
  destruct (Z.ltb_spec 64 (size (sc_venues config))) as [|Hn]; [done|]. cbn [orb] in *.
  destruct (puts_venues (sc_venues config) _ Hn Hv) as (V1 & b1 & E1 & G1).
  unfold u32 in *. rewrite Z.mod_small in * by lia. put_back V1. split; [done|]. eexists. split.
  - put_bytes. rewrite <- !app_assoc. reflexivity.
  - intros rest. rewrite <- !app_assoc. unfold decodeConfig. get_on.
    rewrite getPod_app by (split; cbn; lia). cbn [in_valid negb orb]. rewrite (proj2 (Z.eqb_neq _ _)) by lia.
    rewrite (proj2 (Z.ltb_ge _ _)) by lia. cbn [orb]. rewrite Nat2Z.id, G1. by destruct config.
Qed.

(** The server reads the configuration the client sent, or nothing is sent. *)
Theorem service_config_decoded config : configFits config -> out_valid (encodeConfig config newEncoder) = true ->
  exists d, decodeConfig (newDecoder (out_bytes (encodeConfig config newEncoder))) = (config, d) /\ done d = true.
Proof.
  intros Hf Hv. destruct (puts_config config newEncoder Hf Hv) as (_ & bytes & E & G). rewrite E. cbn [newEncoder out_bytes app].
  specialize (G []). rewrite app_nil_r in G. eexists. split; [exact G|reflexivity].
Qed.

(** The members of a status have the width of their types. *)
Record statusFits (value : RecorderServiceStatus) : Prop := {
  sn_epoch : in_u64 (ss_producerEpoch value);
  sn_loss : in_u64 (ss_lossEpoch value);
  sn_generation : in_u64 (ss_cutGeneration value);
  sn_safe : in_u64 (ss_safeMonotonicNs value);
  sn_records : in_u64 (ss_records value);
  sn_gaps : in_u64 (ss_gaps value);
  sn_projected : in_u64 (ss_projectedBytes value);
  sn_sources : in_u32 (ss_sourceCount value);
  sn_started : in_i64 (ss_startedReceiveNs value);
  sn_monotonic : in_u64 (ss_startedMonotonicNs value);
}.
Lemma statusOf_code status : statusOf (statusCode status) = Some status.
Proof. by destruct status. Qed.
Lemma statusCode_fits status : fits l_u32 (statusCode status).
Proof. destruct status; split; done. Qed.
Lemma puts_status value e : statusFits value -> out_valid (encodeStatus value e) = true ->
  puts e (encodeStatus value e) decodeStatus value.
Proof.
  intros [C1 C2 C3 C4 C5 C6 C7 C8 C9 C10]. unfold encodeStatus, putPath. cbv zeta. cbn [fold_left]. intros Hv. put_back Hv.
  split; [done|]. eexists. split.
  - put_bytes. rewrite <- !app_assoc. reflexivity.
  - intros rest. rewrite <- !app_assoc. unfold decodeStatus. do 6 rewrite getBoolean_app.
    rewrite getPod_app by apply statusCode_fits. get_on. rewrite statusOf_code. cbn [default].
    rewrite bool_decide_eq_false_2 by done. by destruct value.
Qed.

(** ** Packets *)

Lemma packet_nonempty operation e : packet operation e <> [] ->
  out_valid e = true /\ size (out_bytes e) <= kRecorderServiceMaximumMessage - 16.
Proof.
  unfold packet. destruct (out_valid e); [|done]. change (sizeofz l_Header) with 16. cbn [negb orb].
  destruct (Z.ltb_spec (kRecorderServiceMaximumMessage - 16) (size (out_bytes e))); [done|]. done.
Qed.
Lemma parse_packet operation e : Operation.Configure <= operation <= Operation.SessionSources ->
  out_valid e = true -> size (out_bytes e) <= kRecorderServiceMaximumMessage - 16 ->
  packet operation e <> [] /\ parsePacket (packet operation e) = Some (operation, out_bytes e).
Proof.
  intros Ho Hv Hs. unfold packet. rewrite Hv. change (sizeofz l_Header) with 16. rewrite (proj2 (Z.ltb_ge _ _)) by done.
  cbn [negb orb]. unfold kRecorderServiceMaximumMessage, Operation.Configure, Operation.SessionSources in *.
  unfold u32. rewrite Z.mod_small by lia. set (header := MkHeader _ _ _ _ _).
  assert (fits l_Header header) as Hf.
  { assert (fits l_u32 kMagic) as Hmagic by (split; done). assert (fits (l_raw 2) [0; 0]) as Hpad by (split; [done|by apply bytes_okb]).
    split; [split; [split; [split|]|]|]; cbn [fst snd]; [exact Hmagic| | |exact Hpad|]; split; cbn; lia. }
  pose proof (obj_length _ _ Hf) as Hl. change (sizeof l_Header) with 16%nat in Hl. split.
  - intros E. apply (f_equal length) in E. rewrite length_app, Hl in E. done.
  - unfold parsePacket. change (sizeofz l_Header) with 16. change (sizeof l_Header) with 16%nat.
    rewrite length_app, Hl, view_obj, (proj2 (Z.ltb_ge _ _)) by (done || lia). cbn [header hd_magic hd_reserved hd_size hd_operation].
    rewrite Z.eqb_refl, (proj2 (Z.eqb_eq (size (out_bytes e)) _)) by lia. cbn [negb orb Z.eqb].
    unfold Operation.Configure, Operation.SessionSources. rewrite !(proj2 (Z.ltb_ge _ _)) by lia. cbn [orb].
    by rewrite drop_app_length' by (by rewrite Hl).
Qed.

(** Every reply that is sent is read as the answer it was made from. *)
Lemma reply_read operation status refusal body : Operation.Configure <= operation <= Operation.SessionSources ->
  reply operation (status, refusal, body) <> [] ->
  decodeReply (reply operation (status, refusal, body)) operation =
    (status, refusal, if isOk status then out_bytes body else []).
Proof.
  intros Ho. unfold reply. set (e := putString refusal 4096 _). set (e' := if isOk status then _ else _).
  intros Hn. destruct (packet_nonempty _ _ Hn) as [Hv Hs]. cbn in Hv, Hs.
  apply andb_true_iff in Hv as [Hv Hb]. assert (out_valid e = true) as He by (unfold e' in Hv; by destruct (isOk status)).
  assert (out_bytes e' = out_bytes e ++ (if isOk status then out_bytes body else [])) as Eb.
  { unfold e'. destruct (isOk status); [done|by rewrite app_nil_r]. }
  destruct (parse_packet operation (e' <| out_valid ::= fun valid => valid && out_valid body |>) Ho) as [_ Hp];
    [cbn; by rewrite Hv, Hb|done|]. unfold decodeReply.
  rewrite Hp, Z.eqb_refl. cbn [negb out_bytes]. change (out_bytes (e' <| out_valid ::= _ |>)) with (out_bytes e').
  rewrite Eb. unfold e in *. clear e e' Hn Hs Hv Hp Eb. put_back He. put_bytes. cbn [out_bytes newEncoder app].
  rewrite <- !app_assoc. unfold newDecoder. rewrite getPod_app by apply statusCode_fits.
  rewrite getString_app by done. rewrite statusOf_code. cbn [in_valid negb orb in_rest done].
  destruct (isOk status); cbn; [done|]. done.
Qed.

(** ** What fits is sent *)

Lemma putPod_room {A} (l : layout A) value bytes : fits l value -> size bytes + sizeofz l <= kRecorderServiceMaximumMessage ->
  putPod l value (MkEncoder bytes true) = MkEncoder (bytes ++ obj l value) true.
Proof.
  intros Hf Hs. unfold putPod, kRecorderServiceMaximumMessage, sizeofz, u64 in *. cbn [out_bytes].
  rewrite Z.mod_small by lia. by rewrite (proj2 (Z.ltb_ge _ _)) by lia.
Qed.
Lemma reply_sent operation bytes : Operation.Configure <= operation <= Operation.SessionSources ->
  size bytes <= kRecorderServiceMaximumMessage - 24 ->
  reply operation (Ok, [], MkEncoder bytes true) <> [] /\
  decodeReply (reply operation (Ok, [], MkEncoder bytes true)) operation = (Ok, [], bytes).
Proof.
  intros Ho Hs. assert (reply operation (Ok, [], MkEncoder bytes true) <> []) as Hn; [|split; [done|by rewrite reply_read]].
  unfold reply. assert (putString [] 4096 (putPod l_u32 (statusCode Ok) newEncoder) = MkEncoder (replicate 8 0) true) as ->
    by (vm_compute; reflexivity).
  apply parse_packet; [done|done|]. change (size (replicate 8 0 ++ bytes) <= kRecorderServiceMaximumMessage - 16).
  rewrite length_app, length_replicate. lia.
Qed.

(** ** Pages of sources *)

(** A directory of sources: machine values, each valid at its position. *)
Record directoryOk (sources : list BinaryMarketSource) : Prop := {
  do_fits : Forall (fits l_BinaryMarketSource) sources;
  do_valid : forall i source, sources !! i = Some source -> validBinaryMarketSource source (Z.of_nat i) = true;
  do_count : size sources < 2 ^ 32;
}.
Definition sourceBytes (sources : list BinaryMarketSource) : list Z := concat (map (obj l_BinaryMarketSource) sources).
Lemma sourceBytes_length sources : Forall (fits l_BinaryMarketSource) sources ->
  size (sourceBytes sources) = size sources * 272.
Proof.
  intros Hf. unfold sourceBytes. rewrite obj_array_length by done. change (sizeof l_BinaryMarketSource) with 272%nat. lia.
Qed.
Lemma putSources_room sources : forall bytes, Forall (fits l_BinaryMarketSource) sources ->
  size bytes + size sources * 272 <= kRecorderServiceMaximumMessage ->
  fold_left (fun e source => putPod l_BinaryMarketSource source e) sources (MkEncoder bytes true) =
  MkEncoder (bytes ++ sourceBytes sources) true.
Proof.
  induction sources as [|source sources IH]; intros bytes Hf Hs; cbn [fold_left].
  { by rewrite app_nil_r. }
  apply Forall_cons in Hf as [Hx Hf]. cbn [length] in Hs. rewrite putPod_room; [|done|change (sizeofz l_BinaryMarketSource) with 272; lia].
  rewrite IH; [|done|rewrite length_app, obj_length by done; change (sizeof l_BinaryMarketSource) with 272%nat; lia].
  unfold sourceBytes. cbn [map concat]. rewrite <- app_assoc. reflexivity.
Qed.
Lemma getSources_app sources : forall position rest, Forall (fits l_BinaryMarketSource) sources ->
  (forall i source, sources !! i = Some source -> validBinaryMarketSource source (position + Z.of_nat i) = true) ->
  getSources (length sources) position (MkDecoder (sourceBytes sources ++ rest) true) = (sources, MkDecoder rest true).
Proof.
  induction sources as [|source sources IH]; intros position rest Hf Hv; [done|]. apply Forall_cons in Hf as [Hx Hf].
  cbn [length getSources]. unfold sourceBytes. cbn [map concat]. fold (sourceBytes sources). rewrite <- app_assoc, getPod_app by done.
  pose proof (Hv 0%nat source eq_refl) as V0. rewrite Z.add_0_r in V0. rewrite V0. cbn [negb].
  rewrite IH; [done|done|]. intros i s Hi. specialize (Hv (S i) s Hi). by replace (position + 1 + Z.of_nat i) with (position + Z.of_nat (S i)) by lia.
Qed.

Lemma take_page {A} n (xs : list A) : take (length (take n xs)) xs = take n xs.
Proof.
  rewrite length_take. destruct (Nat.le_ge_cases n (length xs)) as [Hl|Hl]; [by rewrite Nat.min_l|].
  by rewrite Nat.min_r, !take_ge.
Qed.

Section served.
Context `{CxetMarket} `{ByteBlockCodec} (control : Z -> list Z -> Answer) (view : ServiceView).

(** A request that is answered with a body. *)
Lemma served operation e body : Operation.Configure <= operation <= Operation.SessionSources ->
  out_valid e = true -> size (out_bytes e) <= kRecorderServiceMaximumMessage - 16 ->
  handle control view operation (out_bytes e) = (Ok, [], MkEncoder body true) -> size body <= kRecorderServiceMaximumMessage - 24 ->
  exists response, serve control view (packet operation e) = Some response /\ decodeReply response operation = (Ok, [], body).
Proof.
  intros Ho Hv Hs Hh Hb. destruct (parse_packet operation e Ho Hv Hs) as [_ Hp].
  destruct (reply_sent operation body Ho Hb) as [Hn Hd]. unfold serve. rewrite Hp. cbn [mbind option_bind].
  rewrite Hh, bool_decide_eq_false_2 by done. eexists. split; [reflexivity|exact Hd].
Qed.
Lemma requestPage_bytes offset limit : in_u32 offset -> in_u32 limit ->
  requestPage offset limit = MkEncoder (obj l_u32 offset ++ obj l_u32 limit) true.
Proof.
  intros Ho Hl. unfold requestPage, newEncoder. rewrite putPod_room by (done || (vm_compute; discriminate)).
  rewrite putPod_room by (done || (change (sizeofz l_u32) with 4; change (size ([] ++ obj l_u32 offset)) with 4; vm_compute; discriminate)).
  done.
Qed.

Lemma putPods_header (generation total next count : Z) : in_u64 generation -> in_u32 total -> in_u32 next -> in_u32 count ->
  putPod l_u32 count (putPod l_u32 next (putPod l_u32 total (putPod l_u64 generation newEncoder))) =
  MkEncoder (obj l_u64 generation ++ obj l_u32 total ++ obj l_u32 next ++ obj l_u32 count) true.
Proof.
  intros Hg Ht Hn Hc. unfold newEncoder.
  do 4 (rewrite putPod_room; [|done|rewrite ?length_app, ?obj_length by done; vm_compute; discriminate]).
  by rewrite <- !app_assoc.
Qed.

(** A client that asks the service for a page of the source directory of its
    latest cut gets exactly the sources of that page, with the generation of the cut, the
    number of all sources and the offset of the next page. *)
Theorem service_catalog_exact cut offset limit : sv_cut view = Some cut ->
  in_u64 (cut_generation cut) -> directoryOk (cut_sources cut) ->
  0 <= offset <= size (cut_sources cut) -> 1 <= limit <= 256 ->
  let page := take (Z.to_nat limit) (drop (Z.to_nat offset) (cut_sources cut)) in
  exists response, serve control view (packet Operation.Catalog (requestPage offset limit)) = Some response /\
    clientCatalog offset limit response =
      (Ok, MkRecorderCatalog (cut_generation cut) (size (cut_sources cut)) (offset + size page) page).
Proof.
  intros Hcut Hg [Hf Hv Hn] Ho Hl. cbv zeta. set (page := take _ _).
  assert (Z.of_nat (length page) = Z.min limit (size (cut_sources cut) - offset)) as Hp.
  { unfold page. rewrite length_take, length_drop. lia. }
  assert (in_u32 offset /\ in_u32 limit) as [Ho32 Hl32] by mlia.
  assert (Forall (fits l_BinaryMarketSource) page) as Hfp by (by apply Forall_take, Forall_drop).
  set (body := obj l_u64 (cut_generation cut) ++ obj l_u32 (size (cut_sources cut)) ++ obj l_u32 (offset + size page) ++
    obj l_u32 (size page)).
  assert (size body = 20) as Hbody.
  { unfold body. rewrite !length_app, !obj_length by (done || (split; cbn; lia)). done. }
  destruct (served Operation.Catalog (requestPage offset limit) (body ++ sourceBytes page)) as (response & Hs & Hd).
  - done.
  - by rewrite requestPage_bytes.
  - rewrite requestPage_bytes by done. cbn [out_bytes]. rewrite length_app, !obj_length by done. vm_compute. discriminate.
  - rewrite requestPage_bytes by done. cbn [out_bytes]. unfold handle, Operation.Catalog, Operation.Status. cbn [Z.eqb Pos.eqb].
    unfold handleCatalog, newDecoder. rewrite getPod_app by done. rewrite <- (app_nil_r (obj l_u32 limit)), getPod_app by done.
    change (done (MkDecoder [] true)) with true. cbn [negb orb].
    rewrite (proj2 (Z.eqb_neq _ _)), (proj2 (Z.ltb_ge _ _)) by lia. cbn [orb]. rewrite Hcut. cbn [fmap option_fmap option_map default].
    unfold sourcePage, u32. rewrite (Z.mod_small (size (cut_sources cut))), (proj2 (Z.ltb_ge _ _)) by lia.
    rewrite <- Hp, Nat2Z.id, (Z.mod_small (offset + _)) by lia.
    rewrite putPods_header by (done || mlia). fold body. unfold id.
    assert (take (length page) (drop (Z.to_nat offset) (cut_sources cut)) = page) as ->.
    { apply take_page. }
    rewrite putSources_room; [reflexivity|done|].
    change (size body + size page * 272 <= kRecorderServiceMaximumMessage). rewrite Hbody. unfold kRecorderServiceMaximumMessage. lia.
  - rewrite length_app, Nat2Z.inj_add, Hbody, sourceBytes_length by done. unfold kRecorderServiceMaximumMessage. lia.
  - exists response. split; [done|]. unfold clientCatalog, withBody. rewrite Hd. cbn [isOk negb]. change (isOk Ok) with true. cbn [negb].
    unfold decodeSources, newDecoder, body. rewrite <- !app_assoc. rewrite getPod_app by exact Hg.
    do 3 (rewrite getPod_app by (split; cbn; lia)). cbn [in_valid negb orb].
    rewrite !(proj2 (Z.ltb_ge _ _)) by lia. cbn [orb]. rewrite Nat2Z.id, <- (app_nil_r (sourceBytes page)), getSources_app.
    + change (done (MkDecoder [] true)) with true. reflexivity.
    + done.
    + intros i source Hi. unfold page in Hi. apply lookup_take_Some in Hi as [Hi _]. rewrite lookup_drop in Hi.
      specialize (Hv _ _ Hi). by replace (offset + Z.of_nat i) with (Z.of_nat (Z.to_nat offset + i)) by lia.
Qed.

(** ** Chunks of blocks *)

Lemma requestBlock_bytes generation index offset maximum : in_u64 generation -> in_u32 index -> in_u32 offset -> in_u32 maximum ->
  requestBlock generation index offset maximum =
  MkEncoder (obj l_u64 generation ++ obj l_u32 index ++ obj l_u32 offset ++ obj l_u32 maximum) true.
Proof.
  intros Hg Hi Ho Hm. unfold requestBlock, newEncoder.
  do 4 (rewrite putPod_room; [|done|rewrite ?length_app, ?obj_length by done; vm_compute; discriminate]).
  by rewrite <- !app_assoc.
Qed.
(** The part of a chunk before its bytes. *)
Definition chunkHead (generation total offset : Z) (available : bool) (range : CorpusBlockRange) (count : Z) : list Z :=
  obj l_u64 generation ++ obj l_u64 total ++ obj l_u32 offset ++ obj l_u8 (Z.b2z false) ++ obj l_u8 (Z.b2z available) ++
  obj l_u8 (Z.b2z (negb available)) ++ obj l_CorpusBlockRange range ++ obj l_u32 count.
Lemma b2z_fits b : fits l_u8 (Z.b2z b).
Proof. destruct b; split; done. Qed.
Lemma chunkHead_put generation total offset available range count : in_u64 generation -> in_u64 total -> in_u32 offset ->
  fits l_CorpusBlockRange range -> in_u32 count ->
  putPod l_u32 count (putPod l_CorpusBlockRange range (putBoolean (negb available) (putBoolean available (putBoolean false
    (putPod l_u32 offset (putPod l_u64 total (putPod l_u64 generation newEncoder))))))) =
  MkEncoder (chunkHead generation total offset available range count) true /\
  size (chunkHead generation total offset available range count) = 123.
Proof.
  intros Hg Ht Ho Hr Hc. unfold newEncoder, putBoolean, chunkHead. split.
  - do 8 (rewrite putPod_room; [|first [done|apply b2z_fits]|rewrite ?length_app, ?obj_length by first [done|apply b2z_fits]; vm_compute; discriminate]).
    by rewrite <- !app_assoc.
  - rewrite !length_app, !obj_length by first [done|apply b2z_fits]. reflexivity.
Qed.

Lemma range_header range : fits l_CorpusBlockRange range ->
  fits l_BinaryMarketBlockHeader (rg_header range) /\ in_u32 (bh_encodedBytes (rg_header range)).
Proof.
  intros Hr. assert (fits l_BinaryMarketBlockHeader (rg_header range)) as Hh by exact (proj2 Hr). split; [done|]. clear Hr.
  destruct (rg_header range). cbn in Hh. unfold fits_unsigned in Hh. cbn in *. mlia.
Qed.
(** A block that is still retained has the size its reference states. *)
Lemma retained_size cut index range bytes : cut_blocks cut !! index = Some range -> fits l_CorpusBlockRange range ->
  readCorpusRetainedCompressedBlock (sv_publication view) cut index = (Ok, (true, bytes)) ->
  size bytes = 64 + bh_encodedBytes (rg_header range).
Proof.
  intros Hi Hr. destruct (range_header range Hr) as [Hh He]. unfold readCorpusRetainedCompressedBlock. rewrite Hi.
  destruct (sv_publication view) as [publication|]; [|done]. destruct (blockShapeInvalid _); [done|].
  unfold retainedBlock. cbn [mbind option_bind]. destruct (load _ _ publication) as [payload|] eqn:El; [|done].
  destruct (negb _); [done|]. intros Eb.
  assert (bytes = obj l_BinaryMarketBlockHeader (rg_header range) ++ payload) as -> by congruence. clear Eb. unfold load in El. destruct (list_find _ _) as [[? block]|]; [|done].
  destruct (Nat.eqb_spec (length (rb_bytes block)) (Z.to_nat (bh_encodedBytes (rg_header range)))) as [E|]; [|done].
  injection El as <-. rewrite length_app, obj_length, E by done. change (sizeof l_BinaryMarketBlockHeader) with 64%nat. mlia.
Qed.

(** C20: A client that asks for a part of a block of the latest cut gets exactly
    those bytes of the block, its header included, with the reference and the size of the
    block, while the server retains it; after that it is told that it lags, and gets none. *)
Theorem service_block_exact cut generation index offset maximum range available bytes : sv_cut view = Some cut ->
  in_u64 (cut_generation cut) -> generation = 0 \/ generation = cut_generation cut -> in_u32 index ->
  cut_blocks cut !! Z.to_nat index = Some range -> fits l_CorpusBlockRange range ->
  readCorpusRetainedCompressedBlock (sv_publication view) cut (Z.to_nat index) = (Ok, (available, bytes)) ->
  let total := 64 + bh_encodedBytes (rg_header range) in
  in_u32 offset -> offset <= total -> 1 <= maximum <= kRecorderServiceMaximumBlockChunk ->
  exists response,
    serve control view (packet Operation.Block (requestBlock generation index offset maximum)) = Some response /\
    clientReadBlock offset maximum response =
      (Ok, MkRecorderBlockChunk (cut_generation cut) total offset false available (negb available) range
             (if available then take (Z.to_nat maximum) (drop (Z.to_nat offset) bytes) else [])).
Proof.
  intros Hcut Hg Hgen Hi Hrange Hr Hread total Ho Hot Hm. unfold kRecorderServiceMaximumBlockChunk in Hm.
  destruct (range_header range Hr) as [Hh He]. assert (in_u32 maximum /\ in_u64 total) as [Hm32 Ht64] by (unfold total; mlia).
  assert (in_u64 generation) as Hgen64 by (destruct Hgen as [->| ->]; [mlia|done]).
  set (part := if available then take (Z.to_nat maximum) (drop (Z.to_nat offset) bytes) else []).
  set (count := if available then Z.min maximum (total - offset) else 0).
  assert (size part = count) as Hpart.
  { unfold part, count. destruct available; [|done]. pose proof (retained_size _ _ _ _ Hrange Hr Hread).
    rewrite length_take, length_drop. unfold total in *. mlia. }
  assert (take (Z.to_nat count) (drop (Z.to_nat offset) bytes) = part) as Epart.
  { rewrite <- Hpart, Nat2Z.id. unfold part. destruct available; [apply take_page|done]. }
  assert (0 <= count <= 65536 /\ count <= maximum /\ count <= total - offset /\ (available = false -> count = 0)) as (Hc & Hcm & Hct & Hc0) by (unfold count; destruct available; split_and!; lia).
  destruct (chunkHead_put (cut_generation cut) total offset available range count) as [Ehead Hhead]; [done..|mlia|].
  destruct (served Operation.Block (requestBlock generation index offset maximum)
    (chunkHead (cut_generation cut) total offset available range count ++ part)) as (response & Hs & Hd).
  - done.
  - by rewrite requestBlock_bytes.
  - rewrite requestBlock_bytes by done. cbn [out_bytes]. rewrite !length_app, !obj_length by done. vm_compute. discriminate.
  - rewrite requestBlock_bytes by done. cbn [out_bytes]. unfold handle, Operation.Block, Operation.Status, Operation.Catalog.
    cbn [Z.eqb Pos.eqb]. unfold handleBlock, newDecoder. rewrite !getPod_app by done.
    rewrite <- (app_nil_r (obj l_u32 maximum)), getPod_app by done. change (done (MkDecoder [] true)) with true. cbn [negb orb].
    unfold kRecorderServiceMaximumBlockChunk. rewrite (proj2 (Z.eqb_neq _ _)), (proj2 (Z.ltb_ge _ _)) by lia. cbn [orb].
    rewrite Hcut, Hrange.
    assert (negb (generation =? 0) && negb (generation =? cut_generation cut) = false) as ->.
    { destruct Hgen as [->| ->]; [done|]. rewrite Z.eqb_refl. by rewrite andb_false_r. }
    rewrite Hread. change (isOk Ok) with true. cbn [negb]. change (sizeofz l_BinaryMarketBlockHeader) with 64. fold total.
    rewrite (proj2 (Z.ltb_ge _ _)) by lia. cbn [orb].
    assert (available && negb (size bytes =? total) = false) as ->.
    { destruct available; [|done]. pose proof (retained_size _ _ _ _ Hrange Hr Hread) as Hsz. unfold total. rewrite Hsz, Z.eqb_refl. done. }
    fold count. rewrite Ehead, Epart. reflexivity.
  - rewrite length_app, Nat2Z.inj_add, Hhead, Hpart. unfold kRecorderServiceMaximumMessage. lia.
  - exists response. split; [done|]. unfold clientReadBlock, withBody. rewrite Hd. change (isOk Ok) with true. cbn [negb].
    unfold decodeChunk, newDecoder, chunkHead. rewrite <- !app_assoc. rewrite !getPod_app by done. rewrite !getBoolean_app.
    rewrite getPod_app by done. rewrite getPod_app by (split; cbn; lia). cbn [in_valid in_rest negb orb].
    unfold kRecorderServiceMaximumBlockChunk. rewrite Hpart, Z.eqb_refl, !(proj2 (Z.ltb_ge _ _)) by lia. cbn [negb orb].
    assert (negb available && negb (count =? 0) || Bool.eqb (negb available) available = false) as ->.
    { destruct available; [done|]. by rewrite (Hc0 eq_refl). }
    rewrite <- Hpart, Nat2Z.id. rewrite firstn_all.
    change (done (MkDecoder part true <| in_rest ::= drop (length part) |>)) with (bool_decide (drop (length part) part = [])).
    rewrite drop_all. reflexivity.
Qed.
End served.

(** ** Witnesses *)

Section samples.
Import Stored.

Definition servedCut : CorpusCut := default (cutOf 77 appendedState) (pub_latest (wr_publication publishedState)).
Definition sampleStatus : RecorderServiceStatus :=
  MkRecorderServiceStatus true true true false false false Ok 4 0 1 900 1 0 5000 1 1000 900
    (bytes_of_string "/archive/one") (bytes_of_string "one") [].
Definition sampleView : ServiceView :=
  MkServiceView sampleStatus (Some servedCut) (Some (wr_publication publishedState)) [].
Definition refuse (operation : Z) (payload : list Z) : Answer := answer Unimplemented.
Definition servedRange : CorpusBlockRange := default (view l_CorpusBlockRange []) (cut_blocks servedCut !! 0%nat).
Definition servedBlock : list Z := (readCorpusRetainedCompressedBlock (sv_publication sampleView) servedCut 0).2.2.

Lemma servedDirectory : directoryOk (cut_sources servedCut).
Proof.
  assert (cut_sources servedCut = [sampleSource]) as -> by (vm_compute; reflexivity).
  split; [exact (Forall_cons_2 _ _ _ sampleSource_fits (Forall_nil_2 _))| |vm_compute; reflexivity].
  intros [|[|i]] source Hi; [|done..]. injection Hi as <-. vm_compute. reflexivity.
Qed.
Lemma service_catalog_exact_witness : exists response,
  serve refuse sampleView (packet Operation.Catalog (requestPage 0 16)) = Some response /\
  clientCatalog 0 16 response = (Ok, MkRecorderCatalog 1 1 1 [sampleSource]).
Proof.
  assert (in_u64 (cut_generation servedCut)) as Hg by (vm_compute; split; done).
  assert (0 <= 0 <= size (cut_sources servedCut)) as Ho by (vm_compute; split; discriminate).
  destruct (service_catalog_exact refuse sampleView servedCut 0 16 eq_refl Hg servedDirectory Ho ltac:(lia))
    as (response & Hs & Hc).
  exists response. split; [exact Hs|].
  assert (cut_sources servedCut = [sampleSource] /\ cut_generation servedCut = 1) as [E1 E2] by (split; vm_compute; reflexivity).
  rewrite E1, E2 in Hc. exact Hc.
Defined.
Lemma service_block_exact_witness : exists response,
  serve refuse sampleView (packet Operation.Block (requestBlock 0 0 10 20)) = Some response /\
  (clientReadBlock 10 20 response).1 = Ok /\
  bc_bytes (clientReadBlock 10 20 response).2 = take 20 (drop 10 servedBlock).
Proof.
  assert (in_u64 (cut_generation servedCut)) as Hg by (vm_compute; split; done).
  assert (cut_blocks servedCut !! 0%nat = Some servedRange) as Hr by (vm_compute; reflexivity).
  assert (fits l_CorpusBlockRange servedRange) as Hf by (apply fits_checked; vm_compute; reflexivity).
  assert (readCorpusRetainedCompressedBlock (sv_publication sampleView) servedCut 0 = (Ok, (true, servedBlock))) as Hread
    by (vm_compute; reflexivity).
  destruct (service_block_exact refuse sampleView servedCut 0 0 10 20 servedRange true servedBlock eq_refl Hg
    (or_introl eq_refl) ltac:(mlia) Hr Hf Hread ltac:(mlia) ltac:(vm_compute; discriminate)
    ltac:(unfold kRecorderServiceMaximumBlockChunk; lia)) as (response & Hs & Hc).
  exists response. rewrite Hc. split; [exact Hs|]. split; reflexivity.
Defined.
End samples.
