(* ===== verification/Archive.v ===== *)
(** * Archive: finished recordings

    Models [readCorpusRecordingMetadataAt] of
    src/src/Runtime/src/Corpus/CorpusCut.cpp with its file helpers, for a directory
    that does not change during the call, so that the repeated [stat] checks hold.
    Composes the writer with every reader of corpus metadata: what [finalize] leaves
    is accepted by all of them, and they agree. *)
From stdpp Require Import base list numbers strings.
From S2P Require Import Prelude Codec Layout Format Samples DepthTransaction SourceState Disk Metadata.
From S2P Require Import BlockCodec Cut Segment Writer WriterShape WriterInv WriterSteps WriterCalls WriterCuts.
From S2P Require Import WriterRun ActiveCursor.
Import Crc32c.
Local Open Scope Z_scope.

Record CorpusRecordingMetadata := MkRecordingMetadata {
  rm_manifest : BinaryMarketManifest;
  rm_sources : list BinaryMarketSource;
  rm_cutGeneration : Z;
  rm_finalized : bool;
}.

(** [openMetadataFile]: an absent optional file is no error. *)
Definition openMetadataFile (files : Files) (name : string) (optional : bool)
  : Status * option (list Z) :=
  match files (RootFile name) with
  | Some content => (Ok, Some content)
  | None => (if optional then Ok else CorruptData, None)
  end.

(** [readMetadataFile]: the bytes read so far, or the budget is exceeded. *)
Definition readMetadataFile (content : list Z) (bytesRead maximumBytes : Z) : option Z :=
  let size := Z.of_nat (length content) in
  if (maximumBytes <? bytesRead) || (maximumBytes - bytesRead <? size) then None
  else Some (u64 (bytesRead + size)).

Section archive.
Context `{ByteBlockCodec}.

(** Lines 266-283: the source table of the sealed manifest. *)
Definition metadataSources (m : BinaryMarketManifest) (content : list Z)
  : option (list BinaryMarketSource) :=
  let table := view l_BinaryMarketTableHeader (take (sizeof l_BinaryMarketTableHeader) content) in
  let records := drop (sizeof l_BinaryMarketTableHeader) content in
  if negb (validTableHeader l_BinaryMarketSource table kBinaryMarketSourcesMagic
             (mf_sourcesCrc32c m) (mf_maximumBytes m) (mf_sourceCount m)) ||
     negb (crc32c records =? th_recordsCrc32c table) then None
  else
    let sources := view_array l_BinaryMarketSource (Z.to_nat (mf_sourceCount m)) records in
    if validSources sources then Some sources else None.

(** Lines 295-305: the cut and the sealed files disagree. *)
Definition cutDiffers (m : BinaryMarketManifest) (sources : list BinaryMarketSource)
  (cut : CorpusCut) : bool :=
  let cleared (m : BinaryMarketManifest) := m <| mf_manifestCrc32c := 0 |> in
  negb (bool_decide (obj l_BinaryMarketManifest (cleared m) =
                     obj l_BinaryMarketManifest (cleared (cut_manifest cut)))) ||
  negb (length (cut_sources cut) =? length sources)%nat ||
  negb (bool_decide (objects l_BinaryMarketSource (cut_sources cut) =
                     objects l_BinaryMarketSource sources)).

(** Lines 284-307: the optional cut. *)
Definition metadataCut (files : Files) (m : BinaryMarketManifest)
  (sources : list BinaryMarketSource) (bytesRead maximum : Z)
  : Status * Z * option CorpusRecordingMetadata :=
  match openMetadataFile files "cut.bin" true with
  | (_, None) => (Ok, bytesRead, Some (MkRecordingMetadata m sources 0 true))
  | (_, Some content) =>
      match readMetadataFile content bytesRead maximum with
      | None => (OutOfRange, bytesRead, None)
      | Some bytesRead =>
          match decodeCorpusCut content with
          | (Ok, Some cut) =>
              if negb (cut_finalized cut) then (Unknown, bytesRead, None)
              else if cutDiffers m sources cut then (CorruptData, bytesRead, None)
              else (Ok, bytesRead, Some (MkRecordingMetadata m sources (cut_generation cut) true))
          | (status, _) => (status, bytesRead, None)
          end
      end
  end.

Definition readCorpusRecordingMetadataAt (files : Files) (maximum : Z)
  : Status * Z * option CorpusRecordingMetadata :=
  if maximum =? 0 then (InvalidArgument, 0, None)
  else
    match openMetadataFile files "manifest.bin" true with
    | (_, None) => (Unknown, 0, None)
    | (_, Some content) =>
        if negb (Z.of_nat (length content) =? sizeofz l_BinaryMarketManifest)
        then (CorruptData, 0, None)
        else
          match readMetadataFile content 0 maximum with
          | None => (OutOfRange, 0, None)
          | Some bytesRead =>
              let m := view l_BinaryMarketManifest content in
              if negb (validSealedManifest m) then (CorruptData, bytesRead, None)
              else
                match openMetadataFile files "sources.bin" false with
                | (status, None) => (status, bytesRead, None)
                | (_, Some content) =>
                    let sourceBytes := mf_sourceCount m * sizeofz l_BinaryMarketSource in
                    if negb (Z.of_nat (length content) =?
                             sizeofz l_BinaryMarketTableHeader + sourceBytes)
                    then (CorruptData, bytesRead, None)
                    else
                      match readMetadataFile content bytesRead maximum with
                      | None => (OutOfRange, bytesRead, None)
                      | Some bytesRead =>
                          match metadataSources m content with
                          | None => (CorruptData, bytesRead, None)
                          | Some sources => metadataCut files m sources bytesRead maximum
                          end
                      end
                end
          end
    end.

(** ** Agreement with [catalog] *)

Lemma readMetadata_ok content bytesRead maximum :
  0 <= bytesRead -> bytesRead + size content <= maximum -> maximum < 2 ^ 64 ->
  readMetadataFile content bytesRead maximum = Some (bytesRead + size content).
Proof.
  intros Hb Hm Hu. pose proof (size_nonneg content). unfold readMetadataFile, size in *.
  rewrite (proj2 (Z.ltb_ge _ _)), (proj2 (Z.ltb_ge _ _)) by lia. cbn [orb].
  rewrite u64_id; [done|]. mlia.
Qed.

Lemma readManifest_metadata content m :
  readManifest (Some content) = Some m ->
  Z.of_nat (length content) = sizeofz l_BinaryMarketManifest /\
  view l_BinaryMarketManifest content = m /\ validSealedManifest m = true.
Proof.
  unfold readManifest. cbn [mbind option_bind].
  destruct (Z.eqb_spec (Z.of_nat (length content)) (sizeofz l_BinaryMarketManifest)) as [E|]; [|done].
  cbn [negb]. unfold readBytes. destruct (_ <=? _)%nat; [|done].
  cbn [fmap option_fmap option_map mbind option_bind]. rewrite drop_0, take_ge by (unfold sizeofz in E; lia).
  generalize (view l_BinaryMarketManifest content). intros m'.
  destruct (validSealedManifest m') eqn:Ev; cbn [negb]; [|done]. by intros [= <-].
Qed.

Lemma readTable_metadata content crc maximum n sources :
  0 <= n <= kBinaryMarketMaximumSources ->
  readTable l_BinaryMarketSource (Some content) kBinaryMarketSourcesMagic crc maximum n = Some sources ->
  Z.of_nat (length content) = sizeofz l_BinaryMarketTableHeader + n * sizeofz l_BinaryMarketSource /\
  forall m, mf_sourcesCrc32c m = crc -> mf_maximumBytes m = maximum -> mf_sourceCount m = n ->
    validSources sources = true -> metadataSources m content = Some sources.
Proof.
  intros Hn. unfold readTable, metadataSources. cbn [mbind option_bind].
  destruct (readBytes content 0 _) as [hb|] eqn:Eh; [|done].
  unfold readBytes in Eh. destruct (_ <=? _)%nat in Eh; [|done]. injection Eh as <-.
  cbn [fmap option_fmap option_map mbind option_bind]. rewrite drop_0.
  generalize (view l_BinaryMarketTableHeader (take (sizeof l_BinaryMarketTableHeader) content)) as h.
  intros h. destruct (validTableHeader _ h _ _ _ _) eqn:Ev; [|done]. cbn [negb orb].
  assert (th_recordCount h = n) as Hc by (unfold validTableHeader in Ev; by bsplit).
  assert (u64 (th_recordCount h * sizeofz l_BinaryMarketSource) = n * 272) as Hu.
  { rewrite Hc. change (sizeofz l_BinaryMarketSource) with 272. apply u64_id.
    unfold kBinaryMarketMaximumSources in Hn. mlia. }
  rewrite Hu. destruct (Z.eqb_spec (Z.of_nat (length content)) (sizeofz l_BinaryMarketTableHeader + n * 272))
    as [El|]; [|done]. cbn [negb]. intros Hr. split; [exact El|].
  assert (exists bytes, bytes = drop (sizeof l_BinaryMarketTableHeader) content /\
    (if negb (crc32c bytes =? th_recordsCrc32c h) then None
     else Some (view_array l_BinaryMarketSource (Z.to_nat (th_recordCount h)) bytes)) = Some sources)
    as (bytes & -> & Hs).
  { revert Hr. change (sizeofz l_BinaryMarketTableHeader) with 64 in El.
    change (sizeof l_BinaryMarketTableHeader) with 64%nat.
    destruct (Z.eqb_spec (n * 272) 0) as [E0|E0].
    - intros Hr. exists []. split; [|exact Hr]. symmetry. apply drop_ge. lia.
    - unfold readBytes. destruct (_ <=? _)%nat; [|done]. cbn [mbind option_bind].
      rewrite (take_ge (drop 64 content)) by (rewrite length_drop; lia). eauto. }
  intros m H1 H2 H3 Hv. rewrite H1, H2, H3, Ev. cbn [negb orb]. clear Hr. revert Hs.
  generalize (drop (sizeof l_BinaryMarketTableHeader) content) as records. intros records.
  destruct (negb (crc32c records =? _)); [done|]. rewrite Hc. intros [= ->]. by rewrite Hv.
Qed.

Lemma metadata_catalog files m sources manifest table maximum :
  catalog files = (Ok, Some (m, sources)) ->
  files (RootFile "manifest.bin") = Some manifest -> files (RootFile "sources.bin") = Some table ->
  size manifest + size table <= maximum -> maximum < 2 ^ 64 ->
  readCorpusRecordingMetadataAt files maximum =
    metadataCut files m sources (size manifest + size table) maximum.
Proof.
  unfold catalog. intros Hc Fm Fs Hmax Hu. rewrite Fm, Fs in Hc.
  destruct (readManifest (Some manifest)) as [m'|] eqn:Em; [|done].
  destruct (readTable _ _ _ _ _ _) as [sources'|] eqn:Es; [|done].
  destruct (_ || _) eqn:Ev in Hc; [done|]. injection Hc as -> ->. bsplit.
  apply readManifest_metadata in Em as (Hl & Hv & Hvalid).
  assert (0 <= mf_sourceCount m <= kBinaryMarketMaximumSources) as Hn.
  { unfold validSealedManifest, manifestContract in Hvalid. bsplit. lia. }
  destruct (readTable_metadata _ _ _ _ _ Hn Es) as [Hlt Hms].
  unfold readCorpusRecordingMetadataAt, openMetadataFile. rewrite Fm, Fs.
  pose proof (size_nonneg table). pose proof (size_nonneg manifest).
  destruct (Z.eqb_spec maximum 0) as [E0|E0].
  { unfold size in *. change (sizeofz l_BinaryMarketManifest) with 192 in Hl. lia. }
  rewrite Hl, Z.eqb_refl. cbn [negb]. rewrite readMetadata_ok by lia. rewrite Hv, Hvalid. cbn [negb].
  rewrite Hlt, Z.eqb_refl. cbn [negb]. rewrite readMetadata_ok by lia.
  by rewrite (Hms m eq_refl eq_refl eq_refl) by done.
Qed.

(** ** The cut of a finished recording *)

Lemma readCutHeader_written cut : cut_ok cut -> readCutHeader (cutBytes cut) = Some (sealCutHeader cut).
Proof.
  intros Hok. pose proof (sealed_header_valid cut Hok) as Hv.
  destruct (sealCutHeader_ok cut Hok) as (Hf & _ & _ & _ & _ & Hb & _).
  unfold readCutHeader, cutBytes. revert Hv Hf Hb. generalize (sealCutHeader cut) as h. intros h Hv Hf Hb.
  pose proof (obj_length _ _ Hf) as Hl.
  pose proof (readBytes_app [] (obj l_CutHeader h) (cutPayload cut)) as Hr. cbn [app length] in Hr.
  rewrite Hl in Hr. rewrite Hr. cbn [fmap option_fmap option_map mbind option_bind].
  rewrite <- (app_nil_r (obj l_CutHeader h)), view_obj by done.
  rewrite length_app, app_nil_r, Hl, Nat2Z.inj_add. unfold sizeofz in Hb. by rewrite <- Hb, Hv.
Qed.

(** The sealed manifest and the manifest of the cut differ in the checksum only. *)
Lemma sealed_cleared m : mf_headerBytes m = sizeofz l_BinaryMarketManifest ->
  sealManifest m <| mf_manifestCrc32c := 0 |> = m <| mf_manifestCrc32c := 0 |>.
Proof.
  intros Hh. unfold sealManifest. cbv zeta.
  generalize (headerCrc l_BinaryMarketManifest
    (m <| mf_headerBytes := sizeofz l_BinaryMarketManifest |> <| mf_manifestCrc32c := 0 |>)).
  intros crc. destruct m. cbn in Hh |- *. by rewrite Hh.
Qed.

Lemma archived_durable s cut :
  archived s cut -> cut_ok cut -> finalizedCutIsDurable (w_files (wr_disk s)) cut = true.
Proof.
  intros [Fc Fm Fs _ [Em Es] Ef] Hok. unfold finalizedCutIsDurable. rewrite Ef, Fm. cbn [andb].
  pose proof (ok_header _ Hok) as Hh. pose proof (ok_manifest _ Hok) as Hfit. rewrite Em in *.
  assert (mf_headerBytes (wr_manifest s) = sizeofz l_BinaryMarketManifest) as Hhb.
  { unfold cutHeaderInvalid in Hh. change (ch_manifest (cutHeader cut)) with (cut_manifest cut) in Hh.
    rewrite Em in Hh. bsplit. assumption. }
  pose proof (sealed_cleared _ Hhb) as Hcl. pose proof (sealManifest_fits _ Hfit) as Hsf.
  pose proof (sealed_manifest (wr_manifest s)) as Hcrc. revert Hcl Hsf Hcrc.
  generalize (sealManifest (wr_manifest s)) as sm. intros sm Hcl Hsf Hcrc.
  pose proof (obj_length _ _ Hsf) as Hl. rewrite Hl. unfold sizeofz. rewrite Z.eqb_refl. cbn [negb].
  rewrite <- (app_nil_r (obj l_BinaryMarketManifest sm)), view_obj by done. cbv zeta.
  rewrite Hcl, bool_decide_true by reflexivity. rewrite Hcrc, Z.eqb_refl. reflexivity.
Qed.

Lemma sourceCatalog_written files cut :
  cut_ok cut -> files (RootFile "cut.bin") = Some (cutBytes cut) ->
  readCorpusSourceCatalog files = (Ok, cut_sources cut).
Proof.
  intros Hok Fc. unfold readCorpusSourceCatalog. rewrite Fc, readCutHeader_written by done.
  destruct (sealCutHeader_ok cut Hok) as (Hf & _ & _ & _ & _ & _ & Hs & _ & _ & _ & Hsc & _).
  unfold cutBytes. revert Hf Hs Hsc. generalize (sealCutHeader cut) as h. intros h Hf Hs Hsc.
  pose proof (obj_length _ _ Hf) as Hl. rewrite Hs, Nat2Z.id.
  pose proof (ok_sources _ Hok) as Hfs. pose proof (ok_tables _ Hok) as Ht.
  pose proof (objects_length l_BinaryMarketSource (cut_sources cut) Hfs) as Hlo.
  rewrite <- Hl, <- Hlo. unfold cutPayload. rewrite readBytes_app.
  rewrite Hsc, Z.eqb_refl. cbn [negb orb].
  rewrite view_objects by done. unfold cutTablesValid in Ht.
  destruct (validSources (cut_sources cut)); [reflexivity|].
  rewrite andb_false_r in Ht. discriminate.
Qed.

Lemma summary_written files cut :
  cut_ok cut -> cut_finalized cut = true -> files (RootFile "cut.bin") = Some (cutBytes cut) ->
  readCorpusSummary files = (Ok, Some (MkCorpusSummary (cut_manifest cut) (cut_generation cut)
                                         (size (cutBytes cut)) true)).
Proof.
  intros Hok Ef Fc. unfold readCorpusSummary. rewrite Fc, readCutHeader_written by done.
  destruct (sealCutHeader_ok cut Hok) as (Hf & _ & _ & _ & _ & Hb & _).
  assert (size (cutBytes cut) = ch_bytes (sealCutHeader cut)) as ->.
  { unfold cutBytes, size. rewrite length_app, (obj_length _ _ Hf), Hb. unfold sizeofz. lia. }
  change (ch_finalized (sealCutHeader cut)) with (if cut_finalized cut then 1 else 0).
  rewrite Ef. reflexivity.
Qed.

Lemma metadataCut_archived s cut bytesRead maximum :
  archived s cut -> cut_ok cut -> 0 <= bytesRead ->
  bytesRead + size (cutBytes cut) <= maximum -> maximum < 2 ^ 64 ->
  metadataCut (w_files (wr_disk s)) (sealManifest (wr_manifest s)) (wr_sources s) bytesRead maximum =
    (Ok, bytesRead + size (cutBytes cut),
     Some (MkRecordingMetadata (sealManifest (wr_manifest s)) (wr_sources s) (cut_generation cut) true)).
Proof.
  intros Ha Hok Hb Hm Hu. pose proof (archived_durable _ _ Ha Hok) as Hd.
  destruct Ha as [Fc Fm Fs _ [Em Es] Ef]. unfold metadataCut, openMetadataFile. rewrite Fc.
  rewrite readMetadata_ok, decode_written, Ef by done. cbn [negb].
  unfold finalizedCutIsDurable in Hd. rewrite Ef, Fm in Hd. cbn [andb] in Hd.
  pose proof (sealManifest_fits _ (eq_ind _ (fits l_BinaryMarketManifest) (ok_manifest _ Hok) _ Em)) as Hsf.
  unfold cutDiffers. rewrite Em, Es in *. revert Hd Hsf. generalize (sealManifest (wr_manifest s)) as sm.
  intros sm Hd Hsf. destruct (negb _) in Hd; [done|].
  rewrite <- (app_nil_r (obj l_BinaryMarketManifest sm)), view_obj in Hd by done. cbv zeta in Hd.
  apply andb_true_iff in Hd as [_ Hd]. rewrite Hd, Nat.eqb_refl, bool_decide_true by reflexivity.
  reflexivity.
Qed.

End archive.

(** ** Claims *)

Section claims.
Context `{CxetMarket} `{ByteBlockCodec} `{!ByteBlockLaws H0}.

End claims.

(** ** Witness *)

Section samples.
Import Stored.
End samples.
