(* ===== verification/SpscRing.v ===== *)
(** * SpscRing: the single-producer single-consumer ring

    Models src/src/Runtime/src/Capture/Session/Stream/SpscRing.hpp.  One thread runs
    [tryPush], another [tryPop]; each call is split at its atomic accesses, and the
    two threads interleave arbitrarily.  The release store of an index and the
    acquire load that reads it order the slot accesses around them, so the steps of
    an execution have the total order used here.

    Theorems: every interleaving is a FIFO queue, and no slot is written while it is
    read; whatever the producer does, the consumer drains every value that was
    pushed. *)
From stdpp Require Import base list numbers.
From S2P Require Import Prelude.
Local Open Scope Z_scope.

Section ring.
Context {T : Type} (bits : Z).

(** [Capacity] is a power of two of at least 2. *)
Definition kCapacity : Z := 2 ^ bits.
Definition kMask : Z := kCapacity - 1.

(** Where a thread is inside its call; the arguments are its local variables. *)
Inductive Producer :=
| PushIdle
| PushLoaded (value : T) (head : Z)    (* head_ was loaded *)
| PushRoom (value : T) (head : Z)      (* tail_ was loaded: not full *)
| PushWritten (value : T) (head : Z).  (* the slot was written *)
Inductive Consumer :=
| PopIdle
| PopLoaded (tail : Z)
| PopReady (tail : Z)
| PopRead (tail : Z) (value : T).

(** [pushed] and [popped] record the values of completed calls. *)
Record Ring := MkRing {
  r_head : Z;
  r_tail : Z;
  r_slots : list T;
  r_producer : Producer;
  r_consumer : Consumer;
  r_pushed : list T;
  r_popped : list T;
}.
#[export] Instance Ring_eta : Eta Ring := fun r =>
  MkRing (r_head r) (r_tail r) (r_slots r) (r_producer r) (r_consumer r) (r_pushed r) (r_popped r).

Definition nextIndex (index : Z) : Z := Z.land (u64 (index + 1)) kMask.

(** One access of [tryPush(value)]. *)
Definition producerStep (value : T) (r : Ring) : Ring :=
  match r_producer r with
  | PushIdle => r <| r_producer := PushLoaded value (r_head r) |>
  | PushLoaded v head =>
      if nextIndex head =? r_tail r then r <| r_producer := PushIdle |>  (* return false *)
      else r <| r_producer := PushRoom v head |>
  | PushRoom v head =>
      r <| r_slots ::= <[Z.to_nat head := v]> |> <| r_producer := PushWritten v head |>
  | PushWritten v head =>
      r <| r_head := nextIndex head |> <| r_producer := PushIdle |>
        <| r_pushed ::= fun values => values ++ [v] |>  (* return true *)
  end.

(** One access of [tryPop]. *)
Definition consumerStep (r : Ring) : Ring :=
  match r_consumer r with
  | PopIdle => r <| r_consumer := PopLoaded (r_tail r) |>
  | PopLoaded tail =>
      if tail =? r_head r then r <| r_consumer := PopIdle |>  (* return false *)
      else r <| r_consumer := PopReady tail |>
  | PopReady tail =>
      match r_slots r !! Z.to_nat tail with
      | Some value => r <| r_consumer := PopRead tail value |>
      | None => r
      end
  | PopRead tail value =>
      r <| r_tail := nextIndex tail |> <| r_consumer := PopIdle |>
        <| r_popped ::= fun values => values ++ [value] |>  (* return true *)
  end.

Definition approxSize (r : Ring) : Z := Z.land (u64 (r_head r - r_tail r)) kMask.

Definition emptyRing (initial : T) : Ring :=
  MkRing 0 0 (replicate (Z.to_nat kCapacity) initial) PushIdle PopIdle [] [].

Inductive reachable (initial : T) : Ring -> Prop :=
| reach_empty : reachable initial (emptyRing initial)
| reach_push value r : reachable initial r -> reachable initial (producerStep value r)
| reach_pop r : reachable initial r -> reachable initial (consumerStep r).

(** ** Indices *)

Context (Hbits : 1 <= bits <= 63).

Lemma capacity_bounds : 2 <= kCapacity <= 2 ^ 63.
Proof.
  unfold kCapacity. split; [change 2 with (2 ^ 1) at 1|]; apply Z.pow_le_mono_r; lia.
Qed.

Lemma mask_mod x : Z.land x kMask = x mod kCapacity.
Proof.
  unfold kMask, kCapacity. replace (2 ^ bits - 1) with (Z.ones bits) by (rewrite Z.ones_equiv; lia).
  apply Z.land_ones. lia.
Qed.

Abbreviation count xs := (Z.of_nat (length xs)).

(** The index of the [n]-th value. *)
Definition indexOf (n : Z) : Z := n mod kCapacity.

Lemma indexOf_bounds n : 0 <= indexOf n < kCapacity.
Proof. apply Z.mod_pos_bound. pose proof capacity_bounds. lia. Qed.

Lemma nextIndex_of n : nextIndex (indexOf n) = indexOf (n + 1).
Proof.
  pose proof capacity_bounds. pose proof (indexOf_bounds n). unfold nextIndex.
  rewrite mask_mod, u64_id by mlia. unfold indexOf. by rewrite Z.add_mod_idemp_l by lia.
Qed.

(** Indices of values less than a capacity apart differ. *)
Lemma indexOf_apart m n : 0 < n - m < kCapacity -> indexOf m <> indexOf n.
Proof.
  intros Hmn E. unfold indexOf in E. pose proof capacity_bounds.
  pose proof (Z.div_mod m kCapacity ltac:(lia)). pose proof (Z.div_mod n kCapacity ltac:(lia)).
  assert (n - m = kCapacity * (n / kCapacity - m / kCapacity)) as Hd by lia.
  destruct (Z.le_gt_cases (n / kCapacity - m / kCapacity) 0); nia.
Qed.

(** ** The invariant *)

Record ringInv (r : Ring) : Prop := {
  ri_slots : length (r_slots r) = Z.to_nat kCapacity;
  ri_head : r_head r = indexOf (count (r_pushed r));
  ri_tail : r_tail r = indexOf (count (r_popped r));
  ri_fifo : exists queue, r_pushed r = r_popped r ++ queue;
  ri_bound : count (r_pushed r) < count (r_popped r) + kCapacity;
  ri_values : forall n, (length (r_popped r) <= n < length (r_pushed r))%nat ->
    r_slots r !! Z.to_nat (indexOf (Z.of_nat n)) = r_pushed r !! n;
  ri_producer :
    match r_producer r with
    | PushIdle => True
    | PushLoaded _ head => head = r_head r
    | PushRoom _ head => head = r_head r /\
        count (r_pushed r) + 1 < count (r_popped r) + kCapacity
    | PushWritten value head => head = r_head r /\
        count (r_pushed r) + 1 < count (r_popped r) + kCapacity /\
        r_slots r !! Z.to_nat head = Some value
    end;
  ri_consumer :
    match r_consumer r with
    | PopIdle => True
    | PopLoaded tail => tail = r_tail r
    | PopReady tail => tail = r_tail r /\ (length (r_popped r) < length (r_pushed r))%nat
    | PopRead tail value => tail = r_tail r /\ r_pushed r !! length (r_popped r) = Some value
    end;
}.

Lemma fifo_length r : ringInv r -> (length (r_popped r) <= length (r_pushed r))%nat.
Proof. intros Hr. destruct (ri_fifo _ Hr) as [queue ->]. rewrite length_app. lia. Qed.

(** Full and empty are told apart by the indices. *)
Lemma full_iff r : ringInv r ->
  nextIndex (r_head r) = r_tail r <-> count (r_pushed r) + 1 = count (r_popped r) + kCapacity.
Proof.
  intros Hr. pose proof (fifo_length _ Hr). pose proof (ri_bound _ Hr). pose proof capacity_bounds.
  rewrite (ri_head _ Hr), (ri_tail _ Hr), nextIndex_of. split.
  - intros E. destruct (decide (count (r_pushed r) + 1 = count (r_popped r) + kCapacity)); [done|].
    symmetry in E. apply indexOf_apart in E; [done|lia].
  - intros ->. unfold indexOf. rewrite <- (Z.mul_1_l kCapacity) at 1. by rewrite Z.mod_add by lia.
Qed.

Lemma empty_iff r : ringInv r ->
  r_tail r = r_head r <-> length (r_popped r) = length (r_pushed r).
Proof.
  intros Hr. pose proof (fifo_length _ Hr). pose proof (ri_bound _ Hr). pose proof capacity_bounds.
  rewrite (ri_head _ Hr), (ri_tail _ Hr). split; [|by intros ->].
  intros E. destruct (decide (length (r_popped r) = length (r_pushed r))); [done|].
  apply indexOf_apart in E; [done|lia].
Qed.

Lemma empty_inv initial : ringInv (emptyRing initial).
Proof.
  pose proof capacity_bounds. split; cbn; try done.
  - apply length_replicate.
  - by exists [].
  - lia.
  - intros n Hn. lia.
Qed.

Lemma producer_inv value r : ringInv r -> ringInv (producerStep value r).
Proof.
  intros Hr. pose proof (fifo_length _ Hr) as Hl. pose proof Hr as [R1 R2 R3 R4 R5 R6 R7 R8].
  pose proof capacity_bounds as Hc. pose proof (indexOf_bounds (count (r_pushed r))) as Hi.
  unfold producerStep. destruct (r_producer r) as [|v head|v head|v head] eqn:Ep.
  - split; done.
  - destruct (Z.eqb_spec (nextIndex head) (r_tail r)) as [E|E]; [split; done|].
    subst head. split; try done. cbn. split; [done|].
    assert (count (r_pushed r) + 1 <> count (r_popped r) + kCapacity) by (by rewrite <- full_iff). lia.
  - destruct R7 as [-> Hroom]. rewrite R2 in *.
    assert (forall n, (length (r_popped r) <= n < length (r_pushed r))%nat ->
      <[Z.to_nat (indexOf (count (r_pushed r))) := v]> (r_slots r) !! Z.to_nat (indexOf (Z.of_nat n)) =
      r_pushed r !! n) as Hv.
    { intros n Hn. rewrite list_lookup_insert_ne; [by apply R6|].
      assert (indexOf (Z.of_nat n) <> indexOf (count (r_pushed r))) by (apply indexOf_apart; lia).
      pose proof (indexOf_bounds (Z.of_nat n)). lia. }
    split; cbn; try done; [by rewrite length_insert|]. split_and!; [done..|].
    apply list_lookup_insert_eq. rewrite R1. lia.
  - destruct R7 as (-> & Hroom & Hs). split; cbn; try done.
    + rewrite R2, nextIndex_of, length_app. cbn. f_equal. lia.
    + destruct R4 as [queue ->]. exists (queue ++ [v]). by rewrite app_assoc.
    + rewrite length_app. cbn. lia.
    + intros n Hn. rewrite length_app in Hn. cbn in Hn.
      destruct (decide (n = length (r_pushed r))) as [->|Hne].
      * rewrite <- R2, Hs, lookup_app_r, Nat.sub_diag by lia. done.
      * rewrite lookup_app_l by lia. apply R6. lia.
    + destruct (r_consumer r) as [|t|t|t x]; try done; rewrite ?length_app; cbn.
      * destruct R8. split; [done|lia].
      * destruct R8 as [? Hx]. split; [done|]. by rewrite lookup_app_l by (by eapply lookup_lt_Some).
Qed.

Lemma consumer_inv r : ringInv r -> ringInv (consumerStep r).
Proof.
  intros Hr. pose proof (fifo_length _ Hr) as Hl. pose proof Hr as [R1 R2 R3 R4 R5 R6 R7 R8].
  unfold consumerStep. destruct (r_consumer r) as [|tail|tail|tail x] eqn:Ec.
  - split; done.
  - destruct (Z.eqb_spec tail (r_head r)) as [E|E]; [split; done|]. subst tail. split; try done. cbn.
    split; [done|]. assert (length (r_popped r) <> length (r_pushed r)) by (by rewrite <- empty_iff). lia.
  - destruct R8 as [-> Hlt]. destruct (r_slots r !! _) as [x|] eqn:Ex; [|done]. split; try done. cbn.
    split; [done|]. rewrite <- R6, <- R3, Ex by lia. done.
  - destruct R8 as [-> Hx]. pose proof (lookup_lt_Some _ _ _ Hx) as Hlt.
    destruct R4 as [queue Hq]. destruct queue as [|y queue].
    { rewrite app_nil_r in Hq. rewrite Hq in Hlt. lia. }
    assert (y = x) as ->.
    { rewrite Hq, lookup_app_r, Nat.sub_diag in Hx by lia. by injection Hx. }
    split; cbn; try done.
    + rewrite R3, nextIndex_of, length_app. cbn. f_equal. lia.
    + exists queue. by rewrite Hq, <- app_assoc.
    + rewrite length_app. cbn. lia.
    + intros n Hn. rewrite length_app in Hn. cbn in Hn. apply R6. lia.
    + destruct (r_producer r) as [|v h|v h|v h]; try done; rewrite ?length_app; cbn;
        [destruct R7; split; [done|lia]|destruct R7 as (? & ? & ?); split_and!; [done|lia|done]].
Qed.

Lemma ring_reachable_inv initial r : reachable initial r -> ringInv r.
Proof. induction 1; auto using empty_inv, producer_inv, consumer_inv. Qed.

(** ** Schedules *)

(** [Some value]: a step of the producer, whose next call pushes [value]; [None]: a step of
    the consumer. *)
Definition exec (schedule : list (option T)) (r : Ring) : Ring :=
  fold_left (fun r step => match step with Some value => producerStep value r | None => consumerStep r end)
    schedule r.
Definition consumerSteps (schedule : list (option T)) : nat :=
  length (List.filter (fun step => match step with None => true | Some _ => false end) schedule).

(** Steps of the consumer so far, counted in completed calls. *)
Definition progress (r : Ring) : nat :=
  4 * length (r_popped r) +
  match r_consumer r with PopIdle => 0 | PopLoaded _ => 1 | PopReady _ => 2 | PopRead _ _ => 3 end.

Lemma producer_progress value r : progress (producerStep value r) = progress r /\
  r_pushed r `prefix_of` r_pushed (producerStep value r).
Proof.
  unfold producerStep. destruct (r_producer r) as [|v h|v h|v h]; [done| |done|];
    [by destruct (_ =? _)|]. split; [done|]. cbn. by exists [v].
Qed.

Lemma consumer_progress r : ringInv r -> (length (r_popped r) < length (r_pushed r))%nat ->
  progress (consumerStep r) = S (progress r) /\ r_pushed (consumerStep r) = r_pushed r.
Proof.
  intros Hr Hlt. pose proof Hr as [R1 R2 R3 R4 R5 R6 R7 R8].
  unfold progress, consumerStep. destruct (r_consumer r) as [|tail|tail|tail x] eqn:Ec;
    cbn; [split; [lia|done]| | |].
  - subst tail. destruct (Z.eqb_spec (r_tail r) (r_head r)) as [E|E]; [|cbn; split; [lia|done]].
    apply empty_iff in E; [lia|done].
  - destruct R8 as [-> _]. rewrite R3, (R6 (length (r_popped r))) by lia.
    apply lookup_lt_is_Some in Hlt as [x ->]. cbn. split; [lia|done].
  - rewrite length_app. cbn. split; [lia|done].
Qed.

Lemma consumer_pushed r : r_pushed (consumerStep r) = r_pushed r.
Proof.
  unfold consumerStep. destruct (r_consumer r) as [|t|t|t x]; try done; [by destruct (_ =? _)|].
  by destruct (_ !! _).
Qed.
Lemma consumer_popped r : (length (r_popped r) <= length (r_popped (consumerStep r)))%nat.
Proof.
  unfold consumerStep. destruct (r_consumer r) as [|t|t|t x]; try done; [by destruct (_ =? _)| |].
  - by destruct (_ !! _).
  - cbn. rewrite length_app. lia.
Qed.
Lemma producer_popped value r : r_popped (producerStep value r) = r_popped r.
Proof.
  unfold producerStep. destruct (r_producer r) as [|v h|v h|v h]; try done. by destruct (_ =? _).
Qed.

Lemma exec_drains target schedule : forall r,
  ringInv r -> (target <= length (r_pushed r))%nat ->
  (4 * target <= progress r + consumerSteps schedule)%nat ->
  ringInv (exec schedule r) /\ r_pushed r `prefix_of` r_pushed (exec schedule r) /\
  (target <= length (r_popped (exec schedule r)))%nat.
Proof.
  induction schedule as [|step schedule IH]; intros r Hr Ht Hp; cbn [exec fold_left].
  { split_and!; [done..|]. unfold progress, consumerSteps in Hp. cbn in Hp.
    destruct (r_consumer r); lia. }
  unfold consumerSteps in Hp. cbn [List.filter] in Hp.
  destruct step as [value|]; cbn [length] in Hp.
  - destruct (producer_progress value r) as [Hpr Hpre].
    destruct (IH (producerStep value r)) as (I1 & I2 & I3); [by apply producer_inv| | |].
    + apply prefix_length in Hpre. lia.
    + unfold consumerSteps. lia.
    + split_and!; [done| |done]. by etrans.
  - destruct (decide (target <= length (r_popped r))%nat) as [Hd|Hd].
    + destruct (IH (consumerStep r)) as (I1 & I2 & I3); [by apply consumer_inv| | |].
      * by rewrite consumer_pushed.
      * pose proof (consumer_popped r). unfold progress. lia.
      * rewrite consumer_pushed in I2. done.
    + destruct (consumer_progress r Hr) as [Hs Hpu]; [lia|].
      destruct (IH (consumerStep r)) as (I1 & I2 & I3); [by apply consumer_inv|by rewrite Hpu| |].
      * unfold consumerSteps. lia.
      * rewrite Hpu in I2. done.
Qed.

Lemma reachable_exec initial schedule : forall r,
  reachable initial r -> reachable initial (exec schedule r).
Proof.
  induction schedule as [|[value|] schedule IH]; intros r Hr; [done| |]; apply IH; by constructor.
Qed.

(** ** Claims *)

(** C37: The ring is a FIFO queue under every interleaving of the two threads: what was
    pushed is what was popped followed by what is queued, never more than the capacity
    less one, which [approxSize] counts when nothing moves while it runs; and the producer never writes the slot the
    consumer is about to read. *)
Theorem spsc_fifo initial r :
  reachable initial r ->
  (exists queue, r_pushed r = r_popped r ++ queue /\ count queue <= kCapacity - 1 /\
     approxSize r = count queue) /\
  (forall value head tail, r_producer r = PushRoom value head -> r_consumer r = PopReady tail ->
     head <> tail).
Proof.
  intros Hr%ring_reachable_inv. pose proof capacity_bounds as Hc. split.
  - destruct (ri_fifo _ Hr) as [queue Hq]. exists queue. split; [done|].
    pose proof (ri_bound _ Hr) as Hb. rewrite Hq, length_app in Hb. split; [lia|].
    unfold approxSize. rewrite mask_mod, (ri_head _ Hr), (ri_tail _ Hr), Hq, length_app, Nat2Z.inj_add.
    unfold indexOf. set (p := count (r_popped r)) in *. set (q := count queue) in *.
    assert (0 <= q < kCapacity) as Hq' by lia.
    unfold u64. rewrite (Z.mod_mod_divide _ _ kCapacity).
    2: { unfold kCapacity. exists (2 ^ (64 - bits)). rewrite <- Z.pow_add_r by lia. f_equal. lia. }
    rewrite Zminus_mod_idemp_l, Zminus_mod_idemp_r.
    replace (p + q - p) with q by lia. by apply Z.mod_small.
  - intros value head tail Hp Hco. pose proof (ri_producer _ Hr) as R7. pose proof (ri_consumer _ Hr) as R8.
    rewrite Hp in R7. rewrite Hco in R8. destruct R7 as [-> H7], R8 as [-> H8].
    intros E. symmetry in E. apply empty_iff in E; [lia|done].
Qed.

(** The consumer always makes progress: from every reachable state, whatever the
    producer does in between, four steps of the consumer per queued value deliver every
    value pushed so far, in order. *)
Theorem spsc_drains initial r schedule :
  reachable initial r ->
  (4 * (length (r_pushed r) - length (r_popped r)) <= consumerSteps schedule)%nat ->
  r_pushed r `prefix_of` r_popped (exec schedule r).
Proof.
  intros Hr%ring_reachable_inv Hs. pose proof (fifo_length _ Hr) as Hl.
  destruct (exec_drains (length (r_pushed r)) schedule r Hr) as (I1 & I2 & I3);
    [lia|unfold progress; lia|].
  destruct (ri_fifo _ I1) as [queue Hq]. rewrite Hq in I2. destruct I2 as [rest Hk].
  exists (drop (length (r_pushed r)) (r_popped (exec schedule r))).
  apply (f_equal (take (length (r_pushed r)))) in Hk.
  rewrite take_app_le, take_app_length in Hk by lia. rewrite <- Hk at 1. by rewrite take_drop.
Qed.

End ring.

(** ** Witnesses *)

Section samples.
(** A ring of four slots: two pushes interleaved with a pop. *)
Definition sampleSchedule : list (option Z) :=
  [Some 7; Some 7; Some 7; Some 7; Some 8; None; Some 8; None; Some 8; None; Some 8].
Definition sampleRing : Ring := exec 2 sampleSchedule (emptyRing 2 0).

Example sampleRing_values : (r_pushed sampleRing, r_popped sampleRing, approxSize 2 sampleRing) = ([7; 8], [], 2).
Proof. vm_compute. reflexivity. Qed.

Lemma sampleRing_reachable : reachable 2 0 sampleRing.
Proof. exact (reachable_exec 2 0 sampleSchedule (emptyRing 2 0) (reach_empty 2 0)). Qed.

Lemma spsc_fifo_witness :
  (exists queue, r_pushed sampleRing = r_popped sampleRing ++ queue /\
     Z.of_nat (length queue) <= kCapacity 2 - 1 /\ approxSize 2 sampleRing = Z.of_nat (length queue)) /\
  (forall value head tail, r_producer sampleRing = PushRoom value head ->
     r_consumer sampleRing = PopReady tail -> head <> tail).
Proof. exact (spsc_fifo 2 ltac:(lia) 0 sampleRing sampleRing_reachable). Defined.

Lemma spsc_drains_witness :
  r_pushed sampleRing `prefix_of` r_popped (exec 2 (replicate 8 None) sampleRing).
Proof.
  exact (spsc_drains 2 ltac:(lia) 0 sampleRing (replicate 8 None) sampleRing_reachable
    ltac:(vm_compute; lia)).
Defined.
End samples.
