(* ===== verification/Json.v ===== *)
(** * Json: the text scanner and the text writer of session files

    Models Common/MiniJsonParser.hpp (the pull scanner over one document), Common/
    JsonString.hpp (escaping) and the decimal printing of [std::to_chars].

    The scanner's [json_] and [pos_] are kept as the text that is left: no operation
    moves back.  An operation that returns [false] ends every caller's work, so failure
    is [None] and what the scanner has read up to it is dropped. *)
From stdpp Require Import base list numbers strings.
From S2P Require Import Prelude.
Local Open Scope Z_scope.

(** ** Characters *)

Module Ch.
Definition backspace : Z := 8.
Definition tab : Z := 9.
Definition newline : Z := 10.
Definition formFeed : Z := 12.
Definition return_ : Z := 13.
Definition space : Z := 32.
Definition quote : Z := 34.
Definition plus : Z := 43.
Definition comma : Z := 44.
Definition minus : Z := 45.
Definition dot : Z := 46.
Definition slash : Z := 47.
Definition zero : Z := 48.
Definition colon : Z := 58.
Definition openBracket : Z := 91.
Definition backslash : Z := 92.
Definition closeBracket : Z := 93.
Definition openBrace : Z := 123.
Definition closeBrace : Z := 125.
Definition upperE : Z := 69.
Definition lower (letter : Z) : Z := 96 + letter.
End Ch.

Definition isSpace (c : Z) : bool :=
  (c =? Ch.space) || (c =? Ch.tab) || (c =? Ch.newline) || (c =? Ch.return_).
Definition isDigit (c : Z) : bool := (48 <=? c) && (c <=? 57).

(** ** Moving over the text *)

Fixpoint skipWs (s : list Z) : list Z :=
  match s with
  | c :: rest => if isSpace c then skipWs rest else s
  | [] => []
  end.

Definition consume (expected : Z) (s : list Z) : option (list Z) :=
  match s with
  | c :: rest => if c =? expected then Some rest else None
  | [] => None
  end.

Definition consumeLiteral (literal : list Z) (s : list Z) : option (list Z) :=
  if bool_decide (take (length literal) s = literal) then Some (drop (length literal) s) else None.

Definition finish (s : list Z) : bool := bool_decide (skipWs s = []).

Definition parseObjectStart (s : list Z) : option (list Z) :=
  s ← consume Ch.openBrace (skipWs s); Some (skipWs s).
Definition parseObjectEnd (s : list Z) : option (list Z) := consume Ch.closeBrace (skipWs s).
Definition parseArrayStart (s : list Z) : option (list Z) :=
  s ← consume Ch.openBracket (skipWs s); Some (skipWs s).
Definition parseArrayEnd (s : list Z) : option (list Z) := consume Ch.closeBracket (skipWs s).
Definition parseComma (s : list Z) : option (list Z) := consume Ch.comma (skipWs s).

(** The answer, and the text with its leading space skipped. *)
Definition peek (c : Z) (s : list Z) : bool * list Z :=
  let s := skipWs s in
  (match s with first :: _ => first =? c | [] => false end, s).

(** ** Strings *)

Definition hexDigit (c : Z) : option Z :=
  if (48 <=? c) && (c <=? 57) then Some (c - 48)
  else if (97 <=? c) && (c <=? 102) then Some (c - 97 + 10)
  else if (65 <=? c) && (c <=? 70) then Some (c - 65 + 10)
  else None.

(** The four digits of a [\u] escape. *)
Definition hexValue (a b c d : Z) : option Z :=
  a ← hexDigit a; b ← hexDigit b; c ← hexDigit c; d ← hexDigit d;
  Some (Z.lor (Z.shiftl (Z.lor (Z.shiftl (Z.lor (Z.shiftl a 4) b) 4) c) 4) d).

(** The bytes a [\u] escape appends. *)
Definition utf8 (value : Z) : list Z :=
  if value <=? 0x7f then [value]
  else if value <=? 0x7ff
  then [Z.lor 0xc0 (Z.land (Z.shiftr value 6) 0x1f); Z.lor 0x80 (Z.land value 0x3f)]
  else [Z.lor 0xe0 (Z.land (Z.shiftr value 12) 0x0f);
        Z.lor 0x80 (Z.land (Z.shiftr value 6) 0x3f); Z.lor 0x80 (Z.land value 0x3f)].

(** The one-character escapes. *)
Definition escapeOf (esc : Z) : option Z :=
  if esc =? Ch.quote then Some Ch.quote
  else if esc =? Ch.backslash then Some Ch.backslash
  else if esc =? Ch.slash then Some Ch.slash
  else if esc =? 98 then Some Ch.backspace
  else if esc =? 102 then Some Ch.formFeed
  else if esc =? 110 then Some Ch.newline
  else if esc =? 114 then Some Ch.return_
  else if esc =? 116 then Some Ch.tab
  else None.

(** The loop of [parseString] after the opening quote: the content and the text after
    the closing quote. *)
Fixpoint stringBody (s : list Z) : option (list Z * list Z) :=
  match s with
  | [] => None
  | c :: rest =>
      if c =? Ch.quote then Some ([], rest)
      else if negb (c =? Ch.backslash)
      then if c <? 0x20 then None
           else '(out, rest) ← stringBody rest; Some (c :: out, rest)
      else
        match rest with
        | [] => None
        | esc :: rest =>
            match escapeOf esc with
            | Some char => '(out, rest) ← stringBody rest; Some (char :: out, rest)
            | None =>
                if negb (esc =? 117) then None
                else
                  match rest with
                  | h1 :: h2 :: h3 :: h4 :: rest =>
                      value ← hexValue h1 h2 h3 h4;
                      '(out, rest) ← stringBody rest; Some (utf8 value ++ out, rest)
                  | _ => None
                  end
            end
        end
  end.

Definition parseString (s : list Z) : option (list Z * list Z) :=
  s ← consume Ch.quote (skipWs s); stringBody s.

Definition parseKey (s : list Z) : option (list Z * list Z) :=
  '(key, s) ← parseString s;
  s ← consume Ch.colon (skipWs s);
  Some (key, s).

(** ** Numbers and literals *)

Definition startsDigit (s : list Z) : bool :=
  match s with c :: _ => isDigit c | [] => false end.

(** The digit loop: the value so far and the text after the digits. *)
Fixpoint digitLoop (leadingZero : bool) (value : Z) (s : list Z) : option (Z * list Z) :=
  match s with
  | c :: rest =>
      if isDigit c then
        let digit := c - 48 in
        if (u64_max - digit) / 10 <? value then None
        else if leadingZero && startsDigit rest then None
        else digitLoop leadingZero (value * 10 + digit) rest
      else Some (value, s)
  | [] => Some (value, s)
  end.

(** What may follow a number. *)
Definition numberEnds (s : list Z) : bool :=
  match s with
  | next :: _ => isSpace next || (next =? Ch.comma) || (next =? Ch.closeBracket) ||
                 (next =? Ch.closeBrace)
  | [] => true
  end.

(** The unsigned number both integer parsers read once the sign is past. *)
Definition digits (s : list Z) : option (Z * list Z) :=
  match s with
  | c :: _ =>
      if negb (isDigit c) then None
      else
        '(value, s) ← digitLoop (c =? Ch.zero) 0 s;
        if negb (numberEnds s) then None else Some (value, s)
  | [] => None
  end.

Definition parseInt64 (s : list Z) : option (Z * list Z) :=
  match skipWs s with
  | [] => None
  | c :: rest =>
      let neg := c =? Ch.minus in
      '(value, s) ← digits (if neg then rest else c :: rest);
      if neg
      then if i64_max + 1 <? value then None else Some (- value, s)
      else if i64_max <? value then None else Some (value, s)
  end.

Definition parseUInt64 (s : list Z) : option (Z * list Z) := digits (skipWs s).

Definition literalTrue : list Z := [116; 114; 117; 101].
Definition literalFalse : list Z := [102; 97; 108; 115; 101].
Definition literalNull : list Z := [110; 117; 108; 108].

Definition parseBool (s : list Z) : option (bool * list Z) :=
  let s := skipWs s in
  match consumeLiteral literalTrue s with
  | Some s => Some (true, s)
  | None => s ← consumeLiteral literalFalse s; Some (false, s)
  end.

(** ** Skipping a value *)

Fixpoint skipDigits (s : list Z) : list Z :=
  match s with
  | c :: rest => if isDigit c then skipDigits rest else s
  | [] => []
  end.

(** At least one digit. *)
Definition someDigits (s : list Z) : option (list Z) :=
  if startsDigit s then Some (skipDigits s) else None.

Definition integerPart (s : list Z) : option (list Z) :=
  match s with
  | c :: rest =>
      if c =? Ch.zero then if startsDigit rest then None else Some rest
      else someDigits s
  | [] => None
  end.

Definition fractionPart (s : list Z) : option (list Z) :=
  match s with
  | c :: rest => if c =? Ch.dot then someDigits rest else Some s
  | [] => Some s
  end.

Definition exponentPart (s : list Z) : option (list Z) :=
  match s with
  | c :: rest =>
      if (c =? Ch.lower 5) || (c =? Ch.upperE)
      then someDigits (match rest with
                       | sign :: after =>
                           if (sign =? Ch.plus) || (sign =? Ch.minus) then after else rest
                       | [] => rest
                       end)
      else Some s
  | [] => Some s
  end.

Definition skipNumber (s : list Z) : option (list Z) :=
  let s := skipWs s in
  let s := match s with c :: rest => if c =? Ch.minus then rest else s | [] => s end in
  s ← integerPart s;
  s ← fractionPart s;
  s ← exponentPart s;
  if numberEnds s then Some s else None.

(** The outer [option] is fuel, the inner one the answer of the scanner. *)
Fixpoint skipValue (fuel : nat) (s : list Z) : option (option (list Z)) :=
  match fuel with
  | O => None
  | S fuel =>
      match skipWs s with
      | [] => Some None
      | c :: rest =>
          if c =? Ch.openBrace then
            let '(ends, s) := peek Ch.closeBrace rest in
            if ends then Some (parseObjectEnd s) else skipMembers fuel s
          else if c =? Ch.openBracket then
            let '(ends, s) := peek Ch.closeBracket rest in
            if ends then Some (parseArrayEnd s) else skipElements fuel s
          else if c =? Ch.quote then Some (snd <$> parseString (c :: rest))
          else if c =? 116 then Some (consumeLiteral literalTrue (c :: rest))
          else if c =? 102 then Some (consumeLiteral literalFalse (c :: rest))
          else if c =? 110 then Some (consumeLiteral literalNull (c :: rest))
          else Some (skipNumber (c :: rest))
      end
  end
with skipMembers (fuel : nat) (s : list Z) : option (option (list Z)) :=
  match fuel with
  | O => None
  | S fuel =>
      match parseKey s with
      | None => Some None
      | Some (_, s) =>
          match skipValue fuel s with
          | Some (Some s) =>
              let '(ends, s) := peek Ch.closeBrace s in
              if ends then Some (parseObjectEnd s)
              else match parseComma s with
                   | Some s => skipMembers fuel s
                   | None => Some (parseObjectEnd s)
                   end
          | result => result
          end
      end
  end
with skipElements (fuel : nat) (s : list Z) : option (option (list Z)) :=
  match fuel with
  | O => None
  | S fuel =>
      match skipValue fuel s with
      | Some (Some s) =>
          let '(ends, s) := peek Ch.closeBracket s in
          if ends then Some (parseArrayEnd s)
          else match parseComma s with
               | Some s => skipElements fuel s
               | None => Some (parseArrayEnd s)
               end
      | result => result
      end
  end.

(** Every step of the skipping loops reads at least one character. *)
Definition skipFuel (s : list Z) : nat := S (2 * length s).
Definition skip (s : list Z) : option (list Z) := default None (skipValue (skipFuel s) s).

(** ** Writing *)

Definition hexChar (digit : Z) : Z := if digit <? 10 then 48 + digit else 97 + (digit - 10).

Definition escapeChar (c : Z) : list Z :=
  if c =? Ch.backslash then [Ch.backslash; Ch.backslash]
  else if c =? Ch.quote then [Ch.backslash; Ch.quote]
  else if c =? Ch.backspace then [Ch.backslash; 98]
  else if c =? Ch.formFeed then [Ch.backslash; 102]
  else if c =? Ch.newline then [Ch.backslash; 110]
  else if c =? Ch.return_ then [Ch.backslash; 114]
  else if c =? Ch.tab then [Ch.backslash; 116]
  else if c <? 0x20
  then [Ch.backslash; 117; 48; 48; hexChar (Z.land (Z.shiftr c 4) 0x0f); hexChar (Z.land c 0x0f)]
  else [c].

Definition appendEscaped (value : list Z) : list Z := concat (map escapeChar value).
Definition quote (value : list Z) : list Z := Ch.quote :: appendEscaped value ++ [Ch.quote].

(** [std::to_chars] in base ten: the digits of a number below [10 ^ fuel]. *)
Fixpoint decimalLoop (fuel : nat) (value : Z) (after : list Z) : list Z :=
  match fuel with
  | O => after
  | S fuel =>
      let after := 48 + value mod 10 :: after in
      if value <? 10 then after else decimalLoop fuel (value / 10) after
  end.
Definition decimal (value : Z) : list Z := decimalLoop 20 value [].
Definition appendInt (value : Z) : list Z :=
  if value <? 0 then Ch.minus :: decimal (- value) else decimal value.

Example decimal_example : appendInt (-9223372036854775808) = bytes_of_string "-9223372036854775808".
Proof. reflexivity. Qed.
Example scan_example : parseInt64 (bytes_of_string "  -120,7") = Some (-120, bytes_of_string ",7").
Proof. reflexivity. Qed.
Example leading_zero_example : parseInt64 (bytes_of_string "01") = None.
Proof. reflexivity. Qed.
Example string_example :
  parseString (quote (bytes_of_string "a\b" ++ [0; 255])) = Some (bytes_of_string "a\b" ++ [0; 255], []).
Proof. reflexivity. Qed.

(** ** Strings are read as they were written *)

Lemma escaped_control c : 0 <= c < 32 -> c <> 8 -> c <> 9 -> c <> 10 -> c <> 12 -> c <> 13 ->
  hexValue 48 48 (hexChar (Z.land (Z.shiftr c 4) 0x0f)) (hexChar (Z.land c 0x0f)) = Some c.
Proof.
  intros Hc _ _ _ _ _.
  assert (forall c, 0 <= c < 256 -> (c <? 32) = true ->
    bool_decide (hexValue 48 48 (hexChar (Z.land (Z.shiftr c 4) 0x0f)) (hexChar (Z.land c 0x0f)) =
      Some c) = true) as Hall.
  { intros b Hb Hlt. pose proof (byte_cases (fun c => negb (c <? 32) || bool_decide
      (hexValue 48 48 (hexChar (Z.land (Z.shiftr c 4) 0x0f)) (hexChar (Z.land c 0x0f)) = Some c))) as Hcases.
    specialize (Hcases eq_refl b Hb). cbv beta in Hcases. by rewrite Hlt in Hcases. }
  eapply bool_decide_eq_true_1, Hall; [lia|]. apply Z.ltb_lt. lia.
Qed.

Lemma stringBody_char c s : in_u8 c ->
  stringBody (escapeChar c ++ s) = ('(out, rest) ← stringBody s; Some (c :: out, rest)).
Proof.
  intros Hc. unfold escapeChar.
  repeat match goal with |- context [if ?a =? ?b then _ else _] =>
    destruct (Z.eqb_spec a b) as [->|?]; [reflexivity|] end.
  destruct (Z.ltb_spec c 0x20) as [Hlt|Hge].
  - cbn [app]. cbn [stringBody]. change (Ch.backslash =? Ch.quote) with false.
    change (negb (Ch.backslash =? Ch.backslash)) with false. change (escapeOf 117) with (@None Z).
    change (negb (117 =? 117)) with false. cbv iota.
    rewrite escaped_control by (unfold Ch.backspace, Ch.tab, Ch.newline, Ch.formFeed, Ch.return_ in *; mlia).
    cbn [mbind option_bind]. unfold utf8. replace (c <=? 127) with true by (symmetry; apply Z.leb_le; lia).
    reflexivity.
  - cbn [app stringBody]. destruct (Z.eqb_spec c Ch.quote); [done|].
    destruct (Z.eqb_spec c Ch.backslash); [done|]. cbn [negb].
    by replace (c <? 32) with false by (symmetry; apply Z.ltb_ge; lia).
Qed.

Lemma stringBody_escaped value rest :
  Forall in_u8 value -> stringBody (appendEscaped value ++ Ch.quote :: rest) = Some (value, rest).
Proof.
  unfold appendEscaped. induction 1 as [|c value Hc _ IH]; [done|]. cbn [map concat].
  rewrite <- app_assoc, stringBody_char, IH by done. done.
Qed.

Lemma parseString_quote value rest :
  Forall in_u8 value -> parseString (quote value ++ rest) = Some (value, rest).
Proof.
  intros Hv. unfold parseString, quote. cbn [app skipWs]. change (isSpace Ch.quote) with false.
  cbn [consume]. rewrite Z.eqb_refl. cbn [mbind option_bind]. rewrite <- app_assoc.
  by apply stringBody_escaped.
Qed.

(** What is read from a text of bytes is made of bytes. *)
Lemma utf8_bytes value : 0 <= value < 65536 -> Forall in_u8 (utf8 value).
Proof.
  intros Hv. unfold utf8. destruct (Z.leb_spec value 0x7f); [repeat constructor; mlia|].
  assert (forall x m, 0 <= Z.land x (Z.ones m) < 2 ^ m \/ m < 0) as Hland.
  { intros x m. destruct (Z.ltb_spec m 0); [by right|left]. rewrite Z.land_ones by done.
    apply Z.mod_pos_bound. lia. }
  pose proof (Hland (Z.shiftr value 6) 5) as H5. pose proof (Hland value 6) as H6.
  pose proof (Hland (Z.shiftr value 6) 6) as H66. pose proof (Hland (Z.shiftr value 12) 4) as H4.
  change (Z.ones 5) with 0x1f in H5. change (Z.ones 6) with 0x3f in *. change (Z.ones 4) with 0x0f in H4.
  change (2 ^ 5) with 32 in *. change (2 ^ 6) with 64 in *. change (2 ^ 4) with 16 in *.
  destruct (value <=? 0x7ff); repeat constructor; apply (lor_bound 8); lia.
Qed.

(** ** Numbers are read as they were written *)

Definition digitsValue (value : Z) (ds : list Z) : Z :=
  fold_left (fun value c => value * 10 + (c - 48)) ds value.

Lemma digitsValue_app value a b : digitsValue value (a ++ b) = digitsValue (digitsValue value a) b.
Proof. apply fold_left_app. Qed.

Lemma digitsValue_grows ds : forall value,
  Forall (fun c => isDigit c = true) ds -> 0 <= value -> value <= digitsValue value ds.
Proof.
  induction ds as [|c ds IH]; intros value Hd Hv; [done|]. apply Forall_cons in Hd as [Hc Hd].
  unfold isDigit in Hc. bsplit. cbn. fold (digitsValue (value * 10 + (c - 48)) ds).
  etransitivity; [|apply IH; [done|lia]]. lia.
Qed.

Lemma digitLoop_written lead rest ds : forall value,
  Forall (fun c => isDigit c = true) ds -> startsDigit rest = false ->
  (lead = true -> (length ds <= 1)%nat) -> 0 <= value -> digitsValue value ds <= u64_max ->
  digitLoop lead value (ds ++ rest) = Some (digitsValue value ds, rest).
Proof.
  induction ds as [|c ds IH]; intros value Hd Hr Hl Hv Hmax.
  { destruct rest as [|c rest]; [done|]. cbn in *. by rewrite Hr. }
  apply Forall_cons in Hd as [Hc Hd]. cbn [app digitLoop]. rewrite Hc.
  cbn in Hmax. fold (digitsValue (value * 10 + (c - 48)) ds) in Hmax.
  assert (0 <= c - 48 <= 9) as Hdig by (unfold isDigit in Hc; bsplit; lia).
  pose proof (digitsValue_grows ds (value * 10 + (c - 48)) Hd ltac:(lia)) as Hge.
  destruct (Z.ltb_spec ((u64_max - (c - 48)) / 10) value) as [Hlt|Hle].
  { exfalso. assert (value * 10 <= u64_max - (c - 48)) by lia.
    pose proof (Z.div_le_lower_bound (u64_max - (c - 48)) 10 value). lia. }
  assert (lead && startsDigit (ds ++ rest) = false) as ->.
  { destruct lead; [|done]. specialize (Hl eq_refl). cbn in Hl. destruct ds; [done|cbn in Hl; lia]. }
  apply IH; try done; [|lia]. intros ->. specialize (Hl eq_refl). cbn in Hl. lia.
Qed.

Lemma decimalLoop_spec fuel : forall value after, (0 < fuel)%nat -> 0 <= value < 10 ^ Z.of_nat fuel ->
  exists ds, decimalLoop fuel value after = ds ++ after /\ ds <> [] /\
    Forall (fun c => isDigit c = true) ds /\ digitsValue 0 ds = value /\
    (head ds = Some 48 -> ds = [48]).
Proof.
  induction fuel as [|fuel IH]; intros value after Hf Hv; [lia|]. cbn [decimalLoop].
  pose proof (Z.mod_pos_bound value 10 ltac:(lia)) as Hm.
  assert (isDigit (48 + value mod 10) = true) as Hdig
    by (unfold isDigit; apply andb_true_intro; split; apply Z.leb_le; lia).
  destruct (Z.ltb_spec value 10) as [Hlt|Hge].
  - rewrite Z.mod_small in Hdig by lia.
    exists [48 + value]. rewrite Z.mod_small by lia. split_and!; try done.
    + by repeat constructor.
    + cbn. lia.
    + cbn. by intros [= ->].
  - destruct fuel as [|fuel]; [change (10 ^ Z.of_nat 1) with 10 in Hv; lia|].
    destruct (IH (value / 10) (48 + value mod 10 :: after)) as (ds & -> & Hne & Hd & Hval & Hh); [lia| |].
    { split; [apply Z.div_pos; lia|]. apply Z.div_lt_upper_bound; [lia|].
      rewrite Nat2Z.inj_succ, Z.pow_succ_r in Hv by lia. lia. }
    exists (ds ++ [48 + value mod 10]). rewrite <- app_assoc. split_and!; try done.
    + by destruct ds.
    + apply Forall_app. split; [done|]. by repeat constructor.
    + rewrite digitsValue_app, Hval. cbn. pose proof (Z.div_mod value 10). lia.
    + destruct ds as [|c ds]; [done|]. cbn. intros [= ->]. specialize (Hh eq_refl). injection Hh as ->.
      cbn in Hval. pose proof (Z.div_le_lower_bound value 10 1). lia.
Qed.

Lemma numberEnds_digit rest : numberEnds rest = true -> startsDigit rest = false.
Proof.
  destruct rest as [|c rest]; [done|]. cbn. unfold isSpace, isDigit. intros Hn.
  destruct (Z.leb_spec 48 c), (Z.leb_spec c 57); try done. exfalso.
  unfold Ch.space, Ch.tab, Ch.newline, Ch.return_, Ch.comma, Ch.closeBracket, Ch.closeBrace in Hn.
  repeat (apply orb_true_iff in Hn as [Hn|Hn]); apply Z.eqb_eq in Hn; lia.
Qed.

Lemma digits_decimal value rest :
  in_u64 value -> numberEnds rest = true ->
  digits (decimal value ++ rest) = Some (value, rest) /\
  exists c ds, decimal value = c :: ds /\ isDigit c = true.
Proof.
  intros Hv Hn. unfold decimal.
  destruct (decimalLoop_spec 20 value []) as (ds & -> & Hne & Hd & Hval & Hh); [lia| |].
  { change (10 ^ Z.of_nat 20) with 100000000000000000000. mlia. }
  rewrite app_nil_r. destruct ds as [|c ds]; [done|]. pose proof Hd as [Hc _]%Forall_cons.
  split; [|by exists c, ds]. cbn [app digits]. rewrite Hc. cbn [negb].
  change (c :: ds ++ rest) with ((c :: ds) ++ rest).
  rewrite digitLoop_written; try done.
  - cbn [mbind option_bind]. by rewrite Hn, Hval.
  - by apply numberEnds_digit.
  - intros E. apply Z.eqb_eq in E as ->. rewrite (Hh eq_refl). cbn. lia.
  - rewrite Hval. mlia.
Qed.

Lemma digit_plain c : isDigit c = true -> isSpace c = false /\ c <> Ch.minus.
Proof.
  unfold isDigit, isSpace, Ch.space, Ch.tab, Ch.newline, Ch.return_, Ch.minus. intros Hd. bsplit.
  split; [|lia]. repeat apply orb_false_intro; apply Z.eqb_neq; lia.
Qed.

Lemma parseUInt64_written value rest :
  in_u64 value -> numberEnds rest = true -> parseUInt64 (appendInt value ++ rest) = Some (value, rest).
Proof.
  intros Hv Hn. unfold appendInt. destruct (Z.ltb_spec value 0); [mlia|].
  destruct (digits_decimal value rest Hv Hn) as (Hd & c & ds & E & Hc).
  unfold parseUInt64. rewrite E in Hd |- *. cbn [app skipWs]. destruct (digit_plain _ Hc) as [-> _].
  exact Hd.
Qed.

Lemma parseInt64_written value rest :
  in_i64 value -> numberEnds rest = true -> parseInt64 (appendInt value ++ rest) = Some (value, rest).
Proof.
  intros Hv Hn. unfold appendInt, parseInt64. destruct (Z.ltb_spec value 0) as [Hneg|Hpos].
  - destruct (digits_decimal (- value) rest ltac:(mlia) Hn) as (Hd & _).
    cbn [app skipWs]. change (isSpace Ch.minus) with false. cbv iota. rewrite Z.eqb_refl, Hd.
    cbn [mbind option_bind]. destruct (Z.ltb_spec (i64_max + 1) (- value)); [mlia|].
    by rewrite Z.opp_involutive.
  - destruct (digits_decimal value rest ltac:(mlia) Hn) as (Hd & c & ds & E & Hc).
    rewrite E in Hd |- *. cbn [app skipWs]. destruct (digit_plain _ Hc) as [-> Hm].
    apply Z.eqb_neq in Hm. rewrite Hm. cbn [app] in Hd. rewrite Hd. cbn [mbind option_bind].
    destruct (Z.ltb_spec i64_max value); [mlia|done].
Qed.

(** ** What is read is in range, and what is left is shorter *)

Lemma skipWs_suffix s : skipWs s `suffix_of` s.
Proof.
  induction s as [|c s IH]; [done|]. cbn. destruct (isSpace c); [|done]. by apply suffix_cons_r.
Qed.

Lemma skipWs_length s : (length (skipWs s) <= length s)%nat.
Proof. apply suffix_length, skipWs_suffix. Qed.

Lemma skipWs_idem s : skipWs (skipWs s) = skipWs s.
Proof. induction s as [|c s IH]; [done|]. cbn. destruct (isSpace c) eqn:E; [done|]. cbn. by rewrite E. Qed.

Lemma consume_cons c s rest : consume c s = Some rest <-> s = c :: rest.
Proof.
  destruct s as [|d s]; cbn; [done|]. destruct (Z.eqb_spec d c) as [->|Hne]; split; congruence.
Qed.

Lemma consume_ws c s rest :
  consume c (skipWs s) = Some rest -> (length rest < length s)%nat /\ rest `suffix_of` s.
Proof.
  intros E%consume_cons. pose proof (skipWs_length s) as Hl. pose proof (skipWs_suffix s) as Hs.
  rewrite E in Hl, Hs. cbn in Hl. split; [lia|]. etrans; [|exact Hs]. by apply suffix_cons_r.
Qed.

Lemma digitLoop_range lead s : forall value v rest, in_u64 value ->
  digitLoop lead value s = Some (v, rest) -> in_u64 v /\ rest `suffix_of` s.
Proof.
  induction s as [|c s IH]; intros value v rest Hv; cbn [digitLoop]; [by intros [= <- <-]|].
  destruct (isDigit c) eqn:Ed; [|by intros [= <- <-]].
  destruct (Z.ltb_spec ((u64_max - (c - 48)) / 10) value) as [|Hle]; [done|]. destruct (_ && _); [done|].
  unfold isDigit in Ed. bsplit.
  pose proof (Z.mul_div_le (u64_max - (c - 48)) 10 ltac:(lia)) as Hm.
  intros [Hr Hs]%IH; [|unfold u64_max in *; mlia]. split; [done|]. by apply suffix_cons_r.
Qed.

Lemma digits_range s v rest : digits s = Some (v, rest) -> in_u64 v /\ rest `suffix_of` s.
Proof.
  destruct s as [|c s]; [done|]. unfold digits. destruct (negb _); [done|].
  destruct (digitLoop _ 0 _) as [[value rest']|] eqn:E; [|done]. cbn [mbind option_bind].
  destruct (negb _); [done|]. intros [= <- <-]. eapply digitLoop_range; [|exact E]. mlia.
Qed.

Lemma parseUInt64_range s v rest : parseUInt64 s = Some (v, rest) -> in_u64 v /\ rest `suffix_of` s.
Proof.
  unfold parseUInt64. intros [Hv Hs]%digits_range. split; [done|]. etrans; [exact Hs|apply skipWs_suffix].
Qed.

Lemma parseInt64_range s v rest : parseInt64 s = Some (v, rest) -> in_i64 v /\ rest `suffix_of` s.
Proof.
  unfold parseInt64. pose proof (skipWs_suffix s) as Hs. destruct (skipWs s) as [|c t]; [done|].
  destruct (digits _) as [[value rest']|] eqn:E; [|done]. cbn [mbind option_bind].
  apply digits_range in E as [Hv Hr].
  assert (rest' `suffix_of` s) as Hsuf.
  { destruct (c =? Ch.minus); (etrans; [exact Hr|]); [|done]. etrans; [|exact Hs]. by apply suffix_cons_r. }
  destruct (c =? Ch.minus).
  - destruct (Z.ltb_spec (i64_max + 1) value); [done|]. intros [= <- <-]. split; [|done]. mlia.
  - destruct (Z.ltb_spec i64_max value); [done|]. intros [= <- <-]. split; [|done]. mlia.
Qed.

Lemma hexDigit_range c d : hexDigit c = Some d -> 0 <= d < 16.
Proof.
  unfold hexDigit. destruct ((48 <=? c) && (c <=? 57)) eqn:E1; [intros [= <-]; bsplit; lia|].
  destruct ((97 <=? c) && (c <=? 102)) eqn:E2; [intros [= <-]; bsplit; lia|].
  destruct ((65 <=? c) && (c <=? 70)) eqn:E3; [intros [= <-]; bsplit; lia|done].
Qed.

Lemma shift_nibble n a d : 0 <= n -> 0 <= a < 2 ^ n -> 0 <= d < 16 ->
  0 <= Z.lor (Z.shiftl a 4) d < 2 ^ (n + 4).
Proof.
  intros Hn Ha Hd. apply lor_bound; [lia|..]; rewrite ?Z.shiftl_mul_pow2 by lia; rewrite Z.pow_add_r by lia;
    change (2 ^ 4) with 16; lia.
Qed.

Lemma hexValue_range a b c d v : hexValue a b c d = Some v -> 0 <= v < 65536.
Proof.
  unfold hexValue. destruct (hexDigit a) as [a'|] eqn:E1; [|done]. cbn [mbind option_bind].
  destruct (hexDigit b) as [b'|] eqn:E2; [|done]. cbn [mbind option_bind].
  destruct (hexDigit c) as [c'|] eqn:E3; [|done]. cbn [mbind option_bind].
  destruct (hexDigit d) as [d'|] eqn:E4; [|done]. cbn [mbind option_bind]. intros [= <-].
  apply hexDigit_range in E1, E2, E3, E4.
  apply (shift_nibble 12); [lia| |done]. apply (shift_nibble 8); [lia| |done].
  apply (shift_nibble 4); [lia| |done]. done.
Qed.

Lemma escapeOf_byte esc c : escapeOf esc = Some c -> in_u8 c.
Proof.
  unfold escapeOf. repeat (match goal with |- context [if ?b then _ else _] => destruct b end;
    [intros [= <-]; unfold in_u8; done|]). done.
Qed.

Lemma stringBody_reads fuel : forall s out rest, (length s <= fuel)%nat -> Forall in_u8 s ->
  stringBody s = Some (out, rest) ->
  Forall in_u8 out /\ rest `suffix_of` s /\ (length rest < length s)%nat.
Proof.
  induction fuel as [|fuel IH]; intros [|c s] out rest Hf Hb; try done; [cbn in Hf; lia|].
  apply Forall_cons in Hb as [Hc Hb]. cbn in Hf. cbn [stringBody].
  assert (forall pre t, t `suffix_of` s -> Forall in_u8 pre ->
    ('(out, rest) ← stringBody t; Some (pre ++ out, rest)) = Some (out, rest) ->
    Forall in_u8 out /\ rest `suffix_of` c :: s /\ (length rest < length (c :: s))%nat) as Hgo.
  { intros pre t Ht Hpre. pose proof (suffix_length _ _ Ht) as Hlt.
    destruct (stringBody t) as [[out' rest']|] eqn:E; [|done]. cbn [mbind option_bind]. intros [= <- <-].
    destruct Ht as [k ->]. apply Forall_app in Hb as [_ Hb].
    destruct (IH t out' rest' ltac:(lia) Hb E) as (H1 & H2 & H3). split_and!.
    - by apply Forall_app.
    - etrans; [exact H2|]. apply suffix_cons_r. by exists k.
    - cbn. rewrite length_app. lia. }
  destruct (c =? Ch.quote).
  { intros [= <- <-]. split_and!; [done|by apply suffix_cons_r|cbn; lia]. }
  destruct (negb (c =? Ch.backslash)).
  { destruct (c <? 32); [done|]. apply (Hgo [c]); [done|by constructor]. }
  destruct s as [|esc s]; [done|].
  destruct (escapeOf esc) as [char|] eqn:Ee.
  { apply (Hgo [char]); [by apply suffix_cons_r|]. constructor; [by eapply escapeOf_byte|done]. }
  destruct (negb _); [done|]. destruct s as [|h1 [|h2 [|h3 [|h4 s]]]]; try done.
  destruct (hexValue _ _ _ _) as [v|] eqn:Ev; [|done]. cbn [mbind option_bind].
  apply (Hgo (utf8 v)); [by do 5 apply suffix_cons_r|]. apply utf8_bytes. by eapply hexValue_range.
Qed.

Lemma parseString_reads s out rest : Forall in_u8 s -> parseString s = Some (out, rest) ->
  Forall in_u8 out /\ rest `suffix_of` s /\ (length rest < length s)%nat.
Proof.
  intros Hb. unfold parseString. destruct (consume _ _) as [t|] eqn:E; [|done]. cbn [mbind option_bind].
  apply consume_ws in E as [Hl Ht]. intros E.
  assert (Forall in_u8 t) as Hbt by (destruct Ht as [k ->]; by apply Forall_app in Hb as [_ ?]).
  destruct (stringBody_reads (length t) t out rest ltac:(lia) Hbt E) as (H1 & H2 & H3).
  split_and!; [done|by etrans|lia].
Qed.
