(* ===== verification/JsonObject.v ===== *)
(** * JsonObject: reading and writing the objects of session documents

    The readers of manifest.json, instrument_metadata.json and seek_index.json share one
    shape: a loop over the members that looks the key up among the known ones, reads the
    value into the object being filled, skips unknown members, and requires certain
    members to be seen.  [objectMembers] is that loop, over a table of the known members;
    [objectText] is the text the writers produce.  The loop and [skipValue] carry fuel;
    the length of the text is shown to be enough. *)
From stdpp Require Import base list numbers strings.
From S2P Require Import Prelude Json.
Local Open Scope Z_scope.

(** ** Skipping always answers *)

Lemma skipWs_cons s c rest : skipWs s = c :: rest -> (length rest < length s)%nat.
Proof. intros E. pose proof (skipWs_length s) as Hl. rewrite E in Hl. cbn in Hl. lia. Qed.

Lemma stringBody_shorter fuel : forall s out rest, (length s <= fuel)%nat ->
  stringBody s = Some (out, rest) -> (length rest < length s)%nat.
Proof.
  induction fuel as [|fuel IH]; intros [|c s] out rest Hf; try done; [cbn in Hf; lia|].
  cbn in Hf. cbn [stringBody length].
  assert (forall pre t, (length t <= length s)%nat ->
    ('(out, rest) ← stringBody t; Some (pre ++ out, rest)) = Some (out, rest) ->
    (length rest < S (length s))%nat) as Hgo.
  { intros pre t Ht. destruct (stringBody t) as [[out' rest']|] eqn:E; [|done].
    cbn [mbind option_bind]. intros [= _ <-]. apply IH in E; lia. }
  destruct (c =? Ch.quote); [intros [= _ <-]; lia|].
  destruct (negb (c =? Ch.backslash)); [destruct (c <? 32); [done|]; by apply (Hgo [c])|].
  destruct s as [|esc s]; [done|]. destruct (escapeOf esc) as [char|]; [apply (Hgo [char]); cbn; lia|].
  destruct (negb _); [done|]. destruct s as [|h1 [|h2 [|h3 [|h4 s]]]]; try done.
  destruct (hexValue _ _ _ _) as [v|]; [|done]. cbn [mbind option_bind]. apply (Hgo (utf8 v)). cbn. lia.
Qed.

Lemma parseString_shorter s out rest : parseString s = Some (out, rest) -> (length rest < length s)%nat.
Proof.
  unfold parseString. destruct (consume _ _) as [t|] eqn:E; [|done]. cbn [mbind option_bind].
  apply consume_ws in E as [Hl _]. intros E%(stringBody_shorter (length t)); lia.
Qed.

Lemma parseKey_shorter s key rest : parseKey s = Some (key, rest) -> (length rest < length s)%nat.
Proof.
  unfold parseKey. destruct (parseString s) as [[k t]|] eqn:E; [|done]. cbn [mbind option_bind].
  apply parseString_shorter in E. destruct (consume _ _) as [u|] eqn:Eu; [|done].
  cbn [mbind option_bind]. intros [= _ <-]. apply consume_ws in Eu as [Hu _]. lia.
Qed.

Lemma peek_length c s ends rest : peek c s = (ends, rest) -> (length rest <= length s)%nat.
Proof. unfold peek. intros [= _ <-]. apply skipWs_length. Qed.

Lemma parseComma_shorter s rest : parseComma s = Some rest -> (length rest < length s)%nat.
Proof. by intros [H _]%consume_ws. Qed.
Lemma parseObjectEnd_shorter s rest : parseObjectEnd s = Some rest -> (length rest < length s)%nat.
Proof. by intros [H _]%consume_ws. Qed.
Lemma parseArrayEnd_shorter s rest : parseArrayEnd s = Some rest -> (length rest < length s)%nat.
Proof. by intros [H _]%consume_ws. Qed.

Lemma consumeLiteral_length literal s rest :
  consumeLiteral literal s = Some rest -> (length rest <= length s)%nat.
Proof. unfold consumeLiteral. case_bool_decide; [|done]. intros [= <-]. rewrite length_drop. lia. Qed.

Lemma skipDigits_length s : (length (skipDigits s) <= length s)%nat.
Proof. induction s as [|c s IH]; [done|]. cbn. destruct (isDigit c); cbn; lia. Qed.

Lemma someDigits_length s rest : someDigits s = Some rest -> (length rest <= length s)%nat.
Proof. unfold someDigits. destruct (startsDigit s); [|done]. intros [= <-]. apply skipDigits_length. Qed.

Lemma skipNumber_length s rest : skipNumber s = Some rest -> (length rest <= length s)%nat.
Proof.
  unfold skipNumber. pose proof (skipWs_length s) as Hs. revert Hs. generalize (skipWs s). intros t Ht.
  set (u := match t with [] => _ | _ => _ end).
  assert (length u <= length t)%nat as Hu by (unfold u; destruct t as [|c t']; [done|];
    destruct (c =? Ch.minus); cbn; lia).
  destruct (integerPart u) as [v|] eqn:Ev; [|done]. cbn [mbind option_bind].
  assert (length v <= length u)%nat as Hv.
  { unfold integerPart in Ev. destruct u as [|c u']; [done|]. destruct (c =? Ch.zero).
    - destruct (startsDigit u'); [done|]. injection Ev as <-. cbn. lia.
    - by apply someDigits_length. }
  destruct (fractionPart v) as [w|] eqn:Ew; [|done]. cbn [mbind option_bind].
  assert (length w <= length v)%nat as Hw.
  { unfold fractionPart in Ew. destruct v as [|c v']; [by injection Ew as <-|]. destruct (c =? Ch.dot).
    - apply someDigits_length in Ew. cbn. lia.
    - by injection Ew as <-. }
  destruct (exponentPart w) as [x|] eqn:Ex; [|done]. cbn [mbind option_bind].
  assert (length x <= length w)%nat as Hx.
  { unfold exponentPart in Ex. destruct w as [|c w']; [by injection Ex as <-|].
    destruct (_ || _); [|by injection Ex as <-]. apply someDigits_length in Ex.
    destruct w' as [|sign after]; [cbn in *; lia|]. destruct (_ || _); cbn in *; lia. }
  destruct (numberEnds x); [|done]. intros [= <-]. lia.
Qed.

(** The answer of a skipping loop: it comes, and what it leaves is not longer than the text. *)
Definition answers (s : list Z) (result : option (option (list Z))) : Prop :=
  exists r, result = Some r /\ forall t, r = Some t -> (length t <= length s)%nat.

Lemma answers_weaken s t result : (length t <= length s)%nat -> answers t result -> answers s result.
Proof. intros Hl (r & -> & Hr). exists r. split; [done|]. intros u Hu%Hr. lia. Qed.

Lemma answers_now s r : (forall t, r = Some t -> (length t <= length s)%nat) -> answers s (Some r).
Proof. by exists r. Qed.

Lemma skip_answers fuel : forall s,
  ((2 * length s < fuel)%nat -> answers s (skipValue fuel s)) /\
  ((2 * length s < fuel)%nat -> answers s (skipMembers fuel s)) /\
  ((S (2 * length s) < fuel)%nat -> answers s (skipElements fuel s)).
Proof.
  induction fuel as [|fuel IH]; intros s; [split_and!; intros; lia|]. split_and!; intros Hf.
  - cbn [skipValue]. pose proof (skipWs_length s) as Hw.
    destruct (skipWs s) as [|c rest]; [by apply answers_now|]. cbn in Hw.
    destruct (c =? Ch.openBrace); [|destruct (c =? Ch.openBracket)].
    + destruct (peek _ rest) as [ends t] eqn:Ep. apply peek_length in Ep. destruct ends.
      * apply answers_now. intros u Hu%parseObjectEnd_shorter. lia.
      * apply (answers_weaken s t); [lia|]. apply IH. lia.
    + destruct (peek _ rest) as [ends t] eqn:Ep. apply peek_length in Ep. destruct ends.
      * apply answers_now. intros u Hu%parseArrayEnd_shorter. lia.
      * apply (answers_weaken s t); [lia|]. apply IH. lia.
    + destruct (c =? Ch.quote).
      { apply answers_now. intros u Hu. destruct (parseString _) as [[? ?]|] eqn:E; [|done].
        cbn in Hu. injection Hu as <-. apply parseString_shorter in E. cbn in E. lia. }
      repeat (match goal with |- context [if ?b then _ else _] => destruct b end;
        [apply answers_now; intros u Hu%consumeLiteral_length; cbn in Hu; lia|]).
      apply answers_now. intros u Hu%skipNumber_length. cbn in Hu. lia.
  - cbn [skipMembers]. destruct (parseKey s) as [[key t]|] eqn:Ek; [|by apply answers_now].
    apply parseKey_shorter in Ek. destruct (IH t) as (Hv & _ & _).
    destruct (Hv ltac:(lia)) as (r & -> & Hr).
    destruct r as [u|]; [|by apply answers_now]. specialize (Hr u eq_refl).
    destruct (peek _ u) as [ends v] eqn:Ep. apply peek_length in Ep.
    destruct ends; [apply answers_now; intros w Hw%parseObjectEnd_shorter; lia|].
    destruct (parseComma v) as [w|] eqn:Ec.
    + apply parseComma_shorter in Ec. apply (answers_weaken s w); [lia|]. apply IH. lia.
    + apply answers_now. intros x Hx%parseObjectEnd_shorter. lia.
  - cbn [skipElements]. destruct (IH s) as (Hv & _ & _). destruct (Hv ltac:(lia)) as (r & -> & Hr).
    destruct r as [u|]; [|by apply answers_now]. specialize (Hr u eq_refl).
    destruct (peek _ u) as [ends v] eqn:Ep. apply peek_length in Ep.
    destruct ends; [apply answers_now; intros w Hw%parseArrayEnd_shorter; lia|].
    destruct (parseComma v) as [w|] eqn:Ec.
    + apply parseComma_shorter in Ec. apply (answers_weaken s w); [lia|]. apply IH. lia.
    + apply answers_now. intros x Hx%parseArrayEnd_shorter. lia.
Qed.

Lemma skip_total s : skipValue (skipFuel s) s = Some (skip s) /\
  forall t, skip s = Some t -> (length t <= length s)%nat.
Proof.
  destruct (skip_answers (skipFuel s) s) as (Hv & _ & _). unfold skip.
  destruct Hv as (r & -> & Hr); [unfold skipFuel; lia|]. done.
Qed.

(** ** Reading an object *)

Section object.
Context {T : Type}.

(** A reader fills in a part of the object from the text after the key. *)
Definition reader : Type := list Z -> T -> option (T * list Z).
(** A known member: its key, the bit it sets in [seen], its reader. *)
Record Field := MkField { f_key : string; f_bit : Z; f_read : reader }.

Definition findField (table : list Field) (key : list Z) : option Field :=
  List.find (fun f => bool_decide (bytes_of_string (f_key f) = key)) table.

(** The [do ... while (parseComma())] loop; the outer [option] is fuel. *)
Fixpoint memberLoop (fuel : nat) (table : list Field) (seen : Z) (object : T) (s : list Z)
  : option (option (Z * T * list Z)) :=
  match fuel with
  | O => None
  | S fuel =>
      match parseKey s with
      | None => Some None
      | Some (key, s) =>
          match (match findField table key with
                 | Some f => '(object, s) ← f_read f s object; Some (Z.lor seen (f_bit f), object, s)
                 | None => s ← skip s; Some (seen, object, s)
                 end) with
          | None => Some None
          | Some (seen, object, s) =>
              let '(ends, s) := peek Ch.closeBrace s in
              if ends then Some (Some (seen, object, s))
              else match parseComma s with
                   | Some s => memberLoop fuel table seen object s
                   | None => Some (Some (seen, object, s))
                   end
          end
      end
  end.

(** The members seen, the object and the text at the closing brace. *)
Definition objectMembers (table : list Field) (object : T) (s : list Z) : option (Z * T * list Z) :=
  s ← parseObjectStart s;
  let '(ends, s) := peek Ch.closeBrace s in
  if ends then Some (0, object, s)
  else default None (memberLoop (S (length s)) table 0 object s).

(** [complete] is what the reader asks of the members seen; an empty object has seen none. *)
Definition parseObject (table : list Field) (complete : Z -> bool) : reader := fun s object =>
  '(seen, object, s) ← objectMembers table object s;
  if complete seen then s ← parseObjectEnd s; Some (object, s) else None.

(** The readers of single values. *)
Definition readWith {V} (parse : list Z -> option (V * list Z)) (set : V -> T -> T) : reader :=
  fun s object => '(value, s) ← parse s; Some (set value object, s).

(** ** The loop ends *)

Definition shrinks (read : reader) : Prop :=
  forall s object object' t, read s object = Some (object', t) -> (length t <= length s)%nat.

Lemma readWith_shrinks {V} parse (set : V -> T -> T) :
  (forall s v t, parse s = Some (v, t) -> (length t <= length s)%nat) -> shrinks (readWith parse set).
Proof.
  intros Hp s object object' t. unfold readWith. destruct (parse s) as [[v u]|] eqn:E; [|done].
  cbn [mbind option_bind]. intros [= _ <-]. by eapply Hp.
Qed.

Lemma findField_in table key f : findField table key = Some f -> f ∈ table.
Proof. intros [H _]%find_some. by apply list_elem_of_In. Qed.

Lemma memberLoop_total table : Forall (fun f => shrinks (f_read f)) table ->
  forall fuel seen object s, (length s < fuel)%nat ->
  exists r, memberLoop fuel table seen object s = Some r /\
    forall seen' object' t, r = Some (seen', object', t) -> (length t <= length s)%nat.
Proof.
  intros Htable. induction fuel as [|fuel IH]; intros seen object s Hf; [lia|]. cbn [memberLoop].
  destruct (parseKey s) as [[key t]|] eqn:Ek; [|by exists None]. apply parseKey_shorter in Ek.
  match goal with |- context [match ?m with Some _ => _ | None => Some None end] =>
    assert (forall a b u, m = Some (a, b, u) -> (length u <= length t)%nat) as Hnext;
    [|destruct m as [[[seen' object'] u]|]; [|by exists None]] end.
  { intros a b u. destruct (findField table key) as [f|] eqn:Ef.
    - destruct (f_read f t object) as [[o v]|] eqn:Er; [|done]. cbn [mbind option_bind].
      intros [= _ _ <-]. rewrite Forall_forall in Htable. eapply Htable; [by eapply findField_in|done].
    - destruct (skip t) as [v|] eqn:Er; [|done]. cbn [mbind option_bind]. intros [= _ _ <-].
      by apply (proj2 (skip_total t)). }
  specialize (Hnext _ _ _ eq_refl). destruct (peek _ u) as [ends v] eqn:Ep. apply peek_length in Ep.
  destruct ends; [eexists; split; [done|]; intros ? ? ? [= _ _ <-]; lia|].
  destruct (parseComma v) as [w|] eqn:Ec.
  - apply parseComma_shorter in Ec. destruct (IH seen' object' w ltac:(lia)) as (r & -> & Hr).
    exists r. split; [done|]. intros a b x Hx%Hr. lia.
  - eexists; split; [done|]. intros ? ? ? [= _ _ <-]. lia.
Qed.

Lemma parseObject_shrinks table complete :
  Forall (fun f => shrinks (f_read f)) table -> shrinks (parseObject table complete).
Proof.
  intros Htable s object object' t. unfold parseObject, objectMembers, parseObjectStart.
  destruct (consume _ _) as [u|] eqn:Es; [|done]. cbn [mbind option_bind]. apply consume_ws in Es as [Hu _].
  destruct (peek _ (skipWs u)) as [ends v] eqn:Ep. apply peek_length in Ep. pose proof (skipWs_length u).
  destruct ends.
  - cbn [mbind option_bind]. destruct (complete 0); [|done].
    destruct (parseObjectEnd v) as [w|] eqn:Ew; [|done]. cbn [mbind option_bind]. intros [= _ <-].
    apply parseObjectEnd_shorter in Ew. lia.
  - destruct (memberLoop_total table Htable (S (length v)) 0 object v ltac:(lia)) as (r & -> & Hr).
    cbn [from_option]. destruct r as [[[seen o] x]|]; [|done]. cbn [mbind option_bind id].
    specialize (Hr _ _ _ eq_refl). destruct (complete seen); [|done].
    destruct (parseObjectEnd x) as [w|] eqn:Ew; [|done]. cbn [mbind option_bind]. intros [= _ <-].
    apply parseObjectEnd_shorter in Ew. lia.
Qed.

End object.
Arguments reader : clear implicits.
Arguments Field : clear implicits.

(** ** Lists of strings, numbers read as unsigned fields *)

Fixpoint stringElements (fuel : nat) (s : list Z) : option (option (list (list Z) * list Z)) :=
  match fuel with
  | O => None
  | S fuel =>
      match parseString s with
      | None => Some None
      | Some (value, s) =>
          let '(ends, s) := peek Ch.closeBracket s in
          if ends then Some (Some ([value], s))
          else match parseComma s with
               | Some s =>
                   match stringElements fuel s with
                   | Some (Some (values, s)) => Some (Some (value :: values, s))
                   | result => result
                   end
               | None => Some (Some ([value], s))
               end
      end
  end.

Definition parseStringArray (s : list Z) : option (list (list Z) * list Z) :=
  s ← parseArrayStart s;
  let '(ends, s) := peek Ch.closeBracket s in
  if ends then s ← parseArrayEnd s; Some ([], s)
  else '(values, s) ← default None (stringElements (S (length s)) s);
       s ← parseArrayEnd s; Some (values, s).

Definition parseUint64Field (s : list Z) : option (Z * list Z) :=
  '(value, s) ← parseInt64 s; if value <? 0 then None else Some (value, s).
Definition parseInt64Field (s : list Z) : option (Z * list Z) := parseInt64 s.

(** Sets a field of the object. *)
Definition put {R E} (p : R -> E) `{!Setter p} (value : E) (r : R) : R := r <| p := value |>.
Definition skipMember {T} : reader T := fun s object => s ← skip s; Some (object, s).

(** A part of the object with a reader of its own. *)
Definition readPart {T P} (get : T -> P) (set : P -> T -> T) (read : reader P) : reader T :=
  fun s object => '(part, s) ← read s (get object); Some (set part object, s).

Lemma stringElements_total fuel : forall s, (length s < fuel)%nat ->
  exists r, stringElements fuel s = Some r /\
    forall values t, r = Some (values, t) -> (length t <= length s)%nat.
Proof.
  induction fuel as [|fuel IH]; intros s Hf; [lia|]. cbn [stringElements].
  destruct (parseString s) as [[value t]|] eqn:Ep; [|by exists None]. apply parseString_shorter in Ep.
  destruct (peek _ t) as [ends u] eqn:Eu. apply peek_length in Eu.
  destruct ends; [eexists; split; [done|]; intros ? ? [= _ <-]; lia|].
  destruct (parseComma u) as [v|] eqn:Ec; [|eexists; split; [done|]; intros ? ? [= _ <-]; lia].
  apply parseComma_shorter in Ec. destruct (IH v ltac:(lia)) as (r & -> & Hr).
  destruct r as [[values w]|]; [|by exists None]. specialize (Hr _ _ eq_refl).
  eexists; split; [done|]. intros ? ? [= _ <-]. lia.
Qed.

Lemma parseStringArray_shorter s values t :
  parseStringArray s = Some (values, t) -> (length t <= length s)%nat.
Proof.
  unfold parseStringArray, parseArrayStart. destruct (consume _ _) as [u|] eqn:Es; [|done].
  cbn [mbind option_bind]. apply consume_ws in Es as [Hu _]. pose proof (skipWs_length u).
  destruct (peek _ (skipWs u)) as [ends v] eqn:Ep. apply peek_length in Ep. destruct ends.
  - destruct (parseArrayEnd v) as [w|] eqn:Ew; [|done]. cbn [mbind option_bind]. intros [= _ <-].
    apply parseArrayEnd_shorter in Ew. lia.
  - destruct (stringElements_total (S (length v)) v ltac:(lia)) as (r & -> & Hr).
    cbn [from_option id]. destruct r as [[vs x]|]; [|done]. cbn [mbind option_bind].
    specialize (Hr _ _ eq_refl). destruct (parseArrayEnd x) as [w|] eqn:Ew; [|done].
    cbn [mbind option_bind]. intros [= _ <-]. apply parseArrayEnd_shorter in Ew. lia.
Qed.

Lemma parseInt64_shorter s v t : parseInt64 s = Some (v, t) -> (length t <= length s)%nat.
Proof. by intros [_ H%suffix_length]%parseInt64_range. Qed.
Lemma parseUint64Field_shorter s v t : parseUint64Field s = Some (v, t) -> (length t <= length s)%nat.
Proof.
  unfold parseUint64Field. destruct (parseInt64 s) as [[w u]|] eqn:E; [|done]. cbn [mbind option_bind].
  destruct (w <? 0); [done|]. intros [= _ <-]. by eapply parseInt64_shorter.
Qed.
Lemma parseUInt64_shorter s v t : parseUInt64 s = Some (v, t) -> (length t <= length s)%nat.
Proof. by intros [_ H%suffix_length]%parseUInt64_range. Qed.
Lemma parseString_shrinks s v t : parseString s = Some (v, t) -> (length t <= length s)%nat.
Proof. intros H%parseString_shorter. lia. Qed.
Lemma parseBool_shorter s v t : parseBool s = Some (v, t) -> (length t <= length s)%nat.
Proof.
  unfold parseBool. pose proof (skipWs_length s). destruct (consumeLiteral literalTrue _) as [u|] eqn:E.
  - intros [= _ <-]. apply consumeLiteral_length in E. lia.
  - destruct (consumeLiteral literalFalse _) as [u|] eqn:E'; [|done]. cbn [mbind option_bind].
    intros [= _ <-]. apply consumeLiteral_length in E'. lia.
Qed.

Lemma readPart_shrinks {T P} (get : T -> P) (set : P -> T -> T) (read : reader P) :
  shrinks read -> shrinks (readPart get set read).
Proof.
  intros Hr s object object' t. unfold readPart. destruct (read s (get object)) as [[part u]|] eqn:E; [|done].
  cbn [mbind option_bind]. intros [= _ <-]. by eapply Hr.
Qed.

Create HintDb shrinks.
#[export] Hint Resolve readWith_shrinks readPart_shrinks parseObject_shrinks parseStringArray_shorter
  parseInt64_shorter parseUint64Field_shorter parseUInt64_shorter parseString_shrinks
  parseBool_shorter : shrinks.

(** ** What is read from a text of bytes is made of bytes *)

Definition bytes (s : list Z) : Prop := Forall in_u8 s.

Lemma suffix_bytes s t : t `suffix_of` s -> bytes s -> bytes t.
Proof. intros [k ->] [_ H]%Forall_app. exact H. Qed.

Lemma consume_bytes c s t : consume c (skipWs s) = Some t -> bytes s -> bytes t.
Proof. intros [_ H]%consume_ws. by apply suffix_bytes. Qed.

Lemma skipWs_bytes s : bytes s -> bytes (skipWs s).
Proof. apply suffix_bytes, skipWs_suffix. Qed.

Lemma peek_bytes c s ends t : peek c s = (ends, t) -> bytes s -> bytes t.
Proof. unfold peek. intros [= _ <-]. apply skipWs_bytes. Qed.

Lemma parseString_bytes s v t : parseString s = Some (v, t) -> bytes s -> bytes v /\ bytes t.
Proof.
  intros E Hs. destruct (parseString_reads s v t Hs E) as (Hv & Ht & _). split; [done|].
  by eapply suffix_bytes.
Qed.

Lemma parseKey_bytes s key t : parseKey s = Some (key, t) -> bytes s -> bytes t.
Proof.
  unfold parseKey. destruct (parseString s) as [[k u]|] eqn:E; [|done]. cbn [mbind option_bind].
  destruct (consume _ _) as [v|] eqn:Ev; [|done]. cbn [mbind option_bind]. intros [= _ <-] Hs.
  eapply consume_bytes; [exact Ev|]. by eapply parseString_bytes.
Qed.

Lemma consumeLiteral_bytes literal s t : consumeLiteral literal s = Some t -> bytes s -> bytes t.
Proof. unfold consumeLiteral. case_bool_decide; [|done]. intros [= <-]. apply Forall_drop. Qed.

Lemma skipDigits_bytes s : bytes s -> bytes (skipDigits s).
Proof.
  unfold bytes. induction 1 as [|c s Hc Hs IH]; [constructor|]. cbn. destruct (isDigit c); [done|by constructor].
Qed.

Lemma someDigits_bytes s t : someDigits s = Some t -> bytes s -> bytes t.
Proof. unfold someDigits. destruct (startsDigit s); [|done]. intros [= <-]. apply skipDigits_bytes. Qed.

Lemma tail_bytes c s : bytes (c :: s) -> bytes s.
Proof. by intros [_ H]%Forall_cons. Qed.

Lemma skipNumber_bytes s t : skipNumber s = Some t -> bytes s -> bytes t.
Proof.
  unfold skipNumber. intros E Hs%skipWs_bytes. revert E Hs. generalize (skipWs s). clear s. intros s E Hs.
  set (u := match s with [] => _ | _ => _ end) in E.
  assert (bytes u) as Hu.
  { unfold u. destruct s as [|c s]; [done|]. destruct (c =? Ch.minus); [by eapply tail_bytes|done]. }
  destruct (integerPart u) as [v|] eqn:Ev; [|done]. cbn [mbind option_bind] in E.
  assert (bytes v) as Hv.
  { unfold integerPart in Ev. destruct u as [|c u']; [done|]. destruct (c =? Ch.zero).
    - destruct (startsDigit u'); [done|]. injection Ev as <-. by eapply tail_bytes.
    - by eapply someDigits_bytes. }
  destruct (fractionPart v) as [w|] eqn:Ew; [|done]. cbn [mbind option_bind] in E.
  assert (bytes w) as Hw.
  { unfold fractionPart in Ew. destruct v as [|c v']; [by injection Ew as <-|].
    destruct (c =? Ch.dot); [|by injection Ew as <-].
    eapply someDigits_bytes; [exact Ew|]. by eapply tail_bytes. }
  destruct (exponentPart w) as [x|] eqn:Ex; [|done]. cbn [mbind option_bind] in E.
  assert (bytes x) as Hx.
  { unfold exponentPart in Ex. destruct w as [|c w']; [by injection Ex as <-|].
    destruct (_ || _); [|by injection Ex as <-]. eapply someDigits_bytes; [exact Ex|].
    apply tail_bytes in Hw. destruct w' as [|sign after]; [done|].
    destruct (_ || _); [by eapply tail_bytes|done]. }
  destruct (numberEnds x); [|done]. by injection E as <-.
Qed.

Lemma skip_loops_bytes fuel : forall s, bytes s ->
  (forall t, skipValue fuel s = Some (Some t) -> bytes t) /\
  (forall t, skipMembers fuel s = Some (Some t) -> bytes t) /\
  (forall t, skipElements fuel s = Some (Some t) -> bytes t).
Proof.
  induction fuel as [|fuel IH]; intros s Hs; [done|]. split_and!; intros t.
  - cbn [skipValue]. pose proof (skipWs_bytes s Hs) as Hw. destruct (skipWs s) as [|c rest]; [done|].
    destruct (c =? Ch.openBrace); [|destruct (c =? Ch.openBracket)].
    + destruct (peek _ rest) as [ends u] eqn:Ep. apply peek_bytes in Ep; [|by eapply tail_bytes].
      destruct ends; [intros [= E]; by eapply consume_bytes|]. by apply IH.
    + destruct (peek _ rest) as [ends u] eqn:Ep. apply peek_bytes in Ep; [|by eapply tail_bytes].
      destruct ends; [intros [= E]; by eapply consume_bytes|]. by apply IH.
    + destruct (c =? Ch.quote).
      { destruct (parseString _) as [[? ?]|] eqn:E; [|done]. intros [= <-]. by eapply parseString_bytes. }
      repeat (match goal with |- context [if ?b then _ else _] => destruct b end;
        [intros [= E]; by eapply consumeLiteral_bytes|]).
      intros [= E]. by eapply skipNumber_bytes.
  - cbn [skipMembers]. destruct (parseKey s) as [[key u]|] eqn:Ek; [|done].
    apply parseKey_bytes in Ek; [|done]. destruct (skipValue fuel u) as [[v|]|] eqn:Ev; [|done|done].
    apply IH in Ev; [|done]. destruct (peek _ v) as [ends w] eqn:Ep. apply peek_bytes in Ep; [|done].
    destruct ends; [intros [= E]; by eapply consume_bytes|].
    destruct (parseComma w) as [x|] eqn:Ec; [|intros [= E]; by eapply consume_bytes].
    apply consume_bytes in Ec; [|done]. by apply IH.
  - cbn [skipElements]. destruct (skipValue fuel s) as [[v|]|] eqn:Ev; [|done|done].
    apply IH in Ev; [|done]. destruct (peek _ v) as [ends w] eqn:Ep. apply peek_bytes in Ep; [|done].
    destruct ends; [intros [= E]; by eapply consume_bytes|].
    destruct (parseComma w) as [x|] eqn:Ec; [|intros [= E]; by eapply consume_bytes].
    apply consume_bytes in Ec; [|done]. by apply IH.
Qed.

Lemma skip_bytes s t : skip s = Some t -> bytes s -> bytes t.
Proof.
  intros E Hs. destruct (skip_total s) as [Ef _]. rewrite E in Ef. destruct (skip_loops_bytes (skipFuel s) s Hs) as (Hv & _ & _). by apply Hv in Ef.
Qed.

Lemma stringElements_bytes fuel : forall s values t, bytes s ->
  stringElements fuel s = Some (Some (values, t)) -> Forall bytes values /\ bytes t.
Proof.
  induction fuel as [|fuel IH]; intros s values t Hs; [done|]. cbn [stringElements].
  destruct (parseString s) as [[value u]|] eqn:Ep; [|done].
  destruct (parseString_bytes _ _ _ Ep Hs) as [Hv Hu].
  destruct (peek _ u) as [ends v] eqn:Ek. apply peek_bytes in Ek; [|done].
  destruct ends; [by intros [= <- <-]; repeat constructor|].
  destruct (parseComma v) as [w|] eqn:Ec; [|by intros [= <- <-]; repeat constructor].
  apply consume_bytes in Ec; [|done]. destruct (stringElements fuel w) as [[[vs x]|]|] eqn:E; try done.
  intros [= <- <-]. destruct (IH _ _ _ Ec E). split; [by constructor|done].
Qed.

(** Reading leaves the object in [inv] and the text made of bytes. *)
Definition keeps {T} (inv : T -> Prop) (read : reader T) : Prop :=
  forall s object object' t, bytes s -> inv object -> read s object = Some (object', t) ->
    inv object' /\ bytes t.

(** What a value parser promises of its value. *)
Definition yields {V} (parse : list Z -> option (V * list Z)) (ok : V -> Prop) : Prop :=
  forall s v t, bytes s -> parse s = Some (v, t) -> ok v /\ bytes t.

Lemma readWith_keeps {T V} (inv : T -> Prop) parse (set : V -> T -> T) ok : yields parse ok ->
  (forall v object, ok v -> inv object -> inv (set v object)) -> keeps inv (readWith parse set).
Proof.
  intros Hp Hset s object object' t Hs Hi. unfold readWith. destruct (parse s) as [[v u]|] eqn:E; [|done].
  cbn [mbind option_bind]. intros [= <- <-]. destruct (Hp _ _ _ Hs E). split; [by apply Hset|done].
Qed.

Lemma readPart_keeps {T P} (inv : T -> Prop) (ok : P -> Prop) get set (read : reader P) :
  keeps ok read -> (forall object, inv object -> ok (get object)) ->
  (forall v object, ok v -> inv object -> inv (set v object)) -> keeps inv (readPart get set read).
Proof.
  intros Hr Hget Hset s object object' t Hs Hi. unfold readPart.
  destruct (read s (get object)) as [[v u]|] eqn:E; [|done]. cbn [mbind option_bind]. intros [= <- <-].
  destruct (Hr _ _ _ _ Hs (Hget _ Hi) E). split; [by apply Hset|done].
Qed.

Lemma memberLoop_keeps {T} (inv : T -> Prop) table : Forall (fun f => keeps inv (f_read f)) table ->
  forall fuel seen object s seen' object' t, bytes s -> inv object ->
  memberLoop fuel table seen object s = Some (Some (seen', object', t)) -> inv object' /\ bytes t.
Proof.
  intros Htable. induction fuel as [|fuel IH]; intros seen object s seen' object' t Hs Hi; [done|].
  cbn [memberLoop]. destruct (parseKey s) as [[key u]|] eqn:Ek; [|done]. apply parseKey_bytes in Ek; [|done].
  match goal with |- context [match ?m with Some _ => _ | None => Some None end] =>
    assert (forall a b v, m = Some (a, b, v) -> inv b /\ bytes v) as Hnext;
    [|destruct m as [[[a b] v]|]; [|done]] end.
  { intros a b v. destruct (findField table key) as [f|] eqn:Ef.
    - destruct (f_read f u object) as [[o w]|] eqn:Er; [|done]. cbn [mbind option_bind]. intros [= _ <- <-].
      rewrite Forall_forall in Htable. by eapply (Htable f); [eapply findField_in| |..].
    - destruct (skip u) as [w|] eqn:Er; [|done]. cbn [mbind option_bind]. intros [= _ <- <-].
      split; [done|]. by eapply skip_bytes. }
  destruct (Hnext _ _ _ eq_refl) as [Hb Hv]. destruct (peek _ v) as [ends w] eqn:Ep.
  apply peek_bytes in Ep; [|done]. destruct ends; [by intros [= _ <- <-]|].
  destruct (parseComma w) as [x|] eqn:Ec; [|by intros [= _ <- <-]].
  apply consume_bytes in Ec; [|done]. by apply IH.
Qed.

Lemma objectMembers_keeps {T} (inv : T -> Prop) table object s seen object' t :
  Forall (fun f => keeps inv (f_read f)) table -> bytes s -> inv object ->
  objectMembers table object s = Some (seen, object', t) -> inv object' /\ bytes t.
Proof.
  intros Htable Hs Hi. unfold objectMembers, parseObjectStart. destruct (consume _ _) as [u|] eqn:E; [|done].
  cbn [mbind option_bind]. apply consume_bytes in E; [|done].
  destruct (peek _ (skipWs u)) as [ends v] eqn:Ep. apply peek_bytes in Ep; [|by apply skipWs_bytes].
  destruct ends; [by intros [= _ <- <-]|]. destruct (memberLoop _ _ _ _ _) as [[[[a b] w]|]|] eqn:El; try done.
  cbn [from_option id]. intros [= _ <- <-]. by eapply memberLoop_keeps.
Qed.

Lemma parseObject_keeps {T} (inv : T -> Prop) table complete :
  Forall (fun f => keeps inv (f_read f)) table -> keeps inv (parseObject table complete).
Proof.
  intros Htable s object object' t Hs Hi. unfold parseObject.
  destruct (objectMembers table object s) as [[[seen o] u]|] eqn:E; [|done]. cbn [mbind option_bind].
  destruct (objectMembers_keeps _ _ _ _ _ _ _ Htable Hs Hi E) as [Ho Hu]. destruct (complete seen); [|done].
  destruct (parseObjectEnd u) as [v|] eqn:Ev; [|done]. cbn [mbind option_bind]. intros [= <- <-].
  split; [done|]. by eapply consume_bytes.
Qed.

Lemma parseString_yields : yields parseString bytes.
Proof. intros s v t Hs E. by eapply parseString_bytes. Qed.
Lemma parseInt64_yields : yields parseInt64 in_i64.
Proof. intros s v t Hs [Hv Ht]%parseInt64_range. split; [done|]. by eapply suffix_bytes. Qed.
Lemma parseInt64Field_yields : yields parseInt64Field in_i64.
Proof. exact parseInt64_yields. Qed.
Lemma parseUint64Field_yields : yields parseUint64Field (fun v => 0 <= v <= i64_max).
Proof.
  intros s v t Hs. unfold parseUint64Field. destruct (parseInt64 s) as [[w u]|] eqn:E; [|done].
  cbn [mbind option_bind]. destruct (Z.ltb_spec w 0); [done|]. intros [= <- <-].
  destruct (parseInt64_yields _ _ _ Hs E) as [Hw Hu]. split; [mlia|done].
Qed.
Lemma parseBool_yields : yields parseBool (fun _ => True).
Proof.
  intros s v t Hs. unfold parseBool. apply skipWs_bytes in Hs.
  destruct (consumeLiteral literalTrue _) as [u|] eqn:E.
  - intros [= _ <-]. split; [done|]. by eapply consumeLiteral_bytes.
  - destruct (consumeLiteral literalFalse _) as [u|] eqn:E'; [|done]. cbn [mbind option_bind].
    intros [= _ <-]. split; [done|]. by eapply consumeLiteral_bytes.
Qed.
Lemma parseStringArray_yields : yields parseStringArray (Forall bytes).
Proof.
  intros s v t Hs. unfold parseStringArray, parseArrayStart. destruct (consume _ _) as [u|] eqn:E; [|done].
  cbn [mbind option_bind]. apply consume_bytes in E; [|done].
  destruct (peek _ (skipWs u)) as [ends w] eqn:Ep. apply peek_bytes in Ep; [|by apply skipWs_bytes]. destruct ends.
  - destruct (parseArrayEnd w) as [x|] eqn:Ex; [|done]. cbn [mbind option_bind]. intros [= <- <-].
    split; [done|]. by eapply consume_bytes.
  - destruct (stringElements _ _) as [[[vs x]|]|] eqn:El; try done. cbn [from_option id mbind option_bind].
    apply stringElements_bytes in El as [Hvs Hx]; [|done].
    destruct (parseArrayEnd x) as [y|] eqn:Ey; [|done]. cbn [mbind option_bind]. intros [= <- <-].
    split; [done|]. by eapply consume_bytes.
Qed.

Lemma skipMember_keeps {T} (inv : T -> Prop) : keeps inv skipMember.
Proof.
  intros s object object' t Hs Hi. unfold skipMember. destruct (skip s) as [u|] eqn:E; [|done].
  cbn [mbind option_bind]. intros [= <- <-]. split; [done|]. by eapply skip_bytes.
Qed.

Create HintDb yields.
#[export] Hint Resolve parseString_yields parseInt64_yields parseInt64Field_yields
  parseUint64Field_yields parseBool_yields parseStringArray_yields : yields.

(** ** Writing an object *)

Definition spaces (n : nat) : list Z := replicate n Ch.space.
Definition boolToString (value : bool) : list Z := if value then literalTrue else literalFalse.

Definition memberText (inner : nat) (member : string * list Z) : list Z :=
  spaces inner ++ Ch.quote :: bytes_of_string member.1 ++ [Ch.quote; Ch.colon; Ch.space] ++ member.2.

(** One member per line, commas between the lines. *)
Fixpoint membersText (inner : nat) (members : list (string * list Z)) : list Z :=
  match members with
  | [] => []
  | [member] => memberText inner member ++ [Ch.newline]
  | member :: rest => memberText inner member ++ [Ch.comma; Ch.newline] ++ membersText inner rest
  end.

(** The members are indented by [inner], the closing brace by [outer]. *)
Definition objectText (inner outer : nat) (members : list (string * list Z)) : list Z :=
  [Ch.openBrace; Ch.newline] ++ membersText inner members ++ spaces outer ++ [Ch.closeBrace].

Fixpoint quotedList (values : list (list Z)) : list Z :=
  match values with
  | [] => []
  | [value] => quote value
  | value :: rest => quote value ++ [Ch.comma] ++ quotedList rest
  end.
Definition appendStringArray (values : list (list Z)) : list Z :=
  [Ch.openBracket] ++ quotedList values ++ [Ch.closeBracket].

(** ** What is written is read back *)

Lemma skipWs_spaces n s : skipWs (spaces n ++ s) = skipWs s.
Proof. induction n as [|n IH]; [done|]. exact IH. Qed.

(** Keys need no escape. *)
Definition plainChar (c : Z) : bool := (0x20 <=? c) && negb (c =? Ch.quote) && negb (c =? Ch.backslash).
Definition plainKey (key : string) : bool := forallb plainChar (bytes_of_string key).

Lemma stringBody_plain value rest :
  forallb plainChar value = true -> stringBody (value ++ Ch.quote :: rest) = Some (value, rest).
Proof.
  induction value as [|c value IH]; [done|]. cbn [forallb]. intros [Hc Hv]%andb_true_iff.
  unfold plainChar in Hc. bsplit. cbn [app stringBody].
  destruct (Z.eqb_spec c Ch.quote); [done|]. destruct (Z.eqb_spec c Ch.backslash); [done|]. cbn [negb].
  destruct (Z.ltb_spec c 0x20); [lia|]. by rewrite IH.
Qed.

Lemma parseKey_written inner key value rest : plainKey key = true ->
  parseKey (memberText inner (key, value) ++ rest) =
  Some (bytes_of_string key, Ch.space :: value ++ rest).
Proof.
  intros Hk. unfold parseKey, parseString, memberText. rewrite <- app_assoc, skipWs_spaces.
  cbn [app skipWs]. change (isSpace Ch.quote) with false. cbn [consume]. rewrite Z.eqb_refl.
  cbn [mbind option_bind fst snd]. rewrite <- app_assoc. cbn [app]. rewrite stringBody_plain by done.
  reflexivity.
Qed.

Lemma parseKey_ws s : parseKey (skipWs s) = parseKey s.
Proof. unfold parseKey, parseString. by rewrite skipWs_idem. Qed.

Lemma membersText_next inner member next members :
  membersText inner (member :: next :: members) =
  memberText inner member ++ [Ch.comma; Ch.newline] ++ membersText inner (next :: members).
Proof. done. Qed.

Lemma membersText_length inner members : (length members <= length (membersText inner members))%nat.
Proof.
  induction members as [|member [|next members] IH]; [done|..].
  - cbn [membersText]. rewrite length_app. cbn. lia.
  - rewrite membersText_next, !length_app. cbn [length] in *. lia.
Qed.

(** The text of the members starts with a quote and is long enough for the fuel. *)
Lemma membersText_starts inner members rest : members <> [] ->
  exists text, skipWs (membersText inner members ++ rest) = Ch.quote :: text /\
    (length members <= S (length text))%nat.
Proof.
  destruct members as [|member members]; [done|]. intros _.
  assert (forall after, exists text, skipWs ((memberText inner member ++ after) ++ rest) = Ch.quote :: text /\
    (length after <= length text)%nat) as Hstart.
  { intros after. unfold memberText. rewrite <- !app_assoc, skipWs_spaces. cbn [app].
    eexists. split; [reflexivity|]. rewrite !length_app. lia. }
  destruct members as [|next members].
  - destruct (Hstart [Ch.newline]) as (text & E & Hl). exists text. cbn [membersText length]. split; [exact E|lia].
  - destruct (Hstart ([Ch.comma; Ch.newline] ++ membersText inner (next :: members))) as (text & E & Hl).
    exists text. split; [exact E|]. pose proof (membersText_length inner (next :: members)).
    rewrite length_app in Hl. cbn [length] in *. lia.
Qed.

Section written.
Context {T : Type}.

Lemma memberLoop_ws fuel (table : list (Field T)) seen object s :
  memberLoop fuel table seen object (skipWs s) = memberLoop fuel table seen object s.
Proof. destruct fuel as [|fuel]; [done|]. cbn [memberLoop]. by rewrite parseKey_ws. Qed.

Lemma memberLoop_newline fuel (table : list (Field T)) seen object s :
  memberLoop fuel table seen object (Ch.newline :: s) = memberLoop fuel table seen object s.
Proof. rewrite <- memberLoop_ws. exact (memberLoop_ws fuel table seen object s). Qed.

(** The text of a member, and what reading it does: the bit and the change of the object. *)
Definition reads (table : list (Field T)) (member : string * list Z) (effect : Z * (T -> T)) : Prop :=
  plainKey member.1 = true /\
  exists f, findField table (bytes_of_string member.1) = Some f /\ f_bit f = effect.1 /\
    forall object rest, numberEnds rest = true ->
      f_read f (Ch.space :: member.2 ++ rest) object = Some (effect.2 object, rest).

Definition allBits (effects : list (Z * (T -> T))) (seen : Z) : Z :=
  fold_left (fun seen effect => Z.lor seen effect.1) effects seen.
Definition allEffects (effects : list (Z * (T -> T))) (object : T) : T :=
  fold_left (fun object effect => effect.2 object) effects object.

Lemma memberLoop_written table inner outer members effects rest :
  Forall2 (reads table) members effects -> members <> [] ->
  forall fuel seen object, (length members <= fuel)%nat ->
  memberLoop fuel table seen object (membersText inner members ++ spaces outer ++ Ch.closeBrace :: rest) =
  Some (Some (allBits effects seen, allEffects effects object, Ch.closeBrace :: rest)).
Proof.
  induction 1 as [|[key value] [bit change] members effects (Hk & f & Hf & Hbit & Hread) HF IH];
    intros Hne fuel seen object Hfuel; [done|]. clear Hne.
  destruct fuel as [|fuel]; [cbn in Hfuel; lia|]. cbn [fst snd] in *. subst bit.
  assert (forall text, numberEnds text = true ->
    memberLoop (S fuel) table seen object (memberText inner (key, value) ++ text) =
    let '(ends, s) := peek Ch.closeBrace text in
    if ends then Some (Some (Z.lor seen (f_bit f), change object, s))
    else match parseComma s with
         | Some s => memberLoop fuel table (Z.lor seen (f_bit f)) (change object) s
         | None => Some (Some (Z.lor seen (f_bit f), change object, s))
         end) as Hstep.
  { intros text Ht. cbn [memberLoop]. rewrite parseKey_written by done. rewrite Hf, Hread by done.
    reflexivity. }
  destruct members as [|next members].
  - cbn [membersText]. rewrite <- app_assoc. cbn [app]. rewrite Hstep by done. unfold peek.
    cbn [skipWs]. change (isSpace Ch.newline) with true. cbv iota. rewrite skipWs_spaces.
    cbn [skipWs]. change (isSpace Ch.closeBrace) with false. cbv iota. rewrite Z.eqb_refl.
    inversion HF. reflexivity.
  - rewrite membersText_next, <- !app_assoc, Hstep by done. unfold peek, parseComma.
    cbn [app skipWs]. change (isSpace Ch.comma) with false. cbv iota.
    change (Ch.comma =? Ch.closeBrace) with false. cbv iota. cbn [skipWs].
    change (isSpace Ch.comma) with false. cbv iota. cbn [consume]. rewrite Z.eqb_refl.
    cbn [length] in Hfuel. destruct fuel as [|fuel]; [lia|].
    rewrite memberLoop_newline, IH; [done|done|cbn; lia].
Qed.

Lemma objectMembers_written table inner outer members effects rest object :
  Forall2 (reads table) members effects -> members <> [] ->
  objectMembers table object (Ch.space :: objectText inner outer members ++ rest) =
  Some (allBits effects 0, allEffects effects object, Ch.closeBrace :: rest).
Proof.
  intros HF Hne. unfold objectMembers, objectText, parseObjectStart. cbn [app skipWs].
  change (isSpace Ch.space) with true. cbv iota. cbn [skipWs]. change (isSpace Ch.openBrace) with false.
  cbv iota. cbn [consume]. rewrite Z.eqb_refl. cbn [mbind option_bind]. cbn [skipWs].
  change (isSpace Ch.newline) with true. cbv iota. rewrite <- !app_assoc.
  destruct (membersText_starts inner members (spaces outer ++ [Ch.closeBrace] ++ rest) Hne)
    as (text & E & Hl).
  unfold peek. rewrite skipWs_idem, E. change (Ch.quote =? Ch.closeBrace) with false. cbv iota.
  rewrite <- E at 2. rewrite memberLoop_ws. cbn [app].
  rewrite (memberLoop_written table inner outer members effects rest HF Hne); [reflexivity|cbn [length]; lia].
Qed.

Lemma parseObject_written table complete inner outer members effects rest object :
  Forall2 (reads table) members effects -> members <> [] -> complete (allBits effects 0) = true ->
  parseObject table complete (Ch.space :: objectText inner outer members ++ rest) object =
  Some (allEffects effects object, rest).
Proof.
  intros HF Hne Hc. unfold parseObject. rewrite (objectMembers_written _ _ _ _ effects) by done.
  cbn [mbind option_bind]. rewrite Hc. unfold parseObjectEnd. cbn [skipWs].
  change (isSpace Ch.closeBrace) with false. cbn [consume]. by rewrite Z.eqb_refl.
Qed.

(** The texts a value parser reads back, whatever may follow a number. *)
Definition readsValue {V} (parse : list Z -> option (V * list Z)) (text : list Z) (value : V) : Prop :=
  forall rest, numberEnds rest = true -> parse (Ch.space :: text ++ rest) = Some (value, rest).

Lemma reads_value {V} (parse : list Z -> option (V * list Z)) set table key bit text value :
  plainKey key = true -> findField table (bytes_of_string key) = Some (MkField key bit (readWith parse set)) ->
  readsValue parse text value -> reads table (key, text) (bit, set value).
Proof.
  intros Hk Hf Hv. split; [done|]. eexists. split; [exact Hf|]. split; [done|]. intros object rest Hr.
  cbn [f_read fst snd]. unfold readWith. by rewrite Hv.
Qed.

(** A member that is an object of its own. *)
Lemma reads_object table key bit members effects subtable complete inner outer :
  plainKey key = true ->
  findField table (bytes_of_string key) = Some (MkField key bit (parseObject subtable complete)) ->
  Forall2 (reads subtable) members effects -> members <> [] -> complete (allBits effects 0) = true ->
  reads table (key, objectText inner outer members) (bit, allEffects effects).
Proof.
  intros Hk Hf HF Hne Hc. split; [done|]. eexists. split; [exact Hf|]. split; [done|].
  intros object rest _. cbn [f_read fst snd]. by apply parseObject_written.
Qed.

End written.

(** A member that is a part of the object. *)
Lemma reads_part {T P} (get : T -> P) set table key bit members effects subtable complete inner outer :
  plainKey key = true ->
  findField table (bytes_of_string key) =
    Some (MkField key bit (readPart get set (parseObject subtable complete))) ->
  Forall2 (reads subtable) members effects -> members <> [] ->
  complete (allBits effects 0) = true ->
  reads table (key, objectText inner outer members)
    (bit, fun object => set (allEffects effects (get object)) object).
Proof.
  intros Hk Hf HF Hne Hc. split; [done|]. eexists. split; [exact Hf|]. split; [done|].
  intros object rest _. cbn [f_read fst snd]. unfold readPart.
  rewrite (parseObject_written _ _ _ _ _ effects) by done. reflexivity.
Qed.


Lemma space_skip s : skipWs (Ch.space :: s) = skipWs s.
Proof. done. Qed.

Lemma readsValue_string value : Forall in_u8 value -> readsValue parseString (quote value) value.
Proof.
  intros Hv rest _. transitivity (parseString (quote value ++ rest)); [done|]. by apply parseString_quote.
Qed.

Lemma readsValue_int value : in_i64 value -> readsValue parseInt64 (appendInt value) value.
Proof.
  intros Hv rest Hr. transitivity (parseInt64 (appendInt value ++ rest)); [done|].
  by apply parseInt64_written.
Qed.

Lemma readsValue_int64 value : in_i64 value -> readsValue parseInt64Field (appendInt value) value.
Proof. apply readsValue_int. Qed.

Lemma readsValue_uint value : 0 <= value <= i64_max -> readsValue parseUint64Field (appendInt value) value.
Proof.
  intros Hv rest Hr. unfold parseUint64Field. rewrite readsValue_int by (done || mlia).
  cbn [mbind option_bind]. by destruct (Z.ltb_spec value 0); [lia|].
Qed.

Lemma readsValue_bool value : readsValue parseBool (boolToString value) value.
Proof. by destruct value; intros rest _. Qed.

Lemma stringElements_written values : forall fuel rest, Forall (Forall in_u8) values -> values <> [] ->
  (length values <= fuel)%nat ->
  stringElements fuel (quotedList values ++ Ch.closeBracket :: rest) =
  Some (Some (values, Ch.closeBracket :: rest)).
Proof.
  induction values as [|value values IH]; intros fuel rest Hb Hne Hf; [done|]. clear Hne.
  apply Forall_cons in Hb as [Hv Hb]. destruct fuel as [|fuel]; [cbn in Hf; lia|].
  destruct values as [|next values].
  - cbn [quotedList stringElements]. rewrite parseString_quote by done. reflexivity.
  - change (quotedList (value :: next :: values)) with (quote value ++ [Ch.comma] ++ quotedList (next :: values)).
    rewrite <- !app_assoc. cbn [stringElements]. rewrite parseString_quote by done.
    unfold peek, parseComma. cbn [app skipWs]. change (isSpace Ch.comma) with false. cbv iota.
    change (Ch.comma =? Ch.closeBracket) with false. cbv iota. cbn [skipWs].
    change (isSpace Ch.comma) with false. cbv iota. cbn [consume]. rewrite Z.eqb_refl.
    rewrite IH; [done|done|done|cbn in *; lia].
Qed.

Lemma quotedList_length values : (length values <= length (quotedList values))%nat.
Proof.
  induction values as [|value [|next values] IH]; [done|cbn; lia|].
  change (quotedList (value :: next :: values)) with (quote value ++ [Ch.comma] ++ quotedList (next :: values)).
  rewrite !length_app. cbn [length] in *. lia.
Qed.

Lemma quotedList_starts values rest : values <> [] -> exists text, quotedList values ++ rest = Ch.quote :: text.
Proof. destruct values as [|value [|next values]]; [done|..]; eexists; reflexivity. Qed.

Lemma readsValue_strings values :
  Forall (Forall in_u8) values -> readsValue parseStringArray (appendStringArray values) values.
Proof.
  intros Hv rest _. unfold parseStringArray, appendStringArray, parseArrayStart. cbn [app skipWs].
  change (isSpace Ch.space) with true. cbv iota. cbn [skipWs]. change (isSpace Ch.openBracket) with false.
  cbv iota. cbn [consume]. rewrite Z.eqb_refl. cbn [mbind option_bind]. rewrite <- app_assoc. cbn [app].
  destruct (decide (values = [])) as [->|Hne]; [done|].
  destruct (quotedList_starts values (Ch.closeBracket :: rest) Hne) as (text & E).
  unfold peek. rewrite skipWs_idem.
  assert (skipWs (quotedList values ++ Ch.closeBracket :: rest) = quotedList values ++ Ch.closeBracket :: rest)
    as -> by (by rewrite E).
  rewrite E at 1. change (Ch.quote =? Ch.closeBracket) with false. cbv iota.
  rewrite stringElements_written; [reflexivity|done|done|].
  pose proof (quotedList_length values). rewrite length_app. lia.
Qed.

Lemma reads_ext {T} (table : list (Field T)) member bit f g :
  (forall object, f object = g object) -> reads table member (bit, f) -> reads table member (bit, g).
Proof.
  intros Heq (Hk & field & Hf & Hb & Hr). split; [done|]. exists field. split_and!; [done|done|].
  intros object rest Hn. rewrite Hr by done. cbn [snd]. by rewrite Heq.
Qed.

(** A part whose members fix it whatever it was before. *)
Lemma reads_whole {T P} (get : T -> P) set table key bit members effects subtable complete inner outer value :
  plainKey key = true ->
  findField table (bytes_of_string key) =
    Some (MkField key bit (readPart get set (parseObject subtable complete))) ->
  Forall2 (reads subtable) members effects -> members <> [] -> complete (allBits effects 0) = true ->
  (forall object, allEffects effects object = value) ->
  reads table (key, objectText inner outer members) (bit, set value).
Proof.
  intros Hk Hf HF Hne Hc Hv. eapply reads_ext; [|by eapply reads_part]. intros object. cbv beta. by rewrite Hv.
Qed.

(** ** Tables of members *)

Abbreviation textField key bit p := (MkField key bit (readWith parseString (put p))) (only parsing).
Abbreviation textsField key bit p := (MkField key bit (readWith parseStringArray (put p))) (only parsing).
Abbreviation int64Field key bit p := (MkField key bit (readWith parseInt64Field (put p))) (only parsing).
Abbreviation uint64Field key bit p := (MkField key bit (readWith parseUint64Field (put p))) (only parsing).
Abbreviation boolField key bit p := (MkField key bit (readWith parseBool (put p))) (only parsing).
Abbreviation partField key bit p read := (MkField key bit (readPart p (put p) read)) (only parsing).

Create HintDb value.
#[export] Hint Resolve readsValue_string readsValue_int64 readsValue_uint readsValue_bool
  readsValue_strings : value.

(** Every member of the text is found in the table and read by its reader. *)
Ltac read_members :=
  repeat first
    [ apply Forall2_nil_2
    | apply Forall2_cons_2; [eapply reads_value; [reflexivity|reflexivity|solve [eauto with value]]|] ].

Ltac use_fields :=
  repeat match goal with H : Forall _ (_ :: _) |- _ => apply Forall_cons in H as [? H] end.

(** A record whose fields are checked field by field stays checked when one is replaced. *)
Ltac keep_fields :=
  let v := fresh "v" in let o := fresh "o" in let Ho := fresh "Ho" in
  intros v o ? Ho; destruct o; destruct Ho; cbn in *; use_fields;
  constructor; cbn; try assumption; repeat (apply Forall_cons_2; [assumption|]); apply Forall_nil_2.
