(* ===== verification/Integrity.v ===== *)
(** * Integrity: incidents and the health of a session

    Models CorpusContract/Integrity.hpp and the bookkeeping of incidents in
    Runtime/src/Replay/SessionReplay.cpp ([summaryFor_], [noteIncident_]).  Each enum is a
    module of its own, as its constructors are written in the source. *)
From stdpp Require Import base list numbers strings.
From S2P Require Import Prelude Json.
Local Open Scope Z_scope.

Module ChannelHealthState.
Inductive t := NotCaptured | Missing | Clean | Degraded | Corrupt.
#[global] Instance eq_dec : EqDecision t.
Proof. solve_decision. Defined.
Definition toString (state : t) : list Z :=
  bytes_of_string
    (match state with
     | NotCaptured => "not_captured"
     | Missing => "missing"
     | Clean => "clean"
     | Degraded => "degraded"
     | Corrupt => "corrupt"
     end).
End ChannelHealthState.

Module SessionHealth.
Inductive t := Clean | Degraded | Corrupt.
#[global] Instance eq_dec : EqDecision t.
Proof. solve_decision. Defined.
Definition toString (state : t) : list Z :=
  bytes_of_string
    (match state with Clean => "clean" | Degraded => "degraded" | Corrupt => "corrupt" end).
End SessionHealth.

Module IntegritySeverity.
Inductive t := Info | Warning | Error.
#[global] Instance eq_dec : EqDecision t.
Proof. solve_decision. Defined.
Definition toString (severity : t) : list Z :=
  bytes_of_string
    (match severity with Info => "info" | Warning => "warning" | Error => "error" end).
Definition rank (severity : t) : Z := match severity with Info => 0 | Warning => 1 | Error => 2 end.
(** [if (next > current) current = next] *)
Definition raise (next current : t) : t := if rank current <? rank next then next else current.
End IntegritySeverity.

Module IntegrityIncidentKind.
Inductive t :=
| MissingFile | ParseError | CountMismatch | DepthSequenceGap | DepthNonMonotonic
| SnapshotMissingForDepth | ExactnessUnprovable | StreamStale | CaptureAborted | UnknownIntegrity.
#[global] Instance eq_dec : EqDecision t.
Proof. solve_decision. Defined.
Definition toString (kind : t) : list Z :=
  bytes_of_string
    (match kind with
     | MissingFile => "missing_file"
     | ParseError => "parse_error"
     | CountMismatch => "count_mismatch"
     | DepthSequenceGap => "depth_sequence_gap"
     | DepthNonMonotonic => "depth_non_monotonic"
     | SnapshotMissingForDepth => "snapshot_missing_for_depth"
     | ExactnessUnprovable => "exactness_unprovable"
     | StreamStale => "stream_stale"
     | CaptureAborted => "capture_aborted"
     | UnknownIntegrity => "unknown_integrity"
     end).
End IntegrityIncidentKind.

Module IntegrityChannel.
Inductive t := Trades | Liquidations | BookTicker | Depth | Snapshot.
#[global] Instance eq_dec : EqDecision t.
Proof. solve_decision. Defined.
Definition toString (channel : t) : list Z :=
  bytes_of_string
    (match channel with
     | Trades => "trades"
     | Liquidations => "liquidations"
     | BookTicker => "bookticker"
     | Depth => "depth"
     | Snapshot => "snapshot"
     end).
End IntegrityChannel.

Record IntegrityIncident := MkIntegrityIncident {
  in_channel : IntegrityChannel.t;
  in_kind : IntegrityIncidentKind.t;
  in_severity : IntegritySeverity.t;
  in_reasonCode : list Z;
  in_message : list Z;
  in_detectedAtTsNs : Z;
  in_rowIndex : Z;
  in_expectedValue : list Z;
  in_observedValue : list Z;
  in_exactnessLost : bool;
}.
#[export] Instance IntegrityIncident_eq_dec : EqDecision IntegrityIncident.
Proof. solve_decision. Defined.

Record ChannelIntegritySummary := MkChannelIntegritySummary {
  ci_state : ChannelHealthState.t;
  ci_exactReplayEligible : bool;
  ci_incidentCount : Z;
  ci_gapCount : Z;
  ci_parseErrorCount : Z;
  ci_highestSeverity : IntegritySeverity.t;
  ci_reasonCode : list Z;
  ci_reasonText : list Z;
}.
#[export] Instance ChannelIntegritySummary_eta : Eta ChannelIntegritySummary := fun r =>
  MkChannelIntegritySummary (ci_state r) (ci_exactReplayEligible r) (ci_incidentCount r)
    (ci_gapCount r) (ci_parseErrorCount r) (ci_highestSeverity r) (ci_reasonCode r) (ci_reasonText r).
Definition newChannelIntegrity : ChannelIntegritySummary :=
  MkChannelIntegritySummary ChannelHealthState.NotCaptured false 0 0 0 IntegritySeverity.Info [] [].

Record SessionIntegritySummary := MkSessionIntegritySummary {
  si_sessionHealth : SessionHealth.t;
  si_exactReplayEligible : bool;
  si_totalIncidents : Z;
  si_highestSeverity : IntegritySeverity.t;
  si_trades : ChannelIntegritySummary;
  si_liquidations : ChannelIntegritySummary;
  si_bookTicker : ChannelIntegritySummary;
  si_depth : ChannelIntegritySummary;
  si_snapshot : ChannelIntegritySummary;
  si_incidents : list IntegrityIncident;
}.
#[export] Instance SessionIntegritySummary_eta : Eta SessionIntegritySummary := fun r =>
  MkSessionIntegritySummary (si_sessionHealth r) (si_exactReplayEligible r) (si_totalIncidents r)
    (si_highestSeverity r) (si_trades r) (si_liquidations r) (si_bookTicker r) (si_depth r)
    (si_snapshot r) (si_incidents r).
Definition newSessionIntegrity : SessionIntegritySummary :=
  MkSessionIntegritySummary SessionHealth.Clean false 0 IntegritySeverity.Info newChannelIntegrity
    newChannelIntegrity newChannelIntegrity newChannelIntegrity newChannelIntegrity [].

(** ** The summary of a channel *)

Definition summaryFor_ (channel : IntegrityChannel.t) (summary : SessionIntegritySummary)
  : ChannelIntegritySummary :=
  match channel with
  | IntegrityChannel.Trades => si_trades summary
  | IntegrityChannel.Liquidations => si_liquidations summary
  | IntegrityChannel.BookTicker => si_bookTicker summary
  | IntegrityChannel.Depth => si_depth summary
  | IntegrityChannel.Snapshot => si_snapshot summary
  end.

(** A change through the reference [summaryFor_] returns. *)
Definition onSummary (channel : IntegrityChannel.t)
  (change : ChannelIntegritySummary -> ChannelIntegritySummary) (summary : SessionIntegritySummary)
  : SessionIntegritySummary :=
  match channel with
  | IntegrityChannel.Trades => summary <| si_trades ::= change |>
  | IntegrityChannel.Liquidations => summary <| si_liquidations ::= change |>
  | IntegrityChannel.BookTicker => summary <| si_bookTicker ::= change |>
  | IntegrityChannel.Depth => summary <| si_depth ::= change |>
  | IntegrityChannel.Snapshot => summary <| si_snapshot ::= change |>
  end.

Definition isKind (kind : IntegrityIncidentKind.t) (incident : IntegrityIncident) : bool :=
  bool_decide (in_kind incident = kind).
Definition orElse (text other : list Z) : list Z := if bool_decide (text = []) then other else text.

(** The part of [noteIncident_] on the channel. *)
Definition noteOnChannel (incident : IntegrityIncident) (c : ChannelIntegritySummary)
  : ChannelIntegritySummary :=
  c <| ci_incidentCount ::= fun n => n + 1 |>
    <| ci_gapCount ::= fun n =>
         if isKind IntegrityIncidentKind.DepthSequenceGap incident then n + 1 else n |>
    <| ci_parseErrorCount ::= fun n =>
         if isKind IntegrityIncidentKind.ParseError incident then n + 1 else n |>
    <| ci_highestSeverity ::= IntegritySeverity.raise (in_severity incident) |>
    <| ci_reasonCode ::= fun code => orElse code (in_reasonCode incident) |>
    <| ci_reasonText ::= fun text => orElse text (in_message incident) |>.

Definition noteIncident_ (incident : IntegrityIncident) (summary : SessionIntegritySummary)
  : SessionIntegritySummary :=
  onSummary (in_channel incident) (noteOnChannel incident)
    (summary <| si_incidents ::= fun incidents => incidents ++ [incident] |>
             <| si_totalIncidents ::= fun n => n + 1 |>
             <| si_highestSeverity ::= IntegritySeverity.raise (in_severity incident) |>).
