(* ===== verification/SessionManifest.v ===== *)
(** * SessionManifest: manifest.json of a text session

    Models CorpusContract/SessionManifest.hpp and Capture/Session/SessionManifest.cpp: the
    manifest, its renderer and its parser.  The parser's object loops are [parseObject] over
    a table of the known members; a reference member of the source is a setter here. *)
From stdpp Require Import base list numbers strings.
From S2P Require Import Prelude Codec Json JsonObject Integrity.
Local Open Scope Z_scope.

(** ** The manifest *)

Record ChannelRuntimeHealth := MkChannelRuntimeHealth {
  rh_state : list Z;
  rh_required : bool;
  rh_firstRowNs : Z;
  rh_lastRowNs : Z;
  rh_reconnectCount : Z;
  rh_droppedEventCount : Z;
  rh_unroutableEventCount : Z;
  rh_lastError : list Z;
}.
#[export] Instance ChannelRuntimeHealth_eta : Eta ChannelRuntimeHealth := fun r =>
  MkChannelRuntimeHealth (rh_state r) (rh_required r) (rh_firstRowNs r) (rh_lastRowNs r)
    (rh_reconnectCount r) (rh_droppedEventCount r) (rh_unroutableEventCount r) (rh_lastError r).
Definition newRuntimeHealth : ChannelRuntimeHealth :=
  MkChannelRuntimeHealth (bytes_of_string "not_requested") false 0 0 0 0 0 [].

Record ArrivalClockSummary := MkArrivalClockSummary {
  ac_boundary : list Z;
  ac_realtimeClock : list Z;
  ac_monotonicClock : list Z;
  ac_capturedRows : Z;
  ac_historicalRows : Z;
  ac_unavailableRows : Z;
  ac_realtimeRegressions : Z;
  ac_monotonicNonIncreasing : Z;
  ac_exchangeAheadOfReceive : Z;
  ac_exchangeTimestampMissing : Z;
  ac_firstReceiveRealtimeNs : Z;
  ac_lastReceiveRealtimeNs : Z;
  ac_firstReceiveMonotonicNs : Z;
  ac_lastReceiveMonotonicNs : Z;
}.
#[export] Instance ArrivalClockSummary_eta : Eta ArrivalClockSummary := fun r =>
  MkArrivalClockSummary (ac_boundary r) (ac_realtimeClock r) (ac_monotonicClock r)
    (ac_capturedRows r) (ac_historicalRows r) (ac_unavailableRows r) (ac_realtimeRegressions r)
    (ac_monotonicNonIncreasing r) (ac_exchangeAheadOfReceive r) (ac_exchangeTimestampMissing r)
    (ac_firstReceiveRealtimeNs r) (ac_lastReceiveRealtimeNs r) (ac_firstReceiveMonotonicNs r)
    (ac_lastReceiveMonotonicNs r).
Definition newArrivalClock : ArrivalClockSummary :=
  MkArrivalClockSummary (bytes_of_string "hft-parser.application-frame-ready")
    (bytes_of_string "CLOCK_REALTIME") (bytes_of_string "CLOCK_MONOTONIC") 0 0 0 0 0 0 0 0 0 0 0.

Record SessionManifest := MkSessionManifest {
  sm_sessionId : list Z;
  sm_exchange : list Z;
  sm_market : list Z;
  sm_symbols : list (list Z);
  sm_storageSymbol : list Z;
  sm_sessionStatus : list Z;
  sm_selectedParentDir : list Z;
  sm_instrumentMetadataPath : list Z;
  sm_sessionAuditPath : list Z;
  sm_loaderDiagnosticPath : list Z;
  sm_marketDataLaunchPath : list Z;
  sm_startedAtNs : Z;
  sm_endedAtNs : Z;
  sm_targetDurationSec : Z;
  sm_actualDurationSec : Z;
  sm_snapshotIntervalSec : Z;
  sm_structurallyLoadable : bool;
  sm_structuralBlockers : list (list Z);
  sm_tradesEnabled : bool;
  sm_liquidationsEnabled : bool;
  sm_bookTickerEnabled : bool;
  sm_orderbookEnabled : bool;
  sm_candlesEnabled : bool;
  sm_candles2Enabled : bool;
  sm_markPriceEnabled : bool;
  sm_indexPriceEnabled : bool;
  sm_fundingEnabled : bool;
  sm_priceLimitEnabled : bool;
  sm_tradesRequiredWhenEnabled : bool;
  sm_liquidationsRequiredWhenEnabled : bool;
  sm_bookTickerRequiredWhenEnabled : bool;
  sm_orderbookRequiredWhenEnabled : bool;
  sm_candlesRequiredWhenEnabled : bool;
  sm_candles2RequiredWhenEnabled : bool;
  sm_markPriceRequiredWhenEnabled : bool;
  sm_indexPriceRequiredWhenEnabled : bool;
  sm_fundingRequiredWhenEnabled : bool;
  sm_priceLimitRequiredWhenEnabled : bool;
  sm_tradesPath : list Z;
  sm_liquidationsPath : list Z;
  sm_bookTickerPath : list Z;
  sm_depthPath : list Z;
  sm_depthSidecarPath : list Z;
  sm_candlesPath : list Z;
  sm_candles2Path : list Z;
  sm_markPricePath : list Z;
  sm_indexPricePath : list Z;
  sm_fundingPath : list Z;
  sm_priceLimitPath : list Z;
  sm_canonicalArtifacts : list (list Z);
  sm_supportArtifacts : list (list Z);
  sm_tradesCount : Z;
  sm_liquidationsCount : Z;
  sm_bookTickerCount : Z;
  sm_markPriceCount : Z;
  sm_indexPriceCount : Z;
  sm_fundingCount : Z;
  sm_priceLimitCount : Z;
  sm_depthCount : Z;
  sm_candlesCount : Z;
  sm_candles2Count : Z;
  sm_tradesRuntime : ChannelRuntimeHealth;
  sm_liquidationsRuntime : ChannelRuntimeHealth;
  sm_bookTickerRuntime : ChannelRuntimeHealth;
  sm_depthRuntime : ChannelRuntimeHealth;
  sm_markPriceRuntime : ChannelRuntimeHealth;
  sm_indexPriceRuntime : ChannelRuntimeHealth;
  sm_fundingRuntime : ChannelRuntimeHealth;
  sm_priceLimitRuntime : ChannelRuntimeHealth;
  sm_arrivalClock : ArrivalClockSummary;
  sm_tradesHistoryWarmupSec : Z;
  sm_tradesHistoryRequestedStartNs : Z;
  sm_tradesHistoryRequestedEndNs : Z;
  sm_tradesHistoryRows : Z;
  sm_tradesHistoryRequests : Z;
  sm_tradesHistoryFeedKind : list Z;
  sm_tradesHistoryStatus : list Z;
  sm_sessionHealth : SessionHealth.t;
  sm_exactReplayEligible : bool;
  sm_integrityReportPath : list Z;
  sm_tradesIntegrity : ChannelIntegritySummary;
  sm_liquidationsIntegrity : ChannelIntegritySummary;
  sm_bookTickerIntegrity : ChannelIntegritySummary;
  sm_depthIntegrity : ChannelIntegritySummary;
  sm_snapshotIntegrity : ChannelIntegritySummary;
  sm_totalIntegrityIncidents : Z;
  sm_highestIntegritySeverity : IntegritySeverity.t;
  sm_warningSummary : list Z;
}.
#[export] Instance SessionManifest_eta : Eta SessionManifest := fun r =>
  MkSessionManifest (sm_sessionId r) (sm_exchange r) (sm_market r) (sm_symbols r)
    (sm_storageSymbol r) (sm_sessionStatus r) (sm_selectedParentDir r)
    (sm_instrumentMetadataPath r) (sm_sessionAuditPath r) (sm_loaderDiagnosticPath r)
    (sm_marketDataLaunchPath r) (sm_startedAtNs r) (sm_endedAtNs r) (sm_targetDurationSec r)
    (sm_actualDurationSec r) (sm_snapshotIntervalSec r) (sm_structurallyLoadable r)
    (sm_structuralBlockers r) (sm_tradesEnabled r) (sm_liquidationsEnabled r)
    (sm_bookTickerEnabled r) (sm_orderbookEnabled r) (sm_candlesEnabled r)
    (sm_candles2Enabled r) (sm_markPriceEnabled r) (sm_indexPriceEnabled r)
    (sm_fundingEnabled r) (sm_priceLimitEnabled r) (sm_tradesRequiredWhenEnabled r)
    (sm_liquidationsRequiredWhenEnabled r) (sm_bookTickerRequiredWhenEnabled r)
    (sm_orderbookRequiredWhenEnabled r) (sm_candlesRequiredWhenEnabled r)
    (sm_candles2RequiredWhenEnabled r) (sm_markPriceRequiredWhenEnabled r)
    (sm_indexPriceRequiredWhenEnabled r) (sm_fundingRequiredWhenEnabled r)
    (sm_priceLimitRequiredWhenEnabled r) (sm_tradesPath r) (sm_liquidationsPath r)
    (sm_bookTickerPath r) (sm_depthPath r) (sm_depthSidecarPath r) (sm_candlesPath r)
    (sm_candles2Path r) (sm_markPricePath r) (sm_indexPricePath r) (sm_fundingPath r)
    (sm_priceLimitPath r) (sm_canonicalArtifacts r) (sm_supportArtifacts r) (sm_tradesCount r)
    (sm_liquidationsCount r) (sm_bookTickerCount r) (sm_markPriceCount r) (sm_indexPriceCount r)
    (sm_fundingCount r) (sm_priceLimitCount r) (sm_depthCount r) (sm_candlesCount r)
    (sm_candles2Count r) (sm_tradesRuntime r) (sm_liquidationsRuntime r)
    (sm_bookTickerRuntime r) (sm_depthRuntime r) (sm_markPriceRuntime r)
    (sm_indexPriceRuntime r) (sm_fundingRuntime r) (sm_priceLimitRuntime r) (sm_arrivalClock r)
    (sm_tradesHistoryWarmupSec r) (sm_tradesHistoryRequestedStartNs r)
    (sm_tradesHistoryRequestedEndNs r) (sm_tradesHistoryRows r) (sm_tradesHistoryRequests r)
    (sm_tradesHistoryFeedKind r) (sm_tradesHistoryStatus r) (sm_sessionHealth r)
    (sm_exactReplayEligible r) (sm_integrityReportPath r) (sm_tradesIntegrity r)
    (sm_liquidationsIntegrity r) (sm_bookTickerIntegrity r) (sm_depthIntegrity r)
    (sm_snapshotIntegrity r) (sm_totalIntegrityIncidents r) (sm_highestIntegritySeverity r)
    (sm_warningSummary r).
Definition newManifest : SessionManifest :=
  MkSessionManifest [] [] [] [] [] (bytes_of_string "complete") []
    (bytes_of_string "instrument_metadata.json") (bytes_of_string "reports/session_audit.json")
    (bytes_of_string "reports/loader_diagnostic.json")
    (bytes_of_string "reports/market_data_launch.json") 0 0 0 0 60 true [] false false false
    false false false false false false false true false true true false false false false false
    false (bytes_of_string "jsonl/trades.jsonl") (bytes_of_string "jsonl/liquidations.jsonl")
    (bytes_of_string "jsonl/bookticker.jsonl") (bytes_of_string "jsonl/depth_tape.jsonl")
    (bytes_of_string "jsonl/depth_sidecar.jsonl") (bytes_of_string "jsonl/candles.jsonl")
    (bytes_of_string "jsonl/candles2.jsonl") (bytes_of_string "jsonl/mark_price.jsonl")
    (bytes_of_string "jsonl/index_price.jsonl") (bytes_of_string "jsonl/funding.jsonl")
    (bytes_of_string "jsonl/price_limit.jsonl") [] [] 0 0 0 0 0 0 0 0 0 0 newRuntimeHealth
    newRuntimeHealth newRuntimeHealth newRuntimeHealth newRuntimeHealth newRuntimeHealth
    newRuntimeHealth newRuntimeHealth newArrivalClock 0 0 0 0 0 [] [] SessionHealth.Clean false
    (bytes_of_string "reports/integrity_report.json") newChannelIntegrity newChannelIntegrity
    newChannelIntegrity newChannelIntegrity newChannelIntegrity 0 IntegritySeverity.Info [].

(** ** Parsing *)

Definition parseChannelHealthStateString (value : list Z) : option ChannelHealthState.t :=
  if bool_decide (value = bytes_of_string "not_captured") then Some ChannelHealthState.NotCaptured
  else if bool_decide (value = bytes_of_string "missing") then Some ChannelHealthState.Missing
  else if bool_decide (value = bytes_of_string "clean") then Some ChannelHealthState.Clean
  else if bool_decide (value = bytes_of_string "degraded") then Some ChannelHealthState.Degraded
  else if bool_decide (value = bytes_of_string "corrupt") then Some ChannelHealthState.Corrupt
  else None.
Definition parseSessionHealthString (value : list Z) : option SessionHealth.t :=
  if bool_decide (value = bytes_of_string "clean") then Some SessionHealth.Clean
  else if bool_decide (value = bytes_of_string "degraded") then Some SessionHealth.Degraded
  else if bool_decide (value = bytes_of_string "corrupt") then Some SessionHealth.Corrupt
  else None.
Definition parseSeverityString (value : list Z) : option IntegritySeverity.t :=
  if bool_decide (value = bytes_of_string "info") then Some IntegritySeverity.Info
  else if bool_decide (value = bytes_of_string "warning") then Some IntegritySeverity.Warning
  else if bool_decide (value = bytes_of_string "error") then Some IntegritySeverity.Error
  else None.

(** A string member whose content is then decoded. *)
Definition parseNamed {V} (decode : list Z -> option V) (s : list Z) : option (V * list Z) :=
  '(text, s) ← parseString s; value ← decode text; Some (value, s).

Definition identityTable : list (Field SessionManifest) := [
  textField "session_id" 1 sm_sessionId;
  textField "exchange" 2 sm_exchange;
  textField "market" 4 sm_market;
  textsField "symbols" 8 sm_symbols;
  MkField "route_symbols" 0 skipMember;
  textField "storage_symbol" 0 sm_storageSymbol].
Definition parseIdentityObject : reader SessionManifest :=
  parseObject identityTable (fun seen => seen =? 15).

Definition captureTable : list (Field SessionManifest) := [
  textField "selected_parent_dir" 1 sm_selectedParentDir;
  int64Field "started_at_ns" 2 sm_startedAtNs;
  int64Field "ended_at_ns" 4 sm_endedAtNs;
  int64Field "target_duration_sec" 8 sm_targetDurationSec;
  int64Field "actual_duration_sec" 16 sm_actualDurationSec;
  int64Field "snapshot_interval_sec" 32 sm_snapshotIntervalSec].
Definition parseCaptureObject : reader SessionManifest :=
  parseObject captureTable (fun seen => seen =? 63).

Definition arrivalClockTable : list (Field ArrivalClockSummary) := [
  textField "boundary" 1 ac_boundary;
  textField "realtime_clock" 2 ac_realtimeClock;
  textField "monotonic_clock" 4 ac_monotonicClock;
  uint64Field "captured_rows" 8 ac_capturedRows;
  uint64Field "historical_rows" 16 ac_historicalRows;
  uint64Field "unavailable_rows" 32 ac_unavailableRows;
  uint64Field "realtime_regressions" 64 ac_realtimeRegressions;
  uint64Field "monotonic_non_increasing" 128 ac_monotonicNonIncreasing;
  uint64Field "exchange_ahead_of_receive" 256 ac_exchangeAheadOfReceive;
  uint64Field "exchange_timestamp_missing" 512 ac_exchangeTimestampMissing;
  int64Field "first_receive_realtime_ns" 1024 ac_firstReceiveRealtimeNs;
  int64Field "last_receive_realtime_ns" 2048 ac_lastReceiveRealtimeNs;
  uint64Field "first_receive_monotonic_ns" 4096 ac_firstReceiveMonotonicNs;
  uint64Field "last_receive_monotonic_ns" 8192 ac_lastReceiveMonotonicNs].
Definition parseArrivalClockObject : reader ArrivalClockSummary :=
  parseObject arrivalClockTable (fun seen => seen =? 2 ^ 14 - 1).

Definition replayTable : list (Field SessionManifest) := [
  boolField "structurally_loadable" 0 sm_structurallyLoadable;
  textsField "structural_blockers" 0 sm_structuralBlockers].
Definition parseReplayObject : reader SessionManifest := parseObject replayTable (fun _ => true).

(** [sidecarPath] is absent where the source passes a null pointer. *)
Definition channelTable {T} (enabled requiredWhenEnabled : bool -> T -> T) (path : list Z -> T -> T)
  (count : Z -> T -> T) (sidecarPath : option (list Z -> T -> T)) : list (Field T) := [
  MkField "enabled" 1 (readWith parseBool enabled);
  MkField "required_when_enabled" 2 (readWith parseBool requiredWhenEnabled);
  MkField "path" 4 (readWith parseString path);
  MkField "sidecar_path" 16
    (match sidecarPath with None => skipMember | Some set => readWith parseString set end);
  MkField "declared_event_count" 8 (readWith parseUint64Field count)].
Definition parseChannelObject {T} (enabled requiredWhenEnabled : bool -> T -> T)
  (path : list Z -> T -> T) (count : Z -> T -> T) (sidecarPath : option (list Z -> T -> T)) : reader T :=
  parseObject (channelTable enabled requiredWhenEnabled path count sidecarPath)
    (fun seen => let required := match sidecarPath with None => 15 | Some _ => 31 end in
                 Z.land seen required =? required).

Definition tradesChannelTable : list (Field SessionManifest) := [
  boolField "enabled" 1 sm_tradesEnabled;
  boolField "required_when_enabled" 2 sm_tradesRequiredWhenEnabled;
  textField "path" 4 sm_tradesPath;
  uint64Field "declared_event_count" 8 sm_tradesCount;
  int64Field "history_warmup_sec" 0 sm_tradesHistoryWarmupSec;
  int64Field "history_requested_start_ns" 0 sm_tradesHistoryRequestedStartNs;
  int64Field "history_requested_end_ns" 0 sm_tradesHistoryRequestedEndNs;
  uint64Field "history_rows" 0 sm_tradesHistoryRows;
  uint64Field "history_requests" 0 sm_tradesHistoryRequests;
  textField "history_feed_kind" 0 sm_tradesHistoryFeedKind;
  textField "history_status" 0 sm_tradesHistoryStatus].
Definition parseTradesChannelObject : reader SessionManifest :=
  parseObject tradesChannelTable (fun seen => seen =? 2 ^ 4 - 1).

Definition channelsTable : list (Field SessionManifest) := [
  MkField "trades" 1 parseTradesChannelObject;
  MkField "liquidations" 2 (parseChannelObject (put sm_liquidationsEnabled)
    (put sm_liquidationsRequiredWhenEnabled) (put sm_liquidationsPath) (put sm_liquidationsCount) None);
  MkField "bookticker" 4 (parseChannelObject (put sm_bookTickerEnabled)
    (put sm_bookTickerRequiredWhenEnabled) (put sm_bookTickerPath) (put sm_bookTickerCount) None);
  MkField "depth" 8 (parseChannelObject (put sm_orderbookEnabled)
    (put sm_orderbookRequiredWhenEnabled) (put sm_depthPath) (put sm_depthCount)
    (Some (put sm_depthSidecarPath)));
  MkField "candles" 16 (parseChannelObject (put sm_candlesEnabled)
    (put sm_candlesRequiredWhenEnabled) (put sm_candlesPath) (put sm_candlesCount) None);
  MkField "candles2" 32 (parseChannelObject (put sm_candles2Enabled)
    (put sm_candles2RequiredWhenEnabled) (put sm_candles2Path) (put sm_candles2Count) None);
  MkField "mark_price" 64 (parseChannelObject (put sm_markPriceEnabled)
    (put sm_markPriceRequiredWhenEnabled) (put sm_markPricePath) (put sm_markPriceCount) None);
  MkField "index_price" 128 (parseChannelObject (put sm_indexPriceEnabled)
    (put sm_indexPriceRequiredWhenEnabled) (put sm_indexPricePath) (put sm_indexPriceCount) None);
  MkField "funding" 256 (parseChannelObject (put sm_fundingEnabled)
    (put sm_fundingRequiredWhenEnabled) (put sm_fundingPath) (put sm_fundingCount) None);
  MkField "price_limit" 512 (parseChannelObject (put sm_priceLimitEnabled)
    (put sm_priceLimitRequiredWhenEnabled) (put sm_priceLimitPath) (put sm_priceLimitCount) None)].
Definition parseChannelsObject : reader SessionManifest :=
  parseObject channelsTable (fun seen => seen =? 2 ^ 10 - 1).

Definition runtimeTable : list (Field ChannelRuntimeHealth) := [
  textField "state" 0 rh_state;
  boolField "required" 0 rh_required;
  int64Field "first_row_ns" 0 rh_firstRowNs;
  int64Field "last_row_ns" 0 rh_lastRowNs;
  uint64Field "reconnect_count" 0 rh_reconnectCount;
  uint64Field "dropped_event_count" 0 rh_droppedEventCount;
  uint64Field "unroutable_event_count" 0 rh_unroutableEventCount;
  textField "last_error" 0 rh_lastError].
Definition parseChannelRuntimeHealthObject : reader ChannelRuntimeHealth :=
  parseObject runtimeTable (fun _ => true).

Definition runtimeHealthTable : list (Field SessionManifest) := [
  partField "trades" 0 sm_tradesRuntime parseChannelRuntimeHealthObject;
  partField "liquidations" 0 sm_liquidationsRuntime parseChannelRuntimeHealthObject;
  partField "bookticker" 0 sm_bookTickerRuntime parseChannelRuntimeHealthObject;
  partField "depth" 0 sm_depthRuntime parseChannelRuntimeHealthObject;
  partField "mark_price" 0 sm_markPriceRuntime parseChannelRuntimeHealthObject;
  partField "index_price" 0 sm_indexPriceRuntime parseChannelRuntimeHealthObject;
  partField "funding" 0 sm_fundingRuntime parseChannelRuntimeHealthObject;
  partField "price_limit" 0 sm_priceLimitRuntime parseChannelRuntimeHealthObject].
Definition parseRuntimeHealthObject : reader SessionManifest :=
  parseObject runtimeHealthTable (fun _ => true).

Definition artifactsTable : list (Field SessionManifest) := [
  textsField "canonical" 0 sm_canonicalArtifacts;
  textsField "support" 0 sm_supportArtifacts;
  textField "instrument_metadata_path" 1 sm_instrumentMetadataPath;
  textField "session_audit_path" 2 sm_sessionAuditPath;
  textField "loader_diagnostic_path" 4 sm_loaderDiagnosticPath;
  textField "market_data_launch_path" 8 sm_marketDataLaunchPath].
Definition parseArtifactsObject : reader SessionManifest :=
  parseObject artifactsTable (fun seen => seen =? 2 ^ 4 - 1).

Definition summaryTable : list (Field SessionManifest) := [
  textField "warning_summary" 0 sm_warningSummary].
Definition parseSummaryObject : reader SessionManifest := parseObject summaryTable (fun _ => true).

Definition channelIntegrityTable : list (Field ChannelIntegritySummary) := [
  MkField "state" 0 (readWith (parseNamed parseChannelHealthStateString) (put ci_state));
  boolField "exact_replay_eligible" 0 ci_exactReplayEligible;
  uint64Field "incident_count" 0 ci_incidentCount;
  uint64Field "gap_count" 0 ci_gapCount;
  uint64Field "parse_error_count" 0 ci_parseErrorCount;
  MkField "highest_severity" 0 (readWith (parseNamed parseSeverityString) (put ci_highestSeverity));
  textField "reason_code" 0 ci_reasonCode;
  textField "reason_text" 0 ci_reasonText].
Definition parseChannelIntegrityObject : reader ChannelIntegritySummary :=
  parseObject channelIntegrityTable (fun _ => true).

Definition integritySummaryTable : list (Field SessionManifest) := [
  uint64Field "total_incidents" 0 sm_totalIntegrityIncidents;
  MkField "highest_severity" 0
    (readWith (parseNamed parseSeverityString) (put sm_highestIntegritySeverity))].
Definition parseIntegritySummaryObject : reader SessionManifest :=
  parseObject integritySummaryTable (fun _ => true).

Definition channelIntegrityGroupTable : list (Field SessionManifest) := [
  partField "trades" 0 sm_tradesIntegrity parseChannelIntegrityObject;
  partField "liquidations" 0 sm_liquidationsIntegrity parseChannelIntegrityObject;
  partField "bookticker" 0 sm_bookTickerIntegrity parseChannelIntegrityObject;
  partField "depth" 0 sm_depthIntegrity parseChannelIntegrityObject;
  partField "snapshot" 0 sm_snapshotIntegrity parseChannelIntegrityObject].
Definition parseChannelIntegrityGroupObject : reader SessionManifest :=
  parseObject channelIntegrityGroupTable (fun _ => true).

Definition integrityTable : list (Field SessionManifest) := [
  MkField "session_health" 0 (readWith (parseNamed parseSessionHealthString) (put sm_sessionHealth));
  boolField "exact_replay_eligible" 0 sm_exactReplayEligible;
  textField "report_path" 0 sm_integrityReportPath;
  MkField "summary" 0 parseIntegritySummaryObject;
  MkField "channels" 0 parseChannelIntegrityGroupObject].

(** The bits stand for [sessionStatusSeen], [identitySeen], [captureSeen],
    [arrivalClockSeen], [channelsSeen] and [artifactsSeen]. *)
Definition manifestTable : list (Field SessionManifest) := [
  textField "session_status" 1 sm_sessionStatus;
  MkField "identity" 2 parseIdentityObject;
  MkField "capture" 4 parseCaptureObject;
  partField "arrival_clock" 8 sm_arrivalClock parseArrivalClockObject;
  MkField "replay" 0 parseReplayObject;
  MkField "channels" 16 parseChannelsObject;
  MkField "runtime_health" 0 parseRuntimeHealthObject;
  MkField "snapshots" 0 skipMember;
  MkField "artifacts" 32 parseArtifactsObject;
  MkField "integrity" 0 (parseObject integrityTable (fun _ => true));
  MkField "summary" 0 parseSummaryObject].

(** What is derived after parsing. *)
Definition pushIf (cond : bool) (value : list Z) : list (list Z) := if cond then [value] else [].
Definition canonicalArtifactsOf (m : SessionManifest) : list (list Z) :=
  let declared (enabled : bool) (path : list Z) := pushIf (enabled && nonEmpty path) path in
  [bytes_of_string "manifest.json"] ++
  pushIf (nonEmpty (sm_instrumentMetadataPath m)) (sm_instrumentMetadataPath m) ++
  declared (sm_tradesEnabled m) (sm_tradesPath m) ++
  declared (sm_liquidationsEnabled m) (sm_liquidationsPath m) ++
  declared (sm_bookTickerEnabled m) (sm_bookTickerPath m) ++
  (if sm_orderbookEnabled m && nonEmpty (sm_depthPath m)
   then sm_depthPath m :: pushIf (nonEmpty (sm_depthSidecarPath m)) (sm_depthSidecarPath m) else []) ++
  declared (sm_candlesEnabled m) (sm_candlesPath m) ++
  declared (sm_candles2Enabled m) (sm_candles2Path m) ++
  declared (sm_markPriceEnabled m) (sm_markPricePath m) ++
  declared (sm_indexPriceEnabled m) (sm_indexPricePath m) ++
  declared (sm_fundingEnabled m) (sm_fundingPath m) ++
  declared (sm_priceLimitEnabled m) (sm_priceLimitPath m).
Definition populateCanonicalArtifacts (m : SessionManifest) : SessionManifest :=
  m <| sm_canonicalArtifacts := canonicalArtifactsOf m |>.

Definition supportArtifactsOf (m : SessionManifest) : list (list Z) :=
  pushIf (nonEmpty (sm_sessionAuditPath m)) (sm_sessionAuditPath m) ++
  pushIf (nonEmpty (sm_integrityReportPath m)) (sm_integrityReportPath m) ++
  pushIf (nonEmpty (sm_loaderDiagnosticPath m)) (sm_loaderDiagnosticPath m) ++
  pushIf (nonEmpty (sm_marketDataLaunchPath m)) (sm_marketDataLaunchPath m).
Definition populateSupportArtifacts (m : SessionManifest) : SessionManifest :=
  m <| sm_supportArtifacts := supportArtifactsOf m |>.

Definition structuralBlockersOf (m : SessionManifest) : list (list Z) :=
  let missing (cond : bool) (what : string) := pushIf cond (bytes_of_string what) in
  let path (enabled required : bool) (path : list Z) := enabled && required && negb (nonEmpty path) in
  missing (negb (nonEmpty (sm_sessionId m))) "missing session_id" ++
  missing (negb (nonEmpty (sm_exchange m))) "missing exchange" ++
  missing (negb (nonEmpty (sm_market m))) "missing market" ++
  missing (negb (nonEmpty (sm_symbols m))) "missing symbols" ++
  missing (path (sm_tradesEnabled m) (sm_tradesRequiredWhenEnabled m) (sm_tradesPath m))
    "missing trades path" ++
  missing (path (sm_liquidationsEnabled m) (sm_liquidationsRequiredWhenEnabled m) (sm_liquidationsPath m))
    "missing liquidations path" ++
  missing (path (sm_bookTickerEnabled m) (sm_bookTickerRequiredWhenEnabled m) (sm_bookTickerPath m))
    "missing bookticker path" ++
  missing (sm_orderbookEnabled m && negb (nonEmpty (sm_depthPath m))) "missing depth path" ++
  missing (sm_orderbookEnabled m && negb (nonEmpty (sm_depthSidecarPath m))) "missing depth sidecar path" ++
  missing (path (sm_candlesEnabled m) (sm_candlesRequiredWhenEnabled m) (sm_candlesPath m))
    "missing candles path" ++
  missing (path (sm_candles2Enabled m) (sm_candles2RequiredWhenEnabled m) (sm_candles2Path m))
    "missing candles2 path" ++
  missing (path (sm_markPriceEnabled m) (sm_markPriceRequiredWhenEnabled m) (sm_markPricePath m))
    "missing mark_price path" ++
  missing (path (sm_indexPriceEnabled m) (sm_indexPriceRequiredWhenEnabled m) (sm_indexPricePath m))
    "missing index_price path" ++
  missing (path (sm_fundingEnabled m) (sm_fundingRequiredWhenEnabled m) (sm_fundingPath m))
    "missing funding path" ++
  missing (path (sm_priceLimitEnabled m) (sm_priceLimitRequiredWhenEnabled m) (sm_priceLimitPath m))
    "missing price_limit path".
Definition validateStructurally (m : SessionManifest) : SessionManifest :=
  m <| sm_structuralBlockers := structuralBlockersOf m |>
    <| sm_structurallyLoadable := negb (nonEmpty (structuralBlockersOf m)) |>.

Definition clockAccepted (clock : ArrivalClockSummary) : bool :=
  bool_decide (ac_boundary clock = bytes_of_string "hft-parser.application-frame-ready") &&
  bool_decide (ac_realtimeClock clock = bytes_of_string "CLOCK_REALTIME") &&
  bool_decide (ac_monotonicClock clock = bytes_of_string "CLOCK_MONOTONIC").

Definition parseManifestJson (document : list Z) : Status * option SessionManifest :=
  match ('(seen, parsed, s) ← objectMembers manifestTable newManifest document;
         s ← parseObjectEnd s;
         if negb (finish s) then None
         else if negb (seen =? 63) || negb (nonEmpty (sm_sessionStatus parsed)) ||
                 negb (clockAccepted (sm_arrivalClock parsed)) then None
         else Some (validateStructurally (populateSupportArtifacts (populateCanonicalArtifacts parsed))))
  with
  | Some manifest => (Ok, Some manifest)
  | None => (CorruptData, None)
  end.

(** ** Rendering *)

Definition channelIntegrityText (c : ChannelIntegritySummary) : list Z := objectText 6 4 [
  ("state", quote (ChannelHealthState.toString (ci_state c)));
  ("exact_replay_eligible", boolToString (ci_exactReplayEligible c));
  ("incident_count", appendInt (ci_incidentCount c));
  ("gap_count", appendInt (ci_gapCount c));
  ("parse_error_count", appendInt (ci_parseErrorCount c));
  ("highest_severity", quote (IntegritySeverity.toString (ci_highestSeverity c)));
  ("reason_code", quote (ci_reasonCode c));
  ("reason_text", quote (ci_reasonText c))].

Definition channelRuntimeHealthText (h : ChannelRuntimeHealth) : list Z := objectText 6 4 [
  ("state", quote (rh_state h));
  ("required", boolToString (rh_required h));
  ("first_row_ns", appendInt (rh_firstRowNs h));
  ("last_row_ns", appendInt (rh_lastRowNs h));
  ("reconnect_count", appendInt (rh_reconnectCount h));
  ("dropped_event_count", appendInt (rh_droppedEventCount h));
  ("unroutable_event_count", appendInt (rh_unroutableEventCount h));
  ("last_error", quote (rh_lastError h))].

Definition arrivalClockText (c : ArrivalClockSummary) : list Z := objectText 4 2 [
  ("boundary", quote (ac_boundary c));
  ("realtime_clock", quote (ac_realtimeClock c));
  ("monotonic_clock", quote (ac_monotonicClock c));
  ("captured_rows", appendInt (ac_capturedRows c));
  ("historical_rows", appendInt (ac_historicalRows c));
  ("unavailable_rows", appendInt (ac_unavailableRows c));
  ("realtime_regressions", appendInt (ac_realtimeRegressions c));
  ("monotonic_non_increasing", appendInt (ac_monotonicNonIncreasing c));
  ("exchange_ahead_of_receive", appendInt (ac_exchangeAheadOfReceive c));
  ("exchange_timestamp_missing", appendInt (ac_exchangeTimestampMissing c));
  ("first_receive_realtime_ns", appendInt (ac_firstReceiveRealtimeNs c));
  ("last_receive_realtime_ns", appendInt (ac_lastReceiveRealtimeNs c));
  ("first_receive_monotonic_ns", appendInt (ac_firstReceiveMonotonicNs c));
  ("last_receive_monotonic_ns", appendInt (ac_lastReceiveMonotonicNs c))].

(** The object of a channel other than trades and depth. *)
Definition channelText (enabled requiredWhenEnabled : bool) (path : list Z) (count : Z) : list Z :=
  objectText 6 4 [
    ("enabled", boolToString enabled);
    ("required_when_enabled", boolToString requiredWhenEnabled);
    ("path", quote path);
    ("declared_event_count", appendInt count)].

Definition renderManifestJson (m : SessionManifest) : list Z := objectText 2 0 [
  ("session_status", quote (sm_sessionStatus m));
  ("identity", objectText 4 2 [
    ("session_id", quote (sm_sessionId m));
    ("exchange", quote (sm_exchange m));
    ("market", quote (sm_market m));
    ("symbols", appendStringArray (sm_symbols m));
    ("storage_symbol", quote (sm_storageSymbol m))]);
  ("capture", objectText 4 2 [
    ("selected_parent_dir", quote (sm_selectedParentDir m));
    ("started_at_ns", appendInt (sm_startedAtNs m));
    ("ended_at_ns", appendInt (sm_endedAtNs m));
    ("target_duration_sec", appendInt (sm_targetDurationSec m));
    ("actual_duration_sec", appendInt (sm_actualDurationSec m));
    ("snapshot_interval_sec", appendInt (sm_snapshotIntervalSec m))]);
  ("arrival_clock", arrivalClockText (sm_arrivalClock m));
  ("replay", objectText 4 2 [
    ("structurally_loadable", boolToString (sm_structurallyLoadable m));
    ("structural_blockers", appendStringArray (sm_structuralBlockers m))]);
  ("channels", objectText 4 2 [
    ("trades", objectText 6 4 [
      ("enabled", boolToString (sm_tradesEnabled m));
      ("required_when_enabled", boolToString (sm_tradesRequiredWhenEnabled m));
      ("path", quote (sm_tradesPath m));
      ("declared_event_count", appendInt (sm_tradesCount m));
      ("history_warmup_sec", appendInt (sm_tradesHistoryWarmupSec m));
      ("history_requested_start_ns", appendInt (sm_tradesHistoryRequestedStartNs m));
      ("history_requested_end_ns", appendInt (sm_tradesHistoryRequestedEndNs m));
      ("history_rows", appendInt (sm_tradesHistoryRows m));
      ("history_requests", appendInt (sm_tradesHistoryRequests m));
      ("history_feed_kind", quote (sm_tradesHistoryFeedKind m));
      ("history_status", quote (sm_tradesHistoryStatus m))]);
    ("liquidations", channelText (sm_liquidationsEnabled m) (sm_liquidationsRequiredWhenEnabled m)
      (sm_liquidationsPath m) (sm_liquidationsCount m));
    ("bookticker", channelText (sm_bookTickerEnabled m) (sm_bookTickerRequiredWhenEnabled m)
      (sm_bookTickerPath m) (sm_bookTickerCount m));
    ("depth", objectText 6 4 [
      ("enabled", boolToString (sm_orderbookEnabled m));
      ("required_when_enabled", boolToString (sm_orderbookRequiredWhenEnabled m));
      ("path", quote (sm_depthPath m));
      ("sidecar_path", quote (sm_depthSidecarPath m));
      ("declared_event_count", appendInt (sm_depthCount m))]);
    ("candles", channelText (sm_candlesEnabled m) (sm_candlesRequiredWhenEnabled m)
      (sm_candlesPath m) (sm_candlesCount m));
    ("candles2", channelText (sm_candles2Enabled m) (sm_candles2RequiredWhenEnabled m)
      (sm_candles2Path m) (sm_candles2Count m));
    ("mark_price", channelText (sm_markPriceEnabled m) (sm_markPriceRequiredWhenEnabled m)
      (sm_markPricePath m) (sm_markPriceCount m));
    ("index_price", channelText (sm_indexPriceEnabled m) (sm_indexPriceRequiredWhenEnabled m)
      (sm_indexPricePath m) (sm_indexPriceCount m));
    ("funding", channelText (sm_fundingEnabled m) (sm_fundingRequiredWhenEnabled m)
      (sm_fundingPath m) (sm_fundingCount m));
    ("price_limit", channelText (sm_priceLimitEnabled m) (sm_priceLimitRequiredWhenEnabled m)
      (sm_priceLimitPath m) (sm_priceLimitCount m))]);
  ("runtime_health", objectText 4 2 [
    ("trades", channelRuntimeHealthText (sm_tradesRuntime m));
    ("liquidations", channelRuntimeHealthText (sm_liquidationsRuntime m));
    ("bookticker", channelRuntimeHealthText (sm_bookTickerRuntime m));
    ("depth", channelRuntimeHealthText (sm_depthRuntime m));
    ("mark_price", channelRuntimeHealthText (sm_markPriceRuntime m));
    ("index_price", channelRuntimeHealthText (sm_indexPriceRuntime m));
    ("funding", channelRuntimeHealthText (sm_fundingRuntime m));
    ("price_limit", channelRuntimeHealthText (sm_priceLimitRuntime m))]);
  ("artifacts", objectText 4 2 [
    ("instrument_metadata_path", quote (sm_instrumentMetadataPath m));
    ("session_audit_path", quote (sm_sessionAuditPath m));
    ("loader_diagnostic_path", quote (sm_loaderDiagnosticPath m));
    ("market_data_launch_path", quote (sm_marketDataLaunchPath m));
    ("canonical", appendStringArray (sm_canonicalArtifacts m));
    ("support", appendStringArray (sm_supportArtifacts m))]);
  ("integrity", objectText 4 2 [
    ("session_health", quote (SessionHealth.toString (sm_sessionHealth m)));
    ("exact_replay_eligible", boolToString (sm_exactReplayEligible m));
    ("report_path", quote (sm_integrityReportPath m));
    ("summary", objectText 6 4 [
      ("total_incidents", appendInt (sm_totalIntegrityIncidents m));
      ("highest_severity", quote (IntegritySeverity.toString (sm_highestIntegritySeverity m)))]);
    ("channels", objectText 4 4 [
      ("trades", channelIntegrityText (sm_tradesIntegrity m));
      ("liquidations", channelIntegrityText (sm_liquidationsIntegrity m));
      ("bookticker", channelIntegrityText (sm_bookTickerIntegrity m));
      ("depth", channelIntegrityText (sm_depthIntegrity m));
      ("snapshot", channelIntegrityText (sm_snapshotIntegrity m))])]);
  ("summary", objectText 4 2 [("warning_summary", quote (sm_warningSummary m))])] ++ [Ch.newline].

(** ** What is rendered is parsed back *)

Abbreviation textOk := bytes.
Definition countOk (value : Z) : Prop := 0 <= value <= i64_max.

Record runtimeOk (h : ChannelRuntimeHealth) : Prop := {
  ro_texts : Forall textOk [rh_state h; rh_lastError h];
  ro_times : Forall in_i64 [rh_firstRowNs h; rh_lastRowNs h];
  ro_counts : Forall countOk [rh_reconnectCount h; rh_droppedEventCount h; rh_unroutableEventCount h];
}.
Record integrityOk (c : ChannelIntegritySummary) : Prop := {
  io_texts : Forall textOk [ci_reasonCode c; ci_reasonText c];
  io_counts : Forall countOk [ci_incidentCount c; ci_gapCount c; ci_parseErrorCount c];
}.
Record clockOk (c : ArrivalClockSummary) : Prop := {
  co_texts : Forall textOk [ac_boundary c; ac_realtimeClock c; ac_monotonicClock c];
  co_times : Forall in_i64 [ac_firstReceiveRealtimeNs c; ac_lastReceiveRealtimeNs c];
  co_counts : Forall countOk [ac_capturedRows c; ac_historicalRows c; ac_unavailableRows c;
    ac_realtimeRegressions c; ac_monotonicNonIncreasing c; ac_exchangeAheadOfReceive c;
    ac_exchangeTimestampMissing c; ac_firstReceiveMonotonicNs c; ac_lastReceiveMonotonicNs c];
}.
(** Strings are bytes and numbers are what [parseInt64] can hold. *)
Record manifestOk (m : SessionManifest) : Prop := {
  mo_texts : Forall textOk [sm_sessionStatus m; sm_sessionId m; sm_exchange m; sm_market m;
    sm_storageSymbol m; sm_selectedParentDir m; sm_tradesPath m; sm_tradesHistoryFeedKind m;
    sm_tradesHistoryStatus m; sm_liquidationsPath m; sm_bookTickerPath m; sm_depthPath m;
    sm_depthSidecarPath m; sm_candlesPath m; sm_candles2Path m; sm_markPricePath m;
    sm_indexPricePath m; sm_fundingPath m; sm_priceLimitPath m; sm_instrumentMetadataPath m;
    sm_sessionAuditPath m; sm_loaderDiagnosticPath m; sm_marketDataLaunchPath m;
    sm_integrityReportPath m; sm_warningSummary m];
  mo_lists : Forall (Forall textOk) [sm_symbols m; sm_structuralBlockers m; sm_canonicalArtifacts m;
    sm_supportArtifacts m];
  mo_ints : Forall in_i64 [sm_startedAtNs m; sm_endedAtNs m; sm_targetDurationSec m;
    sm_actualDurationSec m; sm_snapshotIntervalSec m; sm_tradesHistoryWarmupSec m;
    sm_tradesHistoryRequestedStartNs m; sm_tradesHistoryRequestedEndNs m];
  mo_counts : Forall countOk [sm_tradesCount m; sm_tradesHistoryRows m; sm_tradesHistoryRequests m;
    sm_liquidationsCount m; sm_bookTickerCount m; sm_depthCount m; sm_candlesCount m;
    sm_candles2Count m; sm_markPriceCount m; sm_indexPriceCount m; sm_fundingCount m;
    sm_priceLimitCount m; sm_totalIntegrityIncidents m];
  mo_runtime : Forall runtimeOk [sm_tradesRuntime m; sm_liquidationsRuntime m; sm_bookTickerRuntime m;
    sm_depthRuntime m; sm_markPriceRuntime m; sm_indexPriceRuntime m; sm_fundingRuntime m;
    sm_priceLimitRuntime m];
  mo_integrity : Forall integrityOk [sm_tradesIntegrity m; sm_liquidationsIntegrity m;
    sm_bookTickerIntegrity m; sm_depthIntegrity m; sm_snapshotIntegrity m];
  mo_clock : clockOk (sm_arrivalClock m);
}.

Lemma parseNamed_read {V} (decode : list Z -> option V) name value :
  Forall in_u8 name -> decode name = Some value -> readsValue (parseNamed decode) (quote name) value.
Proof.
  intros Hn Hd rest Hr. unfold parseNamed. rewrite readsValue_string by done.
  cbn [mbind option_bind]. by rewrite Hd.
Qed.

Lemma channelState_read state :
  readsValue (parseNamed parseChannelHealthStateString) (quote (ChannelHealthState.toString state)) state.
Proof. apply parseNamed_read; [apply bytes_of_string_bytes|by destruct state]. Qed.
Lemma sessionHealth_read state :
  readsValue (parseNamed parseSessionHealthString) (quote (SessionHealth.toString state)) state.
Proof. apply parseNamed_read; [apply bytes_of_string_bytes|by destruct state]. Qed.
Lemma severity_read severity :
  readsValue (parseNamed parseSeverityString) (quote (IntegritySeverity.toString severity)) severity.
Proof. apply parseNamed_read; [apply bytes_of_string_bytes|by destruct severity]. Qed.

#[local] Hint Resolve channelState_read sessionHealth_read severity_read : value.

Lemma runtime_members h : runtimeOk h -> exists effects,
  Forall2 (reads runtimeTable) [
    ("state", quote (rh_state h)); ("required", boolToString (rh_required h));
    ("first_row_ns", appendInt (rh_firstRowNs h)); ("last_row_ns", appendInt (rh_lastRowNs h));
    ("reconnect_count", appendInt (rh_reconnectCount h));
    ("dropped_event_count", appendInt (rh_droppedEventCount h));
    ("unroutable_event_count", appendInt (rh_unroutableEventCount h));
    ("last_error", quote (rh_lastError h))] effects /\
  forall object, allEffects effects object = h.
Proof.
  intros []. use_fields. eexists. split; [read_members|]. intros object. by destruct h.
Qed.

Lemma runtime_reads {T} (get : T -> _) set table key bit h : runtimeOk h -> plainKey key = true ->
  findField table (bytes_of_string key) =
    Some (MkField key bit (readPart get set parseChannelRuntimeHealthObject)) ->
  reads table (key, channelRuntimeHealthText h) (bit, set h).
Proof.
  intros (effects & HF & Hv)%runtime_members Hk Hf. by eapply reads_whole.
Qed.

Lemma integrity_reads {T} (get : T -> _) set table key bit c : integrityOk c -> plainKey key = true ->
  findField table (bytes_of_string key) =
    Some (MkField key bit (readPart get set parseChannelIntegrityObject)) ->
  reads table (key, channelIntegrityText c) (bit, set c).
Proof.
  intros [] Hk Hf. use_fields. eapply reads_whole; [done|exact Hf|read_members|done|done|].
  intros object. by destruct c.
Qed.

Lemma clock_reads {T} (get : T -> _) set table key bit c : clockOk c -> plainKey key = true ->
  findField table (bytes_of_string key) =
    Some (MkField key bit (readPart get set parseArrivalClockObject)) ->
  reads table (key, arrivalClockText c) (bit, set c).
Proof.
  intros [] Hk Hf. use_fields. eapply reads_whole; [done|exact Hf|read_members|done|done|].
  intros object. by destruct c.
Qed.

Lemma channel_reads {T} table key bit (enabled required : bool -> T -> T) (path : list Z -> T -> T)
  (count : Z -> T -> T) e r p n :
  textOk p -> countOk n -> plainKey key = true ->
  findField table (bytes_of_string key) =
    Some (MkField key bit (parseChannelObject enabled required path count None)) ->
  reads table (key, channelText e r p n)
    (bit, fun object => count n (path p (required r (enabled e object)))).
Proof.
  intros Hp Hn Hk Hf. eapply reads_ext; [|eapply reads_object; [done|exact Hf|read_members|done|done]].
  done.
Qed.

(** Members of the manifest: parts, channels, objects and single values. *)
Ltac read_member :=
  lazymatch goal with
  | |- reads _ (_, channelRuntimeHealthText _) _ =>
      eapply runtime_reads; [assumption|reflexivity|reflexivity]
  | |- reads _ (_, channelIntegrityText _) _ =>
      eapply integrity_reads; [assumption|reflexivity|reflexivity]
  | |- reads _ (_, arrivalClockText _) _ => eapply clock_reads; [assumption|reflexivity|reflexivity]
  | |- reads _ (_, channelText _ _ _ _) _ =>
      eapply channel_reads; [assumption|assumption|reflexivity|reflexivity]
  | |- reads _ (_, objectText _ _ _) _ =>
      eapply reads_object; [reflexivity|reflexivity|read_object|done|reflexivity]
  | |- _ => eapply reads_value; [reflexivity|reflexivity|solve [eauto with value]]
  end
with read_object :=
  lazymatch goal with
  | |- Forall2 _ [] _ => apply Forall2_nil_2
  | |- Forall2 _ (_ :: _) _ => apply Forall2_cons_2; [read_member|read_object]
  end.

Lemma render_members m : manifestOk m ->
  objectMembers manifestTable newManifest (renderManifestJson m) =
  Some (63, m, [Ch.closeBrace; Ch.newline]).
Proof.
  intros []. use_fields.
  transitivity (objectMembers manifestTable newManifest (Ch.space :: renderManifestJson m)); [done|].
  unfold renderManifestJson. erewrite objectMembers_written; [|read_object|done].
  do 3 f_equal. by destruct m.
Qed.

(** What the parser derives, and what it asks of the status and the clock. *)
Definition derived (m : SessionManifest) : SessionManifest :=
  validateStructurally (populateSupportArtifacts (populateCanonicalArtifacts m)).
Definition accepted (m : SessionManifest) : bool :=
  nonEmpty (sm_sessionStatus m) && clockAccepted (sm_arrivalClock m).

Lemma render_parsed m : manifestOk m -> accepted m = true ->
  parseManifestJson (renderManifestJson m) = (Ok, Some (derived m)).
Proof.
  intros Hm Ha. unfold parseManifestJson. rewrite render_members by done. cbn [mbind option_bind].
  unfold accepted in Ha. apply andb_true_iff in Ha as [-> ->]. reflexivity.
Qed.

Lemma derived_idem m : derived (derived m) = derived m.
Proof. by destruct m. Qed.

(** ** What is parsed is well formed *)

Lemma named_yields {V} (decode : list Z -> option V) : yields (parseNamed decode) (fun _ => True).
Proof.
  intros s v t Hs. unfold parseNamed. destruct (parseString s) as [[x u]|] eqn:E; [|done].
  cbn [mbind option_bind]. destruct (decode x); [|done]. cbn [mbind option_bind]. intros [= _ <-].
  split; [done|]. by eapply parseString_bytes.
Qed.
#[local] Hint Resolve named_yields : yields.

Lemma channel_keeps {T} (inv : T -> Prop) (enabled required : bool -> T -> T) (path : list Z -> T -> T)
  (count : Z -> T -> T) sidecar :
  (forall v o, True -> inv o -> inv (enabled v o)) -> (forall v o, True -> inv o -> inv (required v o)) ->
  (forall v o, textOk v -> inv o -> inv (path v o)) -> (forall v o, countOk v -> inv o -> inv (count v o)) ->
  (forall set, sidecar = Some set -> forall v o, textOk v -> inv o -> inv (set v o)) ->
  keeps inv (parseChannelObject enabled required path count sidecar).
Proof.
  intros He Hr Hp Hc Hs. apply parseObject_keeps. unfold channelTable.
  repeat apply Forall_cons_2; [..|apply Forall_nil_2]; cbn [f_read].
  - eapply readWith_keeps; [eauto with yields|exact He].
  - eapply readWith_keeps; [eauto with yields|exact Hr].
  - eapply readWith_keeps; [eauto with yields|exact Hp].
  - destruct sidecar as [set|]; [|apply skipMember_keeps].
    eapply readWith_keeps; [eauto with yields|]. by apply Hs.
  - eapply readWith_keeps; [eauto with yields|exact Hc].
Qed.

Create HintDb keeps.
Ltac keep_member :=
  cbn [f_read];
  lazymatch goal with
  | |- keeps _ (readWith _ _) => eapply readWith_keeps; [solve [eauto with yields]|keep_fields]
  | |- keeps _ (readPart _ _ _) =>
      eapply readPart_keeps;
      [solve [auto with keeps]
      |let o := fresh "o" in intros o []; use_fields; assumption
      |keep_fields]
  | |- keeps _ (parseChannelObject _ _ _ _ _) =>
      apply channel_keeps; [keep_fields|keep_fields|keep_fields|keep_fields|];
      let set := fresh "set" in intros set [=]; subst set; keep_fields
  | |- _ => solve [auto with keeps]
  end.
Ltac keep_table :=
  lazymatch goal with
  | |- Forall _ [] => apply Forall_nil_2
  | |- Forall _ (_ :: _) => apply Forall_cons_2; [keep_member|keep_table]
  end.
#[local] Hint Resolve skipMember_keeps : keeps.

Lemma runtime_keeps : keeps runtimeOk parseChannelRuntimeHealthObject.
Proof. apply parseObject_keeps. unfold runtimeTable. keep_table. Qed.
Lemma clock_keeps : keeps clockOk parseArrivalClockObject.
Proof. apply parseObject_keeps. unfold arrivalClockTable. keep_table. Qed.
Lemma integrity_keeps : keeps integrityOk parseChannelIntegrityObject.
Proof. apply parseObject_keeps. unfold channelIntegrityTable. keep_table. Qed.
#[local] Hint Resolve runtime_keeps clock_keeps integrity_keeps : keeps.

Lemma identity_keeps : keeps manifestOk parseIdentityObject.
Proof. apply parseObject_keeps. unfold identityTable. keep_table. Qed.
Lemma capture_keeps : keeps manifestOk parseCaptureObject.
Proof. apply parseObject_keeps. unfold captureTable. keep_table. Qed.
Lemma replay_keeps : keeps manifestOk parseReplayObject.
Proof. apply parseObject_keeps. unfold replayTable. keep_table. Qed.
Lemma trades_keeps : keeps manifestOk parseTradesChannelObject.
Proof. apply parseObject_keeps. unfold tradesChannelTable. keep_table. Qed.
Lemma artifacts_keeps : keeps manifestOk parseArtifactsObject.
Proof. apply parseObject_keeps. unfold artifactsTable. keep_table. Qed.
Lemma summary_keeps : keeps manifestOk parseSummaryObject.
Proof. apply parseObject_keeps. unfold summaryTable. keep_table. Qed.
Lemma integritySummary_keeps : keeps manifestOk parseIntegritySummaryObject.
Proof. apply parseObject_keeps. unfold integritySummaryTable. keep_table. Qed.
#[local] Hint Resolve identity_keeps capture_keeps replay_keeps trades_keeps artifacts_keeps
  summary_keeps integritySummary_keeps : keeps.
Lemma channels_keeps : keeps manifestOk parseChannelsObject.
Proof. apply parseObject_keeps. unfold channelsTable. keep_table. Qed.
Lemma runtimeHealth_keeps : keeps manifestOk parseRuntimeHealthObject.
Proof. apply parseObject_keeps. unfold runtimeHealthTable. keep_table. Qed.
Lemma integrityGroup_keeps : keeps manifestOk parseChannelIntegrityGroupObject.
Proof. apply parseObject_keeps. unfold channelIntegrityGroupTable. keep_table. Qed.
#[local] Hint Resolve channels_keeps runtimeHealth_keeps integrityGroup_keeps : keeps.
Lemma integrityObject_keeps : keeps manifestOk (parseObject integrityTable (fun _ => true)).
Proof. apply parseObject_keeps. unfold integrityTable. keep_table. Qed.
#[local] Hint Resolve integrityObject_keeps : keeps.
Lemma manifestTable_keeps : Forall (fun f => keeps manifestOk (f_read f)) manifestTable.
Proof. unfold manifestTable. keep_table. Qed.

(** Records given by their values: each field is a text of literals or a small number. *)
Ltac check_fields :=
  constructor; repeat first [apply Forall_nil_2 | apply Forall_cons_2]; cbn;
  first [apply bytes_of_string_bytes | apply Forall_nil_2 | (unfold countOk; mlia) | idtac].

Lemma newRuntime_ok : runtimeOk newRuntimeHealth.
Proof. check_fields. Qed.
Lemma newIntegrity_ok : integrityOk newChannelIntegrity.
Proof. check_fields. Qed.
Lemma newClock_ok : clockOk newArrivalClock.
Proof. check_fields. Qed.
Lemma newManifest_ok : manifestOk newManifest.
Proof. check_fields; apply newRuntime_ok || apply newIntegrity_ok || apply newClock_ok. Qed.

Lemma pushIf_ok cond value : textOk value -> Forall textOk (pushIf cond value).
Proof. intros Hv. destruct cond; [by apply Forall_cons_2|apply Forall_nil_2]. Qed.

Lemma canonical_ok m : manifestOk m -> Forall textOk (canonicalArtifactsOf m).
Proof.
  intros []. use_fields. unfold canonicalArtifactsOf. cbv zeta. rewrite !Forall_app.
  split_and!; try by apply pushIf_ok.
  - apply Forall_cons_2; [apply bytes_of_string_bytes|apply Forall_nil_2].
  - destruct (_ && _); [|apply Forall_nil_2]. apply Forall_cons_2; [done|]. by apply pushIf_ok.
Qed.
Lemma support_ok m : manifestOk m -> Forall textOk (supportArtifactsOf m).
Proof.
  intros []. use_fields. unfold supportArtifactsOf. rewrite !Forall_app. split_and!; by apply pushIf_ok.
Qed.
Lemma blockers_ok m : Forall textOk (structuralBlockersOf m).
Proof.
  unfold structuralBlockersOf. cbv zeta. rewrite !Forall_app.
  split_and!; apply pushIf_ok, bytes_of_string_bytes.
Qed.

Lemma derived_ok m : manifestOk m -> manifestOk (derived m).
Proof.
  intros Hm. constructor; try (by destruct Hm).
  pose proof (canonical_ok m Hm) as Hc. pose proof (support_ok m Hm) as Hs.
  pose proof (blockers_ok m) as Hb. destruct Hm as [_ Hl _ _ _ _]. apply Forall_cons in Hl as [Hsym _].
  apply Forall_cons_2; [exact Hsym|]. apply Forall_cons_2; [exact Hb|].
  apply Forall_cons_2; [exact Hc|]. apply Forall_cons_2; [exact Hs|apply Forall_nil_2].
Qed.

Lemma parsed_manifest document m : bytes document -> parseManifestJson document = (Ok, Some m) ->
  manifestOk m /\ accepted m = true /\ derived m = m.
Proof.
  intros Hb. unfold parseManifestJson.
  destruct (objectMembers manifestTable newManifest document) as [[[seen o] s]|] eqn:E; [|done].
  cbn [mbind option_bind]. destruct (parseObjectEnd s); [|done]. cbn [mbind option_bind].
  destruct (negb (finish _)); [done|].
  destruct (negb (seen =? 63) || _ || _) eqn:E2; [done|].
  destruct (objectMembers_keeps manifestOk _ _ _ _ _ _ manifestTable_keeps Hb newManifest_ok E) as [Ho _].
  intros Em. injection Em as <-. change (validateStructurally _) with (derived o).
  split_and!; [by apply derived_ok| |apply derived_idem].
  apply orb_false_iff in E2 as [[_ Es%negb_false_iff]%orb_false_iff Ec%negb_false_iff].
  transitivity (accepted o); [done|]. unfold accepted. by rewrite Es, Ec.
Qed.

(** C33: A manifest with byte strings, numbers of the signed 64-bit
    range and the status and clock names the format asks for is parsed back from its
    rendered text, with the artifact lists and the structural verdict derived anew. *)
Theorem manifest_text_roundtrip m : manifestOk m -> accepted m = true ->
  parseManifestJson (renderManifestJson m) = (Ok, Some (derived m)).
Proof. exact (render_parsed m). Qed.

(** Whatever document the parser accepts, the manifest it
    returns holds byte strings and numbers in range, and rendering and parsing it again
    returns the same manifest. *)
Theorem manifest_parsed_stable document m :
  bytes document -> parseManifestJson document = (Ok, Some m) ->
  manifestOk m /\ parseManifestJson (renderManifestJson m) = (Ok, Some m).
Proof.
  intros Hb (Hm & Ha & Hd)%parsed_manifest; [|done]. split; [done|]. rewrite render_parsed by done.
  by rewrite Hd.
Qed.

(** ** A sample *)

Definition sampleManifest : SessionManifest :=
  newManifest <| sm_sessionId := bytes_of_string "1700_binance" |> <| sm_exchange := bytes_of_string "binance" |>
    <| sm_market := bytes_of_string "spot" |> <| sm_symbols := [bytes_of_string "btcusdt"] |>
    <| sm_tradesEnabled := true |> <| sm_tradesCount := 3 |> <| sm_startedAtNs := 1700 |>.

Lemma sampleManifest_ok : manifestOk sampleManifest.
Proof.
  check_fields; first [apply newRuntime_ok | apply newIntegrity_ok | apply newClock_ok | idtac].
Qed.

Lemma manifest_text_roundtrip_witness :
  accepted sampleManifest = true /\
  parseManifestJson (renderManifestJson sampleManifest) = (Ok, Some (derived sampleManifest)) /\
  sm_structurallyLoadable (derived sampleManifest) = true.
Proof.
  split; [reflexivity|]. split; [|reflexivity].
  apply (manifest_text_roundtrip sampleManifest); [exact sampleManifest_ok|reflexivity].
Defined.

Lemma manifest_parsed_stable_witness :
  manifestOk (derived sampleManifest) /\
  parseManifestJson (renderManifestJson (derived sampleManifest)) = (Ok, Some (derived sampleManifest)).
Proof.
  apply (manifest_parsed_stable (renderManifestJson sampleManifest) (derived sampleManifest)).
  - apply bytes_checked. vm_compute. reflexivity.
  - vm_compute. reflexivity.
Defined.
