(* ===== verification/Instrument.v ===== *)
(** * Instrument: instrument_metadata.json

    Models Runtime/src/Corpus/InstrumentMetadata.{hpp,cpp}: what the recorder infers from an
    exchange, a market and a symbol, and the sidecar document with its parser. *)
From stdpp Require Import base list numbers strings.
From S2P Require Import Prelude Codec Json JsonObject.
Local Open Scope Z_scope.

Record InstrumentMetadata := MkInstrumentMetadata {
  im_exchange : list Z;
  im_exchangeSource : list Z;
  im_market : list Z;
  im_marketSource : list Z;
  im_symbol : list Z;
  im_symbolSource : list Z;
  im_instrumentType : list Z;
  im_instrumentTypeSource : list Z;
  im_baseAsset : option (list Z);
  im_baseAssetSource : list Z;
  im_quoteAsset : option (list Z);
  im_quoteAssetSource : list Z;
  im_settlementAsset : option (list Z);
  im_settlementAssetSource : list Z;
  im_priceScaleDigits : option Z;
  im_priceScaleDigitsSource : list Z;
  im_qtyScaleDigits : option Z;
  im_qtyScaleDigitsSource : list Z;
  im_canonicalBaseMultiplier : option Z;
  im_nativeBaseMultiplier : option Z;
  im_pricePowerOfTenAdjustment : option Z;
  im_spotQuantityPowerOfTenAdjustment : option Z;
  im_denominationGeneration : option Z;
  im_denominationCatalogDigest : option (list Z);
  im_denominationSource : list Z;
  im_tickSizeE8 : option Z;
  im_tickSizeSource : list Z;
  im_lotSizeE8 : option Z;
  im_lotSizeSource : list Z;
  im_contractBaseQtyE8 : option Z;
  im_contractBaseQtySource : list Z;
  im_priceBasisQtyE8 : option Z;
  im_priceBasisQtySource : list Z;
  im_expiryUtcNs : option Z;
  im_expiryUtcNsSource : list Z;
  im_instrumentStatus : option (list Z);
  im_instrumentStatusSource : list Z;
  im_metadataSource : list Z;
  im_metadataWarning : option (list Z);
}.
#[export] Instance InstrumentMetadata_eta : Eta InstrumentMetadata := fun r =>
  MkInstrumentMetadata (im_exchange r) (im_exchangeSource r) (im_market r) (im_marketSource r)
    (im_symbol r) (im_symbolSource r) (im_instrumentType r) (im_instrumentTypeSource r)
    (im_baseAsset r) (im_baseAssetSource r) (im_quoteAsset r) (im_quoteAssetSource r)
    (im_settlementAsset r) (im_settlementAssetSource r) (im_priceScaleDigits r)
    (im_priceScaleDigitsSource r) (im_qtyScaleDigits r) (im_qtyScaleDigitsSource r)
    (im_canonicalBaseMultiplier r) (im_nativeBaseMultiplier r) (im_pricePowerOfTenAdjustment r)
    (im_spotQuantityPowerOfTenAdjustment r) (im_denominationGeneration r)
    (im_denominationCatalogDigest r) (im_denominationSource r) (im_tickSizeE8 r)
    (im_tickSizeSource r) (im_lotSizeE8 r) (im_lotSizeSource r) (im_contractBaseQtyE8 r)
    (im_contractBaseQtySource r) (im_priceBasisQtyE8 r) (im_priceBasisQtySource r)
    (im_expiryUtcNs r) (im_expiryUtcNsSource r) (im_instrumentStatus r)
    (im_instrumentStatusSource r) (im_metadataSource r) (im_metadataWarning r).
Definition newInstrument : InstrumentMetadata :=
  MkInstrumentMetadata [] (bytes_of_string "unknown") [] (bytes_of_string "unknown") []
    (bytes_of_string "unknown") [] (bytes_of_string "unknown") None (bytes_of_string "unknown")
    None (bytes_of_string "unknown") None (bytes_of_string "unknown") None
    (bytes_of_string "unknown") None (bytes_of_string "unknown") None None None None None None
    (bytes_of_string "unknown") None (bytes_of_string "unknown") None
    (bytes_of_string "unknown") None (bytes_of_string "unknown") None
    (bytes_of_string "unknown") None (bytes_of_string "unknown") None
    (bytes_of_string "unknown") (bytes_of_string "recorder_inference") None.

(** ** Inference *)

(** [find] and [rfind] of a character. *)
Fixpoint findChar (c : Z) (s : list Z) : option nat :=
  match s with
  | [] => None
  | x :: rest => if x =? c then Some 0%nat else S <$> findChar c rest
  end.
Fixpoint rfindChar (c : Z) (s : list Z) : option nat :=
  match s with
  | [] => None
  | x :: rest =>
      match rfindChar c rest with
      | Some i => Some (S i)
      | None => if x =? c then Some 0%nat else None
      end
  end.
Definition substr (pos count : nat) (s : list Z) : list Z := take count (drop pos s).
Definition underscore : Z := 95.

(** The text after the last separator, when there is one and the text is not empty. *)
Definition afterLast (separator : Z) (symbol : list Z) : option (list Z) :=
  localSep ← rfindChar separator symbol;
  if (localSep + 1 <? length symbol)%nat then Some (drop (localSep + 1) symbol) else None.

Definition kQuotes : list (list Z) := bytes_of_string <$> ["USDT"; "USDC"; "BUSD"; "USD"]%string.
Definition endsWithQuote (symbol quote : list Z) : bool :=
  (length quote <? length symbol)%nat &&
  bool_decide (drop (length symbol - length quote) symbol = quote).

Definition inferQuoteAsset (symbol : list Z) : option (list Z) :=
  match afterLast underscore symbol with
  | Some asset => Some asset
  | None =>
      match afterLast Ch.colon symbol with
      | Some asset => Some asset
      | None => List.find (endsWithQuote symbol) kQuotes
      end
  end.

(** The text between the first separator (or the start, when there is only one) and the last. *)
Definition beforeLast (separator : Z) (symbol : list Z) : option (list Z) :=
  lastSep ← rfindChar separator symbol;
  firstSep ← findChar separator symbol;
  let baseBegin := if (firstSep =? lastSep)%nat then 0%nat else (firstSep + 1)%nat in
  if (baseBegin <? lastSep)%nat then Some (substr baseBegin (lastSep - baseBegin) symbol) else None.

Definition inferBaseAsset (symbol quoteAsset : list Z) : option (list Z) :=
  match beforeLast underscore symbol with
  | Some asset => Some asset
  | None =>
      match beforeLast Ch.colon symbol with
      | Some asset => Some asset
      | None =>
          if (length symbol <=? length quoteAsset)%nat then None
          else Some (take (length symbol - length quoteAsset) symbol)
      end
  end.

(** The loop over the digits before the first separator; [None] is its early return. *)
Fixpoint multiplierLoop (value : Z) (digits : list Z) : option Z :=
  match digits with
  | [] => Some value
  | ch :: rest =>
      if negb (isDigit ch) || ((i64_max - (ch - 48)) / 10 <? value) then None
      else multiplierLoop (value * 10 + (ch - 48)) rest
  end.
Definition inferCanonicalBaseMultiplier (symbol : list Z) : Z :=
  match findChar underscore symbol with
  | None => 1
  | Some first =>
      match findChar underscore (drop (first + 1) symbol) with
      | None => 1
      | Some _ =>
          match multiplierLoop 0 (take first symbol) with
          | Some value => if 1 <? value then value else 1
          | None => 1
          end
      end
  end.

Definition isMarket (market : list Z) (name : string) : bool :=
  bool_decide (market = bytes_of_string name).
Definition inferInstrumentType (market : list Z) : list Z :=
  bytes_of_string
    (if isMarket market "futures" || isMarket market "futures_usd" || isMarket market "swap"
     then "perpetual_linear_future"
     else if isMarket market "inverse" then "perpetual_inverse_future"
     else if isMarket market "spot" then "spot"
     else if isMarket market "margin" then "margin"
     else "unknown").

Definition makeInstrumentMetadata (exchange market symbol : list Z) : InstrumentMetadata :=
  let quote := inferQuoteAsset symbol in
  let base := asset ← quote; inferBaseAsset symbol asset in
  let source (asset : option (list Z)) :=
    bytes_of_string (if asset is Some _ then "symbol_inference" else "unknown") in
  let metadata := newInstrument
    <| im_exchange := exchange |> <| im_exchangeSource := bytes_of_string "capture_config" |>
    <| im_market := market |> <| im_marketSource := bytes_of_string "capture_config" |>
    <| im_symbol := symbol |> <| im_symbolSource := bytes_of_string "capture_config" |>
    <| im_instrumentType := inferInstrumentType market |>
    <| im_instrumentTypeSource := bytes_of_string "recorder_inference" |>
    <| im_priceScaleDigits := Some 8 |>
    <| im_priceScaleDigitsSource := bytes_of_string "recorder_default" |>
    <| im_qtyScaleDigits := Some 8 |>
    <| im_qtyScaleDigitsSource := bytes_of_string "recorder_default" |>
    <| im_canonicalBaseMultiplier := Some (inferCanonicalBaseMultiplier symbol) |>
    <| im_nativeBaseMultiplier := Some 1 |>
    <| im_pricePowerOfTenAdjustment := Some 0 |>
    <| im_spotQuantityPowerOfTenAdjustment := Some 0 |>
    <| im_denominationSource := bytes_of_string "identity_default" |>
    <| im_quoteAsset := quote |> <| im_quoteAssetSource := source quote |>
    <| im_baseAsset := base |> <| im_baseAssetSource := source base |> in
  if (isMarket market "futures" || isMarket market "futures_usd" || isMarket market "swap" ||
      isMarket market "inverse") && (if quote is Some _ then true else false)
  then metadata <| im_settlementAsset := quote |>
                <| im_settlementAssetSource := bytes_of_string "market_inference" |>
  else metadata.

(** ** The document *)

Definition parseOptional {V} (parse : list Z -> option (V * list Z)) (s : list Z)
  : option (option V * list Z) :=
  let '(isNull, s) := peek 110 s in
  if isNull then s ← skip s; Some (None, s)
  else '(value, s) ← parse s; Some (Some value, s).
Definition parseOptionalString (s : list Z) : option (option (list Z) * list Z) :=
  parseOptional parseString s.
Definition parseOptionalI64 (s : list Z) : option (option Z * list Z) := parseOptional parseInt64 s.

Definition instrumentTable : list (Field InstrumentMetadata) := [
  textField "exchange" 1 im_exchange;
  textField "exchange_source" 0 im_exchangeSource;
  textField "market" 2 im_market;
  textField "market_source" 0 im_marketSource;
  textField "symbol" 4 im_symbol;
  textField "symbol_source" 0 im_symbolSource;
  textField "instrument_type" 0 im_instrumentType;
  textField "instrument_type_source" 0 im_instrumentTypeSource;
  MkField "base_asset" 0 (readWith parseOptionalString (put im_baseAsset));
  textField "base_asset_source" 0 im_baseAssetSource;
  MkField "quote_asset" 0 (readWith parseOptionalString (put im_quoteAsset));
  textField "quote_asset_source" 0 im_quoteAssetSource;
  MkField "settlement_asset" 0 (readWith parseOptionalString (put im_settlementAsset));
  textField "settlement_asset_source" 0 im_settlementAssetSource;
  MkField "price_scale_digits" 0 (readWith parseOptionalI64 (put im_priceScaleDigits));
  textField "price_scale_digits_source" 0 im_priceScaleDigitsSource;
  MkField "qty_scale_digits" 0 (readWith parseOptionalI64 (put im_qtyScaleDigits));
  textField "qty_scale_digits_source" 0 im_qtyScaleDigitsSource;
  MkField "canonical_base_multiplier" 0 (readWith parseOptionalI64 (put im_canonicalBaseMultiplier));
  MkField "native_base_multiplier" 0 (readWith parseOptionalI64 (put im_nativeBaseMultiplier));
  MkField "price_power_of_ten_adjustment" 0
    (readWith parseOptionalI64 (put im_pricePowerOfTenAdjustment));
  MkField "spot_quantity_power_of_ten_adjustment" 0
    (readWith parseOptionalI64 (put im_spotQuantityPowerOfTenAdjustment));
  MkField "denomination_generation" 0 (readWith parseOptionalI64 (put im_denominationGeneration));
  MkField "denomination_catalog_digest" 0
    (readWith parseOptionalString (put im_denominationCatalogDigest));
  textField "denomination_source" 0 im_denominationSource;
  MkField "tick_size_e8" 0 (readWith parseOptionalI64 (put im_tickSizeE8));
  textField "tick_size_source" 0 im_tickSizeSource;
  MkField "lot_size_e8" 0 (readWith parseOptionalI64 (put im_lotSizeE8));
  textField "lot_size_source" 0 im_lotSizeSource;
  MkField "contract_base_qty_e8" 0 (readWith parseOptionalI64 (put im_contractBaseQtyE8));
  textField "contract_base_qty_source" 0 im_contractBaseQtySource;
  MkField "price_basis_qty_e8" 0 (readWith parseOptionalI64 (put im_priceBasisQtyE8));
  textField "price_basis_qty_source" 0 im_priceBasisQtySource;
  MkField "expiry_utc_ns" 0 (readWith parseOptionalI64 (put im_expiryUtcNs));
  textField "expiry_utc_ns_source" 0 im_expiryUtcNsSource;
  MkField "instrument_status" 0 (readWith parseOptionalString (put im_instrumentStatus));
  textField "instrument_status_source" 0 im_instrumentStatusSource;
  textField "metadata_source" 8 im_metadataSource;
  MkField "metadata_warning" 0 (readWith parseOptionalString (put im_metadataWarning))].

Definition parseInstrumentMetadataJson (document : list Z) : Status * option InstrumentMetadata :=
  match ('(seen, parsed, s) ← objectMembers instrumentTable newInstrument document;
         if negb (seen =? 15) then None
         else s ← parseObjectEnd s; if negb (finish s) then None else Some parsed) with
  | Some parsed => (Ok, Some parsed)
  | None => (CorruptData, None)
  end.

Definition optionalString (value : option (list Z)) : list Z :=
  match value with Some value => quote value | None => literalNull end.
Definition optionalI64 (value : option Z) : list Z :=
  match value with Some value => appendInt value | None => literalNull end.

Definition renderInstrumentMetadataJson (i : InstrumentMetadata) : list Z := objectText 2 0 [
  ("exchange", quote (im_exchange i));
  ("exchange_source", quote (im_exchangeSource i));
  ("market", quote (im_market i));
  ("market_source", quote (im_marketSource i));
  ("symbol", quote (im_symbol i));
  ("symbol_source", quote (im_symbolSource i));
  ("instrument_type", quote (im_instrumentType i));
  ("instrument_type_source", quote (im_instrumentTypeSource i));
  ("base_asset", optionalString (im_baseAsset i));
  ("base_asset_source", quote (im_baseAssetSource i));
  ("quote_asset", optionalString (im_quoteAsset i));
  ("quote_asset_source", quote (im_quoteAssetSource i));
  ("settlement_asset", optionalString (im_settlementAsset i));
  ("settlement_asset_source", quote (im_settlementAssetSource i));
  ("price_scale_digits", optionalI64 (im_priceScaleDigits i));
  ("price_scale_digits_source", quote (im_priceScaleDigitsSource i));
  ("qty_scale_digits", optionalI64 (im_qtyScaleDigits i));
  ("qty_scale_digits_source", quote (im_qtyScaleDigitsSource i));
  ("canonical_base_multiplier", optionalI64 (im_canonicalBaseMultiplier i));
  ("native_base_multiplier", optionalI64 (im_nativeBaseMultiplier i));
  ("price_power_of_ten_adjustment", optionalI64 (im_pricePowerOfTenAdjustment i));
  ("spot_quantity_power_of_ten_adjustment", optionalI64 (im_spotQuantityPowerOfTenAdjustment i));
  ("denomination_generation", optionalI64 (im_denominationGeneration i));
  ("denomination_catalog_digest", optionalString (im_denominationCatalogDigest i));
  ("denomination_source", quote (im_denominationSource i));
  ("tick_size_e8", optionalI64 (im_tickSizeE8 i));
  ("tick_size_source", quote (im_tickSizeSource i));
  ("lot_size_e8", optionalI64 (im_lotSizeE8 i));
  ("lot_size_source", quote (im_lotSizeSource i));
  ("contract_base_qty_e8", optionalI64 (im_contractBaseQtyE8 i));
  ("contract_base_qty_source", quote (im_contractBaseQtySource i));
  ("price_basis_qty_e8", optionalI64 (im_priceBasisQtyE8 i));
  ("price_basis_qty_source", quote (im_priceBasisQtySource i));
  ("expiry_utc_ns", optionalI64 (im_expiryUtcNs i));
  ("expiry_utc_ns_source", quote (im_expiryUtcNsSource i));
  ("instrument_status", optionalString (im_instrumentStatus i));
  ("instrument_status_source", quote (im_instrumentStatusSource i));
  ("metadata_source", quote (im_metadataSource i));
  ("metadata_warning", optionalString (im_metadataWarning i))] ++ [Ch.newline].

(** ** The document is read back *)

Definition optional {A} (P : A -> Prop) (value : option A) : Prop :=
  forall v, value = Some v -> P v.

Record instrumentOk (i : InstrumentMetadata) : Prop := {
  so_texts : Forall bytes [
    im_exchange i; im_exchangeSource i; im_market i; im_marketSource i; im_symbol i;
    im_symbolSource i; im_instrumentType i; im_instrumentTypeSource i; im_baseAssetSource i;
    im_quoteAssetSource i; im_settlementAssetSource i; im_priceScaleDigitsSource i;
    im_qtyScaleDigitsSource i; im_denominationSource i; im_tickSizeSource i; im_lotSizeSource i;
    im_contractBaseQtySource i; im_priceBasisQtySource i; im_expiryUtcNsSource i;
    im_instrumentStatusSource i; im_metadataSource i];
  so_names : Forall (optional bytes) [
    im_baseAsset i; im_quoteAsset i; im_settlementAsset i; im_denominationCatalogDigest i;
    im_instrumentStatus i; im_metadataWarning i];
  so_numbers : Forall (optional in_i64) [
    im_priceScaleDigits i; im_qtyScaleDigits i; im_canonicalBaseMultiplier i;
    im_nativeBaseMultiplier i; im_pricePowerOfTenAdjustment i;
    im_spotQuantityPowerOfTenAdjustment i; im_denominationGeneration i; im_tickSizeE8 i;
    im_lotSizeE8 i; im_contractBaseQtyE8 i; im_priceBasisQtyE8 i; im_expiryUtcNs i];
}.

Lemma optional_null {V} (parse : list Z -> option (V * list Z)) : readsValue (parseOptional parse) literalNull None.
Proof. intros rest _. reflexivity. Qed.

Lemma optionalString_read value : optional bytes value ->
  readsValue parseOptionalString (optionalString value) value.
Proof.
  destruct value as [v|]; [|intros _; apply optional_null]. intros Hv rest Hr.
  unfold parseOptionalString, parseOptional, optionalString. unfold peek, quote.
  cbn [app skipWs]. change (isSpace Ch.space) with true. cbv iota. cbn [skipWs].
  change (isSpace Ch.quote) with false. cbv iota. change (Ch.quote =? 110) with false. cbv iota.
  change (Ch.quote :: (appendEscaped v ++ [Ch.quote]) ++ rest) with (quote v ++ rest).
  rewrite parseString_quote by (by apply Hv). done.
Qed.

Lemma appendInt_start value rest : in_i64 value -> numberEnds rest = true ->
  exists c text, appendInt value ++ rest = c :: text /\ isSpace c = false /\ (c =? 110) = false.
Proof.
  intros Hv Hr. unfold appendInt. destruct (Z.ltb_spec value 0); [by eexists _, _|].
  destruct (digits_decimal value rest ltac:(mlia) Hr) as (_ & c & ds & -> & Hc). eexists _, _.
  split; [reflexivity|]. destruct (digit_plain _ Hc) as [Hs _]. split; [done|].
  unfold isDigit in Hc. bsplit. apply Z.eqb_neq. lia.
Qed.

Lemma optionalI64_read value : optional in_i64 value ->
  readsValue parseOptionalI64 (optionalI64 value) value.
Proof.
  destruct value as [v|]; [|intros _; apply optional_null]. intros Hv rest Hr.
  unfold parseOptionalI64, parseOptional, optionalI64. unfold peek.
  change (skipWs (Ch.space :: appendInt v ++ rest)) with (skipWs (appendInt v ++ rest)).
  destruct (appendInt_start v rest (Hv v eq_refl) Hr) as (c & text & E & Hs & Hn).
  rewrite E. cbn [skipWs]. rewrite Hs, Hn, <- E, parseInt64_written by auto. done.
Qed.
#[local] Hint Resolve optionalString_read optionalI64_read : value.

Lemma instrument_read i : instrumentOk i ->
  parseInstrumentMetadataJson (renderInstrumentMetadataJson i) = (Ok, Some i).
Proof.
  intros []. use_fields. unfold parseInstrumentMetadataJson.
  assert (objectMembers instrumentTable newInstrument (renderInstrumentMetadataJson i) =
    Some (15, i, [Ch.closeBrace; Ch.newline])) as ->; [|reflexivity].
  transitivity (objectMembers instrumentTable newInstrument (Ch.space :: renderInstrumentMetadataJson i)); [done|].
  unfold renderInstrumentMetadataJson. erewrite objectMembers_written; [|read_members|done].
  do 3 f_equal. by destruct i.
Qed.

(** ** What is inferred *)

Lemma rfindChar_last c a b : c ∉ b -> rfindChar c (a ++ c :: b) = Some (length a).
Proof.
  intros Hb. assert (rfindChar c b = None) as Hn.
  { induction b as [|x b IH]; [done|]. cbn. apply not_elem_of_cons in Hb as [Hx Hb]. rewrite IH by done.
    by destruct (Z.eqb_spec x c). }
  induction a as [|x a IH]; cbn; [by rewrite Hn, Z.eqb_refl|]. by rewrite IH.
Qed.

Lemma findChar_none c a : c ∉ a -> findChar c a = None.
Proof.
  induction a as [|x a IH]; intros Ha; [done|]. apply not_elem_of_cons in Ha as [Hx Ha]. cbn.
  destruct (Z.eqb_spec x c); [done|]. by rewrite IH.
Qed.

Lemma findChar_first c a b : c ∉ a -> findChar c (a ++ c :: b) = Some (length a).
Proof.
  induction a as [|x a IH]; intros Ha; cbn; [by rewrite Z.eqb_refl|].
  apply not_elem_of_cons in Ha as [Hx Ha]. destruct (Z.eqb_spec x c); [done|]. by rewrite IH.
Qed.

Lemma drop_past (a b : list Z) c : drop (S (length a)) (a ++ c :: b) = b.
Proof. rewrite drop_app_ge by lia. by replace (S (length a) - length a)%nat with 1%nat by lia. Qed.

Lemma afterLast_found c a b : c ∉ b -> b <> [] -> afterLast c (a ++ c :: b) = Some b.
Proof.
  intros Hb Hne. unfold afterLast. rewrite rfindChar_last by done. cbn [mbind option_bind].
  rewrite length_app. cbn [length].
  destruct (Nat.ltb_spec (length a + 1) (length a + S (length b))) as [_|Hle];
    [|destruct b; [done|cbn in Hle; lia]].
  by rewrite Nat.add_1_r, drop_past.
Qed.

Lemma beforeLast_one c a b : c ∉ a -> c ∉ b -> a <> [] -> beforeLast c (a ++ c :: b) = Some a.
Proof.
  intros Ha Hb Hne. unfold beforeLast. rewrite rfindChar_last, findChar_first by done.
  cbn [mbind option_bind]. rewrite Nat.eqb_refl. destruct (Nat.ltb_spec 0 (length a)) as [_|Hle];
    [|destruct a; [done|cbn in Hle; lia]].
  unfold substr. rewrite drop_0, Nat.sub_0_r, take_app_length. done.
Qed.

Lemma beforeLast_two c m a b : c ∉ m -> c ∉ b -> a <> [] ->
  beforeLast c (m ++ c :: a ++ c :: b) = Some a.
Proof.
  intros Hm Hb Hne. unfold beforeLast. rewrite findChar_first by done.
  replace (m ++ c :: a ++ c :: b) with ((m ++ c :: a) ++ c :: b) by (by rewrite <- app_assoc).
  rewrite rfindChar_last by done. cbn [mbind option_bind]. rewrite length_app. cbn [length].
  assert (0 < length a)%nat by (destruct a; [done|cbn; lia]).
  destruct (Nat.eqb_spec (length m) (length m + S (length a))); [lia|].
  destruct (Nat.ltb_spec (length m + 1) (length m + S (length a))); [|lia].
  unfold substr. rewrite <- app_assoc, drop_app_ge by lia.
  replace (length m + 1 - length m)%nat with 1%nat by lia.
  change (drop 1 ((c :: a) ++ c :: b)) with (a ++ c :: b). rewrite take_app_le by lia. rewrite take_ge; [done|lia].
Qed.

Lemma multiplierLoop_digits ds : forall value, Forall (fun c => isDigit c = true) ds -> 0 <= value ->
  digitsValue value ds <= i64_max -> multiplierLoop value ds = Some (digitsValue value ds).
Proof.
  induction ds as [|c ds IH]; intros value Hd Hv Hmax; [done|]. apply Forall_cons in Hd as [Hc Hd].
  cbn [multiplierLoop]. rewrite Hc. cbn [negb orb].
  cbn in Hmax. fold (digitsValue (value * 10 + (c - 48)) ds) in Hmax.
  assert (0 <= c - 48 <= 9) as Hdig by (unfold isDigit in Hc; bsplit; lia).
  pose proof (digitsValue_grows ds (value * 10 + (c - 48)) Hd ltac:(lia)) as Hge.
  destruct (Z.ltb_spec ((i64_max - (c - 48)) / 10) value) as [Hlt|Hle].
  { exfalso. pose proof (Z.div_le_lower_bound (i64_max - (c - 48)) 10 value). lia. }
  apply IH; [done|lia|done].
Qed.

Lemma decimal_digits n : 0 <= n <= i64_max ->
  Forall (fun c => isDigit c = true) (decimal n) /\ digitsValue 0 (decimal n) = n.
Proof.
  intros Hn. unfold decimal. destruct (decimalLoop_spec 20 n []) as (ds & -> & _ & Hd & Hval & _); [lia| |].
  { change (10 ^ Z.of_nat 20) with 100000000000000000000. mlia. }
  by rewrite app_nil_r.
Qed.

Lemma digits_no_separator ds : Forall (fun c => isDigit c = true) ds -> underscore ∉ ds.
Proof. intros Hd Hin. rewrite Forall_forall in Hd. specialize (Hd _ Hin). done. Qed.

(** From a local symbol the recorder infers its parts: the quote
    asset after the last underscore, the base asset before it, and the base multiplier from
    a leading number, which is one when the symbol has no such prefix. *)
Theorem instrument_inference exchange market base quote multiplier :
  base <> [] -> quote <> [] -> underscore ∉ base -> underscore ∉ quote -> 1 < multiplier <= i64_max ->
  let plain := makeInstrumentMetadata exchange market (base ++ underscore :: quote) in
  let scaled := makeInstrumentMetadata exchange market
                  (decimal multiplier ++ underscore :: base ++ underscore :: quote) in
  im_baseAsset plain = Some base /\ im_quoteAsset plain = Some quote /\
  im_canonicalBaseMultiplier plain = Some 1 /\
  im_baseAsset scaled = Some base /\ im_quoteAsset scaled = Some quote /\
  im_canonicalBaseMultiplier scaled = Some multiplier.
Proof.
  intros Hb Hq Hnb Hnq Hm plain scaled. destruct (decimal_digits multiplier ltac:(lia)) as [Hd Hv].
  pose proof (digits_no_separator _ Hd) as Hnd.
  assert (forall symbol, let i := makeInstrumentMetadata exchange market symbol in
    im_quoteAsset i = inferQuoteAsset symbol /\
    im_baseAsset i = (asset ← inferQuoteAsset symbol; inferBaseAsset symbol asset) /\
    im_canonicalBaseMultiplier i = Some (inferCanonicalBaseMultiplier symbol)) as Hmake.
  { intros symbol. unfold makeInstrumentMetadata. cbv zeta. by destruct (_ && _). }
  subst plain scaled. cbv zeta in Hmake.
  destruct (Hmake (base ++ underscore :: quote)) as (-> & -> & ->).
  destruct (Hmake (decimal multiplier ++ underscore :: base ++ underscore :: quote)) as (-> & -> & ->).
  unfold inferQuoteAsset, inferBaseAsset, inferCanonicalBaseMultiplier.
  assert (forall m, afterLast underscore (m ++ underscore :: base ++ underscore :: quote) = Some quote) as Hafter.
  { intros m. replace (m ++ underscore :: base ++ underscore :: quote)
      with ((m ++ underscore :: base) ++ underscore :: quote) by (by rewrite <- app_assoc).
    by apply afterLast_found. }
  rewrite Hafter, afterLast_found by done. cbn [mbind option_bind].
  rewrite beforeLast_one, beforeLast_two by done. rewrite !findChar_first by done.
  rewrite !Nat.add_1_r.
  rewrite !drop_past, (findChar_none _ quote) by done.
  rewrite findChar_first by done. rewrite take_app_length, multiplierLoop_digits, Hv by (done || lia).
  by destruct (Z.ltb_spec 1 multiplier); [|lia].
Qed.

(** ** Samples and the round trip *)

Lemma afterLast_suffix c s v : afterLast c s = Some v -> bytes s -> bytes v.
Proof.
  unfold afterLast. destruct (rfindChar c s); [|done]. cbn [mbind option_bind]. destruct (_ <? _)%nat; [|done].
  intros [= <-]. apply Forall_drop.
Qed.
Lemma beforeLast_part c s v : beforeLast c s = Some v -> bytes s -> bytes v.
Proof.
  unfold beforeLast. destruct (rfindChar c s); [|done]. destruct (findChar c s); [|done].
  cbn [mbind option_bind]. destruct (_ <? _)%nat; [|done]. intros [= <-] Hs. by apply Forall_take, Forall_drop.
Qed.

Lemma inferQuote_bytes symbol : bytes symbol -> optional bytes (inferQuoteAsset symbol).
Proof.
  intros Hs v. unfold inferQuoteAsset. destruct (afterLast underscore symbol) eqn:E1.
  { intros [= <-]. by eapply afterLast_suffix. }
  destruct (afterLast Ch.colon symbol) eqn:E2; [intros [= <-]; by eapply afterLast_suffix|].
  intros [Hin _]%find_some. unfold kQuotes in Hin. cbn [fmap list_fmap] in Hin.
  destruct Hin as [<-|[<-|[<-|[<-|[]]]]]; apply bytes_of_string_bytes.
Qed.

Lemma inferBase_bytes symbol quote : bytes symbol -> optional bytes (inferBaseAsset symbol quote).
Proof.
  intros Hs v. unfold inferBaseAsset. destruct (beforeLast underscore symbol) eqn:E1.
  { intros [= <-]. by eapply beforeLast_part. }
  destruct (beforeLast Ch.colon symbol) eqn:E2; [intros [= <-]; by eapply beforeLast_part|].
  destruct (_ <=? _)%nat; [done|]. intros [= <-]. by apply Forall_take.
Qed.

Lemma multiplierLoop_range ds : forall value v, 0 <= value <= i64_max ->
  multiplierLoop value ds = Some v -> 0 <= v <= i64_max.
Proof.
  induction ds as [|c ds IH]; intros value v Hv; cbn [multiplierLoop]; [by intros [= <-]|].
  destruct (negb (isDigit c) || _) eqn:E; [done|]. apply orb_false_iff in E as [Ed%negb_false_iff El%Z.ltb_ge].
  unfold isDigit in Ed. bsplit. apply IH.
  pose proof (Z.mul_div_le (i64_max - (c - 48)) 10 ltac:(lia)). lia.
Qed.

Lemma inferMultiplier_range symbol : 1 <= inferCanonicalBaseMultiplier symbol <= i64_max.
Proof.
  unfold inferCanonicalBaseMultiplier. destruct (findChar _ symbol); [|done].
  destruct (findChar _ _); [|done]. destruct (multiplierLoop _ _) as [v|] eqn:E; [|done].
  apply multiplierLoop_range in E; [|done]. destruct (Z.ltb_spec 1 v); mlia.
Qed.

Lemma made_instrument_ok exchange market symbol : bytes exchange -> bytes market -> bytes symbol ->
  instrumentOk (makeInstrumentMetadata exchange market symbol).
Proof.
  intros He Hm Hs. pose proof (inferQuote_bytes symbol Hs) as Hq.
  assert (optional bytes (asset ← inferQuoteAsset symbol; inferBaseAsset symbol asset)) as Hb.
  { destruct (inferQuoteAsset symbol) as [q|]; [|done]. by apply inferBase_bytes. }
  pose proof (inferMultiplier_range symbol) as Hr.
  unfold makeInstrumentMetadata. cbv zeta. destruct (_ && _);
    (constructor;
     repeat match goal with
            | |- Forall bytes (_ :: _) => apply Forall_cons_2
            | |- Forall (optional _) (_ :: _) => apply Forall_cons_2
            | |- Forall _ [] => apply Forall_nil_2
            end;
     first [assumption | apply bytes_of_string_bytes | intros v [=]; subst; mlia | by intros ? [=]]).
Qed.

(** The metadata made for any exchange, market and
    symbol, and any metadata with byte strings and signed 64-bit numbers, is parsed back
    unchanged from the document rendered for it. *)
Theorem instrument_metadata_roundtrip :
  (forall i, instrumentOk i ->
     parseInstrumentMetadataJson (renderInstrumentMetadataJson i) = (Ok, Some i)) /\
  (forall exchange market symbol, bytes exchange -> bytes market -> bytes symbol ->
     let i := makeInstrumentMetadata exchange market symbol in
     parseInstrumentMetadataJson (renderInstrumentMetadataJson i) = (Ok, Some i)).
Proof.
  split; [exact instrument_read|]. intros exchange market symbol He Hm Hs i.
  by apply instrument_read, made_instrument_ok.
Qed.

Lemma instrument_inference_witness :
  let i := makeInstrumentMetadata (bytes_of_string "binance") (bytes_of_string "futures")
             (bytes_of_string "1000_PEPE_USDT") in
  im_baseAsset i = Some (bytes_of_string "PEPE") /\ im_quoteAsset i = Some (bytes_of_string "USDT") /\
  im_canonicalBaseMultiplier i = Some 1000.
Proof.
  pose proof (instrument_inference (bytes_of_string "binance") (bytes_of_string "futures")
    (bytes_of_string "PEPE") (bytes_of_string "USDT") 1000 ltac:(done) ltac:(done)
    ltac:(by apply (bool_decide_unpack _)) ltac:(by apply (bool_decide_unpack _)) ltac:(mlia)) as (_ & _ & _ & H).
  exact H.
Defined.

Lemma instrument_metadata_roundtrip_witness :
  let i := makeInstrumentMetadata (bytes_of_string "binance") (bytes_of_string "spot")
             (bytes_of_string "BTC_USDT") in
  parseInstrumentMetadataJson (renderInstrumentMetadataJson i) = (Ok, Some i).
Proof.
  apply (proj2 instrument_metadata_roundtrip); apply bytes_of_string_bytes.
Defined.
