(* ===== verification/Rows.v ===== *)
(** * Rows: the event rows of text sessions and their line format

    Models CorpusContract/EventRows.hpp (the rows and the arrival contract),
    Capture/Serialization/JsonSerializers.cpp (rendering) and Replay/JsonLineParser.cpp
    (parsing).  Strings are lists of bytes.  A parser that fails leaves its output
    unspecified: the row is returned on success only. *)
From stdpp Require Import base list numbers strings.
From S2P Require Import Prelude Codec Json.
Local Open Scope Z_scope.

(** ** Rows *)

Module Arrival.
Definition None_ : Z := 0.
Definition ApplicationFrame : Z := 1.
Definition HistoricalBackfill : Z := 2.
Definition RealtimeRegression : Z := 4.
Definition MonotonicNonIncreasing : Z := 8.
Definition ExchangeAheadOfReceive : Z := 16.
Definition ExchangeTimestampMissing : Z := 32.
Definition SourceLifecycle : Z := 64.
End Arrival.

Definition kEventArrivalKnownFlags : Z :=
  Z.lor (Z.lor (Z.lor (Z.lor (Z.lor (Z.lor Arrival.ApplicationFrame Arrival.HistoricalBackfill)
    Arrival.RealtimeRegression) Arrival.MonotonicNonIncreasing) Arrival.ExchangeAheadOfReceive)
    Arrival.ExchangeTimestampMissing) Arrival.SourceLifecycle.

Record EventArrival := MkEventArrival {
  ea_receiveRealtimeNs : Z;
  ea_receiveMonotonicNs : Z;
  ea_producerEpoch : Z;
  ea_sourceGeneration : Z;
  ea_sessionEpoch : Z;
  ea_frameSequence : Z;
  ea_shardSequence : Z;
  ea_sourceId : Z;
  ea_shardId : Z;
  ea_eventOrdinal : Z;
  ea_flags : Z;
}.
#[export] Instance EventArrival_eq_dec : EqDecision EventArrival.
Proof. solve_decision. Defined.

Definition hasCapturedApplicationArrival (a : EventArrival) : bool :=
  has (ea_flags a) Arrival.ApplicationFrame &&
  negb (has (ea_flags a) (Z.lor Arrival.HistoricalBackfill Arrival.SourceLifecycle)) &&
  negb (outside (ea_flags a) kEventArrivalKnownFlags) &&
  (0 <? ea_receiveRealtimeNs a) && negb (ea_receiveMonotonicNs a =? 0) &&
  negb (ea_producerEpoch a =? 0) && negb (ea_sourceGeneration a =? 0) &&
  negb (ea_sessionEpoch a =? 0) && negb (ea_frameSequence a =? 0) &&
  negb (ea_shardSequence a =? 0) && negb (ea_sourceId a =? 0).

Definition hasCapturedSourceLifecycleArrival (a : EventArrival) : bool :=
  let allowed := Z.lor (Z.lor Arrival.SourceLifecycle Arrival.RealtimeRegression)
                   Arrival.MonotonicNonIncreasing in
  has (ea_flags a) Arrival.SourceLifecycle && negb (outside (ea_flags a) allowed) &&
  (ea_frameSequence a =? 0) && (0 <? ea_receiveRealtimeNs a) &&
  negb (ea_receiveMonotonicNs a =? 0) && negb (ea_producerEpoch a =? 0) &&
  negb (ea_sourceGeneration a =? 0) && negb (ea_shardSequence a =? 0) &&
  negb (ea_sourceId a =? 0).

(** No field of the arrival is set. *)
Definition noInstant (a : EventArrival) : bool :=
  (ea_receiveRealtimeNs a =? 0) && (ea_receiveMonotonicNs a =? 0) && (ea_producerEpoch a =? 0) &&
  (ea_sourceGeneration a =? 0) && (ea_sessionEpoch a =? 0) && (ea_frameSequence a =? 0) &&
  (ea_shardSequence a =? 0) && (ea_sourceId a =? 0) && (ea_shardId a =? 0) &&
  (ea_eventOrdinal a =? 0).

Definition isHistoricalBackfill (a : EventArrival) : bool :=
  has (ea_flags a) Arrival.HistoricalBackfill &&
  negb (outside (ea_flags a) (Z.lor Arrival.HistoricalBackfill Arrival.ExchangeTimestampMissing)) &&
  noInstant a.

Record TradeRow := MkTradeRow {
  tr_tradeId : Z;
  tr_firstTradeId : Z;
  tr_lastTradeId : Z;
  tr_symbol : list Z;
  tr_exchange : list Z;
  tr_market : list Z;
  tr_tsNs : Z;
  tr_captureSeq : Z;
  tr_ingestSeq : Z;
  tr_priceE8 : Z;
  tr_qtyE8 : Z;
  tr_quoteQtyE8 : Z;
  tr_side : Z;
  tr_isBuyerMaker : Z;
  tr_sideBuy : Z;
  tr_arrival : EventArrival;
}.

Record LiquidationRow := MkLiquidationRow {
  lq_symbol : list Z;
  lq_exchange : list Z;
  lq_market : list Z;
  lq_tsNs : Z;
  lq_captureSeq : Z;
  lq_ingestSeq : Z;
  lq_priceE8 : Z;
  lq_qtyE8 : Z;
  lq_avgPriceE8 : Z;
  lq_filledQtyE8 : Z;
  lq_side : Z;
  lq_sideBuy : Z;
  lq_orderType : Z;
  lq_timeInForce : Z;
  lq_status : Z;
  lq_sourceMode : Z;
  lq_arrival : EventArrival;
}.

Record BookTickerRow := MkBookTickerRow {
  bt_eventId : Z;
  bt_symbol : list Z;
  bt_exchange : list Z;
  bt_market : list Z;
  bt_tsNs : Z;
  bt_captureSeq : Z;
  bt_ingestSeq : Z;
  bt_bidPriceE8 : Z;
  bt_bidQtyE8 : Z;
  bt_askPriceE8 : Z;
  bt_askQtyE8 : Z;
  bt_arrival : EventArrival;
}.

Record CandleRow := MkCandleRow {
  cd_tier : Z;
  cd_tsNs : Z;
  cd_exchange : list Z;
  cd_market : list Z;
  cd_symbol : list Z;
  cd_timeframe : list Z;
  cd_durationNs : Z;
  cd_openE8 : Z;
  cd_highE8 : Z;
  cd_lowE8 : Z;
  cd_closeE8 : Z;
  cd_volumeE8 : Z;
  cd_quoteAmountE8 : Z;
  cd_hasOhlc : bool;
  cd_captureSeq : Z;
  cd_ingestSeq : Z;
  cd_arrival : EventArrival;
}.
#[export] Instance CandleRow_eta : Eta CandleRow := fun r =>
  MkCandleRow (cd_tier r) (cd_tsNs r) (cd_exchange r) (cd_market r) (cd_symbol r)
    (cd_timeframe r) (cd_durationNs r) (cd_openE8 r) (cd_highE8 r) (cd_lowE8 r) (cd_closeE8 r)
    (cd_volumeE8 r) (cd_quoteAmountE8 r) (cd_hasOhlc r) (cd_captureSeq r) (cd_ingestSeq r)
    (cd_arrival r).

Record MarkPriceRow := MkMarkPriceRow {
  mp_tsNs : Z; mp_markPriceE8 : Z; mp_captureSeq : Z; mp_ingestSeq : Z; mp_arrival : EventArrival;
}.
Record IndexPriceRow := MkIndexPriceRow {
  ip_tsNs : Z; ip_indexPriceE8 : Z; ip_captureSeq : Z; ip_ingestSeq : Z; ip_arrival : EventArrival;
}.
Record FundingRow := MkFundingRow {
  fd_tsNs : Z;
  fd_fundingRateE8 : Z;
  fd_fundingTsNs : Z;
  fd_nextFundingTsNs : Z;
  fd_captureSeq : Z;
  fd_ingestSeq : Z;
  fd_arrival : EventArrival;
}.
Record PriceLimitRow := MkPriceLimitRow {
  pl_tsNs : Z;
  pl_buyLimitE8 : Z;
  pl_sellLimitE8 : Z;
  pl_enabled : Z;
  pl_captureSeq : Z;
  pl_ingestSeq : Z;
  pl_arrival : EventArrival;
}.

Record PricePair := MkPricePair { pp_priceE8 : Z; pp_qtyE8 : Z; pp_side : Z }.
#[export] Instance PricePair_eta : Eta PricePair := fun r =>
  MkPricePair (pp_priceE8 r) (pp_qtyE8 r) (pp_side r).

Record DepthRow := MkDepthRow {
  dp_eventId : Z;
  dp_tsNs : Z;
  dp_captureSeq : Z;
  dp_ingestSeq : Z;
  dp_arrival : EventArrival;
  dp_levels : list PricePair;
}.
#[export] Instance DepthRow_eta : Eta DepthRow := fun r =>
  MkDepthRow (dp_eventId r) (dp_tsNs r) (dp_captureSeq r) (dp_ingestSeq r) (dp_arrival r)
    (dp_levels r).

Record SnapshotDocument := MkSnapshotDocument { sd_tsNs : Z; sd_levels : list PricePair }.

(** ** Rendering *)

Definition appendString (value : list Z) : list Z :=
  Ch.quote :: appendEscaped value ++ [Ch.quote].

Definition appendArrival (a : EventArrival) : list Z :=
  appendInt (ea_receiveRealtimeNs a) ++ Ch.comma ::
  appendInt (ea_receiveMonotonicNs a) ++ Ch.comma ::
  appendInt (ea_producerEpoch a) ++ Ch.comma ::
  appendInt (ea_sourceGeneration a) ++ Ch.comma ::
  appendInt (ea_sessionEpoch a) ++ Ch.comma ::
  appendInt (ea_frameSequence a) ++ Ch.comma ::
  appendInt (ea_shardSequence a) ++ Ch.comma ::
  appendInt (ea_sourceId a) ++ Ch.comma ::
  appendInt (ea_shardId a) ++ Ch.comma ::
  appendInt (ea_eventOrdinal a) ++ Ch.comma ::
  appendInt (ea_flags a).

Definition candleTierFromTimeframe (timeframe : list Z) : Z :=
  let named (text : string) := bool_decide (timeframe = bytes_of_string text) in
  if named "1m" then 1 else if named "10m" || named "15m" then 2
  else if named "1d" then 3 else 0.

Definition appendLevel (level : PricePair) : list Z :=
  Ch.openBracket :: appendInt (pp_priceE8 level) ++ Ch.comma ::
  appendInt (pp_qtyE8 level) ++ Ch.comma :: appendInt (pp_side level) ++ [Ch.closeBracket].

(** The loop of [appendFlatOrderbook]: a comma before every level but the first. *)
Fixpoint appendLevels (first : bool) (levels : list PricePair) : list Z :=
  match levels with
  | [] => []
  | level :: levels =>
      (if first then [] else [Ch.comma]) ++ appendLevel level ++ appendLevels false levels
  end.

Definition appendFlatOrderbook (levels : list PricePair) (tsNs : Z) : list Z :=
  Ch.openBracket :: appendLevels true levels ++
  (if negb (length levels =? 0)%nat then [Ch.comma] else []) ++ appendInt tsNs ++
  [Ch.closeBracket].

Definition taggedTapeTimestamp (tsNs : Z) : Z :=
  let tag := Z.shiftl 1 63 in
  Z.lor tag (Z.land (u64 tsNs) (u64 (Z.lnot tag))).

Definition renderTradeJsonLine (t : TradeRow) : list Z :=
  Ch.openBracket ::
  appendInt (tr_priceE8 t) ++ Ch.comma ::
  appendInt (tr_qtyE8 t) ++ Ch.comma ::
  appendInt (tr_side t) ++ Ch.comma ::
  appendInt (tr_tsNs t) ++ Ch.comma ::
  appendInt (tr_tradeId t) ++ Ch.comma ::
  appendInt (tr_firstTradeId t) ++ Ch.comma ::
  appendInt (tr_lastTradeId t) ++ Ch.comma ::
  appendInt (tr_quoteQtyE8 t) ++ Ch.comma ::
  appendInt (tr_isBuyerMaker t) ++ Ch.comma ::
  appendString (tr_symbol t) ++ Ch.comma ::
  appendString (tr_exchange t) ++ Ch.comma ::
  appendString (tr_market t) ++ Ch.comma ::
  appendInt (tr_captureSeq t) ++ Ch.comma ::
  appendInt (tr_ingestSeq t) ++ Ch.comma ::
  appendArrival (tr_arrival t) ++ [Ch.closeBracket].

Definition renderBookTickerJsonLine (b : BookTickerRow) : list Z :=
  Ch.openBracket ::
  appendInt (bt_eventId b) ++ Ch.comma ::
  appendInt (bt_bidPriceE8 b) ++ Ch.comma ::
  appendInt (bt_bidQtyE8 b) ++ Ch.comma ::
  appendInt (bt_askPriceE8 b) ++ Ch.comma ::
  appendInt (bt_askQtyE8 b) ++ Ch.comma ::
  appendInt (bt_tsNs b) ++ Ch.comma ::
  appendString (bt_symbol b) ++ Ch.comma ::
  appendString (bt_exchange b) ++ Ch.comma ::
  appendString (bt_market b) ++ Ch.comma ::
  appendInt (bt_captureSeq b) ++ Ch.comma ::
  appendInt (bt_ingestSeq b) ++ Ch.comma ::
  appendArrival (bt_arrival b) ++ [Ch.closeBracket].

Definition renderCandleJsonLine (c : CandleRow) : list Z :=
  let tier := if 0 <? cd_tier c then cd_tier c else candleTierFromTimeframe (cd_timeframe c) in
  Ch.openBracket ::
  appendInt tier ++ Ch.comma ::
  appendInt (cd_tsNs c) ++ Ch.comma ::
  appendInt (cd_openE8 c) ++ Ch.comma ::
  appendInt (cd_highE8 c) ++ Ch.comma ::
  appendInt (cd_lowE8 c) ++ Ch.comma ::
  appendInt (cd_closeE8 c) ++ Ch.comma ::
  appendInt (cd_volumeE8 c) ++ Ch.comma ::
  appendInt (cd_quoteAmountE8 c) ++ Ch.comma ::
  appendInt (if cd_hasOhlc c then 1 else 0) ++ Ch.comma ::
  appendString (cd_exchange c) ++ Ch.comma ::
  appendString (cd_market c) ++ Ch.comma ::
  appendString (cd_symbol c) ++ Ch.comma ::
  appendString (cd_timeframe c) ++ Ch.comma ::
  appendInt (cd_durationNs c) ++ Ch.comma ::
  appendInt (cd_captureSeq c) ++ Ch.comma ::
  appendInt (cd_ingestSeq c) ++ Ch.comma ::
  appendArrival (cd_arrival c) ++ [Ch.closeBracket].

Definition renderDepthTapeJsonLine (d : DepthRow) : list Z :=
  Ch.openBracket ::
  appendInt (dp_eventId d) ++ Ch.comma ::
  appendInt (taggedTapeTimestamp (dp_tsNs d)) ++ Ch.comma ::
  appendInt (dp_captureSeq d) ++ Ch.comma ::
  appendInt (dp_ingestSeq d) ++ Ch.comma ::
  appendArrival (dp_arrival d) ++
  concat (map (fun level => Ch.comma :: appendInt (pp_priceE8 level) ++
                            Ch.comma :: appendInt (pp_qtyE8 level)) (dp_levels d)) ++
  [Ch.closeBracket].

Definition appendRun (side count : Z) : list Z :=
  Ch.comma :: appendInt side ++ Ch.comma :: appendInt count.

(** The loop over the levels with the current run. *)
Fixpoint appendRuns (runSide runCount : Z) (levels : list PricePair) : list Z :=
  match levels with
  | [] => appendRun runSide runCount
  | level :: levels =>
      if pp_side level =? runSide then appendRuns runSide (u64 (runCount + 1)) levels
      else appendRun runSide runCount ++ appendRuns (pp_side level) 1 levels
  end.

Definition renderDepthRleSidecarJsonLine (d : DepthRow) : list Z :=
  Ch.openBracket ::
  appendInt (dp_eventId d) ++ Ch.comma ::
  appendInt (taggedTapeTimestamp (dp_tsNs d)) ++
  match dp_levels d with
  | [] => []
  | level :: _ => appendRuns (pp_side level) 0 (dp_levels d)
  end ++ [Ch.closeBracket].

Definition renderSnapshotJson (snapshot : SnapshotDocument) : list Z :=
  appendFlatOrderbook (sd_levels snapshot) (sd_tsNs snapshot) ++ [Ch.newline].

(** ** Parsing *)

Definition orderBookTapeTimestampTag : Z := Z.shiftl 1 63.
Definition orderBookTapePayloadMask : Z := orderBookTapeTimestampTag - 1.

Definition validateCandle (row : CandleRow) : bool :=
  if (cd_tsNs row <=? 0) || (cd_highE8 row <=? 0) || (cd_lowE8 row <=? 0) ||
     (cd_highE8 row <? cd_lowE8 row) || (cd_quoteAmountE8 row <? 0) then false
  else
    let hasNumericTier := (1 <=? cd_tier row) && (cd_tier row <=? 3) in
    if negb (cd_hasOhlc row) then hasNumericTier
    else hasNumericTier && (0 <? cd_durationNs row) && (0 <? cd_openE8 row) &&
         (0 <? cd_closeE8 row) && (0 <=? cd_volumeE8 row).

Definition parseCommaInt64 (s : list Z) : option (Z * list Z) := s ← parseComma s; parseInt64 s.
Definition parseCommaUInt64 (s : list Z) : option (Z * list Z) := s ← parseComma s; parseUInt64 s.
Definition parseCommaString (s : list Z) : option (list Z * list Z) := s ← parseComma s; parseString s.

(** The contract of a stored arrival: an application frame, an archive row or none. *)
Definition arrivalAccepted (a : EventArrival) : bool :=
  if outside (ea_flags a) kEventArrivalKnownFlags then false
  else
    let application := has (ea_flags a) Arrival.ApplicationFrame in
    let historical := has (ea_flags a) Arrival.HistoricalBackfill in
    if application && historical then false
    else if application then hasCapturedApplicationArrival a
    else if outside (ea_flags a)
              (Z.lor Arrival.HistoricalBackfill Arrival.ExchangeTimestampMissing) then false
    else noInstant a.

Definition parseArrival (s : list Z) : option (EventArrival * list Z) :=
  '(receiveRealtimeNs, s) ← parseCommaInt64 s;
  '(receiveMonotonicNs, s) ← parseCommaUInt64 s;
  '(producerEpoch, s) ← parseCommaUInt64 s;
  '(sourceGeneration, s) ← parseCommaUInt64 s;
  '(sessionEpoch, s) ← parseCommaUInt64 s;
  '(frameSequence, s) ← parseCommaUInt64 s;
  '(shardSequence, s) ← parseCommaUInt64 s;
  '(sourceId, s) ← parseCommaUInt64 s;
  '(shardId, s) ← parseCommaUInt64 s;
  '(eventOrdinal, s) ← parseCommaUInt64 s;
  '(flags, s) ← parseCommaUInt64 s;
  if (u32_max <? sourceId) || (65535 <? shardId) || (65535 <? eventOrdinal) || (u32_max <? flags)
  then None
  else
    let a := MkEventArrival receiveRealtimeNs receiveMonotonicNs producerEpoch sourceGeneration
      sessionEpoch frameSequence shardSequence sourceId shardId eventOrdinal flags in
    if arrivalAccepted a then Some (a, s) else None.

(** A side is 0 or 1. *)
Definition isSide (side : Z) : bool := (side =? 0) || (side =? 1).

Definition parsePricePair (s : list Z) : option (PricePair * list Z) :=
  s ← parseArrayStart s;
  '(price, s) ← parseInt64 s;
  '(qty, s) ← parseCommaInt64 s;
  '(side, s) ← parseCommaInt64 s;
  if negb (isSide side) then None
  else s ← parseArrayEnd s; Some (MkPricePair price qty side, s).

(** The level loop of [parseFlatOrderbook]; the outer [option] is fuel. *)
Fixpoint flatLevels (fuel : nat) (s : list Z) : option (option (list PricePair * list Z)) :=
  match fuel with
  | O => None
  | S fuel =>
      let '(more, s) := peek Ch.openBracket s in
      if negb more then Some (Some ([], s))
      else
        match ('(level, s) ← parsePricePair s; s ← parseComma s; Some (level, s)) with
        | None => Some None
        | Some (level, s) =>
            match flatLevels fuel s with
            | Some (Some (levels, s)) => Some (Some (level :: levels, s))
            | result => result
            end
        end
  end.

(** The end of a line: the array is closed and nothing but space follows. *)
Definition parseEnd (s : list Z) : option unit :=
  s ← parseArrayEnd s; if finish s then Some () else None.

Definition parseFlatOrderbook (s : list Z) : option (option (list PricePair * Z)) :=
  match parseArrayStart s with
  | None => Some None
  | Some s =>
      let '(ends, s) := peek Ch.closeBracket s in
      if ends then Some None
      else
        match flatLevels (S (length s)) s with
        | Some (Some (levels, s)) =>
            Some ('(tsNs, s) ← parseInt64 s; _ ← parseEnd s; Some (levels, tsNs))
        | Some None => Some None
        | None => None
        end
  end.

Definition parseTapeNonNegativeI64 (s : list Z) : option (Z * list Z) :=
  '(value, s) ← parseUInt64 s;
  if has value orderBookTapeTimestampTag || (i64_max <? value) then None else Some (value, s).

(** The level loop of [parseDepthTapeLine]. *)
Fixpoint tapeLevels (fuel : nat) (s : list Z) : option (option (list PricePair * list Z)) :=
  match fuel with
  | O => None
  | S fuel =>
      let '(ends, s) := peek Ch.closeBracket s in
      if ends then Some (Some ([], s))
      else
        match (s ← parseComma s; '(price, s) ← parseTapeNonNegativeI64 s;
               s ← parseComma s; '(qty, s) ← parseTapeNonNegativeI64 s;
               Some (MkPricePair price qty 0, s)) with
        | None => Some None
        | Some (level, s) =>
            match tapeLevels fuel s with
            | Some (Some (levels, s)) => Some (Some (level :: levels, s))
            | result => result
            end
        end
  end.

(** A tagged timestamp word. *)
Definition parseTapeTimestamp (s : list Z) : option (Z * list Z) :=
  '(word, s) ← parseCommaUInt64 s;
  if negb (has word orderBookTapeTimestampTag) then None
  else Some (Z.land word orderBookTapePayloadMask, s).

Definition parseDepthTapeLine (line : list Z) : option (option DepthRow) :=
  match (s ← parseArrayStart line;
         '(eventId, s) ← parseUInt64 s;
         if eventId =? 0 then None
         else
           '(tsNs, s) ← parseTapeTimestamp s;
           '(captureSeq, s) ← parseCommaInt64 s;
           '(ingestSeq, s) ← parseCommaInt64 s;
           '(arrival, s) ← parseArrival s;
           Some (MkDepthRow eventId tsNs captureSeq ingestSeq arrival [], s)) with
  | None => Some None
  | Some (row, s) =>
      match tapeLevels (S (length s)) s with
      | Some (Some (levels, s)) => Some (_ ← parseEnd s; Some (row <| dp_levels := levels |>))
      | Some None => Some None
      | None => None
      end
  end.

(** [levels[levelIndex].side = sideValue; ++levelIndex;] [count] times. *)
Fixpoint setSides (count : nat) (side : Z) (index : nat) (levels : list PricePair)
  : nat * list PricePair :=
  match count with
  | O => (index, levels)
  | S count => setSides count side (S index) (alter (fun l => l <| pp_side := side |>) index levels)
  end.

(** The run loop of [applyDepthRleSidecar]: the levels with their sides. *)
Fixpoint sidecarRuns (fuel : nat) (s : list Z) (index : nat) (levels : list PricePair)
  : option (option (nat * list PricePair * list Z)) :=
  match fuel with
  | O => None
  | S fuel =>
      let '(ends, s) := peek Ch.closeBracket s in
      if ends then Some (Some (index, levels, s))
      else
        match ('(side, s) ← parseCommaInt64 s;
               if negb (isSide side) then None
               else
                 '(runCount, s) ← parseCommaUInt64 s;
                 if (runCount =? 0) || (Z.of_nat (length levels - index) <? runCount) then None
                 else Some (side, runCount, s)) with
        | None => Some None
        | Some (side, runCount, s) =>
            let '(index, levels) := setSides (Z.to_nat runCount) side index levels in
            sidecarRuns fuel s index levels
        end
  end.

Definition applyDepthRleSidecar (line : list Z) (row : DepthRow) : option (option DepthRow) :=
  match (s ← parseArrayStart line;
         '(eventId, s) ← parseUInt64 s;
         if negb (eventId =? dp_eventId row) then None
         else
           '(tsNs, s) ← parseTapeTimestamp s;
           if negb (tsNs =? dp_tsNs row) then None else Some s) with
  | None => Some None
  | Some s =>
      match sidecarRuns (S (length s)) s 0 (dp_levels row) with
      | Some (Some (index, levels, s)) =>
          Some (if negb (index =? length levels)%nat then None
                else _ ← parseEnd s; Some (row <| dp_levels := levels |>))
      | Some None => Some None
      | None => None
      end
  end.

Definition parseBoolByte (s : list Z) : option (Z * list Z) :=
  let '(isTrue, s) := peek 116 s in
  let '(isFalse, s) := peek 102 s in
  if isTrue || isFalse
  then '(value, s) ← parseBool s; Some (if (value : bool) then 1 else 0, s)
  else
    '(value, s) ← parseInt64 s;
    if negb (isSide value) then None else Some (value, s).

(** The status of a parser and its row. *)
Definition parsed {R} (row : option R) : Status * option R :=
  match row with Some _ => (Ok, row) | None => (CorruptData, None) end.

Definition parseTradeLine (line : list Z) : Status * option TradeRow := parsed (
  s ← parseArrayStart line;
  '(priceE8, s) ← parseInt64 s;
  '(qtyE8, s) ← parseCommaInt64 s;
  '(side, s) ← parseCommaInt64 s;
  if negb (isSide side) then None
  else
    '(tsNs, s) ← parseCommaInt64 s;
    '(tradeId, s) ← parseCommaUInt64 s;
    '(firstTradeId, s) ← parseCommaUInt64 s;
    '(lastTradeId, s) ← parseCommaUInt64 s;
    '(quoteQtyE8, s) ← parseCommaInt64 s;
    s ← parseComma s;
    '(isBuyerMaker, s) ← parseBoolByte s;
    '(symbol, s) ← parseCommaString s;
    '(exchange, s) ← parseCommaString s;
    '(market, s) ← parseCommaString s;
    '(captureSeq, s) ← parseCommaInt64 s;
    '(ingestSeq, s) ← parseCommaInt64 s;
    '(arrival, s) ← parseArrival s;
    _ ← parseEnd s;
    Some (MkTradeRow tradeId firstTradeId lastTradeId symbol exchange market tsNs captureSeq
            ingestSeq priceE8 qtyE8 quoteQtyE8 side isBuyerMaker side arrival)).

Definition parseLiquidationLine (line : list Z) : Status * option LiquidationRow := parsed (
  s ← parseArrayStart line;
  '(priceE8, s) ← parseInt64 s;
  '(qtyE8, s) ← parseCommaInt64 s;
  '(side, s) ← parseCommaInt64 s;
  if negb (isSide side) then None
  else
    '(tsNs, s) ← parseCommaInt64 s;
    '(avgPriceE8, s) ← parseCommaInt64 s;
    '(filledQtyE8, s) ← parseCommaInt64 s;
    '(symbol, s) ← parseCommaString s;
    '(exchange, s) ← parseCommaString s;
    '(market, s) ← parseCommaString s;
    '(orderType, s) ← parseCommaInt64 s;
    '(timeInForce, s) ← parseCommaInt64 s;
    '(status, s) ← parseCommaInt64 s;
    '(sourceMode, s) ← parseCommaInt64 s;
    '(captureSeq, s) ← parseCommaInt64 s;
    '(ingestSeq, s) ← parseCommaInt64 s;
    '(arrival, s) ← parseArrival s;
    _ ← parseEnd s;
    Some (MkLiquidationRow symbol exchange market tsNs captureSeq ingestSeq priceE8 qtyE8
            avgPriceE8 filledQtyE8 side side orderType timeInForce status sourceMode arrival)).

Definition parseBookTickerLine (line : list Z) : Status * option BookTickerRow := parsed (
  s ← parseArrayStart line;
  '(eventId, s) ← parseUInt64 s;
  if eventId =? 0 then None
  else
    '(bidPriceE8, s) ← parseCommaInt64 s;
    '(bidQtyE8, s) ← parseCommaInt64 s;
    '(askPriceE8, s) ← parseCommaInt64 s;
    '(askQtyE8, s) ← parseCommaInt64 s;
    '(tsNs, s) ← parseCommaInt64 s;
    '(symbol, s) ← parseCommaString s;
    '(exchange, s) ← parseCommaString s;
    '(market, s) ← parseCommaString s;
    '(captureSeq, s) ← parseCommaInt64 s;
    '(ingestSeq, s) ← parseCommaInt64 s;
    '(arrival, s) ← parseArrival s;
    _ ← parseEnd s;
    Some (MkBookTickerRow eventId symbol exchange market tsNs captureSeq ingestSeq bidPriceE8
            bidQtyE8 askPriceE8 askQtyE8 arrival)).

Definition parseCandleLine (line : list Z) : Status * option CandleRow := parsed (
  s ← parseArrayStart line;
  '(tier, s) ← parseInt64 s;
  '(tsNs, s) ← parseCommaInt64 s;
  '(openE8, s) ← parseCommaInt64 s;
  '(highE8, s) ← parseCommaInt64 s;
  '(lowE8, s) ← parseCommaInt64 s;
  '(closeE8, s) ← parseCommaInt64 s;
  '(volumeE8, s) ← parseCommaInt64 s;
  '(quoteAmountE8, s) ← parseCommaInt64 s;
  s ← parseComma s;
  '(hasOhlc, s) ← parseBoolByte s;
  '(exchange, s) ← parseCommaString s;
  '(market, s) ← parseCommaString s;
  '(symbol, s) ← parseCommaString s;
  '(timeframe, s) ← parseCommaString s;
  '(durationNs, s) ← parseCommaInt64 s;
  '(captureSeq, s) ← parseCommaInt64 s;
  '(ingestSeq, s) ← parseCommaInt64 s;
  '(arrival, s) ← parseArrival s;
  let row := MkCandleRow tier tsNs exchange market symbol timeframe durationNs openE8 highE8 lowE8
    closeE8 volumeE8 quoteAmountE8 (negb (hasOhlc =? 0)) captureSeq ingestSeq arrival in
  if negb (validateCandle row) then None else _ ← parseEnd s; Some row).

Definition parseMarkPriceLine (line : list Z) : Status * option MarkPriceRow := parsed (
  s ← parseArrayStart line;
  '(tsNs, s) ← parseInt64 s;
  '(markPriceE8, s) ← parseCommaInt64 s;
  '(captureSeq, s) ← parseCommaInt64 s;
  '(ingestSeq, s) ← parseCommaInt64 s;
  '(arrival, s) ← parseArrival s;
  if (tsNs <=? 0) || (markPriceE8 <=? 0) then None
  else _ ← parseEnd s; Some (MkMarkPriceRow tsNs markPriceE8 captureSeq ingestSeq arrival)).

Definition parseIndexPriceLine (line : list Z) : Status * option IndexPriceRow := parsed (
  s ← parseArrayStart line;
  '(tsNs, s) ← parseInt64 s;
  '(indexPriceE8, s) ← parseCommaInt64 s;
  '(captureSeq, s) ← parseCommaInt64 s;
  '(ingestSeq, s) ← parseCommaInt64 s;
  '(arrival, s) ← parseArrival s;
  if (tsNs <=? 0) || (indexPriceE8 <=? 0) then None
  else _ ← parseEnd s; Some (MkIndexPriceRow tsNs indexPriceE8 captureSeq ingestSeq arrival)).

Definition parseFundingLine (line : list Z) : Status * option FundingRow := parsed (
  s ← parseArrayStart line;
  '(tsNs, s) ← parseInt64 s;
  '(fundingRateE8, s) ← parseCommaInt64 s;
  '(fundingTsNs, s) ← parseCommaInt64 s;
  '(nextFundingTsNs, s) ← parseCommaInt64 s;
  '(captureSeq, s) ← parseCommaInt64 s;
  '(ingestSeq, s) ← parseCommaInt64 s;
  '(arrival, s) ← parseArrival s;
  if tsNs <=? 0 then None
  else _ ← parseEnd s;
       Some (MkFundingRow tsNs fundingRateE8 fundingTsNs nextFundingTsNs captureSeq ingestSeq arrival)).

Definition parsePriceLimitLine (line : list Z) : Status * option PriceLimitRow := parsed (
  s ← parseArrayStart line;
  '(tsNs, s) ← parseInt64 s;
  '(buyLimitE8, s) ← parseCommaInt64 s;
  '(sellLimitE8, s) ← parseCommaInt64 s;
  s ← parseComma s;
  '(enabled, s) ← parseBoolByte s;
  '(captureSeq, s) ← parseCommaInt64 s;
  '(ingestSeq, s) ← parseCommaInt64 s;
  '(arrival, s) ← parseArrival s;
  if (tsNs <=? 0) || (buyLimitE8 <? 0) || (sellLimitE8 <? 0) then None
  else _ ← parseEnd s;
       Some (MkPriceLimitRow tsNs buyLimitE8 sellLimitE8 enabled captureSeq ingestSeq arrival)).

Definition parseDepthTapeSidecarLine (tapeLine sidecarLine : list Z)
  : option (Status * option DepthRow) :=
  match parseDepthTapeLine tapeLine with
  | Some (Some row) => parsed <$> applyDepthRleSidecar sidecarLine row
  | Some None => Some (CorruptData, None)
  | None => None
  end.

Definition parseSnapshotDocument (doc : list Z) : option (Status * option SnapshotDocument) :=
  result ← parseFlatOrderbook doc;
  Some (parsed ('(levels, tsNs) ← result; Some (MkSnapshotDocument tsNs levels))).
