(* ===== verification/RowText.v ===== *)
(** * RowText: lines are read as they were rendered

    The line formats of Rows: what the serializers write the parsers read back, and
    whatever a parser accepts is a row of its type that would be written and read again. *)
From stdpp Require Import base list numbers strings.
From S2P Require Import Prelude Codec Json Rows.
Local Open Scope Z_scope.

(** ** Well-formed rows *)

Record arrivalOk (a : EventArrival) : Prop := {
  ao_realtime : in_i64 (ea_receiveRealtimeNs a);
  ao_monotonic : in_u64 (ea_receiveMonotonicNs a);
  ao_epoch : in_u64 (ea_producerEpoch a);
  ao_generation : in_u64 (ea_sourceGeneration a);
  ao_session : in_u64 (ea_sessionEpoch a);
  ao_frame : in_u64 (ea_frameSequence a);
  ao_sequence : in_u64 (ea_shardSequence a);
  ao_source : in_u32 (ea_sourceId a);
  ao_shard : in_u16 (ea_shardId a);
  ao_ordinal : in_u16 (ea_eventOrdinal a);
  ao_flags : in_u32 (ea_flags a);
  ao_accepted : arrivalAccepted a = true;
}.

Record tradeOk (t : TradeRow) : Prop := {
  to_unsigned : in_u64 (tr_tradeId t) /\ in_u64 (tr_firstTradeId t) /\ in_u64 (tr_lastTradeId t);
  to_strings : Forall in_u8 (tr_symbol t) /\ Forall in_u8 (tr_exchange t) /\ Forall in_u8 (tr_market t);
  to_signed : in_i64 (tr_tsNs t) /\ in_i64 (tr_captureSeq t) /\ in_i64 (tr_ingestSeq t) /\
    in_i64 (tr_priceE8 t) /\ in_i64 (tr_qtyE8 t) /\ in_i64 (tr_quoteQtyE8 t);
  to_side : isSide (tr_side t) = true /\ tr_sideBuy t = tr_side t /\ isSide (tr_isBuyerMaker t) = true;
  to_arrival : arrivalOk (tr_arrival t);
}.

Record bookTickerOk (b : BookTickerRow) : Prop := {
  bo_id : in_u64 (bt_eventId b) /\ bt_eventId b <> 0;
  bo_strings : Forall in_u8 (bt_symbol b) /\ Forall in_u8 (bt_exchange b) /\ Forall in_u8 (bt_market b);
  bo_signed : in_i64 (bt_tsNs b) /\ in_i64 (bt_captureSeq b) /\ in_i64 (bt_ingestSeq b) /\
    in_i64 (bt_bidPriceE8 b) /\ in_i64 (bt_bidQtyE8 b) /\ in_i64 (bt_askPriceE8 b) /\
    in_i64 (bt_askQtyE8 b);
  bo_arrival : arrivalOk (bt_arrival b);
}.

Record candleOk (c : CandleRow) : Prop := {
  co_strings : Forall in_u8 (cd_exchange c) /\ Forall in_u8 (cd_market c) /\
    Forall in_u8 (cd_symbol c) /\ Forall in_u8 (cd_timeframe c);
  co_signed : in_i64 (cd_tsNs c) /\ in_i64 (cd_durationNs c) /\ in_i64 (cd_openE8 c) /\
    in_i64 (cd_highE8 c) /\ in_i64 (cd_lowE8 c) /\ in_i64 (cd_closeE8 c) /\ in_i64 (cd_volumeE8 c) /\
    in_i64 (cd_quoteAmountE8 c) /\ in_i64 (cd_captureSeq c) /\ in_i64 (cd_ingestSeq c);
  co_tier : in_i64 (cd_tier c);
  co_valid : validateCandle c = true;
  co_arrival : arrivalOk (cd_arrival c);
}.

Definition levelOk (l : PricePair) : Prop :=
  in_i64 (pp_priceE8 l) /\ in_i64 (pp_qtyE8 l) /\ isSide (pp_side l) = true.
Definition snapshotOk (d : SnapshotDocument) : Prop :=
  in_i64 (sd_tsNs d) /\ Forall levelOk (sd_levels d).

(** A level on the tape has no negative price or quantity. *)
Definition tapeLevelOk (l : PricePair) : Prop :=
  0 <= pp_priceE8 l <= i64_max /\ 0 <= pp_qtyE8 l <= i64_max /\ isSide (pp_side l) = true.
Record depthOk (d : DepthRow) : Prop := {
  do_id : in_u64 (dp_eventId d) /\ dp_eventId d <> 0;
  do_time : 0 <= dp_tsNs d <= i64_max;
  do_signed : in_i64 (dp_captureSeq d) /\ in_i64 (dp_ingestSeq d);
  do_arrival : arrivalOk (dp_arrival d);
  do_levels : Forall tapeLevelOk (dp_levels d);
  do_count : Z.of_nat (length (dp_levels d)) <= u64_max;
}.

(** ** Reading one field *)

Lemma parseComma_here s : parseComma (Ch.comma :: s) = Some s.
Proof. reflexivity. Qed.

Lemma parseCommaInt64_written v rest : in_i64 v -> numberEnds rest = true ->
  parseCommaInt64 (Ch.comma :: appendInt v ++ rest) = Some (v, rest).
Proof. intros. unfold parseCommaInt64. rewrite parseComma_here. by apply parseInt64_written. Qed.

Lemma parseCommaUInt64_written v rest : in_u64 v -> numberEnds rest = true ->
  parseCommaUInt64 (Ch.comma :: appendInt v ++ rest) = Some (v, rest).
Proof. intros. unfold parseCommaUInt64. rewrite parseComma_here. by apply parseUInt64_written. Qed.

Lemma parseCommaString_written v rest : Forall in_u8 v ->
  parseCommaString (Ch.comma :: appendString v ++ rest) = Some (v, rest).
Proof. intros. unfold parseCommaString. rewrite parseComma_here. by apply parseString_quote. Qed.

Lemma parseArrayStart_here s : parseArrayStart (Ch.openBracket :: s) = Some (skipWs s).
Proof. reflexivity. Qed.
Lemma parseInt64_ws s : parseInt64 (skipWs s) = parseInt64 s.
Proof. unfold parseInt64. by rewrite skipWs_idem. Qed.
Lemma parseUInt64_ws s : parseUInt64 (skipWs s) = parseUInt64 s.
Proof. unfold parseUInt64. by rewrite skipWs_idem. Qed.
Lemma parseEnd_here : parseEnd [Ch.closeBracket] = Some ().
Proof. reflexivity. Qed.

(** A printed number starts with a sign or a digit. *)
Lemma appendInt_starts v : - u64_max <= v <= u64_max ->
  exists c ds, appendInt v = c :: ds /\ (c = Ch.minus \/ isDigit c = true).
Proof.
  intros Hv. unfold appendInt. destruct (Z.ltb_spec v 0); [exists Ch.minus; eauto|].
  destruct (digits_decimal v [] ltac:(mlia) eq_refl) as (_ & c & ds & -> & Hc). eauto.
Qed.

Lemma peek_number c v rest : - u64_max <= v <= u64_max -> c <> Ch.minus -> isDigit c = false ->
  peek c (appendInt v ++ rest) = (false, appendInt v ++ rest).
Proof.
  intros Hv Hm Hd. destruct (appendInt_starts v Hv) as (a & ds & -> & Ha). unfold peek. cbn [app skipWs].
  assert (isSpace a = false) as ->.
  { destruct Ha as [->|Ha]; [done|]. by apply digit_plain in Ha as [-> _]. }
  destruct (Z.eqb_spec a c) as [->|]; [|done]. destruct Ha; congruence.
Qed.

Lemma side_range v : isSide v = true -> 0 <= v <= 1.
Proof. unfold isSide. intros [?|?]%orb_true_iff; bsplit; lia. Qed.

Lemma parseBoolByte_written v rest : isSide v = true -> numberEnds rest = true ->
  parseBoolByte (appendInt v ++ rest) = Some (v, rest).
Proof.
  intros Hs Hn. pose proof (side_range _ Hs). unfold parseBoolByte.
  rewrite !peek_number by (done || mlia). cbn [orb].
  rewrite parseInt64_written by (done || mlia). cbn [mbind option_bind]. by rewrite Hs.
Qed.

(** [scan] reads the fields of a rendered line one after the other. *)
Ltac scan_field :=
  first [rewrite parseComma_here | rewrite parseInt64_ws | rewrite parseUInt64_ws
        | rewrite parseInt64_written by (first [done|mlia|reflexivity])
        | rewrite parseUInt64_written by (first [done|mlia|reflexivity])
        | rewrite parseCommaInt64_written by (first [done|mlia|reflexivity])
        | rewrite parseCommaUInt64_written by (first [done|mlia|reflexivity])
        | rewrite parseCommaString_written by done
        | rewrite parseBoolByte_written by (first [done|reflexivity])].
Ltac scan := repeat (scan_field; cbn [mbind option_bind]).
Ltac flatten_text := repeat (rewrite <- ?app_assoc; cbn [app]).

Lemma parseArrival_written a rest : arrivalOk a -> numberEnds rest = true ->
  parseArrival (Ch.comma :: appendArrival a ++ rest) = Some (a, rest).
Proof.
  intros [] Hn. unfold appendArrival, parseArrival. flatten_text. scan.
  unfold in_u32, in_u16 in *. change (65535) with (2 ^ 16 - 1). unfold u32_max.
  destruct (Z.ltb_spec (2 ^ 32 - 1) (ea_sourceId a)); [lia|].
  destruct (Z.ltb_spec (2 ^ 16 - 1) (ea_shardId a)); [lia|].
  destruct (Z.ltb_spec (2 ^ 16 - 1) (ea_eventOrdinal a)); [lia|].
  destruct (Z.ltb_spec (2 ^ 32 - 1) (ea_flags a)); [lia|]. cbn [orb].
  replace (MkEventArrival _ _ _ _ _ _ _ _ _ _ _) with a by (by destruct a). by rewrite ao_accepted0.
Qed.

(** ** Lines *)

Lemma trade_written t : tradeOk t -> parseTradeLine (renderTradeJsonLine t) = (Ok, Some t).
Proof.
  intros [(? & ? & ?) (? & ? & ?) (? & ? & ? & ? & ? & ?) (Hs & Hb & Hm) Ha].
  pose proof (side_range _ Hs). unfold parseTradeLine, renderTradeJsonLine.
  rewrite parseArrayStart_here. cbn [mbind option_bind]. scan. rewrite Hs. cbn [negb]. scan.
  rewrite parseArrival_written by done. cbn [mbind option_bind]. rewrite parseEnd_here.
  cbn [mbind option_bind parsed]. rewrite <- Hb at 2. by destruct t.
Qed.

Lemma bookTicker_written b :
  bookTickerOk b -> parseBookTickerLine (renderBookTickerJsonLine b) = (Ok, Some b).
Proof.
  intros [[? Hid] (? & ? & ?) (? & ? & ? & ? & ? & ? & ?) Ha].
  unfold parseBookTickerLine, renderBookTickerJsonLine.
  rewrite parseArrayStart_here. cbn [mbind option_bind]. scan.
  destruct (Z.eqb_spec (bt_eventId b) 0); [done|]. scan.
  rewrite parseArrival_written by done. cbn [mbind option_bind]. rewrite parseEnd_here.
  cbn [mbind option_bind parsed]. by destruct b.
Qed.

(** The tier a candle is stored with. *)
Definition storedTier (c : CandleRow) : Z :=
  if 0 <? cd_tier c then cd_tier c else candleTierFromTimeframe (cd_timeframe c).

Lemma candle_written c : candleOk (c <| cd_tier := storedTier c |>) ->
  parseCandleLine (renderCandleJsonLine c) = (Ok, Some (c <| cd_tier := storedTier c |>)).
Proof.
  intros [(? & ? & ? & ?) (? & ? & ? & ? & ? & ? & ? & ? & ? & ?) Ht Hv Ha].
  unfold parseCandleLine, renderCandleJsonLine. fold (storedTier c). cbv zeta.
  rewrite parseArrayStart_here. cbn [mbind option_bind].
  cbn [upd cd_tier cd_tsNs cd_exchange cd_market cd_symbol cd_timeframe cd_durationNs cd_openE8
    cd_highE8 cd_lowE8 cd_closeE8 cd_volumeE8 cd_quoteAmountE8 cd_captureSeq cd_ingestSeq cd_arrival] in *.
  scan.
  assert (isSide (if cd_hasOhlc c then 1 else 0) = true) as Hs by (by destruct (cd_hasOhlc c)).
  scan. rewrite parseArrival_written by done. cbn [mbind option_bind].
  replace (negb ((if cd_hasOhlc c then 1 else 0) =? 0)) with (cd_hasOhlc c) by (by destruct (cd_hasOhlc c)).
  revert Hv. unfold upd, CandleRow_eta. cbn beta. destruct c. cbn. intros Hv. by rewrite Hv.
Qed.

(** ** Snapshots *)

Lemma signed_wide v : in_i64 v -> - u64_max <= v <= u64_max.
Proof. mlia. Qed.

Lemma parsePricePair_written l rest :
  levelOk l -> parsePricePair (appendLevel l ++ rest) = Some (l, rest).
Proof.
  intros (Hp & Hq & Hs). pose proof (side_range _ Hs). unfold parsePricePair, appendLevel. flatten_text.
  rewrite parseArrayStart_here. cbn [mbind option_bind]. scan. rewrite Hs. cbn [negb].
  change (parseArrayEnd (Ch.closeBracket :: rest)) with (Some rest). cbn. by destruct l.
Qed.

Lemma appendLevels_comma levels rest :
  appendLevels true levels ++ (if negb (length levels =? 0)%nat then [Ch.comma] else []) ++ rest =
  concat (map (fun l => appendLevel l ++ [Ch.comma]) levels) ++ rest.
Proof.
  destruct levels as [|l levels]; [done|]. cbn [appendLevels app length Nat.eqb negb].
  cbn [map concat]. revert l. induction levels as [|l' levels IH]; intros l.
  - cbn [appendLevels map concat]. by rewrite !app_nil_r, <- app_assoc.
  - specialize (IH l'). cbn [appendLevels map concat app] in *. rewrite <- !app_assoc in *. cbn [app].
    do 2 f_equal. rewrite <- app_assoc. exact IH.
Qed.

Lemma peek_bracket l s : peek Ch.openBracket (appendLevel l ++ s) = (true, appendLevel l ++ s).
Proof. reflexivity. Qed.

Lemma flatLevels_written levels ts rest : forall fuel, (length levels < fuel)%nat ->
  Forall levelOk levels -> in_i64 ts ->
  flatLevels fuel (concat (map (fun l => appendLevel l ++ [Ch.comma]) levels) ++ appendInt ts ++ rest) =
    Some (Some (levels, appendInt ts ++ rest)).
Proof.
  induction levels as [|l levels IH]; intros [|fuel] Hf Hl Ht; cbn [length] in Hf; try lia;
    cbn [flatLevels map concat app].
  - rewrite peek_number by (done || by apply signed_wide). done.
  - apply Forall_cons in Hl as [Hl Hls]. rewrite <- !app_assoc. rewrite peek_bracket. cbn [negb].
    rewrite parsePricePair_written by done. cbn [mbind option_bind app]. rewrite parseComma_here.
    cbn [mbind option_bind]. rewrite IH by (done || lia). done.
Qed.

Lemma snapshot_written d : snapshotOk d ->
  parseSnapshotDocument (renderSnapshotJson d) = Some (Ok, Some d).
Proof.
  intros [Ht Hl]. unfold parseSnapshotDocument, renderSnapshotJson, appendFlatOrderbook, parseFlatOrderbook.
  cbn [app]. rewrite parseArrayStart_here.
  assert (forall ts rest levels, in_i64 ts -> skipWs (concat (map (fun l => appendLevel l ++ [Ch.comma]) levels) ++
    appendInt ts ++ rest) = concat (map (fun l => appendLevel l ++ [Ch.comma]) levels) ++ appendInt ts ++ rest /\
    (peek Ch.closeBracket (concat (map (fun l => appendLevel l ++ [Ch.comma]) levels) ++
      appendInt ts ++ rest)).1 = false) as Hws.
  { intros ts rest [|l levels] Hts; [|done]. cbn [map concat app].
    pose proof (peek_number Ch.closeBracket ts rest (signed_wide _ Hts) ltac:(done) eq_refl) as Hp.
    rewrite Hp. split; [|done]. unfold peek in Hp. congruence. }
  rewrite <- !app_assoc, appendLevels_comma.
  destruct (Hws (sd_tsNs d) ([Ch.closeBracket] ++ [Ch.newline]) (sd_levels d) Ht) as [-> Hpeek].
  destruct (peek Ch.closeBracket _) as [ends s] eqn:Ep. cbn in Hpeek. subst ends.
  assert (s = concat (map (fun l => appendLevel l ++ [Ch.comma]) (sd_levels d)) ++
    appendInt (sd_tsNs d) ++ [Ch.closeBracket; Ch.newline]) as ->.
  { unfold peek in Ep. injection Ep as _ <-. by apply Hws. }
  rewrite flatLevels_written; try done.
  - rewrite parseInt64_written by done. cbn [mbind option_bind]. cbn. by destruct d.
  - rewrite length_app. enough (length (sd_levels d) <=
      length (concat (map (fun l => appendLevel l ++ [Ch.comma]) (sd_levels d))))%nat by lia.
    generalize (sd_levels d). clear. induction l as [|l ls IH]; [done|]. cbn [map concat length].
    rewrite !length_app. cbn [length]. lia.
Qed.

(** ** The depth tape and its side car *)

Lemma tag_value : orderBookTapeTimestampTag = 2 ^ 63.
Proof. reflexivity. Qed.

Lemma has_tag v : 0 <= v < 2 ^ 63 -> has v orderBookTapeTimestampTag = false.
Proof.
  intros Hv. unfold has. rewrite negb_false_iff. apply Z.eqb_eq. rewrite tag_value.
  rewrite <- (Z.mod_small v (2 ^ 63)), <- Z.land_ones by lia.
  rewrite <- Z.land_assoc. change (Z.land (Z.ones 63) (2 ^ 63)) with 0. apply Z.land_0_r.
Qed.

Lemma tagged_value ts : 0 <= ts <= i64_max -> taggedTapeTimestamp ts = 2 ^ 63 + ts.
Proof.
  intros Hts. unfold taggedTapeTimestamp. cbv zeta. change (Z.shiftl 1 63) with (2 ^ 63).
  change (u64 (Z.lnot (2 ^ 63))) with (Z.ones 63). rewrite u64_id by mlia.
  rewrite Z.land_ones, Z.mod_small by (lia || mlia). symmetry. rewrite <- Z.lxor_lor.
  - apply Z.add_nocarry_lxor. pose proof (has_tag ts ltac:(mlia)) as Hh. unfold has in Hh.
    rewrite tag_value, negb_false_iff in Hh. apply Z.eqb_eq in Hh. by rewrite Z.land_comm.
  - pose proof (has_tag ts ltac:(mlia)) as Hh. unfold has in Hh.
    rewrite tag_value, negb_false_iff in Hh. apply Z.eqb_eq in Hh. by rewrite Z.land_comm.
Qed.

Lemma parseTapeTimestamp_written ts rest : 0 <= ts <= i64_max -> numberEnds rest = true ->
  parseTapeTimestamp (Ch.comma :: appendInt (taggedTapeTimestamp ts) ++ rest) = Some (ts, rest).
Proof.
  intros Hts Hn. unfold parseTapeTimestamp. rewrite tagged_value by done. scan.
  assert (Z.land (2 ^ 63 + ts) (2 ^ 63) = 2 ^ 63 /\ Z.land (2 ^ 63 + ts) orderBookTapePayloadMask = ts)
    as [H1 H2].
  { change orderBookTapePayloadMask with (Z.ones 63). split.
    - assert (Z.land ts (2 ^ 63) = 0) as H0.
      { pose proof (has_tag ts ltac:(mlia)) as Hh. unfold has in Hh.
        rewrite tag_value, negb_false_iff in Hh. by apply Z.eqb_eq. }
      rewrite Z.add_nocarry_lxor by (by rewrite Z.land_comm). rewrite Z.lxor_lor by (by rewrite Z.land_comm).
      rewrite Z.land_lor_distr_l, H0, Z.land_diag. apply Z.lor_0_r.
    - rewrite Z.land_ones by lia. replace (2 ^ 63 + ts) with (ts + 1 * 2 ^ 63) by lia.
      rewrite Z.mod_add by lia. apply Z.mod_small. mlia. }
  unfold has. rewrite tag_value, H1, H2. done.
Qed.

Definition tapeText (l : PricePair) : list Z :=
  Ch.comma :: appendInt (pp_priceE8 l) ++ Ch.comma :: appendInt (pp_qtyE8 l).

Lemma parseTape_written v rest : 0 <= v <= i64_max -> numberEnds rest = true ->
  parseTapeNonNegativeI64 (appendInt v ++ rest) = Some (v, rest).
Proof.
  intros Hv Hn. unfold parseTapeNonNegativeI64. scan. rewrite has_tag by mlia. cbn [orb].
  by destruct (Z.ltb_spec i64_max v); [mlia|].
Qed.

Lemma tape_ends levels rest : numberEnds rest = true ->
  numberEnds (concat (map tapeText levels) ++ rest) = true.
Proof. by destruct levels. Qed.

Lemma tapeLevels_written levels rest : forall fuel, (length levels < fuel)%nat ->
  Forall tapeLevelOk levels ->
  tapeLevels fuel (concat (map tapeText levels) ++ Ch.closeBracket :: rest) =
    Some (Some (map (fun l => l <| pp_side := 0 |>) levels, Ch.closeBracket :: rest)).
Proof.
  induction levels as [|l levels IH]; intros [|fuel] Hf Hl; cbn [length] in Hf; try lia; [done|].
  apply Forall_cons in Hl as [(Hp & Hq & _) Hls]. cbn [tapeLevels map concat]. unfold tapeText at 1.
  flatten_text. unfold peek. cbn [skipWs]. change (isSpace Ch.comma) with false. cbv iota.
  change (Ch.comma =? Ch.closeBracket) with false. cbv iota.
  rewrite parseComma_here. cbn [mbind option_bind].
  rewrite parseTape_written by done. cbn [mbind option_bind]. rewrite parseComma_here.
  cbn [mbind option_bind]. rewrite parseTape_written by (done || by apply tape_ends).
  cbn [mbind option_bind]. rewrite IH by (done || lia). by destruct l.
Qed.

Lemma length_concat_map {A B} (f : A -> list B) xs :
  (forall x, x ∈ xs -> (0 < length (f x))%nat) -> (length xs <= length (concat (map f xs)))%nat.
Proof.
  induction xs as [|x xs IH]; intros Hf; [done|]. cbn [map concat length]. rewrite length_app.
  specialize (IH ltac:(intros; apply Hf; by apply elem_of_cons; right)).
  specialize (Hf x ltac:(apply elem_of_cons; by left)). lia.
Qed.

Lemma depthTape_written d : depthOk d ->
  parseDepthTapeLine (renderDepthTapeJsonLine d) =
    Some (Some (d <| dp_levels ::= map (fun l => l <| pp_side := 0 |>) |>)).
Proof.
  intros [[? Hid] ? [? ?] Ha Hl _]. unfold parseDepthTapeLine, renderDepthTapeJsonLine. fold tapeText.
  rewrite parseArrayStart_here. cbn [mbind option_bind]. scan.
  destruct (Z.eqb_spec (dp_eventId d) 0); [done|].
  rewrite parseTapeTimestamp_written by done. cbn [mbind option_bind]. scan.
  rewrite parseArrival_written by (done || by apply tape_ends). cbn [mbind option_bind].
  change (fun level => Ch.comma :: appendInt (pp_priceE8 level) ++ Ch.comma :: appendInt (pp_qtyE8 level))
    with tapeText.
  rewrite tapeLevels_written; [by destruct d| |done].
  rewrite length_app. pose proof (length_concat_map tapeText (dp_levels d)) as Hlen.
  specialize (Hlen ltac:(intros; cbn; lia)). lia.
Qed.

Definition clearSide (l : PricePair) : PricePair := l <| pp_side := 0 |>.

Lemma setSides_run side run : forall pre rest,
  Forall (fun l => pp_side l = side) run ->
  setSides (length run) side (length pre) (pre ++ map clearSide run ++ rest) =
    (length (pre ++ run), pre ++ run ++ rest).
Proof.
  induction run as [|l run IH]; intros pre rest Hs; cbn [length map app setSides].
  { by rewrite app_nil_r. }
  apply Forall_cons in Hs as [Hl Hs].
  replace (alter (fun l => l <| pp_side := side |>) (length pre) (pre ++ clearSide l :: map clearSide run ++ rest))
    with ((pre ++ [l]) ++ map clearSide run ++ rest).
  2: { rewrite <- app_assoc. cbn [app]. rewrite alter_app_r_alt by lia. rewrite Nat.sub_diag. cbn.
       do 2 f_equal. subst side. by destruct l. }
  replace (S (length pre)) with (length (pre ++ [l])) by (rewrite length_app; cbn; lia).
  rewrite IH by done. by rewrite <- !app_assoc.
Qed.

Lemma appendRuns_ends side count levels rest :
  numberEnds (appendRuns side count levels ++ rest) = true.
Proof.
  revert side count. induction levels as [|l levels IH]; intros side count; cbn [appendRuns]; [done|].
  destruct (_ =? _); [apply IH|done].
Qed.

(** One run of the side car. *)
Lemma sidecar_run fuel side run pre after rest :
  isSide side = true -> run <> [] -> Forall (fun l => pp_side l = side) run ->
  Z.of_nat (length run) <= u64_max -> numberEnds rest = true ->
  sidecarRuns (S fuel) (appendRun side (Z.of_nat (length run)) ++ rest) (length pre)
    (pre ++ map clearSide run ++ after) =
  sidecarRuns fuel rest (length (pre ++ run)) (pre ++ run ++ after).
Proof.
  intros Hs Hne Hrun Hmax Hn. pose proof (side_range _ Hs). cbn [sidecarRuns]. unfold appendRun.
  flatten_text. unfold peek. cbn [skipWs]. change (isSpace Ch.comma) with false. cbv iota.
  change (Ch.comma =? Ch.closeBracket) with false. cbv iota. scan. rewrite Hs. cbn [negb]. scan.
  rewrite !length_app, length_map.
  destruct (Z.eqb_spec (Z.of_nat (length run)) 0); [destruct run; [done|cbn in *; lia]|].
  destruct (Z.ltb_spec (Z.of_nat (length pre + (length run + length after) - length pre))
    (Z.of_nat (length run))); [lia|]. cbn [orb].
  rewrite Nat2Z.id, setSides_run by done. by rewrite length_app.
Qed.

Lemma appendRuns_length side count levels : (0 < length (appendRuns side count levels))%nat.
Proof.
  revert side count. induction levels as [|l levels IH]; intros side count; cbn [appendRuns];
    [unfold appendRun; cbn; lia|].
  destruct (_ =? _); [apply IH|]. unfold appendRun. cbn. lia.
Qed.

Lemma sidecarRuns_written tail levels : forall fuel side run pre,
  isSide side = true -> run <> [] -> Forall (fun l => pp_side l = side) run ->
  Forall (fun l => isSide (pp_side l) = true) levels ->
  Z.of_nat (length (pre ++ run ++ levels)) <= u64_max ->
  (length (appendRuns side (Z.of_nat (length run)) levels ++ Ch.closeBracket :: tail) < fuel)%nat ->
  sidecarRuns fuel (appendRuns side (Z.of_nat (length run)) levels ++ Ch.closeBracket :: tail)
    (length pre) (pre ++ map clearSide (run ++ levels)) =
  Some (Some (length (pre ++ run ++ levels), pre ++ run ++ levels, Ch.closeBracket :: tail)).
Proof.
  induction levels as [|l levels IH]; intros fuel side run pre Hs Hne Hrun Hl Hmax Hf;
    cbn [appendRuns] in *; rewrite !length_app in Hmax.
  - destruct fuel as [|fuel]; [lia|]. rewrite map_app. cbn [map].
    rewrite sidecar_run by (done || lia).
    destruct fuel as [|fuel]; [unfold appendRun in Hf; cbn in Hf; rewrite ?length_app in Hf; cbn in Hf; lia|].
    rewrite !app_nil_r. reflexivity.
  - apply Forall_cons in Hl as [Hsl Hl]. destruct (Z.eqb_spec (pp_side l) side) as [E|E].
    + replace (u64 (Z.of_nat (length run) + 1)) with (Z.of_nat (length (run ++ [l]))) in *
        by (rewrite u64_id by (cbn in Hmax; mlia); rewrite length_app; cbn; lia).
      replace (run ++ l :: levels) with ((run ++ [l]) ++ levels) by (by rewrite <- app_assoc).
      apply IH; try done.
      * by destruct run.
      * apply Forall_app. split; [done|]. by constructor.
      * rewrite !length_app. cbn in *. lia.
    + rewrite <- app_assoc in *. destruct fuel as [|fuel]; [lia|]. rewrite map_app.
      rewrite sidecar_run; try done; [|lia|apply appendRuns_ends].
      change 1 with (Z.of_nat (length [l])) in *.
      replace (pre ++ run ++ map clearSide (l :: levels)) with
        ((pre ++ run) ++ map clearSide ([l] ++ levels)) by (by rewrite <- app_assoc).
      replace (pre ++ run ++ l :: levels) with ((pre ++ run) ++ [l] ++ levels) by (by rewrite <- app_assoc).
      apply IH; try done.
      * by constructor.
      * rewrite !length_app. cbn in *. lia.
      * rewrite length_app in Hf. unfold appendRun in Hf at 1. cbn [length] in Hf. cbn in Hf |- *. lia.
Qed.

Lemma sidecar_written d : depthOk d ->
  applyDepthRleSidecar (renderDepthRleSidecarJsonLine d) (d <| dp_levels ::= map clearSide |>) =
    Some (Some d).
Proof.
  intros [[? Hid] ? [? ?] Ha Hl Hc]. unfold applyDepthRleSidecar, renderDepthRleSidecarJsonLine.
  change (dp_eventId (d <| dp_levels ::= map clearSide |>)) with (dp_eventId d).
  change (dp_tsNs (d <| dp_levels ::= map clearSide |>)) with (dp_tsNs d).
  change (dp_levels (d <| dp_levels ::= map clearSide |>)) with (map clearSide (dp_levels d)).
  assert (numberEnds (match dp_levels d with [] => [] | level :: _ => appendRuns (pp_side level) 0 (dp_levels d) end ++
    [Ch.closeBracket]) = true) as Hends by (destruct (dp_levels d); [done|apply appendRuns_ends]).
  rewrite parseArrayStart_here. cbn [mbind option_bind]. scan. rewrite Z.eqb_refl. cbn [negb].
  rewrite parseTapeTimestamp_written by done. cbn [mbind option_bind]. rewrite Z.eqb_refl. cbn [negb].
  assert (Forall (fun l => isSide (pp_side l) = true) (dp_levels d)) as Hsides
    by (eapply Forall_impl; [exact Hl|]; intros l (_ & _ & ?); done).
  destruct (dp_levels d) as [|l levels] eqn:El.
  { cbn. destruct d. cbn in *. by subst. }
  apply Forall_cons in Hsides as [Hs Hsides]. cbn [appendRuns]. rewrite Z.eqb_refl.
  change (u64 (0 + 1)) with (Z.of_nat (length [l])).
  rewrite (sidecarRuns_written [] levels _ (pp_side l) [l] []); try done.
  - cbn [app]. rewrite Nat.eqb_refl. cbn [negb]. rewrite parseEnd_here. cbn [mbind option_bind].
    destruct d. cbn in *. by subst.
  - by constructor.
  - lia.
Qed.

(** ** What a parser accepts *)

(** A text of at most [n] bytes. *)
Definition text (n : nat) (s : list Z) : Prop := Forall in_u8 s /\ (length s <= n)%nat.

Lemma suffix_text n rest s : text n s -> rest `suffix_of` s -> text n rest.
Proof.
  intros [Hb Hl] Hs. pose proof (suffix_length _ _ Hs). split; [|lia].
  destruct Hs as [k ->]. by apply Forall_app in Hb as [_ ?].
Qed.

Lemma read_array n s rest : text n s -> parseArrayStart s = Some rest -> text n rest.
Proof.
  intros Hb. unfold parseArrayStart. destruct (consume _ _) as [t|] eqn:E; [|done].
  cbn [mbind option_bind]. intros [= <-]. apply consume_ws in E as [_ E].
  eapply suffix_text; [exact Hb|]. etrans; [apply skipWs_suffix|done].
Qed.
Lemma read_arrayEnd n s rest : text n s -> parseArrayEnd s = Some rest -> text n rest.
Proof. intros Hb [_ E]%consume_ws. by eapply suffix_text. Qed.
Lemma read_comma n s rest : text n s -> parseComma s = Some rest -> text n rest.
Proof. intros Hb [_ E]%consume_ws. by eapply suffix_text. Qed.
Lemma read_int n s v rest : text n s -> parseInt64 s = Some (v, rest) -> in_i64 v /\ text n rest.
Proof. intros Hb [Hv E]%parseInt64_range. split; [done|by eapply suffix_text]. Qed.
Lemma read_uint n s v rest : text n s -> parseUInt64 s = Some (v, rest) -> in_u64 v /\ text n rest.
Proof. intros Hb [Hv E]%parseUInt64_range. split; [done|by eapply suffix_text]. Qed.
Lemma read_string n s v rest : text n s -> parseString s = Some (v, rest) -> Forall in_u8 v /\ text n rest.
Proof.
  intros Hb Hp. apply parseString_reads in Hp as (Hv & E & _); [|apply Hb].
  split; [done|]. exact (suffix_text _ _ _ Hb E).
Qed.

Lemma read_commaInt n s v rest : text n s -> parseCommaInt64 s = Some (v, rest) -> in_i64 v /\ text n rest.
Proof.
  intros Hb. unfold parseCommaInt64. destruct (parseComma s) as [t|] eqn:E; [|done].
  cbn [mbind option_bind]. apply read_int. by eapply read_comma.
Qed.
Lemma read_commaUint n s v rest : text n s -> parseCommaUInt64 s = Some (v, rest) -> in_u64 v /\ text n rest.
Proof.
  intros Hb. unfold parseCommaUInt64. destruct (parseComma s) as [t|] eqn:E; [|done].
  cbn [mbind option_bind]. apply read_uint. by eapply read_comma.
Qed.
Lemma read_commaString n s v rest : text n s -> parseCommaString s = Some (v, rest) -> Forall in_u8 v /\ text n rest.
Proof.
  intros Hb. unfold parseCommaString. destruct (parseComma s) as [t|] eqn:E; [|done].
  cbn [mbind option_bind]. apply read_string. by eapply read_comma.
Qed.

Lemma peek_text n c s b rest : text n s -> peek c s = (b, rest) -> text n rest.
Proof. intros Hb. unfold peek. intros [= _ <-]. eapply suffix_text; [exact Hb|apply skipWs_suffix]. Qed.

Lemma read_literal n l s rest : text n s -> consumeLiteral l s = Some rest -> text n rest.
Proof.
  intros Hb. unfold consumeLiteral. case_bool_decide; [|done]. intros [= <-].
  eapply suffix_text; [exact Hb|]. exists (take (length l) s). symmetry. apply take_drop.
Qed.

Lemma read_boolByte n s v rest : text n s -> parseBoolByte s = Some (v, rest) -> isSide v = true /\ text n rest.
Proof.
  intros Hb. unfold parseBoolByte. destruct (peek 116 s) as [t s1] eqn:E1. eapply peek_text in E1; [|done].
  destruct (peek 102 s1) as [f s2] eqn:E2. eapply peek_text in E2; [|done].
  destruct (t || f).
  - unfold parseBool. assert (text n (skipWs s2)) as Hw by (eapply suffix_text; [exact E2|apply skipWs_suffix]).
    destruct (consumeLiteral literalTrue (skipWs s2)) as [s3|] eqn:E3.
    + cbn. intros [= <- <-]. split; [done|by eapply read_literal].
    + destruct (consumeLiteral literalFalse (skipWs s2)) as [s3|] eqn:E4; [|done]. cbn. intros [= <- <-].
      split; [done|by eapply read_literal].
  - destruct (parseInt64 s2) as [[x s3]|] eqn:E3; [|done]. cbn [mbind option_bind].
    destruct (isSide x) eqn:Es; [|done]. cbn [negb]. intros [= <- <-]. split; [done|].
    by eapply read_int.
Qed.

(** [accept] takes the next operation of an accepting parser and what it has read. *)
Ltac accept_with lem :=
  match goal with
  | Hb : text _ ?s |- mbind _ (?p ?s) = Some _ -> _ =>
      let E := fresh "E" in let v := fresh "v" in let r := fresh "s" in
      destruct (p s) as [[v r]|] eqn:E; [|discriminate];
      apply (lem _ _ _ _ Hb) in E as [? ?]; cbn [mbind option_bind]; clear Hb
  end.
Ltac accept1 lem :=
  match goal with
  | Hb : text _ ?s |- mbind _ (?p ?s) = Some _ -> _ =>
      let E := fresh "E" in let r := fresh "s" in
      destruct (p s) as [r|] eqn:E; [|discriminate];
      apply (lem _ _ _ Hb) in E; cbn [mbind option_bind]; clear Hb
  end.
Ltac accept :=
  lazymatch goal with
  | |- mbind _ (parseInt64 _) = _ -> _ => accept_with read_int
  | |- mbind _ (parseUInt64 _) = _ -> _ => accept_with read_uint
  | |- mbind _ (parseCommaInt64 _) = _ -> _ => accept_with read_commaInt
  | |- mbind _ (parseCommaUInt64 _) = _ -> _ => accept_with read_commaUint
  | |- mbind _ (parseCommaString _) = _ -> _ => accept_with read_commaString
  | |- mbind _ (parseBoolByte _) = _ -> _ => accept_with read_boolByte
  | |- mbind _ (parseArrayStart _) = _ -> _ => accept1 read_array
  | |- mbind _ (parseArrayEnd _) = _ -> _ => accept1 read_arrayEnd
  | |- mbind _ (parseComma _) = _ -> _ => accept1 read_comma
  | |- mbind _ (parseEnd ?s) = _ -> _ =>
      destruct (parseEnd s); [|discriminate]; cbn [mbind option_bind]
  | |- (if ?c then None else _) = _ -> _ => let E := fresh "E" in destruct c eqn:E; [discriminate|]
  end.

Lemma read_arrival n s a rest : text n s -> parseArrival s = Some (a, rest) -> arrivalOk a /\ text n rest.
Proof.
  intros Hb. unfold parseArrival. repeat accept. destruct (arrivalAccepted _) eqn:Ea; [|done].
  intros [= <- <-]. bsplit. split; [|done]. split; cbn; try done; mlia.
Qed.
Ltac accept_arrival :=
  lazymatch goal with |- mbind _ (parseArrival _) = _ -> _ => accept_with read_arrival end.
Ltac accepts := repeat first [accept | accept_arrival].

Lemma parsed_ok {R} (row : option R) r : parsed row = (Ok, Some r) -> row = Some r.
Proof. destruct row; cbn; [by intros [= ->]|done]. Qed.

Lemma trade_accepted n line t : text n line -> parseTradeLine line = (Ok, Some t) -> tradeOk t.
Proof.
  intros Hb Hp%parsed_ok. revert Hp. accepts. intros [= <-]. bsplit.
  split; cbn; try done; split_and!; try done.
Qed.

Lemma bookTicker_accepted n line b : text n line -> parseBookTickerLine line = (Ok, Some b) -> bookTickerOk b.
Proof.
  intros Hb Hp%parsed_ok. revert Hp. accepts. intros [= <-]. bsplit.
  split; cbn; try done; split_and!; try done.
Qed.

Lemma candle_accepted n line c : text n line -> parseCandleLine line = (Ok, Some c) -> candleOk c.
Proof.
  intros Hb Hp%parsed_ok. revert Hp. accepts. cbv zeta. accepts. intros [= <-]. bsplit.
  split; cbn; try done; split_and!; try done.
Qed.

(** ** Accepted snapshots and depth rows *)

Lemma read_pair n s l rest : text n s -> parsePricePair s = Some (l, rest) -> levelOk l /\ text n rest.
Proof. intros Hb. unfold parsePricePair. accepts. intros [= <- <-]. bsplit. split; [|done]. by split_and!. Qed.

Lemma flatLevels_accepted n fuel : forall s levels rest, text n s ->
  flatLevels fuel s = Some (Some (levels, rest)) -> Forall levelOk levels /\ text n rest.
Proof.
  induction fuel as [|fuel IH]; intros s levels rest Hb; [done|]. cbn [flatLevels].
  destruct (peek _ s) as [more s1] eqn:E1. eapply peek_text in E1; [|done].
  destruct (negb more); [by intros [= <- <-]|].
  destruct (parsePricePair s1) as [[l s2]|] eqn:E2; [|done]. eapply read_pair in E2 as [Hl E2]; [|done].
  cbn [mbind option_bind]. destruct (parseComma s2) as [s3|] eqn:E3; [|done]. eapply read_comma in E3; [|done].
  cbn [mbind option_bind]. destruct (flatLevels fuel s3) as [[[levels' s4]|]|] eqn:E4; try done.
  intros [= <- <-]. destruct (IH _ _ _ E3 E4). split; [by constructor|done].
Qed.

Lemma snapshot_accepted n doc d : text n doc -> parseSnapshotDocument doc = Some (Ok, Some d) -> snapshotOk d.
Proof.
  intros Hb. unfold parseSnapshotDocument, parseFlatOrderbook.
  destruct (parseArrayStart doc) as [s1|] eqn:E1; [|done]. eapply read_array in E1; [|done].
  destruct (peek _ s1) as [ends s2] eqn:E2. eapply peek_text in E2; [|done]. destruct ends; [done|].
  destruct (flatLevels _ s2) as [[[levels s3]|]|] eqn:E3; try done.
  eapply flatLevels_accepted in E3 as [Hl E3]; [|done]. cbn [mbind option_bind].
  destruct (parseInt64 s3) as [[ts s4]|] eqn:E4; [|done]. eapply read_int in E4 as [Ht E4]; [|done].
  cbn [mbind option_bind]. destruct (parseEnd s4); [|done]. cbn. intros [= <-]. done.
Qed.

Lemma read_tape n s v rest : text n s -> parseTapeNonNegativeI64 s = Some (v, rest) ->
  0 <= v <= i64_max /\ text n rest.
Proof.
  intros Hb. unfold parseTapeNonNegativeI64. accepts. intros [= <- <-]. bsplit. split; [|done].
  unfold in_u64 in *. lia.
Qed.

Lemma tapeLevels_accepted n fuel : forall s levels rest, text n s ->
  tapeLevels fuel s = Some (Some (levels, rest)) ->
  Forall tapeLevelOk levels /\ text n rest /\ (length levels < fuel)%nat.
Proof.
  induction fuel as [|fuel IH]; intros s levels rest Hb; [done|]. cbn [tapeLevels].
  destruct (peek _ s) as [ends s1] eqn:E1. eapply peek_text in E1; [|done].
  destruct ends; [intros [= <- <-]; split_and!; [constructor|done|cbn; lia]|].
  destruct (parseComma s1) as [s2|] eqn:E2; [|done]. eapply read_comma in E2; [|done]. cbn [mbind option_bind].
  destruct (parseTapeNonNegativeI64 s2) as [[p s3]|] eqn:E3; [|done]. eapply read_tape in E3 as [Hp E3]; [|done].
  cbn [mbind option_bind].
  destruct (parseComma s3) as [s4|] eqn:E4; [|done]. eapply read_comma in E4; [|done]. cbn [mbind option_bind].
  destruct (parseTapeNonNegativeI64 s4) as [[q s5]|] eqn:E5; [|done]. eapply read_tape in E5 as [Hq E5]; [|done].
  cbn [mbind option_bind]. destruct (tapeLevels fuel s5) as [[[levels' s6]|]|] eqn:E6; try done.
  intros [= <- <-]. destruct (IH _ _ _ E5 E6) as (H1 & H2 & H3).
  split_and!; [by constructor|done|cbn; lia].
Qed.

Lemma setSides_keeps count side : forall index levels index' levels', isSide side = true ->
  Forall tapeLevelOk levels -> setSides count side index levels = (index', levels') ->
  Forall tapeLevelOk levels' /\ length levels' = length levels.
Proof.
  induction count as [|count IH]; intros index levels index' levels' Hs Hl; cbn [setSides];
    [by intros [= _ <-]|].
  intros E. apply IH in E as [H1 H2]; [|done|].
  2: { apply Forall_alter; [done|]. intros l _ (? & ? & _). split; [done|by split]. }
  split; [done|]. by rewrite length_alter in H2.
Qed.

Lemma sidecarRuns_accepted n fuel : forall s index levels index' levels' rest, text n s ->
  Forall tapeLevelOk levels -> sidecarRuns fuel s index levels = Some (Some (index', levels', rest)) ->
  Forall tapeLevelOk levels' /\ length levels' = length levels.
Proof.
  induction fuel as [|fuel IH]; intros s index levels index' levels' rest Hb Hl; [done|]. cbn [sidecarRuns].
  destruct (peek _ s) as [ends s1] eqn:E1. eapply peek_text in E1; [|done].
  destruct ends; [by intros [= _ <- _]|].
  destruct (parseCommaInt64 s1) as [[side s2]|] eqn:E2; [|done]. eapply read_commaInt in E2 as [_ E2]; [|done].
  cbn [mbind option_bind]. destruct (isSide side) eqn:Es; [|done]. cbn [negb].
  destruct (parseCommaUInt64 s2) as [[count s3]|] eqn:E3; [|done]. eapply read_commaUint in E3 as [_ E3]; [|done].
  cbn [mbind option_bind]. destruct (_ || _); [done|].
  destruct (setSides _ _ _ _) as [index1 levels1] eqn:E4. apply setSides_keeps in E4 as [Hl1 Hlen]; [|done..].
  intros E. destruct (IH _ _ _ _ _ _ E3 Hl1 E) as [H1 H2]. split; [done|lia].
Qed.

Lemma mask_range word : 0 <= Z.land word orderBookTapePayloadMask <= i64_max.
Proof.
  change orderBookTapePayloadMask with (Z.ones 63). rewrite Z.land_ones by lia.
  pose proof (Z.mod_pos_bound word (2 ^ 63) ltac:(lia)). mlia.
Qed.

Lemma read_tapeTimestamp n s v rest : text n s -> parseTapeTimestamp s = Some (v, rest) ->
  0 <= v <= i64_max /\ text n rest.
Proof.
  intros Hb. unfold parseTapeTimestamp. accepts. intros [= <- <-]. split; [|done].
  apply mask_range.
Qed.

Lemma depthTape_accepted n line d : text n line -> Z.of_nat n <= u64_max ->
  parseDepthTapeLine line = Some (Some d) -> depthOk d.
Proof.
  intros Hb Hmax. unfold parseDepthTapeLine.
  destruct (s ← parseArrayStart line; _) as [[row s]|] eqn:E; [|done].
  assert (text n s /\ depthOk row) as [Hbs Hrow].
  { revert E. accepts. destruct (parseTapeTimestamp _) as [[ts s3]|] eqn:E3; [|done].
    eapply read_tapeTimestamp in E3 as [Hts E3]; [|done]. cbn [mbind option_bind]. accepts. intros [= <- <-].
    bsplit. split; [done|]. split; try done. }
  destruct (tapeLevels _ s) as [[[levels s']|]|] eqn:El; try done.
  eapply tapeLevels_accepted in El as (Hl & _ & Hc); [|done]. intros E2. injection E2 as E2.
  destruct (parseEnd s'); [|done]. cbn in E2. injection E2 as <-. destruct Hrow, Hbs. split; try done.
  cbn. lia.
Qed.

Lemma depth_accepted n tape sidecar d : text n tape -> text n sidecar -> Z.of_nat n <= u64_max ->
  parseDepthTapeSidecarLine tape sidecar = Some (Ok, Some d) -> depthOk d.
Proof.
  intros Ht Hs Hmax. unfold parseDepthTapeSidecarLine.
  destruct (parseDepthTapeLine tape) as [[row|]|] eqn:E1; [|done..].
  eapply depthTape_accepted in E1; [|done..]. unfold applyDepthRleSidecar.
  destruct (s ← parseArrayStart sidecar; _) as [s|] eqn:E2; [|done].
  assert (text n s) as Hb.
  { revert E2. accepts. destruct (parseTapeTimestamp _) as [[ts s3]|] eqn:E3; [|done].
    eapply read_tapeTimestamp in E3 as [Hts E3]; [|done]. cbn [mbind option_bind]. accepts. by intros [= <-]. }
  destruct (sidecarRuns _ _ _ _) as [[[[index levels] s']|]|] eqn:E3; [|done..].
  destruct E1. eapply sidecarRuns_accepted in E3 as [Hl Hlen]; [|done..].
  destruct (negb _); [done|]. destruct (parseEnd s'); [|done]. cbn. intros [= <-]. split; try done.
  cbn. by rewrite Hlen.
Qed.

(** ** The level loops end *)

Lemma comma_shorter n s rest : text n s -> parseComma s = Some rest -> exists m, (m < n)%nat /\ text m rest.
Proof.
  intros [Hb Hl] [Hlt E]%consume_ws. exists (length rest). split; [lia|]. split; [|done].
  destruct E as [k ->]. by apply Forall_app in Hb as [_ ?].
Qed.

Lemma commaInt_shorter n s v rest : text n s -> parseCommaInt64 s = Some (v, rest) ->
  exists m, (m < n)%nat /\ text m rest.
Proof.
  intros Hb. unfold parseCommaInt64. destruct (parseComma s) as [t|] eqn:E; [|done].
  destruct (comma_shorter _ _ _ Hb E) as (m & Hm & Ht). cbn [mbind option_bind].
  intros [_ Hr]%(read_int m); [|done]. by exists m.
Qed.

Lemma flatLevels_total fuel : forall n s, text n s -> (n < fuel)%nat -> flatLevels fuel s <> None.
Proof.
  induction fuel as [|fuel IH]; intros n s Hb Hf; [lia|]. cbn [flatLevels].
  destruct (peek _ s) as [more s1] eqn:E1. eapply peek_text in E1; [|done].
  destruct (negb more); [done|].
  destruct (parsePricePair s1) as [[l s2]|] eqn:E2; [|done]. eapply read_pair in E2 as [Hl E2]; [|done].
  cbn [mbind option_bind]. destruct (parseComma s2) as [s3|] eqn:E3; [|done].
  destruct (comma_shorter _ _ _ E2 E3) as (m & Hm & Ht). cbn [mbind option_bind].
  specialize (IH m s3 Ht ltac:(lia)). by destruct (flatLevels fuel s3) as [[[? ?]|]|].
Qed.

Lemma tapeLevels_total fuel : forall n s, text n s -> (n < fuel)%nat -> tapeLevels fuel s <> None.
Proof.
  induction fuel as [|fuel IH]; intros n s Hb Hf; [lia|]. cbn [tapeLevels].
  destruct (peek _ s) as [ends s1] eqn:E1. eapply peek_text in E1; [|done]. destruct ends; [done|].
  destruct (parseComma s1) as [s2|] eqn:E2; [|done].
  destruct (comma_shorter _ _ _ E1 E2) as (m & Hm & Ht). cbn [mbind option_bind].
  destruct (parseTapeNonNegativeI64 s2) as [[p s3]|] eqn:E3; [|done]. eapply read_tape in E3 as [_ E3]; [|done].
  cbn [mbind option_bind]. destruct (parseComma s3) as [s4|] eqn:E4; [|done].
  eapply read_comma in E4; [|done]. cbn [mbind option_bind].
  destruct (parseTapeNonNegativeI64 s4) as [[q s5]|] eqn:E5; [|done]. eapply read_tape in E5 as [_ E5]; [|done].
  cbn [mbind option_bind]. specialize (IH m s5 E5 ltac:(lia)). by destruct (tapeLevels fuel s5) as [[[? ?]|]|].
Qed.

Lemma sidecarRuns_total fuel : forall n s index levels, text n s -> (n < fuel)%nat ->
  sidecarRuns fuel s index levels <> None.
Proof.
  induction fuel as [|fuel IH]; intros n s index levels Hb Hf; [lia|]. cbn [sidecarRuns].
  destruct (peek _ s) as [ends s1] eqn:E1. eapply peek_text in E1; [|done]. destruct ends; [done|].
  destruct (parseCommaInt64 s1) as [[side s2]|] eqn:E2; [|done].
  destruct (commaInt_shorter _ _ _ _ E1 E2) as (m & Hm & Ht). cbn [mbind option_bind].
  destruct (negb _); [done|].
  destruct (parseCommaUInt64 s2) as [[count s3]|] eqn:E3; [|done]. eapply read_commaUint in E3 as [_ E3]; [|done].
  cbn [mbind option_bind]. destruct (_ || _); [done|]. destruct (setSides _ _ _ _) as [index1 levels1].
  apply (IH m); [done|lia].
Qed.

(** A concrete text is checked by evaluation. *)
Lemma text_self s : Forall in_u8 s -> text (length s) s.
Proof. done. Qed.

Lemma snapshot_total doc : Forall in_u8 doc -> exists result, parseSnapshotDocument doc = Some result.
Proof.
  intros Hb%text_self. unfold parseSnapshotDocument, parseFlatOrderbook.
  destruct (parseArrayStart doc) as [s1|] eqn:E1; [|by eexists]. eapply read_array in E1; [|done].
  destruct (peek _ s1) as [ends s2] eqn:E2. eapply peek_text in E2; [|done]. destruct ends; [by eexists|].
  pose proof (flatLevels_total (S (length s2)) (length s2) s2 (text_self _ (proj1 E2)) ltac:(lia)) as Ht.
  destruct (flatLevels _ s2) as [[[levels s3]|]|]; [by eexists..|done].
Qed.

Lemma depthTape_total line : Forall in_u8 line -> exists result, parseDepthTapeLine line = Some result.
Proof.
  intros Hb%text_self. unfold parseDepthTapeLine.
  destruct (s ← parseArrayStart line; _) as [[row s]|] eqn:E; [|by eexists].
  assert (text (length line) s) as Hs.
  { revert E. accepts. destruct (parseTapeTimestamp _) as [[ts s3]|] eqn:E3; [|done].
    eapply read_tapeTimestamp in E3 as [Hts E3]; [|done]. cbn [mbind option_bind]. accepts. by intros [= <- <-]. }
  pose proof (tapeLevels_total (S (length s)) (length s) s (text_self _ (proj1 Hs)) ltac:(lia)) as Ht.
  destruct (tapeLevels _ s) as [[[levels s3]|]|]; [by eexists..|done].
Qed.

Lemma sidecar_total line row : Forall in_u8 line -> exists result, applyDepthRleSidecar line row = Some result.
Proof.
  intros Hb%text_self. unfold applyDepthRleSidecar.
  destruct (s ← parseArrayStart line; _) as [s|] eqn:E; [|by eexists].
  assert (text (length line) s) as Hs.
  { revert E. accepts. destruct (parseTapeTimestamp _) as [[ts s3]|] eqn:E3; [|done].
    eapply read_tapeTimestamp in E3 as [Hts E3]; [|done]. cbn [mbind option_bind]. accepts. by intros [= <-]. }
  pose proof (sidecarRuns_total (S (length s)) (length s) s 0 (dp_levels row) (text_self _ (proj1 Hs)) ltac:(lia)) as Ht.
  destruct (sidecarRuns _ _ _ _) as [[[[index levels] s3]|]|]; [by eexists..|done].
Qed.

(** ** Claims *)

(** C31: Every well-formed row of a text session is read back exactly from the
    line the serializer renders: trades, book tickers, candles (with the tier they are stored
    with), snapshots, and depth rows from their tape line and the run-length coded side car,
    whatever bytes their strings hold. *)
Theorem text_rows_roundtrip :
  (forall t, tradeOk t -> parseTradeLine (renderTradeJsonLine t) = (Ok, Some t)) /\
  (forall b, bookTickerOk b -> parseBookTickerLine (renderBookTickerJsonLine b) = (Ok, Some b)) /\
  (forall c, candleOk (c <| cd_tier := storedTier c |>) ->
     parseCandleLine (renderCandleJsonLine c) = (Ok, Some (c <| cd_tier := storedTier c |>))) /\
  (forall d, snapshotOk d -> parseSnapshotDocument (renderSnapshotJson d) = Some (Ok, Some d)) /\
  (forall d, depthOk d ->
     parseDepthTapeSidecarLine (renderDepthTapeJsonLine d) (renderDepthRleSidecarJsonLine d) =
       Some (Ok, Some d)).
Proof.
  split; [exact trade_written|]. split; [exact bookTicker_written|]. split; [exact candle_written|].
  split; [exact snapshot_written|]. intros d Hd. unfold parseDepthTapeSidecarLine.
  rewrite depthTape_written by done. change (fun l => l <| pp_side := 0 |>) with clearSide.
  by rewrite sidecar_written.
Qed.

(** C32: Whatever bytes a line holds, the parsers end, and a line they accept is a
    well-formed row: every number is in the range of its field, every side and flag is one
    the format knows, the arrival is a captured application frame or carries no instant, and
    candles satisfy their invariant.  So every accepted line can be rendered and read again. *)
Theorem text_lines_typed line sidecar :
  Forall in_u8 line -> Forall in_u8 sidecar ->
  Z.of_nat (length line) <= u64_max -> Z.of_nat (length sidecar) <= u64_max ->
  (forall t, parseTradeLine line = (Ok, Some t) -> tradeOk t) /\
  (forall b, parseBookTickerLine line = (Ok, Some b) -> bookTickerOk b) /\
  (forall c, parseCandleLine line = (Ok, Some c) -> candleOk c) /\
  (exists result, parseSnapshotDocument line = Some result /\
     forall d, result = (Ok, Some d) -> snapshotOk d) /\
  (exists result, parseDepthTapeSidecarLine line sidecar = Some result /\
     forall d, result = (Ok, Some d) -> depthOk d).
Proof.
  intros Hl Hs Hn Hm. pose proof (text_self _ Hl) as Ht.
  split; [intros t; by eapply trade_accepted|]. split; [intros b; by eapply bookTicker_accepted|].
  split; [intros c; by eapply candle_accepted|]. split.
  - destruct (snapshot_total line Hl) as (result & E). exists result. split; [done|]. intros d ->.
    by eapply snapshot_accepted.
  - assert (exists result, parseDepthTapeSidecarLine line sidecar = Some result) as (result & E).
    { unfold parseDepthTapeSidecarLine. destruct (depthTape_total line Hl) as ([row|] & ->); [|by eexists].
      destruct (sidecar_total sidecar row Hs) as (r & ->). by eexists. }
    exists result. split; [done|]. intros d ->.
    apply (depth_accepted (length line `max` length sidecar) line sidecar); [| |lia|done];
      (split; [done|lia]).
Qed.

(** ** Witnesses *)

Definition sampleArrival : EventArrival := MkEventArrival 1700 1600 7 3 2 5 9 1 0 1 1.
Definition sampleTradeRow : TradeRow :=
  MkTradeRow 11 12 13 (bytes_of_string "BTC\USDT" ++ [10; 0; 200]) (bytes_of_string "binance")
    (bytes_of_string "spot") 1650 1 2 (-5) 700 (-9223372036854775808) 1 0 1 sampleArrival.
Definition sampleDepthRow : DepthRow :=
  MkDepthRow 4 1650 1 2 sampleArrival
    [MkPricePair 100 5 0; MkPricePair 99 0 0; MkPricePair 101 7 1; MkPricePair 98 1 0].

Lemma sampleArrival_ok : arrivalOk sampleArrival.
Proof. split; cbn; try mlia. reflexivity. Qed.

Lemma text_lines_typed_witness :
  (forall t, parseTradeLine (renderTradeJsonLine sampleTradeRow) = (Ok, Some t) -> tradeOk t) /\
  parseTradeLine (renderTradeJsonLine sampleTradeRow) = (Ok, Some sampleTradeRow).
Proof.
  split; [|vm_compute; reflexivity].
  destruct (text_lines_typed (renderTradeJsonLine sampleTradeRow) (renderDepthRleSidecarJsonLine sampleDepthRow)
    (bytes_checked (renderTradeJsonLine sampleTradeRow) ltac:(vm_compute; reflexivity))
    (bytes_checked (renderDepthRleSidecarJsonLine sampleDepthRow) ltac:(vm_compute; reflexivity))
    ltac:(vm_compute; discriminate) ltac:(vm_compute; discriminate)) as [Htr _]. exact Htr.
Defined.

Lemma text_rows_roundtrip_witness :
  parseDepthTapeSidecarLine (renderDepthTapeJsonLine sampleDepthRow)
    (renderDepthRleSidecarJsonLine sampleDepthRow) = Some (Ok, Some sampleDepthRow).
Proof.
  apply (proj2 (proj2 (proj2 (proj2 text_rows_roundtrip)))).
  split; cbn; [mlia|mlia|mlia|exact sampleArrival_ok| |mlia].
  repeat constructor; cbn; mlia || reflexivity.
Defined.
