(* ===== verification/Loader.v ===== *)
(** * Loader: loading a text session

    Models Runtime/src/Corpus/LoadReport.hpp, SessionCorpus.hpp and CorpusLoader.cpp: the
    report with its issues, the line loaders of the channels, the framing check of retired
    artifacts, the seek index and the load of a whole session directory.

    A file is absent, or present with its text and whether it can be opened; artifacts are
    not directories and a stream that opened reads to its end. *)
From stdpp Require Import base list numbers strings.
From S2P Require Import Prelude Codec Json JsonObject Integrity SessionManifest Instrument Rows.
Local Open Scope Z_scope.

(** ** Files *)

Inductive FileView := NoFile | File (readable : bool) (text : list Z).
(** The directories that exist and the files by path. *)
Record FileSystem := MkFileSystem { fs_directory : list Z -> bool; fs_file : list Z -> FileView }.

Definition fileExists (file : FileView) : bool := if file is File _ _ then true else false.
(** [std::ifstream]: the text, when the file opens. *)
Definition opened (file : FileView) : option (list Z) :=
  if file is File true text then Some text else None.
Definition fileSizeOrZero (file : FileView) : Z :=
  match file with File _ text => Z.of_nat (length text) | NoFile => 0 end.

(** [operator/] of paths. *)
Definition joinPath (dir name : list Z) : list Z :=
  match name with
  | c :: _ => if c =? Ch.slash then name
              else match last dir with
                   | None => name
                   | Some d => if d =? Ch.slash then dir ++ name else dir ++ Ch.slash :: name
                   end
  | [] => match last dir with
          | None => []
          | Some d => if d =? Ch.slash then dir else dir ++ [Ch.slash]
          end
  end.
(** [path::filename] *)
Fixpoint fileNameLoop (name rest : list Z) : list Z :=
  match rest with
  | [] => name
  | c :: rest => if c =? Ch.slash then fileNameLoop [] rest else fileNameLoop (name ++ [c]) rest
  end.
Definition fileName (path : list Z) : list Z := fileNameLoop [] path.

(** The lines [std::getline] reads. *)
Fixpoint lineLoop (line rest : list Z) : list (list Z) :=
  match rest with
  | [] => if bool_decide (line = []) then [] else [line]
  | c :: rest => if c =? Ch.newline then line :: lineLoop [] rest else lineLoop (line ++ [c]) rest
  end.
Definition linesOf (text : list Z) : list (list Z) := lineLoop [] text.
(** [if (line.back() == '\r') line.pop_back()] *)
Definition popReturn (line : list Z) : list Z :=
  match last line with
  | Some c => if c =? Ch.return_ then removelast line else line
  | None => line
  end.
Definition isEmpty (line : list Z) : bool := bool_decide (line = []).

(** ** The report *)

Module LoadIssueSeverity.
Inductive t := Warning | Degraded | Fatal.
#[global] Instance eq_dec : EqDecision t.
Proof. solve_decision. Defined.
End LoadIssueSeverity.

Module LoadIssueCode.
Inductive t :=
| None_ | MissingSessionDirectory | MissingManifest | UnreadableArtifact | InvalidManifest
| MissingRequiredArtifact | InvalidJsonLine | InvalidJsonDocument | StaleSeekIndex
| InvalidSeekIndex | DepthGapDetected.
#[global] Instance eq_dec : EqDecision t.
Proof. solve_decision. Defined.
Definition toString (code : t) : list Z :=
  bytes_of_string
    (match code with
     | None_ => "None"
     | MissingSessionDirectory => "MissingSessionDirectory"
     | MissingManifest => "MissingManifest"
     | UnreadableArtifact => "UnreadableArtifact"
     | InvalidManifest => "InvalidManifest"
     | MissingRequiredArtifact => "MissingRequiredArtifact"
     | InvalidJsonLine => "InvalidJsonLine"
     | InvalidJsonDocument => "InvalidJsonDocument"
     | StaleSeekIndex => "StaleSeekIndex"
     | InvalidSeekIndex => "InvalidSeekIndex"
     | DepthGapDetected => "DepthGapDetected"
     end).
End LoadIssueCode.

Module ChannelLoadState.
Inductive t := Clean | Warning | Degraded | Corrupt | Missing | NotCaptured.
#[global] Instance eq_dec : EqDecision t.
Proof. solve_decision. Defined.
End ChannelLoadState.

Module SessionLoadState.
Inductive t := Clean | Degraded | Corrupt.
#[global] Instance eq_dec : EqDecision t.
Proof. solve_decision. Defined.
End SessionLoadState.

Record SeekIndexBucket := MkSeekIndexBucket {
  sb_tsNs : Z; sb_eventIndexStart : Z; sb_depthRowIndex : Z;
}.
#[export] Instance SeekIndexBucket_eta : Eta SeekIndexBucket := fun r =>
  MkSeekIndexBucket (sb_tsNs r) (sb_eventIndexStart r) (sb_depthRowIndex r).

Record LoadIssue := MkLoadIssue {
  li_code : LoadIssueCode.t;
  li_severity : LoadIssueSeverity.t;
  li_statusHint : Status;
  li_channel : list Z;
  li_artifact : list Z;
  li_lineOrRow : Z;
  li_detail : list Z;
}.

Record LoadReport := MkLoadReport {
  lr_finalStatus : Status;
  lr_sessionState : SessionLoadState.t;
  lr_manifestState : ChannelLoadState.t;
  lr_tradesState : ChannelLoadState.t;
  lr_liquidationsState : ChannelLoadState.t;
  lr_bookTickerState : ChannelLoadState.t;
  lr_markPriceState : ChannelLoadState.t;
  lr_indexPriceState : ChannelLoadState.t;
  lr_fundingState : ChannelLoadState.t;
  lr_priceLimitState : ChannelLoadState.t;
  lr_candlesState : ChannelLoadState.t;
  lr_depthState : ChannelLoadState.t;
  lr_snapshotState : ChannelLoadState.t;
  lr_seekIndexState : ChannelLoadState.t;
  lr_manifestPresent : bool;
  lr_usedSeekIndex : bool;
  lr_staleSeekIndex : bool;
  lr_issues : list LoadIssue;
  lr_seekBuckets : list SeekIndexBucket;
}.
#[export] Instance LoadReport_eta : Eta LoadReport := fun r =>
  MkLoadReport (lr_finalStatus r) (lr_sessionState r) (lr_manifestState r) (lr_tradesState r)
    (lr_liquidationsState r) (lr_bookTickerState r) (lr_markPriceState r) (lr_indexPriceState r)
    (lr_fundingState r) (lr_priceLimitState r) (lr_candlesState r) (lr_depthState r)
    (lr_snapshotState r) (lr_seekIndexState r) (lr_manifestPresent r) (lr_usedSeekIndex r)
    (lr_staleSeekIndex r) (lr_issues r) (lr_seekBuckets r).
Definition newReport : LoadReport :=
  MkLoadReport Ok SessionLoadState.Clean ChannelLoadState.Missing ChannelLoadState.NotCaptured
    ChannelLoadState.NotCaptured ChannelLoadState.NotCaptured ChannelLoadState.NotCaptured
    ChannelLoadState.NotCaptured ChannelLoadState.NotCaptured ChannelLoadState.NotCaptured
    ChannelLoadState.NotCaptured ChannelLoadState.NotCaptured ChannelLoadState.NotCaptured
    ChannelLoadState.Missing false false false [] [].

(** One turn of the loop of [recomputeLoadReport]. *)
Definition recomputeStep (report : Status * SessionLoadState.t) (issue : LoadIssue)
  : Status * SessionLoadState.t :=
  let '(finalStatus, sessionState) := report in
  if bool_decide (li_severity issue = LoadIssueSeverity.Fatal) then
    (if bool_decide (finalStatus = Ok) || bool_decide (finalStatus = Unknown)
     then if bool_decide (li_statusHint issue = Unknown) then CorruptData else li_statusHint issue
     else finalStatus, SessionLoadState.Corrupt)
  else if bool_decide (li_severity issue = LoadIssueSeverity.Degraded) &&
          bool_decide (sessionState = SessionLoadState.Clean)
  then (finalStatus, SessionLoadState.Degraded)
  else (finalStatus, sessionState).
Definition recomputeLoadReport (report : LoadReport) : LoadReport :=
  let '(finalStatus, sessionState) :=
    fold_left recomputeStep (lr_issues report) (Ok, SessionLoadState.Clean) in
  report <| lr_sessionState := sessionState |>
         <| lr_finalStatus := if bool_decide (finalStatus = Unknown) then Ok else finalStatus |>.
Definition appendLoadIssue (report : LoadReport) (issue : LoadIssue) : LoadReport :=
  recomputeLoadReport (report <| lr_issues ::= fun issues => issues ++ [issue] |>).
Definition addIssue (code : LoadIssueCode.t) (severity : LoadIssueSeverity.t) (statusHint : Status)
  (channel artifact : list Z) (lineOrRow : Z) (detail : list Z) (report : LoadReport) : LoadReport :=
  appendLoadIssue report (MkLoadIssue code severity statusHint channel artifact lineOrRow detail).

(** ** The corpus *)

Record SessionCorpus := MkSessionCorpus {
  sc_manifest : SessionManifest;
  sc_instrumentMetadata : option InstrumentMetadata;
  sc_report : LoadReport;
  sc_omittedArtifactRows : list Z;
  sc_tradeLines : list (list Z);
  sc_bookTickerLines : list (list Z);
  sc_candleLines : list (list Z);
  sc_candle2Lines : list (list Z);
  sc_depthRows : list DepthRow;
  sc_depthTapeLines : list (list Z);
  sc_depthSidecarLines : list (list Z);
  sc_instrumentMetadataDocument : list Z;
  sc_sessionAuditDocument : list Z;
  sc_integrityReportDocument : list Z;
  sc_loaderDiagnosticDocument : list Z;
}.
#[export] Instance SessionCorpus_eta : Eta SessionCorpus := fun r =>
  MkSessionCorpus (sc_manifest r) (sc_instrumentMetadata r) (sc_report r) (sc_omittedArtifactRows r)
    (sc_tradeLines r) (sc_bookTickerLines r) (sc_candleLines r) (sc_candle2Lines r) (sc_depthRows r)
    (sc_depthTapeLines r) (sc_depthSidecarLines r) (sc_instrumentMetadataDocument r)
    (sc_sessionAuditDocument r) (sc_integrityReportDocument r) (sc_loaderDiagnosticDocument r).
Definition newCorpus : SessionCorpus :=
  MkSessionCorpus newManifest None newReport (replicate 7 0) [] [] [] [] [] [] [] [] [] [] [].

(** ** The seek index *)

Record SourceArtifactInfo := MkSourceArtifactInfo { sa_sizeBytes : Z; sa_rowCount : Z }.
#[export] Instance SourceArtifactInfo_eta : Eta SourceArtifactInfo := fun r =>
  MkSourceArtifactInfo (sa_sizeBytes r) (sa_rowCount r).
#[export] Instance SourceArtifactInfo_eq_dec : EqDecision SourceArtifactInfo.
Proof. solve_decision. Defined.

Definition sourceInfoTable : list (Field SourceArtifactInfo) := [
  MkField "size_bytes" 1 (readWith parseUInt64 (put sa_sizeBytes));
  MkField "row_count" 2 (readWith parseUInt64 (put sa_rowCount))].
Definition parseSourceInfoObject : reader SourceArtifactInfo :=
  parseObject sourceInfoTable (fun seen => seen =? 3).

(** [unordered_map::emplace] keeps the entry a key already has. *)
Definition emplace {V} (key : list Z) (value : V) (entries : list (list Z * V)) : list (list Z * V) :=
  if existsb (fun entry => bool_decide (entry.1 = key)) entries then entries else entries ++ [(key, value)].

Fixpoint seekSourceLoop (fuel : nat) (s : list Z) (out : list (list Z * SourceArtifactInfo))
  : option (option (list (list Z * SourceArtifactInfo) * list Z)) :=
  match fuel with
  | O => None
  | S fuel =>
      match parseKey s with
      | None => Some None
      | Some (key, s) =>
          match parseSourceInfoObject s (MkSourceArtifactInfo 0 0) with
          | None => Some None
          | Some (info, s) =>
              let out := emplace key info out in
              let '(ends, s) := peek Ch.closeBrace s in
              if ends then Some (Some (out, s))
              else match parseComma s with
                   | Some s => seekSourceLoop fuel s out
                   | None => Some (Some (out, s))
                   end
          end
      end
  end.
Definition parseSeekSources (s : list Z) : option (list (list Z * SourceArtifactInfo) * list Z) :=
  s ← parseObjectStart s;
  let '(ends, s) := peek Ch.closeBrace s in
  if ends then s ← parseObjectEnd s; Some ([], s)
  else '(out, s) ← default None (seekSourceLoop (S (length s)) s []);
       s ← parseObjectEnd s; Some (out, s).

Definition seekBucketTable : list (Field SeekIndexBucket) := [
  MkField "ts_ns" 1 (readWith parseInt64 (put sb_tsNs));
  MkField "event_index_start" 2 (readWith parseUInt64 (put sb_eventIndexStart));
  MkField "depth_row_index" 4 (readWith parseUInt64 (put sb_depthRowIndex))].
Fixpoint seekBucketLoop (fuel : nat) (s : list Z) : option (option (list SeekIndexBucket * list Z)) :=
  match fuel with
  | O => None
  | S fuel =>
      match parseObject seekBucketTable (fun seen => seen =? 7) s (MkSeekIndexBucket 0 0 0) with
      | None => Some None
      | Some (bucket, s) =>
          let '(ends, s) := peek Ch.closeBracket s in
          if ends then Some (Some ([bucket], s))
          else match parseComma s with
               | Some s =>
                   match seekBucketLoop fuel s with
                   | Some (Some (out, s)) => Some (Some (bucket :: out, s))
                   | result => result
                   end
               | None => Some (Some ([bucket], s))
               end
      end
  end.
Definition parseSeekBuckets (s : list Z) : option (list SeekIndexBucket * list Z) :=
  s ← parseArrayStart s;
  let '(ends, s) := peek Ch.closeBracket s in
  if ends then s ← parseArrayEnd s; Some ([], s)
  else '(out, s) ← default None (seekBucketLoop (S (length s)) s);
       s ← parseArrayEnd s; Some (out, s).

Abbreviation SeekIndex := (list (list Z * SourceArtifactInfo) * list SeekIndexBucket)%type.
Definition seekIndexTable : list (Field SeekIndex) := [
  MkField "sources" 1 (readWith parseSeekSources (fun sources index => (sources, index.2)));
  MkField "buckets" 2 (readWith parseSeekBuckets (fun buckets index => (index.1, buckets)))].
Definition parseSeekIndexDocument (document : list Z) : option SeekIndex :=
  '(seen, index, s) ← objectMembers seekIndexTable ([], []) document;
  if negb (seen =? 3) then None
  else s ← parseObjectEnd s; if finish s then Some index else None.

(** ** Loading a channel *)

Definition parseFinamArchiveCandle (line : list Z) : Status * option CandleRow :=
  match parseCandleLine line with
  | (status, row) =>
      match row with
      | Some candle =>
          if isOk status && bool_decide (cd_exchange candle = bytes_of_string "finam") &&
             isHistoricalBackfill (cd_arrival candle)
          then (Ok, row) else (CorruptData, None)
      | None => (CorruptData, None)
      end
  end.

Definition isFinam (m : SessionManifest) : bool :=
  bool_decide (sm_exchange m = bytes_of_string "finam").
Definition declaredChannelPath (sessionDir manifestPath : list Z) : list Z :=
  if isEmpty manifestPath then [] else joinPath sessionDir manifestPath.
(** The path of a channel that is read only when it is enabled. *)
Definition enabledPath (enabled : bool) (sessionDir manifestPath : list Z) : list Z :=
  if enabled then declaredChannelPath sessionDir manifestPath else [].
Definition fileAt (fs : FileSystem) (path : list Z) : FileView :=
  if isEmpty path then NoFile else fs_file fs path.

(** The loop over the lines: what is kept and, on a failure, the number of the line. *)
Fixpoint jsonLineLoop (accepts : list Z -> bool) (lineNumber : Z) (lines : list (list Z))
  : list (list Z) * option Z :=
  match lines with
  | [] => ([], None)
  | line :: rest =>
      let line := popReturn line in
      if isEmpty line || accepts line
      then let '(out, failed) := jsonLineLoop accepts (lineNumber + 1) rest in (line :: out, failed)
      else ([line], Some (lineNumber + 1))
  end.

Definition loadJsonLines (accepts : list Z -> bool) (file : FileView) (channelName artifactName : list Z)
  (required : bool) (report : LoadReport)
  : Status * list (list Z) * ChannelLoadState.t * LoadReport :=
  match file with
  | NoFile =>
      if required
      then (CorruptData, [], ChannelLoadState.Missing,
            addIssue LoadIssueCode.MissingRequiredArtifact LoadIssueSeverity.Fatal CorruptData channelName
              artifactName 0 (bytes_of_string "required canonical artifact is missing") report)
      else (Ok, [], ChannelLoadState.NotCaptured, report)
  | File readable text =>
      if negb readable
      then (IoError, [], ChannelLoadState.Corrupt,
            addIssue LoadIssueCode.UnreadableArtifact LoadIssueSeverity.Fatal IoError channelName
              artifactName 0 (bytes_of_string "failed to open canonical artifact") report)
      else
        let '(out, failed) := jsonLineLoop accepts 0 (linesOf text) in
        match failed with
        | None => (Ok, out, ChannelLoadState.Clean, report)
        | Some lineNumber =>
            (CorruptData, out, ChannelLoadState.Corrupt,
             addIssue LoadIssueCode.InvalidJsonLine LoadIssueSeverity.Fatal CorruptData channelName
               artifactName lineNumber
               (bytes_of_string "failed to parse canonical JSON line at line " ++ appendInt lineNumber) report)
        end
  end.

(** The rows counted and whether a line was rejected. *)
Fixpoint countLoop (rows : Z) (lines : list (list Z)) : Z * bool :=
  match lines with
  | [] => (rows, false)
  | line :: rest =>
      let '(array, s) := peek Ch.openBracket line in
      if negb array || negb (if skip s is Some s then finish s else false) || (rows =? u64_max)
      then (rows, true) else countLoop (rows + 1) rest
  end.

Definition countOmittedArtifact (file : FileView) (name : list Z) (declared : Z) (enabled : bool)
  (channel : list Z) (report : LoadReport) : Status * Z * ChannelLoadState.t * LoadReport :=
  if negb enabled then (Ok, 0, ChannelLoadState.NotCaptured, report)
  else
    match opened file with
    | None =>
        (CorruptData, 0, ChannelLoadState.Missing,
         addIssue LoadIssueCode.MissingRequiredArtifact LoadIssueSeverity.Fatal CorruptData channel name 0
           (bytes_of_string "manifest-declared historical artifact is missing") report)
    | Some text =>
        let '(rows, rejected) := countLoop 0 (linesOf text) in
        if rejected
        then (CorruptData, rows, ChannelLoadState.Corrupt,
              addIssue LoadIssueCode.InvalidJsonLine LoadIssueSeverity.Fatal CorruptData channel name rows
                (bytes_of_string "invalid historical artifact framing") report)
        else if negb (rows =? declared)
        then (CorruptData, rows, ChannelLoadState.Corrupt,
              addIssue LoadIssueCode.InvalidJsonLine LoadIssueSeverity.Fatal CorruptData channel name 0
                (bytes_of_string "historical artifact row count does not match immutable manifest") report)
        else (Ok, rows, ChannelLoadState.Clean, report)
    end.

(** The row of a pair of depth lines; the parsers answer on every text. *)
Definition depthRowOf (tapeLine sidecarLine : list Z) : option DepthRow :=
  match parseDepthTapeSidecarLine tapeLine sidecarLine with
  | Some (Ok, row) => row
  | _ => None
  end.

Inductive DepthFailure := LineCounts (lineNumber : Z) | BadLine (lineNumber : Z).
(** The two streams are read in step; the rows with their lines, and a failure. *)
Fixpoint depthLineLoop (lineNumber : Z) (tape sidecar : list (list Z))
  : list (DepthRow * list Z * list Z) * option DepthFailure :=
  match tape, sidecar with
  | [], [] => ([], None)
  | tapeLine :: tape, sidecarLine :: sidecar =>
      let tapeLine := popReturn tapeLine in
      let sidecarLine := popReturn sidecarLine in
      if isEmpty tapeLine && isEmpty sidecarLine then depthLineLoop (lineNumber + 1) tape sidecar
      else match depthRowOf tapeLine sidecarLine with
           | None => ([], Some (BadLine (lineNumber + 1)))
           | Some row =>
               let '(out, failed) := depthLineLoop (lineNumber + 1) tape sidecar in
               ((row, tapeLine, sidecarLine) :: out, failed)
           end
  | _, _ => ([], Some (LineCounts (lineNumber + 1)))
  end.

Definition depthPackage : list Z := bytes_of_string "depth_tape.jsonl+depth_sidecar.jsonl".
Definition depthChannel : list Z := bytes_of_string "depth".
Definition loadDepthTapeSidecarLines (tape sidecar : FileView) (required : bool) (report : LoadReport)
  : Status * list (DepthRow * list Z * list Z) * ChannelLoadState.t * LoadReport :=
  if negb (fileExists tape) && negb (fileExists sidecar) then
    if required
    then (CorruptData, [], ChannelLoadState.Missing,
          addIssue LoadIssueCode.MissingRequiredArtifact LoadIssueSeverity.Fatal CorruptData depthChannel
            (bytes_of_string "depth_tape.jsonl") 0
            (bytes_of_string "required depth tape package is missing") report)
    else (Ok, [], ChannelLoadState.NotCaptured, report)
  else if negb (fileExists tape) || negb (fileExists sidecar)
  then (CorruptData, [], ChannelLoadState.Corrupt,
        addIssue LoadIssueCode.MissingRequiredArtifact LoadIssueSeverity.Fatal CorruptData depthChannel
          depthPackage 0 (bytes_of_string "depth tape package is incomplete") report)
  else
    match opened tape, opened sidecar with
    | Some tapeText, Some sidecarText =>
        let '(out, failed) := depthLineLoop 0 (linesOf tapeText) (linesOf sidecarText) in
        match failed with
        | None => (Ok, out, ChannelLoadState.Clean, report)
        | Some (LineCounts lineNumber) =>
            (CorruptData, out, ChannelLoadState.Corrupt,
             addIssue LoadIssueCode.InvalidJsonLine LoadIssueSeverity.Fatal CorruptData depthChannel depthPackage
               lineNumber (bytes_of_string "depth tape and sidecar line counts differ") report)
        | Some (BadLine lineNumber) =>
            (CorruptData, out, ChannelLoadState.Corrupt,
             addIssue LoadIssueCode.InvalidJsonLine LoadIssueSeverity.Fatal CorruptData depthChannel depthPackage
               lineNumber (bytes_of_string "failed to parse depth tape package line " ++ appendInt lineNumber)
               report)
        end
    | _, _ =>
        (IoError, [], ChannelLoadState.Corrupt,
         addIssue LoadIssueCode.UnreadableArtifact LoadIssueSeverity.Fatal IoError depthChannel depthPackage 0
           (bytes_of_string "failed to open depth tape package") report)
    end.

(** ** Loading a session *)

Definition finalizedSession (status : list Z) : bool :=
  bool_decide (status = bytes_of_string "complete") ||
  bool_decide (status = bytes_of_string "complete_degraded").

(** [None] when the sum does not fit. *)
Definition addRowCount (value total : Z) : option Z :=
  if u64_max - total <? value then None else Some (total + value).
Definition addRowCounts (values : list Z) : option Z :=
  fold_left (fun total value => total ← total; addRowCount value total) values (Some 0).

Definition arrivalSummaryMatchesDeclaredRows (m : SessionManifest) : bool :=
  let clock := sm_arrivalClock m in
  match addRowCounts [sm_tradesCount m; sm_liquidationsCount m; sm_bookTickerCount m; sm_markPriceCount m;
          sm_indexPriceCount m; sm_fundingCount m; sm_priceLimitCount m; sm_depthCount m; sm_candlesCount m;
          sm_candles2Count m],
        addRowCounts [ac_capturedRows clock; ac_historicalRows clock; ac_unavailableRows clock] with
  | Some declared, Some accounted =>
      (accounted =? declared) &&
      ((ac_capturedRows clock =? 0) ||
       ((0 <? ac_firstReceiveRealtimeNs clock) && (0 <? ac_lastReceiveRealtimeNs clock) &&
        negb (ac_firstReceiveMonotonicNs clock =? 0) && negb (ac_lastReceiveMonotonicNs clock =? 0)))
  | _, _ => false
  end.

(** The state of [loadDetailed]; a step that fails ends it. *)
Record Loading := MkLoading { ld_out : SessionCorpus; ld_report : LoadReport }.
#[export] Instance Loading_eta : Eta Loading := fun r => MkLoading (ld_out r) (ld_report r).
Definition Step : Type := Loading -> Loading * bool.
Definition andThen (a b : Step) : Step := fun st => let '(st, ok) := a st in if ok then b st else (st, false).
Declare Scope step_scope.
Delimit Scope step_scope with step.
Notation "a ;; b" := (andThen a b) (at level 100, b at level 200, right associativity) : step_scope.

Definition failWith (code : LoadIssueCode.t) (status : Status) (channel artifact : list Z) (detail : string)
  (st : Loading) : Loading * bool :=
  (st <| ld_report ::= addIssue code LoadIssueSeverity.Fatal status channel artifact 0 (bytes_of_string detail) |>,
   false).
Definition named (name : string) : list Z := bytes_of_string name.

Section load.
Context (fs : FileSystem) (sessionDir : list Z).

Definition sessionFile (name : list Z) : FileView := fs_file fs (joinPath sessionDir name).

Definition checkDirectory : Step := fun st =>
  if negb (fs_directory fs sessionDir || fileExists (fs_file fs sessionDir))
  then failWith LoadIssueCode.MissingSessionDirectory InvalidArgument (named "session") sessionDir
         "session directory does not exist" st
  else (st, true).

Definition loadManifest : Step := fun st =>
  let corrupt := st <| ld_report ::= fun r => r <| lr_manifestState := ChannelLoadState.Corrupt |> |> in
  let fail code status detail st := failWith code status (named "manifest") (named "manifest.json") detail st in
  match sessionFile (named "manifest.json") with
  | NoFile => fail LoadIssueCode.MissingManifest CorruptData
                "current captured-arrival manifest.json is required" corrupt
  | file =>
      match opened file with
      | None => fail LoadIssueCode.UnreadableArtifact IoError "failed to open manifest.json" corrupt
      | Some document =>
          let present st := st <| ld_report ::= fun r => r <| lr_manifestPresent := true |> |> in
          match parseManifestJson document with
          | (Ok, Some m) =>
              let read st := st <| ld_out ::= fun out => out <| sc_manifest := m |> |> in
              if finalizedSession (sm_sessionStatus m) && negb (arrivalSummaryMatchesDeclaredRows m)
              then fail LoadIssueCode.InvalidManifest CorruptData
                     "arrival_clock summary does not match finalized declared rows" (present (read corrupt))
              else (present (read st) <| ld_report ::= fun r =>
                      r <| lr_manifestState := ChannelLoadState.Clean |> |>, true)
          | _ => fail LoadIssueCode.InvalidManifest CorruptData
                   "manifest.json is malformed or structurally invalid" (present corrupt)
          end
      end
  end.

(** A channel whose lines are kept. *)
Definition loadLines (accepts : list Z -> bool) (enabled required : bool) (manifestPath : list Z)
  (channel : string) (keep : list (list Z) -> SessionCorpus -> SessionCorpus)
  (setState : ChannelLoadState.t -> LoadReport -> LoadReport) : Step := fun st =>
  let path := enabledPath enabled sessionDir manifestPath in
  let '(status, lines, state, report) :=
    loadJsonLines accepts (fileAt fs path) (named channel) (fileName path)
      (lr_manifestPresent (ld_report st) && (enabled && required)) (ld_report st) in
  (st <| ld_out ::= keep lines |> <| ld_report := setState state report |>, isOk status).

(** A retired channel whose rows are only counted, in place [index]. *)
Definition countRows (enabled : bool) (manifestPath : list Z) (declared : Z) (index : nat)
  (channel : string) (setState : ChannelLoadState.t -> LoadReport -> LoadReport) : Step := fun st =>
  let path := enabledPath enabled sessionDir manifestPath in
  let '(status, rows, state, report) :=
    countOmittedArtifact (fileAt fs path) (fileName path) declared enabled (named channel) (ld_report st) in
  (st <| ld_out ::= fun out => out <| sc_omittedArtifactRows ::= <[index := rows]> |> |>
      <| ld_report := setState state report |>, isOk status).

Definition rowAccepted {R} (result : Status * option R) : bool := isOk result.1.

Definition loadTrades : Step := fun st => let m := sc_manifest (ld_out st) in
  loadLines (fun line => rowAccepted (parseTradeLine line)) (sm_tradesEnabled m)
    (sm_tradesRequiredWhenEnabled m) (sm_tradesPath m) "trades" (put sc_tradeLines) (put lr_tradesState) st.
Definition loadBookTicker : Step := fun st => let m := sc_manifest (ld_out st) in
  loadLines (fun line => rowAccepted (parseBookTickerLine line)) (sm_bookTickerEnabled m)
    (sm_bookTickerRequiredWhenEnabled m) (sm_bookTickerPath m) "bookticker" (put sc_bookTickerLines)
    (put lr_bookTickerState) st.
Definition countLiquidations : Step := fun st => let m := sc_manifest (ld_out st) in
  countRows (sm_liquidationsEnabled m) (sm_liquidationsPath m) (sm_liquidationsCount m) 0 "liquidations"
    (put lr_liquidationsState) st.
Definition countMarkPrice : Step := fun st => let m := sc_manifest (ld_out st) in
  countRows (sm_markPriceEnabled m) (sm_markPricePath m) (sm_markPriceCount m) 1 "mark_price"
    (put lr_markPriceState) st.
Definition countIndexPrice : Step := fun st => let m := sc_manifest (ld_out st) in
  countRows (sm_indexPriceEnabled m) (sm_indexPricePath m) (sm_indexPriceCount m) 2 "index_price"
    (put lr_indexPriceState) st.
Definition countFunding : Step := fun st => let m := sc_manifest (ld_out st) in
  countRows (sm_fundingEnabled m) (sm_fundingPath m) (sm_fundingCount m) 3 "funding" (put lr_fundingState) st.
Definition countPriceLimit : Step := fun st => let m := sc_manifest (ld_out st) in
  countRows (sm_priceLimitEnabled m) (sm_priceLimitPath m) (sm_priceLimitCount m) 4 "price_limit"
    (put lr_priceLimitState) st.
Definition loadCandles : Step := fun st => let m := sc_manifest (ld_out st) in
  if negb (isFinam m)
  then countRows (sm_candlesEnabled m) (sm_candlesPath m) (sm_candlesCount m) 5 "candles" (put lr_candlesState) st
  else loadLines (fun line => rowAccepted (parseFinamArchiveCandle line)) (sm_candlesEnabled m)
         (sm_candlesRequiredWhenEnabled m) (sm_candlesPath m) "candles" (put sc_candleLines) (put lr_candlesState) st.
(** The state of [candles2] is local to the source and dropped. *)
Definition loadCandles2 : Step := fun st => let m := sc_manifest (ld_out st) in
  if negb (isFinam m)
  then countRows (sm_candles2Enabled m) (sm_candles2Path m) (sm_candles2Count m) 6 "candles2" (fun _ r => r) st
  else loadLines (fun line => rowAccepted (parseFinamArchiveCandle line)) (sm_candles2Enabled m)
         (sm_candles2RequiredWhenEnabled m) (sm_candles2Path m) "candles2" (put sc_candle2Lines) (fun _ r => r) st.

Definition loadDepth : Step := fun st => let m := sc_manifest (ld_out st) in
  if negb (sm_orderbookEnabled m)
  then (st <| ld_report ::= put lr_depthState ChannelLoadState.NotCaptured |>, true)
  else
    let '(status, rows, state, report) :=
      loadDepthTapeSidecarLines (fileAt fs (declaredChannelPath sessionDir (sm_depthPath m)))
        (fileAt fs (declaredChannelPath sessionDir (sm_depthSidecarPath m)))
        (lr_manifestPresent (ld_report st) && (sm_orderbookEnabled m && sm_orderbookRequiredWhenEnabled m))
        (ld_report st) in
    (st <| ld_out ::= fun out =>
            out <| sc_depthRows := (fun row => row.1.1) <$> rows |>
                <| sc_depthTapeLines := (fun row => row.1.2) <$> rows |>
                <| sc_depthSidecarLines := (fun row => row.2) <$> rows |> |>
        <| ld_report := put lr_depthState state report |>, isOk status).

Definition requireDeclaredCount (enabled : bool) (declared actual : Z) (channel : string) : Step := fun st =>
  if negb enabled || (declared =? actual) then (st, true)
  else failWith LoadIssueCode.InvalidManifest CorruptData (named channel) (named "manifest.json")
         "finalized manifest declared_event_count does not match the captured artifact" st.
Definition omittedRows (index : nat) (out : SessionCorpus) : Z := default 0 (sc_omittedArtifactRows out !! index).
Definition lineCount (lines : list (list Z)) : Z := Z.of_nat (length lines).
Definition candleCount (out : SessionCorpus) : Z :=
  if isFinam (sc_manifest out) then lineCount (sc_candleLines out) else omittedRows 5 out.
Definition candle2Count (out : SessionCorpus) : Z :=
  if isFinam (sc_manifest out) then lineCount (sc_candle2Lines out) else omittedRows 6 out.

Definition requireDeclaredCounts : Step := fun st =>
  let out := ld_out st in
  let m := sc_manifest out in
  if negb (finalizedSession (sm_sessionStatus m)) then (st, true)
  else
    (requireDeclaredCount (sm_tradesEnabled m) (sm_tradesCount m) (lineCount (sc_tradeLines out)) "trades" ;;
     requireDeclaredCount (sm_liquidationsEnabled m) (sm_liquidationsCount m) (omittedRows 0 out) "liquidations" ;;
     requireDeclaredCount (sm_bookTickerEnabled m) (sm_bookTickerCount m)
       (lineCount (sc_bookTickerLines out)) "bookticker" ;;
     requireDeclaredCount (sm_markPriceEnabled m) (sm_markPriceCount m) (omittedRows 1 out) "mark_price" ;;
     requireDeclaredCount (sm_indexPriceEnabled m) (sm_indexPriceCount m) (omittedRows 2 out) "index_price" ;;
     requireDeclaredCount (sm_fundingEnabled m) (sm_fundingCount m) (omittedRows 3 out) "funding" ;;
     requireDeclaredCount (sm_priceLimitEnabled m) (sm_priceLimitCount m) (omittedRows 4 out) "price_limit" ;;
     requireDeclaredCount (sm_candlesEnabled m) (sm_candlesCount m) (candleCount out) "candles" ;;
     requireDeclaredCount (sm_candles2Enabled m) (sm_candles2Count m) (candle2Count out) "candles2" ;;
     requireDeclaredCount (sm_orderbookEnabled m) (sm_depthCount m)
       (Z.of_nat (length (sc_depthRows out))) "depth")%step st.

(** [readWholeFileOptional]: an absent file is an empty document, [None] is a failure. *)
Definition readWholeFileOptional (file : FileView) : option (list Z) :=
  if file is NoFile then Some [] else opened file.

Definition loadInstrumentMetadata : Step := fun st =>
  let st := st <| ld_report ::= put lr_snapshotState ChannelLoadState.NotCaptured |> in
  let path := sm_instrumentMetadataPath (sc_manifest (ld_out st)) in
  if negb (lr_manifestPresent (ld_report st)) then (st, true)
  else
    match readWholeFileOptional (sessionFile path) with
    | None => failWith LoadIssueCode.UnreadableArtifact IoError (named "instrument_metadata") path
                "failed to open instrument metadata sidecar" st
    | Some document =>
        let st := st <| ld_out ::= put sc_instrumentMetadataDocument document |> in
        if isEmpty document then (st, true)
        else match parseInstrumentMetadataJson document with
             | (Ok, Some metadata) => (st <| ld_out ::= put sc_instrumentMetadata (Some metadata) |>, true)
             | _ => failWith LoadIssueCode.InvalidJsonDocument CorruptData (named "instrument_metadata") path
                      "instrument metadata sidecar is malformed" st
             end
    end.

(** One support document of a finalized session. *)
Definition readSupport (path : SessionManifest -> list Z) (set : list Z -> SessionCorpus -> SessionCorpus)
  : Step := fun st =>
  match readWholeFileOptional (sessionFile (path (sc_manifest (ld_out st)))) with
  | Some document => (st <| ld_out ::= set document |>, true)
  | None => failWith LoadIssueCode.UnreadableArtifact IoError (named "support_artifacts") (named "reports/*")
              "failed to open one or more support artifacts" st
  end.
(** Of a session that still records, what cannot be read is left out. *)
Definition trySupport (path : SessionManifest -> list Z) (set : list Z -> SessionCorpus -> SessionCorpus)
  : Step := fun st =>
  match readWholeFileOptional (sessionFile (path (sc_manifest (ld_out st)))) with
  | Some document => (st <| ld_out ::= set document |>, true)
  | None => (st, true)
  end.
Definition loadSupport : Step := fun st =>
  if negb (lr_manifestPresent (ld_report st)) then (st, true)
  else
    let read := if finalizedSession (sm_sessionStatus (sc_manifest (ld_out st))) then readSupport else trySupport in
    (read sm_sessionAuditPath (put sc_sessionAuditDocument) ;;
     read sm_integrityReportPath (put sc_integrityReportDocument) ;;
     read sm_loaderDiagnosticPath (put sc_loaderDiagnosticDocument))%step st.

Definition reportBlockers : Step := fun st =>
  let m := sc_manifest (ld_out st) in
  if lr_manifestPresent (ld_report st) && negb (sm_structurallyLoadable m)
  then (st <| ld_report ::= fun report =>
          fold_left (fun report blocker =>
            addIssue LoadIssueCode.MissingRequiredArtifact LoadIssueSeverity.Fatal CorruptData
              (named "manifest") (named "manifest.json") 0 blocker report)
            (sm_structuralBlockers m) report |>, false)
  else (st, true).

Definition currentSources (out : SessionCorpus) : list (list Z * SourceArtifactInfo) :=
  let m := sc_manifest out in
  let source (path : list Z) (rows : Z) := MkSourceArtifactInfo (fileSizeOrZero (sessionFile path)) rows in
  let depth := Z.of_nat (length (sc_depthRows out)) in
  [(named "trades.jsonl", source (sm_tradesPath m) (lineCount (sc_tradeLines out)));
   (named "liquidations.jsonl", source (sm_liquidationsPath m) (omittedRows 0 out));
   (named "bookticker.jsonl", source (sm_bookTickerPath m) (lineCount (sc_bookTickerLines out)));
   (named "mark_price.jsonl", source (sm_markPricePath m) (omittedRows 1 out));
   (named "index_price.jsonl", source (sm_indexPricePath m) (omittedRows 2 out));
   (named "funding.jsonl", source (sm_fundingPath m) (omittedRows 3 out));
   (named "price_limit.jsonl", source (sm_priceLimitPath m) (omittedRows 4 out));
   (named "candles.jsonl", source (sm_candlesPath m) (candleCount out));
   (named "candles2.jsonl", source (sm_candles2Path m) (candle2Count out));
   (named "depth_tape.jsonl", source (sm_depthPath m) depth);
   (named "depth_sidecar.jsonl", source (sm_depthSidecarPath m) depth)].

(** A source of the index that no longer matches its artifact; the order in which the map
    is walked does not matter. *)
Definition staleSource (current : list (list Z * SourceArtifactInfo)) (source : list Z * SourceArtifactInfo)
  : bool :=
  match List.find (fun entry => bool_decide (entry.1 = source.1)) current with
  | Some entry => negb (bool_decide (entry.2 = source.2))
  | None => false
  end.

Definition bindSeekIndex (st : Loading) : Loading :=
  let onReport change := st <| ld_report ::= change |> in
  let fail code status (detail : string) :=
    onReport (fun r => addIssue code LoadIssueSeverity.Fatal status (named "seek_index") (named "seek_index.json") 0
      (bytes_of_string detail) (r <| lr_seekIndexState := ChannelLoadState.Corrupt |>)) in
  match sessionFile (named "seek_index.json") with
  | NoFile => onReport (put lr_seekIndexState ChannelLoadState.Missing)
  | file =>
      match opened file with
      | None => fail LoadIssueCode.UnreadableArtifact IoError "failed to open seek index sidecar"
      | Some document =>
          match parseSeekIndexDocument document with
          | None => fail LoadIssueCode.InvalidSeekIndex CorruptData "seek index JSON is malformed"
          | Some (sources, buckets) =>
              if existsb (staleSource (currentSources (ld_out st))) sources
              then onReport (fun r =>
                     addIssue LoadIssueCode.StaleSeekIndex LoadIssueSeverity.Degraded Ok (named "seek_index")
                       (named "seek_index.json") 0
                       (bytes_of_string "seek index does not match canonical artifacts and was ignored")
                       (r <| lr_seekIndexState := ChannelLoadState.Degraded |> <| lr_staleSeekIndex := true |>))
              else onReport (fun r =>
                     r <| lr_seekIndexState := ChannelLoadState.Clean |>
                       <| lr_usedSeekIndex := nonEmpty buckets |> <| lr_seekBuckets := buckets |>)
          end
      end
  end.

Definition loadSteps : Step :=
  (checkDirectory ;; loadManifest ;; loadTrades ;; countLiquidations ;; loadBookTicker ;; countMarkPrice ;;
   countIndexPrice ;; countFunding ;; countPriceLimit ;; loadCandles ;; loadCandles2 ;; loadDepth ;;
   requireDeclaredCounts ;; loadInstrumentMetadata ;; loadSupport ;; reportBlockers ;;
   fun st => (bindSeekIndex st, true))%step.

(** Every way out stores the report and returns its status. *)
Definition loadDetailed : Status * SessionCorpus * LoadReport :=
  let st := (loadSteps (MkLoading newCorpus newReport)).1 in
  (lr_finalStatus (ld_report st), ld_out st <| sc_report := ld_report st |>, ld_report st).

End load.
