(* ===== verification/LoaderRun.v ===== *)
(** * LoaderRun: the report of a load

    The status of a load is success exactly when its report has no fatal issue, and a load
    that stopped before its end has one. *)
From stdpp Require Import base list numbers strings.
From S2P Require Import Prelude Codec Json JsonObject Integrity SessionManifest Instrument Rows Loader.
Local Open Scope Z_scope.

Definition fatal (issue : LoadIssue) : Prop := li_severity issue = LoadIssueSeverity.Fatal.
#[export] Instance fatal_dec issue : Decision (fatal issue).
Proof. unfold fatal. apply _. Defined.
Definition fails (status : Status) : Prop := status <> Ok /\ status <> Unknown.

(** A report whose status follows from its issues. *)
Record sound (report : LoadReport) : Prop := {
  sn_hints : Forall (fun issue => fatal issue -> fails (li_statusHint issue)) (lr_issues report);
  sn_status : lr_finalStatus report = Ok /\ Forall (fun issue => ~ fatal issue) (lr_issues report) \/
              fails (lr_finalStatus report) /\ Exists fatal (lr_issues report);
}.

(** The loop of [recomputeLoadReport] from a status. *)
Lemma recompute_status issues : forall status state, Forall (fun issue => fatal issue -> fails (li_statusHint issue)) issues ->
  status <> Unknown ->
  (status = Ok /\ Forall (fun issue => ~ fatal issue) issues /\ (fold_left recomputeStep issues (status, state)).1 = Ok) \/
  ((status <> Ok \/ Exists fatal issues) /\ fails (fold_left recomputeStep issues (status, state)).1).
Proof.
  induction issues as [|issue issues IH]; intros status state Hh Hu; cbn [fold_left].
  - destruct (decide (status = Ok)) as [->|Hne]; [by left|right]. split; [by left|done].
  - apply Forall_cons in Hh as [Hi Hh]. unfold recomputeStep at 2 4. destruct (decide (fatal issue)) as [Hf|Hf].
    + rewrite bool_decide_eq_true_2 by exact Hf. destruct (Hi Hf) as [Hok Hunk].
      rewrite (bool_decide_eq_false_2 (li_statusHint issue = Unknown)) by done.
      rewrite (bool_decide_eq_false_2 (status = Unknown)) by done. rewrite orb_false_r.
      assert (exists next, (if bool_decide (status = Ok) then li_statusHint issue else status) = next /\ fails next) as (next & -> & Hn).
      { case_bool_decide; (eexists; split; [reflexivity|]); by split. }
      destruct (IH next SessionLoadState.Corrupt Hh (proj2 Hn)) as [(-> & _)|[_ Hr]]; [by destruct Hn|].
      right. split; [right; by left|done].
    + rewrite bool_decide_eq_false_2 by exact Hf.
      match goal with |- context [fold_left recomputeStep issues (if ?c then (status, ?a) else (status, ?b))] =>
        assert (exists state', (if c then (status, a) else (status, b)) = (status, state')) as [state' ->] by (destruct c; by eexists) end.
      destruct (IH status state' Hh Hu) as [(E & Hno & Hr)|[He Hr]]; [left; split_and!; [done|by constructor|done]|right].
      split; [destruct He as [He|He]; [by left|right; by right]|done].
Qed.

Lemma recompute_sound report : Forall (fun issue => fatal issue -> fails (li_statusHint issue)) (lr_issues report) ->
  sound (recomputeLoadReport report).
Proof.
  intros Hh. unfold recomputeLoadReport. pose proof (recompute_status (lr_issues report) Ok SessionLoadState.Clean Hh ltac:(done)) as Hr.
  destruct (fold_left recomputeStep (lr_issues report) (Ok, SessionLoadState.Clean)) as [final state]. cbn [fst] in Hr.
  split; cbn [lr_issues lr_finalStatus upd]; [done|].
  destruct Hr as [(_ & Hno & ->)|[[He|He] Hf]]; [by left|done|right]. rewrite bool_decide_eq_false_2 by apply Hf. done.
Qed.

Lemma addIssue_sound code severity hint channel artifact line detail report : sound report ->
  (severity = LoadIssueSeverity.Fatal -> fails hint) ->
  sound (addIssue code severity hint channel artifact line detail report).
Proof.
  intros [Hh _] Hf. unfold addIssue, appendLoadIssue. apply recompute_sound. cbn [lr_issues upd].
  apply Forall_app. split; [done|]. apply Forall_cons_2; [exact Hf|apply Forall_nil_2].
Qed.
Lemma addIssue_fatal code hint channel artifact line detail report :
  Exists fatal (lr_issues (addIssue code LoadIssueSeverity.Fatal hint channel artifact line detail report)).
Proof.
  unfold addIssue, appendLoadIssue, recomputeLoadReport.
  destruct (fold_left _ _ _) as [final state]. cbn [lr_issues upd]. apply Exists_app. right. by left.
Qed.
(** Fields other than the issues and the status do not matter. *)
Lemma sound_same report report' : lr_issues report' = lr_issues report -> lr_finalStatus report' = lr_finalStatus report ->
  sound report -> sound report'.
Proof. intros E1 E2 [Hh Hs]. split; by rewrite ?E1, ?E2. Qed.

Create HintDb loads.
Lemma fails_corrupt : fails CorruptData.
Proof. done. Qed.
Lemma fails_io : fails IoError.
Proof. done. Qed.
Lemma fails_argument : fails InvalidArgument.
Proof. done. Qed.
#[export] Hint Resolve fails_corrupt fails_io fails_argument addIssue_sound addIssue_fatal : loads.

(** A step keeps the report sound, and has a fatal issue when it ends the load. *)
Definition closes (step : Step) : Prop := forall st, sound (ld_report st) ->
  sound (ld_report (step st).1) /\ ((step st).2 = false -> Exists fatal (lr_issues (ld_report (step st).1))).

Lemma andThen_closes a b : closes a -> closes b -> closes (andThen a b).
Proof.
  intros Ha Hb st Hst. unfold andThen. destruct (Ha st Hst) as [Hs Hf]. destruct (a st) as [st' ok]. cbn [fst snd] in *.
  destruct ok; [by apply Hb|]. split; [done|]. intros _. by apply Hf.
Qed.

(** The outcome of one run. *)
Definition closed (result : Loading * bool) : Prop :=
  sound (ld_report result.1) /\ (result.2 = false -> Exists fatal (lr_issues (ld_report result.1))).
Lemma andThen_closed a b st : closed (a st) -> (forall st', a st = (st', true) -> sound (ld_report st') -> closed (b st')) ->
  closed (andThen a b st).
Proof.
  intros [Hs Hf] Hb. unfold andThen. destruct (a st) as [st' ok]. destruct ok; [by apply Hb|]. split; [done|].
  intros _. by apply Hf.
Qed.

Lemma failWith_closes code status channel artifact detail st : fails status -> sound (ld_report st) ->
  let result := failWith code status channel artifact detail st in
  sound (ld_report result.1) /\ (result.2 = false -> Exists fatal (lr_issues (ld_report result.1))).
Proof. intros Hf Hs. cbn. split; [by apply addIssue_sound|]. intros _. apply addIssue_fatal. Qed.

Lemma loadJsonLines_closes accepts file channel artifact required report : sound report ->
  let '(status, _, _, report') := loadJsonLines accepts file channel artifact required report in
  sound report' /\ (isOk status = false -> Exists fatal (lr_issues report')).
Proof.
  intros Hs. unfold loadJsonLines. destruct file as [|readable text]; [destruct required|destruct readable; cbn [negb]].
  - split; [auto with loads|]. intros _. apply addIssue_fatal.
  - done.
  - destruct (jsonLineLoop accepts 0 (linesOf text)) as [out [line|]]; [|done].
    split; [auto with loads|]. intros _. apply addIssue_fatal.
  - split; [auto with loads|]. intros _. apply addIssue_fatal.
Qed.

Lemma countOmitted_closes file name declared enabled channel report : sound report ->
  let '(status, _, _, report') := countOmittedArtifact file name declared enabled channel report in
  sound report' /\ (isOk status = false -> Exists fatal (lr_issues report')).
Proof.
  intros Hs. unfold countOmittedArtifact. destruct enabled; cbn [negb]; [|done].
  destruct (opened file) as [text|]; [|split; [auto with loads|]; intros _; apply addIssue_fatal].
  destruct (countLoop 0 (linesOf text)) as [rows rejected]. destruct rejected; [split; [auto with loads|]; intros _; apply addIssue_fatal|].
  destruct (rows =? declared); cbn [negb]; [done|]. split; [auto with loads|]. intros _. apply addIssue_fatal.
Qed.

Lemma loadDepthLines_closes tape sidecar required report : sound report ->
  let '(status, _, _, report') := loadDepthTapeSidecarLines tape sidecar required report in
  sound report' /\ (isOk status = false -> Exists fatal (lr_issues report')).
Proof.
  intros Hs. unfold loadDepthTapeSidecarLines. destruct (negb (fileExists tape) && negb (fileExists sidecar)).
  { destruct required; [|done]. split; [auto with loads|]. intros _. apply addIssue_fatal. }
  destruct (negb (fileExists tape) || negb (fileExists sidecar)); [split; [auto with loads|]; intros _; apply addIssue_fatal|].
  destruct (opened tape) as [t|]; [destruct (opened sidecar) as [s|]|];
    [|split; [auto with loads|]; intros _; apply addIssue_fatal..].
  destruct (depthLineLoop 0 (linesOf t) (linesOf s)) as [out [[line|line]|]]; [..|done];
    (split; [auto with loads|]; intros _; apply addIssue_fatal).
Qed.

Section steps.
Context (fs : FileSystem) (dir : list Z).

Lemma loadLines_closes accepts enabled required path channel keep setState :
  (forall state report, lr_issues (setState state report) = lr_issues report /\
     lr_finalStatus (setState state report) = lr_finalStatus report) ->
  closes (loadLines fs dir accepts enabled required path channel keep setState).
Proof.
  intros Hk st Hs. unfold loadLines. cbv zeta.
  match goal with |- context [loadJsonLines ?a ?f ?c ?n ?r ?rep] =>
    pose proof (loadJsonLines_closes a f c n r rep Hs) as H; destruct (loadJsonLines a f c n r rep) as [[[status lines] state] report] end.
  destruct H as [H1 H2]. cbn [fst snd ld_report upd]. destruct (Hk state report) as [E1 E2]. split.
  - by apply (sound_same report).
  - rewrite E1. exact H2.
Qed.
Lemma countRows_closes enabled path declared index channel setState :
  (forall state report, lr_issues (setState state report) = lr_issues report /\
     lr_finalStatus (setState state report) = lr_finalStatus report) ->
  closes (countRows fs dir enabled path declared index channel setState).
Proof.
  intros Hk st Hs. unfold countRows. cbv zeta.
  match goal with |- context [countOmittedArtifact ?a ?f ?c ?n ?r ?rep] =>
    pose proof (countOmitted_closes a f c n r rep Hs) as H; destruct (countOmittedArtifact a f c n r rep) as [[[status rows] state] report] end.
  destruct H as [H1 H2]. cbn [fst snd ld_report upd]. destruct (Hk state report) as [E1 E2]. split.
  - by apply (sound_same report).
  - rewrite E1. exact H2.
Qed.

Lemma checkDirectory_closes : closes (checkDirectory fs dir).
Proof. intros st Hs. unfold checkDirectory. destruct (negb _); [apply failWith_closes; [done|exact Hs]|done]. Qed.

Lemma loadManifest_closes : closes (loadManifest fs dir).
Proof.
  intros st Hs. unfold loadManifest. cbv zeta.
  assert (forall change, (forall report, lr_issues (change report) = lr_issues report /\ lr_finalStatus (change report) = lr_finalStatus report) ->
    sound (change (ld_report st))) as Hk.
  { intros change Hc. destruct (Hc (ld_report st)). by apply (sound_same (ld_report st)). }
  destruct (sessionFile fs dir (named "manifest.json")) as [|readable text].
  { apply failWith_closes; [done|]. by apply (Hk (fun r => r <| lr_manifestState := ChannelLoadState.Corrupt |>)). }
  cbn [opened]. destruct readable; [|apply failWith_closes; [done|]; by apply (Hk (fun r => r <| lr_manifestState := ChannelLoadState.Corrupt |>))].
  destruct (parseManifestJson text) as [status [m|]]; [destruct status|destruct status];
    try (apply failWith_closes; [done|]; by apply (Hk (fun r => r <| lr_manifestState := ChannelLoadState.Corrupt |> <| lr_manifestPresent := true |>))).
  destruct (_ && _).
  - apply failWith_closes; [done|]. by apply (Hk (fun r => r <| lr_manifestState := ChannelLoadState.Corrupt |> <| lr_manifestPresent := true |>)).
  - split; [|done]. by apply (Hk (fun r => r <| lr_manifestPresent := true |> <| lr_manifestState := ChannelLoadState.Clean |>)).
Qed.

Lemma loadDepth_closes : closes (loadDepth fs dir).
Proof.
  intros st Hs. unfold loadDepth. cbv zeta. destruct (negb _).
  { split; [|done]. by apply (sound_same (ld_report st)). }
  match goal with |- context [loadDepthTapeSidecarLines ?a ?f ?c ?rep] =>
    pose proof (loadDepthLines_closes a f c rep Hs) as H; destruct (loadDepthTapeSidecarLines a f c rep) as [[[status rows] state] report] end.
  destruct H as [H1 H2]. split; [by apply (sound_same report)|exact H2].
Qed.

Lemma requireDeclared_closes enabled declared actual channel : closes (requireDeclaredCount enabled declared actual channel).
Proof. intros st Hs. unfold requireDeclaredCount. destruct (_ || _); [done|]. by apply failWith_closes. Qed.

Lemma requireCounts_closes : closes requireDeclaredCounts.
Proof.
  intros st Hs. unfold requireDeclaredCounts. cbv zeta. destruct (negb _); [done|]. revert Hs.
  match goal with |- _ -> sound (ld_report (?step st).1) /\ _ => assert (closes step) as H; [|exact (H st)] end.
  repeat apply andThen_closes; apply requireDeclared_closes.
Qed.

Lemma metadata_closes : closes (loadInstrumentMetadata fs dir).
Proof.
  intros st Hs. unfold loadInstrumentMetadata. cbv zeta.
  assert (sound (put lr_snapshotState ChannelLoadState.NotCaptured (ld_report st))) as Hs' by (by apply (sound_same (ld_report st))).
  destruct (negb _); [done|]. destruct (readWholeFileOptional _) as [document|]; [|by apply failWith_closes].
  destruct (isEmpty document); [done|]. destruct (parseInstrumentMetadataJson document) as [[] [metadata|]];
    try (by apply failWith_closes). done.
Qed.

Lemma readSupport_closes path set : closes (readSupport fs dir path set).
Proof. intros st Hs. unfold readSupport. destruct (readWholeFileOptional _); [done|by apply failWith_closes]. Qed.
Lemma trySupport_closes path set : closes (trySupport fs dir path set).
Proof. intros st Hs. unfold trySupport. by destruct (readWholeFileOptional _). Qed.
Lemma loadSupport_closes : closes (loadSupport fs dir).
Proof.
  intros st Hs. unfold loadSupport. destruct (negb _); [done|]. cbv zeta. revert Hs.
  match goal with |- _ -> sound (ld_report (?step st).1) /\ _ => assert (closes step) as H; [|exact (H st)] end.
  destruct (finalizedSession _); repeat apply andThen_closes; apply readSupport_closes || apply trySupport_closes.
Qed.

(** Blockers are reported one by one; a manifest that is not loadable has at least one. *)
Definition blocked (m : SessionManifest) : Prop := sm_structurallyLoadable m = negb (nonEmpty (sm_structuralBlockers m)).

Lemma blockers_sound blockers : forall report, sound report ->
  sound (fold_left (fun report blocker => addIssue LoadIssueCode.MissingRequiredArtifact LoadIssueSeverity.Fatal CorruptData
    (named "manifest") (named "manifest.json") 0 blocker report) blockers report).
Proof. induction blockers as [|b blockers IH]; intros report Hs; [done|]. cbn [fold_left]. apply IH. auto with loads. Qed.

Lemma addIssue_keeps code severity hint channel artifact line detail report : Exists fatal (lr_issues report) ->
  Exists fatal (lr_issues (addIssue code severity hint channel artifact line detail report)).
Proof.
  intros He. unfold addIssue, appendLoadIssue, recomputeLoadReport. destruct (fold_left _ _ _). cbn [lr_issues upd].
  apply Exists_app. by left.
Qed.
Lemma blockers_fatal blockers : forall report, (blockers <> [] \/ Exists fatal (lr_issues report)) ->
  Exists fatal (lr_issues (fold_left (fun report blocker => addIssue LoadIssueCode.MissingRequiredArtifact LoadIssueSeverity.Fatal CorruptData
    (named "manifest") (named "manifest.json") 0 blocker report) blockers report)).
Proof.
  induction blockers as [|b blockers IH]; intros report [Hne|He]; [done|done|..]; cbn [fold_left]; apply IH; right;
    [apply addIssue_fatal|by apply addIssue_keeps].
Qed.

(** ** The manifest stays *)

Definition kept (st st' : Loading) : Prop :=
  lr_manifestPresent (ld_report st') = lr_manifestPresent (ld_report st) /\ sc_manifest (ld_out st') = sc_manifest (ld_out st).
Definition keeps (step : Step) : Prop := forall st, kept st (step st).1.

Lemma andThen_keeps a b : keeps a -> keeps b -> keeps (andThen a b).
Proof.
  intros Ha Hb st. unfold andThen. specialize (Ha st). destruct (a st) as [st' ok]. destruct ok; [|done].
  destruct Ha as [A1 A2], (Hb st') as [B1 B2]. split; [by rewrite B1|by rewrite B2].
Qed.
Lemma addIssue_present code severity hint channel artifact line detail report :
  lr_manifestPresent (addIssue code severity hint channel artifact line detail report) = lr_manifestPresent report.
Proof. unfold addIssue, appendLoadIssue, recomputeLoadReport. by destruct (fold_left _ _ _). Qed.
Lemma failWith_keeps code status channel artifact detail st : kept st (failWith code status channel artifact detail st).1.
Proof. split; [apply addIssue_present|done]. Qed.

Lemma loadLines_keeps accepts enabled required path channel keep setState :
  (forall state report, lr_manifestPresent (setState state report) = lr_manifestPresent report) ->
  (forall lines out, sc_manifest (keep lines out) = sc_manifest out) ->
  keeps (loadLines fs dir accepts enabled required path channel keep setState).
Proof.
  intros Hk Hm st. unfold loadLines. cbv zeta.
  match goal with |- context [loadJsonLines ?a ?f ?c ?n ?r ?rep] =>
    assert (lr_manifestPresent (loadJsonLines a f c n r rep).2 = lr_manifestPresent rep) as H;
      [|destruct (loadJsonLines a f c n r rep) as [[[status lines] state] report]] end.
  { unfold loadJsonLines. destruct (fileAt _ _) as [|[] text]; [destruct (_ && _)|cbn [negb]; destruct (jsonLineLoop _ _ _) as [? []]|];
      cbn [snd negb]; rewrite ?addIssue_present; done. }
  cbn [snd] in H. split; cbn [fst ld_report ld_out upd]; [by rewrite Hk|apply Hm].
Qed.
Lemma countRows_keeps enabled path declared index channel setState :
  (forall state report, lr_manifestPresent (setState state report) = lr_manifestPresent report) ->
  keeps (countRows fs dir enabled path declared index channel setState).
Proof.
  intros Hk st. unfold countRows. cbv zeta.
  match goal with |- context [countOmittedArtifact ?a ?f ?c ?n ?r ?rep] =>
    assert (lr_manifestPresent (countOmittedArtifact a f c n r rep).2 = lr_manifestPresent rep) as H;
      [|destruct (countOmittedArtifact a f c n r rep) as [[[status rows] state] report]] end.
  { unfold countOmittedArtifact. destruct (negb enabled); [done|]. destruct (opened _); [|cbn [snd]; by rewrite addIssue_present].
    destruct (countLoop _ _) as [rows []]; [|destruct (negb _)]; cbn [snd]; rewrite ?addIssue_present; done. }
  cbn [snd] in H. split; cbn [fst ld_report ld_out upd]; [by rewrite Hk|done].
Qed.
Lemma loadDepth_keeps : keeps (loadDepth fs dir).
Proof.
  intros st. unfold loadDepth. cbv zeta. destruct (negb _); [done|].
  match goal with |- context [loadDepthTapeSidecarLines ?a ?f ?c ?rep] =>
    assert (lr_manifestPresent (loadDepthTapeSidecarLines a f c rep).2 = lr_manifestPresent rep) as H;
      [|destruct (loadDepthTapeSidecarLines a f c rep) as [[[status rows] state] report]] end.
  { unfold loadDepthTapeSidecarLines. destruct (_ && _); [destruct (_ && _)|destruct (_ || _)]; cbn [snd]; rewrite ?addIssue_present; try done.
    destruct (opened _); [destruct (opened _)|]; cbn [snd]; rewrite ?addIssue_present; try done.
    destruct (depthLineLoop _ _ _) as [out [[]|]]; cbn [snd]; rewrite ?addIssue_present; done. }
  cbn [snd] in H. split; [exact H|done].
Qed.
Lemma requireDeclared_keeps enabled declared actual channel : keeps (requireDeclaredCount enabled declared actual channel).
Proof. intros st. unfold requireDeclaredCount. destruct (_ || _); [done|apply failWith_keeps]. Qed.
Lemma requireCounts_keeps : keeps requireDeclaredCounts.
Proof.
  intros st. unfold requireDeclaredCounts. cbv zeta. destruct (negb _); [done|].
  match goal with |- kept st (?step st).1 => assert (keeps step) as H; [|exact (H st)] end.
  repeat apply andThen_keeps; apply requireDeclared_keeps.
Qed.
Lemma metadata_keeps : keeps (loadInstrumentMetadata fs dir).
Proof.
  intros st. unfold loadInstrumentMetadata. cbv zeta. destruct (negb _); [done|].
  destruct (readWholeFileOptional _) as [document|]; [|split; [exact (addIssue_present _ _ _ _ _ _ _ _)|done]].
  destruct (isEmpty document); [done|]. destruct (parseInstrumentMetadataJson document) as [[] [metadata|]];
    try (split; [exact (addIssue_present _ _ _ _ _ _ _ _)|done]). done.
Qed.
Lemma loadSupport_keeps : keeps (loadSupport fs dir).
Proof.
  intros st. unfold loadSupport. destruct (negb _); [done|]. cbv zeta.
  match goal with |- kept st (?step st).1 => assert (keeps step) as H; [|exact (H st)] end.
  destruct (finalizedSession _); repeat apply andThen_keeps; intros st'; unfold readSupport, trySupport;
    (destruct (readWholeFileOptional _); [done|apply failWith_keeps || done]).
Qed.

(** ** The whole load *)

(** The steps between the manifest and the blockers. *)
Definition channelSteps : Step :=
  (loadTrades fs dir ;; countLiquidations fs dir ;; loadBookTicker fs dir ;; countMarkPrice fs dir ;;
   countIndexPrice fs dir ;; countFunding fs dir ;; countPriceLimit fs dir ;; loadCandles fs dir ;; loadCandles2 fs dir ;;
   loadDepth fs dir ;; requireDeclaredCounts ;; loadInstrumentMetadata fs dir ;; loadSupport fs dir)%step.

Lemma channelSteps_closes : closes channelSteps.
Proof.
  unfold channelSteps. repeat apply andThen_closes;
    first [exact loadDepth_closes | exact requireCounts_closes | exact metadata_closes | exact loadSupport_closes |
      intros st; apply loadLines_closes; done | intros st; apply countRows_closes; done |
      intros st; unfold loadCandles, loadCandles2; cbv zeta; destruct (negb _);
        [apply countRows_closes; done|apply loadLines_closes; done]].
Qed.
Lemma channelSteps_keeps : keeps channelSteps.
Proof.
  unfold channelSteps. repeat apply andThen_keeps;
    first [exact loadDepth_keeps | exact requireCounts_keeps | exact metadata_keeps | exact loadSupport_keeps |
      intros st; apply loadLines_keeps; done | intros st; apply countRows_keeps; done |
      intros st; unfold loadCandles, loadCandles2; cbv zeta; destruct (negb _);
        [apply countRows_keeps; done|apply loadLines_keeps; done]].
Qed.

Lemma andThen_assoc a b c st : andThen a (andThen b c) st = andThen (andThen a b) c st.
Proof. unfold andThen. destruct (a st) as [st' []]; [|done]. by destruct (b st'). Qed.

Lemma loadSteps_shape st : loadSteps fs dir st =
  andThen (checkDirectory fs dir) (andThen (loadManifest fs dir)
    (andThen channelSteps (andThen reportBlockers (fun st => (bindSeekIndex fs dir st, true))))) st.
Proof.
  unfold loadSteps, channelSteps. unfold andThen. destruct (checkDirectory fs dir st) as [st1 []]; [|done].
  destruct (loadManifest fs dir st1) as [st2 []]; [|done].
  repeat match goal with |- context [let '(st, ok) := ?step ?s in if ok then _ else (st, false)] =>
    is_var s; let s' := fresh "s" in let ok := fresh "ok" in destruct (step s) as [s' ok]; destruct ok; [|reflexivity] end.
  reflexivity.
Qed.

Lemma parsed_blocked document m : parseManifestJson document = (Ok, Some m) -> blocked m.
Proof.
  unfold parseManifestJson. destruct (objectMembers _ _ _) as [[[seen parsed] s]|]; [|done]. cbn [mbind option_bind].
  destruct (parseObjectEnd s) as [s'|]; [|done]. cbn [mbind option_bind]. destruct (negb (finish s')); [done|].
  destruct (_ || _ || _); [done|]. intros E. injection E as <-.
  generalize (populateSupportArtifacts (populateCanonicalArtifacts parsed)). intros m'. by destruct m'.
Qed.

Lemma manifest_blocked st : (loadManifest fs dir st).2 = true -> blocked (sc_manifest (ld_out (loadManifest fs dir st).1)).
Proof.
  unfold loadManifest. cbv zeta. destruct (sessionFile fs dir _) as [|readable text]; [done|]. destruct (opened _) as [document|]; [|done].
  destruct (parseManifestJson document) as [status [m|]] eqn:E; [|by destruct status]. destruct status; try done.
  destruct (_ && _); [done|]. intros _. exact (parsed_blocked _ _ E).
Qed.

Lemma bindSeekIndex_sound st : sound (ld_report st) -> sound (ld_report (bindSeekIndex fs dir st)).
Proof.
  intros Hs. unfold bindSeekIndex. cbv zeta.
  assert (forall change, (forall report, lr_issues (change report) = lr_issues report /\ lr_finalStatus (change report) = lr_finalStatus report) ->
    sound (change (ld_report st))) as Hk.
  { intros change Hc. destruct (Hc (ld_report st)). by apply (sound_same (ld_report st)). }
  destruct (sessionFile fs dir _) as [|readable text]; [by apply (Hk (put lr_seekIndexState ChannelLoadState.Missing))|].
  destruct (opened _) as [document|];
    [|apply addIssue_sound; [by apply (Hk (fun r => r <| lr_seekIndexState := ChannelLoadState.Corrupt |>))|done]].
  destruct (parseSeekIndexDocument document) as [[sources buckets]|];
    [|apply addIssue_sound; [by apply (Hk (fun r => r <| lr_seekIndexState := ChannelLoadState.Corrupt |>))|done]].
  destruct (existsb _ sources).
  - apply addIssue_sound; [|done]. by apply (Hk (fun r => r <| lr_seekIndexState := ChannelLoadState.Degraded |> <| lr_staleSeekIndex := true |>)).
  - by apply (Hk (fun r => r <| lr_seekIndexState := ChannelLoadState.Clean |> <| lr_usedSeekIndex := nonEmpty buckets |>
      <| lr_seekBuckets := buckets |>)).
Qed.

Lemma reportBlockers_closed st : sound (ld_report st) -> blocked (sc_manifest (ld_out st)) -> closed (reportBlockers st).
Proof.
  intros Hs Hb. unfold reportBlockers. cbv zeta.
  destruct (lr_manifestPresent (ld_report st) && negb (sm_structurallyLoadable (sc_manifest (ld_out st)))) eqn:E; [|by split].
  split; [by apply blockers_sound|]. intros _. apply blockers_fatal. left.
  unfold blocked in Hb. rewrite Hb in E. destruct (sm_structuralBlockers _); [by rewrite andb_false_r in E|done].
Qed.

Lemma loadSteps_closed : closed (loadSteps fs dir (MkLoading newCorpus newReport)).
Proof.
  rewrite loadSteps_shape. set (start := MkLoading newCorpus newReport).
  assert (sound (ld_report start)) as H0 by (split; [constructor|left; split; [done|constructor]]). clearbody start.
  apply andThen_closed; [by apply checkDirectory_closes|]. intros st1 _ S1.
  apply andThen_closed; [by apply loadManifest_closes|]. intros st2 E2 S2.
  pose proof (manifest_blocked st1) as Hb. rewrite E2 in Hb. specialize (Hb eq_refl). cbn [fst] in Hb.
  apply andThen_closed; [by apply channelSteps_closes|]. intros st3 E3 S3.
  destruct (channelSteps_keeps st2) as [_ K]. rewrite E3 in K. cbn [fst] in K. rewrite <- K in Hb.
  apply andThen_closed; [by apply reportBlockers_closed|]. intros st4 _ S4. split; [by apply bindSeekIndex_sound|done].
Qed.
End steps.

(** C25: Over any files, a load returns success exactly when its report has no fatal
    issue, and a load that stopped before its end (a missing or unreadable artifact, a line
    that does not parse, counts that differ from the manifest, a manifest that is not
    loadable) never returns success. *)
Theorem load_fails_closed fs dir :
  let '(status, corpus, report) := loadDetailed fs dir in
  (status = Ok <-> Forall (fun issue => ~ fatal issue) (lr_issues report)) /\
  ((loadSteps fs dir (MkLoading newCorpus newReport)).2 = false -> status <> Ok) /\
  sc_report corpus = report.
Proof.
  unfold loadDetailed. cbv zeta. destruct (loadSteps_closed fs dir) as [[_ Hs] Hf].
  destruct (loadSteps fs dir (MkLoading newCorpus newReport)) as [st ok]. cbn [fst snd] in *. split_and!; [|intros Hok|done].
  - destruct Hs as [[E Hno]|[[E _] He]]; [done|]. split; [done|]. intros Hno. exfalso.
    apply Exists_exists in He as (issue & Hin & Hi). rewrite Forall_forall in Hno. by apply (Hno issue).
  - destruct Hs as [[E Hno]|[[E _] He]]; [|done]. specialize (Hf Hok). intros _.
    apply Exists_exists in Hf as (issue & Hin & Hi). rewrite Forall_forall in Hno. by apply (Hno issue).
Qed.
