(* ===== verification/Book.v ===== *)
(** * Book: the reconstructed order book

    Models src/src/Runtime/src/Replay/BookState.{hpp,cpp}: the two sides as maps from
    price to quantity, the lazily sorted views with their dirty flags, the filtered
    levels and the best prices.

    The sides are [absl::flat_hash_map]s, whose iteration order is unspecified: it is a
    parameter [iterate] that lists every entry once, in some order.

    Theorem: whatever snapshots, deltas, resets and reads happened, the views are the
    strictly sorted levels of a per-price reference, and the filtered levels and best
    prices are those of the views. *)
From stdpp Require Import base list numbers gmap sorting.
From S2P Require Import Prelude Codec Json Rows.
Local Open Scope Z_scope.

Abbreviation LevelMap := (gmap Z Z).
Abbreviation Levels := (list (Z * Z)).

Record BookState := MkBookState {
  bk_bids : LevelMap;
  bk_asks : LevelMap;
  bk_bidView : Levels;
  bk_askView : Levels;
  bk_bidsDirty : bool;
  bk_asksDirty : bool;
  bk_lastTsNs : Z;
}.
#[export] Instance BookState_eta : Eta BookState := fun r =>
  MkBookState (bk_bids r) (bk_asks r) (bk_bidView r) (bk_askView r) (bk_bidsDirty r)
    (bk_asksDirty r) (bk_lastTsNs r).

Definition newBook : BookState := MkBookState ∅ ∅ [] [] true true 0.

(** The comparators of the sorts: bids high to low, asks low to high. *)
Definition inOrder (descending : bool) (a b : Z * Z) : Prop :=
  if descending then b.1 <= a.1 else a.1 <= b.1.
#[export] Instance inOrder_dec descending : RelDecision (inOrder descending).
Proof. intros a b. unfold inOrder. destruct descending; apply _. Defined.
#[export] Instance inOrder_trans descending : Transitive (inOrder descending).
Proof. intros a b c. unfold inOrder. destruct descending; lia. Qed.
#[export] Instance inOrder_total descending : Total (inOrder descending).
Proof. intros a b. unfold inOrder. destruct descending; lia. Qed.

Definition sortLevels (descending : bool) (levels : Levels) : Levels :=
  merge_sort (inOrder descending) levels.

(** ** Updates *)

Definition applyLevel (levels : LevelMap) (level : PricePair) : LevelMap :=
  if pp_qtyE8 level =? 0 then delete (pp_priceE8 level) levels
  else <[pp_priceE8 level := pp_qtyE8 level]> levels.

(** A level goes to its side, whose view becomes dirty. *)
Definition applyToBook (book : BookState) (level : PricePair) : BookState :=
  if pp_side level =? 0
  then book <| bk_bids ::= fun levels => applyLevel levels level |> <| bk_bidsDirty := true |>
  else book <| bk_asks ::= fun levels => applyLevel levels level |> <| bk_asksDirty := true |>.

Definition resetBook (book : BookState) : BookState := MkBookState ∅ ∅ [] [] false false 0.

Definition applySnapshot (snapshot : SnapshotDocument) (book : BookState) : BookState :=
  let book := book <| bk_bids := ∅ |> <| bk_asks := ∅ |>
                   <| bk_bidsDirty := true |> <| bk_asksDirty := true |> in
  fold_left (fun book level => if pp_qtyE8 level <=? 0 then book else applyToBook book level)
    (sd_levels snapshot) book <| bk_lastTsNs := sd_tsNs snapshot |>.

Definition applyDelta (delta : DepthRow) (book : BookState) : BookState :=
  fold_left applyToBook (dp_levels delta) book <| bk_lastTsNs := dp_tsNs delta |>.

Section book.
Context (iterate : LevelMap -> Levels).

(** ** Reads *)

Definition ensureBidsView (book : BookState) : BookState :=
  if negb (bk_bidsDirty book) then book
  else book <| bk_bidView := sortLevels true (iterate (bk_bids book)) |> <| bk_bidsDirty := false |>.
Definition ensureAsksView (book : BookState) : BookState :=
  if negb (bk_asksDirty book) then book
  else book <| bk_askView := sortLevels false (iterate (bk_asks book)) |> <| bk_asksDirty := false |>.

Definition bids (book : BookState) : Levels * BookState :=
  let book := ensureBidsView book in (bk_bidView book, book).
Definition asks (book : BookState) : Levels * BookState :=
  let book := ensureAsksView book in (bk_askView book, book).

(** [BookSideView::count] and [at]; [None] is the exception. *)
Definition viewAt (view : Levels) (price : Z) : option Z :=
  snd <$> List.find (fun level => level.1 =? price) view.
Definition viewCount (view : Levels) (price : Z) : Z :=
  if List.find (fun level => level.1 =? price) view is Some _ then 1 else 0.

Definition wanted (minPriceE8 maxPriceE8 : Z) (level : Z * Z) : bool :=
  negb ((level.2 <=? 0) || ((0 <? minPriceE8) && (level.1 <? minPriceE8)) ||
        ((0 <? maxPriceE8) && (maxPriceE8 <? level.1))).

(** The first [n] of [partial_sort] are the first [n] of the sorted sequence. *)
Definition filteredLevels (levels : LevelMap) (minPriceE8 maxPriceE8 : Z) (maxCandidates : nat)
  (descending : bool) : Levels :=
  let out := List.filter (wanted minPriceE8 maxPriceE8) (iterate levels) in
  if (0 <? maxCandidates)%nat && (maxCandidates <? length out)%nat
  then take maxCandidates (sortLevels descending out) else sortLevels descending out.
Definition filteredBids (book : BookState) (minPriceE8 maxPriceE8 : Z) (maxCandidates : nat) : Levels :=
  filteredLevels (bk_bids book) minPriceE8 maxPriceE8 maxCandidates true.
Definition filteredAsks (book : BookState) (minPriceE8 maxPriceE8 : Z) (maxCandidates : nat) : Levels :=
  filteredLevels (bk_asks book) minPriceE8 maxPriceE8 maxCandidates false.

(** The loops of [bestBidQty] and [bestAskQty] keep the best price and its quantity, those
    of [bestBidPrice] and [bestAskPrice] only the price. *)
Definition bidStep (best level : Z * Z) : Z * Z :=
  if (0 <? level.2) && (best.1 <? level.1) then level else best.
Definition bestBid (book : BookState) : Z * Z := fold_left bidStep (iterate (bk_bids book)) (0, 0).
Definition bestBidPrice (book : BookState) : Z :=
  fold_left (fun best level => if (0 <? level.2) && (best <? level.1) then level.1 else best)
    (iterate (bk_bids book)) 0.
Definition bestBidQty (book : BookState) : Z := (bestBid book).2.

Definition askStep (best level : Z * Z) : Z * Z :=
  if level.2 <=? 0 then best
  else if (best.1 =? 0) || (level.1 <? best.1) then level else best.
Definition bestAsk (book : BookState) : Z * Z := fold_left askStep (iterate (bk_asks book)) (0, 0).
Definition bestAskPrice (book : BookState) : Z :=
  fold_left (fun best level => if level.2 <=? 0 then best
                               else if (best =? 0) || (level.1 <? best) then level.1 else best)
    (iterate (bk_asks book)) 0.
Definition bestAskQty (book : BookState) : Z := (bestAsk book).2.

(** ** The reference: one price at a time *)

Inductive BookCall :=
| Reset
| Snapshot (snapshot : SnapshotDocument)
| Delta (delta : DepthRow)
| ReadBids
| ReadAsks.

Definition performBook (call : BookCall) (book : BookState) : BookState :=
  match call with
  | Reset => resetBook book
  | Snapshot snapshot => applySnapshot snapshot book
  | Delta delta => applyDelta delta book
  | ReadBids => (bids book).2
  | ReadAsks => (asks book).2
  end.
Definition performBookAll (calls : list BookCall) : BookState :=
  fold_left (fun book call => performBook call book) calls newBook.

(** The quantity quoted at a price of a side: zero quantities withdraw the quote, any
    other level replaces it, a snapshot forgets everything before it. *)
Definition quoteLevel (bid : bool) (price : Z) (quote : option Z) (level : PricePair) : option Z :=
  if Bool.eqb (pp_side level =? 0) bid && (pp_priceE8 level =? price)
  then if pp_qtyE8 level =? 0 then None else Some (pp_qtyE8 level)
  else quote.
Definition quoteCall (bid : bool) (price : Z) (quote : option Z) (call : BookCall) : option Z :=
  match call with
  | Reset => None
  | Snapshot snapshot =>
      fold_left (quoteLevel bid price) (List.filter (fun level => 0 <? pp_qtyE8 level) (sd_levels snapshot)) None
  | Delta delta => fold_left (quoteLevel bid price) (dp_levels delta) quote
  | ReadBids | ReadAsks => quote
  end.
Definition quoted (bid : bool) (price : Z) (calls : list BookCall) : option Z :=
  fold_left (quoteCall bid price) calls None.

(** ** The maps follow the reference *)

Definition sideOf (bid : bool) (book : BookState) : LevelMap :=
  if bid then bk_bids book else bk_asks book.

Lemma applyLevel_quote levels level price :
  applyLevel levels level !! price =
  if pp_priceE8 level =? price then (if pp_qtyE8 level =? 0 then None else Some (pp_qtyE8 level))
  else levels !! price.
Proof.
  unfold applyLevel. destruct (pp_qtyE8 level =? 0); destruct (Z.eqb_spec (pp_priceE8 level) price) as [->|Hne].
  - apply lookup_delete_eq.
  - by apply lookup_delete_ne.
  - apply lookup_insert_eq.
  - by apply lookup_insert_ne.
Qed.

Lemma applyToBook_quote bid price book level :
  sideOf bid (applyToBook book level) !! price = quoteLevel bid price (sideOf bid book !! price) level.
Proof.
  unfold applyToBook, quoteLevel. destruct (pp_side level =? 0) eqn:Es; destruct bid; cbn;
    rewrite ?applyLevel_quote; done.
Qed.

Lemma applyLevels_quote bid price levels : forall book,
  sideOf bid (fold_left applyToBook levels book) !! price =
  fold_left (quoteLevel bid price) levels (sideOf bid book !! price).
Proof.
  induction levels as [|level levels IH]; intros book; cbn [fold_left]; [done|].
  by rewrite IH, applyToBook_quote.
Qed.

(** The snapshot loop is the update loop over its positive levels. *)
Lemma snapshot_fold levels : forall book,
  fold_left (fun book level => if pp_qtyE8 level <=? 0 then book else applyToBook book level) levels book =
  fold_left applyToBook (List.filter (fun level => 0 <? pp_qtyE8 level) levels) book.
Proof.
  induction levels as [|level levels IH]; intros book; cbn [fold_left List.filter]; [done|].
  destruct (Z.leb_spec (pp_qtyE8 level) 0), (Z.ltb_spec 0 (pp_qtyE8 level)); try lia; apply IH.
Qed.

Lemma performBook_quote bid price call book :
  sideOf bid (performBook call book) !! price = quoteCall bid price (sideOf bid book !! price) call.
Proof.
  destruct call as [|snapshot|delta| |]; cbn [performBook quoteCall].
  - by destruct bid.
  - unfold applySnapshot. rewrite snapshot_fold. cbv zeta.
    match goal with |- sideOf bid (upd _ _ ?b) !! _ = _ => change (sideOf bid b !! price = fold_left (quoteLevel bid price)
      (List.filter (fun level => 0 <? pp_qtyE8 level) (sd_levels snapshot)) None) end.
    rewrite applyLevels_quote. by destruct bid.
  - unfold applyDelta.
    match goal with |- sideOf bid (upd _ _ ?b) !! _ = _ => change (sideOf bid b !! price =
      fold_left (quoteLevel bid price) (dp_levels delta) (sideOf bid book !! price)) end.
    apply applyLevels_quote.
  - unfold bids, ensureBidsView. cbn. by destruct (negb _), bid.
  - unfold asks, ensureAsksView. cbn. by destruct (negb _), bid.
Qed.

Lemma performAll_quote bid price calls : forall book,
  sideOf bid (fold_left (fun book call => performBook call book) calls book) !! price =
  fold_left (quoteCall bid price) calls (sideOf bid book !! price).
Proof.
  induction calls as [|call calls IH]; intros book; cbn [fold_left]; [done|].
  by rewrite IH, performBook_quote.
Qed.

Lemma book_quotes bid price calls : sideOf bid (performBookAll calls) !! price = quoted bid price calls.
Proof. unfold performBookAll, quoted. rewrite performAll_quote. by destruct bid. Qed.

(** ** The views *)

(** [flat_hash_map] iterates over every entry exactly once. *)
Context (iterate_entries : forall levels, iterate levels ≡ₚ map_to_list levels).

Definition viewsCurrent (book : BookState) : Prop :=
  (bk_bidsDirty book = false -> bk_bidView book = sortLevels true (iterate (bk_bids book))) /\
  (bk_asksDirty book = false -> bk_askView book = sortLevels false (iterate (bk_asks book))).

Lemma iterate_empty descending : sortLevels descending (iterate ∅) = [].
Proof.
  pose proof (iterate_entries ∅) as Hp. rewrite map_to_list_empty in Hp.
  apply Permutation_nil_r in Hp. by rewrite Hp.
Qed.

Lemma applyToBook_current book level : viewsCurrent book -> viewsCurrent (applyToBook book level).
Proof. intros [Hb Ha]. unfold applyToBook. by destruct (pp_side level =? 0). Qed.

Lemma applyLevels_current levels : forall book,
  viewsCurrent book -> viewsCurrent (fold_left applyToBook levels book).
Proof.
  induction levels as [|level levels IH]; intros book Hb; cbn [fold_left]; [done|].
  by apply IH, applyToBook_current.
Qed.

Lemma performBook_current call book : viewsCurrent book -> viewsCurrent (performBook call book).
Proof.
  intros Hc. destruct call as [|snapshot|delta| |]; cbn [performBook].
  - split; intros _; symmetry; apply iterate_empty.
  - unfold applySnapshot. rewrite snapshot_fold. cbv zeta.
    match goal with |- viewsCurrent (upd _ _ ?b) => change (viewsCurrent b) end.
    by apply applyLevels_current.
  - unfold applyDelta. match goal with |- viewsCurrent (upd _ _ ?b) => change (viewsCurrent b) end.
    by apply applyLevels_current.
  - destruct Hc as [Hb Ha]. unfold bids, ensureBidsView. cbn.
    destruct (bk_bidsDirty book) eqn:E; split; cbn; auto; by rewrite E.
  - destruct Hc as [Hb Ha]. unfold asks, ensureAsksView. cbn.
    destruct (bk_asksDirty book) eqn:E; split; cbn; auto; by rewrite E.
Qed.

Lemma book_current calls : viewsCurrent (performBookAll calls).
Proof.
  unfold performBookAll. assert (viewsCurrent newBook) as Hn by done. revert Hn. generalize newBook.
  induction calls as [|call calls IH]; intros book Hb; cbn [fold_left]; [done|].
  by apply IH, performBook_current.
Qed.

Lemma bids_sorted book : viewsCurrent book -> (bids book).1 = sortLevels true (iterate (bk_bids book)).
Proof. intros [Hb _]. unfold bids, ensureBidsView. destruct (bk_bidsDirty book); [done|]. by apply Hb. Qed.
Lemma asks_sorted book : viewsCurrent book -> (asks book).1 = sortLevels false (iterate (bk_asks book)).
Proof. intros [_ Ha]. unfold asks, ensureAsksView. destruct (bk_asksDirty book); [done|]. by apply Ha. Qed.

(** ** Sorted levels *)

Definition levelBefore (descending : bool) (a b : Z * Z) : Prop :=
  if descending then b.1 < a.1 else a.1 < b.1.

Lemma sort_levels_elem descending levels p q :
  (p, q) ∈ sortLevels descending (iterate levels) <-> levels !! p = Some q.
Proof.
  unfold sortLevels. rewrite (merge_sort_Permutation _ _), (iterate_entries levels).
  apply elem_of_map_to_list.
Qed.

(** Levels with the same price are the same entry. *)
Definition distinct (levels : Levels) : Prop :=
  forall a b, a ∈ levels -> b ∈ levels -> a.1 = b.1 -> a = b.

Lemma iterate_distinct levels : distinct (iterate levels) /\ NoDup (iterate levels).*1.
Proof.
  split.
  - intros [p q] [p' q'] Ha Hb Hp. cbn in Hp. subst p'.
    rewrite (iterate_entries levels), elem_of_map_to_list in Ha, Hb. congruence.
  - rewrite (iterate_entries levels). apply NoDup_fst_map_to_list.
Qed.

Lemma sort_unique descending a b : distinct a ->
  StronglySorted (inOrder descending) a -> StronglySorted (inOrder descending) b -> a ≡ₚ b -> a = b.
Proof.
  intros Hd Ha Hb Hp. eapply StronglySorted_unique_strong; [|exact Ha|exact Hb|exact Hp].
  intros x y Hx Hy Hxy Hyx. apply Hd; [done|by rewrite Hp|]. unfold inOrder in *. destruct descending; lia.
Qed.

Lemma filter_sorted {A} (R : A -> A -> Prop) (f : A -> bool) xs :
  StronglySorted R xs -> StronglySorted R (List.filter f xs).
Proof.
  induction 1 as [|x xs Hs IH Hall]; [constructor|]. cbn. destruct (f x); [|done].
  constructor; [done|]. apply List.Forall_forall. intros y [Hy _]%filter_In.
  by eapply List.Forall_forall in Hall.
Qed.

(** Sorting a selection is selecting from the sorted levels. *)
Lemma filter_sort descending f levels :
  sortLevels descending (List.filter f (iterate levels)) =
  List.filter f (sortLevels descending (iterate levels)).
Proof.
  apply (sort_unique descending).
  - intros a b Ha Hb. apply (proj1 (iterate_distinct levels)).
    + unfold sortLevels in Ha. rewrite (merge_sort_Permutation _ _) in Ha.
      apply list_elem_of_In, filter_In in Ha as [Ha _]. by apply list_elem_of_In.
    + unfold sortLevels in Hb. rewrite (merge_sort_Permutation _ _) in Hb.
      apply list_elem_of_In, filter_In in Hb as [Hb _]. by apply list_elem_of_In.
  - apply StronglySorted_merge_sort; apply _.
  - apply filter_sorted, StronglySorted_merge_sort; apply _.
  - unfold sortLevels. rewrite (merge_sort_Permutation _ _). apply filter_permutation.
    symmetry. apply merge_sort_Permutation.
Qed.

Lemma sort_strict descending levels :
  StronglySorted (levelBefore descending) (sortLevels descending (iterate levels)).
Proof.
  pose proof (StronglySorted_merge_sort (inOrder descending) (iterate levels)) as Hs.
  assert (NoDup (sortLevels descending (iterate levels)).*1) as Hn.
  { unfold sortLevels. rewrite (merge_sort_Permutation _ _). apply iterate_distinct. }
  unfold sortLevels in *. revert Hs Hn.
  generalize (merge_sort (inOrder descending) (iterate levels)).
  induction 1 as [|x xs Hs IH Hall]; intros Hn; [constructor|]. cbn in Hn.
  apply NoDup_cons in Hn as [Hx Hn]. constructor; [by apply IH|].
  rewrite Forall_forall in *. intros y Hy. specialize (Hall y Hy).
  assert (x.1 <> y.1) as Hne by (intros E; apply Hx; rewrite E; by apply list_elem_of_fmap_2).
  unfold inOrder, levelBefore in *. destruct descending; lia.
Qed.

(** ** Best prices *)

Lemma bidStep_fold levels : forall best, let r := fold_left bidStep levels best in
  (r = best \/ (r ∈ levels /\ 0 < r.2 /\ best.1 < r.1)) /\ best.1 <= r.1 /\
  forall x, x ∈ levels -> 0 < x.2 -> x.1 <= r.1.
Proof.
  induction levels as [|level levels IH]; intros best; cbn [fold_left].
  { split_and!; [by left|done|]. intros x Hx. by apply not_elem_of_nil in Hx. }
  destruct (IH (bidStep best level)) as (Hr & Hle & Hall). cbv zeta in *.
  assert (best.1 <= (bidStep best level).1 /\ (0 < level.2 -> level.1 <= (bidStep best level).1) /\
    (bidStep best level = best \/ (bidStep best level = level /\ 0 < level.2 /\ best.1 < level.1)))
    as (S1 & S2 & S3).
  { unfold bidStep. destruct (Z.ltb_spec 0 level.2), (Z.ltb_spec best.1 level.1); cbn;
      split_and!; intros; auto; lia. }
  split_and!; [|lia|].
  - destruct Hr as [->|(Hin & Hq & Hlt)]; [|right; split_and!; [by right|done|lia]].
    destruct S3 as [->|(-> & ? & ?)]; [by left|]. right. split_and!; [by left|done|done].
  - intros x [->|Hx]%elem_of_cons Hq; [specialize (S2 Hq); lia|by apply Hall].
Qed.

(** The loops over prices follow the loops over levels. *)
Lemma fold_price (step : Z * Z -> Z * Z -> Z * Z) (priceStep : Z -> Z * Z -> Z) levels :
  (forall best level, priceStep best.1 level = (step best level).1) ->
  forall best, fold_left priceStep levels best.1 = (fold_left step levels best).1.
Proof.
  intros Hstep. induction levels as [|level levels IH]; intros best; cbn; [done|].
  by rewrite Hstep, IH.
Qed.
Lemma bestBidPrice_bestBid book : bestBidPrice book = (bestBid book).1.
Proof.
  apply (fold_price bidStep _ _) with (best := (0, 0)). intros best level. unfold bidStep. by destruct (_ && _).
Qed.
Lemma bestAskPrice_bestAsk book : bestAskPrice book = (bestAsk book).1.
Proof.
  apply (fold_price askStep _ _) with (best := (0, 0)). intros best level. unfold askStep.
  destruct (_ <=? _); [done|]. by destruct (_ || _).
Qed.

(** Looking a price up in a sorted view. *)
Lemma viewAt_sort descending levels p : viewAt (sortLevels descending (iterate levels)) p = levels !! p.
Proof.
  unfold viewAt. destruct (List.find _ _) as [[p' q]|] eqn:E; cbn.
  - apply find_some in E as [Hin Hp]. cbn in Hp. apply Z.eqb_eq in Hp as ->.
    apply list_elem_of_In, sort_levels_elem in Hin. done.
  - destruct (levels !! p) as [q|] eqn:Hp; [|done].
    apply (sort_levels_elem descending), list_elem_of_In in Hp.
    apply (find_none _ _ E) in Hp. cbn in Hp. by rewrite Z.eqb_refl in Hp.
Qed.
Lemma viewCount_at view p : viewCount view p = if viewAt view p is Some _ then 1 else 0.
Proof. unfold viewCount, viewAt. by destruct (List.find _ _). Qed.

Lemma bestBid_head book view : view = sortLevels true (iterate (bk_bids book)) ->
  bestBid book = default (0, 0) (list.head (List.filter (fun l => (0 <? l.2) && (0 <? l.1)) view)).
Proof.
  intros Hview. unfold bestBid. destruct (bidStep_fold (iterate (bk_bids book)) (0, 0)) as (Hr & Hle & Hall).
  cbv zeta in *. revert Hr Hle Hall. generalize (fold_left bidStep (iterate (bk_bids book)) (0, 0)) as r.
  intros r Hr Hle Hall. cbn [fst] in *.
  assert (forall x, x ∈ view <-> x ∈ iterate (bk_bids book)) as Hmem
    by (intros x; rewrite Hview; unfold sortLevels; by rewrite (merge_sort_Permutation _ _)).
  pose proof (sort_strict true (bk_bids book)) as Hs. rewrite <- Hview in Hs.
  apply (filter_sorted _ (fun l => (0 <? l.2) && (0 <? l.1))) in Hs.
  assert (forall x, x ∈ List.filter (fun l => (0 <? l.2) && (0 <? l.1)) view <->
    x ∈ iterate (bk_bids book) /\ 0 < x.2 /\ 0 < x.1) as Hf.
  { intros x. rewrite list_elem_of_In, filter_In, <- list_elem_of_In, Hmem, andb_true_iff, !Z.ltb_lt. done. }
  revert Hs Hf. generalize (List.filter (fun l => (0 <? l.2) && (0 <? l.1)) view). intros top Hs Hf.
  destruct Hs as [|h top Hs Htop]; cbn.
  - destruct Hr as [->|(Hin & Hq & Hp)]; [done|]. exfalso.
    assert (r ∈ @nil (Z * Z)) as Hn by (by apply Hf). by apply not_elem_of_nil in Hn.
  - assert (h ∈ h :: top) as Hh by left. apply Hf in Hh as (Hh & Hhq & Hhp). specialize (Hall h Hh Hhq).
    destruct Hr as [->|(Hin & Hq & Hp)]; [cbn in Hall; lia|].
    assert (r ∈ h :: top) as Hrt by (by apply Hf).
    apply elem_of_cons in Hrt as [->|Hrt]; [done|]. rewrite Forall_forall in Htop.
    specialize (Htop r Hrt). unfold levelBefore in Htop. lia.
Qed.

Lemma askStep_fold levels : forall best, (forall x, x ∈ levels -> 0 < x.1) ->
  best = (0, 0) \/ 0 < best.1 -> let r := fold_left askStep levels best in
  (r = best \/ (r ∈ levels /\ 0 < r.2)) /\ (best.1 = 0 \/ (0 < r.1 <= best.1)) /\
  forall x, x ∈ levels -> 0 < x.2 -> 0 < r.1 <= x.1.
Proof.
  induction levels as [|level levels IH]; intros best Hpos Hb; cbn [fold_left].
  { split_and!; [by left|destruct Hb as [->|]; [by left|right; lia]|].
    intros x Hx. by apply not_elem_of_nil in Hx. }
  assert (0 < level.1) as Hl by (apply Hpos; by left).
  assert ((askStep best level = best \/ (askStep best level = level /\ 0 < level.2)) /\
    (best.1 = 0 \/ 0 < (askStep best level).1 <= best.1) /\
    (0 < level.2 -> 0 < (askStep best level).1 <= level.1)) as (S1 & S2 & S3).
  { unfold askStep. destruct (Z.leb_spec level.2 0), (Z.eqb_spec best.1 0), (Z.ltb_spec level.1 best.1);
      cbn; destruct Hb as [->|]; cbn in *; split_and!; intros; auto; lia. }
  destruct (IH (askStep best level)) as (Hr & Hle & Hall).
  { intros x Hx. apply Hpos. by right. }
  { destruct S1 as [->|[-> _]]; [done|by right]. }
  cbv zeta in *. split_and!.
  - destruct Hr as [->|[Hin Hq]]; [|right; split; [by right|done]].
    destruct S1 as [->|[-> ?]]; [by left|]. right. split; [by left|done].
  - lia.
  - intros x [->|Hx]%elem_of_cons Hq; [specialize (S3 Hq); lia|by apply Hall].
Qed.

Lemma bestAsk_head book view : (forall p q, bk_asks book !! p = Some q -> 0 < p) ->
  view = sortLevels false (iterate (bk_asks book)) ->
  bestAsk book = default (0, 0) (list.head (List.filter (fun l => 0 <? l.2) view)).
Proof.
  intros Hpos Hview. unfold bestAsk.
  destruct (askStep_fold (iterate (bk_asks book)) (0, 0)) as (Hr & _ & Hall); [|by left|].
  { intros [p q] Hx. rewrite (iterate_entries (bk_asks book)), elem_of_map_to_list in Hx. by eapply Hpos. }
  cbv zeta in *. revert Hr Hall. generalize (fold_left askStep (iterate (bk_asks book)) (0, 0)) as r.
  intros r Hr Hall.
  assert (forall x, x ∈ view <-> x ∈ iterate (bk_asks book)) as Hmem
    by (intros x; rewrite Hview; unfold sortLevels; by rewrite (merge_sort_Permutation _ _)).
  pose proof (sort_strict false (bk_asks book)) as Hs. rewrite <- Hview in Hs.
  apply (filter_sorted _ (fun l => 0 <? l.2)) in Hs.
  assert (forall x, x ∈ List.filter (fun l => 0 <? l.2) view <-> x ∈ iterate (bk_asks book) /\ 0 < x.2) as Hf.
  { intros x. rewrite list_elem_of_In, filter_In, <- list_elem_of_In, Hmem, Z.ltb_lt. done. }
  revert Hs Hf. generalize (List.filter (fun l => 0 <? l.2) view). intros top Hs Hf.
  destruct Hs as [|h top Hs Htop]; cbn.
  - destruct Hr as [->|[Hin Hq]]; [done|]. exfalso.
    assert (r ∈ @nil (Z * Z)) as Hn by (by apply Hf). by apply not_elem_of_nil in Hn.
  - assert (h ∈ h :: top) as Hh by left. apply Hf in Hh as (Hh & Hhq). specialize (Hall h Hh Hhq).
    destruct Hr as [->|(Hin & Hq)]; [cbn in Hall; lia|].
    assert (r ∈ h :: top) as Hrt by (by apply Hf).
    apply elem_of_cons in Hrt as [->|Hrt]; [done|]. rewrite Forall_forall in Htop.
    specialize (Htop r Hrt). unfold levelBefore in Htop. lia.
Qed.

Lemma filtered_view levels descending minimum maximum n view :
  view = sortLevels descending (iterate levels) ->
  filteredLevels levels minimum maximum n descending =
  let selected := List.filter (wanted minimum maximum) view in
  if (n =? 0)%nat then selected else take n selected.
Proof.
  intros ->. unfold filteredLevels. cbv zeta. rewrite filter_sort.
  set (out := List.filter (wanted minimum maximum) (iterate levels)).
  assert (length (List.filter (wanted minimum maximum) (sortLevels descending (iterate levels))) = length out)
    as Hl by (rewrite <- filter_sort; apply Permutation_length, merge_sort_Permutation).
  destruct (Nat.eqb_spec n 0) as [->|Hn]; [done|].
  destruct (Nat.ltb_spec 0 n); [|lia]. cbn [andb].
  destruct (Nat.ltb_spec n (length out)); [done|]. symmetry. apply take_ge. lia.
Qed.

(** ** Claims *)

(** C38: The lazily sorted book equals its per-price reference: after any sequence of
    resets, snapshots, deltas and reads, [bids] and [asks] list, strictly sorted by
    price, exactly the levels the reference quotes, and [at] and [count]
    find the quote of any price in them; [filteredBids] and [filteredAsks]
    are the requested range of those lists, cut to the number of candidates; the best
    bid is the first level with positive price and quantity and, when ask prices are
    positive, the best ask is the first ask with positive quantity, whatever order the
    hash maps are iterated in. *)
Theorem book_equivalent calls :
  let book := performBookAll calls in
  StronglySorted (fun a b => b.1 < a.1) (bids book).1 /\
  StronglySorted (fun a b => a.1 < b.1) (asks book).1 /\
  (forall p q, (p, q) ∈ (bids book).1 <-> quoted true p calls = Some q) /\
  (forall p q, (p, q) ∈ (asks book).1 <-> quoted false p calls = Some q) /\
  (forall p, viewAt (bids book).1 p = quoted true p calls /\ viewAt (asks book).1 p = quoted false p calls /\
     viewCount (bids book).1 p = (if quoted true p calls is Some _ then 1 else 0) /\
     viewCount (asks book).1 p = (if quoted false p calls is Some _ then 1 else 0)) /\
  (forall minimum maximum n,
     filteredBids book minimum maximum n =
       (let selected := List.filter (wanted minimum maximum) (bids book).1 in
        if (n =? 0)%nat then selected else take n selected) /\
     filteredAsks book minimum maximum n =
       (let selected := List.filter (wanted minimum maximum) (asks book).1 in
        if (n =? 0)%nat then selected else take n selected)) /\
  (bestBidPrice book, bestBidQty book) =
    default (0, 0) (list.head (List.filter (fun l => (0 <? l.2) && (0 <? l.1)) (bids book).1)) /\
  ((forall p q, quoted false p calls = Some q -> 0 < p) ->
   (bestAskPrice book, bestAskQty book) =
     default (0, 0) (list.head (List.filter (fun l => 0 <? l.2) (asks book).1))).
Proof.
  cbv zeta. pose proof (book_current calls) as Hc.
  pose proof (bids_sorted _ Hc) as Hb. pose proof (asks_sorted _ Hc) as Ha.
  assert (forall bid p, sideOf bid (performBookAll calls) !! p = quoted bid p calls) as Hq
    by (intros; apply book_quotes).
  split_and!.
  - rewrite Hb. exact (sort_strict true _).
  - rewrite Ha. exact (sort_strict false _).
  - intros p q. rewrite Hb, sort_levels_elem, <- (Hq true p). done.
  - intros p q. rewrite Ha, sort_levels_elem, <- (Hq false p). done.
  - intros p. rewrite Hb, Ha, !viewCount_at, !viewAt_sort, <- (Hq true p), <- (Hq false p). done.
  - intros minimum maximum n. split; by apply filtered_view.
  - rewrite bestBidPrice_bestBid. unfold bestBidQty. rewrite <- surjective_pairing. by apply bestBid_head.
  - intros Hpos. rewrite bestAskPrice_bestAsk. unfold bestAskQty. rewrite <- surjective_pairing. apply bestAsk_head; [|done].
    intros p q Hp. eapply Hpos. rewrite <- (Hq false p). exact Hp.
Qed.

End book.

(** ** Witness *)

Definition sampleCalls : list BookCall :=
  [Snapshot (MkSnapshotDocument 5 [MkPricePair 100 7 0; MkPricePair 101 8 0; MkPricePair 105 3 1]);
   ReadBids;
   Delta (MkDepthRow 1 6 1 1 (MkEventArrival 1700 1600 7 3 2 5 9 1 0 1 1) [MkPricePair 101 0 0; MkPricePair 99 4 0; MkPricePair 104 2 1])].

Example sampleBook : ((bids map_to_list (performBookAll map_to_list sampleCalls)).1,
  bestBidPrice map_to_list (performBookAll map_to_list sampleCalls),
  bestAskPrice map_to_list (performBookAll map_to_list sampleCalls)) = ([(100, 7); (99, 4)], 100, 104).
Proof. vm_compute. reflexivity. Qed.

Lemma book_equivalent_witness :
  let book := performBookAll map_to_list sampleCalls in
  StronglySorted (fun a b => b.1 < a.1) (bids map_to_list book).1 /\
  (forall p q, (p, q) ∈ (bids map_to_list book).1 <-> quoted true p sampleCalls = Some q).
Proof.
  destruct (book_equivalent map_to_list (fun levels => reflexivity _) sampleCalls)
    as (H1 & _ & H2 & _). exact (conj H1 H2).
Defined.

