(* ===== verification/Replay.v ===== *)
(** * Replay: replaying a text session

    Models Runtime/src/Replay/SessionReplay.hpp, SessionReplay.cpp and
    SessionReplayTimeline.cpp: the rows of a session, the merged timeline with its buckets,
    the book that follows a cursor over the buckets, and the integrity of the session with
    its incidents.  [std::stable_sort] is a stable insertion sort by the source's comparator;
    the files are those of [Loader]. *)
From stdpp Require Import base list numbers strings gmap sorting.
From S2P Require Import Prelude Codec Json JsonObject Integrity SessionManifest Instrument Rows Loader Book.
Local Open Scope Z_scope.

(** ** Stable sorting *)

Section stable_sort.
Context {A : Type} (less : A -> A -> bool).

(** [x] stood before the elements of [ys]: it passes only those that are less. *)
Fixpoint insertStable (x : A) (ys : list A) : list A :=
  match ys with
  | [] => [x]
  | y :: rest => if less y x then y :: insertStable x rest else x :: ys
  end.
Definition stableSort (xs : list A) : list A := foldr insertStable [] xs.
End stable_sort.

(** ** The state *)

Module EventKind.
Inductive t := Depth | Trade | BookTicker.
#[global] Instance eq_dec : EqDecision t.
Proof. solve_decision. Defined.
Definition value (kind : t) : Z := match kind with Depth => 0 | Trade => 1 | BookTicker => 3 end.
End EventKind.

Record Event := MkEvent { ev_tsNs : Z; ev_ingestSeq : Z; ev_rowIndex : Z; ev_kind : EventKind.t }.
Record BucketItem := MkBucketItem { bi_ingestSeq : Z; bi_rowIndex : Z; bi_kind : EventKind.t }.
Record ReplayBucket := MkReplayBucket { rb_tsNs : Z; rb_items : list BucketItem }.

Record ManifestHints := MkManifestHints {
  mh_present : bool;
  mh_exchange : list Z;
  mh_tradesEnabled : bool;
  mh_tradesRequired : bool;
  mh_bookTickerEnabled : bool;
  mh_bookTickerRequired : bool;
  mh_orderbookEnabled : bool;
  mh_orderbookRequired : bool;
  mh_endedAtNs : Z;
  mh_capturedExactReplayEligible : bool;
  mh_capturedIncidents : list (option IntegrityIncident);
}.
#[export] Instance ManifestHints_eta : Eta ManifestHints := fun r =>
  MkManifestHints (mh_present r) (mh_exchange r) (mh_tradesEnabled r) (mh_tradesRequired r)
    (mh_bookTickerEnabled r) (mh_bookTickerRequired r) (mh_orderbookEnabled r) (mh_orderbookRequired r)
    (mh_endedAtNs r) (mh_capturedExactReplayEligible r) (mh_capturedIncidents r).
Definition newHints : ManifestHints :=
  MkManifestHints false [] true true true true true true 0 true [None; None; None].

Record SessionReplay := MkSessionReplay {
  sr_trades : list TradeRow;
  sr_bookTickers : list BookTickerRow;
  sr_candles : list CandleRow;
  sr_candles2 : list CandleRow;
  sr_depths : list DepthRow;
  sr_events : list Event;
  sr_buckets : list ReplayBucket;
  sr_snapshot : SnapshotDocument;
  sr_snapshotLoaded : bool;
  sr_book : BookState;
  sr_cursor : nat;
  sr_firstTsNs : Z;
  sr_lastTsNs : Z;
  sr_status : Status;
  sr_errorDetail : list Z;
  sr_gapDetected : bool;
  sr_sequenceValidationAvailable : bool;
  sr_parseFailureCount : Z;
  sr_integrityFailureCount : Z;
  sr_partialDepthCorrupt : bool;
  sr_partialDepthError : list Z;
  sr_partialDepthLine : Z;
  sr_integritySummary : SessionIntegritySummary;
  sr_manifestHints : ManifestHints;
  sr_sessionDir : list Z;
  sr_loadReport : LoadReport;
}.
#[export] Instance SessionReplay_eta : Eta SessionReplay := fun r =>
  MkSessionReplay (sr_trades r) (sr_bookTickers r) (sr_candles r) (sr_candles2 r) (sr_depths r)
    (sr_events r) (sr_buckets r) (sr_snapshot r) (sr_snapshotLoaded r) (sr_book r) (sr_cursor r)
    (sr_firstTsNs r) (sr_lastTsNs r) (sr_status r) (sr_errorDetail r) (sr_gapDetected r)
    (sr_sequenceValidationAvailable r) (sr_parseFailureCount r) (sr_integrityFailureCount r)
    (sr_partialDepthCorrupt r) (sr_partialDepthError r) (sr_partialDepthLine r)
    (sr_integritySummary r) (sr_manifestHints r) (sr_sessionDir r) (sr_loadReport r).
Definition noSnapshot : SnapshotDocument := MkSnapshotDocument 0 [].
Definition newReplay : SessionReplay :=
  MkSessionReplay [] [] [] [] [] [] [] noSnapshot false newBook 0 0 0 Ok [] false false 0 0 false [] 0
    newSessionIntegrity newHints [] newReport.

(** ** Rows and snapshots from a live source *)

Definition appendTradeRow (row : TradeRow) (st : SessionReplay) : SessionReplay :=
  st <| sr_trades ::= fun rows => rows ++ [row] |>.
Definition appendBookTickerRow (row : BookTickerRow) (st : SessionReplay) : SessionReplay :=
  st <| sr_bookTickers ::= fun rows => rows ++ [row] |>.
Definition appendDepthRow (row : DepthRow) (st : SessionReplay) : SessionReplay :=
  st <| sr_depths ::= fun rows => rows ++ [row] |>.
Definition appendSnapshotDocument (snapshot : SnapshotDocument) (st : SessionReplay) : SessionReplay :=
  st <| sr_snapshot := snapshot |> <| sr_snapshotLoaded := true |>
     <| sr_book ::= fun book => applySnapshot snapshot (resetBook book) |>.

(** ** The timeline *)

Definition eventLess (a b : Event) : bool :=
  if negb (ev_tsNs a =? ev_tsNs b) then ev_tsNs a <? ev_tsNs b
  else if (0 <? ev_ingestSeq a) && (0 <? ev_ingestSeq b) && negb (ev_ingestSeq a =? ev_ingestSeq b)
  then ev_ingestSeq a <? ev_ingestSeq b
  else if negb (bool_decide (ev_kind a = ev_kind b))
  then EventKind.value (ev_kind a) <? EventKind.value (ev_kind b)
  else ev_rowIndex a <? ev_rowIndex b.

Definition depthEvent (i : nat) (row : DepthRow) : Event :=
  MkEvent (dp_tsNs row) 0 (u32 (Z.of_nat i)) EventKind.Depth.
Definition tradeEvent (i : nat) (row : TradeRow) : Event :=
  MkEvent (tr_tsNs row) (tr_ingestSeq row) (u32 (Z.of_nat i)) EventKind.Trade.
Definition bookTickerEvent (i : nat) (row : BookTickerRow) : Event :=
  MkEvent (bt_tsNs row) (bt_ingestSeq row) (u32 (Z.of_nat i)) EventKind.BookTicker.

(** The events in the order they are pushed. *)
Definition pushedEvents (st : SessionReplay) : list Event :=
  imap depthEvent (sr_depths st) ++ imap tradeEvent (sr_trades st) ++
  imap bookTickerEvent (sr_bookTickers st).
Definition rebuildEvents_ (st : SessionReplay) : SessionReplay :=
  st <| sr_events := stableSort eventLess (pushedEvents st) |>.

Definition itemOf (ev : Event) : BucketItem := MkBucketItem (ev_ingestSeq ev) (ev_rowIndex ev) (ev_kind ev).
Definition pushBucket (buckets : list ReplayBucket) (ev : Event) : list ReplayBucket :=
  match last buckets with
  | Some bucket =>
      if negb (rb_tsNs bucket =? ev_tsNs ev)
      then buckets ++ [MkReplayBucket (ev_tsNs ev) [itemOf ev]]
      else removelast buckets ++ [MkReplayBucket (rb_tsNs bucket) (rb_items bucket ++ [itemOf ev])]
  | None => [MkReplayBucket (ev_tsNs ev) [itemOf ev]]
  end.

(** The bounds of the candles, kept as a pair (first, last). *)
Definition absorbCandleBounds (rows : list CandleRow) (bounds : Z * Z) : Z * Z :=
  match head rows, last rows with
  | Some front, Some back =>
      (if (bounds.1 =? 0) || (cd_tsNs front <? bounds.1) then cd_tsNs front else bounds.1,
       if bounds.2 <? cd_tsNs back then cd_tsNs back else bounds.2)
  | _, _ => bounds
  end.

Definition rebuildBuckets_ (st : SessionReplay) : SessionReplay :=
  let buckets := fold_left pushBucket (sr_events st) [] in
  let st := st <| sr_buckets := buckets |> <| sr_cursor := 0%nat |> in
  let bounded (bounds : Z * Z) := st <| sr_firstTsNs := bounds.1 |> <| sr_lastTsNs := bounds.2 |> in
  match head buckets, last buckets with
  | Some front, Some back => bounded (rb_tsNs front, rb_tsNs back)
  | _, _ =>
      if nonEmpty (sr_candles st) || nonEmpty (sr_candles2 st)
      then bounded (absorbCandleBounds (sr_candles2 st) (absorbCandleBounds (sr_candles st) (0, 0)))
      else if negb (sd_tsNs (sr_snapshot st) =? 0)
      then bounded (sd_tsNs (sr_snapshot st), sd_tsNs (sr_snapshot st))
      else bounded (0, 0)
  end.

(** ** The cursor *)

Definition rewindToSnapshot_ (st : SessionReplay) : SessionReplay :=
  st <| sr_book ::= fun book =>
          let book := resetBook book in
          if sr_snapshotLoaded st then applySnapshot (sr_snapshot st) book else book |>
     <| sr_cursor := 0%nat |>.

Definition applyItem (depths : list DepthRow) (book : BookState) (item : BucketItem) : BookState :=
  if bool_decide (bi_kind item = EventKind.Depth) then
    match depths !! Z.to_nat (bi_rowIndex item) with
    | Some row => applyDelta row book
    | None => book
    end
  else book.
Definition applyBucket_ (depths : list DepthRow) (bucket : ReplayBucket) (book : BookState) : BookState :=
  fold_left (applyItem depths) (rb_items bucket) book.

(** The loop of [seek] over the buckets from the cursor on. *)
Fixpoint advance (depths : list DepthRow) (targetTsNs : Z) (buckets : list ReplayBucket)
  (book : BookState) (cursor : nat) : BookState * nat :=
  match buckets with
  | bucket :: rest =>
      if rb_tsNs bucket <=? targetTsNs
      then advance depths targetTsNs rest (applyBucket_ depths bucket book) (S cursor)
      else (book, cursor)
  | [] => (book, cursor)
  end.

Definition currentTsNs (st : SessionReplay) : Z :=
  match sr_cursor st with
  | O => if negb (sd_tsNs (sr_snapshot st) =? 0) then sd_tsNs (sr_snapshot st) else 0
  | S cursor => from_option rb_tsNs 0 (sr_buckets st !! cursor)
  end.
Definition seek (targetTsNs : Z) (st : SessionReplay) : SessionReplay :=
  if negb (isOk (sr_status st)) then st
  else
    let st := if targetTsNs <? currentTsNs st then rewindToSnapshot_ st else st in
    let '(book, cursor) := advance (sr_depths st) targetTsNs (drop (sr_cursor st) (sr_buckets st))
                             (sr_book st) (sr_cursor st) in
    st <| sr_book := book |> <| sr_cursor := cursor |>.

(** ** Integrity *)

Definition note (incident : IntegrityIncident) (st : SessionReplay) : SessionReplay :=
  st <| sr_integritySummary ::= noteIncident_ incident |>.
Definition onChannel (channel : IntegrityChannel.t)
  (change : ChannelIntegritySummary -> ChannelIntegritySummary) (st : SessionReplay) : SessionReplay :=
  st <| sr_integritySummary ::= onSummary channel change |>.

Definition resetIntegrity_ (st : SessionReplay) : SessionReplay :=
  let notCaptured (c : ChannelIntegritySummary) := c <| ci_state := ChannelHealthState.NotCaptured |> in
  let fresh := newSessionIntegrity <| si_trades ::= notCaptured |> <| si_liquidations ::= notCaptured |>
    <| si_bookTicker ::= notCaptured |> <| si_depth ::= notCaptured |> <| si_snapshot ::= notCaptured |> in
  st <| sr_integritySummary :=
    fold_left (fun summary incident => match incident with
                                       | Some incident => noteIncident_ incident summary
                                       | None => summary
                                       end)
      (mh_capturedIncidents (sr_manifestHints st)) fresh |>.

Definition isCorrupt (c : ChannelIntegritySummary) : bool :=
  bool_decide (ci_state c = ChannelHealthState.Corrupt).
Definition setState (state : ChannelHealthState.t) (c : ChannelIntegritySummary) : ChannelIntegritySummary :=
  c <| ci_state := state |>.
Definition degrade (c : ChannelIntegritySummary) : ChannelIntegritySummary :=
  if isCorrupt c then c else setState ChannelHealthState.Degraded c.
(** Corrupt, and not eligible for exact replay. *)
Definition corruptIneligible (c : ChannelIntegritySummary) : ChannelIntegritySummary :=
  c <| ci_state := ChannelHealthState.Corrupt |> <| ci_exactReplayEligible := false |>.

(** What sequence validation looks at in a row. *)
Record SequenceRow := MkSequenceRow { sq_tsNs : Z; sq_captureSeq : Z; sq_ingestSeq : Z }.
Definition tradeSequence (row : TradeRow) : SequenceRow :=
  MkSequenceRow (tr_tsNs row) (tr_captureSeq row) (tr_ingestSeq row).
Definition bookTickerSequence (row : BookTickerRow) : SequenceRow :=
  MkSequenceRow (bt_tsNs row) (bt_captureSeq row) (bt_ingestSeq row).

(** A failure found by the loop: the row and which sequence did not increase. *)
Inductive SequenceFailure := CaptureFailure (row : nat) (at_ : SequenceRow) | IngestFailure (row : nat) (at_ : SequenceRow).
(** The loop over the rows: the previous row and capture sequence, the row number, and
    whether a capture sequence was seen. *)
Fixpoint sequenceLoop (i : nat) (previous : option SequenceRow) (previousCaptureSeq : Z) (available : bool)
  (rows : list SequenceRow) : option SequenceFailure * bool :=
  match rows with
  | [] => (None, available)
  | row :: rest =>
      let hasCaptureSeq := 0 <? sq_captureSeq row in
      let hasIngestSeq := 0 <? sq_ingestSeq row in
      let available := available || hasCaptureSeq in
      if hasCaptureSeq && negb (previousCaptureSeq =? 0) && (sq_captureSeq row <=? previousCaptureSeq)
      then (Some (CaptureFailure i row), available)
      else
        let captureSeq := if hasCaptureSeq then sq_captureSeq row else previousCaptureSeq in
        if hasIngestSeq &&
           match previous with
           | Some previous => (0 <? sq_ingestSeq previous) && (sq_ingestSeq row <=? sq_ingestSeq previous)
           | None => false
           end
        then (Some (IngestFailure i row), available)
        else sequenceLoop (S i) (Some row) captureSeq available rest
  end.

Definition validateChannel (channel : IntegrityChannel.t) (rows : list SequenceRow) (expectedName : list Z)
  (st : SessionReplay) : bool * SessionReplay :=
  match rows with
  | [] => (true, st)
  | front :: _ =>
      let allHaveIngestSeq := forallb (fun row => 0 <? sq_ingestSeq row) rows in
      let allHaveCaptureSeq := forallb (fun row => 0 <? sq_captureSeq row) rows in
      let anyHaveIngestSeq := existsb (fun row => 0 <? sq_ingestSeq row) rows in
      let anyHaveCaptureSeq := existsb (fun row => 0 <? sq_captureSeq row) rows in
      let '(failure, available) := sequenceLoop 0 None 0 (sr_sequenceValidationAvailable st) rows in
      let st := st <| sr_sequenceValidationAvailable := available |> in
      let fail (detail : list Z) st :=
        onChannel channel (setState ChannelHealthState.Corrupt)
          (st <| sr_integrityFailureCount ::= fun n => n + 1 |> <| sr_errorDetail := detail |>) in
      let nonIncreasing (what : string) (i : nat) (row : SequenceRow) (value : Z) :=
        let detail := expectedName ++ named " " ++ named what ++ named " sequence failure at row " ++
                      appendInt (Z.of_nat i) ++ named ": non-increasing " ++ named what ++ named "Seq" in
        (false, note (MkIntegrityIncident channel IntegrityIncidentKind.DepthNonMonotonic IntegritySeverity.Error
                   (named "non_increasing_" ++ named what ++ named "_seq") detail (sq_tsNs row) (Z.of_nat i)
                   (named "strictly increasing " ++ named what ++ named "Seq") (appendInt value) true)
                  (fail detail st)) in
      let missing (detail reasonCode expected : list Z) :=
        (false, note (MkIntegrityIncident channel IntegrityIncidentKind.UnknownIntegrity IntegritySeverity.Error
                   reasonCode detail (sq_tsNs front) 0 expected [] true) (fail detail st)) in
      match failure with
      | Some (CaptureFailure i row) => nonIncreasing "capture"%string i row (sq_captureSeq row)
      | Some (IngestFailure i row) => nonIncreasing "ingest"%string i row (sq_ingestSeq row)
      | None =>
          if anyHaveCaptureSeq && negb allHaveCaptureSeq
          then missing (expectedName ++ named " capture sequence metadata is missing or inconsistent")
                 (named "missing_capture_seq") (named "all rows have positive captureSeq")
          else if anyHaveIngestSeq && negb allHaveIngestSeq
          then missing (expectedName ++ named " ingest sequence metadata is missing or inconsistent")
                 (named "inconsistent_ingest_seq") (named "all rows either have ingestSeq or do not")
          else if negb (Bool.eqb anyHaveCaptureSeq anyHaveIngestSeq)
          then
            let what := if negb anyHaveCaptureSeq then named "capture" else named "ingest" in
            (true, note (MkIntegrityIncident channel IntegrityIncidentKind.ExactnessUnprovable
                      IntegritySeverity.Warning (named "missing_" ++ what ++ named "_seq")
                      (expectedName ++ named " " ++ what ++
                       named " sequence metadata is absent; exact ordering is unprovable")
                      (sq_tsNs front) 0 (named "positive captureSeq and ingestSeq on every row") [] true)
                     (onChannel channel degrade st))
          else (true, st)
      end
  end.

(** The first place where the sorted ingest sequences do not increase. *)
Fixpoint firstDuplicate (i : nat) (seqs : list Z) : option (nat * Z) :=
  match seqs with
  | a :: ((b :: _) as rest) => if b <=? a then Some (i, b) else firstDuplicate (S i) rest
  | _ => None
  end.

Definition validateSequenceMetadata_ (st : SessionReplay) : bool * SessionReplay :=
  let '(tradesOk, st) :=
    validateChannel IntegrityChannel.Trades (map tradeSequence (sr_trades st)) (named "trades") st in
  let '(bookTickerOk, st) :=
    validateChannel IntegrityChannel.BookTicker (map bookTickerSequence (sr_bookTickers st))
      (named "bookticker") st in
  if negb tradesOk || negb bookTickerOk then (false, st)
  else
    let merged := List.filter (fun seq => 0 <? seq) (map ev_ingestSeq (sr_events st)) in
    match firstDuplicate 1 (merge_sort Z.le merged) with
    | None => (true, st)
    | Some (i, seq) =>
        (true, note (MkIntegrityIncident IntegrityChannel.Trades IntegrityIncidentKind.ExactnessUnprovable
                  IntegritySeverity.Warning (named "duplicate_merged_ingest_seq")
                  (named "merged event ingest sequence contains duplicates across channels; exact ordering is unprovable")
                  0 (Z.of_nat i) (named "unique ingestSeq across all channels") (appendInt seq) true)
                 (onChannel IntegrityChannel.Depth degrade
                   (onChannel IntegrityChannel.BookTicker degrade
                     (onChannel IntegrityChannel.Trades degrade st))))
    end.

Definition validateDepthStream_ (st : SessionReplay) : bool := true.

Definition kLiveStreamStaleGraceNs : Z := 30000000000.
Definition latestReceiveRealtime (arrivals : list EventArrival) : Z :=
  fold_left (fun latest a => if latest <? ea_receiveRealtimeNs a then ea_receiveRealtimeNs a else latest)
    arrivals 0.
Definition markStale (channel : IntegrityChannel.t) (lastReceiveRealtimeNs : Z) (st : SessionReplay)
  : SessionReplay :=
  let endedAtNs := mh_endedAtNs (sr_manifestHints st) in
  if (lastReceiveRealtimeNs <=? 0) || (endedAtNs <=? lastReceiveRealtimeNs) then st
  else if endedAtNs - lastReceiveRealtimeNs <=? kLiveStreamStaleGraceNs then st
  else note (MkIntegrityIncident channel IntegrityIncidentKind.StreamStale IntegritySeverity.Warning
         (named "stream_stale") (named "enabled live stream stopped before session end") endedAtNs 0
         (appendInt endedAtNs) (appendInt lastReceiveRealtimeNs) true) st.
Definition markStaleLiveChannels_ (st : SessionReplay) : SessionReplay :=
  let hints := sr_manifestHints st in
  if mh_endedAtNs hints <=? 0 then st
  else
    let st := if mh_bookTickerEnabled hints && nonEmpty (sr_bookTickers st)
              then markStale IntegrityChannel.BookTicker
                     (latestReceiveRealtime (map bt_arrival (sr_bookTickers st))) st
              else st in
    if mh_orderbookEnabled hints && nonEmpty (sr_depths st)
    then markStale IntegrityChannel.Depth (latestReceiveRealtime (map dp_arrival (sr_depths st))) st
    else st.

(** A reason given where there is none yet. *)
Definition reason (code text : string) (c : ChannelIntegritySummary) : ChannelIntegritySummary :=
  c <| ci_reasonCode ::= fun r => orElse r (bytes_of_string code) |>
    <| ci_reasonText ::= fun r => orElse r (bytes_of_string text) |>.
Definition settle (state : ChannelHealthState.t) (eligible : bool) (c : ChannelIntegritySummary)
  : ChannelIntegritySummary :=
  c <| ci_state := state |> <| ci_exactReplayEligible := eligible |>.

Definition markSimpleChannel (channel : IntegrityChannel.t) (enabled required : bool) (count : nat)
  (summary : SessionIntegritySummary) : SessionIntegritySummary :=
  let c := summaryFor_ channel summary in
  if negb enabled
  then onSummary channel (fun c => reason "not_captured" "channel disabled for session"
                                     (settle ChannelHealthState.NotCaptured false c)) summary
  else if isCorrupt c then onSummary channel (fun c => c <| ci_exactReplayEligible := false |>) summary
  else if negb (ci_incidentCount c =? 0)
  then onSummary channel (settle ChannelHealthState.Degraded false) summary
  else if (count =? 0)%nat then
    if negb required
    then onSummary channel (fun c => reason "empty_optional" "optional channel captured no events"
                                       (settle ChannelHealthState.Clean true c)) summary
    else noteIncident_ (MkIntegrityIncident channel IntegrityIncidentKind.MissingFile IntegritySeverity.Warning
           (named "missing_file") (named "enabled channel has no rows") 0 0 [] [] true)
           (onSummary channel (fun c => reason "missing_file" "enabled channel has no rows"
                                          (settle ChannelHealthState.Missing false c)) summary)
  else onSummary channel (fun c => reason "ok" "channel loaded cleanly" (settle ChannelHealthState.Clean true c))
         summary.

Definition markSnapshot (orderbookEnabled snapshotLoaded : bool) (c : ChannelIntegritySummary)
  : ChannelIntegritySummary :=
  if negb orderbookEnabled
  then reason "not_captured" "orderbook channel disabled for session" (settle ChannelHealthState.NotCaptured false c)
  else if negb snapshotLoaded
  then reason "optional_not_captured" "separate orderbook snapshot file is not part of the corpus"
         (settle ChannelHealthState.NotCaptured false c)
  else if ci_incidentCount c =? 0
  then reason "ok" "snapshot anchor available" (settle ChannelHealthState.Clean true c)
  else c.

Definition markDepth (orderbookEnabled orderbookRequired : bool) (count : nat) (c : ChannelIntegritySummary)
  : ChannelIntegritySummary :=
  if negb orderbookEnabled
  then reason "not_captured" "orderbook channel disabled for session" (settle ChannelHealthState.NotCaptured false c)
  else if isCorrupt c then c <| ci_exactReplayEligible := false |>
  else if (count =? 0)%nat && orderbookRequired
  then reason "missing_file" "depth channel enabled but file has no rows" (settle ChannelHealthState.Missing false c)
  else if ci_incidentCount c =? 0
  then reason "ok" (if (count =? 0)%nat then "optional depth channel captured no events" else "depth rows loaded")
         (settle ChannelHealthState.Clean true c)
  else settle ChannelHealthState.Degraded false c.

Definition finalizeChannelStates_ (st : SessionReplay) : SessionReplay :=
  let hints := sr_manifestHints st in
  st <| sr_integritySummary ::= fun summary =>
    let summary := markSimpleChannel IntegrityChannel.Trades (mh_tradesEnabled hints) (mh_tradesRequired hints)
                     (length (sr_trades st)) summary in
    let summary := markSimpleChannel IntegrityChannel.BookTicker (mh_bookTickerEnabled hints)
                     (mh_bookTickerRequired hints) (length (sr_bookTickers st)) summary in
    summary <| si_snapshot ::= markSnapshot (mh_orderbookEnabled hints) (sr_snapshotLoaded st) |>
            <| si_depth ::= markDepth (mh_orderbookEnabled hints) (mh_orderbookRequired hints)
                              (length (sr_depths st)) |> |>.

(** The loop over the channels: the health so far, and whether the loop has returned. *)
Fixpoint sessionHealthLoop (health : SessionHealth.t) (channels : list ChannelIntegritySummary) : SessionHealth.t :=
  match channels with
  | [] => health
  | c :: rest =>
      if isCorrupt c then SessionHealth.Corrupt
      else sessionHealthLoop
             (if bool_decide (ci_state c = ChannelHealthState.Degraded) ||
                 bool_decide (ci_state c = ChannelHealthState.Missing)
              then SessionHealth.Degraded else health) rest
  end.

Definition refreshHealthSummary_ (st : SessionReplay) : SessionReplay :=
  let st := finalizeChannelStates_ st in
  let hints := sr_manifestHints st in
  st <| sr_integritySummary ::= fun s =>
    let tracked := [(mh_tradesEnabled hints, si_trades s); (mh_bookTickerEnabled hints, si_bookTicker s);
                    (mh_orderbookEnabled hints, si_depth s)] in
    let anyLiveChannel := existsb fst tracked in
    let exact := forallb (fun channel => negb channel.1 || ci_exactReplayEligible channel.2) tracked in
    s <| si_exactReplayEligible := anyLiveChannel && exact && mh_capturedExactReplayEligible hints |>
      <| si_sessionHealth :=
           sessionHealthLoop (if mh_capturedExactReplayEligible hints then SessionHealth.Clean
                              else SessionHealth.Degraded)
             [si_trades s; si_liquidations s; si_bookTicker s; si_depth s; si_snapshot s] |> |>.

Definition restorePartialDepthIncident_ (st : SessionReplay) : SessionReplay :=
  if negb (sr_partialDepthCorrupt st) then st
  else
    note (MkIntegrityIncident IntegrityChannel.Depth IntegrityIncidentKind.ParseError IntegritySeverity.Error
            (named "parse_error") (sr_partialDepthError st) 0 (sr_partialDepthLine st) []
            (named "depth_tape.jsonl+depth_sidecar.jsonl") true)
      (onChannel IntegrityChannel.Depth corruptIneligible
        (st <| sr_errorDetail ::= fun detail => orElse detail (sr_partialDepthError st) |>)).

(** ** Building the timeline *)

(** The part [finalize] and [refreshLiveTimeline] share before the cursor is placed. *)
Definition clearVerdict (st : SessionReplay) : SessionReplay :=
  rebuildBuckets_ (rebuildEvents_ (resetIntegrity_
    (st <| sr_status := Ok |> <| sr_errorDetail := [] |> <| sr_gapDetected := false |>
        <| sr_sequenceValidationAvailable := false |> <| sr_integrityFailureCount := 0 |>))).
Definition isSessionCorrupt (st : SessionReplay) : bool :=
  bool_decide (si_sessionHealth (sr_integritySummary st) = SessionHealth.Corrupt).

Definition refreshLiveTimeline (st : SessionReplay) : SessionReplay :=
  let st := clearVerdict st in
  let depthValid := validateDepthStream_ st in
  let '(sequenceMetadataValid, st) := validateSequenceMetadata_ st in
  let st := refreshHealthSummary_ (markStaleLiveChannels_ st) in
  if negb depthValid || negb sequenceMetadataValid || isSessionCorrupt st
  then st <| sr_status := CorruptData |> else st.

Definition finalize (st : SessionReplay) : SessionReplay :=
  let st := restorePartialDepthIncident_ (rewindToSnapshot_ (clearVerdict st)) in
  let depthValid := validateDepthStream_ st in
  let '(sequenceMetadataValid, st) := validateSequenceMetadata_ st in
  let st := refreshHealthSummary_ (markStaleLiveChannels_ st) in
  let s := sr_integritySummary st in
  let renderablePartialDepth :=
    sr_partialDepthCorrupt st && nonEmpty (sr_depths st) && isCorrupt (si_depth s) &&
    negb (isCorrupt (si_trades s)) && negb (isCorrupt (si_bookTicker s)) && negb (isCorrupt (si_snapshot s)) in
  if negb depthValid || negb sequenceMetadataValid || (isSessionCorrupt st && negb renderablePartialDepth)
  then st <| sr_status := CorruptData |> else st.

(** ** Files *)

Definition statusToString (status : Status) : list Z :=
  bytes_of_string
    (match status with
     | Ok => "Ok"
     | InvalidArgument => "InvalidArgument"
     | IoError => "IoError"
     | OutOfRange => "OutOfRange"
     | CorruptData => "CorruptData"
     | Unimplemented => "Unimplemented"
     | Cancelled => "Cancelled"
     | Unknown => "Unknown"
     end).

(** The loop of [loadJsonl]: the rows, a failure with its status, and the line number. *)
Fixpoint rowLoop {R} (parse : list Z -> Status * option R) (lineNumber : Z) (lines : list (list Z))
  : list R * Status * Z :=
  match lines with
  | [] => ([], Ok, lineNumber)
  | line :: rest =>
      let lineNumber := lineNumber + 1 in
      let line := popReturn line in
      if isEmpty line then rowLoop parse lineNumber rest
      else match parse line with
           | (Ok, Some row) =>
               let '(rows, status, last) := rowLoop parse lineNumber rest in (row :: rows, status, last)
           | (status, _) => ([], status, lineNumber)
           end
  end.

Definition parseDetail (what : list Z) (lineNumber : Z) (status : Status) : list Z :=
  named "failed to parse " ++ what ++ named " line " ++ appendInt lineNumber ++ named ": " ++ statusToString status.

(** [loadJsonl]: a file that does not open has no rows and is no failure. *)
Definition loadJsonl {R} (parse : list Z -> Status * option R) (file : FileView) (name : list Z)
  : list R * Status * Z * option (list Z) :=
  match opened file with
  | None => ([], Ok, 0, None)
  | Some text =>
      let '(rows, status, lineNumber) := rowLoop parse 0 (linesOf text) in
      (rows, status, lineNumber, if isOk status then None else Some (parseDetail name lineNumber status))
  end.

Definition parseError (channel : IntegrityChannel.t) (reasonCode detail : list Z) (lineNumber : Z) (observed : list Z)
  : IntegrityIncident :=
  MkIntegrityIncident channel IntegrityIncidentKind.ParseError IntegritySeverity.Error reasonCode detail 0
    lineNumber [] observed true.
Definition failedParse (st : SessionReplay) : SessionReplay := st <| sr_parseFailureCount ::= fun n => n + 1 |>.
(** An empty path on a live channel. *)
Definition emptyPath (channel : IntegrityChannel.t) (detail : list Z) (st : SessionReplay) : SessionReplay :=
  note (parseError channel (named "invalid_argument") detail 0 [])
    (failedParse (st <| sr_errorDetail := detail |>)).
(** A file of a live channel that did not parse. *)
Definition badFile (channel : IntegrityChannel.t) (lineNumber : Z) (path : list Z) (st : SessionReplay)
  : SessionReplay :=
  note (parseError channel (named "parse_error") (sr_errorDetail st) lineNumber (fileName path))
    (onChannel channel corruptIneligible (failedParse st)).

Section files.
Context (fs : FileSystem).

Definition addTradesFile (path : list Z) (st : SessionReplay) : Status * SessionReplay :=
  if isEmpty path
  then (InvalidArgument, emptyPath IntegrityChannel.Trades (named "trades path is empty") st)
  else
    let '(rows, status, lineNumber, detail) := loadJsonl parseTradeLine (fs_file fs path) (fileName path) in
    let st := st <| sr_trades ::= fun old => old ++ rows |> <| sr_errorDetail ::= fun old => default old detail |> in
    (status, if isOk status then st else badFile IntegrityChannel.Trades lineNumber path st).

Definition addBookTickerFile (path : list Z) (st : SessionReplay) : Status * SessionReplay :=
  if isEmpty path
  then (InvalidArgument, emptyPath IntegrityChannel.BookTicker (named "bookticker path is empty") st)
  else
    let '(rows, status, lineNumber, detail) := loadJsonl parseBookTickerLine (fs_file fs path) (fileName path) in
    let st := st <| sr_bookTickers ::= fun old => old ++ rows |>
                 <| sr_errorDetail ::= fun old => default old detail |> in
    (status, if isOk status then st else badFile IntegrityChannel.BookTicker lineNumber path st).

Definition candleLess (lhs rhs : CandleRow) : bool :=
  if negb (cd_tsNs lhs =? cd_tsNs rhs) then cd_tsNs lhs <? cd_tsNs rhs else cd_tier lhs <? cd_tier rhs.
Definition sortCandles (rows : list CandleRow) : list CandleRow := stableSort candleLess rows.

Definition addCandlesFile (path : list Z) (rebuildTimeline : bool) (st : SessionReplay) : Status * SessionReplay :=
  if isEmpty path
  then (InvalidArgument, failedParse (st <| sr_errorDetail := named "candles path is empty" |>))
  else
    let '(rows, status, lineNumber, detail) := loadJsonl parseFinamArchiveCandle (fs_file fs path) (fileName path) in
    let st := st <| sr_candles ::= fun old => old ++ rows |> <| sr_errorDetail ::= fun old => default old detail |> in
    if negb (isOk status) then (status, failedParse st <| sr_status := status |>)
    else
      let st := st <| sr_candles ::= sortCandles |> in
      (Ok, if rebuildTimeline then rebuildBuckets_ st else st).

Definition addCandles2File (path : list Z) (rebuildTimeline : bool) (st : SessionReplay) : Status * SessionReplay :=
  if isEmpty path
  then (InvalidArgument, failedParse (st <| sr_errorDetail := named "candles2 path is empty" |>))
  else
    let '(rows, status, lineNumber, detail) := loadJsonl parseFinamArchiveCandle (fs_file fs path) (fileName path) in
    let st := st <| sr_candles2 ::= fun old => old ++ rows |> <| sr_errorDetail ::= fun old => default old detail |> in
    if negb (isOk status) then (status, failedParse st <| sr_status := status |>)
    else
      let st := st <| sr_candles2 ::= sortCandles |> in
      (Ok, if rebuildTimeline then rebuildBuckets_ st else st).

(** [loadDepthTapeSidecarJsonl]: the rows kept, the status, the line number and the detail.
    Without [allowPartial] a failure keeps no row. *)
Definition loadDepthTapeSidecarJsonl (tape sidecar : FileView) (allowPartial : bool)
  : list DepthRow * Status * Z * option (list Z) :=
  if negb (fileExists tape) && negb (fileExists sidecar) then ([], Ok, 0, None)
  else if negb (fileExists tape) || negb (fileExists sidecar)
  then ([], CorruptData, 0, Some (named "depth_tape/depth_sidecar package is incomplete"))
  else
    match opened tape, opened sidecar with
    | Some tapeText, Some sidecarText =>
        let '(out, failed) := depthLineLoop 0 (linesOf tapeText) (linesOf sidecarText) in
        let rows := (fun row => row.1.1) <$> out in
        let kept := if allowPartial then rows else [] in
        match failed with
        | None => (rows, Ok, Z.of_nat (length (linesOf tapeText)), None)
        | Some (LineCounts lineNumber) =>
            (kept, CorruptData, lineNumber,
             Some (named "depth_tape/depth_sidecar line count mismatch at line " ++ appendInt lineNumber))
        | Some (BadLine lineNumber) =>
            (kept, CorruptData, lineNumber,
             Some (parseDetail (named "depth_tape/depth_sidecar") lineNumber CorruptData))
        end
    | _, _ => ([], IoError, 0, Some (named "failed to open depth_tape/depth_sidecar package"))
    end.

Definition siblingPath (path name : list Z) : list Z :=
  take (length path - length (fileName path)) path ++ name.

Definition addDepthFile_ (path : list Z) (allowPartial : bool) (st : SessionReplay) : Status * SessionReplay :=
  if isEmpty path
  then (InvalidArgument, emptyPath IntegrityChannel.Depth (named "depth path is empty") st)
  else
    let tapeName := named "depth_tape.jsonl" in
    let sidecarName := named "depth_sidecar.jsonl" in
    let isTape := bool_decide (fileName path = tapeName) in
    let isSidecar := bool_decide (fileName path = sidecarName) in
    let '(rows, status, lineNumber, detail) :=
      if negb isTape && negb isSidecar
      then ([], InvalidArgument, 0,
            Some (named "current depth input must be depth_tape.jsonl or depth_sidecar.jsonl"))
      else loadDepthTapeSidecarJsonl (fs_file fs (if isTape then path else siblingPath path tapeName))
             (fs_file fs (if isSidecar then path else siblingPath path sidecarName)) allowPartial in
    let st := st <| sr_depths ::= fun old => old ++ rows |> <| sr_errorDetail ::= fun old => default old detail |> in
    if isOk status then (status, st)
    else
      let st := badFile IntegrityChannel.Depth lineNumber path st in
      let st := if allowPartial && nonEmpty (sr_depths st)
                then st <| sr_partialDepthCorrupt := true |> <| sr_partialDepthError := sr_errorDetail st |>
                        <| sr_partialDepthLine := lineNumber |>
                else st in
      (status, refreshHealthSummary_ st).
Definition addDepthFile (path : list Z) (st : SessionReplay) : Status * SessionReplay := addDepthFile_ path false st.
Definition addDepthFileAllowPartial (path : list Z) (st : SessionReplay) : Status * SessionReplay :=
  addDepthFile_ path true st.

(** ** The manifest *)

Definition retainIncident (index : nat) (channel : IntegrityChannel.t) (runtime : ChannelRuntimeHealth)
  (captured : ChannelIntegritySummary) (st : SessionReplay) : SessionReplay :=
  if (rh_reconnectCount runtime =? 0) && (rh_droppedEventCount runtime =? 0) &&
     (rh_unroutableEventCount runtime =? 0) && isEmpty (rh_lastError runtime) &&
     negb (bool_decide (rh_state runtime = named "terminal")) && (ci_incidentCount captured =? 0)
  then st
  else
    let incident := MkIntegrityIncident channel IntegrityIncidentKind.CaptureAborted IntegritySeverity.Warning
      (named "captured_runtime_incident")
      (if isEmpty (rh_lastError runtime) then named "capture manifest retains a channel incident"
       else rh_lastError runtime) 0 0 [] [] true in
    note incident
      (st <| sr_manifestHints ::= fun h => h <| mh_capturedIncidents ::= <[index := Some incident]> |> |>).

Definition applyManifestHints_ (m : SessionManifest) (st : SessionReplay) : SessionReplay :=
  let status := sm_sessionStatus m in
  let st := st <| sr_manifestHints := MkManifestHints true (sm_exchange m) (sm_tradesEnabled m)
      (sm_tradesRequiredWhenEnabled m) (sm_bookTickerEnabled m) (sm_bookTickerRequiredWhenEnabled m)
      (sm_orderbookEnabled m) (sm_orderbookRequiredWhenEnabled m) (sm_endedAtNs m)
      (bool_decide (status = named "recording") ||
       (bool_decide (status = named "complete") && sm_exactReplayEligible m)) [None; None; None] |> in
  retainIncident 2 IntegrityChannel.Depth (sm_depthRuntime m) (sm_depthIntegrity m)
    (retainIncident 1 IntegrityChannel.BookTicker (sm_bookTickerRuntime m) (sm_bookTickerIntegrity m)
      (retainIncident 0 IntegrityChannel.Trades (sm_tradesRuntime m) (sm_tradesIntegrity m) st)).

Definition loadManifestHints_ (sessionDir : list Z) (st : SessionReplay) : SessionReplay :=
  match opened (fs_file fs (joinPath sessionDir (named "manifest.json"))) with
  | None => st
  | Some document =>
      match parseManifestJson document with
      | (Ok, Some m) => applyManifestHints_ m st
      | _ => st
      end
  end.

(** ** Opening a session *)

Definition reset (st : SessionReplay) : SessionReplay :=
  resetIntegrity_
    (MkSessionReplay [] [] [] [] [] [] [] noSnapshot false (resetBook (sr_book st)) 0 0 0 Ok [] false false 0 0
       false [] 0 (sr_integritySummary st) newHints [] newReport).

Definition sameLevelKey (lhs rhs : PricePair) : bool :=
  (pp_priceE8 lhs =? pp_priceE8 rhs) && (pp_side lhs =? pp_side rhs).
Definition containsLevelKey (levels : list PricePair) (needle : PricePair) : bool :=
  existsb (fun level => sameLevelKey level needle) levels.
Definition hasDeleteLevel (rows : list DepthRow) : bool :=
  existsb (fun row => existsb (fun level => pp_qtyE8 level =? 0) (dp_levels row)) rows.
(** The loop over the rows with the levels of the previous one. *)
Fixpoint normalizeLoop (previousLevels : list PricePair) (rows : list DepthRow) : list DepthRow :=
  match rows with
  | [] => []
  | row :: rest =>
      let currentLevels := List.filter (fun level => 0 <? pp_qtyE8 level) (dp_levels row) in
      let deletes := map (fun previous => MkPricePair (pp_priceE8 previous) 0 (pp_side previous))
                       (List.filter (fun previous => negb (containsLevelKey currentLevels previous)) previousLevels) in
      row <| dp_levels ::= fun levels => levels ++ deletes |> :: normalizeLoop currentLevels rest
  end.
Definition normalizeFixedDepthSnapshotDeltas (rows : list DepthRow) : list DepthRow :=
  if hasDeleteLevel rows then rows else normalizeLoop [] rows.

Definition isParseIssue (code : LoadIssueCode.t) : bool :=
  bool_decide (code = LoadIssueCode.InvalidJsonLine) || bool_decide (code = LoadIssueCode.InvalidJsonDocument) ||
  bool_decide (code = LoadIssueCode.InvalidManifest).
Definition markIssue (issue : LoadIssue) (channel : IntegrityChannel.t) (summary : SessionIntegritySummary)
  : SessionIntegritySummary :=
  let code := LoadIssueCode.toString (li_code issue) in
  let summary := onSummary channel (fun c =>
    c <| ci_state := ChannelHealthState.Corrupt |> <| ci_exactReplayEligible := false |>
      <| ci_incidentCount ::= fun n => n + 1 |>
      <| ci_parseErrorCount ::= fun n => if isParseIssue (li_code issue) then n + 1 else n |>
      <| ci_highestSeverity := IntegritySeverity.Error |>
      <| ci_reasonCode := code |> <| ci_reasonText := li_detail issue |>) summary in
  summary <| si_incidents ::= fun incidents => incidents ++
               [MkIntegrityIncident channel IntegrityIncidentKind.ParseError IntegritySeverity.Error code
                  (li_detail issue) 0 (li_lineOrRow issue) [] (li_artifact issue) true] |>
          <| si_totalIncidents ::= fun n => n + 1 |> <| si_highestSeverity := IntegritySeverity.Error |>
          <| si_sessionHealth := SessionHealth.Corrupt |> <| si_exactReplayEligible := false |>.
Definition applyLoadIssueToIntegritySummary (issue : LoadIssue) (summary : SessionIntegritySummary)
  : SessionIntegritySummary :=
  let isChannel (name : string) := bool_decide (li_channel issue = bytes_of_string name) in
  if isChannel "trades" then markIssue issue IntegrityChannel.Trades summary
  else if isChannel "liquidations" then markIssue issue IntegrityChannel.Liquidations summary
  else if isChannel "bookticker" then markIssue issue IntegrityChannel.BookTicker summary
  else if isChannel "depth" then markIssue issue IntegrityChannel.Depth summary
  else if isChannel "snapshot" then markIssue issue IntegrityChannel.Snapshot summary
  else summary.

Definition issueDetail (issue : LoadIssue) : list Z :=
  if negb (isEmpty (li_artifact issue)) && negb (li_lineOrRow issue =? 0)
  then li_artifact issue ++ named " line " ++ appendInt (li_lineOrRow issue) ++ named ": " ++ li_detail issue
  else if negb (isEmpty (li_artifact issue)) then li_artifact issue ++ named ": " ++ li_detail issue
  else li_detail issue.

(** The rows of the lines of a loaded corpus: [None] when one does not parse. *)
Fixpoint corpusRows {R} (parse : list Z -> Status * option R) (lines : list (list Z)) : list R * Status :=
  match lines with
  | [] => ([], Ok)
  | line :: rest =>
      if isEmpty line then corpusRows parse rest
      else match parse line with
           | (Ok, Some row) => let '(rows, status) := corpusRows parse rest in (row :: rows, status)
           | (status, _) => ([], status)
           end
  end.

(** A line of the corpus that does not parse. *)
Definition badCorpusLine (detail : string) (status : Status) (st : SessionReplay) : Status * SessionReplay :=
  (status, refreshHealthSummary_ (failedParse (st <| sr_errorDetail := bytes_of_string detail |>)
                                    <| sr_status := status |>)).

Definition openLoaded (loaded : Status * SessionCorpus * LoadReport) (st : SessionReplay) : Status * SessionReplay :=
  let '(status, corpus, report) := loaded in
  let st := st <| sr_loadReport := report |> <| sr_status := status |> in
  let st := if lr_manifestPresent report then applyManifestHints_ (sc_manifest corpus) st
            else loadManifestHints_ (sr_sessionDir st) st in
  if negb (isOk status) then
    let st := failedParse st in
    let st := match lr_issues report with
              | issue :: _ =>
                  st <| sr_integritySummary ::= applyLoadIssueToIntegritySummary issue |>
                     <| sr_errorDetail := issueDetail issue |>
              | [] => st <| sr_errorDetail ::= fun detail => orElse detail (named "failed to load session corpus") |>
              end in
    (status, refreshHealthSummary_ st)
  else
    let '(trades, tradesStatus) := corpusRows parseTradeLine (sc_tradeLines corpus) in
    let st := st <| sr_trades := trades |> in
    if negb (isOk tradesStatus)
    then badCorpusLine "failed to parse trades.jsonl line from loaded corpus" tradesStatus st
    else
    let '(tickers, tickersStatus) := corpusRows parseBookTickerLine (sc_bookTickerLines corpus) in
    let st := st <| sr_bookTickers := tickers |> in
    if negb (isOk tickersStatus)
    then badCorpusLine "failed to parse bookticker.jsonl line from loaded corpus" tickersStatus st
    else
    let '(candles, candlesStatus) := corpusRows parseFinamArchiveCandle (sc_candleLines corpus) in
    let st := st <| sr_candles := candles |> in
    if negb (isOk candlesStatus)
    then badCorpusLine "failed to parse candles.jsonl line from loaded corpus" candlesStatus st
    else
    let '(candles2, candles2Status) := corpusRows parseFinamArchiveCandle (sc_candle2Lines corpus) in
    let st := st <| sr_candles2 := candles2 |> in
    if negb (isOk candles2Status)
    then badCorpusLine "failed to parse candles2.jsonl line from loaded corpus" candles2Status st
    else
    let st := st <| sr_candles ::= sortCandles |> <| sr_candles2 ::= sortCandles |> in
    let depths := sc_depthRows corpus in
    let st := st <| sr_depths := if bool_decide (mh_exchange (sr_manifestHints st) = named "bitget")
                                 then normalizeFixedDepthSnapshotDeltas depths else depths |> in
    let st := finalize st in
    (sr_status st, st).

(** [reports/integrity_report.json] *)
Definition incidentText (i : IntegrityIncident) : list Z := objectText 6 4 [
  ("channel", quote (IntegrityChannel.toString (in_channel i)));
  ("kind", quote (IntegrityIncidentKind.toString (in_kind i)));
  ("severity", quote (IntegritySeverity.toString (in_severity i)));
  ("reason_code", quote (in_reasonCode i));
  ("message", quote (in_message i));
  ("detected_at_ts_ns", appendInt (in_detectedAtTsNs i));
  ("row_index", appendInt (in_rowIndex i));
  ("expected_value", quote (in_expectedValue i));
  ("observed_value", quote (in_observedValue i));
  ("exactness_lost", boolToString (in_exactnessLost i))].
Fixpoint incidentsText (incidents : list IntegrityIncident) : list Z :=
  match incidents with
  | [] => []
  | [i] => spaces 4 ++ incidentText i ++ [Ch.newline]
  | i :: rest => spaces 4 ++ incidentText i ++ [Ch.comma; Ch.newline] ++ incidentsText rest
  end.
Definition integrityReportText (s : SessionIntegritySummary) : list Z := objectText 2 0 [
  ("session_health", quote (SessionHealth.toString (si_sessionHealth s)));
  ("exact_replay_eligible", boolToString (si_exactReplayEligible s));
  ("total_incidents", appendInt (si_totalIncidents s));
  ("highest_severity", quote (IntegritySeverity.toString (si_highestSeverity s)));
  ("channels", objectText 4 2 [
    ("trades", channelIntegrityText (si_trades s));
    ("liquidations", channelIntegrityText (si_liquidations s));
    ("bookticker", channelIntegrityText (si_bookTicker s));
    ("depth", channelIntegrityText (si_depth s));
    ("snapshot", channelIntegrityText (si_snapshot s))]);
  ("incidents", [Ch.openBracket; Ch.newline] ++ incidentsText (si_incidents s) ++ spaces 2 ++ [Ch.closeBracket])]
  ++ [Ch.newline].
(** The report written at the end of [open], when the session has a directory. *)
Definition maybeWriteIntegrityReport_ (st : SessionReplay) : option (list Z) :=
  if isEmpty (sr_sessionDir st) then None else Some (integrityReportText (sr_integritySummary st)).

Definition open (sessionDir : list Z) (st : SessionReplay) : Status * SessionReplay * option (list Z) :=
  let st := reset st <| sr_sessionDir := sessionDir |> in
  let '(status, st) := openLoaded (loadDetailed fs sessionDir) st in
  (status, st, maybeWriteIntegrityReport_ st).

End files.
