(* ===== verification/ReplayTimeline.v ===== *)
(** * ReplayTimeline: the timeline of a session and the book at a time

    The merged timeline holds every row once, in the order of the comparator, and the
    buckets partition it by timestamp.  From a finalized session every sequence of seeks
    leaves the book of the snapshot and the depth rows up to the last target. *)
From stdpp Require Import base list numbers strings gmap sorting.
From S2P Require Import Prelude Codec Json JsonObject Integrity SessionManifest Instrument Rows Loader Book Replay.
Local Open Scope Z_scope.

(** ** Stable sorting *)

Section stable_sort.
Context {A : Type} (less : A -> A -> bool).

Lemma insertStable_permutation x ys : insertStable less x ys ≡ₚ x :: ys.
Proof.
  induction ys as [|y ys IH]; [done|]. cbn. destruct (less y x); [|done].
  rewrite IH. apply Permutation_swap.
Qed.

Lemma stableSort_permutation xs : stableSort less xs ≡ₚ xs.
Proof.
  induction xs as [|x xs IH]; [done|]. cbn. rewrite insertStable_permutation. by rewrite IH.
Qed.

(** On the elements of [dom] the comparator orders strictly, and elements it does not
    order are interchangeable: what [std::stable_sort] asks for. *)
Record strictWeak (dom : A -> Prop) : Prop := {
  sw_irreflexive : forall x, dom x -> less x x = false;
  sw_transitive : forall x y z, dom x -> dom y -> dom z ->
    less x y = true -> less y z = true -> less x z = true;
  sw_incomparable : forall x y z, dom x -> dom y -> dom z ->
    less x y = false -> less y z = false -> less x z = false;
}.

Lemma strictWeak_asym dom x y : strictWeak dom -> dom x -> dom y -> less x y = true -> less y x = false.
Proof.
  intros Hs Hx Hy Hxy. destruct (less y x) eqn:E; [|done].
  pose proof (sw_transitive dom Hs x y x Hx Hy Hx Hxy E) as H.
  by rewrite (sw_irreflexive dom Hs x Hx) in H.
Qed.

Lemma insertStable_forall (P : A -> Prop) x ys : P x -> Forall P ys -> Forall P (insertStable less x ys).
Proof. intros Hx Hy. rewrite insertStable_permutation. by constructor. Qed.

Lemma stableSort_forall (P : A -> Prop) xs : Forall P xs -> Forall P (stableSort less xs).
Proof. intros H. by rewrite stableSort_permutation. Qed.

(** Nothing that follows is less. *)
Definition ordered (xs : list A) : Prop := StronglySorted (fun x y => less y x = false) xs.

Lemma insertStable_ordered dom x ys : strictWeak dom -> dom x -> Forall dom ys ->
  ordered ys -> ordered (insertStable less x ys).
Proof.
  intros Hs Hx. induction ys as [|y ys IH]; intros Hd Ho; cbn; [by repeat constructor|].
  apply Forall_cons in Hd as [Hy Hd]. apply StronglySorted_inv in Ho as [Ho Hall].
  destruct (less y x) eqn:E.
  - constructor; [by apply IH|]. apply insertStable_forall; [|done]. by eapply strictWeak_asym.
  - constructor; [by constructor|]. constructor; [done|]. rewrite Forall_forall in Hall, Hd |- *.
    intros z Hz. exact (sw_incomparable dom Hs z y x (Hd z Hz) Hy Hx (Hall z Hz) E).
Qed.

Lemma stableSort_ordered dom xs : strictWeak dom -> Forall dom xs -> ordered (stableSort less xs).
Proof.
  intros Hs. induction 1 as [|x xs Hx Hd IH]; [constructor|]. cbn.
  apply (insertStable_ordered dom); [done|done| |done]. by apply stableSort_forall.
Qed.

(** An order in which no two elements tie has one arrangement. *)
Lemma ordered_unique dom xs : forall ys, strictWeak dom -> Forall dom xs ->
  (forall x y, dom x -> dom y -> less x y = false -> less y x = false -> x = y) ->
  ordered xs -> ordered ys -> xs ≡ₚ ys -> xs = ys.
Proof.
  induction xs as [|x xs IH]; intros ys Hs Hd Htie Hx Hy Hp.
  { by apply Permutation_nil in Hp. }
  destruct ys as [|y ys]; [by apply Permutation_sym, Permutation_nil in Hp|].
  assert (Forall dom (y :: ys)) as Hd' by (by rewrite <- Hp).
  apply Forall_cons in Hd as [Dx Hd]. apply Forall_cons in Hd' as [Dy Hd'].
  apply StronglySorted_inv in Hx as [Hx Hxall]. apply StronglySorted_inv in Hy as [Hy Hyall].
  assert (x = y) as ->.
  { apply Htie; [done|done| |].
    - assert (x ∈ y :: ys) as Hin by (rewrite <- Hp; left). apply elem_of_cons in Hin as [->|Hin].
      + by apply (sw_irreflexive dom).
      + rewrite Forall_forall in Hyall. by apply Hyall.
    - assert (y ∈ x :: xs) as Hin by (rewrite Hp; left). apply elem_of_cons in Hin as [->|Hin].
      + by apply (sw_irreflexive dom).
      + rewrite Forall_forall in Hxall. by apply Hxall. }
  f_equal. apply IH; try done. by apply Permutation_cons_inv in Hp.
Qed.

End stable_sort.

(** ** The comparator of events *)

(** Each channel either numbers all of its events or none. *)
Definition numbered (trades tickers : bool) (ev : Event) : Prop :=
  match ev_kind ev with
  | EventKind.Depth => ev_ingestSeq ev = 0
  | EventKind.Trade => (0 <? ev_ingestSeq ev) = trades
  | EventKind.BookTicker => (0 <? ev_ingestSeq ev) = tickers
  end.

(** Lexicographic order of keys of one length. *)
Fixpoint lexLess (a b : list Z) : bool :=
  match a, b with
  | x :: a, y :: b => if x =? y then lexLess a b else x <? y
  | _, _ => false
  end.

Lemma lexLess_irreflexive a : lexLess a a = false.
Proof. induction a as [|x a IH]; [done|]. cbn. by rewrite Z.eqb_refl. Qed.

Lemma lexLess_transitive a : forall b c, length a = length b -> length b = length c ->
  lexLess a b = true -> lexLess b c = true -> lexLess a c = true.
Proof.
  induction a as [|x a IH]; intros [|y b] [|z c]; cbn; try done. intros [= H1] [= H2].
  destruct (Z.eqb_spec x y) as [E1|E1]; destruct (Z.eqb_spec y z) as [E2|E2];
    destruct (Z.eqb_spec x z) as [E3|E3]; rewrite ?Z.ltb_lt; try lia.
  by apply IH.
Qed.

Lemma lexLess_incomparable a : forall b c, length a = length b -> length b = length c ->
  lexLess a b = false -> lexLess b c = false -> lexLess a c = false.
Proof.
  induction a as [|x a IH]; intros [|y b] [|z c]; cbn; try done. intros [= H1] [= H2].
  destruct (Z.eqb_spec x y) as [E1|E1]; destruct (Z.eqb_spec y z) as [E2|E2];
    destruct (Z.eqb_spec x z) as [E3|E3]; rewrite ?Z.ltb_ge; try lia.
  by apply IH.
Qed.

Lemma lexLess_tie a : forall b, length a = length b -> lexLess a b = false -> lexLess b a = false -> a = b.
Proof.
  induction a as [|x a IH]; intros [|y b]; cbn; try done. intros [= Hl].
  destruct (Z.eqb_spec x y) as [E1|E1]; destruct (Z.eqb_spec y x) as [E2|E2]; rewrite ?Z.ltb_ge; try lia.
  intros H1 H2. f_equal; [done|]. by apply IH.
Qed.

(** The key the comparator follows: within a timestamp the events of numbered channels by
    their number, the others by kind and row. *)
Definition eventKey (trades tickers : bool) (ev : Event) : list Z :=
  let seq := if 0 <? ev_ingestSeq ev then ev_ingestSeq ev else 0 in
  let kind := EventKind.value (ev_kind ev) in
  if trades && tickers
  then [ev_tsNs ev; if bool_decide (ev_kind ev = EventKind.Depth) then 0 else 1; seq; kind; ev_rowIndex ev]
  else [ev_tsNs ev; kind; seq; 0; ev_rowIndex ev].

Lemma eventLess_key trades tickers a b : numbered trades tickers a -> numbered trades tickers b ->
  eventLess a b = lexLess (eventKey trades tickers a) (eventKey trades tickers b).
Proof.
  destruct a as [ta sa ra ka], b as [tb sb rb kb]. unfold numbered, eventLess, eventKey. cbn.
  intros Ha Hb. destruct trades, tickers, ka, kb; cbn in Ha, Hb |- *; rewrite ?Ha, ?Hb; subst; cbn;
    destruct (Z.eqb_spec ta tb); cbn; try done;
    try (destruct (Z.eqb_spec sa sb); cbn; try done);
    destruct (Z.eqb_spec ra rb); subst; rewrite ?Z.ltb_irrefl; done.
Qed.

Lemma eventKey_length trades tickers ev : length (eventKey trades tickers ev) = 5%nat.
Proof. unfold eventKey. by destruct (trades && tickers). Qed.

Lemma eventLess_strictWeak trades tickers : strictWeak eventLess (numbered trades tickers).
Proof.
  split.
  - intros x Hx. rewrite (eventLess_key trades tickers) by done. apply lexLess_irreflexive.
  - intros x y z Hx Hy Hz. rewrite !(eventLess_key trades tickers) by done.
    apply lexLess_transitive; by rewrite !eventKey_length.
  - intros x y z Hx Hy Hz. rewrite !(eventLess_key trades tickers) by done.
    apply lexLess_incomparable; by rewrite !eventKey_length.
Qed.

(** ** The events of a session *)

Definition uniform (numbers : bool) (seqs : list Z) : Prop := Forall (fun seq => (0 <? seq) = numbers) seqs.
(** Channels that number all rows or none, and fit the 32-bit row index. *)
Record sequenced (st : SessionReplay) : Prop := {
  sq_trades : exists numbers, uniform numbers (map tr_ingestSeq (sr_trades st));
  sq_tickers : exists numbers, uniform numbers (map bt_ingestSeq (sr_bookTickers st));
  sq_sizes : Forall (fun n => Z.of_nat n <= 2 ^ 32)
    [length (sr_trades st); length (sr_bookTickers st); length (sr_depths st)];
}.

Lemma pushedEvents_numbered st : sequenced st ->
  exists trades tickers, Forall (numbered trades tickers) (pushedEvents st).
Proof.
  intros [[trades Ht] [tickers Hb] _]. exists trades, tickers. unfold pushedEvents.
  rewrite !Forall_app. split_and!; apply Forall_lookup; intros i ev Hev;
    rewrite list_lookup_imap in Hev; apply fmap_Some in Hev as (row & Hrow & ->); cbn; [done|..].
  - unfold uniform in Ht. rewrite Forall_map, Forall_lookup in Ht. by eapply Ht.
  - unfold uniform in Hb. rewrite Forall_map, Forall_lookup in Hb. by eapply Hb.
Qed.

(** A kind and a row name one event. *)
Lemma imap_event {R} (f : nat -> R -> Event) kind rows ev : (forall i row, ev_kind (f i row) = kind) ->
  (forall i row, ev_rowIndex (f i row) = u32 (Z.of_nat i)) -> Z.of_nat (length rows) <= 2 ^ 32 ->
  ev ∈ imap f rows -> ev_kind ev = kind /\ 0 <= ev_rowIndex ev /\
  exists row, rows !! Z.to_nat (ev_rowIndex ev) = Some row /\ ev = f (Z.to_nat (ev_rowIndex ev)) row.
Proof.
  intros Hk Hi Hl Hin. apply list_elem_of_lookup in Hin as [i Hev]. rewrite list_lookup_imap in Hev.
  apply fmap_Some in Hev as (row & Hrow & ->). rewrite Hk, Hi. pose proof (lookup_lt_Some _ _ _ Hrow).
  rewrite u32_id by (unfold in_u32; lia). rewrite Nat2Z.id. split_and!; [done|lia|by exists row].
Qed.

Lemma pushed_unique st x y : sequenced st -> x ∈ pushedEvents st -> y ∈ pushedEvents st ->
  ev_kind x = ev_kind y -> ev_rowIndex x = ev_rowIndex y -> x = y.
Proof.
  intros [_ _ Hs]. repeat (apply Forall_cons in Hs as [? Hs]). unfold pushedEvents.
  assert (forall ev, ev ∈ imap depthEvent (sr_depths st) ++ imap tradeEvent (sr_trades st) ++
            imap bookTickerEvent (sr_bookTickers st) ->
    match ev_kind ev with
    | EventKind.Depth => exists row, sr_depths st !! Z.to_nat (ev_rowIndex ev) = Some row /\
                           ev = depthEvent (Z.to_nat (ev_rowIndex ev)) row
    | EventKind.Trade => exists row, sr_trades st !! Z.to_nat (ev_rowIndex ev) = Some row /\
                           ev = tradeEvent (Z.to_nat (ev_rowIndex ev)) row
    | EventKind.BookTicker => exists row, sr_bookTickers st !! Z.to_nat (ev_rowIndex ev) = Some row /\
                                ev = bookTickerEvent (Z.to_nat (ev_rowIndex ev)) row
    end) as Hrow.
  { intros ev. rewrite !elem_of_app. intros [Hin|[Hin|Hin]].
    - destruct (imap_event depthEvent EventKind.Depth _ ev ltac:(done) ltac:(done) ltac:(done) Hin) as (-> & _ & H').
      exact H'.
    - destruct (imap_event tradeEvent EventKind.Trade _ ev ltac:(done) ltac:(done) ltac:(done) Hin) as (-> & _ & H').
      exact H'.
    - destruct (imap_event bookTickerEvent EventKind.BookTicker _ ev ltac:(done) ltac:(done) ltac:(done) Hin)
        as (-> & _ & H'). exact H'. }
  intros Hx%Hrow Hy%Hrow Hk Hr. rewrite Hk, Hr in Hx.
  destruct (ev_kind y); destruct Hx as (row & Hx & ->), Hy as (row' & Hy & ->); congruence.
Qed.

Lemma eventLess_tie trades tickers x y : numbered trades tickers x -> numbered trades tickers y ->
  eventLess x y = false -> eventLess y x = false -> ev_kind x = ev_kind y /\ ev_rowIndex x = ev_rowIndex y.
Proof.
  intros Hx Hy. rewrite !(eventLess_key trades tickers) by done. intros H1 H2.
  assert (eventKey trades tickers x = eventKey trades tickers y) as E
    by (apply lexLess_tie; [by rewrite !eventKey_length|done|done]).
  unfold eventKey in E. destruct (trades && tickers); injection E as _ ?; 
    (split; [|congruence]); destruct (ev_kind x), (ev_kind y); cbn in *; congruence.
Qed.

(** The timeline is the one arrangement of the rows the comparator allows. *)
Lemma timeline_unique st : sequenced st ->
  sr_events (rebuildEvents_ st) ≡ₚ pushedEvents st /\ ordered eventLess (sr_events (rebuildEvents_ st)) /\
  forall ys, ys ≡ₚ pushedEvents st -> ordered eventLess ys -> ys = sr_events (rebuildEvents_ st).
Proof.
  intros Hs. destruct (pushedEvents_numbered st Hs) as (trades & tickers & Hn). cbn [rebuildEvents_ sr_events upd].
  pose proof (stableSort_permutation eventLess (pushedEvents st)) as Hp.
  pose proof (stableSort_ordered eventLess _ _ (eventLess_strictWeak trades tickers) Hn) as Ho.
  split_and!; [exact Hp|exact Ho|]. intros ys Hys Hoys.
  set (dom := fun ev => numbered trades tickers ev /\ ev ∈ pushedEvents st).
  assert (strictWeak eventLess dom) as Hsw.
  { destruct (eventLess_strictWeak trades tickers) as [H1 H2 H3]. split; unfold dom.
    - intros x [Hx _]. by apply H1.
    - intros x y z [Hx _] [Hy _] [Hz _]. by apply H2.
    - intros x y z [Hx _] [Hy _] [Hz _]. by apply H3. }
  apply (ordered_unique eventLess dom); try done.
  - apply Forall_forall. intros ev Hev. rewrite Hys in Hev. split; [|done].
    rewrite Forall_forall in Hn. by apply Hn.
  - intros x y [Nx Ix] [Ny Iy] H1 H2. destruct (eventLess_tie trades tickers x y Nx Ny H1 H2) as [Hk Hr].
    by eapply pushed_unique.
  - by rewrite Hys, Hp.
Qed.

(** ** The buckets *)

Definition bucketEvents (bucket : ReplayBucket) : list Event :=
  map (fun item => MkEvent (rb_tsNs bucket) (bi_ingestSeq item) (bi_rowIndex item) (bi_kind item)) (rb_items bucket).
Definition bucketsEvents (buckets : list ReplayBucket) : list Event := concat (map bucketEvents buckets).

(** The buckets of a timeline: its events in order, at increasing times, none empty. *)
Record bucketed (events : list Event) (buckets : list ReplayBucket) : Prop := {
  bu_events : bucketsEvents buckets = events;
  bu_times : StronglySorted Z.lt (map rb_tsNs buckets);
  bu_items : Forall (fun bucket => rb_items bucket <> []) buckets;
}.

Lemma bucketsEvents_snoc buckets bucket :
  bucketsEvents (buckets ++ [bucket]) = bucketsEvents buckets ++ bucketEvents bucket.
Proof. unfold bucketsEvents. by rewrite map_app, concat_app; cbn; rewrite app_nil_r. Qed.

Lemma pushBucket_bucketed events buckets ev : bucketed events buckets ->
  Forall (fun e => ev_tsNs e <= ev_tsNs ev) events -> bucketed (events ++ [ev]) (pushBucket buckets ev).
Proof.
  intros [He Ht Hi] Hle. unfold pushBucket. destruct buckets as [|bucket buckets _] using rev_ind.
  { cbn in He. subst events. split; cbn; [by destruct ev|by repeat constructor|by repeat constructor]. }
  rewrite last_snoc. rewrite bucketsEvents_snoc in He. rewrite map_app in Ht. cbn in Ht.
  apply StronglySorted_snoc in Ht as [Ht Hlt]. apply Forall_app in Hi as [Hi Hb].
  apply Forall_cons in Hb as [Hb _].
  assert (rb_tsNs bucket <= ev_tsNs ev) as Hts.
  { rewrite <- He in Hle. apply Forall_app in Hle as [_ Hle]. unfold bucketEvents in Hle.
    destruct (rb_items bucket) as [|item items]; [done|]. by apply Forall_cons in Hle as [Hle _]. }
  destruct (Z.eqb_spec (rb_tsNs bucket) (ev_tsNs ev)) as [E|E]; cbn [negb].
  - rewrite removelast_last. split.
    + rewrite bucketsEvents_snoc, <- He, <- app_assoc. f_equal. unfold bucketEvents. cbn [rb_items rb_tsNs].
      rewrite map_app. cbn. rewrite E. by destruct ev.
    + rewrite map_app. cbn. by apply StronglySorted_snoc.
    + apply Forall_app. split; [done|]. repeat constructor. cbn. by destruct (rb_items bucket).
  - split.
    + rewrite !bucketsEvents_snoc, <- He. by destruct ev.
    + rewrite !map_app. cbn. apply StronglySorted_snoc. rewrite StronglySorted_snoc. split_and!; [done|done|].
      apply Forall_app. split; [|repeat constructor; lia]. eapply Forall_impl; [exact Hlt|]. cbn. lia.
    + rewrite !Forall_app. split_and!; [done|by repeat constructor|by repeat constructor].
Qed.

Definition byTime (events : list Event) : Prop := StronglySorted (fun a b => ev_tsNs a <= ev_tsNs b) events.

Lemma buckets_bucketed events : byTime events -> bucketed events (fold_left pushBucket events []).
Proof.
  induction events as [|ev events IH] using rev_ind; intros Ht.
  { by split; [| |constructor]; [..|constructor]. }
  apply StronglySorted_snoc in Ht as [Ht Hle]. rewrite fold_left_app. cbn.
  apply pushBucket_bucketed; [by apply IH|done].
Qed.

Lemma eventLess_time a b : eventLess b a = false -> ev_tsNs a <= ev_tsNs b.
Proof.
  unfold eventLess. destruct (Z.eqb_spec (ev_tsNs b) (ev_tsNs a)); cbn; [lia|]. rewrite Z.ltb_ge. lia.
Qed.

Lemma ordered_byTime events : ordered eventLess events -> byTime events.
Proof.
  unfold ordered, byTime. induction 1 as [|ev events Hs IH Hall]; constructor; [done|].
  eapply Forall_impl; [exact Hall|]. intros b. apply eventLess_time.
Qed.

Lemma rebuild_bucketed st : sequenced st ->
  bucketed (sr_events (rebuildEvents_ st)) (sr_buckets (rebuildBuckets_ (rebuildEvents_ st))).
Proof.
  intros Hs. destruct (timeline_unique st Hs) as (_ & Ho & _).
  assert (forall st', sr_buckets (rebuildBuckets_ st') = fold_left pushBucket (sr_events st') []) as ->.
  { intros st'. unfold rebuildBuckets_. cbv zeta. set (buckets := fold_left _ _ _).
    destruct (head buckets), (last buckets); try done; (destruct (_ || _); [done|]; by destruct (negb _)). }
  by apply buckets_bucketed, ordered_byTime.
Qed.

(** ** Seeking *)

Definition applyBuckets (depths : list DepthRow) (buckets : list ReplayBucket) (book : BookState) : BookState :=
  fold_left (fun book bucket => applyBucket_ depths bucket book) buckets book.
Definition upTo (targetTsNs : Z) (buckets : list ReplayBucket) : list ReplayBucket :=
  List.filter (fun bucket => rb_tsNs bucket <=? targetTsNs) buckets.

Lemma upTo_cons target bucket buckets : upTo target (bucket :: buckets) =
  if rb_tsNs bucket <=? target then bucket :: upTo target buckets else upTo target buckets.
Proof. done. Qed.

Lemma upTo_none target buckets : Forall (fun ts => target < ts) (map rb_tsNs buckets) -> upTo target buckets = [].
Proof.
  induction buckets as [|bucket buckets IH]; [done|]. rewrite upTo_cons. intros [Hb Hall]%Forall_cons.
  destruct (Z.leb_spec (rb_tsNs bucket) target); [lia|]. by apply IH.
Qed.
Lemma upTo_all target buckets : Forall (fun ts => ts <= target) (map rb_tsNs buckets) -> upTo target buckets = buckets.
Proof.
  induction buckets as [|bucket buckets IH]; [done|]. rewrite upTo_cons. intros [Hb Hall]%Forall_cons.
  destruct (Z.leb_spec (rb_tsNs bucket) target); [|lia]. by rewrite IH.
Qed.

Lemma advance_upTo depths target buckets : forall book cursor, StronglySorted Z.lt (map rb_tsNs buckets) ->
  advance depths target buckets book cursor =
  (applyBuckets depths (upTo target buckets) book, (cursor + length (upTo target buckets))%nat).
Proof.
  induction buckets as [|bucket buckets IH]; intros book cursor Hs; [cbn; by rewrite Nat.add_0_r|].
  cbn [map] in Hs. apply StronglySorted_inv in Hs as [Hs Hall]. rewrite upTo_cons. cbn [advance].
  destruct (Z.leb_spec (rb_tsNs bucket) target) as [Hle|Hgt].
  - rewrite IH by done. cbn [length applyBuckets fold_left]. f_equal. lia.
  - rewrite upTo_none; [cbn; by rewrite Nat.add_0_r|]. eapply Forall_impl; [exact Hall|]. cbn. lia.
Qed.

(** Of sorted buckets those up to a time come first. *)
Lemma upTo_prefix target buckets : StronglySorted Z.lt (map rb_tsNs buckets) ->
  take (length (upTo target buckets)) buckets = upTo target buckets.
Proof.
  induction buckets as [|bucket buckets IH]; intros Hs; [done|].
  cbn [map] in Hs. apply StronglySorted_inv in Hs as [Hs Hall]. rewrite upTo_cons.
  destruct (Z.leb_spec (rb_tsNs bucket) target) as [Hle|Hgt]; [cbn; by rewrite IH|].
  rewrite upTo_none; [done|]. eapply Forall_impl; [exact Hall|]. cbn. lia.
Qed.

Definition snapshotBook (st : SessionReplay) : BookState :=
  let book := resetBook newBook in
  if sr_snapshotLoaded st then applySnapshot (sr_snapshot st) book else book.

(** The book is the snapshot with the buckets before the cursor. *)
Record placed (st : SessionReplay) : Prop := {
  pl_times : StronglySorted Z.lt (map rb_tsNs (sr_buckets st));
  pl_cursor : (sr_cursor st <= length (sr_buckets st))%nat;
  pl_book : sr_book st = applyBuckets (sr_depths st) (take (sr_cursor st) (sr_buckets st)) (snapshotBook st);
}.

Lemma rewind_placed st : StronglySorted Z.lt (map rb_tsNs (sr_buckets st)) -> placed (rewindToSnapshot_ st).
Proof. intros Ht. split; [exact Ht|cbn; lia|done]. Qed.

Lemma before_cursor st target : placed st -> currentTsNs st <= target ->
  upTo target (take (sr_cursor st) (sr_buckets st)) = take (sr_cursor st) (sr_buckets st).
Proof.
  intros [Ht Hc _] Hcur. apply upTo_all. unfold currentTsNs in Hcur. destruct (sr_cursor st) as [|cursor]; [done|].
  destruct (lookup_lt_is_Some_2 (sr_buckets st) cursor ltac:(lia)) as [bucket Hb]. rewrite Hb in Hcur. cbn in Hcur.
  rewrite (take_S_r _ _ bucket Hb), map_app. apply Forall_app. split; [|by repeat constructor].
  rewrite <- (take_drop_middle _ _ _ Hb), map_app in Ht. cbn in Ht.
  apply Forall_forall. intros ts Hts.
  pose proof (StronglySorted_app_1_elem_of Z.lt _ _ ts (rb_tsNs bucket) Ht Hts ltac:(left)). lia.
Qed.

Lemma seek_placed target st : placed st -> sr_status st = Ok ->
  placed (seek target st) /\
  take (sr_cursor (seek target st)) (sr_buckets st) = upTo target (sr_buckets st) /\
  seek target st = st <| sr_book := sr_book (seek target st) |> <| sr_cursor := sr_cursor (seek target st) |>.
Proof.
  intros Hp Hok. unfold seek. rewrite Hok. change (negb (isOk Ok)) with false. cbv iota.
  set (st' := if target <? currentTsNs st then rewindToSnapshot_ st else st).
  assert (placed st' /\ upTo target (take (sr_cursor st') (sr_buckets st)) = take (sr_cursor st') (sr_buckets st) /\
    sr_buckets st' = sr_buckets st /\ sr_depths st' = sr_depths st /\ snapshotBook st' = snapshotBook st /\
    st' = st <| sr_book := sr_book st' |> <| sr_cursor := sr_cursor st' |>) as (Hp' & Hu & Eb & Ed & Es & Ee).
  { unfold st'. destruct (Z.ltb_spec target (currentTsNs st)) as [Hlt|Hge].
    - split_and!; try done. apply rewind_placed, Hp.
    - split_and!; try done; [by apply before_cursor|by destruct st]. }
  clearbody st'. destruct Hp' as [Ht Hc Hb]. rewrite Eb in Ht, Hc, Hb. rewrite Ed, Es in Hb.
  assert (StronglySorted Z.lt (map rb_tsNs (drop (sr_cursor st') (sr_buckets st)))) as Hd.
  { rewrite <- (take_drop (sr_cursor st') (sr_buckets st)), map_app in Ht. by apply StronglySorted_app_1_r in Ht. }
  rewrite Ed, Eb, advance_upTo by done. rewrite Hb.
  set (later := upTo target (drop (sr_cursor st') (sr_buckets st))).
  assert (upTo target (sr_buckets st) = take (sr_cursor st') (sr_buckets st) ++ later) as Hsplit.
  { rewrite <- Hu. unfold later, upTo. rewrite <- List.filter_app. by rewrite take_drop. }
  assert (length (upTo target (sr_buckets st)) = (sr_cursor st' + length later)%nat) as Hlen.
  { rewrite Hsplit, length_app, length_take. lia. }
  assert (take (sr_cursor st' + length later) (sr_buckets st) = upTo target (sr_buckets st)) as Htake.
  { rewrite <- Hlen. by apply upTo_prefix. }
  split_and!.
  - split; cbn.
    + by rewrite Eb.
    + rewrite Eb, <- Hlen. apply List.filter_length_le.
    + rewrite Eb, Ed, Htake, Hsplit. unfold applyBuckets. rewrite fold_left_app.
      by rewrite <- Es.
  - exact Htake.
  - rewrite Ee at 1. done.
Qed.

Lemma seeks_placed targets : forall st, placed st -> sr_status st = Ok ->
  let st' := fold_left (fun st target => seek target st) targets st in
  placed st' /\ sr_status st' = Ok /\ sr_buckets st' = sr_buckets st /\ sr_depths st' = sr_depths st /\
  snapshotBook st' = snapshotBook st.
Proof.
  induction targets as [|target targets IH]; intros st Hp Hok; [done|]. cbn [fold_left].
  destruct (seek_placed target st Hp Hok) as (Hp' & _ & E).
  assert (sr_status (seek target st) = Ok) as Hok' by (by rewrite E).
  destruct (IH _ Hp' Hok') as (Hp'' & Hok'' & Eb & Ed & Es). cbv zeta. split_and!; try done.
  - by rewrite Eb, E.
  - by rewrite Ed, E.
  - by rewrite Es, E.
Qed.

(** ** The book of the rows up to a time *)

Definition applyEvent (depths : list DepthRow) (book : BookState) (ev : Event) : BookState :=
  applyItem depths book (itemOf ev).

Lemma applyBuckets_events depths buckets : forall book,
  applyBuckets depths buckets book = fold_left (applyEvent depths) (bucketsEvents buckets) book.
Proof.
  induction buckets as [|bucket buckets IH]; intros book; [done|].
  cbn [applyBuckets fold_left]. fold (applyBuckets depths buckets (applyBucket_ depths bucket book)). rewrite IH.
  unfold bucketsEvents. cbn [map concat]. rewrite fold_left_app. f_equal.
  unfold applyBucket_, bucketEvents. generalize book. induction (rb_items bucket) as [|[s r k] items IHi]; [done|].
  intros book'. cbn. apply IHi.
Qed.

Lemma bucketsEvents_upTo target buckets :
  bucketsEvents (upTo target buckets) = List.filter (fun ev => ev_tsNs ev <=? target) (bucketsEvents buckets).
Proof.
  induction buckets as [|bucket buckets IH]; [done|]. rewrite upTo_cons. unfold bucketsEvents in *.
  cbn [map concat]. rewrite List.filter_app, <- IH.
  assert (List.filter (fun ev => ev_tsNs ev <=? target) (bucketEvents bucket) =
    if rb_tsNs bucket <=? target then bucketEvents bucket else []) as ->.
  { unfold bucketEvents. induction (rb_items bucket) as [|item items IHi]; cbn; [by destruct (_ <=? _)|].
    rewrite IHi. by destruct (rb_tsNs bucket <=? target). }
  by destruct (rb_tsNs bucket <=? target).
Qed.

Definition isDepth (ev : Event) : bool := bool_decide (ev_kind ev = EventKind.Depth).

Lemma applyEvents_depth depths events : forall book,
  fold_left (applyEvent depths) events book = fold_left (applyEvent depths) (List.filter isDepth events) book.
Proof.
  induction events as [|ev events IH]; intros book; [done|]. cbn [fold_left List.filter]. unfold isDepth at 1.
  case_bool_decide as Hk; [apply IH|]. rewrite IH. f_equal.
  unfold applyEvent, applyItem, itemOf. cbn. by rewrite bool_decide_eq_false_2.
Qed.

(** The rows by time, those of one time in their order. *)
Definition rowEarlier (a b : DepthRow) : bool := dp_tsNs a <? dp_tsNs b.
Definition rowsByTime (depths : list DepthRow) : list DepthRow := stableSort rowEarlier depths.
Definition rowsUpTo (targetTsNs : Z) (depths : list DepthRow) : list DepthRow :=
  List.filter (fun row => dp_tsNs row <=? targetTsNs) (rowsByTime depths).

(** The event of a row and the row of an event. *)
Definition eventOf (row : nat * DepthRow) : Event := depthEvent row.1 row.2.
Definition pairEarlier (a b : nat * DepthRow) : bool := rowEarlier a.2 b.2.

Lemma insert_eventOf (i : nat) row rows : Z.of_nat i < 2 ^ 32 ->
  Forall (fun pair => (i < pair.1)%nat /\ Z.of_nat pair.1 < 2 ^ 32) rows ->
  insertStable eventLess (eventOf (i, row)) (map eventOf rows) =
  map eventOf (insertStable pairEarlier (i, row) rows).
Proof.
  intros Hi. induction rows as [|[j row'] rows IH]; [done|]. intros [[Hj Hj'] Hall]%Forall_cons. cbn [fst] in Hj, Hj'.
  cbn [map insertStable].
  assert (eventLess (eventOf (j, row')) (eventOf (i, row)) = pairEarlier (j, row') (i, row)) as ->.
  { unfold eventLess, eventOf, depthEvent, pairEarlier, rowEarlier. cbn. rewrite !u32_id by (unfold in_u32; lia).
    destruct (Z.eqb_spec (dp_tsNs row') (dp_tsNs row)) as [->|]; cbn; [|done].
    rewrite Z.ltb_irrefl. apply Z.ltb_ge. lia. }
  destruct (pairEarlier (j, row') (i, row)); [|done]. cbn [map]. by rewrite IH.
Qed.

Lemma sort_eventOf rows : StronglySorted Nat.lt (map fst rows) ->
  Forall (fun pair => Z.of_nat pair.1 < 2 ^ 32) rows ->
  stableSort eventLess (map eventOf rows) = map eventOf (stableSort pairEarlier rows).
Proof.
  induction rows as [|[i row] rows IH]; intros Hs Hb; [done|]. cbn [map fst] in Hs.
  apply StronglySorted_inv in Hs as [Hs Hlt]. apply Forall_cons in Hb as [Hi Hb]. cbn [map stableSort foldr].
  fold (stableSort eventLess (map eventOf rows)) (stableSort pairEarlier rows). rewrite IH by done.
  apply insert_eventOf; [done|]. rewrite (stableSort_permutation pairEarlier rows).
  rewrite Forall_map in Hlt. apply Forall_and. by split.
Qed.

Lemma sort_rows rows : map snd (stableSort pairEarlier rows) = rowsByTime (map snd rows).
Proof.
  induction rows as [|[i row] rows IH]; [done|]. unfold rowsByTime in *. cbn [map stableSort foldr snd].
  fold (stableSort pairEarlier rows) (stableSort rowEarlier (map snd rows)). rewrite <- IH.
  generalize (stableSort pairEarlier rows). intros sorted.
  induction sorted as [|[j row'] sorted IHs]; [done|]. cbn. unfold pairEarlier at 1. cbn.
  destruct (rowEarlier row' row); [|done]. cbn. by rewrite IHs.
Qed.

Definition numberedRows (depths : list DepthRow) : list (nat * DepthRow) := imap pair depths.

Lemma numberedRows_events depths : imap depthEvent depths = map eventOf (numberedRows depths).
Proof. unfold numberedRows. change (@map) with (fun A B (f : A -> B) => @fmap list _ A B f). cbn. by rewrite fmap_imap. Qed.
Lemma numberedRows_rows depths : map snd (numberedRows depths) = depths.
Proof.
  unfold numberedRows. change (map snd (imap pair depths)) with (snd <$> imap pair depths).
  rewrite fmap_imap. apply list_eq. intros i. rewrite list_lookup_imap. by destruct (depths !! i).
Qed.
Lemma numberedRows_indices depths : map fst (numberedRows depths) = seq 0 (length depths).
Proof.
  unfold numberedRows. change (map fst (imap pair depths)) with (fst <$> imap pair depths).
  rewrite fmap_imap. apply list_eq. intros i. rewrite list_lookup_imap.
  destruct (depths !! i) eqn:E; cbn.
  - apply lookup_lt_Some in E. by rewrite lookup_seq_lt.
  - apply lookup_ge_None in E. by rewrite lookup_seq_ge.
Qed.
Lemma numberedRows_lookup depths pair : pair ∈ numberedRows depths -> depths !! pair.1 = Some pair.2.
Proof.
  intros [i H]%list_elem_of_lookup. unfold numberedRows in H. rewrite list_lookup_imap in H.
  by apply fmap_Some in H as (row & Hrow & ->).
Qed.

Lemma filter_eventOf target rows :
  List.filter (fun ev => ev_tsNs ev <=? target) (map eventOf rows) =
  map eventOf (List.filter (fun pair => dp_tsNs pair.2 <=? target) rows).
Proof.
  induction rows as [|[i row] rows IH]; [done|]. cbn. destruct (dp_tsNs row <=? target); cbn; by rewrite IH.
Qed.
Lemma filter_rows target (rows : list (nat * DepthRow)) :
  map snd (List.filter (fun pair => dp_tsNs pair.2 <=? target) rows) =
  List.filter (fun row => dp_tsNs row <=? target) (map snd rows).
Proof.
  induction rows as [|[i row] rows IH]; [done|]. cbn. destruct (dp_tsNs row <=? target); cbn; by rewrite IH.
Qed.

Lemma applyEvents_rows depths rows : Forall (fun pair => depths !! pair.1 = Some pair.2) rows ->
  Z.of_nat (length depths) <= 2 ^ 32 -> forall book,
  fold_left (applyEvent depths) (map eventOf rows) book =
  fold_left (fun book row => applyDelta row book) (map snd rows) book.
Proof.
  intros Hrows Hl. induction Hrows as [|[i row] rows Hi _ IH]; intros book; [done|]. cbn [map fold_left snd].
  rewrite IH. f_equal. cbn in Hi. pose proof (lookup_lt_Some _ _ _ Hi).
  unfold applyEvent, applyItem, itemOf, eventOf, depthEvent. cbn.
  rewrite u32_id by (unfold in_u32; lia). by rewrite Nat2Z.id, Hi.
Qed.

Lemma filter_imap {R} (f : nat -> R -> Event) rows (keep : bool) : (forall i row, isDepth (f i row) = keep) ->
  List.filter isDepth (imap f rows) = if keep then imap f rows else [].
Proof.
  intros Hf. revert f Hf. induction rows as [|row rows IH]; intros f Hf; [by destruct keep|].
  cbn. rewrite Hf, (IH (f ∘ S)) by (intros; apply Hf). by destruct keep.
Qed.

(** The depth events of the timeline are the depth rows by time. *)
Lemma depth_events st : sequenced st ->
  List.filter isDepth (sr_events (rebuildEvents_ st)) = map eventOf (stableSort pairEarlier (numberedRows (sr_depths st))).
Proof.
  intros Hs. destruct (timeline_unique st Hs) as (Hp & Ho & _).
  destruct (pushedEvents_numbered st Hs) as (trades & tickers & Hn).
  assert (Z.of_nat (length (sr_depths st)) <= 2 ^ 32) as Hl.
  { destruct Hs as [_ _ Hs]. by repeat (apply Forall_cons in Hs as [? Hs]). }
  assert (List.filter isDepth (pushedEvents st) = imap depthEvent (sr_depths st)) as Hf.
  { unfold pushedEvents. rewrite !List.filter_app, (filter_imap depthEvent _ true),
      (filter_imap tradeEvent _ false), (filter_imap bookTickerEvent _ false) by done. by rewrite !app_nil_r. }
  assert (sequenced (newReplay <| sr_depths := sr_depths st |>)) as Hs'.
  { split; [by exists true; constructor|by exists true; constructor|]. repeat constructor; cbn; lia. }
  destruct (timeline_unique _ Hs') as (_ & _ & Hu). rewrite <- sort_eventOf, <- numberedRows_events.
  - rewrite (Hu (List.filter isDepth (sr_events (rebuildEvents_ st)))).
    + cbn. unfold pushedEvents. cbn. by rewrite app_nil_r.
    + unfold pushedEvents at 1. cbn. rewrite app_nil_r, <- Hf. by apply filter_permutation.
    + by apply StronglySorted_filter.
  - rewrite numberedRows_indices. apply seq_sorted.
  - apply Forall_forall. intros pair Hpair%numberedRows_lookup. apply lookup_lt_Some in Hpair. lia.
Qed.

(** ** Integrity work leaves the timeline alone *)

Definition timeline (st : SessionReplay) :=
  (sr_trades st, sr_bookTickers st, sr_depths st, sr_events st, sr_buckets st,
   (sr_snapshot st, sr_snapshotLoaded st, sr_book st, sr_cursor st)).

Lemma validateChannel_timeline channel rows name st :
  timeline (validateChannel channel rows name st).2 = timeline st.
Proof.
  unfold validateChannel. destruct rows as [|front rows]; [done|].
  destruct (sequenceLoop _ _ _ _ _) as [failure available]. cbv zeta.
  destruct failure as [[|]|]; [done|done|]. do 3 (destruct (_ && _) || destruct (negb _); [done|]). done.
Qed.

Lemma validateSequence_timeline st : timeline (validateSequenceMetadata_ st).2 = timeline st.
Proof.
  unfold validateSequenceMetadata_.
  pose proof (validateChannel_timeline IntegrityChannel.Trades (map tradeSequence (sr_trades st)) (named "trades") st) as H1.
  destruct (validateChannel IntegrityChannel.Trades _ _ st) as [ok1 st1]. cbn [snd] in H1.
  pose proof (validateChannel_timeline IntegrityChannel.BookTicker (map bookTickerSequence (sr_bookTickers st1))
    (named "bookticker") st1) as H2.
  destruct (validateChannel IntegrityChannel.BookTicker _ _ st1) as [ok2 st2]. cbn [snd] in H2. rewrite H1 in H2.
  destruct (_ || _); [exact H2|]. destruct (firstDuplicate _ _) as [[i seq]|]; exact H2.
Qed.

Lemma markStale_timeline channel last st : timeline (markStale channel last st) = timeline st.
Proof. unfold markStale. cbv zeta. destruct (_ || _); [done|]. by destruct (_ <=? _). Qed.

Lemma markStaleLive_timeline st : timeline (markStaleLiveChannels_ st) = timeline st.
Proof.
  unfold markStaleLiveChannels_. cbv zeta. destruct (_ <=? _); [done|].
  destruct (mh_bookTickerEnabled _ && _); destruct (mh_orderbookEnabled _ && _);
    by rewrite ?markStale_timeline.
Qed.

Lemma refreshHealth_timeline st : timeline (refreshHealthSummary_ st) = timeline st.
Proof. done. Qed.

Lemma restorePartial_timeline st : timeline (restorePartialDepthIncident_ st) = timeline st.
Proof. unfold restorePartialDepthIncident_. by destruct (negb _). Qed.

Lemma status_timeline status st : timeline (st <| sr_status := status |>) = timeline st.
Proof. by destruct st. Qed.

(** What [finalize] does to the timeline. *)
Lemma finalize_timeline st : timeline (finalize st) = timeline (rewindToSnapshot_ (clearVerdict st)).
Proof.
  unfold finalize. cbv zeta. set (st1 := restorePartialDepthIncident_ _).
  pose proof (validateSequence_timeline st1) as Hv. destruct (validateSequenceMetadata_ st1) as [ok st2].
  cbn [snd] in Hv. set (st3 := refreshHealthSummary_ _).
  assert (timeline st3 = timeline (rewindToSnapshot_ (clearVerdict st))) as E.
  { unfold st3. rewrite refreshHealth_timeline, markStaleLive_timeline, Hv. apply restorePartial_timeline. }
  clearbody st3. destruct (_ || _ || _); [rewrite status_timeline|]; exact E.
Qed.

Lemma bounded_timeline first last st :
  timeline (st <| sr_firstTsNs := first |> <| sr_lastTsNs := last |>) = timeline st.
Proof. by destruct st. Qed.
Lemma rebuilt_timeline st buckets : timeline (st <| sr_buckets := buckets |> <| sr_cursor := 0%nat |>) =
  (sr_trades st, sr_bookTickers st, sr_depths st, sr_events st, buckets,
   (sr_snapshot st, sr_snapshotLoaded st, sr_book st, 0%nat)).
Proof. by destruct st. Qed.

Lemma rebuildBuckets_timeline st : timeline (rebuildBuckets_ st) =
  (sr_trades st, sr_bookTickers st, sr_depths st, sr_events st, fold_left pushBucket (sr_events st) [],
   (sr_snapshot st, sr_snapshotLoaded st, sr_book st, 0%nat)).
Proof.
  unfold rebuildBuckets_. cbv zeta. generalize (fold_left pushBucket (sr_events st) []). intros buckets.
  rewrite <- (rebuilt_timeline st buckets). generalize (st <| sr_buckets := buckets |> <| sr_cursor := 0%nat |>).
  intros st'. destruct (head buckets), (last buckets); [apply bounded_timeline|..];
    (destruct (nonEmpty _ || nonEmpty _); [apply bounded_timeline|]; destruct (negb _); apply bounded_timeline).
Qed.

Lemma resetIntegrity_timeline st : timeline (resetIntegrity_ st) = timeline st.
Proof. reflexivity. Qed.

Lemma pushedEvents_timeline st st' : timeline st = timeline st' -> pushedEvents st = pushedEvents st'.
Proof. unfold timeline, pushedEvents. intros [= -> -> -> _ _ _ _ _ _]. reflexivity. Qed.

(** The timeline rebuilt from the rows of [st]. *)
Definition rebuiltTimeline (st : SessionReplay) (book : BookState) :=
  (sr_trades st, sr_bookTickers st, sr_depths st, sr_events (rebuildEvents_ st),
   fold_left pushBucket (sr_events (rebuildEvents_ st)) [],
   (sr_snapshot st, sr_snapshotLoaded st, book, 0%nat)).

Lemma rebuildEvents_timeline st' st : timeline st' = timeline st ->
  timeline (rebuildBuckets_ (rebuildEvents_ st')) = rebuiltTimeline st (sr_book st).
Proof.
  intros E. rewrite rebuildBuckets_timeline. unfold rebuildEvents_, rebuiltTimeline.
  rewrite (pushedEvents_timeline _ _ E). unfold timeline in E. destruct st', st. cbn in E |- *.
  by injection E as -> -> -> _ _ -> -> -> _.
Qed.

Lemma cleared_timeline st : timeline (st <| sr_status := Ok |> <| sr_errorDetail := [] |> <| sr_gapDetected := false |>
    <| sr_sequenceValidationAvailable := false |> <| sr_integrityFailureCount := 0 |>) = timeline st.
Proof. by destruct st. Qed.

Lemma clearVerdict_timeline st : timeline (clearVerdict st) = rebuiltTimeline st (sr_book st).
Proof.
  unfold clearVerdict. apply rebuildEvents_timeline. rewrite resetIntegrity_timeline. apply cleared_timeline.
Qed.

Lemma rewind_timeline st' st : timeline st' = rebuiltTimeline st (sr_book st) ->
  timeline (rewindToSnapshot_ st') = rebuiltTimeline st (snapshotBook st).
Proof.
  intros E. unfold timeline, rebuiltTimeline in *.
  generalize dependent (fold_left pushBucket (sr_events (rebuildEvents_ st)) []).
  generalize dependent (sr_events (rebuildEvents_ st)). intros events buckets E.
  destruct st', st. cbn in E |- *. by injection E as -> -> -> -> -> -> -> _ _.
Qed.

(** What [finalize] leaves: the timeline rebuilt, the cursor before it, the book of the
    snapshot. *)
Lemma finalize_rebuilt st : timeline (finalize st) = rebuiltTimeline st (snapshotBook st).
Proof. rewrite finalize_timeline. apply rewind_timeline, clearVerdict_timeline. Qed.

(** A session [finalize] accepts numbers all rows of a channel or none. *)
Lemma existsb_none {A} (f : A -> bool) xs : existsb f xs = false -> Forall (fun x => f x = false) xs.
Proof. induction xs as [|x xs IH]; cbn; [constructor|]. intros [Hx Hxs]%orb_false_iff. constructor; [done|by apply IH]. Qed.
Lemma forallb_all {A} (f : A -> bool) xs : forallb f xs = true -> Forall (fun x => f x = true) xs.
Proof. induction xs as [|x xs IH]; cbn; [constructor|]. intros [Hx Hxs]%andb_true_iff. constructor; [done|by apply IH]. Qed.
Lemma any_all {A} (f : A -> bool) xs : existsb f xs && negb (forallb f xs) = false ->
  exists numbers, Forall (fun x => f x = numbers) xs.
Proof.
  destruct (existsb f xs) eqn:E1; [|intros _; exists false; by apply existsb_none].
  destruct (forallb f xs) eqn:E2; [|done]. intros _. exists true. by apply forallb_all.
Qed.

Lemma validateChannel_uniform channel rows name st st' : validateChannel channel rows name st = (true, st') ->
  exists numbers, uniform numbers (map sq_ingestSeq rows).
Proof.
  destruct rows as [|front rows]; [by exists true; constructor|]. unfold validateChannel.
  set (all := front :: rows). clearbody all. destruct (sequenceLoop _ _ _ _ _) as [failure available]. cbv zeta.
  destruct failure as [[|]|]; [done|done|]. destruct (existsb _ all && negb _); [done|].
  destruct (existsb (fun row => 0 <? sq_ingestSeq row) all && negb _) eqn:E; [done|]. intros _.
  apply any_all in E as [numbers E]. exists numbers. unfold uniform. by rewrite Forall_map.
Qed.

Lemma finalize_validated st : sr_status (finalize st) = Ok ->
  exists st1, timeline st1 = rebuiltTimeline st (snapshotBook st) /\ (validateSequenceMetadata_ st1).1 = true.
Proof.
  unfold finalize. cbv zeta. set (st1 := restorePartialDepthIncident_ _).
  assert (timeline st1 = rebuiltTimeline st (snapshotBook st)) as Et.
  { unfold st1. rewrite restorePartial_timeline. apply rewind_timeline, clearVerdict_timeline. }
  clearbody st1. intros H. exists st1. split; [exact Et|]. destruct (validateSequenceMetadata_ st1) as [valid st2]. cbn [fst].
  destruct valid; [reflexivity|]. cbn [validateDepthStream_ negb orb] in H. discriminate H.
Qed.

Lemma accepted_sequenced st : sr_status (finalize st) = Ok ->
  Forall (fun n => Z.of_nat n <= 2 ^ 32) [length (sr_trades st); length (sr_bookTickers st); length (sr_depths st)] ->
  sequenced st.
Proof.
  intros Hok Hsizes. destruct (finalize_validated st Hok) as (st1 & Et & Hv).
  unfold timeline, rebuiltTimeline in Et.
  injection Et as Etr Ebt _ _ _ _ _ _ _. unfold validateSequenceMetadata_ in Hv.
  pose proof (validateChannel_timeline IntegrityChannel.Trades (map tradeSequence (sr_trades st1)) (named "trades") st1) as T.
  destruct (validateChannel IntegrityChannel.Trades _ _ _) as [ok1 st2] eqn:E1. cbn [snd] in T.
  destruct (validateChannel IntegrityChannel.BookTicker _ _ _) as [ok2 st3] eqn:E2.
  destruct ok1, ok2; try discriminate Hv. apply validateChannel_uniform in E1, E2.
  unfold timeline in T. injection T as _ T _ _ _ _ _ _ _. rewrite T, Ebt, map_map in E2. rewrite Etr, map_map in E1.
  split; [exact E1|exact E2|exact Hsizes].
Qed.

Lemma filter_comm {A} (f g : A -> bool) xs : List.filter f (List.filter g xs) = List.filter g (List.filter f xs).
Proof.
  induction xs as [|x xs IH]; [done|]. cbn. destruct (f x) eqn:F, (g x) eqn:G; cbn; rewrite ?F, ?G, IH; done.
Qed.

(** ** The theorems *)

Definition small (st : SessionReplay) : Prop :=
  Forall (fun n => Z.of_nat n <= 2 ^ 32) [length (sr_trades st); length (sr_bookTickers st); length (sr_depths st)].
Definition seeks (targets : list Z) (st : SessionReplay) : SessionReplay :=
  fold_left (fun st target => seek target st) targets st.

Lemma finalize_placed st : sequenced st ->
  placed (finalize st) /\ bucketed (sr_events (finalize st)) (sr_buckets (finalize st)).
Proof.
  intros Hs. pose proof (finalize_rebuilt st) as E. generalize dependent (finalize st). intros st' E.
  destruct (timeline_unique st Hs) as (_ & Ho & _).
  pose proof (buckets_bucketed _ (ordered_byTime _ Ho)) as Hb.
  unfold timeline, rebuiltTimeline in E. injection E as _ _ _ E4 E5 E6 E7 E8 E9.
  rewrite E4, E5. split; [|done]. destruct Hb as [_ Ht _]. split.
  - by rewrite E5.
  - rewrite E9. lia.
  - rewrite E8, E9. unfold snapshotBook. by rewrite E6, E7.
Qed.

(** C22: Of a session [finalize] accepts, the timeline is a permutation of the
    events of all rows, it is the only arrangement of them that the comparator allows (so it
    does not depend on the sorting algorithm), and the buckets are the timeline cut at
    strictly increasing timestamps, none of them empty. *)
Theorem timeline_complete st : small st -> sr_status (finalize st) = Ok ->
  sr_events (finalize st) ≡ₚ pushedEvents st /\
  (forall ys, ys ≡ₚ pushedEvents st /\ ordered eventLess ys <-> ys = sr_events (finalize st)) /\
  bucketed (sr_events (finalize st)) (sr_buckets (finalize st)).
Proof.
  intros Hsmall Hok. pose proof (accepted_sequenced st Hok Hsmall) as Hs.
  destruct (finalize_placed st Hs) as [_ Hb]. destruct (timeline_unique st Hs) as (Hp & Ho & Hu).
  pose proof (finalize_rebuilt st) as E. unfold timeline, rebuiltTimeline in E. injection E as _ _ _ E _ _ _ _ _.
  split_and!; [by rewrite E| |done]. rewrite E. intros ys. split; [intros [? ?]; by apply Hu|intros ->; done].
Qed.

(** C21: After any sequence of seeks on a session [finalize] accepts, forward or
    backward, the book is the snapshot of the session with the depth rows up to the last
    target applied by time, the rows of one time in their order in the file. *)
Theorem seek_reference st targets target : small st -> sr_status (finalize st) = Ok ->
  sr_book (seeks (targets ++ [target]) (finalize st)) =
  fold_left (fun book row => applyDelta row book) (rowsUpTo target (sr_depths st)) (snapshotBook st).
Proof.
  intros Hsmall Hok. pose proof (accepted_sequenced st Hok Hsmall) as Hs.
  destruct (finalize_placed st Hs) as [Hp Hb]. unfold seeks. rewrite fold_left_app. cbn [fold_left].
  destruct (seeks_placed targets _ Hp Hok) as (Hp' & Hok' & Eb & Ed & Es). cbv zeta in *.
  set (st' := fold_left _ targets _) in *. clearbody st'.
  destruct (seek_placed target st' Hp' Hok') as ([_ _ Hbook] & Htake & E).
  pose proof (finalize_rebuilt st) as F. unfold timeline, rebuiltTimeline in F. injection F as _ _ F3 F4 F5 F6 F7 _ _.
  assert (sr_buckets (seek target st') = sr_buckets st' /\ sr_depths (seek target st') = sr_depths st' /\
    snapshotBook (seek target st') = snapshotBook st') as (G1 & G2 & G3) by (rewrite E; done).
  rewrite Hbook, G1, G2, G3, Htake, applyBuckets_events, bucketsEvents_upTo, Eb, (bu_events _ _ Hb), F4, Ed, F3, Es.
  assert (snapshotBook (finalize st) = snapshotBook st) as -> by (unfold snapshotBook; by rewrite F6, F7).
  rewrite applyEvents_depth, filter_comm. pose proof (depth_events st Hs) as D. cbn [rebuildEvents_ sr_events upd] in D.
  rewrite D, filter_eventOf.
  rewrite applyEvents_rows, filter_rows, sort_rows, numberedRows_rows; [done|..].
  - apply Forall_forall. intros row Hrow. apply list_elem_of_In, List.filter_In in Hrow as [Hrow _].
    apply list_elem_of_In in Hrow. rewrite (stableSort_permutation pairEarlier _) in Hrow.
    by apply numberedRows_lookup.
  - unfold small in Hsmall. by repeat (apply Forall_cons in Hsmall as [? Hsmall]).
Qed.

(** ** Samples *)

Definition noArrival : EventArrival := MkEventArrival 0 0 0 0 0 0 0 0 0 0 0.
Definition tradeAt (tsNs ingestSeq : Z) : TradeRow :=
  MkTradeRow 0 0 0 [] [] [] tsNs ingestSeq ingestSeq 100 1 100 1 0 1 noArrival.
Definition tickerAt (tsNs ingestSeq : Z) : BookTickerRow :=
  MkBookTickerRow 0 [] [] [] tsNs ingestSeq ingestSeq 99 1 101 1 noArrival.
Definition depthAt (tsNs : Z) (levels : list PricePair) : DepthRow := MkDepthRow 0 tsNs 0 0 noArrival levels.
(** A session with its depth rows out of time order. *)
Definition sampleReplay : SessionReplay :=
  fold_left (fun st row => appendDepthRow row st)
    [depthAt 20 [MkPricePair 101 5 1]; depthAt 10 [MkPricePair 99 7 0]; depthAt 30 [MkPricePair 99 0 0]]
  (appendBookTickerRow (tickerAt 20 1) (appendTradeRow (tradeAt 30 4) (appendTradeRow (tradeAt 20 2) newReplay))).

Lemma sampleReplay_accepted : small sampleReplay /\ sr_status (finalize sampleReplay) = Ok.
Proof. split; [repeat constructor; cbn; lia|vm_compute; reflexivity]. Qed.

Lemma timeline_complete_witness : sr_status (finalize sampleReplay) = Ok /\
  bucketed (sr_events (finalize sampleReplay)) (sr_buckets (finalize sampleReplay)) /\
  map rb_tsNs (sr_buckets (finalize sampleReplay)) = [10; 20; 30].
Proof.
  destruct sampleReplay_accepted as [Hs Hok]. destruct (timeline_complete sampleReplay Hs Hok) as (_ & _ & Hb).
  split; [exact Hok|]. split; [exact Hb|vm_compute; reflexivity].
Defined.

Lemma seek_reference_witness : sr_status (finalize sampleReplay) = Ok /\
  sr_book (seeks ([30; 10] ++ [25]) (finalize sampleReplay)) =
  fold_left (fun book row => applyDelta row book)
    [depthAt 10 [MkPricePair 99 7 0]; depthAt 20 [MkPricePair 101 5 1]] (snapshotBook sampleReplay).
Proof.
  destruct sampleReplay_accepted as [Hs Hok]. split; [exact Hok|].
  rewrite (seek_reference sampleReplay [30; 10] 25 Hs Hok). reflexivity.
Defined.

(** ** Where the code departs from its comments *)

(** With one row of a channel unnumbered the comparator has a cycle, so it is no strict weak
    order: the sort runs before validation refuses such a session. *)
Theorem mixed_numbering_cycle :
  let events := imap tradeEvent [tradeAt 10 5; tradeAt 10 0; tradeAt 10 3] in
  match events with
  | [a; b; c] => eventLess a b = true /\ eventLess b c = true /\ eventLess c a = true
  | _ => False
  end.
Proof. repeat split; reflexivity. Qed.

(** [refreshLiveTimeline] puts the cursor before the timeline and keeps the book: a seek
    backwards afterwards does not rewind, and later levels stay in the book. *)
Theorem refresh_keeps_later_levels :
  let st := seek 15 (refreshLiveTimeline (seek 30 (finalize sampleReplay))) in
  sr_status st = Ok /\ currentTsNs st = 10 /\
  bk_asks (sr_book st) !! 101 = Some 5 /\ bk_asks (sr_book (seek 15 (finalize sampleReplay))) !! 101 = None.
Proof. vm_compute. repeat split; reflexivity. Qed.
