(* ===== verification/ReplayDepth.v ===== *)
(** * ReplayDepth: depth rows that repeat the whole book

    Some exchanges send fixed-depth snapshots in place of changes.  SessionReplay.cpp turns
    them into changes with [normalizeFixedDepthSnapshotDeltas]; here the changes are shown to
    build the book of the last row alone. *)
From stdpp Require Import base list numbers strings gmap.
From S2P Require Import Prelude Rows Book Replay.
Local Open Scope Z_scope.

(** Levels as a fixed-depth snapshot has them. *)
Definition snapshotLevel (level : PricePair) : Prop :=
  0 < pp_qtyE8 level /\ (pp_side level = 0 \/ pp_side level = 1).
Definition snapshotRow (row : DepthRow) : Prop := Forall snapshotLevel (dp_levels row).

Definition quotes (bid : bool) (price : Z) (level : PricePair) : bool :=
  Bool.eqb (pp_side level =? 0) bid && (pp_priceE8 level =? price).

Lemma quoteLevel_quotes bid price quote level : quoteLevel bid price quote level =
  if quotes bid price level then if pp_qtyE8 level =? 0 then None else Some (pp_qtyE8 level) else quote.
Proof. reflexivity. Qed.

(** A fold of levels forgets the quote it starts from once a level quotes the price. *)
Lemma quoteLevels_start bid price levels : forall quote,
  fold_left (quoteLevel bid price) levels quote =
  if existsb (quotes bid price) levels then fold_left (quoteLevel bid price) levels None else quote.
Proof.
  induction levels as [|level levels IH]; intros quote; [done|]. cbn [fold_left existsb].
  rewrite !(quoteLevel_quotes _ _ _ level). destruct (quotes bid price level); cbn [orb]; [done|].
  by rewrite (IH quote).
Qed.

(** Levels with quantity zero withdraw the prices they quote. *)
Lemma quoteDeletes bid price (keys : list PricePair) quote :
  fold_left (quoteLevel bid price) (map (fun key => MkPricePair (pp_priceE8 key) 0 (pp_side key)) keys) quote =
  if existsb (quotes bid price) keys then None else quote.
Proof.
  revert quote. induction keys as [|key keys IH]; intros quote; [done|]. cbn [map fold_left existsb].
  rewrite IH, quoteLevel_quotes. unfold quotes at 2. cbn [pp_side pp_priceE8 pp_qtyE8]. fold (quotes bid price key).
  change (0 =? 0) with true. destruct (quotes bid price key); cbn [orb]; by destruct (existsb _ keys).
Qed.

(** Two levels of a side and price have the same key. *)
Lemma quotes_key bid price lhs rhs : snapshotLevel lhs -> snapshotLevel rhs ->
  quotes bid price rhs = true -> sameLevelKey lhs rhs = quotes bid price lhs.
Proof.
  unfold quotes, sameLevelKey. intros [_ Hl] [_ Hr] [Hs%eqb_prop Hp%Z.eqb_eq]%andb_true_iff. subst price bid.
  rewrite andb_comm. f_equal. destruct Hl as [-> | ->], Hr as [-> | ->]; reflexivity.
Qed.

Lemma containsLevelKey_quotes bid price levels needle : Forall snapshotLevel levels -> snapshotLevel needle ->
  quotes bid price needle = true -> containsLevelKey levels needle = existsb (quotes bid price) levels.
Proof.
  intros Hl Hn Hq. unfold containsLevelKey. induction Hl as [|level levels Hlevel _ IH]; [done|]. cbn [existsb].
  by rewrite IH, (quotes_key bid price level needle).
Qed.

(** The prices withdrawn: those the previous row quotes and this one does not. *)
Lemma withdrawn_quotes bid price previous levels : Forall snapshotLevel previous -> Forall snapshotLevel levels ->
  existsb (quotes bid price) (List.filter (fun p => negb (containsLevelKey levels p)) previous) =
  existsb (quotes bid price) previous && negb (existsb (quotes bid price) levels).
Proof.
  intros Hp Hl. induction Hp as [|p previous Hp _ IH]; [done|]. cbn [List.filter existsb].
  destruct (quotes bid price p) eqn:Eq.
  - rewrite (containsLevelKey_quotes bid price levels p Hl Hp Eq).
    destruct (existsb _ levels); cbn [negb orb]; [|by cbn [existsb]; rewrite Eq].
    rewrite IH. by rewrite andb_false_r.
  - destruct (containsLevelKey levels p); cbn [negb]; cbn [existsb orb]; rewrite ?Eq; exact IH.
Qed.

Lemma positive_levels levels : Forall snapshotLevel levels ->
  List.filter (fun level => 0 <? pp_qtyE8 level) levels = levels.
Proof.
  induction 1 as [|level levels [Hq _] _ IH]; [done|]. cbn.
  destruct (Z.ltb_spec 0 (pp_qtyE8 level)); [by rewrite IH|lia].
Qed.

(** One normalized row takes the book of the previous row to its own. *)
Lemma normalizedRow_quote bid price previous row :
  Forall snapshotLevel previous -> snapshotRow row ->
  fold_left (quoteLevel bid price)
    (dp_levels row ++ map (fun p => MkPricePair (pp_priceE8 p) 0 (pp_side p))
       (List.filter (fun p => negb (containsLevelKey (dp_levels row) p)) previous))
    (fold_left (quoteLevel bid price) previous None) =
  fold_left (quoteLevel bid price) (dp_levels row) None.
Proof.
  intros Hp Hr. rewrite fold_left_app, quoteDeletes, withdrawn_quotes by done.
  rewrite quoteLevels_start, (quoteLevels_start bid price (dp_levels row) None).
  destruct (existsb _ (dp_levels row)); cbn [negb]; [by rewrite andb_false_r|]. rewrite andb_true_r.
  rewrite quoteLevels_start. by destruct (existsb _ previous).
Qed.

Lemma applyDelta_quote bid price row book : sideOf bid (applyDelta row book) !! price =
  fold_left (quoteLevel bid price) (dp_levels row) (sideOf bid book !! price).
Proof. exact (performBook_quote (fun _ => []) bid price (Delta row) book). Qed.

Definition applyRows (rows : list DepthRow) (book : BookState) : BookState :=
  fold_left (fun book row => applyDelta row book) rows book.

Lemma normalizeLoop_quote bid price rows : forall previous row book,
  Forall snapshotLevel previous -> Forall snapshotRow rows -> snapshotRow row ->
  sideOf bid book !! price = fold_left (quoteLevel bid price) previous None ->
  sideOf bid (applyRows (normalizeLoop previous (rows ++ [row])) book) !! price =
  fold_left (quoteLevel bid price) (dp_levels row) None.
Proof.
  induction rows as [|r rows IH]; intros previous row book Hp Hrows Hrow Hb; cbn [app normalizeLoop];
    [rewrite (positive_levels (dp_levels row)) by done|
     apply Forall_cons in Hrows as [Hr Hrows]; rewrite (positive_levels (dp_levels r)) by done];
    unfold applyRows; cbn [fold_left].
  - rewrite applyDelta_quote, Hb.
    by apply normalizedRow_quote.
  - apply (IH (dp_levels r) row); try done.
    rewrite applyDelta_quote, Hb.
    by apply normalizedRow_quote.
Qed.

Lemma snapshotRows_keep rows : Forall snapshotRow rows -> hasDeleteLevel rows = false.
Proof.
  unfold hasDeleteLevel. induction 1 as [|row rows Hr _ IH]; [done|]. cbn. rewrite IH, orb_false_r.
  induction Hr as [|level levels [Hq _] _ IHl]; [done|]. cbn. rewrite IHl.
  destruct (Z.eqb_spec (pp_qtyE8 level) 0); [lia|done].
Qed.

(** C34: Rows that each repeat the whole book become changes that, applied
    from an empty book, leave after every row exactly the book of that row alone: the levels
    an earlier row had and the last one has not are withdrawn. *)
Theorem normalized_rows_last rows row bid : Forall snapshotRow (rows ++ [row]) ->
  sideOf bid (applyRows (normalizeFixedDepthSnapshotDeltas (rows ++ [row])) (resetBook newBook)) =
  sideOf bid (applyDelta row (resetBook newBook)).
Proof.
  intros Hall. apply map_eq. intros price. unfold normalizeFixedDepthSnapshotDeltas.
  rewrite snapshotRows_keep by done. apply Forall_app in Hall as [Hrows [Hrow _]%Forall_cons].
  rewrite (normalizeLoop_quote bid price rows []); [|by constructor|done|done|by destruct bid].
  rewrite applyDelta_quote. by destruct bid.
Qed.

Definition fixedRow (tsNs : Z) (levels : list PricePair) : DepthRow :=
  MkDepthRow 0 tsNs 0 0 (MkEventArrival 0 0 0 0 0 0 0 0 0 0 0) levels.
Lemma normalized_rows_last_witness :
  let rows := [fixedRow 1 [MkPricePair 99 5 0; MkPricePair 101 6 1]] in
  let row := fixedRow 2 [MkPricePair 98 4 0; MkPricePair 101 7 1] in
  sideOf true (applyRows (normalizeFixedDepthSnapshotDeltas (rows ++ [row])) (resetBook newBook)) = {[98 := 4]} /\
  sideOf true (applyRows (rows ++ [row]) (resetBook newBook)) = {[98 := 4; 99 := 5]}.
Proof.
  cbv zeta. split; [|vm_compute; reflexivity].
  rewrite (normalized_rows_last _ _ true); [vm_compute; reflexivity|].
  repeat constructor; cbn; lia.
Defined.
