(* ===== verification/ReplayIntegrity.v ===== *)
(** * ReplayIntegrity: what the integrity of a session says

    Over all calls on a replay the counters of the integrity summary are those of its list of
    incidents.  A session that is eligible for exact replay has no incident on an enabled
    channel, and its rows are numbered in strictly increasing order or not at all. *)
From stdpp Require Import base list numbers strings gmap sorting.
From S2P Require Import Prelude Codec Json JsonObject Integrity SessionManifest Instrument.
From S2P Require Import Rows Loader Book Replay ReplayTimeline.
Local Open Scope Z_scope.

(** ** Counters and incidents *)

Definition on (channel : IntegrityChannel.t) (incident : IntegrityIncident) : bool :=
  bool_decide (in_channel incident = channel).
Definition incidentsOf (channel : IntegrityChannel.t) (s : SessionIntegritySummary) : list IntegrityIncident :=
  List.filter (on channel) (si_incidents s).
Definition count (keep : IntegrityIncident -> bool) (incidents : list IntegrityIncident) : Z :=
  Z.of_nat (length (List.filter keep incidents)).
Definition noWorse (a b : IntegritySeverity.t) : Prop := IntegritySeverity.rank a <= IntegritySeverity.rank b.

(** A channel's counters count its incidents; parse errors are counted for incidents of
    that kind, and its severity bounds theirs. *)
Record channelCounted (incidents : list IntegrityIncident) (c : ChannelIntegritySummary) : Prop := {
  cc_count : ci_incidentCount c = Z.of_nat (length incidents);
  cc_gaps : ci_gapCount c = count (isKind IntegrityIncidentKind.DepthSequenceGap) incidents;
  cc_parse : 0 <= ci_parseErrorCount c <= count (isKind IntegrityIncidentKind.ParseError) incidents;
  cc_severity : Forall (fun i => noWorse (in_severity i) (ci_highestSeverity c)) incidents;
}.
Record counted (s : SessionIntegritySummary) : Prop := {
  ct_total : si_totalIncidents s = Z.of_nat (length (si_incidents s));
  ct_channels : forall channel, channelCounted (incidentsOf channel s) (summaryFor_ channel s);
  ct_severity : forall channel, noWorse (ci_highestSeverity (summaryFor_ channel s)) (si_highestSeverity s);
}.

Lemma raise_left next current : noWorse next (IntegritySeverity.raise next current).
Proof. by destruct next, current. Qed.
Lemma raise_right next current : noWorse current (IntegritySeverity.raise next current).
Proof. by destruct next, current. Qed.
Lemma noWorse_trans a b c : noWorse a b -> noWorse b c -> noWorse a c.
Proof. unfold noWorse. lia. Qed.
Lemma raise_mono next a b : noWorse a b -> noWorse (IntegritySeverity.raise next a) (IntegritySeverity.raise next b).
Proof. destruct next, a, b; unfold noWorse; cbn; lia. Qed.
Lemma noWorse_error a : noWorse a IntegritySeverity.Error.
Proof. by destruct a. Qed.

Lemma count_snoc keep incidents i : count keep (incidents ++ [i]) = count keep incidents + (if keep i then 1 else 0).
Proof. unfold count. rewrite List.filter_app, length_app. cbn. destruct (keep i); cbn; lia. Qed.

Lemma noteOnChannel_counted incidents c i : channelCounted incidents c ->
  channelCounted (incidents ++ [i]) (noteOnChannel i c).
Proof.
  intros [Hn Hg Hp Hs]. split.
  - rewrite length_app. cbn. lia.
  - rewrite count_snoc. cbn. destruct (isKind IntegrityIncidentKind.DepthSequenceGap i); lia.
  - rewrite count_snoc. cbn. destruct (isKind IntegrityIncidentKind.ParseError i); lia.
  - cbn. apply Forall_app. split; [|constructor; [apply raise_left|constructor]].
    eapply Forall_impl; [exact Hs|]. intros j Hj. eapply noWorse_trans; [exact Hj|apply raise_right].
Qed.

(** ** Changes of one channel *)

Lemma summaryFor_onSummary channel channel' change s :
  summaryFor_ channel (onSummary channel' change s) =
  if decide (channel = channel') then change (summaryFor_ channel s) else summaryFor_ channel s.
Proof. by destruct channel, channel'. Qed.
Lemma onSummary_incidents channel change s : si_incidents (onSummary channel change s) = si_incidents s.
Proof. by destruct channel. Qed.
Lemma onSummary_total channel change s : si_totalIncidents (onSummary channel change s) = si_totalIncidents s.
Proof. by destruct channel. Qed.
Lemma onSummary_severity channel change s : si_highestSeverity (onSummary channel change s) = si_highestSeverity s.
Proof. by destruct channel. Qed.

(** A change that leaves the counters and the severity alone. *)
Definition keepsCounters (change : ChannelIntegritySummary -> ChannelIntegritySummary) : Prop := forall c,
  ci_incidentCount (change c) = ci_incidentCount c /\ ci_gapCount (change c) = ci_gapCount c /\
  ci_parseErrorCount (change c) = ci_parseErrorCount c /\ ci_highestSeverity (change c) = ci_highestSeverity c.

Lemma keepsCounters_channel change incidents c : keepsCounters change ->
  channelCounted incidents c -> channelCounted incidents (change c).
Proof. intros Hk [Hn Hg Hp Hs]. destruct (Hk c) as (E1 & E2 & E3 & E4). split; by rewrite ?E1, ?E2, ?E3, ?E4. Qed.

Lemma onSummary_counted channel change s : keepsCounters change -> counted s -> counted (onSummary channel change s).
Proof.
  intros Hk [Ht Hc Hs]. split.
  - by rewrite onSummary_total, onSummary_incidents.
  - intros ch. rewrite summaryFor_onSummary. unfold incidentsOf. rewrite onSummary_incidents. fold (incidentsOf ch s).
    destruct (decide _); [by apply keepsCounters_channel|done].
  - intros ch. rewrite summaryFor_onSummary, onSummary_severity.
    destruct (decide _); [|done]. by destruct (Hk (summaryFor_ ch s)) as (_ & _ & _ & ->).
Qed.

(** The session's own fields are apart from those of its channels. *)
Lemma summaryFor_session channel incidents total severity s :
  summaryFor_ channel (s <| si_incidents ::= incidents |> <| si_totalIncidents ::= total |>
                         <| si_highestSeverity ::= severity |>) = summaryFor_ channel s.
Proof. destruct s. by destruct channel. Qed.

Lemma noteIncident_counted i s : counted s -> counted (noteIncident_ i s).
Proof.
  intros [Ht Hc Hs]. unfold noteIncident_. split.
  - rewrite onSummary_total, onSummary_incidents. cbn. rewrite length_app. cbn. lia.
  - intros ch. rewrite summaryFor_onSummary, summaryFor_session. unfold incidentsOf. rewrite onSummary_incidents.
    cbn [si_incidents upd]. rewrite List.filter_app. fold (incidentsOf ch s). cbn [List.filter]. unfold on at 1.
    specialize (Hc ch). destruct (decide (ch = in_channel i)) as [->|Hne].
    + rewrite bool_decide_eq_true_2 by done. by apply noteOnChannel_counted.
    + rewrite bool_decide_eq_false_2 by done. by rewrite app_nil_r.
  - intros ch. rewrite summaryFor_onSummary, summaryFor_session, onSummary_severity. specialize (Hs ch).
    change (si_highestSeverity (upd _ _ ?t)) with (IntegritySeverity.raise (in_severity i) (si_highestSeverity s)).
    destruct (decide _); [exact (raise_mono _ _ _ Hs)|]. eapply noWorse_trans; [exact Hs|apply raise_right].
Qed.

Lemma summaryFor_marked channel incidents total severity health exact s :
  summaryFor_ channel (s <| si_incidents ::= incidents |> <| si_totalIncidents ::= total |>
    <| si_highestSeverity := severity |> <| si_sessionHealth := health |> <| si_exactReplayEligible := exact |>) =
  summaryFor_ channel s.
Proof. destruct s. by destruct channel. Qed.

Lemma markIssue_counted issue channel s : counted s -> counted (markIssue issue channel s).
Proof.
  intros [Ht Hc Hs]. unfold markIssue. cbv zeta.
  match goal with |- context [onSummary channel ?f s] => set (change := f) end. split.
  - cbn [si_totalIncidents si_incidents upd]. rewrite onSummary_total, onSummary_incidents, length_app. cbn. lia.
  - intros ch. rewrite summaryFor_marked, summaryFor_onSummary. unfold incidentsOf. cbn [si_incidents upd].
    rewrite onSummary_incidents, List.filter_app.
    fold (incidentsOf ch s). specialize (Hc ch). set (i := MkIntegrityIncident _ _ _ _ _ _ _ _ _ _).
    cbn [List.filter]. unfold on at 1. cbn [in_channel i].
    destruct (decide (ch = channel)) as [->|Hne].
    + rewrite bool_decide_eq_true_2 by done. destruct Hc as [Hn Hg Hp Hv]. split.
      * rewrite length_app. cbn. lia.
      * rewrite count_snoc. change (isKind IntegrityIncidentKind.DepthSequenceGap i) with false.
        cbn [ci_gapCount change upd]. lia.
      * rewrite count_snoc. change (isKind IntegrityIncidentKind.ParseError i) with true.
        cbn [ci_parseErrorCount change upd]. destruct (isParseIssue _); lia.
      * apply Forall_true. intros j. apply noWorse_error.
    + rewrite bool_decide_eq_false_2 by done. by rewrite app_nil_r.
  - intros ch. apply noWorse_error.
Qed.

Lemma newIntegrity_counted : counted newSessionIntegrity.
Proof. split; [done| |by intros []]. intros ch. destruct ch; split; cbn; try done; constructor. Qed.

(** ** The counters over every call *)

Definition countedReplay (st : SessionReplay) : Prop := counted (sr_integritySummary st).

Lemma note_counted i st : countedReplay st -> countedReplay (note i st).
Proof. apply noteIncident_counted. Qed.
Lemma onChannel_counted channel change st : keepsCounters change -> countedReplay st ->
  countedReplay (onChannel channel change st).
Proof. intros Hk. by apply onSummary_counted. Qed.

(** Updates of other fields. *)
Ltac drop_updates :=
  repeat match goal with |- countedReplay (upd _ _ ?st) => change (countedReplay st) end.
Ltac keeps_counters := intros ?; by repeat (case_match || split).

Lemma setState_keeps state : keepsCounters (setState state).
Proof. done. Qed.
Lemma degrade_keeps : keepsCounters degrade.
Proof. intros c. unfold degrade. by destruct (isCorrupt c). Qed.
Lemma corruptIneligible_keeps : keepsCounters corruptIneligible.
Proof. done. Qed.
Lemma settle_keeps state eligible : keepsCounters (settle state eligible).
Proof. done. Qed.
Lemma reason_keeps code text change : keepsCounters change -> keepsCounters (fun c => reason code text (change c)).
Proof. intros Hk c. exact (Hk c). Qed.
Lemma ineligible_keeps : keepsCounters (fun c => c <| ci_exactReplayEligible := false |>).
Proof. done. Qed.

Create HintDb counters.
#[export] Hint Resolve note_counted onChannel_counted noteIncident_counted onSummary_counted setState_keeps degrade_keeps
  corruptIneligible_keeps settle_keeps reason_keeps ineligible_keeps markIssue_counted : counters.

Lemma resetIntegrity_counted st : countedReplay (resetIntegrity_ st).
Proof.
  unfold resetIntegrity_, countedReplay. cbv zeta. change (sr_integritySummary (upd _ (fun _ => ?s) _)) with s.
  match goal with |- counted (fold_left _ _ ?fresh) => assert (counted fresh) as Hf end.
  { split; [done| |by intros []]. intros ch. destruct ch; split; cbn; try done; constructor. }
  revert Hf. generalize (mh_capturedIncidents (sr_manifestHints st)). intros captured.
  match goal with |- counted ?fresh -> _ => generalize fresh end.
  induction captured as [|[i|] captured IH]; intros s Hs; cbn [fold_left]; [done|..]; apply IH; auto with counters.
Qed.

Lemma rebuildBuckets_summary st : sr_integritySummary (rebuildBuckets_ st) = sr_integritySummary st.
Proof.
  unfold rebuildBuckets_. cbv zeta. generalize (fold_left pushBucket (sr_events st) []). intros buckets.
  destruct (head buckets), (last buckets); [reflexivity|..];
    (destruct (nonEmpty _ || nonEmpty _); [reflexivity|]; destruct (negb _); reflexivity).
Qed.

Lemma rebuildBuckets_counted st : countedReplay st -> countedReplay (rebuildBuckets_ st).
Proof. unfold countedReplay. by rewrite rebuildBuckets_summary. Qed.
Lemma rebuildEvents_counted st : countedReplay st -> countedReplay (rebuildEvents_ st).
Proof. done. Qed.

Lemma clearVerdict_counted st : countedReplay (clearVerdict st).
Proof. apply rebuildBuckets_counted, rebuildEvents_counted, resetIntegrity_counted. Qed.

Lemma validateChannel_counted channel rows name st : countedReplay st ->
  countedReplay (validateChannel channel rows name st).2.
Proof.
  intros Hc. unfold validateChannel. destruct rows as [|front rows]; [done|].
  destruct (sequenceLoop _ _ _ _ _) as [failure available]. cbv zeta.
  destruct failure as [[i row|i row]|]; [..|destruct (_ && _); [|destruct (_ && _); [|destruct (negb _)]]];
    cbn [snd]; auto with counters.
Qed.

Lemma validateSequence_counted st : countedReplay st -> countedReplay (validateSequenceMetadata_ st).2.
Proof.
  intros Hc. unfold validateSequenceMetadata_.
  pose proof (validateChannel_counted IntegrityChannel.Trades (map tradeSequence (sr_trades st)) (named "trades") st Hc) as H1.
  destruct (validateChannel IntegrityChannel.Trades _ _ st) as [ok1 st1]. cbn [snd] in H1.
  pose proof (validateChannel_counted IntegrityChannel.BookTicker (map bookTickerSequence (sr_bookTickers st1))
    (named "bookticker") st1 H1) as H2.
  destruct (validateChannel IntegrityChannel.BookTicker _ _ st1) as [ok2 st2]. cbn [snd] in H2.
  destruct (_ || _); [done|]. cbv zeta. destruct (firstDuplicate _ _) as [[i seq]|]; cbn [snd]; auto 6 with counters.
Qed.

Lemma markStale_counted channel last st : countedReplay st -> countedReplay (markStale channel last st).
Proof. intros Hc. unfold markStale. cbv zeta. destruct (_ || _); [done|]. destruct (_ <=? _); auto with counters. Qed.

Lemma markStaleLive_counted st : countedReplay st -> countedReplay (markStaleLiveChannels_ st).
Proof.
  intros Hc. unfold markStaleLiveChannels_. cbv zeta. destruct (_ <=? _); [done|].
  destruct (mh_bookTickerEnabled _ && _); destruct (mh_orderbookEnabled _ && _); auto using markStale_counted.
Qed.

Lemma markSimpleChannel_counted channel enabled required n s : counted s ->
  counted (markSimpleChannel channel enabled required n s).
Proof.
  intros Hs. unfold markSimpleChannel. cbv zeta. destruct (negb enabled); [auto with counters|].
  destruct (isCorrupt _); [auto with counters|]. destruct (negb _); [auto with counters|].
  destruct (n =? 0)%nat; [destruct (negb required)|]; auto with counters.
Qed.

Lemma markSnapshot_keeps enabled loaded : keepsCounters (markSnapshot enabled loaded).
Proof. intros c. unfold markSnapshot. destruct (negb enabled); [done|]. destruct (negb loaded); [done|]. by destruct (_ =? _). Qed.
Lemma markDepth_keeps enabled required n : keepsCounters (markDepth enabled required n).
Proof.
  intros c. unfold markDepth. destruct (negb enabled); [done|]. destruct (isCorrupt c); [done|].
  destruct (_ && _); [done|]. by destruct (_ =? 0).
Qed.

Lemma finalizeChannels_counted st : countedReplay st -> countedReplay (finalizeChannelStates_ st).
Proof.
  intros Hc. unfold finalizeChannelStates_, countedReplay. cbv zeta.
  change (sr_integritySummary (upd _ ?f st)) with (f (sr_integritySummary st)). cbv beta.
  apply (onSummary_counted IntegrityChannel.Depth _ _ (markDepth_keeps _ _ _)).
  apply (onSummary_counted IntegrityChannel.Snapshot _ _ (markSnapshot_keeps _ _)).
  apply markSimpleChannel_counted. by apply markSimpleChannel_counted.
Qed.

Lemma verdict_counted exact health s : counted s ->
  counted (s <| si_exactReplayEligible := exact |> <| si_sessionHealth := health |>).
Proof.
  intros [Ht Hc Hs]. split; [exact Ht|intros channel; specialize (Hc channel)|intros channel; specialize (Hs channel)];
    destruct s, channel; assumption.
Qed.

Lemma refreshHealth_counted st : countedReplay st -> countedReplay (refreshHealthSummary_ st).
Proof.
  intros Hc. unfold refreshHealthSummary_, countedReplay. cbv zeta.
  change (sr_integritySummary (upd _ ?f ?t)) with (f (sr_integritySummary t)). cbv beta.
  apply verdict_counted. by apply finalizeChannels_counted.
Qed.

Lemma restorePartial_counted st : countedReplay st -> countedReplay (restorePartialDepthIncident_ st).
Proof. intros Hc. unfold restorePartialDepthIncident_. destruct (negb _); auto with counters. Qed.

Lemma status_counted status st : countedReplay st -> countedReplay (st <| sr_status := status |>).
Proof. done. Qed.
Lemma rewind_counted st : countedReplay st -> countedReplay (rewindToSnapshot_ st).
Proof. done. Qed.

Lemma refreshLive_counted st : countedReplay (refreshLiveTimeline st).
Proof.
  unfold refreshLiveTimeline. cbv zeta. pose proof (clearVerdict_counted st) as H1.
  apply validateSequence_counted in H1. destruct (validateSequenceMetadata_ _) as [valid st2].
  cbn [snd] in H1. apply markStaleLive_counted, refreshHealth_counted in H1.
  set (st3 := refreshHealthSummary_ _) in *. clearbody st3.
  destruct (_ || _ || _); [by apply status_counted|exact H1].
Qed.

Lemma finalize_counted st : countedReplay (finalize st).
Proof.
  unfold finalize. cbv zeta.
  pose proof (rewind_counted _ (clearVerdict_counted st)) as H1. apply restorePartial_counted, validateSequence_counted in H1. destruct (validateSequenceMetadata_ _) as [valid st2].
  cbn [snd] in H1. apply markStaleLive_counted, refreshHealth_counted in H1.
  set (st3 := refreshHealthSummary_ _) in *. clearbody st3.
  destruct (_ || _ || _); [by apply status_counted|exact H1].
Qed.

(** ** Every call *)

Section calls.
Context (fs : FileSystem).

Lemma emptyPath_counted channel detail st : countedReplay st -> countedReplay (emptyPath channel detail st).
Proof. intros Hc. unfold emptyPath. by apply note_counted. Qed.
Lemma badFile_counted channel lineNumber path st : countedReplay st -> countedReplay (badFile channel lineNumber path st).
Proof. intros Hc. unfold badFile. apply note_counted, onChannel_counted; [apply corruptIneligible_keeps|exact Hc]. Qed.

Lemma addTrades_counted path st : countedReplay st -> countedReplay (addTradesFile fs path st).2.
Proof.
  intros Hc. unfold addTradesFile. destruct (isEmpty path); [by apply emptyPath_counted|].
  destruct (loadJsonl _ _ _) as [[[rows status] n] detail]. cbv zeta. cbn [snd].
  destruct (isOk status); [exact Hc|]. by apply badFile_counted.
Qed.
Lemma addBookTicker_counted path st : countedReplay st -> countedReplay (addBookTickerFile fs path st).2.
Proof.
  intros Hc. unfold addBookTickerFile. destruct (isEmpty path); [by apply emptyPath_counted|].
  destruct (loadJsonl _ _ _) as [[[rows status] n] detail]. cbv zeta. cbn [snd].
  destruct (isOk status); [exact Hc|]. by apply badFile_counted.
Qed.
Lemma addCandles_counted path rebuild st : countedReplay st -> countedReplay (addCandlesFile fs path rebuild st).2.
Proof.
  intros Hc. unfold addCandlesFile. destruct (isEmpty path); [exact Hc|].
  destruct (loadJsonl _ _ _) as [[[rows status] n] detail]. cbv zeta.
  destruct (negb (isOk status)); [exact Hc|]. cbn [snd]. destruct rebuild; [by apply rebuildBuckets_counted|exact Hc].
Qed.
Lemma addCandles2_counted path rebuild st : countedReplay st -> countedReplay (addCandles2File fs path rebuild st).2.
Proof.
  intros Hc. unfold addCandles2File. destruct (isEmpty path); [exact Hc|].
  destruct (loadJsonl _ _ _) as [[[rows status] n] detail]. cbv zeta.
  destruct (negb (isOk status)); [exact Hc|]. cbn [snd]. destruct rebuild; [by apply rebuildBuckets_counted|exact Hc].
Qed.
Lemma addDepth_counted path allowPartial st : countedReplay st ->
  countedReplay (addDepthFile_ fs path allowPartial st).2.
Proof.
  intros Hc. unfold addDepthFile_. destruct (isEmpty path); [by apply emptyPath_counted|].
  cbv zeta.
  match goal with |- context [if negb ?a && negb ?b then ?bad else ?loaded] =>
    destruct (if negb a && negb b then bad else loaded) as [[[rows status] n] detail] end.
  destruct (isOk status); [exact Hc|]. cbn [snd]. apply refreshHealth_counted.
  match goal with |- countedReplay (if _ then _ else ?bad) => assert (countedReplay bad) as Hb end.
  { by apply badFile_counted. }
  destruct (allowPartial && _); exact Hb.
Qed.

Lemma retainIncident_counted index channel runtime captured st : countedReplay st ->
  countedReplay (retainIncident index channel runtime captured st).
Proof. intros Hc. unfold retainIncident. destruct (_ && _); [exact Hc|]. cbv zeta. by apply note_counted. Qed.
Lemma hints_counted hints st : countedReplay st -> countedReplay (st <| sr_manifestHints := hints |>).
Proof. done. Qed.
Lemma applyHints_counted m st : countedReplay st -> countedReplay (applyManifestHints_ m st).
Proof. intros Hc. unfold applyManifestHints_. cbv zeta. by do 3 apply retainIncident_counted. Qed.
Lemma loadHints_counted dir st : countedReplay st -> countedReplay (loadManifestHints_ fs dir st).
Proof.
  intros Hc. unfold loadManifestHints_. destruct (opened _); [|exact Hc].
  destruct (parseManifestJson _) as [[] [m|]]; try exact Hc. by apply applyHints_counted.
Qed.
Lemma applyIssue_counted issue s : counted s -> counted (applyLoadIssueToIntegritySummary issue s).
Proof. intros Hc. unfold applyLoadIssueToIntegritySummary. cbv zeta. repeat (destruct (bool_decide _); [by apply markIssue_counted|]). exact Hc. Qed.

Lemma badCorpusLine_counted detail status st : countedReplay st -> countedReplay (badCorpusLine detail status st).2.
Proof. intros Hc. unfold badCorpusLine. cbn [snd]. by apply refreshHealth_counted. Qed.

Lemma openLoaded_counted loaded st : countedReplay st -> countedReplay (openLoaded fs loaded st).2.
Proof.
  intros Hc. unfold openLoaded. destruct loaded as [[status corpus] report]. cbv zeta.
  match goal with |- context [if lr_manifestPresent report then ?a else ?b] =>
    assert (countedReplay (if lr_manifestPresent report then a else b)) as H1;
      [destruct (lr_manifestPresent report); [by apply applyHints_counted|by apply loadHints_counted]|];
    set (st1 := if lr_manifestPresent report then a else b) in * end.
  clearbody st1. destruct (negb (isOk status)).
  { cbn [snd]. apply refreshHealth_counted. destruct (lr_issues report) as [|issue issues]; [exact H1|].
    exact (applyIssue_counted issue _ H1). }
  destruct (corpusRows parseTradeLine _) as [trades s1]. destruct (negb (isOk s1)); [by apply badCorpusLine_counted|].
  destruct (corpusRows parseBookTickerLine _) as [tickers s2]. destruct (negb (isOk s2)); [by apply badCorpusLine_counted|].
  destruct (corpusRows parseFinamArchiveCandle (sc_candleLines corpus)) as [candles s3].
  destruct (negb (isOk s3)); [by apply badCorpusLine_counted|].
  destruct (corpusRows parseFinamArchiveCandle _) as [candles2 s4].
  destruct (negb (isOk s4)); [by apply badCorpusLine_counted|]. cbn [snd]. apply finalize_counted.
Qed.

Lemma open_counted dir st : countedReplay (open fs dir st).1.2.
Proof.
  unfold open. cbv zeta.
  assert (countedReplay (reset st <| sr_sessionDir := dir |>)) as H1 by apply resetIntegrity_counted.
  apply (openLoaded_counted (loadDetailed fs dir)) in H1. by destruct (openLoaded _ _ _).
Qed.
End calls.

(** The public calls that change a replay. *)
Inductive ReplayCall :=
| AppendTrade (row : TradeRow)
| AppendBookTicker (row : BookTickerRow)
| AppendDepth (row : DepthRow)
| AppendSnapshot (snapshot : SnapshotDocument)
| AddTrades (path : list Z)
| AddBookTicker (path : list Z)
| AddCandles (path : list Z) (rebuildTimeline : bool)
| AddCandles2 (path : list Z) (rebuildTimeline : bool)
| AddDepth (path : list Z)
| AddDepthAllowPartial (path : list Z)
| Finalize
| RefreshLiveTimeline
| Seek (targetTsNs : Z)
| Open (sessionDir : list Z).

Section replay_calls.
Context (fs : FileSystem).

Definition performReplay (st : SessionReplay) (call : ReplayCall) : SessionReplay :=
  match call with
  | AppendTrade row => appendTradeRow row st
  | AppendBookTicker row => appendBookTickerRow row st
  | AppendDepth row => appendDepthRow row st
  | AppendSnapshot snapshot => appendSnapshotDocument snapshot st
  | AddTrades path => (addTradesFile fs path st).2
  | AddBookTicker path => (addBookTickerFile fs path st).2
  | AddCandles path rebuildTimeline => (addCandlesFile fs path rebuildTimeline st).2
  | AddCandles2 path rebuildTimeline => (addCandles2File fs path rebuildTimeline st).2
  | AddDepth path => (addDepthFile fs path st).2
  | AddDepthAllowPartial path => (addDepthFileAllowPartial fs path st).2
  | Finalize => finalize st
  | RefreshLiveTimeline => refreshLiveTimeline st
  | Seek targetTsNs => seek targetTsNs st
  | Open sessionDir => (open fs sessionDir st).1.2
  end.

Lemma seek_counted target st : countedReplay st -> countedReplay (seek target st).
Proof.
  intros Hc. unfold seek. destruct (negb _); [exact Hc|]. cbv zeta.
  destruct (target <? currentTsNs st); destruct (advance _ _ _ _ _); exact Hc.
Qed.

(** C24: After any calls on a replay, over any files, the integrity summary
    counts its list of incidents: the total, and per channel the incidents and the sequence
    gaps, with at most the parse-error incidents counted as parse errors; no incident is worse
    than the severity of its channel, and no channel worse than the session. *)
Theorem integrity_counted (calls : list ReplayCall) :
  counted (sr_integritySummary (fold_left performReplay calls newReplay)).
Proof.
  assert (countedReplay newReplay) as Hn by exact newIntegrity_counted. revert Hn. generalize newReplay.
  induction calls as [|call calls IH]; intros st Hst; [exact Hst|]. cbn [fold_left]. apply IH.
  destruct call; cbn [performReplay]; try exact Hst.
  - by apply addTrades_counted.
  - by apply addBookTicker_counted.
  - by apply addCandles_counted.
  - by apply addCandles2_counted.
  - by apply addDepth_counted.
  - by apply addDepth_counted.
  - apply finalize_counted.
  - apply refreshLive_counted.
  - by apply seek_counted.
  - apply open_counted.
Qed.
End replay_calls.

(** ** Exact replay *)

Definition incidents (st : SessionReplay) : list IntegrityIncident := si_incidents (sr_integritySummary st).
Definition quiet (channel : IntegrityChannel.t) : Prop :=
  channel = IntegrityChannel.Liquidations \/ channel = IntegrityChannel.Snapshot.
Definition stateOf (channel : IntegrityChannel.t) (st : SessionReplay) : ChannelHealthState.t :=
  ci_state (summaryFor_ channel (sr_integritySummary st)).

(** [st'] comes after [st]: no incident is lost and nothing but the verdict changes. *)
Record follows (st st' : SessionReplay) : Prop := {
  fo_incidents : incidents st ⊆ incidents st';
  fo_quiet : forall channel, quiet channel -> stateOf channel st' = stateOf channel st;
  fo_hints : sr_manifestHints st' = sr_manifestHints st;
  fo_timeline : timeline st' = timeline st;
}.
#[export] Instance follows_preorder : PreOrder follows.
Proof.
  split.
  - intros st. by split.
  - intros st1 st2 st3 [H1 Q1 M1 T1] [H2 Q2 M2 T2].
    split; [by etrans|intros ch Hq; by rewrite (Q2 ch Hq), (Q1 ch Hq)|congruence|congruence].
Qed.

Lemma note_incidents i st : incidents (note i st) = incidents st ++ [i].
Proof.
  unfold incidents, note. change (sr_integritySummary (upd _ ?f st)) with (f (sr_integritySummary st)).
  unfold noteIncident_. by rewrite onSummary_incidents.
Qed.
Lemma note_follows i st : follows st (note i st).
Proof.
  split; [rewrite note_incidents; intros j Hj; apply elem_of_app; by left| |reflexivity|reflexivity].
  intros ch _. unfold stateOf, note. change (sr_integritySummary (upd _ ?f st)) with (f (sr_integritySummary st)).
  unfold noteIncident_. rewrite summaryFor_onSummary, summaryFor_session. by destruct (decide _).
Qed.
Lemma onChannel_follows channel change st : ~ quiet channel -> follows st (onChannel channel change st).
Proof.
  intros Hn. split; [| |reflexivity|reflexivity].
  - unfold incidents, onChannel. change (sr_integritySummary (upd _ ?f st)) with (f (sr_integritySummary st)).
    by rewrite onSummary_incidents.
  - intros ch Hq. unfold stateOf, onChannel. change (sr_integritySummary (upd _ ?f st)) with (f (sr_integritySummary st)).
    rewrite summaryFor_onSummary. destruct (decide (ch = channel)) as [->|]; [contradiction|done].
Qed.

Definition hasIncident (channel : IntegrityChannel.t) (st : SessionReplay) : Prop :=
  exists i, i ∈ incidents st /\ in_channel i = channel.
Lemma hasIncident_follows channel st st' : follows st st' -> hasIncident channel st -> hasIncident channel st'.
Proof. intros [Hi _ _ _] (i & Hin & Hc). exists i. split; [by apply Hi|done]. Qed.
Lemma note_hasIncident i st : hasIncident (in_channel i) (note i st).
Proof. exists i. split; [|done]. rewrite note_incidents. apply elem_of_app. right. left. Qed.

(** Rows without positive sequences, or with both increasing from row to row. *)
Definition increasing (seqs : list Z) : Prop := StronglySorted Z.lt seqs.
Definition wellNumbered (rows : list SequenceRow) : Prop :=
  Forall (fun row => sq_captureSeq row <= 0 /\ sq_ingestSeq row <= 0) rows \/
  (Forall (fun row => 0 < sq_captureSeq row /\ 0 < sq_ingestSeq row) rows /\
   increasing (map sq_captureSeq rows) /\ increasing (map sq_ingestSeq rows)).

Lemma sequenceLoop_increasing rows : forall i previous available,
  Forall (fun row => 0 < sq_captureSeq row /\ 0 < sq_ingestSeq row) (previous :: rows) ->
  (sequenceLoop i (Some previous) (sq_captureSeq previous) available rows).1 = None ->
  Sorted Z.lt (map sq_captureSeq (previous :: rows)) /\ Sorted Z.lt (map sq_ingestSeq (previous :: rows)).
Proof.
  induction rows as [|row rows IH]; intros i previous available Hall H; [split; repeat constructor|].
  pose proof Hall as Hall'. apply Forall_cons in Hall' as [[Hc Hi] Hrest]. pose proof Hrest as Hrest'.
  apply Forall_cons in Hrest' as [[Hc' Hi'] _]. cbn [sequenceLoop] in H. cbv zeta in H.
  destruct (Z.ltb_spec 0 (sq_captureSeq row)); [|lia]. destruct (Z.ltb_spec 0 (sq_ingestSeq row)); [|lia].
  destruct (Z.ltb_spec 0 (sq_ingestSeq previous)); [|lia]. destruct (Z.eqb_spec (sq_captureSeq previous) 0); [lia|].
  cbn [andb negb] in H. destruct (Z.leb_spec (sq_captureSeq row) (sq_captureSeq previous)); [done|].
  destruct (Z.leb_spec (sq_ingestSeq row) (sq_ingestSeq previous)); [done|].
  destruct (IH _ _ _ Hrest H) as [S1 S2]. split; cbn [map] in *; constructor; try done; by constructor.
Qed.

Lemma sequenceLoop_start rows available :
  Forall (fun row => 0 < sq_captureSeq row /\ 0 < sq_ingestSeq row) rows ->
  (sequenceLoop 0 None 0 available rows).1 = None ->
  increasing (map sq_captureSeq rows) /\ increasing (map sq_ingestSeq rows).
Proof.
  intros Hall H. destruct rows as [|row rows]; [split; constructor|].
  pose proof Hall as Hall'. apply Forall_cons in Hall' as [[Hc Hi] _].
  cbn [sequenceLoop] in H. cbv zeta in H. destruct (Z.ltb_spec 0 (sq_captureSeq row)); [|lia].
  destruct (Z.ltb_spec 0 (sq_ingestSeq row)); [|lia]. cbn [andb negb] in H. change (0 =? 0) with true in H.
  cbn [andb negb] in H. destruct (sequenceLoop_increasing _ _ _ _ Hall H) as [S1 S2].
  split; (apply Sorted_StronglySorted; [intros x y z; lia|assumption]).
Qed.

Lemma validateChannel_follows channel rows name st : ~ quiet channel ->
  follows st (validateChannel channel rows name st).2.
Proof.
  intros Hq. unfold validateChannel. destruct rows as [|front rows]; [reflexivity|].
  destruct (sequenceLoop _ _ _ _ _) as [failure available]. cbv zeta.
  assert (forall detail st, follows st (onChannel channel (setState ChannelHealthState.Corrupt)
    (st <| sr_integrityFailureCount ::= fun n => n + 1 |> <| sr_errorDetail := detail |>))) as Hfail.
  { intros detail st'. transitivity (st' <| sr_integrityFailureCount ::= fun n => n + 1 |> <| sr_errorDetail := detail |>);
      [by split|by apply onChannel_follows]. }
  assert (follows st (st <| sr_sequenceValidationAvailable := available |>)) as Ha by (by split).
  destruct failure as [[i row|i row]|]; [..|destruct (_ && _); [|destruct (_ && _); [|destruct (negb _)]]];
    cbn [snd]; try exact Ha; (etransitivity; [exact Ha|]); (etransitivity; [|apply note_follows]);
    [apply Hfail..|by apply onChannel_follows].
Qed.

(** A channel that gets no incident is numbered well. *)
Lemma validateChannel_numbered channel rows name st :
  hasIncident channel (validateChannel channel rows name st).2 \/
  (validateChannel channel rows name st).1 = true /\ wellNumbered rows.
Proof.
  unfold validateChannel. destruct rows as [|front rows]; [right; split; [done|left; constructor]|].
  set (all := front :: rows). pose proof (sequenceLoop_start all (sr_sequenceValidationAvailable st)) as Hloop.
  clearbody all. destruct (sequenceLoop _ _ _ _ _) as [failure available]. cbn [fst] in Hloop. cbv zeta.
  destruct failure as [[i row|i row]|]; cbn [snd];
    [left; exact (note_hasIncident (MkIntegrityIncident _ _ _ _ _ _ _ _ _ _) _)..|].
  destruct (existsb _ all && negb _) eqn:E1; [left; exact (note_hasIncident (MkIntegrityIncident _ _ _ _ _ _ _ _ _ _) _)|].
  destruct (existsb (fun row => 0 <? sq_ingestSeq row) all && negb _) eqn:E2;
    [left; exact (note_hasIncident (MkIntegrityIncident _ _ _ _ _ _ _ _ _ _) _)|].
  destruct (Bool.eqb _ _) eqn:E3; cbn [negb fst snd];
    [|left; exact (note_hasIncident (MkIntegrityIncident _ _ _ _ _ _ _ _ _ _) _)].
  right. split; [done|]. apply eqb_prop in E3.
  destruct (existsb (fun row => 0 <? sq_ingestSeq row) all) eqn:Ei; rewrite E3 in E1; cbn [andb] in E1, E2.
  - apply negb_false_iff, forallb_all in E1, E2. right.
    assert (Forall (fun row => 0 < sq_captureSeq row /\ 0 < sq_ingestSeq row) all) as Hpos.
    { apply Forall_and. split; [eapply Forall_impl; [exact E1|]|eapply Forall_impl; [exact E2|]];
        cbn; intros row; apply Z.ltb_lt. }
    split; [done|]. by apply Hloop.
  - left. apply existsb_none in Ei, E3.
    apply Forall_and. split; [eapply Forall_impl; [exact E3|]|eapply Forall_impl; [exact Ei|]];
      cbn; intros row; apply Z.ltb_ge.
Qed.

Lemma not_quiet_trades : ~ quiet IntegrityChannel.Trades.
Proof. by intros [|]. Qed.
Lemma not_quiet_bookTicker : ~ quiet IntegrityChannel.BookTicker.
Proof. by intros [|]. Qed.
Lemma not_quiet_depth : ~ quiet IntegrityChannel.Depth.
Proof. by intros [|]. Qed.
#[export] Hint Resolve not_quiet_trades not_quiet_bookTicker not_quiet_depth note_follows onChannel_follows
  validateChannel_follows : counters.

(** The sorted sequences increase when no place is found where they do not. *)
Lemma firstDuplicate_none seqs : forall i, firstDuplicate i seqs = None -> Sorted Z.lt seqs.
Proof.
  induction seqs as [|a seqs IH]; intros i H; [constructor|]. destruct seqs as [|b seqs]; [repeat constructor|].
  cbn [firstDuplicate] in H. destruct (Z.leb_spec b a); [done|]. constructor; [by eapply IH|by constructor].
Qed.

(** The positive ingest sequences of the merged timeline. *)
Definition mergedSeqs (st : SessionReplay) : list Z := List.filter (fun seq => 0 <? seq) (map ev_ingestSeq (sr_events st)).

Lemma firstDuplicate_unique i seqs : firstDuplicate i (merge_sort Z.le seqs) = None -> NoDup seqs.
Proof.
  intros H%firstDuplicate_none%Sorted_StronglySorted; [|intros x y z; lia].
  rewrite <- (merge_sort_Permutation Z.le seqs). induction H as [|x xs _ IH Hall]; constructor; [|done].
  rewrite Forall_forall in Hall. intros Hin%Hall. lia.
Qed.

Lemma validateSequence_numbered st : let '(valid, st') := validateSequenceMetadata_ st in
  follows st st' /\
  (hasIncident IntegrityChannel.Trades st' \/ wellNumbered (map tradeSequence (sr_trades st))) /\
  (hasIncident IntegrityChannel.BookTicker st' \/ wellNumbered (map bookTickerSequence (sr_bookTickers st))) /\
  (hasIncident IntegrityChannel.Trades st' \/ hasIncident IntegrityChannel.BookTicker st' \/ NoDup (mergedSeqs st)).
Proof.
  unfold validateSequenceMetadata_.
  pose proof (validateChannel_numbered IntegrityChannel.Trades (map tradeSequence (sr_trades st)) (named "trades") st) as N1.
  pose proof (validateChannel_follows IntegrityChannel.Trades (map tradeSequence (sr_trades st)) (named "trades") st
    not_quiet_trades) as F1.
  destruct (validateChannel IntegrityChannel.Trades _ _ st) as [ok1 st1]. cbn [fst snd] in N1, F1.
  pose proof (validateChannel_numbered IntegrityChannel.BookTicker (map bookTickerSequence (sr_bookTickers st1))
    (named "bookticker") st1) as N2.
  pose proof (validateChannel_follows IntegrityChannel.BookTicker (map bookTickerSequence (sr_bookTickers st1))
    (named "bookticker") st1 not_quiet_bookTicker) as F2.
  pose proof (fo_timeline _ _ F1) as T. unfold timeline in T. injection T as _ T _ E1 _ _ _ _ _. rewrite T in N2, F2 |- *.
  destruct (validateChannel IntegrityChannel.BookTicker _ _ st1) as [ok2 st2]. cbn [fst snd] in N2, F2.
  pose proof (fo_timeline _ _ F2) as T2. unfold timeline in T2. injection T2 as _ _ _ E2 _ _ _ _ _.
  assert (follows st st2) as F by (by etransitivity).
  assert (hasIncident IntegrityChannel.Trades st2 \/ ok1 = true /\ wellNumbered (map tradeSequence (sr_trades st))) as N1'.
  { destruct N1 as [N1|N1]; [left; exact (hasIncident_follows _ _ _ F2 N1)|by right]. }
  destruct (negb ok1 || negb ok2) eqn:Eok.
  { split_and!; [done|destruct N1' as [|[_ ?]]; [by left|by right]|destruct N2 as [|[_ ?]]; [by left|by right]|].
    destruct ok1; [|by destruct N1' as [|[? _]]; [left|]].
    destruct ok2; [done|]. destruct N2 as [|[? _]]; [by right; left|done]. }
  cbv zeta. unfold mergedSeqs. rewrite <- E1, <- E2.
  destruct (firstDuplicate _ _) as [[i seq]|] eqn:Ed.
  - match goal with |- follows _ ?st3 /\ _ => assert (follows st2 st3) as F3;
      [|assert (hasIncident IntegrityChannel.Trades st3) as H3] end.
    { repeat (etransitivity; [|apply note_follows || (apply onChannel_follows; auto with counters)]). reflexivity. }
    { exact (note_hasIncident (MkIntegrityIncident _ _ _ _ _ _ _ _ _ _) _). }
    split_and!; [by etransitivity|by left| |by left].
    destruct N2 as [H|[_ H]]; [left; exact (hasIncident_follows _ _ _ F3 H)|by right].
  - split_and!; [done|destruct N1' as [|[_ ?]]; [by left|by right]|destruct N2 as [|[_ ?]]; [by left|by right]|].
    right; right. by eapply firstDuplicate_unique.
Qed.

Lemma markStale_follows channel last st : follows st (markStale channel last st).
Proof. unfold markStale. cbv zeta. destruct (_ || _); [reflexivity|]. destruct (_ <=? _); [reflexivity|apply note_follows]. Qed.

Lemma markStaleLive_follows st : follows st (markStaleLiveChannels_ st).
Proof.
  unfold markStaleLiveChannels_. cbv zeta. destruct (_ <=? _); [reflexivity|].
  destruct (mh_bookTickerEnabled _ && _); destruct (mh_orderbookEnabled _ && _); try reflexivity; try apply markStale_follows.
  etransitivity; apply markStale_follows.
Qed.

(** ** The verdict *)

Definition calm (c : ChannelIntegritySummary) : Prop :=
  ci_state c = ChannelHealthState.Clean \/ ci_state c = ChannelHealthState.NotCaptured.

Lemma sessionHealthLoop_calm health channels : Forall calm channels -> sessionHealthLoop health channels = health.
Proof.
  induction 1 as [|c channels Hc _ IH]; [done|]. cbn [sessionHealthLoop]. unfold isCorrupt.
  by destruct Hc as [-> | ->].
Qed.

Lemma markSimple_others channel channel' enabled required n s : channel <> channel' ->
  summaryFor_ channel (markSimpleChannel channel' enabled required n s) = summaryFor_ channel s.
Proof.
  intros Hne. unfold markSimpleChannel. cbv zeta.
  destruct (negb enabled); [|destruct (isCorrupt _); [|destruct (negb _); [|destruct (n =? 0)%nat; [destruct (negb required)|]]]];
    try (rewrite summaryFor_onSummary; by rewrite decide_False).
  unfold noteIncident_. rewrite summaryFor_onSummary, decide_False, summaryFor_session, summaryFor_onSummary by done.
  by rewrite decide_False.
Qed.

(** A channel that does not stand in the way of exact replay. *)
Definition passes (enabled : bool) (c : ChannelIntegritySummary) : Prop := (negb enabled || ci_exactReplayEligible c) = true.

Lemma markSimple_passes channel enabled required n s :
  let s' := markSimpleChannel channel enabled required n s in
  passes enabled (summaryFor_ channel s') ->
  si_incidents s' = si_incidents s /\ calm (summaryFor_ channel s') /\
  (enabled = true -> ci_incidentCount (summaryFor_ channel s) = 0).
Proof.
  unfold passes, calm, markSimpleChannel. cbv zeta.
  destruct enabled; cbn [negb orb].
  - destruct (isCorrupt _) eqn:Ec; [rewrite summaryFor_onSummary, decide_True by done; done|].
    destruct (Z.eqb_spec (ci_incidentCount (summaryFor_ channel s)) 0) as [Ez|Ez]; cbn [negb];
      [|rewrite summaryFor_onSummary, decide_True by done; done].
    destruct (n =? 0)%nat; [destruct required; cbn [negb]|].
    + unfold noteIncident_. rewrite !summaryFor_onSummary, !decide_True, summaryFor_session, summaryFor_onSummary,
        decide_True by done. done.
    + rewrite summaryFor_onSummary, decide_True, onSummary_incidents by done. intros _. split_and!; [done|by left|done].
    + rewrite summaryFor_onSummary, decide_True, onSummary_incidents by done. intros _. split_and!; [done|by left|done].
  - intros _. rewrite summaryFor_onSummary, decide_True, onSummary_incidents by done. split_and!; [done|by right|done].
Qed.

Lemma markDepth_passes enabled required n c : passes enabled (markDepth enabled required n c) ->
  calm (markDepth enabled required n c) /\ (enabled = true -> ci_incidentCount c = 0).
Proof.
  unfold passes, calm, markDepth. destruct enabled; cbn [negb orb]; [|intros _; split; [by right|done]].
  destruct (isCorrupt c); [done|]. destruct (_ && _); [done|].
  destruct (Z.eqb_spec (ci_incidentCount c) 0); [|done]. intros _. split; [by left|done].
Qed.

Lemma markSnapshot_calm enabled loaded c : calm c -> calm (markSnapshot enabled loaded c).
Proof.
  intros Hc. unfold markSnapshot. destruct (negb enabled); [by right|]. destruct (negb loaded); [by right|].
  destruct (_ =? 0); [by left|done].
Qed.

Lemma noIncident_count channel st : countedReplay st -> ci_incidentCount (summaryFor_ channel (sr_integritySummary st)) = 0 ->
  ~ hasIncident channel st.
Proof.
  intros [_ Hc _] Hz (i & Hin & Hch). destruct (Hc channel) as [Hn _ _ _]. rewrite Hz in Hn.
  assert (i ∈ incidentsOf channel (sr_integritySummary st)) as Hi.
  { apply list_elem_of_In, List.filter_In. split; [by apply list_elem_of_In|]. unfold on. by apply bool_decide_eq_true_2. }
  destruct (incidentsOf channel (sr_integritySummary st)); [by apply elem_of_nil in Hi|cbn in Hn; lia].
Qed.

(** [refreshHealthSummary_] on the summary alone. *)
Definition settled (h : ManifestHints) (trades tickers depths : nat) (snapshotLoaded : bool) (s : SessionIntegritySummary)
  : SessionIntegritySummary :=
  markSimpleChannel IntegrityChannel.BookTicker (mh_bookTickerEnabled h) (mh_bookTickerRequired h) tickers
    (markSimpleChannel IntegrityChannel.Trades (mh_tradesEnabled h) (mh_tradesRequired h) trades s)
  <| si_snapshot ::= markSnapshot (mh_orderbookEnabled h) snapshotLoaded |>
  <| si_depth ::= markDepth (mh_orderbookEnabled h) (mh_orderbookRequired h) depths |>.
Definition verdict (h : ManifestHints) (s : SessionIntegritySummary) : SessionIntegritySummary :=
  let tracked := [(mh_tradesEnabled h, si_trades s); (mh_bookTickerEnabled h, si_bookTicker s);
                  (mh_orderbookEnabled h, si_depth s)] in
  s <| si_exactReplayEligible :=
         existsb fst tracked && forallb (fun channel => negb channel.1 || ci_exactReplayEligible channel.2) tracked &&
         mh_capturedExactReplayEligible h |>
    <| si_sessionHealth :=
         sessionHealthLoop (if mh_capturedExactReplayEligible h then SessionHealth.Clean else SessionHealth.Degraded)
           [si_trades s; si_liquidations s; si_bookTicker s; si_depth s; si_snapshot s] |>.

Lemma refreshHealth_summary st : sr_integritySummary (refreshHealthSummary_ st) =
  verdict (sr_manifestHints st) (settled (sr_manifestHints st) (length (sr_trades st)) (length (sr_bookTickers st))
    (length (sr_depths st)) (sr_snapshotLoaded st) (sr_integritySummary st)).
Proof. reflexivity. Qed.

Lemma verdict_exact h s : si_exactReplayEligible (verdict h s) = true ->
  passes (mh_tradesEnabled h) (si_trades s) /\ passes (mh_bookTickerEnabled h) (si_bookTicker s) /\
  passes (mh_orderbookEnabled h) (si_depth s) /\ mh_capturedExactReplayEligible h = true.
Proof.
  unfold verdict, passes. cbv zeta. cbn [si_exactReplayEligible upd forallb fst snd].
  rewrite !andb_true_iff. intros [[_ (H1 & H2 & H3 & _)] H4]. done.
Qed.

Lemma verdict_health h s : mh_capturedExactReplayEligible h = true ->
  (forall channel, calm (summaryFor_ channel s)) -> si_sessionHealth (verdict h s) = SessionHealth.Clean.
Proof.
  intros Hcap Hcalm. unfold verdict. cbv zeta. cbn [si_sessionHealth upd]. rewrite Hcap.
  apply sessionHealthLoop_calm. repeat apply Forall_cons_2; [apply (Hcalm IntegrityChannel.Trades)|
    apply (Hcalm IntegrityChannel.Liquidations)|apply (Hcalm IntegrityChannel.BookTicker)|
    apply (Hcalm IntegrityChannel.Depth)|apply (Hcalm IntegrityChannel.Snapshot)|constructor].
Qed.

Lemma settled_channels h trades tickers depths loaded s :
  let s1 := markSimpleChannel IntegrityChannel.Trades (mh_tradesEnabled h) (mh_tradesRequired h) trades s in
  let s2 := markSimpleChannel IntegrityChannel.BookTicker (mh_bookTickerEnabled h) (mh_bookTickerRequired h) tickers s1 in
  let s3 := settled h trades tickers depths loaded s in
  summaryFor_ IntegrityChannel.Trades s3 = summaryFor_ IntegrityChannel.Trades s1 /\
  summaryFor_ IntegrityChannel.BookTicker s3 = summaryFor_ IntegrityChannel.BookTicker s2 /\
  summaryFor_ IntegrityChannel.BookTicker s1 = summaryFor_ IntegrityChannel.BookTicker s /\
  summaryFor_ IntegrityChannel.Depth s3 =
    markDepth (mh_orderbookEnabled h) (mh_orderbookRequired h) depths (summaryFor_ IntegrityChannel.Depth s) /\
  summaryFor_ IntegrityChannel.Snapshot s3 =
    markSnapshot (mh_orderbookEnabled h) loaded (summaryFor_ IntegrityChannel.Snapshot s) /\
  summaryFor_ IntegrityChannel.Liquidations s3 = summaryFor_ IntegrityChannel.Liquidations s /\
  si_incidents s3 = si_incidents s2.
Proof.
  cbv zeta. unfold settled.
  set (s1 := markSimpleChannel IntegrityChannel.Trades _ _ _ _). set (s2 := markSimpleChannel IntegrityChannel.BookTicker _ _ _ _).
  assert (forall channel, channel <> IntegrityChannel.Trades -> summaryFor_ channel s1 = summaryFor_ channel s) as H1
    by (intros; by apply markSimple_others).
  assert (forall channel, channel <> IntegrityChannel.BookTicker -> summaryFor_ channel s2 = summaryFor_ channel s1) as H2
    by (intros; by apply markSimple_others).
  rewrite <- (H1 IntegrityChannel.Depth), <- (H1 IntegrityChannel.Snapshot), <- (H1 IntegrityChannel.Liquidations),
    <- (H1 IntegrityChannel.BookTicker) by done.
  rewrite <- (H2 IntegrityChannel.Depth), <- (H2 IntegrityChannel.Snapshot), <- (H2 IntegrityChannel.Liquidations),
    <- (H2 IntegrityChannel.Trades) by done.
  clearbody s2. clear. by destruct s2.
Qed.

(** The verdict of [refreshHealthSummary_] on a state whose other channels are calm. *)
Lemma refreshHealth_exact st : countedReplay st ->
  (forall channel, quiet channel -> stateOf channel st = ChannelHealthState.NotCaptured) ->
  si_exactReplayEligible (sr_integritySummary (refreshHealthSummary_ st)) = true ->
  let h := sr_manifestHints st in
  mh_capturedExactReplayEligible h = true /\
  si_sessionHealth (sr_integritySummary (refreshHealthSummary_ st)) = SessionHealth.Clean /\
  incidents (refreshHealthSummary_ st) = incidents st /\
  (mh_tradesEnabled h = true -> ~ hasIncident IntegrityChannel.Trades st) /\
  (mh_bookTickerEnabled h = true -> ~ hasIncident IntegrityChannel.BookTicker st) /\
  (mh_orderbookEnabled h = true -> ~ hasIncident IntegrityChannel.Depth st).
Proof.
  intros Hc Hq. unfold incidents at 1. rewrite refreshHealth_summary. cbv zeta.
  pose proof (settled_channels (sr_manifestHints st) (length (sr_trades st)) (length (sr_bookTickers st))
    (length (sr_depths st)) (sr_snapshotLoaded st) (sr_integritySummary st)) as (S1 & S2 & S3 & S4 & S5 & S6 & S7).
  set (s3 := settled _ _ _ _ _ _) in *. intros Hv. destruct (verdict_exact _ _ Hv) as (P1 & P2 & P3 & P4).
  change (si_trades s3) with (summaryFor_ IntegrityChannel.Trades s3) in P1.
  change (si_bookTicker s3) with (summaryFor_ IntegrityChannel.BookTicker s3) in P2.
  change (si_depth s3) with (summaryFor_ IntegrityChannel.Depth s3) in P3.
  rewrite S1 in P1. rewrite S2 in P2. rewrite S4 in P3.
  apply markSimple_passes in P1 as (I1 & C1 & Z1), P2 as (I2 & C2 & Z2). apply markDepth_passes in P3 as [C3 Z3].
  rewrite S3 in Z2. split_and!; [done| | |intros H; by apply noIncident_count, Z1|intros H; by apply noIncident_count, Z2|
    intros H; by apply noIncident_count, Z3].
  - apply verdict_health; [done|]. intros channel. unfold stateOf in Hq.
    destruct channel; rewrite ?S1, ?S2, ?S4, ?S5, ?S6; try done; [right; apply Hq; by left|].
    apply markSnapshot_calm. right. apply Hq. by right.
  - change (si_incidents (verdict ?h ?s)) with (si_incidents s). by rewrite S7, I2, I1.
Qed.

(** ** From a clear verdict to the end of [finalize] *)

Lemma noteIncident_state channel i s : ci_state (summaryFor_ channel (noteIncident_ i s)) = ci_state (summaryFor_ channel s).
Proof. unfold noteIncident_. rewrite summaryFor_onSummary, summaryFor_session. by destruct (decide _). Qed.

Lemma resetIntegrity_state channel st : stateOf channel (resetIntegrity_ st) = ChannelHealthState.NotCaptured.
Proof.
  unfold stateOf, resetIntegrity_. cbv zeta. change (sr_integritySummary (upd _ (fun _ => ?s) _)) with s.
  match goal with |- ci_state (summaryFor_ _ (fold_left _ _ ?fresh)) = _ =>
    assert (ci_state (summaryFor_ channel fresh) = ChannelHealthState.NotCaptured) as Hf by (by destruct channel);
    revert Hf; generalize fresh end.
  generalize (mh_capturedIncidents (sr_manifestHints st)). intros captured.
  induction captured as [|[i|] captured IH]; intros s Hs; cbn [fold_left]; [exact Hs|..]; apply IH; [|exact Hs].
  by rewrite noteIncident_state.
Qed.

Lemma rebuildBuckets_hints st : sr_manifestHints (rebuildBuckets_ st) = sr_manifestHints st.
Proof.
  unfold rebuildBuckets_. cbv zeta. generalize (fold_left pushBucket (sr_events st) []). intros buckets.
  destruct (head buckets), (last buckets); [reflexivity|..];
    (destruct (nonEmpty _ || nonEmpty _); [reflexivity|]; destruct (negb _); reflexivity).
Qed.
Lemma rebuildEvents_keeps st : sr_manifestHints (rebuildEvents_ st) = sr_manifestHints st /\
  sr_integritySummary (rebuildEvents_ st) = sr_integritySummary st.
Proof. done. Qed.
Lemma resetIntegrity_hints st : sr_manifestHints (resetIntegrity_ st) = sr_manifestHints st.
Proof. done. Qed.

Lemma clearVerdict_start st : sr_manifestHints (clearVerdict st) = sr_manifestHints st /\
  forall channel, stateOf channel (clearVerdict st) = ChannelHealthState.NotCaptured.
Proof.
  unfold clearVerdict. split.
  - rewrite rebuildBuckets_hints. destruct (rebuildEvents_keeps (resetIntegrity_ (st <| sr_status := Ok |>
      <| sr_errorDetail := [] |> <| sr_gapDetected := false |> <| sr_sequenceValidationAvailable := false |>
      <| sr_integrityFailureCount := 0 |>))) as [-> _]. by rewrite resetIntegrity_hints.
  - intros channel. unfold stateOf. rewrite rebuildBuckets_summary.
    rewrite (proj2 (rebuildEvents_keeps _)). apply resetIntegrity_state.
Qed.

Lemma restorePartial_follows st : follows st (restorePartialDepthIncident_ st).
Proof.
  unfold restorePartialDepthIncident_. destruct (negb _); [reflexivity|].
  etransitivity; [|apply note_follows]. etransitivity; [|apply onChannel_follows; auto with counters]. by split.
Qed.

Lemma rewind_keeps st : sr_manifestHints (rewindToSnapshot_ st) = sr_manifestHints st /\
  sr_integritySummary (rewindToSnapshot_ st) = sr_integritySummary st.
Proof. done. Qed.

Lemma finalize_verdict st :
  let st1 := restorePartialDepthIncident_ (rewindToSnapshot_ (clearVerdict st)) in
  sr_integritySummary (finalize st) =
  sr_integritySummary (refreshHealthSummary_ (markStaleLiveChannels_ (validateSequenceMetadata_ st1).2)).
Proof.
  unfold finalize. cbv zeta. generalize (restorePartialDepthIncident_ (rewindToSnapshot_ (clearVerdict st))). intros st1.
  destruct (validateSequenceMetadata_ st1) as [valid st2]. cbn [snd].
  generalize (refreshHealthSummary_ (markStaleLiveChannels_ st2)). intros st4. by destruct (_ || _ || _).
Qed.

(** The states [finalize] goes through. *)
Lemma finalize_states st : exists st1 st2 st3,
  countedReplay st3 /\ sr_manifestHints st1 = sr_manifestHints st /\
  (forall channel, quiet channel -> stateOf channel st1 = ChannelHealthState.NotCaptured) /\
  timeline st1 = rebuiltTimeline st (snapshotBook st) /\
  (validateSequenceMetadata_ st1).2 = st2 /\ follows st2 st3 /\
  sr_integritySummary (finalize st) = sr_integritySummary (refreshHealthSummary_ st3).
Proof.
  destruct (clearVerdict_start st) as [Hh Hs]. pose proof (rewind_counted _ (clearVerdict_counted st)) as Hc.
  pose proof (rewind_timeline _ _ (clearVerdict_timeline st)) as Ht. destruct (rewind_keeps (clearVerdict st)) as [K1 K2].
  pose proof (finalize_verdict st) as E. cbv zeta in E.
  set (st0 := rewindToSnapshot_ (clearVerdict st)) in *. clearbody st0.
  destruct (restorePartial_follows st0) as [_ Q1 M1 T1]. apply restorePartial_counted in Hc.
  set (st1 := restorePartialDepthIncident_ st0) in *. clearbody st1.
  exists st1, (validateSequenceMetadata_ st1).2, (markStaleLiveChannels_ (validateSequenceMetadata_ st1).2).
  split_and!; [by apply markStaleLive_counted, validateSequence_counted|by rewrite M1, K1, Hh| |by rewrite T1|done|
    apply markStaleLive_follows|exact E].
  intros channel Hq. rewrite (Q1 channel Hq). unfold stateOf. rewrite K2. apply Hs.
Qed.

(** ** Sessions that are accepted *)

(** Rows numbered well pass the validation of their channel, which then changes nothing. *)
Lemma sequenceLoop_unnumbered rows : forall i previous available,
  Forall (fun row => sq_captureSeq row <= 0 /\ sq_ingestSeq row <= 0) rows ->
  (sequenceLoop i previous 0 available rows).1 = None.
Proof.
  induction rows as [|row rows IH]; intros i previous available Hf; [done|]. apply Forall_cons in Hf as [[Hc Hi] Hf].
  cbn [sequenceLoop]. cbv zeta. rewrite (proj2 (Z.ltb_ge _ _) Hc), (proj2 (Z.ltb_ge _ _) Hi). cbn [andb]. by apply IH.
Qed.
Lemma sequenceLoop_accepts rows : forall i previous available,
  0 < sq_captureSeq previous -> Forall (fun row => 0 < sq_captureSeq row /\ 0 < sq_ingestSeq row) rows ->
  increasing (map sq_captureSeq (previous :: rows)) -> increasing (map sq_ingestSeq (previous :: rows)) ->
  (sequenceLoop i (Some previous) (sq_captureSeq previous) available rows).1 = None.
Proof.
  induction rows as [|row rows IH]; intros i previous available Hp Hf Hc Hi; [done|]. apply Forall_cons in Hf as [[Fc Fi] Hf].
  cbn [map] in Hc, Hi. apply StronglySorted_inv in Hc as [Hc Lc], Hi as [Hi Li]. apply Forall_cons in Lc as [Lc _], Li as [Li _].
  cbn [sequenceLoop]. cbv zeta. rewrite (proj2 (Z.ltb_lt _ _) Fc), (proj2 (Z.leb_gt _ _) Lc), (proj2 (Z.leb_gt _ _) Li).
  rewrite !andb_false_r. by apply IH.
Qed.
Lemma sequenceLoop_well rows available : wellNumbered rows -> (sequenceLoop 0 None 0 available rows).1 = None.
Proof.
  intros [Hf|(Hf & Hc & Hi)]; [by apply sequenceLoop_unnumbered|]. destruct rows as [|row rows]; [done|].
  apply Forall_cons in Hf as [[Fc Fi] Hf]. cbn [sequenceLoop]. cbv zeta. change (0 =? 0) with true. cbn [negb].
  rewrite andb_false_r, andb_false_r, (proj2 (Z.ltb_lt _ _) Fc). cbn [andb]. by apply sequenceLoop_accepts.
Qed.
Lemma forallb_existsb {A} (f : A -> bool) xs (b : bool) : xs <> [] -> Forall (fun x => f x = b) xs ->
  forallb f xs = b /\ existsb f xs = b.
Proof.
  intros Hne Hf. destruct Hf as [|x xs Hx Hf]; [done|]. clear Hne. revert x Hx. induction Hf as [|y xs Hy Hf IH]; intros x Hx.
  - cbn. by rewrite Hx, andb_true_r, orb_false_r.
  - destruct (IH y Hy) as [I1 I2]. cbn [forallb existsb] in *. rewrite I1, I2, Hx. by destruct b.
Qed.
Lemma validateChannel_well channel rows name st : wellNumbered rows -> exists available,
  validateChannel channel rows name st = (true, st <| sr_sequenceValidationAvailable := available |>).
Proof.
  intros Hw. unfold validateChannel. destruct rows as [|front rows]; [exists (sr_sequenceValidationAvailable st); by destruct st|].
  pose proof (sequenceLoop_well _ (sr_sequenceValidationAvailable st) Hw) as Hloop.
  destruct (sequenceLoop _ _ _ _ _) as [failure available]. cbn in Hloop. subst failure. exists available. cbv zeta.
  assert (exists b, Forall (fun row => (0 <? sq_captureSeq row) = b) (front :: rows) /\
    Forall (fun row => (0 <? sq_ingestSeq row) = b) (front :: rows)) as (b & Hc & Hi).
  { destruct Hw as [Hf|[Hf _]]; [exists false|exists true]; apply Forall_and in Hf as [Fc Fi];
      (split; [eapply Forall_impl; [exact Fc|]|eapply Forall_impl; [exact Fi|]]); cbn; intros row Hrow;
      by first [apply Z.ltb_ge|apply Z.ltb_lt]. }
  destruct (forallb_existsb _ (front :: rows) b ltac:(done) Hc) as [-> ->]. destruct (forallb_existsb _ (front :: rows) b ltac:(done) Hi) as [-> ->].
  by destruct b.
Qed.

(** Steps that leave the status and damage no channel. *)
Record unharmed (st st' : SessionReplay) : Prop := {
  un_status : sr_status st' = sr_status st;
  un_states : forall channel, stateOf channel st <> ChannelHealthState.Corrupt -> stateOf channel st' <> ChannelHealthState.Corrupt;
}.
#[export] Instance unharmed_preorder : PreOrder unharmed.
Proof. split; [by intros st|]. intros st1 st2 st3 [A1 A2] [B1 B2]. split; [congruence|auto]. Qed.
Lemma note_unharmed i st : unharmed st (note i st).
Proof.
  split; [done|]. intros channel. unfold stateOf, note.
  change (sr_integritySummary (upd _ ?f st)) with (f (sr_integritySummary st)). by rewrite noteIncident_state.
Qed.
Lemma degrade_unharmed channel st : unharmed st (onChannel channel degrade st).
Proof.
  split; [done|]. intros channel'. unfold stateOf, onChannel.
  change (sr_integritySummary (upd _ ?f st)) with (f (sr_integritySummary st)). rewrite summaryFor_onSummary.
  destruct (decide _) as [->|]; [|done]. unfold degrade. by destruct (isCorrupt _).
Qed.
Lemma validateSequence_well st : wellNumbered (map tradeSequence (sr_trades st)) ->
  wellNumbered (map bookTickerSequence (sr_bookTickers st)) ->
  (validateSequenceMetadata_ st).1 = true /\ unharmed st (validateSequenceMetadata_ st).2.
Proof.
  intros Ht Hb. unfold validateSequenceMetadata_.
  destruct (validateChannel_well IntegrityChannel.Trades _ (named "trades") st Ht) as [a1 ->]. cbn [sr_bookTickers upd].
  match goal with |- context [validateChannel IntegrityChannel.BookTicker ?rows ?name ?st1] =>
    destruct (validateChannel_well IntegrityChannel.BookTicker rows name st1 Hb) as [a2 ->] end.
  cbn [negb orb]. cbv zeta. match goal with |- context [firstDuplicate 1 ?seqs] => destruct (firstDuplicate 1 seqs) as [[i seq]|] end;
    cbn [fst snd]; (split; [done|]); [|by split].
  do 4 (etransitivity; [|apply note_unharmed || apply degrade_unharmed]). by split.
Qed.
Lemma markStale_unharmed channel last st : unharmed st (markStale channel last st).
Proof. unfold markStale. cbv zeta. destruct (_ || _); [reflexivity|]. destruct (_ <=? _); [reflexivity|apply note_unharmed]. Qed.
Lemma markStaleLive_unharmed st : unharmed st (markStaleLiveChannels_ st).
Proof.
  unfold markStaleLiveChannels_. cbv zeta. destruct (_ <=? _); [reflexivity|].
  destruct (mh_bookTickerEnabled _ && _); destruct (mh_orderbookEnabled _ && _); try reflexivity; try apply markStale_unharmed.
  etransitivity; apply markStale_unharmed.
Qed.

Definition damaged (c : ChannelIntegritySummary) : Prop := ci_state c = ChannelHealthState.Corrupt.
Lemma markSimple_damaged channel channel' enabled required n s :
  damaged (summaryFor_ channel' (markSimpleChannel channel enabled required n s)) -> damaged (summaryFor_ channel' s).
Proof.
  unfold markSimpleChannel, damaged. cbv zeta.
  assert (forall change, (forall c, ci_state (change c) = ci_state c \/ ci_state (change c) <> ChannelHealthState.Corrupt) ->
    ci_state (summaryFor_ channel' (onSummary channel change s)) = ChannelHealthState.Corrupt ->
    ci_state (summaryFor_ channel' s) = ChannelHealthState.Corrupt) as Hon.
  { intros change Hch. rewrite summaryFor_onSummary. destruct (decide _) as [->|]; [|done].
    destruct (Hch (summaryFor_ channel s)) as [->|]; done. }
  destruct (negb enabled); [apply Hon; by right|]. destruct (isCorrupt _); [apply Hon; by left|].
  destruct (negb _); [apply Hon; by right|]. destruct (_ =? _)%nat; [destruct (negb _)|]; [apply Hon; by right| |apply Hon; by right].
  rewrite noteIncident_state. apply Hon. by right.
Qed.
Lemma markDepth_damaged enabled required n c : damaged (markDepth enabled required n c) -> damaged c.
Proof.
  unfold markDepth, damaged. destruct (negb enabled); [done|]. destruct (isCorrupt c) eqn:E; [done|].
  destruct (_ && _); [done|]. by destruct (_ =? _).
Qed.
Lemma markSnapshot_damaged enabled loaded c : damaged (markSnapshot enabled loaded c) -> damaged c.
Proof. unfold markSnapshot, damaged. destruct (negb enabled); [done|]. destruct (negb loaded); [done|]. by destruct (_ =? _). Qed.
Lemma sessionHealthLoop_damaged health channels : health <> SessionHealth.Corrupt -> Forall (fun c => ~ damaged c) channels ->
  sessionHealthLoop health channels <> SessionHealth.Corrupt.
Proof.
  intros Hh Hf. revert health Hh. induction Hf as [|c channels Hc _ IH]; intros health Hh; [done|]. cbn [sessionHealthLoop].
  unfold isCorrupt. rewrite bool_decide_eq_false_2 by exact Hc. apply IH. by destruct (_ || _).
Qed.
Lemma refreshHealth_sound st : (forall channel, stateOf channel st <> ChannelHealthState.Corrupt) ->
  isSessionCorrupt (refreshHealthSummary_ st) = false.
Proof.
  intros Hs. unfold isSessionCorrupt. apply bool_decide_eq_false_2. rewrite refreshHealth_summary.
  set (h := sr_manifestHints st). set (s := sr_integritySummary st) in *.
  assert (forall channel, ~ damaged (summaryFor_ channel (settled h (length (sr_trades st)) (length (sr_bookTickers st))
    (length (sr_depths st)) (sr_snapshotLoaded st) s))) as Hd.
  { intros channel Hd. apply (Hs channel). change (damaged (summaryFor_ channel s)).
    apply (markSimple_damaged IntegrityChannel.Trades channel (mh_tradesEnabled h) (mh_tradesRequired h) (length (sr_trades st))).
    apply (markSimple_damaged IntegrityChannel.BookTicker channel (mh_bookTickerEnabled h) (mh_bookTickerRequired h)
      (length (sr_bookTickers st))).
    destruct channel; try exact Hd; [by apply markDepth_damaged in Hd|by apply markSnapshot_damaged in Hd]. }
  unfold verdict. cbv zeta. cbn [si_sessionHealth upd]. apply sessionHealthLoop_damaged; [by destruct (mh_capturedExactReplayEligible h)|].
  repeat apply Forall_cons_2; [exact (Hd IntegrityChannel.Trades)|exact (Hd IntegrityChannel.Liquidations)|
    exact (Hd IntegrityChannel.BookTicker)|exact (Hd IntegrityChannel.Depth)|exact (Hd IntegrityChannel.Snapshot)|constructor].
Qed.
Lemma clearVerdict_status st : sr_status (clearVerdict st) = Ok /\
  sr_partialDepthCorrupt (clearVerdict st) = sr_partialDepthCorrupt st.
Proof.
  unfold clearVerdict.
  assert (forall st0, sr_status (rebuildBuckets_ st0) = sr_status st0 /\
    sr_partialDepthCorrupt (rebuildBuckets_ st0) = sr_partialDepthCorrupt st0) as Hb.
  { intros st0. unfold rebuildBuckets_. cbv zeta. generalize (fold_left pushBucket (sr_events st0) []). intros buckets.
    destruct (head buckets), (last buckets); [done|..];
      (destruct (nonEmpty _ || nonEmpty _); [done|]; by destruct (negb _)). }
  split; [exact (proj1 (Hb _))|exact (proj2 (Hb _))].
Qed.

Lemma rewind_status st : sr_status (rewindToSnapshot_ st) = sr_status st /\
  sr_partialDepthCorrupt (rewindToSnapshot_ st) = sr_partialDepthCorrupt st /\
  sr_trades (rewindToSnapshot_ st) = sr_trades st /\ sr_bookTickers (rewindToSnapshot_ st) = sr_bookTickers st.
Proof. done. Qed.
Lemma refreshHealth_status st : sr_status (refreshHealthSummary_ st) = sr_status st.
Proof. done. Qed.

(** A session whose trades and tickers are numbered well, or not at all, is accepted. *)
Lemma finalize_accepts st : wellNumbered (map tradeSequence (sr_trades st)) ->
  wellNumbered (map bookTickerSequence (sr_bookTickers st)) -> sr_partialDepthCorrupt st = false ->
  sr_status (finalize st) = Ok.
Proof.
  intros Ht Hb Hp. destruct (clearVerdict_status st) as [C1 C2]. destruct (clearVerdict_start st) as [_ Hs].
  pose proof (clearVerdict_timeline st) as T. unfold timeline, rebuiltTimeline in T. injection T as T1 T2 _ _ _ _ _ _ _.
  destruct (rewind_status (clearVerdict st)) as (R1 & R2 & R3 & R4). pose proof (proj2 (rewind_keeps (clearVerdict st))) as R5.
  rewrite C1 in R1. rewrite C2, Hp in R2. rewrite T1 in R3. rewrite T2 in R4.
  assert (forall channel, stateOf channel (rewindToSnapshot_ (clearVerdict st)) = ChannelHealthState.NotCaptured) as Hs1
    by (intros channel; unfold stateOf; rewrite R5; apply Hs).
  unfold finalize. generalize dependent (rewindToSnapshot_ (clearVerdict st)). intros st1 R1 R2 R3 R4 _ Hs1.
  assert (restorePartialDepthIncident_ st1 = st1) as -> by (unfold restorePartialDepthIncident_; by rewrite R2).
  destruct (validateSequence_well st1) as [V1 V2]; [by rewrite R3|by rewrite R4|].
  cbv zeta. destruct (validateSequenceMetadata_ st1) as [valid st2]. cbn [fst snd] in V1, V2. subst valid.
  pose proof (markStaleLive_unharmed st2) as [M1 M2]. destruct V2 as [V2 V3].
  rewrite refreshHealth_sound by (intros channel; apply M2, V3; by rewrite Hs1).
  cbn [negb orb andb validateDepthStream_]. rewrite refreshHealth_status, M1, V2. exact R1.
Qed.



(** An incident on a channel that is not enabled does not count: with trades disabled a
    trade and a ticker may carry the same ingest sequence in a session that is declared
    eligible for exact replay. *)
Theorem disabled_channel_shares_sequence :
  let st := appendBookTickerRow (tickerAt 20 2) (appendTradeRow (tradeAt 20 2) newReplay)
              <| sr_manifestHints ::= fun h => h <| mh_tradesEnabled := false |> <| mh_bookTickerEnabled := true |>
                   <| mh_orderbookEnabled := false |> <| mh_capturedExactReplayEligible := true |> |> in
  si_exactReplayEligible (sr_integritySummary (finalize st)) = true /\ mergedSeqs (finalize st) = [2; 2].
Proof. vm_compute. split; reflexivity. Qed.

(** Sequences shared between trades and tickers degrade three channels, and
    [finalizeChannelStates_] sets two of them back to clean: only the trades keep an
    incident. *)
Theorem shared_sequence_degrades_trades_only :
  let st := appendDepthRow (depthAt 20 [MkPricePair 101 5 1])
              (appendBookTickerRow (tickerAt 20 2) (appendTradeRow (tradeAt 20 2) newReplay)) in
  let validated := (validateSequenceMetadata_ (clearVerdict st)).2 in
  let s := sr_integritySummary (finalize st) in
  stateOf IntegrityChannel.BookTicker validated = ChannelHealthState.Degraded /\
  stateOf IntegrityChannel.Depth validated = ChannelHealthState.Degraded /\
  ci_state (si_trades s) = ChannelHealthState.Degraded /\
  ci_state (si_bookTicker s) = ChannelHealthState.Clean /\ ci_exactReplayEligible (si_bookTicker s) = true /\
  ci_state (si_depth s) = ChannelHealthState.Clean /\ ci_exactReplayEligible (si_depth s) = true.
Proof. vm_compute. repeat split; reflexivity. Qed.
