(* ===== verification/Sinks.v ===== *)
(** * Sinks: where a live session's rows go

    Models Runtime/src/Corpus/Storage/EventStorage.{hpp,cpp} (the sink interface, the live
    store with its reads, the composite sink), JsonSessionStorage.cpp (the text session),
    Capture/Serialization/ChannelJsonWriter.cpp and the artifact paths of
    Capture/Session/ChannelKind.hpp.

    [IEventSink] is a class; a store, a text session and a composite of sinks are its
    instances.  A text session writes through streams to a disk whose next outcomes are part
    of the state, so that every theorem holds for all of them: a directory that cannot be
    made, a file that does not open, a write or a flush that stops after some bytes.  A
    stream keeps what was written until it is flushed or closed.  Mutexes make each call one
    step. *)
From stdpp Require Import base list numbers strings gmap.
From S2P Require Import Prelude Codec Json Rows Loader Replay.
Local Open Scope Z_scope.

(** ** Channels and their artifacts *)

Module ChannelKind.
Inductive t :=
| Trades | BookTicker | Liquidations | Candles | DepthTape | DepthSidecar | MarkPrice | IndexPrice | Funding
| PriceLimit | ExecutionFast | FastFill | ContractStats | ContractInfo | OkxBooks50L2Tbt | BitgetRpiBooks | Candles2.
#[global] Instance eq_dec : EqDecision t.
Proof. solve_decision. Defined.
End ChannelKind.

Definition channelName (k : ChannelKind.t) : string :=
  match k with
  | ChannelKind.Trades => "trades"
  | ChannelKind.BookTicker => "bookticker"
  | ChannelKind.Liquidations => "liquidations"
  | ChannelKind.Candles => "candles"
  | ChannelKind.DepthTape => "depth_tape"
  | ChannelKind.DepthSidecar => "depth_sidecar"
  | ChannelKind.MarkPrice => "mark_price"
  | ChannelKind.IndexPrice => "index_price"
  | ChannelKind.Funding => "funding"
  | ChannelKind.PriceLimit => "price_limit"
  | ChannelKind.Candles2 => "candles2"
  | ChannelKind.ExecutionFast => "execution_fast"
  | ChannelKind.FastFill => "fast_fill"
  | ChannelKind.ContractStats => "contract_stats"
  | ChannelKind.ContractInfo => "contract_info"
  | ChannelKind.OkxBooks50L2Tbt => "okx_books50_l2_tbt"
  | ChannelKind.BitgetRpiBooks => "bitget_rpi_books"
  end.
Definition channelFileName (k : ChannelKind.t) : list Z :=
  bytes_of_string (match k with
  | ChannelKind.Trades => "trades.jsonl"
  | ChannelKind.BookTicker => "bookticker.jsonl"
  | ChannelKind.Liquidations => "liquidations.jsonl"
  | ChannelKind.Candles => "candles.jsonl"
  | ChannelKind.DepthTape => "depth_tape.jsonl"
  | ChannelKind.DepthSidecar => "depth_sidecar.jsonl"
  | ChannelKind.MarkPrice => "mark_price.jsonl"
  | ChannelKind.IndexPrice => "index_price.jsonl"
  | ChannelKind.Funding => "funding.jsonl"
  | ChannelKind.PriceLimit => "price_limit.jsonl"
  | ChannelKind.Candles2 => "candles2.jsonl"
  | ChannelKind.ExecutionFast => "execution_fast.jsonl"
  | ChannelKind.FastFill => "fast_fill.jsonl"
  | ChannelKind.ContractStats => "contract_stats.jsonl"
  | ChannelKind.ContractInfo => "contract_info.jsonl"
  | ChannelKind.OkxBooks50L2Tbt => "okx_books50_l2_tbt.jsonl"
  | ChannelKind.BitgetRpiBooks => "bitget_rpi_books.jsonl"
  end).
Definition channelJsonlRelativePath (k : ChannelKind.t) : list Z :=
  bytes_of_string (match k with
  | ChannelKind.Trades => "jsonl/trades.jsonl"
  | ChannelKind.BookTicker => "jsonl/bookticker.jsonl"
  | ChannelKind.Liquidations => "jsonl/liquidations.jsonl"
  | ChannelKind.Candles => "jsonl/candles.jsonl"
  | ChannelKind.DepthTape => "jsonl/depth_tape.jsonl"
  | ChannelKind.DepthSidecar => "jsonl/depth_sidecar.jsonl"
  | ChannelKind.MarkPrice => "jsonl/mark_price.jsonl"
  | ChannelKind.IndexPrice => "jsonl/index_price.jsonl"
  | ChannelKind.Funding => "jsonl/funding.jsonl"
  | ChannelKind.PriceLimit => "jsonl/price_limit.jsonl"
  | ChannelKind.Candles2 => "jsonl/candles2.jsonl"
  | ChannelKind.ExecutionFast => "jsonl/execution_fast.jsonl"
  | ChannelKind.FastFill => "jsonl/fast_fill.jsonl"
  | ChannelKind.ContractStats => "jsonl/contract_stats.jsonl"
  | ChannelKind.ContractInfo => "jsonl/contract_info.jsonl"
  | ChannelKind.OkxBooks50L2Tbt => "jsonl/okx_books50_l2_tbt.jsonl"
  | ChannelKind.BitgetRpiBooks => "jsonl/bitget_rpi_books.jsonl"
  end).

(** ** The interface *)

(** A call on a sink, with its argument. *)
Inductive SinkCall :=
| AppendTrade (row : TradeRow)
| AppendBookTicker (row : BookTickerRow)
| AppendDepth (row : DepthRow)
| AppendSnapshot (snapshot : SnapshotDocument) (snapshotIndex : Z)
| Flush
| Close.
Class IEventSink (S : Type) := sinkCall : SinkCall -> S -> Status * S.

Definition mergeStatus (current next : Status) : Status := if isOk current then next else current.

Record EventBatch := MkEventBatch {
  eb_trades : list TradeRow;
  eb_bookTickers : list BookTickerRow;
  eb_depths : list DepthRow;
  eb_snapshots : list SnapshotDocument;
}.
#[export] Instance EventBatch_eta : Eta EventBatch := fun r =>
  MkEventBatch (eb_trades r) (eb_bookTickers r) (eb_depths r) (eb_snapshots r).
Definition noEvents : EventBatch := MkEventBatch [] [] [] [].

Record EventStoreStats := MkEventStoreStats {
  es_tradesTotal : Z;
  es_bookTickersTotal : Z;
  es_depthsTotal : Z;
  es_snapshotsTotal : Z;
  es_version : Z;
}.
#[export] Instance EventStoreStats_eta : Eta EventStoreStats := fun r =>
  MkEventStoreStats (es_tradesTotal r) (es_bookTickersTotal r) (es_depthsTotal r) (es_snapshotsTotal r) (es_version r).
Definition noStats : EventStoreStats := MkEventStoreStats 0 0 0 0 0.

(** ** The live store *)

Record LiveEventStore := MkLiveEventStore { le_events : EventBatch; le_version : Z }.
#[export] Instance LiveEventStore_eta : Eta LiveEventStore := fun r => MkLiveEventStore (le_events r) (le_version r).
Definition newStore : LiveEventStore := MkLiveEventStore noEvents 0.

Module LiveStore.
Definition stored (change : EventBatch -> EventBatch) (store : LiveEventStore) : Status * LiveEventStore :=
  (Ok, store <| le_events ::= change |> <| le_version ::= fun v => u64 (v + 1) |>).
Definition appendTrade (row : TradeRow) : LiveEventStore -> Status * LiveEventStore :=
  stored (fun events => events <| eb_trades ::= fun rows => rows ++ [row] |>).
Definition appendBookTicker (row : BookTickerRow) : LiveEventStore -> Status * LiveEventStore :=
  stored (fun events => events <| eb_bookTickers ::= fun rows => rows ++ [row] |>).
Definition appendDepth (row : DepthRow) : LiveEventStore -> Status * LiveEventStore :=
  stored (fun events => events <| eb_depths ::= fun rows => rows ++ [row] |>).
Definition appendSnapshot (snapshot : SnapshotDocument) : LiveEventStore -> Status * LiveEventStore :=
  stored (fun events => events <| eb_snapshots ::= fun rows => rows ++ [snapshot] |>).
Definition flush (store : LiveEventStore) : Status * LiveEventStore := (Ok, store).
Definition close (store : LiveEventStore) : Status * LiveEventStore := (Ok, store).
Definition clear (store : LiveEventStore) : LiveEventStore :=
  store <| le_events := noEvents |> <| le_version ::= fun v => u64 (v + 1) |>.
Definition readAll (store : LiveEventStore) : EventBatch := le_events store.
Definition stats (store : LiveEventStore) : EventStoreStats :=
  let events := le_events store in
  MkEventStoreStats (Z.of_nat (length (eb_trades events))) (Z.of_nat (length (eb_bookTickers events)))
    (Z.of_nat (length (eb_depths events))) (Z.of_nat (length (eb_snapshots events))) (le_version store).
End LiveStore.

#[export] Instance LiveEventStore_sink : IEventSink LiveEventStore := fun call store =>
  match call with
  | AppendTrade row => LiveStore.appendTrade row store
  | AppendBookTicker row => LiveStore.appendBookTicker row store
  | AppendDepth row => LiveStore.appendDepth row store
  | AppendSnapshot snapshot _ => LiveStore.appendSnapshot snapshot store
  | Flush => LiveStore.flush store
  | Close => LiveStore.close store
  end.

(** ** Reads of the live store *)

(** [std::partition_point] as [lower_bound] and [upper_bound] search it: [len] elements from
    [first] on are left. *)
Fixpoint searchLoop (fuel : nat) {A} (before : A -> bool) (xs : list A) (first len : nat) : nat :=
  match fuel with
  | O => first
  | S fuel =>
      if (len =? 0)%nat then first
      else
        let half := Nat.div2 len in
        match xs !! (first + half)%nat with
        | Some x => if before x then searchLoop fuel before xs (S (first + half)) (len - half - 1)
                    else searchLoop fuel before xs first half
        | None => first
        end
  end.
Definition partitionPoint {A} (before : A -> bool) (xs : list A) (first : nat) : nat :=
  searchLoop (S (length xs)) before xs first (length xs - first).
Definition lowerBound {A} (tsNs : A -> Z) (xs : list A) (ts : Z) : nat :=
  partitionPoint (fun row => tsNs row <? ts) xs 0.
Definition upperBoundFrom {A} (tsNs : A -> Z) (xs : list A) (first : nat) (ts : Z) : nat :=
  partitionPoint (fun row => negb (ts <? tsNs row)) xs first.

Definition appendRowsSince {A} (src : list A) (offset : nat) : list A :=
  if (length src <=? offset)%nat then [] else drop offset src.
Definition inRange {A} (tsNs : A -> Z) (fromTsNs toTsNs : Z) (row : A) : bool :=
  (fromTsNs <=? tsNs row) && (tsNs row <=? toTsNs).
Definition appendRowsInSortedRange {A} (tsNs : A -> Z) (src : list A) (fromTsNs toTsNs : Z) : list A :=
  if (length src =? 0)%nat || (toTsNs <? fromTsNs) then []
  else
    let begin := lowerBound tsNs src fromTsNs in
    let finish := upperBoundFrom tsNs src begin toTsNs in
    take (finish - begin) (drop begin src).
Definition appendRowsInAnyOrderRange {A} (tsNs : A -> Z) (less : A -> A -> bool) (src : list A)
  (fromTsNs toTsNs : Z) : list A :=
  if (length src =? 0)%nat || (toTsNs <? fromTsNs) then []
  else stableSort less (List.filter (inRange tsNs fromTsNs toTsNs) src).

(** [eventLess] of rows with sequences and of snapshots, which have none. *)
Definition sequencedLess {A} (tsNs captureSeq ingestSeq : A -> Z) (lhs rhs : A) : bool :=
  if negb (tsNs lhs =? tsNs rhs) then tsNs lhs <? tsNs rhs
  else if negb (captureSeq lhs =? captureSeq rhs) then captureSeq lhs <? captureSeq rhs
  else ingestSeq lhs <? ingestSeq rhs.
Definition snapshotLess (lhs rhs : SnapshotDocument) : bool :=
  if negb (sd_tsNs lhs =? sd_tsNs rhs) then sd_tsNs lhs <? sd_tsNs rhs else false.

Module LiveReads.
Definition readRange (fromTsNs toTsNs : Z) (store : LiveEventStore) : EventBatch :=
  let events := le_events store in
  MkEventBatch
    (appendRowsInAnyOrderRange tr_tsNs (sequencedLess tr_tsNs tr_captureSeq tr_ingestSeq) (eb_trades events)
       fromTsNs toTsNs)
    (appendRowsInAnyOrderRange bt_tsNs (sequencedLess bt_tsNs bt_captureSeq bt_ingestSeq) (eb_bookTickers events)
       fromTsNs toTsNs)
    (appendRowsInAnyOrderRange dp_tsNs (sequencedLess dp_tsNs dp_captureSeq dp_ingestSeq) (eb_depths events)
       fromTsNs toTsNs)
    (appendRowsInAnyOrderRange sd_tsNs snapshotLess (eb_snapshots events) fromTsNs toTsNs).
Definition readDepthRange (fromTsNs toTsNs : Z) (store : LiveEventStore) : list DepthRow :=
  appendRowsInSortedRange dp_tsNs (eb_depths (le_events store)) fromTsNs toTsNs.
Definition readSnapshotAtOrBefore (tsNs : Z) (store : LiveEventStore) : option SnapshotDocument :=
  let snapshots := eb_snapshots (le_events store) in
  match upperBoundFrom sd_tsNs snapshots 0 tsNs with
  | O => None
  | S it => snapshots !! it
  end.
Definition readSince (tradeOffset bookTickerOffset depthOffset snapshotOffset : nat) (store : LiveEventStore)
  : EventBatch :=
  let events := le_events store in
  MkEventBatch (appendRowsSince (eb_trades events) tradeOffset)
    (appendRowsSince (eb_bookTickers events) bookTickerOffset)
    (appendRowsSince (eb_depths events) depthOffset) (appendRowsSince (eb_snapshots events) snapshotOffset).
End LiveReads.

(** ** The composite sink *)

Section composite.
Context {S : Type} `{IEventSink S}.

(** One call on every sink in turn: the first failure is the result. *)
Fixpoint compositeCall (call : SinkCall) (status : Status) (sinks : list S) : Status * list S :=
  match sinks with
  | [] => (status, [])
  | sink :: rest =>
      let '(next, sink) := sinkCall call sink in
      let '(status, rest) := compositeCall call (mergeStatus status next) rest in
      (status, sink :: rest)
  end.
#[global] Instance CompositeEventSink_sink : IEventSink (list S) := fun call sinks => compositeCall call Ok sinks.
Definition clearSinks (sinks : list S) : list S := [].
(** A null sink is not added. *)
Definition addSink (sink : option S) (sinks : list S) : list S :=
  match sink with Some sink => sinks ++ [sink] | None => sinks end.
End composite.

(** ** Streams *)

(** What the disk answers next; a failure comes after some bytes. *)
Inductive IoOutcome := Succeeds | FailsAfter (written : nat).
Record TextDisk := MkTextDisk { td_files : gmap (list Z) (list Z); td_next : list IoOutcome }.
#[export] Instance TextDisk_eta : Eta TextDisk := fun r => MkTextDisk (td_files r) (td_next r).
(** Without further outcomes everything succeeds. *)
Definition nextOutcome (disk : TextDisk) : IoOutcome * TextDisk :=
  match td_next disk with
  | [] => (Succeeds, disk)
  | outcome :: rest => (outcome, disk <| td_next := rest |>)
  end.
Definition fileText (path : list Z) (disk : TextDisk) : list Z := default [] (td_files disk !! path).
Definition appendFile (path text : list Z) (disk : TextDisk) : TextDisk :=
  disk <| td_files ::= <[path := fileText path disk ++ text]> |>.

(** [std::ofstream]; the buffer holds what is not in the file yet. *)
Record OutStream := MkOutStream { os_open : bool; os_good : bool; os_path : list Z; os_buffer : list Z }.
#[export] Instance OutStream_eta : Eta OutStream := fun r =>
  MkOutStream (os_open r) (os_good r) (os_path r) (os_buffer r).
Definition closedStream : OutStream := MkOutStream false true [] [].

Definition createDirectories (disk : TextDisk) : bool * TextDisk :=
  let '(outcome, disk) := nextOutcome disk in
  (if outcome is Succeeds then true else false, disk).
(** [open] with [ios::app], or truncating without it. *)
Definition openStream (append : bool) (path : list Z) (stream : OutStream) (disk : TextDisk) : OutStream * TextDisk :=
  let '(outcome, disk) := nextOutcome disk in
  match outcome with
  | Succeeds => (MkOutStream true true path [], if append then appendFile path [] disk
                                               else disk <| td_files ::= <[path := []]> |>)
  | FailsAfter _ => (stream <| os_good := false |>, disk)
  end.
(** Bytes go to the buffer; a stream that is not good takes none. *)
Definition writeStream (text : list Z) (stream : OutStream) (disk : TextDisk) : OutStream * TextDisk :=
  if negb (os_good stream) then (stream, disk)
  else
    let '(outcome, disk) := nextOutcome disk in
    match outcome with
    | Succeeds => (stream <| os_buffer ::= fun buffer => buffer ++ text |>, disk)
    | FailsAfter n => (stream <| os_good := false |> <| os_buffer := [] |>,
                       appendFile (os_path stream) (take n (os_buffer stream ++ text)) disk)
    end.
Definition flushStream (stream : OutStream) (disk : TextDisk) : OutStream * TextDisk :=
  if negb (os_good stream) then (stream, disk)
  else
    let '(outcome, disk) := nextOutcome disk in
    match outcome with
    | Succeeds => (stream <| os_buffer := [] |>, appendFile (os_path stream) (os_buffer stream) disk)
    | FailsAfter n => (stream <| os_good := false |> <| os_buffer := [] |>,
                       appendFile (os_path stream) (take n (os_buffer stream)) disk)
    end.
(** [close] after a flush: nothing is left to write, the call itself can fail. *)
Definition closeStream (stream : OutStream) (disk : TextDisk) : OutStream * TextDisk :=
  let '(outcome, disk) := nextOutcome disk in
  (stream <| os_open := false |>
          <| os_good ::= fun good => good && (if outcome is Succeeds then true else false) |>, disk).

Definition closeStreamChecked (stream : OutStream) (disk : TextDisk) : Status * OutStream * TextDisk :=
  if negb (os_open stream) then (Ok, stream, disk)
  else
    let '(stream, disk) := flushStream stream disk in
    let flushed := os_good stream in
    let '(stream, disk) := closeStream stream disk in
    (if flushed && os_good stream then Ok else IoError, stream, disk).

(** ** The writer of one channel *)

Module ChannelWriter.
Definition openRelativePath (sessionDir relativePath : list Z) (append : bool) (stream : OutStream) (disk : TextDisk)
  : Status * OutStream * TextDisk :=
  if os_open stream then (Ok, stream, disk)
  else
    let path := joinPath sessionDir relativePath in
    let '(made, disk) := createDirectories disk in
    if negb made then (IoError, stream, disk)
    else
      let '(stream, disk) := openStream append path stream disk in
      (if os_open stream then Ok else IoError, stream, disk).
(** [open] also remembers the channel. *)
Definition open (channel : ChannelKind.t) (sessionDir : list Z) (stream : OutStream) (disk : TextDisk)
  : Status * OutStream * TextDisk :=
  if os_open stream then (Ok, stream, disk)
  else openRelativePath sessionDir (channelJsonlRelativePath channel) true stream disk.
Definition good (written : OutStream * TextDisk) : Status * OutStream * TextDisk :=
  let '(stream, disk) := written in (if os_good stream then Ok else IoError, stream, disk).
Definition writeLineBuffered (jsonLine : list Z) (stream : OutStream) (disk : TextDisk) : Status * OutStream * TextDisk :=
  if negb (os_open stream) then (InvalidArgument, stream, disk)
  else good (writeStream (jsonLine ++ [Ch.newline]) stream disk).
Definition flush (stream : OutStream) (disk : TextDisk) : Status * OutStream * TextDisk :=
  if negb (os_open stream) then (InvalidArgument, stream, disk) else good (flushStream stream disk).
Definition writeLine (jsonLine : list Z) (stream : OutStream) (disk : TextDisk) : Status * OutStream * TextDisk :=
  let '(status, stream, disk) := writeLineBuffered jsonLine stream disk in
  if negb (isOk status) then (status, stream, disk) else flush stream disk.
Definition writeJson (jsonDocument : list Z) (stream : OutStream) (disk : TextDisk) : Status * OutStream * TextDisk :=
  if negb (os_open stream) then (InvalidArgument, stream, disk)
  else let '(stream, disk) := writeStream jsonDocument stream disk in good (flushStream stream disk).
Definition close (stream : OutStream) (disk : TextDisk) : Status * OutStream * TextDisk := closeStreamChecked stream disk.
End ChannelWriter.

(** ** The text session *)

Record JsonSessionSink := MkJsonSessionSink {
  js_sessionDir : list Z;
  js_trades : OutStream;
  js_bookTicker : OutStream;
  js_depthTape : OutStream;
  js_depthSidecar : OutStream;
  js_stats : EventStoreStats;
  js_disk : TextDisk;
}.
#[export] Instance JsonSessionSink_eta : Eta JsonSessionSink := fun r =>
  MkJsonSessionSink (js_sessionDir r) (js_trades r) (js_bookTicker r) (js_depthTape r) (js_depthSidecar r)
    (js_stats r) (js_disk r).
Definition newSink (disk : TextDisk) : JsonSessionSink :=
  MkJsonSessionSink [] closedStream closedStream closedStream closedStream noStats disk.

Module TextSink.
Definition open (sessionDir : list Z) (sink : JsonSessionSink) : Status * JsonSessionSink :=
  (if isEmpty sessionDir then InvalidArgument else Ok,
   sink <| js_sessionDir := sessionDir |> <| js_stats := noStats |>).

Definition writesChannel (channel : ChannelKind.t) : bool :=
  match channel with
  | ChannelKind.Trades | ChannelKind.BookTicker | ChannelKind.DepthTape | ChannelKind.DepthSidecar
  | ChannelKind.Candles | ChannelKind.Candles2 => true
  | _ => false
  end.
(** The stream of the source is local: it is closed, with nothing written, on return. *)
Definition ensureChannelFile (channel : ChannelKind.t) (sink : JsonSessionSink) : Status * JsonSessionSink :=
  if negb (writesChannel channel) then (Unimplemented, sink)
  else if isEmpty (js_sessionDir sink) then (InvalidArgument, sink)
  else
    let path := joinPath (js_sessionDir sink) (channelJsonlRelativePath channel) in
    let '(made, disk) := createDirectories (js_disk sink) in
    if negb made then (IoError, sink <| js_disk := disk |>)
    else
      let '(stream, disk) := openStream true path closedStream disk in
      (if os_open stream then Ok else IoError, sink <| js_disk := disk |>).

Definition ensureLineStream_ (sessionDir : list Z) (channel : ChannelKind.t) (stream : OutStream) (disk : TextDisk)
  : Status * OutStream * TextDisk :=
  if isEmpty sessionDir then (InvalidArgument, stream, disk)
  else if os_open stream then (Ok, stream, disk)
  else
    let path := joinPath sessionDir (channelJsonlRelativePath channel) in
    let '(made, disk) := createDirectories disk in
    if negb made then (IoError, stream, disk)
    else
      let '(stream, disk) := openStream true path stream disk in
      (if os_open stream then Ok else IoError, stream, disk).
Definition writeLine_ (sessionDir : list Z) (channel : ChannelKind.t) (line : list Z) (stream : OutStream)
  (disk : TextDisk) : Status * OutStream * TextDisk :=
  let '(status, stream, disk) := ensureLineStream_ sessionDir channel stream disk in
  if negb (isOk status) then (status, stream, disk)
  else ChannelWriter.good (writeStream (line ++ [Ch.newline]) stream disk).

(** [++total; ++version] *)
Definition bump (total : EventStoreStats -> EventStoreStats) (stats : EventStoreStats) : EventStoreStats :=
  total stats <| es_version ::= fun v => u64 (v + 1) |>.
Definition counted (status : Status) (total : EventStoreStats -> EventStoreStats) (sink : JsonSessionSink)
  : Status * JsonSessionSink :=
  (status, if isOk status then sink <| js_stats ::= bump total |> else sink).

Definition appendTradeLine (line : list Z) (sink : JsonSessionSink) : Status * JsonSessionSink :=
  let '(status, stream, disk) :=
    writeLine_ (js_sessionDir sink) ChannelKind.Trades line (js_trades sink) (js_disk sink) in
  counted status (fun s => s <| es_tradesTotal ::= fun n => u64 (n + 1) |>)
    (sink <| js_trades := stream |> <| js_disk := disk |>).
Definition appendBookTickerLine (line : list Z) (sink : JsonSessionSink) : Status * JsonSessionSink :=
  let '(status, stream, disk) :=
    writeLine_ (js_sessionDir sink) ChannelKind.BookTicker line (js_bookTicker sink) (js_disk sink) in
  counted status (fun s => s <| es_bookTickersTotal ::= fun n => u64 (n + 1) |>)
    (sink <| js_bookTicker := stream |> <| js_disk := disk |>).
Definition appendDepthTapeSidecarLines (tapeLine sidecarLine : list Z) (sink : JsonSessionSink)
  : Status * JsonSessionSink :=
  let '(tapeStatus, stream, disk) :=
    writeLine_ (js_sessionDir sink) ChannelKind.DepthTape tapeLine (js_depthTape sink) (js_disk sink) in
  let sink := sink <| js_depthTape := stream |> <| js_disk := disk |> in
  if negb (isOk tapeStatus) then (tapeStatus, sink)
  else
    let '(sidecarStatus, stream, disk) :=
      writeLine_ (js_sessionDir sink) ChannelKind.DepthSidecar sidecarLine (js_depthSidecar sink) (js_disk sink) in
    counted sidecarStatus (fun s => s <| es_depthsTotal ::= fun n => u64 (n + 1) |>)
      (sink <| js_depthSidecar := stream |> <| js_disk := disk |>).

Definition depthRowFromSnapshot (snapshot : SnapshotDocument) : DepthRow :=
  MkDepthRow 0 (sd_tsNs snapshot) 0 0 (MkEventArrival 0 0 0 0 0 0 0 0 0 0 0) (sd_levels snapshot).

Definition appendTrade (row : TradeRow) : JsonSessionSink -> Status * JsonSessionSink :=
  appendTradeLine (renderTradeJsonLine row).
Definition appendBookTicker (row : BookTickerRow) : JsonSessionSink -> Status * JsonSessionSink :=
  appendBookTickerLine (renderBookTickerJsonLine row).
Definition appendDepth (row : DepthRow) : JsonSessionSink -> Status * JsonSessionSink :=
  appendDepthTapeSidecarLines (renderDepthTapeJsonLine row) (renderDepthRleSidecarJsonLine row).
Definition appendSnapshot (snapshot : SnapshotDocument) (snapshotIndex : Z) : JsonSessionSink -> Status * JsonSessionSink :=
  appendDepth (depthRowFromSnapshot snapshot).

Definition flushOpen (stream : OutStream) (disk : TextDisk) : OutStream * TextDisk :=
  if os_open stream then flushStream stream disk else (stream, disk).
Definition flush (sink : JsonSessionSink) : Status * JsonSessionSink :=
  let '(trades, disk) := flushOpen (js_trades sink) (js_disk sink) in
  let '(bookTicker, disk) := flushOpen (js_bookTicker sink) disk in
  let '(depthTape, disk) := flushOpen (js_depthTape sink) disk in
  let '(depthSidecar, disk) := flushOpen (js_depthSidecar sink) disk in
  (Ok, sink <| js_trades := trades |> <| js_bookTicker := bookTicker |> <| js_depthTape := depthTape |>
            <| js_depthSidecar := depthSidecar |> <| js_disk := disk |>).
Definition close (sink : JsonSessionSink) : Status * JsonSessionSink :=
  let '(status1, trades, disk) := closeStreamChecked (js_trades sink) (js_disk sink) in
  let '(status2, bookTicker, disk) := closeStreamChecked (js_bookTicker sink) disk in
  let '(status3, depthTape, disk) := closeStreamChecked (js_depthTape sink) disk in
  let '(status4, depthSidecar, disk) := closeStreamChecked (js_depthSidecar sink) disk in
  (fold_left mergeStatus [status1; status2; status3; status4] Ok,
   sink <| js_trades := trades |> <| js_bookTicker := bookTicker |> <| js_depthTape := depthTape |>
        <| js_depthSidecar := depthSidecar |> <| js_disk := disk |> <| js_sessionDir := [] |>).
End TextSink.

#[export] Instance JsonSessionSink_sink : IEventSink JsonSessionSink := fun call sink =>
  match call with
  | AppendTrade row => TextSink.appendTrade row sink
  | AppendBookTicker row => TextSink.appendBookTicker row sink
  | AppendDepth row => TextSink.appendDepth row sink
  | AppendSnapshot snapshot snapshotIndex => TextSink.appendSnapshot snapshot snapshotIndex sink
  | Flush => TextSink.flush sink
  | Close => TextSink.close sink
  end.
