(* ===== verification/SessionFiles.v ===== *)
(** * SessionFiles: from rows to a stored session and back

    The lines a session holds, the loader on them, and the replay that [open] builds from
    what a text sink and the manifest writer left on disk. *)
From stdpp Require Import base list numbers strings gmap.
From S2P Require Import Prelude Codec Json JsonObject Integrity SessionManifest Instrument Rows.
From S2P Require Import RowText Loader Book Replay ReplayTimeline ReplayIntegrity Sinks.
Local Open Scope Z_scope.

(** ** Lines of text *)

(** Characters a rendered line is made of. *)
Definition printable (text : list Z) : Prop := Forall (fun c => 32 <= c) text.

Lemma printable_app a b : printable (a ++ b) <-> printable a /\ printable b.
Proof. apply Forall_app. Qed.
Lemma printable_cons c text : printable (c :: text) <-> 32 <= c /\ printable text.
Proof. apply Forall_cons. Qed.
Lemma printable_nil : printable [].
Proof. constructor. Qed.

Lemma decimalLoop_printable fuel : forall value after, printable after -> printable (decimalLoop fuel value after).
Proof.
  induction fuel as [|fuel IH]; intros value after Ha; [done|]. cbn [decimalLoop]. cbv zeta.
  assert (printable (48 + value mod 10 :: after)) as Hd.
  { apply printable_cons. split; [pose proof (Z.mod_pos_bound value 10); lia|done]. }
  destruct (value <? 10); [done|by apply IH].
Qed.
Lemma appendInt_printable value : printable (appendInt value).
Proof.
  unfold appendInt, decimal. destruct (value <? 0); [apply printable_cons; split; [done|]|];
    apply decimalLoop_printable, printable_nil.
Qed.
Lemma hexChar_printable digit : 0 <= digit -> 32 <= hexChar digit.
Proof. intros H. unfold hexChar. destruct (Z.ltb_spec digit 10); lia. Qed.
Lemma escapeChar_printable c : printable (escapeChar c).
Proof.
  unfold escapeChar. repeat (destruct (c =? _); [by repeat constructor|]).
  destruct (Z.ltb_spec c 32) as [Hlt|Hge]; [|by repeat constructor].
  repeat (apply printable_cons; split; [try (unfold Ch.backslash; lia)|]); [..|apply printable_nil];
    apply hexChar_printable, Z.land_nonneg; by right.
Qed.
Lemma appendString_printable value : printable (appendString value).
Proof.
  unfold appendString. apply printable_cons. split; [done|]. apply printable_app. split; [|by repeat constructor].
  unfold appendEscaped. induction value as [|c value IH]; [constructor|]. cbn. apply printable_app.
  split; [apply escapeChar_printable|exact IH].
Qed.

Create HintDb printable.
#[export] Hint Resolve appendInt_printable appendString_printable printable_nil : printable.
Ltac print_line :=
  repeat (rewrite printable_cons || rewrite printable_app);
  repeat match goal with |- _ /\ _ => split end; auto with printable; try (by vm_compute).

Lemma appendArrival_printable a : printable (appendArrival a).
Proof. unfold appendArrival. print_line. Qed.
#[export] Hint Resolve appendArrival_printable : printable.
Lemma trade_printable t : printable (renderTradeJsonLine t).
Proof. unfold renderTradeJsonLine. print_line. Qed.
Lemma bookTicker_printable b : printable (renderBookTickerJsonLine b).
Proof. unfold renderBookTickerJsonLine. print_line. Qed.
Lemma depthTape_printable d : printable (renderDepthTapeJsonLine d).
Proof.
  assert (printable (concat (map (fun level => Ch.comma :: appendInt (pp_priceE8 level) ++
            Ch.comma :: appendInt (pp_qtyE8 level)) (dp_levels d)))) as Hl.
  { induction (dp_levels d) as [|level levels IH]; [constructor|]. cbn [map concat]. print_line. }
  unfold renderDepthTapeJsonLine. print_line.
Qed.
Lemma appendRuns_printable levels : forall side n, printable (appendRuns side n levels).
Proof.
  induction levels as [|level levels IH]; intros side n; cbn [appendRuns]; [unfold appendRun; print_line|].
  destruct (_ =? _); [apply IH|]. unfold appendRun. print_line.
Qed.
Lemma sidecar_printable d : printable (renderDepthRleSidecarJsonLine d).
Proof.
  assert (printable (match dp_levels d with [] => [] | level :: _ => appendRuns (pp_side level) 0 (dp_levels d) end)) as Hl.
  { destruct (dp_levels d); [constructor|apply appendRuns_printable]. }
  unfold renderDepthRleSidecarJsonLine. print_line.
Qed.

(** What [getline] and the loaders take for a line. *)
Definition lineOk (line : list Z) : Prop := printable line /\ line <> [].

Lemma lineLoop_printable text : forall line rest, printable text ->
  lineLoop line (text ++ Ch.newline :: rest) = (line ++ text) :: lineLoop [] rest.
Proof.
  induction text as [|c text IH]; intros line rest Ht; cbn [app lineLoop].
  - change (Ch.newline =? Ch.newline) with true. cbv iota. by rewrite app_nil_r.
  - apply printable_cons in Ht as [Hc Ht]. unfold Ch.newline at 1. destruct (Z.eqb_spec c 10); [lia|].
    rewrite IH by done. by rewrite <- app_assoc.
Qed.

Definition linesText (lines : list (list Z)) : list Z := concat (map (fun line => line ++ [Ch.newline]) lines).
Lemma linesText_snoc lines line : linesText (lines ++ [line]) = linesText lines ++ line ++ [Ch.newline].
Proof. unfold linesText. rewrite map_app, concat_app. cbn. by rewrite app_nil_r. Qed.

Lemma linesOf_text lines : Forall printable lines -> linesOf (linesText lines) = lines.
Proof.
  unfold linesOf, linesText. induction 1 as [|line lines Hl _ IH]; [done|]. cbn [map concat].
  rewrite <- app_assoc. cbn [app]. by rewrite lineLoop_printable, IH.
Qed.

Lemma popReturn_printable line : printable line -> popReturn line = line.
Proof.
  intros Hl. unfold popReturn. destruct (last line) as [c|] eqn:E; [|done].
  apply last_Some_elem_of in E. unfold printable in Hl. rewrite Forall_forall in Hl. specialize (Hl c E). unfold Ch.return_.
  destruct (Z.eqb_spec c 13); [lia|done].
Qed.
Lemma nonempty_line line : line <> [] -> isEmpty line = false.
Proof. intros Hne. unfold isEmpty. by apply bool_decide_eq_false_2. Qed.

Lemma jsonLineLoop_lines accepts lines : Forall lineOk lines -> Forall (fun line => accepts line = true) lines ->
  forall n, jsonLineLoop accepts n lines = (lines, None).
Proof.
  intros Hl. induction Hl as [|line lines [Hp Hne] _ IH]; intros Ha n; [done|]. apply Forall_cons in Ha as [Ha Has].
  cbn [jsonLineLoop]. cbv zeta. rewrite popReturn_printable, nonempty_line, Ha by done. cbn [orb]. by rewrite IH.
Qed.

Lemma corpusRows_lines {R} (parse : list Z -> Status * option R) (render : R -> list Z) rows :
  Forall (fun row => lineOk (render row) /\ parse (render row) = (Ok, Some row)) rows ->
  corpusRows parse (map render rows) = (rows, Ok).
Proof.
  induction 1 as [|row rows [[_ Hne] Hp] _ IH]; [done|]. cbn [map corpusRows]. by rewrite nonempty_line, Hp, IH.
Qed.

Lemma depthLineLoop_lines rows : Forall (fun row => lineOk (renderDepthTapeJsonLine row) /\
    lineOk (renderDepthRleSidecarJsonLine row) /\
    parseDepthTapeSidecarLine (renderDepthTapeJsonLine row) (renderDepthRleSidecarJsonLine row) = Some (Ok, Some row)) rows ->
  forall n, depthLineLoop n (map renderDepthTapeJsonLine rows) (map renderDepthRleSidecarJsonLine rows) =
  (map (fun row => (row, renderDepthTapeJsonLine row, renderDepthRleSidecarJsonLine row)) rows, None).
Proof.
  induction 1 as [|row rows ([Hp Hne] & [Hp' Hne'] & Hparse) _ IH]; intros n; [done|]. cbn [map depthLineLoop]. cbv zeta.
  rewrite !popReturn_printable, !nonempty_line by done. cbn [andb]. unfold depthRowOf. by rewrite Hparse, IH.
Qed.

(** ** The loader on stored lines *)

Lemma trade_lines trades : Forall tradeOk trades ->
  Forall (fun row => lineOk (renderTradeJsonLine row) /\ parseTradeLine (renderTradeJsonLine row) = (Ok, Some row)) trades.
Proof.
  intros H. eapply Forall_impl; [exact H|]. intros row Hrow.
  split; [split; [apply trade_printable|done]|by apply trade_written].
Qed.
Lemma bookTicker_lines tickers : Forall bookTickerOk tickers ->
  Forall (fun row => lineOk (renderBookTickerJsonLine row) /\
    parseBookTickerLine (renderBookTickerJsonLine row) = (Ok, Some row)) tickers.
Proof.
  intros H. eapply Forall_impl; [exact H|]. intros row Hrow.
  split; [split; [apply bookTicker_printable|done]|by apply bookTicker_written].
Qed.
Lemma depth_lines depths : Forall depthOk depths ->
  Forall (fun row => lineOk (renderDepthTapeJsonLine row) /\ lineOk (renderDepthRleSidecarJsonLine row) /\
    parseDepthTapeSidecarLine (renderDepthTapeJsonLine row) (renderDepthRleSidecarJsonLine row) = Some (Ok, Some row)) depths.
Proof.
  intros H. eapply Forall_impl; [exact H|]. intros row Hrow.
  split; [split; [apply depthTape_printable|done]|]. split; [split; [apply sidecar_printable|done]|].
  unfold parseDepthTapeSidecarLine. rewrite depthTape_written by done. change (fun l => l <| pp_side := 0 |>) with clearSide.
  by rewrite sidecar_written.
Qed.

Lemma joinPath_nonempty dir name : name <> [] -> isEmpty (joinPath dir name) = false.
Proof.
  intros Hne. apply nonempty_line. unfold joinPath. destruct name as [|c name]; [done|].
  destruct (c =? Ch.slash); [done|]. destruct (last dir) as [d|]; [|done].
  destruct (d =? Ch.slash); intros H; apply app_eq_nil in H as [_ H]; discriminate H.
Qed.

(** The part of the state the steps are followed by. *)
Record progress (st : Loading) (m : SessionManifest) (trades tickers candles candles2 : list (list Z))
  (depths : list DepthRow) : Prop := {
  pg_manifest : sc_manifest (ld_out st) = m;
  pg_trades : sc_tradeLines (ld_out st) = trades;
  pg_tickers : sc_bookTickerLines (ld_out st) = tickers;
  pg_candles : sc_candleLines (ld_out st) = candles;
  pg_candles2 : sc_candle2Lines (ld_out st) = candles2;
  pg_depths : sc_depthRows (ld_out st) = depths;
  pg_present : lr_manifestPresent (ld_report st) = true;
  pg_status : lr_finalStatus (ld_report st) = Ok;
  pg_issues : lr_issues (ld_report st) = [];
}.

Lemma andThen_progress a b st st' result : a st = (st', true) -> b st' = result -> (andThen a b) st = result.
Proof. intros Ha Hb. unfold andThen. by rewrite Ha. Qed.

Section stored.
Context (fs : FileSystem) (dir : list Z) (m : SessionManifest).
Context (trades : list TradeRow) (tickers : list BookTickerRow) (depths : list DepthRow).

(** The file of a channel holds its lines; a channel that is not enabled has no rows. *)
Definition storedAt (enabled : bool) (path : list Z) (lines : list (list Z)) : Prop :=
  if enabled then path <> [] /\ fs_file fs (joinPath dir path) = File true (linesText lines) else lines = [].

(** A document beside the artifacts may be absent; if it is there, it can be read and is
    what [ok] asks of it. *)
Definition documentAt (path : list Z) (ok : list Z -> Prop) : Prop :=
  fs_file fs (joinPath dir path) = NoFile \/
  exists text, fs_file fs (joinPath dir path) = File true text /\ ok text.

(** A session directory as a capture of trades, tickers and depth leaves it. *)
Record stored : Prop := {
  so_directory : fs_directory fs dir = true;
  so_manifest : fs_file fs (joinPath dir (named "manifest.json")) = File true (renderManifestJson m);
  so_manifestOk : manifestOk m;
  so_accepted : SessionManifest.accepted m = true;
  so_derived : SessionManifest.derived m = m;
  so_loadable : sm_structurallyLoadable m = true;
  so_retired : [sm_liquidationsEnabled m; sm_markPriceEnabled m; sm_indexPriceEnabled m; sm_fundingEnabled m;
                sm_priceLimitEnabled m; sm_candlesEnabled m; sm_candles2Enabled m] = replicate 7 false;
  so_trades : storedAt (sm_tradesEnabled m) (sm_tradesPath m) (map renderTradeJsonLine trades);
  so_tickers : storedAt (sm_bookTickerEnabled m) (sm_bookTickerPath m) (map renderBookTickerJsonLine tickers);
  so_tape : storedAt (sm_orderbookEnabled m) (sm_depthPath m) (map renderDepthTapeJsonLine depths);
  so_sidecar : storedAt (sm_orderbookEnabled m) (sm_depthSidecarPath m) (map renderDepthRleSidecarJsonLine depths);
  so_rows : Forall tradeOk trades /\ Forall bookTickerOk tickers /\ Forall depthOk depths;
  so_counts : finalizedSession (sm_sessionStatus m) = true ->
    arrivalSummaryMatchesDeclaredRows m = true /\ sm_tradesCount m = Z.of_nat (length trades) /\
    sm_bookTickerCount m = Z.of_nat (length tickers) /\ sm_depthCount m = Z.of_nat (length depths);
  so_metadata : documentAt (sm_instrumentMetadataPath m) (fun text => exists metadata,
    parseInstrumentMetadataJson text = (Ok, Some metadata));
  so_support : Forall (fun path => documentAt path (fun _ => True))
    [sm_sessionAuditPath m; sm_integrityReportPath m; sm_loaderDiagnosticPath m];
  so_index : documentAt (named "seek_index.json") (fun text => exists index, parseSeekIndexDocument text = Some index);
}.

Context (Hs : stored).

Lemma step_directory st : checkDirectory fs dir st = (st, true).
Proof. unfold checkDirectory. by rewrite (so_directory Hs). Qed.

Lemma manifest_read : parseManifestJson (renderManifestJson m) = (Ok, Some m).
Proof. rewrite render_parsed by apply Hs. by rewrite (so_derived Hs). Qed.

Lemma step_manifest : exists st, loadManifest fs dir (MkLoading newCorpus newReport) = (st, true) /\
  progress st m [] [] [] [] [].
Proof.
  unfold loadManifest, sessionFile. cbv zeta. rewrite (so_manifest Hs). cbn [opened]. rewrite manifest_read.
  pose proof (so_counts Hs) as Hc.
  destruct (finalizedSession (sm_sessionStatus m)); [destruct Hc as [-> _]; [done|]|]; cbn [andb negb];
    (eexists; split; [reflexivity|]; by split).
Qed.

Lemma fileAt_stored enabled path lines : storedAt enabled path lines ->
  fileAt fs (enabledPath enabled dir path) = if enabled then File true (linesText lines) else NoFile.
Proof.
  unfold storedAt, fileAt, enabledPath. destruct enabled; [|done]. intros [Hne Hf].
  unfold declaredChannelPath. by rewrite (nonempty_line path Hne), (joinPath_nonempty dir path Hne), Hf.
Qed.

Lemma loadJsonLines_stored accepts enabled path lines channel name required report : storedAt enabled path lines ->
  Forall lineOk lines -> Forall (fun line => accepts line = true) lines -> (required = true -> enabled = true) ->
  exists state, loadJsonLines accepts (fileAt fs (enabledPath enabled dir path)) channel name required report =
    (Ok, lines, state, report).
Proof.
  intros Hf Hl Ha Hr. rewrite (fileAt_stored enabled path lines) by done. destruct enabled; unfold loadJsonLines.
  - rewrite linesOf_text by (eapply Forall_impl; [exact Hl|]; by intros line [? _]).
    rewrite jsonLineLoop_lines by done. by eexists.
  - destruct required; [by discriminate Hr|]. cbn in Hf. subst lines. by eexists.
Qed.

Lemma loadLines_stored accepts enabled required path channel keep setState lines st : storedAt enabled path lines ->
  Forall lineOk lines -> Forall (fun line => accepts line = true) lines ->
  exists state, loadLines fs dir accepts enabled required path channel keep setState st =
    (st <| ld_out ::= keep lines |> <| ld_report := setState state (ld_report st) |>, true).
Proof.
  intros Hf Hl Ha. unfold loadLines. cbv zeta.
  destruct (loadJsonLines_stored accepts enabled path lines (named channel) (fileName (enabledPath enabled dir path))
    (lr_manifestPresent (ld_report st) && (enabled && required)) (ld_report st) Hf Hl Ha) as [state ->].
  - intros H. by apply andb_true_iff in H as [_ [? _]%andb_true_iff].
  - exists state. by destruct st.
Qed.

Lemma countRows_disabled path declared index channel setState st :
  countRows fs dir false path declared index channel setState st =
  (st <| ld_out ::= fun out => out <| sc_omittedArtifactRows ::= <[index := 0]> |> |>
      <| ld_report := setState ChannelLoadState.NotCaptured (ld_report st) |>, true).
Proof. done. Qed.

Lemma accepted_lines {R} (parse : list Z -> Status * option R) (render : R -> list Z) rows :
  Forall (fun row => lineOk (render row) /\ parse (render row) = (Ok, Some row)) rows ->
  Forall lineOk (map render rows) /\ Forall (fun line => rowAccepted (parse line) = true) (map render rows).
Proof.
  intros H. rewrite !Forall_map. split; (eapply Forall_impl; [exact H|]); intros row [? Hp]; [done|].
  cbn. by rewrite Hp.
Qed.

Lemma step_trades st cs cs2 : progress st m [] [] cs cs2 [] -> exists st', loadTrades fs dir st = (st', true) /\
  progress st' m (map renderTradeJsonLine trades) [] cs cs2 [].
Proof.
  intros [P1 P2 P3 P4 P5 P6 P7 P8 P9]. destruct Hs as [_ _ _ _ _ _ _ Ht _ _ _ [Hok _] _ _ _ _].
  destruct (accepted_lines _ _ _ (trade_lines trades Hok)) as [Hl Ha]. unfold loadTrades. rewrite P1. cbv zeta.
  match goal with |- context [loadLines fs dir ?a ?b ?c ?d ?e ?f ?g ?h] =>
    destruct (loadLines_stored a b c d e f g (map renderTradeJsonLine trades) h Ht Hl Ha) as [state ->] end.
  eexists. split; [reflexivity|]. split; cbn; done.
Qed.

Lemma step_tickers st ts cs cs2 : progress st m ts [] cs cs2 [] -> exists st', loadBookTicker fs dir st = (st', true) /\
  progress st' m ts (map renderBookTickerJsonLine tickers) cs cs2 [].
Proof.
  intros [P1 P2 P3 P4 P5 P6 P7 P8 P9]. destruct Hs as [_ _ _ _ _ _ _ _ Ht _ _ (_ & Hok & _) _ _ _ _].
  destruct (accepted_lines _ _ _ (bookTicker_lines tickers Hok)) as [Hl Ha]. unfold loadBookTicker. rewrite P1. cbv zeta.
  match goal with |- context [loadLines fs dir ?a ?b ?c ?d ?e ?f ?g ?h] =>
    destruct (loadLines_stored a b c d e f g (map renderBookTickerJsonLine tickers) h Ht Hl Ha) as [state ->] end.
  eexists. split; [reflexivity|]. split; cbn; done.
Qed.

(** A step that only counts rows of a channel that is not enabled. *)
Lemma counted_progress st ts bs cs cs2 ds index report : progress st m ts bs cs cs2 ds ->
  lr_manifestPresent report = lr_manifestPresent (ld_report st) -> lr_finalStatus report = lr_finalStatus (ld_report st) ->
  lr_issues report = lr_issues (ld_report st) ->
  progress (st <| ld_out ::= fun out => out <| sc_omittedArtifactRows ::= <[index := 0]> |> |> <| ld_report := report |>)
    m ts bs cs cs2 ds.
Proof. intros [P1 P2 P3 P4 P5 P6 P7 P8 P9] E1 E2 E3. split; cbn; congruence. Qed.

Lemma step_retired (step : Step) enabled path declared index channel setState st ts bs cs cs2 ds :
  progress st m ts bs cs cs2 ds -> enabled = false ->
  step st = countRows fs dir enabled path declared index channel setState st ->
  (forall state report, lr_manifestPresent (setState state report) = lr_manifestPresent report /\
    lr_finalStatus (setState state report) = lr_finalStatus report /\ lr_issues (setState state report) = lr_issues report) ->
  exists st', step st = (st', true) /\ progress st' m ts bs cs cs2 ds.
Proof.
  intros Hp -> -> Hk. rewrite countRows_disabled. eexists. split; [reflexivity|].
  apply counted_progress; [done|apply Hk..].
Qed.

(** Finam candles that are not enabled. *)
Lemma storedAt_disabled path : storedAt false path [].
Proof. done. Qed.

Lemma step_candles st ts bs : progress st m ts bs [] [] [] -> exists st', loadCandles fs dir st = (st', true) /\
  progress st' m ts bs [] [] [].
Proof.
  intros Hp. pose proof (so_retired Hs) as Hr. injection Hr as _ _ _ _ _ Hc _. unfold loadCandles.
  rewrite (pg_manifest _ _ _ _ _ _ _ Hp). cbv zeta. rewrite Hc. destruct (negb (isFinam m)).
  - rewrite countRows_disabled. eexists. split; [reflexivity|]. by apply counted_progress.
  - destruct Hp as [P1 P2 P3 P4 P5 P6 P7 P8 P9].
    match goal with |- context [loadLines fs dir ?a ?b ?c ?d ?e ?f ?g ?h] =>
      destruct (loadLines_stored a b c d e f g [] h (storedAt_disabled _) (Forall_nil_2 _) (Forall_nil_2 _)) as [state ->] end.
    eexists. split; [reflexivity|]. split; cbn; done.
Qed.
Lemma step_candles2 st ts bs : progress st m ts bs [] [] [] -> exists st', loadCandles2 fs dir st = (st', true) /\
  progress st' m ts bs [] [] [].
Proof.
  intros Hp. pose proof (so_retired Hs) as Hr. injection Hr as _ _ _ _ _ _ Hc. unfold loadCandles2.
  rewrite (pg_manifest _ _ _ _ _ _ _ Hp). cbv zeta. rewrite Hc. destruct (negb (isFinam m)).
  - rewrite countRows_disabled. eexists. split; [reflexivity|]. by apply counted_progress.
  - destruct Hp as [P1 P2 P3 P4 P5 P6 P7 P8 P9].
    match goal with |- context [loadLines fs dir ?a ?b ?c ?d ?e ?f ?g ?h] =>
      destruct (loadLines_stored a b c d e f g [] h (storedAt_disabled _) (Forall_nil_2 _) (Forall_nil_2 _)) as [state ->] end.
    eexists. split; [reflexivity|]. split; cbn; done.
Qed.

Lemma step_depth st ts bs : progress st m ts bs [] [] [] -> exists st', loadDepth fs dir st = (st', true) /\
  progress st' m ts bs [] [] depths.
Proof.
  intros [P1 P2 P3 P4 P5 P6 P7 P8 P9]. destruct Hs as [_ _ _ _ _ _ _ _ _ Htape Hside (_ & _ & Hok) _ _ _ _].
  unfold loadDepth. rewrite P1. cbv zeta. destruct (sm_orderbookEnabled m); cbn [negb]; unfold storedAt in Htape, Hside.
  - destruct Htape as [Hn1 Hf1], Hside as [Hn2 Hf2]. unfold fileAt, declaredChannelPath.
    rewrite !(nonempty_line _ Hn1), !(nonempty_line _ Hn2), !joinPath_nonempty, Hf1, Hf2 by done.
    unfold loadDepthTapeSidecarLines. cbn [fileExists negb andb orb opened].
    pose proof (depth_lines depths Hok) as Hl.
    rewrite !linesOf_text by (rewrite Forall_map; eapply Forall_impl; [exact Hl|]; intros row ([? _] & [? _] & _); done).
    rewrite depthLineLoop_lines by done.
    eexists. split; [reflexivity|]. split; cbn; try done. rewrite <- list_fmap_compose. apply list_fmap_id.
  - apply map_eq_nil in Htape. eexists. split; [reflexivity|]. split; cbn; congruence.
Qed.

Lemma requireDeclared_ok enabled declared actual channel st : (enabled = true -> declared = actual) ->
  requireDeclaredCount enabled declared actual channel st = (st, true).
Proof.
  intros H. unfold requireDeclaredCount. destruct enabled; [|done]. rewrite H by done. by rewrite Z.eqb_refl.
Qed.

Lemma step_counts st : progress st m (map renderTradeJsonLine trades) (map renderBookTickerJsonLine tickers) [] [] depths ->
  requireDeclaredCounts st = (st, true).
Proof.
  intros [P1 P2 P3 P4 P5 P6 P7 P8 P9]. unfold requireDeclaredCounts. cbv zeta. rewrite P1, P2, P3, P6.
  pose proof (so_counts Hs) as Hc. destruct (finalizedSession (sm_sessionStatus m)); [|done]. cbn [negb].
  destruct Hc as (_ & Ht & Hb & Hd); [done|]. pose proof (so_retired Hs) as Hr. injection Hr as R1 R2 R3 R4 R5 R6 R7.
  unfold lineCount. rewrite !length_map. rewrite R1, R2, R3, R4, R5, R6, R7.
  repeat (eapply andThen_progress; [by apply requireDeclared_ok|]). by apply requireDeclared_ok.
Qed.

Lemma document_read path ok : documentAt path ok -> exists text,
  readWholeFileOptional (sessionFile fs dir path) = Some text /\ (text = [] \/ ok text).
Proof.
  intros [Hf|(text & Hf & Hok)]; unfold sessionFile; rewrite Hf; [exists []; by split; [|left]|exists text; by split; [|right]].
Qed.

Lemma step_metadata st ts bs cs cs2 ds : progress st m ts bs cs cs2 ds ->
  exists st', loadInstrumentMetadata fs dir st = (st', true) /\ progress st' m ts bs cs cs2 ds.
Proof.
  intros [P1 P2 P3 P4 P5 P6 P7 P8 P9]. unfold loadInstrumentMetadata. cbv zeta. cbn [ld_report ld_out upd].
  rewrite P1. cbn [lr_manifestPresent put upd]. change (lr_manifestPresent (put _ _ ?r)) with (lr_manifestPresent r).
  rewrite P7. cbn [negb]. destruct (document_read _ _ (so_metadata Hs)) as (text & -> & Htext).
  destruct (isEmpty text) eqn:Ee; [eexists; split; [reflexivity|]; split; cbn; done|].
  destruct Htext as [->|[metadata ->]]; [discriminate Ee|]. eexists. split; [reflexivity|]. split; cbn; done.
Qed.

(** Reading a support document. *)
Lemma support_step (finalized : bool) getPath setDocument st ts bs cs cs2 ds : progress st m ts bs cs cs2 ds ->
  documentAt (getPath m) (fun _ => True) ->
  (forall document out, (sc_manifest (setDocument document out), sc_tradeLines (setDocument document out),
     sc_bookTickerLines (setDocument document out), sc_candleLines (setDocument document out),
     sc_candle2Lines (setDocument document out), sc_depthRows (setDocument document out)) =
     (sc_manifest out, sc_tradeLines out, sc_bookTickerLines out, sc_candleLines out, sc_candle2Lines out,
      sc_depthRows out)) ->
  exists st', (if finalized then readSupport fs dir else trySupport fs dir) getPath setDocument st = (st', true) /\
    progress st' m ts bs cs cs2 ds.
Proof.
  intros [P1 P2 P3 P4 P5 P6 P7 P8 P9] Ha Hk. destruct (document_read _ _ Ha) as (text & Ht & _).
  exists (st <| ld_out ::= setDocument text |>).
  specialize (Hk text (ld_out st)). injection Hk as K1 K2 K3 K4 K5 K6. split.
  - destruct finalized; unfold readSupport, trySupport; rewrite P1, Ht; done.
  - split; cbn; congruence.
Qed.

Lemma step_support st ts bs cs cs2 ds : progress st m ts bs cs cs2 ds ->
  exists st', loadSupport fs dir st = (st', true) /\ progress st' m ts bs cs cs2 ds.
Proof.
  intros Hp. unfold loadSupport. rewrite (pg_present _ _ _ _ _ _ _ Hp), (pg_manifest _ _ _ _ _ _ _ Hp). cbn [negb]. cbv zeta.
  generalize (finalizedSession (sm_sessionStatus m)). intros finalized.
  pose proof (so_support Hs) as Hsup. apply Forall_cons in Hsup as [S1 Hsup]. apply Forall_cons in Hsup as [S2 Hsup].
  apply Forall_cons in Hsup as [S3 _].
  destruct (support_step finalized sm_sessionAuditPath (put sc_sessionAuditDocument) st _ _ _ _ _ Hp S1) as (st1 & E1 & H1); [done|].
  destruct (support_step finalized sm_integrityReportPath (put sc_integrityReportDocument) st1 _ _ _ _ _ H1 S2) as (st2 & E2 & H2);
    [done|].
  destruct (support_step finalized sm_loaderDiagnosticPath (put sc_loaderDiagnosticDocument) st2 _ _ _ _ _ H2 S3) as (st3 & E3 & H3);
    [done|].
  exists st3. split; [|done].
  destruct finalized; (eapply andThen_progress; [exact E1|]); (eapply andThen_progress; [exact E2|exact E3]).
Qed.

Lemma step_blockers st ts bs cs cs2 ds : progress st m ts bs cs cs2 ds -> reportBlockers st = (st, true).
Proof.
  intros Hp. unfold reportBlockers. rewrite (pg_manifest _ _ _ _ _ _ _ Hp). cbv zeta. rewrite (so_loadable Hs).
  cbn [negb]. by rewrite andb_false_r.
Qed.

(** A seek index that does not match the artifacts is left aside. *)
Lemma degraded_status report issue : lr_issues report = [] -> li_severity issue = LoadIssueSeverity.Degraded ->
  lr_finalStatus (appendLoadIssue report issue) = Ok /\
  lr_manifestPresent (appendLoadIssue report issue) = lr_manifestPresent report.
Proof.
  intros Hi Hsev. unfold appendLoadIssue, recomputeLoadReport. cbn [lr_issues upd]. rewrite Hi. cbn [app fold_left].
  unfold recomputeStep. rewrite Hsev. done.
Qed.
Lemma step_index st ts bs cs cs2 ds : progress st m ts bs cs cs2 ds ->
  let st' := bindSeekIndex fs dir st in
  ld_out st' = ld_out st /\ lr_manifestPresent (ld_report st') = true /\ lr_finalStatus (ld_report st') = Ok.
Proof.
  intros [P1 P2 P3 P4 P5 P6 P7 P8 P9]. unfold bindSeekIndex, sessionFile. cbv zeta.
  destruct (so_index Hs) as [->|(text & -> & [sources buckets] & Hp)]; [by split_and!|]. cbn [opened]. rewrite Hp.
  destruct (existsb _ _); [|by split_and!].
  assert (lr_issues (ld_report st <| lr_seekIndexState := ChannelLoadState.Degraded |> <| lr_staleSeekIndex := true |>) = [])
    as Hi by exact P9.
  split; [done|]. split; [etransitivity; [refine (proj2 (degraded_status _ _ Hi _)); done|exact P7]|].
  refine (proj1 (degraded_status _ _ Hi _)). done.
Qed.

Ltac retired_step H :=
  let R := fresh in pose proof (so_retired Hs) as R; injection R; intros;
  eapply (step_retired _ _ _ _ _ _ _ _ _ _ _ _ _ H); [|
    unfold countLiquidations, countMarkPrice, countIndexPrice, countFunding, countPriceLimit; rewrite (pg_manifest _ _ _ _ _ _ _ H); reflexivity|done]; assumption.

Lemma step_liquidations st ts bs cs cs2 ds : progress st m ts bs cs cs2 ds ->
  exists st', countLiquidations fs dir st = (st', true) /\ progress st' m ts bs cs cs2 ds.
Proof. intros H. retired_step H. Qed.
Lemma step_markPrice st ts bs cs cs2 ds : progress st m ts bs cs cs2 ds ->
  exists st', countMarkPrice fs dir st = (st', true) /\ progress st' m ts bs cs cs2 ds.
Proof. intros H. retired_step H. Qed.
Lemma step_indexPrice st ts bs cs cs2 ds : progress st m ts bs cs cs2 ds ->
  exists st', countIndexPrice fs dir st = (st', true) /\ progress st' m ts bs cs cs2 ds.
Proof. intros H. retired_step H. Qed.
Lemma step_funding st ts bs cs cs2 ds : progress st m ts bs cs cs2 ds ->
  exists st', countFunding fs dir st = (st', true) /\ progress st' m ts bs cs cs2 ds.
Proof. intros H. retired_step H. Qed.
Lemma step_priceLimit st ts bs cs cs2 ds : progress st m ts bs cs cs2 ds ->
  exists st', countPriceLimit fs dir st = (st', true) /\ progress st' m ts bs cs cs2 ds.
Proof. intros H. retired_step H. Qed.

(** The load of a stored session. *)
Lemma stored_loads : exists st,
  loadSteps fs dir (MkLoading newCorpus newReport) = (bindSeekIndex fs dir st, true) /\
  progress st m (map renderTradeJsonLine trades) (map renderBookTickerJsonLine tickers) [] [] depths.
Proof.
  destruct step_manifest as (st1 & E1 & H1). destruct (step_trades _ _ _ H1) as (st2 & E2 & H2).
  destruct (step_liquidations _ _ _ _ _ _ H2) as (st3 & E3 & H3). destruct (step_tickers _ _ _ _ H3) as (st4 & E4 & H4).
  destruct (step_markPrice _ _ _ _ _ _ H4) as (st5 & E5 & H5). destruct (step_indexPrice _ _ _ _ _ _ H5) as (st6 & E6 & H6).
  destruct (step_funding _ _ _ _ _ _ H6) as (st7 & E7 & H7). destruct (step_priceLimit _ _ _ _ _ _ H7) as (st8 & E8 & H8).
  destruct (step_candles _ _ _ H8) as (st9 & E9 & H9). destruct (step_candles2 _ _ _ H9) as (st10 & E10 & H10).
  destruct (step_depth _ _ _ H10) as (st11 & E11 & H11). pose proof (step_counts _ H11) as E12.
  destruct (step_metadata _ _ _ _ _ _ H11) as (st13 & E13 & H13). destruct (step_support _ _ _ _ _ _ H13) as (st14 & E14 & H14).
  pose proof (step_blockers _ _ _ _ _ _ H14) as E15. exists st14.
  split; [|done]. unfold loadSteps.
  do 16 (eapply andThen_progress; [apply step_directory || eassumption|]). reflexivity.
Qed.
End stored.

(** ** Opening a stored session *)

(** Depth rows as [open] keeps them. *)
Definition keptDepths (m : SessionManifest) (depths : list DepthRow) : list DepthRow :=
  if bool_decide (sm_exchange m = named "bitget") then normalizeFixedDepthSnapshotDeltas depths else depths.

Lemma stored_detailed fs dir m trades tickers depths : stored fs dir m trades tickers depths ->
  exists corpus report, loadDetailed fs dir = (Ok, corpus, report) /\ sc_manifest corpus = m /\
  lr_manifestPresent report = true /\ sc_tradeLines corpus = map renderTradeJsonLine trades /\
  sc_bookTickerLines corpus = map renderBookTickerJsonLine tickers /\ sc_candleLines corpus = [] /\
  sc_candle2Lines corpus = [] /\ sc_depthRows corpus = depths.
Proof.
  intros Hs. destruct (stored_loads fs dir m trades tickers depths Hs) as (st & E & Hp).
  destruct (step_index fs dir m trades tickers depths Hs _ _ _ _ _ _ Hp) as (I1 & I2 & I3). destruct Hp as [P1 P2 P3 P4 P5 P6 P7 P8 P9].
  unfold loadDetailed. rewrite E. cbv zeta. cbn [fst]. rewrite I1, I3. eexists _, _. split; [reflexivity|].
  split_and!; done.
Qed.

Lemma retainIncident_keeps index channel runtime captured st :
  mh_exchange (sr_manifestHints (retainIncident index channel runtime captured st)) = mh_exchange (sr_manifestHints st).
Proof. unfold retainIncident. by destruct (_ && _). Qed.
Lemma applyHints_exchange m st : mh_exchange (sr_manifestHints (applyManifestHints_ m st)) = sm_exchange m.
Proof. unfold applyManifestHints_. cbv zeta. by rewrite !retainIncident_keeps. Qed.

Lemma retainIncident_partial index channel runtime captured st :
  sr_partialDepthCorrupt (retainIncident index channel runtime captured st) = sr_partialDepthCorrupt st.
Proof. unfold retainIncident. by destruct (_ && _). Qed.
Lemma applyHints_partial m st : sr_partialDepthCorrupt (applyManifestHints_ m st) = sr_partialDepthCorrupt st.
Proof. unfold applyManifestHints_. cbv zeta. by rewrite !retainIncident_partial. Qed.

(** [openLoaded] on a load that succeeded ends in [finalize] of the rows loaded. *)
Lemma openLoaded_rows fs corpus report trades tickers depths st :
  lr_manifestPresent report = true -> corpusRows parseTradeLine (sc_tradeLines corpus) = (trades, Ok) ->
  corpusRows parseBookTickerLine (sc_bookTickerLines corpus) = (tickers, Ok) ->
  sc_candleLines corpus = [] -> sc_candle2Lines corpus = [] -> sc_depthRows corpus = depths ->
  exists st', openLoaded fs (Ok, corpus, report) st = (sr_status (finalize st'), finalize st') /\
    sr_trades st' = trades /\ sr_bookTickers st' = tickers /\ sr_depths st' = keptDepths (sc_manifest corpus) depths /\
    sr_partialDepthCorrupt st' = sr_partialDepthCorrupt st.
Proof.
  intros Hm Ht Hb Hc Hc2 Hd. unfold openLoaded. cbv zeta. rewrite Hm.
  pose proof (applyHints_exchange (sc_manifest corpus) (st <| sr_loadReport := report |> <| sr_status := Ok |>)) as Hx.
  pose proof (applyHints_partial (sc_manifest corpus) (st <| sr_loadReport := report |> <| sr_status := Ok |>)) as Hy.
  set (st1 := applyManifestHints_ _ _) in *. clearbody st1. change (negb (isOk Ok)) with false. cbv iota.
  rewrite Ht, Hb, Hc, Hc2, Hd. cbn [corpusRows]. change (negb (isOk Ok)) with false. cbv iota.
  eexists. split; [reflexivity|]. split_and!; [done|done| |exact Hy]. cbn [sr_depths upd sr_manifestHints]. by rewrite Hx.
Qed.

Lemma open_stored_session fs dir m trades tickers depths before : stored fs dir m trades tickers depths ->
  exists st, (open fs dir before).1 = (sr_status (finalize st), finalize st) /\
    sr_trades st = trades /\ sr_bookTickers st = tickers /\ sr_depths st = keptDepths m depths /\
    sr_partialDepthCorrupt st = false.
Proof.
  intros Hs. destruct (stored_detailed _ _ _ _ _ _ Hs) as (corpus & report & E & E1 & E2 & E3 & E4 & E5 & E6 & E7).
  unfold open. cbv zeta. rewrite E. pose proof (so_rows _ _ _ _ _ _ Hs) as (Ht & Hb & _).
  match goal with |- context [openLoaded fs _ ?st0] =>
    destruct (openLoaded_rows fs corpus report trades tickers depths st0 E2) as (st & Eo & R) end;
    [rewrite E3; apply (corpusRows_lines parseTradeLine), trade_lines, Ht|
     rewrite E4; apply (corpusRows_lines parseBookTickerLine), bookTicker_lines, Hb|done|done|done|].
  rewrite Eo. exists st. rewrite E1 in R. split; [reflexivity|exact R].
Qed.
