(* ===== verification/SinkRun.v ===== *)
(** * SinkRun: what a text session holds after a run of calls

    Whatever the disk answers, a run whose calls all report success leaves exactly the lines
    of its rows in the artifacts of the session, and opening the session returns the rows. *)
From stdpp Require Import base list numbers strings gmap.
From S2P Require Import Prelude Codec Json JsonObject Integrity SessionManifest Instrument Rows.
From S2P Require Import RowText Loader Book Replay ReplayTimeline ReplayIntegrity Sinks SessionFiles.
Local Open Scope Z_scope.

(** The calls of a client in turn, with what they return. *)
Fixpoint runCalls {S} `{IEventSink S} (calls : list SinkCall) (sink : S) : list Status * S :=
  match calls with
  | [] => ([], sink)
  | call :: calls =>
      let '(status, sink) := sinkCall call sink in
      let '(statuses, sink) := runCalls calls sink in
      (status :: statuses, sink)
  end.

(** ** One file among others *)

(** A change that creates or extends the file at [path] only. *)
Record touches (path : list Z) (disk disk' : TextDisk) : Prop := {
  to_others : forall p, p <> path -> td_files disk' !! p = td_files disk !! p;
  to_exists : forall p, is_Some (td_files disk !! p) -> is_Some (td_files disk' !! p);
}.
#[export] Instance touches_preorder path : PreOrder (touches path).
Proof.
  split; [by split|]. intros d1 d2 d3 [O1 E1] [O2 E2]. split; [intros p Hp; by rewrite O2, O1|auto].
Qed.

Lemma touches_text path disk disk' p : touches path disk disk' -> p <> path -> fileText p disk' = fileText p disk.
Proof. intros [Ho _] Hp. unfold fileText. by rewrite Ho. Qed.

Lemma nextOutcome_files disk outcome disk' : nextOutcome disk = (outcome, disk') -> td_files disk' = td_files disk.
Proof. unfold nextOutcome. by destruct (td_next disk); intros [= <- <-]. Qed.
Lemma same_files_touch path disk disk' : td_files disk' = td_files disk -> touches path disk disk'.
Proof. intros E. split; intros; by rewrite E. Qed.
Lemma same_files_text p disk disk' : td_files disk' = td_files disk -> fileText p disk' = fileText p disk.
Proof. intros E. unfold fileText. by rewrite E. Qed.

Lemma appendFile_text path text disk : fileText path (appendFile path text disk) = fileText path disk ++ text.
Proof. unfold fileText, appendFile. cbn. by rewrite lookup_insert_eq. Qed.
Lemma appendFile_exists path text disk : is_Some (td_files (appendFile path text disk) !! path).
Proof. unfold appendFile. cbn. rewrite lookup_insert_eq. by eexists. Qed.
Lemma appendFile_touches path text disk : touches path disk (appendFile path text disk).
Proof.
  split.
  - intros p Hp. unfold appendFile. cbn. by rewrite lookup_insert_ne.
  - intros p Hp. unfold appendFile. cbn. destruct (decide (p = path)) as [->|Hne].
    + rewrite lookup_insert_eq. by eexists.
    + by rewrite lookup_insert_ne.
Qed.

(** ** One stream *)

(** The file at [path] held [base] and gets [written] through the stream; of a stream that
    went bad nothing is known. *)
Definition tracked (path base written : list Z) (stream : OutStream) (disk : TextDisk) : Prop :=
  if os_open stream
  then os_path stream = path /\ is_Some (td_files disk !! path) /\
       (os_good stream = true -> fileText path disk ++ os_buffer stream = base ++ written)
  else written = [] /\ fileText path disk = base.

Lemma tracked_elsewhere path path' base written stream disk disk' : touches path' disk disk' -> path <> path' ->
  tracked path base written stream disk -> tracked path base written stream disk'.
Proof.
  intros Ht Hne. unfold tracked. rewrite (touches_text _ _ _ path Ht Hne).
  destruct (os_open stream); [|done]. intros (Hp & He & Hg). split_and!; [done|by apply (to_exists _ _ _ Ht)|done].
Qed.

Lemma createDirectories_files disk made disk' : createDirectories disk = (made, disk') -> td_files disk' = td_files disk.
Proof. unfold createDirectories. destruct (nextOutcome disk) as [o d] eqn:E. intros [= _ <-]. by eapply nextOutcome_files. Qed.

Lemma openStream_tracked path stream disk stream' disk' : os_open stream = false ->
  openStream true path stream disk = (stream', disk') ->
  touches path disk disk' /\ fileText path disk' = fileText path disk /\
  (os_open stream' = true -> stream' = MkOutStream true true path [] /\ is_Some (td_files disk' !! path)).
Proof.
  intros Hc. unfold openStream. destruct (nextOutcome disk) as [[|n] d] eqn:E; intros [= <- <-];
    apply nextOutcome_files in E.
  - split_and!; [|by rewrite appendFile_text, app_nil_r, (same_files_text _ _ _ E)|intros _; split; [done|apply appendFile_exists]].
    etransitivity; [apply (same_files_touch path _ _ E)|apply appendFile_touches].
  - split_and!; [by apply same_files_touch|by apply same_files_text|]. cbn. by rewrite Hc.
Qed.

Lemma writeStream_good text path base written stream disk stream' disk' :
  os_open stream = true -> tracked path base written stream disk ->
  writeStream text stream disk = (stream', disk') -> os_good stream' = true ->
  touches path disk disk' /\ tracked path base (written ++ text) stream' disk'.
Proof.
  unfold tracked. intros Ho. rewrite Ho. intros (Hp & He & Hg). unfold writeStream.
  destruct (os_good stream) eqn:Eg; cbn [negb]; [|intros [= <- <-]; by rewrite Eg].
  destruct (nextOutcome disk) as [[|n] d] eqn:E; intros [= <- <-]; [|done]. intros _. apply nextOutcome_files in E.
  split; [by apply same_files_touch|]. cbn. rewrite Ho, E. split_and!; [done|done|]. intros _.
  rewrite (same_files_text _ _ _ E), app_assoc, Hg, app_assoc by done. done.
Qed.

Lemma flushStream_tracked path base written stream disk stream' disk' :
  os_open stream = true -> tracked path base written stream disk -> flushStream stream disk = (stream', disk') ->
  touches path disk disk' /\ tracked path base written stream' disk' /\ os_open stream' = true /\
  (os_good stream' = true -> os_buffer stream' = []).
Proof.
  unfold tracked. intros Ho. rewrite Ho. intros (Hp & He & Hg). unfold flushStream.
  destruct (os_good stream) eqn:Eg; cbn [negb]; [|intros [= <- <-]; rewrite Ho, Eg; split_and!; done].
  destruct (nextOutcome disk) as [[|n] d] eqn:E; intros [= <- <-]; apply nextOutcome_files in E; rewrite Hp; cbn; rewrite Ho;
    (split; [etransitivity; [apply (same_files_touch path _ _ E)|apply appendFile_touches]|]);
    (split; [split_and!; [done|apply appendFile_exists|]|done]); [|done].
  intros _. rewrite appendFile_text, (same_files_text _ _ _ E), app_nil_r. by apply Hg.
Qed.

Lemma closeStream_files stream disk stream' disk' : closeStream stream disk = (stream', disk') ->
  td_files disk' = td_files disk.
Proof. unfold closeStream. destruct (nextOutcome disk) as [o d] eqn:E. intros [= _ <-]. by eapply nextOutcome_files. Qed.

(** A stream that closes well leaves all that was written. *)
Lemma closeChecked_ok path base written stream disk stream' disk' : tracked path base written stream disk ->
  closeStreamChecked stream disk = (Ok, stream', disk') ->
  touches path disk disk' /\ fileText path disk' = base ++ written.
Proof.
  intros Ht. unfold closeStreamChecked. destruct (os_open stream) eqn:Ho; cbn [negb].
  - destruct (flushStream stream disk) as [s1 d1] eqn:Ef.
    destruct (flushStream_tracked _ _ _ _ _ _ _ Ho Ht Ef) as (Htouch & Htr & Ho1 & Hb). cbv zeta.
    destruct (closeStream s1 d1) as [s2 d2] eqn:Ec. pose proof (closeStream_files _ _ _ _ Ec) as Ed.
    destruct (os_good s1) eqn:Eg; cbn [andb]; [|done]. destruct (os_good s2); [|done]. intros [= <- <-].
    split; [etransitivity; [exact Htouch|by apply same_files_touch]|]. unfold tracked in Htr. rewrite Ho1 in Htr.
    destruct Htr as (_ & _ & Hg). rewrite (same_files_text _ _ _ Ed). specialize (Hg Eg). rewrite (Hb eq_refl), app_nil_r in Hg.
    exact Hg.
  - intros [= <- <-]. unfold tracked in Ht. rewrite Ho in Ht. destruct Ht as [-> <-]. split; [reflexivity|by rewrite app_nil_r].
Qed.

(** A line that was written well. *)
Lemma writeLine_ok dir channel line base written stream disk stream' disk' :
  let path := joinPath dir (channelJsonlRelativePath channel) in
  tracked path base written stream disk ->
  TextSink.writeLine_ dir channel line stream disk = (Ok, stream', disk') ->
  touches path disk disk' /\ tracked path base (written ++ line ++ [Ch.newline]) stream' disk'.
Proof.
  intros path Ht. unfold TextSink.writeLine_, TextSink.ensureLineStream_. destruct (isEmpty dir); [done|].
  destruct (os_open stream) eqn:Ho.
  - change (negb (isOk Ok)) with false. cbv iota. unfold ChannelWriter.good.
    destruct (writeStream _ stream disk) as [s1 d1] eqn:Ew. destruct (os_good s1) eqn:Eg; [|done]. intros [= <- <-].
    by eapply writeStream_good.
  - cbv zeta. destruct (createDirectories disk) as [made d0] eqn:Ed. apply createDirectories_files in Ed.
    destruct made; cbn [negb]; [|done]. fold path. destruct (openStream true path stream d0) as [s0 d1] eqn:Eo.
    destruct (openStream_tracked _ _ _ _ _ Ho Eo) as (Htouch & Hf & Hopen).
    destruct (os_open s0) eqn:Ho0; [|done]. change (negb (isOk Ok)) with false. cbv iota. destruct (Hopen eq_refl) as [-> He].
    unfold ChannelWriter.good. destruct (writeStream _ _ d1) as [s1 d2] eqn:Ew. destruct (os_good s1) eqn:Eg; [|done].
    intros [= <- <-]. unfold tracked in Ht. rewrite Ho in Ht. destruct Ht as [-> Hbase].
    assert (tracked path base [] (MkOutStream true true path []) d1) as Ht1.
    { unfold tracked. cbn. split_and!; [done|done|]. intros _. by rewrite Hf, (same_files_text _ _ _ Ed), Hbase. }
    destruct (writeStream_good _ _ _ _ _ _ _ _ Ho0 Ht1 Ew Eg) as [Htouch' Htr]. split; [|exact Htr].
    etransitivity; [apply (same_files_touch path _ _ Ed)|]. by etransitivity.
Qed.

(** ** The four artifacts *)

Definition lineChannels : list ChannelKind.t :=
  [ChannelKind.Trades; ChannelKind.BookTicker; ChannelKind.DepthTape; ChannelKind.DepthSidecar].
Definition artifact (dir : list Z) (channel : ChannelKind.t) : list Z := joinPath dir (channelJsonlRelativePath channel).

Lemma joinPath_relative dir : exists prefix, forall name, (exists c rest, name = c :: rest /\ c <> Ch.slash) ->
  joinPath dir name = prefix ++ name.
Proof.
  unfold joinPath. destruct (last dir) as [d|] eqn:E; [destruct (Z.eqb_spec d Ch.slash) as [->|Hd]|].
  - exists dir. intros name (c & rest & -> & Hc). by destruct (Z.eqb_spec c Ch.slash).
  - exists (dir ++ [Ch.slash]). intros name (c & rest & -> & Hc). destruct (Z.eqb_spec c Ch.slash); [done|].
    by rewrite <- app_assoc.
  - exists []. intros name (c & rest & -> & Hc). by destruct (Z.eqb_spec c Ch.slash).
Qed.

Lemma artifact_apart dir a b : a <> b -> artifact dir a <> artifact dir b.
Proof.
  intros Hne. unfold artifact. destruct (joinPath_relative dir) as [prefix Hp].
  assert (forall k, exists c rest, channelJsonlRelativePath k = c :: rest /\ c <> Ch.slash) as Hrel
    by (intros k; destruct k; (eexists _, _; split; [reflexivity|done])).
  rewrite !Hp by apply Hrel. intros H%app_inv_head. destruct a, b; done || discriminate H.
Qed.

(** The lines a call adds to a channel. *)
Definition callRows (call : SinkCall) : list TradeRow * list BookTickerRow * list DepthRow :=
  match call with
  | AppendTrade row => ([row], [], [])
  | AppendBookTicker row => ([], [row], [])
  | AppendDepth row => ([], [], [row])
  | AppendSnapshot snapshot _ => ([], [], [TextSink.depthRowFromSnapshot snapshot])
  | Flush | Close => ([], [], [])
  end.
Definition tradesOf (calls : list SinkCall) : list TradeRow := concat (map (fun call => (callRows call).1.1) calls).
Definition tickersOf (calls : list SinkCall) : list BookTickerRow := concat (map (fun call => (callRows call).1.2) calls).
Definition depthsOf (calls : list SinkCall) : list DepthRow := concat (map (fun call => (callRows call).2) calls).
Definition linesFor (channel : ChannelKind.t) (calls : list SinkCall) : list (list Z) :=
  match channel with
  | ChannelKind.Trades => map renderTradeJsonLine (tradesOf calls)
  | ChannelKind.BookTicker => map renderBookTickerJsonLine (tickersOf calls)
  | ChannelKind.DepthTape => map renderDepthTapeJsonLine (depthsOf calls)
  | ChannelKind.DepthSidecar => map renderDepthRleSidecarJsonLine (depthsOf calls)
  | _ => []
  end.

Lemma concat_snoc {A B} (f : A -> list B) xs x : concat (map f (xs ++ [x])) = concat (map f xs) ++ f x.
Proof. rewrite map_app, concat_app. cbn. by rewrite app_nil_r. Qed.

Lemma rows_snoc calls call : tradesOf (calls ++ [call]) = tradesOf calls ++ (callRows call).1.1 /\
  tickersOf (calls ++ [call]) = tickersOf calls ++ (callRows call).1.2 /\
  depthsOf (calls ++ [call]) = depthsOf calls ++ (callRows call).2.
Proof. unfold tradesOf, tickersOf, depthsOf. by rewrite !concat_snoc. Qed.

Definition streamOf (channel : ChannelKind.t) (sink : JsonSessionSink) : OutStream :=
  match channel with
  | ChannelKind.BookTicker => js_bookTicker sink
  | ChannelKind.DepthTape => js_depthTape sink
  | ChannelKind.DepthSidecar => js_depthSidecar sink
  | _ => js_trades sink
  end.
Definition withStream (channel : ChannelKind.t) (stream : OutStream) (disk : TextDisk) (sink : JsonSessionSink)
  : JsonSessionSink :=
  match channel with
  | ChannelKind.BookTicker => sink <| js_bookTicker := stream |>
  | ChannelKind.DepthTape => sink <| js_depthTape := stream |>
  | ChannelKind.DepthSidecar => sink <| js_depthSidecar := stream |>
  | _ => sink <| js_trades := stream |>
  end <| js_disk := disk |>.

(** A sink that got [texts] for its artifacts since it was opened on [disk]. *)
Record holding (dir : list Z) (disk : TextDisk) (texts : ChannelKind.t -> list Z) (sink : JsonSessionSink) : Prop := {
  ho_dir : js_sessionDir sink = dir;
  ho_streams : forall channel, channel ∈ lineChannels ->
    tracked (artifact dir channel) (fileText (artifact dir channel) disk) (texts channel)
      (streamOf channel sink) (js_disk sink);
  ho_exists : forall path, is_Some (td_files disk !! path) -> is_Some (td_files (js_disk sink) !! path);
  ho_others : forall path, path ∉ map (artifact dir) lineChannels -> td_files (js_disk sink) !! path = td_files disk !! path;
}.

Lemma artifact_other dir path channel : path ∉ map (artifact dir) lineChannels -> channel ∈ lineChannels ->
  path <> artifact dir channel.
Proof. intros Hp Hc ->. apply Hp. change (artifact dir channel ∈ artifact dir <$> lineChannels). by apply list_elem_of_fmap_2. Qed.

(** Work on one stream leaves the others where they were. *)
Lemma withStream_holding dir disk texts texts' channel stream disk' sink : channel ∈ lineChannels ->
  holding dir disk texts sink -> touches (artifact dir channel) (js_disk sink) disk' ->
  tracked (artifact dir channel) (fileText (artifact dir channel) disk) (texts' channel) stream disk' ->
  (forall other, other <> channel -> texts' other = texts other) ->
  holding dir disk texts' (withStream channel stream disk' sink).
Proof.
  intros Hc [Hd Hs He Ho] Htouch Ht Hsame.
  assert (js_disk (withStream channel stream disk' sink) = disk' /\ js_sessionDir (withStream channel stream disk' sink) = dir)
    as [Ed Edir] by (by destruct channel).
  split; rewrite ?Ed.
  - exact Edir.
  - intros other Hother. destruct (decide (other = channel)) as [->|Hne].
    + assert (streamOf channel (withStream channel stream disk' sink) = stream) as ->; [|exact Ht].
      unfold lineChannels in Hc. by repeat (apply elem_of_cons in Hc as [->|Hc]); [..|by apply elem_of_nil in Hc].
    + assert (streamOf other (withStream channel stream disk' sink) = streamOf other sink) as ->.
      { unfold lineChannels in Hc, Hother.
        repeat (apply elem_of_cons in Hc as [->|Hc]); try (by apply elem_of_nil in Hc);
        repeat (apply elem_of_cons in Hother as [->|Hother]); try (by apply elem_of_nil in Hother); done. }
      rewrite Hsame by done. eapply tracked_elsewhere; [exact Htouch|by apply artifact_apart|by apply Hs].
  - intros path Hpath. apply (to_exists _ _ _ Htouch). by apply He.
  - intros path Hpath. rewrite (to_others _ _ _ Htouch), Ho by (done || by apply artifact_other). done.
Qed.

Definition extend (channel : ChannelKind.t) (text : list Z) (texts : ChannelKind.t -> list Z) (other : ChannelKind.t) : list Z :=
  if decide (other = channel) then texts other ++ text else texts other.

Lemma write_holding dir disk texts channel line sink stream' disk' : channel ∈ lineChannels ->
  holding dir disk texts sink ->
  TextSink.writeLine_ (js_sessionDir sink) channel line (streamOf channel sink) (js_disk sink) = (Ok, stream', disk') ->
  holding dir disk (extend channel (line ++ [Ch.newline]) texts) (withStream channel stream' disk' sink).
Proof.
  intros Hc Hh Hw. rewrite (ho_dir _ _ _ _ Hh) in Hw.
  destruct (writeLine_ok _ _ _ _ _ _ _ _ _ (ho_streams _ _ _ _ Hh channel Hc) Hw) as [Htouch Ht].
  eapply withStream_holding; [done|exact Hh|exact Htouch| |].
  - unfold extend. by rewrite decide_True.
  - intros other Hne. unfold extend. by rewrite decide_False.
Qed.

Lemma stats_holding dir disk texts stats sink : holding dir disk texts sink -> holding dir disk texts (sink <| js_stats ::= stats |>).
Proof. intros [Hd Hs He Ho]. split; [exact Hd|intros []; exact (Hs _)|exact He|exact Ho]. Qed.
Lemma counted_holding dir disk texts status total sink : holding dir disk texts sink ->
  holding dir disk texts (TextSink.counted status total sink).2.
Proof. intros Hh. unfold TextSink.counted. cbn [snd]. destruct (isOk status); [by apply stats_holding|done]. Qed.
Lemma holding_ext dir disk texts texts' sink : (forall channel, channel ∈ lineChannels -> texts channel = texts' channel) ->
  holding dir disk texts sink -> holding dir disk texts' sink.
Proof. intros E [Hd Hs He Ho]. split; [done| |done|done]. intros channel Hc. rewrite <- E by done. by apply Hs. Qed.

(** What the artifact of a channel gets from the calls. *)
Definition textFor (calls : list SinkCall) (channel : ChannelKind.t) : list Z := linesText (linesFor channel calls).

Lemma linesText_app a b : linesText (a ++ b) = linesText a ++ linesText b.
Proof. unfold linesText. by rewrite map_app, concat_app. Qed.
Lemma linesText_one line : linesText [line] = line ++ [Ch.newline].
Proof. unfold linesText. cbn. by rewrite app_nil_r. Qed.
Lemma linesText_nil : linesText [] = [].
Proof. done. Qed.

Ltac each_channel Hc := unfold lineChannels in Hc;
  repeat (apply elem_of_cons in Hc as [->|Hc]); try (by apply elem_of_nil in Hc).

(** The texts after one more call, channel by channel. *)
Lemma textFor_snoc calls call channel : channel ∈ lineChannels -> textFor (calls ++ [call]) channel =
  textFor calls channel ++ linesText (linesFor channel [call]).
Proof.
  intros Hc. unfold textFor. rewrite <- linesText_app. f_equal.
  destruct (rows_snoc calls call) as (E1 & E2 & E3). destruct (rows_snoc [] call) as (F1 & F2 & F3).
  cbn [app] in F1, F2, F3. each_channel Hc; cbn [linesFor]; rewrite ?E1, ?E2, ?E3, ?F1, ?F2, ?F3, map_app; done.
Qed.

Lemma append_trade_holding dir disk calls row sink sink' : holding dir disk (textFor calls) sink ->
  TextSink.appendTrade row sink = (Ok, sink') -> holding dir disk (textFor (calls ++ [AppendTrade row])) sink'.
Proof.
  intros Hh. unfold TextSink.appendTrade, TextSink.appendTradeLine.
  destruct (TextSink.writeLine_ _ _ _ _ _) as [[status stream] d] eqn:Ew. intros E.
  assert (status = Ok) as -> by (unfold TextSink.counted in E; congruence).
  apply (f_equal snd) in E. cbn [snd] in E. rewrite <- E. apply counted_holding.
  eapply holding_ext; [|exact (write_holding _ _ _ ChannelKind.Trades _ _ _ _ ltac:(left) Hh Ew)].
  intros channel Hc. rewrite textFor_snoc by done. unfold extend. each_channel Hc; cbn; rewrite ?app_nil_r; done.
Qed.

Lemma append_ticker_holding dir disk calls row sink sink' : holding dir disk (textFor calls) sink ->
  TextSink.appendBookTicker row sink = (Ok, sink') -> holding dir disk (textFor (calls ++ [AppendBookTicker row])) sink'.
Proof.
  intros Hh. unfold TextSink.appendBookTicker, TextSink.appendBookTickerLine.
  destruct (TextSink.writeLine_ _ _ _ _ _) as [[status stream] d] eqn:Ew. intros E.
  assert (status = Ok) as -> by (unfold TextSink.counted in E; congruence).
  apply (f_equal snd) in E. cbn [snd] in E. rewrite <- E. apply counted_holding.
  eapply holding_ext; [|exact (write_holding _ _ _ ChannelKind.BookTicker _ _ _ _ ltac:(right; left) Hh Ew)].
  intros channel Hc. rewrite textFor_snoc by done. unfold extend. each_channel Hc; cbn; rewrite ?app_nil_r; done.
Qed.

Lemma append_depth_holding dir disk calls call row sink sink' : (callRows call) = ([], [], [row]) ->
  holding dir disk (textFor calls) sink -> TextSink.appendDepth row sink = (Ok, sink') ->
  holding dir disk (textFor (calls ++ [call])) sink'.
Proof.
  intros Hcall Hh. unfold TextSink.appendDepth, TextSink.appendDepthTapeSidecarLines.
  destruct (TextSink.writeLine_ _ _ _ _ _) as [[status stream] d] eqn:Ew. cbv zeta.
  destruct (isOk status) eqn:Es; cbn [negb]; [|intros [= -> _]; done]. assert (status = Ok) as -> by (by destruct status).
  pose proof (write_holding _ _ _ ChannelKind.DepthTape _ _ _ _ ltac:(right; right; left) Hh Ew) as Hh1.
  change (sink <| js_depthTape := stream |> <| js_disk := d |>) with (withStream ChannelKind.DepthTape stream d sink).
  set (sink1 := withStream ChannelKind.DepthTape stream d sink) in *. clearbody sink1.
  destruct (TextSink.writeLine_ (js_sessionDir sink1) _ _ _ _) as [[status2 stream2] d2] eqn:Ew2. intros E.
  assert (status2 = Ok) as -> by (unfold TextSink.counted in E; congruence).
  apply (f_equal snd) in E. cbn [snd] in E. rewrite <- E. apply counted_holding.
  eapply holding_ext; [|exact (write_holding _ _ _ ChannelKind.DepthSidecar _ _ _ _ ltac:(do 3 right; left) Hh1 Ew2)].
  intros channel Hc. rewrite textFor_snoc by done. destruct (rows_snoc [] call) as (F1 & F2 & F3). rewrite Hcall in F1, F2, F3.
  cbn [app fst snd] in F1, F2, F3. unfold extend.
  each_channel Hc; cbn [linesFor]; rewrite ?F1, ?F2, ?F3; cbn; rewrite ?app_nil_r; done.
Qed.

Lemma flush_one dir disk texts channel sink stream d : channel ∈ lineChannels -> holding dir disk texts sink ->
  TextSink.flushOpen (streamOf channel sink) (js_disk sink) = (stream, d) ->
  holding dir disk texts (withStream channel stream d sink).
Proof.
  intros Hc Hh Hf. pose proof (ho_streams _ _ _ _ Hh channel Hc) as Ht.
  unfold TextSink.flushOpen in Hf. destruct (os_open (streamOf channel sink)) eqn:Ho.
  - destruct (flushStream_tracked _ _ _ _ _ _ _ Ho Ht Hf) as (Htouch & Ht' & _).
    by eapply withStream_holding.
  - injection Hf as <- <-. eapply withStream_holding; [done|exact Hh|reflexivity|exact Ht|done].
Qed.

Lemma flush_holding dir disk texts sink : holding dir disk texts sink -> holding dir disk texts (TextSink.flush sink).2.
Proof.
  intros Hh. unfold TextSink.flush.
  destruct (TextSink.flushOpen (js_trades sink) (js_disk sink)) as [s1 d1] eqn:E1.
  apply (flush_one dir disk texts ChannelKind.Trades _ _ _ ltac:(left)) in E1; [|exact Hh].
  destruct (TextSink.flushOpen (js_bookTicker sink) d1) as [s2 d2] eqn:E2.
  apply (flush_one dir disk texts ChannelKind.BookTicker (withStream ChannelKind.Trades s1 d1 sink) _ _ ltac:(right; left)) in E2; [|exact E1].
  destruct (TextSink.flushOpen (js_depthTape sink) d2) as [s3 d3] eqn:E3.
  apply (flush_one dir disk texts ChannelKind.DepthTape (withStream ChannelKind.BookTicker s2 d2 (withStream ChannelKind.Trades s1 d1 sink))
    _ _ ltac:(right; right; left)) in E3; [|exact E2].
  destruct (TextSink.flushOpen (js_depthSidecar sink) d3) as [s4 d4] eqn:E4.
  apply (flush_one dir disk texts ChannelKind.DepthSidecar (withStream ChannelKind.DepthTape s3 d3 (withStream ChannelKind.BookTicker s2 d2
    (withStream ChannelKind.Trades s1 d1 sink))) _ _ ltac:(do 3 right; left)) in E4; [|exact E3].
  cbn [snd]. destruct sink. exact E4.
Qed.

(** One call that reports success. *)
Lemma call_holding dir disk calls call sink sink' : call <> Close -> holding dir disk (textFor calls) sink ->
  sinkCall call sink = (Ok, sink') -> holding dir disk (textFor (calls ++ [call])) sink'.
Proof.
  intros Hne Hh. destruct call as [row|row|row|snapshot index| |]; cbn [sinkCall JsonSessionSink_sink]; [..|done].
  - by apply append_trade_holding.
  - by apply append_ticker_holding.
  - by apply append_depth_holding.
  - unfold TextSink.appendSnapshot. by apply append_depth_holding.
  - intros E. apply (f_equal snd) in E. cbn [snd] in E. rewrite <- E.
    eapply holding_ext; [|apply flush_holding; exact Hh]. intros channel Hc. rewrite textFor_snoc by done.
    each_channel Hc; cbn; by rewrite app_nil_r.
Qed.

Lemma run_holding dir disk calls : forall before sink statuses sink', Forall (fun call => call <> Close) calls ->
  holding dir disk (textFor before) sink -> runCalls calls sink = (statuses, sink') -> Forall (fun s => s = Ok) statuses ->
  holding dir disk (textFor (before ++ calls)) sink'.
Proof.
  induction calls as [|call calls IH]; intros before sink statuses sink' Hno Hh Hr Hok; cbn [runCalls] in Hr.
  - injection Hr as <- <-. by rewrite app_nil_r.
  - apply Forall_cons in Hno as [Hne Hno]. destruct (sinkCall call sink) as [status sink1] eqn:E.
    destruct (runCalls calls sink1) as [rest sink2] eqn:Er. injection Hr as <- <-. apply Forall_cons in Hok as [-> Hok].
    rewrite (cons_middle call before calls) at 1. rewrite app_assoc.
    by eapply (IH (before ++ [call]) sink1 rest); [|eapply call_holding|..].
Qed.

(** ** A whole capture *)

Lemma merged_ok statuses : fold_left mergeStatus statuses Ok = Ok -> Forall (fun s => s = Ok) statuses.
Proof.
  induction statuses as [|s statuses IH]; intros H; [constructor|]. cbn [fold_left] in H. change (mergeStatus Ok s) with s in H.
  assert (s = Ok) as ->; [|constructor; [done|by apply IH]]. revert H. clear.
  destruct s; try done; (induction statuses as [|t statuses IH]; [done|exact IH]).
Qed.

(** Closing one stream of the sink. *)
Record closedText (dir : list Z) (disk : TextDisk) (texts : ChannelKind.t -> list Z) (channels : list ChannelKind.t)
  (disk' : TextDisk) : Prop := {
  ct_texts : forall channel, channel ∈ channels ->
    fileText (artifact dir channel) disk' = fileText (artifact dir channel) disk ++ texts channel;
  ct_exists : forall path, is_Some (td_files disk !! path) -> is_Some (td_files disk' !! path);
  ct_others : forall path, path ∉ map (artifact dir) lineChannels -> td_files disk' !! path = td_files disk !! path;
}.

Lemma close_one dir disk texts channels channel stream disk1 stream' disk2 : channel ∉ channels -> channel ∈ lineChannels ->
  tracked (artifact dir channel) (fileText (artifact dir channel) disk) (texts channel) stream disk1 ->
  closedText dir disk texts channels disk1 -> closeStreamChecked stream disk1 = (Ok, stream', disk2) ->
  closedText dir disk texts (channels ++ [channel]) disk2 /\ touches (artifact dir channel) disk1 disk2.
Proof.
  intros Hnew Hc Ht [C1 C2 C3] E. destruct (closeChecked_ok _ _ _ _ _ _ _ Ht E) as [Htouch Htext]. split; [|done]. split.
  - intros other [Hin|[->|[]%elem_of_nil]%elem_of_cons]%elem_of_app; [|done].
    rewrite (touches_text _ _ _ _ Htouch); [by apply C1|]. apply artifact_apart. by intros ->.
  - intros path Hp. by apply (to_exists _ _ _ Htouch), C2.
  - intros path Hp. rewrite (to_others _ _ _ Htouch) by (by apply artifact_other). by apply C3.
Qed.

Lemma close_holding dir disk texts sink sink' : holding dir disk texts sink -> TextSink.close sink = (Ok, sink') ->
  closedText dir disk texts lineChannels (js_disk sink').
Proof.
  intros [Hd Hs He Ho]. unfold TextSink.close.
  assert (closedText dir disk texts [] (js_disk sink)) as C0 by (split; [by intros ? ?%elem_of_nil|done|done]).
  destruct (closeStreamChecked (js_trades sink) (js_disk sink)) as [[s1 t1] d1] eqn:E1.
  destruct (closeStreamChecked (js_bookTicker sink) d1) as [[s2 t2] d2] eqn:E2.
  destruct (closeStreamChecked (js_depthTape sink) d2) as [[s3 t3] d3] eqn:E3.
  destruct (closeStreamChecked (js_depthSidecar sink) d3) as [[s4 t4] d4] eqn:E4.
  intros E. injection E as Hst <-. apply (merged_ok [s1; s2; s3; s4]) in Hst.
  repeat (apply Forall_cons in Hst as [-> Hst]). cbn [js_disk upd].
  assert (forall a b, a <> b -> artifact dir a <> artifact dir b) as Hap by (intros; by apply artifact_apart).
  destruct (close_one dir disk texts [] ChannelKind.Trades _ _ _ _ ltac:(by intros ?%elem_of_nil) ltac:(left)
    (Hs ChannelKind.Trades ltac:(left)) C0 E1) as [C1 T1].
  pose proof (tracked_elsewhere _ _ _ _ _ _ _ T1 (Hap ChannelKind.BookTicker ChannelKind.Trades ltac:(done)) (Hs ChannelKind.BookTicker ltac:(right; left))) as H2.
  destruct (close_one dir disk texts [ChannelKind.Trades] ChannelKind.BookTicker _ _ _ _ ltac:(by apply (bool_decide_unpack _)) ltac:(right; left) H2 C1 E2) as [C2 T2].
  pose proof (tracked_elsewhere _ _ _ _ _ _ _ T1 (Hap ChannelKind.DepthTape ChannelKind.Trades ltac:(done)) (Hs ChannelKind.DepthTape ltac:(do 2 right; left))) as H3.
  apply (tracked_elsewhere _ _ _ _ _ _ _ T2 (Hap ChannelKind.DepthTape ChannelKind.BookTicker ltac:(done))) in H3.
  destruct (close_one dir disk texts [ChannelKind.Trades; ChannelKind.BookTicker] ChannelKind.DepthTape _ _ _ _ ltac:(by apply (bool_decide_unpack _)) ltac:(do 2 right; left) H3 C2 E3) as [C3 T3].
  pose proof (tracked_elsewhere _ _ _ _ _ _ _ T1 (Hap ChannelKind.DepthSidecar ChannelKind.Trades ltac:(done)) (Hs ChannelKind.DepthSidecar ltac:(do 3 right; left))) as H4.
  apply (tracked_elsewhere _ _ _ _ _ _ _ T2 (Hap ChannelKind.DepthSidecar ChannelKind.BookTicker ltac:(done))) in H4.
  apply (tracked_elsewhere _ _ _ _ _ _ _ T3 (Hap ChannelKind.DepthSidecar ChannelKind.DepthTape ltac:(done))) in H4.
  by destruct (close_one dir disk texts [ChannelKind.Trades; ChannelKind.BookTicker; ChannelKind.DepthTape] ChannelKind.DepthSidecar _ _ _ _
    ltac:(by apply (bool_decide_unpack _)) ltac:(do 3 right; left) H4 C3 E4) as [C4 _].
Qed.

(** The artifacts prepared before rows come. *)
Fixpoint prepareAll (channels : list ChannelKind.t) (sink : JsonSessionSink) : list Status * JsonSessionSink :=
  match channels with
  | [] => ([], sink)
  | channel :: channels =>
      let '(status, sink) := TextSink.ensureChannelFile channel sink in
      let '(statuses, sink) := prepareAll channels sink in
      (status :: statuses, sink)
  end.
(** A capture from [open] to [close], with everything the calls returned. *)
Definition capture (dir : list Z) (channels : list ChannelKind.t) (calls : list SinkCall) (disk : TextDisk)
  : list Status * JsonSessionSink :=
  let '(opened, sink) := TextSink.open dir (newSink disk) in
  let '(prepared, sink) := prepareAll channels sink in
  let '(returned, sink) := runCalls (calls ++ [Close]) sink in
  (opened :: prepared ++ returned, sink).

(** A sink on which only artifacts were prepared. *)
Record preparedSink (dir : list Z) (disk : TextDisk) (sink : JsonSessionSink) : Prop := {
  ps_dir : js_sessionDir sink = dir;
  ps_streams : forall channel, streamOf channel sink = closedStream;
  ps_texts : forall path, fileText path (js_disk sink) = fileText path disk;
  ps_exists : forall path, is_Some (td_files disk !! path) -> is_Some (td_files (js_disk sink) !! path);
  ps_others : forall path, path ∉ map (artifact dir) lineChannels -> td_files (js_disk sink) !! path = td_files disk !! path;
}.

Lemma ensure_prepared dir disk channel sink sink' : channel ∈ lineChannels -> preparedSink dir disk sink ->
  TextSink.ensureChannelFile channel sink = (Ok, sink') ->
  preparedSink dir disk sink' /\ is_Some (td_files (js_disk sink') !! artifact dir channel) /\
  (forall path, is_Some (td_files (js_disk sink) !! path) -> is_Some (td_files (js_disk sink') !! path)).
Proof.
  intros Hc [P1 P2 P3 P4 P5]. unfold TextSink.ensureChannelFile. destruct (negb _); [done|]. destruct (isEmpty _); [done|].
  rewrite P1. cbv zeta. destruct (createDirectories (js_disk sink)) as [made d0] eqn:Ed. apply createDirectories_files in Ed.
  destruct made; cbn [negb]; [|done]. fold (artifact dir channel). destruct (openStream _ _ _ d0) as [s d1] eqn:Eo.
  destruct (openStream_tracked _ _ _ _ _ (eq_refl : os_open closedStream = false) Eo) as (Htouch & Hf & Hopen).
  destruct (os_open s); [|done]. intros [= <-]. destruct (Hopen eq_refl) as [_ Hex]. cbn [js_disk upd].
  assert (touches (artifact dir channel) (js_disk sink) d1) as Ht.
  { etransitivity; [apply (same_files_touch _ _ _ Ed)|exact Htouch]. }
  split_and!; [split; cbn [js_disk js_sessionDir upd]|done|apply (to_exists _ _ _ Ht)].
  - done.
  - intros ch. specialize (P2 ch). by destruct ch.
  - intros path. destruct (decide (path = artifact dir channel)) as [->|Hne].
    + by rewrite Hf, (same_files_text _ _ _ Ed).
    + by rewrite (touches_text _ _ _ _ Ht Hne).
  - intros path Hp. apply (to_exists _ _ _ Ht). by apply P4.
  - intros path Hp. rewrite (to_others _ _ _ Ht) by (by apply artifact_other). by apply P5.
Qed.

Lemma prepareAll_prepared dir disk channels : forall sink statuses sink', (forall channel, channel ∈ channels -> channel ∈ lineChannels) ->
  preparedSink dir disk sink -> prepareAll channels sink = (statuses, sink') -> Forall (fun s => s = Ok) statuses ->
  preparedSink dir disk sink' /\
  (forall path, is_Some (td_files (js_disk sink) !! path) -> is_Some (td_files (js_disk sink') !! path)) /\
  forall channel, channel ∈ channels -> is_Some (td_files (js_disk sink') !! artifact dir channel).
Proof.
  induction channels as [|channel channels IH]; intros sink statuses sink' Hl Hp Hr Hok; cbn [prepareAll] in Hr.
  - injection Hr as <- <-. split_and!; [done|done|]. by intros ? ?%elem_of_nil.
  - destruct (TextSink.ensureChannelFile channel sink) as [status sink1] eqn:E.
    destruct (prepareAll channels sink1) as [rest sink2] eqn:Er. injection Hr as <- <-. apply Forall_cons in Hok as [-> Hok].
    destruct (ensure_prepared _ _ _ _ _ (Hl channel ltac:(left)) Hp E) as (Hp1 & Hex & Hmono).
    destruct (IH sink1 rest sink2 ltac:(intros c Hin; apply Hl; by right) Hp1 Er Hok) as (Hp2 & Hmono' & Hall).
    split_and!; [done|auto|]. intros c [->|Hin]%elem_of_cons; [by apply Hmono'|by apply Hall].
Qed.

Lemma runCalls_app {S} `{IEventSink S} a : forall b (sink : S), runCalls (a ++ b) sink =
  let '(s1, sink) := runCalls a sink in let '(s2, sink) := runCalls b sink in (s1 ++ s2, sink).
Proof.
  induction a as [|call a IH]; intros b sink; cbn [app runCalls]; [by destruct (runCalls b sink)|].
  destruct (sinkCall call sink) as [status sink1]. rewrite IH. destruct (runCalls a sink1) as [s1 sink2].
  by destruct (runCalls b sink2).
Qed.

Lemma prepared_holding dir disk sink : preparedSink dir disk sink -> holding dir disk (textFor []) sink.
Proof.
  intros [P1 P2 P3 P4 P5]. split; [done| |done|done]. intros channel Hc. rewrite P2. unfold tracked. cbn [closedStream os_open].
  split; [|apply P3]. by each_channel Hc.
Qed.

Lemma capture_texts dir channels calls disk statuses sink : Forall (fun call => call <> Close) calls ->
  (forall channel, channel ∈ channels -> channel ∈ lineChannels) ->
  capture dir channels calls disk = (statuses, sink) -> Forall (fun s => s = Ok) statuses ->
  closedText dir disk (textFor calls) lineChannels (js_disk sink) /\
  forall channel, channel ∈ channels -> is_Some (td_files (js_disk sink) !! artifact dir channel).
Proof.
  intros Hno Hl. unfold capture. cbn [TextSink.open]. set (sink0 := newSink disk <| js_sessionDir := dir |> <| js_stats := noStats |>).
  assert (preparedSink dir disk sink0) as Hp0 by (split; try done; by intros []). clearbody sink0.
  destruct (prepareAll channels sink0) as [prepared sink1] eqn:E1. rewrite runCalls_app.
  destruct (runCalls calls sink1) as [returned sink2] eqn:E2. cbn [runCalls sinkCall JsonSessionSink_sink].
  destruct (TextSink.close sink2) as [closed sink3] eqn:E3. intros [= <- <-] Hok.
  apply Forall_cons in Hok as [_ [Hok1 [Hok2 [Hok3 _]%Forall_cons]%Forall_app]%Forall_app].
  destruct (prepareAll_prepared _ _ _ _ _ _ Hl Hp0 E1 Hok1) as (Hp1 & _ & Hex).
  pose proof (run_holding dir (js_disk sink1) calls [] sink1 returned sink2 Hno) as Hr.
  assert (holding dir (js_disk sink1) (textFor []) sink1) as Hh1.
  { apply prepared_holding. destruct Hp1 as [Q1 Q2 Q3 Q4 Q5]. by split. }
  specialize (Hr Hh1 E2 Hok2). subst closed. destruct (close_holding _ _ _ _ _ Hr E3) as [C1 C2 C3].
  destruct Hp1 as [Q1 Q2 Q3 Q4 Q5]. split; [split|].
  - intros channel Hc. rewrite C1, Q3 by done. done.
  - intros path Hpath. apply C2. by apply Q4.
  - intros path Hpath. rewrite C3 by done. by apply Q5.
  - intros channel Hc. apply C2. by apply Hex.
Qed.

(** C7: Whatever the disk does during a capture, directories that cannot be
    made, files that do not open, writes and flushes that stop half way: if every call from
    open to close reports success, each artifact holds what it held before followed by exactly
    the lines of the rows given, in order, and no other file changed. *)
Theorem sink_no_silent_loss dir channels calls disk statuses sink :
  Forall (fun call => call <> Close) calls -> (forall channel, channel ∈ channels -> channel ∈ lineChannels) ->
  capture dir channels calls disk = (statuses, sink) -> Forall (fun s => s = Ok) statuses ->
  (forall channel, channel ∈ lineChannels -> fileText (artifact dir channel) (js_disk sink) =
     fileText (artifact dir channel) disk ++ linesText (linesFor channel calls)) /\
  (forall path, path ∉ map (artifact dir) lineChannels -> td_files (js_disk sink) !! path = td_files disk !! path).
Proof.
  intros Hno Hl E Hok. destruct (capture_texts _ _ _ _ _ _ Hno Hl E Hok) as [[C1 _ C3] _]. split; [|exact C3].
  intros channel Hc. by apply C1.
Qed.

(** ** The files of the session as its readers see them *)

Definition textFiles (dir : list Z) (files : gmap (list Z) (list Z)) : FileSystem :=
  MkFileSystem (fun path => bool_decide (path = dir))
    (fun path => match files !! path with Some text => File true text | None => NoFile end).
Definition manifestPath (dir : list Z) : list Z := joinPath dir (named "manifest.json").

Lemma manifest_apart dir channel : manifestPath dir <> artifact dir channel.
Proof.
  unfold artifact, manifestPath. destruct (joinPath_relative dir) as [prefix Hp].
  rewrite !Hp by (try destruct channel; (eexists _, _; split; [reflexivity|done])).
  intros H%app_inv_head. destruct channel; discriminate H.
Qed.

(** The manifest of a capture of trades, tickers and depth. *)
Record captureManifest (m : SessionManifest) (channels : list ChannelKind.t) (calls : list SinkCall) : Prop := {
  cm_ok : manifestOk m;
  cm_accepted : SessionManifest.accepted m = true;
  cm_derived : SessionManifest.derived m = m;
  cm_loadable : sm_structurallyLoadable m = true;
  cm_retired : [sm_liquidationsEnabled m; sm_markPriceEnabled m; sm_indexPriceEnabled m; sm_fundingEnabled m;
                sm_priceLimitEnabled m; sm_candlesEnabled m; sm_candles2Enabled m] = replicate 7 false;
  cm_paths : sm_tradesPath m = channelJsonlRelativePath ChannelKind.Trades /\
    sm_bookTickerPath m = channelJsonlRelativePath ChannelKind.BookTicker /\
    sm_depthPath m = channelJsonlRelativePath ChannelKind.DepthTape /\
    sm_depthSidecarPath m = channelJsonlRelativePath ChannelKind.DepthSidecar;
  cm_enabled : (if sm_tradesEnabled m then ChannelKind.Trades ∈ channels else tradesOf calls = []) /\
    (if sm_bookTickerEnabled m then ChannelKind.BookTicker ∈ channels else tickersOf calls = []) /\
    (if sm_orderbookEnabled m then ChannelKind.DepthTape ∈ channels /\ ChannelKind.DepthSidecar ∈ channels
     else depthsOf calls = []);
  cm_counts : finalizedSession (sm_sessionStatus m) = true ->
    arrivalSummaryMatchesDeclaredRows m = true /\ sm_tradesCount m = Z.of_nat (length (tradesOf calls)) /\
    sm_bookTickerCount m = Z.of_nat (length (tickersOf calls)) /\ sm_depthCount m = Z.of_nat (length (depthsOf calls));
}.

(** The rows of two runs of calls. *)
Lemma rows_app calls calls' : tradesOf (calls ++ calls') = tradesOf calls ++ tradesOf calls' /\
  tickersOf (calls ++ calls') = tickersOf calls ++ tickersOf calls' /\
  depthsOf (calls ++ calls') = depthsOf calls ++ depthsOf calls'.
Proof. unfold tradesOf, tickersOf, depthsOf. by rewrite !map_app, !concat_app. Qed.
Lemma linesFor_app channel calls calls' : linesFor channel (calls ++ calls') = linesFor channel calls ++ linesFor channel calls'.
Proof. destruct (rows_app calls calls') as (E1 & E2 & E3). by destruct channel; cbn; rewrite ?E1, ?E2, ?E3, ?map_app. Qed.

(** The files of a session beside what the sink of a capture left: its artifacts, the
    manifest, the metadata of the instrument when it is written, any reports, and a seek index
    if somebody made one. *)
Record sessionFiles (dir : list Z) (sink : JsonSessionSink) (m : SessionManifest) (files : gmap (list Z) (list Z)) : Prop := {
  sf_artifacts : forall channel, channel ∈ lineChannels ->
    files !! artifact dir channel = td_files (js_disk sink) !! artifact dir channel;
  sf_manifest : files !! manifestPath dir = Some (renderManifestJson m);
  sf_metadata : files !! joinPath dir (sm_instrumentMetadataPath m) = None \/
    exists metadata, instrumentOk metadata /\
      files !! joinPath dir (sm_instrumentMetadataPath m) = Some (renderInstrumentMetadataJson metadata);
  sf_index : forall text, files !! joinPath dir (named "seek_index.json") = Some text ->
    parseSeekIndexDocument text <> None;
}.

Lemma captured_stored dir channels earlier calls disk statuses sink m files :
  Forall (fun call => call <> Close) calls -> (forall channel, channel ∈ channels -> channel ∈ lineChannels) ->
  capture dir channels calls disk = (statuses, sink) -> Forall (fun s => s = Ok) statuses ->
  (forall channel, channel ∈ lineChannels -> fileText (artifact dir channel) disk = linesText (linesFor channel earlier)) ->
  let all := earlier ++ calls in
  Forall tradeOk (tradesOf all) /\ Forall bookTickerOk (tickersOf all) /\ Forall depthOk (depthsOf all) ->
  captureManifest m channels all -> sessionFiles dir sink m files ->
  stored (textFiles dir files) dir m (tradesOf all) (tickersOf all) (depthsOf all).
Proof.
  intros Hno Hl E Hok Hfresh all Hrows [M1 M2 M3 M4 M5 (MP1 & MP2 & MP3 & MP4) (ME1 & ME2 & ME3) M8] [F1 F2 F3 F4].
  destruct (capture_texts _ _ _ _ _ _ Hno Hl E Hok) as [[C1 _ _] Cex].
  assert (forall channel, channel ∈ lineChannels -> channel ∈ channels ->
    fs_file (textFiles dir files) (joinPath dir (channelJsonlRelativePath channel)) =
    File true (linesText (linesFor channel all))) as Hfile.
  { intros channel Hc Hin. cbn [fs_file textFiles]. fold (artifact dir channel). rewrite F1 by done.
    destruct (Cex channel Hin) as [text Htext]. rewrite Htext. f_equal. unfold all. rewrite linesFor_app, linesText_app.
    specialize (C1 channel Hc). rewrite Hfresh in C1 by done. unfold fileText in C1. by rewrite Htext in C1. }
  assert (forall path, documentAt (textFiles dir files) dir path (fun text => files !! joinPath dir path = Some text)) as Hdoc.
  { intros path. unfold documentAt. cbn [fs_file textFiles]. destruct (files !! joinPath dir path) as [text|]; [right|by left].
    by exists text. }
  split; try done.
  - cbn. by apply bool_decide_eq_true_2.
  - cbn [fs_file textFiles]. fold (manifestPath dir). by rewrite F2.
  - unfold storedAt. destruct (sm_tradesEnabled m) in ME1 |- *; [|by rewrite ME1]. rewrite MP1. split; [done|].
    by apply (Hfile ChannelKind.Trades ltac:(left)).
  - unfold storedAt. destruct (sm_bookTickerEnabled m) in ME2 |- *; [|by rewrite ME2]. rewrite MP2. split; [done|].
    by apply (Hfile ChannelKind.BookTicker ltac:(right; left)).
  - unfold storedAt. destruct (sm_orderbookEnabled m) in ME3 |- *; [|by rewrite ME3]. rewrite MP3. split; [done|].
    apply (Hfile ChannelKind.DepthTape ltac:(do 2 right; left)), ME3.
  - unfold storedAt. destruct (sm_orderbookEnabled m) in ME3 |- *; [|by rewrite ME3]. rewrite MP4. split; [done|].
    apply (Hfile ChannelKind.DepthSidecar ltac:(do 3 right; left)), ME3.
  - destruct (Hdoc (sm_instrumentMetadataPath m)) as [Hd|(text & Hd & Hf)]; [by left|right]. exists text. split; [done|].
    destruct F3 as [F3|(metadata & Hmeta & F3)]; [congruence|]. exists metadata.
    assert (text = renderInstrumentMetadataJson metadata) as -> by congruence. by apply instrument_read.
  - apply Forall_forall. intros path _. destruct (Hdoc path) as [Hd|(text & Hd & _)]; [by left|right; by exists text].
  - destruct (Hdoc (named "seek_index.json")) as [Hd|(text & Hd & Hf)]; [by left|right]. exists text. split; [done|].
    specialize (F4 text Hf). destruct (parseSeekIndexDocument text) as [index|]; [by exists index|done].
Qed.


(** ** A disk that does not fail *)

Definition well (stream : OutStream) : Prop := os_open stream = true -> os_good stream = true.
Record healthy (sink : JsonSessionSink) : Prop := {
  he_dir : js_sessionDir sink <> [];
  he_next : td_next (js_disk sink) = [];
  he_streams : forall channel, well (streamOf channel sink);
}.

Lemma nextOutcome_none disk : td_next disk = [] -> nextOutcome disk = (Succeeds, disk).
Proof. intros E. unfold nextOutcome. by rewrite E. Qed.

Lemma writeLine_healthy dir channel line stream disk : dir <> [] -> td_next disk = [] -> well stream ->
  exists stream' disk', TextSink.writeLine_ dir channel line stream disk = (Ok, stream', disk') /\
    td_next disk' = [] /\ well stream'.
Proof.
  intros Hd Hn Hw. unfold TextSink.writeLine_, TextSink.ensureLineStream_. rewrite nonempty_line by done.
  destruct (os_open stream) eqn:Ho.
  - change (negb (isOk Ok)) with false. cbv iota. unfold writeStream. rewrite Hw by done. cbn [negb].
    rewrite nextOutcome_none by done. cbn [ChannelWriter.good os_good upd]. rewrite Hw by done. by eexists _, _.
  - cbv zeta. unfold createDirectories, openStream. rewrite nextOutcome_none by done. cbn [negb].
    rewrite nextOutcome_none by done. cbn [os_open]. change (negb (isOk Ok)) with false. cbv iota. unfold writeStream. cbn [os_good negb].
    rewrite nextOutcome_none by done. cbn [ChannelWriter.good os_good upd]. eexists _, _. by split_and!.
Qed.

Lemma withStream_healthy channel stream disk sink : channel ∈ lineChannels -> healthy sink -> td_next disk = [] -> well stream ->
  healthy (withStream channel stream disk sink).
Proof.
  intros Hc [Hd Hn Hs] Hn' Hw. split.
  - by destruct channel.
  - by destruct channel.
  - intros other. specialize (Hs other). each_channel Hc; by destruct other.
Qed.
Lemma stats_healthy change sink : healthy sink -> healthy (sink <| js_stats ::= change |>).
Proof. intros [Hd Hn Hs]. split; [done|done|]. intros channel. specialize (Hs channel). by destruct channel. Qed.

(** Writing a line through one stream. *)
Lemma write_healthy channel line sink : channel ∈ lineChannels -> healthy sink ->
  exists stream disk, TextSink.writeLine_ (js_sessionDir sink) channel line (streamOf channel sink) (js_disk sink) =
    (Ok, stream, disk) /\ healthy (withStream channel stream disk sink).
Proof.
  intros Hc Hh. destruct (writeLine_healthy (js_sessionDir sink) channel line _ _ (he_dir _ Hh) (he_next _ Hh) (he_streams _ Hh channel))
    as (stream & disk & E & Hn & Hw). exists stream, disk. split; [done|]. by apply withStream_healthy.
Qed.

Lemma flushOpen_healthy stream disk : td_next disk = [] -> well stream ->
  exists stream' disk', TextSink.flushOpen stream disk = (stream', disk') /\ td_next disk' = [] /\ well stream'.
Proof.
  intros Hn Hw. unfold TextSink.flushOpen. destruct (os_open stream) eqn:Ho; [|by eexists _, _].
  unfold flushStream. rewrite Hw by done. cbn [negb]. rewrite nextOutcome_none by done. eexists _, _. split_and!; [done|done|].
  intros _. cbn. by apply Hw.
Qed.

Lemma closeChecked_healthy stream disk : td_next disk = [] -> well stream ->
  exists stream' disk', closeStreamChecked stream disk = (Ok, stream', disk') /\ td_next disk' = [].
Proof.
  intros Hn Hw. unfold closeStreamChecked. destruct (os_open stream) eqn:Ho; cbn [negb]; [|by eexists _, _].
  unfold flushStream, closeStream. rewrite Hw by done. cbn [negb]. rewrite nextOutcome_none by done. cbv zeta.
  rewrite nextOutcome_none by done. cbn [os_good upd]. rewrite Hw by done. by eexists _, _.
Qed.

Lemma call_healthy call sink : call <> Close -> healthy sink -> exists sink', sinkCall call sink = (Ok, sink') /\ healthy sink'.
Proof.
  intros Hne Hh. assert (forall row, exists sink', TextSink.appendDepth row sink = (Ok, sink') /\ healthy sink') as Hdepth.
  { intros row. unfold TextSink.appendDepth, TextSink.appendDepthTapeSidecarLines.
    destruct (write_healthy ChannelKind.DepthTape (renderDepthTapeJsonLine row) sink ltac:(do 2 right; left) Hh) as (s & d & E & H1).
    cbn [streamOf] in E. rewrite E. cbv zeta. change (negb (isOk Ok)) with false. cbv iota.
    change (sink <| js_depthTape := s |> <| js_disk := d |>) with (withStream ChannelKind.DepthTape s d sink).
    set (sink1 := withStream ChannelKind.DepthTape s d sink) in *. clearbody sink1.
    destruct (write_healthy ChannelKind.DepthSidecar (renderDepthRleSidecarJsonLine row) sink1 ltac:(do 3 right; left) H1) as (s2 & d2 & E2 & H2).
    cbn [streamOf] in E2. rewrite E2. eexists. split; [reflexivity|]. apply stats_healthy. exact H2. }
  destruct call as [row|row|row|snapshot index| |]; cbn [sinkCall JsonSessionSink_sink]; [..|done].
  - unfold TextSink.appendTrade, TextSink.appendTradeLine.
    destruct (write_healthy ChannelKind.Trades (renderTradeJsonLine row) sink ltac:(left) Hh) as (s & d & E & H1).
    cbn [streamOf] in E. rewrite E. eexists. split; [reflexivity|]. apply stats_healthy. exact H1.
  - unfold TextSink.appendBookTicker, TextSink.appendBookTickerLine.
    destruct (write_healthy ChannelKind.BookTicker (renderBookTickerJsonLine row) sink ltac:(right; left) Hh) as (s & d & E & H1).
    cbn [streamOf] in E. rewrite E. eexists. split; [reflexivity|]. apply stats_healthy. exact H1.
  - apply Hdepth.
  - apply Hdepth.
  - destruct Hh as [Hd Hn Hs]. unfold TextSink.flush.
    destruct (flushOpen_healthy _ _ Hn (Hs ChannelKind.Trades)) as (s1 & d1 & E1 & N1 & W1). cbn [streamOf] in E1. rewrite E1.
    destruct (flushOpen_healthy _ _ N1 (Hs ChannelKind.BookTicker)) as (s2 & d2 & E2 & N2 & W2). cbn [streamOf] in E2. rewrite E2.
    destruct (flushOpen_healthy _ _ N2 (Hs ChannelKind.DepthTape)) as (s3 & d3 & E3 & N3 & W3). cbn [streamOf] in E3. rewrite E3.
    destruct (flushOpen_healthy _ _ N3 (Hs ChannelKind.DepthSidecar)) as (s4 & d4 & E4 & N4 & W4). cbn [streamOf] in E4. rewrite E4.
    eexists. split; [reflexivity|]. split; [done|done|]. by intros [].
Qed.

Lemma run_healthy calls : forall sink, Forall (fun call => call <> Close) calls -> healthy sink ->
  exists statuses sink', runCalls calls sink = (statuses, sink') /\ Forall (fun s => s = Ok) statuses /\ healthy sink'.
Proof.
  induction calls as [|call calls IH]; intros sink Hno Hh; [exists [], sink; split_and!; [done|constructor|done]|].
  apply Forall_cons in Hno as [Hne Hno]. destruct (call_healthy call sink Hne Hh) as (sink1 & E & H1).
  destruct (IH sink1 Hno H1) as (statuses & sink2 & Er & Hok & H2). cbn [runCalls]. rewrite E, Er.
  eexists _, _. split_and!; [reflexivity|by constructor|done].
Qed.

Lemma prepare_healthy channels : forall sink, (forall channel, channel ∈ channels -> channel ∈ lineChannels) -> healthy sink ->
  exists statuses sink', prepareAll channels sink = (statuses, sink') /\ Forall (fun s => s = Ok) statuses /\ healthy sink'.
Proof.
  induction channels as [|channel channels IH]; intros sink Hl Hh; [exists [], sink; split_and!; [done|constructor|done]|].
  assert (exists sink1, TextSink.ensureChannelFile channel sink = (Ok, sink1) /\ healthy sink1) as (sink1 & E & H1).
  { destruct Hh as [Hd Hn Hs]. unfold TextSink.ensureChannelFile.
    assert (TextSink.writesChannel channel = true) as -> by (pose proof (Hl channel ltac:(left)) as Hc; by each_channel Hc).
    rewrite nonempty_line by done. cbn [negb]. cbv zeta. unfold createDirectories, openStream.
    rewrite !nextOutcome_none by done. cbn [negb].  cbn [os_open]. eexists. split; [reflexivity|].
    split; [done|done|]. intros c. specialize (Hs c). by destruct c. }
  destruct (IH sink1 ltac:(intros c Hin; apply Hl; by right) H1) as (statuses & sink2 & Er & Hok & H2).
  cbn [prepareAll]. rewrite E, Er. eexists _, _. split_and!; [reflexivity|by constructor|done].
Qed.

(** C35: On a disk that does not fail every call of a capture, from open
    to close, reports success. *)
Theorem faultless_capture_succeeds dir channels calls disk : dir <> [] -> td_next disk = [] ->
  Forall (fun call => call <> Close) calls -> (forall channel, channel ∈ channels -> channel ∈ lineChannels) ->
  Forall (fun s => s = Ok) (capture dir channels calls disk).1.
Proof.
  intros Hd Hn Hno Hl. unfold capture, TextSink.open. rewrite nonempty_line by done.
  set (sink0 := newSink disk <| js_sessionDir := dir |> <| js_stats := noStats |>).
  assert (healthy sink0) as H0 by (split; [done|done|]; by intros []). clearbody sink0.
  destruct (prepare_healthy channels sink0 Hl H0) as (prepared & sink1 & -> & Hok1 & H1). rewrite runCalls_app.
  destruct (run_healthy calls sink1 Hno H1) as (returned & sink2 & -> & Hok2 & [_ Hn2 Hs2]).
  cbn [runCalls sinkCall JsonSessionSink_sink]. unfold TextSink.close.
  destruct (closeChecked_healthy _ _ Hn2 (Hs2 ChannelKind.Trades)) as (s1 & d1 & E1 & N1). cbn [streamOf] in E1. rewrite E1.
  destruct (closeChecked_healthy _ _ N1 (Hs2 ChannelKind.BookTicker)) as (s2 & d2 & E2 & N2). cbn [streamOf] in E2. rewrite E2.
  destruct (closeChecked_healthy _ _ N2 (Hs2 ChannelKind.DepthTape)) as (s3 & d3 & E3 & N3). cbn [streamOf] in E3. rewrite E3.
  destruct (closeChecked_healthy _ _ N3 (Hs2 ChannelKind.DepthSidecar)) as (s4 & d4 & E4 & N4). cbn [streamOf] in E4. rewrite E4.
  cbn [fst]. constructor; [done|]. apply Forall_app. split; [done|]. apply Forall_app. split; [done|]. by repeat constructor.
Qed.

(** ** Samples *)

Definition sampleDir : list Z := bytes_of_string "/r/1700".
Definition sampleSinkCalls : list SinkCall := [AppendTrade sampleTradeRow; Flush; AppendDepth sampleDepthRow].
Definition sampleChannels : list ChannelKind.t := [ChannelKind.Trades; ChannelKind.DepthTape; ChannelKind.DepthSidecar].
(** A disk on which a later write stops half way. *)
Definition tornDisk : TextDisk :=
  MkTextDisk ∅ [Succeeds; Succeeds; Succeeds; Succeeds; Succeeds; Succeeds; Succeeds; Succeeds; FailsAfter 5].
Definition emptyDisk : TextDisk := MkTextDisk ∅ [].
Definition captureSample : SessionManifest :=
  SessionManifest.derived (sampleManifest <| sm_orderbookEnabled := true |> <| sm_tradesCount := 1 |> <| sm_depthCount := 1 |>
    <| sm_arrivalClock ::= fun clock => clock <| ac_capturedRows := 2 |> <| ac_firstReceiveRealtimeNs := 1700 |>
         <| ac_lastReceiveRealtimeNs := 1700 |> <| ac_firstReceiveMonotonicNs := 1600 |>
         <| ac_lastReceiveMonotonicNs := 1600 |> |>).

Lemma captureSample_ok : manifestOk captureSample.
Proof.
  apply derived_ok. check_fields; first [apply newRuntime_ok | apply newIntegrity_ok | check_fields].
Qed.

Lemma sampleRows_ok : Forall tradeOk (tradesOf sampleSinkCalls) /\ Forall bookTickerOk (tickersOf sampleSinkCalls) /\
  Forall depthOk (depthsOf sampleSinkCalls).
Proof.
  split_and!; [|constructor|]; (constructor; [|constructor]).
  - split; [cbn; mlia|split; [|split]; apply bytes_checked; vm_compute; reflexivity|cbn; mlia|by vm_compute|exact sampleArrival_ok].
  - split; cbn; [mlia|mlia|mlia|exact sampleArrival_ok| |mlia]. repeat constructor; cbn; mlia || reflexivity.
Qed.

Lemma sampleCalls_open : Forall (fun call => call <> Close) sampleSinkCalls.
Proof. by repeat constructor. Qed.
Lemma sampleChannels_lines channel : channel ∈ sampleChannels -> channel ∈ lineChannels.
Proof. intros Hc. unfold sampleChannels in Hc. repeat (apply elem_of_cons in Hc as [->|Hc]); [..|by apply elem_of_nil in Hc];
  by apply (bool_decide_unpack _). Qed.

Lemma faultless_capture_succeeds_witness :
  (capture sampleDir sampleChannels sampleSinkCalls emptyDisk).1 = replicate 8 Ok /\
  Forall (fun s => s = Ok) (capture sampleDir sampleChannels sampleSinkCalls emptyDisk).1.
Proof.
  split; [vm_compute; reflexivity|].
  apply (faultless_capture_succeeds sampleDir sampleChannels sampleSinkCalls emptyDisk);
    [discriminate|reflexivity|exact sampleCalls_open|exact sampleChannels_lines].
Defined.

Lemma sink_no_silent_loss_witness :
  fileText (artifact sampleDir ChannelKind.Trades) (js_disk (capture sampleDir sampleChannels sampleSinkCalls emptyDisk).2) =
    renderTradeJsonLine sampleTradeRow ++ [Ch.newline] /\
  existsb (fun s => negb (isOk s)) (capture sampleDir sampleChannels sampleSinkCalls tornDisk).1 = true.
Proof.
  split.
  - destruct (sink_no_silent_loss sampleDir sampleChannels sampleSinkCalls emptyDisk
      (capture sampleDir sampleChannels sampleSinkCalls emptyDisk).1
      (capture sampleDir sampleChannels sampleSinkCalls emptyDisk).2) as [H _];
      [exact sampleCalls_open|exact sampleChannels_lines|vm_compute; reflexivity|vm_compute; repeat constructor|].
    rewrite (H ChannelKind.Trades ltac:(left)). vm_compute. reflexivity.
  - vm_compute. reflexivity.
Defined.

Lemma captureSample_manifest : captureManifest captureSample sampleChannels sampleSinkCalls.
Proof.
  split; [exact captureSample_ok|vm_compute; reflexivity..| | |].
  - by vm_compute.
  - split; [left|]. split; [reflexivity|]. split; [right; left|do 2 right; left].
  - intros _. by vm_compute.
Qed.

(** A session with the metadata of its instrument, a report and a seek index. *)
Definition sampleMetadata : InstrumentMetadata :=
  makeInstrumentMetadata (named "binance") (named "futures") (named "BTCUSDT").
Definition sampleFiles : gmap (list Z) (list Z) :=
  <[manifestPath sampleDir := renderManifestJson captureSample]>
  (<[joinPath sampleDir (sm_instrumentMetadataPath captureSample) := renderInstrumentMetadataJson sampleMetadata]>
  (<[joinPath sampleDir (sm_integrityReportPath captureSample) := named "{}"]>
  (td_files (js_disk (capture sampleDir sampleChannels sampleSinkCalls emptyDisk).2)))).
Lemma sampleFiles_ok :
  sessionFiles sampleDir (capture sampleDir sampleChannels sampleSinkCalls emptyDisk).2 captureSample sampleFiles.
Proof.
  split.
  - intros channel Hc. each_channel Hc; vm_compute; reflexivity.
  - vm_compute. reflexivity.
  - right. exists sampleMetadata. split; [apply made_instrument_ok; apply bytes_checked; vm_compute; reflexivity|].
    vm_compute. reflexivity.
  - intros text Ht. vm_compute in Ht. discriminate Ht.
Qed.


(** A snapshot is stored as a depth row without an event id, which the reader of depth rows
    refuses: no session it was appended to can be loaded. *)
Theorem snapshot_row_refused snapshot :
  let row := TextSink.depthRowFromSnapshot snapshot in
  parseDepthTapeSidecarLine (renderDepthTapeJsonLine row) (renderDepthRleSidecarJsonLine row) = Some (CorruptData, None).
Proof.
  cbv zeta. unfold parseDepthTapeSidecarLine, renderDepthTapeJsonLine. cbn [TextSink.depthRowFromSnapshot dp_eventId].
  change (appendInt 0) with [48]. cbn [app]. unfold parseDepthTapeLine. rewrite parseArrayStart_here. cbn [mbind option_bind].
  rewrite parseUInt64_ws. match goal with |- context [48 :: Ch.comma :: ?rest] => generalize rest end. reflexivity.
Qed.
