(* ===== verification/StoreReads.v ===== *)
(** * StoreReads: what the live store answers, and the composite sink

    The binary searches of the store find the rows of a range when the rows came in time
    order, the scan finds them in any order, and a composite of sinks is each sink alone. *)
From stdpp Require Import base list numbers strings gmap sorting.
From S2P Require Import Prelude Codec Json Rows RowText Loader Replay ReplayTimeline Sinks SinkRun.
Local Open Scope Z_scope.

(** ** The binary search *)

Section search.
Context {A : Type} (before : A -> bool) (xs : list A).

(** The elements that come before are a prefix. *)
Definition partitioned : Prop := forall i j x y, (i <= j)%nat -> xs !! i = Some x -> xs !! j = Some y ->
  before y = true -> before x = true.

Lemma searchLoop_spec fuel : forall first len, partitioned -> (len < fuel)%nat -> (first + len <= length xs)%nat ->
  let r := searchLoop fuel before xs first len in
  (first <= r <= first + len)%nat /\
  (forall i x, (first <= i < r)%nat -> xs !! i = Some x -> before x = true) /\
  (forall i x, (r <= i < first + len)%nat -> xs !! i = Some x -> before x = false).
Proof.
  induction fuel as [|fuel IH]; intros first len Hp Hf Hl; [lia|]. cbn [searchLoop].
  destruct (Nat.eqb_spec len 0) as [->|Hne]; [cbv zeta; split_and!; [lia|lia|intros; lia|intros; lia]|].
  cbv zeta. set (half := Nat.div2 len). assert (half < len)%nat as Hh by (apply Nat.lt_div2; lia).
  destruct (lookup_lt_is_Some_2 xs (first + half)) as [x Hx]; [lia|]. rewrite Hx. destruct (before x) eqn:Eb.
  - destruct (IH (S (first + half)) (len - half - 1)%nat Hp) as (R1 & R2 & R3); [lia|lia|].
    set (r := searchLoop _ _ _ _ _) in *. split_and!; [lia|lia| |].
    + intros i y Hi Hy. destruct (decide (i <= first + half)%nat); [by apply (Hp i (first + half)%nat y x)|].
      apply (R2 i y); [lia|done].
    + intros i y Hi Hy. apply (R3 i y); [lia|done].
  - destruct (IH first half Hp) as (R1 & R2 & R3); [lia|lia|]. set (r := searchLoop _ _ _ _ _) in *.
    split_and!; [lia|lia|exact R2|]. intros i y Hi Hy. destruct (decide (i < first + half)%nat); [apply (R3 i y); [lia|done]|].
    destruct (before y) eqn:Ey; [|done]. rewrite (Hp (first + half)%nat i x y) in Eb; [done|lia|done|done|done].
Qed.

(** From a place where the search starts, the elements up to the point come before. *)
Lemma partitionPoint_spec first : partitioned -> (first <= length xs)%nat ->
  let r := partitionPoint before xs first in
  (first <= r <= length xs)%nat /\
  (forall i x, (first <= i < r)%nat -> xs !! i = Some x -> before x = true) /\
  (forall i x, (r <= i)%nat -> xs !! i = Some x -> before x = false).
Proof.
  intros Hp Hl. unfold partitionPoint.
  destruct (searchLoop_spec (S (length xs)) first (length xs - first) Hp ltac:(lia) ltac:(lia)) as (R1 & R2 & R3).
  cbv zeta. split_and!; [lia|lia|exact R2|]. intros i x Hi Hx. apply (R3 i x); [|done].
  apply lookup_lt_Some in Hx. lia.
Qed.
End search.

(** A list whose parts are kept or dropped as a whole. *)
Lemma filter_parts {A} (keep : A -> bool) xs a b : (a <= b <= length xs)%nat ->
  (forall i x, (a <= i < b)%nat -> xs !! i = Some x -> keep x = true) ->
  (forall i x, (i < a \/ b <= i)%nat -> xs !! i = Some x -> keep x = false) ->
  List.filter keep xs = take (b - a) (drop a xs).
Proof.
  intros Hab Hin Hout. rewrite <- (take_drop a xs) at 1. rewrite <- (take_drop (b - a) (drop a xs)) at 1.
  rewrite !List.filter_app.
  assert (forall ys, Forall (fun x => keep x = false) ys -> List.filter keep ys = []) as Hnone.
  { induction 1 as [|y ys Hy _ IH]; cbn; [done|]. by rewrite Hy. }
  assert (forall ys, Forall (fun x => keep x = true) ys -> List.filter keep ys = ys) as Hall.
  { induction 1 as [|y ys Hy _ IH]; cbn; [done|]. by rewrite Hy, IH. }
  rewrite (Hnone (take a xs)), (Hall (take (b - a) (drop a xs))), (Hnone (drop (b - a) (drop a xs))).
  - by rewrite app_nil_r.
  - apply Forall_lookup. intros i x Hx. rewrite !lookup_drop in Hx. apply (Hout _ x) in Hx; [done|lia].
  - apply Forall_lookup. intros i x Hx. pose proof (lookup_lt_Some _ _ _ Hx) as Hi. rewrite length_take in Hi.
    rewrite lookup_take_lt, lookup_drop in Hx by lia. apply (Hin _ x) in Hx; [done|lia].
  - apply Forall_lookup. intros i x Hx. pose proof (lookup_lt_Some _ _ _ Hx) as Hi. rewrite length_take in Hi.
    rewrite lookup_take_lt in Hx by lia. apply (Hout _ x) in Hx; [done|lia].
Qed.

(** ** Ranges *)

Section ranges.
Context {A : Type} (tsNs : A -> Z).

Definition inTimeOrder (rows : list A) : Prop := StronglySorted Z.le (map tsNs rows).

Lemma timeOrder_lookup rows i j x y : inTimeOrder rows -> (i <= j)%nat -> rows !! i = Some x -> rows !! j = Some y ->
  tsNs x <= tsNs y.
Proof.
  intros Hs Hij Hx Hy. destruct (decide (i = j)) as [->|Hne]; [replace y with x by congruence; lia|].
  unfold inTimeOrder in Hs. rewrite <- (take_drop j rows), map_app in Hs.
  eapply (StronglySorted_app_1_elem_of Z.le _ _ (tsNs x) (tsNs y) Hs).
  - apply (list_elem_of_fmap_2 tsNs). apply list_elem_of_lookup. exists i. rewrite lookup_take_lt by lia. done.
  - apply (list_elem_of_fmap_2 tsNs). apply list_elem_of_lookup. exists 0%nat. rewrite lookup_drop, Nat.add_0_r. done.
Qed.

Lemma lower_partitioned rows ts : inTimeOrder rows -> partitioned (fun row => tsNs row <? ts) rows.
Proof. intros Hs i j x y Hij Hx Hy. rewrite !Z.ltb_lt. pose proof (timeOrder_lookup rows i j x y Hs Hij Hx Hy). lia. Qed.
Lemma upper_partitioned rows ts : inTimeOrder rows -> partitioned (fun row => negb (ts <? tsNs row)) rows.
Proof.
  intros Hs i j x y Hij Hx Hy. rewrite !negb_true_iff, !Z.ltb_ge. pose proof (timeOrder_lookup rows i j x y Hs Hij Hx Hy). lia.
Qed.

Lemma sortedRange_filter rows fromTsNs toTsNs : inTimeOrder rows ->
  appendRowsInSortedRange tsNs rows fromTsNs toTsNs = List.filter (inRange tsNs fromTsNs toTsNs) rows.
Proof.
  intros Hs. unfold appendRowsInSortedRange. destruct (Nat.eqb_spec (length rows) 0) as [E|_]; cbn [orb].
  { apply nil_length_inv in E. by subst rows. }
  destruct (Z.ltb_spec toTsNs fromTsNs) as [Hlt|Hge].
  { symmetry. clear Hs. induction rows as [|row rows IH]; [done|]. cbn. unfold inRange at 1.
    destruct (Z.leb_spec fromTsNs (tsNs row)), (Z.leb_spec (tsNs row) toTsNs); try lia; exact IH. }
  cbv zeta. unfold lowerBound, upperBoundFrom.
  destruct (partitionPoint_spec _ rows 0 (lower_partitioned rows fromTsNs Hs) ltac:(lia)) as (B1 & B2 & B3).
  set (b := partitionPoint _ rows 0) in *.
  destruct (partitionPoint_spec _ rows b (upper_partitioned rows toTsNs Hs) ltac:(lia)) as (E1 & E2 & E3).
  set (e := partitionPoint _ rows b) in *. symmetry. apply filter_parts; [lia| |].
  - intros i x Hi Hx. unfold inRange. apply andb_true_iff. rewrite !Z.leb_le. split.
    + assert ((tsNs x <? fromTsNs) = false) as H by (apply (B3 i x); [lia|done]). apply Z.ltb_ge in H. lia.
    + assert (negb (toTsNs <? tsNs x) = true) as H by (apply (E2 i x); [lia|done]). apply negb_true_iff, Z.ltb_ge in H. lia.
  - intros i x Hi Hx. unfold inRange. apply andb_false_iff. rewrite !Z.leb_gt. destruct (decide (i < b)%nat) as [Hb|Hb].
    + left. assert ((tsNs x <? fromTsNs) = true) as H by (apply (B2 i x); [lia|done]). apply Z.ltb_lt in H. lia.
    + right. assert (negb (toTsNs <? tsNs x) = false) as H by (apply (E3 i x); [lia|done]).
      apply negb_false_iff, Z.ltb_lt in H. lia.
Qed.

Lemma anyRange_permutation less rows fromTsNs toTsNs :
  appendRowsInAnyOrderRange tsNs less rows fromTsNs toTsNs ≡ₚ List.filter (inRange tsNs fromTsNs toTsNs) rows.
Proof.
  unfold appendRowsInAnyOrderRange. destruct (Nat.eqb_spec (length rows) 0) as [E|_]; cbn [orb].
  { apply nil_length_inv in E. by subst rows. }
  destruct (Z.ltb_spec toTsNs fromTsNs) as [Hlt|Hge]; [|apply stableSort_permutation].
  induction rows as [|row rows IH]; [done|]. cbn. unfold inRange at 1.
  destruct (Z.leb_spec fromTsNs (tsNs row)), (Z.leb_spec (tsNs row) toTsNs); try lia; exact IH.
Qed.
End ranges.

(** Rows with sequences are returned by time, then by their sequences. *)
Definition sequenceKey {A} (tsNs captureSeq ingestSeq : A -> Z) (row : A) : list Z := [tsNs row; captureSeq row; ingestSeq row].
Lemma sequencedLess_key {A} (tsNs captureSeq ingestSeq : A -> Z) a b : sequencedLess tsNs captureSeq ingestSeq a b =
  lexLess (sequenceKey tsNs captureSeq ingestSeq a) (sequenceKey tsNs captureSeq ingestSeq b).
Proof.
  unfold sequencedLess. cbn. destruct (tsNs a =? tsNs b); cbn; [|done]. destruct (captureSeq a =? captureSeq b); cbn; [|done].
  destruct (Z.eqb_spec (ingestSeq a) (ingestSeq b)) as [->|]; [apply Z.ltb_irrefl|done].
Qed.
Lemma sequencedLess_strictWeak {A} (tsNs captureSeq ingestSeq : A -> Z) :
  strictWeak (sequencedLess tsNs captureSeq ingestSeq) (fun _ => True).
Proof.
  split.
  - intros x _. rewrite sequencedLess_key. apply lexLess_irreflexive.
  - intros x y z _ _ _. rewrite !sequencedLess_key. by apply lexLess_transitive.
  - intros x y z _ _ _. rewrite !sequencedLess_key. by apply lexLess_incomparable.
Qed.
Lemma anyRange_ordered {A} (tsNs captureSeq ingestSeq : A -> Z) rows fromTsNs toTsNs :
  ordered (sequencedLess tsNs captureSeq ingestSeq)
    (appendRowsInAnyOrderRange tsNs (sequencedLess tsNs captureSeq ingestSeq) rows fromTsNs toTsNs).
Proof.
  unfold appendRowsInAnyOrderRange. destruct (_ || _); [constructor|].
  apply (stableSort_ordered _ (fun _ => True)); [apply sequencedLess_strictWeak|]. by apply Forall_true.
Qed.

(** The last snapshot not after a time. *)
Lemma snapshotAtOrBefore_last store ts : inTimeOrder sd_tsNs (eb_snapshots (le_events store)) ->
  LiveReads.readSnapshotAtOrBefore ts store =
  last (List.filter (fun snapshot => sd_tsNs snapshot <=? ts) (eb_snapshots (le_events store))).
Proof.
  intros Hs. unfold LiveReads.readSnapshotAtOrBefore, upperBoundFrom. set (rows := eb_snapshots (le_events store)) in *.
  destruct (partitionPoint_spec _ rows 0 (upper_partitioned sd_tsNs rows ts Hs) ltac:(lia)) as (R1 & R2 & R3).
  cbv zeta. set (r := partitionPoint _ rows 0) in *.
  rewrite (filter_parts (fun snapshot => sd_tsNs snapshot <=? ts) rows 0 r ltac:(lia)).
  - rewrite drop_0, Nat.sub_0_r. destruct r as [|r]; [done|].
    destruct (lookup_lt_is_Some_2 rows r ltac:(lia)) as [x Hx]. rewrite Hx, (take_S_r _ _ x Hx), last_snoc. done.
  - intros i x Hi Hx. specialize (R2 i x Hi Hx). apply negb_true_iff, Z.ltb_ge in R2. apply Z.leb_le. lia.
  - intros i x Hi Hx. assert (negb (ts <? sd_tsNs x) = false) as H by (apply (R3 i x); [lia|done]).
    apply negb_false_iff, Z.ltb_lt in H. apply Z.leb_gt. lia.
Qed.

Lemma since_drop {A} (rows : list A) offset : appendRowsSince rows offset = drop offset rows.
Proof.
  unfold appendRowsSince. destruct (Nat.leb_spec (length rows) offset); [|done]. symmetry. by apply drop_ge.
Qed.

(** The events a store holds after calls. *)
Definition heldEvents (calls : list SinkCall) (events : EventBatch) : EventBatch :=
  fold_left (fun events call => match call with
    | AppendTrade row => events <| eb_trades ::= fun rows => rows ++ [row] |>
    | AppendBookTicker row => events <| eb_bookTickers ::= fun rows => rows ++ [row] |>
    | AppendDepth row => events <| eb_depths ::= fun rows => rows ++ [row] |>
    | AppendSnapshot snapshot _ => events <| eb_snapshots ::= fun rows => rows ++ [snapshot] |>
    | Flush | Close => events
    end) calls events.

Lemma live_store_holds calls : forall store : LiveEventStore,
  le_events (runCalls calls store).2 = heldEvents calls (le_events store) /\
  Forall (fun s => s = Ok) (runCalls calls store).1.
Proof.
  induction calls as [|call calls IH]; intros store; [split; [done|constructor]|]. cbn [runCalls].
  assert (exists store', sinkCall call store = (Ok, store') /\ le_events store' = heldEvents [call] (le_events store))
    as (store' & E & Ev) by (destruct call; (eexists; split; [reflexivity|done])).
  rewrite E. specialize (IH store'). destruct (runCalls calls store') as [statuses store'']. cbn [fst snd] in *.
  destruct IH as [IH Hok]. split; [|by constructor]. rewrite IH, Ev. done.
Qed.

(** The live store keeps the rows of the calls in order and no call fails.  A read of
    a range holds exactly the rows whose time is in it: by scan and stable sort for rows that
    came in any order, by binary search for depth rows that came in time order; the snapshot
    read is the last one not after the time, and a read since offsets skips what was read. *)
Theorem store_reads calls fromTsNs toTsNs offset :
  let store := (runCalls calls newStore).2 in
  let held := heldEvents calls noEvents in
  le_events store = held /\
  eb_trades (LiveReads.readRange fromTsNs toTsNs store) ≡ₚ List.filter (inRange tr_tsNs fromTsNs toTsNs) (eb_trades held) /\
  eb_depths (LiveReads.readRange fromTsNs toTsNs store) ≡ₚ List.filter (inRange dp_tsNs fromTsNs toTsNs) (eb_depths held) /\
  ordered (sequencedLess dp_tsNs dp_captureSeq dp_ingestSeq) (eb_depths (LiveReads.readRange fromTsNs toTsNs store)) /\
  (inTimeOrder dp_tsNs (eb_depths held) -> LiveReads.readDepthRange fromTsNs toTsNs store =
     List.filter (inRange dp_tsNs fromTsNs toTsNs) (eb_depths held)) /\
  (inTimeOrder sd_tsNs (eb_snapshots held) -> LiveReads.readSnapshotAtOrBefore toTsNs store =
     last (List.filter (fun snapshot => sd_tsNs snapshot <=? toTsNs) (eb_snapshots held))) /\
  eb_depths (LiveReads.readSince 0 0 offset 0 store) = drop offset (eb_depths held).
Proof.
  cbv zeta. destruct (live_store_holds calls newStore) as [E _]. change (le_events newStore) with noEvents in E.
  set (store := (runCalls calls newStore).2) in *. clearbody store. rewrite <- E.
  split_and!; [done|apply anyRange_permutation|apply anyRange_permutation|apply anyRange_ordered|
    apply sortedRange_filter|apply snapshotAtOrBefore_last|apply since_drop].
Qed.

(** On rows that came out of time order the binary search of [readDepthRange] answers rows
    outside the range, where the read it overrides ([readRange]'s depth rows) does not. *)
Theorem unordered_depth_range :
  let store := (runCalls (map AppendDepth [depthAt 30 []; depthAt 10 []; depthAt 20 []]) newStore).2 in
  map dp_tsNs (LiveReads.readDepthRange 10 20 store) = [30; 10; 20] /\
  map dp_tsNs (eb_depths (LiveReads.readRange 10 20 store)) = [10; 20].
Proof. vm_compute. by split. Qed.

(** ** The composite sink *)

(** Sinks of two kinds behind one interface. *)
#[export] Instance sum_sink {A B} `{IEventSink A} `{IEventSink B} : IEventSink (A + B) := fun call sink =>
  match sink with
  | inl a => let '(status, a) := sinkCall call a in (status, inl a)
  | inr b => let '(status, b) := sinkCall call b in (status, inr b)
  end.

Section composite.
Context {S : Type} `{IEventSink S}.

(** The first failure, or success. *)
Definition firstFailure (statuses : list Status) : Status :=
  default Ok (List.find (fun s => negb (isOk s)) statuses).

Lemma compositeCall_each call sinks : forall status, compositeCall call status sinks =
  (firstFailure (status :: map (fun sink => (sinkCall call sink).1) sinks), map (fun sink => (sinkCall call sink).2) sinks).
Proof.
  induction sinks as [|sink sinks IH]; intros status; cbn [compositeCall map].
  - unfold firstFailure. cbn. by destruct status.
  - destruct (sinkCall call sink) as [next sink'] eqn:E. rewrite IH. cbn [fst snd]. f_equal.
    unfold firstFailure, mergeStatus. cbn [List.find]. by destruct status.
Qed.

Lemma firstStatuses call calls (sinks : list S) :
  omap (fun sink => (runCalls (call :: calls) sink).1 !! 0%nat) sinks = map (fun sink => (sinkCall call sink).1) sinks.
Proof.
  induction sinks as [|sink sinks IH]; [done|]. cbn [map]. rewrite <- IH. cbn. destruct (sinkCall call sink) as [s sink1].
  by destruct (runCalls calls sink1).
Qed.
Lemma laterStatuses call calls i (sinks : list S) :
  omap (fun sink => (runCalls calls sink).1 !! i) (map (fun sink => (sinkCall call sink).2) sinks) =
  omap (fun sink => (runCalls (call :: calls) sink).1 !! Datatypes.S i) sinks.
Proof.
  induction sinks as [|sink sinks IH]; [done|]. cbn in IH |- *. rewrite IH. destruct (sinkCall call sink) as [s sink1].
  cbn. by destruct (runCalls calls sink1).
Qed.

(** A composite sink, over any sinks behind the interface, gives every call to
    every sink, whatever the others return: after any calls each sink is in the state it would
    be in alone, and each call returns the first failure of its sinks in their order. *)
Theorem composite_transparent calls (sinks : list S) :
  (runCalls calls sinks).2 = map (fun sink => (runCalls calls sink).2) sinks /\
  forall i status, (runCalls calls sinks).1 !! i = Some status ->
    status = firstFailure (omap (fun sink => (runCalls calls sink).1 !! i) sinks).
Proof.
  revert sinks. induction calls as [|call calls IH]; intros sinks; cbn [runCalls].
  - split; [symmetry; apply map_id|]. intros i status Hi. by destruct i.
  - change (sinkCall call sinks) with (compositeCall call Ok sinks). rewrite compositeCall_each.
    specialize (IH (map (fun sink => (sinkCall call sink).2) sinks)).
    destruct (runCalls calls (map _ sinks)) as [statuses sinks'] eqn:E. cbn [fst snd] in *. destruct IH as [IH1 IH2]. split.
    + rewrite IH1, map_map. apply map_ext. intros sink. destruct (sinkCall call sink) as [s sink1]. cbn [snd].
      by destruct (runCalls calls sink1).
    + intros [|i] status Hi; cbn in Hi.
      * injection Hi as <-. change (firstFailure (map (fun sink => (sinkCall call sink).1) sinks) =
          firstFailure (omap (fun sink => (runCalls (call :: calls) sink).1 !! 0%nat) sinks)). by rewrite firstStatuses.
      * rewrite (IH2 i status Hi). by rewrite (laterStatuses call calls i).
Qed.
End composite.
