(* ===== verification/Vision.v ===== *)
(** * Vision: the archive rows of the history import

    The first half of src/src/Runtime/src/History/BinanceVisionFormat.cpp: fixed-point
    decimals and CSV rows of daily archives.  Text is a list of bytes; dates, names and
    listings are in Calendar and VisionDates.

    Theorems: decimals are read exactly or refused; an imported row says what the columns of
    its line say and is a well-formed row of a text session. *)
From stdpp Require Import base list numbers strings sorting.
From S2P Require Import Prelude Codec Json Rows RowText Replay.
Local Open Scope Z_scope.

(** ** Fields *)

Definition kScaleE8 : Z := 100000000.

(** [std::isspace] in the C locale. *)
Definition isSpaceC (c : Z) : bool := (c =? 32) || ((9 <=? c) && (c <=? 13)).
Fixpoint trimFront (text : list Z) : list Z :=
  match text with
  | c :: rest => if isSpaceC c then trimFront rest else text
  | [] => []
  end.
Definition trim (text : list Z) : list Z := rev (trimFront (rev (trimFront text))).

(** The digits [std::from_chars] reads: the value and what follows; [None] without a digit. *)
Fixpoint digitPrefix (text : list Z) : list Z * list Z :=
  match text with
  | c :: rest => if isDigit c then let '(ds, rest) := digitPrefix rest in (c :: ds, rest) else ([], text)
  | [] => ([], [])
  end.
Definition fromDigits (text : list Z) : option (Z * list Z) :=
  match digitPrefix text with
  | ([], _) => None
  | (ds, rest) => Some (digitsValue 0 ds, rest)
  end.
(** [std::from_chars] for an unsigned and for a signed type; a minus sign is read for signed
    types only, and a value that does not fit is an error. *)
Definition fromCharsUnsigned (highest : Z) (text : list Z) : option (Z * list Z) :=
  '(value, rest) ← fromDigits text;
  if value <=? highest then Some (value, rest) else None.
Definition fromCharsSigned (highest : Z) (text : list Z) : option (Z * list Z) :=
  match text with
  | c :: rest =>
      if c =? Ch.minus then
        '(value, rest) ← fromDigits rest;
        if value <=? highest + 1 then Some (- value, rest) else None
      else fromCharsUnsigned highest text
  | [] => None
  end.
(** The whole text must be read. *)
Definition whole (result : option (Z * list Z)) : option Z :=
  match result with Some (value, []) => Some value | _ => None end.

Definition parseI64 (text : list Z) : option Z :=
  let text := trim text in
  if bool_decide (text = []) then None else whole (fromCharsSigned i64_max text).
Definition parseU64 (text : list Z) : option Z :=
  let text := trim text in
  if bool_decide (text = []) then None else whole (fromCharsUnsigned u64_max text).

(** [std::tolower] in the C locale. *)
Definition toLower (c : Z) : Z := if (65 <=? c) && (c <=? 90) then c + 32 else c.
Definition equalsAsciiNoCase (lhs rhs : list Z) : bool := bool_decide (map toLower lhs = map toLower rhs).
Definition parseFlag (text : list Z) : option bool :=
  let text := trim text in
  if equalsAsciiNoCase text (bytes_of_string "true") || bool_decide (text = bytes_of_string "1") then Some true
  else if equalsAsciiNoCase text (bytes_of_string "false") || bool_decide (text = bytes_of_string "0") then Some false
  else None.

Definition msToNs (ms : Z) : option Z :=
  if ms <? 0 then None
  else if i64_max / 1000000 <? ms then None
  else Some (ms * 1000000).

(** The fields between commas, trimmed. *)
Fixpoint csvFields (field text : list Z) : list (list Z) :=
  match text with
  | c :: rest => if c =? Ch.comma then trim (rev field) :: csvFields [] rest else csvFields (c :: field) rest
  | [] => [trim (rev field)]
  end.
Definition splitCsv (line : list Z) : list (list Z) := csvFields [] line.

(** The product has 128 bits. *)
Definition scaledNotionalE8 (priceE8 qtyE8 : Z) : option Z :=
  if (priceE8 <? 0) || (qtyE8 <? 0) then None
  else
    let scaled := Z.quot (priceE8 * qtyE8) kScaleE8 in
    if i64_max <? scaled then None else Some scaled.

(** ** Decimals *)

(** The loop over the digits before the point: [None] is its early return. *)
Fixpoint wholeLoop (value : Z) (text : list Z) : option (Z * list Z) :=
  match text with
  | c :: rest =>
      if isDigit c then
        if (i64_max - (c - 48)) / 10 <? value then None else wholeLoop (value * 10 + (c - 48)) rest
      else Some (value, text)
  | [] => Some (value, [])
  end.
(** The loop over the digits after the point. *)
Fixpoint fractionLoop (frac : Z) (fracDigits : nat) (text : list Z) : option (Z * nat * list Z) :=
  match text with
  | c :: rest =>
      if isDigit c then
        if (8 <=? fracDigits)%nat then None else fractionLoop (frac * 10 + (c - 48)) (S fracDigits) rest
      else Some (frac, fracDigits, text)
  | [] => Some (frac, fracDigits, [])
  end.
Fixpoint scaleLoop (missing : nat) (frac : Z) : Z :=
  match missing with O => frac | S missing => scaleLoop missing (frac * 10) end.

Definition parseDecimalE8 (text : list Z) : option Z :=
  match trim text with
  | [] => None
  | c :: rest =>
      if c =? Ch.minus then None
      else
        let text := if c =? Ch.plus then rest else c :: rest in
        if negb (startsDigit text) then None
        else
          '(value, text) ← wholeLoop 0 text;
          '(frac, fracDigits, text) ←
            match text with
            | c :: rest => if c =? Ch.dot then fractionLoop 0 0 rest else Some (0, 0%nat, text)
            | [] => Some (0, 0%nat, [])
            end;
          if negb (bool_decide (text = [])) then None
          else
            let frac := scaleLoop (8 - fracDigits) frac in
            if (i64_max - frac) / kScaleE8 <? value then None else Some (value * kScaleE8 + frac)
  end.

(** ** Rows *)

Record ImportIdentity := MkImportIdentity { ii_exchange : list Z; ii_market : list Z; ii_symbol : list Z }.

(** A field of a row, or the error text. *)
Definition field {A} (value : option A) (error : string) : list Z + A :=
  match value with Some value => inr value | None => inl (bytes_of_string error) end.
Definition bindField {A B} (value : list Z + A) (next : A -> list Z + B) : list Z + B :=
  match value with inl error => inl error | inr value => next value end.
Local Notation "'get' x ':=' value 'or' error 'in' rest" := (bindField (field value error) (fun x => rest))
  (at level 200, x ident, value at level 100, error at level 100, rest at level 200).

Definition backfillArrival : EventArrival := MkEventArrival 0 0 0 0 0 0 0 0 0 0 Arrival.HistoricalBackfill.

Definition parseAggTradeCsvLine (line : list Z) (identity : ImportIdentity) (sequence : Z) : list Z + TradeRow :=
  match splitCsv line with
  | [f0; f1; f2; f3; f4; f5; f6] =>
      get aggId := parseU64 f0 or "failed to parse agg_trade_id" in
      get priceE8 := parseDecimalE8 f1 or "failed to parse price" in
      get qtyE8 := parseDecimalE8 f2 or "failed to parse quantity" in
      get firstId := parseU64 f3 or "failed to parse first_trade_id" in
      get lastId := parseU64 f4 or "failed to parse last_trade_id" in
      get tsMs := parseI64 f5 or "failed to parse transact_time" in
      get buyerMaker := parseFlag f6 or "failed to parse is_buyer_maker" in
      get tsNs := msToNs tsMs or "aggTrades row is out of supported numeric range" in
      get quoteQtyE8 := scaledNotionalE8 priceE8 qtyE8 or "aggTrades row is out of supported numeric range" in
      let sideBuy := if (buyerMaker : bool) then 0 else 1 in
      inr (MkTradeRow aggId firstId lastId (ii_symbol identity) (ii_exchange identity) (ii_market identity)
             tsNs sequence sequence priceE8 qtyE8 quoteQtyE8 sideBuy (if buyerMaker then 1 else 0) sideBuy
             backfillArrival)
  | _ => inl (bytes_of_string "aggTrades CSV row must have 7 fields")
  end.

Definition parseBookTickerCsvLine (line : list Z) (identity : ImportIdentity) (sequence : Z) : list Z + BookTickerRow :=
  match splitCsv line with
  | [f0; f1; f2; f3; f4; f5; f6] =>
      get updateId := parseU64 f0 or "failed to parse update_id" in
      get bidPriceE8 := parseDecimalE8 f1 or "failed to parse best_bid_price" in
      get bidQtyE8 := parseDecimalE8 f2 or "failed to parse best_bid_qty" in
      get askPriceE8 := parseDecimalE8 f3 or "failed to parse best_ask_price" in
      get askQtyE8 := parseDecimalE8 f4 or "failed to parse best_ask_qty" in
      get eventTimeMs := parseI64 f6 or "failed to parse event_time" in
      get tsNs := msToNs eventTimeMs or "bookTicker event_time is out of supported numeric range" in
      inr (MkBookTickerRow updateId (ii_symbol identity) (ii_exchange identity) (ii_market identity)
             tsNs sequence sequence bidPriceE8 bidQtyE8 askPriceE8 askQtyE8 backfillArrival)
  | _ => inl (bytes_of_string "bookTicker CSV row must have 7 fields")
  end.

(** ** Digits *)

Abbreviation allDigits ds := (Forall (fun c => isDigit c = true) ds).

Lemma digitPrefix_split text : let '(ds, rest) := digitPrefix text in
  text = ds ++ rest /\ allDigits ds /\ startsDigit rest = false.
Proof.
  induction text as [|c text IH]; [done|]. cbn. destruct (isDigit c) eqn:Ec; [|done].
  destruct (digitPrefix text) as [ds rest]. destruct IH as (-> & Hd & Hr). split_and!; [done|by constructor|done].
Qed.
Lemma digitPrefix_app ds rest : allDigits ds -> startsDigit rest = false -> digitPrefix (ds ++ rest) = (ds, rest).
Proof.
  intros Hd Hr. induction Hd as [|c ds Hc Hd IH]; cbn; [|by rewrite Hc, IH].
  destruct rest as [|c rest]; [done|]. cbn in Hr. cbn. by rewrite Hr.
Qed.
Lemma digit_range c : isDigit c = true -> 0 <= c - 48 <= 9.
Proof. unfold isDigit. intros Hc. bsplit. lia. Qed.

Lemma wholeLoop_digits text : forall value, 0 <= value <= i64_max ->
  wholeLoop value text =
  let '(ds, rest) := digitPrefix text in
  if digitsValue value ds <=? i64_max then Some (digitsValue value ds, rest) else None.
Proof.
  induction text as [|c text IH]; intros value Hv; cbn [wholeLoop digitPrefix].
  { cbn. by rewrite (proj2 (Z.leb_le _ _)) by lia. }
  destruct (isDigit c) eqn:Ec.
  2: { cbn. by rewrite (proj2 (Z.leb_le _ _)) by lia. }
  pose proof (digit_range c Ec) as Hc. pose proof (digitPrefix_split text) as Hsplit.
  destruct (Z.ltb_spec ((i64_max - (c - 48)) / 10) value) as [Hlt|Hge].
  - destruct (digitPrefix text) as [ds rest]. destruct Hsplit as (_ & Hd & _).
    assert (i64_max < value * 10 + (c - 48)) as Hbig.
    { pose proof (Z.div_mod (i64_max - (c - 48)) 10 ltac:(lia)).
      pose proof (Z.mod_pos_bound (i64_max - (c - 48)) 10 ltac:(lia)). lia. }
    pose proof (digitsValue_grows ds (value * 10 + (c - 48)) Hd ltac:(unfold i64_max in *; lia)).
    change (digitsValue value (c :: ds)) with (digitsValue (value * 10 + (c - 48)) ds).
    by rewrite (proj2 (Z.leb_gt _ _)) by lia.
  - rewrite IH.
    2: { pose proof (Z.div_mod (i64_max - (c - 48)) 10 ltac:(lia)).
         pose proof (Z.mod_pos_bound (i64_max - (c - 48)) 10 ltac:(lia)). lia. }
    by destruct (digitPrefix text) as [ds rest].
Qed.

Lemma fractionLoop_digits text : forall frac n, (n <= 8)%nat ->
  fractionLoop frac n text =
  let '(ds, rest) := digitPrefix text in
  if (n + length ds <=? 8)%nat then Some (digitsValue frac ds, (n + length ds)%nat, rest) else None.
Proof.
  induction text as [|c text IH]; intros frac n Hn; cbn [fractionLoop digitPrefix].
  { cbn. rewrite Nat.add_0_r. by rewrite (proj2 (Nat.leb_le _ _)) by lia. }
  destruct (isDigit c) eqn:Ec.
  2: { cbn. rewrite Nat.add_0_r. by rewrite (proj2 (Nat.leb_le _ _)) by lia. }
  destruct (Nat.leb_spec 8 n).
  - destruct (digitPrefix text) as [ds rest]. cbn [length]. by rewrite (proj2 (Nat.leb_gt _ _)) by lia.
  - rewrite IH by lia. destruct (digitPrefix text) as [ds rest]. cbn [length].
    rewrite <- Nat.add_succ_comm. done.
Qed.

Lemma scaleLoop_power missing : forall frac, scaleLoop missing frac = frac * 10 ^ Z.of_nat missing.
Proof.
  induction missing as [|missing IH]; intros frac; cbn [scaleLoop]; [cbn; lia|].
  rewrite IH, Nat2Z.inj_succ, Z.pow_succ_r by lia. lia.
Qed.

Lemma digitsValue_bound ds : allDigits ds -> 0 <= digitsValue 0 ds < 10 ^ Z.of_nat (length ds).
Proof.
  intros Hd. induction ds as [|c ds IH] using rev_ind; [done|]. apply Forall_app in Hd as [Hd Hc].
  apply Forall_cons in Hc as [Hc%digit_range _]. specialize (IH Hd).
  rewrite digitsValue_app, length_app, Nat2Z.inj_add, Z.pow_add_r by lia. cbn. lia.
Qed.

(** ** Decimals are exact *)

(** The numerals the format knows and their value in units of [10 ^ -8]. *)
Definition numeral (plus : bool) (ds : list Z) (fraction : option (list Z)) : list Z :=
  (if plus then [Ch.plus] else []) ++ ds ++ from_option (cons Ch.dot) [] fraction.
Definition numeralValue (ds : list Z) (fraction : option (list Z)) : Z :=
  let frac := default [] fraction in
  digitsValue 0 ds * kScaleE8 + digitsValue 0 frac * 10 ^ (8 - Z.of_nat (length frac)).

(** The value of the parts the loops read. *)
Definition decimalOf (text : list Z) : option Z :=
  let '(ds, rest) := digitPrefix text in
  if bool_decide (ds = []) then None
  else
    match rest with
    | [] => Some (numeralValue ds None)
    | c :: rest =>
        if c =? Ch.dot then
          let '(frac, rest) := digitPrefix rest in
          if bool_decide (rest = []) && (length frac <=? 8)%nat then Some (numeralValue ds (Some frac)) else None
        else None
    end.

Lemma final_check value frac : 0 <= value <= i64_max -> 0 <= frac < kScaleE8 ->
  (if (i64_max - frac) / kScaleE8 <? value then None else Some (value * kScaleE8 + frac)) =
  if value * kScaleE8 + frac <=? i64_max then Some (value * kScaleE8 + frac) else None.
Proof.
  intros Hv Hf. unfold kScaleE8 in *. pose proof (Z.div_mod (i64_max - frac) 100000000 ltac:(lia)).
  pose proof (Z.mod_pos_bound (i64_max - frac) 100000000 ltac:(lia)).
  destruct (Z.ltb_spec ((i64_max - frac) / 100000000) value), (Z.leb_spec (value * 100000000 + frac) i64_max); try done; lia.
Qed.

Definition fit (v : Z) : option Z := if v <=? i64_max then Some v else None.

Lemma numeralValue_bounds ds fraction : allDigits ds -> allDigits (default [] fraction) ->
  (length (default [] fraction) <= 8)%nat ->
  0 <= digitsValue 0 ds <= numeralValue ds fraction /\
  0 <= digitsValue 0 (default [] fraction) * 10 ^ (8 - Z.of_nat (length (default [] fraction))) < kScaleE8.
Proof.
  intros Hd Hf Hl. unfold numeralValue. set (frac := default [] fraction) in *.
  pose proof (digitsValue_bound ds Hd). pose proof (digitsValue_bound frac Hf) as Hb.
  assert (0 <= digitsValue 0 frac * 10 ^ (8 - Z.of_nat (length frac)) < kScaleE8) as Hs.
  { change kScaleE8 with (10 ^ 8). replace (10 ^ 8) with (10 ^ Z.of_nat (length frac) * 10 ^ (8 - Z.of_nat (length frac))).
    - assert (0 < 10 ^ (8 - Z.of_nat (length frac))) by (apply Z.pow_pos_nonneg; lia). nia.
    - rewrite <- Z.pow_add_r by lia. f_equal. lia. }
  split; [|done]. unfold kScaleE8 in *. lia.
Qed.

(** The code after the sign. *)
Lemma decimal_body text : startsDigit text = true ->
  ('(value, text) ← wholeLoop 0 text;
   '(frac, fracDigits, text) ←
     match text with
     | c :: rest => if c =? Ch.dot then fractionLoop 0 0 rest else Some (0, 0%nat, text)
     | [] => Some (0, 0%nat, [])
     end;
   if negb (bool_decide (text = [])) then None
   else
     let frac := scaleLoop (8 - fracDigits) frac in
     if (i64_max - frac) / kScaleE8 <? value then None else Some (value * kScaleE8 + frac)) =
  (v ← decimalOf text; fit v).
Proof.
  intros Hs. rewrite wholeLoop_digits by (unfold i64_max; lia). unfold decimalOf.
  pose proof (digitPrefix_split text) as Hsplit. destruct (digitPrefix text) as [ds rest].
  destruct Hsplit as (-> & Hd & Hr).
  assert (ds <> []) as Hne by (intros ->; cbn in Hs; congruence). rewrite (bool_decide_eq_false_2 _ Hne).
  assert (forall fraction, allDigits (default [] fraction) -> (length (default [] fraction) <= 8)%nat ->
    i64_max < digitsValue 0 ds -> fit (numeralValue ds fraction) = None) as Hover.
  { intros fraction Hf Hl Hgt. destruct (numeralValue_bounds ds fraction Hd Hf Hl) as [H1 _].
    unfold fit. by rewrite (proj2 (Z.leb_gt _ _)) by lia. }
  assert (forall fraction, allDigits (default [] fraction) -> (length (default [] fraction) <= 8)%nat ->
    digitsValue 0 ds <= i64_max ->
    (let frac := scaleLoop (8 - length (default [] fraction)) (digitsValue 0 (default [] fraction)) in
     if (i64_max - frac) / kScaleE8 <? digitsValue 0 ds then None
     else Some (digitsValue 0 ds * kScaleE8 + frac)) = fit (numeralValue ds fraction)) as Hfits.
  { intros fraction Hf Hl Hle. destruct (numeralValue_bounds ds fraction Hd Hf Hl) as [H1 H2].
    cbv zeta. rewrite scaleLoop_power, Nat2Z.inj_sub by done. apply final_check; [lia|exact H2]. }
  destruct rest as [|c rest].
  - destruct (Z.leb_spec (digitsValue 0 ds) i64_max) as [Hle|Hgt]; cbn [mbind option_bind].
    + exact (Hfits None (Forall_nil_2 _) (Nat.le_0_l _) Hle).
    + symmetry. apply (Hover None); [constructor|cbn; lia|done].
  - destruct (c =? Ch.dot) eqn:Edot.
    2: { destruct (digitsValue 0 ds <=? i64_max); [|done]. cbn. by rewrite Edot. }
    pose proof (digitPrefix_split rest) as Hsplit. pose proof (fractionLoop_digits rest 0 0 ltac:(lia)) as Hfl.
    destruct (digitPrefix rest) as [frac rest']. destruct Hsplit as (_ & Hf & _). cbn [Nat.add] in Hfl.
    destruct (Nat.leb_spec (length frac) 8) as [Hl|Hl]; rewrite ?andb_false_r, ?andb_true_r;
      destruct (Z.leb_spec (digitsValue 0 ds) i64_max) as [Hle|Hgt]; cbn [mbind option_bind]; rewrite ?Edot, ?Hfl;
      cbn [mbind option_bind]; try done; destruct (bool_decide (rest' = [])); cbn [negb mbind option_bind]; try done.
    + exact (Hfits (Some frac) Hf Hl Hle).
    + symmetry. exact (Hover (Some frac) Hf Hl Hgt).
Qed.

Lemma decimalOf_numeral text v : decimalOf text = Some v <->
  exists ds fraction, text = ds ++ from_option (cons Ch.dot) [] fraction /\ ds <> [] /\ allDigits ds /\
    allDigits (default [] fraction) /\ (length (default [] fraction) <= 8)%nat /\ v = numeralValue ds fraction.
Proof.
  unfold decimalOf. split.
  - pose proof (digitPrefix_split text) as Hsplit. destruct (digitPrefix text) as [ds rest].
    destruct Hsplit as (-> & Hd & Hr). case_bool_decide as Hne; [done|]. destruct rest as [|c rest].
    + intros [= <-]. exists ds, None. split_and!; [done..|constructor|cbn; lia|done].
    + destruct (Z.eqb_spec c Ch.dot) as [->|]; [|done]. pose proof (digitPrefix_split rest) as Hsplit.
      destruct (digitPrefix rest) as [frac rest']. destruct Hsplit as (-> & Hf & _).
      case_bool_decide as Hr'; [|done]. subst rest'. cbn [andb]. destruct (Nat.leb_spec (length frac) 8); [|done].
      intros [= <-]. exists ds, (Some frac). cbn. rewrite app_nil_r. by split_and!.
  - intros (ds & fraction & -> & Hne & Hd & Hf & Hl & ->).
    rewrite digitPrefix_app by (done || by destruct fraction). rewrite bool_decide_eq_false_2 by done.
    destruct fraction as [frac|]; [|done]. cbn in *. rewrite <- (app_nil_r frac) at 1.
    rewrite digitPrefix_app by done. by rewrite (proj2 (Nat.leb_le _ _) Hl).
Qed.

Lemma parseDecimalE8_body text : parseDecimalE8 text =
  match trim text with
  | [] => None
  | c :: rest =>
      if c =? Ch.minus then None
      else v ← decimalOf (if c =? Ch.plus then rest else c :: rest); fit v
  end.
Proof.
  unfold parseDecimalE8. destruct (trim text) as [|c rest]; [done|]. destruct (c =? Ch.minus); [done|].
  set (body := if c =? Ch.plus then rest else c :: rest). destruct (startsDigit body) eqn:Es; cbn [negb].
  - by apply decimal_body.
  - unfold decimalOf. destruct body as [|d body]; [done|]. cbn in *. by rewrite Es.
Qed.

Lemma numeral_starts ds fraction : ds <> [] -> allDigits ds ->
  exists c rest, ds ++ from_option (cons Ch.dot) [] fraction = c :: rest /\ isDigit c = true.
Proof. intros Hne Hd. destruct Hd as [|c ds Hc Hd]; [done|]. cbn. eauto. Qed.

(** C39: A decimal field is read as a number of units of [10 ^ -8] exactly when it is
    an unsigned or plus-signed numeral with at most eight digits after the point, and the
    result is its exact value, which fits 64 bits; nothing is rounded or wrapped. *)
Theorem decimal_exact text v : parseDecimalE8 text = Some v <->
  exists plus ds fraction, trim text = numeral plus ds fraction /\ ds <> [] /\ allDigits ds /\
    allDigits (default [] fraction) /\ (length (default [] fraction) <= 8)%nat /\
    v = numeralValue ds fraction /\ v <= i64_max.
Proof.
  rewrite parseDecimalE8_body. split.
  - destruct (trim text) as [|c rest]; [done|]. destruct (c =? Ch.minus); [done|].
    destruct (decimalOf _) as [v'|] eqn:E; [|done]. cbn. unfold fit. destruct (Z.leb_spec v' i64_max); [|done].
    intros [= ->]. apply decimalOf_numeral in E as (ds & fraction & E & H1 & H2 & H3 & H4 & H5).
    exists (c =? Ch.plus), ds, fraction. split_and!; try done. unfold numeral. rewrite <- E.
    by destruct (Z.eqb_spec c Ch.plus) as [->|].
  - intros (plus & ds & fraction & -> & H1 & H2 & H3 & H4 & H5 & H6). unfold numeral.
    assert (decimalOf (ds ++ from_option (cons Ch.dot) [] fraction) = Some v) as E.
    { apply decimalOf_numeral. exists ds, fraction. by split_and!. }
    assert (fit v = Some v) as Hfit by (unfold fit; by rewrite (proj2 (Z.leb_le _ _) H6)).
    destruct plus; cbn -[decimalOf fit]; [by rewrite E|].
    destruct (numeral_starts ds fraction H1 H2) as (c & rest & Ec & Hc). rewrite Ec in *.
    assert ((c =? Ch.minus) = false /\ (c =? Ch.plus) = false) as [-> ->].
    { unfold isDigit in Hc. unfold Ch.minus, Ch.plus. bsplit. lia. }
    by rewrite E.
Qed.

(** ** Imported rows *)

Lemma decimal_range text v : parseDecimalE8 text = Some v -> 0 <= v <= i64_max.
Proof.
  rewrite parseDecimalE8_body. destruct (trim text) as [|c rest]; [done|]. destruct (c =? Ch.minus); [done|].
  destruct (decimalOf _) as [v'|] eqn:E; [|done]. cbn. unfold fit. destruct (Z.leb_spec v' i64_max); [|done].
  intros [= ->]. apply decimalOf_numeral in E as (ds & fraction & _ & _ & H2 & H3 & H4 & ->).
  pose proof (numeralValue_bounds ds fraction H2 H3 H4). lia.
Qed.

Lemma fromDigits_nonneg text v rest : fromDigits text = Some (v, rest) -> 0 <= v.
Proof.
  unfold fromDigits. pose proof (digitPrefix_split text) as Hs. destruct (digitPrefix text) as [ds rest'].
  destruct Hs as (_ & Hd & _). pose proof (digitsValue_bound ds Hd) as Hb.
  destruct ds as [|c ds]; [done|]. intros E. assert (v = digitsValue 0 (c :: ds)) as -> by congruence. apply Hb.
Qed.
Lemma fromCharsUnsigned_range highest text v rest : fromCharsUnsigned highest text = Some (v, rest) -> 0 <= v <= highest.
Proof.
  unfold fromCharsUnsigned. destruct (fromDigits text) as [[v' rest']|] eqn:E; [|done]. cbn.
  apply fromDigits_nonneg in E. destruct (Z.leb_spec v' highest); [|done]. intros [= <- _]. lia.
Qed.
Lemma parseU64_range text v : parseU64 text = Some v -> in_u64 v.
Proof.
  unfold parseU64. destruct (bool_decide _); [done|].
  destruct (fromCharsUnsigned u64_max (trim text)) as [[v' [|]]|] eqn:E; cbn; try done. intros [= <-].
  apply fromCharsUnsigned_range in E. mlia.
Qed.
Lemma msToNs_range ms v : msToNs ms = Some v -> 0 <= v <= i64_max.
Proof.
  unfold msToNs. destruct (Z.ltb_spec ms 0); [done|]. destruct (Z.ltb_spec (i64_max / 1000000) ms); [done|].
  intros [= <-]. pose proof (Z.div_mod i64_max 1000000 ltac:(lia)). pose proof (Z.mod_pos_bound i64_max 1000000 ltac:(lia)). lia.
Qed.
Lemma scaledNotional_spec priceE8 qtyE8 v : scaledNotionalE8 priceE8 qtyE8 = Some v ->
  v = priceE8 * qtyE8 / kScaleE8 /\ 0 <= v <= i64_max.
Proof.
  unfold scaledNotionalE8. destruct (Z.ltb_spec priceE8 0); [done|]. destruct (Z.ltb_spec qtyE8 0); [done|]. cbn [orb].
  assert (0 <= priceE8 * qtyE8) by nia. rewrite Z.quot_div_nonneg by (unfold kScaleE8; lia).
  pose proof (Z.div_pos (priceE8 * qtyE8) kScaleE8 ltac:(lia) ltac:(unfold kScaleE8; lia)).
  destruct (Z.ltb_spec i64_max (priceE8 * qtyE8 / kScaleE8)); [done|]. intros [= <-]. lia.
Qed.

(** ** Columns *)

Fixpoint joinColumns (columns : list (list Z)) : list Z :=
  match columns with
  | [] => []
  | [column] => column
  | column :: rest => column ++ Ch.comma :: joinColumns rest
  end.
Lemma csvFields_column column rest field : Ch.comma ∉ column ->
  csvFields field (column ++ rest) = csvFields (rev column ++ field) rest.
Proof.
  revert field. induction column as [|c column IH]; intros field Hc; [done|]. cbn.
  apply not_elem_of_cons in Hc as [Hne Hc]. destruct (Z.eqb_spec c Ch.comma); [congruence|]. by rewrite IH, <- app_assoc.
Qed.
Lemma splitCsv_join columns : columns <> [] -> Forall (fun column => Ch.comma ∉ column) columns ->
  splitCsv (joinColumns columns) = map trim columns.
Proof.
  unfold splitCsv. intros Hne Hf. induction Hf as [|column columns Hc Hf IH]; [done|].
  destruct columns as [|next columns].
  - cbn. rewrite <- (app_nil_r column) at 1. rewrite csvFields_column by done. cbn. by rewrite app_nil_r, rev_involutive.
  - change (joinColumns (column :: next :: columns)) with (column ++ Ch.comma :: joinColumns (next :: columns)).
    rewrite csvFields_column by done. cbn [csvFields]. rewrite Z.eqb_refl, app_nil_r, rev_involutive, IH; done.
Qed.
Lemma split_columns line : exists columns, columns <> [] /\ line = joinColumns columns /\
  Forall (fun column => Ch.comma ∉ column) columns.
Proof.
  induction line as [|c line (columns & Hne & -> & Hf)].
  { exists [[]]. split_and!; [done|done|]. constructor; [apply not_elem_of_nil|constructor]. }
  destruct (decide (c = Ch.comma)) as [->|Hc].
  - exists ([] :: columns). split_and!; [done|by destruct columns|]. constructor; [apply not_elem_of_nil|done].
  - destruct Hf as [|column columns Hcol Hf]; [done|]. exists ((c :: column) :: columns).
    split_and!; [done|by destruct columns|]. constructor; [|done]. apply not_elem_of_cons. done.
Qed.

(** Fields are trimmed twice. *)
Definition bare (text : list Z) : Prop := match text with [] => True | c :: _ => isSpaceC c = false end.
Lemma trimFront_bare text : bare (trimFront text).
Proof. induction text as [|c text IH]; cbn; [done|]. by destruct (isSpaceC c) eqn:E. Qed.
Lemma trimFront_fixed text : bare text -> trimFront text = text.
Proof. destruct text as [|c text]; cbn; [done|]. by intros ->. Qed.
Lemma trimFront_suffix text : exists spaces, text = spaces ++ trimFront text.
Proof.
  induction text as [|c text [spaces IH]]; cbn; [by exists []|]. destruct (isSpaceC c); [|by exists []].
  exists (c :: spaces). cbn. by f_equal.
Qed.
Lemma trim_trim text : trim (trim text) = trim text.
Proof.
  unfold trim at 1. assert (bare (trim text)) as Hb.
  { unfold trim. pose proof (trimFront_bare text) as Hb. destruct (trimFront_suffix (rev (trimFront text))) as [spaces E].
    apply (f_equal (@rev Z)) in E. rewrite rev_involutive, rev_app_distr in E. rewrite E in Hb at 1.
    by destruct (rev (trimFront (rev (trimFront text)))). }
  rewrite (trimFront_fixed _ Hb). unfold trim. rewrite rev_involutive. f_equal. apply trimFront_fixed, trimFront_bare.
Qed.

(** What a number, a time and a flag look like. *)
Definition unsignedText (text : list Z) (v : Z) : Prop :=
  exists ds, trim text = ds /\ ds <> [] /\ allDigits ds /\ v = digitsValue 0 ds /\ v <= u64_max.
Definition timeText (text : list Z) (v : Z) : Prop :=
  exists (negative : bool) ds, trim text = (if negative then [Ch.minus] else []) ++ ds /\ ds <> [] /\
    allDigits ds /\ v = if negative then - digitsValue 0 ds else digitsValue 0 ds.
(** Milliseconds as nanoseconds. *)
Definition stampText (text : list Z) (v : Z) : Prop :=
  exists ms, timeText text ms /\ 0 <= ms /\ v = ms * 1000000 /\ v <= i64_max.
Definition flagText (text : list Z) (v : bool) : Prop :=
  map toLower (trim text) = bytes_of_string (if v then "true" else "false") \/
  trim text = bytes_of_string (if v then "1" else "0").

Lemma fromDigits_numeral text v : fromDigits text = Some (v, []) <->
  text <> [] /\ allDigits text /\ v = digitsValue 0 text.
Proof.
  unfold fromDigits. pose proof (digitPrefix_split text) as Hs. split.
  - destruct (digitPrefix text) as [ds rest]. destruct Hs as (-> & Hd & _). destruct ds as [|d ds]; [done|].
    intros E. assert (rest = []) as -> by congruence. rewrite app_nil_r. split_and!; [done|done|congruence].
  - intros (Hne & Hd & ->). rewrite <- (app_nil_r text) at 1. rewrite digitPrefix_app by done. by destruct text.
Qed.
Lemma unsigned_whole highest text v : whole (fromCharsUnsigned highest text) = Some v <->
  fromDigits text = Some (v, []) /\ v <= highest.
Proof.
  unfold fromCharsUnsigned. destruct (fromDigits text) as [[v' rest]|]; cbn; [|by split; [|intros [? _]]].
  destruct (Z.leb_spec v' highest); cbn; destruct rest; split; try (intros [E ?]; congruence || (injection E as ->; lia)); try done.
  intros [= ->]. done.
Qed.
Lemma parseU64_exact text v : parseU64 text = Some v <-> unsignedText text v.
Proof.
  unfold parseU64, unsignedText. case_bool_decide as He.
  { split; [done|]. intros (ds & Hds & Hne & _). congruence. }
  rewrite unsigned_whole, fromDigits_numeral. split.
  - intros [(H1 & H2 & H3) H4]. by exists (trim text).
  - by intros (ds & <- & H1 & H2 & H3 & H4).
Qed.
Lemma digit_not_minus c : isDigit c = true -> (c =? Ch.minus) = false.
Proof. unfold isDigit, Ch.minus. intros Hc. bsplit. lia. Qed.
Lemma signed_whole highest text v : whole (fromCharsSigned highest text) = Some v <->
  match text with
  | c :: rest =>
      if c =? Ch.minus then fromDigits rest = Some (- v, []) /\ - v <= highest + 1
      else fromDigits text = Some (v, []) /\ v <= highest
  | [] => False
  end.
Proof.
  destruct text as [|c rest]; [done|]. cbn [fromCharsSigned]. destruct (c =? Ch.minus); [|apply unsigned_whole].
  destruct (fromDigits rest) as [[w tail]|]; cbn; [|by split; [|intros [? _]]].
  destruct (Z.leb_spec w (highest + 1)); cbn; destruct tail; split; try done.
  - intros [= <-]. by rewrite Z.opp_involutive.
  - intros [[= ->] _]. by rewrite Z.opp_involutive.
  - intros [[=] _].
  - intros [[= ->] ?]. lia.
  - intros [[=] _].
Qed.
(** Times before the epoch are refused later. *)
Lemma parseI64_exact text v : 0 <= v -> parseI64 text = Some v <-> timeText text v /\ v <= i64_max.
Proof.
  intros Hv. unfold parseI64, timeText. case_bool_decide as He.
  { split; [done|]. intros [(negative & ds & Hds & Hne & _) _]. rewrite He in Hds. by destruct negative, ds. }
  rewrite signed_whole. destruct (trim text) as [|c rest]; [done|]. destruct (Z.eqb_spec c Ch.minus) as [->|Hc];
    rewrite fromDigits_numeral; split.
  - intros [(H1 & H2 & H3) H4]. pose proof (digitsValue_bound rest H2). split; [|unfold i64_max; lia].
    exists true, rest. split_and!; [done..|lia].
  - intros [([] & ds & Hds & Hne & Hd & ->) Hle]; cbn in Hds.
    + assert (rest = ds) as -> by congruence. rewrite Z.opp_involutive. pose proof (digitsValue_bound ds Hd).
      split_and!; try done. unfold i64_max. lia.
    + subst ds. apply Forall_cons in Hd as [Hd _]. by apply digit_not_minus in Hd.
  - intros [(H1 & H2 & H3) H4]. split; [|done]. by exists false, (c :: rest).
  - intros [([] & ds & Hds & Hne & Hd & ->) Hle]; cbn in Hds; [congruence|by subst ds].
Qed.
Lemma msToNs_exact ms v : msToNs ms = Some v <-> 0 <= ms /\ v = ms * 1000000 /\ v <= i64_max.
Proof.
  unfold msToNs. pose proof (Z.div_mod i64_max 1000000 ltac:(lia)). pose proof (Z.mod_pos_bound i64_max 1000000 ltac:(lia)).
  destruct (Z.ltb_spec ms 0); [split; [done|lia]|].
  destruct (Z.ltb_spec (i64_max / 1000000) ms); [split; [done|lia]|]. split; [intros [= <-]; lia|intros (_ & -> & _); done].
Qed.
Lemma parseFlag_exact text v : parseFlag text = Some v <-> flagText text v.
Proof.
  unfold parseFlag, flagText, equalsAsciiNoCase.
  change (map toLower (bytes_of_string "true")) with (bytes_of_string "true").
  change (map toLower (bytes_of_string "false")) with (bytes_of_string "false").
  repeat case_bool_decide; cbn [orb]; split; intros E; destruct v; try (injection E as E); try done; try (destruct E; congruence); auto;
    exfalso; destruct E as [E|E];
    repeat match goal with H : trim text = _ |- _ => rewrite H in *; clear H | H : map toLower (trim text) = _ |- _ => rewrite H in *; clear H end;
    try done; by vm_compute in *.
Qed.

Record identityOk (identity : ImportIdentity) : Prop := {
  io_exchange : Forall in_u8 (ii_exchange identity);
  io_market : Forall in_u8 (ii_market identity);
  io_symbol : Forall in_u8 (ii_symbol identity);
}.
Lemma backfill_ok : arrivalOk backfillArrival.
Proof. split; try reflexivity; cbv; split; congruence. Qed.

(** The parser of a text session knows no ticker without an id. *)
Lemma bookTicker_zero_refused row : bt_eventId row = 0 ->
  parseBookTickerLine (renderBookTickerJsonLine row) = (CorruptData, None).
Proof.
  intros Hz. unfold parseBookTickerLine, renderBookTickerJsonLine. rewrite parseArrayStart_here, Hz.
  cbn [mbind option_bind]. scan. done.
Qed.

(** ** Rows against the columns of their line *)

Lemma column_unsigned column v : parseU64 (trim column) = Some v <-> unsignedText column v.
Proof. rewrite parseU64_exact. unfold unsignedText. by rewrite trim_trim. Qed.
Lemma column_decimal column : parseDecimalE8 (trim column) = parseDecimalE8 column.
Proof. unfold parseDecimalE8. by rewrite trim_trim. Qed.
Lemma column_flag column v : parseFlag (trim column) = Some v <-> flagText column v.
Proof. rewrite parseFlag_exact. unfold flagText. by rewrite trim_trim. Qed.
Lemma column_time column v : (exists ms, parseI64 (trim column) = Some ms /\ msToNs ms = Some v) <-> stampText column v.
Proof.
  unfold stampText. split.
  - intros (ms & Hp & (H1 & H2 & H3)%msToNs_exact). exists ms. apply parseI64_exact in Hp as [Hp _]; [|done].
    unfold timeText in *. by rewrite trim_trim in Hp.
  - intros (ms & Hp & H1 & H2 & H3). exists ms. split; [|by apply msToNs_exact]. apply parseI64_exact; [done|].
    unfold timeText in *. rewrite trim_trim. split; [done|lia].
Qed.
Lemma notional_exact priceE8 qtyE8 v : 0 <= priceE8 -> 0 <= qtyE8 ->
  scaledNotionalE8 priceE8 qtyE8 = Some v <-> v = priceE8 * qtyE8 / kScaleE8 /\ v <= i64_max.
Proof.
  intros Hp Hq. split; [intros H%scaledNotional_spec; lia|]. intros [-> Hle]. unfold scaledNotionalE8.
  rewrite (proj2 (Z.ltb_ge _ _) Hp), (proj2 (Z.ltb_ge _ _) Hq). cbn [orb].
  rewrite Z.quot_div_nonneg by (unfold kScaleE8; nia). by rewrite (proj2 (Z.ltb_ge _ _)).
Qed.

(** Seven columns between commas. *)
Definition sevenColumns (line c0 c1 c2 c3 c4 c5 c6 : list Z) : Prop :=
  line = joinColumns [c0; c1; c2; c3; c4; c5; c6] /\
  Forall (fun column => Ch.comma ∉ column) [c0; c1; c2; c3; c4; c5; c6].
Lemma split_seven line f0 f1 f2 f3 f4 f5 f6 : splitCsv line = [f0; f1; f2; f3; f4; f5; f6] ->
  exists c0 c1 c2 c3 c4 c5 c6, sevenColumns line c0 c1 c2 c3 c4 c5 c6 /\
    f0 = trim c0 /\ f1 = trim c1 /\ f2 = trim c2 /\ f3 = trim c3 /\ f4 = trim c4 /\ f5 = trim c5 /\ f6 = trim c6.
Proof.
  destruct (split_columns line) as (columns & Hne & Hl & Hf). rewrite Hl, splitCsv_join by done. intros E.
  destruct columns as [|c0 [|c1 [|c2 [|c3 [|c4 [|c5 [|c6 [|]]]]]]]]; try discriminate E.
  exists c0, c1, c2, c3, c4, c5, c6. split; [by split|]. cbn [map] in E. split_and!; congruence.
Qed.
Lemma seven_split line c0 c1 c2 c3 c4 c5 c6 : sevenColumns line c0 c1 c2 c3 c4 c5 c6 ->
  splitCsv line = [trim c0; trim c1; trim c2; trim c3; trim c4; trim c5; trim c6].
Proof. intros [-> Hf]. by rewrite splitCsv_join. Qed.

(** agg_trade_id, price, quantity, first_trade_id, last_trade_id, transact_time,
    is_buyer_maker. *)
Definition tradeOfLine (line : list Z) (identity : ImportIdentity) (sequence : Z) (row : TradeRow) : Prop :=
  exists c0 c1 c2 c3 c4 c5 c6 (maker : bool), sevenColumns line c0 c1 c2 c3 c4 c5 c6 /\
    unsignedText c0 (tr_tradeId row) /\ parseDecimalE8 c1 = Some (tr_priceE8 row) /\
    parseDecimalE8 c2 = Some (tr_qtyE8 row) /\ unsignedText c3 (tr_firstTradeId row) /\
    unsignedText c4 (tr_lastTradeId row) /\ stampText c5 (tr_tsNs row) /\ flagText c6 maker /\
    tr_isBuyerMaker row = Z.b2z maker /\ tr_side row = Z.b2z (negb maker) /\ tr_sideBuy row = tr_side row /\
    (tr_quoteQtyE8 row = tr_priceE8 row * tr_qtyE8 row / kScaleE8 /\ tr_quoteQtyE8 row <= i64_max) /\
    tr_symbol row = ii_symbol identity /\ tr_exchange row = ii_exchange identity /\ tr_market row = ii_market identity /\
    tr_captureSeq row = sequence /\ tr_ingestSeq row = sequence /\ tr_arrival row = backfillArrival.
(** update_id, best_bid_price, best_bid_qty, best_ask_price, best_ask_qty, transaction_time
    (not used), event_time. *)
Definition tickerOfLine (line : list Z) (identity : ImportIdentity) (sequence : Z) (row : BookTickerRow) : Prop :=
  exists c0 c1 c2 c3 c4 c5 c6, sevenColumns line c0 c1 c2 c3 c4 c5 c6 /\
    unsignedText c0 (bt_eventId row) /\ parseDecimalE8 c1 = Some (bt_bidPriceE8 row) /\
    parseDecimalE8 c2 = Some (bt_bidQtyE8 row) /\ parseDecimalE8 c3 = Some (bt_askPriceE8 row) /\
    parseDecimalE8 c4 = Some (bt_askQtyE8 row) /\ stampText c6 (bt_tsNs row) /\
    bt_symbol row = ii_symbol identity /\ bt_exchange row = ii_exchange identity /\ bt_market row = ii_market identity /\
    bt_captureSeq row = sequence /\ bt_ingestSeq row = sequence /\ bt_arrival row = backfillArrival.

Local Ltac take_field H :=
  match type of H with
  | bindField (field ?value _) _ = _ =>
      let E := fresh "E" in destruct value eqn:E; cbn [field bindField] in H; [|discriminate H]
  end.
Local Ltac give_field E := rewrite E; cbn [field bindField].

Lemma trade_of_line line identity sequence row :
  parseAggTradeCsvLine line identity sequence = inr row <-> tradeOfLine line identity sequence row.
Proof.
  unfold parseAggTradeCsvLine, tradeOfLine. split.
  - destruct (splitCsv line) as [|f0 [|f1 [|f2 [|f3 [|f4 [|f5 [|f6 [|]]]]]]]] eqn:Es; try done.
    destruct (split_seven _ _ _ _ _ _ _ _ Es) as (c0 & c1 & c2 & c3 & c4 & c5 & c6 & Hc & -> & -> & -> & -> & -> & -> & ->).
    intros Hr. do 9 take_field Hr. injection Hr as <-. rewrite column_decimal in *.
    match goal with H : parseFlag _ = Some ?maker |- _ => exists c0, c1, c2, c3, c4, c5, c6, maker; apply column_flag in H end.
    pose proof (decimal_range _ _ E0). pose proof (decimal_range _ _ E1). apply notional_exact in E7; [|lia..]. cbn.
    rewrite <- !column_unsigned. split_and!; try done; [apply column_time; eauto|by destruct b..|lia|lia].
  - intros (c0 & c1 & c2 & c3 & c4 & c5 & c6 & maker & Hc & H0 & H1 & H2 & H3 & H4 & H5 & H6 & S1 & S2 & S3 & HQ & I1 & I2 & I3 & Q1 & Q2 & A).
    rewrite (seven_split _ _ _ _ _ _ _ _ Hc). apply column_unsigned in H0, H3, H4. apply column_flag in H6.
    apply column_time in H5 as (ms & H5 & H5'). rewrite <- column_decimal in H1, H2.
    pose proof (decimal_range _ _ H1). pose proof (decimal_range _ _ H2).
    apply (notional_exact (tr_priceE8 row) (tr_qtyE8 row)) in HQ; [|lia..].
    give_field H0. give_field H1. give_field H2. give_field H3. give_field H4. give_field H5. give_field H6. give_field H5'. give_field HQ.
    f_equal. destruct row. cbn in *. subst. by destruct maker.
Qed.
Lemma ticker_of_line line identity sequence row :
  parseBookTickerCsvLine line identity sequence = inr row <-> tickerOfLine line identity sequence row.
Proof.
  unfold parseBookTickerCsvLine, tickerOfLine. split.
  - destruct (splitCsv line) as [|f0 [|f1 [|f2 [|f3 [|f4 [|f5 [|f6 [|]]]]]]]] eqn:Es; try done.
    destruct (split_seven _ _ _ _ _ _ _ _ Es) as (c0 & c1 & c2 & c3 & c4 & c5 & c6 & Hc & -> & -> & -> & -> & -> & -> & ->).
    intros Hr. do 7 take_field Hr. injection Hr as <-. rewrite column_decimal in *.
    exists c0, c1, c2, c3, c4, c5, c6. cbn. rewrite <- column_unsigned. split_and!; try done. apply column_time; eauto.
  - intros (c0 & c1 & c2 & c3 & c4 & c5 & c6 & Hc & H0 & H1 & H2 & H3 & H4 & H6 & I1 & I2 & I3 & Q1 & Q2 & A).
    rewrite (seven_split _ _ _ _ _ _ _ _ Hc). apply column_unsigned in H0. rewrite <- column_decimal in H1, H2, H3, H4.
    apply column_time in H6 as (ms & H6 & H6').
    give_field H0. give_field H1. give_field H2. give_field H3. give_field H4. give_field H6. give_field H6'.
    f_equal. destruct row. cbn in *. by subst.
Qed.
Lemma unsignedText_range text v : unsignedText text v -> in_u64 v.
Proof. intros H%parseU64_exact. by eapply parseU64_range. Qed.
Lemma stampText_range text v : stampText text v -> 0 <= v <= i64_max.
Proof. intros (ms & _ & H1 & -> & H2). lia. Qed.

(** C40: A line of an archive is imported exactly when its seven columns are what the format
    asks for, and the row says what they say: the identifiers, price and quantity exactly, the
    time in nanoseconds, the side from the buyer-maker flag, and for a ticker both prices and
    quantities; the names and the sequence are those of the import, the notional value is
    rounded down and the row is marked as historical backfill. A trade and a ticker with a
    nonzero update id are written to a text session and loaded unchanged; a ticker whose
    update id is zero is imported too, but the line written for it is refused by the parser. *)
Theorem imported_rows_stored line identity sequence : identityOk identity -> in_i64 sequence ->
  (forall row, parseAggTradeCsvLine line identity sequence = inr row <-> tradeOfLine line identity sequence row) /\
  (forall row, parseBookTickerCsvLine line identity sequence = inr row <-> tickerOfLine line identity sequence row) /\
  (forall row, parseAggTradeCsvLine line identity sequence = inr row ->
     parseTradeLine (renderTradeJsonLine row) = (Ok, Some row) /\ isHistoricalBackfill (tr_arrival row) = true) /\
  (forall row, parseBookTickerCsvLine line identity sequence = inr row ->
     isHistoricalBackfill (bt_arrival row) = true /\
     parseBookTickerLine (renderBookTickerJsonLine row) =
       if bt_eventId row =? 0 then (CorruptData, None) else (Ok, Some row)).
Proof.
  intros [I1 I2 I3] Hseq. split; [intros row; apply trade_of_line|]. split; [intros row; apply ticker_of_line|].
  split; intros row; rewrite ?trade_of_line, ?ticker_of_line.
  - intros (c0 & c1 & c2 & c3 & c4 & c5 & c6 & maker & _ & H0%unsignedText_range & H1%decimal_range & H2%decimal_range
      & H3%unsignedText_range & H4%unsignedText_range & H5%stampText_range & _ & S1 & S2 & S3 & [HQ' HQ] & N1 & N2 & N3 & Q1 & Q2 & A).
    split; [|by rewrite A]. assert (0 <= tr_quoteQtyE8 row) by (rewrite HQ'; apply Z.div_pos; unfold kScaleE8; nia).
    apply trade_written. split; rewrite ?N1, ?N2, ?N3, ?Q1, ?Q2, ?A, ?S1, ?S3, ?S2; [done|done|split_and!; mlia| |apply backfill_ok].
    by destruct maker.
  - intros (c0 & c1 & c2 & c3 & c4 & c5 & c6 & _ & H0%unsignedText_range & H1%decimal_range & H2%decimal_range
      & H3%decimal_range & H4%decimal_range & H6%stampText_range & N1 & N2 & N3 & Q1 & Q2 & A).
    split; [by rewrite A|]. destruct (Z.eqb_spec (bt_eventId row) 0) as [Hz|Hz].
    + by apply bookTicker_zero_refused.
    + apply bookTicker_written. split; rewrite ?N1, ?N2, ?N3, ?Q1, ?Q2, ?A; [done|done|split_and!; mlia|apply backfill_ok].
Qed.

Lemma imported_rows_stored_witness :
  let identity := MkImportIdentity (bytes_of_string "binance") (bytes_of_string "futures_usd") (bytes_of_string "BTCUSDT") in
  (exists row, parseAggTradeCsvLine (bytes_of_string "1,2.5,3,10,12,1700000000000,true") identity 7 = inr row /\
    tr_priceE8 row = 250000000 /\ tr_quoteQtyE8 row = 750000000 /\ tr_side row = 0 /\
    parseTradeLine (renderTradeJsonLine row) = (Ok, Some row)) /\
  (exists row, parseBookTickerCsvLine (bytes_of_string "5,2.5,3,2.75,4,1,1700000000000") identity 7 = inr row /\
    bt_bidPriceE8 row = 250000000 /\ bt_askPriceE8 row = 275000000 /\
    parseBookTickerLine (renderBookTickerJsonLine row) = (Ok, Some row)).
Proof.
  assert (identityOk (MkImportIdentity (bytes_of_string "binance") (bytes_of_string "futures_usd")
    (bytes_of_string "BTCUSDT"))) as Hi.
  { split; cbv -[in_u8]; repeat constructor; unfold in_u8; lia. }
  split.
  - destruct (imported_rows_stored (bytes_of_string "1,2.5,3,10,12,1700000000000,true") _ 7 Hi) as (_ & _ & H & _);
      [unfold in_i64; lia|].
    eexists. split; [vm_compute; reflexivity|]. split; [reflexivity|]. split; [reflexivity|]. split; [reflexivity|].
    apply H. vm_compute. reflexivity.
  - destruct (imported_rows_stored (bytes_of_string "5,2.5,3,2.75,4,1,1700000000000") _ 7 Hi) as (_ & _ & _ & H);
      [unfold in_i64; lia|].
    eexists. split; [vm_compute; reflexivity|]. split; [reflexivity|]. split; [reflexivity|].
    refine (proj2 (H _ _)). vm_compute. reflexivity.
Defined.
