(* ===== verification/ServiceConfig.v ===== *)
(** * ServiceConfig: the profile of the recorder service

    Models src/src/Service/src/RecorderServiceConfig.cpp: the line-based profile the service is
    started with.  The file is its contents, or [None] when it cannot be read; error texts are
    not modelled.

    Theorem: every profile that is accepted is complete and within the bounds of the control
    protocol, which carries it to the server unchanged.  The loops over lines and symbols are
    given the length of their text as fuel; [profileLines_fuel] and [profileSymbols_fuel] show
    that more fuel changes nothing. *)
From stdpp Require Import base list numbers strings.
From S2P Require Import Prelude Codec Layout Format DepthTransaction Disk Metadata BlockCodec Cut Segment ActiveCursor.
From S2P Require Import Json Vision ServiceProtocol ServiceRun.
Local Open Scope Z_scope.

Definition isBlank (c : Z) : bool := (c =? 32) || (c =? 9) || (c =? 13).
Fixpoint trimBlankFront (text : list Z) : list Z :=
  match text with
  | c :: rest => if isBlank c then trimBlankFront rest else text
  | [] => []
  end.
Definition trimBlank (text : list Z) : list Z := rev (trimBlankFront (rev (trimBlankFront text))).

(** [find]: what stands before the first [c], and after it. *)
Fixpoint splitAt (c : Z) (text : list Z) : option (list Z * list Z) :=
  match text with
  | [] => None
  | x :: rest => if x =? c then Some ([], rest) else '(before, after) ← splitAt c rest; Some (x :: before, after)
  end.

(** The symbols of a venue; [fuel] is the length of the text, [room] how many more may follow. *)
Fixpoint profileSymbols (fuel room : nat) (symbols : list Z) : option (list (list Z)) :=
  match fuel, symbols with
  | _, [] => Some []
  | O, _ => None
  | S fuel, _ =>
      let symbol := trimBlank (default symbols (fst <$> splitAt Ch.comma symbols)) in
      if bool_decide (symbol = []) || (128 <? size symbol) then None
      else
        match room with
        | O => None
        | S room =>
            match splitAt Ch.comma symbols with
            | None => Some [symbol]
            | Some (_, []) => None
            | Some (_, rest) => symbols ← profileSymbols fuel room rest; Some (symbol :: symbols)
            end
        end
  end.
(** [exchange|market|*] or [exchange|market|symbol,symbol]. *)
Definition profileVenue (value : list Z) : option RecorderVenue :=
  '(exchange, value) ← splitAt 124 value;
  '(market, symbols) ← splitAt 124 value;
  if bool_decide (splitAt 124 symbols <> None) then None
  else
    let exchange := trimBlank exchange in
    let market := trimBlank market in
    let symbols := trimBlank symbols in
    if bool_decide (exchange = []) || bool_decide (market = []) || bool_decide (symbols = []) ||
       (48 <? size exchange) || (48 <? size market) then None
    else if bool_decide (symbols = bytes_of_string "*") then Some (MkRecorderVenue exchange market [] true)
    else
      instruments ← profileSymbols (length symbols) 4096 symbols;
      Some (MkRecorderVenue exchange market instruments false).

#[export] Instance RecorderServiceConfig_eta : Eta RecorderServiceConfig := fun r =>
  MkRecorderServiceConfig (sc_workspaceRoot r) (sc_parserTemplate r) (sc_envPath r) (sc_outputRoot r) (sc_venues r)
    (sc_channelMask r) (sc_durationSec r) (sc_maximumBytes r) (sc_segmentBytes r) (sc_retainedCompressedBytes r)
    (sc_maximumReferenceBytes r) (sc_writerQueueRecords r).
Definition defaultConfig : RecorderServiceConfig :=
  MkRecorderServiceConfig [] [] [] [] [] 7 3600 (1024 * 1024 * 1024) (64 * 1024 * 1024) (16 * 1024 * 1024)
    (64 * 1024 * 1024) 8192.

(** A field other than a venue. *)
Definition profileField (key value : list Z) (config : RecorderServiceConfig) : option RecorderServiceConfig :=
  let named name := bool_decide (key = bytes_of_string name) in
  if named "workspaceRoot" then Some (config <| sc_workspaceRoot := value |>)
  else if named "parserTemplate" then Some (config <| sc_parserTemplate := value |>)
  else if named "envPath" then Some (config <| sc_envPath := value |>)
  else if named "outputRoot" then Some (config <| sc_outputRoot := value |>)
  else
    number ← whole (fromCharsUnsigned u64_max value);
    if named "channelMask" then if 255 <? number then None else Some (config <| sc_channelMask := number |>)
    else if named "durationSec" then Some (config <| sc_durationSec := number |>)
    else if named "maximumBytes" then Some (config <| sc_maximumBytes := number |>)
    else if named "segmentBytes" then Some (config <| sc_segmentBytes := number |>)
    else if named "retainedCompressedBytes" then Some (config <| sc_retainedCompressedBytes := number |>)
    else if named "maximumReferenceBytes" then Some (config <| sc_maximumReferenceBytes := number |>)
    else if named "writerQueueRecords" then if 65536 <? number then None else Some (config <| sc_writerQueueRecords := number |>)
    else None.

(** One line: the keys seen and the configuration; [None] is a refusal. *)
Definition profileLine (line : list Z) (state : list (list Z) * RecorderServiceConfig)
  : option (list (list Z) * RecorderServiceConfig) :=
  let '(seen, config) := state in
  let line := trimBlank line in
  match line with
  | [] => Some state
  | c :: _ =>
      if (c =? 35) || (c =? 59) then Some state
      else
        '(key, value) ← splitAt 61 line;
        let key := trimBlank key in
        let value := trimBlank value in
        if bool_decide (key = bytes_of_string "venue") then
          if 64 <=? size (sc_venues config) then None
          else venue ← profileVenue value; Some (seen, config <| sc_venues ::= fun venues => venues ++ [venue] |>)
        else if bool_decide (key ∈ seen) then None
        else config ← profileField key value config; Some (key :: seen, config)
  end.
(** The loop over the lines; [fuel] is the length of the text.  A venue is appended and a field assigned as the last
    step of its line, so a refused line leaves the configuration as it found it. *)
Fixpoint profileLines (fuel : nat) (remaining : list Z) (state : list (list Z) * RecorderServiceConfig)
  : bool * RecorderServiceConfig :=
  match fuel, remaining with
  | _, [] => (true, snd state)
  | O, _ => (false, snd state)
  | S fuel, _ =>
      let '(line, rest) := default (remaining, []) (splitAt 10 remaining) in
      match profileLine line state with
      | None => (false, snd state)
      | Some state => profileLines fuel rest state
      end
  end.
(** What the caller sees: the configuration holds what was read before a refusal. *)
Definition loadRecorderServiceConfig (file : option (list Z)) : Status * RecorderServiceConfig :=
  match file with
  | None => (IoError, defaultConfig)
  | Some text =>
      if 64 * 1024 <? size text then (IoError, defaultConfig)
      else if bool_decide (0 ∈ text) then (InvalidArgument, defaultConfig)
      else
        let '(read, config) := profileLines (length text) text ([], defaultConfig) in
        if negb read ||
           (bool_decide (sc_workspaceRoot config = []) || bool_decide (sc_parserTemplate config = []) ||
            bool_decide (sc_envPath config = []) || bool_decide (sc_outputRoot config = []) ||
            bool_decide (sc_venues config = []))
        then (InvalidArgument, config) else (Ok, config)
  end.

(** ** What an accepted profile holds *)

Record venueOk (venue : RecorderVenue) : Prop := {
  vo_exchange : 1 <= size (ve_exchange venue) <= 48;
  vo_market : 1 <= size (ve_market venue) <= 48;
  vo_count : size (ve_instruments venue) <= 4096;
  vo_symbols : Forall (fun symbol => 1 <= size symbol <= 128) (ve_instruments venue);
  vo_universe : ve_fullUniverse venue = true <-> ve_instruments venue = [];
}.
Lemma nonempty_size {A} (xs : list A) : xs <> [] -> 1 <= size xs.
Proof. destruct xs; [done|cbn; lia]. Qed.

Lemma profileSymbols_ok fuel room symbols out : profileSymbols fuel room symbols = Some out ->
  size out <= Z.of_nat room /\ Forall (fun symbol => 1 <= size symbol <= 128) out /\ (symbols <> [] -> out <> []).
Proof.
  revert room symbols out. induction fuel as [|fuel IH]; intros room symbols out; destruct symbols as [|c rest]; cbn [profileSymbols]; try done.
  1, 2: intros [= <-]; split; [cbn; lia|]; split; [constructor|done].
  generalize (c :: rest). intros text. set (symbol := trimBlank _).
  case_bool_decide as He; [done|]. cbn [orb]. destruct (Z.ltb_spec 128 (size symbol)) as [|Hs]; [done|].
  pose proof (nonempty_size _ He) as H1. destruct room as [|room]; [done|].
  destruct (splitAt Ch.comma text) as [[before [|x after]]|]; [done| |].
  - destruct (profileSymbols fuel room (x :: after)) as [more|] eqn:E; [|done]. intros [= <-].
    destruct (IH _ _ _ E) as (A & B & _). split; [cbn [length]; lia|]. split; [by constructor|done].
  - intros [= <-]. split; [cbn [length]; lia|]. split; [by repeat constructor|done].
Qed.

Lemma profileVenue_ok value venue : profileVenue value = Some venue -> venueOk venue.
Proof.
  unfold profileVenue. destruct (splitAt 124 value) as [[exchange more]|]; [|done]. cbn [mbind option_bind].
  destruct (splitAt 124 more) as [[market symbols]|]; [|done]. cbn [mbind option_bind].
  destruct (bool_decide (splitAt 124 symbols <> None)); [done|]. cbv zeta.
  case_bool_decide as He; [done|]. case_bool_decide as Hm; [done|]. case_bool_decide as Hy; [done|]. cbn [orb].
  destruct (Z.ltb_spec 48 (size (trimBlank exchange))) as [|Hx]; [done|].
  destruct (Z.ltb_spec 48 (size (trimBlank market))) as [|Hk]; [done|]. cbn [orb].
  apply nonempty_size in He, Hm.
  case_bool_decide; [intros [= <-]; split; cbn -[Z.of_nat]; [lia|lia|lia|by constructor|done]|].
  destruct (profileSymbols _ _ _) as [out|] eqn:E; [|done]. intros [= <-].
  destruct (profileSymbols_ok _ _ _ _ E) as (A & B & C). split; cbn -[Z.of_nat]; [lia|lia|lia|done|].
  split; [done|]. intros ->. by destruct (C Hy).
Qed.

(** Kept by every line. *)
Record profileOk (config : RecorderServiceConfig) : Prop := {
  po_venues : Forall venueOk (sc_venues config);
  po_count : size (sc_venues config) <= 64;
  po_mask : 0 <= sc_channelMask config <= 255;
  po_duration : in_u64 (sc_durationSec config);
  po_maximum : in_u64 (sc_maximumBytes config);
  po_segment : in_u64 (sc_segmentBytes config);
  po_retained : in_u64 (sc_retainedCompressedBytes config);
  po_reference : in_u64 (sc_maximumReferenceBytes config);
  po_queue : 0 <= sc_writerQueueRecords config <= 65536;
}.
Lemma profileField_ok key value config config' : profileField key value config = Some config' ->
  profileOk config -> profileOk config'.
Proof.
  intros H [P1 P2 P3 P4 P5 P6 P7 P8 P9]. revert H. unfold profileField. cbv zeta.
  do 4 (case_bool_decide; [intros [= <-]; by split|]).
  destruct (whole (fromCharsUnsigned u64_max value)) as [number|] eqn:E; [|done]. cbn [mbind option_bind].
  assert (Hn : in_u64 number).
  { unfold whole in E. destruct (fromCharsUnsigned u64_max value) as [[v [|]]|] eqn:F; [|done|done]. injection E as <-.
    apply fromCharsUnsigned_range in F. mlia. }
  case_bool_decide; [destruct (Z.ltb_spec 255 number); [done|intros [= <-]; split; cbn; mlia || done]|].
  do 5 (case_bool_decide; [intros [= <-]; by split|]).
  case_bool_decide; [|done]. destruct (Z.ltb_spec 65536 number); [done|intros [= <-]; split; cbn; mlia || done].
Qed.

Lemma profileLine_ok line state state' : profileLine line state = Some state' ->
  profileOk (snd state) -> profileOk (snd state').
Proof.
  destruct state as [seen config]. unfold profileLine. cbv zeta. cbn [snd].
  destruct (trimBlank line) as [|c rest]; [by intros [= <-]|].
  destruct ((c =? 35) || (c =? 59)); [by intros [= <-]|].
  destruct (splitAt 61 (c :: rest)) as [[key value]|]; [|done]. cbn [mbind option_bind].
  case_bool_decide.
  - destruct (Z.leb_spec 64 (size (sc_venues config))) as [|Hn]; [done|].
    destruct (profileVenue _) as [venue|] eqn:E; [|done]. intros [= <-] [P1 P2]. apply profileVenue_ok in E.
    split; cbn -[Z.of_nat]; try done; [by apply Forall_app_2; [|constructor]|rewrite length_app; cbn; lia].
  - case_bool_decide; [done|]. destruct (profileField _ _ _) as [after|] eqn:E; [|done]. intros [= <-]. by eapply profileField_ok.
Qed.

Lemma profileLines_ok fuel remaining state : profileOk (snd state) -> profileOk (snd (profileLines fuel remaining state)).
Proof.
  revert remaining state. induction fuel as [|fuel IH]; intros [|c rest] state; cbn [profileLines]; try done.
  destruct (default _ _) as [line more]. destruct (profileLine line state) as [after|] eqn:E; [|done].
  intros H. apply IH. by eapply profileLine_ok.
Qed.

(** The whole text is read: the fuel is never what ends the loop. *)
Lemma splitAt_shorter c text before after : splitAt c text = Some (before, after) -> (length after < length text)%nat.
Proof.
  revert before. induction text as [|x text IH]; intros before; cbn; [done|].
  destruct (x =? c); [intros [= _ <-]; lia|]. destruct (splitAt c text) as [[b a]|]; [|done]. intros [= _ <-].
  specialize (IH _ eq_refl). lia.
Qed.
Lemma profileLines_fuel fuel more remaining state : (length remaining <= fuel)%nat ->
  profileLines (fuel + more) remaining state = profileLines fuel remaining state.
Proof.
  revert remaining state. induction fuel as [|fuel IH]; intros [|c rest] state Hl; cbn [profileLines length plus] in *; try lia.
  { by destruct more. } { done. }
  destruct (splitAt 10 (c :: rest)) as [[line after]|] eqn:E; cbn [default from_option id].
  - apply splitAt_shorter in E. cbn [length] in E. destruct (profileLine line state); [|done]. apply IH. lia.
  - destruct (profileLine (c :: rest) state); [|done]. apply IH. cbn. lia.
Qed.

Lemma profileSymbols_fuel fuel more room symbols : (length symbols <= fuel)%nat ->
  profileSymbols (fuel + more) room symbols = profileSymbols fuel room symbols.
Proof.
  revert room symbols. induction fuel as [|fuel IH]; intros room [|c rest] Hl; cbn [profileSymbols length plus] in *; try lia.
  { by destruct more. } { done. }
  destruct (_ || _); [done|]. destruct room as [|room]; [done|].
  destruct (splitAt Ch.comma (c :: rest)) as [[before [|x after]]|] eqn:E; [done| |done].
  apply splitAt_shorter in E. cbn [length] in E. rewrite IH; [done|cbn; lia].
Qed.

(** A profile that is accepted names the four paths, between one and 64 venues, each with an exchange
    and a market of at most 48 bytes and with either the whole universe or between one and 4096
    symbols of one to 128 bytes; its mask and its numbers fit their types.  When the control
    protocol can carry it, the server reads exactly this configuration. *)
Theorem profile_accepted file config : loadRecorderServiceConfig file = (Ok, config) ->
  (Forall (fun path => path <> []) [sc_workspaceRoot config; sc_parserTemplate config; sc_envPath config; sc_outputRoot config] /\
   sc_venues config <> [] /\ profileOk config) /\
  (out_valid (encodeConfig config newEncoder) = true ->
   exists d, decodeConfig (newDecoder (out_bytes (encodeConfig config newEncoder))) = (config, d) /\ done d = true).
Proof.
  unfold loadRecorderServiceConfig. destruct file as [text|]; [|done].
  destruct (64 * 1024 <? size text); [done|]. case_bool_decide; [done|].
  assert (H0 : profileOk defaultConfig) by (split; cbn; mlia || constructor).
  pose proof (profileLines_ok (length text) text ([], defaultConfig) H0) as Hok.
  destruct (profileLines _ _ _) as [[|] found]; cbn [negb orb]; [|done]. cbn [snd] in Hok.
  repeat (case_bool_decide; cbn [orb]; [done|]). intros [= <-].
  split; [split; [by repeat constructor|done]|]. apply service_config_decoded. destruct Hok. split; mlia || done.
Qed.

Definition sampleProfile : list Z := bytes_of_string "# profile
workspaceRoot = /w
parserTemplate=/t
envPath=/e
outputRoot=/o
channelMask=3
venue=binance|futures|BTCUSDT, ETHUSDT
venue = okx | swap | *
".
Definition sampleConfig : RecorderServiceConfig :=
  defaultConfig <| sc_workspaceRoot := bytes_of_string "/w" |> <| sc_parserTemplate := bytes_of_string "/t" |>
    <| sc_envPath := bytes_of_string "/e" |> <| sc_outputRoot := bytes_of_string "/o" |> <| sc_channelMask := 3 |>
    <| sc_venues := [MkRecorderVenue (bytes_of_string "binance") (bytes_of_string "futures")
                       [bytes_of_string "BTCUSDT"; bytes_of_string "ETHUSDT"] false;
                     MkRecorderVenue (bytes_of_string "okx") (bytes_of_string "swap") [] true] |>.
Lemma profile_accepted_witness :
  loadRecorderServiceConfig (Some sampleProfile) = (Ok, sampleConfig) /\ profileOk sampleConfig /\
  exists d, decodeConfig (newDecoder (out_bytes (encodeConfig sampleConfig newEncoder))) = (sampleConfig, d) /\ done d = true.
Proof.
  assert (H : loadRecorderServiceConfig (Some sampleProfile) = (Ok, sampleConfig)) by (vm_compute; reflexivity).
  destruct (profile_accepted _ _ H) as [(_ & _ & Hok) Hsent]. split; [exact H|]. split; [exact Hok|].
  apply Hsent. vm_compute. reflexivity.
Defined.

(** A field given twice, an empty symbol, a venue without symbols and a number with a unit are refused. *)
Example profile_refused :
  map (fun line => fst (loadRecorderServiceConfig (Some (sampleProfile ++ bytes_of_string line))))
    ["envPath=/x"; "venue=okx|spot|BTC,,ETH"; "venue=okx|spot"; "durationSec=12s"; "durationSec=12"]%string =
  [InvalidArgument; InvalidArgument; InvalidArgument; InvalidArgument; Ok].
Proof. vm_compute. reflexivity. Qed.
