(* ===== verification/Calendar.v ===== *)
(** * Calendar: dates of the history import

    The dates of src/src/Runtime/src/History/BinanceVisionFormat.cpp.  Days of [std::chrono]
    are counted from 1970-01-01 in the proleptic Gregorian calendar; [toSysDays] and
    [fromSysDays] are the conversions of the library.

    Theorems: days and dates determine each other, both ways and in order; a range of dates
    lists every day once. *)
From stdpp Require Import base list numbers strings sorting.
From S2P Require Import Prelude Codec Replay ReplayTimeline.
Local Open Scope Z_scope.

(** ** Dates *)

Record Date := MkDate { da_year : Z; da_month : Z; da_day : Z }.
#[export] Instance Date_eq_dec : EqDecision Date.
Proof. solve_decision. Defined.

Definition dateLess (lhs rhs : Date) : bool :=
  if negb (da_year lhs =? da_year rhs) then da_year lhs <? da_year rhs
  else if negb (da_month lhs =? da_month rhs) then da_month lhs <? da_month rhs
  else da_day lhs <? da_day rhs.
Definition dateEqual (lhs rhs : Date) : bool :=
  (da_year lhs =? da_year rhs) && (da_month lhs =? da_month rhs) && (da_day lhs =? da_day rhs).

(** The calendar of [std::chrono]: [year_month_day::ok] and the count of days. *)
Definition isLeap (year : Z) : bool :=
  (year mod 4 =? 0) && (negb (year mod 100 =? 0) || (year mod 400 =? 0)).
Definition lastDay (year month : Z) : Z :=
  if month =? 2 then if isLeap year then 29 else 28
  else if (month =? 4) || (month =? 6) || (month =? 9) || (month =? 11) then 30 else 31.
Definition dateOk (date : Date) : bool :=
  (-32767 <=? da_year date) && (da_year date <=? 32767) &&
  (1 <=? da_month date) && (da_month date <=? 12) &&
  (1 <=? da_day date) && (da_day date <=? lastDay (da_year date) (da_month date)).

(** Days are counted in eras of 400 years that start in March. *)
Definition kEraDays : Z := 146097.
Definition dayOfEra (yearOfEra month day : Z) : Z :=
  let dayOfYear := (153 * (if 2 <? month then month - 3 else month + 9) + 2) / 5 + day - 1 in
  yearOfEra * 365 + yearOfEra / 4 - yearOfEra / 100 + dayOfYear.
Definition toSysDays (date : Date) : Z :=
  let year := if da_month date <=? 2 then da_year date - 1 else da_year date in
  year / 400 * kEraDays + dayOfEra (year mod 400) (da_month date) (da_day date) - 719468.
(** The date of a day of the era that starts in year 0. *)
Definition dateInEra (dayOfEra : Z) : Date :=
  let yearOfEra := (dayOfEra - dayOfEra / 1460 + dayOfEra / 36524 - dayOfEra / 146096) / 365 in
  let dayOfYear := dayOfEra - (365 * yearOfEra + yearOfEra / 4 - yearOfEra / 100) in
  let shifted := (5 * dayOfYear + 2) / 153 in
  let day := dayOfYear - (153 * shifted + 2) / 5 + 1 in
  let month := if shifted <? 10 then shifted + 3 else shifted - 9 in
  MkDate (if month <=? 2 then yearOfEra + 1 else yearOfEra) month day.
Definition inEra (era : Z) (date : Date) : Date := MkDate (era * 400 + da_year date) (da_month date) (da_day date).
Definition fromSysDays (days : Z) : Date :=
  let days := days + 719468 in inEra (days / kEraDays) (dateInEra (days mod kEraDays)).

Definition addDays (date : Date) (days : Z) : Date := fromSysDays (toSysDays date + days).
(** The loop [for (cur = begin; cur <= end; cur += 1)]. *)
Fixpoint dayLoop (count : nat) (day : Z) : list Date :=
  match count with O => [] | S count => fromSysDays day :: dayLoop count (day + 1) end.
Definition inclusiveDateRange (from to : Date) : list Date :=
  let begin := toSysDays from in
  let end_ := toSysDays to in
  if end_ <? begin then [] else dayLoop (Z.to_nat (end_ - begin + 1)) begin.
(** The day is [floor<days>] of the clock. *)
Definition lastCompletedUtcDate (today : Z) : Date := fromSysDays (today - 1).

(** ** The calendar *)

(** A day of a month, in any year. *)
Definition calendarDate (date : Date) : bool :=
  (1 <=? da_month date) && (da_month date <=? 12) &&
  (1 <=? da_day date) && (da_day date <=? lastDay (da_year date) (da_month date)).
Definition eraYear (date : Date) : Z := if da_month date <=? 2 then da_year date - 1 else da_year date.

(** The first day of a year that starts in March, within its era, and the length of that year. *)
Definition yearStart (year : Z) : Z := 365 * year + year / 4 - year / 100.
Definition yearLength (year : Z) : Z := if isLeap (year + 1) then 366 else 365.
(** The day of such a year on which a day of a month falls. *)
Definition dayOfYear (month day : Z) : Z :=
  (153 * (if 2 <? month then month - 3 else month + 9) + 2) / 5 + day - 1.

Ltac divs := Z.to_euclidean_division_equations; lia.

Lemma isLeap_spec year : isLeap year = true <-> year mod 4 = 0 /\ (year mod 100 <> 0 \/ year mod 400 = 0).
Proof. unfold isLeap. split; intros; bsplit; lia. Qed.
Lemma yearStart_next year : 0 <= year < 399 -> yearStart (year + 1) = yearStart year + yearLength year.
Proof.
  intros H. unfold yearStart, yearLength. pose proof (isLeap_spec (year + 1)) as Hl.
  destruct (isLeap (year + 1)); divs.
Qed.
Lemma yearOfDay year day : 0 <= year < 400 -> 0 <= day < yearLength year ->
  let n := yearStart year + day in
  0 <= n < kEraDays /\ (n - n / 1460 + n / 36524 - n / 146096) / 365 = year.
Proof.
  intros H Hd. cbv zeta. unfold yearLength in Hd. pose proof (isLeap_spec (year + 1)) as Hl.
  unfold yearStart, kEraDays. destruct (isLeap (year + 1)); divs.
Qed.
Lemma era_has_year n : 0 <= n < kEraDays ->
  exists year day, 0 <= year < 400 /\ 0 <= day < yearLength year /\ n = yearStart year + day.
Proof.
  intros Hn. set (year := (n - n / 1460 + n / 36524 - n / 146096) / 365).
  exists year, (n - yearStart year). unfold yearLength, kEraDays in *. pose proof (isLeap_spec (year + 1)) as Hl.
  unfold yearStart, year in *. destruct (isLeap _); divs.
Qed.

(** Months and days of a year that starts in March. *)
Lemma dayOfYear_range year month day : calendarDate (MkDate year month day) = true ->
  let n := dayOfYear month day in
  0 <= n < yearLength (eraYear (MkDate year month day)) /\
  (if 2 <? month then month - 3 else month + 9) = (5 * n + 2) / 153.
Proof.
  unfold calendarDate, eraYear, yearLength, dayOfYear, lastDay. cbn [da_year da_month da_day]. intros H. bsplit.
  assert (month = 1 \/ month = 2 \/ month = 3 \/ month = 4 \/ month = 5 \/ month = 6 \/ month = 7 \/ month = 8 \/
    month = 9 \/ month = 10 \/ month = 11 \/ month = 12) as Hm by lia.
  destruct_or! Hm; subst month; cbn -[Z.add Z.div Z.mul] in *; rewrite ?Z.sub_add in *;
    destruct (isLeap _); cbn -[Z.add Z.div Z.mul] in *; divs.
Qed.
(** The date of a day of a year that starts in March. *)
Definition dateOfYear (year n : Z) : Date :=
  let shifted := (5 * n + 2) / 153 in
  let month := if shifted <? 10 then shifted + 3 else shifted - 9 in
  MkDate (if month <=? 2 then year + 1 else year) month (n - (153 * shifted + 2) / 5 + 1).
Lemma dateOfYear_spec year n : 0 <= n < yearLength year ->
  let date := dateOfYear year n in
  calendarDate date = true /\ eraYear date = year /\ dayOfYear (da_month date) (da_day date) = n.
Proof.
  intros Hn. cbv zeta. unfold dateOfYear. set (shifted := (5 * n + 2) / 153).
  assert (0 <= shifted <= 11 /\ 153 * shifted <= 5 * n + 2 < 153 * shifted + 153) as [Hs Hb].
  { unfold yearLength, shifted in *. destruct (isLeap _); divs. }
  clearbody shifted. unfold calendarDate, eraYear, yearLength, dayOfYear, lastDay in *. cbn [da_year da_month da_day].
  assert (shifted = 0 \/ shifted = 1 \/ shifted = 2 \/ shifted = 3 \/ shifted = 4 \/ shifted = 5 \/ shifted = 6 \/
    shifted = 7 \/ shifted = 8 \/ shifted = 9 \/ shifted = 10 \/ shifted = 11) as Hm by lia.
  destruct_or! Hm; subst shifted;
    match goal with |- context [if _ <? 10 then ?a else ?b] =>
      let m := eval vm_compute in a in let m' := eval vm_compute in b in change a with m; change b with m' end;
    cbn -[Z.add Z.sub Z.leb isLeap];
    change (11 - 9) with 2; repeat split;
    rewrite ?andb_true_iff, ?Z.leb_le; try (destruct (isLeap _));
    try divs; cbn; lia.
Qed.
Lemma dateInEra_year year n : 0 <= year < 400 -> 0 <= n < yearLength year ->
  dateInEra (yearStart year + n) = dateOfYear year n.
Proof.
  intros Hy Hn. unfold dateInEra. rewrite (proj2 (yearOfDay year n Hy Hn)).
  replace (yearStart year + n - _) with n by (unfold yearStart; lia). done.
Qed.
Lemma dateOfYear_back date : calendarDate date = true ->
  dateOfYear (eraYear date) (dayOfYear (da_month date) (da_day date)) = date.
Proof.
  destruct date as [year month day]. intros H. destruct (dayOfYear_range _ _ _ H) as [Hr Hs]. cbv zeta in *.
  unfold dateOfYear. cbn [da_year da_month da_day]. rewrite <- Hs. clear Hs Hr.
  unfold calendarDate, dayOfYear, eraYear in *. cbn [da_year da_month da_day] in *. bsplit.
  destruct (Z.ltb_spec 2 month); repeat case_match; bsplit; f_equal; lia.
Qed.

(** Days and dates determine each other. *)
Lemma toSysDays_split date :
  toSysDays date = eraYear date / 400 * kEraDays + (yearStart (eraYear date mod 400) + dayOfYear (da_month date) (da_day date)) - 719468.
Proof. unfold toSysDays, dayOfEra, dayOfYear, yearStart. fold (eraYear date). lia. Qed.
Lemma isLeap_era era year : isLeap (era * 400 + year) = isLeap year.
Proof. apply eq_true_iff_eq. rewrite !isLeap_spec. split; intros; divs. Qed.
Lemma yearLength_mod year : yearLength (year mod 400) = yearLength year.
Proof.
  unfold yearLength. rewrite <- (isLeap_era (year / 400) (year mod 400 + 1)).
  by replace (year / 400 * 400 + (year mod 400 + 1)) with (year + 1) by divs.
Qed.
Lemma inEra_calendar era date : calendarDate (inEra era date) = calendarDate date.
Proof. unfold calendarDate, inEra, lastDay. cbn. by rewrite isLeap_era. Qed.
Lemma inEra_eraYear era date : eraYear (inEra era date) = era * 400 + eraYear date.
Proof. unfold eraYear, inEra. cbn. destruct (_ <=? _); lia. Qed.

(** Every day has a year, and within it a day of that year. *)
Lemma fromSysDays_split days : exists year n, 0 <= n < yearLength year /\ fromSysDays days = dateOfYear year n /\
  days = year / 400 * kEraDays + (yearStart (year mod 400) + n) - 719468.
Proof.
  set (era := (days + 719468) / kEraDays).
  destruct (era_has_year ((days + 719468) mod kEraDays)) as (year & n & Hy & Hn & E).
  { apply Z.mod_pos_bound. done. }
  assert ((era * 400 + year) mod 400 = year /\ (era * 400 + year) / 400 = era) as [Em Ed] by divs.
  exists (era * 400 + year), n. split; [|split].
  - by rewrite <- yearLength_mod, Em.
  - unfold fromSysDays. fold era. rewrite E, dateInEra_year by done. unfold inEra, dateOfYear. cbn. f_equal.
    destruct (_ <=? 2); lia.
  - rewrite Em, Ed. rewrite <- E. unfold era. pose proof (Z.div_mod (days + 719468) kEraDays). unfold kEraDays in *. lia.
Qed.
Lemma toSysDays_fromSysDays days : toSysDays (fromSysDays days) = days.
Proof.
  destruct (fromSysDays_split days) as (year & n & Hn & -> & E).
  destruct (dateOfYear_spec year n Hn) as (_ & Ey & Ed). by rewrite toSysDays_split, Ey, Ed.
Qed.
Lemma fromSysDays_calendar days : calendarDate (fromSysDays days) = true.
Proof.
  destruct (fromSysDays_split days) as (year & n & Hn & -> & _). apply (dateOfYear_spec year n Hn).
Qed.
Lemma calendar_day date : calendarDate date = true ->
  0 <= dayOfYear (da_month date) (da_day date) < yearLength (eraYear date).
Proof. destruct date as [year month day]. intros H. apply (dayOfYear_range year month day H). Qed.
Lemma fromSysDays_toSysDays date : calendarDate date = true -> fromSysDays (toSysDays date) = date.
Proof.
  intros H. pose proof (calendar_day date H) as Hd. rewrite toSysDays_split. unfold fromSysDays.
  set (year := eraYear date) in *. set (n := dayOfYear _ _) in *.
  assert (0 <= year mod 400 < 400) as Hy by (apply Z.mod_pos_bound; done).
  rewrite <- yearLength_mod in Hd. destruct (yearOfDay (year mod 400) n Hy Hd) as [Hr _].
  rewrite Z.sub_add, (Z.add_comm (_ * kEraDays)), Z.div_add, Z.mod_add, (Z.div_small _ _ Hr), (Z.mod_small _ _ Hr) by done.
  rewrite dateInEra_year by done. rewrite <- (dateOfYear_back date H). fold year n. unfold inEra, dateOfYear. cbn.
  pose proof (Z.div_mod year 400). f_equal. destruct (_ <=? 2); lia.
Qed.
Lemma toSysDays_linear date : let year := eraYear date in
  toSysDays date = 365 * year + year / 4 - year / 100 + year / 400 + dayOfYear (da_month date) (da_day date) - 719468.
Proof. cbv zeta. rewrite toSysDays_split. generalize (eraYear date). intros year. unfold yearStart, kEraDays. divs. Qed.
Lemma toSysDays_less lhs rhs : calendarDate lhs = true -> calendarDate rhs = true ->
  dateLess lhs rhs = true -> toSysDays lhs < toSysDays rhs.
Proof.
  intros Hl Hr H. rewrite !toSysDays_linear. pose proof (calendar_day _ Hl) as Dl. pose proof (calendar_day _ Hr) as Dr.
  assert (eraYear lhs < eraYear rhs \/ (eraYear lhs = eraYear rhs /\
    dayOfYear (da_month lhs) (da_day lhs) < dayOfYear (da_month rhs) (da_day rhs))) as [Hy|[-> Hd]].
  { unfold dateLess, eraYear, calendarDate, dayOfYear, lastDay in *.
    destruct lhs as [y1 m1 d1], rhs as [y2 m2 d2]. cbn [da_year da_month da_day] in *.
    clear Dl Dr. bsplit. repeat case_match; bsplit; divs. }
  - unfold yearLength in *. pose proof (isLeap_spec (eraYear lhs + 1)). destruct (isLeap (eraYear lhs + 1)); divs.
  - lia.
Qed.

(** ** Lists of dates *)

Definition dateKey (date : Date) : list Z := [da_year date; da_month date; da_day date].
Lemma dateLess_key a b : dateLess a b = lexLess (dateKey a) (dateKey b).
Proof.
  unfold dateLess. cbn. destruct (da_year a =? da_year b); cbn; [|done]. destruct (da_month a =? da_month b); cbn; [|done].
  destruct (Z.eqb_spec (da_day a) (da_day b)) as [->|]; [apply Z.ltb_irrefl|done].
Qed.
Lemma dateLess_strictWeak : strictWeak dateLess (fun _ => True).
Proof.
  split.
  - intros x _. rewrite dateLess_key. apply lexLess_irreflexive.
  - intros x y z _ _ _. rewrite !dateLess_key. by apply lexLess_transitive.
  - intros x y z _ _ _. rewrite !dateLess_key. by apply lexLess_incomparable.
Qed.
Lemma dateLess_tie a b : dateLess a b = false -> dateLess b a = false -> a = b.
Proof. destruct a, b. unfold dateLess. cbn. intros H1 H2. repeat case_match; bsplit; f_equal; lia. Qed.
Lemma dateLess_irreflexive a : dateLess a a = false.
Proof. by apply (sw_irreflexive _ _ dateLess_strictWeak). Qed.
Lemma dateLess_trans a b c : dateLess a b = true -> dateLess b c = true -> dateLess a c = true.
Proof. by apply (sw_transitive _ _ dateLess_strictWeak). Qed.
Lemma dateLess_asym a b : dateLess a b = true -> dateLess b a = false.
Proof. by apply (strictWeak_asym dateLess _ _ _ dateLess_strictWeak). Qed.
Lemma dateEqual_spec a b : dateEqual a b = true <-> a = b.
Proof. destruct a, b. unfold dateEqual. cbn. rewrite !andb_true_iff, !Z.eqb_eq. naive_solver. Qed.

(** Every date once, in the order of the calendar. *)
Definition ascending (dates : list Date) : Prop := StronglySorted (fun a b => dateLess a b = true) dates.

Lemma fromSysDays_less m n : m < n -> dateLess (fromSysDays m) (fromSysDays n) = true.
Proof.
  intros H. destruct (dateLess (fromSysDays m) (fromSysDays n)) eqn:E1; [done|].
  pose proof (toSysDays_fromSysDays m) as Em. pose proof (toSysDays_fromSysDays n) as En.
  destruct (dateLess (fromSysDays n) (fromSysDays m)) eqn:E2.
  - apply toSysDays_less in E2; [lia|apply fromSysDays_calendar..].
  - rewrite (dateLess_tie _ _ E1 E2) in Em. lia.
Qed.
Lemma dayLoop_elem count : forall day date, date ∈ dayLoop count day <->
  exists n, day <= n < day + Z.of_nat count /\ date = fromSysDays n.
Proof.
  induction count as [|count IH]; intros day date; cbn [dayLoop].
  - rewrite elem_of_nil. split; [done|]. intros (n & H & _). lia.
  - rewrite elem_of_cons, IH. split.
    + intros [->|(n & H & ->)]; [exists day|exists n]; (split; [lia|done]).
    + intros (n & H & ->). destruct (decide (n = day)) as [->|]; [by left|]. right. exists n. split; [lia|done].
Qed.
Lemma dayLoop_ascending count : forall day, ascending (dayLoop count day).
Proof.
  induction count as [|count IH]; intros day; cbn; constructor; [apply IH|]. rewrite Forall_forall.
  intros date (n & H & ->)%dayLoop_elem. apply fromSysDays_less. lia.
Qed.
Lemma toSysDays_order lhs rhs : calendarDate lhs = true -> calendarDate rhs = true ->
  dateLess lhs rhs = (toSysDays lhs <? toSysDays rhs).
Proof.
  intros Hl Hr. rewrite <- (fromSysDays_toSysDays lhs Hl), <- (fromSysDays_toSysDays rhs Hr) at 1.
  destruct (Z.ltb_spec (toSysDays lhs) (toSysDays rhs)) as [H|H]; [by apply fromSysDays_less|].
  destruct (decide (toSysDays lhs = toSysDays rhs)) as [->|]; [apply dateLess_irreflexive|].
  apply dateLess_asym, fromSysDays_less. lia.
Qed.
Lemma dateOk_calendar date : dateOk date = true <-> calendarDate date = true /\ -32767 <= da_year date <= 32767.
Proof. unfold dateOk, calendarDate. rewrite !andb_true_iff, !Z.leb_le. intuition lia. Qed.

(** The range of an import from one date to another lists each day between them, and no
    other, exactly once and in the order of the calendar; the range is empty when it ends before it begins. *)
Theorem date_range from to : dateOk from = true -> dateOk to = true ->
  ascending (inclusiveDateRange from to) /\
  forall date, date ∈ inclusiveDateRange from to <->
    dateOk date = true /\ dateLess date from = false /\ dateLess to date = false.
Proof.
  rewrite !dateOk_calendar. intros [Hf Yf] [Ht Yt]. unfold inclusiveDateRange. split.
  { destruct (_ <? _); [constructor|apply dayLoop_ascending]. }
  intros date. rewrite dateOk_calendar. split.
  - destruct (Z.ltb_spec (toSysDays to) (toSysDays from)); [by intros ?%elem_of_nil|].
    intros (n & Hn & ->)%dayLoop_elem. pose proof (fromSysDays_calendar n) as Hc.
    assert (dateLess (fromSysDays n) from = false /\ dateLess to (fromSysDays n) = false) as [H1 H2].
    { rewrite !toSysDays_order, !toSysDays_fromSysDays by done. lia. }
    split_and!; try done; unfold dateLess in H1, H2; repeat case_match; bsplit; lia.
  - intros ([Hc _] & H1 & H2). rewrite toSysDays_order in H1, H2 by done. bsplit.
    destruct (Z.ltb_spec (toSysDays to) (toSysDays from)); [lia|]. apply dayLoop_elem.
    exists (toSysDays date). rewrite fromSysDays_toSysDays by done. split; [lia|done].
Qed.

Lemma date_range_witness :
  let from := MkDate 2024 2 27 in let to := MkDate 2024 3 2 in
  inclusiveDateRange from to = [MkDate 2024 2 27; MkDate 2024 2 28; MkDate 2024 2 29; MkDate 2024 3 1; MkDate 2024 3 2] /\
  ascending (inclusiveDateRange from to).
Proof. split; [vm_compute; reflexivity|]. apply date_range; reflexivity. Defined.
