(* ===== verification/VisionDates.v ===== *)
(** * VisionDates: names and listings of the history import

    The second half of src/src/Runtime/src/History/BinanceVisionFormat.cpp: the text of
    dates, the names of daily archives, the listings of a bucket and the dates offered for
    import. *)
From stdpp Require Import base list numbers strings sorting.
From S2P Require Import Prelude Codec Json Rows RowText Replay ReplayTimeline Vision Calendar.
Local Open Scope Z_scope.

(** ** Their text *)

Definition zero2 (value : Z) : list Z := [48 + Z.rem (Z.quot value 10) 10; 48 + Z.rem value 10].
Definition i32_max : Z := 2 ^ 31 - 1.
Definition parseDate (text : list Z) : option Date :=
  let text := trim text in
  if negb (length text =? 10)%nat || negb (bool_decide (text !! 4%nat = Some Ch.minus)) ||
     negb (bool_decide (text !! 7%nat = Some Ch.minus))
  then None
  else
    year ← whole (fromCharsSigned i32_max (take 4 text));
    month ← whole (fromCharsSigned i32_max (take 2 (drop 5 text)));
    day ← whole (fromCharsSigned i32_max (take 2 (drop 8 text)));
    if dateOk (MkDate year (u8 month) (u8 day)) then Some (MkDate year month day) else None.
Definition formatDate (date : Date) : list Z :=
  appendInt (da_year date) ++ Ch.minus :: zero2 (da_month date) ++ Ch.minus :: zero2 (da_day date).

(** ** Names *)

Inductive VisionChannel := AggTrades | BookTickerChannel.
Definition channelFolder (channel : VisionChannel) : list Z :=
  bytes_of_string (match channel with AggTrades => "aggTrades" | BookTickerChannel => "bookTicker" end).
Definition visionSymbolPrefix (channel : VisionChannel) : list Z :=
  bytes_of_string "data/futures/um/daily/" ++ channelFolder channel ++ [Ch.slash].
Definition visionDailyPrefix (channel : VisionChannel) (symbol : list Z) : list Z :=
  bytes_of_string "data/futures/um/daily/" ++ channelFolder channel ++ Ch.slash :: symbol ++ [Ch.slash].
Definition kZipSuffix : list Z := bytes_of_string ".zip".
Definition visionDailyKey (channel : VisionChannel) (symbol : list Z) (date : Date) : list Z :=
  bytes_of_string "data/futures/um/daily/" ++ channelFolder channel ++ Ch.slash :: symbol ++ Ch.slash ::
  symbol ++ Ch.minus :: channelFolder channel ++ Ch.minus :: formatDate date ++ kZipSuffix.
Definition visionHttpsUrl (key : list Z) : list Z := bytes_of_string "https://data.binance.vision/" ++ key.
Definition visionListUrl (prefix : list Z) (delimiter : bool) (maxKeys : Z) (startAfter : list Z) : list Z :=
  bytes_of_string "https://s3-ap-northeast-1.amazonaws.com/data.binance.vision?list-type=2&prefix=" ++ prefix ++
  (if 0 <? maxKeys then bytes_of_string "&max-keys=" ++ appendInt maxKeys else []) ++
  (if delimiter then bytes_of_string "&delimiter=/" else []) ++
  (if bool_decide (startAfter = []) then [] else bytes_of_string "&start-after=" ++ startAfter).

Definition hasSuffix (suffix text : list Z) : bool :=
  bool_decide (drop (length text - length suffix) text = suffix).
Definition dateFromVisionKey (key : list Z) (channel : VisionChannel) (symbol : list Z) : option Date :=
  let prefix := visionDailyPrefix channel symbol ++ symbol ++ Ch.minus :: channelFolder channel ++ [Ch.minus] in
  if negb (length key =? length prefix + 10 + length kZipSuffix)%nat then None
  else if negb (bool_decide (take (length prefix) key = prefix)) then None
  else if negb (hasSuffix kZipSuffix key) then None
  else parseDate (take 10 (drop (length prefix) key)).

(** ** Listings *)

(** [substr(i, n) == p], and what follows it. *)
Fixpoint stripPrefix (prefix text : list Z) : option (list Z) :=
  match prefix, text with
  | [], _ => Some text
  | p :: prefix, c :: text => if p =? c then stripPrefix prefix text else None
  | _ :: _, [] => None
  end.
Definition entities : list (string * Z) :=
  [("&amp;", 38); ("&lt;", 60); ("&gt;", 62); ("&quot;", 34); ("&apos;", 39)]%string.
(** The character of the first entity that stands here. *)
Fixpoint entityAt (table : list (string * Z)) (text : list Z) : option (Z * list Z) :=
  match table with
  | [] => None
  | (name, c) :: table =>
      match stripPrefix (bytes_of_string name) text with
      | Some rest => Some (c, rest)
      | None => entityAt table text
      end
  end.
(** Every turn reads a character; [fuel] is the length of the text. *)
Fixpoint xmlDecodeLoop (fuel : nat) (text : list Z) : list Z :=
  match fuel, text with
  | S fuel, c :: rest =>
      match entityAt entities text with
      | Some (decoded, rest) => decoded :: xmlDecodeLoop fuel rest
      | None => c :: xmlDecodeLoop fuel rest
      end
  | _, _ => []
  end.
Definition xmlDecode (text : list Z) : list Z := xmlDecodeLoop (length text) text.

(** [find]: what stands before the first occurrence and after it. *)
Fixpoint findText (pattern text : list Z) : option (list Z * list Z) :=
  match stripPrefix pattern text with
  | Some rest => Some ([], rest)
  | None =>
      match text with
      | [] => None
      | c :: rest => '(before, after) ← findText pattern rest; Some (c :: before, after)
      end
  end.
Fixpoint tagValues (fuel : nat) (open close xml : list Z) : list (list Z) :=
  match fuel with
  | O => []
  | S fuel =>
      match findText open xml with
      | Some (_, rest) =>
          match findText close rest with
          | Some (value, rest) => xmlDecode value :: tagValues fuel open close rest
          | None => []
          end
      | None => []
      end
  end.
Definition parseTagValues (xml : list Z) (tag : list Z) : list (list Z) :=
  tagValues (S (length xml)) (60 :: tag ++ [62]) (60 :: Ch.slash :: tag ++ [62]) xml.
Definition parseS3Keys (xml : list Z) : list (list Z) := parseTagValues xml (bytes_of_string "Key").
Definition parseS3Prefixes (xml : list Z) : list (list Z) := parseTagValues xml (bytes_of_string "Prefix").

Definition kChecksumSuffix : list Z := bytes_of_string ".CHECKSUM".
Definition hasVisionZipAndChecksum (xml key : list Z) : bool :=
  existsb (fun found => bool_decide (found = key)) (parseS3Keys xml) &&
  existsb (fun found => bool_decide (found = key ++ kChecksumSuffix)) (parseS3Keys xml).

(** [std::sort] and [std::unique]; dates that compare equal are equal. *)
Fixpoint uniqueDates (dates : list Date) : list Date :=
  match dates with
  | [] => []
  | date :: rest =>
      match rest with
      | [] => [date]
      | next :: _ => if dateEqual date next then uniqueDates rest else date :: uniqueDates rest
      end
  end.
Definition sortUnique (dates : list Date) : list Date := uniqueDates (stableSort dateLess dates).
(** The merge loop of two sorted lists; [fuel] is the sum of their lengths. *)
Fixpoint commonDates (fuel : nat) (keep : Date -> bool) (lhs rhs : list Date) : list Date :=
  match fuel, lhs, rhs with
  | S fuel, x :: lhs', y :: rhs' =>
      if dateEqual x y then (if keep x then [x] else []) ++ commonDates fuel keep lhs' rhs'
      else if dateLess x y then commonDates fuel keep lhs' rhs
      else commonDates fuel keep lhs rhs'
  | _, _, _ => []
  end.

(** The dates of the archives, and of the checksums, among the keys. *)
Definition checksumDate (channel : VisionChannel) (symbol key : list Z) : option Date :=
  match dateFromVisionKey key channel symbol with
  | Some _ => None
  | None =>
      if (length kChecksumSuffix <? length key)%nat && hasSuffix kChecksumSuffix key
      then dateFromVisionKey (take (length key - length kChecksumSuffix) key) channel symbol
      else None
  end.
Definition parseAvailableVisionDates (xml : list Z) (channel : VisionChannel) (symbol : list Z) : list Date :=
  let zips := sortUnique (omap (fun key => dateFromVisionKey key channel symbol) (parseS3Keys xml)) in
  let checksums := sortUnique (omap (checksumDate channel symbol) (parseS3Keys xml)) in
  commonDates (length zips + length checksums) (fun _ => true) zips checksums.
Definition latestCommonDates (lhs rhs : list Date) (notAfter : Date) (limit : nat) : list Date :=
  let lhs := sortUnique lhs in
  let rhs := sortUnique rhs in
  let common := commonDates (length lhs + length rhs) (fun date => negb (dateLess notAfter date)) lhs rhs in
  if (limit <? length common)%nat then drop (length common - limit) common else common.

(** ** Checksums *)

Definition isHex (c : Z) : bool := isDigit c || ((65 <=? c) && (c <=? 70)) || ((97 <=? c) && (c <=? 102)).
Definition parseChecksumSha256 (text : list Z) : option (list Z) :=
  let text := trim text in
  if (length text <? 64)%nat then None
  else
    let hash := take 64 text in
    if forallb isHex hash then Some (map toLower hash) else None.

(** ** Dates are read as they are written *)

(** Lists of numbers, element by element. *)
Ltac elements := repeat (f_equal; [divs|]); f_equal; divs.
(** A positive number is written with digits alone. *)
Lemma signed_digits highest text : text <> [] -> allDigits text -> digitsValue 0 text <= highest ->
  whole (fromCharsSigned highest text) = Some (digitsValue 0 text).
Proof.
  intros Hn Hd Hv. apply signed_whole. destruct text as [|c text]; [done|]. pose proof Hd as Hc.
  apply Forall_cons in Hc as [->%digit_not_minus _]. split; [by apply fromDigits_numeral|done].
Qed.
Lemma signed_positive highest text v : whole (fromCharsSigned highest text) = Some v -> 0 < v ->
  text <> [] /\ allDigits text /\ v = digitsValue 0 text.
Proof.
  intros Hw Hv. apply signed_whole in Hw. destruct text as [|c text]; [done|]. destruct (c =? Ch.minus).
  - destruct Hw as [Hw%fromDigits_nonneg _]. lia.
  - by apply fromDigits_numeral, Hw.
Qed.

Lemma zero2_digits v : 0 <= v < 100 -> allDigits (zero2 v) /\ digitsValue 0 (zero2 v) = v.
Proof.
  intros H. unfold zero2. split; [|cbn; divs]. repeat constructor; unfold isDigit; apply andb_true_iff; divs.
Qed.
Lemma digits_zero2 a b : allDigits [a; b] -> zero2 (digitsValue 0 [a; b]) = [a; b].
Proof.
  intros (Ha & (Hb & _)%Forall_cons)%Forall_cons. apply digit_range in Ha, Hb. unfold zero2. cbn.
  elements.
Qed.
Lemma year_text y : 1000 <= y <= 9999 ->
  appendInt y = [48 + y / 1000; 48 + y / 100 mod 10; 48 + y / 10 mod 10; 48 + y mod 10].
Proof.
  intros H. unfold appendInt, decimal. rewrite (proj2 (Z.ltb_ge _ _)) by lia.
  do 3 (cbn [decimalLoop]; rewrite (proj2 (Z.ltb_ge _ _)) by divs).
  cbn [decimalLoop]. rewrite (proj2 (Z.ltb_lt _ _)) by divs. elements.
Qed.
Lemma year_digits y : 1000 <= y <= 9999 -> allDigits (appendInt y) /\ digitsValue 0 (appendInt y) = y.
Proof.
  intros H. rewrite year_text by done. split; [|cbn; divs].
  repeat constructor; unfold isDigit; apply andb_true_iff; divs.
Qed.
Lemma digits_year a b c d : allDigits [a; b; c; d] -> 1000 <= digitsValue 0 [a; b; c; d] ->
  digitsValue 0 [a; b; c; d] <= 9999 /\ appendInt (digitsValue 0 [a; b; c; d]) = [a; b; c; d].
Proof.
  intros (Ha & (Hb & (Hc & (Hd & _)%Forall_cons)%Forall_cons)%Forall_cons)%Forall_cons. apply digit_range in Ha, Hb, Hc, Hd.
  cbn. intros H. split; [lia|]. rewrite year_text by lia. elements.
Qed.

(** Spaces at the ends only shorten a text. *)
Lemma trimFront_length text : (length (trimFront text) <= length text)%nat.
Proof. induction text as [|c text IH]; cbn; [done|]. destruct (isSpaceC c); cbn; lia. Qed.
Lemma trimFront_same text : length (trimFront text) = length text -> trimFront text = text.
Proof.
  destruct text as [|c text]; cbn; [done|]. pose proof (trimFront_length text). destruct (isSpaceC c); cbn; [lia|done].
Qed.
Lemma trim_same text : length (trim text) = length text -> trim text = text.
Proof.
  unfold trim. rewrite length_rev. intros H. pose proof (trimFront_length (rev (trimFront text))) as H1.
  pose proof (trimFront_length text) as H2. rewrite length_rev in H1.
  rewrite trimFront_same by (rewrite length_rev; lia). rewrite rev_involutive. apply trimFront_same. lia.
Qed.
Lemma trim_ends a text b : isSpaceC a = false -> isSpaceC b = false -> trim (a :: text ++ [b]) = a :: text ++ [b].
Proof.
  intros Ha Hb. unfold trim. cbn [trimFront]. rewrite Ha. rewrite app_comm_cons, rev_app_distr. cbn [rev app trimFront].
  rewrite Hb. cbn [rev]. rewrite rev_app_distr, rev_involutive. done.
Qed.
Lemma digit_space c : isDigit c = true -> isSpaceC c = false.
Proof. unfold isDigit, isSpaceC. intros H. bsplit. repeat destruct (Z.eqb_spec _ _); cbn; lia. Qed.

Lemma parseDate_fields y1 y2 y3 y4 m1 m2 d1 d2 s1 s2 :
  let text := [y1; y2; y3; y4; s1; m1; m2; s2; d1; d2] in trim text = text ->
  parseDate text = (if bool_decide (s1 = Ch.minus) && bool_decide (s2 = Ch.minus) then
    year ← whole (fromCharsSigned i32_max [y1; y2; y3; y4]);
    month ← whole (fromCharsSigned i32_max [m1; m2]);
    day ← whole (fromCharsSigned i32_max [d1; d2]);
    if dateOk (MkDate year (u8 month) (u8 day)) then Some (MkDate year month day) else None
  else None).
Proof.
  intros text Ht. unfold parseDate. rewrite Ht. subst text. cbn -[bool_decide fromCharsSigned].
  rewrite (bool_decide_ext (Some s1 = Some Ch.minus) (s1 = Ch.minus)) by (split; congruence).
  rewrite (bool_decide_ext (Some s2 = Some Ch.minus) (s2 = Ch.minus)) by (split; congruence).
  by repeat destruct (bool_decide _).
Qed.

(** The dates whose text has ten characters. *)
Definition dateText (date : Date) : Prop := dateOk date = true /\ 1000 <= da_year date <= 9999.

Lemma dateOk_fields year month day : dateOk (MkDate year month day) = true -> 1 <= month <= 12 /\ 1 <= day <= 31.
Proof.
  rewrite dateOk_calendar. unfold calendarDate, lastDay. cbn. intros [H _]. bsplit. split; [lia|].
  repeat case_match; lia.
Qed.
Lemma parseDate_formatDate date : dateText date -> parseDate (formatDate date) = Some date.
Proof.
  destruct date as [year month day]. intros [Hok Hy]. cbn in Hy. pose proof (dateOk_fields _ _ _ Hok) as [Hm Hd].
  destruct (year_digits year Hy) as [Yd Yv]. destruct (zero2_digits month ltac:(lia)) as [Md Mv].
  destruct (zero2_digits day ltac:(lia)) as [Dd Dv]. unfold formatDate. cbn [da_year da_month da_day].
  rewrite year_text in * by done. unfold zero2 in *. cbn [app]. rewrite parseDate_fields.
  - rewrite !bool_decide_eq_true_2 by done. cbn [andb].
    rewrite !signed_digits, Yv, Mv, Dv by (done || (rewrite ?Yv, ?Mv, ?Dv; unfold i32_max; lia)). cbn.
    unfold u8. rewrite !Z.mod_small, Hok by lia. done.
  - apply (trim_ends _ [_; _; _; _; _; _; _; _]); apply digit_space.
    + by apply Forall_cons in Yd as [? _].
    + by apply Forall_cons in Dd as [_ [? _]%Forall_cons].
Qed.
Lemma signed_two highest a b v : whole (fromCharsSigned highest [a; b]) = Some v -> 1 <= u8 v <= 31 ->
  allDigits [a; b] /\ v = digitsValue 0 [a; b] /\ u8 v = v.
Proof.
  intros Hw Hv. destruct (Z.ltb_spec 0 v) as [Hp|Hp].
  - destruct (signed_positive _ _ _ Hw Hp) as (_ & Hd & ->). pose proof (digitsValue_bound _ Hd) as Hb. cbn in Hb.
    split_and!; [done|done|]. unfold u8. apply Z.mod_small. cbn in *. lia.
  - exfalso. revert Hw. unfold fromCharsSigned, fromCharsUnsigned. destruct (a =? Ch.minus).
    + destruct (fromDigits [b]) as [[w rest]|] eqn:E; [|done]. cbn. destruct (_ <=? _); [|done]. destruct rest; [|done].
      intros [= <-]. apply fromDigits_numeral in E as (_ & Hd & ->). pose proof (digitsValue_bound _ Hd) as Hb.
      unfold u8 in Hv. cbn in *. divs.
    + destruct (fromDigits [a; b]) as [[w rest]|] eqn:E; [|done]. cbn. destruct (_ <=? _); [|done]. destruct rest; [|done].
      intros [= <-]. apply fromDigits_nonneg in E. assert (w = 0) as -> by lia. change (u8 0) with 0 in Hv. lia.
Qed.
Lemma parseDate_text text date : length text = 10%nat -> parseDate text = Some date -> 1000 <= da_year date ->
  text = formatDate date /\ dateText date.
Proof.
  intros Hl Hp Hy. assert (trim text = text) as Ht.
  { apply trim_same. revert Hp. unfold parseDate. destruct (Nat.eqb_spec (length (trim text)) 10); [lia|done]. }
  destruct text as [|y1 [|y2 [|y3 [|y4 [|s1 [|m1 [|m2 [|s2 [|d1 [|d2 [|]]]]]]]]]]]; try done.
  rewrite parseDate_fields in Hp by done. destruct (bool_decide_reflect (s1 = Ch.minus)) as [->|]; [|done].
  destruct (bool_decide_reflect (s2 = Ch.minus)) as [->|]; [|done]. cbn [andb] in Hp.
  apply bind_Some in Hp as (year & Ey & Hp). apply bind_Some in Hp as (month & Em & Hp).
  apply bind_Some in Hp as (day & Ed & Hp). destruct (dateOk _) eqn:Hok; [|done]. injection Hp as <-. cbn in Hy.
  apply signed_positive in Ey as (_ & Yd & ->); [|lia].
  destruct (dateOk_fields _ _ _ Hok) as [Hm Hd].
  destruct (digits_year _ _ _ _ Yd Hy) as [Hy' Yt].
  apply signed_two in Em as (Md & -> & Eu); [|lia]. apply signed_two in Ed as (Dd & -> & Eu'); [|lia].
  rewrite Eu, Eu' in Hok. split; [|done]. unfold formatDate. cbn [da_year da_month da_day].
  by rewrite Yt, !digits_zero2.
Qed.

(** ** Names of archives *)

Lemma hasSuffix_app text suffix : hasSuffix suffix (text ++ suffix) = true.
Proof. unfold hasSuffix. apply bool_decide_eq_true_2. rewrite length_app, Nat.add_sub. by rewrite drop_app_length. Qed.
Lemma hasSuffix_split suffix text : hasSuffix suffix text = true ->
  text = take (length text - length suffix) text ++ suffix.
Proof. unfold hasSuffix. intros H%bool_decide_eq_true_1. rewrite <- (take_drop (length text - length suffix) text) at 1. by rewrite H. Qed.
Lemma formatDate_length date : dateText date -> length (formatDate date) = 10%nat.
Proof. intros [_ Hy]. unfold formatDate. by rewrite year_text. Qed.

(** The name before the date. *)
Definition keyPrefix (channel : VisionChannel) (symbol : list Z) : list Z :=
  visionDailyPrefix channel symbol ++ symbol ++ Ch.minus :: channelFolder channel ++ [Ch.minus].
Lemma visionDailyKey_split channel symbol date :
  visionDailyKey channel symbol date = keyPrefix channel symbol ++ formatDate date ++ kZipSuffix.
Proof.
  unfold visionDailyKey, keyPrefix, visionDailyPrefix.
  repeat (rewrite <- app_assoc; cbn [app]; rewrite <- ?app_comm_cons). done.
Qed.
(** The names read as dates of four-digit years are the names written for them. *)
Lemma visionKey_date channel symbol key date :
  dateFromVisionKey key channel symbol = Some date /\ 1000 <= da_year date <->
  key = visionDailyKey channel symbol date /\ dateText date.
Proof.
  unfold dateFromVisionKey. fold (keyPrefix channel symbol). rewrite visionDailyKey_split.
  set (prefix := keyPrefix channel symbol). split.
  - intros [H Hy]. destruct (Nat.eqb_spec (length key) (length prefix + 10 + length kZipSuffix)) as [Hl|]; [|done].
    destruct (bool_decide_reflect (take (length prefix) key = prefix)) as [Hp|]; [|done].
    destruct (hasSuffix kZipSuffix key) eqn:Hs; [|done]. cbn [negb] in H. apply hasSuffix_split in Hs.
    apply parseDate_text in H as [Et Hd]; [|rewrite length_take, length_drop; lia|done]. split; [|done].
    rewrite Hs, <- Et, app_assoc. f_equal. set (n := (length key - length kZipSuffix)%nat).
    rewrite <- (take_drop (length prefix) (take n key)), take_take, skipn_firstn_comm.
    replace (length prefix `min` n)%nat with (length prefix) by lia. replace (n - length prefix)%nat with 10%nat by lia.
    by rewrite Hp.
  - intros [-> Hd]. pose proof (formatDate_length date Hd) as Hf. split; [|apply Hd].
    rewrite !length_app, Hf, Nat.add_assoc, Nat.eqb_refl. cbn [negb]. rewrite take_app_length.
    rewrite bool_decide_eq_true_2 by done. cbn [negb]. rewrite app_assoc, hasSuffix_app. cbn [negb].
    rewrite <- app_assoc, drop_app_length, take_app_length' by done. by apply parseDate_formatDate.
Qed.
Lemma checksum_date channel symbol key date :
  checksumDate channel symbol key = Some date /\ 1000 <= da_year date <->
  key = visionDailyKey channel symbol date ++ kChecksumSuffix /\ dateText date.
Proof.
  unfold checksumDate. split.
  - intros [H Hy]. destruct (dateFromVisionKey key channel symbol); [done|].
    destruct (length kChecksumSuffix <? length key)%nat; [|done]. destruct (hasSuffix _ _) eqn:Hs; [|done].
    cbn [andb] in H. destruct (proj1 (visionKey_date _ _ _ _) (conj H Hy)) as [E Hd]. split; [|done].
    apply hasSuffix_split in Hs. by rewrite Hs, E.
  - intros [-> Hd]. split; [|apply Hd]. assert (length (visionDailyKey channel symbol date) <> O) as Hl.
    { rewrite visionDailyKey_split, !length_app, (formatDate_length _ Hd). lia. }
    assert (dateFromVisionKey (visionDailyKey channel symbol date ++ kChecksumSuffix) channel symbol = None) as ->.
    { unfold dateFromVisionKey. rewrite visionDailyKey_split. fold (keyPrefix channel symbol).
      rewrite !length_app, (formatDate_length _ Hd). cbn [kChecksumSuffix].
      destruct (Nat.eqb_spec (length (keyPrefix channel symbol) + (10 + length kZipSuffix) + length kChecksumSuffix)
        (length (keyPrefix channel symbol) + 10 + length kZipSuffix)) as [E|]; [|done].
      change (length kChecksumSuffix) with 9%nat in E. lia. }
    rewrite length_app, (proj2 (Nat.ltb_lt _ _)) by lia. rewrite hasSuffix_app, Nat.add_sub, take_app_length. cbn [andb].
    by apply visionKey_date.
Qed.

(** ** Dates offered for import *)

Lemma uniqueDates_elem date dates : date ∈ uniqueDates dates <-> date ∈ dates.
Proof.
  induction dates as [|d dates IH]; [done|]. cbn [uniqueDates]. destruct dates as [|e dates]; [done|].
  destruct (dateEqual d e) eqn:E.
  - apply dateEqual_spec in E as ->. rewrite IH, !elem_of_cons. tauto.
  - by rewrite elem_of_cons, IH, !elem_of_cons.
Qed.
Lemma uniqueDates_ascending dates : ordered dateLess dates -> ascending (uniqueDates dates).
Proof.
  induction dates as [|d dates IH]; intros Ho; [constructor|]. apply StronglySorted_inv in Ho as [Ho Hall].
  cbn [uniqueDates]. destruct dates as [|e dates]; [repeat constructor|]. destruct (dateEqual d e) eqn:E; [by apply IH|].
  constructor; [by apply IH|]. apply StronglySorted_inv in Ho as [_ He]. apply Forall_cons in Hall as [Hde _].
  assert (dateLess d e = true) as Hlt.
  { destruct (dateLess d e) eqn:E'; [done|]. by rewrite (dateLess_tie d e E' Hde), (proj2 (dateEqual_spec e e)) in E. }
  rewrite Forall_forall in He |- *. intros x Hx. rewrite uniqueDates_elem in Hx. apply elem_of_cons in Hx as [->|Hx]; [done|].
  destruct (dateLess e x) eqn:E'; [by apply (dateLess_trans d e)|]. by rewrite <- (dateLess_tie e x E' (He x Hx)).
Qed.
Lemma sortUnique_elem date dates : date ∈ sortUnique dates <-> date ∈ dates.
Proof. unfold sortUnique. by rewrite uniqueDates_elem, stableSort_permutation. Qed.
Lemma sortUnique_ascending dates : ascending (sortUnique dates).
Proof.
  apply uniqueDates_ascending, (stableSort_ordered _ (fun _ => True)); [apply dateLess_strictWeak|by apply Forall_true].
Qed.

Lemma commonDates_spec keep fuel : forall lhs rhs, (length lhs + length rhs <= fuel)%nat ->
  ascending lhs -> ascending rhs -> ascending (commonDates fuel keep lhs rhs) /\
  forall date, date ∈ commonDates fuel keep lhs rhs <-> date ∈ lhs /\ date ∈ rhs /\ keep date = true.
Proof.
  induction fuel as [|fuel IH]; intros lhs rhs Hf Hl Hr.
  { destruct lhs; [|cbn in Hf; lia]. cbn. split; [constructor|]. intros date. rewrite elem_of_nil. tauto. }
  destruct lhs as [|x lhs]; [cbn; split; [constructor|]; intros date; rewrite elem_of_nil; tauto|].
  destruct rhs as [|y rhs]; [cbn; split; [constructor|]; intros date; rewrite elem_of_nil; tauto|]. cbn [commonDates]. cbn in Hf.
  pose proof (StronglySorted_inv Hl) as [Hl' Hx]. pose proof (StronglySorted_inv Hr) as [Hr' Hy].
  rewrite Forall_forall in Hx, Hy. destruct (dateEqual x y) eqn:E; [|destruct (dateLess x y) eqn:E'].
  - apply dateEqual_spec in E as <-. destruct (IH lhs rhs ltac:(lia) Hl' Hr') as [Ha He].
    assert ((x ∉ lhs) /\ (x ∉ rhs)) as [Nl Nr].
    { split; intros Hin; [apply Hx in Hin|apply Hy in Hin]; by rewrite dateLess_irreflexive in Hin. }
    destruct (keep x) eqn:K; cbn [app].
    + split; [|intros date; rewrite !elem_of_cons, He; clear IH He; destruct (decide (date = x)) as [->|]; tauto].
      constructor; [done|]. rewrite Forall_forall. intros z Hz. apply He in Hz. apply Hx, Hz.
    + split; [done|]. intros date. rewrite !elem_of_cons, He. clear IH He.
      destruct (decide (date = x)) as [->|]; [|tauto]. rewrite K. intuition done.
  - destruct (IH lhs (y :: rhs) ltac:(cbn; lia) Hl' Hr) as [Ha He]. split; [done|].
    assert (x ∉ y :: rhs) as Nr. 2: { intros date. rewrite He, (elem_of_cons lhs). clear IH He. destruct (decide (date = x)) as [->|]; tauto. }
    intros [->|Hin]%elem_of_cons; [by rewrite dateLess_irreflexive in E'|].
    pose proof (dateLess_trans _ _ _ E' (Hy _ Hin)) as H. by rewrite dateLess_irreflexive in H.
  - destruct (IH (x :: lhs) rhs ltac:(cbn; lia) Hl Hr') as [Ha He]. split; [done|].
    assert (y ∉ x :: lhs) as Nl. 2: { intros date. rewrite He, (elem_of_cons rhs). clear IH He. destruct (decide (date = y)) as [->|]; tauto. }
    intros [->|Hin]%elem_of_cons; [by rewrite (proj2 (dateEqual_spec x x)) in E|].
    pose proof (Hx _ Hin). congruence.
Qed.

(** The dates read from a listing are in calendar order without repeats, and those of
    four-digit years are exactly the valid dates whose archive and whose checksum file are both
    listed under the names the importer asks for. *)
Theorem available_dates xml channel symbol :
  let dates := parseAvailableVisionDates xml channel symbol in
  ascending dates /\
  forall date, (date ∈ dates /\ 1000 <= da_year date) <->
    dateText date /\ visionDailyKey channel symbol date ∈ parseS3Keys xml /\
    visionDailyKey channel symbol date ++ kChecksumSuffix ∈ parseS3Keys xml.
Proof.
  cbv zeta. unfold parseAvailableVisionDates. set (zips := sortUnique _). set (sums := sortUnique (omap (checksumDate _ _) _)).
  destruct (commonDates_spec (fun _ => true) (length zips + length sums) zips sums) as [Ha He];
    [done|apply sortUnique_ascending..|]. split; [done|]. intros date. rewrite He. unfold zips, sums.
  rewrite !sortUnique_elem, !list_elem_of_omap. split.
  - intros ((( k1 & I1 & E1) & (k2 & I2 & E2) & _) & Hy).
    destruct (proj1 (visionKey_date _ _ _ _) (conj E1 Hy)) as [-> Hd].
    destruct (proj1 (checksum_date _ _ _ _) (conj E2 Hy)) as [-> _]. done.
  - intros (Hd & I1 & I2). split; [|apply Hd]. split_and!; [| |done].
    + eexists. split; [exact I1|]. by apply visionKey_date.
    + eexists. split; [exact I2|]. by apply checksum_date.
Qed.

(** The dates offered for import are the last ones, at most [limit] of them, of the
    dates on which both channels are available and which are not after the given date, in calendar order. *)
Theorem latest_common_dates lhs rhs notAfter limit : exists common,
  ascending common /\
  (forall date, date ∈ common <-> date ∈ lhs /\ date ∈ rhs /\ dateLess notAfter date = false) /\
  latestCommonDates lhs rhs notAfter limit = drop (length common - limit) common.
Proof.
  unfold latestCommonDates. set (keep := fun date => negb (dateLess notAfter date)).
  destruct (commonDates_spec keep (length (sortUnique lhs) + length (sortUnique rhs)) (sortUnique lhs) (sortUnique rhs))
    as [Ha He]; [done|apply sortUnique_ascending..|]. eexists. split; [exact Ha|]. split.
  - intros date. rewrite He, !sortUnique_elem. unfold keep. by rewrite negb_true_iff.
  - destruct (Nat.ltb_spec limit (length (commonDates (length (sortUnique lhs) + length (sortUnique rhs)) keep
      (sortUnique lhs) (sortUnique rhs)))); [done|].
    by rewrite (proj2 (Nat.sub_0_le _ _)) by lia.
Qed.
